(* ===== verification/_CoqProject ===== *)
-Q . S2P
Prelude.v
Avl.v
AvlInv.v
AvlSafe.v
AvlRemove.v
AvlSpec.v
Blkio.v
Blktable.v
NameCache.v
NameCacheInv.v
NameCacheSpec.v
Crc.v
Lease.v
LeaseSafe.v
Alloc.v
Object.v
Inode.v
Dir.v
DirBase.v
DirName.v
DirInv.v
DirStep.v
DirTree.v
DirOps.v
DirView.v
Dx.v
DxInv.v
DxOps.v
DxTx.v
DxSteps.v
DxRename.v
Namei.v
NameiInv.v
NameiOps.v
Memdir.v
MemdirOps.v
MemdirSpec.v
MemdirRename.v
Api.v
ApiOps.v
NsCache.v
NsView.v
InodeInv.v
File.v
FileSafe.v
FileSpec.v
FileOps.v
Discard.v
DiscardInv.v
DiscardSafe.v
FileProps.v
Tx.v
TxSafe.v
Meta.v
LogIo.v
Trim.v
Log.v
LogSem.v
LogCirc.v
LogInv.v
MetaInv.v
Format.v
FormatInv.v
FormatNs.v
FormatSpec.v
NsSpec.v
TrimInv.v
LogSafe.v
LogThread.v
Mount.v
Replay.v
MountSafe.v
System.v
Doubt.v
