(* ===== verification/Prelude.v ===== *)
(** * PolarFS core: a verification development

    PolarFS is a user-space file system on a shared block device.  One host
    writes at a time; all hosts recover the meta data from the device.  This
    development models the storage core (src/src/pfs_core), the part of mkfs
    that writes a volume (src/src/pfs_tools/cmd_mkfs.cc) and the checksum
    (src/third-party/fast-crc32), and proves what makes them correct.

    ** The program and its parts

    A volume is a row of chunks.  Each has a header and three tables of meta
    objects: block tags, directory entries and inodes.  The meta objects are
    cached in memory and change by transactions (pfs_tx.cc), which the log
    thread (pfs_log.cc) makes durable in a circular journal before it writes
    the meta sectors.  The leader record (pfs_paxos.cc) anchors the journal,
    and records of the hosts beside it carry the lease of the writing host.
    Free objects are found through trees of counters (pfs_alloc.cc).  On the
    objects sit the directories (pfs_dir.cc), the inodes in memory with the
    block index of a file and the name index of a directory (pfs_inode.cc),
    the lookup of paths (pfs_namei.cc) with a cache of names
    (pfs_namecache.cc), and the data path of files (pfs_file.cc, pfs_blkio.cc).
    pfs_api.cc is the surface.  Blocks of removed files are trimmed on the
    device by a discard thread (pfs_mount.cc).

    ** Files of the development

    Models carry the names of the source; the files after them hold their
    invariants and theorems.
    - Prelude: machine integers, the option monad of aborts, errors, tactics,
      hint databases, generic lemmas.
    - Crc: [pfs_fastcrc32c_sw] and its wrappers.
    - Alloc: the allocation trees of pfs_alloc.cc.
    - Object, Tx, Meta: meta objects (pfs_meta.h), transactions (pfs_tx.cc),
      metasets, redo and replay (pfs_meta.cc); TxSafe, MetaInv.
    - LogIo, Trim, Log: entries, I/O programs, trim groups, and the request
      handlers and turn of the log thread (pfs_log.cc).  LogSem runs programs
      against a device that fails, tears and loses writes; LogCirc, LogInv,
      TrimInv, LogSafe, LogThread hold the proofs.
    - Mount: the reading half of [pfs_mount]; Replay, MountSafe; System
      composes mount, log thread, checkpoints and crashes; Doubt has a run
      of a host whose failed write of the leader record arrived.
    - Lease: host and leader records and the lease protocol of pfs_paxos.cc;
      LeaseSafe interleaves hosts at every clock reading and sector access.
    - Avl: pfs_avl.cc on a heap of linked nodes; AvlInv, AvlSafe, AvlRemove,
      AvlSpec.
    - Blkio, Blktable, Inode, File: block I/O, the block index, the inode of
      a file and its transactions, the calls on an open file; InodeInv,
      FileSafe, FileSpec, FileOps, FileProps.
    - Discard: block tags, trees of free blocks and the discard thread;
      DiscardInv, DiscardSafe.
    - Format: [pfs_make], [pfs_grow], the loader of chunks, pfs_version.cc;
      FormatInv, FormatNs, FormatSpec.
    - NameCache: pfs_namecache.cc with its incremental expansion;
      NameCacheInv, NameCacheSpec.
    - Dir: pfs_dir.cc on the meta objects.  DirInv defines the abstract
      namespace, a tree of nodes, and [rep], which relates it to the objects;
      DirBase, DirName, DirStep, DirTree, DirOps, DirView prove the operations
      against it.
    - Dx: the index of a directory in memory and the transaction around an
      operation; DxInv, DxOps, DxTx, DxSteps, DxRename.
    - Namei: path lookup and the check of a path under the lock; NameiInv
      defines path resolution on trees, NameiOps proves lookup against it.
    - Memdir, Api: the operations on paths (pfs_memdir_* in pfs_dir.cc) and
      the calls of pfs_api.cc; MemdirOps, MemdirSpec, MemdirRename, ApiOps.
    - NsCache: the name cache as an instance of the interface
      [NCacheOps]/[NCacheLaws] the namespace is proved against.
    - NsView, NsSpec: listings, paths, and the properties of the namespace.

    ** What the theorems show

    - The metadata store (System): atomic, durable, free of failed assertions
      (but for a mount whose journal read fails), exact in recovery; every
      turn of the log thread ends.  The device fails any read and write; a
      failed write of the leader record may have arrived, which leaves the
      host in doubt, and the runs considered have no turn of such a host
      before it is restarted.  Doubt shows that this condition is needed.
    - The lease (LeaseSafe): two hosts never hold it at once.
    - Transactions (TxSafe) refine an overlay of private copies.
    - Files (FileProps, Blktable, Blkio): calls refine operations on a list of
      bytes, the block index a finite map, block I/O a byte store.
    - The namespace (NsSpec): sequences of calls by path refine operations on
      the tree; lookup resolves paths, whatever the cache holds; the check
      under the lock is exact, and creation, removal and renaming are right
      whatever happened between lookup and lock; paths and listings match the
      tree; retries end.
    - The name cache (NameCacheSpec) refines a bounded list of names, and
      (NsCache) meets the interface of the namespace.
    - Volumes (FormatSpec): mkfs yields a well-formed namespace, growing is
      all or nothing.
    - Discard (DiscardSafe) trims free blocks only.
    - Trees (AvlSpec, Alloc) and checksum (Crc) meet their specifications.
    - Some theorems state flaws: a host in doubt that goes on mixes two
      transactions, unlocked partial sector writes lose updates, a failed
      write shows up later, a read hides an error, a table index overflows.

    ** Conventions, bounds and fuel

    A failed assertion, an access outside memory and an exit are [None];
    errors of the code are negative numbers.  w-bit values are [Z], wrapped
    where the code can reach the wrap.  Strings are lists of bytes without the
    final NUL.  Outcomes of the environment (results of I/O, of commits,
    clocks, addresses of new memory) are arguments or choices of a step
    relation, and the theorems hold for all of them.
    Loops that follow links or retry take a bound.  The bound is the number of
    objects that can be met (entries of a list, nodes of a path, members of an
    index), a height for trees (twice the logarithm of the size), or for the
    log thread the bound of rounds that [turn_terminates] proves; the theorems
    show that it is not reached.  The waits of the lease protocol run for an
    arbitrary number of rounds ([fuel] of Lease); its theorem is a safety
    property that holds for every number.  Retries of a call take the list of
    the outcomes of their commits.

    ** Not modelled

    - Descriptors, stat, open, fmap and the release of files (pfs_file.cc),
      du, extended attributes, stale inodes marked by the replay on a host
      that reads only, and the poll thread: they need the mount table and
      threads that share it.
    - Locks have no state.  The model of the namespace runs one thread at a
      time, and the theorems on the parts under a lock quantify over the
      namespace they find, which stands for what other threads did.
    - The store (System), the files and the namespace have one model each of
      the transaction around them: System at the level of the journal, Inode
      and Dx by its effect on the objects (commit or rollback).
    - The paxos file and journal file are laid out by the tools, whose option
      parsing and safety prompts are left out.
    - Configuration, memory and thread-local bookkeeping, tracing, statistics,
      the administration socket, the daemon, its shared-memory transport and
      SDK, the FUSE front end and the other tools: no effect on the stored
      data other than through the calls above.
    - Device drivers: their outcomes are the choices of the device models.  A
      write that failed takes effect at once or never.
    - A host in doubt that polls its own journal and replays what it finds:
      the replay is modelled for the mount only. *)

From stdpp Require Export base functions tactics list gmap.
From Stdlib Require Export ZArith Lia.

#[global] Open Scope Z_scope.

(** ** Machine integers

    A w-bit unsigned value is a [Z] in [0, 2^w).  Only the operations whose
    wrap-around the code can reach are wrapped. *)
Definition u32_max : Z := 4294967295.
Definition wrap32 (z : Z) : Z := z mod 2 ^ 32.
Definition wrap64 (z : Z) : Z := z mod 2 ^ 64.
Definition is_u8 (z : Z) : Prop := 0 <= z < 2 ^ 8.
Definition is_u32 (z : Z) : Prop := 0 <= z < 2 ^ 32.
Definition is_u64 (z : Z) : Prop := 0 <= z < 2 ^ 64.
(** Conversion of a 64-bit value to [int]. *)
Definition to_int (z : Z) : Z := (z + 2 ^ 31) mod 2 ^ 32 - 2 ^ 31.
(** Bitwise complement at 32 bits, C's [~] on [uint32_t]. *)
Definition not32 (z : Z) : Z := Z.lxor z u32_max.
(** Little-endian bytes of an integer field. *)
Fixpoint le_bytes (n : nat) (z : Z) : list Z :=
  match n with
  | O => []
  | S n => Z.land z 255 :: le_bytes n (Z.shiftr z 8)
  end.

(** ** errno values (Linux) *)
Definition ENOENT : Z := 2.
Definition EIO : Z := 5.
Definition E2BIG : Z := 7.
Definition EBADF : Z := 9.
Definition EAGAIN : Z := 11.
Definition ENOMEM : Z := 12.
Definition EACCES : Z := 13.
Definition EBUSY : Z := 16.
Definition EEXIST : Z := 17.
Definition ENOTDIR : Z := 20.
Definition EISDIR : Z := 21.
Definition EINVAL : Z := 22.
Definition EMFILE : Z := 24.
Definition EFBIG : Z := 27.
Definition ENOSPC : Z := 28.
Definition EROFS : Z := 30.
Definition ERANGE : Z := 34.
Definition ENAMETOOLONG : Z := 36.
Definition ENOTEMPTY : Z := 39.
Definition ENODATA : Z := 61.
Definition EOVERFLOW : Z := 75.
Definition ETIMEDOUT : Z := 110.

(** ** Sizes of the device *)
Definition PBD_SECTOR_SIZE : Z := 4096.
Definition PFS_FRAG_SIZE : Z := Z.shiftl 16 10.

(** ** Aborting code

    [PFS_ASSERT], [PFS_VERIFY], [abort] and [exit] end the process.  A
    function that can reach one of them returns [option]; [None] is the
    abort, and the bind propagates it.  Error codes that the code returns
    are ordinary values (negative [Z]). *)
Declare Scope pfs_scope.
Delimit Scope pfs_scope with pfs.
Notation "'PFS_ASSERT' b ;; k" := (if b : bool then k else None)
  (at level 100, b at level 99, k at level 200, right associativity,
   format "'[v' 'PFS_ASSERT'  b  ;; '/' k ']'") : pfs_scope.
Notation "'let*' p := e 'in' k" := (match e with Some p => k | None => None end)
  (at level 10, p pattern, e at level 200, k at level 200) : pfs_scope.

(** ** Automation *)
Create HintDb pfs.

(** Split every boolean test in sight into its proposition. *)
Ltac bool_prop :=
  repeat match goal with
  | H : (_ && _)%bool = true |- _ => apply andb_true_iff in H as [? ?]
  | H : (_ || _)%bool = false |- _ => apply orb_false_iff in H as [? ?]
  | H : negb _ = true |- _ => apply negb_true_iff in H
  | H : negb _ = false |- _ => apply negb_false_iff in H
  | H : (_ =? _) = true |- _ => apply Z.eqb_eq in H
  | H : (_ =? _) = false |- _ => apply Z.eqb_neq in H
  | H : (_ <? _) = true |- _ => apply Z.ltb_lt in H
  | H : (_ <? _) = false |- _ => apply Z.ltb_ge in H
  | H : (_ <=? _) = true |- _ => apply Z.leb_le in H
  | H : (_ <=? _) = false |- _ => apply Z.leb_gt in H
  | H : bool_decide _ = true |- _ => apply bool_decide_eq_true in H
  | H : bool_decide _ = false |- _ => apply bool_decide_eq_false in H
  end.

(** Case analysis on the first test or match of the goal or of [H]. *)
Ltac break_goal := match goal with
  | |- context [match ?x with _ => _ end] => destruct x eqn:?
  end.
Ltac break_in H := match type of H with
  | context [match ?x with _ => _ end] => destruct x eqn:?
  end.
(** Follow a successful run of aborting code: each test that would abort is
    refuted, each result is named. *)
Ltac run_inv H :=
  repeat (break_in H; try discriminate H); simplify_eq; bool_prop.

(** ** Generic lemmas *)
Lemma wrap64_small z : is_u64 z -> wrap64 z = z.
Proof. unfold is_u64, wrap64. intros. apply Z.mod_small. lia. Qed.
Lemma wrap32_range z : is_u32 (wrap32 z).
Proof. unfold wrap32, is_u32. apply Z.mod_pos_bound. lia. Qed.
Lemma wrap64_range z : is_u64 (wrap64 z).
Proof. unfold wrap64, is_u64. apply Z.mod_pos_bound. lia. Qed.
#[export] Hint Resolve wrap32_range wrap64_range : pfs.

Lemma length_le_bytes n z : length (le_bytes n z) = n.
Proof. revert z; induction n; intros; simpl; auto. Qed.
Lemma le_bytes_u8 n z : Forall is_u8 (le_bytes n z).
Proof.
  revert z; induction n; intros; simpl; constructor; auto.
  unfold is_u8. change 255 with (Z.ones 8). rewrite Z.land_ones by lia.
  apply Z.mod_pos_bound. lia.
Qed.
#[export] Hint Resolve le_bytes_u8 : pfs.
