(* ===== verification/Avl.v ===== *)
(** * AVL trees

    Model of pfs_avl.cc: trees of nodes that their users own, linked by
    addresses, with the parent, the child index and the balance of a node
    packed in one word.  The heap maps the address of a node to the node; an
    access to an address that is not a node ends the run, like a failed
    assertion.  [fuel] bounds the loops that follow links. *)

From S2P Require Import Prelude.

Open Scope pfs_scope.

(** ** Nodes and the packed word *)
Definition PFS_AVL_BEFORE : Z := 0.
Definition PFS_AVL_AFTER : Z := 1.
Definition PFS_CHILD_SHIFT : Z := 2.
Definition PFS_PARENT_MASK : Z := 7.
Definition PFS_BALANCE_MASK : Z := 3.

Record pfs_avl_node := MkNode { avl_child0 : Z; avl_child1 : Z; avl_pcb : Z }.

Definition avl_child (n : pfs_avl_node) (i : Z) : Z := if i =? 0 then avl_child0 n else avl_child1 n.
Definition set_avl_child (i v : Z) (n : pfs_avl_node) : pfs_avl_node :=
  if i =? 0 then MkNode v (avl_child1 n) (avl_pcb n) else MkNode (avl_child0 n) v (avl_pcb n).
Definition set_pcb (v : Z) (n : pfs_avl_node) : pfs_avl_node := MkNode (avl_child0 n) (avl_child1 n) v.

Definition child2balance (i : Z) : Z := if i =? 0 then -1 else 1.
(** [balance2child[b + 1]]. *)
Definition balance2child (b : Z) : Z := if b =? 1 then 1 else 0.

Definition pfs_avl_node_parent (n : pfs_avl_node) : Z := Z.ldiff (avl_pcb n) PFS_PARENT_MASK.
Definition pfs_avl_node_setparent (parent : Z) (n : pfs_avl_node) : pfs_avl_node :=
  set_pcb (Z.lor (Z.land (avl_pcb n) PFS_PARENT_MASK) parent) n.
Definition pfs_avl_node_child (n : pfs_avl_node) : Z := Z.land (Z.shiftr (avl_pcb n) PFS_CHILD_SHIFT) 1.
Definition pfs_avl_node_setchild (child : Z) (n : pfs_avl_node) : pfs_avl_node :=
  set_pcb (Z.lor (Z.ldiff (avl_pcb n) (Z.shiftl 1 PFS_CHILD_SHIFT)) (Z.shiftl child PFS_CHILD_SHIFT)) n.
Definition pfs_avl_node_balance (n : pfs_avl_node) : Z := Z.land (avl_pcb n) PFS_BALANCE_MASK - 1.
Definition pfs_avl_node_setbalance (balance : Z) (n : pfs_avl_node) : pfs_avl_node :=
  set_pcb (Z.lor (Z.ldiff (avl_pcb n) PFS_BALANCE_MASK) (balance + 1)) n.

Definition pfs_avl_node2data (node off : Z) : Z := node - off.
Definition pfs_avl_data2node (data off : Z) : Z := data + off.
Definition pfs_avl_mkindex (node direction : Z) : Z := Z.lor node direction.
Definition pfs_avl_index2child (where_ : Z) : Z := Z.land where_ 1.
Definition pfs_avl_index2node (where_ : Z) : Z := Z.ldiff where_ 1.

(** ** Trees *)
Abbreviation heap := (gmap Z pfs_avl_node).

Record pfs_avl_tree := MkTree { avl_root : Z; avl_numnodes : Z }.
Definition set_root (v : Z) (t : pfs_avl_tree) : pfs_avl_tree := MkTree v (avl_numnodes t).
Definition set_numnodes (v : Z) (t : pfs_avl_tree) : pfs_avl_tree := MkTree (avl_root t) v.

Definition upd (p : Z) (f : pfs_avl_node -> pfs_avl_node) (h : heap) : option heap :=
  match h !! p with Some n => Some (<[p := f n]> h) | None => None end.

(** [if (p) { setparent(p, parent); setchild(p, child); }] *)
Definition relink (p parent child : Z) (h : heap) : option heap :=
  if negb (p =? 0) then
    let* h := upd p (pfs_avl_node_setparent parent) h in
    upd p (pfs_avl_node_setchild child) h
  else Some h.

(** The link to a node from its parent, or from the tree. *)
Definition link_from (parent child v : Z) (tree : pfs_avl_tree) (h : heap) : option (pfs_avl_tree * heap) :=
  if negb (parent =? 0) then
    let* h := upd parent (set_avl_child child v) h in Some (tree, h)
  else Some (set_root v tree, h).

Definition pfs_avl_numnodes (tree : pfs_avl_tree) : Z := avl_numnodes tree.
Definition pfs_avl_is_empty (tree : pfs_avl_tree) : bool := avl_numnodes tree =? 0.

(** ** Rotation *)
Definition rotate_single (tree : pfs_avl_tree) (h : heap) (node child parent left right which_child child_bal : Z)
    (cd : pfs_avl_node) : option (pfs_avl_tree * heap * Z) :=
  let cright := avl_child cd right in
  let* h := upd node (set_avl_child left cright) h in
  let* h := relink cright node left h in
  let* h := upd child (set_avl_child right node) h in
  let* h := upd node (pfs_avl_node_setbalance (- child_bal)) h in
  let* h := upd node (pfs_avl_node_setchild right) h in
  let* h := upd node (pfs_avl_node_setparent child) h in
  let* h := upd child (pfs_avl_node_setbalance child_bal) h in
  let* h := upd child (pfs_avl_node_setchild which_child) h in
  let* h := upd child (pfs_avl_node_setparent parent) h in
  let* r := link_from parent which_child child tree h in
  let '(tree, h) := r in
  Some (tree, h, if child_bal =? 0 then 1 else 0).

Definition rotate_double (tree : pfs_avl_tree) (h : heap) (node child parent left right which_child lheavy rheavy : Z)
    (cd : pfs_avl_node) : option (pfs_avl_tree * heap * Z) :=
  let gchild := avl_child cd right in
  let* gd := h !! gchild in
  let gleft := avl_child gd left in
  let gright := avl_child gd right in
  let* h := upd node (set_avl_child left gright) h in
  let* h := relink gright node left h in
  let* h := upd child (set_avl_child right gleft) h in
  let* h := relink gleft child right h in
  let* gd := h !! gchild in
  let balance := pfs_avl_node_balance gd in
  let* h := upd gchild (set_avl_child left child) h in
  let* h := upd child (pfs_avl_node_setbalance (if balance =? rheavy then lheavy else 0)) h in
  let* h := upd child (pfs_avl_node_setparent gchild) h in
  let* h := upd child (pfs_avl_node_setchild left) h in
  let* h := upd gchild (set_avl_child right node) h in
  let* h := upd node (pfs_avl_node_setbalance (if balance =? lheavy then rheavy else 0)) h in
  let* h := upd node (pfs_avl_node_setparent gchild) h in
  let* h := upd node (pfs_avl_node_setchild right) h in
  let* h := upd gchild (pfs_avl_node_setbalance 0) h in
  let* h := upd gchild (pfs_avl_node_setparent parent) h in
  let* h := upd gchild (pfs_avl_node_setchild which_child) h in
  let* r := link_from parent which_child gchild tree h in
  let '(tree, h) := r in
  Some (tree, h, 1).

Definition pfs_avl_rotation (tree : pfs_avl_tree) (h : heap) (node balance : Z)
  : option (pfs_avl_tree * heap * Z) :=
  let left := if balance <? 0 then 0 else 1 in
  let right := 1 - left in
  let lheavy := Z.shiftr balance 1 in
  let rheavy := - lheavy in
  let* nd := h !! node in
  let parent := pfs_avl_node_parent nd in
  let child := avl_child nd left in
  let which_child := pfs_avl_node_child nd in
  let* cd := h !! child in
  let child_bal := pfs_avl_node_balance cd in
  if negb (child_bal =? rheavy)
  then rotate_single tree h node child parent left right which_child (child_bal + rheavy) cd
  else rotate_double tree h node child parent left right which_child lheavy rheavy cd.

(** ** Walking *)
Section Offset.
Context (avl_offset : Z).

Fixpoint avl_descend (fuel : nat) (h : heap) (node right : Z) : option Z :=
  match fuel with
  | O => None
  | S fuel =>
      let* nd := h !! node in
      if avl_child nd right =? 0 then Some node else avl_descend fuel h (avl_child nd right) right
  end.

Fixpoint avl_ascend (fuel : nat) (h : heap) (node right : Z) : option Z :=
  match fuel with
  | O => None
  | S fuel =>
      let* nd := h !! node in
      let child := pfs_avl_node_child nd in
      let node := pfs_avl_node_parent nd in
      if node =? 0 then Some 0
      else if child =? right then Some node
      else avl_ascend fuel h node right
  end.

(** The data returned, [0] for none. *)
Definition pfs_avl_walk (fuel : nat) (h : heap) (data left : Z) : option Z :=
  let right := 1 - left in
  let node := pfs_avl_data2node data avl_offset in
  if node =? 0 then Some 0 else
  let* nd := h !! node in
  if negb (avl_child nd left =? 0) then
    let* node := avl_descend fuel h (avl_child nd left) right in
    Some (pfs_avl_node2data node avl_offset)
  else
    let* node := avl_ascend fuel h node right in
    Some (if node =? 0 then 0 else pfs_avl_node2data node avl_offset).

Fixpoint avl_outermost (fuel : nat) (h : heap) (node prev direction : Z) : option Z :=
  if node =? 0 then Some prev else
  match fuel with
  | O => None
  | S fuel => let* nd := h !! node in avl_outermost fuel h (avl_child nd direction) node direction
  end.
Definition pfs_avl_outermost (fuel : nat) (tree : pfs_avl_tree) (h : heap) (direction : Z) : option Z :=
  let* prev := avl_outermost fuel h (avl_root tree) 0 direction in
  Some (if prev =? 0 then 0 else pfs_avl_node2data prev avl_offset).

Definition pfs_avl_first (fuel : nat) (tree : pfs_avl_tree) (h : heap) : option Z :=
  pfs_avl_outermost fuel tree h PFS_AVL_BEFORE.
Definition pfs_avl_last (fuel : nat) (tree : pfs_avl_tree) (h : heap) : option Z :=
  pfs_avl_outermost fuel tree h PFS_AVL_AFTER.
Definition pfs_avl_next (fuel : nat) (h : heap) (data : Z) : option Z := pfs_avl_walk fuel h data PFS_AVL_AFTER.
Definition pfs_avl_prev (fuel : nat) (h : heap) (data : Z) : option Z := pfs_avl_walk fuel h data PFS_AVL_BEFORE.

End Offset.

(** The comparisons in use, by the inode number and by the hash of the name. *)
Definition pfs_inode_compare (in_ino : Z -> Z) (keya keyb : Z) : Z :=
  if in_ino keya >? in_ino keyb then 1 else if in_ino keya <? in_ino keyb then -1 else 0.
Definition pfs_inode_dx_compare (e_nmhash : Z -> Z) (keya keyb : Z) : Z :=
  if e_nmhash keya >? e_nmhash keyb then 1 else if e_nmhash keya <? e_nmhash keyb then -1 else 0.

Section Compar.
Context (avl_offset : Z).

(** ** Search

    [compar] is the comparison of two data addresses; the result is the data
    found, or [0] and where to insert. *)
Context (compar : Z -> Z -> Z).

Fixpoint avl_find_loop (fuel : nat) (h : heap) (value node prev direction : Z) : option (Z * Z) :=
  if node =? 0 then Some (0, pfs_avl_mkindex prev direction) else
  match fuel with
  | O => None
  | S fuel =>
      let diff := compar value (pfs_avl_node2data node avl_offset) in
      PFS_ASSERT ((-1 <=? diff) && (diff <=? 1)) ;;
      if negb (diff =? 0) then
        let direction := balance2child diff in
        let* nd := h !! node in
        avl_find_loop fuel h value (avl_child nd direction) node direction
      else Some (pfs_avl_node2data node avl_offset, 0)
  end.
Definition pfs_avl_find (fuel : nat) (tree : pfs_avl_tree) (h : heap) (value : Z) : option (Z * Z) :=
  avl_find_loop fuel h value (avl_root tree) 0 0.

(** ** Insertion *)
Fixpoint avl_insert_up (fuel : nat) (tree : pfs_avl_tree) (h : heap) (node child : Z)
  : option (pfs_avl_tree * heap) :=
  if node =? 0 then Some (tree, h) else
  match fuel with
  | O => None
  | S fuel =>
      let* nd := h !! node in
      let obalance := pfs_avl_node_balance nd in
      let nbalance := obalance + child2balance child in
      if nbalance =? 0 then
        let* h := upd node (pfs_avl_node_setbalance 0) h in Some (tree, h)
      else if negb (obalance =? 0) then
        let* r := pfs_avl_rotation tree h node nbalance in
        let '(tree, h, _) := r in Some (tree, h)
      else
        let* h := upd node (pfs_avl_node_setbalance nbalance) h in
        let* nd := h !! node in
        avl_insert_up fuel tree h (pfs_avl_node_parent nd) (pfs_avl_node_child nd)
  end.

Definition pfs_avl_insert (fuel : nat) (tree : pfs_avl_tree) (h : heap) (data where_ : Z)
  : option (pfs_avl_tree * heap) :=
  let child := pfs_avl_index2child where_ in
  let node := pfs_avl_data2node data avl_offset in
  let parent := pfs_avl_index2node where_ in
  PFS_ASSERT (Z.land data 7 =? 0) ;;
  let* h := upd node (set_avl_child 1 0) h in
  let* h := upd node (set_avl_child 0 0) h in
  let* h := upd node (pfs_avl_node_setparent parent) h in
  let* h := upd node (pfs_avl_node_setchild child) h in
  let* h := upd node (pfs_avl_node_setbalance 0) h in
  let tree := set_numnodes (avl_numnodes tree + 1) tree in
  if parent =? 0 then
    PFS_ASSERT (avl_root tree =? 0) ;;
    Some (set_root node tree, h)
  else
    let* pd := h !! parent in
    PFS_ASSERT (avl_child pd child =? 0) ;;
    let* h := upd parent (set_avl_child child node) h in
    avl_insert_up fuel tree h parent child.

Definition pfs_avl_add (fuel : nat) (tree : pfs_avl_tree) (h : heap) (new_node : Z)
  : option (pfs_avl_tree * heap) :=
  let* r := pfs_avl_find fuel tree h new_node in
  let '(data, where_) := r in
  PFS_ASSERT (data =? 0) ;;
  pfs_avl_insert fuel tree h new_node where_.

(** ** Removal *)
Definition pfs_detach_noninterior (tree : pfs_avl_tree) (h : heap) (node : Z) : option (pfs_avl_tree * heap) :=
  let* nd := h !! node in
  let parent := pfs_avl_node_parent nd in
  let b := pfs_avl_node_balance nd in
  let childidx := pfs_avl_node_child nd in
  if b =? 0 then
    PFS_ASSERT (avl_child nd 0 =? 0) ;;
    PFS_ASSERT (avl_child nd 1 =? 0) ;;
    link_from parent childidx 0 tree h
  else
    let child := avl_child nd (balance2child b) in
    let* h := upd child (pfs_avl_node_setparent parent) h in
    let* h := upd child (pfs_avl_node_setchild childidx) h in
    link_from parent childidx child tree h.

Fixpoint avl_remove_up (fuel : nat) (tree : pfs_avl_tree) (h : heap) (node childidx : Z)
  : option (pfs_avl_tree * heap) :=
  if node =? 0 then Some (tree, h) else
  match fuel with
  | O => None
  | S fuel =>
      let* nd := h !! node in
      let old_balance := pfs_avl_node_balance nd in
      let new_balance := old_balance - child2balance childidx in
      let parent := pfs_avl_node_parent nd in
      let childidx := pfs_avl_node_child nd in
      if old_balance =? 0 then
        let* h := upd node (pfs_avl_node_setbalance new_balance) h in Some (tree, h)
      else if new_balance =? 0 then
        let* h := upd node (pfs_avl_node_setbalance new_balance) h in
        avl_remove_up fuel tree h parent childidx
      else
        let* r := pfs_avl_rotation tree h node new_balance in
        let '(tree, h, rv) := r in
        if rv =? 0 then Some (tree, h) else avl_remove_up fuel tree h parent childidx
  end.

(** An interior node changes place with its neighbour; [tmp] is the address
    of the copy on the stack, which takes the neighbour's place. *)
Definition avl_exchange (tree : pfs_avl_tree) (h : heap) (node subst tmp : Z) (nd : pfs_avl_node)
  : option (pfs_avl_tree * heap * Z * Z) :=
  let parent := pfs_avl_node_parent nd in
  let* td := h !! subst in
  let h := <[tmp := td]> h in
  let* nd := h !! node in
  let* h := upd subst (fun _ => nd) h in
  let* h := (if pfs_avl_node_parent td =? node then upd subst (set_avl_child (pfs_avl_node_child td) tmp) h
             else Some h) in
  let* sd := h !! subst in
  let childidx := pfs_avl_node_child sd in
  let* r := link_from parent childidx subst tree h in
  let '(tree, h) := r in
  let* sd := h !! subst in
  let* h := upd (avl_child sd 0) (pfs_avl_node_setparent subst) h in
  let* sd := h !! subst in
  let* h := upd (avl_child sd 1) (pfs_avl_node_setparent subst) h in
  let* td := h !! tmp in
  let parent := pfs_avl_node_parent td in
  let* h := upd parent (set_avl_child (pfs_avl_node_child td) tmp) h in
  let* td := h !! tmp in
  let childidx := balance2child (pfs_avl_node_balance td) in
  let* h := (if negb (avl_child td childidx =? 0)
             then upd (avl_child td childidx) (pfs_avl_node_setparent tmp) h else Some h) in
  let* td := h !! tmp in
  Some (tree, h, parent, pfs_avl_node_child td).

Definition pfs_avl_remove (fuel : nat) (tree : pfs_avl_tree) (h : heap) (data tmp : Z)
  : option (pfs_avl_tree * heap) :=
  let node := pfs_avl_data2node data avl_offset in
  let* nd := h !! node in
  let parent := pfs_avl_node_parent nd in
  let childidx := pfs_avl_node_child nd in
  PFS_ASSERT (avl_numnodes tree >? 0) ;;
  let tree := set_numnodes (avl_numnodes tree - 1) tree in
  let* r := (if negb (avl_child nd 0 =? 0) && negb (avl_child nd 1 =? 0) then
               let* s := pfs_avl_walk avl_offset fuel h data (balance2child (pfs_avl_node_balance nd)) in
               let* r := avl_exchange tree h node (pfs_avl_data2node s avl_offset) tmp nd in
               let '(tree, h, parent, childidx) := r in
               Some (tree, h, tmp, parent, childidx)
             else Some (tree, h, node, parent, childidx)) in
  let '(tree, h, node, parent, childidx) := r in
  let* r := pfs_detach_noninterior tree h node in
  let '(tree, h) := r in
  avl_remove_up fuel tree h parent childidx.

Definition pfs_avl_create : option pfs_avl_tree :=
  PFS_ASSERT (Z.land avl_offset 7 =? 0) ;;
  Some (MkTree 0 0).
Definition pfs_avl_destroy (tree : pfs_avl_tree) : option unit :=
  PFS_ASSERT (avl_numnodes tree =? 0) ;;
  PFS_ASSERT (avl_root tree =? 0) ;;
  Some tt.
End Compar.
