(* ===== verification/AvlInv.v ===== *)
(** * The AVL trees of linked nodes are search trees

    Trees of addresses, what it means for the heap to hold one, and the
    proofs that every operation of [Avl] does to the heap what it should:
    search finds, insertion and removal change the ordered sequence of nodes
    by one and keep the tree balanced, walking steps to the neighbour. *)

From S2P Require Import Prelude Avl.

Open Scope pfs_scope.

(** ** The packed word *)
Definition aligned (p : Z) : Prop := Z.land p 7 = 0.
Definition pk (p c b : Z) : Z := Z.lor p (Z.lor (Z.shiftl c 2) (b + 1)).
Definition bit (c : Z) : Prop := c = 0 \/ c = 1.
Definition bal3 (b : Z) : Prop := b = -1 \/ b = 0 \/ b = 1.

Lemma aligned_low p i : aligned p -> 0 <= i < 3 -> Z.testbit p i = false.
Proof.
  intros Hp Hi. pose proof (f_equal (fun x => Z.testbit x i) Hp) as E. cbv beta in E.
  rewrite Z.land_spec, Z.bits_0 in E. change 7 with (Z.ones 3) in E.
  rewrite Z.ones_spec_low, andb_true_r in E by lia. done.
Qed.

Lemma low_high r i : 0 <= r < 8 -> 3 <= i -> Z.testbit r i = false.
Proof.
  intros Hr Hi. replace r with (r mod 2 ^ 3) by (apply Z.mod_small; simpl; lia).
  apply Z.mod_pow2_bits_high. lia.
Qed.

(** Bit by bit: the low three are computed, above them only the address counts. *)
Ltac word_bits Hp :=
  apply Z.bits_inj'; let i := fresh "i" in let Hi := fresh "Hi" in intros i Hi;
  rewrite ?Z.ldiff_spec, ?Z.lor_spec, ?Z.land_spec, ?Z.ldiff_spec, ?Z.lor_spec, ?Z.land_spec;
  destruct (Z.ltb_spec i 3);
  [repeat match goal with H : aligned ?q |- context [Z.testbit ?q i] => rewrite (aligned_low q i) by (done || lia) end;
   let H := fresh in assert (i = 0 \/ i = 1 \/ i = 2) as H by lia; destruct H as [->|[->| ->]]; reflexivity
  |repeat match goal with |- context [Z.testbit ?r i] => rewrite (low_high r i) by lia end; rewrite ?orb_false_r, ?andb_true_r, ?andb_false_r; reflexivity].

(** The low part of the word as a number. *)
Ltac pk_num := unfold pk;
  repeat match goal with
  | |- context [Z.lor (Z.shiftl ?c 2) ?b] =>
      let v := eval vm_compute in (Z.lor (Z.shiftl c 2) b) in change (Z.lor (Z.shiftl c 2) b) with v
  | |- context [Z.shiftl ?c 2] => let v := eval vm_compute in (Z.shiftl c 2) in change (Z.shiftl c 2) with v
  | |- context [?b + 1] => let v := eval vm_compute in (b + 1) in change (b + 1) with v
  end.

Lemma pk_parent p c b : aligned p -> bit c -> bal3 b -> Z.ldiff (pk p c b) 7 = p.
Proof. intros Hp [->| ->] [->|[->| ->]]; pk_num; word_bits Hp. Qed.

Lemma pk_balance p c b : aligned p -> bit c -> bal3 b -> Z.land (pk p c b) 3 - 1 = b.
Proof.
  intros Hp Hc Hb. assert (E : Z.land (pk p c b) 3 = b + 1); [|lia].
  destruct Hc as [->| ->], Hb as [->|[->| ->]]; pk_num; word_bits Hp.
Qed.

Lemma pk_child p c b : aligned p -> bit c -> bal3 b -> Z.land (Z.shiftr (pk p c b) 2) 1 = c.
Proof.
  intros Hp Hc Hb. assert (E : Z.land (pk p c b) 4 = Z.shiftl c 2).
  { destruct Hc as [->| ->], Hb as [->|[->| ->]]; pk_num; word_bits Hp. }
  apply (f_equal (fun x => Z.shiftr x 2)) in E. rewrite Z.shiftr_land in E. change (Z.shiftr 4 2) with 1 in E. rewrite E.
  by destruct Hc as [->| ->].
Qed.

Lemma pk_setparent p c b p' : aligned p -> bit c -> bal3 b -> aligned p' ->
  Z.lor (Z.land (pk p c b) 7) p' = pk p' c b.
Proof.
  intros Hp [->| ->] [->|[->| ->]] Hp'; pk_num; word_bits Hp.
Qed.

Lemma pk_setchild p c b c' : aligned p -> bit c -> bal3 b -> bit c' ->
  Z.lor (Z.ldiff (pk p c b) 4) (Z.shiftl c' 2) = pk p c' b.
Proof.
  intros Hp [->| ->] [->|[->| ->]] [->| ->]; pk_num; word_bits Hp.
Qed.

Lemma pk_setbalance p c b b' : aligned p -> bit c -> bal3 b -> bal3 b' ->
  Z.lor (Z.ldiff (pk p c b) 3) (b' + 1) = pk p c b'.
Proof.
  intros Hp [->| ->] [->|[->| ->]] [->|[->| ->]]; pk_num; word_bits Hp.
Qed.

(** ** Nodes seen from a side: [x] is the child [c], [y] the other one *)
Definition mkn (c x y w : Z) : pfs_avl_node := if c =? 0 then MkNode x y w else MkNode y x w.

Lemma mkn_child c x y w : avl_child (mkn c x y w) c = x.
Proof. unfold mkn, avl_child. by destruct (c =? 0). Qed.
Lemma mkn_other c x y w : bit c -> avl_child (mkn c x y w) (1 - c) = y.
Proof. by intros [->| ->]. Qed.
Lemma mkn_set_child c x y w v : set_avl_child c v (mkn c x y w) = mkn c v y w.
Proof. unfold mkn, set_avl_child. by destruct (c =? 0). Qed.
Lemma mkn_set_other c x y w v : bit c -> set_avl_child (1 - c) v (mkn c x y w) = mkn c x v w.
Proof. by intros [->| ->]. Qed.
Lemma mkn_pcb c x y w : avl_pcb (mkn c x y w) = w.
Proof. unfold mkn. by destruct (c =? 0). Qed.
Lemma mkn_set_pcb c x y w w' : set_pcb w' (mkn c x y w) = mkn c x y w'.
Proof. unfold mkn. by destruct (c =? 0). Qed.

Section Fields.
Context (c x y p ci b : Z).
Hypothesis Hp : aligned p.
Hypothesis Hc : bit ci.
Hypothesis Hb : bal3 b.
Lemma mkn_parent : pfs_avl_node_parent (mkn c x y (pk p ci b)) = p.
Proof. unfold pfs_avl_node_parent. rewrite mkn_pcb. by apply pk_parent. Qed.
Lemma mkn_idx : pfs_avl_node_child (mkn c x y (pk p ci b)) = ci.
Proof. unfold pfs_avl_node_child. rewrite mkn_pcb. by apply (pk_child p). Qed.
Lemma mkn_balance : pfs_avl_node_balance (mkn c x y (pk p ci b)) = b.
Proof. unfold pfs_avl_node_balance. rewrite mkn_pcb. by apply (pk_balance p ci). Qed.
Lemma mkn_setparent p' : aligned p' -> pfs_avl_node_setparent p' (mkn c x y (pk p ci b)) = mkn c x y (pk p' ci b).
Proof. intros. unfold pfs_avl_node_setparent. rewrite mkn_pcb, mkn_set_pcb. f_equal. by apply pk_setparent. Qed.
Lemma mkn_setidx ci' : bit ci' -> pfs_avl_node_setchild ci' (mkn c x y (pk p ci b)) = mkn c x y (pk p ci' b).
Proof. intros. unfold pfs_avl_node_setchild. rewrite mkn_pcb, mkn_set_pcb. f_equal. by apply (pk_setchild p ci). Qed.
Lemma mkn_setbalance b' : bal3 b' -> pfs_avl_node_setbalance b' (mkn c x y (pk p ci b)) = mkn c x y (pk p ci b').
Proof. intros. unfold pfs_avl_node_setbalance. rewrite mkn_pcb, mkn_set_pcb. f_equal. by apply (pk_setbalance p ci b). Qed.
End Fields.

(** ** Trees of addresses *)
Inductive tree :=
| E
| T (l : tree) (a b : Z) (r : tree).

(** [t1] is the child [c]. *)
Definition mk (c : Z) (t1 : tree) (a b : Z) (t2 : tree) : tree := if c =? 0 then T t1 a b t2 else T t2 a b t1.

Definition root_of (t : tree) : Z := match t with E => 0 | T _ a _ _ => a end.
Fixpoint addrs (t : tree) : list Z :=
  match t with E => [] | T l a _ r => addrs l ++ a :: addrs r end.

Lemma mk_cases c t : bit c -> t = E \/ exists t1 a b t2, t = mk c t1 a b t2.
Proof. intros [->| ->]; (destruct t as [|l a b r]; [by left|right]); [by exists l, a, b, r|by exists r, a, b, l]. Qed.
Lemma root_mk c t1 a b t2 : root_of (mk c t1 a b t2) = a.
Proof. unfold mk. by destruct (c =? 0). Qed.

(** The heap holds [t] as the child [ci] of [p]. *)
Fixpoint trep (h : heap) (p ci : Z) (t : tree) : Prop :=
  match t with
  | E => True
  | T l a b r => a <> 0 /\ aligned a /\ bal3 b /\ h !! a = Some (MkNode (root_of l) (root_of r) (pk p ci b)) /\
      trep h a 0 l /\ trep h a 1 r
  end.

Lemma trep_mk h p ci c t1 a b t2 : bit c ->
  trep h p ci (mk c t1 a b t2) <->
  a <> 0 /\ aligned a /\ bal3 b /\ h !! a = Some (mkn c (root_of t1) (root_of t2) (pk p ci b)) /\
    trep h a c t1 /\ trep h a (1 - c) t2.
Proof. intros [->| ->]; unfold mk, mkn; simpl; tauto. Qed.

Lemma trep_ext h h' t : forall p ci, (forall y, y ∈ addrs t -> h' !! y = h !! y) -> trep h p ci t -> trep h' p ci t.
Proof.
  induction t as [|l IHl a b r IHr]; intros p ci He; [done|]. simpl in *. intros (H1 & H2 & H3 & H4 & H5 & H6).
  split_and!; try done.
  - rewrite He; [done|]. apply elem_of_app. right. by left.
  - apply IHl; [|done]. intros y Hy. apply He, elem_of_app. by left.
  - apply IHr; [|done]. intros y Hy. apply He, elem_of_app. right. by right.
Qed.

Lemma trep_upd h p ci t x n : x ∉ addrs t -> trep h p ci t -> trep (<[x := n]> h) p ci t.
Proof. intros Hx. apply trep_ext. intros y Hy. apply lookup_insert_ne. intros ->. done. Qed.

Lemma trep_root h p ci t : trep h p ci t -> aligned (root_of t).
Proof. destruct t; [done|]. by intros (_ & ? & _). Qed.

(** ** Contexts: the way from a subtree to the root *)
Inductive frame := Fr (c a b : Z) (sib : tree).

Fixpoint plug (t : tree) (k : list frame) : tree :=
  match k with [] => t | Fr c a b s :: k => plug (mk c t a b s) k end.
Definition kparent (k : list frame) : Z := match k with [] => 0 | Fr _ a _ _ :: _ => a end.
Definition kidx (k : list frame) : Z := match k with [] => 0 | Fr c _ _ _ :: _ => c end.
Fixpoint kaddrs (k : list frame) : list Z :=
  match k with [] => [] | Fr _ a _ s :: k => a :: addrs s ++ kaddrs k end.

Fixpoint krep (h : heap) (hp : Z) (k : list frame) : Prop :=
  match k with
  | [] => True
  | Fr c a b s :: k => bit c /\ a <> 0 /\ aligned a /\ bal3 b /\
      h !! a = Some (mkn c hp (root_of s) (pk (kparent k) (kidx k) b)) /\ trep h a (1 - c) s /\ krep h a k
  end.

Lemma krep_ext h h' k : forall hp, (forall y, y ∈ kaddrs k -> h' !! y = h !! y) -> krep h hp k -> krep h' hp k.
Proof.
  induction k as [|[c a b s] k IH]; intros hp He; [done|]. simpl in *. intros (H1 & H2 & H3 & H4 & H5 & H6 & H7).
  split_and!; try done.
  - rewrite He; [done|]. by left.
  - eapply trep_ext; [|done]. intros y Hy. apply He. right. apply elem_of_app. by left.
  - apply IH; [|done]. intros y Hy. apply He. right. apply elem_of_app. by right.
Qed.

Lemma krep_upd h hp k x n : x ∉ kaddrs k -> krep h hp k -> krep (<[x := n]> h) hp k.
Proof. intros Hx. apply krep_ext. intros y Hy. apply lookup_insert_ne. intros ->. done. Qed.

Lemma krep_up h hp k : krep h hp k -> aligned (kparent k) /\ bit (kidx k).
Proof. destruct k as [|[c a b s] k]; [split; [done|by left]|]. by intros (? & _ & ? & _). Qed.

Lemma plug_rep h t k : (Forall (fun '(Fr c _ _ _) => bit c) k) ->
  trep h 0 0 (plug t k) <-> trep h (kparent k) (kidx k) t /\ krep h (root_of t) k.
Proof.
  revert t. induction k as [|[c a b s] k IH]; intros t Hk; [simpl; tauto|]. apply Forall_cons in Hk as [Hc Hk].
  simpl. rewrite IH by done. rewrite root_mk, trep_mk by done. tauto.
Qed.

(** ** Symbolic execution *)
Lemma upd_some h x n f : h !! x = Some n -> upd x f h = Some (<[x := f n]> h).
Proof. unfold upd. by intros ->. Qed.

(** Outside [L] the heap is as it was. *)
Definition keep (L : list Z) (h0 h : heap) : Prop := forall y, y ∉ L -> h !! y = h0 !! y.
Lemma keep_refl L h : keep L h h.
Proof. done. Qed.
Lemma keep_upd L h0 h x n : x ∈ L -> keep L h0 h -> keep L h0 (<[x := n]> h).
Proof. intros Hx Hk y Hy. rewrite lookup_insert_ne by (intros ->; done). by apply Hk. Qed.
Lemma keep_trans L h0 h1 h2 : keep L h0 h1 -> keep L h1 h2 -> keep L h0 h2.
Proof. intros H1 H2 y Hy. rewrite H2 by done. by apply H1. Qed.
Lemma keep_mono L L' h0 h : L ⊆ L' -> keep L h0 h -> keep L' h0 h.
Proof. intros HL H y Hy. apply H. set_solver. Qed.

Lemma addrs_mk c t1 a b t2 : addrs (mk c t1 a b t2) ≡ₚ (a :: addrs t1 ++ addrs t2).
Proof. unfold mk. destruct (c =? 0); simpl; solve_Permutation. Qed.

Lemma bit_other c : bit c -> bit (1 - c).
Proof. intros [->| ->]; unfold bit; lia. Qed.
Create HintDb avl.
#[export] Hint Resolve bit_other : avl.
Lemma bal3_0 : bal3 0. Proof. unfold bal3. lia. Qed.
Lemma bal3_opp b : bal3 b -> bal3 (- b). Proof. unfold bal3. lia. Qed.
Lemma aligned_0 : aligned 0. Proof. done. Qed.
#[export] Hint Resolve bal3_0 bal3_opp aligned_0 : avl.

Lemma trep_keep L h h' p ci t : keep L h h' -> (forall y, y ∈ addrs t -> y ∉ L) -> trep h p ci t -> trep h' p ci t.
Proof. intros Hk Hd. apply trep_ext. auto. Qed.
Lemma krep_keep L h h' hp k : keep L h h' -> (forall y, y ∈ kaddrs k -> y ∉ L) -> krep h hp k -> krep h' hp k.
Proof. intros Hk Hd. apply krep_ext. auto. Qed.
Lemma node_keep L h h' x n : keep L h h' -> x ∉ L -> h !! x = Some n -> h' !! x = Some n.
Proof. intros Hk Hd <-. auto. Qed.
Lemma keep_keep L L0 h0 h h' : keep L h h' -> (forall y, y ∈ L -> y ∈ L0) -> keep L0 h0 h -> keep L0 h0 h'.
Proof. intros Hk Hd H0. eapply keep_trans; [done|]. by eapply keep_mono. Qed.
Lemma keep_one h x n : keep [x] h (<[x := n]> h).
Proof. apply keep_upd; [by left|apply keep_refl]. Qed.

(** Lists of addresses with nothing in common. *)
Definition dis (l1 l2 : list Z) : Prop := forall z, z ∈ l1 -> z ∉ l2.
Lemma dis_sym l1 l2 : dis l1 l2 -> dis l2 l1.
Proof. intros H z H2 H1. by apply (H z). Qed.
Lemma dis_one l x : x ∉ l -> dis l [x].
Proof. intros Hx z Hz. rewrite list_elem_of_singleton. by intros ->. Qed.
Lemma ne_one (x y : Z) : x <> y -> x ∉ [y].
Proof. by rewrite list_elem_of_singleton. Qed.
Lemma dis_app l l1 l2 : dis l (l1 ++ l2) <-> dis l l1 /\ dis l l2.
Proof. unfold dis. setoid_rewrite not_elem_of_app. firstorder. Qed.
Lemma dis_cons l x l2 : dis l (x :: l2) <-> (x ∉ l) /\ dis l l2.
Proof.
  unfold dis. setoid_rewrite not_elem_of_cons. split.
  - intros H. split; [intros Hx; by destruct (H x Hx)|]. intros z Hz. by apply H.
  - intros [Hx H] z Hz. split; [intros ->; done|by apply H].
Qed.
Lemma NoDup_dis (l1 l2 : list Z) : NoDup (l1 ++ l2) <-> NoDup l1 /\ dis l1 l2 /\ NoDup l2.
Proof. apply NoDup_app. Qed.

Ltac nd_split H :=
  repeat (rewrite addrs_mk in H); cbn [app] in H;
  repeat (rewrite ?NoDup_cons, ?NoDup_dis, ?not_elem_of_cons, ?not_elem_of_app, ?dis_app, ?dis_cons in H);
  destruct_and? H.

Ltac mem_tauto := repeat (rewrite elem_of_cons || rewrite elem_of_app || rewrite elem_of_nil); tauto.
Ltac nd := first
  [ assumption | congruence | solve [eauto with avl] | apply dis_sym; assumption | apply dis_one; assumption | apply ne_one; congruence
  | solve [mem_tauto] | solve [intros ?; mem_tauto] | set_solver ].

(** Moves what is known of the heap [h] to the heap [h'] it became. *)
Ltac heap_move K :=
  lazymatch type of K with keep ?L ?h ?h' =>
    repeat match goal with
    | H : h !! _ = Some _ |- _ => first [apply (node_keep L h h' _ _ K) in H; [|nd] | clear H]
    | H : trep h _ _ _ |- _ => first [apply (trep_keep L h h' _ _ _ K) in H; [|nd] | clear H]
    | H : krep h _ _ |- _ => first [apply (krep_keep L h h' _ _ K) in H; [|nd] | clear H]
    | H : keep _ _ h |- _ => apply (keep_keep L _ _ h h' K) in H; [|nd]
    end; clear K
  end.

Ltac node_norm :=
  repeat first
  [ rewrite mkn_set_child | rewrite mkn_set_other by eauto with avl
  | rewrite mkn_setparent by eauto with avl | rewrite mkn_setidx by eauto with avl
  | rewrite mkn_setbalance by eauto with avl ].

Ltac heap_step :=
  match goal with
  | H : ?h !! ?x = Some ?n |- context [upd ?x ?f ?h] =>
    rewrite (upd_some h x n f H); lazy beta iota; node_norm;
    match goal with |- context [<[x := ?n']> h] =>
      let h1 := fresh "h" in let E := fresh "E" in
      remember (<[x := n']> h) as h1 eqn:E;
      clear H; assert (h1 !! x = Some n') by (rewrite E; apply lookup_insert_eq);
      repeat match goal with
      | H : h !! ?y = Some ?m |- _ =>
          first [assert (h1 !! y = Some m) by (rewrite E, lookup_insert_ne; [exact H|nd])|idtac]; clear H
      | H : trep h _ _ _ |- _ => first [apply (trep_upd h _ _ _ x n') in H; [rewrite <- E in H|nd]|clear H]
      | H : krep h _ _ |- _ => first [apply (krep_upd h _ _ x n') in H; [rewrite <- E in H|nd]|clear H]
      | H : keep _ _ h |- _ => apply (keep_upd _ _ h x n') in H; [rewrite <- E in H|nd]
      end; clear E
    end
  end.

Definition newroot (k : list frame) (v : Z) (tr : pfs_avl_tree) : pfs_avl_tree :=
  match k with [] => set_root v tr | _ => tr end.

(** The link from the parent to the new root of the subtree. *)
Lemma link_from_ok tr h k hp v : krep h hp k -> NoDup (kaddrs k) ->
  exists h', link_from (kparent k) (kidx k) v tr h = Some (newroot k v tr, h') /\ krep h' v k /\
    keep (kaddrs k) h h'.
Proof.
  intros Hk Hnd. destruct k as [|[c a b s] k]; simpl.
  { exists h. done. }
  simpl in Hk. destruct Hk as (Hc & Ha & Hal & Hb & Hl & Hs & Hk). simpl in Hnd.
  unfold link_from. rewrite (proj2 (Z.eqb_neq a 0)) by done. simpl.
  nd_split Hnd.
  pose proof (keep_refl (a :: addrs s ++ kaddrs k) h) as Hkeep.
  heap_step. eexists. done.
Qed.

Lemma relink_ok h p ci p' ci' t : trep h p ci t -> aligned p -> bit ci -> aligned p' -> bit ci' -> NoDup (addrs t) ->
  exists h', relink (root_of t) p' ci' h = Some h' /\ trep h' p' ci' t /\ keep (addrs t) h h'.
Proof.
  intros Ht Hp Hci Hp' Hci' Hnd. destruct t as [|l a b r]; simpl; [by exists h|].
  destruct Ht as (Ha & Hal & Hb & Hl & Htl & Htr). simpl in Hnd.
  change (MkNode (root_of l) (root_of r) (pk p ci b)) with (mkn 0 (root_of l) (root_of r) (pk p ci b)) in Hl.
  unfold relink. rewrite (proj2 (Z.eqb_neq a 0)) by done. simpl.
  nd_split Hnd.
  pose proof (keep_refl (addrs l ++ a :: addrs r) h) as Hkeep.
  heap_step. heap_step. eexists. done.
Qed.

(** ** Rotation

    [left] is the heavy side. *)
Ltac relink_step t p ci :=
  match goal with
  | H : trep ?h ?p0 ?c0 t |- context [relink (root_of t) ?p' ?c' ?h] =>
    let h1 := fresh "h" in let Hr := fresh "Hr" in let Ht := fresh "Ht" in let K := fresh "K" in
    destruct (relink_ok h p0 c0 p' c' t H) as (h1 & Hr & Ht & K); [eauto with avl..|nd|];
    rewrite Hr; lazy beta iota; clear Hr H; heap_move K
  end.

Ltac link_step k :=
  match goal with
  | H : krep ?h ?hp k |- context [link_from (kparent k) (kidx k) ?v ?tr ?h] =>
    let h1 := fresh "h" in let Hr := fresh "Hr" in let Ht := fresh "Ht" in let K := fresh "K" in
    destruct (link_from_ok tr h k hp v H) as (h1 & Hr & Ht & K); [nd|];
    rewrite Hr; lazy beta iota; clear Hr H; heap_move K
  end.

Lemma rotate_single_ok tr h k left node b child bx cb t1 t2 t3 : bit left -> bal3 cb ->
  trep h (kparent k) (kidx k) (mk left (mk left t1 child bx t2) node b t3) -> krep h node k ->
  NoDup (node :: child :: addrs t1 ++ addrs t2 ++ addrs t3 ++ kaddrs k) ->
  exists h', rotate_single tr h node child (kparent k) left (1 - left) (kidx k) cb
                (mkn left (root_of t1) (root_of t2) (pk node left bx))
             = Some (newroot k child tr, h', if cb =? 0 then 1 else 0) /\
    trep h' (kparent k) (kidx k) (mk left t1 child cb (mk left t2 node (- cb) t3)) /\ krep h' child k /\
    keep (node :: child :: addrs t1 ++ addrs t2 ++ addrs t3 ++ kaddrs k) h h'.
Proof.
  intros Hleft Hcb Ht Hk Hnd. destruct (krep_up _ _ _ Hk) as [Hal Hci].
  rewrite trep_mk in Ht by done. destruct Ht as (Hn & Han & Hbn & Hln & Hc & Ht3).
  rewrite trep_mk in Hc by done. destruct Hc as (Hc0 & Hac & Hbc & Hlc & Ht1 & Ht2).
  rewrite root_mk in Hln.
  pose proof (keep_refl (node :: child :: addrs t1 ++ addrs t2 ++ addrs t3 ++ kaddrs k) h) as Hkeep.
  nd_split Hnd. unfold rotate_single. rewrite mkn_other by done. lazy zeta.
  heap_step. relink_step t2 node left. do 7 heap_step.
  link_step k. eexists. split; [reflexivity|].
  rewrite !trep_mk, !root_mk by eauto with avl. eauto 20 with avl.
Qed.

Lemma bal3_if (c : bool) b : bal3 b -> bal3 (if c then b else 0).
Proof. destruct c; auto with avl. Qed.
#[export] Hint Resolve bal3_if : avl.

Lemma rotate_double_ok tr h k left node b child bx g bg s t1 g1 g2 t3 : bit left -> bal3 s ->
  trep h (kparent k) (kidx k) (mk left (mk left t1 child bx (mk left g1 g bg g2)) node b t3) -> krep h node k ->
  NoDup (node :: child :: g :: addrs t1 ++ addrs g1 ++ addrs g2 ++ addrs t3 ++ kaddrs k) ->
  exists h', rotate_double tr h node child (kparent k) left (1 - left) (kidx k) s (- s)
                (mkn left (root_of t1) g (pk node left bx))
             = Some (newroot k g tr, h', 1) /\
    trep h' (kparent k) (kidx k)
      (mk left (mk left t1 child (if bg =? - s then s else 0) g1) g 0
               (mk left g2 node (if bg =? s then - s else 0) t3)) /\ krep h' g k /\
    keep (node :: child :: g :: addrs t1 ++ addrs g1 ++ addrs g2 ++ addrs t3 ++ kaddrs k) h h'.
Proof.
  intros Hleft Hs Ht Hk Hnd. destruct (krep_up _ _ _ Hk) as [Hal Hci].
  rewrite trep_mk in Ht by done. destruct Ht as (Hn & Han & Hbn & Hln & Hc & Ht3).
  rewrite trep_mk in Hc by done. destruct Hc as (Hc0 & Hac & Hbc & Hlc & Ht1 & Hg).
  rewrite trep_mk in Hg by done. destruct Hg as (Hg0 & Hag & Hbg & Hlg & Hg1 & Hg2).
  rewrite root_mk in Hln, Hlc.
  pose proof (keep_refl (node :: child :: g :: addrs t1 ++ addrs g1 ++ addrs g2 ++ addrs t3 ++ kaddrs k) h) as Hkeep.
  nd_split Hnd. unfold rotate_double. rewrite mkn_other by done. lazy zeta. rewrite Hlg. lazy beta iota.
  rewrite mkn_child, mkn_other by done.
  heap_step. relink_step g2 node left. heap_step. relink_step g1 child (1 - left).
  match goal with H : ?h !! g = Some _ |- context [?h !! g] => rewrite H end. lazy beta iota.
  rewrite mkn_balance by eauto with avl.
  do 11 heap_step.
  link_step k. eexists. split; [reflexivity|].
  rewrite !trep_mk, !root_mk by eauto with avl. split_and!; eauto with avl.
Qed.

(** ** Balanced trees *)
Fixpoint height (t : tree) : Z := match t with E => 0 | T l _ _ r => 1 + Z.max (height l) (height r) end.
Fixpoint avl (t : tree) : Prop :=
  match t with E => True | T l a b r => avl l /\ avl r /\ b = height r - height l /\ bal3 b end.

Lemma height_nonneg t : 0 <= height t.
Proof. induction t; simpl; lia. Qed.
Lemma height_mk c t1 a b t2 : height (mk c t1 a b t2) = 1 + Z.max (height t1) (height t2).
Proof. unfold mk. destruct (c =? 0); simpl; lia. Qed.
Lemma avl_mk c t1 a b t2 : bit c ->
  avl (mk c t1 a b t2) <-> avl t1 /\ avl t2 /\ b = child2balance c * (height t1 - height t2) /\ bal3 b.
Proof.
  intros [->| ->]; unfold mk, child2balance; simpl; intuition lia.
Qed.

Lemma shiftr_two s : Z.shiftr (2 * s) 1 = s.
Proof. rewrite Z.shiftr_div_pow2 by lia. change (2 ^ 1) with 2. rewrite Z.mul_comm. by apply Z.div_mul. Qed.

Definition rotated (left : Z) (tr : pfs_avl_tree) (h : heap) (k : list frame) (a bx hgt : Z) (t : tree) : Prop :=
  exists h' t' rv, pfs_avl_rotation tr h a (2 * child2balance left) = Some (newroot k (root_of t') tr, h', rv) /\
    trep h' (kparent k) (kidx k) t' /\ krep h' (root_of t') k /\ keep (addrs t ++ kaddrs k) h h' /\
    addrs t' = addrs t /\ avl t' /\ t' <> E /\ (rv = 0 \/ rv = 1) /\ (bx <> 0 -> rv = 1) /\
    height t' = hgt + 3 - rv.

Lemma child2balance_sign left : bit left ->
  (child2balance left = 1 \/ child2balance left = -1) /\ bal3 (child2balance left) /\
  ((2 * child2balance left <? 0) = (left =? 0)) /\ (if left =? 0 then 0 else 1) = left.
Proof. intros [->| ->]; unfold child2balance, bal3; simpl; auto. Qed.

Lemma nd_perm (l l' : list Z) : l ≡ₚ l' -> NoDup l -> NoDup l'.
Proof. by intros ->. Qed.

Section Rotation.
Context (left : Z) (tr : pfs_avl_tree) (h : heap) (k : list frame) (a b x bx : Z) (t1 t2 t3 : tree).
Hypothesis Hleft : bit left.
Let t := mk left (mk left t1 x bx t2) a b t3.
Hypothesis Ht : trep h (kparent k) (kidx k) t.
Hypothesis Hk : krep h a k.
Hypothesis Hnd : NoDup (addrs t ++ kaddrs k).
Hypothesis Hc : avl (mk left t1 x bx t2).
Hypothesis Ha3 : avl t3.
Hypothesis Hh : height (mk left t1 x bx t2) = height t3 + 2.
Let s := child2balance left.

Lemma rotation_unfold :
  pfs_avl_rotation tr h a (2 * s) =
  if negb (bx =? - s)
  then rotate_single tr h a x (kparent k) left (1 - left) (kidx k) (bx + - s)
         (mkn left (root_of t1) (root_of t2) (pk a left bx))
  else rotate_double tr h a x (kparent k) left (1 - left) (kidx k) s (- s)
         (mkn left (root_of t1) (root_of t2) (pk a left bx)).
Proof.
  pose proof (child2balance_sign left Hleft) as (_ & _ & Hneg & Hl).
  assert (Hn : h !! a = Some (mkn left x (root_of t3) (pk (kparent k) (kidx k) b)) /\ aligned a /\ bal3 b /\ bal3 bx /\
     h !! x = Some (mkn left (root_of t1) (root_of t2) (pk a left bx))).
  { unfold t in Ht. rewrite !trep_mk, root_mk in Ht by done. tauto. }
  destruct Hn as (Hn & Haa & Hb3 & Hbx3 & Hx). destruct (krep_up _ _ _ Hk) as [Hal Hci].
  unfold pfs_avl_rotation. rewrite shiftr_two. unfold s. rewrite Hneg, Hl, Hn. lazy zeta beta iota.
  rewrite mkn_child, mkn_parent, mkn_idx, Hx by done. lazy beta iota. by rewrite mkn_balance by done.
Qed.

Lemma rotation_single : bx <> - s -> rotated left tr h k a bx (height t3) t.
Proof.
  intros He. pose proof (child2balance_sign left Hleft) as (Hs & _). fold s in Hs.
  unfold rotated. fold s. rewrite rotation_unfold. rewrite (proj2 (Z.eqb_neq _ _) He). simpl.
  rewrite avl_mk in Hc by done. destruct Hc as (Ha1 & Ha2 & Hbx & Hbx3). fold s in Hbx. rewrite height_mk in Hh.
  destruct (rotate_single_ok tr h k left a b x bx (bx + - s) t1 t2 t3) as (h' & Hr & Ht' & Hk' & Hkeep); try done.
  { unfold bal3 in *. lia. }
  { eapply nd_perm; [|exact Hnd]. unfold t. rewrite !addrs_mk. solve_Permutation. }
  eexists h', _, _. split; [rewrite root_mk; exact Hr|]. split; [exact Ht'|]. rewrite root_mk. split; [done|].
  split; [eapply keep_mono; [|exact Hkeep]; intros z; unfold t; rewrite !addrs_mk; mem_tauto|].
  rewrite !avl_mk, !height_mk by done. fold s.
  split; [destruct Hleft as [->| ->]; unfold t, mk; simpl; by rewrite <-?app_assoc; simpl; rewrite <-?app_assoc|].
  split; [unfold bal3 in *; split_and!; try done; lia|].
  split; [unfold mk; by destruct (left =? 0)|]. destruct (Z.eqb_spec (bx + - s) 0); unfold bal3 in *; lia.
Qed.

Lemma rotation_double : bx = - s -> rotated left tr h k a bx (height t3) t.
Proof.
  intros He. pose proof (child2balance_sign left Hleft) as (Hs & Hs3 & _). fold s in Hs, Hs3.
  unfold rotated. fold s. rewrite rotation_unfold. rewrite (proj2 (Z.eqb_eq _ _) He). simpl.
  rewrite avl_mk in Hc by done. destruct Hc as (Ha1 & Ha2 & Hbx & Hbx3). fold s in Hbx. rewrite height_mk in Hh.
  assert (exists g1 g bg g2, t2 = mk left g1 g bg g2) as (g1 & g & bg & g2 & Eg).
  { destruct (mk_cases left t2 Hleft) as [E2|?]; [|done]. exfalso. pose proof (height_nonneg t1). rewrite E2 in *. simpl in *. lia. }
  unfold t in *. rewrite Eg in *. rewrite root_mk. rewrite height_mk in *. rewrite avl_mk in Ha2 by done.
  destruct Ha2 as (Hg1 & Hg2 & Hbg & Hbg3). fold s in Hbg.
  destruct (rotate_double_ok tr h k left a b x bx g bg s t1 g1 g2 t3) as (h' & Hr & Ht' & Hk' & Hkeep); try done.
  { eapply nd_perm; [|exact Hnd]. rewrite !addrs_mk. solve_Permutation. }
  eexists h', _, _. split; [rewrite root_mk; exact Hr|]. split; [exact Ht'|]. rewrite root_mk. split; [done|].
  split; [eapply keep_mono; [|exact Hkeep]; intros z; rewrite !addrs_mk; mem_tauto|].
  rewrite !avl_mk, !height_mk by done. fold s.
  split; [destruct Hleft as [->| ->]; unfold mk; simpl; by rewrite <-?app_assoc; simpl; rewrite <-?app_assoc|].
  split; [destruct (Z.eqb_spec bg (- s)), (Z.eqb_spec bg s); unfold bal3 in *; split_and!; try done; lia|].
  split; [unfold mk; by destruct (left =? 0)|]. unfold bal3 in *; lia.
Qed.

Lemma rotation_ok : rotated left tr h k a bx (height t3) t.
Proof. destruct (decide (bx = - s)); [by apply rotation_double|by apply rotation_single]. Qed.
End Rotation.
