(* ===== verification/AvlSafe.v ===== *)
(** * The operations on AVL trees

    What the operations of [Avl] do to the sequence of the nodes in order:
    search, insertion, removal, first, last and the step to a neighbour, with
    the number of steps of their loops logarithmic in the number of nodes. *)

From stdpp Require Import sorting.
From S2P Require Import Prelude Avl AvlInv.

Open Scope pfs_scope.

(** ** Contexts and order *)
Definition kok (k : list frame) : Prop := Forall (fun '(Fr c _ _ _) => bit c) k.

Fixpoint kleft (k : list frame) : list Z :=
  match k with [] => [] | Fr c a _ s :: k => kleft k ++ (if c =? 0 then [] else addrs s ++ [a]) end.
Fixpoint kright (k : list frame) : list Z :=
  match k with [] => [] | Fr c a _ s :: k => (if c =? 0 then a :: addrs s else []) ++ kright k end.

Lemma addrs_plug t k : addrs (plug t k) = kleft k ++ addrs t ++ kright k.
Proof.
  revert t. induction k as [|[c a b s] k IH]; intros t; simpl; [by rewrite app_nil_r|]. rewrite IH. unfold mk.
  destruct (c =? 0); simpl; by rewrite <- ?app_assoc; simpl; rewrite <- ?app_assoc.
Qed.

Lemma kaddrs_perm k : kaddrs k ≡ₚ kleft k ++ kright k.
Proof.
  induction k as [|[c a b s] k IH]; simpl; [done|]. rewrite IH. destruct (c =? 0); simpl; solve_Permutation.
Qed.

Lemma plug_perm t k : addrs (plug t k) ≡ₚ addrs t ++ kaddrs k.
Proof. rewrite addrs_plug, kaddrs_perm. solve_Permutation. Qed.

Lemma plug_app t k1 k2 : plug t (k1 ++ k2) = plug (plug t k1) k2.
Proof. revert t. induction k1 as [|[c a b s] k1 IH]; intros t; simpl; [done|]. apply IH. Qed.

Lemma root_plug t t' k : k <> [] -> root_of (plug t k) = root_of (plug t' k).
Proof.
  revert t t'. induction k as [|[c a b s] k IH]; intros t t' Hk; [done|]. simpl.
  destruct k as [|f k]; [simpl; by rewrite !root_mk|by apply IH].
Qed.

Lemma krep_kok h hp k : krep h hp k -> kok k.
Proof. revert hp. induction k as [|[c a b s] k IH]; intros hp; [constructor|]. intros (? & _ & _ & _ & _ & _ & ?). constructor; [done|by eapply IH]. Qed.

(** The context keeps the balance when its hole has the height [n]. *)
Fixpoint kavl (n : Z) (k : list frame) : Prop :=
  match k with
  | [] => True
  | Fr c a b s :: k => avl s /\ b = child2balance c * (n - height s) /\ bal3 b /\ kavl (1 + Z.max n (height s)) k
  end.

Lemma avl_plug t k : kok k -> avl (plug t k) <-> avl t /\ kavl (height t) k.
Proof.
  revert t. induction k as [|[c a b s] k IH]; intros t Hk; [simpl; tauto|]. apply Forall_cons in Hk as [Hc Hk].
  simpl. rewrite IH by done. rewrite avl_mk, height_mk by done. tauto.
Qed.

Lemma height_plug t k : height t + Z.of_nat (length k) <= height (plug t k).
Proof.
  revert t. induction k as [|[c a b s] k IH]; intros t; simpl; [lia|].
  specialize (IH (mk c t a b s)). rewrite height_mk in IH. lia.
Qed.

(** ** The height is logarithmic *)
Definition size (t : tree) : Z := Z.of_nat (length (addrs t)).

Lemma height_size t : avl t -> 2 ^ (height t / 2) <= size t + 1.
Proof.
  assert (forall n t, (length (addrs t) <= n)%nat -> avl t -> 2 ^ (height t / 2) <= size t + 1) as H; [|by eapply H].
  clear t. induction n as [|n IH]; intros t Hn Ha.
  { destruct t; [done|]. simpl in Hn. rewrite length_app in Hn. simpl in Hn. lia. }
  destruct t as [|l a b r]; [done|]. unfold size in *. simpl in *. rewrite length_app in *. simpl in *.
  destruct Ha as (Hl & Hr & Hb & Hb3). pose proof (height_nonneg l). pose proof (height_nonneg r).
  pose proof (IH l ltac:(lia) Hl) as IHl. pose proof (IH r ltac:(lia) Hr) as IHr.
  set (m := Z.min (height l) (height r)) in *.
  assert (Hm : 2 ^ (m / 2) <= Z.of_nat (length (addrs l)) + 1 /\ 2 ^ (m / 2) <= Z.of_nat (length (addrs r)) + 1).
  { split; (eapply Z.le_trans; [apply Z.pow_le_mono_r; [lia|apply Z.div_le_mono; [lia|]]|eassumption]); lia. }
  assert (H2 : 2 ^ (1 + m / 2) = 2 * 2 ^ (m / 2)).
  { rewrite Z.pow_add_r; [done|lia|]. apply Z.div_pos; lia. }
  assert ((1 + Z.max (height l) (height r)) / 2 <= 1 + m / 2).
  { replace (1 + m / 2) with ((m + 1 * 2) / 2) by (rewrite Z.div_add by lia; lia). apply Z.div_le_mono; [lia|].
    unfold bal3 in Hb3. lia. }
  eapply Z.le_trans; [apply Z.pow_le_mono_r; [lia|eassumption]|]. lia.
Qed.

(** Enough steps for a tree of [n] nodes. *)
Definition steps_enough (n : nat) (fuel : nat) : Prop := 2 * Z.log2 (Z.of_nat n + 1) + 1 <= Z.of_nat fuel.

Lemma height_fuel t fuel : avl t -> steps_enough (length (addrs t)) fuel -> height t <= Z.of_nat fuel.
Proof.
  intros Ha Hf. unfold steps_enough in Hf. pose proof (height_size t Ha) as Hs. unfold size in Hs.
  pose proof (height_nonneg t). apply Z.log2_le_mono in Hs. rewrite Z.log2_pow2 in Hs by (apply Z.div_pos; lia).
  pose proof (Z.div_mod (height t) 2). pose proof (Z.mod_pos_bound (height t) 2). lia.
Qed.

(** ** What the heap holds *)
Record tree_ok (h : heap) (tr : pfs_avl_tree) (t : tree) : Prop := {
  to_rep : trep h 0 0 t;
  to_nodup : NoDup (addrs t);
  to_avl : avl t;
  to_root : avl_root tr = root_of t;
  to_num : avl_numnodes tr = size t
}.

Lemma plug_split h t k : trep h (kparent k) (kidx k) t -> krep h (root_of t) k -> trep h 0 0 (plug t k).
Proof. intros Ht Hk. apply plug_rep; [by eapply krep_kok|done]. Qed.

Lemma newroot_root tr t k t' : avl_root tr = root_of (plug t k) -> avl_root (newroot k (root_of t') tr) = root_of (plug t' k).
Proof. intros Hr. destruct k; [done|]. simpl newroot. rewrite Hr. by apply root_plug. Qed.
Lemma newroot_num tr k v : avl_numnodes (newroot k v tr) = avl_numnodes tr.
Proof. by destruct k. Qed.

(** ** Restoring the balance on the way up

    The run ends with a balanced tree of the nodes [l]. *)
Definition settles (r : option (pfs_avl_tree * heap)) (tr : pfs_avl_tree) (h : heap) (l : list Z) : Prop :=
  exists tr' h' t', r = Some (tr', h') /\ trep h' 0 0 t' /\ avl t' /\ addrs t' = l /\
    avl_root tr' = root_of t' /\ avl_numnodes tr' = avl_numnodes tr /\ keep l h h'.

(** The state of the loops: the subtree below is right, the way up is as it was. *)
Record climbing (tr : pfs_avl_tree) (h : heap) (t : tree) (k : list frame) (n : Z) : Prop := {
  cl_rep : trep h (kparent k) (kidx k) t;
  cl_krep : krep h (root_of t) k;
  cl_nodup : NoDup (addrs t ++ kaddrs k);
  cl_avl : avl t;
  cl_kavl : kavl n k;
  cl_root : avl_root tr = root_of (plug t k)
}.

(** The subtree has the height the way up counts on. *)
Lemma settle tr h t k : climbing tr h t k (height t) -> settles (Some (tr, h)) tr h (addrs (plug t k)).
Proof.
  intros []. exists tr, h, (plug t k). split_and!; try done.
  - by apply plug_split.
  - apply avl_plug; [by eapply krep_kok|done].
Qed.

Lemma settles_trans r tr h tr' h' l : avl_numnodes tr' = avl_numnodes tr -> keep l h h' ->
  settles r tr' h' l -> settles r tr h l.
Proof.
  intros Hn Hk (tr2 & h2 & t2 & -> & Ht & Ha & Hl & Hr & Hn2 & Hk2).
  exists tr2, h2, t2. split_and!; try done; [congruence|]. by eapply keep_trans.
Qed.

Definition bal_of (t : tree) : Z := match t with E => 0 | T _ _ b _ => b end.

Section Frame.
Context (tr : pfs_avl_tree) (h : heap) (t : tree) (c a b : Z) (s : tree) (k : list frame) (n : Z).
Hypothesis Hcl : climbing tr h t (Fr c a b s :: k) n.

Lemma frame_node : bit c /\ a <> 0 /\ aligned a /\ bal3 b /\ aligned (kparent k) /\ bit (kidx k) /\
  h !! a = Some (mkn c (root_of t) (root_of s) (pk (kparent k) (kidx k) b)) /\
  avl s /\ b = child2balance c * (n - height s).
Proof.
  destruct Hcl as [_ (Hc & Ha & Hal & Hb & Hl & _ & Hk) _ _ (Hs & Hbs & _) _].
  destruct (krep_up _ _ _ Hk). done.
Qed.

Lemma frame_perm : addrs (mk c t a b s) ++ kaddrs k ≡ₚ addrs t ++ kaddrs (Fr c a b s :: k).
Proof. rewrite addrs_mk. simpl. solve_Permutation. Qed.

Lemma frame_addrs b' : addrs (plug (mk c t a b' s) k) = addrs (plug t (Fr c a b s :: k)).
Proof. simpl. rewrite !addrs_plug. unfold mk. by destruct (c =? 0). Qed.

(** A new balance of the node above. *)
Lemma frame_setbalance b' : bal3 b' -> b' = child2balance c * (height t - height s) ->
  exists h', upd a (pfs_avl_node_setbalance b') h = Some h' /\
    h' !! a = Some (mkn c (root_of t) (root_of s) (pk (kparent k) (kidx k) b')) /\
    climbing tr h' (mk c t a b' s) k (1 + Z.max n (height s)) /\
    keep (addrs (plug t (Fr c a b s :: k))) h h'.
Proof.
  intros Hb' Hbb. destruct frame_node as (Hc & Ha & Hal & Hb & Hp & Hi & Hl & Has & Hbn).
  destruct Hcl as [Ht (_ & _ & _ & _ & _ & Hs & Hk) Hnd Hat (_ & _ & _ & Hka) Hr].
  assert (Hperm : addrs (mk c t a b s) ++ kaddrs k ≡ₚ addrs (plug t (Fr c a b s :: k))).
  { rewrite plug_perm. apply frame_perm. }
  rewrite <- frame_perm in Hnd. pose proof Hnd as Hnd'. nd_split Hnd'.
  pose proof (keep_refl (a :: addrs t ++ addrs s ++ kaddrs k) h) as Hkeep.
  simpl in Ht. heap_step. eexists. split; [reflexivity|]. split; [done|]. split.
  - split; try done.
    + rewrite trep_mk by done. split_and!; done.
    + by rewrite root_mk.
    + by rewrite addrs_mk in Hnd |- *.
    + rewrite avl_mk by done. done.
    + rewrite Hr. simpl. destruct k; [simpl; by rewrite !root_mk|by apply root_plug].
  - eapply keep_mono; [|exact Hkeep]. intros z. rewrite <- Hperm, addrs_mk. mem_tauto.
Qed.

(** A rotation when the side [left] has become too high. *)
Lemma frame_rotate left u v : bit left -> mk left u a b v = mk c t a b s -> avl u -> avl v -> height u = height v + 2 ->
  exists tr' h' t' rv, pfs_avl_rotation tr h a (2 * child2balance left) = Some (tr', h', rv) /\
    climbing tr' h' t' k (1 + Z.max n (height s)) /\ addrs t' = addrs (mk c t a b s) /\
    (rv = 0 \/ rv = 1) /\ (bal_of u <> 0 -> rv = 1) /\ height t' = height v + 3 - rv /\
    avl_numnodes tr' = avl_numnodes tr /\ keep (addrs (plug t (Fr c a b s :: k))) h h'.
Proof.
  intros Hleft Emk Hu Hv Hh. destruct frame_node as (Hc & Ha & Hal & Hb & Hp & Hi & Hl & Has & Hbn).
  destruct Hcl as [Ht (_ & _ & _ & _ & _ & Hs & Hk) Hnd Hat (_ & _ & _ & Hka) Hr].
  rewrite <- frame_perm in Hnd.
  assert (Htr : trep h (kparent k) (kidx k) (mk c t a b s)) by (rewrite trep_mk by done; split_and!; done).
  assert (Hperm : addrs (mk c t a b s) ++ kaddrs k ≡ₚ addrs (plug t (Fr c a b s :: k))).
  { rewrite plug_perm. apply frame_perm. }
  destruct (mk_cases left u Hleft) as [->|(t1 & x & bx & t2 & Eu)].
  { simpl in Hh. pose proof (height_nonneg v). lia. }
  rewrite Eu in *. rewrite <- Emk in *.
  destruct (rotation_ok left tr h k a b x bx t1 t2 v) as (h' & t' & rv & Hrot & Ht' & Hk' & Hkeep & Hadd & Havl & Hne & Hrv & Hb1 & Hht); try done.
  exists (newroot k (root_of t') tr), h', t', rv. split; [done|]. split; [split; try done|].
  { by rewrite Hadd. }
  { apply (newroot_root tr (mk c t a b s)). exact Hr. }
  rewrite newroot_num. split_and!; try done.
  - intros Hbal. apply Hb1. unfold mk in Hbal. by destruct (left =? 0).
  - eapply keep_mono; [|exact Hkeep]. intros z. by rewrite Hperm.
Qed.
End Frame.

(** After an insertion the subtree is one higher than the way up counts on. *)
Lemma insert_up_ok fuel : forall tr h t k, climbing tr h t k (height t - 1) -> (length k <= fuel)%nat ->
  (bal_of t <> 0 \/ height t = 1) ->
  settles (avl_insert_up fuel tr h (kparent k) (kidx k)) tr h (addrs (plug t k)).
Proof.
  induction fuel as [|fuel IH]; intros tr h t [|[c a b s] k] Hcl Hf Hbal; simpl in Hf; try lia;
    try (apply (settle tr h t []); destruct Hcl; by split).
  destruct (frame_node _ _ _ _ _ _ _ _ _ Hcl) as (Hc & Ha & Hal & Hb & Hp & Hi & Hl & Has & Hbn).
  simpl kparent. simpl kidx. simpl avl_insert_up. rewrite (proj2 (Z.eqb_neq a 0)) by done. rewrite Hl, mkn_balance by done.
  pose proof (child2balance_sign c Hc) as (Hsg & _). pose proof (height_nonneg s).
  destruct (Z.eqb_spec (b + child2balance c) 0) as [E0|E0]; [|destruct (Z.eqb_spec b 0) as [E1|E1]]; simpl negb; lazy iota.
  - destruct (frame_setbalance _ _ _ _ _ _ _ _ _ Hcl 0) as (h' & -> & _ & Hcl' & Hkeep); [apply bal3_0|lia|]. lazy iota.
    eapply settles_trans; [reflexivity|exact Hkeep|]. rewrite <- (frame_addrs t c a b s k 0). apply settle.
    rewrite height_mk. replace (Z.max (height t) (height s)) with (Z.max (height t - 1) (height s)) by lia. done.
  - destruct (frame_setbalance _ _ _ _ _ _ _ _ _ Hcl (child2balance c)) as (h' & Hup & Hl' & Hcl' & Hkeep);
      [unfold bal3; lia|lia|]. replace (b + child2balance c) with (child2balance c) by lia. rewrite Hup. lazy iota. rewrite Hl'. lazy iota.
    rewrite mkn_parent, mkn_idx by (done || (unfold bal3; lia)).
    eapply settles_trans; [reflexivity|exact Hkeep|]. rewrite <- (frame_addrs t c a b s k (child2balance c)). apply IH; [|lia|].
    + rewrite height_mk. replace (1 + Z.max (height t) (height s) - 1) with (1 + Z.max (height t - 1) (height s)) by lia. done.
    + left. unfold mk. destruct (c =? 0); simpl; lia.
  - replace (b + child2balance c) with (2 * child2balance c) by (unfold bal3 in Hb; lia).
    assert (height t = height s + 2) by (unfold bal3 in Hb; lia).
    destruct (frame_rotate _ _ _ _ _ _ _ _ _ Hcl c t s) as (tr' & h' & t' & rv & -> & Hcl' & Hadd & Hrv & Hrv1 & Hh & Hn & Hkeep);
      try done; [by destruct Hcl|]. lazy iota beta.
    eapply settles_trans; [exact Hn|exact Hkeep|]. simpl plug. rewrite addrs_plug, <- Hadd, <- addrs_plug. apply settle.
    rewrite Hh, Hrv1 by lia. replace (height s + 3 - 1) with (1 + Z.max (height t - 1) (height s)) by lia. done.
Qed.

Lemma mk_flip c t a b s : bit c -> mk (1 - c) s a b t = mk c t a b s.
Proof. by intros [->| ->]. Qed.
Lemma child2balance_flip c : bit c -> child2balance (1 - c) = - child2balance c.
Proof. by intros [->| ->]. Qed.

(** After a removal it is one lower. *)
Lemma remove_up_ok fuel : forall tr h t k, climbing tr h t k (height t + 1) -> (length k <= fuel)%nat ->
  settles (avl_remove_up fuel tr h (kparent k) (kidx k)) tr h (addrs (plug t k)).
Proof.
  induction fuel as [|fuel IH]; intros tr h t [|[c a b s] k] Hcl Hf; simpl in Hf; try lia;
    try (apply (settle tr h t []); destruct Hcl; by split).
  destruct (frame_node _ _ _ _ _ _ _ _ _ Hcl) as (Hc & Ha & Hal & Hb & Hp & Hi & Hl & Has & Hbn).
  simpl kparent. simpl kidx. simpl avl_remove_up. rewrite (proj2 (Z.eqb_neq a 0)) by done. rewrite Hl, mkn_balance, mkn_parent, mkn_idx by done.
  pose proof (child2balance_sign c Hc) as (Hsg & _). pose proof (height_nonneg t).
  destruct (Z.eqb_spec b 0) as [E0|E0]; [|destruct (Z.eqb_spec (b - child2balance c) 0) as [E1|E1]]; lazy iota.
  - destruct (frame_setbalance _ _ _ _ _ _ _ _ _ Hcl (b - child2balance c)) as (h' & -> & _ & Hcl' & Hkeep);
      [unfold bal3; lia|lia|]. lazy iota.
    eapply settles_trans; [reflexivity|exact Hkeep|]. rewrite <- (frame_addrs t c a b s k (b - child2balance c)). apply settle.
    rewrite height_mk. replace (Z.max (height t) (height s)) with (Z.max (height t + 1) (height s)) by lia. done.
  - destruct (frame_setbalance _ _ _ _ _ _ _ _ _ Hcl (b - child2balance c)) as (h' & -> & _ & Hcl' & Hkeep);
      [unfold bal3; lia|lia|]. lazy iota.
    eapply settles_trans; [reflexivity|exact Hkeep|]. rewrite <- (frame_addrs t c a b s k (b - child2balance c)). apply IH; [|lia].
    rewrite height_mk. replace (1 + Z.max (height t) (height s) + 1) with (1 + Z.max (height t + 1) (height s)) by lia. done.
  - replace (b - child2balance c) with (2 * child2balance (1 - c)) by (rewrite child2balance_flip by done; unfold bal3 in Hb; lia).
    assert (height s = height t + 2) by (unfold bal3 in Hb; lia).
    destruct (frame_rotate _ _ _ _ _ _ _ _ _ Hcl (1 - c) s t) as (tr' & h' & t' & rv & -> & Hcl' & Hadd & Hrv & _ & Hh & Hn & Hkeep);
      try done; [by apply bit_other|by apply mk_flip|by destruct Hcl|]. lazy iota beta.
    assert (Hpl : addrs (plug t' k) = addrs (plug t (Fr c a b s :: k))).
    { simpl plug. by rewrite addrs_plug, Hadd, <- addrs_plug. }
    destruct (Z.eqb_spec rv 0); (eapply settles_trans; [exact Hn|exact Hkeep|]); rewrite <- Hpl.
    + apply settle. replace (height t') with (1 + Z.max (height t + 1) (height s)) by lia. done.
    + apply IH; [|lia]. replace (height t' + 1) with (1 + Z.max (height t + 1) (height s)) by lia. done.
Qed.

(** ** A new leaf *)
Lemma fresh_word w p c : aligned p -> bit c ->
  Z.lor (Z.ldiff (Z.lor (Z.ldiff (Z.lor (Z.land w 7) p) (Z.shiftl 1 2)) (Z.shiftl c 2)) 3) (0 + 1) = pk p c 0.
Proof.
  intros Hp Hc. unfold pk. change (Z.shiftl 1 2) with 4.
  apply Z.bits_inj'. intros i Hi. rewrite !Z.lor_spec, !Z.ldiff_spec, !Z.lor_spec, !Z.ldiff_spec, !Z.lor_spec, !Z.land_spec.
  destruct (Z.ltb_spec i 3).
  - rewrite (aligned_low p i) by (done || lia).
    assert (i = 0 \/ i = 1 \/ i = 2) as Hi3 by lia.
    destruct Hi3 as [->|[->| ->]]; destruct Hc as [->| ->]; destruct (Z.testbit w _); reflexivity.
  - assert (Hc8 : 0 <= Z.shiftl c 2 < 8) by (destruct Hc as [->| ->]; vm_compute; split; congruence).
    rewrite (low_high 7 i), (low_high 4 i), (low_high 3 i), (low_high (0 + 1) i), (low_high (Z.shiftl c 2) i) by lia. rewrite ?andb_false_r, ?orb_false_r, ?orb_false_l, ?andb_true_r. reflexivity.
Qed.

Lemma fresh_node p c n : aligned p -> bit c ->
  pfs_avl_node_setbalance 0 (pfs_avl_node_setchild c (pfs_avl_node_setparent p (set_avl_child 0 0 (set_avl_child 1 0 n))))
  = MkNode 0 0 (pk p c 0).
Proof.
  intros Hp Hc. destruct n as [x y w].
  unfold pfs_avl_node_setbalance, pfs_avl_node_setchild, pfs_avl_node_setparent, set_pcb, set_avl_child. simpl.
  f_equal. by apply fresh_word.
Qed.

Lemma aligned_mod p : aligned p <-> p mod 8 = 0.
Proof. unfold aligned. change 7 with (Z.ones 3). by rewrite Z.land_ones by lia. Qed.
Lemma aligned_add p q : aligned p -> aligned q -> aligned (p + q).
Proof. rewrite !aligned_mod. intros Hp Hq. rewrite Z.add_mod, Hp, Hq by lia. done. Qed.

Lemma mkindex_node p c : aligned p -> bit c -> pfs_avl_index2node (pfs_avl_mkindex p c) = p.
Proof. intros Hp [->| ->]; unfold pfs_avl_index2node, pfs_avl_mkindex; word_bits Hp. Qed.
Lemma mkindex_child p c : aligned p -> bit c -> pfs_avl_index2child (pfs_avl_mkindex p c) = c.
Proof. intros Hp [->| ->]; unfold pfs_avl_index2child, pfs_avl_mkindex; word_bits Hp. Qed.

Lemma settles_ok r tr h l : settles r tr h l -> NoDup l -> avl_numnodes tr = Z.of_nat (length l) ->
  exists tr' h' t', r = Some (tr', h') /\ tree_ok h' tr' t' /\ addrs t' = l /\ keep l h h'.
Proof.
  intros (tr' & h' & t' & -> & Ht & Ha & <- & Hr & Hn & Hk) Hnd Hnum. exists tr', h', t'. split_and!; try done.
  split; try done. unfold size. congruence.
Qed.

(** A leaf in place of the hole of a context, before the balance is restored. *)
Lemma insert_ok off fuel tr h k data n : let a := pfs_avl_data2node data off in
  tree_ok h tr (plug E k) -> kok k -> aligned data -> aligned off -> a <> 0 -> a ∉ kaddrs k -> h !! a = Some n ->
  (length k <= fuel)%nat ->
  exists tr' h' t', pfs_avl_insert off fuel tr h data (pfs_avl_mkindex (kparent k) (kidx k)) = Some (tr', h') /\
    tree_ok h' tr' t' /\ addrs t' = kleft k ++ a :: kright k /\ keep (addrs t') h h'.
Proof.
  intros a [Hrep Hnd Havl Hroot Hnum] Hk Hd Hoff Ha Hna Hn Hf.
  apply plug_rep in Hrep as [_ Hrep]; [|done]. simpl in Hrep. destruct (krep_up _ _ _ Hrep) as [Hp Hi].
  apply avl_plug in Havl as [_ Havl]; [|done]. simpl in Havl. rewrite plug_perm in Hnd. simpl in Hnd.
  assert (Hal : aligned a) by by apply aligned_add.
  unfold pfs_avl_insert. rewrite mkindex_node, mkindex_child by done. fold a. rewrite (proj2 (Z.eqb_eq _ _) Hd). lazy zeta.
  rewrite (upd_some h a n _ Hn). lazy beta iota.
  do 4 (rewrite (upd_some _ a _ _ (lookup_insert_eq _ _ _)); lazy beta iota). rewrite !insert_insert_eq, fresh_node by done.
  set (h1 := <[a := _]> h).
  assert (Ht1 : trep h1 (kparent k) (kidx k) (T E a 0 E)).
  { simpl. split_and!; try done; [apply bal3_0|apply lookup_insert_eq]. }
  assert (Hk1 : krep h1 0 k) by by apply krep_upd.
  assert (Hc1 : keep (kleft k ++ a :: kright k) h h1) by (apply keep_upd; [set_solver|done]).
  assert (Hnd1 : NoDup (addrs (T E a 0 E) ++ kaddrs k)) by (simpl; by constructor).
  set (tr1 := set_numnodes (avl_numnodes tr + 1) tr).
  assert (Hn1 : avl_numnodes tr1 = Z.of_nat (length (kleft k ++ a :: kright k))).
  { simpl. rewrite Hnum. unfold size. rewrite addrs_plug, !length_app. simpl. lia. }
  enough (Hs : settles (if kparent k =? 0 then PFS_ASSERT (avl_root tr1 =? 0) ;; Some (set_root a tr1, h1)
     else let* pd := h1 !! kparent k in PFS_ASSERT (avl_child pd (kidx k) =? 0) ;;
          let* h := upd (kparent k) (set_avl_child (kidx k) a) h1 in avl_insert_up fuel tr1 h (kparent k) (kidx k))
     tr1 h (kleft k ++ a :: kright k)).
  { apply settles_ok in Hs; [|eapply nd_perm; [|exact Hnd1]; simpl; rewrite kaddrs_perm; solve_Permutation|done].
    destruct Hs as (tr' & h' & t' & ? & ? & <- & ?). by exists tr', h', t'. }
  destruct k as [|[c p b s] k].
  { simpl. simpl in Hroot. rewrite Hroot. simpl.
    exists (set_root a tr1), h1, (T E a 0 E). split_and!; try done. simpl. unfold bal3. tauto. }
  destruct (link_from_ok tr1 h1 _ 0 a Hk1) as (h2 & Hl & Hk2 & Hkeep2); [simpl in *; by apply NoDup_cons in Hnd1 as [_ ?]|].
  assert (Hp0 : p <> 0) by by destruct Hk1 as (_ & ? & _).
  assert (Hlk : h1 !! p = Some (mkn c 0 (root_of s) (pk (kparent k) (kidx k) b))) by by destruct Hk1 as (_ & _ & _ & _ & ? & _).
  simpl in Hl |- *. unfold link_from in Hl. rewrite (proj2 (Z.eqb_neq p 0)) in Hl |- * by done. rewrite Hlk, mkn_child. simpl in Hl |- *.
  destruct (upd p (set_avl_child c a) h1) as [h3|] eqn:Hup; [|done]. injection Hl as ->.
  change (kleft k ++ (if c =? 0 then [] else addrs s ++ [p])) with (kleft (Fr c p b s :: k)).
  change ((if c =? 0 then p :: addrs s else []) ++ kright k) with (kright (Fr c p b s :: k)).
  assert (Hadd : addrs (plug (T E a 0 E) (Fr c p b s :: k)) = kleft (Fr c p b s :: k) ++ a :: kright (Fr c p b s :: k))
    by apply addrs_plug.
  rewrite <- Hadd. eapply (settles_trans _ _ _ tr1 h2); [done| |].
  { rewrite Hadd. eapply keep_trans; [exact Hc1|]. eapply keep_mono; [|exact Hkeep2]. intros z. rewrite kaddrs_perm. set_solver. }
  apply (insert_up_ok fuel tr1 h2 (T E a 0 E) (Fr c p b s :: k)); [|done|by right].
  split; try done.
  - eapply trep_keep; [exact Hkeep2| |exact Ht1]. simpl. intros z. rewrite list_elem_of_singleton. by intros ->.
  - simpl. unfold bal3. tauto.
  - simpl avl_root. rewrite Hroot. by apply root_plug.
Qed.

(** ** Search *)
Section Keyed.
(** Nodes at [avl_offset] in the data, compared by a key, like the inodes
    by [pfs_inode_compare] and the directory entries by [pfs_inode_dx_compare]. *)
Context (avl_offset : Z) (key : Z -> Z).

Definition data_of (a : Z) : Z := pfs_avl_node2data a avl_offset.
Definition akey (a : Z) : Z := key (data_of a).

(** The nodes are in the order of their keys. *)
Definition ordered (l : list Z) : Prop := StronglySorted (fun x y => akey x < akey y) l.

Lemma ordered_app l1 l2 : ordered (l1 ++ l2) -> forall x y, x ∈ l1 -> y ∈ l2 -> akey x < akey y.
Proof.
  intros Hs x y Hx Hy. exact (StronglySorted_app_1_elem_of _ l1 l2 x y Hs Hx Hy).
Qed.

(** The loop stops at the node with the key, or at the place for one. *)
Lemma find_loop_ok h v fuel : forall t k, trep h (kparent k) (kidx k) t -> kok k -> height t <= Z.of_nat fuel ->
  ordered (addrs (plug t k)) ->
  (forall y, y ∈ kleft k -> akey y < key v) -> (forall y, y ∈ kright k -> key v < akey y) ->
  let r := avl_find_loop avl_offset (pfs_inode_compare key) fuel h v (root_of t) (kparent k) (kidx k) in
  (exists a, a ∈ addrs t /\ akey a = key v /\ r = Some (data_of a, 0)) \/
  (exists k', plug t k = plug E k' /\ r = Some (0, pfs_avl_mkindex (kparent k') (kidx k')) /\ kok k' /\
     (forall y, y ∈ kleft k' -> akey y < key v) /\ (forall y, y ∈ kright k' -> key v < akey y)).
Proof.
  induction fuel as [|fuel IH]; intros t k Ht Hk Hh Ho Hl Hr; (destruct t as [|l a b r]; [right; by exists k|]).
  { simpl in Hh. pose proof (height_nonneg l). pose proof (height_nonneg r). lia. }
  simpl in Ht, Hh. destruct Ht as (Ha & Hal & Hb & Hn & Htl & Htr).
  assert (Hoa : forall y, (y ∈ addrs l -> akey y < akey a) /\ (y ∈ addrs r -> akey a < akey y)).
  { rewrite addrs_plug in Ho. simpl in Ho. intros y. split; intros Hy.
    - eapply (ordered_app (kleft k ++ addrs l) (a :: addrs r ++ kright k)); [|set_solver|set_solver].
      by rewrite <- !app_assoc in *.
    - eapply (ordered_app ((kleft k ++ addrs l) ++ [a]) (addrs r ++ kright k)); [|set_solver|set_solver].
      by rewrite <- !app_assoc in *. }
  simpl. rewrite (proj2 (Z.eqb_neq a 0)) by done. fold (data_of a). unfold pfs_inode_compare. fold (akey a).
  destruct (Z.gtb_spec (key v) (akey a)) as [H1|H1]; [|destruct (Z.ltb_spec (key v) (akey a)) as [H2|H2]]; simpl.
  - rewrite Hn. simpl. destruct (IH r (Fr 1 a b l :: k)) as [(x & Hx & ?)|Hk']; try done.
    { constructor; [by right|done]. }
    { lia. }
    { simpl. intros y. rewrite !elem_of_app, list_elem_of_singleton. intros [?|[?| ->]]; [auto|pose proof (proj1 (Hoa y) ltac:(done)); lia|lia]. }
    { left. exists x. split; [set_solver|done]. }
    by right.
  - rewrite Hn. simpl. destruct (IH l (Fr 0 a b r :: k)) as [(x & Hx & ?)|Hk']; try done.
    { constructor; [by left|done]. }
    { lia. }
    { simpl. intros y. rewrite app_nil_r. auto. }
    { simpl. intros y. rewrite elem_of_cons, !elem_of_app. intros [->|[?|?]]; [lia|pose proof (proj2 (Hoa y) ltac:(done)); lia|auto]. }
    { left. exists x. split; [set_solver|done]. }
    by right.
  - left. exists a. split; [set_solver|]. split; [lia|done].
Qed.
End Keyed.
