(* ===== verification/AvlRemove.v ===== *)
(** * Walking and removal in AVL trees

    The neighbours of a node, and the removal of a node: an inner node first
    changes places with the neighbour on its higher side, which has at most
    one child. *)

From S2P Require Import Prelude Avl AvlInv AvlSafe.

Open Scope pfs_scope.

(** ** Segments of a way up: the top is the child [c0] of [p0] *)
Definition kpar (k : list frame) (p0 : Z) : Z := match k with [] => p0 | Fr _ a _ _ :: _ => a end.
Definition kix (k : list frame) (c0 : Z) : Z := match k with [] => c0 | Fr c _ _ _ :: _ => c end.
Fixpoint ktop (hp : Z) (k : list frame) : Z := match k with [] => hp | Fr _ a _ _ :: k => ktop a k end.

Fixpoint krepb (h : heap) (hp : Z) (k : list frame) (p0 c0 : Z) : Prop :=
  match k with
  | [] => True
  | Fr c a b s :: k => bit c /\ a <> 0 /\ aligned a /\ bal3 b /\
      h !! a = Some (mkn c hp (root_of s) (pk (kpar k p0) (kix k c0) b)) /\ trep h a (1 - c) s /\ krepb h a k p0 c0
  end.

Lemma krep_app h hp k1 k2 : krep h hp (k1 ++ k2) <-> krepb h hp k1 (kparent k2) (kidx k2) /\ krep h (ktop hp k1) k2.
Proof.
  revert hp. induction k1 as [|[c a b s] k1 IH]; intros hp; simpl; [tauto|]. rewrite IH.
  assert (kparent (k1 ++ k2) = kpar k1 (kparent k2) /\ kidx (k1 ++ k2) = kix k1 (kidx k2)) as [-> ->]
    by (destruct k1 as [|[]]; done).
  tauto.
Qed.

Lemma kpar_app k1 k2 : kparent (k1 ++ k2) = kpar k1 (kparent k2) /\ kidx (k1 ++ k2) = kix k1 (kidx k2).
Proof. destruct k1 as [|[]]; done. Qed.

Lemma krepb_keep L h h' hp k p0 c0 : keep L h h' -> (forall y, y ∈ kaddrs k -> y ∉ L) ->
  krepb h hp k p0 c0 -> krepb h' hp k p0 c0.
Proof.
  intros HL. revert hp. induction k as [|[c a b s] k IH]; intros hp Hd; [done|]. simpl in *.
  intros (H1 & H2 & H3 & H4 & H5 & H6 & H7). split_and!; try done.
  - rewrite HL; [done|]. apply Hd. by left.
  - eapply trep_keep; [exact HL| |done]. intros y Hy. apply Hd. right. apply elem_of_app. by left.
  - apply IH; [|done]. intros y Hy. apply Hd. right. apply elem_of_app. by right.
Qed.

Lemma plug_repb h t k p0 c0 : kok k ->
  trep h p0 c0 (plug t k) <-> trep h (kpar k p0) (kix k c0) t /\ krepb h (root_of t) k p0 c0.
Proof.
  revert t. induction k as [|[c a b s] k IH]; intros t Hk; [simpl; tauto|]. apply Forall_cons in Hk as [Hc Hk].
  simpl. rewrite IH by done. rewrite root_mk, trep_mk by done. tauto.
Qed.

Lemma ktop_plug t k : root_of (plug t k) = ktop (root_of t) k.
Proof. revert t. induction k as [|[c a b s] k IH]; intros t; simpl; [done|]. by rewrite IH, root_mk. Qed.

(** A new parent for the top of a segment. *)
Lemma reparent_top h p0 c0 p1 k : forall hp, k <> [] -> krepb h hp k p0 c0 -> NoDup (kaddrs k) ->
  aligned p0 -> bit c0 -> aligned p1 ->
  exists h', upd (ktop hp k) (pfs_avl_node_setparent p1) h = Some h' /\ krepb h' hp k p1 c0 /\ keep (kaddrs k) h h'.
Proof.
  induction k as [|[c a b s] k IH]; intros hp Hne Hk Hnd Hp0 Hc0 Hp1; [done|].
  simpl in Hk. destruct Hk as (Hc & Ha & Hal & Hb & Hl & Hs & Hk). simpl kaddrs in *. simpl ktop.
  destruct k as [|f k].
  - simpl in *. pose proof (keep_refl (a :: addrs s ++ []) h) as Hkeep. nd_split Hnd. heap_step. eexists. done.
  - destruct (IH a) as (h' & -> & Hk' & Hkeep); try done; [by apply NoDup_cons, proj2, NoDup_app in Hnd as (_ & _ & ?)|].
    apply NoDup_cons in Hnd as [Hna Hnd]. apply NoDup_app in Hnd as (_ & Hdis & _). apply not_elem_of_app in Hna as [Hna1 Hna2].
    assert (kpar (f :: k) p0 = kpar (f :: k) p1) as Hkp by by destruct f.
    exists h'. split; [done|]. split.
    + split_and!; try done; [|by eapply trep_keep].
      rewrite <- Hkp. by eapply node_keep.
    + eapply keep_mono; [|exact Hkeep]. set_solver.
Qed.

(** A new hole for a segment. *)
Lemma rehole h p0 c0 hp v k : k <> [] -> krepb h hp k p0 c0 -> NoDup (kaddrs k) ->
  exists h', upd (kpar k p0) (set_avl_child (kix k c0) v) h = Some h' /\ krepb h' v k p0 c0 /\ keep (kaddrs k) h h'.
Proof.
  destruct k as [|[c a b s] k]; intros Hne Hk Hnd; [done|].
  simpl in Hk. destruct Hk as (Hc & Ha & Hal & Hb & Hl & Hs & Hk). simpl kaddrs in *. simpl kpar. simpl kix.
  rewrite (upd_some _ _ _ _ Hl), mkn_set_child. eexists. split; [done|].
  apply NoDup_cons in Hnd as [Hna Hnd]. apply not_elem_of_app in Hna as [Hna1 Hna2].
  split; [split_and!; try done; [apply lookup_insert_eq|by apply trep_upd|]|].
  - eapply krepb_keep; [apply keep_one| |done]. intros y Hy. rewrite list_elem_of_singleton. by intros ->.
  - eapply keep_mono; [|apply keep_one]. set_solver.
Qed.

Lemma reparent_ok h p ci p' t : t <> E -> trep h p ci t -> aligned p -> bit ci -> aligned p' -> NoDup (addrs t) ->
  exists h', upd (root_of t) (pfs_avl_node_setparent p') h = Some h' /\ trep h' p' ci t /\ keep (addrs t) h h'.
Proof.
  intros Hne Ht Hp Hci Hp' Hnd. destruct t as [|l a b r]; [done|]. simpl root_of. simpl addrs in *.
  destruct Ht as (Ha & Hal & Hb & Hl & Htl & Htr).
  change (MkNode (root_of l) (root_of r) (pk p ci b)) with (mkn 0 (root_of l) (root_of r) (pk p ci b)) in Hl.
  nd_split Hnd.
  pose proof (keep_refl (addrs l ++ a :: addrs r) h) as Hkeep.
  heap_step. eexists. done.
Qed.

(** The two children get a new parent, in either order. *)
Lemma two_parents {X} h y d c1 c2 w f (k : heap -> option X) : bit d -> h !! y = Some (mkn d c1 c2 w) ->
  y <> c1 -> y <> c2 -> c1 <> c2 ->
  (let* sd := h !! y in let* h := upd (avl_child sd 0) f h in
   let* sd := h !! y in let* h := upd (avl_child sd 1) f h in k h)
  = (let* h := upd c1 f h in let* h := upd c2 f h in k h).
Proof.
  intros Hd Hy H1 H2 H12.
  assert (Hgo : forall x z, y <> x -> avl_child (mkn d c1 c2 w) 0 = x -> avl_child (mkn d c1 c2 w) 1 = z ->
    (let* sd := h !! y in let* h := upd (avl_child sd 0) f h in
     let* sd := h !! y in let* h := upd (avl_child sd 1) f h in k h)
    = (let* h := upd x f h in let* h := upd z f h in k h)).
  { intros x z Hx E0 E1. rewrite Hy, E0. unfold upd. destruct (h !! x); [|done]. rewrite lookup_insert_ne by done.
    by rewrite Hy, E1. }
  destruct Hd as [->| ->]; [by apply (Hgo c1 c2)|]. rewrite (Hgo c2 c1) by done. unfold upd.
  destruct (h !! c1) as [n1|] eqn:E1, (h !! c2) as [n2|] eqn:E2;
    rewrite ?lookup_insert_ne by done; rewrite ?E1, ?E2; try done.
  by rewrite insert_insert_ne by done.
Qed.

(** ** The exchange of an inner node with its neighbour *)
Ltac blk K :=
  lazymatch type of K with keep ?L ?h ?h' =>
    repeat match goal with
    | H : h !! _ = Some _ |- _ => first [apply (node_keep L h h' _ _ K) in H; [|nd] | clear H]
    | H : trep h _ _ _ |- _ => first [apply (trep_keep L h h' _ _ _ K) in H; [|nd] | clear H]
    | H : krep h _ _ |- _ => first [apply (krep_keep L h h' _ _ K) in H; [|nd] | clear H]
    | H : krepb h _ _ _ _ |- _ => first [apply (krepb_keep L h h' _ _ _ _ K) in H; [|nd] | clear H]
    | H : keep _ _ h |- _ => apply (keep_keep L _ _ h h' K) in H; [|nd]
    end; clear K
  end.

Ltac put h x n :=
  let K := fresh "K" in let Hn := fresh "Hn" in let h1 := fresh "h" in
  pose proof (keep_one h x n) as K; pose proof (lookup_insert_eq h x n) as Hn;
  set (h1 := <[x := n]> h) in *; clearbody h1; blk K.

Ltac put_step :=
  match goal with
  | H : ?h !! ?x = Some ?n |- context [upd ?x ?f ?h] =>
    rewrite (upd_some h x n f H); lazy beta iota; node_norm;
    match goal with |- context [<[x := ?n']> h] => clear H; put h x n' end
  end.

Ltac read_step :=
  match goal with H : ?h !! ?x = Some _ |- context [?h !! ?x] => rewrite H; lazy beta iota end.

Ltac relink_top k :=
  match goal with
  | H : krep ?h ?hp k |- context [link_from (kparent k) (kidx k) ?v ?tr ?h] =>
    let h1 := fresh "h" in let Hr := fresh "Hr" in let Ht := fresh "Ht" in let K := fresh "K" in
    destruct (link_from_ok tr h k hp v H) as (h1 & Hr & Ht & K); [nd|];
    rewrite Hr; lazy beta iota; clear Hr H; blk K
  end.

(** A step with the lemma [H], which replaces what [H0] says. *)
Ltac by_lemma H0 H :=
  let h1 := fresh "h" in let Hr := fresh "Hr" in let Ht := fresh "Ht" in let K := fresh "K" in
  destruct H as (h1 & Hr & Ht & K); [try done; nd..|]; rewrite Hr; lazy beta iota; clear Hr H0; blk K.

Lemma ktop_in hp k : k <> [] -> ktop hp k ∈ kaddrs k.
Proof.
  revert hp. induction k as [|[c a b s] k IH]; intros hp Hk; [done|]. simpl.
  destruct k; [by left|]. right. apply elem_of_app. right. by apply IH.
Qed.
Lemma kpar_in p0 k : k <> [] -> kpar k p0 ∈ kaddrs k.
Proof. destruct k as [|[c a b s] k]; [done|]. by left. Qed.

Lemma root_in t : t <> E -> root_of t ∈ addrs t.
Proof. destruct t; [done|]. simpl. set_solver. Qed.

(** The only child of the copy points to it. *)
Lemma adopt d y tmp e t' hh p ci : bit d -> aligned y -> aligned tmp -> t' = E \/ balance2child e = d ->
  trep hh y d t' -> NoDup (addrs t') ->
  let n := mkn d (root_of t') 0 (pk p ci e) in
  exists h', (if negb (avl_child n (balance2child e) =? 0)
     then upd (avl_child n (balance2child e)) (pfs_avl_node_setparent tmp) hh else Some hh) = Some h' /\
    trep h' tmp d t' /\ keep (addrs t') hh h'.
Proof.
  intros Hd Hy Ht [->|E0] Hr Hn.
  - exists hh. lazy zeta. assert (avl_child (mkn d (root_of E) 0 (pk p ci e)) (balance2child e) = 0) as ->; [|done].
    unfold avl_child, mkn. simpl. by destruct (d =? 0), (balance2child e =? 0).
  - lazy zeta. rewrite E0, mkn_child. destruct t' as [|tl ta tb trr]; [by exists hh|].
    rewrite (proj2 (Z.eqb_neq _ _)) by by destruct Hr as (? & _).
    by apply (reparent_ok hh y d tmp (T tl ta tb trr)).
Qed.

Section Exchange.
Context (tr : pfs_avl_tree) (h : heap) (k : list frame) (d x b : Z) (v : tree) (y e : Z) (t' : tree) (k' : list frame) (tmp : Z).
Hypothesis Hd : bit d.
Hypothesis Hx : h !! x = Some (mkn d (ktop y k') (root_of v) (pk (kparent k) (kidx k) b)).
Hypothesis Hxa : x <> 0 /\ aligned x /\ bal3 b.
Hypothesis Hy : h !! y = Some (mkn d (root_of t') 0 (pk (kpar k' x) (kix k' d) e)).
Hypothesis Hya : y <> 0 /\ aligned y /\ bal3 e.
Hypothesis Ht : trep h y d t'.
Hypothesis Hk' : krepb h y k' x d.
Hypothesis Hv : trep h x (1 - d) v.
Hypothesis Hve : v <> E.
Hypothesis Hk : krep h x k.
Hypothesis Htmp : tmp <> 0 /\ aligned tmp.
Let L := tmp :: x :: y :: addrs t' ++ kaddrs k' ++ addrs v ++ kaddrs k.
Hypothesis Hnd : NoDup L.
Hypothesis Hbal : t' = E \/ balance2child e = d.
Let K := k' ++ Fr d y b v :: k.

Definition exchanged (nd : pfs_avl_node) : Prop :=
  exists h', avl_exchange tr h x y tmp nd = Some (newroot k y tr, h', kparent K, kidx K) /\
    trep h' (kparent K) (kidx K) (mk d t' tmp e E) /\ krep h' tmp K /\ keep L h h'.

Lemma kpar_aligned p0 c0 : aligned p0 -> bit c0 -> aligned (kpar k' p0) /\ bit (kix k' c0).
Proof. intros Hp Hc. destruct k' as [|[c a b' s] k0]; [done|]. simpl in Hk'. simpl. tauto. Qed.

Lemma exchange_far : k' <> [] -> exchanged (mkn d (ktop y k') (root_of v) (pk (kparent k) (kidx k) b)).
Proof.
  intros Hne. destruct (krep_up _ _ _ Hk) as [Hp Hi]. destruct Hxa as (Hx0 & Hxal & Hb3). destruct Hya as (Hy0 & Hyal & He3).
  destruct (kpar_aligned x d) as [Hpk Hik]; [done..|]. destruct Htmp as [Htm Htal].
  pose proof (ktop_in y k' Hne) as Htin. pose proof (kpar_in x k' Hne) as Hpin.
  unfold exchanged, avl_exchange. rewrite mkn_parent by done.
  pose proof (keep_refl L h) as Hkeep. unfold L in Hkeep, Hnd. pose proof Hnd as Hnd'. nd_split Hnd'.
  pose proof (root_in v Hve) as Hvin.
  assert (Hpx : kpar k' x <> x) by (intros E0; rewrite E0 in Hpin; done).
  assert (Hkp : kpar k' y = kpar k' x) by by destruct k' as [|[]].
  read_step. put h tmp (mkn d (root_of t') 0 (pk (kpar k' x) (kix k' d) e)). read_step. put_step.
  rewrite mkn_parent by done. rewrite (proj2 (Z.eqb_neq _ _) Hpx). lazy iota. read_step. rewrite mkn_idx by done.
  relink_top k.
  match goal with H : ?h !! y = Some _ |- _ => rewrite (two_parents h y d (ktop y k') (root_of v) _ _ _ Hd H) end.
  2: { intros E0. rewrite <- E0 in Htin. done. }
  2: { intros E0. rewrite <- E0 in Hvin. done. }
  2: { intros E0. rewrite <- E0 in Hvin. by eapply (dis_sym (kaddrs k') (addrs v)). }
  match goal with H : krepb ?h y k' x d |- _ => by_lemma H (reparent_top h x d y k' y Hne H) end.
  match goal with H : trep ?h x (1 - d) v |- _ => by_lemma H (reparent_ok h x (1 - d) y v Hve H) end.
  read_step. rewrite mkn_parent, mkn_idx by done. rewrite <- Hkp.
  match goal with H : krepb ?h y k' y d |- _ => by_lemma H (rehole h y d y tmp k' Hne H) end.
  read_step. rewrite mkn_balance by done.
  match goal with H : ?h !! tmp = Some (mkn d _ 0 (pk ?p ?ci e)), H2 : trep ?h y d t' |- _ => by_lemma H2 (adopt d y tmp e t' h p ci Hd Hyal Htal Hbal H2) end.
  read_step. rewrite mkn_idx by done.
  eexists. unfold K. destruct (kpar_app k' (Fr d y b v :: k)) as [-> ->]. simpl kparent. simpl kidx. rewrite Hkp.
  split; [reflexivity|].
  assert (ktop tmp k' = ktop y k') as Hkt by by destruct k' as [|[]].
  rewrite trep_mk, krep_app by done. simpl. rewrite Hkt. split_and!; eauto with avl.
Qed.

Lemma exchange_near : k' = [] -> exchanged (mkn d (ktop y k') (root_of v) (pk (kparent k) (kidx k) b)).
Proof.
  intros Hne. destruct (krep_up _ _ _ Hk) as [Hp Hi]. destruct Hxa as (Hx0 & Hxal & Hb3). destruct Hya as (Hy0 & Hyal & He3).
  destruct Htmp as [Htm Htal]. unfold exchanged, avl_exchange, K, L in *. rewrite Hne in *. simpl in Hnd, Hx, Hy |- *. clear Hk'.
  rewrite mkn_parent by done.
  pose proof (keep_refl (tmp :: x :: y :: addrs t' ++ addrs v ++ kaddrs k) h) as Hkeep. pose proof Hnd as Hnd'. nd_split Hnd'.
  pose proof (root_in v Hve) as Hvin.
  read_step. put h tmp (mkn d (root_of t') 0 (pk x d e)). read_step. put_step.
  rewrite mkn_parent, mkn_idx, Z.eqb_refl by done. put_step. read_step. rewrite mkn_idx by done.
  relink_top k.
  match goal with H : ?h !! y = Some _ |- _ => rewrite (two_parents h y d tmp (root_of v) _ _ _ Hd H) end; [|congruence|..].
  2-3: intros E0; rewrite <- E0 in Hvin; done.
  put_step.
  match goal with H : trep ?h x (1 - d) v |- _ => by_lemma H (reparent_ok h x (1 - d) y v Hve H) end.
  read_step. rewrite mkn_parent, mkn_idx by done. put_step. read_step. rewrite mkn_balance by done.
  match goal with H : ?h !! tmp = Some (mkn d _ 0 (pk ?p ?ci e)), H2 : trep ?h y d t' |- _ => by_lemma H2 (adopt d y tmp e t' h p ci Hd Hyal Htal Hbal H2) end.
  read_step. rewrite mkn_idx by done. eexists. split; [reflexivity|].
  rewrite trep_mk by done. simpl. split_and!; eauto with avl.
Qed.

Lemma exchange_ok : exchanged (mkn d (ktop y k') (root_of v) (pk (kparent k) (kidx k) b)).
Proof. destruct (decide (length k' = 0%nat)) as [Hl|Hl]; [apply exchange_near|apply exchange_far]; by destruct k'. Qed.
End Exchange.

(** ** Taking out a node with at most one child *)
Lemma height_0 t : height t <= 0 -> t = E.
Proof. destruct t as [|l a b r]; [done|]. simpl. pose proof (height_nonneg l). lia. Qed.

Lemma bal_side d t' b : bit d -> bal3 b -> b = child2balance d * (height t' - 0) -> b <> 0 -> balance2child b = d.
Proof.
  intros Hd Hb E0 Hne. pose proof (height_nonneg t'). unfold bal3 in Hb. unfold balance2child.
  destruct Hd as [->| ->]; unfold child2balance in *; simpl in *; destruct (Z.eqb_spec b 1); lia.
Qed.

Lemma detach_ok tr h d t' a b k : bit d -> trep h (kparent k) (kidx k) (mk d t' a b E) -> krep h a k ->
  NoDup (a :: addrs t' ++ kaddrs k) -> avl (mk d t' a b E) -> kavl (1 + height t') k ->
  avl_root tr = root_of (plug (mk d t' a b E) k) ->
  exists tr' h', pfs_detach_noninterior tr h a = Some (tr', h') /\ climbing tr' h' t' k (height t' + 1) /\
    avl_numnodes tr' = avl_numnodes tr /\ keep (addrs t' ++ kaddrs k) h h'.
Proof.
  intros Hd Ht Hk Hnd Ha Hka Hr. destruct (krep_up _ _ _ Hk) as [Hp Hi].
  rewrite trep_mk in Ht by done. destruct Ht as (Ha0 & Haal & Hb & Hl & Ht & _). simpl root_of in Hl.
  rewrite avl_mk in Ha by done. destruct Ha as (Ha & _ & Hbh & _). simpl height in Hbh.
  pose proof (child2balance_sign d Hd) as (Hsg & _). pose proof (height_nonneg t').
  assert (Hclimb : forall h', trep h' (kparent k) (kidx k) t' -> krep h' (root_of t') k ->
     climbing (newroot k (root_of t') tr) h' t' k (height t' + 1)).
  { intros h' H1 H2. split; try done; [by apply NoDup_cons in Hnd as [_ ?]|by rewrite Z.add_comm|by eapply newroot_root]. }
  nd_split Hnd. pose proof (keep_refl (addrs t' ++ kaddrs k) h) as Hkeep.
  unfold pfs_detach_noninterior. rewrite Hl. lazy beta iota zeta. rewrite mkn_parent, mkn_idx, mkn_balance by done.
  destruct (Z.eqb_spec b 0) as [E0|E0].
  - assert (t' = E) as -> by (apply height_0; lia).
    assert (avl_child (mkn d (root_of E) 0 (pk (kparent k) (kidx k) b)) 0 = 0 /\
            avl_child (mkn d (root_of E) 0 (pk (kparent k) (kidx k) b)) 1 = 0) as [-> ->]
      by (unfold avl_child, mkn; by destruct (d =? 0)).
    rewrite Z.eqb_refl. relink_top k. eexists _, _. split; [reflexivity|]. rewrite newroot_num. split_and!; auto.
  - rewrite (bal_side d t' b) by (done || lia). rewrite mkn_child.
    assert (Hroot : root_of t' <> 0) by (destruct t'; [simpl in *; lia|by destruct Ht as (? & _)]).
    destruct (relink_ok h a d (kparent k) (kidx k) t') as (h1 & Hre & Ht1 & K1); try done.
    unfold relink in Hre. rewrite (proj2 (Z.eqb_neq _ _) Hroot) in Hre. simpl negb in Hre. lazy iota in Hre.
    destruct (upd (root_of t') (pfs_avl_node_setparent (kparent k)) h) as [h0|]; [|done]. rewrite Hre. clear Hl Hre Ht.
    blk K1. relink_top k. eexists _, _. split; [reflexivity|]. rewrite newroot_num. split_and!; auto.
Qed.

(** ** Walking down and up *)
Definition all_idx (c : Z) (k : list frame) : Prop := Forall (fun '(Fr c' _ _ _) => c' = c) k.

(** Down to the end of one side. *)
Lemma descend_ok h d fuel : bit d -> forall u p ci, u <> E -> trep h p ci u -> height u <= Z.of_nat fuel ->
  exists y e t' k', u = plug (mk d t' y e E) k' /\ avl_descend fuel h (root_of u) (1 - d) = Some y /\ all_idx (1 - d) k'.
Proof.
  intros Hd. induction fuel as [|fuel IH]; intros u p ci Hu Hr Hh.
  { destruct u; [done|]. simpl in Hh. pose proof (height_nonneg u1). lia. }
  destruct (mk_cases d u Hd) as [?|(t' & y & e & s & ->)]; [done|].
  rewrite trep_mk in Hr by done. destruct Hr as (Hy & Hya & He & Hl & Ht' & Hs). rewrite height_mk in Hh.
  rewrite root_mk. simpl. rewrite Hl. rewrite mkn_other by done.
  destruct (Z.eqb_spec (root_of s) 0) as [E0|E0].
  - exists y, e, t', []. split; [|split; [done|constructor]]. simpl. f_equal.
    destruct s; [done|]. simpl in *. by destruct Hs as (? & _).
  - destruct (IH s y (1 - d)) as (y' & e' & t2 & k' & Hu' & -> & Hix); [intros ->; done|done|lia|].
    exists y', e', t2, (k' ++ [Fr (1 - d) y e t']). split_and!; [|done|].
    + rewrite plug_app, <- Hu'. simpl. by rewrite mk_flip.
    + apply Forall_app. split; [done|]. by repeat constructor.
Qed.

(** ** Removal *)
Lemma kleft_app k1 k2 : kleft (k1 ++ k2) = kleft k2 ++ kleft k1.
Proof. induction k1 as [|[c a b s] k1 IH]; simpl; [by rewrite app_nil_r|]. by rewrite IH, app_assoc. Qed.
Lemma kright_app k1 k2 : kright (k1 ++ k2) = kright k1 ++ kright k2.
Proof. induction k1 as [|[c a b s] k1 IH]; simpl; [done|]. by rewrite IH, app_assoc. Qed.
Lemma kaddrs_app k1 k2 : kaddrs (k1 ++ k2) = kaddrs k1 ++ kaddrs k2.
Proof. induction k1 as [|[c a b s] k1 IH]; simpl; [done|]. by rewrite IH, app_assoc. Qed.
Lemma kavl_rename n k1 d x y b v k : kavl n (k1 ++ Fr d x b v :: k) -> kavl n (k1 ++ Fr d y b v :: k).
Proof. revert n. induction k1 as [|[c a b' s] k1 IH]; intros n; simpl; [tauto|]. intros (? & ? & ? & ?). auto. Qed.

(** All to one side: nothing beyond the hole there. *)
Lemma all_right k : all_idx 1 k -> kright k = [].
Proof. induction k as [|[c a b s] k IH]; [done|]. intros [-> Hk]%Forall_cons. simpl. auto. Qed.
Lemma all_left k : all_idx 0 k -> kleft k = [].
Proof. induction k as [|[c a b s] k IH]; [done|]. intros [-> Hk]%Forall_cons. simpl. rewrite app_nil_r. auto. Qed.
Lemma all_idx_kok c k : bit c -> all_idx c k -> kok k.
Proof. intros Hc Hk. eapply Forall_impl; [exact Hk|]. intros [c' ? ? ?]. by intros ->. Qed.

(** The removal proper, at a node with at most one child. *)
Lemma remove_at fuel tr h d t' a b k : bit d -> trep h (kparent k) (kidx k) (mk d t' a b E) -> krep h a k ->
  NoDup (a :: addrs t' ++ kaddrs k) -> avl (mk d t' a b E) -> kavl (1 + height t') k ->
  avl_root tr = root_of (plug (mk d t' a b E) k) -> (length k <= fuel)%nat ->
  settles (let* r := pfs_detach_noninterior tr h a in
           let '(tr, h) := r in avl_remove_up fuel tr h (kparent k) (kidx k)) tr h (addrs (plug t' k)).
Proof.
  intros Hd Ht Hk Hnd Ha Hka Hr Hf.
  destruct (detach_ok tr h d t' a b k) as (tr' & h' & -> & Hcl & Hn & Hkeep); try done. lazy beta iota.
  eapply settles_trans; [exact Hn| |by apply remove_up_ok]. eapply keep_mono; [|exact Hkeep]. intros z. by rewrite plug_perm.
Qed.

Lemma split_at t a : a ∈ addrs t -> exists l b r k, t = plug (T l a b r) k /\ kok k.
Proof.
  induction t as [|l IHl a' b r IHr]; simpl; [by intros ?%elem_of_nil|].
  rewrite elem_of_app, elem_of_cons. intros [Ha|[->|Ha]].
  - destruct (IHl Ha) as (l0 & b0 & r0 & k & -> & Hk). exists l0, b0, r0, (k ++ [Fr 0 a' b r]). rewrite plug_app.
    split; [done|]. apply Forall_app. split; [done|]. by repeat constructor.
  - exists l, b, r, []. split; [done|constructor].
  - destruct (IHr Ha) as (l0 & b0 & r0 & k & -> & Hk). exists l0, b0, r0, (k ++ [Fr 1 a' b l]). rewrite plug_app.
    split; [done|]. apply Forall_app. split; [done|]. constructor; [by right|constructor].
Qed.

Lemma addr_split_unique (a : Z) (l1 l2 m1 m2 : list Z) : NoDup (l1 ++ a :: l2) -> l1 ++ a :: l2 = m1 ++ a :: m2 -> l1 = m1 /\ l2 = m2.
Proof.
  revert m1. induction l1 as [|x l1 IH]; intros [|y m1] Hnd E0; simpl in *.
  - by injection E0.
  - injection E0 as <- ->. apply NoDup_cons in Hnd as [Hna _]. set_solver.
  - injection E0 as -> <-. apply NoDup_cons in Hnd as [Hna _]. set_solver.
  - injection E0 as <- E0. apply NoDup_cons in Hnd as [_ Hnd]. destruct (IH m1 Hnd E0) as [-> ->]. done.
Qed.

Section Remove.
Context (off : Z) (fuel : nat) (tr : pfs_avl_tree) (h : heap) (k : list frame) (tmp data : Z).
Context (l : tree) (b : Z) (r : tree).
Let a := pfs_avl_data2node data off.
Let t := plug (T l a b r) k.
Hypothesis Hok : tree_ok h tr t.
Hypothesis Hk : kok k.
Hypothesis Htmp : tmp <> 0 /\ aligned tmp.
Hypothesis Hnt : tmp ∉ addrs t.
Hypothesis Hf : height t <= Z.of_nat fuel.

Definition removed : Prop :=
  exists tr' h' t', pfs_avl_remove off fuel tr h data tmp = Some (tr', h') /\ tree_ok h' tr' t' /\
    addrs t' = kleft k ++ (addrs l ++ addrs r) ++ kright k /\ keep (tmp :: addrs t) h h'.

Let tr1 := set_numnodes (avl_numnodes tr - 1) tr.

Lemma removed_settles h1 tr2 res : avl_numnodes tr2 = avl_numnodes tr1 ->
  settles res tr2 h1 (kleft k ++ (addrs l ++ addrs r) ++ kright k) -> keep (tmp :: addrs t) h h1 ->
  pfs_avl_remove off fuel tr h data tmp = res -> removed.
Proof.
  intros Hn Hs Hkeep E0. destruct Hok as [_ Hnd _ _ Hnum].
  assert (Hsub : addrs t ≡ₚ a :: kleft k ++ (addrs l ++ addrs r) ++ kright k).
  { unfold t. rewrite addrs_plug. simpl. solve_Permutation. }
  apply settles_ok in Hs as (tr' & h' & t' & Hr & Hok' & Hl & Hk2).
  - exists tr', h', t'. split; [congruence|]. split_and!; try done. eapply keep_trans; [exact Hkeep|].
    eapply keep_mono; [|exact Hk2]. intros z Hz. right. rewrite Hsub. by right.
  - rewrite Hsub in Hnd. by apply NoDup_cons in Hnd as [_ ?].
  - rewrite Hn. simpl. rewrite Hnum. unfold size. rewrite Hsub. simpl. lia.
Qed.

Lemma node_facts : h !! a = Some (MkNode (root_of l) (root_of r) (pk (kparent k) (kidx k) b)) /\
  trep h (kparent k) (kidx k) (T l a b r) /\ krep h a k /\ avl (T l a b r) /\ kavl (height (T l a b r)) k /\
  NoDup (addrs (T l a b r) ++ kaddrs k) /\ (length k <= fuel)%nat /\ (avl_numnodes tr >? 0) = true.
Proof.
  destruct Hok as [Hrep Hnd Havl Hr Hnum]. apply plug_rep in Hrep as [Ht Hkr]; [|done].
  apply avl_plug in Havl as [Ha Hka]; [|done]. unfold t in Hnd. rewrite plug_perm in Hnd.
  pose proof (height_plug (T l a b r) k) as Hh. fold t in Hh. pose proof (height_nonneg (T l a b r)).
  split; [by destruct Ht as (_ & _ & _ & ? & _)|]. split_and!; try done; [lia|].
  rewrite Hnum. unfold size, t. rewrite addrs_plug, !length_app. simpl. rewrite length_app. simpl.
  rewrite Z.gtb_ltb. apply Z.ltb_lt. lia.
Qed.

(** A node without a child on one side. *)
Lemma remove_outer : l = E \/ r = E -> removed.
Proof.
  intros Hlr. destruct node_facts as (Hl & Ht & Hkr & Ha & Hka & Hnd & Hlen & Hpos).
  destruct (krep_up _ _ _ Hkr) as [Hp Hi]. assert (Hb : bal3 b) by by destruct Ha as (_ & _ & _ & ?).
  assert (Hex : exists d t', bit d /\ T l a b r = mk d t' a b E /\ addrs l ++ addrs r = addrs t').
  { destruct Hlr as [->| ->]; [exists 1, r|exists 0, l]; (split; [unfold bit; tauto|split; [done|]]); [done|by rewrite app_nil_r]. }
  destruct Hex as (d & t' & Hd & Emk & Eadd).
  apply (removed_settles h tr1 (let* r := pfs_detach_noninterior tr1 h a in
           let '(tr, h) := r in avl_remove_up fuel tr h (kparent k) (kidx k))); [done| |done|].
  - rewrite Eadd, <- addrs_plug. rewrite Emk in *. apply (remove_at fuel tr1 h d t' a b k); try done.
    + eapply nd_perm; [|exact Hnd]. rewrite addrs_mk. simpl. solve_Permutation.
    + rewrite height_mk in Hka. simpl in Hka. pose proof (height_nonneg t'). by rewrite Z.max_l in Hka by lia.
    + destruct Hok as [_ _ _ Hr _]. unfold t in Hr. by rewrite Emk in Hr.
  - unfold pfs_avl_remove. fold a. rewrite Hl, Hpos. lazy beta iota zeta. fold tr1.
    change (MkNode (root_of l) (root_of r) (pk (kparent k) (kidx k) b)) with (mkn 0 (root_of l) (root_of r) (pk (kparent k) (kidx k) b)).
    rewrite mkn_parent, mkn_idx by done.
    assert (negb (root_of l =? 0) && negb (root_of r =? 0) = false) as Hc.
    { destruct Hlr as [->| ->]; simpl; [done|]. apply andb_false_r. }
    change (avl_child (mkn 0 (root_of l) (root_of r) _) 0) with (root_of l).
    change (avl_child (mkn 0 (root_of l) (root_of r) _) 1) with (root_of r). by rewrite Hc.
Qed.

(** An inner node [mk d u a b v], whose neighbour [y] in [u] takes its place. *)
Section Inner.
Context (d : Z) (u v : tree) (y e : Z) (t' : tree) (k' : list frame).
Hypothesis Hd : bit d.
Hypothesis Emk : T l a b r = mk d u a b v.
Hypothesis Hv : v <> E.
Hypothesis Eu : u = plug (mk d t' y e E) k'.
Hypothesis Hix : all_idx (1 - d) k'.
Let K := k' ++ Fr d y b v :: k.

Lemma inner_perm : addrs t ≡ₚ a :: y :: addrs t' ++ kaddrs k' ++ addrs v ++ kaddrs k.
Proof. unfold t. rewrite Emk, plug_perm, addrs_mk, Eu, plug_perm, addrs_mk. simpl. solve_Permutation. Qed.

Lemma inner_addrs : addrs (plug t' K) = kleft k ++ (addrs l ++ addrs r) ++ kright k.
Proof.
  rewrite addrs_plug. unfold K. rewrite kleft_app, kright_app. simpl.
  assert (Hlr : d = 0 /\ l = u /\ r = v \/ d = 1 /\ l = v /\ r = u).
  { destruct Hd as [->| ->]; unfold mk in Emk; simpl in Emk; injection Emk as -> ->; tauto. }
  destruct Hlr as [(E0 & -> & ->)|(E0 & -> & ->)]; rewrite E0 in *; simpl; rewrite Eu, addrs_plug; unfold mk; simpl.
  - rewrite (all_right k') by done. simpl. rewrite ?app_nil_r, <- ?app_assoc. by simpl.
  - rewrite (all_left k') by done. simpl. rewrite ?app_nil_r, <- ?app_assoc. simpl. by rewrite <- ?app_assoc.
Qed.

Lemma inner_avl : avl (mk d t' y e E) /\ kavl (1 + height t') K /\ (length K <= fuel)%nat.
Proof.
  pose proof (all_idx_kok (1 - d) k' (bit_other _ Hd) Hix) as Hk'.
  assert (Et : t = plug (mk d t' y e E) (k' ++ Fr d a b v :: k)) by (unfold t; by rewrite plug_app, <- Eu, Emk).
  destruct Hok as [_ _ Ha _ _]. rewrite Et in Ha. apply avl_plug in Ha as [Ha Hka].
  2: { apply Forall_app. split; [done|]. by constructor. }
  rewrite height_mk in Hka. simpl in Hka. pose proof (height_nonneg t'). rewrite Z.max_l in Hka by lia.
  split_and!; [done|by eapply kavl_rename|].
  pose proof (height_plug (mk d t' y e E) (k' ++ Fr d a b v :: k)) as Hh. rewrite <- Et in Hh.
  pose proof (height_nonneg (mk d t' y e E)). unfold K. rewrite length_app in *. simpl in *. lia.
Qed.

Lemma inner_exchange :
  exists h1, avl_exchange tr1 h a y tmp (MkNode (root_of l) (root_of r) (pk (kparent k) (kidx k) b))
      = Some (newroot k y tr1, h1, kparent K, kidx K) /\
    trep h1 (kparent K) (kidx K) (mk d t' tmp e E) /\ krep h1 tmp K /\ keep (tmp :: addrs t) h h1.
Proof.
  destruct node_facts as (Hl & Ht & Hkr & Ha & _). destruct inner_avl as (Hae & _ & _).
  pose proof (all_idx_kok (1 - d) k' (bit_other _ Hd) Hix) as Hk'.
  assert (En : MkNode (root_of l) (root_of r) (pk (kparent k) (kidx k) b) = mkn d (ktop y k') (root_of v) (pk (kparent k) (kidx k) b)).
  { replace (ktop y k') with (root_of u) by (by rewrite Eu, ktop_plug, root_mk).
    destruct Hd as [->| ->]; unfold mk in Emk; simpl in Emk; by injection Emk as -> ->. }
  rewrite Emk in Ht. rewrite trep_mk in Ht by done. destruct Ht as (Ha0 & Haa & Hb & Hla & Hu & Htv).
  assert (Hup : trep h (kpar k' a) (kix k' d) (mk d t' y e E) /\ krepb h y k' a d).
  { rewrite Eu in Hu. apply plug_repb in Hu as [Hu1 Hu2]; [|done]. by rewrite root_mk in Hu2. }
  destruct Hup as [Hty Hkb]. rewrite trep_mk in Hty by done. destruct Hty as (Hy0 & Hya & He & Hly & Ht' & _).
  rewrite avl_mk in Hae by done. destruct Hae as (_ & _ & Hbe & _).
  rewrite En. destruct (exchange_ok tr1 h k d a b v y e t' k' tmp) as (h1 & Hx & Hr1 & Hk1 & Hkp); try done.
  - by rewrite <- En.
  - rewrite <- inner_perm. constructor; [done|]. by destruct Hok.
  - destruct (decide (e = 0)) as [E0|E0]; [left|right; by eapply bal_side].
    apply height_0. pose proof (child2balance_sign d Hd). simpl in Hbe. lia.
  - exists h1. split_and!; try done. eapply keep_mono; [|exact Hkp]. intros z. by rewrite <- inner_perm.
Qed.

Lemma inner_settles h1 : trep h1 (kparent K) (kidx K) (mk d t' tmp e E) -> krep h1 tmp K ->
  settles (let* r := pfs_detach_noninterior (newroot k y tr1) h1 tmp in
           let '(tr, h) := r in avl_remove_up fuel tr h (kparent K) (kidx K)) (newroot k y tr1) h1
    (kleft k ++ (addrs l ++ addrs r) ++ kright k).
Proof.
  intros Ht1 Hk1. destruct inner_avl as (Hae & Hka & Hlen). rewrite <- inner_addrs.
  apply (remove_at fuel _ h1 d t' tmp e K); try done.
  - destruct Hok as [_ Hnd _ _ _]. pose proof Hnt as Hn2. rewrite inner_perm in Hnd, Hn2. unfold K. rewrite kaddrs_app. simpl.
    apply NoDup_cons in Hnd as [_ Hnd]. apply not_elem_of_cons in Hn2 as [_ Hn2].
    assert (Hnd2 : NoDup (tmp :: y :: addrs t' ++ kaddrs k' ++ addrs v ++ kaddrs k)) by by constructor.
    eapply nd_perm; [|exact Hnd2]. solve_Permutation.
  - rewrite avl_mk in Hae |- * by done. done.
  - unfold K. rewrite plug_app. simpl.
    assert (Hrt : root_of (mk d (plug (mk d t' tmp e E) k') y b v) = y) by apply root_mk.
    rewrite <- Hrt at 1. apply (newroot_root tr1 (T l a b r)). by destruct Hok.
Qed.
End Inner.

Lemma remove_inner : l <> E -> r <> E -> removed.
Proof.
  intros Hl Hr. destruct node_facts as (Hn & Ht & Hkr & Ha & Hka & Hnd & Hlen & Hpos).
  destruct (krep_up _ _ _ Hkr) as [Hp Hi]. assert (Hb : bal3 b) by by destruct Ha as (_ & _ & _ & ?).
  set (d := balance2child b). assert (Hd : bit d) by (unfold d, balance2child, bit; destruct (b =? 1); tauto).
  assert (Hex : exists u v, T l a b r = mk d u a b v /\ u <> E /\ v <> E).
  { destruct Hd as [->| ->]; [by exists l, r|by exists r, l]. }
  destruct Hex as (u & v & Emk & Hu & Hv).
  assert (Hut : trep h a d u /\ root_of u <> 0 /\ height u <= Z.of_nat fuel /\ a <> 0).
  { rewrite Emk, trep_mk in Ht by done. destruct Ht as (? & _ & _ & _ & Hut & _).
    pose proof (height_plug (T l a b r) k) as Hh. fold t in Hh. rewrite Emk, height_mk in Hh.
    split_and!; [done|by destruct u as [|? ? ? ?]; [|destruct Hut as (? & _)]|lia|done]. }
  destruct Hut as (Hut & Hu0 & Huh & Ha0).
  destruct (descend_ok h d fuel Hd u a d Hu Hut Huh) as (y & e & t' & k' & Eu & Hdesc & Hix).
  destruct (inner_exchange d u v y e t' k' Hd Emk Hv Eu Hix) as (h1 & Hx & Ht1 & Hk1 & Hkeep).
  eapply (removed_settles h1 (newroot k y tr1)); [by apply newroot_num|by eapply (inner_settles d u v y e t' k')|done|].
  assert (Hw : pfs_avl_walk off fuel h data d = Some (pfs_avl_node2data y off)).
  { assert (En : MkNode (root_of l) (root_of r) (pk (kparent k) (kidx k) b) = mkn d (root_of u) (root_of v) (pk (kparent k) (kidx k) b)).
    { destruct Hd as [E0|E0]; rewrite E0 in *; unfold mk in Emk; simpl in Emk; by injection Emk as -> ->. }
    unfold pfs_avl_walk. fold a. rewrite (proj2 (Z.eqb_neq a 0)) by done. rewrite Hn, En. lazy beta iota. rewrite mkn_child.
    rewrite (proj2 (Z.eqb_neq _ 0)) by done. simpl negb. lazy iota. by rewrite Hdesc. }
  unfold pfs_avl_remove. fold a. rewrite Hn, Hpos. lazy beta iota zeta. fold tr1.
  replace (pfs_avl_node_balance (MkNode (root_of l) (root_of r) (pk (kparent k) (kidx k) b))) with b
    by (symmetry; by apply (mkn_balance 0)).
  fold d. rewrite Hw. lazy iota beta.
  replace (pfs_avl_data2node (pfs_avl_node2data y off) off) with y by (unfold pfs_avl_data2node, pfs_avl_node2data; lia).
  rewrite Hx. lazy beta iota.
  change (avl_child (MkNode (root_of l) (root_of r) _) 0) with (root_of l).
  change (avl_child (MkNode (root_of l) (root_of r) _) 1) with (root_of r).
  rewrite !(proj2 (Z.eqb_neq _ 0)); [done| |].
  - destruct r; [done|]. simpl in Ht. tauto.
  - destruct l; [done|]. simpl in Ht. tauto.
Qed.
End Remove.

Lemma remove_ok off fuel tr h t data tmp l1 l2 : let a := pfs_avl_data2node data off in
  tree_ok h tr t -> addrs t = l1 ++ a :: l2 -> tmp <> 0 -> aligned tmp -> tmp ∉ addrs t -> height t <= Z.of_nat fuel ->
  exists tr' h' t', pfs_avl_remove off fuel tr h data tmp = Some (tr', h') /\ tree_ok h' tr' t' /\
    addrs t' = l1 ++ l2 /\ keep (tmp :: addrs t) h h'.
Proof.
  intros a Hok Hl Ht0 Hta Htn Hf. destruct (split_at t a) as (l & b & r & k & -> & Hk); [rewrite Hl; set_solver|].
  assert (Hrem : removed off fuel tr h k tmp data l b r).
  { destruct l as [|ll la lb lr]; [apply remove_outer; auto|].
    destruct r as [|rl ra rb rr]; [apply remove_outer; auto|]. by apply remove_inner. }
  destruct Hrem as (tr' & h' & t' & Hr & Hok' & Hl' & Hkeep). exists tr', h', t'. split_and!; try done.
  rewrite addrs_plug in Hl. simpl in Hl. rewrite <- app_assoc in Hl. simpl in Hl. rewrite app_assoc in Hl.
  destruct Hok as [_ Hnd _ _ _]. rewrite addrs_plug in Hnd. simpl in Hnd. rewrite <- app_assoc in Hnd. simpl in Hnd. rewrite app_assoc in Hnd.
  destruct (addr_split_unique a _ _ _ _ Hnd Hl) as [<- <-]. rewrite Hl'. by rewrite <- !app_assoc.
Qed.

(** ** The ends and the neighbours *)
Definition end_of (dir : Z) (l : list Z) (dflt : Z) : Z := default dflt (if dir =? 0 then head l else last l).

Lemma last_app_some {A} (l1 l2 : list A) : l2 <> [] -> last (l1 ++ l2) = last l2.
Proof. rewrite last_app. destruct l2; [done|]. by destruct (last (a :: l2)) eqn:E0; [|apply last_None in E0]. Qed.

Lemma end_mk dir s y e o dflt : bit dir -> end_of dir (addrs (mk dir s y e o)) dflt = end_of dir (addrs s) y.
Proof.
  intros [->| ->]; unfold end_of, mk; simpl.
  - by destruct (addrs s).
  - rewrite last_app_some by done. rewrite last_cons. by destruct (last (addrs s)).
Qed.

Lemma end_prev dir t p q : t <> E -> end_of dir (addrs t) p = end_of dir (addrs t) q.
Proof.
  destruct t as [|l a b r]; [done|]. intros _. unfold end_of. simpl. destruct (dir =? 0).
  - by destruct (addrs l).
  - rewrite last_app_some by done. rewrite (last_cons a). by destruct (last (addrs r)).
Qed.

Lemma outermost_ok h dir fuel : bit dir -> forall u p ci prev, trep h p ci u -> height u <= Z.of_nat fuel ->
  avl_outermost fuel h (root_of u) prev dir = Some (end_of dir (addrs u) prev).
Proof.
  intros Hd. induction fuel as [|fuel IH]; intros u p ci prev Hr Hh.
  { rewrite (height_0 u) by lia. simpl. unfold end_of. by destruct (dir =? 0). }
  destruct (mk_cases dir u Hd) as [->|(s & y & e & o & ->)]; [simpl; unfold end_of; by destruct (dir =? 0)|].
  rewrite trep_mk in Hr by done. destruct Hr as (Hy & Hya & He & Hl & Hs & _). rewrite height_mk in Hh.
  rewrite root_mk, end_mk by done. simpl. rewrite (proj2 (Z.eqb_neq y 0)) by done. rewrite Hl, mkn_child.
  apply (IH s y dir y Hs). lia.
Qed.

Lemma descend_end h dir fuel : bit dir -> forall u p ci, u <> E -> trep h p ci u -> height u <= Z.of_nat fuel ->
  avl_descend fuel h (root_of u) dir = Some (end_of dir (addrs u) 0).
Proof.
  intros Hd. induction fuel as [|fuel IH]; intros u p ci Hu Hr Hh.
  { by rewrite (height_0 u) in Hu by lia. }
  destruct (mk_cases dir u Hd) as [->|(s & y & e & o & ->)]; [done|].
  rewrite trep_mk in Hr by done. destruct Hr as (Hy & Hya & He & Hl & Hs & _). rewrite height_mk in Hh.
  rewrite root_mk, end_mk by done. simpl. rewrite Hl, mkn_child.
  destruct s as [|sl sa sb sr]; [simpl; unfold end_of; by destruct (dir =? 0)|].
  simpl root_of. destruct (Z.eqb_spec sa 0); [by destruct Hs as (? & _)|].
  rewrite (end_prev dir (T sl sa sb sr) y 0) by done. apply (IH (T sl sa sb sr) y dir); [done..|lia].
Qed.

(** Beyond the hole of a context, on the side [1 - right]. *)
Definition beyond (right : Z) (k : list frame) : Z := default 0 (if right =? 0 then head (kright k) else last (kleft k)).

Lemma ascend_ok h right fuel : bit right -> forall k t, t <> E -> trep h (kparent k) (kidx k) t -> krep h (root_of t) k ->
  (length k < fuel)%nat -> avl_ascend fuel h (root_of t) right = Some (beyond right k).
Proof.
  intros Hr. induction fuel as [|fuel IH]; intros k t Ht Hrep Hk Hf; [lia|].
  destruct t as [|l a b r]; [done|]. simpl root_of in *. destruct (krep_up _ _ _ Hk) as [Hp Hi].
  pose proof Hrep as (Ha & Hal & Hb & Hl & _).
  change (MkNode (root_of l) (root_of r) (pk (kparent k) (kidx k) b)) with (mkn 0 (root_of l) (root_of r) (pk (kparent k) (kidx k) b)) in Hl.
  simpl avl_ascend. rewrite Hl. rewrite mkn_parent, mkn_idx by done.
  destruct k as [|[c a' b' s] k]; [simpl; unfold beyond; by destruct (right =? 0)|].
  simpl kparent in *. simpl kidx in *. destruct Hk as (Hc & Ha' & Hal' & Hb' & Hl' & Hs & Hk).
  rewrite (proj2 (Z.eqb_neq a' 0)) by done. simpl in Hf.
  destruct (Z.eqb_spec c right) as [<-|Hne].
  - unfold beyond. simpl. destruct Hc as [->| ->]; simpl; [done|]. rewrite app_assoc, last_snoc. done.
  - assert (Hmk : root_of (mk c (T l a b r) a' b' s) = a') by apply root_mk. rewrite <- Hmk at 1.
    rewrite (IH k (mk c (T l a b r) a' b' s)).
    + f_equal. unfold beyond. simpl. destruct Hc as [->| ->], Hr as [->| ->]; try done. simpl. by rewrite app_nil_r.
    + unfold mk. by destruct (c =? 0).
    + rewrite trep_mk by done. by split_and!.
    + by rewrite Hmk.
    + lia.
Qed.

(** [0] for none. *)
Definition data_opt (off : Z) (o : option Z) : Z := match o with Some y => pfs_avl_node2data y off | None => 0 end.

Lemma head_app_some {A} (l1 l2 : list A) : l1 <> [] -> head (l1 ++ l2) = head l1.
Proof. by destruct l1. Qed.

Lemma addrs_nonzero h t : forall p ci y, trep h p ci t -> y ∈ addrs t -> y <> 0.
Proof.
  induction t as [|l IHl a b r IHr]; simpl; intros p ci y; [by intros _ ?%elem_of_nil|].
  intros (Ha & _ & _ & _ & Hl & Hr). rewrite elem_of_app, elem_of_cons. intros [H|[->|H]]; eauto.
Qed.

Lemma opt_data off o : (forall y, o = Some y -> y <> 0) ->
  (if default 0 o =? 0 then 0 else pfs_avl_node2data (default 0 o) off) = data_opt off o.
Proof. destruct o as [y|]; [|done]. simpl. intros Hy. by rewrite (proj2 (Z.eqb_neq y 0)) by auto. Qed.

Lemma head_in {A} (l : list A) y : head l = Some y -> y ∈ l.
Proof. destruct l; [done|]. injection 1 as ->. by left. Qed.

Lemma beyond_data off right k h hp : krep h hp k ->
  (if beyond right k =? 0 then 0 else pfs_avl_node2data (beyond right k) off)
  = data_opt off (if right =? 0 then head (kright k) else last (kleft k)).
Proof.
  intros Hk. unfold beyond.
  assert (Hnz : forall y, y ∈ kaddrs k -> y <> 0).
  { revert hp Hk. induction k as [|[c a b s] k IH]; intros hp; simpl; [by intros _ y ?%elem_of_nil|].
    intros (_ & Ha & _ & _ & _ & Hs & Hk) y. rewrite elem_of_cons, elem_of_app. intros [->|[Hy|Hy]]; [done| |by eapply IH].
    by eapply addrs_nonzero. }
  apply opt_data. intros y Hy. apply Hnz. rewrite kaddrs_perm. apply elem_of_app.
  destruct (right =? 0); [right; by apply head_in|left; by apply last_Some_elem_of].
Qed.

(** The neighbour of a node after ([left] = 1) or before it ([left] = 0). *)
Lemma walk_ok off fuel tr h t data left l1 l2 : let a := pfs_avl_data2node data off in
  bit left -> tree_ok h tr t -> addrs t = l1 ++ a :: l2 -> height t <= Z.of_nat fuel ->
  pfs_avl_walk off fuel h data left = Some (data_opt off (if left =? 1 then head l2 else last l1)).
Proof.
  intros a Hleft Hok Hl Hf. destruct (split_at t a) as (l & b & r & k & -> & Hk); [rewrite Hl; set_solver|].
  destruct Hok as [Hrep Hnd _ _ _]. apply plug_rep in Hrep as [Ht Hkr]; [|done].
  pose proof (height_plug (T l a b r) k) as Hh. simpl height in Hh.
  pose proof (height_nonneg l). pose proof (height_nonneg r).
  assert (Hl12 : l1 = kleft k ++ addrs l /\ l2 = addrs r ++ kright k).
  { rewrite addrs_plug in Hl, Hnd. simpl in Hl, Hnd. rewrite <- app_assoc in Hl, Hnd. simpl in Hl, Hnd. rewrite app_assoc in Hl, Hnd.
    destruct (addr_split_unique a _ _ _ _ Hnd Hl) as [<- <-]. done. }
  destruct Hl12 as [-> ->].
  assert (Hasc : avl_ascend fuel h a (1 - left) = Some (beyond (1 - left) k)).
  { apply (ascend_ok h (1 - left) fuel (bit_other _ Hleft) k (T l a b r)); try done. lia. }
  destruct Ht as (Ha & Hal & Hb & Hn & Htl & Htr). simpl root_of in Hkr.
  unfold pfs_avl_walk. fold a. rewrite (proj2 (Z.eqb_neq a 0)) by done. rewrite Hn, Hasc. lazy beta iota.
  assert (Hgo : forall s, (s = if left =? 1 then r else l) -> avl_child (MkNode (root_of l) (root_of r) (pk (kparent k) (kidx k) b)) left = root_of s /\
     trep h a left s /\ height s <= Z.of_nat fuel).
  { destruct Hleft as [->| ->]; simpl; intros s ->; (split; [done|split; [done|lia]]). }
  destruct (Hgo _ eq_refl) as (-> & Hs & Hsh). remember (if left =? 1 then r else l) as s eqn:Es.
  destruct (Z.eqb_spec (root_of s) 0) as [E0|E0]; simpl negb; lazy iota.
  - assert (s = E) as HE by (destruct s; [done|by destruct Hs as (? & _)]). rewrite HE in Es.
    rewrite (beyond_data off (1 - left) k h a Hkr). f_equal. f_equal.
    destruct Hleft as [->| ->]; simpl in *; rewrite <- Es; simpl; [by rewrite app_nil_r|done].
  - assert (Hse : s <> E) by by intros ->.
    rewrite (descend_end h (1 - left) fuel (bit_other _ Hleft) s a left Hse Hs Hsh). f_equal.
    assert (Hne : addrs s <> []) by (destruct s; [done|]; simpl; by destruct (addrs s1)).
    unfold end_of. destruct Hleft as [->| ->]; simpl in *; rewrite <- Es.
    + rewrite last_app_some by done. destruct (last (addrs s)) eqn:El; [done|]. by apply last_None in El.
    + rewrite head_app_some by done. by destruct (addrs s).
Qed.
