(* ===== verification/AvlSpec.v ===== *)
(** * AVL trees as sorted sequences

    The operations of pfs_avl.cc refine operations on a sequence of data
    sorted by the key, with loops logarithmic in its length. *)

From stdpp Require Import sorting.
From S2P Require Import Prelude Avl AvlInv AvlSafe AvlRemove.

Open Scope pfs_scope.

Section Spec.
Context (off : Z) (key : Z -> Z).

(** ** The abstract sequence *)
Inductive op :=
| Add (d : Z) (memory : pfs_avl_node)
| Remove (d tmp : Z)
| Find (v : Z)
| First
| Last
| Next (d : Z)
| Prev (d : Z).

(** Insertion in the order of the keys. *)
Fixpoint ins (d : Z) (l : list Z) : list Z :=
  match l with [] => [d] | x :: l' => if key x <? key d then x :: ins d l' else d :: l end.

Fixpoint after (d : Z) (l : list Z) : option Z :=
  match l with [] => None | x :: l' => if x =? d then head l' else after d l' end.
Fixpoint before (prev : option Z) (d : Z) (l : list Z) : option Z :=
  match l with [] => None | x :: l' => if x =? d then prev else before (Some x) d l' end.
Fixpoint del (d : Z) (l : list Z) : list Z :=
  match l with [] => [] | x :: l' => if x =? d then l' else x :: del d l' end.

(** The new sequence and the result, [0] for none. *)
Definition spec_step (l : list Z) (o : op) : list Z * Z :=
  match o with
  | Add d _ => (ins d l, 0)
  | Remove d _ => (del d l, 0)
  | Find v => (l, default 0 (List.find (fun x => key x =? key v) l))
  | First => (l, default 0 (head l))
  | Last => (l, default 0 (last l))
  | Next d => (l, default 0 (after d l))
  | Prev d => (l, default 0 (before None d l))
  end.

(** What the caller owes: memory of its own for a new node and for the copy
    on the stack, no second node with the same key, only members removed or
    walked from. *)
Definition op_ok (l : list Z) (o : op) : Prop :=
  match o with
  | Add d _ => aligned d /\ d <> 0 /\ d + off <> 0 /\ (d ∉ l) /\ Forall (fun x => key x <> key d) l
  | Remove d tmp => d ∈ l /\ tmp <> 0 /\ aligned tmp /\ (forall x, x ∈ l -> tmp <> x + off)
  | Next d | Prev d => d ∈ l
  | Find _ | First | Last => True
  end.

(** ** The code *)
Definition step (fuel : nat) (s : pfs_avl_tree * heap) (o : op) : option (pfs_avl_tree * heap * Z) :=
  let '(tr, h) := s in
  match o with
  | Add d m =>
      let* r := pfs_avl_add off (pfs_inode_compare key) fuel tr (<[pfs_avl_data2node d off := m]> h) d in
      let '(tr, h) := r in Some (tr, h, 0)
  | Remove d tmp => let* r := pfs_avl_remove off fuel tr h d tmp in let '(tr, h) := r in Some (tr, h, 0)
  | Find v => let* r := pfs_avl_find off (pfs_inode_compare key) fuel tr h v in Some (tr, h, fst r)
  | First => let* r := pfs_avl_first off fuel tr h in Some (tr, h, r)
  | Last => let* r := pfs_avl_last off fuel tr h in Some (tr, h, r)
  | Next d => let* r := pfs_avl_next off fuel h d in Some (tr, h, r)
  | Prev d => let* r := pfs_avl_prev off fuel h d in Some (tr, h, r)
  end.

(** The tree holds the sequence [l]. *)
Definition holds (s : pfs_avl_tree * heap) (l : list Z) : Prop :=
  (0 ∉ l) /\ StronglySorted (fun x y => key x < key y) l /\
  exists t, tree_ok (snd s) (fst s) t /\ addrs t = (fun d => pfs_avl_data2node d off) <$> l.

Lemma data_node d : data_of off (pfs_avl_data2node d off) = d.
Proof. unfold data_of, pfs_avl_node2data, pfs_avl_data2node. lia. Qed.

Lemma ordered_map l : StronglySorted (fun x y => key x < key y) l ->
  ordered off key ((fun d => pfs_avl_data2node d off) <$> l).
Proof. intros Hs. apply StronglySorted_fmap with (2 := Hs). intros x y. unfold akey. by rewrite !data_node. Qed.

(** ** Lists *)
Lemma ins_split d l : StronglySorted (fun x y => key x < key y) l -> Forall (fun x => key x <> key d) l ->
  forall l1 l2, l = l1 ++ l2 -> Forall (fun x => key x < key d) l1 -> Forall (fun x => key d < key x) l2 ->
  ins d l = l1 ++ d :: l2.
Proof.
  intros _ _ l1. revert l. induction l1 as [|x l1 IH]; intros l l2 -> H1 H2; simpl.
  - destruct l2 as [|y l2]; [done|]. apply Forall_cons in H2 as [H2 _]. simpl.
    by rewrite (proj2 (Z.ltb_ge _ _)) by lia.
  - apply Forall_cons in H1 as [Hx H1]. rewrite (proj2 (Z.ltb_lt _ _)) by done. f_equal. by apply IH.
Qed.

Lemma ins_sorted d l : StronglySorted (fun x y => key x < key y) l -> Forall (fun x => key x <> key d) l ->
  StronglySorted (fun x y => key x < key y) (ins d l).
Proof.
  induction l as [|x l IH]; intros Hs Hd; simpl; [by repeat constructor|].
  apply StronglySorted_cons in Hs as [Hx Hs]. apply Forall_cons in Hd as [Hxd Hd].
  destruct (Z.ltb_spec (key x) (key d)).
  - constructor; [auto|]. clear IH Hs. induction l as [|y l IHl]; simpl; [by constructor|].
    apply Forall_cons in Hx as [? ?]. apply Forall_cons in Hd as [? ?]. destruct (key y <? key d); repeat constructor; auto.
  - constructor; [by constructor|]. constructor; [lia|]. eapply Forall_impl; [exact Hx|]. simpl. lia.
Qed.

Lemma sorted_nodup l : StronglySorted (fun x y => key x < key y) l -> NoDup l.
Proof.
  induction 1 as [|x l _ IH Hx]; constructor; [|done]. rewrite Forall_forall in Hx. intros Hin. specialize (Hx x Hin). lia.
Qed.

Lemma del_split d l1 l2 : d ∉ l1 -> del d (l1 ++ d :: l2) = l1 ++ l2.
Proof.
  induction l1 as [|x l1 IH]; simpl; intros Hd; [by rewrite Z.eqb_refl|]. apply not_elem_of_cons in Hd as [Hx Hd].
  rewrite (proj2 (Z.eqb_neq _ _)) by congruence. f_equal. auto.
Qed.
Lemma after_split d l1 l2 : d ∉ l1 -> after d (l1 ++ d :: l2) = head l2.
Proof.
  induction l1 as [|x l1 IH]; simpl; intros Hd; [by rewrite Z.eqb_refl|]. apply not_elem_of_cons in Hd as [Hx Hd].
  rewrite (proj2 (Z.eqb_neq _ _)) by congruence. auto.
Qed.
Lemma before_split d l1 l2 p : d ∉ l1 -> before p d (l1 ++ d :: l2) = match last l1 with Some x => Some x | None => p end.
Proof.
  revert p. induction l1 as [|x l1 IH]; simpl; intros p Hd; [by rewrite Z.eqb_refl|]. apply not_elem_of_cons in Hd as [Hx Hd].
  rewrite (proj2 (Z.eqb_neq _ _)) by congruence. rewrite IH by done. rewrite last_cons. by destruct (last l1).
Qed.

Lemma split_sorted l d : d ∈ l -> StronglySorted (fun x y => key x < key y) l ->
  exists l1 l2, l = l1 ++ d :: l2 /\ (d ∉ l1) /\ StronglySorted (fun x y => key x < key y) (l1 ++ l2).
Proof.
  intros Hd Hs. apply list_elem_of_split in Hd as (l1 & l2 & ->). exists l1, l2.
  pose proof (sorted_nodup _ Hs) as Hnd. split_and!; [done|apply NoDup_app in Hnd as (_ & Hn & _); set_solver|].
  clear Hnd. induction l1 as [|x l1 IH]; simpl in *.
  - by apply StronglySorted_cons in Hs as [_ ?].
  - apply StronglySorted_cons in Hs as [Hx Hs]. constructor; [auto|]. apply Forall_app in Hx as [? [_ ?]%Forall_cons].
    by apply Forall_app.
Qed.

Lemma find_key l v : StronglySorted (fun x y => key x < key y) l ->
  (forall d, d ∈ l -> key d = key v -> List.find (fun x => key x =? key v) l = Some d) /\
  (Forall (fun x => key x <> key v) l -> List.find (fun x => key x =? key v) l = None).
Proof.
  induction 1 as [|x l Hs [IH1 IH2] Hx]; simpl; (split; [intros d|intros Hn]).
  - by intros ?%elem_of_nil.
  - done.
  - rewrite elem_of_cons. intros Hd Hk. destruct (Z.eqb_spec (key x) (key v)) as [E0|E0].
    + destruct Hd as [->|Hd]; [done|]. rewrite Forall_forall in Hx. specialize (Hx d Hd). lia.
    + destruct Hd as [->|Hd]; [done|]. auto.
  - apply Forall_cons in Hn as [Hn1 Hn]. rewrite (proj2 (Z.eqb_neq _ _)) by done. auto.
Qed.

Lemma data_map (f : list Z -> option Z) l : (f = head \/ f = last) ->
  data_opt off (f ((fun d => pfs_avl_data2node d off) <$> l)) = default 0 (f l).
Proof.
  assert (forall o, data_opt off ((fun d => pfs_avl_data2node d off) <$> o) = default 0 o) as Hd.
  { intros [d|]; [|done]. simpl. apply data_node. }
  intros [->| ->]; [destruct l; [done|apply (Hd (Some z))]|rewrite fmap_last; apply Hd].
Qed.

(** ** Each operation *)
Context (fuel : nat) (tr : pfs_avl_tree) (h : heap) (l : list Z).
Hypothesis Hoff : aligned off.
Hypothesis Hh : holds (tr, h) l.
Hypothesis Hf : steps_enough (length l) fuel.

Definition refined (o : op) : Prop :=
  exists tr' h', step fuel (tr, h) o = Some (tr', h', snd (spec_step l o)) /\ holds (tr', h') (fst (spec_step l o)).

Lemma held : exists t, tree_ok h tr t /\ addrs t = (fun d => pfs_avl_data2node d off) <$> l /\ height t <= Z.of_nat fuel.
Proof.
  destruct Hh as (_ & _ & t & Ht & Hl). exists t. split_and!; try done. apply height_fuel; [by destruct Ht|].
  rewrite Hl. by rewrite length_fmap.
Qed.

(** The search on the sequence. *)
Lemma find_at hh v : (forall y, y ∈ (fun d => pfs_avl_data2node d off) <$> l -> hh !! y = h !! y) ->
  exists t, tree_ok hh tr t /\ addrs t = (fun d => pfs_avl_data2node d off) <$> l /\ height t <= Z.of_nat fuel /\
  ((exists d, d ∈ l /\ key d = key v /\ pfs_avl_find off (pfs_inode_compare key) fuel tr hh v = Some (d, 0)) \/
   (exists k, t = plug E k /\ kok k /\
      pfs_avl_find off (pfs_inode_compare key) fuel tr hh v = Some (0, pfs_avl_mkindex (kparent k) (kidx k)) /\
      (forall y, y ∈ kleft k -> akey off key y < key v) /\ (forall y, y ∈ kright k -> key v < akey off key y))).
Proof.
  intros He. destruct held as (t & [Hrep Hnd Ha Hr Hn] & Hl & Ht). destruct Hh as (_ & Hs & _).
  assert (Hrep' : trep hh 0 0 t) by (eapply trep_ext; [|exact Hrep]; rewrite Hl; done).
  exists t. split; [done|]. split_and!; try done.
  destruct (find_loop_ok off key hh v fuel t []) as [(a & Hin & Hk & Hfd)|(k & Ht' & Hfd & Hko & H1 & H2)]; try done.
  - constructor.
  - simpl. rewrite Hl. by apply ordered_map.
  - intros y Hy. by apply elem_of_nil in Hy.
  - intros y Hy. by apply elem_of_nil in Hy.
  - left. rewrite Hl in Hin. apply list_elem_of_fmap in Hin as (d & -> & Hd). exists d.
    unfold akey in Hk. rewrite data_node in Hk, Hfd. split_and!; try done. unfold pfs_avl_find. by rewrite Hr.
  - right. exists k. split_and!; try done. unfold pfs_avl_find. by rewrite Hr.
Qed.

Lemma refine_find v : refined (Find v).
Proof.
  destruct (find_at h v) as (t & Hok & Hl & Ht & Hd); [done|]. destruct Hh as (_ & Hs & _). unfold refined. simpl.
  exists tr, h. split; [|done]. destruct (find_key l v Hs) as [F1 F2].
  destruct Hd as [(d & Hd & Hk & ->)|(k & -> & Hko & -> & H1 & H2)]; simpl; [by rewrite (F1 d)|].
  rewrite F2; [done|]. apply Forall_forall. intros d Hd Hk.
  assert (Hin : pfs_avl_data2node d off ∈ kleft k \/ pfs_avl_data2node d off ∈ kright k).
  { apply elem_of_app. rewrite addrs_plug in Hl. simpl in Hl. rewrite Hl. apply list_elem_of_fmap. by exists d. }
  destruct Hin as [Hin|Hin]; [apply H1 in Hin|apply H2 in Hin]; unfold akey in Hin; rewrite data_node in Hin; lia.
Qed.

Lemma refine_remove d tmp : op_ok l (Remove d tmp) -> refined (Remove d tmp).
Proof.
  intros (Hd & Ht0 & Hta & Htn). destruct held as (t & Hok & Hl & Ht). destruct Hh as (H0 & Hs & _).
  destruct (split_sorted l d Hd Hs) as (l1 & l2 & El & Hd1 & Hs').
  destruct (remove_ok off fuel tr h t d tmp ((fun d => pfs_avl_data2node d off) <$> l1) ((fun d => pfs_avl_data2node d off) <$> l2))
    as (tr' & h' & t' & Hr & Hok' & Hl' & _); try done.
  { by rewrite Hl, El, fmap_app. }
  { rewrite Hl. intros (x & -> & Hx)%list_elem_of_fmap. by apply (Htn x). }
  exists tr', h'. simpl. rewrite Hr. split; [done|]. rewrite El, del_split by done. split_and!; [|done|].
  - rewrite El in H0. set_solver.
  - exists t'. by rewrite fmap_app.
Qed.

Lemma refine_ends dir : bit dir ->
  pfs_avl_outermost off fuel tr h dir = Some (default 0 (if dir =? 0 then head l else last l)).
Proof.
  intros Hd. destruct held as (t & [Hrep _ _ Hr _] & Hl & Ht). unfold pfs_avl_outermost.
  rewrite Hr, (outermost_ok h dir fuel Hd t 0 0 0 Hrep Ht). unfold end_of.
  rewrite opt_data, Hl; [destruct (dir =? 0); f_equal; [apply (data_map head)|apply (data_map last)]; auto|].
  intros y Hy. eapply (addrs_nonzero h t); [exact Hrep|].
  destruct (dir =? 0); [by apply head_in|by apply last_Some_elem_of].
Qed.

Lemma refine_walk left d : bit left -> d ∈ l ->
  pfs_avl_walk off fuel h d left = Some (default 0 (if left =? 1 then after d l else before None d l)).
Proof.
  intros Hleft Hd. destruct held as (t & Hok & Hl & Ht). destruct Hh as (_ & Hs & _).
  destruct (split_sorted l d Hd Hs) as (l1 & l2 & El & Hd1 & _).
  rewrite (walk_ok off fuel tr h t d left ((fun d => pfs_avl_data2node d off) <$> l1) ((fun d => pfs_avl_data2node d off) <$> l2)); try done.
  - f_equal. rewrite El, after_split, before_split by done. destruct (left =? 1); [by apply data_map; left|].
    rewrite (data_map last) by by right. by destruct (last l1).
  - by rewrite Hl, El, fmap_app.
Qed.

Lemma refine_add d m : op_ok l (Add d m) -> refined (Add d m).
Proof.
  intros (Hda & Hd0 & Ha0 & Hdl & Hdk). set (a := pfs_avl_data2node d off).
  assert (Hna : a ∉ (fun d => pfs_avl_data2node d off) <$> l).
  { intros (x & Hx & Hin)%list_elem_of_fmap. unfold a, pfs_avl_data2node in Hx. by replace x with d in Hin by lia. }
  destruct (find_at (<[a := m]> h) d) as (t & Hok & Hl & Ht & Hd).
  { intros y Hy. rewrite lookup_insert_ne; [done|]. by intros <-. }
  destruct Hh as (H0 & Hs & _).
  destruct Hd as [(x & Hx & Hk & _)|(k & -> & Hko & Hfd & H1 & H2)].
  { rewrite Forall_forall in Hdk. by apply Hdk in Hx. }
  rewrite addrs_plug in Hl. simpl in Hl. apply eq_sym, fmap_app_inv in Hl as (l1 & l2 & E1 & E2 & El).
  assert (Hins : ins d l = l1 ++ d :: l2).
  { apply (ins_split d l Hs Hdk l1 l2 El); apply Forall_forall; intros x Hx.
    - assert (Hx' : pfs_avl_data2node x off ∈ kleft k) by (rewrite E1; apply list_elem_of_fmap; by exists x).
      apply H1 in Hx'. unfold akey in Hx'. by rewrite data_node in Hx'.
    - assert (Hx' : pfs_avl_data2node x off ∈ kright k) by (rewrite E2; apply list_elem_of_fmap; by exists x).
      apply H2 in Hx'. unfold akey in Hx'. by rewrite data_node in Hx'. }
  assert (Hlen : (length k <= fuel)%nat) by (pose proof (height_plug E k); simpl in *; lia).
  destruct (insert_ok off fuel tr (<[a := m]> h) k d m Hok Hko Hda Hoff Ha0) as (tr' & h' & t' & Hr & Hok' & Hl' & _);
    [|apply lookup_insert_eq|done|].
  { rewrite kaddrs_perm, E1, E2, <- fmap_app, <- El. done. }
  exists tr', h'. simpl. fold a. unfold pfs_avl_add. rewrite Hfd. simpl. rewrite Hr. split; [done|].
  split_and!.
  - rewrite Hins. rewrite El in H0. set_solver.
  - by apply ins_sorted.
  - exists t'. split; [done|]. by rewrite Hl', Hins, fmap_app, fmap_cons, <- E1, <- E2.
Qed.

Lemma refine_step o : op_ok l o -> refined o.
Proof.
  destruct o as [d m|d tmp|v| | |d|d]; intros Ho; [by apply refine_add|by apply refine_remove|by apply refine_find|..];
    exists tr, h; (split; [|done]); simpl;
    unfold pfs_avl_first, pfs_avl_last, pfs_avl_next, pfs_avl_prev, PFS_AVL_BEFORE, PFS_AVL_AFTER.
  - by rewrite (refine_ends 0) by by left.
  - by rewrite (refine_ends 1) by by right.
  - by rewrite (refine_walk 1) by (done || by right).
  - by rewrite (refine_walk 0) by (done || by left).
Qed.
End Spec.

(** ** Sequences of operations *)
Section Run.
Context (off : Z) (key : Z -> Z) (fuel : nat).

Fixpoint spec_run (l : list Z) (os : list op) : list Z * list Z :=
  match os with
  | [] => (l, [])
  | o :: os => let '(l1, r) := spec_step key l o in let '(l2, rs) := spec_run l1 os in (l2, r :: rs)
  end.

Fixpoint run (s : pfs_avl_tree * heap) (os : list op) : option (pfs_avl_tree * heap * list Z) :=
  match os with
  | [] => Some (s, [])
  | o :: os =>
      let* r := step off key fuel s o in
      let '(s, v) := r in
      let* r := run s os in
      let '(s, vs) := r in Some (s, v :: vs)
  end.

Fixpoint ops_ok (l : list Z) (os : list op) : Prop :=
  match os with
  | [] => True
  | o :: os => steps_enough (length l) fuel /\ op_ok off key l o /\ ops_ok (fst (spec_step key l o)) os
  end.

Lemma run_refines os : forall s l, aligned off -> holds off key s l -> ops_ok l os ->
  exists s', run s os = Some (s', snd (spec_run l os)) /\ holds off key s' (fst (spec_run l os)).
Proof.
  induction os as [|o os IH]; intros [tr h] l Hoff Hh Hos; [by exists (tr, h)|].
  destruct Hos as (Hf & Ho & Hos). destruct (refine_step off key fuel tr h l Hoff Hh Hf o Ho) as (tr' & h' & Hst & Hh').
  destruct (IH (tr', h') _ Hoff Hh' Hos) as (s' & Hrun & Hs'). exists s'. cbn [run spec_run]. rewrite Hst, Hrun.
  destruct (spec_step key l o) as [l1 r]. simpl in *. by destruct (spec_run l1 os).
Qed.

Lemma holds_empty h : holds off key (MkTree 0 0, h) [].
Proof.
  split; [by intros ?%elem_of_nil|]. split; [constructor|]. exists E. split; [|done]. split; try done. constructor.
Qed.

(** C19: Whatever operations are made on a tree created by pfs_avl_create, with
    memory of the caller's own for the new nodes, the tree of linked nodes
    behaves like a sequence sorted by the key: search returns the member with
    the key, insertion and removal change it by one member, first, last, next
    and prev return its ends and neighbours; no assertion fails, every loop
    ends within 2 log2 (n + 1) + 1 rounds for n nodes, and the tree counts its nodes. *)
Theorem avl_refines tr h os : pfs_avl_create off = Some tr -> ops_ok [] os ->
  exists tr' h', run (tr, h) os = Some (tr', h', snd (spec_run [] os)) /\
    holds off key (tr', h') (fst (spec_run [] os)) /\
    pfs_avl_numnodes tr' = Z.of_nat (length (fst (spec_run [] os))).
Proof.
  unfold pfs_avl_create. destruct (Z.eqb_spec (Z.land off 7) 0) as [Hoff|]; [|done]. injection 1 as <-. intros Hos.
  destruct (run_refines os (MkTree 0 0, h) [] Hoff (holds_empty h) Hos) as ([tr' h'] & Hrun & Hh). exists tr', h'.
  split_and!; try done. destruct Hh as (_ & _ & t & [_ _ _ _ Hn] & Hl). simpl in Hn.
  unfold pfs_avl_numnodes. rewrite Hn. unfold size. by rewrite Hl, length_fmap.
Qed.
End Run.

(** ** Examples *)
Module Example.
Definition blank : pfs_avl_node := MkNode 77 78 7.
Definition ex_ops : list op :=
  [Add 800 blank; Add 1600 blank; Add 2400 blank; Add 3200 blank; Add 4000 blank; Find 2400; Remove 1600 64; First; Next 2400; Prev 800].
Lemma ex_ops_ok : ops_ok 8 id 8 [] ex_ops.
Proof.
  simpl. unfold steps_enough, aligned. simpl. split_and!; try (vm_compute; congruence); try set_solver;
    try (repeat constructor; vm_compute; congruence).
Qed.
End Example.
Import Example.

Lemma avl_refines_witness : exists tr' h', run 8 id 8 (MkTree 0 0, ∅) ex_ops = Some (tr', h', [0; 0; 0; 0; 0; 2400; 0; 800; 3200; 0]) /\
  pfs_avl_numnodes tr' = 4.
Proof.
  destruct (avl_refines 8 id 8 (MkTree 0 0) ∅ ex_ops eq_refl ex_ops_ok) as (tr' & h' & Hr & _ & Hn).
  exists tr', h'. exact (conj Hr Hn).
Defined.
