(* ===== verification/Blkio.v ===== *)
(** * Block I/O

    Model of pfs_blkio.cc: a transfer inside one block becomes sector-aligned
    device requests; a request that covers part of a sector only reads the
    sectors, changes them and writes them back.  The device takes the outcome
    of every request from a list; a failed write leaves each of its sectors
    old or new. *)

From S2P Require Import Prelude.

Open Scope pfs_scope.

(** ** Geometry *)
Definition PFS_BLOCK_SIZE : Z := Z.shiftl 4 20.

Record pfs_geometry := MkGeo { mnt_blksize : Z; mnt_sectsize : Z; mnt_fragsize : Z; mnt_disksize : Z }.

Definition roundup (x y : Z) : Z := (x + (y - 1)) / y * y.
Definition ERR_UPDATE (a b : Z) : Z := if (0 <=? a) && (b <? 0) then b else a.

(** ** The device

    The outcome of a request: refused at submission, or completed with an
    error after some of its sectors were transferred. *)
Record io_out := MkOut { io_submit : Z; io_error : Z; io_landed : Z -> bool }.
Definition io_fine : io_out := MkOut 0 0 (fun _ => true).

Record device := MkDev { d_bytes : Z -> Z; d_pending : list Z; d_outs : list io_out }.

Definition next_out (d : device) : io_out * device :=
  match d_outs d with
  | [] => (io_fine, d)
  | o :: os => (o, MkDev (d_bytes d) (d_pending d) os)
  end.

Definition bytes_at (f : Z -> Z) (a : Z) (len : Z) : list Z := (fun i => f (a + Z.of_nat i)) <$> seq 0 (Z.to_nat len).

(** The bytes [l] at [a], in the sectors that take them. *)
Definition put_bytes (f : Z -> Z) (a : Z) (l : list Z) (landed : Z -> bool) (x : Z) : Z :=
  if (a <=? x) && (x <? a + Z.of_nat (length l)) && landed (x / PBD_SECTOR_SIZE)
  then nth (Z.to_nat (x - a)) l 0 else f x.

Definition sector_ok (len bda : Z) : bool :=
  (bda mod PBD_SECTOR_SIZE =? 0) && ((len >? 0) && (len mod PBD_SECTOR_SIZE =? 0)).

(** The result of a request that completes with [err], waited for or not. *)
Definition pfsdev_do_io (nowait : bool) (err : Z) (d : device) : Z * device :=
  if nowait then (0, MkDev (d_bytes d) (d_pending d ++ [err]) (d_outs d)) else (err, d).

(** A failed read leaves the buffer [buf]. *)
Definition pfsdev_pread_flags (buf : list Z) (len bda : Z) (nowait : bool) (d : device)
  : option (Z * list Z * device) :=
  PFS_ASSERT (sector_ok len bda) ;;
  let '(o, d) := next_out d in
  if io_submit o <? 0 then Some (io_submit o, buf, d) else
  let '(rv, d) := pfsdev_do_io nowait (io_error o) d in
  Some (rv, if io_error o <? 0 then buf else bytes_at (d_bytes d) bda len, d).

Definition pfsdev_pwrite_flags (buf : list Z) (len bda : Z) (nowait : bool) (d : device) : option (Z * device) :=
  PFS_ASSERT (sector_ok len bda) ;;
  let '(o, d) := next_out d in
  if io_submit o <? 0 then Some (io_submit o, d) else
  let landed := if io_error o <? 0 then io_landed o else fun _ => true in
  Some (pfsdev_do_io nowait (io_error o)
          (MkDev (put_bytes (d_bytes d) bda (take (Z.to_nat len) buf) landed) (d_pending d) (d_outs d))).

Definition pfsdev_wait_io (d : device) : Z * device :=
  (fold_left ERR_UPDATE (d_pending d) 0, MkDev (d_bytes d) [] (d_outs d)).

(** ** Transfers *)
Section Blkio.
Context (mnt : pfs_geometry).

(** The aligned address, [io_len] and [op_len]. *)
Definition pfs_blkio_align (data_bda data_len : Z) : option (Z * Z * Z) :=
  let sect_off := Z.land data_bda (mnt_sectsize mnt - 1) in
  let frag_off := Z.land data_bda (mnt_fragsize mnt - 1) in
  let '(aligned_bda, op_len, io_len) :=
    (if negb (sect_off =? 0)
     then (data_bda - sect_off, Z.min (mnt_sectsize mnt - sect_off) data_len, mnt_sectsize mnt)
     else let op_len := Z.min (mnt_fragsize mnt - frag_off) data_len in
          (data_bda, op_len, roundup op_len (mnt_sectsize mnt))) in
  PFS_ASSERT (aligned_bda <=? data_bda) ;;
  PFS_ASSERT (aligned_bda <? mnt_disksize mnt) ;;
  PFS_ASSERT (aligned_bda + io_len <=? mnt_disksize mnt) ;;
  PFS_ASSERT (io_len <=? mnt_fragsize mnt) ;;
  PFS_ASSERT ((data_bda - aligned_bda) + op_len <=? mnt_fragsize mnt) ;;
  Some (aligned_bda, io_len, op_len).

(** [albuf] is the scratch buffer; the result is the error, the content of
    the caller's buffer and that of the scratch buffer. *)
Definition pfs_blkio_read_segment (albda allen : Z) (albuf : list Z) (bda len : Z) (buf : list Z) (nowait : bool) (d : device)
  : option (Z * list Z * list Z * device) :=
  if negb (allen =? len) then
    let* r := pfsdev_pread_flags albuf allen albda false d in
    let '(err, albuf, d) := r in
    if err <? 0 then Some (err, buf, albuf, d)
    else Some (0, take (Z.to_nat len) (drop (Z.to_nat (bda - albda)) albuf) ++ drop (Z.to_nat len) buf, albuf, d)
  else
    PFS_ASSERT (albda =? bda) ;;
    let* r := pfsdev_pread_flags (take (Z.to_nat len) buf) len bda nowait d in
    let '(err, got, d) := r in
    Some (err, got ++ drop (Z.to_nat len) buf, albuf, d).

(** [memcpy] of [n] bytes of [buf] into [albuf] at [at_]. *)
Definition blit (at_ n : nat) (buf albuf : list Z) : list Z :=
  take at_ albuf ++ take n buf ++ drop (at_ + n) albuf.

Definition pfs_blkio_write_segment (albda allen : Z) (albuf : list Z) (bda len : Z) (buf : list Z) (nowait : bool) (d : device)
  : option (Z * list Z * list Z * device) :=
  if negb (allen =? len) then
    let* r := pfsdev_pread_flags albuf allen albda false d in
    let '(err, albuf, d) := r in
    if err <? 0 then Some (err, buf, albuf, d) else
    let albuf := blit (Z.to_nat (bda - albda)) (Z.to_nat len) buf albuf in
    let* r := pfsdev_pwrite_flags albuf allen albda false d in
    let '(err, d) := r in
    Some (err, buf, albuf, d)
  else
    PFS_ASSERT (albda =? bda) ;;
    let* r := pfsdev_pwrite_flags buf len bda nowait d in
    let '(err, d) := r in
    Some (err, buf, albuf, d).

Definition pfs_blkio_done (nowait : bool) (d : device) : Z * device :=
  if negb nowait then (0, d) else pfsdev_wait_io d.

Definition pfs_blkio_fn_t : Type := Z -> Z -> list Z -> Z -> Z -> list Z -> bool -> device -> option (Z * list Z * list Z * device).

(** The loop; [data] is the buffer from the current position on.  The result
    has the bytes passed so far in front again. *)
Fixpoint blkio_loop (fuel : nat) (iofunc : pfs_blkio_fn_t) (blkno off left : Z) (nowait : bool) (albuf data : list Z) (d : device)
  : option (Z * list Z * device) :=
  if left <=? 0 then Some (0, data, d) else
  match fuel with
  | O => None
  | S fuel =>
      let bda := blkno * mnt_blksize mnt + off in
      let* al := pfs_blkio_align bda left in
      let '(albda, allen, iolen) := al in
      let* r := iofunc albda allen albuf bda iolen data nowait d in
      let '(err, data, albuf, d) := r in
      if err <? 0 then Some (err, data, d) else
      let* r := blkio_loop fuel iofunc blkno (off + iolen) (left - iolen) nowait albuf (drop (Z.to_nat iolen) data) d in
      let '(err, rest, d) := r in
      Some (err, take (Z.to_nat iolen) data ++ rest, d)
  end.

Definition pfs_blkio_execute (data : list Z) (blkno off len : Z) (iofunc : pfs_blkio_fn_t) (d : device)
  : option (Z * list Z * device) :=
  let nowait := 2 * PFS_FRAG_SIZE <=? len in
  let* r := blkio_loop (Z.to_nat len) iofunc blkno off len nowait [] data d in
  let '(err, data, d) := r in
  let '(err1, d) := pfs_blkio_done nowait d in
  let err := ERR_UPDATE err err1 in
  if err <? 0 then Some (if err =? - ETIMEDOUT then - ETIMEDOUT else - EIO, data, d)
  else Some (len, data, d).

Definition pfs_blkio_read (data : list Z) (blkno off len : Z) (d : device) : option (Z * list Z * device) :=
  PFS_ASSERT (off + len <=? mnt_blksize mnt) ;;
  pfs_blkio_execute data blkno off len pfs_blkio_read_segment d.

(** [None] for the buffer is the buffer of zeros. *)
Definition pfs_zero_buf : list Z := replicate (Z.to_nat PFS_BLOCK_SIZE) 0.

Definition pfs_blkio_write (data : option (list Z)) (blkno off len : Z) (d : device) : option (Z * device) :=
  PFS_ASSERT (off + len <=? mnt_blksize mnt) ;;
  let* data := (match data with
                | Some data => Some data
                | None => PFS_ASSERT (len <=? PFS_BLOCK_SIZE) ;; Some pfs_zero_buf
                end) in
  let* r := pfs_blkio_execute data blkno off len pfs_blkio_write_segment d in
  let '(rv, _, d) := r in
  Some (rv, d).
End Blkio.

(** ** The alignment *)
Definition geo_ok (mnt : pfs_geometry) : Prop :=
  mnt_sectsize mnt = PBD_SECTOR_SIZE /\ mnt_fragsize mnt = PFS_FRAG_SIZE /\
  0 < mnt_blksize mnt /\ mnt_blksize mnt mod PFS_FRAG_SIZE = 0.

Lemma land_sect x : Z.land x (PBD_SECTOR_SIZE - 1) = x mod PBD_SECTOR_SIZE.
Proof. change (PBD_SECTOR_SIZE - 1) with (Z.ones 12). by rewrite Z.land_ones by lia. Qed.
Lemma land_frag x : Z.land x (PFS_FRAG_SIZE - 1) = x mod PFS_FRAG_SIZE.
Proof. change (PFS_FRAG_SIZE - 1) with (Z.ones 14). by rewrite Z.land_ones by lia. Qed.

Lemma frag_sectors x : x mod PFS_FRAG_SIZE = 0 -> x mod PBD_SECTOR_SIZE = 0.
Proof.
  intros Hx. apply Z.mod_divide in Hx; [|done]. apply Z.mod_divide; [done|].
  eapply Z.divide_trans; [|exact Hx]. by exists 4.
Qed.

(** [x] rounded up stays below a bound that is itself a multiple. *)
Lemma roundup_spec x y : 0 < y -> 0 < x ->
  x <= roundup x y /\ roundup x y mod y = 0 /\ 0 < roundup x y /\ (forall z, z mod y = 0 -> x <= z -> roundup x y <= z).
Proof.
  intros Hy Hx. unfold roundup. pose proof (Z.div_mod (x + (y - 1)) y). pose proof (Z.mod_pos_bound (x + (y - 1)) y).
  split_and!; [lia|by apply Z.mod_mul; lia|lia|].
  intros z Hz Hxz. apply Z.mod_divide in Hz as [k ->]; [|lia].
  assert ((x + (y - 1)) / y <= k); [|nia]. apply Z.lt_succ_r. apply Z.div_lt_upper_bound; [done|]. nia.
Qed.

Lemma align_ok mnt bda len e : geo_ok mnt -> 0 <= bda -> 0 < len -> bda + len <= e -> e mod PFS_FRAG_SIZE = 0 ->
  e <= mnt_disksize mnt ->
  exists albda allen iolen, pfs_blkio_align mnt bda len = Some (albda, allen, iolen) /\
    0 < iolen <= len /\ sector_ok allen albda = true /\ albda <= bda /\ bda + iolen <= albda + allen /\
    (allen = iolen -> albda = bda).
Proof.
  intros (Hs & Hf & _ & _) Hb Hl He Hem Hed. unfold pfs_blkio_align. rewrite Hs, Hf, land_sect, land_frag.
  pose proof (frag_sectors e Hem) as Hes.
  pose proof (Z.mod_pos_bound bda PBD_SECTOR_SIZE eq_refl). pose proof (Z.mod_pos_bound bda PFS_FRAG_SIZE eq_refl).
  assert (HP : PBD_SECTOR_SIZE = 4096) by done. assert (HF : PFS_FRAG_SIZE = 16384) by done.
  assert (Hal : (bda - bda mod PBD_SECTOR_SIZE) mod PBD_SECTOR_SIZE = 0).
  { rewrite Zminus_mod_idemp_r. by rewrite Z.sub_diag. }
  destruct (Z.eqb_spec (bda mod PBD_SECTOR_SIZE) 0) as [E0|E0]; simpl negb; lazy iota zeta beta.
  - set (op := Z.min (PFS_FRAG_SIZE - bda mod PFS_FRAG_SIZE) len).
    assert (Hop : 0 < op <= len /\ op <= PFS_FRAG_SIZE) by lia.
    destruct (roundup_spec op PBD_SECTOR_SIZE eq_refl (proj1 (proj1 Hop))) as (R1 & R2 & R3 & R4).
    assert (R5 : roundup op PBD_SECTOR_SIZE <= PFS_FRAG_SIZE) by (apply R4; [done|lia]).
    assert (R6 : bda + roundup op PBD_SECTOR_SIZE <= e).
    { assert (roundup op PBD_SECTOR_SIZE <= e - bda); [|lia]. apply R4; [|lia].
      rewrite Zminus_mod, Hes, E0. done. }
    rewrite !(proj2 (Z.leb_le _ _)), (proj2 (Z.ltb_lt _ _)) by lia.
    eexists _, _, _. split; [reflexivity|]. split_and!; try lia.
    unfold sector_ok. rewrite E0, R2. apply Z.gtb_lt in R3. by rewrite R3.
  - set (op := Z.min (PBD_SECTOR_SIZE - bda mod PBD_SECTOR_SIZE) len).
    assert (Hop : 0 < op <= len /\ op < PBD_SECTOR_SIZE) by lia.
    assert (R6 : bda - bda mod PBD_SECTOR_SIZE + PBD_SECTOR_SIZE <= e).
    { apply Z.mod_divide in Hes as [k Hk]; [|done]. pose proof (Z.div_mod bda PBD_SECTOR_SIZE). nia. }
    rewrite !(proj2 (Z.leb_le _ _)), (proj2 (Z.ltb_lt _ _)) by lia.
    eexists _, _, _. split; [reflexivity|]. split_and!; try lia. unfold sector_ok. by rewrite Hal.
Qed.

(** ** What a transfer does

    Outside the range nothing changes, inside every byte is old or new, and
    all are new when [ok]. *)
Definition wrote (f f' : Z -> Z) (a : Z) (l : list Z) (ok : Prop) : Prop :=
  forall x,
    (~ (a <= x < a + Z.of_nat (length l)) -> f' x = f x) /\
    (a <= x < a + Z.of_nat (length l) ->
       (f' x = f x \/ f' x = nth (Z.to_nat (x - a)) l 0) /\ (ok -> f' x = nth (Z.to_nat (x - a)) l 0)).

Lemma wrote_none f a l (ok : Prop) : ~ ok -> wrote f f a l ok.
Proof. intros Hok x. split; [done|]. intros _. split; [by left|done]. Qed.

Lemma wrote_nil f a ok : wrote f f a [] ok.
Proof. intros x. simpl. split; [done|lia]. Qed.

Lemma wrote_mono f f' a l (ok ok' : Prop) : (ok' -> ok) -> wrote f f' a l ok -> wrote f f' a l ok'.
Proof. intros Hok Hw x. destruct (Hw x) as [H1 H2]. split; [done|]. intros Hx. destruct (H2 Hx). auto. Qed.

Lemma wrote_app f f1 f2 a l1 l2 ok1 ok2 : wrote f f1 a l1 ok1 -> wrote f1 f2 (a + Z.of_nat (length l1)) l2 ok2 ->
  wrote f f2 a (l1 ++ l2) (ok1 /\ ok2).
Proof.
  intros H1 H2 x. destruct (H1 x) as [H1o H1i], (H2 x) as [H2o H2i]. rewrite length_app.
  split; intros Hx.
  - rewrite H2o, H1o by lia. done.
  - destruct (decide (x < a + Z.of_nat (length l1))) as [Hlt|Hge].
    + rewrite app_nth1 by lia. destruct H1i as [Hi1 Hi2]; [lia|]. rewrite H2o by lia. split; [done|]. intros [? _]. auto.
    + rewrite app_nth2 by lia. destruct H2i as [Hi1 Hi2]; [lia|]. rewrite H1o in Hi1 by lia.
      replace (Z.to_nat (x - a) - length l1)%nat with (Z.to_nat (x - (a + Z.of_nat (length l1)))) by lia.
      split; [done|]. intros [_ ?]. auto.
Qed.

Lemma put_wrote f a l landed (ok : Prop) : (ok -> forall s, landed s = true) -> wrote f (put_bytes f a l landed) a l ok.
Proof.
  intros Hok x. unfold put_bytes. destruct (Z.leb_spec a x), (Z.ltb_spec x (a + Z.of_nat (length l))); simpl; (split; [try done; lia|]).
  - intros _. destruct (landed (x / PBD_SECTOR_SIZE)) eqn:E; [by auto|]. split; [by left|]. intros Hk. by rewrite Hok in E.
  - lia.
  - lia.
  - lia.
Qed.

(** The sectors are written back with the bytes around the range as they were read. *)
Lemma wrote_inner f f' a l b l' ok : wrote f f' a l ok -> a <= b -> b + Z.of_nat (length l') <= a + Z.of_nat (length l) ->
  (forall x, a <= x < a + Z.of_nat (length l) ->
     nth (Z.to_nat (x - a)) l 0 =
     (if (b <=? x) && (x <? b + Z.of_nat (length l')) then nth (Z.to_nat (x - b)) l' 0 else f x)) ->
  wrote f f' b l' ok.
Proof.
  intros Hw Hab Hbe Hn x. destruct (Hw x) as [Ho Hi]. split; intros Hx.
  - destruct (decide (a <= x < a + Z.of_nat (length l))) as [Hin|Hout]; [|by apply Ho].
    destruct (Hi Hin) as [Hi' _]. rewrite (Hn x Hin) in Hi'.
    destruct (Z.leb_spec b x), (Z.ltb_spec x (b + Z.of_nat (length l'))); simpl in Hi'; try lia; naive_solver.
  - assert (Hin : a <= x < a + Z.of_nat (length l)) by lia. destruct (Hi Hin) as [Hi1 Hi2]. rewrite (Hn x Hin) in Hi1, Hi2.
    by rewrite (proj2 (Z.leb_le _ _)), (proj2 (Z.ltb_lt _ _)) in Hi1, Hi2 by lia.
Qed.

Lemma bytes_at_length f a n : length (bytes_at f a n) = Z.to_nat n.
Proof. unfold bytes_at. by rewrite length_fmap, length_seq. Qed.
Lemma bytes_at_nth f a n i : (i < Z.to_nat n)%nat -> nth i (bytes_at f a n) 0 = f (a + Z.of_nat i).
Proof.
  intros Hi. apply nth_lookup_Some. unfold bytes_at. rewrite list_lookup_fmap, lookup_seq_lt by lia. done.
Qed.

Lemma nth_take i n (l : list Z) : (i < n)%nat -> nth i (take n l) 0 = nth i l 0.
Proof. intros Hi. rewrite !nth_lookup. by rewrite lookup_take_lt. Qed.
Lemma nth_drop i n (l : list Z) : nth i (drop n l) 0 = nth (n + i) l 0.
Proof. rewrite !nth_lookup. by rewrite lookup_drop. Qed.
Lemma bytes_at_sub f a n b m : a <= b -> 0 <= m -> b + m <= a + n ->
  take (Z.to_nat m) (drop (Z.to_nat (b - a)) (bytes_at f a n)) = bytes_at f b m.
Proof.
  intros Hab Hm Hbe. apply (nth_ext _ _ 0 0).
  - rewrite length_take, length_drop, !bytes_at_length. lia.
  - rewrite length_take, length_drop, bytes_at_length. intros i Hi.
    rewrite nth_take, nth_drop, !bytes_at_nth by lia. f_equal. lia.
Qed.
Lemma bytes_at_app f a n m : 0 <= n -> 0 <= m -> bytes_at f a n ++ bytes_at f (a + n) m = bytes_at f a (n + m).
Proof.
  intros Hn Hm. apply (nth_ext _ _ 0 0).
  - rewrite length_app, !bytes_at_length. lia.
  - rewrite length_app, !bytes_at_length. intros i Hi. rewrite (bytes_at_nth _ _ (n + m)) by lia.
    destruct (decide (i < Z.to_nat n)%nat).
    + by rewrite app_nth1, bytes_at_nth by (rewrite ?bytes_at_length; lia).
    + rewrite app_nth2, bytes_at_nth by (rewrite ?bytes_at_length; lia). rewrite bytes_at_length. f_equal. lia.
Qed.

(** ** Segments *)
Section Segments.
Context (mnt : pfs_geometry).

(** The requests that are still to be waited for. *)
Definition queued (nowait : bool) (d d' : device) (ps : list Z) : Prop :=
  d_pending d' = d_pending d ++ ps /\ (nowait = false -> ps = []).

Lemma queued_nil nowait d d' : d_pending d' = d_pending d -> queued nowait d d' [].
Proof. intros H. split; [by rewrite app_nil_r|done]. Qed.
Lemma queued_one d d' e : d_pending d' = d_pending d ++ [e] -> queued true d d' [e].
Proof. by split. Qed.

Definition all_fine (d : device) : Prop := Forall (fun o => 0 <= io_submit o /\ 0 <= io_error o) (d_outs d).

Lemma next_out_spec d o d' : next_out d = (o, d') ->
  d_bytes d' = d_bytes d /\ d_pending d' = d_pending d /\
  (all_fine d -> 0 <= io_submit o /\ 0 <= io_error o /\ all_fine d').
Proof.
  unfold next_out, all_fine. destruct (d_outs d) as [|o' os] eqn:E; intros [= <- <-]; simpl; rewrite ?E.
  - done.
  - split_and!; try done. intros [? ?]%Forall_cons. naive_solver.
Qed.

Lemma pread_ok buf len bda nowait d : sector_ok len bda = true ->
  exists err got d' ps, pfsdev_pread_flags buf len bda nowait d = Some (err, got, d') /\
    d_bytes d' = d_bytes d /\ queued nowait d d' ps /\
    (length buf = Z.to_nat len -> length got = Z.to_nat len) /\
    (0 <= err -> Forall (fun e => 0 <= e) ps -> got = bytes_at (d_bytes d) bda len) /\
    (all_fine d -> 0 <= err /\ Forall (fun e => 0 <= e) ps /\ all_fine d').
Proof.
  intros Hs. unfold pfsdev_pread_flags. rewrite Hs. destruct (next_out d) as [o d1] eqn:Eo.
  destruct (next_out_spec _ _ _ Eo) as (Hb & Hp & Hf).
  destruct (Z.ltb_spec (io_submit o) 0).
  { exists (io_submit o), buf, d1, []. split_and!; try done; [by apply queued_nil|lia|]. intros Ha. destruct (Hf Ha). lia. }
  unfold pfsdev_do_io. destruct nowait.
  - eexists _, _, _, [io_error o]. split; [reflexivity|]. simpl. split_and!; try done; [apply queued_one; simpl; by rewrite Hp|by destruct (_ <? 0); rewrite ?bytes_at_length| |].
    + intros _ [He _]%Forall_cons. by rewrite (proj2 (Z.ltb_ge _ _)), Hb by lia.
    + intros Ha. destruct (Hf Ha) as (? & ? & ?). split_and!; [lia|by repeat constructor|done].
  - eexists _, _, _, []. split; [reflexivity|]. simpl. split_and!; try done; [by apply queued_nil|by destruct (_ <? 0); rewrite ?bytes_at_length| |].
    + intros He _. by rewrite (proj2 (Z.ltb_ge _ _)), Hb by lia.
    + intros Ha. destruct (Hf Ha) as (? & ? & ?). split_and!; [lia|constructor|done].
Qed.

Lemma pwrite_ok buf len bda nowait d : sector_ok len bda = true ->
  exists err d' ps, pfsdev_pwrite_flags buf len bda nowait d = Some (err, d') /\ queued nowait d d' ps /\
    wrote (d_bytes d) (d_bytes d') bda (take (Z.to_nat len) buf) (0 <= err /\ Forall (fun e => 0 <= e) ps) /\
    (all_fine d -> 0 <= err /\ Forall (fun e => 0 <= e) ps /\ all_fine d').
Proof.
  intros Hs. unfold pfsdev_pwrite_flags. rewrite Hs. destruct (next_out d) as [o d1] eqn:Eo.
  destruct (next_out_spec _ _ _ Eo) as (Hb & Hp & Hf).
  destruct (Z.ltb_spec (io_submit o) 0).
  { exists (io_submit o), d1, []. split_and!; try done; [by apply queued_nil| |].
    - rewrite Hb. apply wrote_none. lia.
    - intros Ha. destruct (Hf Ha). lia. }
  unfold pfsdev_do_io. destruct nowait.
  - eexists _, _, [io_error o]. split; [reflexivity|]. simpl. rewrite <- Hb. split_and!; try done; [apply queued_one; simpl; by rewrite Hp| |].
    + apply put_wrote. intros [_ [He _]%Forall_cons] s. by rewrite (proj2 (Z.ltb_ge _ _)) by lia.
    + intros Ha. destruct (Hf Ha) as (? & ? & ?). split_and!; [lia|by repeat constructor|done].
  - eexists _, _, []. split; [reflexivity|]. simpl. rewrite <- Hb. split_and!; try done; [by apply queued_nil| |].
    + apply put_wrote. intros [He _] s. by rewrite (proj2 (Z.ltb_ge _ _)) by lia.
    + intros Ha. destruct (Hf Ha) as (? & ? & ?). split_and!; [lia|constructor|done].
Qed.

Definition all_ok (err : Z) (ps : list Z) : Prop := 0 <= err /\ Forall (fun e => 0 <= e) ps.

Section Segment.
Context (albda allen : Z) (albuf : list Z) (bda len : Z) (buf : list Z) (nowait : bool) (d : device).
Hypothesis Hs : sector_ok allen albda = true.
Hypothesis Hab : albda <= bda.
Hypothesis Hend : bda + len <= albda + allen.
Hypothesis Heq : allen = len -> albda = bda.
Hypothesis Hlen : 0 < len <= Z.of_nat (length buf).

Lemma write_segment_ok :
  exists err albuf' d' ps, pfs_blkio_write_segment albda allen albuf bda len buf nowait d = Some (err, buf, albuf', d') /\
    queued nowait d d' ps /\ wrote (d_bytes d) (d_bytes d') bda (take (Z.to_nat len) buf) (all_ok err ps) /\
    (all_fine d -> all_ok err ps /\ all_fine d').
Proof.
  unfold pfs_blkio_write_segment. destruct (Z.eqb_spec allen len) as [E|E]; simpl negb; lazy iota.
  - rewrite (Heq E), Z.eqb_refl. destruct (pwrite_ok buf len bda nowait d) as (err & d' & ps & -> & Hq & Hw & Hf).
    { by rewrite <- E, <- (Heq E). }
    exists err, albuf, d', ps. split_and!; try done. intros Ha. destruct (Hf Ha) as (? & ? & ?). done.
  - destruct (pread_ok albuf allen albda false d Hs) as (err & got & d1 & ps & -> & Hb & [Hp Hps] & _ & Hg & Hf).
    rewrite (Hps eq_refl) in *. destruct (Z.ltb_spec err 0) as [He|He].
    { exists err, got, d1, []. split_and!; try done.
      - rewrite Hb. apply wrote_none. unfold all_ok. lia.
      - intros Ha. destruct (Hf Ha). lia. }
    specialize (Hg He ltac:(constructor)).
    set (new := blit (Z.to_nat (bda - albda)) (Z.to_nat len) buf got).
    assert (Hgl : length got = Z.to_nat allen) by (rewrite Hg; apply bytes_at_length).
    assert (Hnl : length new = Z.to_nat allen).
    { unfold new, blit. rewrite !length_app, !length_take, length_drop. lia. }
    destruct (pwrite_ok new allen albda false d1 Hs) as (err' & d2 & ps' & -> & [Hp2 Hps2] & Hw & Hf2).
    rewrite (Hps2 eq_refl) in *. exists err', new, d2, []. split_and!; try done.
    + apply queued_nil. rewrite Hp2, app_nil_r, Hp. by rewrite app_nil_r.
    + rewrite Hb in Hw. rewrite take_ge in Hw by lia.
      eapply wrote_inner; [exact Hw|done|rewrite length_take; lia|]. rewrite length_take. intros x Hx.
      unfold new, blit. destruct (Z.leb_spec bda x), (Z.ltb_spec x (bda + Z.of_nat (Z.to_nat len `min` length buf))); simpl.
      * rewrite app_nth2, app_nth1 by (rewrite !length_take; lia). f_equal. rewrite length_take. lia.
      * rewrite !app_nth2 by (rewrite !length_take; lia). rewrite nth_drop, !length_take, Hgl, Hg, bytes_at_nth by lia. f_equal. lia.
      * rewrite app_nth1 by (rewrite !length_take; lia). rewrite nth_take by lia. rewrite Hg, bytes_at_nth by lia. f_equal. lia.
      * lia.
    + intros Ha. destruct (Hf Ha) as (_ & _ & Ha1). destruct (Hf2 Ha1) as (? & ? & ?). done.
Qed.

Lemma read_segment_ok :
  exists err buf' albuf' d' ps, pfs_blkio_read_segment albda allen albuf bda len buf nowait d = Some (err, buf', albuf', d') /\
    queued nowait d d' ps /\ d_bytes d' = d_bytes d /\ length buf' = length buf /\
    (all_ok err ps -> buf' = bytes_at (d_bytes d) bda len ++ drop (Z.to_nat len) buf) /\
    (all_fine d -> all_ok err ps /\ all_fine d').
Proof.
  unfold pfs_blkio_read_segment. destruct (Z.eqb_spec allen len) as [E|E]; simpl negb; lazy iota.
  - rewrite (Heq E), Z.eqb_refl.
    destruct (pread_ok (take (Z.to_nat len) buf) len bda nowait d) as (err & got & d' & ps & -> & Hb & Hq & Hgl & Hg & Hf).
    { by rewrite <- E, <- (Heq E). }
    eexists err, _, albuf, d', ps. split_and!; try done.
    + rewrite length_app, Hgl, length_drop by (rewrite length_take; lia). lia.
    + intros [H1 H2]. by rewrite Hg.
    + intros Ha. destruct (Hf Ha) as (? & ? & ?). done.
  - destruct (pread_ok albuf allen albda false d Hs) as (err & got & d1 & ps & -> & Hb & [Hp Hps] & _ & Hg & Hf).
    rewrite (Hps eq_refl) in *. destruct (Z.ltb_spec err 0) as [He|He].
    { exists err, buf, got, d1, []. split_and!; try done.
      - intros [? _]. lia.
      - intros Ha. destruct (Hf Ha). lia. }
    specialize (Hg He ltac:(constructor)). eexists 0, _, got, d1, []. split_and!; [reflexivity| |done| | |].
    + apply queued_nil. rewrite Hp. by rewrite app_nil_r.
    + rewrite Hg, bytes_at_sub by lia. rewrite length_app, bytes_at_length, length_drop. lia.
    + intros _. by rewrite Hg, bytes_at_sub by lia.
    + intros Ha. destruct (Hf Ha) as (_ & _ & Ha1). split; [split; [done|constructor]|done].
Qed.
End Segment.
End Segments.

(** ** Whole transfers *)
Section Block.
Context (mnt : pfs_geometry) (blkno : Z).
Hypothesis Hgeo : geo_ok mnt.
Hypothesis Hblk : 0 <= blkno.
Hypothesis Hdisk : blkno * mnt_blksize mnt + mnt_blksize mnt <= mnt_disksize mnt.

Lemma block_align off left : 0 <= off -> 0 < left -> off + left <= mnt_blksize mnt ->
  exists albda allen iolen, pfs_blkio_align mnt (blkno * mnt_blksize mnt + off) left = Some (albda, allen, iolen) /\
    0 < iolen <= left /\ sector_ok allen albda = true /\ albda <= blkno * mnt_blksize mnt + off /\
    blkno * mnt_blksize mnt + off + iolen <= albda + allen /\ (allen = iolen -> albda = blkno * mnt_blksize mnt + off).
Proof.
  intros Ho Hl He. pose proof Hgeo as (_ & _ & Hb & Hbm).
  apply (align_ok mnt _ left (blkno * mnt_blksize mnt + mnt_blksize mnt)); try done; try nia.
  rewrite Z.add_mod, Z.mul_mod, Hbm by done. rewrite Z.mul_0_r. done.
Qed.

Lemma take_split a b (l : list Z) : 0 <= a <= b ->
  take (Z.to_nat b) l = take (Z.to_nat a) l ++ take (Z.to_nat (b - a)) (drop (Z.to_nat a) l).
Proof. intros H. rewrite take_take_drop. f_equal. lia. Qed.

Lemma queued_app nowait d d1 d2 ps1 ps2 : queued nowait d d1 ps1 -> queued nowait d1 d2 ps2 -> queued nowait d d2 (ps1 ++ ps2).
Proof. intros [H1 N1] [H2 N2]. split; [by rewrite H2, H1, app_assoc|]. intros Hn. by rewrite N1, N2. Qed.

Lemma all_ok_app err ps1 ps2 err1 : 0 <= err1 -> all_ok err (ps1 ++ ps2) <-> all_ok err1 ps1 /\ all_ok err ps2.
Proof. intros H1. unfold all_ok. rewrite Forall_app. tauto. Qed.

Lemma write_loop_ok nowait fuel : forall off left albuf data d, 0 <= off -> off + left <= mnt_blksize mnt ->
  0 <= left <= Z.of_nat (length data) -> left <= Z.of_nat fuel ->
  exists err d' ps, blkio_loop mnt fuel pfs_blkio_write_segment blkno off left nowait albuf data d = Some (err, data, d') /\
    queued nowait d d' ps /\
    wrote (d_bytes d) (d_bytes d') (blkno * mnt_blksize mnt + off) (take (Z.to_nat left) data) (all_ok err ps) /\
    (all_fine d -> all_ok err ps /\ all_fine d').
Proof.
  induction fuel as [|fuel IH]; intros off left albuf data d Ho He Hl Hf.
  { replace left with 0 by lia. exists 0, d, []. simpl. split_and!; [done|by apply queued_nil|apply wrote_nil|by repeat split]. }
  simpl. destruct (Z.leb_spec left 0).
  { replace left with 0 by lia. exists 0, d, []. split_and!; [done|by apply queued_nil|apply wrote_nil|by repeat split]. }
  destruct (block_align off left) as (albda & allen & iolen & -> & Hio & Hs & Hab & Hend & Heq); [lia..|].
  destruct (write_segment_ok albda allen albuf (blkno * mnt_blksize mnt + off) iolen data nowait d Hs Hab Hend Heq)
    as (err & albuf' & d1 & ps & -> & Hq & Hw & Hfi); [lia|].
  destruct (Z.ltb_spec err 0) as [Herr|Herr].
  { exists err, d1, ps. split_and!; try done.
    rewrite (take_split iolen left) by lia.
    eapply wrote_mono; [|eapply wrote_app; [exact Hw|apply (wrote_none _ _ _ False); tauto]]. unfold all_ok. lia. }
  destruct (IH (off + iolen) (left - iolen) albuf' (drop (Z.to_nat iolen) data) d1) as (err2 & d2 & ps2 & -> & Hq2 & Hw2 & Hfi2);
    [lia|lia|rewrite length_drop; lia|lia|].
  exists err2, d2, (ps ++ ps2). rewrite take_drop. split_and!; [done|by eapply queued_app| |].
  - rewrite (take_split iolen left) by lia.
    eapply wrote_mono; [apply (proj1 (all_ok_app err2 ps ps2 err Herr))|]. eapply wrote_app; [exact Hw|].
    rewrite length_take, Nat.min_l, Z2Nat.id by lia. by rewrite <- Z.add_assoc.
  - intros Ha. destruct (Hfi Ha) as [Hk Ha1]. destruct (Hfi2 Ha1) as [Hk2 Ha2]. split; [by apply (all_ok_app _ _ _ err)|done].
Qed.

Lemma read_loop_ok nowait fuel : forall off left albuf data d, 0 <= off -> off + left <= mnt_blksize mnt ->
  0 <= left <= Z.of_nat (length data) -> left <= Z.of_nat fuel ->
  exists err data' d' ps, blkio_loop mnt fuel pfs_blkio_read_segment blkno off left nowait albuf data d = Some (err, data', d') /\
    queued nowait d d' ps /\ d_bytes d' = d_bytes d /\
    (all_ok err ps -> data' = bytes_at (d_bytes d) (blkno * mnt_blksize mnt + off) left ++ drop (Z.to_nat left) data) /\
    (all_fine d -> all_ok err ps /\ all_fine d').
Proof.
  induction fuel as [|fuel IH]; intros off left albuf data d Ho He Hl Hf.
  { replace left with 0 by lia. exists 0, data, d, []. simpl. split_and!; [done|by apply queued_nil|done|done|by repeat split]. }
  simpl. destruct (Z.leb_spec left 0).
  { replace left with 0 by lia. exists 0, data, d, []. split_and!; [done|by apply queued_nil|done|done|by repeat split]. }
  destruct (block_align off left) as (albda & allen & iolen & -> & Hio & Hs & Hab & Hend & Heq); [lia..|].
  destruct (read_segment_ok albda allen albuf (blkno * mnt_blksize mnt + off) iolen data nowait d Hs Hab Hend Heq)
    as (err & buf & albuf' & d1 & ps & -> & Hq & Hb & Hbl & Hg & Hfi); [lia|].
  destruct (Z.ltb_spec err 0) as [Herr|Herr].
  { exists err, buf, d1, ps. split_and!; try done. intros [? _]. lia. }
  destruct (IH (off + iolen) (left - iolen) albuf' (drop (Z.to_nat iolen) buf) d1)
    as (err2 & data2 & d2 & ps2 & -> & Hq2 & Hb2 & Hg2 & Hfi2); [lia|lia|rewrite length_drop; lia|lia|].
  eexists err2, _, d2, (ps ++ ps2). split_and!; [done|by eapply queued_app|by rewrite Hb2| |].
  - intros [Hk Hk2]%(all_ok_app _ _ _ err Herr). rewrite (Hg2 Hk2), (Hg Hk), Hb.
    rewrite take_app_length', drop_app_length' by (by rewrite bytes_at_length).
    rewrite app_assoc. rewrite Z.add_assoc, bytes_at_app by lia. replace (iolen + (left - iolen)) with left by lia.
    f_equal. rewrite drop_drop. f_equal. lia.
  - intros Ha. destruct (Hfi Ha) as [Hk Ha1]. destruct (Hfi2 Ha1) as [Hk2 Ha2]. split; [by apply (all_ok_app _ _ _ err)|done].
Qed.

Lemma err_update_fold ps e : 0 <= e -> 0 <= fold_left ERR_UPDATE ps e <-> Forall (fun e => 0 <= e) ps.
Proof.
  revert e. induction ps as [|p ps IH]; intros e He; simpl; [done|]. rewrite Forall_cons. unfold ERR_UPDATE at 2.
  rewrite (proj2 (Z.leb_le 0 e)) by done. simpl. destruct (Z.ltb_spec p 0).
  - split; [|lia]. intros Hn. exfalso. revert Hn. generalize p H. clear. induction ps as [|q ps IH]; intros p Hp; simpl; [lia|].
    unfold ERR_UPDATE at 2. rewrite (proj2 (Z.leb_gt 0 p)) by lia. by apply IH.
  - rewrite IH by done. tauto.
Qed.

(** The result of the whole: the length when every request went well. *)
Lemma blkio_done_ok len err ps nowait d d1 : d_pending d = [] -> queued nowait d d1 ps -> 0 <= len ->
  exists rv d', (let '(err1, d) := pfs_blkio_done nowait d1 in
     let err := ERR_UPDATE err err1 in
     (if err <? 0 then if err =? - ETIMEDOUT then - ETIMEDOUT else - EIO else len, d)) = (rv, d') /\
    d_bytes d' = d_bytes d1 /\ d_outs d' = d_outs d1 /\ d_pending d' = [] /\ (rv = len \/ rv = - EIO \/ rv = - ETIMEDOUT) /\
    (rv = len <-> all_ok err ps).
Proof.
  intros Hd [Hq Hn] Hl. rewrite Hd in Hq. simpl in Hq.
  assert (Hrv : forall e1, (0 <= e1 <-> Forall (fun e => 0 <= e) ps) ->
    let rv := (if ERR_UPDATE err e1 <? 0 then if ERR_UPDATE err e1 =? - ETIMEDOUT then - ETIMEDOUT else - EIO else len) in
    (rv = len \/ rv = - EIO \/ rv = - ETIMEDOUT) /\ (rv = len <-> all_ok err ps)).
  { intros e1 He1. unfold all_ok. rewrite <- He1. unfold ERR_UPDATE, EIO, ETIMEDOUT.
    destruct (Z.leb_spec 0 err), (Z.ltb_spec e1 0); simpl; repeat case_match; rewrite ?Z.ltb_lt, ?Z.ltb_ge in *; lia. }
  unfold pfs_blkio_done, pfsdev_wait_io. destruct nowait; simpl.
  - eexists _, _. split; [reflexivity|]. simpl. split_and!; try done; apply Hrv; rewrite Hq; by apply err_update_fold.
  - rewrite Hn in * by done. eexists _, _. split; [reflexivity|]. split_and!; try done; apply Hrv; done.
Qed.

Lemma write_ok l off len d : 0 <= off -> 0 <= len -> off + len <= mnt_blksize mnt -> len <= Z.of_nat (length l) ->
  d_pending d = [] ->
  exists rv d', pfs_blkio_write mnt (Some l) blkno off len d = Some (rv, d') /\ d_pending d' = [] /\
    (rv = len \/ rv = - EIO \/ rv = - ETIMEDOUT) /\
    wrote (d_bytes d) (d_bytes d') (blkno * mnt_blksize mnt + off) (take (Z.to_nat len) l) (rv = len) /\
    (all_fine d -> rv = len /\ all_fine d').
Proof.
  intros Ho Hl He Hll Hp. unfold pfs_blkio_write. rewrite (proj2 (Z.leb_le _ _)) by lia. unfold pfs_blkio_execute.
  destruct (write_loop_ok (2 * PFS_FRAG_SIZE <=? len) (Z.to_nat len) off len [] l d) as (err & d1 & ps & -> & Hq & Hw & Hf); [lia..|].
  destruct (blkio_done_ok len err ps _ d d1 Hp Hq Hl) as (rv & d' & Hd & Hb & Hos & Hp' & Hrv & Hok).
  destruct (pfs_blkio_done (2 * PFS_FRAG_SIZE <=? len) d1) as [err1 d2].
  exists rv, d'. injection Hd as Hd ->. split; [destruct (ERR_UPDATE err err1 <? 0); by rewrite <- Hd|].
  split_and!; try done; [rewrite Hb; by eapply wrote_mono; [apply Hok|]|].
  intros Ha. destruct (Hf Ha) as [Hk Ha1]. split; [by apply Hok|]. unfold all_fine. by rewrite Hos.
Qed.

Lemma read_ok l off len d : 0 <= off -> 0 <= len -> off + len <= mnt_blksize mnt -> len <= Z.of_nat (length l) ->
  d_pending d = [] ->
  exists rv l' d', pfs_blkio_read mnt l blkno off len d = Some (rv, l', d') /\ d_pending d' = [] /\
    (rv = len \/ rv = - EIO \/ rv = - ETIMEDOUT) /\ d_bytes d' = d_bytes d /\
    (rv = len -> l' = bytes_at (d_bytes d) (blkno * mnt_blksize mnt + off) len ++ drop (Z.to_nat len) l) /\
    (all_fine d -> rv = len /\ all_fine d').
Proof.
  intros Ho Hl He Hll Hp. unfold pfs_blkio_read. rewrite (proj2 (Z.leb_le _ _)) by lia. unfold pfs_blkio_execute.
  destruct (read_loop_ok (2 * PFS_FRAG_SIZE <=? len) (Z.to_nat len) off len [] l d) as (err & l' & d1 & ps & -> & Hq & Hb1 & Hg & Hf); [lia..|].
  destruct (blkio_done_ok len err ps _ d d1 Hp Hq Hl) as (rv & d' & Hd & Hb & Hos & Hp' & Hrv & Hok).
  destruct (pfs_blkio_done (2 * PFS_FRAG_SIZE <=? len) d1) as [err1 d2].
  exists rv, l', d'. injection Hd as Hd ->. split; [destruct (ERR_UPDATE err err1 <? 0); by rewrite <- Hd|].
  split_and!; try done; [by rewrite Hb|by intros ?%Hok; apply Hg|].
  intros Ha. destruct (Hf Ha) as [Hk Ha1]. split; [by apply Hok|]. unfold all_fine. by rewrite Hos.
Qed.
End Block.

Lemma write_zero_ok mnt blkno off len d : len <= PFS_BLOCK_SIZE ->
  pfs_blkio_write mnt None blkno off len d = pfs_blkio_write mnt (Some pfs_zero_buf) blkno off len d.
Proof. intros H. unfold pfs_blkio_write. by rewrite (proj2 (Z.leb_le _ _) H). Qed.

(** ** Properties *)

(** C18: a transfer inside a block is total, and its writes can be read back:
    [pfs_blkio_write] returns the length or one of [-EIO] and [-ETIMEDOUT],
    and after any of these every byte outside the range is what it was.  If
    it returned the length, a later [pfs_blkio_read] of the range that
    returns the length has the bytes written; a read changes nothing. *)
Theorem blkio_roundtrip mnt blkno l off len d buf :
  geo_ok mnt -> 0 <= blkno -> blkno * mnt_blksize mnt + mnt_blksize mnt <= mnt_disksize mnt ->
  0 <= off -> 0 <= len -> off + len <= mnt_blksize mnt ->
  len <= Z.of_nat (length l) -> Z.of_nat (length buf) = len -> d_pending d = [] ->
  let bda := blkno * mnt_blksize mnt + off in
  exists wlen d1, pfs_blkio_write mnt (Some l) blkno off len d = Some (wlen, d1) /\
    (wlen = len \/ wlen = - EIO \/ wlen = - ETIMEDOUT) /\
    (forall x, x < bda \/ bda + len <= x -> d_bytes d1 x = d_bytes d x) /\
  exists rlen buf' d2, pfs_blkio_read mnt buf blkno off len d1 = Some (rlen, buf', d2) /\
    (rlen = len \/ rlen = - EIO \/ rlen = - ETIMEDOUT) /\ d_bytes d2 = d_bytes d1 /\
    (wlen = len -> rlen = len -> buf' = take (Z.to_nat len) l) /\
    (all_fine d -> wlen = len /\ rlen = len).
Proof.
  intros Hg Hb Hd Ho Hl He Hll Hbl Hp bda.
  destruct (write_ok mnt blkno Hg Hb Hd l off len d) as (wlen & d1 & Hw & Hp1 & Hr & Hwr & Hf); [lia..|done|].
  destruct (read_ok mnt blkno Hg Hb Hd buf off len d1) as (rlen & buf' & d2 & Hrd & Hp2 & Hr2 & Hb2 & Hg2 & Hf2); [lia..|done|].
  exists wlen, d1. split_and!; [done|done| |].
  - intros x Hx. apply (Hwr x). rewrite length_take. fold bda. lia.
  - exists rlen, buf', d2. split_and!; try done.
    + intros Hwl Hrl. rewrite (Hg2 Hrl), drop_ge, app_nil_r by lia.
      apply (nth_ext _ _ 0 0); rewrite bytes_at_length; [rewrite length_take; lia|]. intros i Hi.
      rewrite bytes_at_nth by lia. destruct (Hwr (bda + Z.of_nat i)) as [_ Hin]. fold bda in Hin |- *.
      rewrite length_take in Hin. destruct (Hin ltac:(lia)) as [_ Hin']. rewrite (Hin' Hwl). f_equal. lia.
    + by intros [Hw1 Ha]%Hf; split; [|apply Hf2].
Qed.

Definition ex_geo : pfs_geometry := MkGeo 16384 4096 16384 65536.
Definition ex_dev (outs : list io_out) : device := MkDev (fun x => x mod 251) [] outs.

Lemma blkio_roundtrip_witness :
  exists wlen d1, pfs_blkio_write ex_geo (Some [1; 2; 3; 4]) 1 4094 4 (ex_dev [io_fine; MkOut 0 0 (fun _ => true)]) = Some (wlen, d1) /\
  exists rlen buf' d2, pfs_blkio_read ex_geo [0; 0; 0; 0] 1 4094 4 d1 = Some (rlen, buf', d2) /\
    (wlen = 4 -> rlen = 4 -> buf' = [1; 2; 3; 4]).
Proof.
  destruct (blkio_roundtrip ex_geo 1 [1; 2; 3; 4] 4094 4 (ex_dev [io_fine; MkOut 0 0 (fun _ => true)]) [0; 0; 0; 0])
    as (wlen & d1 & Hw & _ & _ & rlen & buf' & d2 & Hr & _ & _ & He & _); try done; try (simpl; lia).
  exists wlen, d1. split; [exact Hw|]. exists rlen, buf', d2. split; [exact Hr|exact He].
Defined.

(** C23: writes to different bytes of one sector are not isolated from each
    other.  A write of part of a sector reads the sector, changes it and
    writes it back ([pfs_blkio_write_segment]); [pfs_file_write] holds no lock
    during this.  When the second of two such writes runs between the read
    and the write of the first, both report success and the bytes of the
    second are lost. *)
Theorem concurrent_write_loses_update albda allen bda1 len1 buf1 bda2 len2 buf2 d :
  sector_ok allen albda = true -> d_pending d = [] -> d_outs d = [] ->
  albda <= bda1 -> 0 < len1 -> bda1 + len1 <= bda2 -> 0 < len2 -> bda2 + len2 <= albda + allen ->
  len1 <= Z.of_nat (length buf1) -> len2 <= Z.of_nat (length buf2) ->
  exists albuf1 albuf2 d1 d2 d3,
    pfsdev_pread_flags [] allen albda false d = Some (0, albuf1, d1) /\
    pfs_blkio_write_segment albda allen [] bda2 len2 buf2 false d1 = Some (0, buf2, albuf2, d2) /\
    pfsdev_pwrite_flags (blit (Z.to_nat (bda1 - albda)) (Z.to_nat len1) buf1 albuf1) allen albda false d2 = Some (0, d3) /\
    (forall x, bda2 <= x < bda2 + len2 -> d_bytes d3 x = d_bytes d x).
Proof.
  destruct d as [f ps os]. cbn [d_pending d_outs d_bytes]. intros Hs -> -> H1 Hl1 H12 Hl2 He Hb1 Hb2.
  set (b := bytes_at f albda allen). assert (Hbl : length b = Z.to_nat allen) by apply bytes_at_length.
  exists b, (blit (Z.to_nat (bda2 - albda)) (Z.to_nat len2) buf2 b), (MkDev f [] []). do 2 eexists.
  unfold pfs_blkio_write_segment, pfsdev_pread_flags, pfsdev_pwrite_flags. rewrite Hs, (proj2 (Z.eqb_neq allen len2)) by lia.
  split; [done|]. split; [done|]. split; [done|]. intros x Hx. simpl. unfold put_bytes at 1. rewrite andb_true_r.
  assert (Hnl : length (blit (Z.to_nat (bda1 - albda)) (Z.to_nat len1) buf1 b) = Z.to_nat allen).
  { unfold blit. rewrite !length_app, !length_take, length_drop. lia. }
  rewrite length_take, Hnl, (proj2 (Z.leb_le _ _)), (proj2 (Z.ltb_lt _ _)) by lia. simpl.
  rewrite nth_take by lia. unfold blit. rewrite !app_nth2 by (rewrite !length_take; lia). rewrite nth_drop, !length_take.
  subst b. rewrite bytes_at_nth by lia. f_equal. lia.
Qed.

Lemma concurrent_write_loses_update_witness :
  exists albuf1 albuf2 d1 d2 d3,
    pfsdev_pread_flags [] 4096 0 false (ex_dev []) = Some (0, albuf1, d1) /\
    pfs_blkio_write_segment 0 4096 [] 8 2 [77; 78] false d1 = Some (0, [77; 78], albuf2, d2) /\
    pfsdev_pwrite_flags (blit 0 3 [1; 2; 3] albuf1) 4096 0 false d2 = Some (0, d3) /\
    (forall x, 8 <= x < 10 -> d_bytes d3 x = x mod 251).
Proof. apply (concurrent_write_loses_update 0 4096 0 3 [1; 2; 3] 8 2 [77; 78] (ex_dev [])); done. Defined.
