(* ===== verification/Blktable.v ===== *)
(** * The block index of a file

    Model of the block tables of pfs_inode.cc: file block ids map to device
    blocks through an array of tables of sixteen blocks each.  The number of
    blocks of a table is kept in the four low bits of the pointer to its
    blocks. *)

From S2P Require Import Prelude Blkio.

Open Scope pfs_scope.

Definition BLK_TABLE_BLK_CNT : Z := 16.
Definition INODE_BLK_TABLE_INC : Z := 256.
Definition INT_MAX : Z := 2147483647.

Record pfs_dblk := MkDblk { db_blkno : Z; db_holeoff : Z; db_holelen : Z }.
Definition zerodblk : pfs_dblk := MkDblk 0 0 0.

Definition pfs_dblk_empty (dblk : pfs_dblk) : bool := db_blkno dblk =? db_blkno zerodblk.
Definition pfs_dblk_init (blkno holeoff holelen : Z) : pfs_dblk := MkDblk blkno holeoff holelen.
Definition pfs_dblk_change (off len : Z) (dblk : pfs_dblk) : option pfs_dblk :=
  PFS_ASSERT (db_blkno dblk >? 0) ;;
  Some (MkDblk (db_blkno dblk) off len).
Definition pfs_dblk_holeoff (dblk : pfs_dblk) : option Z :=
  PFS_ASSERT (db_blkno dblk >=? 0) ;;
  Some (if db_blkno dblk =? 0 then 0 else if db_holelen dblk >? 0 then db_holeoff dblk else INT_MAX).

(** [dblk_cnt] is a bit field of four bits in the word of the pointer. *)
Record pfs_inode_blk_table := MkTable { dblk_vect : option (list pfs_dblk); dblk_cnt : Z }.
Definition null_table : pfs_inode_blk_table := MkTable None 0.
Definition wrap4 (z : Z) : Z := z mod 2 ^ 4.
(** The word is not zero. *)
Definition table_nonnull (t : pfs_inode_blk_table) : bool :=
  match dblk_vect t with Some _ => true | None => negb (dblk_cnt t =? 0) end.

Record blk_tables := MkTables {
  in_blk_tables : list pfs_inode_blk_table;
  in_blk_table_nsoft : Z;
  in_blk_table_nhard : Z
}.

Definition pfs_inode_init_blktable : blk_tables := MkTables [] 0 0.

Definition pfs_inode_blk_table_idx (blkid : Z) : Z := Z.quot blkid BLK_TABLE_BLK_CNT.
Definition pfs_inode_blk_vec_idx (blkid : Z) : Z := Z.rem blkid BLK_TABLE_BLK_CNT.

(** [Some None] is the null pointer; the index of the table otherwise. *)
Definition pfs_inode_blk_table_get (bt : blk_tables) (blkid : Z) : option (option Z) :=
  PFS_ASSERT (blkid >=? 0) ;;
  let idx := to_int (pfs_inode_blk_table_idx blkid) in
  if idx >=? in_blk_table_nsoft bt then Some None else Some (Some idx).

(** Memory outside the array ends the run. *)
Definition table_at (bt : blk_tables) (idx : Z) : option pfs_inode_blk_table :=
  if idx <? 0 then None else in_blk_tables bt !! Z.to_nat idx.
Definition set_table (idx : Z) (t : pfs_inode_blk_table) (bt : blk_tables) : blk_tables :=
  MkTables (<[Z.to_nat idx := t]> (in_blk_tables bt)) (in_blk_table_nsoft bt) (in_blk_table_nhard bt).

Definition pfs_inode_realloc_blk_table (bt : blk_tables) (expect : Z) : blk_tables :=
  let expect := if expect >? 1 then roundup expect INODE_BLK_TABLE_INC else expect in
  if in_blk_table_nhard bt =? expect then bt else
  MkTables (take (Z.to_nat expect) (in_blk_tables bt)
            ++ replicate (Z.to_nat (expect - in_blk_table_nhard bt)) null_table)
           (in_blk_table_nsoft bt) expect.
Definition set_nsoft (v : Z) (bt : blk_tables) : blk_tables :=
  MkTables (in_blk_tables bt) v (in_blk_table_nhard bt).

Definition pfs_inode_create_blktable (bt : blk_tables) (blkcnt : Z) : option blk_tables :=
  let ntable := Z.quot blkcnt BLK_TABLE_BLK_CNT in
  PFS_ASSERT (bool_decide (length (in_blk_tables bt) = 0%nat)) ;;
  let bt := if ntable >? 0 then pfs_inode_realloc_blk_table bt ntable else bt in
  Some (set_nsoft 0 bt).

Definition pfs_inode_blk_table_free_blkvec (t : pfs_inode_blk_table) : pfs_inode_blk_table := null_table.

(** The last table below [n] that is in use, plus one. *)
Fixpoint last_table (tables : list pfs_inode_blk_table) (n : nat) : Z :=
  match n with
  | O => 0
  | S n => match tables !! n with
           | Some t => if table_nonnull t then Z.of_nat n + 1 else last_table tables n
           | None => last_table tables n
           end
  end.

Definition pfs_inode_tryremove_blk_table (bt : blk_tables) (table_idx : Z) : option blk_tables :=
  PFS_ASSERT ((table_idx >=? 0) && (table_idx <? in_blk_table_nsoft bt)) ;;
  let* t := table_at bt table_idx in
  if dblk_cnt t =? 0 then
    let bt := set_table table_idx (pfs_inode_blk_table_free_blkvec t) bt in
    if table_idx =? in_blk_table_nsoft bt - 1 then
      let bt := set_nsoft (last_table (in_blk_tables bt) (Z.to_nat table_idx)) bt in
      Some (pfs_inode_realloc_blk_table bt (in_blk_table_nsoft bt))
    else Some bt
  else Some bt.

Definition pfs_inode_remove_blk (bt : blk_tables) (blkid : Z) : option blk_tables :=
  let* p := pfs_inode_blk_table_get bt blkid in
  match p with
  | None => Some bt
  | Some idx =>
      let* t := table_at bt idx in
      if negb (table_nonnull t) then Some bt else
      let* v := dblk_vect t in
      let i := Z.to_nat (pfs_inode_blk_vec_idx blkid) in
      let* blk := v !! i in
      let bt := (if negb (pfs_dblk_empty blk)
                 then set_table idx (MkTable (Some (<[i := zerodblk]> v)) (wrap4 (dblk_cnt t - 1))) bt else bt) in
      pfs_inode_tryremove_blk_table bt idx
  end.

Definition pfs_inode_trycreate_blkvec (t : pfs_inode_blk_table) : pfs_inode_blk_table :=
  if table_nonnull t then t else MkTable (Some (replicate (Z.to_nat BLK_TABLE_BLK_CNT) zerodblk)) 0.

Definition pfs_inode_tryadd_blk_table (bt : blk_tables) (blkid : Z) : option (blk_tables * Z) :=
  let blk_table_idx := pfs_inode_blk_table_idx blkid in
  let bt := (if in_blk_table_nsoft bt <=? blk_table_idx
             then pfs_inode_realloc_blk_table (set_nsoft (blk_table_idx + 1) bt) (blk_table_idx + 1) else bt) in
  let* t := table_at bt blk_table_idx in
  Some (set_table blk_table_idx (pfs_inode_trycreate_blkvec t) bt, blk_table_idx).

(** Where the block is: the table and the place in it. *)
Definition pfs_inode_add_blk (bt : blk_tables) (blkid : Z) : option (blk_tables * (Z * nat)) :=
  let* r := pfs_inode_tryadd_blk_table bt blkid in
  let '(bt, tidx) := r in
  let idx := Z.to_nat (to_int (pfs_inode_blk_vec_idx blkid)) in
  let* t := table_at bt tidx in
  let* v := dblk_vect t in
  let* blk := v !! idx in
  let bt := (if pfs_dblk_empty blk then set_table tidx (MkTable (Some v) (wrap4 (dblk_cnt t + 1))) bt else bt) in
  Some (bt, (tidx, idx)).

Definition pfs_inode_get_blk (bt : blk_tables) (blkid : Z) : option (option (Z * nat)) :=
  let* p := pfs_inode_blk_table_get bt blkid in
  match p with
  | None => Some None
  | Some tidx =>
      let* t := table_at bt tidx in
      if negb (table_nonnull t) then Some None
      else Some (Some (tidx, Z.to_nat (to_int (pfs_inode_blk_vec_idx blkid))))
  end.

(** The block a pointer refers to, and a store through it. *)
Definition blk_load (bt : blk_tables) (p : Z * nat) : option pfs_dblk :=
  let* t := table_at bt (fst p) in
  let* v := dblk_vect t in
  v !! snd p.
Definition blk_store (p : Z * nat) (dblk : pfs_dblk) (bt : blk_tables) : option blk_tables :=
  let* t := table_at bt (fst p) in
  let* v := dblk_vect t in
  let* _ := v !! snd p in
  Some (set_table (fst p) (MkTable (Some (<[snd p := dblk]> v)) (dblk_cnt t)) bt).

(** The device block and the start of its hole. *)
Definition pfs_inode_map (bt : blk_tables) (blkid : Z) : option (Z * Z) :=
  let* p := pfs_inode_get_blk bt blkid in
  match p with
  | Some p =>
      let* dblk := blk_load bt p in
      let* dbhoff := pfs_dblk_holeoff dblk in
      Some (db_blkno dblk, dbhoff)
  | None => Some (0, 0)
  end.

(** A block tag as the index sees it: in use or free, its file block and its
    device block with the hole. *)
Record blktag_view := MkBt { bt_used : bool; bt_blkid : Z; bt_dblk : pfs_dblk }.

Definition pfs_inode_sync_blk_meta (bt : blk_tables) (blktag : blktag_view) : option blk_tables :=
  let blkid := bt_blkid blktag in
  if negb (bt_used blktag) then pfs_inode_remove_blk bt blkid else
  let* r := pfs_inode_add_blk bt blkid in
  let '(bt, p) := r in
  blk_store p (pfs_dblk_init (db_blkno (bt_dblk blktag)) (db_holeoff (bt_dblk blktag)) (db_holelen (bt_dblk blktag))) bt.

Definition pfs_inode_destroy_blk_table (bt : blk_tables) : blk_tables := MkTables [] 0 0.

(** ** The index as a finite map *)
Fixpoint nused (v : list pfs_dblk) : Z :=
  match v with [] => 0 | b :: v => (if pfs_dblk_empty b then 0 else 1) + nused v end.

Lemma nused_bounds v : 0 <= nused v <= Z.of_nat (length v).
Proof. induction v as [|b v IH]; simpl; [lia|]. destruct (pfs_dblk_empty b); lia. Qed.

Lemma nused_insert v i old new : v !! i = Some old ->
  nused (<[i := new]> v) = nused v - (if pfs_dblk_empty old then 0 else 1) + (if pfs_dblk_empty new then 0 else 1).
Proof.
  revert i. induction v as [|b v IH]; intros [|i] Hi; try done; simpl in *.
  - injection Hi as ->. lia.
  - rewrite (IH _ Hi). lia.
Qed.

Lemma nused_slot v i b : v !! i = Some b ->
  (pfs_dblk_empty b = true -> nused v < Z.of_nat (length v)) /\ (pfs_dblk_empty b = false -> 0 < nused v).
Proof.
  revert i. induction v as [|x v IH]; intros [|i] Hi; try done; simpl in *.
  - injection Hi as ->. pose proof (nused_bounds v). destruct (pfs_dblk_empty b); split; try done; lia.
  - destruct (IH _ Hi) as [H1 H2]. destruct (pfs_dblk_empty x); split; intros He;
      specialize (H1 He) || specialize (H2 He); lia.
Qed.

Lemma nused_zeros n : nused (replicate n zerodblk) = 0.
Proof. induction n; simpl; [done|]. rewrite IHn. done. Qed.

(** A table is not allocated, or has sixteen places of which some are used. *)
Definition table_ok (t : pfs_inode_blk_table) : Prop :=
  match dblk_vect t with
  | None => dblk_cnt t = 0
  | Some v => length v = 16%nat /\ dblk_cnt t = wrap4 (nused v) /\ 0 < nused v
  end.

Definition blk_lookup (tables : list pfs_inode_blk_table) (blkid : Z) : option pfs_dblk :=
  t ← tables !! Z.to_nat (blkid / 16);
  v ← dblk_vect t;
  b ← v !! Z.to_nat (blkid mod 16);
  if pfs_dblk_empty b then None else Some b.

Record tables_ok (bt : blk_tables) (m : gmap Z pfs_dblk) : Prop := {
  tk_hard : in_blk_table_nhard bt = Z.of_nat (length (in_blk_tables bt));
  tk_soft : 0 <= in_blk_table_nsoft bt <= in_blk_table_nhard bt;
  tk_bound : in_blk_table_nsoft bt <= 2 ^ 31;
  tk_tables : Forall table_ok (in_blk_tables bt);
  tk_above : forall i t, in_blk_tables bt !! i = Some t -> in_blk_table_nsoft bt <= Z.of_nat i -> t = null_table;
  tk_map : forall blkid, 0 <= blkid -> m !! blkid = blk_lookup (in_blk_tables bt) blkid;
  tk_dom : forall blkid b, m !! blkid = Some b -> 0 <= blkid /\ 0 < db_blkno b
}.

(** File blocks whose table number is an [int]. *)
Definition blkid_ok (blkid : Z) : Prop := 0 <= blkid < 2 ^ 35.

Lemma idx_ok blkid : blkid_ok blkid ->
  pfs_inode_blk_table_idx blkid = blkid / 16 /\ pfs_inode_blk_vec_idx blkid = blkid mod 16 /\
  to_int (blkid / 16) = blkid / 16 /\ to_int (blkid mod 16) = blkid mod 16 /\
  0 <= blkid / 16 < 2 ^ 31 /\ 0 <= blkid mod 16 < 16.
Proof.
  intros [H0 H1]. unfold pfs_inode_blk_table_idx, pfs_inode_blk_vec_idx, to_int.
  change BLK_TABLE_BLK_CNT with 16. rewrite Z.quot_div_nonneg, Z.rem_mod_nonneg by lia.
  assert (Hd : 0 <= blkid / 16 < 2 ^ 31).
  { split; [apply Z.div_pos; lia|]. apply Z.div_lt_upper_bound; [lia|]. done. }
  pose proof (Z.mod_pos_bound blkid 16 ltac:(lia)) as Hr.
  rewrite (Z.mod_small (blkid / 16 + _)), (Z.mod_small (blkid mod 16 + _)) by lia. lia.
Qed.

Lemma blk_lookup_idx tables t v i b : forall blkid, tables !! Z.to_nat (blkid / 16) = Some t -> dblk_vect t = Some v ->
  i = Z.to_nat (blkid mod 16) -> v !! i = Some b -> blk_lookup tables blkid = if pfs_dblk_empty b then None else Some b.
Proof. intros blkid Ht Hv -> Hb. unfold blk_lookup. rewrite Ht. simpl. rewrite Hv. simpl. by rewrite Hb. Qed.

Lemma geb_true a b : b <= a -> (a >=? b) = true.
Proof. intros. apply Z.geb_le. lia. Qed.
Lemma geb_false a b : a < b -> (a >=? b) = false.
Proof. intros. rewrite Z.geb_leb. apply Z.leb_gt. lia. Qed.

Lemma table_get_ok bt blkid : blkid_ok blkid ->
  pfs_inode_blk_table_get bt blkid = Some (if blkid / 16 >=? in_blk_table_nsoft bt then None else Some (blkid / 16)).
Proof.
  intros Hb. destruct (idx_ok blkid Hb) as (Hi & _ & Hc & _). unfold pfs_inode_blk_table_get.
  rewrite Hi, Hc, (geb_true blkid) by apply Hb. by destruct (_ >=? _).
Qed.
Lemma table_at_lookup bt idx : 0 <= idx -> table_at bt idx = in_blk_tables bt !! Z.to_nat idx.
Proof. intros H. unfold table_at. by rewrite (proj2 (Z.ltb_ge _ _)). Qed.

Section Tables.
Context (bt : blk_tables) (m : gmap Z pfs_dblk).
Hypothesis Hok : tables_ok bt m.

(** A table in range is the null table or has a block for every place. *)
Lemma table_cases blkid : blkid_ok blkid ->
  (in_blk_table_nsoft bt <= blkid / 16 /\ m !! blkid = None) \/
  (blkid / 16 < in_blk_table_nsoft bt /\ in_blk_tables bt !! Z.to_nat (blkid / 16) = Some null_table /\ m !! blkid = None) \/
  (blkid / 16 < in_blk_table_nsoft bt /\ exists v b, 
     in_blk_tables bt !! Z.to_nat (blkid / 16) = Some (MkTable (Some v) (wrap4 (nused v))) /\ length v = 16%nat /\ 0 < nused v /\
     v !! Z.to_nat (blkid mod 16) = Some b /\ m !! blkid = if pfs_dblk_empty b then None else Some b).
Proof.
  intros Hb. destruct Hok as [Hh Hs _ Ht Ha Hm _]. destruct (idx_ok blkid Hb) as (_ & _ & _ & _ & Hd & Hr).
  destruct Hb as [Hb _]. rewrite (Hm blkid Hb).
  destruct (in_blk_tables bt !! Z.to_nat (blkid / 16)) as [t|] eqn:Et.
  - assert (Htok : table_ok t) by by eapply Forall_lookup_1.
    destruct (Z.leb_spec (in_blk_table_nsoft bt) (blkid / 16)) as [Hle|Hlt].
    + left. split; [done|]. rewrite (Ha _ _ Et) in Et by lia. unfold blk_lookup. by rewrite Et.
    + right. destruct t as [[v|] c]; unfold table_ok in Htok; simpl in Htok.
      * right. split; [done|]. destruct Htok as (Hl & -> & Hc).
        destruct (lookup_lt_is_Some_2 v (Z.to_nat (blkid mod 16))) as [b Hv]; [lia|]. exists v, b. split_and!; try done.
        by eapply blk_lookup_idx.
      * left. rewrite Htok in *. split; [done|]. split; [done|]. unfold blk_lookup. by rewrite Et.
  - left. apply lookup_ge_None in Et. split; [lia|]. unfold blk_lookup. by rewrite (lookup_ge_None_2 _ _ Et).
Qed.

Lemma get_blk_ok blkid : blkid_ok blkid ->
  (pfs_inode_get_blk bt blkid = Some None /\ m !! blkid = None) \/
  (exists p b, pfs_inode_get_blk bt blkid = Some (Some p) /\ blk_load bt p = Some b /\
     fst p = blkid / 16 /\ snd p = Z.to_nat (blkid mod 16) /\ m !! blkid = if pfs_dblk_empty b then None else Some b).
Proof.
  intros Hb. destruct (idx_ok blkid Hb) as (Hi & Hv & Hc & Hc2 & Hd & Hr).
  unfold pfs_inode_get_blk, pfs_inode_blk_table_get. rewrite Hi, Hv, Hc, Hc2.
  assert ((blkid >=? 0) = true) as -> by (apply Z.geb_le; apply Hb).
  destruct (table_cases blkid Hb) as [(Hlt & Hm)|[(Hlt & Ht & Hm)|(Hlt & v & b & Ht & Hl & Hcnt & Hvb & Hm)]].
  - left. by rewrite (proj2 (Z.geb_le _ _)) by lia.
  - left. assert ((blkid / 16 >=? in_blk_table_nsoft bt) = false) as -> by (rewrite Z.geb_leb; apply Z.leb_gt; lia).
    unfold table_at. rewrite (proj2 (Z.ltb_ge _ _)) by lia. by rewrite Ht.
  - right. assert ((blkid / 16 >=? in_blk_table_nsoft bt) = false) as -> by (rewrite Z.geb_leb; apply Z.leb_gt; lia).
    unfold table_at, blk_load, table_at. exists (blkid / 16, Z.to_nat (blkid mod 16)), b. simpl.
    rewrite (proj2 (Z.ltb_ge _ _)) by lia. rewrite Ht. simpl. by rewrite Hvb.
Qed.

Lemma map_ok blkid : blkid_ok blkid ->
  pfs_inode_map bt blkid = Some (match m !! blkid with
    | Some b => (db_blkno b, if db_holelen b >? 0 then db_holeoff b else INT_MAX) | None => (0, 0) end).
Proof.
  intros Hb. unfold pfs_inode_map. destruct (get_blk_ok blkid Hb) as [[-> ->]|(p & b & -> & -> & _ & _ & Hm)]; [done|].
  unfold pfs_dblk_holeoff. rewrite Hm. unfold pfs_dblk_empty in *. simpl in *.
  destruct (Z.eqb_spec (db_blkno b) 0) as [E|E].
  - rewrite E. done.
  - destruct (tk_dom _ _ Hok blkid b Hm) as [_ Hp]. by rewrite (proj2 (Z.geb_le _ _)) by lia.
Qed.
End Tables.

Lemma vec_lookup_insert (v : list pfs_dblk) blkid blkid' (b : pfs_dblk) : length v = 16%nat -> blkid' / 16 = blkid / 16 ->
  (<[Z.to_nat (blkid mod 16) := b]> v) !! Z.to_nat (blkid' mod 16) =
  if decide (blkid' = blkid) then Some b else v !! Z.to_nat (blkid' mod 16).
Proof.
  intros Hl Hd. pose proof (Z.mod_pos_bound blkid 16 ltac:(lia)). pose proof (Z.mod_pos_bound blkid' 16 ltac:(lia)).
  case_decide as E.
  - subst. apply list_lookup_insert_eq. lia.
  - apply list_lookup_insert_ne. intros Hn. apply E.
    rewrite (Z.div_mod blkid' 16), (Z.div_mod blkid 16) by lia. rewrite Hd. lia.
Qed.

Lemma realloc_ok bt m n : tables_ok bt m -> 0 <= n <= 2 ^ 31 ->
  (forall i t, in_blk_tables bt !! i = Some t -> n <= Z.of_nat i -> t = null_table) ->
  tables_ok (pfs_inode_realloc_blk_table (set_nsoft n bt) n) m.
Proof.
  intros [Hh Hs _ Ht Ha Hm Hd] [Hn Hn2] Hnull. unfold pfs_inode_realloc_blk_table. simpl.
  set (e := if n >? 1 then roundup n INODE_BLK_TABLE_INC else n).
  assert (He : n <= e).
  { unfold e. destruct (Z.gtb_spec n 1); [|lia]. by apply roundup_spec; [|lia]. }
  destruct (Z.eqb_spec (in_blk_table_nhard bt) e) as [E|E].
  { split; simpl; try done. lia. }
  assert (Hold : forall i t, (take (Z.to_nat e) (in_blk_tables bt) ++
      replicate (Z.to_nat (e - in_blk_table_nhard bt)) null_table) !! i = Some t ->
      in_blk_tables bt !! i = Some t \/ t = null_table).
  { intros i t [Hi|[_ Hi]]%lookup_app_Some; [left; by apply lookup_take_Some in Hi as [? _]|].
    right. by apply lookup_replicate in Hi as [? _]. }
  split; simpl; try done.
  - rewrite length_app, length_take, length_replicate. lia.
  - apply Forall_lookup. intros i t [Hi| ->]%Hold; [by eapply Forall_lookup_1|done].
  - intros i t [Hi| ->]%Hold Hle; [by eapply Hnull|done].
  - intros blkid Hb. rewrite (Hm blkid Hb). unfold blk_lookup.
    set (i := Z.to_nat (blkid / 16)). set (l' := _ ++ _) in *. specialize (Hold i).
    destruct (l' !! i) as [t|] eqn:El.
    + destruct (in_blk_tables bt !! i) as [t'|] eqn:Et.
      * destruct (decide (n <= Z.of_nat i)) as [Hle|Hle].
        -- rewrite (Hnull i t' Et Hle). destruct (Hold t eq_refl) as [[= ->]| ->]; [|done]. by rewrite (Hnull i t Et Hle).
        -- assert (l' !! i = Some t') as E2.
           { unfold l'. apply lookup_app_Some. left. apply lookup_take_Some. split; [done|lia]. }
           by rewrite El in E2; injection E2 as ->.
      * by destruct (Hold t eq_refl) as [[=]| ->].
    + destruct (in_blk_tables bt !! i) as [t'|] eqn:Et; [|done].
      rewrite (Hnull i t' Et); [done|]. apply lookup_ge_None in El. unfold l' in El.
      rewrite length_app, length_take, length_replicate in El. lia.
Qed.

(** Replacing one table changes the blocks of that table. *)
Lemma set_table_ok bt m idx t m' : tables_ok bt m -> 0 <= idx < in_blk_table_nsoft bt -> table_ok t ->
  (forall blkid, 0 <= blkid -> m' !! blkid =
     if decide (blkid / 16 = idx)
     then v ← dblk_vect t; b ← v !! Z.to_nat (blkid mod 16); if pfs_dblk_empty b then None else Some b
     else m !! blkid) ->
  (forall blkid b, m' !! blkid = Some b -> 0 <= blkid /\ 0 < db_blkno b) ->
  tables_ok (set_table idx t bt) m'.
Proof.
  intros [Hh Hs Hbd Ht Ha Hm Hd] Hi Htok Hm' Hd'. split; simpl; try done.
  - by rewrite length_insert.
  - by apply Forall_insert.
  - intros i t' [(? & ? & ?)|[? ?]]%list_lookup_insert_Some ?; [lia|by eapply Ha].
  - intros blkid Hb. rewrite (Hm' blkid Hb). unfold blk_lookup. case_decide as E.
    + rewrite E, list_lookup_insert_eq by lia. done.
    + rewrite list_lookup_insert_ne by (pose proof (Z.div_pos blkid 16); lia). by apply Hm.
Qed.

Lemma last_table_spec tables n : 0 <= last_table tables n <= Z.of_nat n /\
  forall i t, tables !! i = Some t -> last_table tables n <= Z.of_nat i -> (i < n)%nat -> table_nonnull t = false.
Proof.
  induction n as [|n [IH1 IH2]]; simpl; [split; [done|lia]|].
  destruct (tables !! n) as [t|] eqn:Et; [destruct (table_nonnull t) eqn:En|].
  - split; [lia|]. intros i t' _ ? ?. lia.
  - split; [lia|]. intros i t' Ht ? ?. destruct (decide (i = n)) as [->|]; [congruence|]. eapply IH2; [done..|lia].
  - split; [lia|]. intros i t' Ht ? ?. destruct (decide (i = n)) as [->|]; [congruence|]. eapply IH2; [done..|lia].
Qed.

Lemma table_null t : table_ok t -> table_nonnull t = false -> t = null_table.
Proof. destruct t as [[v|] c]; unfold table_ok, table_nonnull; simpl; [done|]. by intros ->. Qed.

Lemma wrap4_add c d : wrap4 (wrap4 c + d) = wrap4 (c + d).
Proof. unfold wrap4. apply Zplus_mod_idemp_l. Qed.

Lemma table_at_set bt idx t : 0 <= idx -> idx < Z.of_nat (length (in_blk_tables bt)) -> table_at (set_table idx t bt) idx = Some t.
Proof. intros ? ?. unfold table_at. rewrite (proj2 (Z.ltb_ge _ _)) by lia. simpl. apply list_lookup_insert_eq. lia. Qed.
Lemma set_set bt idx t t' : set_table idx t' (set_table idx t bt) = set_table idx t' bt.
Proof. unfold set_table. simpl. by rewrite list_insert_insert_eq. Qed.
Lemma set_same bt idx t : in_blk_tables bt !! Z.to_nat idx = Some t -> set_table idx t bt = bt.
Proof. intros H. unfold set_table. rewrite list_insert_id by done. by destruct bt. Qed.

(** The places of a table after one of them changes, as a map. *)
Lemma insert_map (v : list pfs_dblk) (m : gmap Z pfs_dblk) blkid new : 0 <= blkid -> length v = 16%nat ->
  (forall b', 0 <= b' -> b' / 16 = blkid / 16 ->
     m !! b' = (b ← v !! Z.to_nat (b' mod 16); if pfs_dblk_empty b then None else Some b)) ->
  forall b', 0 <= b' ->
    (if pfs_dblk_empty new then delete blkid m else <[blkid := new]> m) !! b' =
    if decide (b' / 16 = blkid / 16)
    then b ← (<[Z.to_nat (blkid mod 16) := new]> v) !! Z.to_nat (b' mod 16); if pfs_dblk_empty b then None else Some b
    else m !! b'.
Proof.
  intros Hb Hl Hv b' Hb'. case_decide as E.
  - rewrite vec_lookup_insert by done. case_decide as E2; simpl.
    + subst b'. destruct (pfs_dblk_empty new); [apply lookup_delete_eq|apply lookup_insert_eq].
    + rewrite <- (Hv b' Hb' E). destruct (pfs_dblk_empty new); [by apply lookup_delete_ne|by apply lookup_insert_ne].
  - assert (b' <> blkid) by congruence. destruct (pfs_dblk_empty new); [by apply lookup_delete_ne|by apply lookup_insert_ne].
Qed.

Lemma tables_ok_vec bt m blkid v c : tables_ok bt m ->
  in_blk_tables bt !! Z.to_nat (blkid / 16) = Some (MkTable (Some v) c) ->
  forall b', 0 <= b' -> b' / 16 = blkid / 16 ->
     m !! b' = (b ← v !! Z.to_nat (b' mod 16); if pfs_dblk_empty b then None else Some b).
Proof. intros Hok Ht b' Hb E. rewrite (tk_map _ _ Hok b' Hb). unfold blk_lookup. by rewrite E, Ht. Qed.

Lemma dom_change (m : gmap Z pfs_dblk) blkid new : 0 <= blkid -> 0 <= db_blkno new ->
  (forall k b, m !! k = Some b -> 0 <= k /\ 0 < db_blkno b) ->
  forall k b, (if pfs_dblk_empty new then delete blkid m else <[blkid := new]> m) !! k = Some b -> 0 <= k /\ 0 < db_blkno b.
Proof.
  intros Hb Hn Hd k b. unfold pfs_dblk_empty. simpl. destruct (Z.eqb_spec (db_blkno new) 0).
  - intros [_ H]%lookup_delete_Some. by eapply Hd.
  - intros [[<- <-]|[_ H]]%lookup_insert_Some; [lia|by eapply Hd].
Qed.

Lemma tryremove_ok bt m idx v i new : tables_ok bt m -> 0 <= idx < in_blk_table_nsoft bt ->
  in_blk_tables bt !! Z.to_nat idx = Some (MkTable (Some v) (wrap4 (nused v))) -> length v = 16%nat ->
  0 <= nused (<[i := new]> v) < 16 -> forall m',
  (0 < nused (<[i := new]> v) -> tables_ok (set_table idx (MkTable (Some (<[i := new]> v)) (wrap4 (nused (<[i := new]> v)))) bt) m') ->
  (nused (<[i := new]> v) = 0 -> tables_ok (set_table idx null_table bt) m') ->
  exists bt', pfs_inode_tryremove_blk_table
     (set_table idx (MkTable (Some (<[i := new]> v)) (wrap4 (nused (<[i := new]> v)))) bt) idx = Some bt' /\ tables_ok bt' m'.
Proof.
  intros Hok Hi Ht Hl Hc m' Hpos Hzero. unfold pfs_inode_tryremove_blk_table.
  pose proof (tk_hard _ _ Hok). pose proof (tk_soft _ _ Hok).
  match goal with |- context [if ?c && ?d then _ else None] => assert ((c && d) = true) as -> end.
  { apply andb_true_intro. split; [apply Z.geb_le|apply Z.ltb_lt; simpl]; lia. }
  rewrite table_at_set by lia. cbn [dblk_cnt]. unfold wrap4 at 1. rewrite Z.mod_small by (change (2 ^ 4) with 16; lia).
  destruct (Z.eqb_spec (nused (<[i := new]> v)) 0) as [E|E]; [|eexists; split; [done|apply Hpos; lia]].
  unfold pfs_inode_blk_table_free_blkvec. rewrite set_set. specialize (Hzero E). clear Hpos.
  destruct (Z.eqb_spec idx (in_blk_table_nsoft (set_table idx null_table bt) - 1)) as [El|El]; [|by eexists].
  eexists. split; [done|]. cbn [in_blk_table_nsoft set_nsoft].
  destruct (last_table_spec (in_blk_tables (set_table idx null_table bt)) (Z.to_nat idx)) as [Hlb Hln].
  pose proof (tk_bound _ _ Hok). apply realloc_ok; [done|lia|]. intros j t Hj Hle.
  destruct (decide (j < Z.to_nat idx)%nat) as [Hji|Hji].
  - apply table_null; [|by eapply Hln]. eapply Forall_lookup_1; [apply (tk_tables _ _ Hzero)|done].
  - simpl in Hj. apply list_lookup_insert_Some in Hj as [(? & ? & ?)|[Hne Hj]]; [done|].
    eapply (tk_above _ _ Hok); [done|]. simpl in El. lia.
Qed.

Lemma nused_zero v : nused v = 0 -> forall i b, v !! i = Some b -> pfs_dblk_empty b = true.
Proof. intros H i b Hi. destruct (pfs_dblk_empty b) eqn:E; [done|]. apply nused_slot in Hi as [_ Hi]. specialize (Hi E). lia. Qed.

Lemma remove_blk_ok bt m blkid : tables_ok bt m -> blkid_ok blkid ->
  exists bt', pfs_inode_remove_blk bt blkid = Some bt' /\ tables_ok bt' (delete blkid m).
Proof.
  intros Hok Hb. destruct (idx_ok blkid Hb) as (Hi & Hv & Hc & _ & Hd & Hr).
  unfold pfs_inode_remove_blk. rewrite (table_get_ok bt blkid Hb), Hv.
  destruct (table_cases bt m Hok blkid Hb) as [(Hlt & Hm)|[(Hlt & Ht & Hm)|(Hlt & v & b & Ht & Hl & Hcnt & Hvb & Hm)]].
  { rewrite (proj2 (Z.geb_le _ _)) by lia. exists bt. by rewrite delete_id. }
  all: rewrite geb_false by done; rewrite table_at_lookup, Ht by lia; simpl.
  { exists bt. by rewrite delete_id. }
  rewrite Hvb. pose proof (nused_insert v _ b zerodblk Hvb) as Hci. simpl in Hci.
  assert (Hbound : 0 <= nused (<[Z.to_nat (blkid mod 16):=zerodblk]> v) < 16).
  { pose proof (nused_bounds v). destruct (nused_slot v _ b Hvb) as [He Hne]. destruct (pfs_dblk_empty b).
    - specialize (He eq_refl). lia.
    - specialize (Hne eq_refl). lia. }
  assert (Heq : (if negb (pfs_dblk_empty b)
     then set_table (blkid / 16) (MkTable (Some (<[Z.to_nat (blkid mod 16):=zerodblk]> v)) (wrap4 (wrap4 (nused v) - 1))) bt else bt) =
     if pfs_dblk_empty b then bt else
     set_table (blkid / 16) (MkTable (Some (<[Z.to_nat (blkid mod 16):=zerodblk]> v)) (wrap4 (nused (<[Z.to_nat (blkid mod 16):=zerodblk]> v)))) bt).
  { destruct (pfs_dblk_empty b); simpl; [done|]. rewrite Hci, Z.add_0_r. do 2 f_equal. apply (wrap4_add _ (-1)). }
  rewrite Heq. clear Heq.
  pose proof (insert_map v m blkid zerodblk (proj1 Hb) Hl (tables_ok_vec bt m blkid _ _ Hok Ht)) as Him. simpl in Him.
  pose proof (dom_change m blkid zerodblk (proj1 Hb) ltac:(done) (tk_dom _ _ Hok)) as Hdc. simpl in Hdc.
  destruct (pfs_dblk_empty b) eqn:Eb.
  - exists bt. rewrite delete_id by done. split; [|done]. unfold pfs_inode_tryremove_blk_table.
    rewrite geb_true, (proj2 (Z.ltb_lt _ _)) by lia. simpl. rewrite table_at_lookup, Ht by lia. simpl.
    unfold wrap4. rewrite Z.mod_small by (change (2 ^ 4) with 16; lia). by rewrite (proj2 (Z.eqb_neq _ _)) by lia.
  - eapply tryremove_ok; [done|lia|done|done|done| |].
    + intros Hp. eapply set_table_ok; [done|lia| |exact Him|exact Hdc]. unfold table_ok. simpl. by rewrite length_insert.
    + intros Hz. eapply set_table_ok; [done|lia|done| |exact Hdc].
      intros b' Hb'. rewrite (Him b' Hb'). case_decide; [|done]. simpl.
      destruct (_ !! Z.to_nat (b' mod 16)) as [x|] eqn:Ex; simpl; [|done]. by rewrite (nused_zero _ Hz _ _ Ex).
Qed.

Lemma add_blk_ok bt m blkid dblk : tables_ok bt m -> blkid_ok blkid -> 0 < db_blkno dblk ->
  exists bt1 p bt', pfs_inode_add_blk bt blkid = Some (bt1, p) /\ blk_store p dblk bt1 = Some bt' /\
    tables_ok bt' (<[blkid := dblk]> m).
Proof.
  intros Hok Hb Hpos. destruct (idx_ok blkid Hb) as (Hi & Hv & Hc & Hc2 & Hd & Hr).
  unfold pfs_inode_add_blk, pfs_inode_tryadd_blk_table. rewrite Hi, Hv, Hc2.
  set (bt0 := if _ <=? _ then _ else bt). assert (Hok0 : tables_ok bt0 m /\ blkid / 16 < in_blk_table_nsoft bt0).
  { unfold bt0. destruct (Z.leb_spec (in_blk_table_nsoft bt) (blkid / 16)) as [Hle|Hle]; [|done]. split.
    - apply realloc_ok; [done|lia|]. intros i t Ht ?. eapply (tk_above _ _ Hok); [done|lia].
    - unfold pfs_inode_realloc_blk_table. destruct (_ =? _); simpl; lia. }
  generalize dependent bt0. intros bt0 [Hok0 Hlt].
  pose proof (tk_hard _ _ Hok0) as Hh. pose proof (tk_soft _ _ Hok0) as Hs.
  assert (exists t v b, table_at bt0 (blkid / 16) = Some t /\
    pfs_inode_trycreate_blkvec t = MkTable (Some v) (wrap4 (nused v)) /\ length v = 16%nat /\
    v !! Z.to_nat (blkid mod 16) = Some b /\
    forall b', 0 <= b' -> b' / 16 = blkid / 16 ->
      m !! b' = (b ← v !! Z.to_nat (b' mod 16); if pfs_dblk_empty b then None else Some b))
    as (t & v & b & Ht & Htc & Hl & Hvb & Hmv).
  { rewrite table_at_lookup by lia. destruct (table_cases bt0 m Hok0 blkid Hb) as
      [(Hle & _)|[(_ & Ht & _)|(_ & v & b & Ht & Hl & Hcnt & Hvb & Hm)]]; [lia| |].
    - exists null_table, (replicate 16 zerodblk), zerodblk. split_and!; try done.
      + by apply lookup_replicate_2; lia.
      + intros b' Hb' E. rewrite (tk_map _ _ Hok0 b' Hb'). unfold blk_lookup. rewrite E, Ht.
        set (z := replicate 16 zerodblk). simpl. destruct (z !! Z.to_nat (b' mod 16)) eqn:Er; simpl; [|done]. by apply lookup_replicate in Er as [-> _].
    - eexists _, v, b. split_and!; try done. by eapply tables_ok_vec. }
  rewrite Ht, Htc. rewrite table_at_set by lia. cbn [dblk_vect dblk_cnt]. rewrite Hvb.
  set (c := nused (<[Z.to_nat (blkid mod 16) := dblk]> v)).
  assert (Hne : pfs_dblk_empty dblk = false) by (unfold pfs_dblk_empty; simpl; apply Z.eqb_neq; lia).
  assert (Hfin : tables_ok (set_table (blkid / 16) (MkTable (Some (<[Z.to_nat (blkid mod 16) := dblk]> v)) (wrap4 c)) bt0)
    (<[blkid := dblk]> m)).
  { pose proof (insert_map v m blkid dblk (proj1 Hb) Hl Hmv) as Him.
    pose proof (dom_change m blkid dblk (proj1 Hb) ltac:(lia) (tk_dom _ _ Hok0)) as Hdc. rewrite Hne in Him, Hdc.
    eapply set_table_ok; [done|lia| |exact Him|exact Hdc]. unfold table_ok. simpl. rewrite length_insert. split_and!; try done.
    eapply (nused_slot _ (Z.to_nat (blkid mod 16)) dblk); [|done]. apply list_lookup_insert_eq. lia. }
  assert (Hcc : c = nused v + (if pfs_dblk_empty b then 1 else 0)).
  { unfold c. rewrite (nused_insert v _ b dblk Hvb), Hne. destruct (pfs_dblk_empty b); lia. }
  do 3 eexists. split; [done|]. split; [|exact Hfin].
  unfold blk_store. cbn [fst snd]. destruct (pfs_dblk_empty b); [rewrite set_set|]; rewrite table_at_set by lia;
    cbn [dblk_vect dblk_cnt]; rewrite Hvb, set_set; do 3 f_equal; [by rewrite wrap4_add, Hcc|by rewrite Hcc, Z.add_0_r].
Qed.

(** A store through the pointer of a block that is mapped. *)
Lemma store_blk_ok bt m blkid b b' : tables_ok bt m -> m !! blkid = Some b -> blkid_ok blkid -> 0 < db_blkno b' ->
  exists p bt', pfs_inode_get_blk bt blkid = Some (Some p) /\ blk_load bt p = Some b /\ blk_store p b' bt = Some bt' /\
    tables_ok bt' (<[blkid := b']> m).
Proof.
  intros Hok Hm Hb Hp. destruct (get_blk_ok bt m Hok blkid Hb) as [[_ Hn]|(p & b0 & Hg & Hl & Hp1 & Hp2 & Hm0)]; [congruence|].
  destruct (table_cases bt m Hok blkid Hb) as [(_ & Hn)|[(_ & _ & Hn)|(Hlt & v & b1 & Ht & Hlen & Hc & Hv & Hm1)]]; [congruence..|].
  destruct (idx_ok blkid Hb) as (_ & _ & _ & _ & Hd & _).
  assert (Hb1 : pfs_dblk_empty b1 = false /\ b1 = b).
  { rewrite Hm in Hm1. destruct (pfs_dblk_empty b1); [done|]. by injection Hm1. } destruct Hb1 as [He ->].
  assert (Hne : pfs_dblk_empty b' = false) by (unfold pfs_dblk_empty; simpl; apply Z.eqb_neq; lia).
  exists p. unfold blk_store, blk_load in *. rewrite Hp1, Hp2 in *. rewrite table_at_lookup, Ht in * by lia. simpl in *. rewrite Hv in *.
  eexists. split_and!; try done. pose proof (nused_insert v _ b b' Hv) as Hni. rewrite He, Hne in Hni.
  pose proof (insert_map v m blkid b' (proj1 Hb) Hlen (tables_ok_vec bt m blkid _ _ Hok Ht)) as Him.
  pose proof (dom_change m blkid b' (proj1 Hb) ltac:(lia) (tk_dom _ _ Hok)) as Hdc. rewrite Hne in Him, Hdc.
  eapply set_table_ok; [done|lia| |exact Him|exact Hdc]. unfold table_ok. simpl. rewrite length_insert, Hni.
  replace (nused v - 1 + 1) with (nused v) by lia. done.
Qed.

(** ** Properties *)

(** The tags of a file applied one after the other, to the index and to a
    finite map. *)
Fixpoint sync_all (bt : blk_tables) (tags : list blktag_view) : option blk_tables :=
  match tags with
  | [] => Some bt
  | tag :: tags => let* bt := pfs_inode_sync_blk_meta bt tag in sync_all bt tags
  end.
Definition tag_step (m : gmap Z pfs_dblk) (tag : blktag_view) : gmap Z pfs_dblk :=
  if bt_used tag then <[bt_blkid tag := bt_dblk tag]> m else delete (bt_blkid tag) m.
Definition tag_ok (tag : blktag_view) : Prop := blkid_ok (bt_blkid tag) /\ 0 < db_blkno (bt_dblk tag).

Lemma sync_blk_meta_ok bt m tag : tables_ok bt m -> tag_ok tag ->
  exists bt', pfs_inode_sync_blk_meta bt tag = Some bt' /\ tables_ok bt' (tag_step m tag).
Proof.
  intros Hok [Hb Hp]. unfold pfs_inode_sync_blk_meta, tag_step. destruct (bt_used tag); simpl.
  - destruct (add_blk_ok bt m (bt_blkid tag) (bt_dblk tag) Hok Hb Hp) as (bt1 & p & bt' & -> & Hs & Hok').
    destruct (bt_dblk tag). by exists bt'.
  - by apply remove_blk_ok.
Qed.

Lemma realloc_nsoft bt n : in_blk_table_nsoft (pfs_inode_realloc_blk_table bt n) = in_blk_table_nsoft bt.
Proof. unfold pfs_inode_realloc_blk_table. by destruct (_ =? _). Qed.

(** Freeing a block adds no table. *)
Lemma remove_blk_nsoft bt blkid bt' : pfs_inode_remove_blk bt blkid = Some bt' -> in_blk_table_nsoft bt' <= in_blk_table_nsoft bt.
Proof.
  unfold pfs_inode_remove_blk. destruct (pfs_inode_blk_table_get bt blkid) as [[idx|]|]; [|by intros [= <-]|done].
  destruct (table_at bt idx) as [t|]; [|done]. destruct (table_nonnull t); simpl; [|by intros [= <-]].
  destruct (dblk_vect t) as [v|]; [|done]. destruct (v !! _) as [b|]; [|done].
  set (bt1 := if negb (pfs_dblk_empty b) then _ else bt).
  replace (in_blk_table_nsoft bt) with (in_blk_table_nsoft bt1) by (unfold bt1; by destruct (negb _)).
  clearbody bt1. unfold pfs_inode_tryremove_blk_table.
  destruct ((idx >=? 0) && (idx <? in_blk_table_nsoft bt1)) eqn:Eb; [|done]. apply andb_true_iff in Eb as [E1 E2].
  apply Z.geb_le in E1. apply Z.ltb_lt in E2. destruct (table_at bt1 idx) as [t1|]; [|done].
  destruct (dblk_cnt t1 =? 0); [|by intros [= <-]]. simpl.
  destruct (idx =? in_blk_table_nsoft bt1 - 1); intros [= <-]; [|done]. rewrite realloc_nsoft. simpl.
  destruct (last_table_spec (<[Z.to_nat idx := pfs_inode_blk_table_free_blkvec t1]> (in_blk_tables bt1)) (Z.to_nat idx)). lia.
Qed.

Lemma tables_above bt m blkid : tables_ok bt m -> 0 <= blkid -> in_blk_table_nsoft bt <= blkid / 16 -> m !! blkid = None.
Proof.
  intros Hok Hb Hs. rewrite (tk_map _ _ Hok _ Hb). unfold blk_lookup.
  destruct (in_blk_tables bt !! Z.to_nat (blkid / 16)) as [t|] eqn:E; simpl; [|done].
  by rewrite (tk_above _ _ Hok _ _ E) by (pose proof (Z.div_pos blkid 16); lia).
Qed.

Lemma sync_all_ok tags : forall bt m, tables_ok bt m -> Forall tag_ok tags ->
  exists bt', sync_all bt tags = Some bt' /\ tables_ok bt' (fold_left tag_step tags m).
Proof.
  induction tags as [|tag tags IH]; intros bt m Hok Ht; simpl; [by exists bt|]. apply Forall_cons in Ht as [Ht Hts].
  destruct (sync_blk_meta_ok bt m tag Hok Ht) as (bt1 & -> & Hok1). by apply IH.
Qed.

Lemma init_ok : tables_ok pfs_inode_init_blktable ∅.
Proof. by split. Qed.

Lemma create_ok blkcnt : 0 <= blkcnt ->
  exists bt, pfs_inode_create_blktable pfs_inode_init_blktable blkcnt = Some bt /\ tables_ok bt ∅.
Proof.
  intros Hc. unfold pfs_inode_create_blktable. simpl. eexists. split; [done|].
  set (bt := if _ >? _ then _ else _). set (bt' := set_nsoft 0 bt).
  assert (Hbt : in_blk_table_nhard bt' = Z.of_nat (length (in_blk_tables bt')) /\ 0 <= in_blk_table_nhard bt' /\
    forall i t, in_blk_tables bt' !! i = Some t -> t = null_table).
  { unfold bt', bt. destruct (Z.gtb_spec (blkcnt ÷ BLK_TABLE_BLK_CNT) 0) as [Hg|Hg]; simpl; [|done].
    unfold pfs_inode_realloc_blk_table. set (n := blkcnt ÷ BLK_TABLE_BLK_CNT) in *. clearbody n.
    set (e := if n >? 1 then _ else n). assert (He : 0 < e).
    { unfold e. destruct (Z.gtb_spec n 1); [|lia]. destruct (roundup_spec n INODE_BLK_TABLE_INC) as (? & _ & ? & _); [done|lia|done]. }
    cbn [in_blk_table_nhard pfs_inode_init_blktable in_blk_tables]. rewrite (proj2 (Z.eqb_neq 0 e)) by lia. simpl.
    rewrite take_nil, app_nil_l, length_replicate. split_and!; [lia|lia|].
    intros i t Hi. by apply lookup_replicate in Hi as [-> _]. }
  destruct Hbt as (Hh & Hpos & Hnull). fold bt'. split; try done.
  - apply Forall_lookup. intros i t ->%Hnull. done.
  - intros i t Hi _. by eapply Hnull.
  - intros blkid _. unfold blk_lookup. destruct (in_blk_tables bt' !! _) as [t|] eqn:E; simpl; [|done].
    by rewrite (Hnull _ _ E).
Qed.

(** C17: the block index of a file is a finite map.  An index created for any
    number of blocks and given any sequence of block tags, in use or freed,
    of file blocks below 2^35, reaches no assertion and no memory outside its
    tables, and [pfs_inode_map] answers every file block as the map that the
    tags define: the device block and the start of its hole, or zero.  The
    four-bit counter of a table wraps to zero with all sixteen blocks in use
    and the table is kept. *)
Theorem blktable_refines_map blkcnt tags : 0 <= blkcnt -> Forall tag_ok tags ->
  exists bt0 bt, pfs_inode_create_blktable pfs_inode_init_blktable blkcnt = Some bt0 /\ sync_all bt0 tags = Some bt /\
  forall blkid, blkid_ok blkid ->
    pfs_inode_map bt blkid = Some (match fold_left tag_step tags ∅ !! blkid with
      | Some b => (db_blkno b, if db_holelen b >? 0 then db_holeoff b else INT_MAX) | None => (0, 0) end).
Proof.
  intros Hc Ht. destruct (create_ok blkcnt Hc) as (bt0 & Hcr & Hok). destruct (sync_all_ok tags bt0 ∅ Hok Ht) as (bt & Hs & Hok').
  exists bt0, bt. split_and!; try done. intros blkid Hb. by apply map_ok.
Qed.

(** Seventeen blocks are mapped, then the second is freed. *)
Definition ex_tags : list blktag_view :=
  ((fun i => MkBt true (Z.of_nat i) (MkDblk (Z.of_nat i + 100) 0 0)) <$> seq 0 17) ++ [MkBt false 1 (MkDblk 101 0 0)].

Lemma blktable_refines_map_witness :
  exists bt0 bt, pfs_inode_create_blktable pfs_inode_init_blktable 40 = Some bt0 /\ sync_all bt0 ex_tags = Some bt /\
    pfs_inode_map bt 16 = Some (116, INT_MAX) /\ pfs_inode_map bt 1 = Some (0, 0).
Proof.
  destruct (blktable_refines_map 40 ex_tags) as (bt0 & bt & H1 & H2 & H3); [done| |].
  - unfold ex_tags. simpl. repeat (apply Forall_cons; split; [split; [split|]; reflexivity || (intros [=])|]). constructor.
  - exists bt0, bt. split_and!; [done|done| |]; rewrite H3 by (split; [intros [=]|reflexivity]); reflexivity.
Defined.

(** C26: the number of the table of a file block is stored in an [int]
    ([pfs_inode_blk_table_get]); for the blocks from 2^35 on, which the checks
    of pwrite and fallocate let through, it is negative, passes the test
    against the number of tables and the lookup reads memory before the
    array. *)
Theorem blkid_index_overflow bt blkid : 0 <= in_blk_table_nsoft bt -> 2 ^ 35 <= blkid < 2 ^ 36 ->
  pfs_inode_blk_table_get bt blkid = Some (Some (blkid / 16 - 2 ^ 32)) /\ blkid / 16 - 2 ^ 32 < 0 /\
  pfs_inode_map bt blkid = None.
Proof.
  intros Hs Hb.
  assert (Hd : 2 ^ 31 <= blkid / 16 < 2 ^ 32).
  { split; [apply Z.div_le_lower_bound|apply Z.div_lt_upper_bound]; lia. }
  assert (Hi : to_int (pfs_inode_blk_table_idx blkid) = blkid / 16 - 2 ^ 32).
  { unfold pfs_inode_blk_table_idx, to_int. change BLK_TABLE_BLK_CNT with 16. rewrite Z.quot_div_nonneg by lia.
    replace (blkid / 16 + 2 ^ 31) with (blkid / 16 - 2 ^ 31 + 1 * 2 ^ 32) by lia. rewrite Z.mod_add, Z.mod_small by lia. lia. }
  assert (Hg : pfs_inode_blk_table_get bt blkid = Some (Some (blkid / 16 - 2 ^ 32))).
  { unfold pfs_inode_blk_table_get. rewrite Hi, geb_true, geb_false by lia. done. }
  split_and!; [done|lia|]. unfold pfs_inode_map, pfs_inode_get_blk. rewrite Hg. unfold table_at.
  by rewrite (proj2 (Z.ltb_lt _ _)) by lia.
Qed.

Lemma blkid_index_overflow_witness : pfs_inode_map pfs_inode_init_blktable (2 ^ 57 / PFS_BLOCK_SIZE) = None.
Proof. apply (blkid_index_overflow pfs_inode_init_blktable (2 ^ 57 / PFS_BLOCK_SIZE)); [reflexivity|split; [intros [=]|reflexivity]]. Defined.
