(* ===== verification/NameCache.v ===== *)
(** * The name cache

    Model of pfs_namecache.cc: the entries a mount has looked up, reachable
    from one hash table by parent and name and from another one by directory
    entry number, on one least-recently-used list.  When the limit on the
    number of names has been raised, a thread moves the entries to larger
    tables one bucket at a time while the cache is used.

    Entries are addresses of the heap; an [LIST_ENTRY] chain is the list of
    the addresses on it.  Every function runs under [nch_lock], so that it is
    one step; the counters that only [pfs_namecache_stat] reads are left
    out. *)

From S2P Require Import Prelude.

Open Scope pfs_scope.

(** ** The hash of lib/fnv_hash.h *)
Definition FNV1_32_INIT : Z := 33554467.
Definition FNV_32_PRIME : Z := 16777619.

Fixpoint fnv_32_buf (buf : list Z) (hval : Z) : Z :=
  match buf with
  | [] => hval
  | s :: buf => fnv_32_buf buf (Z.lxor (wrap32 (hval * FNV_32_PRIME)) s)
  end.

(** ** Entries and tables *)
Definition SEARCH_DEPTH : Z := 4.
Definition DEFAULT_NC_SIZE : Z := 8192.
Definition NC_HARD_LIMIT : Z := 131072.

(** [nc_nlen] is the length of the name. *)
Record namecache := MkNc {
  nc_mnt : Z; nc_parent_ino : Z; nc_ino : Z; nc_deno : Z; nc_promoted : Z; nc_name : list Z }.
Definition set_promoted (now : Z) (e : namecache) : namecache :=
  MkNc (nc_mnt e) (nc_parent_ino e) (nc_ino e) (nc_deno e) now (nc_name e).

(** The options; they stay what they are. *)
Record ncopts := MkOpts { nc_max : Z; nc_enable : bool; nc_lru_window : Z; nc_max_bucket_len : Z }.

(** The two tables of one size. *)
Record hashtbl := MkTbl { nchashtbl : list (list Z); denohashtbl : list (list Z); nchash_sz : Z; nchash_mask : Z }.
Definition set_nchashtbl (v : list (list Z)) (t : hashtbl) : hashtbl := MkTbl v (denohashtbl t) (nchash_sz t) (nchash_mask t).
Definition set_denohashtbl (v : list (list Z)) (t : hashtbl) : hashtbl := MkTbl (nchashtbl t) v (nchash_sz t) (nchash_mask t).

(** [nc_expand]: [expand_info], which exists exactly while [nc_expanding]. *)
Record ncstate := MkCache {
  nc_heap : gmap Z namecache; nc_tbl : hashtbl; nc_expand : option (Z * hashtbl); nc_lru : list Z; numcache : Z }.
Definition set_heap (v : gmap Z namecache) (s : ncstate) : ncstate := MkCache v (nc_tbl s) (nc_expand s) (nc_lru s) (numcache s).
Definition set_lru (v : list Z) (s : ncstate) : ncstate := MkCache (nc_heap s) (nc_tbl s) (nc_expand s) v (numcache s).
Definition set_expand (v : option (Z * hashtbl)) (s : ncstate) : ncstate := MkCache (nc_heap s) (nc_tbl s) v (nc_lru s) (numcache s).

Section Cache.
Context (opts : ncopts).

Definition get_nc_max : Z := if nc_max opts <? NC_HARD_LIMIT then nc_max opts else NC_HARD_LIMIT.

(** The smallest power of two that is not below [elements]; a [u_long] is
    doubled 63 times at most before it is zero. *)
Fixpoint hash_init_loop (n : nat) (elements hashsize : Z) : option Z :=
  if hashsize <? elements then
    match n with O => None | S n => hash_init_loop n elements (wrap64 (Z.shiftl hashsize 1)) end
  else Some hashsize.
Definition hash_init (elements : Z) : option (Z * Z) :=
  let* hashsize := hash_init_loop 64 elements 1 in Some (hashsize, hashsize - 1).
Definition hash_alloc (hashsize : Z) : list (list Z) := replicate (Z.to_nat hashsize) [].

Definition pfs_nchinit : option ncstate :=
  let* p := hash_init DEFAULT_NC_SIZE in
  let '(sz, mask) := p in
  Some (MkCache ∅ (MkTbl (hash_alloc sz) (hash_alloc sz) sz mask) None [] 0).

Definition calc_hash (mnt ino : Z) (name : list Z) : Z :=
  fnv_32_buf (le_bytes 8 mnt) (fnv_32_buf (le_bytes 8 ino) (fnv_32_buf name FNV1_32_INIT)).
Definition calc_deno_hash (mnt deno : Z) : Z :=
  fnv_32_buf (le_bytes 8 mnt) (fnv_32_buf (le_bytes 8 deno) FNV1_32_INIT).

(** ** Buckets

    Where the entries of a hash are: in the larger table ([true]) when their
    bucket has been moved already.  [namehash] selects the table by name or
    the one by directory entry. *)
Definition get_hash_head (s : ncstate) (hash : Z) : bool * nat :=
  let idx := Z.land hash (nchash_mask (nc_tbl s)) in
  match nc_expand s with
  | Some (expand_bucket, e) =>
      if idx >=? expand_bucket then (false, Z.to_nat idx) else (true, Z.to_nat (Z.land hash (nchash_mask e)))
  | None => (false, Z.to_nat idx)
  end.

Definition tbl_of (namehash : bool) (t : hashtbl) : list (list Z) := if namehash then nchashtbl t else denohashtbl t.
Definition set_tbl (namehash : bool) (v : list (list Z)) (t : hashtbl) : hashtbl :=
  if namehash then set_nchashtbl v t else set_denohashtbl v t.

Definition bucket (namehash : bool) (s : ncstate) (hd : bool * nat) : option (list Z) :=
  match hd with
  | (false, i) => tbl_of namehash (nc_tbl s) !! i
  | (true, i) => let* e := nc_expand s in tbl_of namehash (snd e) !! i
  end.

(** [LIST_INSERT_HEAD] on the bucket. *)
Definition push (p : Z) (i : nat) (t : list (list Z)) : option (list (list Z)) :=
  let* l := t !! i in Some (<[i := p :: l]> t).
Definition list_insert_head (namehash : bool) (p : Z) (hd : bool * nat) (s : ncstate) : option ncstate :=
  match hd with
  | (false, i) =>
      let* t := push p i (tbl_of namehash (nc_tbl s)) in
      Some (MkCache (nc_heap s) (set_tbl namehash t (nc_tbl s)) (nc_expand s) (nc_lru s) (numcache s))
  | (true, i) =>
      let* e := nc_expand s in
      let* t := push p i (tbl_of namehash (snd e)) in
      Some (set_expand (Some (fst e, set_tbl namehash t (snd e))) s)
  end.

(** [LIST_REMOVE]: out of the chain it is on. *)
Definition unlink (p : Z) (t : list (list Z)) : list (list Z) := map (List.filter (fun q => negb (q =? p))) t.
Definition tbl_unlink (p : Z) (t : hashtbl) : hashtbl :=
  MkTbl (unlink p (nchashtbl t)) (unlink p (denohashtbl t)) (nchash_sz t) (nchash_mask t).

(** [remove_entry], after which its callers free the entry; so does
    [remove_entry_and_save] with [free_entry_list]. *)
Definition remove_entry (p : Z) (s : ncstate) : ncstate :=
  MkCache (delete p (nc_heap s)) (tbl_unlink p (nc_tbl s))
    (match nc_expand s with Some (b, e) => Some (b, tbl_unlink p e) | None => None end)
    (List.filter (fun q => negb (q =? p)) (nc_lru s)) (numcache s - 1).

(** The loop ends at the latest when the list is empty. *)
Fixpoint evict_loop (n : nat) (s : ncstate) : ncstate :=
  if numcache s >? get_nc_max then
    match n, last (nc_lru s) with
    | S n, Some p => evict_loop n (remove_entry p s)
    | _, _ => s
    end
  else s.
Definition evict_entries (s : ncstate) : ncstate := evict_loop (length (nc_lru s)) s.

(** The difference of two times is a signed 64-bit value. *)
Definition to_int64 (z : Z) : Z := (z + 2 ^ 63) mod 2 ^ 64 - 2 ^ 63.
Definition should_promote (now : Z) (e : namecache) : bool :=
  let diff := to_int64 (now - nc_promoted e) in (diff <? 0) || (diff >=? nc_lru_window opts).

Definition promote_entry (p now : Z) (s : ncstate) : option ncstate :=
  if bool_decide (head (nc_lru s) = Some p) then Some s
  else
    let* e := nc_heap s !! p in
    Some (MkCache (<[p := set_promoted now e]> (nc_heap s)) (nc_tbl s) (nc_expand s)
            (p :: List.filter (fun q => negb (q =? p)) (nc_lru s)) (numcache s)).

Definition should_rehash (s : ncstate) : bool :=
  (get_nc_max >? nchash_sz (nc_tbl s) * SEARCH_DEPTH) && match nc_expand s with None => true | Some _ => false end.

(** [mi], [mt], [md]: whether there is memory for the control block and the
    two tables; [hash_alloc] initialises its table without a test. *)
Definition rehash_namecache (mi mt md : bool) (s : ncstate) : option ncstate :=
  if negb (should_rehash s) then Some s
  else
    let n := (get_nc_max + SEARCH_DEPTH - 1) / SEARCH_DEPTH in
    let* p := hash_init n in
    let '(hsize, hmask) := p in
    if negb mi then Some s
    else
      PFS_ASSERT mt ;;
      PFS_ASSERT md ;;
      Some (set_expand (Some (0, MkTbl (hash_alloc hsize) (hash_alloc hsize) hsize hmask)) s).

(** ** Operations *)
Definition name_match (mnt parent_ino : Z) (name : list Z) (e : namecache) : bool :=
  (nc_mnt e =? mnt) && (nc_parent_ino e =? parent_ino) && bool_decide (nc_name e = name).
Definition deno_match (mnt deno : Z) (e : namecache) : bool := (nc_mnt e =? mnt) && (nc_deno e =? deno).

(** [LIST_FOREACH] with a break: the entry found and the entries visited. *)
Fixpoint list_find (f : namecache -> bool) (s : ncstate) (l : list Z) : option (option Z * Z) :=
  match l with
  | [] => Some (None, 0)
  | p :: l =>
      let* e := nc_heap s !! p in
      if f e then Some (Some p, 1) else let* r := list_find f s l in Some (fst r, snd r + 1)
  end.

Definition DOT : Z := 46.
(** Names that are not entered. *)
Definition no_entry (name : list Z) : bool :=
  bool_decide (name = []) || bool_decide (name = [DOT]) || bool_decide (name = [DOT; DOT]).

(** [ncp]: what [pfs_mem_malloc] returns for the entry, zero without memory. *)
Definition pfs_namecache_enter (mnt parent_ino child_ino : Z) (name : list Z) (deno now ncp : Z) (mi mt md : bool)
    (s : ncstate) : option ncstate :=
  if negb (nc_enable opts) then Some s
  else if no_entry name then Some s
  else if ncp =? 0 then Some s
  else
    let nhh := get_hash_head s (calc_hash mnt parent_ino name) in
    let dhh := get_hash_head s (calc_deno_hash mnt deno) in
    let* l := bucket true s nhh in
    let* r := list_find (name_match mnt parent_ino name) s l in
    match r with
    | (Some ncp2, _) =>
        let* e := nc_heap s !! ncp2 in
        PFS_ASSERT ((child_ino =? nc_ino e) && (deno =? nc_deno e)) ;;
        let* s := (if should_promote now e then promote_entry ncp2 now s else Some s) in
        rehash_namecache mi mt md s
    | (None, bucket_len) =>
        if bucket_len >=? nc_max_bucket_len opts then rehash_namecache mi mt md s
        else
          let s := set_heap (<[ncp := MkNc mnt parent_ino child_ino deno now name]> (nc_heap s)) s in
          let* s := list_insert_head true ncp nhh s in
          let* s := list_insert_head false ncp dhh s in
          let s := MkCache (nc_heap s) (nc_tbl s) (nc_expand s) (ncp :: nc_lru s) (numcache s + 1) in
          rehash_namecache mi mt md (evict_entries s)
    end.

Definition pfs_namecache_delete_by_deno (mnt deno : Z) (s : ncstate) : option ncstate :=
  let* l := bucket false s (get_hash_head s (calc_deno_hash mnt deno)) in
  let* r := list_find (deno_match mnt deno) s l in
  match fst r with
  | Some ncp => Some (remove_entry ncp s)
  | None => Some s
  end.

(** The inode number, or an error. *)
Definition pfs_namecache_lookup (mnt parent_ino : Z) (name : list Z) (now : Z) (s : ncstate)
  : option ((Z + Z) * ncstate) :=
  if negb (nc_enable opts) then Some (inr (- ENOENT), s)
  else if bool_decide (name = [DOT]) then Some (inl parent_ino, s)
  else
    let* l := bucket true s (get_hash_head s (calc_hash mnt parent_ino name)) in
    let* r := list_find (name_match mnt parent_ino name) s l in
    match fst r with
    | None => Some (inr (- ENOENT), s)
    | Some ncp =>
        let* e := nc_heap s !! ncp in
        let* s := (if should_promote now e then promote_entry ncp now s else Some s) in
        Some (inl (nc_ino e), s)
    end.

(** The entries of the mount in one bucket; [next] is read before the entry
    goes. *)
Fixpoint clear_bucket (mnt : Z) (l : list Z) (s : ncstate) : option ncstate :=
  match l with
  | [] => Some s
  | ncp :: l =>
      let* e := nc_heap s !! ncp in
      clear_bucket mnt l (if nc_mnt e =? mnt then remove_entry ncp s else s)
  end.
Fixpoint clear_loop (mnt : Z) (n i : nat) (s : ncstate) : option ncstate :=
  match n with
  | O => Some s
  | S n =>
      let* l := nchashtbl (nc_tbl s) !! i in
      let* s := clear_bucket mnt l s in
      clear_loop mnt n (S i) s
  end.
(** It waits until no expansion is in progress: [None] while one is. *)
Definition pfs_namecache_clear_mount (mnt : Z) (s : ncstate) : option ncstate :=
  match nc_expand s with
  | Some _ => None
  | None => clear_loop mnt (Z.to_nat (nchash_sz (nc_tbl s))) 0 s
  end.

(** ** The expansion *)
Definition tbl_empty (t : hashtbl) : bool :=
  forallb (fun l => bool_decide (l = [])) (nchashtbl t) && forallb (fun l => bool_decide (l = [])) (denohashtbl t).

Definition entry_hash (namehash : bool) (e : namecache) : Z :=
  if namehash then calc_hash (nc_mnt e) (nc_parent_ino e) (nc_name e) else calc_deno_hash (nc_mnt e) (nc_deno e).

(** The bucket [l] goes to the table [t], first entry first. *)
Fixpoint move_bucket (namehash : bool) (heap : gmap Z namecache) (l : list Z) (mask : Z) (t : list (list Z))
  : option (list (list Z)) :=
  match l with
  | [] => Some t
  | p :: l =>
      let* e := heap !! p in
      let* t := push p (Z.to_nat (Z.land (entry_hash namehash e) mask)) t in
      move_bucket namehash heap l mask t
  end.

(** One round of [maintenance_thread], with [hash_bulk_move = 1]. *)
Definition maintenance_round (s : ncstate) : option ncstate :=
  let* x := nc_expand s in
  let '(b, e) := x in
  let t := nc_tbl s in
  let* ln := nchashtbl t !! Z.to_nat b in
  let* nt := move_bucket true (nc_heap s) ln (nchash_mask e) (nchashtbl e) in
  let* ld := denohashtbl t !! Z.to_nat b in
  let* dt := move_bucket false (nc_heap s) ld (nchash_mask e) (denohashtbl e) in
  let t := MkTbl (<[Z.to_nat b := []]> (nchashtbl t)) (<[Z.to_nat b := []]> (denohashtbl t)) (nchash_sz t) (nchash_mask t) in
  let e := MkTbl nt dt (nchash_sz e) (nchash_mask e) in
  let b := b + 1 in
  if b =? nchash_sz t then
    PFS_ASSERT (tbl_empty t) ;;
    Some (MkCache (nc_heap s) e None (nc_lru s) (numcache s))
  else Some (MkCache (nc_heap s) t (Some (b, e)) (nc_lru s) (numcache s)).

(** No thread for the expansion: [free_expand_info]. *)
Definition expand_fail (s : ncstate) : option ncstate :=
  let* x := nc_expand s in
  PFS_ASSERT (tbl_empty (snd x)) ;;
  Some (set_expand None s).

End Cache.
