(* ===== verification/NameCacheInv.v ===== *)
(** * The invariant of the name cache

    Every entry is on exactly the chain its hash selects, in both tables and
    at every stage of an expansion, and once on the list of the recently used
    ones; no two entries have the same parent and name or the same directory
    entry. *)

From S2P Require Import Prelude NameCache.

Open Scope pfs_scope.
#[local] Opaque calc_hash calc_deno_hash.

(** ** Chains *)
Abbreviation keep p := (List.filter (fun q => negb (q =? p))).

Lemma elem_keep (p q : Z) l : q ∈ keep p l <-> q <> p /\ q ∈ l.
Proof.
  rewrite !list_elem_of_In, filter_In. split; intros [? ?]; bool_prop; split; auto.
  apply negb_true_iff. by apply Z.eqb_neq.
Qed.
Lemma nodup_keep (p : Z) l : NoDup l -> NoDup (keep p l).
Proof. rewrite !NoDup_ListNoDup. apply List.NoDup_filter. Qed.
Lemma keep_notin (p : Z) l : p ∉ l -> keep p l = l.
Proof.
  induction l as [|q l IH]; intros Hp; simpl; [done|]. apply not_elem_of_cons in Hp as [Hq Hl].
  rewrite (proj2 (Z.eqb_neq q p)) by congruence. simpl. by rewrite IH.
Qed.
Lemma length_keep (p : Z) l : NoDup l -> p ∈ l -> S (length (keep p l)) = length l.
Proof.
  induction l as [|q l IH]; intros Hnd Hp; [by apply elem_of_nil in Hp|]. apply NoDup_cons in Hnd as [Hq Hnd]. simpl.
  apply elem_of_cons in Hp as [<-|Hp].
  - rewrite Z.eqb_refl. simpl. by rewrite keep_notin.
  - rewrite (proj2 (Z.eqb_neq q p)) by congruence. simpl. rewrite IH; auto.
Qed.
Lemma unlink_lookup p t i : unlink p t !! i = keep p <$> t !! i.
Proof. unfold unlink. by rewrite <- list_lookup_fmap. Qed.

Definition place (s : ncstate) (nh : bool) (e : namecache) : bool * nat := get_hash_head s (entry_hash nh e).
Lemma hash_promoted nh now e : entry_hash nh (set_promoted now e) = entry_hash nh e.
Proof. by destruct nh. Qed.
Definition name_key (e : namecache) : Z * Z * list Z := (nc_mnt e, nc_parent_ino e, nc_name e).
Definition deno_key (e : namecache) : Z * Z := (nc_mnt e, nc_deno e).

Record tbl_ok (t : hashtbl) := {
  to_pos : 0 < nchash_sz t;
  to_mask : exists k, 0 <= k /\ nchash_sz t = 2 ^ k /\ nchash_mask t = 2 ^ k - 1;
  to_len : forall nh, length (tbl_of nh t) = Z.to_nat (nchash_sz t) }.

(** [b = nchash_sz] is the moment before the tables are exchanged. *)
Record nc_inv (s : ncstate) : Prop := {
  ni_lru_nodup : NoDup (nc_lru s);
  ni_lru : forall p, p ∈ nc_lru s <-> is_Some (nc_heap s !! p);
  ni_num : numcache s = Z.of_nat (length (nc_lru s));
  ni_tbl : tbl_ok (nc_tbl s);
  ni_exp : forall b e, nc_expand s = Some (b, e) -> tbl_ok e /\ 0 <= b <= nchash_sz (nc_tbl s);
  ni_nodup : forall nh hd l, bucket nh s hd = Some l -> NoDup l;
  ni_place : forall nh hd l p, bucket nh s hd = Some l -> p ∈ l ->
    exists e, nc_heap s !! p = Some e /\ place s nh e = hd;
  ni_in : forall nh p e, nc_heap s !! p = Some e ->
    exists l, bucket nh s (place s nh e) = Some l /\ p ∈ l;
  ni_name : forall p q e f, nc_heap s !! p = Some e -> nc_heap s !! q = Some f -> name_key e = name_key f -> p = q;
  ni_deno : forall p q e f, nc_heap s !! p = Some e -> nc_heap s !! q = Some f -> deno_key e = deno_key f -> p = q }.

Definition nc_ok (s : ncstate) : Prop :=
  nc_inv s /\ forall b e, nc_expand s = Some (b, e) -> b < nchash_sz (nc_tbl s).

Lemma tbl_of_set nh nh' v t : tbl_of nh' (set_tbl nh v t) = if eqb nh nh' then v else tbl_of nh' t.
Proof. by destruct nh, nh'. Qed.
Lemma tbl_ok_set nh v t : tbl_ok t -> length v = Z.to_nat (nchash_sz t) -> tbl_ok (set_tbl nh v t).
Proof.
  intros [? ? Hl] Hv. split; try (by destruct nh). intros nh'. rewrite tbl_of_set.
  destruct (eqb nh nh'); [by destruct nh|]. rewrite Hl. by destruct nh.
Qed.
Lemma tbl_ok_unlink p t : tbl_ok t -> tbl_ok (tbl_unlink p t).
Proof.
  intros [? ? Hl]. split; try done. intros nh. specialize (Hl nh). destruct nh; simpl in *; unfold unlink; by rewrite length_map.
Qed.

(** A hash falls inside the table. *)
Lemma idx_range t h : tbl_ok t -> 0 <= Z.land h (nchash_mask t) < nchash_sz t.
Proof.
  intros [? (k & Hk & -> & ->) _]. replace (2 ^ k - 1) with (Z.ones k) by (rewrite Z.ones_equiv; lia).
  rewrite Z.land_ones by lia. apply Z.mod_pos_bound. lia.
Qed.
Lemma bucket_ok nh t h : tbl_ok t -> is_Some (tbl_of nh t !! Z.to_nat (Z.land h (nchash_mask t))).
Proof.
  intros Ht. apply lookup_lt_is_Some. rewrite to_len by done. pose proof (idx_range t h Ht). lia.
Qed.
Lemma bucket_place s nh h : nc_inv s -> is_Some (bucket nh s (get_hash_head s h)).
Proof.
  intros Hs. unfold get_hash_head, bucket. destruct (nc_expand s) as [[b e]|] eqn:He.
  - destruct (_ >=? _); [by apply bucket_ok, ni_tbl|]. simpl. by apply bucket_ok, (ni_exp _ Hs b e).
  - by apply bucket_ok, ni_tbl.
Qed.

(** ** Searching a chain *)
Lemma list_find_ok f s l : (forall p, p ∈ l -> is_Some (nc_heap s !! p)) ->
  exists r n, list_find f s l = Some (r, n) /\ 0 <= n <= Z.of_nat (length l) /\
    match r with
    | Some p => p ∈ l /\ exists e, nc_heap s !! p = Some e /\ f e = true
    | None => n = Z.of_nat (length l) /\ forall p e, p ∈ l -> nc_heap s !! p = Some e -> f e = false
    end.
Proof.
  induction l as [|p l IH]; intros Hl; simpl.
  - exists None, 0. split_and!; [done|lia|lia|done|]. intros p e Hp. by apply elem_of_nil in Hp.
  - destruct (Hl p) as [e He]; [left|]. rewrite He. destruct (f e) eqn:Hf.
    + exists (Some p), 1. split_and!; [done|lia|lia|left|by exists e].
    + destruct IH as (r & n & -> & Hn & Hr); [intros q Hq; apply Hl; by right|].
      exists r, (n + 1). simpl. split_and!; [done|lia|lia|]. destruct r as [q|].
      * destruct Hr as [Hq Hr]. split; [by right|done].
      * destruct Hr as [-> Hr]. split; [lia|]. intros q e' Hq Hq'.
        apply elem_of_cons in Hq as [->|Hq]; [by simplify_eq|eauto].
Qed.

Lemma name_match_key mnt par name e : name_match mnt par name e = true <-> name_key e = (mnt, par, name).
Proof.
  unfold name_match, name_key. split.
  - intros H. bool_prop. by subst.
  - intros [= -> -> ->]. by rewrite !Z.eqb_refl, bool_decide_true.
Qed.
Lemma deno_match_key mnt deno e : deno_match mnt deno e = true <-> deno_key e = (mnt, deno).
Proof.
  unfold deno_match, deno_key. split.
  - intros H. bool_prop. by subst.
  - intros [= -> ->]. by rewrite !Z.eqb_refl.
Qed.
Lemma entry_hash_name e mnt par name : name_key e = (mnt, par, name) -> entry_hash true e = calc_hash mnt par name.
Proof. by intros [= <- <- <-]. Qed.
Lemma entry_hash_deno e mnt deno : deno_key e = (mnt, deno) -> entry_hash false e = calc_deno_hash mnt deno.
Proof. by intros [= <- <-]. Qed.

(** The chain of a key holds the entry of the key, when there is one. *)
Lemma find_chain (nh : bool) (f : namecache -> bool) h s :
  nc_inv s -> (forall e, f e = true -> entry_hash nh e = h) ->
  exists l r n, bucket nh s (get_hash_head s h) = Some l /\ list_find f s l = Some (r, n) /\ 
    match r with
    | Some p => exists e, nc_heap s !! p = Some e /\ f e = true
    | None => n <= numcache s /\ forall p e, nc_heap s !! p = Some e -> f e = false
    end.
Proof.
  intros Hs Hf. destruct (bucket_place s nh h Hs) as [l Hl].
  destruct (list_find_ok f s l) as (r & n & Hr & Hn & Hm).
  { intros p Hp. destruct (ni_place _ Hs nh _ _ _ Hl Hp) as (e & -> & _). by eexists. }
  exists l, r, n. split_and!; [done..|]. destruct r as [p|]; [naive_solver|]. destruct Hm as [-> Hm]. split.
  - rewrite (ni_num _ Hs). apply inj_le, submseteq_length, NoDup_submseteq.
    + by apply (ni_nodup _ Hs nh _ _ Hl).
    + intros p Hp. apply (ni_lru _ Hs). destruct (ni_place _ Hs nh _ _ _ Hl Hp) as (e & -> & _). by eexists.
  - intros p e He. destruct (f e) eqn:Hfe; [|done]. destruct (ni_in _ Hs nh p e He) as (l' & Hl' & Hp).
    unfold place in Hl'. rewrite (Hf _ Hfe) in Hl'. simplify_eq. specialize (Hm p e Hp He). congruence.
Qed.

(** ** Changing the chains

    What decides where a hash is. *)
Definition shape (s : ncstate) : Z * Z * option (Z * Z) :=
  (nchash_sz (nc_tbl s), nchash_mask (nc_tbl s),
   match nc_expand s with Some (b, e) => Some (b, nchash_mask e) | None => None end).
Lemma shape_head s s' h : shape s = shape s' -> get_hash_head s h = get_hash_head s' h.
Proof.
  unfold shape, get_hash_head. intros [= _ -> H]. destruct (nc_expand s) as [[b e]|], (nc_expand s') as [[b' e']|]; try done.
  by injection H as -> ->.
Qed.

Definition exp_ok (s : ncstate) : Prop :=
  tbl_ok (nc_tbl s) /\ forall b e, nc_expand s = Some (b, e) -> tbl_ok e /\ 0 <= b <= nchash_sz (nc_tbl s).

Lemma inv_exp_ok s : nc_inv s -> exp_ok s.
Proof. split; [by apply ni_tbl|by apply ni_exp]. Qed.

Lemma remove_bucket p s nh hd : bucket nh (remove_entry p s) hd = keep p <$> bucket nh s hd.
Proof.
  destruct hd as [[] i]; simpl; [|destruct nh; apply unlink_lookup].
  destruct (nc_expand s) as [[b e]|]; [|done]. destruct nh; apply unlink_lookup.
Qed.
Lemma remove_shape p s : shape (remove_entry p s) = shape s.
Proof. unfold shape, remove_entry. simpl. by destruct (nc_expand s) as [[b e]|]. Qed.
Lemma remove_exp_ok p s : exp_ok s -> exp_ok (remove_entry p s).
Proof.
  intros [Ht He]. split; [by apply tbl_ok_unlink|]. simpl. intros b e H.
  destruct (nc_expand s) as [[b' e']|]; simplify_eq. destruct (He b e') as [? ?]; [done|]. split; [by apply tbl_ok_unlink|done].
Qed.

Lemma insert_bucket nh p hd s l : bucket nh s hd = Some l -> exp_ok s ->
  exists s', list_insert_head nh p hd s = Some s' /\ shape s' = shape s /\ exp_ok s' /\
    nc_heap s' = nc_heap s /\ nc_lru s' = nc_lru s /\ numcache s' = numcache s /\
    forall nh' hd', bucket nh' s' hd' =
      if bool_decide (nh' = nh /\ hd' = hd) then Some (p :: l) else bucket nh' s hd'.
Proof.
  intros Hl [Ht He]. destruct hd as [[] i]; simpl in *.
  - destruct (nc_expand s) as [[b e]|] eqn:Hx; [|done]. simpl in *. unfold push. rewrite Hl. eexists. split; [done|].
    destruct (He b e) as [Hte Hb]; [done|]. split_and!; try done.
    + unfold shape. simpl. rewrite Hx. by destruct nh.
    + split; [done|]. simpl. intros b' e' [= <- <-]. split; [|done].
      apply tbl_ok_set; [done|]. rewrite length_insert. by apply to_len.
    + intros nh' [[] j]; simpl.
      * rewrite tbl_of_set. destruct (decide (nh' = nh)) as [->|Hn].
        -- rewrite eqb_reflx, Hx. simpl. destruct (decide (j = i)) as [->|Hj].
           ++ rewrite bool_decide_true by done. rewrite list_lookup_insert_eq; [done|by eapply lookup_lt_Some].
           ++ rewrite bool_decide_false by naive_solver. by rewrite list_lookup_insert_ne.
        -- rewrite (proj2 (eqb_false_iff nh nh')) by congruence. rewrite bool_decide_false by naive_solver. by rewrite Hx.
      * by rewrite bool_decide_false by naive_solver.
  - unfold push. rewrite Hl. eexists. split; [done|]. split_and!; try done.
    + unfold shape. simpl. by destruct nh.
    + split; simpl; [apply tbl_ok_set; [done|]; rewrite length_insert; by apply to_len|].
      intros b e Hx. destruct (He b e Hx). split; [done|by destruct nh].
    + intros nh' [[] j]; simpl; [by rewrite bool_decide_false by naive_solver|].
      rewrite tbl_of_set. destruct (decide (nh' = nh)) as [->|Hn].
      * rewrite eqb_reflx. destruct (decide (j = i)) as [->|Hj].
        -- rewrite bool_decide_true by done. rewrite list_lookup_insert_eq; [done|by eapply lookup_lt_Some].
        -- rewrite bool_decide_false by naive_solver. by rewrite list_lookup_insert_ne.
      * rewrite (proj2 (eqb_false_iff nh nh')) by congruence. by rewrite bool_decide_false by naive_solver.
Qed.

(** ** The operations keep the invariant *)
Lemma remove_inv p s : nc_inv s -> p ∈ nc_lru s -> nc_inv (remove_entry p s).
Proof.
  intros Hs Hp. destruct (remove_exp_ok p s) as [Ht He]; [by apply inv_exp_ok|].
  assert (Hpl : forall nh e, place (remove_entry p s) nh e = place s nh e) by (intros; apply shape_head, remove_shape).
  split; try done.
  - simpl. apply nodup_keep. by apply ni_lru_nodup.
  - simpl. intros q. rewrite elem_keep, (ni_lru _ Hs), lookup_delete_is_Some. naive_solver.
  - simpl. rewrite (ni_num _ Hs). pose proof (length_keep p (nc_lru s) (ni_lru_nodup _ Hs) Hp). lia.
  - intros nh hd l H. rewrite remove_bucket in H. destruct (bucket nh s hd) eqn:Hb; simplify_eq/=.
    apply nodup_keep. by apply (ni_nodup _ Hs nh hd).
  - intros nh hd l q H Hq. rewrite remove_bucket in H. destruct (bucket nh s hd) as [l'|] eqn:Hb; simplify_eq/=.
    apply elem_keep in Hq as [Hqp Hq]. destruct (ni_place _ Hs nh hd l' q Hb Hq) as (e & He' & Hh).
    exists e. rewrite lookup_delete_ne by done. by rewrite Hpl.
  - simpl. intros nh q e [Hqp Hq]%lookup_delete_Some. destruct (ni_in _ Hs nh q e Hq) as (l & Hl & Hin).
    rewrite Hpl, remove_bucket, Hl. exists (keep p l). split; [done|]. by apply elem_keep.
  - simpl. intros q r e f [_ Hq]%lookup_delete_Some [_ Hr]%lookup_delete_Some. by apply (ni_name _ Hs q r e f).
  - simpl. intros q r e f [_ Hq]%lookup_delete_Some [_ Hr]%lookup_delete_Some. by apply (ni_deno _ Hs q r e f).
Qed.

(** A new entry on both of its chains. *)
Definition linked_new (p : Z) (e : namecache) (s s' : ncstate) : Prop :=
  shape s' = shape s /\ exp_ok s' /\ nc_heap s' = <[p := e]> (nc_heap s) /\
  nc_lru s' = p :: nc_lru s /\ numcache s' = numcache s + 1 /\
  forall nh hd, bucket nh s' hd =
    if bool_decide (hd = place s nh e) then (cons p) <$> bucket nh s hd else bucket nh s hd.

Lemma insert_both p e s : nc_inv s ->
  exists s', (let* s1 := list_insert_head true p (place s true e) (set_heap (<[p := e]> (nc_heap s)) s) in
              list_insert_head false p (place s false e) s1) = Some s' /\
    linked_new p e s (MkCache (nc_heap s') (nc_tbl s') (nc_expand s') (p :: nc_lru s') (numcache s' + 1)).
Proof.
  intros Hs. set (s0 := set_heap (<[p := e]> (nc_heap s)) s).
  assert (Hb : forall nh hd, bucket nh s0 hd = bucket nh s hd) by (by intros nh [[] i]).
  destruct (bucket_place s true (entry_hash true e) Hs) as [l1 Hl1].
  destruct (bucket_place s false (entry_hash false e) Hs) as [l2 Hl2].
  destruct (insert_bucket true p (place s true e) s0 l1) as (s1 & -> & Hsh1 & Hex1 & Hh1 & Hr1 & Hn1 & Hb1); [by rewrite Hb|exact (inv_exp_ok s Hs)|].
  destruct (insert_bucket false p (place s false e) s1 l2) as (s2 & -> & Hsh2 & Hex2 & Hh2 & Hr2 & Hn2 & Hb2).
  { rewrite Hb1, bool_decide_false by naive_solver. by rewrite Hb. }
  { done. }
  exists s2. split; [done|]. split_and!; simpl.
  - transitivity (shape s2); [done|]. by rewrite Hsh2, Hsh1.
  - done.
  - by rewrite Hh2, Hh1.
  - by rewrite Hr2, Hr1.
  - by rewrite Hn2, Hn1.
  - intros nh hd. transitivity (bucket nh s2 hd); [by destruct hd as [[] i]|]. rewrite Hb2, Hb1, Hb.
    destruct nh.
    + rewrite bool_decide_false by naive_solver. destruct (decide (hd = place s true e)) as [->|Hn].
      * rewrite !bool_decide_true by done. unfold place. by rewrite Hl1.
      * by rewrite !bool_decide_false by naive_solver.
    + destruct (decide (hd = place s false e)) as [->|Hn].
      * rewrite !bool_decide_true by done. unfold place. by rewrite Hl2.
      * by rewrite !bool_decide_false by naive_solver.
Qed.

Lemma linked_new_inv p e s s' : nc_inv s -> linked_new p e s s' -> nc_heap s !! p = None ->
  (forall q f, nc_heap s !! q = Some f -> name_key f <> name_key e /\ deno_key f <> deno_key e) -> nc_inv s'.
Proof.
  intros Hs (Hsh & [Ht He] & Hh & Hr & Hn & Hb) Hp Hk.
  assert (Hpl : forall nh f, place s' nh f = place s nh f) by (intros; by apply shape_head).
  assert (Hnp : p ∉ nc_lru s) by (rewrite (ni_lru _ Hs), Hp; by intros [? ?]).
  assert (Hfresh : forall nh hd l, bucket nh s hd = Some l -> p ∉ l).
  { intros nh hd l Hl Hin. destruct (ni_place _ Hs nh hd l p Hl Hin) as (? & ? & _). congruence. }
  split; try done.
  - rewrite Hr. apply NoDup_cons. split; [done|by apply ni_lru_nodup].
  - intros q. rewrite Hr, Hh, elem_of_cons, lookup_insert_is_Some, (ni_lru _ Hs).
    destruct (decide (q = p)); naive_solver.
  - rewrite Hn, Hr, (ni_num _ Hs). simpl. lia.
  - intros nh hd l Hl. rewrite Hb in Hl. case_bool_decide; [|by apply (ni_nodup _ Hs nh hd)].
    destruct (bucket nh s hd) as [l'|] eqn:Hl'; simplify_eq/=. apply NoDup_cons.
    split; [by eapply Hfresh|by eapply ni_nodup].
  - intros nh hd l q Hl Hq. rewrite Hb in Hl. rewrite Hh. case_bool_decide as Hd.
    + destruct (bucket nh s hd) as [l'|] eqn:Hl'; simplify_eq/=. apply elem_of_cons in Hq as [->|Hq].
      * exists e. rewrite lookup_insert_eq. by rewrite Hpl.
      * destruct (ni_place _ Hs nh _ l' q Hl' Hq) as (f & Hf & <-). exists f.
        rewrite lookup_insert_ne by congruence. by rewrite Hpl.
    + destruct (ni_place _ Hs nh _ l q Hl Hq) as (f & Hf & <-). exists f.
      rewrite lookup_insert_ne by congruence. by rewrite Hpl.
  - intros nh q f. rewrite Hh. intros [[-> ->]|[Hqp Hq]]%lookup_insert_Some.
    + rewrite Hpl, Hb, bool_decide_true by done. destruct (bucket_place s nh (entry_hash nh f) Hs) as [l Hl].
      exists (q :: l). unfold place. rewrite Hl. split; [done|left].
    + destruct (ni_in _ Hs nh q f Hq) as (l & Hl & Hin). rewrite Hpl, Hb, Hl.
      case_bool_decide; [exists (p :: l); split; [done|by right]|by exists l].
  - intros q r f g. rewrite Hh. intros [[<- <-]|[Hq1 Hq]]%lookup_insert_Some [[<- <-]|[Hr1 Hr']]%lookup_insert_Some Hkey;
      [done|destruct (Hk _ _ Hr'); congruence|destruct (Hk _ _ Hq); congruence|by apply (ni_name _ Hs q r f g)].
  - intros q r f g. rewrite Hh. intros [[<- <-]|[Hq1 Hq]]%lookup_insert_Some [[<- <-]|[Hr1 Hr']]%lookup_insert_Some Hkey;
      [done|destruct (Hk _ _ Hr'); congruence|destruct (Hk _ _ Hq); congruence|by apply (ni_deno _ Hs q r f g)].
Qed.

(** Marking an entry as used recently. *)
Lemma promote_inv p now e s : nc_inv s -> nc_heap s !! p = Some e ->
  exists s', promote_entry p now s = Some s' /\ nc_inv s' /\ nc_expand s' = nc_expand s /\ nc_tbl s' = nc_tbl s /\
    ((head (nc_lru s) = Some p /\ s' = s) \/
     (head (nc_lru s) <> Some p /\ nc_heap s' = <[p := set_promoted now e]> (nc_heap s) /\ nc_lru s' = p :: keep p (nc_lru s))).
Proof.
  intros Hs He. unfold promote_entry. case_bool_decide as Hh; [exists s; split_and!; auto|]. rewrite He.
  eexists. split; [done|]. split_and!; [|done|done|right; done].
  assert (Hp : p ∈ nc_lru s) by (apply (ni_lru _ Hs); by eexists).
  assert (Hhp : forall q f, <[p := set_promoted now e]> (nc_heap s) !! q = Some f ->
    exists g, nc_heap s !! q = Some g /\ (forall nh, entry_hash nh g = entry_hash nh f) /\
      name_key g = name_key f /\ deno_key g = deno_key f).
  { intros q f [[<- <-]|[_ Hq]]%lookup_insert_Some; [exists e|exists f]; split_and!; try done; intros; by rewrite hash_promoted. }
  split; try done.
  - simpl. apply NoDup_cons. split; [by intros [? _]%elem_keep|by apply nodup_keep, ni_lru_nodup].
  - simpl. intros q. rewrite elem_of_cons, elem_keep, lookup_insert_is_Some, (ni_lru _ Hs).
    destruct (decide (q = p)); naive_solver.
  - simpl. rewrite (ni_num _ Hs). by rewrite (length_keep p _ (ni_lru_nodup _ Hs) Hp).
  - exact (ni_tbl _ Hs).
  - exact (ni_exp _ Hs).
  - intros nh hd l Hl. apply (ni_nodup _ Hs nh hd). by destruct hd as [[] ?].
  - intros nh hd l q Hl Hq. destruct (ni_place _ Hs nh hd l q) as (f & Hf & <-); [by destruct hd as [[] ?]|done|].
    simpl. destruct (decide (q = p)) as [->|Hne]; [|exists f; by rewrite lookup_insert_ne].
    simplify_eq. exists (set_promoted now e). rewrite lookup_insert_eq. split; [done|]. unfold place. by rewrite hash_promoted.
  - simpl. intros nh q f Hq. destruct (Hhp q f Hq) as (g & Hg & Hen & _). destruct (ni_in _ Hs nh q g Hg) as (l & Hl & Hin).
    exists l. split; [|done]. revert Hl. unfold place. rewrite Hen. by destruct (get_hash_head _ _) as [[] ?] eqn:E.
  - simpl. intros q r f g Hq Hr Hk. destruct (Hhp _ _ Hq) as (f' & Hf' & _ & Hf & _).
    destruct (Hhp _ _ Hr) as (g' & Hg' & _ & Hg & _). apply (ni_name _ Hs q r f' g' Hf' Hg'). congruence.
  - simpl. intros q r f g Hq Hr Hk. destruct (Hhp _ _ Hq) as (f' & Hf' & _ & _ & Hf).
    destruct (Hhp _ _ Hr) as (g' & Hg' & _ & _ & Hg). apply (ni_deno _ Hs q r f' g' Hf' Hg'). congruence.
Qed.

(** ** The expansion *)
Lemma hash_init_loop_ok n elements k : 0 <= k <= 63 -> 63 <= k + Z.of_nat n -> elements <= 2 ^ 63 ->
  exists j, k <= j <= 63 /\ hash_init_loop n elements (2 ^ k) = Some (2 ^ j) /\ elements <= 2 ^ j.
Proof.
  revert k. induction n as [|n IH]; intros k Hk Hn He; simpl; destruct (2 ^ k <? elements) eqn:Hl; bool_prop.
  - assert (k = 63) by lia. subst. lia.
  - exists k. auto with lia.
  - destruct (Z.eq_dec k 63) as [->|Hk']; [lia|].
    rewrite Z.shiftl_mul_pow2, <- Z.pow_add_r, wrap64_small by lia || (unfold is_u64; split; [lia|apply Z.pow_lt_mono_r; lia]).
    destruct (IH (k + 1)) as (j & Hj & -> & ?); [lia..|]. exists j. auto with lia.
  - exists k. auto with lia.
Qed.
Lemma hash_init_ok elements : elements <= 2 ^ 63 ->
  exists k, 0 <= k <= 63 /\ hash_init elements = Some (2 ^ k, 2 ^ k - 1) /\ elements <= 2 ^ k.
Proof.
  intros He. destruct (hash_init_loop_ok 64 elements 0) as (j & Hj & Hi & ?); [lia..|].
  exists j. unfold hash_init. change 1 with (2 ^ 0). rewrite Hi. auto.
Qed.
Lemma hash_alloc_ok k : 0 <= k -> tbl_ok (MkTbl (hash_alloc (2 ^ k)) (hash_alloc (2 ^ k)) (2 ^ k) (2 ^ k - 1)).
Proof. intros Hk. split; simpl; [lia|exists k; auto|]. intros []; apply length_replicate. Qed.
Lemma hash_alloc_empty n i l : hash_alloc n !! i = Some l -> l = [].
Proof. unfold hash_alloc. by intros [-> _]%lookup_replicate. Qed.

Lemma rehash_ok opts mi mt md s : nc_ok s -> mt = true -> md = true ->
  exists s', rehash_namecache opts mi mt md s = Some s' /\ nc_ok s' /\ nc_heap s' = nc_heap s /\ nc_lru s' = nc_lru s.
Proof.
  intros Hok -> ->. pose proof Hok as [Hs Hb]. unfold rehash_namecache. destruct (should_rehash opts s) eqn:Hr; simpl; [|by exists s].
  unfold should_rehash in Hr. bool_prop. destruct (nc_expand s) eqn:Hx; [done|].
  assert (Hm : get_nc_max opts <= NC_HARD_LIMIT) by (unfold get_nc_max; destruct (_ <? _) eqn:?; bool_prop; lia).
  destruct (hash_init_ok ((get_nc_max opts + SEARCH_DEPTH - 1) / SEARCH_DEPTH)) as (k & Hk & -> & _).
  { unfold SEARCH_DEPTH, NC_HARD_LIMIT in *. apply (Z.le_trans _ ((131072 + 4 - 1) / 4)); [apply Z.div_le_mono; lia|done]. }
  destruct mi; simpl; [|by exists s]. eexists. split; [done|]. split; [|done].
  pose proof (to_pos _ (ni_tbl _ Hs)). split; [|simpl; intros b e [= <- <-]; done].
  assert (Hpl : forall nh e, place (set_expand (Some (0, MkTbl (hash_alloc (2 ^ k)) (hash_alloc (2 ^ k)) (2 ^ k) (2 ^ k - 1))) s) nh e
    = place s nh e).
  { intros nh e. unfold place, get_hash_head. simpl. rewrite Hx.
    pose proof (idx_range _ (entry_hash nh e) (ni_tbl _ Hs)). by rewrite (proj2 (Z.geb_le _ _)) by lia. }
  assert (Hbk : forall nh hd l, bucket nh (set_expand (Some (0, MkTbl (hash_alloc (2 ^ k)) (hash_alloc (2 ^ k)) (2 ^ k) (2 ^ k - 1))) s) hd
    = Some l -> bucket nh s hd = Some l \/ l = []).
  { intros nh [[] i] l; simpl; [|by left]. right. destruct nh; by eapply hash_alloc_empty. }
  split; try apply Hs.
  - simpl. intros b e [= <- <-]. split; [apply hash_alloc_ok; lia|lia].
  - intros nh hd l Hl. destruct (Hbk _ _ _ Hl) as [Hl'| ->]; [by eapply ni_nodup|constructor].
  - intros nh hd l p Hl Hp. destruct (Hbk _ _ _ Hl) as [Hl'| ->]; [|by apply elem_of_nil in Hp].
    destruct (ni_place _ Hs nh hd l p Hl' Hp) as (e & ? & <-). exists e. by rewrite Hpl.
  - simpl. intros nh p e He. rewrite Hpl. destruct (ni_in _ Hs nh p e He) as (l & Hl & Hp). exists l.
    split; [|done]. revert Hl. unfold place, get_hash_head. rewrite Hx. done.
Qed.

(** Without a thread nothing has been moved. *)
Lemma expand_fail_ok s e : nc_ok s -> nc_expand s = Some (0, e) ->
  exists s', expand_fail s = Some s' /\ nc_ok s' /\ nc_heap s' = nc_heap s /\ nc_lru s' = nc_lru s.
Proof.
  intros [Hs _] Hx. unfold expand_fail. rewrite Hx. simpl.
  assert (Hpl : forall nh f, exists i, place s nh f = (false, i) /\ place (set_expand None s) nh f = (false, i)).
  { intros nh f. unfold place, get_hash_head. rewrite Hx. simpl.
    pose proof (idx_range _ (entry_hash nh f) (ni_tbl _ Hs)). rewrite (proj2 (Z.geb_le _ _)) by lia. by eexists. }
  assert (He : forall nh l, l ∈ tbl_of nh e -> l = []).
  { intros nh l [i Hi]%list_elem_of_lookup. destruct l as [|p l]; [done|].
    destruct (ni_place _ Hs nh (true, i) (p :: l) p) as (f & _ & Hf); [simpl; by rewrite Hx|left|].
    destruct (Hpl nh f) as (j & ? & _). congruence. }
  assert (Hem : tbl_empty e = true).
  { unfold tbl_empty. apply andb_true_iff. split; apply forallb_forall; intros l Hl; apply bool_decide_eq_true.
    - by apply (He true), list_elem_of_In.
    - by apply (He false), list_elem_of_In. }
  rewrite Hem. eexists. split; [done|]. split; [|done]. split; [|done]. split; try apply Hs; try done.
  - intros nh [[] i] l Hl; [done|]. by apply (ni_nodup _ Hs nh (false, i)).
  - intros nh [[] i] l p Hl Hp; [done|]. destruct (ni_place _ Hs nh (false, i) l p Hl Hp) as (f & Hf & Hpf).
    exists f. split; [done|]. destruct (Hpl nh f) as (j & ? & ->). congruence.
  - intros nh p f Hf. destruct (ni_in _ Hs nh p f Hf) as (l & Hl & Hp). exists l. split; [|done].
    destruct (Hpl nh f) as (j & Hj & ->). by rewrite Hj in Hl.
Qed.

(** The entries of [l] whose bucket is [i] in a table with this mask. *)
Definition goes (nh : bool) (heap : gmap Z namecache) (mask : Z) (i : nat) (p : Z) : bool :=
  match heap !! p with Some e => bool_decide (Z.to_nat (Z.land (entry_hash nh e) mask) = i) | None => false end.

Lemma move_bucket_ok nh heap mask sz l t :
  (forall p, p ∈ l -> exists e, heap !! p = Some e /\ 0 <= Z.land (entry_hash nh e) mask < sz) ->
  length t = Z.to_nat sz ->
  exists t', move_bucket nh heap l mask t = Some t' /\ length t' = length t /\
    forall i, t' !! i = (fun x => rev (List.filter (goes nh heap mask i) l) ++ x) <$> t !! i.
Proof.
  revert t. induction l as [|p l IH]; intros t Hl Ht; simpl.
  - exists t. split_and!; try done. intros i. by destruct (t !! i).
  - destruct (Hl p) as (e & He & Hr); [left|]. rewrite He. unfold push.
    set (j := Z.to_nat (Z.land (entry_hash nh e) mask)).
    destruct (lookup_lt_is_Some_2 t j) as [x Hx]; [lia|]. rewrite Hx.
    destruct (IH (<[j := p :: x]> t)) as (t' & -> & Hlen & Ht').
    { intros q Hq. apply Hl. by right. }
    { by rewrite length_insert. }
    exists t'. split_and!; [done|by rewrite Hlen, length_insert|]. intros i. rewrite Ht'.
    assert (Hg : goes nh heap mask i p = bool_decide (j = i)) by (unfold goes; by rewrite He).
    rewrite Hg. case_bool_decide as Hj.
    + subst i. rewrite Hx, list_lookup_insert_eq by (by eapply lookup_lt_Some). simpl. f_equal. by rewrite <- (assoc_L (++)).
    + by rewrite list_lookup_insert_ne.
Qed.

Lemma elem_moved (g : Z -> bool) (p : Z) l x : p ∈ rev (List.filter g l) ++ x <-> (p ∈ l /\ g p = true) \/ p ∈ x.
Proof. by rewrite elem_of_app, !list_elem_of_In, <- in_rev, filter_In. Qed.

Lemma nodup_moved (g : Z -> bool) l x : NoDup l -> NoDup x -> (forall p, p ∈ l -> p ∉ x) -> NoDup (rev (List.filter g l) ++ x).
Proof.
  intros Hl Hx Hd. apply NoDup_app. split_and!; [|intros p [Hp _]%list_elem_of_In%in_rev%filter_In; apply Hd; by apply list_elem_of_In|done].
  apply NoDup_ListNoDup, NoDup_rev, List.NoDup_filter. by apply NoDup_ListNoDup.
Qed.

(** *** A round before the exchange of the tables *)
Section Round.
Context (s : ncstate) (b : Z) (e : hashtbl).
Hypothesis Hs : nc_inv s.
Hypothesis Hx : nc_expand s = Some (b, e).
Hypothesis Hb : b < nchash_sz (nc_tbl s).

Definition moved_tbl (nh : bool) : list (list Z) := <[Z.to_nat b := []]> (tbl_of nh (nc_tbl s)).
Definition moved (nt dt : list (list Z)) : ncstate :=
  MkCache (nc_heap s) (MkTbl (moved_tbl true) (moved_tbl false) (nchash_sz (nc_tbl s)) (nchash_mask (nc_tbl s)))
    (Some (b + 1, MkTbl nt dt (nchash_sz e) (nchash_mask e))) (nc_lru s) (numcache s).

Lemma round_bounds : 0 <= b /\ tbl_ok e.
Proof. destruct (ni_exp _ Hs b e Hx). by split; [lia|]. Qed.

Lemma round_chain nh : exists l t, tbl_of nh (nc_tbl s) !! Z.to_nat b = Some l /\
  move_bucket nh (nc_heap s) l (nchash_mask e) (tbl_of nh e) = Some t /\ length t = length (tbl_of nh e) /\
  forall i, t !! i = (fun x => rev (List.filter (goes nh (nc_heap s) (nchash_mask e) i) l) ++ x) <$> tbl_of nh e !! i.
Proof.
  destruct round_bounds as [Hb0 He]. destruct (lookup_lt_is_Some_2 (tbl_of nh (nc_tbl s)) (Z.to_nat b)) as [l Hl].
  { rewrite (to_len _ (ni_tbl _ Hs)). lia. }
  destruct (move_bucket_ok nh (nc_heap s) (nchash_mask e) (nchash_sz e) l (tbl_of nh e)) as (t & Ht & Hlen & Hi).
  - intros p Hp. destruct (ni_place _ Hs nh (false, Z.to_nat b) l p Hl Hp) as (f & Hf & _). exists f. split; [done|by apply idx_range].
  - by apply to_len.
  - by exists l, t.
Qed.

Lemma moved_place nt dt nh f :
  (Z.land (entry_hash nh f) (nchash_mask (nc_tbl s)) = b /\ place s nh f = (false, Z.to_nat b) /\
   place (moved nt dt) nh f = (true, Z.to_nat (Z.land (entry_hash nh f) (nchash_mask e)))) \/
  (place s nh f <> (false, Z.to_nat b) /\ place (moved nt dt) nh f = place s nh f).
Proof.
  destruct round_bounds as [Hb0 He]. pose proof (idx_range _ (entry_hash nh f) (ni_tbl _ Hs)).
  unfold place, get_hash_head, moved. cbn [nc_expand nc_tbl nchash_mask]. rewrite Hx.
  destruct (_ >=? b) eqn:H1, (_ >=? b + 1) eqn:H2; rewrite ?Z.geb_leb in H1, H2; bool_prop; try lia; [right|left|right].
  - split; [|done]. intros [= ?]. lia.
  - assert (Heq : Z.land (entry_hash nh f) (nchash_mask (nc_tbl s)) = b) by lia. rewrite Heq. done.
  - done.
Qed.

Definition moves (nt dt : list (list Z)) : Prop :=
  forall nh, exists l, bucket nh s (false, Z.to_nat b) = Some l /\ length (if nh then nt else dt) = length (tbl_of nh e) /\
    forall i, (if nh then nt else dt) !! i =
      (fun x => rev (List.filter (goes nh (nc_heap s) (nchash_mask e) i) l) ++ x) <$> bucket nh s (true, i).

(** A chain of the new state is empty, an old one, or an old one with the
    entries that have been moved to it. *)
Lemma moved_bucket nt dt nh hd l : moves nt dt -> bucket nh (moved nt dt) hd = Some l ->
  (hd = (false, Z.to_nat b) /\ l = []) \/ (hd <> (false, Z.to_nat b) /\ fst hd = false /\ bucket nh s hd = Some l) \/
  exists i l0 x, hd = (true, i) /\ bucket nh s (false, Z.to_nat b) = Some l0 /\ bucket nh s hd = Some x /\
    l = rev (List.filter (goes nh (nc_heap s) (nchash_mask e) i) l0) ++ x.
Proof.
  intros Hm Hl. destruct (Hm nh) as (l0 & Hl0 & _ & Hi). destruct hd as [[] i].
  - right; right. assert (Hl' : (if nh then nt else dt) !! i = Some l) by (by destruct nh). rewrite Hi in Hl'.
    destruct (bucket nh s (true, i)) as [x|] eqn:Hbx; simplify_eq/=. by exists i, l0, x.
  - assert (Hl' : moved_tbl nh !! i = Some l) by (by destruct nh). unfold moved_tbl in Hl'.
    destruct (decide (i = Z.to_nat b)) as [->|Hne].
    + left. split; [done|]. simpl in Hl0. rewrite list_lookup_insert_eq in Hl' by (by eapply lookup_lt_Some). congruence.
    + right; left. rewrite list_lookup_insert_ne in Hl' by done. split_and!; [congruence|done|done].
Qed.

Lemma moved_exp nt dt : moves nt dt -> exp_ok (moved nt dt).
Proof.
  intros Hm. destruct round_bounds as [Hb0 He]. split.
  - destruct (ni_tbl _ Hs) as [? ? Hl]. split; try done. intros nh. specialize (Hl nh).
    destruct nh; simpl; unfold moved_tbl; by rewrite length_insert.
  - simpl. intros b' e' [= <- <-]. split; [|lia]. destruct He as [? ? Hl]. split; try done.
    intros nh. specialize (Hl nh). destruct (Hm nh) as (? & _ & Hlen & _). rewrite <- Hlen in Hl. by destruct nh.
Qed.

Lemma moved_inv nt dt : moves nt dt -> nc_inv (moved nt dt).
Proof.
  intros Hm. destruct (moved_exp nt dt Hm) as [Ht' He']. split; try done; try apply Hs.
  - intros nh hd l Hl. destruct (moved_bucket _ _ _ _ _ Hm Hl) as [[-> ->]|[(_ & _ & Hl')|(i & l0 & x & -> & Hl0 & Hx' & ->)]].
    + constructor.
    + by eapply ni_nodup.
    + apply nodup_moved; [by eapply ni_nodup..|]. intros p Hp Hpx.
      destruct (ni_place _ Hs _ _ _ _ Hl0 Hp) as (f & Hf & Hpf), (ni_place _ Hs _ _ _ _ Hx' Hpx) as (g & Hg & Hpg). congruence.
  - intros nh hd l p Hl Hp. destruct (moved_bucket _ _ _ _ _ Hm Hl) as [[-> ->]|[(Hne & Hh & Hl')|(i & l0 & x & -> & Hl0 & Hx' & ->)]].
    + by apply elem_of_nil in Hp.
    + destruct (ni_place _ Hs _ _ _ _ Hl' Hp) as (f & Hf & <-). exists f. split; [done|].
      by destruct (moved_place nt dt nh f) as [(_ & ? & _)|[_ ?]].
    + apply elem_moved in Hp as [[Hp Hg]|Hp].
      * destruct (ni_place _ Hs _ _ _ _ Hl0 Hp) as (f & Hf & Hpf). exists f. split; [done|].
        unfold goes in Hg. rewrite Hf in Hg. bool_prop. destruct (moved_place nt dt nh f) as [(_ & _ & ->)|[? _]]; congruence.
      * destruct (ni_place _ Hs _ _ _ _ Hx' Hp) as (f & Hf & Hpf). exists f. split; [done|].
        destruct (moved_place nt dt nh f) as [(_ & ? & _)|[_ ?]]; congruence.
  - intros nh p f Hf. destruct (Hm nh) as (l0 & Hl0 & _ & Hi). destruct (ni_in _ Hs nh p f Hf) as (l & Hl & Hp).
    assert (Hbt : forall i, bucket nh (moved nt dt) (true, i) = (if nh then nt else dt) !! i) by (by intros; destruct nh).
    destruct (moved_place nt dt nh f) as [(_ & Hpf & Hpf')|[Hne Hpf]].
    + rewrite Hpf', Hbt, Hi. rewrite Hpf in Hl. assert (l0 = l) as -> by congruence.
      destruct (bucket_ok nh e (entry_hash nh f)) as [x Hbx]; [apply round_bounds|]. simpl. rewrite Hx. simpl. rewrite Hbx. simpl.
      eexists. split; [done|]. apply elem_moved. left. split; [done|]. unfold goes. simpl in Hf. rewrite Hf. by apply bool_decide_eq_true.
    + rewrite Hpf. destruct (place s nh f) as [[] i].
      * rewrite Hbt, Hi, Hl. simpl. eexists. split; [done|]. apply elem_moved. by right.
      * exists l. split; [|done]. assert (Hbf : bucket nh (moved nt dt) (false, i) = moved_tbl nh !! i) by (by destruct nh).
        rewrite Hbf. unfold moved_tbl. rewrite list_lookup_insert_ne by congruence. done.
Qed.
End Round.

(** The exchange of the tables once every bucket has been moved. *)
Lemma nc_swap_ok s b e : nc_inv s -> nc_expand s = Some (b, e) -> b = nchash_sz (nc_tbl s) ->
  tbl_empty (nc_tbl s) = true /\ nc_ok (MkCache (nc_heap s) e None (nc_lru s) (numcache s)).
Proof.
  intros Hs Hx ->.
  assert (Hpl : forall nh f, exists i, place s nh f = (true, i) /\
    place (MkCache (nc_heap s) e None (nc_lru s) (numcache s)) nh f = (false, i)).
  { intros nh f. unfold place, get_hash_head. rewrite Hx. simpl. pose proof (idx_range _ (entry_hash nh f) (ni_tbl _ Hs)).
    rewrite Z.geb_leb, (proj2 (Z.leb_gt _ _)) by lia. by eexists. }
  assert (He : forall nh l, l ∈ tbl_of nh (nc_tbl s) -> l = []).
  { intros nh l [i Hi]%list_elem_of_lookup. destruct l as [|p l]; [done|].
    destruct (ni_place _ Hs nh (false, i) (p :: l) p) as (f & _ & Hf); [done|left|].
    destruct (Hpl nh f) as (j & ? & _). congruence. }
  split.
  { unfold tbl_empty. apply andb_true_iff. split; apply forallb_forall; intros l Hl; apply bool_decide_eq_true.
    - by apply (He true), list_elem_of_In.
    - by apply (He false), list_elem_of_In. }
  assert (Hb : forall nh i, bucket nh s (true, i) = tbl_of nh e !! i) by (intros; simpl; by rewrite Hx).
  split; [|done]. split; try apply Hs; try done.
  - simpl. by destruct (ni_exp _ Hs _ _ Hx).
  - intros nh [[] i] l Hl; [done|]. apply (ni_nodup _ Hs nh (true, i)). by rewrite Hb.
  - intros nh [[] i] l p Hl Hp; [done|]. destruct (ni_place _ Hs nh (true, i) l p) as (f & Hf & Hpf); [by rewrite Hb|done|].
    exists f. split; [done|]. destruct (Hpl nh f) as (j & ? & ->). congruence.
  - intros nh p f Hf. destruct (ni_in _ Hs nh p f Hf) as (l & Hl & Hp). exists l. split; [|done].
    destruct (Hpl nh f) as (j & Hj & ->). by rewrite Hj, Hb in Hl.
Qed.

(** A round of the maintenance thread never aborts and moves the expansion
    on by one bucket. *)
Lemma maintenance_ok s b e : nc_ok s -> nc_expand s = Some (b, e) ->
  exists s', maintenance_round s = Some s' /\ nc_ok s' /\ nc_heap s' = nc_heap s /\ nc_lru s' = nc_lru s /\
    (if b + 1 =? nchash_sz (nc_tbl s) then nc_expand s' = None /\ nchash_sz (nc_tbl s') = nchash_sz e
     else nchash_sz (nc_tbl s') = nchash_sz (nc_tbl s) /\ exists e', nc_expand s' = Some (b + 1, e') /\ nchash_sz e' = nchash_sz e).
Proof.
  intros [Hs Hb] Hx. specialize (Hb _ _ Hx). unfold maintenance_round. rewrite Hx.
  destruct (round_chain s b e Hs Hx Hb true) as (ln & nt & Hln & Hnt & Hnl & Hni).
  destruct (round_chain s b e Hs Hx Hb false) as (ld & dt & Hld & Hdt & Hdl & Hdi). simpl in *. rewrite Hln, Hnt, Hld, Hdt.
  assert (Hm : moves s b e nt dt).
  { intros []; [exists ln|exists ld]; (split_and!; [done|done|]); intros i; simpl; by rewrite Hx. }
  pose proof (moved_inv s b e Hs Hx Hb nt dt Hm) as Hi. destruct (b + 1 =? _) eqn:Hbe; bool_prop.
  - destruct (nc_swap_ok _ _ _ Hi eq_refl Hbe) as [Hem Hok]. simpl in Hem. unfold moved_tbl in Hem. simpl in Hem. rewrite Hem.
    eexists. split; [done|]. by split_and!.
  - eexists. split; [done|]. split_and!; try done; [|by eexists]. split; [done|]. simpl. intros ? ? [= <- <-]. lia.
Qed.
