(* ===== verification/NameCacheSpec.v ===== *)
(** * The name cache is a bounded list of names

    A specification of the cache that knows neither hash tables nor their
    expansion: the entries in the order of their last use.  Every call of the
    cache, at any stage of an expansion, does what the specification allows,
    and an expansion that has a thread comes to its end. *)

From S2P Require Import Prelude NameCache NameCacheInv.

Open Scope pfs_scope.
#[local] Opaque calc_hash calc_deno_hash.

(** ** The abstraction *)
Definition view (s : ncstate) : list namecache := omap (fun p => nc_heap s !! p) (nc_lru s).

Lemma omap_all {A B} (f : A -> option B) (l : list A) : (forall x, x ∈ l -> is_Some (f x)) -> length (omap f l) = length l.
Proof.
  induction l as [|x l IH]; intros H; [done|]. cbn. destruct (H x) as [y ->]; [left|]. simpl. f_equal. apply IH.
  intros; apply H; by right.
Qed.
Lemma omap_filter (h h' : gmap Z namecache) (g : namecache -> bool) (k : Z -> bool) l :
  (forall p e, p ∈ l -> h !! p = Some e -> k p = g e) -> (forall p, p ∈ l -> is_Some (h !! p)) ->
  (forall p, p ∈ l -> k p = true -> h' !! p = h !! p) ->
  omap (fun p => h' !! p) (List.filter k l) = List.filter g (omap (fun p => h !! p) l).
Proof.
  induction l as [|p l IH]; intros Hk Hin Hh; [done|]. cbn. destruct (Hin p) as [e He]; [left|].
  assert (Hkp : k p = g e) by (apply Hk; [left|done]). rewrite He. simpl. rewrite Hkp.
  assert (IH' : omap (fun p => h' !! p) (List.filter k l) = List.filter g (omap (fun p => h !! p) l)).
  { apply IH; intros; [apply Hk|apply Hin|apply Hh]; try done; by right. }
  destruct (g e); [|done]. cbn. rewrite Hh, He by (left || done). f_equal. apply IH'.
Qed.

Lemma view_heap s e : nc_inv s -> e ∈ view s <-> exists p, nc_heap s !! p = Some e.
Proof.
  intros Hs. unfold view. rewrite list_elem_of_omap. split; [naive_solver|]. intros [p He]. exists p. split; [|done].
  apply (ni_lru _ Hs). by eexists.
Qed.
Lemma view_length s : nc_inv s -> Z.of_nat (length (view s)) = numcache s.
Proof.
  intros Hs. rewrite (ni_num _ Hs). f_equal. apply omap_all. intros. by apply (ni_lru _ Hs).
Qed.

(** A test that one entry passes alone. *)
Definition selects (g : namecache -> bool) (p : Z) (s : ncstate) : Prop :=
  forall q f, nc_heap s !! q = Some f -> g f = true <-> q = p.

Lemma selects_name s p e : nc_inv s -> nc_heap s !! p = Some e ->
  selects (name_match (nc_mnt e) (nc_parent_ino e) (nc_name e)) p s.
Proof.
  intros Hs Hp q f Hq. rewrite name_match_key. split; [intros Hk; by apply (ni_name _ Hs q p f e)|by intros ->; simplify_eq].
Qed.
Lemma selects_deno s p e : nc_inv s -> nc_heap s !! p = Some e -> selects (deno_match (nc_mnt e) (nc_deno e)) p s.
Proof.
  intros Hs Hp q f Hq. rewrite deno_match_key. split; [intros Hk; by apply (ni_deno _ Hs q p f e)|by intros ->; simplify_eq].
Qed.
Lemma selects_find g p e s : nc_inv s -> nc_heap s !! p = Some e -> selects g p s -> List.find g (view s) = Some e.
Proof.
  intros Hs Hp Hg. assert (Hge : g e = true) by (by apply (Hg p)).
  destruct (List.find g (view s)) as [f|] eqn:Hf.
  - apply find_some in Hf as [Hin Hgf]. apply list_elem_of_In, (view_heap s f Hs) in Hin as [q Hq].
    apply (Hg q f Hq) in Hgf as ->. congruence.
  - rewrite (find_none _ _ Hf e) in Hge; [done|]. apply list_elem_of_In, view_heap; [done|by exists p].
Qed.
Lemma none_find g s : nc_inv s -> (forall p e, nc_heap s !! p = Some e -> g e = false) -> List.find g (view s) = None.
Proof.
  intros Hs Hg. destruct (List.find g (view s)) as [f|] eqn:Hf; [|done].
  apply find_some in Hf as [Hin Hgf]. apply list_elem_of_In, (view_heap s f Hs) in Hin as [q Hq].
  rewrite (Hg q f Hq) in Hgf. done.
Qed.

Abbreviation drop_if g := (List.filter (fun e => negb (g e))).

Lemma keep_selects g p s : nc_inv s -> selects g p s ->
  forall q f, q ∈ nc_lru s -> nc_heap s !! q = Some f -> negb (q =? p) = negb (g f).
Proof.
  intros Hs Hg q f _ Hq. f_equal. specialize (Hg q f Hq). destruct (q =? p) eqn:E, (g f); bool_prop; naive_solver.
Qed.
Lemma view_remove g p s : nc_inv s -> selects g p s -> view (remove_entry p s) = drop_if g (view s).
Proof.
  intros Hs Hg. unfold view. simpl. apply omap_filter.
  - by apply keep_selects.
  - intros q Hq. by apply (ni_lru _ Hs).
  - intros q _ Hq. bool_prop. by rewrite lookup_delete_ne.
Qed.

(** What the use of an entry does to the order. *)
Definition touch (opts : ncopts) (g : namecache -> bool) (now : Z) (l : list namecache) : list namecache :=
  match List.find g l with
  | Some e =>
      if should_promote opts now e then
        match l with
        | f :: _ => if g f then l else set_promoted now e :: drop_if g l
        | [] => l
        end
      else l
  | None => l
  end.

Lemma touch_ok opts g p e now s : nc_ok s -> nc_heap s !! p = Some e -> selects g p s ->
  exists s', (if should_promote opts now e then promote_entry p now s else Some s) = Some s' /\ nc_ok s' /\
    nc_expand s' = nc_expand s /\ view s' = touch opts g now (view s).
Proof.
  intros [Hs Hb] Hp Hg. unfold touch. rewrite (selects_find g p e s) by done.
  destruct (should_promote opts now e); [|exists s; by split_and!].
  destruct (promote_inv p now e s Hs Hp) as (s' & -> & Hs' & Hx & Ht & Hcase). exists s'. split; [done|].
  split_and!; [split; [done|by rewrite Hx, Ht]|done|].
  assert (Hin : forall q, q ∈ nc_lru s -> is_Some (nc_heap s !! q)) by (intros; by apply (ni_lru _ Hs)).
  destruct Hcase as [[Hh ->]|(Hh & Hhp & Hl)].
  - unfold view in *. destruct (nc_lru s) as [|q l]; [done|]. simplify_eq/=. rewrite Hp. simpl.
    by rewrite (proj2 (Hg p e Hp) eq_refl).
  - assert (Hrest : omap (fun q => nc_heap s' !! q) (keep p (nc_lru s)) = drop_if g (view s)).
    { apply omap_filter; [by apply keep_selects|done|]. intros q _ Hq. bool_prop. by rewrite Hhp, lookup_insert_ne. }
    assert (Hp' : nc_heap s' !! p = Some (set_promoted now e)) by (by rewrite Hhp, lookup_insert_eq).
    assert (Hv' : view s' = set_promoted now e :: drop_if g (view s)).
    { rewrite <- Hrest. unfold view. rewrite Hl. cbn. by rewrite Hp'. }
    assert (exists f l, view s = f :: l /\ g f = false) as (f & l & Hv & Hgf).
    { unfold view. assert (Hpl : p ∈ nc_lru s) by (apply (ni_lru _ Hs); by eexists).
      destruct (nc_lru s) as [|q l]; [by apply elem_of_nil in Hpl|]. destruct (Hin q) as [f Hf]; [left|]. cbn. rewrite Hf.
      eexists _, _. split; [done|]. destruct (g f) eqn:E; [|done]. apply (Hg q f Hf) in E. by subst. }
    by rewrite Hv', Hv, Hgf.
Qed.

(** ** Eviction *)
Lemma nc_remove_ok p s : nc_ok s -> p ∈ nc_lru s -> nc_ok (remove_entry p s).
Proof.
  intros [Hs Hb] Hp. split; [by apply remove_inv|]. simpl. intros b e H.
  destruct (nc_expand s) as [[b' e']|]; simplify_eq. by apply (Hb b e').
Qed.

Lemma view_remove_last p l s : nc_inv s -> nc_lru s = l ++ [p] -> view (remove_entry p s) = take (length l) (view s).
Proof.
  intros Hs Hl. pose proof (ni_lru_nodup _ Hs) as Hnd. rewrite Hl in Hnd. apply NoDup_app in Hnd as (_ & Hd & _).
  assert (Hp : p ∉ l) by (intros Hp; apply (Hd p Hp); left).
  assert (Hin : forall q, q ∈ l ++ [p] -> is_Some (nc_heap s !! q)) by (rewrite <- Hl; intros; by apply (ni_lru _ Hs)).
  unfold view. simpl. rewrite Hl, List.filter_app, keep_notin by done. simpl. rewrite Z.eqb_refl. simpl. rewrite app_nil_r.
  rewrite omap_app, take_app_le by (rewrite omap_all; [done|intros; apply Hin; apply elem_of_app; by left]).
  rewrite take_ge by (rewrite omap_all; [done|intros; apply Hin; apply elem_of_app; by left]).
  clear Hin Hd Hl. induction l as [|q l IH]; [done|]. apply not_elem_of_cons in Hp as [Hq Hp]. cbn.
  rewrite lookup_delete_ne by done. destruct (nc_heap s !! q); [f_equal|]; by apply IH.
Qed.

Lemma evict_loop_ok opts n s : nc_ok s -> (length (nc_lru s) <= n)%nat -> 0 <= get_nc_max opts ->
  nc_ok (evict_loop opts n s) /\ view (evict_loop opts n s) = take (Z.to_nat (get_nc_max opts)) (view s).
Proof.
  revert s. induction n as [|n IH]; intros s Hs Hn Hm; pose proof (view_length s (proj1 Hs)) as Hlen;
    pose proof (ni_num _ (proj1 Hs)) as Hnum; simpl; rewrite Z.gtb_ltb; destruct (_ <? _) eqn:Hg; bool_prop;
    try (split; [done|]; by rewrite take_ge by lia).
  destruct (nc_lru s) as [|p l _] eqn:Hl using rev_ind; [simpl in *; lia|]. rewrite last_snoc.
  assert (Hp : p ∈ nc_lru s) by (rewrite Hl; apply elem_of_app; right; left).
  rewrite length_app in *. simpl in *.
  destruct (IH (remove_entry p s)) as [IH1 IH2]; [by apply nc_remove_ok| |done|].
  { pose proof (length_keep p _ (ni_lru_nodup _ (proj1 Hs)) Hp). simpl. rewrite Hl, length_app in *. simpl in *. lia. }
  split; [done|]. rewrite IH2, (view_remove_last p l) by (done || apply Hs). rewrite take_take. f_equal. lia.
Qed.
Lemma evict_ok opts s : nc_ok s -> 0 <= get_nc_max opts ->
  nc_ok (evict_entries opts s) /\ view (evict_entries opts s) = take (Z.to_nat (get_nc_max opts)) (view s).
Proof. intros. by apply evict_loop_ok. Qed.

(** ** Clearing a mount *)
Lemma filter_same {A} `{EqDecision A} (f g : A -> bool) l :
  (forall x, x ∈ List.filter f l <-> x ∈ List.filter g l) -> List.filter f l = List.filter g l.
Proof.
  intros H. apply List.filter_ext_in. intros x Hx. specialize (H x). rewrite !list_elem_of_In, !filter_In in H.
  destruct (f x), (g x); naive_solver.
Qed.

(** [s'] is [s] without some of the entries. *)
Definition shrunk (P : Z -> namecache -> Prop) (s s' : ncstate) : Prop :=
  nc_ok s' /\ nc_expand s' = None /\ nchash_sz (nc_tbl s') = nchash_sz (nc_tbl s) /\
  (forall nh i, exists f, tbl_of nh (nc_tbl s') !! i = List.filter f <$> tbl_of nh (nc_tbl s) !! i) /\
  (forall nh e, place s' nh e = place s nh e) /\
  (exists f, nc_lru s' = List.filter f (nc_lru s)) /\
  forall p e, nc_heap s' !! p = Some e <-> nc_heap s !! p = Some e /\ P p e.

Lemma filter_filter {A} (f g : A -> bool) l : List.filter f (List.filter g l) = List.filter (fun x => g x && f x) l.
Proof. induction l as [|x l IH]; [done|]. simpl. destruct (g x); simpl; [destruct (f x)|]; by rewrite IH. Qed.

Lemma shrunk_trans P Q s s' s'' : shrunk P s s' -> shrunk Q s' s'' -> shrunk (fun p e => P p e /\ Q p e) s s''.
Proof.
  intros (H1 & H2 & H3 & H4 & H5 & [f1 H6] & H7) (G1 & G2 & G3 & G4 & G5 & [f2 G6] & G7). split_and!; try congruence; try done.
  - intros nh i. destruct (H4 nh i) as [f Hf], (G4 nh i) as [g Hg]. rewrite Hg, Hf.
    exists (fun x => f x && g x). destruct (tbl_of nh (nc_tbl s) !! i); [|done]. simpl. by rewrite filter_filter.
  - exists (fun x => f1 x && f2 x). by rewrite G6, H6, filter_filter.
  - intros p e. rewrite G7, H7. tauto.
Qed.
Lemma shrunk_refl (P : Z -> namecache -> Prop) s : nc_ok s -> nc_expand s = None -> (forall p e, nc_heap s !! p = Some e -> P p e) -> shrunk P s s.
Proof.
  intros H1 H2 H3. split_and!; try done.
  - intros nh i. exists (fun _ => true). destruct (tbl_of nh (nc_tbl s) !! i) as [l|]; [|done]. simpl. f_equal.
    induction l; [done|]. simpl. congruence.
  - exists (fun _ => true). induction (nc_lru s); [done|]. simpl. congruence.
  - naive_solver.
Qed.
Lemma shrunk_remove p s : nc_ok s -> nc_expand s = None -> p ∈ nc_lru s -> shrunk (fun q _ => q <> p) s (remove_entry p s).
Proof.
  intros H1 H2 Hp. split_and!.
  - by apply nc_remove_ok.
  - simpl. by rewrite H2.
  - done.
  - intros nh i. eexists. destruct nh; apply unlink_lookup.
  - intros nh e. apply shape_head, remove_shape.
  - by eexists.
  - intros q e. simpl. rewrite lookup_delete_Some. naive_solver.
Qed.
Lemma shrunk_weaken (P Q : Z -> namecache -> Prop) s s' : shrunk P s s' ->
  (forall p e, nc_heap s !! p = Some e -> P p e <-> Q p e) -> shrunk Q s s'.
Proof. intros (H1 & H2 & H3 & H4 & H5 & H6 & H7) HPQ. split_and!; try done. intros p e. rewrite H7. naive_solver. Qed.

Lemma clear_bucket_ok mnt l s : nc_ok s -> nc_expand s = None -> NoDup l -> (forall p, p ∈ l -> p ∈ nc_lru s) ->
  exists s', clear_bucket mnt l s = Some s' /\ shrunk (fun p e => nc_mnt e = mnt -> p ∉ l) s s'.
Proof.
  revert s. induction l as [|p l IH]; intros s Hs Hx Hnd Hl; simpl.
  - exists s. split; [done|]. apply shrunk_refl; [done..|]. intros p e _ _. apply not_elem_of_nil.
  - apply NoDup_cons in Hnd as [Hp Hnd]. assert (Hpl : p ∈ nc_lru s) by (apply Hl; left).
    destruct (proj1 (ni_lru _ (proj1 Hs) p) Hpl) as [e He]. rewrite He.
    assert (Hl' : forall q, q ∈ l -> q ∈ nc_lru s) by (intros; apply Hl; by right).
    destruct (nc_mnt e =? mnt) eqn:Hm; bool_prop.
    + pose proof (shrunk_remove p s Hs Hx Hpl) as Hr. destruct (IH (remove_entry p s)) as (s' & -> & Hs').
      * apply Hr.
      * apply Hr.
      * done.
      * intros q Hq. simpl. apply elem_keep. split; [by intros ->|by apply Hl'].
      * exists s'. split; [done|]. eapply shrunk_weaken; [by eapply shrunk_trans|]. simpl. intros q f Hq.
        rewrite not_elem_of_cons. destruct (decide (q = p)) as [->|]; [simplify_eq|]; naive_solver.
    + destruct (IH s) as (s' & -> & Hs'); [done..|]. exists s'. split; [done|]. eapply shrunk_weaken; [done|]. simpl.
      intros q f Hq. rewrite not_elem_of_cons. destruct (decide (q = p)) as [->|]; [simplify_eq|]; naive_solver.
Qed.

Lemma clear_loop_ok mnt n i s : nc_ok s -> nc_expand s = None -> (i + n)%nat = Z.to_nat (nchash_sz (nc_tbl s)) ->
  exists s', clear_loop mnt n i s = Some s' /\
    shrunk (fun p e => nc_mnt e = mnt -> (snd (place s true e) < i)%nat \/ (i + n <= snd (place s true e))%nat) s s'.
Proof.
  revert i s. induction n as [|n IH]; intros i s Hs Hx Hn; simpl.
  - exists s. split; [done|]. apply shrunk_refl; [done..|]. intros. lia.
  - destruct (lookup_lt_is_Some_2 (nchashtbl (nc_tbl s)) i) as [l Hl].
    { pose proof (to_len _ (ni_tbl _ (proj1 Hs)) true) as Hlen. simpl in Hlen. lia. }
    rewrite Hl. assert (Hlb : bucket true s (false, i) = Some l) by done.
    destruct (clear_bucket_ok mnt l s) as (s1 & -> & Hs1); [done|done|by apply (ni_nodup _ (proj1 Hs) _ _ _ Hlb)| |].
    { intros p Hp. apply (ni_lru _ (proj1 Hs)). destruct (ni_place _ (proj1 Hs) _ _ _ _ Hlb Hp) as (e & -> & _). by eexists. }
    destruct (IH (S i) s1) as (s2 & -> & Hs2); [apply Hs1|apply Hs1| |].
    { destruct Hs1 as (_ & _ & -> & _). lia. }
    exists s2. split; [done|]. eapply shrunk_weaken; [by eapply shrunk_trans|]. simpl. intros p e He.
    assert (Hpl : place s1 true e = place s true e) by apply Hs1. rewrite Hpl.
    destruct (ni_in _ (proj1 Hs) true p e He) as (l' & Hl' & Hp).
    assert (Hpi : p ∈ l <-> snd (place s true e) = i).
    { split.
      - intros Hpl'. destruct (ni_place _ (proj1 Hs) _ _ _ _ Hlb Hpl') as (e' & He' & Hh). simplify_eq. by rewrite Hh.
      - intros Hi. assert (place s true e = (false, i)) as Hh.
        { revert Hi. unfold place, get_hash_head. rewrite Hx. simpl. by intros ->. }
        rewrite Hh in Hl'. congruence. }
    rewrite Hpi. split; [intros [H1 H2] Hm; specialize (H1 Hm); specialize (H2 Hm); lia|].
    intros H. split; intros Hm; specialize (H Hm); lia.
Qed.

Lemma clear_ok mnt s : nc_ok s -> nc_expand s = None ->
  exists s', pfs_namecache_clear_mount mnt s = Some s' /\ nc_ok s' /\ nc_expand s' = None /\
    view s' = List.filter (fun e => negb (nc_mnt e =? mnt)) (view s).
Proof.
  intros Hs Hx. unfold pfs_namecache_clear_mount. rewrite Hx.
  destruct (clear_loop_ok mnt (Z.to_nat (nchash_sz (nc_tbl s))) 0 s) as (s' & -> & Hs'); [done..|].
  exists s'. destruct Hs' as (Hok & Hx' & _ & _ & _ & [f Hf] & Hh). split_and!; [done..|]. simpl in Hh.
  assert (Hgone : forall p e, nc_heap s' !! p = Some e <-> nc_heap s !! p = Some e /\ nc_mnt e <> mnt).
  { intros p e. rewrite Hh. split; intros [He H]; (split; [done|]); [|naive_solver]. intros Hm. specialize (H Hm).
    revert H. unfold place, get_hash_head. rewrite Hx. cbn [snd].
    pose proof (idx_range _ (entry_hash true e) (ni_tbl _ (proj1 Hs))). lia. }
  set (k := fun p => match nc_heap s !! p with Some e => negb (nc_mnt e =? mnt) | None => true end).
  assert (Hl : nc_lru s' = List.filter k (nc_lru s)).
  { rewrite Hf. apply filter_same. intros p. rewrite <- Hf, (ni_lru _ (proj1 Hok)), list_elem_of_In, filter_In, <- list_elem_of_In, (ni_lru _ (proj1 Hs)).
    unfold k. split.
    - intros [e He]. apply Hgone in He as [He Hm]. rewrite He. split; [by eexists|]. by apply negb_true_iff, Z.eqb_neq.
    - intros [[e He] Hk]. rewrite He in Hk. bool_prop. exists e. by apply Hgone. }
  unfold view. rewrite Hl. apply omap_filter.
  - intros p e _ He. unfold k. by rewrite He.
  - intros p Hp. by apply (ni_lru _ (proj1 Hs)).
  - intros p Hp Hk. apply (ni_lru _ (proj1 Hs)) in Hp as [e He]. unfold k in Hk. rewrite He in *. bool_prop. by apply Hgone.
Qed.

(** ** Calls *)
Inductive nc_call :=
| Enter (mnt par ino : Z) (name : list Z) (deno now ncp : Z) (mi mt md : bool)
| Lookup (mnt par : Z) (name : list Z) (now : Z)
| DeleteByDeno (mnt deno : Z)
| ClearMount (mnt : Z)
| Round                       (** the maintenance thread *)
| ThreadFail.                 (** [pthread_create] failed *)

Section Calls.
Context (opts : ncopts).

Definition nc_do (c : nc_call) (s : ncstate) : option ((Z + Z) * ncstate) :=
  match c with
  | Enter mnt par ino name deno now ncp mi mt md =>
      let* s := pfs_namecache_enter opts mnt par ino name deno now ncp mi mt md s in Some (inl 0, s)
  | Lookup mnt par name now => pfs_namecache_lookup opts mnt par name now s
  | DeleteByDeno mnt deno => let* s := pfs_namecache_delete_by_deno mnt deno s in Some (inl 0, s)
  | ClearMount mnt => let* s := pfs_namecache_clear_mount mnt s in Some (inl 0, s)
  | Round => let* s := maintenance_round s in Some (inl 0, s)
  | ThreadFail => let* s := expand_fail s in Some (inl 0, s)
  end.

(** What the callers keep to: the address of a new entry is not in use, the
    tables of an expansion fit in memory, a name is entered for the directory
    entry that has it, and only running expansions are worked on. *)
Definition call_ok (s : ncstate) (c : nc_call) : Prop :=
  match c with
  | Enter mnt par ino name deno now ncp mi mt md =>
      nc_heap s !! ncp = None /\ mt = true /\ md = true /\
      forall e, e ∈ view s ->
        (name_key e = (mnt, par, name) -> nc_ino e = ino /\ nc_deno e = deno) /\
        (deno_key e = (mnt, deno) -> name_key e = (mnt, par, name))
  | ClearMount mnt => nc_expand s = None
  | Round => is_Some (nc_expand s)
  | ThreadFail => exists e, nc_expand s = Some (0, e)
  | _ => True
  end.

(** The specification, on the entries in the order of their use. *)
Inductive nc_spec : nc_call -> list namecache -> Z + Z -> list namecache -> Prop :=
| sp_enter_off mnt par ino name deno now ncp mi mt md l :
    nc_enable opts = false \/ no_entry name = true \/ ncp = 0 ->
    nc_spec (Enter mnt par ino name deno now ncp mi mt md) l (inl 0) l
| sp_enter_full mnt par ino name deno now ncp mi mt md l :
    nc_max_bucket_len opts <= Z.of_nat (length l) -> List.find (name_match mnt par name) l = None ->
    nc_spec (Enter mnt par ino name deno now ncp mi mt md) l (inl 0) l
| sp_enter_new mnt par ino name deno now ncp mi mt md l :
    List.find (name_match mnt par name) l = None ->
    nc_spec (Enter mnt par ino name deno now ncp mi mt md) l (inl 0)
      (take (Z.to_nat (get_nc_max opts)) (MkNc mnt par ino deno now name :: l))
| sp_enter_old mnt par ino name deno now ncp mi mt md l e :
    List.find (name_match mnt par name) l = Some e -> nc_ino e = ino -> nc_deno e = deno ->
    nc_spec (Enter mnt par ino name deno now ncp mi mt md) l (inl 0) (touch opts (name_match mnt par name) now l)
| sp_lookup_off mnt par name now l : nc_enable opts = false -> nc_spec (Lookup mnt par name now) l (inr (- ENOENT)) l
| sp_lookup_dot mnt par now l : nc_enable opts = true -> nc_spec (Lookup mnt par [DOT] now) l (inl par) l
| sp_lookup_miss mnt par name now l :
    nc_enable opts = true -> name <> [DOT] -> List.find (name_match mnt par name) l = None ->
    nc_spec (Lookup mnt par name now) l (inr (- ENOENT)) l
| sp_lookup_hit mnt par name now l e :
    nc_enable opts = true -> name <> [DOT] -> List.find (name_match mnt par name) l = Some e ->
    nc_spec (Lookup mnt par name now) l (inl (nc_ino e)) (touch opts (name_match mnt par name) now l)
| sp_delete mnt deno l : nc_spec (DeleteByDeno mnt deno) l (inl 0) (drop_if (deno_match mnt deno) l)
| sp_clear mnt l : nc_spec (ClearMount mnt) l (inl 0) (List.filter (fun e => negb (nc_mnt e =? mnt)) l)
| sp_round l : nc_spec Round l (inl 0) l
| sp_thread_fail l : nc_spec ThreadFail l (inl 0) l.

Lemma find_name mnt par name s : nc_inv s ->
  exists l r n, bucket true s (get_hash_head s (calc_hash mnt par name)) = Some l /\
    list_find (name_match mnt par name) s l = Some (r, n) /\
    match r with
    | Some p => exists e, nc_heap s !! p = Some e /\ selects (name_match mnt par name) p s
    | None => n <= numcache s /\ forall p e, nc_heap s !! p = Some e -> name_match mnt par name e = false
    end.
Proof.
  intros Hs. destruct (find_chain true (name_match mnt par name) (calc_hash mnt par name) s Hs) as (l & r & n & Hl & Hr & Hm).
  { intros e He. apply entry_hash_name. by apply name_match_key. }
  exists l, r, n. split_and!; [done..|]. destruct r as [p|]; [|done]. destruct Hm as (e & He & Hf). exists e. split; [done|].
  apply name_match_key in Hf. injection Hf as <- <- <-. by apply selects_name.
Qed.

Lemma nc_lookup_ok mnt par name now s : nc_ok s ->
  exists r s', pfs_namecache_lookup opts mnt par name now s = Some (r, s') /\ nc_ok s' /\
    nc_expand s' = nc_expand s /\ nc_spec (Lookup mnt par name now) (view s) r (view s').
Proof.
  intros Hs. unfold pfs_namecache_lookup. destruct (nc_enable opts) eqn:Hen; simpl;
    [|exists (inr (- ENOENT)), s; split_and!; try done; by apply sp_lookup_off].
  case_bool_decide as Hd; [subst; exists (inl par), s; split_and!; try done; by apply sp_lookup_dot|].
  destruct (find_name mnt par name s (proj1 Hs)) as (l & r & n & -> & -> & Hr). simpl. destruct r as [p|].
  - destruct Hr as (e & He & Hsel). rewrite He.
    destruct (touch_ok opts (name_match mnt par name) p e now s Hs He Hsel) as (s' & -> & Hs' & Hx & Hv).
    eexists _, s'. split; [done|]. split_and!; [done..|]. rewrite Hv. apply sp_lookup_hit; [done..|].
    by apply (selects_find _ p); [apply Hs| |].
  - eexists _, s. split; [done|]. split_and!; [done..|]. apply sp_lookup_miss; [done..|]. apply none_find; [apply Hs|apply Hr].
Qed.

Lemma delete_ok mnt deno s : nc_ok s ->
  exists s', pfs_namecache_delete_by_deno mnt deno s = Some s' /\ nc_ok s' /\ view s' = drop_if (deno_match mnt deno) (view s).
Proof.
  intros Hs. unfold pfs_namecache_delete_by_deno.
  destruct (find_chain false (deno_match mnt deno) (calc_deno_hash mnt deno) s (proj1 Hs)) as (l & r & n & -> & -> & Hm).
  { intros e He. apply entry_hash_deno. by apply deno_match_key. }
  simpl. destruct r as [p|].
  - destruct Hm as (e & He & Hf). eexists. split; [done|]. split.
    + apply nc_remove_ok; [done|]. apply (ni_lru _ (proj1 Hs)). by eexists.
    + apply view_remove; [apply Hs|]. apply deno_match_key in Hf. injection Hf as <- <-. apply selects_deno; [apply Hs|done].
  - exists s. split; [done|]. split; [done|]. destruct Hm as [_ Hm].
    assert (Hall : forall e, In e (view s) -> deno_match mnt deno e = false).
    { intros e He%list_elem_of_In. apply (view_heap s e (proj1 Hs)) in He as [p He]. by eapply Hm. }
    revert Hall. generalize (view s). induction l0 as [|e l0 IH]; intros Hall; [done|]. simpl. rewrite Hall by (by left).
    simpl. f_equal. apply IH. intros; apply Hall; by right.
Qed.

Lemma enter_new_ok e ncp s : nc_ok s -> 0 <= get_nc_max opts -> nc_heap s !! ncp = None ->
  (forall f, f ∈ view s -> name_key f <> name_key e /\ deno_key f <> deno_key e) ->
  exists s1 s2, list_insert_head true ncp (place s true e) (set_heap (<[ncp := e]> (nc_heap s)) s) = Some s1 /\
    list_insert_head false ncp (place s false e) s1 = Some s2 /\
    let s3 := evict_entries opts (MkCache (nc_heap s2) (nc_tbl s2) (nc_expand s2) (ncp :: nc_lru s2) (numcache s2 + 1)) in
    nc_ok s3 /\ view s3 = take (Z.to_nat (get_nc_max opts)) (e :: view s).
Proof.
  intros Hs Hm Hp Hk. destruct (insert_both ncp e s (proj1 Hs)) as (s2 & Hi & Hl).
  destruct (list_insert_head true _ _ _) as [s1|] eqn:H1; [|done]. exists s1, s2. split_and!; [done..|].
  set (s3 := MkCache _ _ _ _ _) in *.
  assert (Hs3 : nc_ok s3).
  { split.
    - apply (linked_new_inv ncp e s); [apply Hs|done..|]. intros q f Hq. apply Hk. apply view_heap; [apply Hs|by exists q].
    - intros b t Hb. destruct Hl as (Hsh & _). unfold shape in Hsh. destruct Hs as [_ Hs]. rewrite Hb in Hsh.
      destruct (nc_expand s) as [[b' e']|]; [|done]. injection Hsh as Hsz _ -> _. rewrite (Hsz : nchash_sz (nc_tbl s3) = _). by apply (Hs b' e'). }
  destruct (evict_ok opts s3 Hs3 Hm) as [Hok Hev]. cbv zeta. split; [done|]. rewrite Hev. f_equal.
  destruct Hl as (_ & _ & Hh & Hr & _). unfold view. rewrite Hr, Hh. cbn. rewrite lookup_insert_eq. f_equal.
  assert (Hn : ncp ∉ nc_lru s) by (rewrite (ni_lru _ (proj1 Hs)), Hp; by intros [? ?]). clear -Hn.
  induction (nc_lru s) as [|q l IH]; [done|]. apply not_elem_of_cons in Hn as [Hq Hn]. cbn.
  rewrite lookup_insert_ne by done. destruct (nc_heap s !! q); [f_equal|]; by apply IH.
Qed.

Lemma enter_ok mnt par ino name deno now ncp mi mt md s : nc_ok s -> 0 <= get_nc_max opts ->
  call_ok s (Enter mnt par ino name deno now ncp mi mt md) ->
  exists s', pfs_namecache_enter opts mnt par ino name deno now ncp mi mt md s = Some s' /\ nc_ok s' /\
    nc_spec (Enter mnt par ino name deno now ncp mi mt md) (view s) (inl 0) (view s').
Proof.
  intros Hs Hm (Hp & -> & -> & Hk). unfold pfs_namecache_enter.
  destruct (nc_enable opts) eqn:Hen; simpl; [|exists s; split_and!; try done; apply sp_enter_off; auto].
  destruct (no_entry name) eqn:Hno; [exists s; split_and!; try done; apply sp_enter_off; auto|].
  destruct (ncp =? 0) eqn:H0; bool_prop; [exists s; split_and!; try done; apply sp_enter_off; auto|].
  destruct (find_name mnt par name s (proj1 Hs)) as (l & r & n & -> & -> & Hr). destruct r as [p|].
  - destruct Hr as (e & He & Hsel). rewrite He. pose proof (selects_find _ p e s (proj1 Hs) He Hsel) as Hf.
    assert (Hmatch : name_match mnt par name e = true) by (by apply (Hsel p e He)).
    destruct (Hk e) as [Hk1 _]; [apply view_heap; [apply Hs|by exists p]|].
    destruct Hk1 as [Hi Hd]; [by apply name_match_key|]. rewrite Hi, Hd, !Z.eqb_refl. simpl.
    destruct (touch_ok opts _ p e now s Hs He Hsel) as (s' & -> & Hs' & Hx & Hv).
    destruct (rehash_ok opts mi true true s' Hs') as (s2 & -> & Hs2 & Hh & Hl); [done..|]. exists s2. split_and!; [done..|].
    assert (Hv2 : view s2 = view s') by (unfold view; by rewrite Hh, Hl). rewrite Hv2, Hv. by eapply sp_enter_old.
  - destruct Hr as [Hn Hr]. pose proof (none_find _ s (proj1 Hs) Hr) as Hf. rewrite Z.geb_leb.
    destruct (_ <=? n) eqn:Hfull; bool_prop.
    + destruct (rehash_ok opts mi true true s Hs) as (s2 & -> & Hs2 & Hh & Hl); [done..|]. exists s2. split_and!; [done..|].
      assert (Hv2 : view s2 = view s) by (unfold view; by rewrite Hh, Hl). rewrite Hv2. apply sp_enter_full; [|done].
      rewrite view_length by apply Hs. lia.
    + destruct (enter_new_ok (MkNc mnt par ino deno now name) ncp s Hs Hm Hp) as (s1 & s2 & H1 & H2 & Hs3 & Hv3).
      { intros f Hfv. destruct (Hk f Hfv) as [_ Hk2]. apply (view_heap s f (proj1 Hs)) in Hfv as [q Hq].
        assert (Hnm : name_key f <> (mnt, par, name)).
        { intros Heq. apply name_match_key in Heq. specialize (Hr q f Hq). congruence. }
        split; [done|]. intros Hdk. by apply Hnm, Hk2. }
      unfold place, entry_hash in H1, H2. cbn [nc_mnt nc_parent_ino nc_name nc_deno] in H1, H2. rewrite H1, H2.
      destruct (rehash_ok opts mi true true _ Hs3) as (s4 & -> & Hs4 & Hh & Hl); [done..|]. exists s4. split_and!; [done..|].
      assert (Hv4 : view s4 = take (Z.to_nat (get_nc_max opts)) (MkNc mnt par ino deno now name :: view s)).
      { rewrite <- Hv3. unfold view. by rewrite Hh, Hl. }
      rewrite Hv4. by apply sp_enter_new.
Qed.
(** Every call on a sound cache. *)
Lemma call_refines c s : nc_ok s -> 0 <= get_nc_max opts -> call_ok s c ->
  exists r s', nc_do c s = Some (r, s') /\ nc_ok s' /\ nc_spec c (view s) r (view s').
Proof.
  intros Hs Hm Hc. destruct c as [mnt par ino name deno now ncp mi mt md|mnt par name now|mnt deno|mnt| |]; cbn [nc_do].
  - destruct (enter_ok mnt par ino name deno now ncp mi mt md s) as (s' & -> & ? & ?); [done..|]. by eexists _, s'.
  - destruct (nc_lookup_ok mnt par name now s Hs) as (r & s' & -> & ? & _ & ?). by eexists _, s'.
  - destruct (delete_ok mnt deno s Hs) as (s' & -> & ? & Hv). eexists _, s'. split_and!; [done..|]. rewrite Hv. constructor.
  - destruct (clear_ok mnt s Hs Hc) as (s' & -> & ? & _ & Hv). eexists _, s'. split_and!; [done..|]. rewrite Hv. constructor.
  - destruct Hc as [[b e] Hx]. destruct (maintenance_ok s b e Hs Hx) as (s' & -> & ? & Hh & Hl & _). eexists _, s'.
    split_and!; [done..|]. unfold view. rewrite Hh, Hl. constructor.
  - destruct Hc as [e Hx]. destruct (expand_fail_ok s e Hs Hx) as (s' & -> & ? & Hh & Hl). eexists _, s'.
    split_and!; [done..|]. unfold view. rewrite Hh, Hl. constructor.
Qed.

(** *** Sequences of calls *)
Fixpoint nc_run (cs : list nc_call) (s : ncstate) : option (list (Z + Z) * ncstate) :=
  match cs with
  | [] => Some ([], s)
  | c :: cs => let* p := nc_do c s in let* q := nc_run cs (snd p) in Some (fst p :: fst q, snd q)
  end.
Fixpoint calls_ok (cs : list nc_call) (s : ncstate) : Prop :=
  match cs with
  | [] => True
  | c :: cs => call_ok s c /\ forall r s', nc_do c s = Some (r, s') -> calls_ok cs s'
  end.
Inductive nc_specs : list nc_call -> list namecache -> list (Z + Z) -> list namecache -> Prop :=
| sps_nil l : nc_specs [] l [] l
| sps_cons c cs l r l' rs l'' : nc_spec c l r l' -> nc_specs cs l' rs l'' -> nc_specs (c :: cs) l (r :: rs) l''.

Lemma run_refines_spec cs : forall s, nc_ok s -> 0 <= get_nc_max opts -> calls_ok cs s ->
  exists rs s', nc_run cs s = Some (rs, s') /\ nc_ok s' /\ nc_specs cs (view s) rs (view s').
Proof.
  induction cs as [|c cs IH]; intros s Hs Hm Hc; cbn [nc_run].
  - eexists _, s. split; [done|]. split; [done|constructor].
  - destruct Hc as [Hc Hcs]. destruct (call_refines c s Hs Hm Hc) as (r & s1 & Hd & Hs1 & Hsp). rewrite Hd.
    destruct (IH s1 Hs1 Hm (Hcs r s1 Hd)) as (rs & s2 & Hr & Hs2 & Hsps). cbn [fst snd]. rewrite Hr. eexists _, s2.
    split; [done|]. split; [done|]. by econstructor.
Qed.

(** The list never grows past the limit. *)
Lemma length_touch g now l : (length (touch opts g now l) <= length l)%nat.
Proof.
  unfold touch. destruct (List.find g l) as [e|] eqn:Hf; [|done]. destruct (should_promote _ _ _); [|done].
  destruct l as [|f l]; [done|]. destruct (g f) eqn:Hg; [done|]. simpl in *. rewrite Hg in *. simpl.
  apply le_n_S. clear Hg. induction l as [|x l IH]; [done|]. simpl in *. destruct (g x) eqn:Hx; simpl.
  - apply le_n_S. apply List.filter_length_le.
  - apply le_n_S. by apply IH.
Qed.
Lemma spec_bounded c l r l' : nc_spec c l r l' -> 0 <= get_nc_max opts ->
  Z.of_nat (length l) <= get_nc_max opts -> Z.of_nat (length l') <= get_nc_max opts.
Proof.
  intros Hs Hm Hl. destruct Hs; try done.
  - rewrite length_take. lia.
  - pose proof (length_touch (name_match mnt par name) now l). lia.
  - pose proof (length_touch (name_match mnt par name) now l). lia.
  - pose proof (List.filter_length_le (fun e => negb (deno_match mnt deno e)) l). lia.
  - pose proof (List.filter_length_le (fun e => negb (nc_mnt e =? mnt)) l). lia.
Qed.

Lemma specs_bounded cs l rs l' : nc_specs cs l rs l' -> 0 <= get_nc_max opts ->
  Z.of_nat (length l) <= get_nc_max opts -> Z.of_nat (length l') <= get_nc_max opts.
Proof. induction 1 as [|c cs l r l' rs l'' Hs _ IH]; intros Hm Hl; [done|]. apply IH; [done|]. by eapply spec_bounded. Qed.

(** ** Progress of an expansion

    The size of the tables, the next bucket to move and the size the tables
    will have. *)
Definition stage (s : ncstate) : Z * option (Z * Z) :=
  (nchash_sz (nc_tbl s), match nc_expand s with Some (b, e) => Some (b, nchash_sz e) | None => None end).

Lemma remove_stage p s : stage (remove_entry p s) = stage s.
Proof. unfold stage, remove_entry. simpl. by destruct (nc_expand s) as [[b e]|]. Qed.
Lemma insert_stage nh p hd s s' : list_insert_head nh p hd s = Some s' -> stage s' = stage s.
Proof.
  unfold list_insert_head, stage. intros H. destruct hd as [[] i].
  - destruct (nc_expand s) as [[b e]|] eqn:Hx; [|done]. run_inv H. simpl. by destruct nh.
  - run_inv H. simpl. by destruct nh.
Qed.
Lemma evict_stage n s : stage (evict_loop opts n s) = stage s.
Proof.
  revert s. induction n as [|n IH]; intros s; simpl; destruct (_ >? _); try done; destruct (last (nc_lru s)); try done.
  by rewrite IH, remove_stage.
Qed.
Lemma promote_stage p now s s' : promote_entry p now s = Some s' -> stage s' = stage s.
Proof. unfold promote_entry. intros H. by run_inv H. Qed.

(** An expansion is under way, or there is nothing to expand. *)
Definition settled (s : ncstate) : Prop := is_Some (nc_expand s) \/ get_nc_max opts <= nchash_sz (nc_tbl s) * SEARCH_DEPTH.
Lemma settled_stage s s' : stage s' = stage s -> settled s -> settled s'.
Proof.
  unfold stage, settled. intros [= Hsz Hx]. rewrite Hsz. intros [[x Hs]|?]; [left|by right].
  rewrite Hs in Hx. destruct x. destruct (nc_expand s') as [[? ?]|]; [by eexists|done].
Qed.
Lemma rehash_stage mi mt md s s' : settled s -> rehash_namecache opts mi mt md s = Some s' -> s' = s.
Proof.
  unfold rehash_namecache, should_rehash. intros Hs H. destruct (nc_expand s) eqn:Hx.
  - rewrite andb_false_r in H. simpl in H. congruence.
  - destruct Hs as [[? ?]|Hs]; [congruence|]. rewrite Z.gtb_ltb, (proj2 (Z.ltb_ge _ _)) in H by done. simpl in H. congruence.
Qed.
Lemma rehash_stage_at mi mt md s x s' : settled s -> stage x = stage s ->
  rehash_namecache opts mi mt md x = Some s' -> stage s' = stage s.
Proof. intros Hs Hx H. apply rehash_stage in H; [by subst|]. by eapply settled_stage. Qed.

Lemma enter_stage mnt par ino name deno now ncp mi mt md s s' : settled s ->
  pfs_namecache_enter opts mnt par ino name deno now ncp mi mt md s = Some s' -> stage s' = stage s.
Proof.
  unfold pfs_namecache_enter. intros Hs H. cbv zeta in H. destruct (negb _); [congruence|].
  destruct (no_entry name); [congruence|]. destruct (ncp =? 0); [congruence|].
  destruct (bucket _ _ _); [|done]. destruct (list_find _ _ _) as [[[p|] n]|]; [| |done].
  - destruct (nc_heap s !! p); [|done]. destruct (_ && _); [|done]. destruct (should_promote _ _ _).
    + destruct (promote_entry p now s) as [s1|] eqn:Hp; [|done]. eapply rehash_stage_at; [done| |done]. by eapply promote_stage.
    + by eapply rehash_stage_at.
  - destruct (_ >=? _); [by eapply rehash_stage_at|].
    destruct (list_insert_head true _ _ _) as [s1|] eqn:H1; [|done].
    destruct (list_insert_head false _ _ _) as [s2|] eqn:H2; [|done]. eapply rehash_stage_at; [done| |done].
    unfold evict_entries. rewrite evict_stage. apply insert_stage in H1, H2. transitivity (stage s2); [done|]. by rewrite H2, H1.
Qed.
Lemma delete_stage mnt deno s s' : pfs_namecache_delete_by_deno mnt deno s = Some s' -> stage s' = stage s.
Proof. unfold pfs_namecache_delete_by_deno. intros H. run_inv H; [apply remove_stage|done]. Qed.
Lemma lookup_stage mnt par name now s r s' : pfs_namecache_lookup opts mnt par name now s = Some (r, s') -> stage s' = stage s.
Proof.
  unfold pfs_namecache_lookup. intros H. destruct (negb _); [congruence|]. destruct (bool_decide _); [congruence|].
  destruct (bucket _ _ _); [|done]. destruct (list_find _ _ _) as [[[p|] n]|]; simplify_eq/=; [|done].
  destruct (nc_heap s !! p) as [e|]; [|done]. destruct (should_promote _ _ _); [|by simplify_eq].
  destruct (promote_entry _ _ _) eqn:E; simplify_eq. by eapply promote_stage.
Qed.

Definition is_round (c : nc_call) : bool := match c with Round => true | _ => false end.
Definition rounds (cs : list nc_call) : Z := Z.of_nat (length (List.filter is_round cs)).
Definition thread_runs (cs : list nc_call) : bool := forallb (fun c => match c with ThreadFail => false | _ => true end) cs.

(** Where an expansion that began with [todo] buckets to move stands. *)
Definition expanding (old todo size : Z) (s : ncstate) : Prop :=
  match nc_expand s with
  | Some (b, e) => 0 < todo /\ b + todo = old /\ nchash_sz (nc_tbl s) = old /\ nchash_sz e = size
  | None => todo = 0 /\ nchash_sz (nc_tbl s) = size
  end.
Lemma expanding_stage old todo size s s' : stage s' = stage s -> expanding old todo size s -> expanding old todo size s'.
Proof.
  unfold stage, expanding. intros [= -> Hx]. destruct (nc_expand s) as [[b e]|], (nc_expand s') as [[b' e']|]; try done.
  by injection Hx as -> ->.
Qed.
Lemma expanding_settled old todo size s : expanding old todo size s -> get_nc_max opts <= size * SEARCH_DEPTH -> settled s.
Proof. unfold expanding, settled. destruct (nc_expand s) as [[b e]|]; [by left; eexists|]. intros [_ ->]. by right. Qed.

Lemma call_progress c old todo size s r s' : nc_ok s -> 0 <= get_nc_max opts -> call_ok s c -> c <> ThreadFail ->
  get_nc_max opts <= size * SEARCH_DEPTH -> expanding old todo size s -> nc_do c s = Some (r, s') ->
  expanding old (todo - (if is_round c then 1 else 0)) size s'.
Proof.
  intros Hs Hm Hc Hf Hsz Hx H. pose proof (expanding_settled _ _ _ _ Hx Hsz) as Hset.
  destruct c as [mnt par ino name deno now ncp mi mt md|mnt par name now|mnt deno|mnt| |]; cbn [nc_do is_round] in *; rewrite ?Z.sub_0_r; try done.
  - destruct (pfs_namecache_enter _ _ _ _ _ _ _ _ _ _ _ _) eqn:E; [|done]. simplify_eq. eapply expanding_stage; [by eapply enter_stage|done].
  - eapply expanding_stage; [by eapply lookup_stage|done].
  - destruct (pfs_namecache_delete_by_deno _ _ _) eqn:E; [|done]. simplify_eq. eapply expanding_stage; [by eapply delete_stage|done].
  - destruct (pfs_namecache_clear_mount mnt s) as [s1|] eqn:E; [|done]. simplify_eq. simpl in Hc.
    unfold pfs_namecache_clear_mount in E. rewrite Hc in E.
    destruct (clear_loop_ok mnt (Z.to_nat (nchash_sz (nc_tbl s))) 0 s) as (s2 & E2 & _ & Hx2 & Hs2 & _); [done..|].
    unfold expanding in *. rewrite Hc in Hx. assert (s2 = s') as -> by congruence. by rewrite Hx2, Hs2.
  - destruct Hc as [[b e] Hb]. destruct (maintenance_ok s b e Hs Hb) as (s1 & E & _ & _ & _ & Hcase). rewrite E in H. simplify_eq.
    unfold expanding in *. rewrite Hb in Hx. destruct Hx as (Ht & Hbt & Hold & Hse). destruct (_ =? _) eqn:Hl; bool_prop.
    + destruct Hcase as [-> ->]. split; [lia|done].
    + destruct Hcase as [Hsz' (e' & -> & Hes)]. rewrite Hsz'. split_and!; [lia|lia|congruence..].
Qed.

Lemma run_progress cs : forall old todo size s rs s', nc_ok s -> 0 <= get_nc_max opts -> calls_ok cs s -> thread_runs cs = true ->
  get_nc_max opts <= size * SEARCH_DEPTH -> expanding old todo size s -> nc_run cs s = Some (rs, s') ->
  expanding old (todo - rounds cs) size s'.
Proof.
  induction cs as [|c cs IH]; intros old todo size s rs s' Hs Hm Hc Ht Hsz Hx H; cbn [nc_run] in H.
  - simplify_eq. unfold rounds. simpl. by rewrite Z.sub_0_r.
  - destruct Hc as [Hc Hcs]. simpl in Ht. apply andb_true_iff in Ht as [Ht1 Ht].
    destruct (call_refines c s Hs Hm Hc) as (r & s1 & Hd & Hs1 & _). rewrite Hd in H. cbn [fst snd] in H.
    destruct (nc_run cs s1) as [[rs1 s2]|] eqn:Hr; [|done]. simplify_eq. cbn [snd].
    assert (Hx1 : expanding old (todo - (if is_round c then 1 else 0)) size s1).
    { assert (c <> ThreadFail) by (by intros ->). by apply (call_progress c old todo size s r s1). }
    eapply IH in Hx1; [|by eauto..]. unfold rounds in *. simpl. destruct (is_round c); simpl in *; [|by rewrite Z.sub_0_r in Hx1].
    replace (todo - _) with (todo - 1 - Z.of_nat (length (List.filter is_round cs))) by lia. done.
Qed.
End Calls.

(** ** The cache as it starts *)
Lemma nchinit_ok : exists s0, pfs_nchinit = Some s0 /\ nc_ok s0 /\ view s0 = [].
Proof.
  unfold pfs_nchinit. destruct (hash_init_ok DEFAULT_NC_SIZE) as (k & Hk & -> & _); [unfold DEFAULT_NC_SIZE; lia|].
  eexists. split; [done|]. split; [|done]. split; [|done].
  assert (Hb : forall nh hd l, bucket nh (MkCache ∅ (MkTbl (hash_alloc (2 ^ k)) (hash_alloc (2 ^ k)) (2 ^ k) (2 ^ k - 1)) None [] 0) hd = Some l -> l = []).
  { intros nh [[] i] l H; [done|]. simpl in H. destruct nh; by apply hash_alloc_empty in H. }
  split; simpl; try done.
  - constructor.
  - intros p. rewrite lookup_empty, elem_of_nil. split; [done|by intros [? ?]].
  - apply hash_alloc_ok. lia.
  - intros nh hd l H%Hb. subst. constructor.
  - intros nh hd l p H%Hb Hp. subst. by apply elem_of_nil in Hp.
Qed.

(** ** Properties *)

(** C15: The name cache does what a bounded list of names in the order of
    their use does.  It starts empty.  Consider any calls, at whatever stage
    of an expansion, such that a name that is entered again comes with the
    inode and the slot it was cached with, no slot is cached under two names,
    there is memory for the larger tables when an expansion starts (hash_alloc
    writes through a null pointer otherwise), and a mount is cleared when the
    expansion it waits for is over.  None of them aborts, a lookup finds exactly the names
    that have been entered and neither deleted nor displaced, and the cache
    never holds more names than its limit. *)
Theorem namecache_refines (opts : ncopts) (Hmax : 0 <= get_nc_max opts) :
  (exists s0, pfs_nchinit = Some s0 /\ nc_ok s0 /\ view s0 = []) /\
  forall cs s, nc_ok s -> Z.of_nat (length (view s)) <= get_nc_max opts -> calls_ok opts cs s ->
    exists rs s', nc_run opts cs s = Some (rs, s') /\ nc_ok s' /\ nc_specs opts cs (view s) rs (view s') /\
      numcache s' <= get_nc_max opts.
Proof.
  split; [apply nchinit_ok|]. intros cs s Hs Hl Hc.
  destruct (run_refines_spec opts cs s Hs Hmax Hc) as (rs & s' & Hr & Hs' & Hsp). exists rs, s'. split_and!; [done..|].
  rewrite <- view_length by apply Hs'. by eapply specs_bounded.
Qed.

(** C27: An expansion ends: with its thread running, every round moves one
    bucket whatever calls are made in between, no other call sets the
    expansion back, and when as many rounds have run as there were buckets to
    move the larger tables are in place. *)
Theorem expansion_ends (opts : ncopts) (cs : list nc_call) (s : ncstate) (b : Z) (e : hashtbl)
    (Hmax : 0 <= get_nc_max opts <= nchash_sz e * SEARCH_DEPTH) (Hs : nc_ok s) (Hx : nc_expand s = Some (b, e))
    (Hc : calls_ok opts cs s) (Ht : thread_runs cs = true) :
  exists rs s', nc_run opts cs s = Some (rs, s') /\
    let left := nchash_sz (nc_tbl s) - b - rounds cs in
    0 <= left /\ (0 < left -> exists e', nc_expand s' = Some (b + rounds cs, e')) /\
    (left = 0 -> nc_expand s' = None /\ nchash_sz (nc_tbl s') = nchash_sz e).
Proof.
  destruct (run_refines_spec opts cs s Hs) as (rs & s' & Hr & Hs' & _); [lia|done|]. exists rs, s'. split; [done|].
  assert (Hb : expanding (nchash_sz (nc_tbl s)) (nchash_sz (nc_tbl s) - b) (nchash_sz e) s).
  { unfold expanding. rewrite Hx. destruct Hs as [_ Hs]. specialize (Hs b e Hx). split_and!; [lia|lia|done..]. }
  pose proof (run_progress opts cs _ _ _ s rs s' Hs (proj1 Hmax) Hc Ht (proj2 Hmax) Hb Hr) as Hp.
  unfold expanding in Hp. cbv zeta. destruct (nc_expand s') as [[b' e']|].
  - destruct Hp as (Hp & Hb' & _). split_and!; [lia| |lia]. intros _. exists e'. do 2 f_equal. lia.
  - destruct Hp as [Hp ->]. split_and!; [lia|lia|done].
Qed.

(** *** Witnesses: a table of two buckets that grows to four *)
Definition ex_nc_opts : ncopts := MkOpts 16 true 100000 200.
Definition ex_cache : ncstate := MkCache ∅ (MkTbl [[]; []] [[]; []] 2 1) None [] 0.

Lemma ex_cache_ok : nc_ok ex_cache.
Proof.
  split; [|done]. split; simpl; try done.
  - constructor.
  - intros p. rewrite lookup_empty, elem_of_nil. split; [done|by intros [? ?]].
  - split; [done|by exists 1|by intros []].
  - intros [] [[] [|[|i]]] l H; simplify_eq/=; constructor.
  - intros [] [[] [|[|i]]] l p H Hp; simplify_eq/=; by apply elem_of_nil in Hp.
Qed.

(** Two names are entered while the tables grow, one of them is deleted. *)
Definition ex_nc_calls : list nc_call :=
  [Enter 4096 0 7 [97] 3 50 512 true true true; Round; Enter 4096 0 8 [98] 4 60 768 true true true; Lookup 4096 0 [97] 70;
   Round; DeleteByDeno 4096 3; Lookup 4096 0 [97] 80; Lookup 4096 0 [98] 90].

Ltac next_call := split; [|intros ? ? Hnext; vm_compute in Hnext; injection Hnext as <- <-].
Lemma ex_nc_calls_ok : calls_ok ex_nc_opts ex_nc_calls ex_cache.
Proof.
  next_call; [split_and!; try done; by intros e He%elem_of_nil|]. next_call; [by eexists|].
  next_call.
  { split_and!; try done. intros e He. vm_compute in He. apply list_elem_of_singleton in He as ->.
    split; intros H; vm_compute in H; discriminate H. }
  next_call; [done|]. next_call; [by eexists|]. next_call; [done|]. next_call; [done|]. next_call; [done|done].
Qed.

Lemma namecache_refines_witness :
  exists rs s', nc_run ex_nc_opts ex_nc_calls ex_cache = Some (rs, s') /\
    rs = [inl 0; inl 0; inl 0; inl 7; inl 0; inl 0; inr (- ENOENT); inl 8] /\ numcache s' = 1 /\ numcache s' <= 16.
Proof.
  destruct (namecache_refines ex_nc_opts) as [_ H]; [done|].
  destruct (H ex_nc_calls ex_cache ex_cache_ok) as (rs & s' & Hr & _ & _ & Hn); [done|apply ex_nc_calls_ok|].
  exists rs, s'. split; [done|]. vm_compute in Hr. injection Hr as <- <-. by vm_compute.
Defined.

Definition ex_growing : ncstate :=
  MkCache ∅ (MkTbl [[]; []] [[]; []] 2 1) (Some (0, MkTbl [[]; []; []; []] [[]; []; []; []] 4 3)) [] 0.
Lemma ex_growing_ok : nc_ok ex_growing.
Proof.
  split; [|intros b e [= <- <-]; done]. split; simpl; try done.
  - constructor.
  - intros p. rewrite lookup_empty, elem_of_nil. split; [done|by intros [? ?]].
  - split; [done|by exists 1|by intros []].
  - intros b e [= <- <-]. split; [|lia]. split; [done|by exists 2|by intros []].
  - intros [] [[] [|[|[|[|i]]]]] l H; simplify_eq/=; constructor.
  - intros [] [[] [|[|[|[|i]]]]] l p H Hp; simplify_eq/=; by apply elem_of_nil in Hp.
Qed.
Definition ex_rounds : list nc_call := [Round; Enter 4096 0 7 [97] 3 50 512 true true true; Round; Lookup 4096 0 [97] 60].
Lemma ex_rounds_ok : calls_ok ex_nc_opts ex_rounds ex_growing.
Proof.
  next_call; [by eexists|]. next_call; [split_and!; try done; by intros e He%elem_of_nil|]. next_call; [by eexists|].
  next_call; [done|done].
Qed.

Lemma expansion_ends_witness :
  exists rs s', nc_run ex_nc_opts ex_rounds ex_growing = Some (rs, s') /\
    nc_expand s' = None /\ nchash_sz (nc_tbl s') = 4 /\ rs = [inl 0; inl 0; inl 0; inl 7].
Proof.
  destruct (expansion_ends ex_nc_opts ex_rounds ex_growing 0 (MkTbl [[]; []; []; []] [[]; []; []; []] 4 3))
    as (rs & s' & Hr & _ & _ & H); [by vm_compute|apply ex_growing_ok|done|apply ex_rounds_ok|done|].
  exists rs, s'. split; [done|]. destruct (H eq_refl) as [Hx Hz]. split_and!; [done..|]. vm_compute in Hr. by injection Hr as <- <-.
Defined.
