(* ===== verification/Crc.v ===== *)
(** * CRC-32C

    Model of [pfs_fastcrc32c_sw] (third-party/fast-crc32/sw_crc32c.cc), the
    portable implementation the checksum dispatch falls back to, and of the
    wrappers [crc32c] and [crc32c_compute] of pfs_util.cc.  A buffer is the
    list of its bytes.  The slicing-by-8 table code is shown equal to the
    bit-at-a-time definition of CRC-32C, and any change confined to one byte
    of a buffer is shown to change the checksum. *)

From S2P Require Import Prelude.

(** The reflected CRC-32C polynomial [kPoly]. *)
Definition kPoly : Z := 2197175160.

(** One round of [make_tables]: [c = (c >> 1) ^ (kPoly & -(c & 1))]. *)
Definition crc_bit (c : Z) : Z :=
  Z.lxor (Z.shiftr c 1) (Z.land kPoly (- Z.land c 1)).

(** [t[0][b]] before it is stored. *)
Definition table0_entry (b : Z) : Z := Nat.iter 8 crc_bit b.

(** One round of the second loop of [make_tables]. *)
Definition table_next (t0 : list Z) (c : Z) : Z :=
  Z.lxor (nth (Z.to_nat (Z.land c 255)) t0 0) (Z.shiftr c 8).

Definition make_tables : list (list Z) :=
  let bytes := Z.of_nat <$> seq 0 256 in
  let t0 := table0_entry <$> bytes in
  (fun s => Nat.iter s (table_next t0) <$> t0) <$> seq 0 8.

Definition kTab : list (list Z) := Eval vm_compute in make_tables.

(** [kTab[s][i]]. *)
Definition ktab (s : nat) (i : Z) : Z := nth (Z.to_nat i) (nth s kTab []) 0.

(** The tail loop: [crc = kTab[0][(crc ^ *p++) & 0xFF] ^ (crc >> 8)]. *)
Definition crc_byte (crc p : Z) : Z :=
  Z.lxor (ktab 0 (Z.land (Z.lxor crc p) 255)) (Z.shiftr crc 8).

(** The body of the 8-byte loop. *)
Definition crc_word8 (crc p0 p1 p2 p3 p4 p5 p6 p7 : Z) : Z :=
  let lo := Z.lor (Z.lor (Z.lor p0 (Z.shiftl p1 8)) (Z.shiftl p2 16)) (Z.shiftl p3 24) in
  let hi := Z.lor (Z.lor (Z.lor p4 (Z.shiftl p5 8)) (Z.shiftl p6 16)) (Z.shiftl p7 24) in
  let lo := Z.lxor lo crc in
  Z.lxor (Z.lxor (Z.lxor (Z.lxor (Z.lxor (Z.lxor (Z.lxor
    (ktab 7 (Z.land lo 255))
    (ktab 6 (Z.land (Z.shiftr lo 8) 255)))
    (ktab 5 (Z.land (Z.shiftr lo 16) 255)))
    (ktab 4 (Z.land (Z.shiftr lo 24) 255)))
    (ktab 3 (Z.land hi 255)))
    (ktab 2 (Z.land (Z.shiftr hi 8) 255)))
    (ktab 1 (Z.land (Z.shiftr hi 16) 255)))
    (ktab 0 (Z.land (Z.shiftr hi 24) 255)).

(** Both loops: 8 bytes at a time while 8 are left, then byte by byte. *)
Fixpoint crc_loop (crc : Z) (buf : list Z) : Z :=
  match buf with
  | p0 :: p1 :: p2 :: p3 :: p4 :: p5 :: p6 :: p7 :: rest =>
      crc_loop (crc_word8 crc p0 p1 p2 p3 p4 p5 p6 p7) rest
  | _ => foldl crc_byte crc buf
  end.

Definition pfs_fastcrc32c_sw (crc : Z) (buf : list Z) : Z :=
  not32 (crc_loop (not32 crc) buf).

(** pfs_util.cc: [return ~fastcrc32::crc32c(~crc, buf, size)]. *)
Definition crc32c (crc : Z) (buf : list Z) : Z :=
  not32 (pfs_fastcrc32c_sw (not32 crc) buf).

(** pfs_util.cc: the checksum of [buf] with the 32-bit field at [offset]
    zeroed first; the seed is [(uint32_t)~1]. *)
Definition crc32c_compute (buf : list Z) (offset : nat) : Z :=
  let dup := take offset buf ++ replicate 4 0 ++ drop (offset + 4) buf in
  crc32c (not32 1) dup.

(** ** Reference definition: CRC-32C one bit at a time. *)
Definition crc_ref_byte (c p : Z) : Z := Nat.iter 8 crc_bit (Z.lxor c p).
Definition crc32c_ref (crc : Z) (buf : list Z) : Z := foldl crc_ref_byte crc buf.

(** ** Linearity of the bit step *)
Lemma crc_bit_lxor a b : crc_bit (Z.lxor a b) = Z.lxor (crc_bit a) (crc_bit b).
Proof.
  unfold crc_bit. rewrite Z.shiftr_lxor.
  assert (Hm : forall x, - Z.land x 1 = if Z.odd x then -1 else 0).
  { intros x. change 1 with (Z.ones 1). rewrite Z.land_ones by lia.
    change (2 ^ 1) with 2. rewrite Zmod_odd. by destruct (Z.odd x). }
  rewrite !Hm, <- !Z.bit0_odd, Z.lxor_spec.
  destruct (Z.testbit a 0), (Z.testbit b 0); simpl;
    rewrite ?Z.land_0_r, ?Z.land_m1_r, ?Z.lxor_0_r; try done;
    apply Z.bits_inj'; intros n _; rewrite !Z.lxor_spec;
    by destruct (Z.testbit (Z.shiftr a 1) n), (Z.testbit (Z.shiftr b 1) n),
      (Z.testbit kPoly n).
Qed.

Lemma crc_bits_lxor n a b :
  Nat.iter n crc_bit (Z.lxor a b) = Z.lxor (Nat.iter n crc_bit a) (Nat.iter n crc_bit b).
Proof. induction n; simpl; [done|]. by rewrite IHn, crc_bit_lxor. Qed.

Lemma crc_bit_shiftl x n : 0 < n -> crc_bit (Z.shiftl x n) = Z.shiftl x (n - 1).
Proof.
  intros Hn. unfold crc_bit.
  replace (Z.land (Z.shiftl x n) 1) with 0.
  - rewrite Z.land_0_r, Z.lxor_0_r, Z.shiftr_shiftl_l by lia. done.
  - symmetry. change 1 with (Z.ones 1). rewrite Z.land_ones by lia.
    rewrite Z.shiftl_mul_pow2 by lia. replace n with ((n - 1) + 1) by lia.
    rewrite Z.pow_add_r by lia. rewrite Z.mul_assoc. apply Z.mod_mul. lia.
Qed.

Lemma crc_bits_shiftl n m x :
  (n <= m)%nat ->
  Nat.iter n crc_bit (Z.shiftl x (Z.of_nat m)) = Z.shiftl x (Z.of_nat (m - n)).
Proof.
  induction n; intros; simpl; [by rewrite Nat.sub_0_r|].
  rewrite IHn by lia. rewrite crc_bit_shiftl by lia. f_equal. lia.
Qed.

(** Shifting out [8*k] zero bits first. *)
Lemma crc_bits_shiftl_add k n x :
  Nat.iter (n + k) crc_bit (Z.shiftl x (Z.of_nat k)) = Nat.iter n crc_bit x.
Proof.
  rewrite Nat.iter_add, (crc_bits_shiftl k k) by lia. by rewrite Nat.sub_diag, Z.shiftl_0_r.
Qed.

(** A value is its low byte and the rest. *)
Lemma split_byte x : x = Z.lxor (Z.land x 255) (Z.shiftl (Z.shiftr x 8) 8).
Proof.
  apply Z.bits_inj'. intros n Hn. rewrite Z.lxor_spec. change 255 with (Z.ones 8).
  rewrite Z.land_spec. destruct (Z.ltb_spec n 8).
  - rewrite Z.ones_spec_low, Z.shiftl_spec_low by lia. by rewrite andb_true_r, xorb_false_r.
  - rewrite Z.ones_spec_high by lia. rewrite Z.shiftl_spec, Z.shiftr_spec by lia.
    rewrite andb_false_r, xorb_false_l. f_equal. lia.
Qed.

(** Eight bit steps are one table step. *)
Lemma crc_8bits x :
  Nat.iter 8 crc_bit x = Z.lxor (Nat.iter 8 crc_bit (Z.land x 255)) (Z.shiftr x 8).
Proof.
  rewrite (split_byte x) at 1. rewrite crc_bits_lxor. f_equal.
  change 8 with (Z.of_nat 8). by rewrite (crc_bits_shiftl 8 8), Z.shiftl_0_r by lia.
Qed.

(** ** The tables *)
Lemma kTab_checked :
  forallb (fun s => forallb (fun i =>
    ktab s (Z.of_nat i) =? Nat.iter (8 * S s) crc_bit (Z.of_nat i)) (seq 0 256)) (seq 0 8) = true.
Proof. vm_compute. reflexivity. Qed.

Lemma ktab_spec s i : (s < 8)%nat -> 0 <= i < 256 -> ktab s i = Nat.iter (8 * S s) crc_bit i.
Proof.
  intros Hs Hi. pose proof kTab_checked as H. rewrite forallb_forall in H.
  specialize (H s ltac:(apply in_seq; lia)). rewrite forallb_forall in H.
  specialize (H (Z.to_nat i) ltac:(apply in_seq; lia)). apply Z.eqb_eq in H.
  by rewrite Z2Nat.id in H by lia.
Qed.

Lemma land255_range x : 0 <= Z.land x 255 < 256.
Proof. change 255 with (Z.ones 8). rewrite Z.land_ones by lia. apply Z.mod_pos_bound. lia. Qed.

Lemma ktab_land s x : (s < 8)%nat -> ktab s (Z.land x 255) = Nat.iter (8 * S s) crc_bit (Z.land x 255).
Proof. intros. apply ktab_spec; auto using land255_range. Qed.

(** The byte step of the code is the byte step of the reference. *)
Lemma crc_byte_ref c p : is_u8 p -> crc_byte c p = crc_ref_byte c p.
Proof.
  intros [Hp0 Hp]. unfold crc_byte, crc_ref_byte. rewrite ktab_land by lia.
  rewrite (crc_8bits (Z.lxor c p)). f_equal.
  rewrite Z.shiftr_lxor. rewrite (Z.shiftr_div_pow2 p) by lia.
  rewrite Z.div_small by lia. by rewrite Z.lxor_0_r.
Qed.

(** A 32-bit value split into its four bytes. *)
Lemma crc_iter_split n x :
  Nat.iter (n + 8) crc_bit x =
  Z.lxor (Nat.iter (n + 8) crc_bit (Z.land x 255)) (Nat.iter n crc_bit (Z.shiftr x 8)).
Proof.
  rewrite (split_byte x) at 1. rewrite crc_bits_lxor. f_equal.
  change 8 with (Z.of_nat 8). by rewrite crc_bits_shiftl_add.
Qed.

Lemma crc_iter_split4 n x :
  is_u32 x ->
  Nat.iter (n + 32) crc_bit x =
  Z.lxor (Z.lxor (Z.lxor (Nat.iter (n + 32) crc_bit (Z.land x 255))
    (Nat.iter (n + 24) crc_bit (Z.land (Z.shiftr x 8) 255)))
    (Nat.iter (n + 16) crc_bit (Z.land (Z.shiftr x 16) 255)))
    (Nat.iter (n + 8) crc_bit (Z.land (Z.shiftr x 24) 255)).
Proof.
  intros [Hx0 Hx].
  replace (n + 32)%nat with (n + 24 + 8)%nat by lia. rewrite (crc_iter_split _ x).
  replace (n + 24)%nat with (n + 16 + 8)%nat by lia. rewrite (crc_iter_split _ (Z.shiftr x 8)).
  replace (n + 16)%nat with (n + 8 + 8)%nat by lia.
  rewrite (Z.shiftr_shiftr x 8 8) by lia. change (8 + 8) with 16.
  rewrite (crc_iter_split _ (Z.shiftr x 16)), (Z.shiftr_shiftr x 16 8) by lia.
  change (16 + 8) with 24.
  assert (E : Z.land (Z.shiftr x 24) 255 = Z.shiftr x 24).
  { change 255 with (Z.ones 8). rewrite Z.land_ones by lia. apply Z.mod_small.
    rewrite Z.shiftr_div_pow2 by lia. split; [apply Z.div_pos; lia|].
    apply Z.div_lt_upper_bound; lia. }
  rewrite E, !Z.lxor_assoc. reflexivity.
Qed.

(** ** The 8-byte step *)
Lemma land_shiftl_low a b n : 0 <= n -> 0 <= a < 2 ^ n -> Z.land a (Z.shiftl b n) = 0.
Proof.
  intros Hn Ha. apply Z.bits_inj'. intros i Hi. rewrite Z.land_spec, Z.bits_0.
  destruct (Z.ltb_spec i n); [rewrite Z.shiftl_spec_low by lia; apply andb_false_r|].
  replace a with (a mod 2 ^ n) by (apply Z.mod_small; lia).
  by rewrite Z.mod_pow2_bits_high by lia.
Qed.

Lemma lor_shiftl a b n :
  0 <= n -> 0 <= a < 2 ^ n -> Z.lor a (Z.shiftl b n) = Z.lxor a (Z.shiftl b n).
Proof. intros. symmetry. apply Z.lxor_lor. by apply land_shiftl_low. Qed.

Lemma lxor_shiftl_range a b n m :
  0 <= n -> 0 <= m -> 0 <= a < 2 ^ n -> 0 <= b < 2 ^ m ->
  0 <= Z.lxor a (Z.shiftl b n) < 2 ^ (n + m).
Proof.
  intros. rewrite <- lor_shiftl, Z.lor_comm by lia.
  rewrite <- Z.lxor_lor by (rewrite Z.land_comm; by apply land_shiftl_low).
  rewrite <- Z.add_nocarry_lxor by (rewrite Z.land_comm; by apply land_shiftl_low).
  rewrite Z.shiftl_mul_pow2, Z.pow_add_r by lia. nia.
Qed.

Definition word4 (p0 p1 p2 p3 : Z) : Z :=
  Z.lxor (Z.lxor (Z.lxor p0 (Z.shiftl p1 8)) (Z.shiftl p2 16)) (Z.shiftl p3 24).

Lemma word4_lor p0 p1 p2 p3 :
  is_u8 p0 -> is_u8 p1 -> is_u8 p2 -> is_u8 p3 ->
  Z.lor (Z.lor (Z.lor p0 (Z.shiftl p1 8)) (Z.shiftl p2 16)) (Z.shiftl p3 24) = word4 p0 p1 p2 p3
  /\ is_u32 (word4 p0 p1 p2 p3).
Proof.
  unfold is_u8, word4, is_u32. intros.
  pose proof (lxor_shiftl_range p0 p1 8 8) as R1.
  pose proof (lxor_shiftl_range (Z.lxor p0 (Z.shiftl p1 8)) p2 16 8) as R2.
  pose proof (lxor_shiftl_range (Z.lxor (Z.lxor p0 (Z.shiftl p1 8)) (Z.shiftl p2 16)) p3 24 8) as R3.
  rewrite (lor_shiftl p0), (lor_shiftl (Z.lxor _ _)), (lor_shiftl (Z.lxor _ _)) by lia. split; [done|lia].
Qed.

Lemma u32_ones x : is_u32 x <-> Z.land x (Z.ones 32) = x.
Proof.
  unfold is_u32. rewrite Z.land_ones by lia. split; [intros; apply Z.mod_small; lia|].
  intros <-. apply Z.mod_pos_bound. lia.
Qed.

Lemma lxor_u32 a b : is_u32 a -> is_u32 b -> is_u32 (Z.lxor a b).
Proof.
  rewrite !u32_ones. intros Ha Hb. apply Z.bits_inj'. intros n Hn.
  rewrite <- Ha, <- Hb, !Z.land_spec, !Z.lxor_spec, !Z.land_spec.
  by destruct (Z.testbit a n), (Z.testbit b n), (Z.testbit (Z.ones 32) n).
Qed.

Lemma crc_bit_u32 c : is_u32 c -> is_u32 (crc_bit c).
Proof.
  intros Hc. apply lxor_u32.
  - unfold is_u32 in *. rewrite Z.shiftr_div_pow2 by lia.
    split; [apply Z.div_pos; lia|]. apply Z.div_lt_upper_bound; lia.
  - apply u32_ones. rewrite Z.land_comm, Z.land_assoc. f_equal.
Qed.

Lemma crc_bits_u32 n c : is_u32 c -> is_u32 (Nat.iter n crc_bit c).
Proof. induction n; simpl; auto using crc_bit_u32. Qed.

Lemma u8_u32 p : is_u8 p -> is_u32 p.
Proof. unfold is_u8, is_u32. lia. Qed.

Lemma crc_ref_u32 c l : is_u32 c -> Forall is_u8 l -> is_u32 (foldl crc_ref_byte c l).
Proof.
  intros Hc Hl. revert c Hc. induction Hl; intros; simpl; [done|].
  apply IHHl. by apply crc_bits_u32, lxor_u32; [|apply u8_u32].
Qed.
#[export] Hint Resolve lxor_u32 crc_ref_u32 u8_u32 : pfs.

Lemma crc_ref_shift m x p :
  crc_ref_byte (Nat.iter m crc_bit x) p =
  Nat.iter (8 + m) crc_bit (Z.lxor x (Z.shiftl p (Z.of_nat m))).
Proof.
  unfold crc_ref_byte. rewrite (crc_bits_lxor (8 + m)), crc_bits_shiftl_add.
  by rewrite crc_bits_lxor, Nat.iter_add.
Qed.

(** Four bytes of the reference are 32 bit steps on the word they form. *)
Lemma crc_ref_word c p0 p1 p2 p3 :
  foldl crc_ref_byte c [p0; p1; p2; p3] = Nat.iter 32 crc_bit (Z.lxor c (word4 p0 p1 p2 p3)).
Proof.
  unfold foldl, word4. rewrite <- (Z.shiftl_0_r p0) at 1.
  change c with (Nat.iter 0 crc_bit c) at 1.
  change 0 with (Z.of_nat 0) at 1.
  rewrite (crc_ref_shift 0), (crc_ref_shift 8), (crc_ref_shift 16), (crc_ref_shift 24).
  by rewrite !Z.shiftl_0_r, !Z.lxor_assoc.
Qed.

Lemma crc_word8_ref c p0 p1 p2 p3 p4 p5 p6 p7 :
  is_u32 c -> Forall is_u8 [p0; p1; p2; p3; p4; p5; p6; p7] ->
  crc_word8 c p0 p1 p2 p3 p4 p5 p6 p7 = foldl crc_ref_byte c [p0; p1; p2; p3; p4; p5; p6; p7].
Proof.
  intros Hc Hp. rewrite !Forall_cons in Hp. destruct Hp as (?&?&?&?&?&?&?&?&_).
  destruct (word4_lor p0 p1 p2 p3) as [Elo Rlo]; try done.
  destruct (word4_lor p4 p5 p6 p7) as [Ehi Rhi]; try done.
  change [p0; p1; p2; p3; p4; p5; p6; p7] with ([p0; p1; p2; p3] ++ [p4; p5; p6; p7]).
  rewrite foldl_app, !crc_ref_word, crc_bits_lxor, <- Nat.iter_add.
  unfold crc_word8. rewrite Elo, Ehi. rewrite (Z.lxor_comm c).
  pose proof (lxor_u32 _ _ Rlo Hc) as Rx.
  rewrite (crc_iter_split4 32 _ Rx).
  change (Nat.iter 32 crc_bit (word4 p4 p5 p6 p7)) with (Nat.iter (0 + 32) crc_bit (word4 p4 p5 p6 p7)).
  rewrite (crc_iter_split4 0 _ Rhi), !ktab_land by lia.
  rewrite !Z.lxor_assoc. reflexivity.
Qed.

Lemma crc_bytes_ref c l : Forall is_u8 l -> foldl crc_byte c l = foldl crc_ref_byte c l.
Proof. intros H. revert c. induction H; intros; simpl; [done|]. by rewrite crc_byte_ref. Qed.

Lemma crc_loop_ref c l : is_u32 c -> Forall is_u8 l -> crc_loop c l = crc32c_ref c l.
Proof.
  remember (length l) as n eqn:En. revert c l En.
  induction (lt_wf n) as [n _ IH]. intros c l -> Hc Hl. unfold crc32c_ref.
  destruct l as [|p0 [|p1 [|p2 [|p3 [|p4 [|p5 [|p6 [|p7 rest]]]]]]]];
    try exact (crc_bytes_ref c _ Hl).
  cbn [crc_loop].
  change (p0 :: p1 :: p2 :: p3 :: p4 :: p5 :: p6 :: p7 :: rest) with
    ([p0; p1; p2; p3; p4; p5; p6; p7] ++ rest) in *.
  apply Forall_app in Hl as [H8 Hr]. rewrite foldl_app, <- crc_word8_ref by done.
  apply (IH (length rest)); auto; [rewrite length_app; simpl; lia|].
  rewrite crc_word8_ref by done. by apply crc_ref_u32.
Qed.

Lemma not32_invol x : not32 (not32 x) = x.
Proof. unfold not32. by rewrite Z.lxor_assoc, Z.lxor_nilpotent, Z.lxor_0_r. Qed.
Lemma not32_u32 x : is_u32 x -> is_u32 (not32 x).
Proof. intros. apply lxor_u32; [done|]. unfold is_u32, u32_max. lia. Qed.

Lemma crc32c_is_bitwise_aux crc buf :
  is_u32 crc -> Forall is_u8 buf -> crc32c crc buf = crc32c_ref crc buf.
Proof.
  intros. unfold crc32c, pfs_fastcrc32c_sw. rewrite !not32_invol. by apply crc_loop_ref.
Qed.

(** C37: The slicing-by-8 table implementation behind [crc32c] computes the
    bit-at-a-time CRC-32C of the buffer, for every buffer of bytes and every
    32-bit seed. *)
Theorem crc32c_is_bitwise (crc : Z) (buf : list Z) (Hc : is_u32 crc) (Hb : Forall is_u8 buf) :
  crc32c crc buf = crc32c_ref crc buf.
Proof. by apply crc32c_is_bitwise_aux. Qed.

Lemma crc32c_is_bitwise_witness :
  crc32c 7 [1; 2; 3; 4; 5; 6; 7; 8; 9] = crc32c_ref 7 [1; 2; 3; 4; 5; 6; 7; 8; 9].
Proof.
  apply (crc32c_is_bitwise 7 [1; 2; 3; 4; 5; 6; 7; 8; 9]).
  - split; vm_compute; congruence.
  - repeat constructor; vm_compute; congruence.
Defined.

(** ** Error detection *)
Lemma crc_bit_zero x : is_u32 x -> crc_bit x = 0 -> x = 0.
Proof.
  intros [Hx0 Hx] H. unfold crc_bit in H. apply Z.lxor_eq in H.
  change (Z.land x 1) with (Z.land x (Z.ones 1)) in H.
  rewrite Z.land_ones, Z.shiftr_div_pow2 in H by lia. change (2 ^ 1) with 2 in H.
  assert (x mod 2 = 0 \/ x mod 2 = 1) as [E|E] by (pose proof (Z.mod_pos_bound x 2); lia);
    rewrite E in H.
  - change (- (0)) with 0 in H. rewrite Z.land_0_r in H. pose proof (Z.div_mod x 2). lia.
  - change (- (1)) with (-1) in H. rewrite Z.land_m1_r in H. unfold kPoly in H.
    pose proof (Z.div_mod x 2). lia.
Qed.

Lemma crc_bits_inj n x y :
  is_u32 x -> is_u32 y -> Nat.iter n crc_bit x = Nat.iter n crc_bit y -> x = y.
Proof.
  intros Hx Hy. induction n; simpl; [done|]. intros H. apply IHn.
  apply Z.lxor_eq, crc_bit_zero; [apply lxor_u32; by apply crc_bits_u32|].
  by rewrite crc_bit_lxor, H, Z.lxor_nilpotent.
Qed.

Lemma lxor_cancel_l a b c : Z.lxor a b = Z.lxor a c -> b = c.
Proof.
  intros H. apply (f_equal (Z.lxor a)) in H.
  by rewrite <- !Z.lxor_assoc, Z.lxor_nilpotent, !Z.lxor_0_l in H.
Qed.

Lemma crc_ref_byte_inj c c' p :
  is_u32 c -> is_u32 c' -> is_u8 p -> crc_ref_byte c p = crc_ref_byte c' p -> c = c'.
Proof.
  unfold crc_ref_byte. generalize 8%nat. intros n Hc Hc' Hp H.
  apply crc_bits_inj in H; auto with pfs.
  rewrite (Z.lxor_comm c), (Z.lxor_comm c') in H. by apply lxor_cancel_l in H.
Qed.

Lemma crc_ref_byte_u32 c p : is_u32 c -> is_u8 p -> is_u32 (crc_ref_byte c p).
Proof. intros. apply crc_bits_u32. auto with pfs. Qed.

Lemma crc_ref_inj c c' l :
  is_u32 c -> is_u32 c' -> Forall is_u8 l -> crc32c_ref c l = crc32c_ref c' l -> c = c'.
Proof.
  unfold crc32c_ref. intros Hc Hc' Hl. revert c c' Hc Hc'.
  induction Hl as [|p l Hp Hl IH]; intros c c' Hc Hc'; cbn [foldl]; [done|]. intros H.
  apply IH in H; [|by apply crc_ref_byte_u32..].
  by apply crc_ref_byte_inj in H.
Qed.

Lemma lxor_shiftl_add a b n :
  0 <= n -> 0 <= a < 2 ^ n -> 0 <= b -> Z.lxor a (Z.shiftl b n) = a + b * 2 ^ n.
Proof.
  intros. rewrite <- Z.add_nocarry_lxor by (by apply land_shiftl_low).
  by rewrite Z.shiftl_mul_pow2 by lia.
Qed.

Lemma word4_add p0 p1 p2 p3 :
  is_u8 p0 -> is_u8 p1 -> is_u8 p2 -> is_u8 p3 ->
  word4 p0 p1 p2 p3 = p0 + p1 * 2 ^ 8 + p2 * 2 ^ 16 + p3 * 2 ^ 24.
Proof.
  unfold is_u8, word4. intros.
  rewrite (lxor_shiftl_add p0), (lxor_shiftl_add (p0 + _)), (lxor_shiftl_add (p0 + _ + _)) by lia.
  done.
Qed.

(** C38: Damage confined to four consecutive bytes of a buffer is always
    detected: if two buffers agree outside one 4-byte window and differ
    inside it, their checksums differ. *)
Theorem crc32c_detects_burst (crc : Z) (a b u v : list Z)
    (Hc : is_u32 crc) (Hab : Forall is_u8 (a ++ b)) (Hu : Forall is_u8 u) (Hv : Forall is_u8 v)
    (Lu : length u = 4%nat) (Lv : length v = 4%nat) (Huv : u <> v) :
  crc32c crc (a ++ u ++ b) <> crc32c crc (a ++ v ++ b).
Proof.
  apply Forall_app in Hab as [Ha Hb].
  rewrite (crc32c_is_bitwise_aux crc (a ++ u ++ b)), (crc32c_is_bitwise_aux crc (a ++ v ++ b))
    by (try done; repeat (apply Forall_app; split); done).
  unfold crc32c_ref. rewrite !foldl_app. intros H. apply Huv.
  destruct u as [|u0 [|u1 [|u2 [|u3 [|]]]]]; try discriminate.
  destruct v as [|v0 [|v1 [|v2 [|v3 [|]]]]]; try discriminate.
  rewrite !crc_ref_word in H.
  pose proof (crc_ref_u32 crc a Hc Ha) as Hca.
  rewrite !Forall_cons in Hu, Hv. destruct Hu as (?&?&?&?&_), Hv as (?&?&?&?&_).
  destruct (word4_lor u0 u1 u2 u3) as [_ Ru]; try done.
  destruct (word4_lor v0 v1 v2 v3) as [_ Rv]; try done.
  apply crc_ref_inj in H; [|apply crc_bits_u32; auto with pfs..|done].
  apply crc_bits_inj in H; auto with pfs. apply lxor_cancel_l in H.
  rewrite !word4_add in H by done. unfold is_u8 in *.
  assert (u0 = v0 /\ u1 = v1 /\ u2 = v2 /\ u3 = v3) as (->&->&->&->) by lia. done.
Qed.

Lemma crc32c_detects_burst_witness :
  crc32c 0 ([1; 2] ++ [3; 4; 5; 6] ++ [7]) <> crc32c 0 ([1; 2] ++ [3; 4; 0; 6] ++ [7]).
Proof.
  apply (crc32c_detects_burst 0 [1; 2] [7] [3; 4; 5; 6] [3; 4; 0; 6]); try reflexivity;
    try (repeat constructor; vm_compute; congruence); congruence.
Defined.

(** ** The field the checksum is stored in *)
Lemma crc32c_compute_field a w b off :
  length a = off -> length w = 4%nat ->
  crc32c_compute (a ++ w ++ b) off = crc32c (not32 1) (a ++ replicate 4 0 ++ b).
Proof.
  intros Ha Hw. unfold crc32c_compute. subst off. rewrite take_app_length.
  rewrite drop_app_add, drop_app_length' by done. done.
Qed.
