(* ===== verification/Lease.v ===== *)
(** * Host records, leader record and the cross-host RW lease

    Model of pfs_paxos.cc / pfs_paxos.h: the per-host lease sectors, the
    leader sector, and the acquisition protocol of [pfs_leader_load]
    (watch bad sectors, check, prepare, verify, acquire, conflict check,
    watchdog), renewal, release, and the lease part of the log thread.

    Code that talks to the outside world is a [prog]: a tree of the clock
    readings, sector reads and writes and system calls it makes, in program
    order, each with the continuation that receives its result.  Running a
    [prog] against a world is the subject of LeaseSafe.v. *)

From S2P Require Import Prelude Crc.

(** ** Times

    A [struct timespec] is the number of nanoseconds it denotes. *)
Definition NSEC : Z := 1000000000.
Definition tv_sec (t : Z) : Z := t / NSEC.
Definition tv_nsec (t : Z) : Z := t mod NSEC.

Definition timespec_diff_ns (later earlier : Z) : Z :=
  (tv_sec later - tv_sec earlier) * NSEC + (tv_nsec later - tv_nsec earlier).

Definition lease_elapsed_sec (since now : Z) : Z :=
  tv_sec now - tv_sec since - (if tv_nsec now <? tv_nsec since then 1 else 0).

(** ** Return codes *)
Definition PFS_OK : Z := 1.
Definition PFS_AIO_TIMEOUT : Z := -202.
Definition PFS_LEADER_EMAGIC : Z := -223.
Definition PFS_LEADER_EVERSION : Z := -224.
Definition PFS_LEADER_ESECTORSIZE : Z := -225.
Definition PFS_LEADER_ENUMHOSTS : Z := -228.
Definition PFS_LEADER_ECHECKSUM : Z := -229.
Definition PFS_HOST_EMAGIC : Z := -241.
Definition PFS_HOST_ECHECKSUM : Z := -242.

(** ** Host records (one per sector, sector number = host id) *)
Definition PFS_HOST_MAGIC : Z := 3405691582.
Definition PFS_HOST_FL_RW : Z := 1.
Definition PFS_HOST_FL_PREPARE : Z := 2.

(** The bytes the checksum covers ... *)
Record host_body := {
  hr_magic : Z; hr_flags : Z; hr_host_id : Z; hr_generation : Z;
  hr_timestamp : Z; hr_mbal : Z; hr_bal : Z; hr_unused : list Z }.
(** ... and the whole 512-byte record. *)
Record pfs_host_record := { hr_body : host_body; hr_checksum : Z }.

#[export] Instance host_body_eq_dec : EqDecision host_body.
Proof. solve_decision. Defined.
#[export] Instance host_record_eq_dec : EqDecision pfs_host_record.
Proof. solve_decision. Defined.

(** [PFS_HOST_RECORD_UNUSED] = 512 - 4*4 - 8*3 - 4 zero bytes. *)
Definition unused_zero : list Z := replicate 468 0.

Definition host_body_bytes (b : host_body) : list Z :=
  le_bytes 4 (hr_magic b) ++ le_bytes 4 (hr_flags b) ++ le_bytes 4 (hr_host_id b) ++
  le_bytes 4 (hr_generation b) ++ le_bytes 8 (hr_timestamp b) ++ le_bytes 8 (hr_mbal b) ++
  le_bytes 8 (hr_bal b) ++ hr_unused b.

Definition host_record_checksum (b : host_body) : Z := crc32c (not32 1) (host_body_bytes b).

Definition zero_record : pfs_host_record :=
  {| hr_body := {| hr_magic := 0; hr_flags := 0; hr_host_id := 0; hr_generation := 0;
                   hr_timestamp := 0; hr_mbal := 0; hr_bal := 0; hr_unused := unused_zero |};
     hr_checksum := 0 |}.

(** ** The leader record (sector 0) *)
Definition PFS_LEADER_MAGIC : Z := 3132799674.
Definition PFS_LEADER_CLEAR : Z := 287842326.
Definition PFS_LEADER_VERSION_PRIMARY : Z := 65536.
Definition PFS_LEADER_VERSION_SECONDARY : Z := 2.
Definition DEFAULT_MAX_HOSTS : Z := 254.

Record leader_body := {
  lr_magic : Z; lr_version : Z; lr_flags : Z; lr_sector_size : Z;
  lr_num_hosts : Z; lr_max_hosts : Z; lr_unused : list Z;
  lr_tail_txid : Z; lr_head_txid : Z; lr_tail_offset : Z; lr_head_offset : Z;
  lr_log_size : Z; lr_head_lsn : Z }.
Record pfs_leader_record := { lr_body : leader_body; lr_checksum : Z }.

Definition leader_body_bytes (b : leader_body) : list Z :=
  le_bytes 4 (lr_magic b) ++ le_bytes 4 (lr_version b) ++ le_bytes 4 (lr_flags b) ++
  le_bytes 4 (lr_sector_size b) ++ le_bytes 8 (lr_num_hosts b) ++ le_bytes 8 (lr_max_hosts b) ++
  lr_unused b ++
  le_bytes 8 (lr_tail_txid b) ++ le_bytes 8 (lr_head_txid b) ++ le_bytes 8 (lr_tail_offset b) ++
  le_bytes 8 (lr_head_offset b) ++ le_bytes 8 (lr_log_size b) ++ le_bytes 8 (lr_head_lsn b).

Definition leader_checksum (b : leader_body) : Z := crc32c (not32 1) (leader_body_bytes b).

(** ** The mount fields the lease code uses

    [mnt_writable], [mnt_ispfsd] and [mnt_istool] are the bits of [mnt_flags]
    the code tests; [mnt_paxos_file] says whether the file is open. *)
Record mount := MkMount {
  mnt_writable : bool;
  mnt_ispfsd : bool;
  mnt_istool : bool;
  mnt_sectsize : Z;
  mnt_num_hosts : Z;
  mnt_host_id : Z;
  mnt_host_generation : Z;
  mnt_current_ballot : Z;
  mnt_rw_lease_held : bool;
  mnt_lease_write_time : Z;
  mnt_kill_timer_armed : bool;
  mnt_wdog_fd : Z;
  mnt_hostid_fd : Z;
  mnt_paxos_file : bool;
  mnt_log_leader : option pfs_leader_record }.

Definition set_num_hosts (v : Z) (m : mount) : mount :=
  MkMount (mnt_writable m) (mnt_ispfsd m) (mnt_istool m) (mnt_sectsize m) v (mnt_host_id m)
    (mnt_host_generation m) (mnt_current_ballot m) (mnt_rw_lease_held m)
    (mnt_lease_write_time m) (mnt_kill_timer_armed m) (mnt_wdog_fd m) (mnt_hostid_fd m)
    (mnt_paxos_file m) (mnt_log_leader m).
Definition set_host_id (v : Z) (m : mount) : mount :=
  MkMount (mnt_writable m) (mnt_ispfsd m) (mnt_istool m) (mnt_sectsize m) (mnt_num_hosts m)
    v (mnt_host_generation m) (mnt_current_ballot m) (mnt_rw_lease_held m)
    (mnt_lease_write_time m) (mnt_kill_timer_armed m) (mnt_wdog_fd m) (mnt_hostid_fd m)
    (mnt_paxos_file m) (mnt_log_leader m).
Definition set_host_generation (v : Z) (m : mount) : mount :=
  MkMount (mnt_writable m) (mnt_ispfsd m) (mnt_istool m) (mnt_sectsize m) (mnt_num_hosts m)
    (mnt_host_id m) v (mnt_current_ballot m) (mnt_rw_lease_held m) (mnt_lease_write_time m)
    (mnt_kill_timer_armed m) (mnt_wdog_fd m) (mnt_hostid_fd m) (mnt_paxos_file m)
    (mnt_log_leader m).
Definition set_current_ballot (v : Z) (m : mount) : mount :=
  MkMount (mnt_writable m) (mnt_ispfsd m) (mnt_istool m) (mnt_sectsize m) (mnt_num_hosts m)
    (mnt_host_id m) (mnt_host_generation m) v (mnt_rw_lease_held m) (mnt_lease_write_time m)
    (mnt_kill_timer_armed m) (mnt_wdog_fd m) (mnt_hostid_fd m) (mnt_paxos_file m)
    (mnt_log_leader m).
Definition set_rw_lease_held (v : bool) (m : mount) : mount :=
  MkMount (mnt_writable m) (mnt_ispfsd m) (mnt_istool m) (mnt_sectsize m) (mnt_num_hosts m)
    (mnt_host_id m) (mnt_host_generation m) (mnt_current_ballot m) v (mnt_lease_write_time
    m) (mnt_kill_timer_armed m) (mnt_wdog_fd m) (mnt_hostid_fd m) (mnt_paxos_file m)
    (mnt_log_leader m).
Definition set_lease_write_time (v : Z) (m : mount) : mount :=
  MkMount (mnt_writable m) (mnt_ispfsd m) (mnt_istool m) (mnt_sectsize m) (mnt_num_hosts m)
    (mnt_host_id m) (mnt_host_generation m) (mnt_current_ballot m) (mnt_rw_lease_held m) v
    (mnt_kill_timer_armed m) (mnt_wdog_fd m) (mnt_hostid_fd m) (mnt_paxos_file m)
    (mnt_log_leader m).
Definition set_kill_timer_armed (v : bool) (m : mount) : mount :=
  MkMount (mnt_writable m) (mnt_ispfsd m) (mnt_istool m) (mnt_sectsize m) (mnt_num_hosts m)
    (mnt_host_id m) (mnt_host_generation m) (mnt_current_ballot m) (mnt_rw_lease_held m)
    (mnt_lease_write_time m) v (mnt_wdog_fd m) (mnt_hostid_fd m) (mnt_paxos_file m)
    (mnt_log_leader m).
Definition set_wdog_fd (v : Z) (m : mount) : mount :=
  MkMount (mnt_writable m) (mnt_ispfsd m) (mnt_istool m) (mnt_sectsize m) (mnt_num_hosts m)
    (mnt_host_id m) (mnt_host_generation m) (mnt_current_ballot m) (mnt_rw_lease_held m)
    (mnt_lease_write_time m) (mnt_kill_timer_armed m) v (mnt_hostid_fd m) (mnt_paxos_file m)
    (mnt_log_leader m).
Definition set_hostid_fd (v : Z) (m : mount) : mount :=
  MkMount (mnt_writable m) (mnt_ispfsd m) (mnt_istool m) (mnt_sectsize m) (mnt_num_hosts m)
    (mnt_host_id m) (mnt_host_generation m) (mnt_current_ballot m) (mnt_rw_lease_held m)
    (mnt_lease_write_time m) (mnt_kill_timer_armed m) (mnt_wdog_fd m) v (mnt_paxos_file m)
    (mnt_log_leader m).
Definition set_paxos_file (v : bool) (m : mount) : mount :=
  MkMount (mnt_writable m) (mnt_ispfsd m) (mnt_istool m) (mnt_sectsize m) (mnt_num_hosts m)
    (mnt_host_id m) (mnt_host_generation m) (mnt_current_ballot m) (mnt_rw_lease_held m)
    (mnt_lease_write_time m) (mnt_kill_timer_armed m) (mnt_wdog_fd m) (mnt_hostid_fd m) v
    (mnt_log_leader m).
Definition set_log_leader (v : option pfs_leader_record) (m : mount) : mount :=
  MkMount (mnt_writable m) (mnt_ispfsd m) (mnt_istool m) (mnt_sectsize m) (mnt_num_hosts m)
    (mnt_host_id m) (mnt_host_generation m) (mnt_current_ballot m) (mnt_rw_lease_held m)
    (mnt_lease_write_time m) (mnt_kill_timer_armed m) (mnt_wdog_fd m) (mnt_hostid_fd m)
    (mnt_paxos_file m) v.

(** ** Programs *)
Inductive syscall : Type :=
| SysPaxosOpen            (** [pfs_file_open_impl] of the paxos file *)
| SysPaxosClose
| SysHostidLock (id : Z)  (** [paxos_hostid_local_lock] *)
| SysHostidUnlock (fd : Z)
| SysSigaction
| SysTimerCreate
| SysTimerSet (deadline : option Z)  (** [timer_settime]; [None] disarms *)
| SysTimerDelete
| SysWdogOpen
| SysWdogWrite
| SysWdogClose.

Inductive prog (A : Type) : Type :=
| Ret (a : A)
| LeaseClock (k : Z -> prog A)       (** [lease_clock_now] *)
| RealTime (k : Z -> prog A)         (** [clock_gettime(CLOCK_REALTIME)] *)
| ReadLeader (k : Z * pfs_leader_record -> prog A)
| ReadSector (i : Z) (k : Z * pfs_host_record -> prog A)
| WriteSector (i : Z) (r : pfs_host_record) (k : Z -> prog A)
| SleepSec (k : prog A)
| Sys (c : syscall) (k : Z -> prog A)
| Abort                              (** the process dies *)
| Hang.                              (** a wait loop that is still waiting *)
Arguments Ret {A} a.
Arguments LeaseClock {A} k.
Arguments RealTime {A} k.
Arguments ReadLeader {A} k.
Arguments ReadSector {A} i k.
Arguments WriteSector {A} i r k.
Arguments SleepSec {A} k.
Arguments Sys {A} c k.
Arguments Abort {A}.
Arguments Hang {A}.

Fixpoint prog_bind {A B} (p : prog A) (f : A -> prog B) : prog B :=
  match p with
  | Ret a => f a
  | LeaseClock k => LeaseClock (fun x => prog_bind (k x) f)
  | RealTime k => RealTime (fun x => prog_bind (k x) f)
  | ReadLeader k => ReadLeader (fun x => prog_bind (k x) f)
  | ReadSector i k => ReadSector i (fun x => prog_bind (k x) f)
  | WriteSector i r k => WriteSector i r (fun x => prog_bind (k x) f)
  | SleepSec k => SleepSec (prog_bind k f)
  | Sys c k => Sys c (fun x => prog_bind (k x) f)
  | Abort => Abort
  | Hang => Hang
  end.

Declare Scope prog_scope.
Delimit Scope prog_scope with prog.
Notation "'do' p <- c ; k" := (prog_bind c (fun p => k))
  (at level 100, p pattern, c at level 99, k at level 200, right associativity) : prog_scope.
Open Scope prog_scope.

(** ** Sector I/O *)

(** [pfs_write_paxos_sector]: the raw result of [pfs_file_pwrite] becomes 0,
    -EIO for a short write, [PFS_AIO_TIMEOUT] for -ETIMEDOUT, or itself. *)
Definition paxos_write_rv (sectsize rv : Z) : Z :=
  if rv <? 0 then (if rv =? - ETIMEDOUT then PFS_AIO_TIMEOUT else rv)
  else if negb (rv =? sectsize) then - EIO
  else 0.

Definition pfs_write_paxos_sector (mnt : mount) (sector : Z) (buf : pfs_host_record) : prog Z :=
  WriteSector sector buf (fun rv => Ret (paxos_write_rv (mnt_sectsize mnt) rv)).

(** [pfs_read_paxos_sectors] of one sector: the raw result of
    [pfs_file_pread] becomes -EIO when short. *)
Definition paxos_read_rv (sectsize rv : Z) : Z :=
  if rv <? 0 then rv else if negb (rv =? sectsize) then - EIO else rv.

Definition pfs_host_record_write (mnt : mount) (hr : pfs_host_record) : prog Z :=
  if mnt_sectsize mnt >=? 512
  then pfs_write_paxos_sector mnt (hr_host_id (hr_body hr)) hr
  else Abort.

Definition pfs_host_record_clear (mnt : mount) (host_id : Z) : prog Z :=
  pfs_write_paxos_sector mnt host_id zero_record.

(** The judgement [pfs_host_record_read] passes on the bytes it read;
    [hr0] is what [*hr_ret] held before, kept when the read fails. *)
Definition host_record_parse (sectsize : Z) (hr0 : pfs_host_record) (r : Z * pfs_host_record)
  : Z * pfs_host_record :=
  let '(raw, hr) := r in
  let rv := paxos_read_rv sectsize raw in
  if rv <? 0 then (rv, hr0)
  else if (hr_magic (hr_body hr) =? 0) && bool_decide (hr = zero_record) then (0, hr)
  else if negb (hr_magic (hr_body hr) =? PFS_HOST_MAGIC) then (PFS_HOST_EMAGIC, hr)
  else if negb (hr_checksum hr =? host_record_checksum (hr_body hr)) then (PFS_HOST_ECHECKSUM, hr)
  else (PFS_OK, hr).

Definition pfs_host_record_read (mnt : mount) (host_id : Z) (hr0 : pfs_host_record)
  : prog (Z * pfs_host_record) :=
  ReadSector host_id (fun r => Ret (host_record_parse (mnt_sectsize mnt) hr0 r)).

Definition host_record_corrupt (rv : Z) : bool :=
  (rv =? PFS_HOST_EMAGIC) || (rv =? PFS_HOST_ECHECKSUM).

(** [lease_dead_set_t]. *)
Abbreviation lease_dead_set := (list (Z * pfs_host_record)).

Fixpoint lease_sector_dead (dead : lease_dead_set) (host_id : Z) (raw : pfs_host_record) : bool :=
  match dead with
  | [] => false
  | (d_host, d_raw) :: dead =>
      if d_host =? host_id then bool_decide (d_raw = raw) else lease_sector_dead dead host_id raw
  end.

(** ** The leader sector *)

Definition verify_leader (mnt : mount) (lr : pfs_leader_record) (checksum : Z) : Z :=
  let b := lr_body lr in
  if lr_magic b =? PFS_LEADER_CLEAR then PFS_LEADER_EMAGIC
  else if negb (lr_magic b =? PFS_LEADER_MAGIC) then PFS_LEADER_EMAGIC
  else if negb (Z.land (lr_version b) 4294901760 =? PFS_LEADER_VERSION_PRIMARY)
       then PFS_LEADER_EVERSION
  else if negb (lr_sector_size b =? mnt_sectsize mnt) then PFS_LEADER_ESECTORSIZE
  else if lr_num_hosts b <? mnt_host_id mnt then PFS_LEADER_ENUMHOSTS
  else if negb (lr_checksum lr =? checksum) then PFS_LEADER_ECHECKSUM
  else PFS_OK.

(** [read_leader] followed by [verify_leader], as [_leader_read_one] and
    [pfs_leader_load] do; the checksum is computed on the bytes read. *)
Definition read_leader_rv (mnt : mount) (r : Z * pfs_leader_record) : Z :=
  paxos_read_rv (mnt_sectsize mnt) (fst r).

Definition leader_read_one (mnt : mount) (r : Z * pfs_leader_record) : Z :=
  let rv := read_leader_rv mnt r in
  if rv <? 0 then rv else verify_leader mnt (snd r) (leader_checksum (lr_body (snd r))).

(** [write_leader]: what reaches the sector is the record with its checksum
    recomputed. *)
Definition leader_seal (lr : pfs_leader_record) : pfs_leader_record :=
  {| lr_body := lr_body lr; lr_checksum := leader_checksum (lr_body lr) |}.

Section Protocol.
(** Options: [paxos_lease_duration], [paxos_clock_skew_max] (seconds),
    [paxos_watchdog_enable] and [log_paxos_lease]; [fuel] bounds the rounds
    of the wait loops a run may take. *)
Context (paxos_lease_duration paxos_clock_skew_max : Z).
Context (paxos_watchdog_enable : bool) (log_paxos_lease : Z) (fuel : nat).

Definition host_record_age (ts now : Z) : Z := tv_sec now - ts.

Definition lease_expiry_age : Z := paxos_lease_duration + paxos_clock_skew_max + 1.

Definition host_record_live (ts now : Z) : bool := host_record_age ts now <? lease_expiry_age.

(** [lease_write_expired], the test on the clock value just read. *)
Definition lease_write_expired_at (issue now : Z) : bool :=
  timespec_diff_ns now issue >=? paxos_lease_duration * 1000000000.

Definition lease_write_expired (issue : Z) : prog bool :=
  LeaseClock (fun now => Ret (lease_write_expired_at issue now)).

Definition pfs_ballot_generate (mnt : mount) : Z :=
  wrap64 (mnt_host_generation mnt * mnt_num_hosts mnt + mnt_host_id mnt).

(** The slots [1 .. mnt_num_hosts] a scan visits, in order. *)
Definition host_slots (mnt : mount) : list Z :=
  Z.of_nat <$> seq 1 (Z.to_nat (mnt_num_hosts mnt)).

(** *** Step 1: watch sectors whose record cannot be used *)
Record bad_sector := {
  bs_host_id : Z; bs_unreadable : bool; bs_switches : Z;
  bs_raw : pfs_host_record; bs_since : Z }.

Definition lease_window : Z := paxos_lease_duration + paxos_clock_skew_max + 1.
Definition max_switches : Z := 2.

(** The first scan: collect the bad sectors. *)
Fixpoint bad_scan (mnt : mount) (slots : list Z) (hr : pfs_host_record) (bad : list bad_sector)
  : prog (list bad_sector) :=
  match slots with
  | [] => Ret bad
  | i :: slots =>
      if i =? mnt_host_id mnt then bad_scan mnt slots hr bad
      else
        do (rv, hr) <- pfs_host_record_read mnt i hr;
        if (rv =? 0) || (rv =? PFS_OK) then bad_scan mnt slots hr bad
        else LeaseClock (fun seen =>
          bad_scan mnt slots hr
            (bad ++ [{| bs_host_id := i; bs_unreadable := negb (host_record_corrupt rv);
                        bs_switches := 0; bs_raw := hr; bs_since := seen |}]))
  end.

(** What one re-read decides about a watched sector. *)
Inductive bad_verdict :=
| BadGone                  (** erased: now empty or valid *)
| BadBusy                  (** return -EBUSY *)
| BadDead (raw : pfs_host_record)  (** erased and added to [*dead] *)
| BadKeep (b : bad_sector).

Definition bad_judge (it : bad_sector) (now seen rv : Z) (hr : pfs_host_record) : bad_verdict :=
  if (rv =? 0) || (rv =? PFS_OK) then BadGone
  else
    let unreadable := negb (host_record_corrupt rv) in
    let switched := negb (eqb (bs_unreadable it) unreadable) in
    let switches := if switched then bs_switches it + 1 else bs_switches it in
    if switched && (switches >? max_switches) then BadBusy
    else
      let '(busy, it) :=
        if negb unreadable then
          if bs_unreadable it then
            (false, {| bs_host_id := bs_host_id it; bs_unreadable := false;
                       bs_switches := switches; bs_raw := hr; bs_since := seen |})
          else if negb (bool_decide (bs_raw it = hr)) then (true, it)
          else (false, it)
        else if negb (bs_unreadable it) then
          (false, {| bs_host_id := bs_host_id it; bs_unreadable := true;
                     bs_switches := switches; bs_raw := bs_raw it; bs_since := seen |})
        else (false, it) in
      if busy then BadBusy
      else if lease_elapsed_sec (bs_since it) now >=? lease_window then
        (if bs_unreadable it then BadBusy else BadDead (bs_raw it))
      else BadKeep it.

(** One round over the watched sectors. *)
Fixpoint bad_round (mnt : mount) (now : Z) (bad keep : list bad_sector)
    (hr : pfs_host_record) (dead : lease_dead_set)
  : prog (option (list bad_sector * pfs_host_record * lease_dead_set)) :=
  match bad with
  | [] => Ret (Some (keep, hr, dead))
  | it :: bad =>
      do (rv, hr) <- pfs_host_record_read mnt (bs_host_id it) hr;
      LeaseClock (fun seen =>
        match bad_judge it now seen rv hr with
        | BadGone => bad_round mnt now bad keep hr dead
        | BadBusy => Ret None
        | BadDead raw => bad_round mnt now bad keep hr (dead ++ [(bs_host_id it, raw)])
        | BadKeep it => bad_round mnt now bad (keep ++ [it]) hr dead
        end)
  end.

Fixpoint bad_watch (n : nat) (mnt : mount) (bad : list bad_sector)
    (hr : pfs_host_record) (dead : lease_dead_set) : prog (Z * lease_dead_set) :=
  match bad with
  | [] => Ret (0, dead)
  | _ =>
      match n with
      | O => Hang
      | S n =>
          SleepSec (LeaseClock (fun now =>
            do r <- bad_round mnt now bad [] hr dead;
            match r with
            | None => Ret (- EBUSY, dead)
            | Some (bad, hr, dead) => bad_watch n mnt bad hr dead
            end))
      end
  end.

Definition pfs_rw_lease_wait_bad_sectors (mnt : mount) : prog (Z * lease_dead_set) :=
  do bad <- bad_scan mnt (host_slots mnt) zero_record [];
  bad_watch fuel mnt bad zero_record [].

(** *** Step 2: look for a live RW holder *)

(** One slot of the scan: the code to return, or the freshest live holder
    [(id, ts)] so far. *)
Definition lease_check_slot (dead : lease_dead_set) (now i : Z) (freshest : Z * Z)
    (rv : Z) (hr : pfs_host_record) : Z + Z * Z :=
  let b := hr_body hr in
  if rv <? 0 then
    (if host_record_corrupt rv && lease_sector_dead dead i hr then inr freshest else inl (- EBUSY))
  else if rv =? 0 then inr freshest
  else if Z.land (hr_flags b) PFS_HOST_FL_RW =? 0 then inr freshest
  else if host_record_live (hr_timestamp b) now then
    (if (hr_timestamp b >? snd freshest) || (fst freshest =? 0)
     then inr (hr_host_id b, hr_timestamp b) else inr freshest)
  else inr freshest.

Fixpoint lease_check_scan (mnt : mount) (dead : lease_dead_set) (now : Z) (slots : list Z)
    (hr : pfs_host_record) (freshest : Z * Z) : prog (Z + Z * Z) :=
  match slots with
  | [] => Ret (inr freshest)
  | i :: slots =>
      if i =? mnt_host_id mnt then lease_check_scan mnt dead now slots hr freshest
      else
        do (rv, hr) <- pfs_host_record_read mnt i hr;
        match lease_check_slot dead now i freshest rv hr with
        | inl rv => Ret (inl rv)
        | inr freshest => lease_check_scan mnt dead now slots hr freshest
        end
  end.

(** The result code and [*blocker_ret]. *)
Definition pfs_rw_lease_check (mnt : mount) (dead : lease_dead_set) : prog (Z * Z) :=
  RealTime (fun now =>
    do r <- lease_check_scan mnt dead now (host_slots mnt) zero_record (0, 0);
    match r with
    | inl rv => Ret (rv, 0)
    | inr (freshest_id, _) =>
        if negb (freshest_id =? 0) then Ret (- EBUSY, freshest_id) else Ret (0, 0)
    end).

(** *** Step 2b: wait for the blocker to expire, renew or release *)
Definition lease_recheck (mnt : mount) (dead : lease_dead_set) : prog Z :=
  do (rv, _) <- pfs_rw_lease_check mnt dead; Ret rv.

Fixpoint lease_wait_loop (n : nat) (mnt : mount) (blocker_id initial_ts : Z)
    (dead : lease_dead_set) (hr : pfs_host_record) : prog Z :=
  match n with
  | O => Hang
  | S n =>
      SleepSec (RealTime (fun now =>
        do (rv, hr) <- pfs_host_record_read mnt blocker_id hr;
        if rv =? 0 then lease_recheck mnt dead
        else if rv <? 0 then lease_recheck mnt dead
        else if negb (hr_timestamp (hr_body hr) =? initial_ts) then Ret (- EBUSY)
        else if negb (host_record_live initial_ts now) then lease_recheck mnt dead
        else lease_wait_loop n mnt blocker_id initial_ts dead hr))
  end.

Definition pfs_rw_lease_wait_and_check (mnt : mount) (blocker_id : Z) (dead : lease_dead_set)
  : prog Z :=
  do (rv, hr) <- pfs_host_record_read mnt blocker_id zero_record;
  if negb (rv =? PFS_OK) || (Z.land (hr_flags (hr_body hr)) PFS_HOST_FL_RW =? 0)
  then lease_recheck mnt dead
  else lease_wait_loop fuel mnt blocker_id (hr_timestamp (hr_body hr)) dead hr.

(** *** Steps 3 and 5: write our record *)
Definition lease_timestamp (now : Z) : Z := tv_sec now.

(** The record the three writers build: prepare, acquire, renew. *)
Definition lease_record (mnt : mount) (flags now mbal bal : Z) : pfs_host_record :=
  let b := {| hr_magic := PFS_HOST_MAGIC; hr_flags := flags; hr_host_id := mnt_host_id mnt;
              hr_generation := wrap32 (mnt_host_generation mnt);
              hr_timestamp := lease_timestamp now; hr_mbal := mbal; hr_bal := bal;
              hr_unused := unused_zero |} in
  {| hr_body := b; hr_checksum := host_record_checksum b |}.

(** Write it and remember when the write was issued if it succeeded. *)
Definition lease_write (mnt : mount) (issue : Z) (hr : pfs_host_record) : prog (mount * Z) :=
  do rv <- pfs_host_record_write mnt hr;
  Ret ((if rv =? 0 then set_lease_write_time issue mnt else mnt), rv).

Definition pfs_rw_lease_prepare (mnt : mount) : prog (mount * Z) :=
  let ballot := pfs_ballot_generate mnt in
  let mnt := set_current_ballot ballot mnt in
  LeaseClock (fun issue => RealTime (fun now =>
    lease_write mnt issue (lease_record mnt PFS_HOST_FL_PREPARE now ballot 0))).

Definition pfs_rw_lease_acquire (mnt : mount) : prog (mount * Z) :=
  LeaseClock (fun issue => RealTime (fun now =>
    lease_write mnt issue (lease_record mnt PFS_HOST_FL_RW now
      (mnt_current_ballot mnt) (mnt_current_ballot mnt)))).

Definition pfs_rw_lease_renew (mnt : mount) : prog (mount * Z) :=
  LeaseClock (fun issue => RealTime (fun now =>
    lease_write mnt issue (lease_record mnt PFS_HOST_FL_RW now
      (mnt_current_ballot mnt) (mnt_current_ballot mnt)))).

(** *** Step 4: verify the prepare *)
Definition verify_prepare_slot (mnt : mount) (dead : lease_dead_set) (now i rv : Z)
    (hr : pfs_host_record) : option Z :=
  let b := hr_body hr in
  if rv =? 0 then None
  else if negb (rv =? PFS_OK) then
    (if host_record_corrupt rv && lease_sector_dead dead i hr then None else Some (- EBUSY))
  else if negb (host_record_live (hr_timestamp b) now) then None
  else if negb (Z.land (hr_flags b) PFS_HOST_FL_RW =? 0) then Some (- EBUSY)
  else if hr_mbal b >? mnt_current_ballot mnt then Some (- EBUSY)
  else if hr_mbal b =? mnt_current_ballot mnt then Some (- EBUSY)
  else None.

(** *** Step 6: conflict check *)
Definition check_conflict_slot (mnt : mount) (dead : lease_dead_set) (now i rv : Z)
    (hr : pfs_host_record) : option Z :=
  let b := hr_body hr in
  if rv =? 0 then None
  else if negb (rv =? PFS_OK) then
    (if host_record_corrupt rv && lease_sector_dead dead i hr then None else Some (- EBUSY))
  else if Z.land (hr_flags b) (Z.lor PFS_HOST_FL_RW PFS_HOST_FL_PREPARE) =? 0 then None
  else if negb (host_record_live (hr_timestamp b) now) then None
  else
    let other_ballot := if negb (Z.land (hr_flags b) PFS_HOST_FL_RW =? 0)
                        then hr_bal b else hr_mbal b in
    if other_ballot >? mnt_current_ballot mnt then Some (- EBUSY) else None.

(** The loop both scans share: stop at the first slot that returns. *)
Fixpoint slot_scan (judge : Z -> Z -> pfs_host_record -> option Z) (mnt : mount)
    (slots : list Z) (hr : pfs_host_record) : prog Z :=
  match slots with
  | [] => Ret 0
  | i :: slots =>
      if i =? mnt_host_id mnt then slot_scan judge mnt slots hr
      else
        do (rv, hr) <- pfs_host_record_read mnt i hr;
        match judge i rv hr with
        | Some rv => Ret rv
        | None => slot_scan judge mnt slots hr
        end
  end.

Definition pfs_rw_lease_verify_prepare (mnt : mount) (dead : lease_dead_set) : prog Z :=
  RealTime (fun now =>
    slot_scan (verify_prepare_slot mnt dead now) mnt (host_slots mnt) zero_record).

Definition pfs_rw_lease_check_conflict (mnt : mount) (dead : lease_dead_set) : prog Z :=
  RealTime (fun now =>
    slot_scan (check_conflict_slot mnt dead now) mnt (host_slots mnt) zero_record).

(** *** Step 7: the watchdog *)
Definition paxos_kill_timer_arm (mnt : mount) : prog Z :=
  Sys (SysTimerSet (Some (mnt_lease_write_time mnt + paxos_lease_duration * NSEC)))
    (fun rv => Ret (if rv <? 0 then rv else 0)).

Definition paxos_watchdog_open (mnt : mount) : prog (mount * Z) :=
  Sys SysSigaction (fun rv =>
  if rv <? 0 then Ret (mnt, rv)
  else Sys SysTimerCreate (fun rv =>
  if rv <? 0 then Ret (mnt, rv)
  else
    do err <- paxos_kill_timer_arm mnt;
    if err <? 0 then Sys SysTimerDelete (fun _ => Ret (mnt, err))
    else
      let mnt := set_kill_timer_armed true mnt in
      if negb paxos_watchdog_enable then Ret (mnt, 0)
      else Sys SysWdogOpen (fun fd => Ret (set_wdog_fd fd mnt, 0)))).

Definition paxos_watchdog_pet (mnt : mount) : prog unit :=
  let pet_dev := if mnt_wdog_fd mnt >=? 0 then Sys SysWdogWrite (fun _ => Ret tt) else Ret tt in
  if mnt_kill_timer_armed mnt then do _ <- paxos_kill_timer_arm mnt; pet_dev else pet_dev.

Definition paxos_watchdog_close (mnt : mount) : prog mount :=
  do mnt <- (if mnt_kill_timer_armed mnt
             then Sys (SysTimerSet None) (fun _ => Sys SysTimerDelete (fun _ =>
                  Ret (set_kill_timer_armed false mnt)))
             else Ret mnt);
  if mnt_wdog_fd mnt >=? 0
  then Sys SysWdogWrite (fun _ => Sys SysWdogClose (fun _ => Ret (set_wdog_fd (-1) mnt)))
  else Ret mnt.

(** *** [pfs_leader_load] *)

(** From the prepare to the watchdog. *)
Definition lease_give_up (mnt : mount) (rv : Z) : prog (mount * Z) :=
  do _ <- pfs_host_record_clear mnt (mnt_host_id mnt); Ret (mnt, rv).

Definition lease_acquire_phases (mnt : mount) (dead : lease_dead_set) : prog (mount * Z) :=
  do (mnt, rv) <- pfs_rw_lease_prepare mnt;
  if rv <? 0 then lease_give_up mnt rv else
  let prepare_issue := mnt_lease_write_time mnt in
  do rv <- pfs_rw_lease_verify_prepare mnt dead;
  if rv <? 0 then lease_give_up mnt rv else
  do (mnt, rv) <- pfs_rw_lease_acquire mnt;
  if rv <? 0 then Ret (mnt, rv) else
  do late <- lease_write_expired prepare_issue;
  if late : bool then lease_give_up mnt (- EBUSY) else
  do rv <- pfs_rw_lease_check_conflict mnt dead;
  if rv =? - EBUSY then lease_give_up mnt (- EBUSY) else
  do late <- lease_write_expired (mnt_lease_write_time mnt);
  if late : bool then lease_give_up mnt (- EBUSY) else
  do (mnt, rv) <- paxos_watchdog_open mnt;
  if rv <? 0 then lease_give_up mnt (if rv =? - EAGAIN then - ENOMEM else rv) else
  Ret (set_rw_lease_held true mnt, PFS_OK).

(** The generation: one past our last record's, or 1. *)
Definition lease_read_generation (mnt : mount) : prog mount :=
  do (rv, old_hr) <- pfs_host_record_read mnt (mnt_host_id mnt) zero_record;
  Ret (set_host_generation
         (if rv =? PFS_OK then hr_generation (hr_body old_hr) + 1 else 1) mnt).

(** The checks before the prepare. *)
Definition lease_pre_checks (mnt : mount) : prog (Z * lease_dead_set) :=
  do (rv, dead) <- pfs_rw_lease_wait_bad_sectors mnt;
  do (rv, blocker_id) <- (if rv =? 0 then pfs_rw_lease_check mnt dead else Ret (rv, 0));
  do rv <- (if (rv =? - EBUSY) && negb (blocker_id =? 0)
            then pfs_rw_lease_wait_and_check mnt blocker_id dead else Ret rv);
  Ret (rv, dead).

Definition lease_load_rw (mnt : mount) : prog (mount * Z) :=
  do (rv, dead) <- lease_pre_checks mnt;
  if rv <? 0 then Ret (mnt, rv) else
  do mnt <- lease_read_generation mnt;
  lease_acquire_phases mnt dead.

Definition pfs_leader_load (mnt : mount) : prog (mount * Z) :=
  Sys SysPaxosOpen (fun fd =>
  if fd <? 0 then Ret (mnt, fd) else
  let mnt := set_paxos_file true mnt in
  ReadLeader (fun r =>
  let error := leader_read_one mnt r in
  if error <? 0 then Ret (mnt, error) else
  let lr := snd r in
  let mnt := set_num_hosts (wrap32 (lr_num_hosts (lr_body lr))) mnt in
  if mnt_host_id mnt >? mnt_num_hosts mnt then Ret (mnt, - EINVAL) else
  let mnt := if (mnt_istool mnt || mnt_ispfsd mnt) && (mnt_host_id mnt =? 0)
             then set_host_id (mnt_num_hosts mnt) mnt else mnt in
  if negb (mnt_host_id mnt >? 0) then Abort else
  let rest (mnt : mount) : prog (mount * Z) :=
    if mnt_writable mnt then
      do (mnt, rv) <- lease_load_rw mnt;
      if rv <? 0 then Ret (mnt, rv) else Ret (set_log_leader (Some lr) mnt, PFS_OK)
    else Ret (set_log_leader (Some lr) (set_host_generation 0 mnt), PFS_OK) in
  if negb (mnt_ispfsd mnt) && mnt_writable mnt then
    Sys (SysHostidLock (mnt_host_id mnt)) (fun fd =>
      if fd <? 0 then Ret (mnt, fd) else rest (set_hostid_fd fd mnt))
  else rest mnt)).

(** *** Release *)
Definition pfs_rw_lease_release (mnt : mount) : prog unit :=
  do _ <- pfs_host_record_clear mnt (mnt_host_id mnt); Ret tt.

Definition pfs_leader_unload (mnt : mount) : prog mount :=
  do mnt <- (if mnt_rw_lease_held mnt then
               do mnt <- paxos_watchdog_close mnt;
               do _ <- pfs_rw_lease_release mnt;
               Ret (set_rw_lease_held false mnt)
             else Ret mnt);
  do mnt <- (if mnt_hostid_fd mnt >=? 0 then
               (if mnt_ispfsd mnt then Abort
                else Sys (SysHostidUnlock (mnt_hostid_fd mnt)) (fun _ =>
                     Ret (set_hostid_fd (-1) mnt)))
             else Ret mnt);
  if mnt_paxos_file mnt
  then Sys SysPaxosClose (fun _ => Ret (set_paxos_file false mnt))
  else Ret mnt.

(** *** The lease part of one turn of [pfs_log_thread_entry]

    [suspended] is [log_state == LOGST_SUSPENDED]; the result carries the
    new [last_renew]. *)
Definition log_thread_renew (mnt : mount) (suspended : bool) (last_renew : Z)
  : prog (mount * Z) :=
  RealTime (fun ts =>
  if negb suspended && mnt_rw_lease_held mnt
     && (tv_sec ts - tv_sec last_renew >=? log_paxos_lease) then
    do (mnt, renew_rv) <- pfs_rw_lease_renew mnt;
    if renew_rv =? 0 then
      do _ <- paxos_watchdog_pet mnt; Ret (mnt, ts)
    else
      let stale := tv_sec ts - tv_sec last_renew in
      if stale >=? paxos_lease_duration then Abort else Ret (mnt, last_renew)
  else Ret (mnt, last_renew)).
End Protocol.
