(* ===== verification/LeaseSafe.v ===== *)
(** * At most one host holds the RW lease

    A world of hosts that each run [pfs_leader_load], the renewal turns of
    the log thread and [pfs_leader_unload] (Lease.v) against shared sectors,
    interleaved at every clock reading, sector read and sector write, with
    I/O errors, writes that fail but land, crashes, restarts, and the kill
    timer.  The main theorem: two hosts never hold the lease at once. *)

From S2P Require Import Prelude Crc Lease.

(** What the lease needs of the clocks of the hosts: [boot h] turns true time
    into the LEASE_CLOCK of [h]; [realtime h t] is the CLOCK_REALTIME of [h]
    at true time [t], and between any two hosts it differs by at most [skew]
    seconds beyond the time that passed. *)
Class Clocks (skew : Z) := {
  boot : Z -> Z;
  realtime : Z -> Z -> Z;
  realtime_skew : forall h h' t t',
    realtime h' t' - realtime h t <= Z.max 0 (t' - t) + skew * NSEC }.

Section System.
Context (dur skew : Z) (wdog : bool) (log_lease : Z) (fuel : nat).
Context (nh ss : Z) `{Clk : !Clocks skew}.
(** The option check of [paxos_lease_duration] admits positive values. *)
Context (Hdur : 0 < dur).
(** [num_hosts] and the sector size of the volume. *)
Context (Hnh : 0 < nh) (Hnh32 : is_u32 nh) (Hss0 : 0 <= ss).

Definition lease_clock (h t : Z) : Z := t + boot h.

(** What a process is doing. *)
Inductive ctl :=
| Down
| Loading (p : prog (mount * Z))
| Holding (m : mount) (last_renew : Z)
| Renewing (p : prog (mount * Z))
| Unloading (p : prog mount).

Record world := {
  w_time : Z;
  w_sec : Z -> pfs_host_record;
  w_ctl : Z -> ctl;
  w_deadline : Z -> option Z }.

Definition set_sec (w : world) (i : Z) (r : pfs_host_record) : world :=
  {| w_time := w_time w; w_sec := <[i:=r]> (w_sec w); w_ctl := w_ctl w;
     w_deadline := w_deadline w |}.
Definition set_ctl (w : world) (h : Z) (c : ctl) : world :=
  {| w_time := w_time w; w_sec := w_sec w; w_ctl := <[h:=c]> (w_ctl w);
     w_deadline := w_deadline w |}.
Definition set_deadline (w : world) (h : Z) (d : option Z) : world :=
  {| w_time := w_time w; w_sec := w_sec w; w_ctl := w_ctl w;
     w_deadline := <[h:=d]> (w_deadline w) |}.
Definition set_time (w : world) (t : Z) : world :=
  {| w_time := t; w_sec := w_sec w; w_ctl := w_ctl w; w_deadline := w_deadline w |}.

(** The kill timer has not fired. *)
Definition alive (w : world) (h : Z) : Prop :=
  match w_deadline w h with Some d => lease_clock h (w_time w) < d | None => True end.

(** The generation field of a sector is a [uint32_t]. *)
Definition rec_typed (r : pfs_host_record) : Prop := is_u32 (hr_generation (hr_body r)).

(** One event of the program of host [h].  A read that fails returns an
    errno or a short count, never a code of pfs_paxos.h. *)
Inductive exec (h : Z) {A : Type} (w : world) : prog A -> world -> prog A -> Prop :=
| ex_lease k : exec h w (LeaseClock k) w (k (lease_clock h (w_time w)))
| ex_real k : exec h w (RealTime k) w (k (realtime h (w_time w)))
| ex_leader k rv lr : lr_num_hosts (lr_body lr) = nh -> exec h w (ReadLeader k) w (k (rv, lr))
| ex_read i k : exec h w (ReadSector i k) w (k (ss, w_sec w i))
| ex_read_err i k rv hr :
    rv <> ss -> host_record_corrupt rv = false -> rec_typed hr -> exec h w (ReadSector i k) w (k (rv, hr))
| ex_write i r k : exec h w (WriteSector i r k) (set_sec w i r) (k ss)
| ex_write_err i r k rv : rv <> ss -> exec h w (WriteSector i r k) w (k rv)
| ex_write_err_landed i r k rv :
    rv <> ss -> exec h w (WriteSector i r k) (set_sec w i r) (k rv)
| ex_sleep k : exec h w (SleepSec k) w k
| ex_timer d k rv :
    exec h w (Sys (SysTimerSet d) k) (if rv <? 0 then w else set_deadline w h d) (k rv)
| ex_timer_delete k rv : exec h w (Sys SysTimerDelete k) (set_deadline w h None) (k rv)
| ex_sys c k rv :
    (forall d, c <> SysTimerSet d) -> c <> SysTimerDelete -> exec h w (Sys c k) w (k rv).

(** A mount that is about to load as host [h]: writable, not holding. *)
Definition start_mount (h : Z) (m : mount) : Prop :=
  mnt_writable m = true /\ mnt_rw_lease_held m = false /\ mnt_sectsize m = ss /\
  (mnt_host_id m = h \/ mnt_host_id m = 0 /\ h = nh).

Inductive step (w : world) : world -> Prop :=
| st_tick d : 0 <= d -> step w (set_time w (w_time w + d))
| st_start h m :
    1 <= h <= nh -> w_ctl w h = Down -> start_mount h m ->
    step w (set_ctl (set_deadline w h None) h (Loading (pfs_leader_load dur skew wdog fuel m)))
| st_load h p w' p' :
    w_ctl w h = Loading p -> alive w h -> exec h w p w' p' -> step w (set_ctl w' h (Loading p'))
| st_loaded h m rv last :
    w_ctl w h = Loading (Ret (m, rv)) -> 0 <= rv -> step w (set_ctl w h (Holding m last))
| st_load_failed h m rv :
    w_ctl w h = Loading (Ret (m, rv)) -> rv < 0 -> step w (set_ctl w h Down)
| st_renew h m last susp :
    w_ctl w h = Holding m last -> alive w h ->
    step w (set_ctl w h (Renewing (log_thread_renew dur log_lease m susp last)))
| st_renewing h p w' p' :
    w_ctl w h = Renewing p -> alive w h -> exec h w p w' p' ->
    step w (set_ctl w' h (Renewing p'))
| st_renewed h m last : w_ctl w h = Renewing (Ret (m, last)) -> step w (set_ctl w h (Holding m last))
| st_unload h m last :
    w_ctl w h = Holding m last -> alive w h ->
    step w (set_ctl w h (Unloading (pfs_leader_unload m)))
| st_unloading h p w' p' :
    w_ctl w h = Unloading p -> alive w h -> exec h w p w' p' ->
    step w (set_ctl w' h (Unloading p'))
| st_unloaded h m : w_ctl w h = Unloading (Ret m) -> step w (set_ctl w h Down)
| st_crash h : step w (set_ctl (set_deadline w h None) h Down).

(** Initially nobody runs; the sectors hold anything. *)
Definition init_world (w : world) : Prop :=
  (forall h, w_ctl w h = Down) /\ (forall h, w_deadline w h = None) /\
  (forall i, rec_typed (w_sec w i)).

Inductive reachable : world -> Prop :=
| re_init w : init_world w -> reachable w
| re_step w w' : reachable w -> step w w' -> reachable w'.

(** [h] believes it holds the lease and may write metadata. *)
Definition holds_lease (w : world) (h : Z) : Prop :=
  match w_ctl w h with Holding _ _ | Renewing _ => alive w h | _ => False end.

(** ** The protocol as an automaton

    [phase] is where an acquisition stands.  [iss] is the LEASE_CLOCK
    reading taken before the PREPARE record was stamped, [iss'] the one
    taken before the RW record was; [V] and [C] are the hosts whose sector
    passed the verify scan and the conflict check. *)
Inductive phase :=
| Off
| Ver (iss : Z) (V : list Z)
| Got (iss iss' : Z)
| Cnf (iss' : Z) (C : list Z)
| Hold (arm fresh : Z).

(** Ghost state of a host: [g_lc] bounds its LEASE_CLOCK from below; [g_rt]
    is its last CLOCK_REALTIME reading, taken at LEASE_CLOCK [g_rts]. *)
Record ghost := { g_lc : Z; g_rt : Z; g_rts : Z; g_bal : Z; g_ph : phase }.
Definition with_ph (f : phase) (g : ghost) : ghost :=
  {| g_lc := g_lc g; g_rt := g_rt g; g_rts := g_rts g; g_bal := g_bal g; g_ph := f |}.
Definition with_lc (v : Z) (g : ghost) : ghost :=
  {| g_lc := v; g_rt := g_rt g; g_rts := g_rts g; g_bal := g_bal g; g_ph := g_ph g |}.
Definition with_rt (v s : Z) (g : ghost) : ghost :=
  {| g_lc := s; g_rt := v; g_rts := s; g_bal := g_bal g; g_ph := g_ph g |}.
Definition with_bal (b : Z) (g : ghost) : ghost :=
  {| g_lc := g_lc g; g_rt := g_rt g; g_rts := g_rts g; g_bal := b; g_ph := g_ph g |}.

(** A record as the writers build it. *)
Definition rec_ok (h flags bal ts : Z) (r : pfs_host_record) : Prop :=
  hr_magic (hr_body r) = PFS_HOST_MAGIC /\
  hr_checksum r = host_record_checksum (hr_body r) /\
  hr_flags (hr_body r) = flags /\ hr_host_id (hr_body r) = h /\
  hr_timestamp (hr_body r) = ts /\ hr_mbal (hr_body r) = bal /\
  (flags = PFS_HOST_FL_RW -> hr_bal (hr_body r) = bal).

Definition covers (h : Z) (V : list Z) : Prop := forall j, 1 <= j <= nh -> j <> h -> j ∈ V.
Definition ballot_of (h b : Z) : Prop := exists gen, b = gen * nh + h.

Definition clock_tr (f : phase) (v : Z) (f' : phase) : Prop :=
  f' = f \/
  match f with
  | Got iss iss' => f' = Cnf iss' [] /\ v < iss + dur * NSEC
  | _ => False
  end.

Definition passes (h : Z) (judge : mount -> lease_dead_set -> Z -> Z -> Z -> pfs_host_record -> option Z)
    (g : ghost) (i rv : Z) (hr : pfs_host_record) : Prop :=
  exists mnt dead hr0,
    mnt_current_ballot mnt = g_bal g /\
    let '(rv', hr') := host_record_parse ss hr0 (rv, hr) in
    judge mnt dead (g_rt g) i rv' hr' = None.

Definition read_tr (h : Z) (g : ghost) (i rv : Z) (hr : pfs_host_record) (f' : phase) : Prop :=
  f' = g_ph g \/
  match g_ph g with
  | Ver iss V => f' = Ver iss (i :: V) /\ passes h (verify_prepare_slot dur skew) g i rv hr
  | Cnf iss' C => f' = Cnf iss' (i :: C) /\ passes h (check_conflict_slot dur skew) g i rv hr
  | _ => False
  end.

Definition write_tr (h : Z) (g : ghost) (r : pfs_host_record) (rv : Z) (g' : ghost) : Prop :=
  g' = with_ph Off g \/
  (rv = ss /\ exists iss b, rec_ok h PFS_HOST_FL_PREPARE b (tv_sec (g_rt g)) r /\
    iss <= g_rts g /\ ballot_of h b /\ g' = with_bal b (with_ph (Ver iss []) g)) \/
  match g_ph g with
  | Ver iss V => rv = ss /\ covers h V /\ exists iss',
      rec_ok h PFS_HOST_FL_RW (g_bal g) (tv_sec (g_rt g)) r /\
      iss <= iss' <= g_rts g /\ g' = with_ph (Got iss iss') g
  | Hold arm fresh =>
      rec_ok h PFS_HOST_FL_RW (g_bal g) (tv_sec (g_rt g)) r /\ fresh <= g_rts g /\
      (g' = g \/ rv = ss /\ exists iss', arm <= iss' <= g_rts g /\ g' = with_ph (Hold arm iss') g)
  | _ => False
  end.

Definition sys_tr (h : Z) (f : phase) (c : syscall) (rv : Z) (f' : phase) : Prop :=
  f' = Off \/
  match c with
  | SysTimerSet (Some d) =>
      if rv <? 0 then f' = f
      else match f with
           | Cnf iss' C => covers h C /\ d = iss' + dur * NSEC /\ f' = Hold iss' iss'
           | Hold arm fresh => d = fresh + dur * NSEC /\ f' = Hold fresh fresh
           | _ => False
           end
  | SysTimerSet None => False
  | SysTimerDelete => False
  | _ => f' = f
  end.

(** [conf R Q p g]: from ghost state [g], every run of [p] follows the
    automaton, keeps [R] of the phase, and ends in [Q]. *)
Fixpoint conf (h : Z) (R : phase -> Prop) {A : Type} (Q : ghost -> A -> Prop) (p : prog A)
    (g : ghost) {struct p} : Prop :=
  R (g_ph g) /\
  match p with
  | Ret a => Q g a
  | LeaseClock k => forall v, g_lc g <= v ->
      exists f', clock_tr (g_ph g) v f' /\ conf h R Q (k v) (with_lc v (with_ph f' g))
  | RealTime k => forall v s, g_lc g <= s -> conf h R Q (k v) (with_rt v s g)
  | ReadLeader k => forall rv lr, lr_num_hosts (lr_body lr) = nh -> conf h R Q (k (rv, lr)) g
  | ReadSector i k => forall rv hr, rec_typed hr ->
      exists f', read_tr h g i rv hr f' /\ conf h R Q (k (rv, hr)) (with_ph f' g)
  | WriteSector i r k => i = h /\ rec_typed r /\ forall rv,
      exists g', write_tr h g r rv g' /\ conf h R Q (k rv) g'
  | SleepSec k => conf h R Q k g
  | Sys c k => forall rv,
      exists f', sys_tr h (g_ph g) c rv f' /\ conf h R Q (k rv) (with_ph f' g)
  | Abort | Hang => True
  end.

(** ** Symbolic execution of programs *)
Lemma conf_R h R A (Q : ghost -> A -> Prop) p g : conf h R Q p g -> R (g_ph g).
Proof. destruct p; simpl; tauto. Qed.

Lemma conf_bind h R A B (Q' : ghost -> A -> Prop) (Q : ghost -> B -> Prop) p (f : A -> prog B) g :
  conf h R Q' p g -> (forall g' a, R (g_ph g') -> Q' g' a -> conf h R Q (f a) g') ->
  conf h R Q (prog_bind p f) g.
Proof.
  intros Hp Hf. revert g Hp.
  induction p as [a|k IH|k IH|k IH|i k IH|i r k IH|k IH|c k IH| |]; intros g [HR Hp];
    cbn [prog_bind conf]; auto.
  - split; [done|]. intros v Hv. destruct (Hp v Hv) as (f'&?&?). eauto.
  - split; [done|]. intros rv hr Hr. destruct (Hp rv hr Hr) as (f'&?&?). eauto.
  - split; [done|]. destruct Hp as (-> & Ht & Hp). do 2 (split; [done|]).
    intros rv. destruct (Hp rv) as (g'&?&?). eauto.
  - split; [done|]. intros rv. destruct (Hp rv) as (f'&?&?). eauto.
Qed.

Lemma conf_mono h R A (Q Q' : ghost -> A -> Prop) p g :
  (forall g' a, Q g' a -> Q' g' a) -> conf h R Q p g -> conf h R Q' p g.
Proof.
  intros HQ. revert g.
  induction p as [a|k IH|k IH|k IH|i k IH|i r k IH|k IH|c k IH| |]; intros g [HR Hp];
    cbn [conf]; (split; [done|]); auto.
  - intros v Hv. destruct (Hp v Hv) as (f'&?&?). eauto.
  - intros rv hr Hr. destruct (Hp rv hr Hr) as (f'&?&?). eauto.
  - destruct Hp as (-> & Ht & Hp). do 2 (split; [done|]). intros rv.
    destruct (Hp rv) as (g'&?&?). eauto.
  - intros rv. destruct (Hp rv) as (f'&?&?). eauto.
Qed.

(** Programs that only read. *)
Fixpoint quiet {A} (p : prog A) : Prop :=
  match p with
  | Ret _ | Abort | Hang => True
  | LeaseClock k => forall v, quiet (k v)
  | RealTime k => forall v, quiet (k v)
  | ReadLeader k => forall r, quiet (k r)
  | ReadSector _ k => forall r, quiet (k r)
  | SleepSec k => quiet k
  | WriteSector _ _ _ | Sys _ _ => False
  end.

Lemma quiet_bind A B (p : prog A) (f : A -> prog B) :
  quiet p -> (forall a, quiet (f a)) -> quiet (prog_bind p f).
Proof. intros Hp Hf. induction p; simpl in *; auto. Qed.

Lemma conf_quiet h (R : phase -> Prop) A (p : prog A) g :
  quiet p -> R (g_ph g) -> conf h R (fun g' _ => g_ph g' = g_ph g) p g.
Proof.
  intros Hq HR.
  enough (forall g0, g_ph g0 = g_ph g -> conf h R (fun g' _ => g_ph g' = g_ph g) p g0) by auto.
  induction p as [a|k IH|k IH|k IH|i k IH|i r k IH|k IH|c k IH| |]; intros g0 E0; simpl in *;
    (split; [by rewrite E0|]); auto; try done.
  - intros v Hv. exists (g_ph g0). split; [by left|]. by apply IH.
  - intros rv hr _. exists (g_ph g0). split; [by left|]. by apply IH.
Qed.

Create HintDb quiet.
#[local] Hint Resolve quiet_bind : quiet.

Lemma quiet_read m i hr : quiet (pfs_host_record_read m i hr).
Proof. done. Qed.
Lemma quiet_bad_scan m slots hr bad : quiet (bad_scan m slots hr bad).
Proof.
  revert hr bad. induction slots as [|i slots IH]; intros; simpl; [done|].
  destruct (i =? _); [done|]. intros r. destruct (host_record_parse _ _ r) as [rv hr'].
  simpl. destruct (_ || _); [done|]. intros v. done.
Qed.
Lemma quiet_bad_round m now bad keep hr dead :
  quiet (bad_round dur skew m now bad keep hr dead).
Proof.
  revert keep hr dead. induction bad as [|it bad IH]; intros; simpl; [done|].
  intros r. destruct (host_record_parse _ _ r) as [rv hr']. simpl. intros v.
  by destruct (bad_judge _ _ _ _ _ _).
Qed.
Lemma quiet_bad_watch n m bad hr dead : quiet (bad_watch dur skew n m bad hr dead).
Proof.
  revert bad hr dead. induction n as [|n IH]; intros; destruct bad as [|b bad]; try done.
  cbn [bad_watch quiet]. intros v. apply quiet_bind; [apply quiet_bad_round|].
  intros [[[bad' hr'] dead']|]; [apply IH|done].
Qed.
Lemma quiet_check_scan m dead now slots hr fr :
  quiet (lease_check_scan dur skew m dead now slots hr fr).
Proof.
  revert hr fr. induction slots as [|i slots IH]; intros; simpl; [done|].
  destruct (i =? _); [done|]. intros r. destruct (host_record_parse _ _ r) as [rv hr'].
  simpl. by destruct (lease_check_slot _ _ _ _ _ _ _ _).
Qed.
Lemma quiet_check m dead : quiet (pfs_rw_lease_check dur skew m dead).
Proof.
  simpl. intros v. apply quiet_bind; [apply quiet_check_scan|].
  intros [|[id ?]]; [done|]. by destruct (negb _).
Qed.
Lemma quiet_recheck m dead : quiet (lease_recheck dur skew m dead).
Proof. apply quiet_bind; [apply quiet_check|]. by intros [? ?]. Qed.
Lemma quiet_wait_loop n m b ts dead hr : quiet (lease_wait_loop dur skew n m b ts dead hr).
Proof.
  revert hr. induction n as [|n IH]; intros; [done|]. cbn [lease_wait_loop quiet]. intros v.
  apply quiet_bind; [apply quiet_read|]. intros [rv hr'].
  repeat match goal with |- quiet (if ?b then _ else _) => destruct b end;
    auto using quiet_recheck. done.
Qed.
Lemma quiet_wait m b dead : quiet (pfs_rw_lease_wait_and_check dur skew fuel m b dead).
Proof.
  apply quiet_bind; [apply quiet_read|]. intros [rv hr]. destruct (_ || _);
    auto using quiet_recheck, quiet_wait_loop.
Qed.
Lemma quiet_pre_checks m : quiet (lease_pre_checks dur skew fuel m).
Proof.
  apply quiet_bind.
  - apply quiet_bind; [apply quiet_bad_scan|]. intros. apply quiet_bad_watch.
  - intros [rv dead]. apply quiet_bind; [destruct (rv =? 0); [apply quiet_check|done]|].
    intros [rv' b]. apply quiet_bind; [|done].
    destruct (_ && _); [apply quiet_wait|done].
Qed.

(** ** The lease code follows the automaton *)
Definition top (f : phase) : Prop := True.
Definition is_hold (f : phase) : Prop := match f with Hold _ _ => True | _ => False end.

Lemma rec_typed_zero : rec_typed zero_record.
Proof. by vm_compute. Qed.
Lemma rec_typed_lease m flags now mbal bal : rec_typed (lease_record m flags now mbal bal).
Proof. apply wrap32_range. Qed.

Lemma lease_record_ok m flags now b h :
  mnt_host_id m = h ->
  rec_ok h flags b (tv_sec now) (lease_record m flags now b (if flags =? PFS_HOST_FL_RW then b else 0)).
Proof. intros <-. repeat split. by intros ->. Qed.

Lemma conf_clear h A (f : Z -> prog A) Q m g :
  mnt_host_id m = h -> (forall rv, conf h top Q (f rv) (with_ph Off g)) ->
  conf h top Q (prog_bind (pfs_host_record_clear m (mnt_host_id m)) f) g.
Proof.
  intros Hh Hf. do 2 (split; [done|]). split; [apply rec_typed_zero|].
  intros rv. exists (with_ph Off g). split; [by left|]. apply Hf.
Qed.

Lemma conf_give_up h Q m rv g :
  mnt_host_id m = h -> Q (with_ph Off g) (m, rv) -> conf h top Q (lease_give_up m rv) g.
Proof. intros Hh HQ. apply conf_clear; [done|]. intros. by split. Qed.

Lemma paxos_write_rv_neg raw : raw <> ss -> paxos_write_rv ss raw < 0.
Proof.
  intros Hne. unfold paxos_write_rv. destruct (Z.ltb_spec raw 0).
  - destruct (_ =? _); [done|lia].
  - by rewrite (proj2 (Z.eqb_neq _ _) Hne).
Qed.

Lemma conf_lease_write h (R : phase -> Prop) Q m issue r g :
  mnt_sectsize m = ss -> hr_host_id (hr_body r) = h -> rec_typed r -> R (g_ph g) ->
  (forall raw rv, raw <> ss -> rv < 0 ->
     exists g', write_tr h g r raw g' /\ R (g_ph g') /\ Q g' (m, rv)) ->
  (exists g', write_tr h g r ss g' /\ R (g_ph g') /\ Q g' (set_lease_write_time issue m, 0)) ->
  conf h R Q (lease_write m issue r) g.
Proof.
  intros Hss Hh Ht HR Hbad (g1 & Hw1 & HR1 & HQ1). unfold lease_write, pfs_host_record_write.
  destruct (Z.geb_spec (mnt_sectsize m) 512) as [Hge|]; [|by split].
  simpl. split; [done|]. do 2 (split; [done|]). rewrite Hss in Hge |- *. intros raw.
  destruct (decide (raw = ss)) as [->|Hne].
  - exists g1. split; [done|]. unfold paxos_write_rv. rewrite Z.eqb_refl.
    destruct (Z.ltb_spec ss 0); [lia|]. by split.
  - pose proof (paxos_write_rv_neg _ Hne) as Hneg.
    destruct (Hbad raw _ Hne Hneg) as (g' & ? & ? & ?). exists g'. split; [done|].
    destruct (Z.eqb_spec (paxos_write_rv ss raw) 0); [lia|]. by split.
Qed.

(** What an acquisition keeps of the mount. *)
Definition mnt_ok (h : Z) (m : mount) : Prop :=
  mnt_host_id m = h /\ mnt_sectsize m = ss /\ mnt_num_hosts m = nh.

Lemma ballot_generate_exact h m :
  mnt_ok h m -> 0 <= h <= nh -> 0 <= mnt_host_generation m <= 2 ^ 32 ->
  pfs_ballot_generate m = mnt_host_generation m * nh + h.
Proof.
  intros (<- & _ & Hn) Hh Hg. unfold pfs_ballot_generate. rewrite Hn. apply wrap64_small.
  unfold is_u64, is_u32 in *. nia.
Qed.

Definition prepared h (g : ghost) (r : mount * Z) : Prop :=
  let '(m, rv) := r in
  mnt_ok h m /\
  (rv < 0 \/ rv = 0 /\ g_ph g = Ver (mnt_lease_write_time m) [] /\
             g_bal g = mnt_current_ballot m /\ mnt_lease_write_time m <= g_lc g).

Lemma conf_prepare h m g :
  mnt_ok h m -> 0 <= h <= nh -> 0 <= mnt_host_generation m <= 2 ^ 32 ->
  conf h top (prepared h) (pfs_rw_lease_prepare m) g.
Proof.
  intros Hm Hh Hg. pose proof (ballot_generate_exact h m Hm Hh Hg) as Hb.
  destruct Hm as (Hid & Hss & Hn). unfold pfs_rw_lease_prepare.
  split; [done|]. intros iss Hiss. exists (g_ph g). split; [by left|].
  split; [done|]. intros now s Hs. simpl in Hs.
  apply conf_lease_write; try done.
  - apply rec_typed_lease.
  - intros raw rv _ Hneg. eexists. split; [by left|]. split; [done|]. split; [done|]. by left.
  - eexists. split.
    + right; left. split; [done|]. exists iss, (pfs_ballot_generate m). split; [|split; [exact Hs|]].
      * by apply (lease_record_ok (set_current_ballot _ m)).
      * split; [by eexists|done].
    + split; [done|]. split; [done|]. right. simpl. auto.
Qed.

Definition acquired h m0 iss g0 (g : ghost) (r : mount * Z) : Prop :=
  let '(m, rv) := r in
  mnt_ok h m /\ mnt_current_ballot m = mnt_current_ballot m0 /\
  (rv < 0 \/ rv = 0 /\ g_ph g = Got iss (mnt_lease_write_time m) /\
             g_bal g = g_bal g0 /\ mnt_lease_write_time m <= g_lc g).

Lemma conf_acquire h m g iss V :
  mnt_ok h m -> g_ph g = Ver iss V -> covers h V -> g_bal g = mnt_current_ballot m ->
  iss <= g_lc g ->
  conf h top (acquired h m iss g) (pfs_rw_lease_acquire m) g.
Proof.
  intros (Hid & Hss & Hn) Hph Hcov Hbal Hlc. unfold pfs_rw_lease_acquire.
  split; [done|]. intros iss' Hiss. exists (g_ph g). split; [by left|].
  split; [done|]. intros now s Hs. simpl in Hs.
  apply conf_lease_write; try done.
  - apply rec_typed_lease.
  - intros raw rv _ Hneg. eexists. split; [by left|]. repeat (split; [done|]). by left.
  - eexists. split.
    + right; right. simpl. rewrite Hph. split; [done|]. split; [done|]. exists iss'.
      rewrite Hbal. split; [by apply (lease_record_ok m)|]. split; [lia|done].
    + repeat (split; [done|]). right. simpl. auto.
Qed.

Lemma conf_read h (R : phase -> Prop) A Q m i hr (f : Z * pfs_host_record -> prog A) g :
  R (g_ph g) -> mnt_sectsize m = ss ->
  (forall rv r, rec_typed r -> exists f', read_tr h g i rv r f' /\
     conf h R Q (f (host_record_parse ss hr (rv, r))) (with_ph f' g)) ->
  conf h R Q (prog_bind (pfs_host_record_read m i hr) f) g.
Proof. intros HR <- Hf. by split. Qed.

(** A scan by a judge whose passes the automaton records in [K V]. *)
Lemma conf_slot_scan h K judge m dead now slots hr g V :
  mnt_host_id m = h -> mnt_sectsize m = ss -> g_bal g = mnt_current_ballot m ->
  g_rt g = now -> g_ph g = K V ->
  (forall i rv r rv', judge m dead now i rv r = Some rv' -> rv' = - EBUSY) ->
  (forall g V i rv r, g_ph g = K V -> passes h judge g i rv r -> read_tr h g i rv r (K (i :: V))) ->
  conf h top
    (fun g' rv => rv = - EBUSY \/
       rv = 0 /\ exists V', g' = with_ph (K V') g /\ V ⊆ V' /\
         forall i, i ∈ slots -> i <> h -> i ∈ V')
    (slot_scan (judge m dead now) m slots hr) g.
Proof.
  intros Hid Hss Hbal Hrt Hph Hj Htr. revert hr g V Hbal Hrt Hph.
  induction slots as [|i slots IH]; intros hr g V Hbal Hrt Hph.
  { split; [done|]. right. split; [done|]. exists V. split_and!; [|done|by intros ? ?%elem_of_nil].
    rewrite <- Hph. by destruct g. }
  cbn [slot_scan]. destruct (Z.eqb_spec i (mnt_host_id m)) as [->|Hne].
  { eapply conf_mono; [|by eapply IH]. intros g' rv [?|(-> & V' & -> & ? & Hin)]; [by left|].
    right. split; [done|]. exists V'. split_and!; [done..|].
    intros j [->|?]%elem_of_cons ?; [by rewrite Hid in *|auto]. }
  apply conf_read; [done..|]. intros rv r _.
  destruct (host_record_parse ss hr (rv, r)) as [rv' r'] eqn:Hparse.
  destruct (judge m dead now i rv' r') as [rv2|] eqn:Ej.
  { exists (g_ph g). split; [by left|]. split; [done|]. left. by eapply Hj. }
  exists (K (i :: V)). split.
  { apply Htr; [done|]. exists m, dead, hr. split; [done|]. by rewrite Hparse, Hrt. }
  eapply conf_mono; [|by eapply (IH r' (with_ph (K (i :: V)) g) (i :: V))].
  intros g' rv0 [?|(-> & V' & -> & Hsub & Hin)]; [by left|]. right. split; [done|]. exists V'.
  split_and!; [done|set_solver|]. intros j [->|?]%elem_of_cons ?; [set_solver|auto].
Qed.

Lemma verify_prepare_slot_busy m dead now i rv r rv' :
  verify_prepare_slot dur skew m dead now i rv r = Some rv' -> rv' = - EBUSY.
Proof. unfold verify_prepare_slot. cbv zeta. intros. repeat case_match; by simplify_eq. Qed.
Lemma check_conflict_slot_busy m dead now i rv r rv' :
  check_conflict_slot dur skew m dead now i rv r = Some rv' -> rv' = - EBUSY.
Proof. unfold check_conflict_slot. cbv zeta. intros. repeat case_match; by simplify_eq. Qed.

Lemma host_slots_cover h m V :
  mnt_num_hosts m = nh -> (forall i, i ∈ host_slots m -> i <> h -> i ∈ V) -> covers h V.
Proof.
  intros Hn HV j Hj Hne. apply HV; [|done]. unfold host_slots.
  apply list_elem_of_fmap. exists (Z.to_nat j). rewrite elem_of_seq. lia.
Qed.

(** After a scan that found nothing, every other host is covered. *)
Definition scanned h K (g0 g : ghost) (rv : Z) : Prop :=
  rv = - EBUSY \/
  rv = 0 /\ exists V, g_ph g = K V /\ covers h V /\ g_bal g = g_bal g0 /\ g_lc g0 <= g_lc g.

Lemma conf_scan h K judge m dead g :
  mnt_ok h m -> g_bal g = mnt_current_ballot m -> g_ph g = K [] ->
  (forall now i rv r rv', judge m dead now i rv r = Some rv' -> rv' = - EBUSY) ->
  (forall g V i rv r, g_ph g = K V -> passes h judge g i rv r -> read_tr h g i rv r (K (i :: V))) ->
  conf h top (scanned h K g)
    (RealTime (fun now => slot_scan (judge m dead now) m (host_slots m) zero_record)) g.
Proof.
  intros (Hid & Hss & Hn) Hbal Hph Hj Htr. split; [done|]. intros now s Hs.
  eapply conf_mono; [|apply (conf_slot_scan h K) with (V := []); [done..|apply Hj|done]].
  intros g' rv [?|(-> & V & -> & _ & Hin)]; [by left|]. right. split; [done|]. exists V.
  split_and!; try done. by apply (host_slots_cover _ m).
Qed.

Lemma conf_verify_prepare h m dead g iss :
  mnt_ok h m -> g_bal g = mnt_current_ballot m -> g_ph g = Ver iss [] ->
  conf h top (scanned h (Ver iss) g) (pfs_rw_lease_verify_prepare dur skew m dead) g.
Proof.
  intros. apply conf_scan; [done..| |].
  - intros ?. apply verify_prepare_slot_busy.
  - intros g' V i rv r E ?. right. by rewrite E.
Qed.
Lemma conf_check_conflict h m dead g iss' :
  mnt_ok h m -> g_bal g = mnt_current_ballot m -> g_ph g = Cnf iss' [] ->
  conf h top (scanned h (Cnf iss') g) (pfs_rw_lease_check_conflict dur skew m dead) g.
Proof.
  intros. apply conf_scan; [done..| |].
  - intros ?. apply check_conflict_slot_busy.
  - intros g' V i rv r E ?. right. by rewrite E.
Qed.

Lemma timespec_diff_ns_exact a b : timespec_diff_ns a b = a - b.
Proof.
  unfold timespec_diff_ns, tv_sec, tv_nsec.
  pose proof (Z.div_mod a NSEC ltac:(done)). pose proof (Z.div_mod b NSEC ltac:(done)). lia.
Qed.

(** The expiry test that ends the prepare: passing it starts the conflict check. *)
Lemma conf_prepare_expired h A Q (f : bool -> prog A) g iss iss' :
  g_ph g = Got iss iss' ->
  (forall v, g_lc g <= v -> conf h top Q (f true) (with_lc v g)) ->
  (forall v, g_lc g <= v -> conf h top Q (f false) (with_lc v (with_ph (Cnf iss' []) g))) ->
  conf h top Q (prog_bind (lease_write_expired dur iss) f) g.
Proof.
  intros Hph Ht Hf. split; [done|]. intros v Hv.
  unfold lease_write_expired_at. rewrite timespec_diff_ns_exact.
  destruct (Z.geb_spec (v - iss) (dur * 1000000000)) as [|Hlt].
  - exists (g_ph g). split; [by left|]. specialize (Ht v Hv). by destruct g.
  - exists (Cnf iss' []). split; [|by apply Hf]. right. rewrite Hph. split; [done|].
    change NSEC with 1000000000. lia.
Qed.

(** A mount that holds the lease. *)
Definition held h (g : ghost) (m : mount) : Prop :=
  exists arm, g_ph g = Hold arm (mnt_lease_write_time m) /\ arm <= mnt_lease_write_time m /\
    mnt_lease_write_time m <= g_lc g /\ mnt_host_id m = h /\ mnt_sectsize m = ss /\
    mnt_current_ballot m = g_bal g.

Lemma conf_watchdog_open h m g C :
  mnt_ok h m -> g_ph g = Cnf (mnt_lease_write_time m) C -> covers h C ->
  g_bal g = mnt_current_ballot m -> mnt_lease_write_time m <= g_lc g ->
  conf h top (fun g' '(m', rv) => mnt_host_id m' = h /\ (0 <= rv -> held h g' m'))
    (paxos_watchdog_open dur wdog m) g.
Proof.
  intros (Hid & Hss & Hn) Hph Hcov Hbal Hlc. unfold paxos_watchdog_open.
  split; [done|]. intros rv. exists (g_ph g). split; [by right|].
  destruct (Z.ltb_spec rv 0); [by split; [|split; [|lia]]|].
  split; [done|]. intros rv1. exists (g_ph g). split; [by right|].
  destruct (Z.ltb_spec rv1 0); [by split; [|split; [|lia]]|].
  split; [done|]. intros rv2. destruct (Z.ltb_spec rv2 0) as [Hlt|Hge].
  - exists Off. split; [by left|]. simpl. rewrite (proj2 (Z.ltb_lt _ _) Hlt).
    split; [done|]. intros ?. exists Off. split; [by left|]. by split; [|split; [|lia]].
  - exists (Hold (mnt_lease_write_time m) (mnt_lease_write_time m)). split.
    { right. simpl. rewrite (proj2 (Z.ltb_ge _ _) Hge), Hph. done. }
    simpl. destruct wdog; simpl; [split; [done|]; intros fd; eexists; split; [by right|]|];
      (do 2 (split; [done|])); intros _; eexists; split_and!; simpl; done.
Qed.

Definition loaded h (g : ghost) (r : mount * Z) : Prop := 0 <= snd r -> held h g (fst r).

Lemma loaded_fail h g m rv : rv < 0 -> loaded h g (m, rv).
Proof. intros ? ?. simpl in *. lia. Qed.

Lemma conf_give_up_neg h m rv g :
  mnt_host_id m = h -> rv < 0 -> conf h top (loaded h) (lease_give_up m rv) g.
Proof. intros. apply conf_give_up; [done|]. by apply loaded_fail. Qed.

Lemma conf_conflict_phase h m dead g (late : prog bool) :
  late = lease_write_expired dur (mnt_lease_write_time m) ->
  mnt_ok h m -> g_bal g = mnt_current_ballot m ->
  g_ph g = Cnf (mnt_lease_write_time m) [] -> mnt_lease_write_time m <= g_lc g ->
  conf h top (loaded h)
    (do rv <- pfs_rw_lease_check_conflict dur skew m dead;
     if rv =? - EBUSY then lease_give_up m (- EBUSY) else
     do late <- late;
     if late : bool then lease_give_up m (- EBUSY) else
     do (mnt, rv) <- paxos_watchdog_open dur wdog m;
     if rv <? 0 then lease_give_up mnt (if rv =? - EAGAIN then - ENOMEM else rv) else
     Ret (set_rw_lease_held true mnt, PFS_OK)) g.
Proof.
  intros -> Hm Hbal Hph Hlc. pose proof Hm as (Hid & Hss & Hn).
  eapply conf_bind; [by apply conf_check_conflict|].
  intros g1 rv _ [->|(-> & C & Hph1 & Hcov & Hbal1 & Hlc1)].
  { by apply conf_give_up_neg. }
  split; [done|]. intros v Hv. exists (g_ph g1). split; [by left|].
  destruct (lease_write_expired_at dur (mnt_lease_write_time m) v); cbn [prog_bind].
  { by apply conf_give_up_neg. }
  eapply conf_bind.
  { apply (conf_watchdog_open h m) with (C := C); try done; simpl; lia || congruence. }
  intros g2 [m2 rv] _ [Hid2 Hheld]. destruct (Z.ltb_spec rv 0).
  - apply conf_give_up_neg; [done|]. by destruct (rv =? - EAGAIN).
  - split; [done|]. intros _. destruct (Hheld ltac:(lia)) as (arm & ?). by exists arm.
Qed.

Lemma conf_acquire_phases h m dead g :
  mnt_ok h m -> 0 <= h <= nh -> 0 <= mnt_host_generation m <= 2 ^ 32 ->
  conf h top (loaded h) (lease_acquire_phases dur skew wdog m dead) g.
Proof.
  intros Hm Hh Hg. unfold lease_acquire_phases.
  eapply conf_bind; [by apply conf_prepare|]. intros g1 [m1 rv] _ [Hm1 Hcase].
  destruct (Z.ltb_spec rv 0); [by apply conf_give_up_neg; [apply Hm1|]|].
  destruct Hcase as [?|(_ & Hph1 & Hbal1 & Hlc1)]; [lia|].
  eapply conf_bind; [by eapply conf_verify_prepare|].
  intros g2 rv2 _ [->|(-> & V & Hph2 & Hcov & Hbal2 & Hlc2)].
  { by apply conf_give_up_neg; [apply Hm1|]. }
  change (0 <? 0) with false. cbv iota.
  eapply conf_bind; [apply conf_acquire with (2 := Hph2); [done|done|congruence|lia]|].
  intros g3 [m3 rv3] _ (Hm3 & Hb3 & Hcase).
  destruct (Z.ltb_spec rv3 0); [by split; [|apply loaded_fail]|].
  destruct Hcase as [?|(_ & Hph3 & Hbal3 & Hlc3)]; [lia|].
  apply conf_prepare_expired with (1 := Hph3); intros v Hv; cbn [prog_bind].
  - by apply conf_give_up_neg; [apply Hm3|].
  - apply conf_conflict_phase; try done; simpl; lia || congruence.
Qed.

Lemma host_record_parse_typed hr rv r : rec_typed hr -> rec_typed r ->
  rec_typed (host_record_parse ss hr (rv, r)).2.
Proof. intros. unfold host_record_parse. by repeat case_match. Qed.

Lemma conf_load_rw h m g :
  mnt_ok h m -> 0 <= h <= nh -> conf h top (loaded h) (lease_load_rw dur skew wdog fuel m) g.
Proof.
  intros Hm Hh. unfold lease_load_rw.
  eapply conf_bind; [apply conf_quiet; [apply quiet_pre_checks|done]|].
  intros g1 [rv dead] _ _. destruct (Z.ltb_spec rv 0); [by split; [|apply loaded_fail]|].
  eapply conf_bind with (Q' := fun _ m' => mnt_ok h m' /\ 0 <= mnt_host_generation m' <= 2 ^ 32).
  - apply conf_read; [done|apply Hm|]. intros rv1 r Hr. exists (g_ph g1). split; [by left|].
    pose proof (host_record_parse_typed zero_record rv1 r rec_typed_zero Hr) as Ht.
    destruct (host_record_parse ss zero_record (rv1, r)) as [rv2 r2].
    split; [done|]. split; [done|]. unfold rec_typed, is_u32 in Ht. simpl in *.
    destruct (rv2 =? PFS_OK); lia.
  - intros g2 m2 _ [? ?]. by apply conf_acquire_phases.
Qed.

Lemma loaded_leader h g m rv lr : loaded h g (m, rv) -> 0 <= rv ->
  loaded h g (set_log_leader lr m, PFS_OK).
Proof. intros Hl Hrv _. destruct (Hl Hrv) as (arm & ?). by exists arm. Qed.

Lemma conf_load_rest h m lr g :
  mnt_ok h m -> 0 <= h <= nh ->
  conf h top (loaded h)
    (do (m, rv) <- lease_load_rw dur skew wdog fuel m;
     if rv <? 0 then Ret (m, rv) else Ret (set_log_leader (Some lr) m, PFS_OK)) g.
Proof.
  intros. eapply conf_bind; [by apply conf_load_rw|]. intros g' [m' rv] _ Hl.
  destruct (Z.ltb_spec rv 0); (split; [done|]); [done|by eapply loaded_leader].
Qed.

Lemma conf_leader_load h m g :
  1 <= h <= nh -> start_mount h m ->
  conf h top (loaded h) (pfs_leader_load dur skew wdog fuel m) g.
Proof.
  intros Hh (Hw & Hheld & Hss & Hid). unfold pfs_leader_load.
  split; [done|]. intros fd. exists (g_ph g). split; [by right|].
  destruct (Z.ltb_spec fd 0); [by split; [|apply loaded_fail]|].
  split; [done|]. intros raw lr Hn. cbv beta zeta.
  set (err := leader_read_one _ _). destruct (Z.ltb_spec err 0); [by split; [|apply loaded_fail]|].
  cbn [snd]. rewrite Hn. assert (Hwn : wrap32 nh = nh) by (by apply Z.mod_small).
  rewrite Hwn. cbn [mnt_host_id mnt_num_hosts mnt_istool mnt_ispfsd set_num_hosts set_paxos_file].
  destruct (mnt_host_id m >? nh); [by split; [|apply loaded_fail]|].
  set (m1 := if _ && _ then _ else _).
  destruct (Z.gtb_spec (mnt_host_id m1) 0) as [Hpos|]; [|by split]. cbn [negb].
  assert (Hm1 : mnt_ok h m1 /\ mnt_writable m1 = true).
  { subst m1. destruct ((_ || _) && _) eqn:Eb; simpl in *; (split; [split_and!|]); try done.
    - apply andb_true_iff in Eb as [_ ?%Z.eqb_eq]. simpl. lia.
    - simpl. lia. }
  clearbody m1. destruct Hm1 as [Hm1 Hw1]. rewrite Hw1. destruct (negb (mnt_ispfsd m1)); cbn [andb].
  - split; [done|]. intros fd1. exists (g_ph g). split; [by right|].
    destruct (Z.ltb_spec fd1 0); [by split; [|apply loaded_fail]|].
    cbn [set_hostid_fd mnt_writable]. rewrite Hw1. apply conf_load_rest; [done|lia].
  - apply conf_load_rest; [done|lia].
Qed.

Lemma held_mono h g g' m :
  held h g m -> g_ph g' = g_ph g -> g_bal g' = g_bal g -> g_lc g <= g_lc g' -> held h g' m.
Proof.
  intros (arm & Hph & ? & ? & ? & ? & ?) Hph' Hb Hl. exists arm. rewrite Hph', Hb.
  split_and!; done || lia.
Qed.

Lemma held_is_hold h g m : held h g m -> is_hold (g_ph g).
Proof. by intros (arm & -> & _). Qed.

(** A renewal: either the record did not change hands ([m] keeps its write
    time) or it was stamped after the new write time. *)
Lemma conf_renew h m g :
  held h g m ->
  conf h is_hold (fun g' '(m', _) => held h g' m') (pfs_rw_lease_renew m) g.
Proof.
  intros Hheld. pose proof (held_is_hold _ _ _ Hheld) as Hh.
  destruct Hheld as (arm & Hph & Ha & Hlc & Hid & Hss & Hbal). unfold pfs_rw_lease_renew.
  split; [done|]. intros iss Hiss. exists (g_ph g). split; [by left|].
  split; [done|]. intros now s Hs. simpl in Hs.
  assert (Hrec : rec_ok h PFS_HOST_FL_RW (g_bal g) (tv_sec now)
            (lease_record m PFS_HOST_FL_RW now (mnt_current_ballot m) (mnt_current_ballot m))).
  { rewrite Hbal. by apply (lease_record_ok m). }
  apply conf_lease_write; try done.
  - apply rec_typed_lease.
  - intros raw rv Hne _. eexists. split.
    + right; right. simpl. rewrite Hph. split; [done|]. split; [lia|]. by left.
    + split; [done|]. exists arm. simpl. split_and!; try done. lia.
  - eexists. split.
    + right; right. simpl. rewrite Hph. split; [done|]. split; [lia|]. right. split; [done|].
      exists iss. split; [lia|done].
    + split; [done|]. exists arm. simpl. split_and!; try done; lia.
Qed.

Lemma conf_watchdog_pet h m g :
  held h g m -> conf h is_hold (fun g' _ => held h g' m) (paxos_watchdog_pet dur m) g.
Proof.
  intros Hheld. unfold paxos_watchdog_pet.
  assert (Hdev : forall g, held h g m -> conf h is_hold (fun g' _ => held h g' m)
            (if mnt_wdog_fd m >=? 0 then Sys SysWdogWrite (fun _ => Ret tt) else Ret tt) g).
  { intros g1 H1. pose proof (held_is_hold _ _ _ H1).
    destruct (mnt_wdog_fd m >=? 0); (split; [done|]); [|done].
    intros rv. exists (g_ph g1). split; [by right|]. by split. }
  destruct (mnt_kill_timer_armed m); [|by apply Hdev].
  pose proof (held_is_hold _ _ _ Hheld). destruct Hheld as (arm & Hph & Ha & Hlc & Hrest).
  split; [done|]. intros rv. destruct (Z.ltb_spec rv 0) as [Hlt|Hge].
  - exists (g_ph g). split; [right; simpl; by rewrite (proj2 (Z.ltb_lt _ _) Hlt)|].
    apply Hdev. by exists arm.
  - exists (Hold (mnt_lease_write_time m) (mnt_lease_write_time m)). split.
    { right. simpl. by rewrite (proj2 (Z.ltb_ge _ _) Hge), Hph. }
    apply Hdev. eexists. split_and!; try apply Hrest; done.
Qed.

Lemma conf_log_thread_renew h m susp last g :
  held h g m ->
  conf h is_hold (fun g' '(m', _) => held h g' m') (log_thread_renew dur log_lease m susp last) g.
Proof.
  intros Hheld. pose proof (held_is_hold _ _ _ Hheld) as Hh.
  split; [done|]. intros ts s Hs. cbv beta.
  assert (Hg : held h (with_rt ts s g) m) by by eapply held_mono.
  destruct (_ && _); [|by split].
  eapply conf_bind; [by apply conf_renew|]. intros g1 [m1 rv] HR H1.
  destruct (rv =? 0).
  - eapply conf_bind; [by apply conf_watchdog_pet|]. intros g2 [] HR2 H2. by split.
  - cbv zeta. case_match; by split.
Qed.

(** A program that writes nothing but its own sector may always run: it
    gives the lease up on the way. *)
Fixpoint own (h : Z) {A} (p : prog A) : Prop :=
  match p with
  | Ret _ | Abort | Hang => True
  | LeaseClock k | RealTime k => forall v, own h (k v)
  | ReadLeader k => forall r, own h (k r)
  | ReadSector _ k => forall r, own h (k r)
  | WriteSector i r k => i = h /\ rec_typed r /\ forall v, own h (k v)
  | SleepSec k => own h k
  | Sys _ k => forall v, own h (k v)
  end.

Lemma own_bind h A B (p : prog A) (f : A -> prog B) :
  own h p -> (forall a, own h (f a)) -> own h (prog_bind p f).
Proof. intros Hp Hf. induction p; simpl in *; try destruct Hp as (? & ? & ?); auto. Qed.

Lemma conf_own h A (p : prog A) : own h p -> forall g, conf h top (fun _ _ => True) p g.
Proof.
  induction p as [a|k IH|k IH|k IH|i k IH|i r k IH|k IH|c k IH| |]; simpl; intros Ho g;
    (split; [done|]); auto.
  - intros v _. exists (g_ph g). split; [by left|]. auto.
  - intros rv r _. exists (g_ph g). split; [by left|]. auto.
  - destruct Ho as (-> & Hr & Ho). do 2 (split; [done|]). intros rv. eexists. split; [by left|]. auto.
  - intros rv. eexists. split; [by left|]. auto.
Qed.

Lemma own_watchdog_close h m : own h (paxos_watchdog_close m).
Proof.
  apply own_bind; [by destruct (mnt_kill_timer_armed m)|].
  intros m'. by destruct (mnt_wdog_fd m' >=? 0).
Qed.

Lemma watchdog_close_host_id h m A (f : mount -> prog A) :
  (forall m', mnt_host_id m' = mnt_host_id m -> own h (f m')) ->
  own h (prog_bind (paxos_watchdog_close m) f).
Proof.
  intros Hf. unfold paxos_watchdog_close. destruct (mnt_kill_timer_armed m); cbn [prog_bind];
    [intros _ _|]; case_match; simpl; auto; by intros _ _; apply Hf.
Qed.

Lemma own_leader_unload h m : mnt_host_id m = h -> own h (pfs_leader_unload m).
Proof.
  intros Hid. unfold pfs_leader_unload. apply own_bind.
  - destruct (mnt_rw_lease_held m); [|done]. apply watchdog_close_host_id. intros m' Hm'.
    rewrite Hid in Hm'. simpl. split_and!; [done|apply rec_typed_zero|done].
  - intros m1. apply own_bind; [by repeat case_match|]. intros m2. by case_match.
Qed.

(** ** The invariant *)
Definition nd (t h : Z) (g : ghost) : Prop :=
  match g_ph g with
  | Off => False
  | Ver iss _ | Got iss _ | Cnf iss _ | Hold iss _ => lease_clock h t < iss + dur * NSEC
  end.

(** [g] claims to have seen host [b] out of its way in the conflict check,
    in the verify scan. *)
Definition pconf (g : ghost) (b : Z) : Prop :=
  match g_ph g with Cnf _ C => b ∈ C | Hold _ _ => True | _ => False end.
Definition pver (g : ghost) (b : Z) : Prop :=
  match g_ph g with Ver _ V => b ∈ V | Off => False | _ => True end.

Definition pair_inv (t : Z) (G : Z -> ghost) : Prop :=
  forall a b, a <> b -> 1 <= a <= nh -> 1 <= b <= nh -> nd t a (G a) -> nd t b (G b) ->
    pconf (G a) b -> pver (G b) a -> g_bal (G b) < g_bal (G a).

Definition stamped (h flags bal from : Z) (r : pfs_host_record) : Prop :=
  exists s, from <= s /\ rec_ok h flags bal (tv_sec (realtime h (s - boot h))) r.

Definition sec_inv (h : Z) (g : ghost) (r : pfs_host_record) (deadline : option Z) : Prop :=
  match g_ph g with
  | Off => True
  | Ver iss _ => stamped h PFS_HOST_FL_PREPARE (g_bal g) iss r
  | Got iss iss' => iss <= iss' /\ stamped h PFS_HOST_FL_RW (g_bal g) iss' r
  | Cnf iss' _ => stamped h PFS_HOST_FL_RW (g_bal g) iss' r
  | Hold arm fresh => arm <= fresh /\ stamped h PFS_HOST_FL_RW (g_bal g) fresh r /\
      deadline = Some (arm + dur * NSEC)
  end.

Definition clk_inv (t h : Z) (g : ghost) : Prop :=
  g_lc g <= lease_clock h t /\ g_rts g <= lease_clock h t /\
  g_rt g = realtime h (g_rts g - boot h) /\ (g_ph g <> Off -> ballot_of h (g_bal g)).

Definition ctl_inv (h : Z) (g : ghost) (c : ctl) : Prop :=
  match c with
  | Down => g_ph g = Off
  | Loading p => conf h top (loaded h) p g
  | Holding m _ => held h g m
  | Renewing p => conf h is_hold (fun g' '(m, _) => held h g' m) p g
  | Unloading p => conf h top (fun _ _ => True) p g
  end.

Record host_inv (w : world) (h : Z) (g : ghost) : Prop := {
  hi_clk : clk_inv (w_time w) h g;
  hi_sec : sec_inv h g (w_sec w h) (w_deadline w h);
  hi_typed : rec_typed (w_sec w h) }.

Definition inv (w : world) : Prop :=
  exists G : Z -> ghost,
    (forall h, host_inv w h (G h)) /\ (forall h, ctl_inv h (G h) (w_ctl w h)) /\
    (forall h, w_ctl w h <> Down -> 1 <= h <= nh) /\ pair_inv (w_time w) G.

(** *** A record whose writer is not doomed is live for every reader *)
Lemma tv_sec_diff x y d : x - y < d * NSEC -> tv_sec x - tv_sec y <= d.
Proof.
  intros H. unfold tv_sec.
  assert (x / NSEC < y / NSEC + d + 1); [|lia].
  apply Z.div_lt_upper_bound; [done|].
  pose proof (Z.mul_succ_div_gt y NSEC ltac:(done)). lia.
Qed.

Lemma record_live t a b from s rt :
  rt <= lease_clock a t -> from <= s -> lease_clock b t < from + dur * NSEC ->
  host_record_live dur skew (tv_sec (realtime b (s - boot b))) (realtime a (rt - boot a)) = true.
Proof.
  intros Hrt Hs Hlt. unfold host_record_live, host_record_age, lease_expiry_age.
  apply Z.ltb_lt. unfold lease_clock in *.
  pose proof (realtime_skew b a (s - boot b) (rt - boot a)) as Hsk.
  assert (Z.max 0 (rt - boot a - (s - boot b)) < dur * NSEC).
  { assert (0 < NSEC) by done. nia. }
  pose proof (tv_sec_diff (realtime a (rt - boot a)) (realtime b (s - boot b)) (dur + skew)
                ltac:(rewrite Z.mul_add_distr_r; lia)). lia.
Qed.

Lemma parse_rec_ok h flags bal ts r hr0 :
  rec_ok h flags bal ts r -> host_record_parse ss hr0 (ss, r) = (PFS_OK, r).
Proof.
  intros (Hm & Hck & _). unfold host_record_parse, paxos_read_rv.
  rewrite Z.eqb_refl. cbn [negb]. destruct (Z.ltb_spec ss 0); [lia|].
  destruct (Z.ltb_spec ss 0); [lia|]. by rewrite Hm, Hck, !Z.eqb_refl.
Qed.

(** The scans stop at the sector of a host that is not doomed. *)
Lemma verify_sees_rw m dead now i b bal ts r :
  rec_ok b PFS_HOST_FL_RW bal ts r -> host_record_live dur skew ts now = true ->
  verify_prepare_slot dur skew m dead now i PFS_OK r <> None.
Proof.
  intros (_ & _ & Hf & _ & Hts & _) Hl. unfold verify_prepare_slot.
  by rewrite Hf, Hts, Hl.
Qed.

Lemma conflict_sees_ballot m dead now i b flags bal ts r :
  rec_ok b flags bal ts r -> flags = PFS_HOST_FL_RW \/ flags = PFS_HOST_FL_PREPARE ->
  host_record_live dur skew ts now = true ->
  check_conflict_slot dur skew m dead now i PFS_OK r = None -> bal <= mnt_current_ballot m.
Proof.
  intros (_ & _ & Hf & _ & Hts & Hmb & Hb) Hfl Hl. unfold check_conflict_slot.
  rewrite Hf, Hts, Hl, Hmb. destruct Hfl as [->| ->]; [rewrite (Hb eq_refl)|]; simpl;
    by destruct (Z.gtb_spec bal (mnt_current_ballot m)).
Qed.

Lemma failed_read_no_pass h judge g i rv hr :
  rv <> ss -> host_record_corrupt rv = false ->
  (forall mnt dead now i rv hr, rv < 0 -> host_record_corrupt rv = false ->
     judge mnt dead now i rv hr <> None) ->
  ~ passes h judge g i rv hr.
Proof.
  intros Hne Hc Hj (m & dead & hr0 & _ & Hp). unfold host_record_parse, paxos_read_rv in Hp.
  destruct (Z.ltb_spec rv 0) as [Hlt|Hge].
  - rewrite (proj2 (Z.ltb_lt _ _) Hlt) in Hp. by apply (Hj _ _ _ _ _ _ Hlt Hc Hp).
  - rewrite (proj2 (Z.eqb_neq _ _) Hne) in Hp. by apply (Hj m dead (g_rt g) i (- EIO) hr0) in Hp.
Qed.

Lemma verify_slot_failed m dead now i rv hr :
  rv < 0 -> host_record_corrupt rv = false -> verify_prepare_slot dur skew m dead now i rv hr <> None.
Proof.
  intros Hlt Hc. unfold verify_prepare_slot. rewrite Hc.
  destruct (Z.eqb_spec rv 0); [lia|]. destruct (Z.eqb_spec rv PFS_OK) as [->|]; done.
Qed.
Lemma conflict_slot_failed m dead now i rv hr :
  rv < 0 -> host_record_corrupt rv = false -> check_conflict_slot dur skew m dead now i rv hr <> None.
Proof.
  intros Hlt Hc. unfold check_conflict_slot. rewrite Hc.
  destruct (Z.eqb_spec rv 0); [lia|]. destruct (Z.eqb_spec rv PFS_OK) as [->|]; done.
Qed.

Lemma ballot_inj a b x : 1 <= a <= nh -> 1 <= b <= nh -> ballot_of a x -> ballot_of b x -> a = b.
Proof. intros Ha Hb [g1 ->] [g2 E]. assert (g1 = g2) by nia. subst. lia. Qed.

(** What host [a] learns from the sector of [b]. *)
Lemma stamped_live t a b from s ga :
  clk_inv t a ga -> from <= s -> lease_clock b t < from + dur * NSEC ->
  host_record_live dur skew (tv_sec (realtime b (s - boot b))) (g_rt ga) = true.
Proof. intros (_ & Hr & -> & _). by eapply record_live. Qed.

Lemma verify_learns t a b ga gb r d :
  clk_inv t a ga -> sec_inv b gb r d -> nd t b gb -> pconf gb a ->
  ~ passes a (verify_prepare_slot dur skew) ga b ss r.
Proof.
  intros Hclk Hsec Hnd Hpc (m & dead & hr0 & _ & Hp).
  assert (exists from, stamped b PFS_HOST_FL_RW (g_bal gb) from r /\
            lease_clock b t < from + dur * NSEC) as (from & (s & Hs & Hrec) & Hlt).
  { unfold sec_inv, nd, pconf in *. destruct (g_ph gb); try done; [by eexists|].
    destruct Hsec as (? & ? & _). eexists. split; [done|]. lia. }
  rewrite (parse_rec_ok _ _ _ _ _ _ Hrec) in Hp.
  eapply verify_sees_rw; [exact Hrec| |exact Hp]. by eapply stamped_live.
Qed.

Lemma conflict_learns t a b ga gb r d :
  clk_inv t a ga -> sec_inv b gb r d -> nd t b gb ->
  passes a (check_conflict_slot dur skew) ga b ss r -> g_bal gb <= g_bal ga.
Proof.
  intros Hclk Hsec Hnd (m & dead & hr0 & Hbal & Hp).
  assert (exists flags from, stamped b flags (g_bal gb) from r /\
            (flags = PFS_HOST_FL_RW \/ flags = PFS_HOST_FL_PREPARE) /\
            lease_clock b t < from + dur * NSEC) as (flags & from & (s & Hs & Hrec) & Hfl & Hlt).
  { unfold sec_inv, nd in *. destruct (g_ph gb); try done.
    - eexists _, _. split; [done|]. auto.
    - destruct Hsec as [? ?]. eexists _, _. split; [done|]. split; [auto|]. lia.
    - eexists _, _. split; [done|]. auto.
    - destruct Hsec as (? & ? & _). eexists _, _. split; [done|]. split; [auto|]. lia. }
  rewrite (parse_rec_ok _ _ _ _ _ _ Hrec) in Hp. rewrite <- Hbal.
  eapply conflict_sees_ballot; [exact Hrec|done| |exact Hp]. by eapply stamped_live.
Qed.

(** *** Moving one host *)
Definition no_claims (g : ghost) : Prop := forall b, ~ pconf g b /\ ~ pver g b.

(** [h] moves from [g] to [g']: it keeps its ballot and is not doomed
    later than before, and each claim it gains is true of the others. *)
Record advances (t : Z) (G : Z -> ghost) (h : Z) (g' : ghost) : Prop := {
  adv_bal : g_bal g' = g_bal (G h);
  adv_nd : nd t h g' -> nd t h (G h);
  adv_conf : forall b, b <> h -> 1 <= b <= nh -> nd t b (G b) -> pconf g' b -> pver (G b) h ->
    pconf (G h) b \/ g_bal (G b) < g_bal g';
  adv_ver : forall a, a <> h -> 1 <= a <= nh -> nd t a (G a) -> pver g' a -> pconf (G a) h ->
    pver (G h) a \/ g_bal g' < g_bal (G a) }.

Lemma pair_upd t G h g' :
  pair_inv t G -> no_claims g' \/ advances t G h g' -> pair_inv t (<[h:=g']> G).
Proof.
  intros Hp Hadv a b Hab Ha Hb Hna Hnb Hc Hv.
  destruct (decide (a = h)) as [->|Hah].
  - rewrite fn_lookup_insert in *. rewrite fn_lookup_insert_ne in * by done.
    destruct Hadv as [Hno|[Eb Hnd Hac _]]; [by destruct (Hno b)|].
    destruct (Hac b) as [?|?]; try done. rewrite Eb. by apply Hp; auto.
  - rewrite fn_lookup_insert_ne in * by done. destruct (decide (b = h)) as [->|Hbh].
    + rewrite fn_lookup_insert in *.
      destruct Hadv as [Hno|[Eb Hnd _ Hav]]; [by destruct (Hno a)|].
      rewrite fn_lookup_insert_ne by done.
      destruct (Hav a) as [?|?]; try done. rewrite Eb. by apply Hp; auto.
    + rewrite !fn_lookup_insert_ne in * by done. by apply Hp.
Qed.

Lemma no_claims_off g : g_ph g = Off -> no_claims g.
Proof. intros E b. unfold pconf, pver. rewrite E. auto. Qed.
Lemma no_claims_ver g iss : g_ph g = Ver iss [] -> no_claims g.
Proof. intros E b. unfold pconf, pver. rewrite E. split; [by intros []|]. apply not_elem_of_nil. Qed.

Lemma advances_same t G h g' :
  g_bal g' = g_bal (G h) -> g_ph g' = g_ph (G h) -> advances t G h g'.
Proof. intros Eb Ep. split; unfold nd, pconf, pver in *; rewrite ?Ep; auto. Qed.

(** The events of an acquisition advance it. *)
Lemma advances_verified t G h iss iss' V :
  g_ph (G h) = Ver iss V -> covers h V -> advances t G h (with_ph (Got iss iss') (G h)).
Proof.
  intros E Hc. split; [done|..]; unfold nd, pconf, pver; rewrite E; simpl; auto; done.
Qed.

Lemma advances_confirming t G h iss iss' :
  g_ph (G h) = Got iss iss' -> lease_clock h t < iss + dur * NSEC ->
  advances t G h (with_ph (Cnf iss' []) (G h)).
Proof.
  intros E Hlt. split; [done|..]; unfold nd, pconf, pver; rewrite E; simpl; auto.
  intros b _ _ _ Hin%elem_of_nil. done.
Qed.

Lemma advances_won t G h iss' C :
  g_ph (G h) = Cnf iss' C -> covers h C -> advances t G h (with_ph (Hold iss' iss') (G h)).
Proof. intros E Hc. split; [done|..]; unfold nd, pconf, pver; rewrite E; simpl; auto. Qed.

Lemma advances_hold t G h arm fresh arm' fresh' :
  g_ph (G h) = Hold arm fresh -> lease_clock h t < arm + dur * NSEC ->
  advances t G h (with_ph (Hold arm' fresh') (G h)).
Proof. intros E Hlt. split; [done|..]; unfold nd, pconf, pver; rewrite E; simpl; auto. Qed.

Lemma advances_ver_read w G h iss V i :
  (forall h, host_inv w h (G h)) -> g_ph (G h) = Ver iss V ->
  passes h (verify_prepare_slot dur skew) (G h) i ss (w_sec w i) ->
  advances (w_time w) G h (with_ph (Ver iss (i :: V)) (G h)).
Proof.
  intros HG E Hp. split; [done|..].
  - unfold nd. by rewrite E.
  - by intros b _ _ _ [].
  - intros a Hne Ha Hnd [->|Hin]%elem_of_cons Hpc; [|unfold pver; rewrite E; auto].
    exfalso. by eapply verify_learns; [apply HG|apply HG|..].
Qed.

Lemma advances_cnf_read w G h iss' C i :
  (forall h, host_inv w h (G h)) -> 1 <= h <= nh -> g_ph (G h) = Cnf iss' C ->
  passes h (check_conflict_slot dur skew) (G h) i ss (w_sec w i) ->
  advances (w_time w) G h (with_ph (Cnf iss' (i :: C)) (G h)).
Proof.
  intros HG Hh E Hp. split; [done|..].
  - unfold nd. by rewrite E.
  - intros b Hne Hb Hnd [->|Hin]%elem_of_cons Hpv; [|unfold pconf; rewrite E; auto].
    right. assert (g_bal (G i) <= g_bal (G h)).
    { eapply conflict_learns; [apply HG|apply HG|done|done]. }
    assert (g_bal (G i) <> g_bal (G h)); [|simpl; lia]. intros Eb. apply Hne.
    destruct (hi_clk _ _ _ (HG i)) as (_ & _ & _ & Hbi), (hi_clk _ _ _ (HG h)) as (_ & _ & _ & Hbh).
    apply (ballot_inj i h (g_bal (G i))); [done|done| |].
    + apply Hbi. unfold nd in Hnd. by intros E'; rewrite E' in Hnd.
    + rewrite Eb. apply Hbh. by rewrite E.
  - intros a _ _ _ _ _. left. unfold pver. by rewrite E.
Qed.

(** *** One event of one host *)
Record moves (w w' : world) (G : Z -> ghost) (h : Z) (g' : ghost) : Prop := {
  mv_host : host_inv w' h g';
  mv_pair : pair_inv (w_time w) (<[h:=g']> G);
  mv_time : w_time w' = w_time w;
  mv_ctl : w_ctl w' = w_ctl w;
  mv_sec : forall i, i <> h -> w_sec w' i = w_sec w i;
  mv_deadline : forall i, i <> h -> w_deadline w' i = w_deadline w i }.

Section Event.
Context (w : world) (G : Z -> ghost) (h : Z).
Context (HG : forall i, host_inv w i (G i)) (Hp : pair_inv (w_time w) G).
Context (Hh : 1 <= h <= nh) (Hal : alive w h).
Let t := w_time w.

Lemma moves_still g' :
  no_claims g' \/ advances t G h g' -> clk_inv t h g' ->
  sec_inv h g' (w_sec w h) (w_deadline w h) -> moves w w G h g'.
Proof.
  intros Ha Hc Hs. split; try done; [|by apply pair_upd].
  split; [done|done|apply HG].
Qed.

Lemma moves_off w' g' :
  g_ph g' = Off -> clk_inv t h g' -> rec_typed (w_sec w' h) ->
  w_time w' = w_time w -> w_ctl w' = w_ctl w ->
  (forall i, i <> h -> w_sec w' i = w_sec w i) ->
  (forall i, i <> h -> w_deadline w' i = w_deadline w i) -> moves w w' G h g'.
Proof.
  intros E Hc Ht Et Ec Es Ed. split; try done.
  - split; [by rewrite Et| |done]. unfold sec_inv. by rewrite E.
  - apply pair_upd; [done|]. left. by apply no_claims_off.
Qed.

Lemma clk_ph f g : clk_inv t h g -> g_ph g <> Off -> clk_inv t h (with_ph f g).
Proof. intros (?&?&?&?) Hne. split_and!; simpl; auto. Qed.

Lemma clk_off g : clk_inv t h g -> clk_inv t h (with_ph Off g).
Proof. intros (?&?&?&?). split_and!; by simpl; auto. Qed.

Lemma moves_clock f' :
  clock_tr (g_ph (G h)) (lease_clock h t) f' ->
  moves w w G h (with_lc (lease_clock h t) (with_ph f' (G h))).
Proof.
  destruct (HG h) as [(Hlc & Hrts & Hrt & Hb) Hsec _]. intros [->|Htr].
  - apply moves_still; [right; by apply advances_same|split_and!; simpl; auto; lia|].
    unfold sec_inv in *. by simpl.
  - destruct (g_ph (G h)) as [| |iss iss'| |] eqn:E; try done. destruct Htr as [-> Hlt].
    apply moves_still.
    + right. apply (advances_confirming t G h iss iss') in E; [|done]. by destruct E.
    + split_and!; simpl; auto; try lia.
    + unfold sec_inv in *. rewrite E in Hsec. by destruct Hsec.
Qed.

Lemma moves_real :
  moves w w G h (with_rt (realtime h t) (lease_clock h t) (G h)).
Proof.
  destruct (HG h) as [(Hlc & Hrts & Hrt & Hb) Hsec _].
  apply moves_still; [right; by apply advances_same| |].
  - split_and!; simpl; auto; try lia. f_equal. unfold lease_clock. lia.
  - unfold sec_inv in *. by simpl.
Qed.

Lemma moves_read i f' :
  read_tr h (G h) i ss (w_sec w i) f' -> moves w w G h (with_ph f' (G h)).
Proof.
  destruct (HG h) as [Hclk Hsec _]. intros [->|Htr].
  { apply moves_still; [right; by apply advances_same|done|done]. }
  destruct (g_ph (G h)) as [|iss V| |iss' C|] eqn:E; try done; destruct Htr as [-> Hpass];
    (apply moves_still; [right| by apply clk_ph; [|rewrite E]|
                         unfold sec_inv in *; by rewrite E in Hsec]).
  - by apply advances_ver_read.
  - by apply advances_cnf_read.
Qed.

Lemma moves_read_err i rv hr f' :
  rv <> ss -> host_record_corrupt rv = false ->
  read_tr h (G h) i rv hr f' -> moves w w G h (with_ph f' (G h)).
Proof.
  intros Hne Hc Htr. assert (f' = g_ph (G h)) as ->.
  { destruct Htr as [->|Htr]; [done|].
    destruct (g_ph (G h)); try done; destruct Htr as [_ Hpass]; exfalso; revert Hpass;
      apply failed_read_no_pass; auto using verify_slot_failed, conflict_slot_failed. }
  apply moves_still; [right; by apply advances_same|apply HG|apply HG].
Qed.

Lemma stamp_now flags bal from r g :
  clk_inv t h g -> rec_ok h flags bal (tv_sec (g_rt g)) r -> from <= g_rts g ->
  stamped h flags bal from r.
Proof. intros (_ & _ & Hrt & _) Hrec Hle. exists (g_rts g). by rewrite <- Hrt. Qed.

Lemma hold_alive arm fresh : g_ph (G h) = Hold arm fresh -> lease_clock h t < arm + dur * NSEC.
Proof.
  intros E. destruct (HG h) as [_ Hsec _]. unfold sec_inv in Hsec. rewrite E in Hsec.
  destruct Hsec as (_ & _ & Hd). unfold alive in Hal. by rewrite Hd in Hal.
Qed.

(** A write that changed the sector ... *)
Lemma moves_set_sec r g' :
  no_claims g' \/ advances t G h g' -> clk_inv t h g' -> rec_typed r ->
  sec_inv h g' r (w_deadline w h) -> moves w (set_sec w h r) G h g'.
Proof.
  intros Ha Hc Hr Hs. split; try done; simpl.
  - split; simpl; [done| |]; by rewrite fn_lookup_insert.
  - by apply pair_upd.
  - intros i Hne. by rewrite fn_lookup_insert_ne.
Qed.

Lemma moves_write_landed r rv g' :
  write_tr h (G h) r rv g' -> rec_typed r -> moves w (set_sec w h r) G h g'.
Proof.
  destruct (HG h) as [Hclk Hsec _]. intros Htr Hr.
  destruct Htr as [->|[(_ & iss & b & Hrec & Hle & Hb & ->)|Htr]].
  - apply moves_set_sec; [left; by apply no_claims_off|by apply clk_off|done|done].
  - apply moves_set_sec; [left; by eapply no_claims_ver| |done|by eapply stamp_now].
    destruct Hclk as (? & ? & ? & _). by split_and!.
  - destruct (g_ph (G h)) as [|iss V| | |arm fresh] eqn:E; try done.
    + destruct Htr as (_ & Hcov & iss' & Hrec & Hle & ->).
      apply moves_set_sec; [right; by eapply advances_verified|by apply clk_ph; [|rewrite E]|done|].
      split; [lia|]. eapply stamp_now; [done|done|lia].
    + unfold sec_inv in Hsec. rewrite E in Hsec. destruct Hsec as (Haf & _ & Hd).
      destruct Htr as (Hrec & Hfr & [->|(_ & iss' & Hle & ->)]); apply moves_set_sec; try done.
      * right. by apply advances_same.
      * unfold sec_inv. rewrite E. split_and!; [done|by eapply stamp_now|done].
      * right. eapply advances_hold; [done|]. by eapply hold_alive.
      * by apply clk_ph; [|rewrite E].
      * split_and!; [lia|eapply stamp_now; [done|done|lia]|done].
Qed.

(** ... and one that did not, which failed. *)
Lemma moves_write_lost r rv g' :
  write_tr h (G h) r rv g' -> rv <> ss -> moves w w G h g'.
Proof.
  destruct (HG h) as [Hclk Hsec Ht]. intros Htr Hne.
  destruct Htr as [->|[(? & _)|Htr]]; [|done|].
  - apply moves_off; try done. by apply clk_off.
  - destruct (g_ph (G h)) eqn:E; try done; [by destruct Htr|].
    destruct Htr as (_ & _ & [->|[? _]]); [|done].
    apply moves_still; [right; by apply advances_same|done|done].
Qed.

Lemma moves_set_deadline d g' :
  no_claims g' \/ advances t G h g' -> clk_inv t h g' ->
  sec_inv h g' (w_sec w h) d -> moves w (set_deadline w h d) G h g'.
Proof.
  intros Ha Hc Hs. split; try done; simpl.
  - split; simpl; [done| |apply HG]. by rewrite fn_lookup_insert.
  - by apply pair_upd.
  - intros i Hne. by rewrite fn_lookup_insert_ne.
Qed.

Lemma moves_disarm d : moves w (set_deadline w h d) G h (with_ph Off (G h)).
Proof.
  apply moves_set_deadline; [left; by apply no_claims_off| |done].
  apply clk_off, HG.
Qed.

Lemma moves_idle f' : f' = Off \/ f' = g_ph (G h) -> moves w w G h (with_ph f' (G h)).
Proof.
  intros [->| ->].
  - apply moves_off; try done; [apply clk_off, HG|apply HG].
  - apply moves_still; [right; by apply advances_same|apply HG|apply HG].
Qed.

Lemma moves_timer d rv f' :
  sys_tr h (g_ph (G h)) (SysTimerSet d) rv f' ->
  moves w (if rv <? 0 then w else set_deadline w h d) G h (with_ph f' (G h)).
Proof.
  destruct (HG h) as [Hclk Hsec Ht]. intros Htr. destruct (rv <? 0) eqn:Erv.
  { apply moves_idle. destruct Htr as [|Htr]; [by left|]. destruct d; [|done].
    rewrite Erv in Htr. by right. }
  destruct Htr as [->|Htr]; [apply moves_disarm|]. destruct d as [d|]; [|done].
  rewrite Erv in Htr. destruct (g_ph (G h)) as [| | |iss' C|arm fresh] eqn:E; try done;
    unfold sec_inv in Hsec; rewrite E in Hsec.
  - destruct Htr as (Hcov & -> & ->).
    apply moves_set_deadline; [right; by eapply advances_won|by apply clk_ph; [|rewrite E]|done].
  - destruct Htr as [-> ->]. destruct Hsec as (? & ? & ?).
    apply moves_set_deadline; [right|by apply clk_ph; [|rewrite E]|done].
    eapply advances_hold; [done|]. by eapply hold_alive.
Qed.

Lemma exec_moves R A (Q : ghost -> A -> Prop) p w' p' :
  conf h R Q p (G h) -> exec h w p w' p' ->
  exists g', conf h R Q p' g' /\ moves w w' G h g'.
Proof.
  intros Hc Hex. destruct Hex; destruct Hc as [HR Hc]; simpl in Hc.
  - destruct (Hc (lease_clock h t)) as (f' & Htr & Hc'); [apply HG|].
    eexists. split; [done|]. by apply moves_clock.
  - eexists. split; [apply (Hc _ (lease_clock h t)), HG|]. apply moves_real.
  - exists (G h). split; [auto|]. apply moves_still; [right; by apply advances_same|apply HG..].
  - destruct (Hc ss (w_sec w i)) as (f' & Htr & Hc'); [apply HG|].
    eexists. split; [done|]. by eapply moves_read.
  - destruct (Hc rv hr) as (f' & Htr & Hc'); [done|].
    eexists. split; [done|]. by eapply moves_read_err.
  - destruct Hc as (-> & Hr & Hc). destruct (Hc ss) as (g' & Htr & Hc').
    exists g'. split; [done|]. by eapply moves_write_landed.
  - destruct Hc as (-> & Hr & Hc). destruct (Hc rv) as (g' & Htr & Hc').
    exists g'. split; [done|]. by eapply moves_write_lost.
  - destruct Hc as (-> & Hr & Hc). destruct (Hc rv) as (g' & Htr & Hc').
    exists g'. split; [done|]. by eapply moves_write_landed.
  - exists (G h). split; [done|]. apply moves_still; [right; by apply advances_same|apply HG..].
  - destruct (Hc rv) as (f' & Htr & Hc'). eexists. split; [done|]. by apply moves_timer.
  - destruct (Hc rv) as (f' & Htr & Hc'). eexists. split; [done|].
    destruct Htr as [->|[]]. apply moves_disarm.
  - destruct (Hc rv) as (f' & Htr & Hc'). eexists. split; [done|]. apply moves_idle.
    destruct Htr as [|Htr]; [by left|]. right. by destruct c as [| | | | | |d| | | |]; try done; destruct (H d).
Qed.
End Event.

(** *** The invariant holds *)
Lemma moves_inv w w' G h g' c :
  (forall i, host_inv w i (G i)) -> (forall i, ctl_inv i (G i) (w_ctl w i)) ->
  (forall i, w_ctl w i <> Down -> 1 <= i <= nh) ->
  moves w w' G h g' -> ctl_inv h g' c -> 1 <= h <= nh -> inv (set_ctl w' h c).
Proof.
  intros HG Hctl Hrange [Hhost Hpair Et Ec Es Ed] Hc Hh. exists (<[h:=g']> G). split_and!; simpl.
  - intros i. destruct (decide (i = h)) as [->|Hne].
    + rewrite fn_lookup_insert. by destruct Hhost.
    + rewrite fn_lookup_insert_ne by done. destruct (HG i). split; simpl.
      * by rewrite Et.
      * by rewrite Es, Ed.
      * by rewrite Es.
  - intros i. destruct (decide (i = h)) as [->|Hne].
    + by rewrite !fn_lookup_insert.
    + rewrite !fn_lookup_insert_ne by done. rewrite Ec. apply Hctl.
  - intros i. destruct (decide (i = h)) as [->|Hne]; [done|].
    rewrite fn_lookup_insert_ne by done. rewrite Ec. apply Hrange.
  - by rewrite Et.
Qed.

(** Steps that only change what a process is doing. *)
Lemma ctl_step_inv w G h c :
  (forall i, host_inv w i (G i)) -> (forall i, ctl_inv i (G i) (w_ctl w i)) ->
  (forall i, w_ctl w i <> Down -> 1 <= i <= nh) -> pair_inv (w_time w) G ->
  w_ctl w h <> Down -> ctl_inv h (G h) c -> inv (set_ctl w h c).
Proof.
  intros HG Hctl Hrange Hp Hd Hc. eapply moves_inv; try done; [|by apply Hrange].
  apply moves_still; [done|done|right; by apply advances_same|apply HG..].
Qed.

(** Steps after which the process starts over. *)
Lemma reset_step_inv w G h c :
  (forall i, host_inv w i (G i)) -> (forall i, ctl_inv i (G i) (w_ctl w i)) ->
  (forall i, w_ctl w i <> Down -> 1 <= i <= nh) -> pair_inv (w_time w) G ->
  (c <> Down -> 1 <= h <= nh) -> ctl_inv h (with_ph Off (G h)) c ->
  inv (set_ctl (set_deadline w h None) h c).
Proof.
  intros HG Hctl Hrange Hp Hd Hc.
  assert (Hm : moves w (set_deadline w h None) G h (with_ph Off (G h))) by by apply moves_disarm.
  destruct Hm as [Hhost Hpair _ _ _ Ed]. exists (<[h:=with_ph Off (G h)]> G).
  split_and!; simpl; [| | |done]; intros i; destruct (decide (i = h)) as [->|Hne];
    rewrite ?fn_lookup_insert, ?fn_lookup_insert_ne by done; auto.
  - by destruct Hhost.
  - destruct (HG i). split; simpl; auto. by rewrite fn_lookup_insert_ne.
Qed.

(** Steps after which the process is gone. *)
Lemma stop_step_inv w G h :
  (forall i, host_inv w i (G i)) -> (forall i, ctl_inv i (G i) (w_ctl w i)) ->
  (forall i, w_ctl w i <> Down -> 1 <= i <= nh) -> pair_inv (w_time w) G ->
  1 <= h <= nh -> inv (set_ctl w h Down).
Proof.
  intros HG Hctl Hrange Hp Hh. eapply moves_inv; try done.
  - apply moves_idle; [done|done|by left].
  - done.
Qed.

Lemma nd_tick t d h g : 0 <= d -> nd (t + d) h g -> nd t h g.
Proof. intros Hd. unfold nd, lease_clock. destruct (g_ph g); lia. Qed.

Lemma tick_inv w d : 0 <= d -> inv w -> inv (set_time w (w_time w + d)).
Proof.
  intros Hd (G & HG & Hctl & Hrange & Hp). exists G. split_and!; try done.
  - intros h. destruct (HG h) as [(? & ? & ? & ?) ? ?]. split; try done. simpl.
    split_and!; try done; unfold lease_clock in *; lia.
  - intros a b Hab Ha Hb Hna Hnb. apply Hp; eauto using nd_tick.
Qed.

Lemma init_inv w : init_world w -> inv w.
Proof.
  intros (Hc & Hd & Ht).
  set (g0 h := {| g_lc := lease_clock h (w_time w); g_rt := realtime h (w_time w);
                  g_rts := lease_clock h (w_time w); g_bal := 0; g_ph := Off |}).
  exists g0. split_and!.
  - intros h. split; [|done|done]. split_and!; simpl; try done.
    f_equal. unfold lease_clock. lia.
  - intros h. by rewrite Hc.
  - intros h. by rewrite Hc.
  - by intros a b _ _ _ [].
Qed.

Lemma step_inv w w' : inv w -> step w w' -> inv w'.
Proof.
  intros Hinv Hst. destruct Hst as [d Hd|h m Hh Hdn Hm|h p w' p' E Hal Hex|h m rv last E Hrv
    |h m rv E Hrv|h m last susp E Hal|h p w' p' E Hal Hex|h m last E|h m last E Hal
    |h p w' p' E Hal Hex|h m E|h]; [by apply tick_inv|..];
    destruct Hinv as (G & HG & Hctl & Hrange & Hp); try (assert (w_ctl w h <> Down) as Hnd by congruence;
    pose proof (Hrange h Hnd) as Hh; pose proof (Hctl h) as Hch; rewrite E in Hch; simpl in Hch).
  - eapply reset_step_inv; try done. by apply conf_leader_load.
  - eapply exec_moves in Hch as (g' & Hc' & Hmv); [|done..]. by eapply moves_inv.
  - apply ctl_step_inv with (G := G); try done. by apply Hch.
  - by apply (stop_step_inv w G).
  - apply ctl_step_inv with (G := G); try done. by apply conf_log_thread_renew.
  - eapply exec_moves in Hch as (g' & Hc' & Hmv); [|done..]. by eapply moves_inv.
  - apply ctl_step_inv with (G := G); try done. by apply Hch.
  - apply ctl_step_inv with (G := G); try done. apply conf_own, own_leader_unload.
    by destruct Hch as (? & ? & ? & ? & ? & ?).
  - eapply exec_moves in Hch as (g' & Hc' & Hmv); [|done..]. by eapply moves_inv.
  - by apply (stop_step_inv w G).
  - by eapply reset_step_inv.
Qed.

Lemma reachable_inv w : reachable w -> inv w.
Proof. induction 1; [by apply init_inv|by eapply step_inv]. Qed.

Lemma holder_claims w G h :
  (forall i, host_inv w i (G i)) -> (forall i, ctl_inv i (G i) (w_ctl w i)) -> holds_lease w h ->
  nd (w_time w) h (G h) /\ is_hold (g_ph (G h)) /\ w_ctl w h <> Down.
Proof.
  intros HG Hctl Hl. pose proof (Hctl h) as Hc. unfold holds_lease in Hl.
  assert (is_hold (g_ph (G h)) /\ alive w h /\ w_ctl w h <> Down) as (Hh & Hal & Hd).
  { destruct (w_ctl w h) eqn:E; try done; simpl in Hc.
    - by eapply held_is_hold in Hc.
    - by apply conf_R in Hc. }
  split_and!; try done. destruct (HG h) as [_ Hsec _]. unfold sec_inv, nd, is_hold in *.
  destruct (g_ph (G h)); try done. destruct Hsec as (_ & _ & E).
  unfold alive in Hal. by rewrite E in Hal.
Qed.

(** *** Running a load without faults *)
Definition aliveb (w : world) (h : Z) : bool :=
  match w_deadline w h with Some d => lease_clock h (w_time w) <? d | None => true end.

(** The next event of [p] when every call succeeds; [lr] is the leader record. *)
Definition drive_prog (lr : pfs_leader_record) (h : Z) {A} (w : world) (p : prog A)
  : option (world * prog A) :=
  match p with
  | LeaseClock k => Some (w, k (lease_clock h (w_time w)))
  | RealTime k => Some (w, k (realtime h (w_time w)))
  | ReadLeader k => Some (w, k (ss, lr))
  | ReadSector i k => Some (w, k (ss, w_sec w i))
  | WriteSector i r k => Some (set_sec w i r, k ss)
  | SleepSec k => Some (w, k)
  | Sys (SysTimerSet d) k => Some (set_deadline w h d, k 0)
  | Sys SysTimerDelete k => Some (set_deadline w h None, k 0)
  | Sys _ k => Some (w, k 0)
  | Ret _ | Abort | Hang => None
  end.

Lemma drive_prog_exec lr h A w (p : prog A) w' p' :
  lr_num_hosts (lr_body lr) = nh -> drive_prog lr h w p = Some (w', p') -> exec h w p w' p'.
Proof.
  intros Hn. destruct p as [| | | | | | |c| |]; simpl; intros; simplify_eq; try by constructor.
  destruct c; simplify_eq; try (by constructor); by apply (ex_timer h w _ k 0).
Qed.

(** One step of host [h]; [None] when it is done. *)
Definition drive1 (lr : pfs_leader_record) (h : Z) (w : world) : option world :=
  match w_ctl w h with
  | Loading (Ret (m, rv)) =>
      if 0 <=? rv then Some (set_ctl w h (Holding m (w_time w))) else Some (set_ctl w h Down)
  | Loading p =>
      if aliveb w h
      then match drive_prog lr h w p with
           | Some (w', p') => Some (set_ctl w' h (Loading p'))
           | None => None
           end
      else None
  | _ => None
  end.

Lemma drive1_step lr h w w' :
  lr_num_hosts (lr_body lr) = nh -> drive1 lr h w = Some w' -> step w w'.
Proof.
  intros Hn. unfold drive1. destruct (w_ctl w h) as [|p| | |] eqn:E; try done.
  assert (Hal : aliveb w h = true -> alive w h).
  { unfold aliveb, alive. destruct (w_deadline w h); [apply Z.ltb_lt|done]. }
  destruct p as [[m rv]| | | | | | | | |] eqn:Ep; rewrite <- ?Ep.
  { destruct (Z.leb_spec 0 rv); intros; simplify_eq; [by eapply st_loaded|eapply st_load_failed; [done|lia]]. }
  all: destruct (aliveb w h); [|done]; destruct (drive_prog _ _ _ _) as [[w1 p1]|] eqn:Ed; [|done];
    intros; simplify_eq; eapply st_load; eauto using drive_prog_exec.
Qed.

Fixpoint drive (n : nat) (lr : pfs_leader_record) (h : Z) (w : world) : world :=
  match n with
  | O => w
  | S n => match drive1 lr h w with Some w' => drive n lr h w' | None => w end
  end.

Lemma drive_reachable n lr h w :
  lr_num_hosts (lr_body lr) = nh -> reachable w -> reachable (drive n lr h w).
Proof.
  intros Hn. revert w. induction n as [|n IH]; intros w Hw; [done|]. simpl.
  destruct (drive1 lr h w) as [w'|] eqn:E; [|done]. apply IH.
  eapply re_step; [done|]. by eapply drive1_step.
Qed.

(** C4: two hosts never hold the RW lease at the same time.  In every world
    that hosts reach by loading, renewing and releasing the lease, interleaved
    at every clock reading and sector access, with I/O errors, writes that fail
    but land, crashes, restarts and kill timers, and clocks that differ by no
    more than the configured skew, at most one host holds the lease. *)
Theorem lease_mutual_exclusion w a b :
  reachable w -> holds_lease w a -> holds_lease w b -> a = b.
Proof.
  intros Hre Ha Hb. destruct (reachable_inv _ Hre) as (G & HG & Hctl & Hrange & Hp).
  destruct (holder_claims w G a) as (Hna & Hha & Hra); try done.
  destruct (holder_claims w G b) as (Hnb & Hhb & Hrb); try done.
  destruct (decide (a = b)) as [|Hne]; [done|exfalso].
  assert (g_bal (G b) < g_bal (G a)) by (apply Hp; unfold pconf, pver, is_hold in *; auto; by repeat case_match).
  assert (g_bal (G a) < g_bal (G b)) by (apply Hp; unfold pconf, pver, is_hold in *; auto; by repeat case_match).
  lia.
Qed.
End System.

(** *** A run

    Two hosts whose LEASE_CLOCK started at different times and whose
    CLOCK_REALTIME differ by a second; 512-byte sectors, all blank. *)
#[export, refine] Instance two_clocks : Clocks 2 := {|
  boot h := 1000 * h;
  realtime h t := 1700000000 * NSEC + t + (if h =? 1 then NSEC else 0) |}.
Proof. intros. unfold NSEC. destruct (h =? 1), (h' =? 1); lia. Defined.

Definition blank_world : world :=
  {| w_time := 5 * NSEC; w_sec := fun _ => zero_record; w_ctl := fun _ => Down;
     w_deadline := fun _ => None |}.

Definition two_hosts_leader : pfs_leader_record :=
  leader_seal {| lr_body := {| lr_magic := PFS_LEADER_MAGIC; lr_version := 65538; lr_flags := 0;
    lr_sector_size := 512; lr_num_hosts := 2; lr_max_hosts := 254; lr_unused := [];
    lr_tail_txid := 0; lr_head_txid := 0; lr_tail_offset := 0; lr_head_offset := 0;
    lr_log_size := 1024; lr_head_lsn := 0 |}; lr_checksum := 0 |}.

Definition rw_mount (h : Z) : mount :=
  MkMount true false false 512 0 h 0 0 false 0 false (-1) (-1) false None.

(** Host [h] starts to load; [two_hosts_run] lets host 1 load, then host 2. *)
Definition start_host (h : Z) (w : world) : world :=
  set_ctl (set_deadline w h None) h (Loading (pfs_leader_load 30 2 false 3 (rw_mount h))).

Definition two_hosts_run : world :=
  drive 2 512 200 two_hosts_leader 2 (start_host 2
    (drive 2 512 200 two_hosts_leader 1 (start_host 1 blank_world))).

Lemma start_host_reachable h w :
  1 <= h <= 2 -> w_ctl w h = Down ->
  reachable 30 2 false 10 3 2 512 w -> reachable 30 2 false 10 3 2 512 (start_host h w).
Proof. intros Hh Hd Hr. eapply re_step; [done|]. apply st_start; auto. by repeat split; auto. Qed.

Lemma two_hosts_run_reachable : reachable 30 2 false 10 3 2 512 two_hosts_run.
Proof.
  unfold two_hosts_run. apply drive_reachable; [done|]. apply start_host_reachable; [done|by vm_compute|].
  apply drive_reachable; [done|]. apply start_host_reachable; [done|done|]. apply re_init.
  repeat split; intros; by vm_compute.
Qed.

Lemma lease_mutual_exclusion_witness :
  holds_lease 2 two_hosts_run 1 /\ ~ holds_lease 2 two_hosts_run 2.
Proof.
  pose proof (lease_mutual_exclusion 30 2 false 10 3 2 512 ltac:(done) ltac:(done)
    ltac:(done) ltac:(done) two_hosts_run 1 2 two_hosts_run_reachable) as Hexcl.
  split; [vm_compute; reflexivity|]. intros H2.
  assert (H1 : holds_lease 2 two_hosts_run 1) by (vm_compute; reflexivity).
  discriminate (Hexcl H1 H2).
Defined.
