(* ===== verification/Alloc.v ===== *)
(** * The object allocator

    Model of pfs_alloc.cc: the tree of allocation nodes that hands out block
    tags, directory entries and inodes.  The root of a type has one child per
    chunk ([pfs_init_anode]); a leaf has a bitmap of the free objects of its
    metaset.  [None] is an abort (a failed assertion) or an access outside
    the bitmap. *)

From S2P Require Import Prelude.

Open Scope pfs_scope.
#[local] Set Warnings "-register-all".

Definition AN_FREE_BMP_SHIFT : Z := 64.

(** [an_nchild] is the length of the child array. *)
Inductive anode : Type :=
| ANode (an_id an_shift an_nall an_nfree an_next : Z) (an_free_bmp : list Z)
    (an_children : list anode).

Definition an_id (an : anode) : Z := let 'ANode id _ _ _ _ _ _ := an in id.
Definition an_shift (an : anode) : Z := let 'ANode _ sh _ _ _ _ _ := an in sh.
Definition an_nall (an : anode) : Z := let 'ANode _ _ na _ _ _ _ := an in na.
Definition an_nfree (an : anode) : Z := let 'ANode _ _ _ nf _ _ _ := an in nf.
Definition an_next (an : anode) : Z := let 'ANode _ _ _ _ nx _ _ := an in nx.
Definition an_free_bmp (an : anode) : list Z := let 'ANode _ _ _ _ _ bm _ := an in bm.
Definition an_children (an : anode) : list anode := let 'ANode _ _ _ _ _ _ cs := an in cs.

Definition set_nfree (v : Z) (an : anode) : anode :=
  let 'ANode id sh na _ nx bm cs := an in ANode id sh na v nx bm cs.
Definition set_next (v : Z) (an : anode) : anode :=
  let 'ANode id sh na nf _ bm cs := an in ANode id sh na nf v bm cs.
Definition set_bmp (v : list Z) (an : anode) : anode :=
  let 'ANode id sh na nf nx _ cs := an in ANode id sh na nf nx v cs.
Definition set_child (i : nat) (c an : anode) : anode :=
  let 'ANode id sh na nf nx bm cs := an in ANode id sh na nf nx bm (<[i:=c]> cs).

(** [MONO_MAKE]. *)
Definition MONO_MAKE (sup sub : Z) : Z := Z.lor sup sub.

(** Bit [val] of the bitmap. *)
Definition bmp_word (bmp : list Z) (val : Z) : option Z := bmp !! Z.to_nat (val / AN_FREE_BMP_SHIFT).
Definition bmp_bit (val : Z) : Z := Z.shiftl 1 (val mod AN_FREE_BMP_SHIFT).

Definition pfs_anode_isfree_obj (an : anode) (val : Z) : option bool :=
  let* w := bmp_word (an_free_bmp an) val in Some (negb (Z.land w (bmp_bit val) =? 0)).

(** Only leafs have a bitmap to update; an odd [delta] flips the bit. *)
Definition pfs_anode_nfree_inc (an : anode) (val delta : Z) : option anode :=
  let an := set_nfree (an_nfree an + delta) an in
  match an_children an with
  | [] =>
      let* w := bmp_word (an_free_bmp an) val in
      Some (set_bmp (<[Z.to_nat (val / AN_FREE_BMP_SHIFT) :=
        Z.lxor w (Z.shiftl (Z.land delta 1) (val mod AN_FREE_BMP_SHIFT))]> (an_free_bmp an)) an)
  | _ => Some an
  end.

(** The child an object number is routed to, and the number within it. *)
Definition child_index (an : anode) (val : Z) : option nat :=
  let* can := head (an_children an) in
  let ci := to_int (Z.shiftr val (an_shift can)) in
  PFS_ASSERT ((0 <=? ci) && (ci <? Z.of_nat (length (an_children an)))) ;;
  Some (Z.to_nat ci).
Definition child_val (can : anode) (val : Z) : Z := Z.land val (Z.shiftl 1 (an_shift can) - 1).

(** *** Allocation *)
Section Alloc.
Context (allocfunc : Z -> Z -> bool).  (** [an_allocfunc] of the leaf with this id *)

(** The do-while loop over the objects of a leaf, from [an_next] around. *)
Fixpoint leaf_scan (n : nat) (an : anode) (nxt oldnxt : Z) : option (anode * Z * Z) :=
  match n with
  | O => None
  | S n =>
      let* free := pfs_anode_isfree_obj an nxt in
      let nxt' := if nxt + 1 >=? an_nall an then 0 else nxt + 1 in
      if free && allocfunc (an_id an) nxt then
        let* an := pfs_anode_nfree_inc an nxt (-1) in
        Some (set_next nxt' an, MONO_MAKE (Z.shiftl (an_id an) (an_shift an)) nxt, 0)
      else if nxt' =? oldnxt then Some (set_next oldnxt an, 0, - EBUSY)
      else leaf_scan n an nxt' oldnxt
  end.

(** The first child with the most free objects, if any has one. *)
Fixpoint max_child (cs : list anode) (i : nat) (maxfree : Z) (maxindx : option nat) : option nat :=
  match cs with
  | [] => maxindx
  | can :: cs =>
      if an_nfree can >? maxfree then max_child cs (S i) (an_nfree can) (Some i)
      else max_child cs (S i) maxfree maxindx
  end.

(** The do-while loop over the children, from [maxindx] around; [res] holds
    what allocating from each child gives. *)
Fixpoint child_scan (n : nat) (an : anode) (res : list (option (anode * Z * Z))) (i maxindx : nat)
  : option (anode * Z * Z) :=
  match n with
  | O => None
  | S n =>
      let* can := an_children an !! i in
      let i' := if (S i <? length (an_children an))%nat then S i else O in
      let go an := if (i' =? maxindx)%nat then Some (an, 0, - ENOSPC)
                   else child_scan n an res i' maxindx in
      if an_nfree can >? 0 then
        let* r := res !! i in
        let* p := r in
        let '(can, val, rv) := p in
        let an := set_child i can an in
        if rv =? 0 then
          let* an := pfs_anode_nfree_inc an (Z.of_nat i) (-1) in
          Some (an, MONO_MAKE (Z.shiftl (an_id an) (an_shift an)) val, 0)
        else go an
      else go an
  end.

Fixpoint pfs_anode_alloc (an : anode) : option (anode * Z * Z) :=
  match an with
  | ANode id sh nall nfree next bmp cs =>
      match cs with
      | [] =>
          PFS_ASSERT ((0 <=? next) && (next <? nall)) ;;
          leaf_scan (Z.to_nat nall) an next next
      | _ =>
          match max_child cs 0 0 None with
          | None => Some (an, 0, - ENOSPC)
          | Some maxindx =>
              child_scan (length cs) an (map pfs_anode_alloc cs) maxindx maxindx
          end
      end
  end.
End Alloc.

(** *** Release *)
Fixpoint pfs_anode_free (an : anode) (val : Z) : option anode :=
  match an with
  | ANode _ _ _ _ next _ cs =>
      match cs with
      | [] =>
          let* an := pfs_anode_nfree_inc an val 1 in
          Some (set_next (Z.min val next) an)
      | _ =>
          let* ci := child_index an val in
          let* can := cs !! ci in
          let* free := map pfs_anode_free cs !! ci in
          let* can := free (child_val can val) in
          pfs_anode_nfree_inc (set_child ci can an) (Z.of_nat ci) 1
      end
  end.

(** *** Lookup: the leaf and the object in it that [getfunc] receives *)
Fixpoint pfs_anode_get (an : anode) (val : Z) : option (Z * Z) :=
  match an with
  | ANode id _ _ _ _ _ cs =>
      match cs with
      | [] => Some (id, val)
      | _ =>
          let* ci := child_index an val in
          let* can := cs !! ci in
          let* get := map pfs_anode_get cs !! ci in
          get (child_val can val)
      end
  end.

(** *** Undo and redo

    [func] is [an_undofunc] or [an_redofunc] of the leafs: it updates the
    metasets [h] and returns the change of the number of free objects. *)
Section Reapply.
Context {H : Type} (func : H -> Z -> Z -> option (H * Z)).

Fixpoint anode_reapply (an : anode) (h : H) (val : Z) : option (anode * H * Z) :=
  match an with
  | ANode id _ _ _ _ _ cs =>
      match cs with
      | [] =>
          let* p := func h id val in
          let '(h, delta) := p in
          let* an := pfs_anode_nfree_inc an val delta in
          Some (set_next 0 an, h, delta)
      | _ =>
          let* ci := child_index an val in
          let* can := cs !! ci in
          let* redo := map anode_reapply cs !! ci in
          let* p := redo h (child_val can val) in
          let '(can, h, delta) := p in
          let* an := pfs_anode_nfree_inc (set_child ci can an) (Z.of_nat ci) delta in
          Some (an, h, delta)
      end
  end.
End Reapply.

Definition pfs_anode_undo {H} (undofunc : H -> Z -> Z -> option (H * Z)) := anode_reapply undofunc.
Definition pfs_anode_redo {H} (redofunc : H -> Z -> Z -> option (H * Z)) := anode_reapply redofunc.

(** [pfs_anode_visit] with [pfs_metaobj_use_one]: one object fewer on the
    way from the leaf to the root. *)
Fixpoint anode_use_one (an : anode) (val : Z) : option anode :=
  match an with
  | ANode _ _ _ _ _ _ cs =>
      match cs with
      | [] => pfs_anode_nfree_inc an val (-1)
      | _ =>
          let* ci := child_index an val in
          let* can := cs !! ci in
          let* use := map anode_use_one cs !! ci in
          let* can := use (child_val can val) in
          pfs_anode_nfree_inc (set_child ci can an) val (-1)
      end
  end.

(** ** Which objects are free

    Object numbers are relative to the node; those of a node range over
    [0 .. an_bound). *)
Definition an_bound (an : anode) : Z :=
  match an_children an with
  | [] => an_nall an
  | can :: _ => Z.of_nat (length (an_children an)) * 2 ^ an_shift can
  end.

Definition bmp_test (bmp : list Z) (val : Z) : bool :=
  match bmp_word bmp val with Some w => Z.testbit w (val mod AN_FREE_BMP_SHIFT) | None => false end.

Fixpoint obj_free (an : anode) (val : Z) : bool :=
  match an with
  | ANode _ _ _ _ _ bmp cs =>
      (0 <=? val) && (val <? an_bound an) &&
      match cs with
      | [] => bmp_test bmp val
      | _ => match (let* ci := child_index an val in
                    let* can := cs !! ci in
                    let* f := map obj_free cs !! ci in Some (f (child_val can val))) with
             | Some b => b
             | None => false
             end
      end
  end.

(** Number of [i < n] with [f i]. *)
Fixpoint count (f : Z -> bool) (n : nat) : Z :=
  match n with O => 0 | S n => count f n + Z.b2z (f (Z.of_nat n)) end.

Definition sumZ (l : list Z) : Z := foldr Z.add 0 l.

(** The counters agree with the bitmaps, and the children of a node split
    its numbers evenly. *)
Inductive anode_wf : anode -> Prop :=
| wf_leaf id sh nall nfree next bmp :
    0 <= id -> 0 <= sh -> 0 <= next < nall -> nall <= 64 * Z.of_nat (length bmp) ->
    nfree = count (bmp_test bmp) (Z.to_nat nall) ->
    anode_wf (ANode id sh nall nfree next bmp [])
| wf_node id sh nall nfree next bmp cs csh :
    0 <= id -> 0 <= sh -> 0 <= csh -> cs <> [] -> Z.of_nat (length cs) < 2 ^ 31 ->
    (forall i c, cs !! i = Some c -> anode_wf c) ->
    (forall i c, cs !! i = Some c ->
       an_shift c = csh /\ an_id c = Z.of_nat i /\ an_bound c <= 2 ^ csh) ->
    nfree = sumZ (an_nfree <$> cs) ->
    anode_wf (ANode id sh nall nfree next bmp cs).

(** *** Counting *)
Lemma count_ext f g n : (forall i, 0 <= i < Z.of_nat n -> f i = g i) -> count f n = count g n.
Proof.
  induction n as [|n IH]; intros H; [done|]. simpl. rewrite IH, H; [done|lia|].
  intros. apply H. lia.
Qed.
Lemma count_flip f g n v :
  0 <= v < Z.of_nat n -> (forall i, 0 <= i -> i <> v -> g i = f i) ->
  count g n = count f n - Z.b2z (f v) + Z.b2z (g v).
Proof.
  induction n as [|n IH]; intros Hv Hfg; [lia|]. simpl.
  destruct (decide (v = Z.of_nat n)) as [->|Hne].
  - rewrite (count_ext g f) by (intros; apply Hfg; lia). lia.
  - rewrite IH by (done || lia). rewrite (Hfg (Z.of_nat n)) by lia. lia.
Qed.
Lemma count_nonneg f n : 0 <= count f n.
Proof. induction n; simpl; [done|]. destruct (f _); simpl; lia. Qed.
Lemma count_pos f n v : 0 <= v < Z.of_nat n -> f v = true -> 0 < count f n.
Proof.
  induction n as [|n IH]; intros Hv Hf; [lia|]. simpl. pose proof (count_nonneg f n).
  destruct (decide (v = Z.of_nat n)) as [<-|Hne]; [rewrite Hf; simpl; lia|].
  pose proof (IH ltac:(lia) Hf). destruct (f (Z.of_nat n)); simpl; lia.
Qed.

Lemma sumZ_insert (l : list Z) i x y :
  l !! i = Some x -> sumZ (<[i:=y]> l) = sumZ l - x + y.
Proof.
  revert i. induction l as [|a l IH]; intros [|i]; simpl; intros; simplify_eq; [lia|].
  rewrite (IH i) by done. lia.
Qed.
Lemma sumZ_nonneg l : Forall (fun x => 0 <= x) l -> 0 <= sumZ l.
Proof. induction 1; simpl; lia. Qed.
Lemma sumZ_pos l i x : Forall (fun x => 0 <= x) l -> l !! i = Some x -> 0 < x -> 0 < sumZ l.
Proof.
  intros Hl. revert i. induction Hl as [|a l Ha Hl IH]; intros [|i]; simpl; intros; simplify_eq.
  - pose proof (sumZ_nonneg _ Hl). lia.
  - pose proof (IH i ltac:(done) ltac:(done)). lia.
Qed.

(** *** Bitmaps *)
Lemma bmp_word_in bmp val :
  0 <= val < 64 * Z.of_nat (length bmp) -> exists w, bmp_word bmp val = Some w.
Proof.
  intros Hv. unfold bmp_word, AN_FREE_BMP_SHIFT. apply lookup_lt_is_Some_2.
  assert (val / 64 < Z.of_nat (length bmp)) by (apply Z.div_lt_upper_bound; lia).
  pose proof (Z.div_pos val 64). lia.
Qed.

Lemma land_bit w k : 0 <= k -> negb (Z.land w (Z.shiftl 1 k) =? 0) = Z.testbit w k.
Proof.
  intros Hk. rewrite Z.shiftl_1_l. destruct (Z.testbit w k) eqn:E.
  - apply negb_true_iff, Z.eqb_neq. intros H0. apply (f_equal (fun z => Z.testbit z k)) in H0.
    rewrite Z.land_spec, Z.pow2_bits_true, Z.bits_0, E in H0 by done. done.
  - apply negb_false_iff, Z.eqb_eq. apply Z.bits_inj'. intros j Hj.
    rewrite Z.land_spec, Z.bits_0. destruct (decide (j = k)) as [->|Hne]; [by rewrite E|].
    rewrite Z.pow2_bits_false by lia. apply andb_false_r.
Qed.

Lemma isfree_obj an val :
  0 <= val < 64 * Z.of_nat (length (an_free_bmp an)) ->
  pfs_anode_isfree_obj an val = Some (bmp_test (an_free_bmp an) val).
Proof.
  intros Hv. unfold pfs_anode_isfree_obj, bmp_test. destruct (bmp_word_in _ _ Hv) as [w ->].
  f_equal. apply land_bit. by apply Z.mod_pos_bound.
Qed.

Lemma bmp_test_flip bmp val delta i w :
  0 <= val -> 0 <= i -> bmp_word bmp val = Some w ->
  bmp_test (<[Z.to_nat (val / AN_FREE_BMP_SHIFT) :=
    Z.lxor w (Z.shiftl (Z.land delta 1) (val mod AN_FREE_BMP_SHIFT))]> bmp) i
  = if i =? val then xorb (bmp_test bmp val) (Z.odd delta) else bmp_test bmp i.
Proof.
  intros Hv Hi Hw. unfold bmp_test at 1, bmp_word. unfold bmp_word in Hw.
  pose proof (Z.mod_pos_bound val AN_FREE_BMP_SHIFT eq_refl).
  pose proof (Z.mod_pos_bound i AN_FREE_BMP_SHIFT eq_refl).
  pose proof (Z.div_mod val AN_FREE_BMP_SHIFT ltac:(done)).
  pose proof (Z.div_mod i AN_FREE_BMP_SHIFT ltac:(done)).
  assert (Hodd : Z.testbit (Z.land delta 1) 0 = Z.odd delta).
  { by rewrite Z.land_spec, Z.bit0_odd, andb_true_r. }
  assert (Hhi : forall j, j <> 0 -> Z.testbit (Z.land delta 1) j = false).
  { intros j Hj. rewrite Z.land_spec. destruct j; try done; by rewrite andb_false_r. }
  destruct (decide (Z.to_nat (val / AN_FREE_BMP_SHIFT) = Z.to_nat (i / AN_FREE_BMP_SHIFT))) as [E|E].
  - rewrite <- E, list_lookup_insert_eq by (by eapply lookup_lt_Some).
    assert (i / AN_FREE_BMP_SHIFT = val / AN_FREE_BMP_SHIFT).
    { pose proof (Z.div_pos val AN_FREE_BMP_SHIFT). pose proof (Z.div_pos i AN_FREE_BMP_SHIFT).
      unfold AN_FREE_BMP_SHIFT in *. lia. }
    rewrite Z.lxor_spec, Z.shiftl_spec by lia. destruct (Z.eqb_spec i val) as [->|Hne].
    + unfold bmp_test, bmp_word. rewrite Hw, Z.sub_diag, Hodd. done.
    + rewrite Hhi, xorb_false_r by lia. unfold bmp_test, bmp_word. by rewrite <- E, Hw.
  - rewrite list_lookup_insert_ne by done. destruct (Z.eqb_spec i val) as [->|]; [done|].
    done.
Qed.

(** *** Routing *)
Section Node.
Context (id sh nall nfree next : Z) (bmp : list Z) (cs : list anode) (csh : Z).
Let an := ANode id sh nall nfree next bmp cs.
Context (Hcsh : 0 <= csh) (Hcs : cs <> []) (Hlen : Z.of_nat (length cs) < 2 ^ 31).
Context (Hshape : forall i c, cs !! i = Some c ->
  an_shift c = csh /\ an_id c = Z.of_nat i /\ an_bound c <= 2 ^ csh).

Lemma head_shift : exists c, head cs = Some c /\ an_shift c = csh.
Proof. destruct cs as [|c cs'] eqn:E; [done|]. exists c. split; [done|]. by apply (Hshape 0). Qed.

Lemma node_bound : an_bound an = Z.of_nat (length cs) * 2 ^ csh.
Proof.
  unfold an_bound, an. simpl. destruct cs as [|c cs'] eqn:E; [done|].
  by destruct (Hshape 0 c eq_refl) as [-> _].
Qed.

Lemma node_route val :
  0 <= val < an_bound an -> exists c,
    cs !! Z.to_nat (val / 2 ^ csh) = Some c /\ child_index an val = Some (Z.to_nat (val / 2 ^ csh)) /\
    child_val c val = val mod 2 ^ csh.
Proof.
  rewrite node_bound. intros Hv. assert (Hp : 0 < 2 ^ csh) by (by apply Z.pow_pos_nonneg).
  assert (0 <= val / 2 ^ csh < Z.of_nat (length cs)) as [Hd0 Hd1].
  { split; [by apply Z.div_pos; lia|]. apply Z.div_lt_upper_bound; lia. }
  destruct (lookup_lt_is_Some_2 cs (Z.to_nat (val / 2 ^ csh))) as [c Hc]; [lia|].
  exists c. split; [done|]. split.
  - unfold child_index. destruct head_shift as (c0 & H0 & Hs). unfold an. cbn [an_children].
    rewrite H0, Hs, Z.shiftr_div_pow2 by done.
    assert (to_int (val / 2 ^ csh) = val / 2 ^ csh) as ->.
    { unfold to_int. rewrite Z.mod_small; lia. }
    rewrite (proj2 (Z.leb_le _ _) Hd0), (proj2 (Z.ltb_lt _ _) Hd1). done.
  - unfold child_val. destruct (Hshape _ _ Hc) as [-> _].
    rewrite Z.shiftl_1_l, <- Z.land_ones by done. f_equal. rewrite Z.ones_equiv. lia.
Qed.

Lemma node_obj_free val :
  obj_free an val = (0 <=? val) && (val <? an_bound an) &&
    match cs !! Z.to_nat (val / 2 ^ csh) with
    | Some c => obj_free c (val mod 2 ^ csh)
    | None => false
    end.
Proof.
  change (obj_free an val) with ((0 <=? val) && (val <? an_bound an) &&
    match cs with [] => bmp_test bmp val | _ =>
      match (let* ci := child_index an val in let* can := cs !! ci in
             let* f := map obj_free cs !! ci in Some (f (child_val can val))) with
      | Some b => b | None => false end end).
  destruct ((0 <=? val) && (val <? an_bound an)) eqn:Er; [|done]. cbn [andb]. bool_prop.
  destruct (node_route val) as (c & Hc & -> & Hv); [done|].
  destruct cs eqn:Ecs; [done|]. rewrite <- Ecs in *.
  rewrite Hc, list_lookup_fmap, Hc. simpl. by rewrite Hv.
Qed.

Lemma anode_get_node val :
  pfs_anode_get an val = let* ci := child_index an val in let* can := cs !! ci in
                         pfs_anode_get can (child_val can val).
Proof.
  change (pfs_anode_get an val) with (match cs with [] => Some (id, val) | _ =>
    let* ci := child_index an val in let* can := cs !! ci in
    let* get := map pfs_anode_get cs !! ci in get (child_val can val) end).
  destruct cs eqn:Ecs; [done|]. rewrite <- Ecs in *. destruct (child_index an val) as [ci|]; [|done].
  destruct (cs !! ci) as [c|] eqn:Hc; [|done]. by rewrite list_lookup_fmap, Hc.
Qed.

(** Numbers below a child and back. *)
Lemma child_number i c s :
  cs !! i = Some c -> 0 <= s < an_bound c ->
  let val := MONO_MAKE (Z.shiftl (an_id c) (an_shift c)) s in
  val = Z.of_nat i * 2 ^ csh + s /\ 0 <= val < an_bound an /\
  Z.to_nat (val / 2 ^ csh) = i /\ val mod 2 ^ csh = s.
Proof.
  intros Hc Hs val. destruct (Hshape _ _ Hc) as (Hsh & Hid & Hb).
  assert (Hp : 0 < 2 ^ csh) by (by apply Z.pow_pos_nonneg).
  assert (Hval : val = Z.of_nat i * 2 ^ csh + s).
  { subst val. unfold MONO_MAKE. rewrite Hsh, Hid, Z.shiftl_mul_pow2 by done.
    rewrite <- Z.add_lor_land.
    assert (Z.land (Z.of_nat i * 2 ^ csh) s = 0) as ->; [|lia].
    rewrite <- Z.shiftl_mul_pow2, Z.land_comm by done. apply Z.bits_inj'. intros j Hj.
    rewrite Z.land_spec, Z.bits_0, Z.shiftl_spec by done.
    destruct (Z_lt_le_dec j csh); [rewrite (Z.testbit_neg_r _ (j - csh)) by lia; apply andb_false_r|].
    rewrite <- (Z.mod_small s (2 ^ csh)) by lia. by rewrite Z.mod_pow2_bits_high by lia. }
  apply lookup_lt_Some in Hc as Hi. split; [done|]. rewrite node_bound, Hval. split; [nia|].
  split.
  - rewrite Z.div_add_l, Z.div_small by lia. lia.
  - rewrite Z.add_comm, Z.mod_add by lia. apply Z.mod_small. lia.
Qed.
End Node.

Lemma wf_nfree_nonneg an : anode_wf an -> 0 <= an_nfree an.
Proof.
  induction 1 as [|id sh nall nfree next bmp cs csh ????? _ IH _ ->]; simpl.
  - subst. apply count_nonneg.
  - apply sumZ_nonneg, Forall_fmap, Forall_lookup. intros i c Hc. by apply (IH i).
Qed.

Lemma wf_free_pos an val : anode_wf an -> obj_free an val = true -> 0 < an_nfree an.
Proof.
  intros Hwf. revert val.
  induction Hwf as [id sh nall nfree next bmp ???? ->|id sh nall nfree next bmp cs csh ????? Hw IH Hsh ->];
    intros val Hf.
  - simpl in Hf. bool_prop. unfold an_bound in *. simpl in *. eapply count_pos; [|done]. lia.
  - rewrite (node_obj_free _ _ _ _ _ _ _ csh) in Hf by done. bool_prop.
    destruct (cs !! _) as [c|] eqn:Hc; [|done]. simpl.
    eapply sumZ_pos; [|by rewrite list_lookup_fmap, Hc|by eapply IH].
    apply Forall_fmap, Forall_lookup. intros i c' Hc'. by apply wf_nfree_nonneg, (Hw i).
Qed.

(** [rel] is the number of an object below the node. *)
Inductive obj_in : anode -> Z -> Prop :=
| in_leaf id sh nall nfree next bmp rel :
    0 <= rel < nall -> obj_in (ANode id sh nall nfree next bmp []) rel
| in_node id sh nall nfree next bmp cs i c s :
    cs !! i = Some c -> obj_in c s ->
    obj_in (ANode id sh nall nfree next bmp cs) (MONO_MAKE (Z.shiftl (an_id c) (an_shift c)) s).

(** [an'] is [an] with the free state of [rel] set to [b]. *)
Record anode_upd (an an' : anode) (rel : Z) (b : bool) : Prop := {
  u_wf : anode_wf an';
  u_id : an_id an' = an_id an;
  u_shift : an_shift an' = an_shift an;
  u_bound : an_bound an' = an_bound an;
  u_nfree : an_nfree an' = an_nfree an - Z.b2z (obj_free an rel) + Z.b2z b;
  u_free : forall r, obj_free an' r = if r =? rel then b else obj_free an r;
  u_get : forall r, pfs_anode_get an' r = pfs_anode_get an r;
  u_in : forall r, obj_in an r -> obj_in an' r }.

Lemma xorb_delta b b' delta :
  Z.b2z b = Z.b2z b' + delta -> xorb b' (Z.odd delta) = b.
Proof.
  intros Hd. replace delta with (Z.b2z b - Z.b2z b') by lia. by destruct b, b'.
Qed.

Lemma upd_leaf id sh nall nfree next bmp rel b delta :
  let an := ANode id sh nall nfree next bmp [] in
  anode_wf an -> 0 <= rel < nall -> Z.b2z b = Z.b2z (obj_free an rel) + delta ->
  exists an', pfs_anode_nfree_inc an rel delta = Some an' /\ an_id an' = id /\ an_shift an' = sh /\
    an_next an' = next /\
    forall nx, 0 <= nx < nall -> anode_upd an (set_next nx an') rel b.
Proof.
  intros an Hwf Hrel Hb. inversion Hwf as [? ? ? ? ? ? Hid Hsh Hnx Hlen Hnf|]; [subst|done].
  assert (Hbit : obj_free an rel = bmp_test bmp rel).
  { simpl. unfold an_bound. simpl. by rewrite (proj2 (Z.leb_le 0 rel)), (proj2 (Z.ltb_lt rel nall)) by lia. }
  destruct (bmp_word_in bmp rel) as [w Hw]; [lia|].
  unfold pfs_anode_nfree_inc, an. simpl. rewrite Hw. eexists. split; [done|].
  do 3 (split; [done|]). intros nx Hx. rewrite Hbit in Hb.
  pose proof (xorb_delta _ _ _ Hb) as Hxor. split; try done.
  - simpl. constructor; try done; [by rewrite length_insert|].
    symmetry. etransitivity; [apply (count_flip (bmp_test bmp) _ _ rel)|].
    + lia.
    + intros i Hi Hne. rewrite (bmp_test_flip _ _ _ _ w) by (done || lia).
      by rewrite (proj2 (Z.eqb_neq i rel)).
    + rewrite (bmp_test_flip _ _ _ _ w), Z.eqb_refl, Hxor by (done || lia). lia.
  - fold an. rewrite Hbit. simpl. lia.
  - intros r. simpl. unfold an_bound. simpl. destruct (0 <=? r) eqn:E0; cbn [andb].
    + bool_prop. rewrite (bmp_test_flip _ _ _ _ w), Hxor by (done || lia).
      destruct (Z.eqb_spec r rel) as [->|]; [|done].
      by rewrite (proj2 (Z.ltb_lt rel nall)) by lia.
    + bool_prop. by rewrite (proj2 (Z.eqb_neq r rel)) by lia.
  - intros r Hin. inversion Hin; subst; [by constructor|done].
Qed.

Lemma upd_node id sh nall nfree next bmp cs csh i c c' s b val delta :
  let an := ANode id sh nall nfree next bmp cs in
  0 <= id -> 0 <= sh -> 0 <= csh -> Z.of_nat (length cs) < 2 ^ 31 ->
  (forall i c, cs !! i = Some c -> anode_wf c) ->
  (forall i c, cs !! i = Some c ->
     an_shift c = csh /\ an_id c = Z.of_nat i /\ an_bound c <= 2 ^ csh) ->
  nfree = sumZ (an_nfree <$> cs) ->
  cs !! i = Some c -> 0 <= s < an_bound c -> anode_upd c c' s b ->
  Z.b2z b = Z.b2z (obj_free c s) + delta ->
  exists an', pfs_anode_nfree_inc (set_child i c' an) val delta = Some an' /\
    anode_upd an an' (MONO_MAKE (Z.shiftl (an_id c) (an_shift c)) s) b.
Proof.
  intros an Hid Hsh Hcsh Hlen Hwf Hshape Hnf Hc Hs Hu Hb.
  assert (Hne : cs <> []) by (intros ->; done).
  assert (Hshape' : forall j d, <[i:=c']> cs !! j = Some d ->
     an_shift d = csh /\ an_id d = Z.of_nat j /\ an_bound d <= 2 ^ csh).
  { intros j d [(<- & <- & _)|[_ Hd]]%list_lookup_insert_Some; [|by apply Hshape].
    destruct Hu as [_ -> -> -> _ _ _ _]. by apply Hshape. }
  assert (Hne' : <[i:=c']> cs <> []) by (destruct cs, i; done).
  pose proof (child_number id sh nall nfree next bmp cs csh Hcsh Hne Hlen Hshape i c s Hc Hs)
    as (Ev & Hvr & Ei & Es).
  unfold pfs_anode_nfree_inc, an. simpl. destruct (<[i:=c']> cs) as [|d0 ds] eqn:Ecs; [done|].
  rewrite <- Ecs in *. eexists. split; [done|].
  assert (Hbd : an_bound (ANode id sh nall (nfree + delta) next bmp (<[i:=c']> cs)) = an_bound an).
  { unfold an. rewrite (node_bound _ _ _ _ _ _ _ csh), (node_bound _ _ _ _ _ _ _ csh) by (done || by rewrite length_insert).
    by rewrite length_insert. }
  assert (Hfs : obj_free an (MONO_MAKE (Z.shiftl (an_id c) (an_shift c)) s) = obj_free c s).
  { unfold an. rewrite (node_obj_free _ _ _ _ _ _ _ csh) by done. fold an. fold an in Hvr.
    by rewrite Ei, Es, Hc, (proj2 (Z.leb_le _ _) (proj1 Hvr)), (proj2 (Z.ltb_lt _ _) (proj2 Hvr)). }
  split; try done.
  - apply (wf_node _ _ _ _ _ _ _ csh); try done; [by rewrite length_insert| |].
    + intros j d [(<- & <- & _)|[_ Hd]]%list_lookup_insert_Some; [apply Hu|by eapply Hwf].
    + rewrite list_fmap_insert, (sumZ_insert _ _ (an_nfree c)) by (by rewrite list_lookup_fmap, Hc).
      rewrite (u_nfree _ _ _ _ Hu). lia.
  - fold an. rewrite Hfs. simpl. lia.
  - intros r. unfold an. rewrite !(node_obj_free _ _ _ _ _ _ _ csh), Hbd by (done || by rewrite length_insert).
    fold an. destruct ((0 <=? r) && (r <? an_bound an)) eqn:Er; cbn [andb].
    + bool_prop. assert (Hdm : r = r / 2 ^ csh * 2 ^ csh + r mod 2 ^ csh).
      { rewrite Z.mul_comm. apply Z.div_mod. pose proof (Z.pow_pos_nonneg 2 csh). lia. }
      assert (0 <= r / 2 ^ csh) by (apply Z.div_pos; [done|]; by apply Z.pow_pos_nonneg).
      destruct (decide (i = Z.to_nat (r / 2 ^ csh))) as [Ei'|Hni].
      * rewrite <- Ei', list_lookup_insert_eq, Hc by (by eapply lookup_lt_Some).
        rewrite (u_free _ _ _ _ Hu). rewrite Ev.
        assert (r / 2 ^ csh = Z.of_nat i) as Hq by lia. rewrite Hq in Hdm.
        destruct (Z.eqb_spec (r mod 2 ^ csh) s), (Z.eqb_spec r (Z.of_nat i * 2 ^ csh + s)); done || lia.
      * rewrite list_lookup_insert_ne by done. destruct (Z.eqb_spec r (MONO_MAKE (an_id c ≪ an_shift c) s)) as [->|]; [|done].
        by rewrite Ei in Hni.
    + destruct (Z.eqb_spec r (MONO_MAKE (an_id c ≪ an_shift c) s)) as [->|]; [|done].
      fold an in Hvr. apply andb_false_iff in Er as [Er|Er]; bool_prop; lia.
  - intros r. assert (Hci : child_index (ANode id sh nall (nfree + delta) next bmp (<[i:=c']> cs)) r = child_index an r).
    { unfold child_index, an. cbn [an_children]. rewrite length_insert.
      assert (exists c, head cs = Some c /\ an_shift c = csh) as (h & -> & ->) by by eapply head_shift.
      assert (exists c, head (<[i:=c']> cs) = Some c /\ an_shift c = csh) as (h' & -> & ->)
        by (eapply head_shift; done || by rewrite length_insert).
      done. }
    unfold an. rewrite !(anode_get_node _ _ _ _ _ _ _ csh) by (done || by rewrite length_insert). fold an. rewrite Hci.
    destruct (child_index an r) as [ci|]; [|done].
    destruct (decide (i = ci)) as [<-|Hni].
    + rewrite list_lookup_insert_eq, Hc by (by eapply lookup_lt_Some).
      unfold child_val. rewrite (u_shift _ _ _ _ Hu). apply (u_get _ _ _ _ Hu).
    + by rewrite list_lookup_insert_ne.
  - intros r Hin. inversion Hin as [|? ? ? ? ? ? ? j d t Hd Hin']; [congruence|subst r].
    destruct (decide (i = j)) as [<-|Hni].
    + assert (d = c) as -> by congruence. rewrite <- (u_id _ _ _ _ Hu), <- (u_shift _ _ _ _ Hu).
      eapply in_node; [|by apply (u_in _ _ _ _ Hu)]. apply list_lookup_insert_eq.
      apply lookup_lt_is_Some_1. by exists c.
    + eapply in_node; [|done]. by rewrite list_lookup_insert_ne.
Qed.

(** ** Allocation *)

(** A scan around [0 .. n) that starts at [start] and has made [k] steps. *)
Lemma ring_next n start k i :
  (0 < n)%nat -> (start < n)%nat -> (k < n)%nat -> i = ((start + k) mod n)%nat ->
  (if (S i <? n)%nat then S i else O) = ((start + S k) mod n)%nat /\
  (((start + S k) mod n)%nat = start -> S k = n) /\ (i < n)%nat.
Proof.
  intros Hn Hs Hk ->. assert (Hlt : ((start + k) mod n < n)%nat) by (apply Nat.mod_upper_bound; lia).
  assert (Hmod : forall a, (a < 2 * n)%nat -> (a mod n = if a <? n then a else a - n)%nat).
  { intros a Ha. destruct (Nat.ltb_spec a n); [by apply Nat.mod_small|].
    symmetry. apply (Nat.mod_unique _ _ 1); lia. }
  rewrite !Hmod in * by lia.
  repeat match goal with |- context [(?a <? ?b)%nat] => destruct (Nat.ltb_spec a b) end; lia.
Qed.

Lemma ring_all n start (P : nat -> Prop) :
  (start < n)%nat -> (forall j, (j < n)%nat -> P ((start + j) mod n)%nat) ->
  forall i, (i < n)%nat -> P i.
Proof.
  intros Hs HP i Hi. destruct (decide (start <= i)%nat).
  - replace i with ((start + (i - start)) mod n)%nat; [apply HP; lia|].
    rewrite Nat.mod_small; lia.
  - replace i with ((start + (n + i - start)) mod n)%nat; [apply HP; lia|].
    symmetry. apply (Nat.mod_unique _ _ 1); lia.
Qed.

Section AllocSpec.
Context (allocfunc : Z -> Z -> bool).

(** The leaf that owns [rel] would hand it out. *)
Definition accepts (an : anode) (rel : Z) : bool :=
  match pfs_anode_get an rel with Some (id, oid) => allocfunc id oid | None => false end.

(** What an allocation does: it takes a free object the metaset accepts, or
    there is none. *)
Definition alloc_spec (an : anode) (r : option (anode * Z * Z)) : Prop :=
  exists an' val rv, r = Some (an', val, rv) /\
  ((rv = 0 /\ exists rel, val = MONO_MAKE (Z.shiftl (an_id an) (an_shift an)) rel /\
      0 <= rel < an_bound an /\ obj_free an rel = true /\ accepts an rel = true /\
      anode_upd an an' rel false) \/
   (rv < 0 /\ an' = an /\ forall rel, obj_free an rel = true -> accepts an rel = false)).

Lemma leaf_scan_spec id sh nall nfree next bmp n k :
  let an := ANode id sh nall nfree next bmp [] in
  anode_wf an -> (n + k = Z.to_nat nall)%nat -> (0 < n)%nat ->
  (forall j, (j < k)%nat ->
     let i := Z.of_nat ((Z.to_nat next + j) mod Z.to_nat nall) in
     bmp_test bmp i && allocfunc id i = false) ->
  alloc_spec an (leaf_scan allocfunc n an
    (Z.of_nat ((Z.to_nat next + k) mod Z.to_nat nall)) next).
Proof.
  intros an Hwf. revert k. induction n as [|n IH]; intros k Hn Hpos Hrej; [lia|].
  pose proof Hwf as Hwf0.
  inversion Hwf0 as [? ? ? ? ? ? Hid Hsh Hnx Hlen Hnf|]; [subst|done].
  set (i := ((Z.to_nat next + k) mod Z.to_nat nall)%nat) in *.
  destruct (ring_next (Z.to_nat nall) (Z.to_nat next) k i) as (Hnext & Hend & Hi); [lia..|done|].
  cbn [leaf_scan]. rewrite isfree_obj by (simpl; lia). cbn [an_free_bmp an_nall an_id an].
  assert (Hnxt : (if Z.of_nat i + 1 >=? nall then 0 else Z.of_nat i + 1)
            = Z.of_nat ((Z.to_nat next + S k) mod Z.to_nat nall)).
  { rewrite <- Hnext. destruct (Z.geb_spec (Z.of_nat i + 1) nall), (Nat.ltb_spec (S i) (Z.to_nat nall)); lia. }
  rewrite Hnxt.
  assert (Hof : obj_free an (Z.of_nat i) = bmp_test bmp (Z.of_nat i)).
  { simpl. unfold an_bound. simpl. by rewrite (proj2 (Z.ltb_lt (Z.of_nat i) nall)), (proj2 (Z.leb_le 0 (Z.of_nat i))) by lia. }
  destruct (bmp_test bmp (Z.of_nat i) && allocfunc id (Z.of_nat i)) eqn:Eacc.
  - bool_prop. destruct (upd_leaf id sh nall (count (bmp_test bmp) (Z.to_nat nall)) next bmp
      (Z.of_nat i) false (-1)) as (an' & Einc & Eid & Esh & _ & Hu); [done|lia|by fold an; rewrite Hof, H|].
    fold an in Einc. rewrite Einc, Eid, Esh. eexists _, _, _. split; [done|]. left. split; [done|]. exists (Z.of_nat i).
    split; [done|]. split; [unfold an_bound; simpl; lia|]. split; [by rewrite Hof|].
    split; [done|]. apply Hu. pose proof (Nat.mod_upper_bound (Z.to_nat next + S k) (Z.to_nat nall)). lia.
  - assert (Hrej' : forall j, (j < S k)%nat ->
      bmp_test bmp (Z.of_nat ((Z.to_nat next + j) mod Z.to_nat nall)) &&
      allocfunc id (Z.of_nat ((Z.to_nat next + j) mod Z.to_nat nall)) = false).
    { intros j Hj. destruct (decide (j = k)) as [->|]; [done|]. apply Hrej. lia. }
    destruct (Z.eqb_spec (Z.of_nat ((Z.to_nat next + S k) mod Z.to_nat nall)) next) as [Ee|Hne].
    + eexists _, _, _. split; [done|]. right. split; [done|]. split; [done|].
      intros rel Hf. simpl in Hf. unfold an_bound in Hf. simpl in Hf. bool_prop.
      specialize (Hend ltac:(lia)). rewrite Hend in Hrej'.
      pose proof (ring_all (Z.to_nat nall) (Z.to_nat next) (fun x => bmp_test bmp (Z.of_nat x) && allocfunc id (Z.of_nat x) = false)
        ltac:(lia) Hrej' (Z.to_nat rel) ltac:(lia)) as Hr. simpl in Hr.
      rewrite Z2Nat.id in Hr by lia. unfold accepts. simpl. by rewrite H0 in Hr.
    + apply IH; [lia| |done]. destruct n; [|lia]. assert (S k = Z.to_nat nall) as Hk by lia.
      exfalso. apply Hne. rewrite Hk. replace (Z.to_nat next + Z.to_nat nall)%nat with (Z.to_nat next + 1 * Z.to_nat nall)%nat by lia.
      rewrite Nat.Div0.mod_add, Nat.mod_small; lia.
Qed.
(** A child all of whose free objects are refused. *)
Definition exhausted (c : anode) : Prop := forall s, obj_free c s = true -> accepts c s = false.

Section NodeScan.
Context (id sh nall nfree next : Z) (bmp : list Z) (cs : list anode) (csh : Z).
Let an := ANode id sh nall nfree next bmp cs.
Context (Hid : 0 <= id) (Hsh : 0 <= sh) (Hcsh : 0 <= csh) (Hcs : cs <> []).
Context (Hlen : Z.of_nat (length cs) < 2 ^ 31).
Context (Hwf : forall i c, cs !! i = Some c -> anode_wf c).
Context (Hshape : forall i c, cs !! i = Some c ->
  an_shift c = csh /\ an_id c = Z.of_nat i /\ an_bound c <= 2 ^ csh).
Context (Hnf : nfree = sumZ (an_nfree <$> cs)).
Context (IHcs : forall i c, cs !! i = Some c -> alloc_spec c (pfs_anode_alloc allocfunc c)).

Lemma node_accepts i c s :
  cs !! i = Some c -> 0 <= s < an_bound c ->
  accepts an (MONO_MAKE (Z.shiftl (an_id c) (an_shift c)) s) = accepts c s.
Proof.
  intros Hc Hs. unfold accepts, an. rewrite (anode_get_node _ _ _ _ _ _ _ csh) by done.
  destruct (child_number id sh nall nfree next bmp cs csh Hcsh Hcs Hlen Hshape i c s Hc Hs)
    as (_ & Hr & Ei & Es).
  destruct (node_route id sh nall nfree next bmp cs csh Hcsh Hcs Hlen Hshape _ Hr)
    as (c' & Hc' & -> & Hv).
  rewrite Ei in *. rewrite Hc in *. simplify_eq. by rewrite Hv, Es.
Qed.

Lemma node_obj_free_child i c s :
  cs !! i = Some c -> 0 <= s < an_bound c ->
  obj_free an (MONO_MAKE (Z.shiftl (an_id c) (an_shift c)) s) = obj_free c s.
Proof.
  intros Hc Hs. unfold an. rewrite (node_obj_free _ _ _ _ _ _ _ csh) by done.
  destruct (child_number id sh nall nfree next bmp cs csh Hcsh Hcs Hlen Hshape i c s Hc Hs)
    as (_ & [Hr1 Hr2] & Ei & Es).
  by rewrite Ei, Es, Hc, (proj2 (Z.leb_le _ _) Hr1), (proj2 (Z.ltb_lt _ _) Hr2).
Qed.

Lemma obj_free_range c s : obj_free c s = true -> 0 <= s < an_bound c.
Proof. destruct c. simpl. intros. by bool_prop. Qed.

Lemma node_exhausted :
  (forall i c, cs !! i = Some c -> exhausted c) ->
  forall rel, obj_free an rel = true -> accepts an rel = false.
Proof.
  intros Hex rel Hf. unfold an in Hf. rewrite (node_obj_free _ _ _ _ _ _ _ csh) in Hf by done.
  bool_prop. destruct (cs !! _) as [c|] eqn:Hc; [|done].
  pose proof (obj_free_range _ _ H0) as Hr. pose proof (node_accepts _ _ _ Hc Hr) as Ha.
  destruct (child_number id sh nall nfree next bmp cs csh Hcsh Hcs Hlen Hshape _ _ _ Hc Hr)
    as (Ev & _).
  rewrite Ev in Ha. replace rel with (Z.of_nat (Z.to_nat (rel / 2 ^ csh)) * 2 ^ csh + rel mod 2 ^ csh).
  { rewrite Ha. by eapply Hex. }
  rewrite Z2Nat.id, Z.mul_comm by (apply Z.div_pos; [done|]; by apply Z.pow_pos_nonneg).
  symmetry. apply Z.div_mod. pose proof (Z.pow_pos_nonneg 2 csh). lia.
Qed.

Lemma child_scan_spec n start k :
  (n + k = length cs)%nat -> (0 < n)%nat -> (start < length cs)%nat ->
  (forall j c, (j < k)%nat -> cs !! ((start + j) mod length cs)%nat = Some c -> exhausted c) ->
  alloc_spec an (child_scan n an (map (pfs_anode_alloc allocfunc) cs)
    ((start + k) mod length cs)%nat start).
Proof.
  revert k. induction n as [|n IH]; intros k Hn Hpos Hst Hrej; [lia|].
  set (i := ((start + k) mod length cs)%nat).
  destruct (ring_next (length cs) start k i) as (Hnext & Hend & Hi); [lia..|done|].
  cbn [child_scan]. cbn [an_children an].
  destruct (lookup_lt_is_Some_2 cs i Hi) as [c Hc]. rewrite Hc, Hnext.
  (* what follows when this child gives nothing *)
  assert (Hgo : exhausted c -> alloc_spec an
    (if ((start + S k) mod length cs =? start)%nat then Some (an, 0, - ENOSPC)
     else child_scan n an (map (pfs_anode_alloc allocfunc) cs) ((start + S k) mod length cs)%nat start)).
  { intros Hex. assert (Hrej' : forall j d, (j < S k)%nat ->
      cs !! ((start + j) mod length cs)%nat = Some d -> exhausted d).
    { intros j d Hj Hd. destruct (decide (j = k)) as [->|]; [|apply (Hrej j d); [lia|done]].
      fold i in Hd. rewrite Hc in Hd. by simplify_eq. }
    destruct (Nat.eqb_spec ((start + S k) mod length cs) start) as [Ee|Hne].
    - eexists _, _, _. split; [done|]. right. split; [done|]. split; [done|].
      specialize (Hend Ee). rewrite Hend in Hrej'. apply node_exhausted. intros j d Hd.
      apply lookup_lt_Some in Hd as Hj. revert d Hd. revert j Hj.
      apply (ring_all (length cs) start (fun x => forall d, cs !! x = Some d -> exhausted d)); [done|].
      intros j Hj d Hd. by eapply Hrej'.
    - apply IH; try done; [lia|]. destruct n; [|lia]. exfalso. apply Hne.
      replace (S k) with (length cs) by lia. replace (start + length cs)%nat with (start + 1 * length cs)%nat by lia.
      rewrite Nat.Div0.mod_add. by apply Nat.mod_small. }
  destruct (Z.gtb_spec (an_nfree c) 0) as [Hgt|Hle].
  2: { apply Hgo. intros s Hs. pose proof (wf_free_pos _ _ (Hwf _ _ Hc) Hs). lia. }
  rewrite list_lookup_fmap, Hc. cbn [fmap option_fmap option_map].
  destruct (IHcs _ _ Hc) as (c' & v & rv & -> & [(-> & s & -> & Hs & Hf & Hacc & Hu)|(Hneg & -> & Hex)]).
  - cbn [Z.eqb]. destruct (upd_node id sh nall nfree next bmp cs csh i c c' s false (Z.of_nat i) (-1))
      as (an' & Einc & Hu'); try done; [by rewrite Hf|].
    fold an in Einc. rewrite Einc. eexists _, _, _. split; [done|]. left. split; [done|].
    eexists. split; [by rewrite (u_id _ _ _ _ Hu'), (u_shift _ _ _ _ Hu')|].
    split; [by eapply child_number|]. rewrite (node_obj_free_child i), (node_accepts i) by done. done.
  - destruct (Z.eqb_spec rv 0); [lia|].
    replace (set_child i c an) with an; [by apply Hgo|].
    unfold an. simpl. by rewrite list_insert_id.
Qed.
End NodeScan.

Lemma max_child_spec cs i0 mf mi :
  match max_child cs i0 mf mi with
  | Some i => mi = Some i \/ (exists c, cs !! (i - i0)%nat = Some c /\ (i0 <= i)%nat /\ mf < an_nfree c)
  | None => mi = None /\ forall i c, cs !! i = Some c -> an_nfree c <= mf
  end.
Proof.
  revert i0 mf mi. induction cs as [|c cs IH]; intros i0 mf mi; simpl; [destruct mi; [by left|by split]|].
  destruct (Z.gtb_spec (an_nfree c) mf) as [Hgt|Hle].
  - specialize (IH (S i0) (an_nfree c) (Some i0)). destruct (max_child _ _ _ _) as [i|]; [|by destruct IH].
    right. destruct IH as [[= <-]|(d & Hd & Hi & ?)].
    + exists c. rewrite Nat.sub_diag. auto.
    + exists d. replace (i - i0)%nat with (S (i - S i0)) by lia. split; [done|]. split; [lia|]. lia.
  - specialize (IH (S i0) mf mi). destruct (max_child _ _ _ _) as [i|].
    + destruct IH as [?|(d & Hd & Hi & ?)]; [by left|]. right. exists d.
      replace (i - i0)%nat with (S (i - S i0)) by lia. split; [done|]. split; [lia|done].
    + destruct IH as [-> IH]. split; [done|]. intros [|i] d Hd; simpl in Hd; simplify_eq; eauto.
Qed.

Lemma alloc_ok an : anode_wf an -> alloc_spec an (pfs_anode_alloc allocfunc an).
Proof.
  induction 1 as [id sh nall nfree next bmp Hid Hsh Hnx Hlen Hnf
    |id sh nall nfree next bmp cs csh Hid Hsh Hcsh Hne Hlen Hwf IH Hshape Hnf].
  - cbn [pfs_anode_alloc]. rewrite (proj2 (Z.leb_le 0 next)), (proj2 (Z.ltb_lt next nall)) by lia. cbn [andb].
    pose proof (leaf_scan_spec id sh nall nfree next bmp (Z.to_nat nall) 0) as Hscan.
    assert (Z.of_nat ((Z.to_nat next + 0) mod Z.to_nat nall) = next) as Hidx.
    { rewrite Nat.mod_small; lia. }
    rewrite Hidx in Hscan.
    apply Hscan; [by constructor|lia|lia|lia].
  - pose proof (max_child_spec cs 0 0 None) as Hmax.
    change (pfs_anode_alloc allocfunc (ANode id sh nall nfree next bmp cs)) with
      (match cs with
       | [] => PFS_ASSERT ((0 <=? next) && (next <? nall)) ;;
               leaf_scan allocfunc (Z.to_nat nall) (ANode id sh nall nfree next bmp cs) next next
       | _ => match max_child cs 0 0 None with
              | None => Some (ANode id sh nall nfree next bmp cs, 0, - ENOSPC)
              | Some maxindx => child_scan (length cs) (ANode id sh nall nfree next bmp cs)
                                  (map (pfs_anode_alloc allocfunc) cs) maxindx maxindx
              end
       end).
    destruct cs as [|c0 cs0] eqn:Ecs; [done|]. rewrite <- Ecs in *.
    destruct (max_child cs 0 0 None) as [i|].
    + destruct Hmax as [|(c & Hc & _ & _)]; [done|]. rewrite Nat.sub_0_r in Hc.
      apply lookup_lt_Some in Hc.
      pose proof (child_scan_spec id sh nall nfree next bmp cs csh) as Hscan.
      rewrite <- (Nat.mod_small i (length cs)) at 1 by done. rewrite <- (Nat.add_0_r i) at 1.
      apply Hscan; try done; lia.
    + destruct Hmax as [_ Hmax]. eexists _, _, _. split; [done|]. right. split; [done|]. split; [done|].
      eapply node_exhausted; try done. intros j c Hc s Hs.
      pose proof (wf_free_pos _ _ (Hwf _ _ Hc) Hs). pose proof (Hmax _ _ Hc). lia.
Qed.
End AllocSpec.

(** ** Release, undo and redo *)

Lemma obj_in_range an rel : anode_wf an -> obj_in an rel -> 0 <= rel < an_bound an.
Proof.
  intros Hwf Hin. revert Hwf.
  induction Hin as [id sh nall nfree next bmp rel Hr|id sh nall nfree next bmp cs i c s Hc Hin IH]; intros Hwf.
  - done.
  - inversion Hwf as [|? ? ? ? ? ? ? csh Hid Hsh Hcsh Hne Hlen Hw Hshape Hnf]; [by subst|subst].
    eapply child_number; try done. apply IH. by eapply Hw.
Qed.

Lemma obj_free_in an rel : anode_wf an -> obj_free an rel = true -> obj_in an rel.
Proof.
  intros Hwf. revert rel.
  induction Hwf as [id sh nall nfree next bmp Hid Hsh Hnx Hlen Hnf
    |id sh nall nfree next bmp cs csh Hid Hsh Hcsh Hne Hlen Hw IH Hshape Hnf]; intros rel Hf.
  - simpl in Hf. unfold an_bound in Hf. simpl in Hf. bool_prop. by constructor.
  - rewrite (node_obj_free _ _ _ _ _ _ _ csh) in Hf by done. bool_prop.
    destruct (cs !! _) as [c|] eqn:Hc; [|done].
    pose proof (obj_free_range _ _ H0) as Hr.
    destruct (child_number id sh nall nfree next bmp cs csh Hcsh Hne Hlen Hshape _ _ _ Hc Hr) as (Ev & _).
    assert (rel = MONO_MAKE (Z.shiftl (an_id c) (an_shift c)) (rel mod 2 ^ csh)) as ->.
    { rewrite Ev, Z2Nat.id, Z.mul_comm by (apply Z.div_pos; [done|]; by apply Z.pow_pos_nonneg).
      apply Z.div_mod. pose proof (Z.pow_pos_nonneg 2 csh). lia. }
    econstructor; [done|]. by eapply IH.
Qed.

(** How a call for [rel] gets to the child of the object. *)
Lemma route_child id sh nall nfree next bmp cs csh i c s :
  let an := ANode id sh nall nfree next bmp cs in
  let rel := MONO_MAKE (Z.shiftl (an_id c) (an_shift c)) s in
  0 <= csh -> Z.of_nat (length cs) < 2 ^ 31 ->
  (forall i c, cs !! i = Some c ->
     an_shift c = csh /\ an_id c = Z.of_nat i /\ an_bound c <= 2 ^ csh) ->
  cs !! i = Some c -> 0 <= s < an_bound c ->
  child_index an rel = Some i /\ child_val c rel = s /\ obj_free an rel = obj_free c s /\
  pfs_anode_get an rel = pfs_anode_get c s.
Proof.
  intros an rel Hcsh Hlen Hshape Hc Hs. assert (Hne : cs <> []) by (by intros ->).
  destruct (child_number id sh nall nfree next bmp cs csh Hcsh Hne Hlen Hshape i c s Hc Hs)
    as (_ & Hr & Ei & Es).
  destruct (node_route id sh nall nfree next bmp cs csh Hcsh Hne Hlen Hshape _ Hr) as (c' & Hc' & Hi & Hv).
  fold rel in Ei, Es, Hi, Hv, Hc'. rewrite Ei in *. rewrite Hc in Hc'. simplify_eq. rewrite Es in Hv.
  split_and!; try done.
  - eapply node_obj_free_child; eauto.
  - unfold an. rewrite (anode_get_node _ _ _ _ _ _ _ csh) by done. by rewrite Hi, Hc, Hv.
Qed.

(** Invert a well-formed node that has an object below child [i]. *)
Ltac open_node Hwf Hc :=
  let csh := fresh "csh" in
  inversion Hwf as [|? ? ? ? ? ? ? csh ? ? ? Hne ? Hw Hshape ?]; [by subst|subst];
  pose proof (Hw _ _ Hc) as Hwc.

Lemma free_ok an rel :
  anode_wf an -> obj_in an rel -> obj_free an rel = false ->
  exists an', pfs_anode_free an rel = Some an' /\ anode_upd an an' rel true.
Proof.
  intros Hwf Hin. revert Hwf.
  induction Hin as [id sh nall nfree next bmp rel Hr|id sh nall nfree next bmp cs i c s Hc Hin IH];
    intros Hwf Hf.
  - destruct (upd_leaf id sh nall nfree next bmp rel true 1) as (an' & Einc & _ & _ & _ & Hu); [done..|by rewrite Hf|].
    cbn [pfs_anode_free]. rewrite Einc. eexists. split; [done|]. apply Hu.
    inversion Hwf; [lia|done].
  - open_node Hwf Hc. pose proof (obj_in_range _ _ Hwc Hin) as Hs.
    destruct (route_child id sh nall (sumZ (an_nfree <$> cs)) next bmp cs csh i c s) as (Hi & Hv & Ef & _); try done.
    rewrite Ef in Hf. destruct (IH Hwc Hf) as (c' & Hfree & Hu).
    destruct (upd_node id sh nall (sumZ (an_nfree <$> cs)) next bmp cs csh i c c' s true (Z.of_nat i) 1)
      as (an' & Einc & Hu'); try done; [by rewrite Hf|]. exists an'. split; [|done].
    destruct cs as [|c0 cs0] eqn:Ecs; [done|]. cbn [pfs_anode_free]. rewrite <- Ecs in *.
    by rewrite Hi, Hc, list_lookup_fmap, Hc; cbn [fmap option_fmap option_map]; rewrite Hv, Hfree, Einc.
Qed.

Lemma reapply_ok {H} func (h h' : H) an rel id oid delta b :
  anode_wf an -> obj_in an rel -> pfs_anode_get an rel = Some (id, oid) ->
  func h id oid = Some (h', delta) -> Z.b2z b = Z.b2z (obj_free an rel) + delta ->
  exists an', anode_reapply func an h rel = Some (an', h', delta) /\ anode_upd an an' rel b.
Proof.
  intros Hwf Hin. revert Hwf.
  induction Hin as [id0 sh nall nfree next bmp rel Hr|id0 sh nall nfree next bmp cs i c s Hc Hin IH];
    intros Hwf Hget Hfn Hb.
  - simpl in Hget. simplify_eq.
    destruct (upd_leaf id sh nall nfree next bmp oid b delta) as (an' & Einc & _ & _ & _ & Hu); [done..|].
    cbn [anode_reapply]. rewrite Hfn, Einc. eexists. split; [done|]. apply Hu.
    inversion Hwf; [lia|done].
  - open_node Hwf Hc. pose proof (obj_in_range _ _ Hwc Hin) as Hs.
    destruct (route_child id0 sh nall (sumZ (an_nfree <$> cs)) next bmp cs csh i c s) as (Hi & Hv & Ef & Eg); try done.
    rewrite Ef in Hb. rewrite Eg in Hget. destruct (IH Hwc Hget Hfn Hb) as (c' & Hre & Hu).
    destruct (upd_node id0 sh nall (sumZ (an_nfree <$> cs)) next bmp cs csh i c c' s b (Z.of_nat i) delta)
      as (an' & Einc & Hu'); try done. exists an'. split; [|done].
    destruct cs as [|c0 cs0] eqn:Ecs; [done|]. cbn [anode_reapply]. rewrite <- Ecs in *.
    by rewrite Hi, Hc, list_lookup_fmap, Hc; cbn [fmap option_fmap option_map]; rewrite Hv, Hre, Einc.
Qed.

Lemma use_one_ok an rel :
  anode_wf an -> obj_free an rel = true ->
  exists an', anode_use_one an rel = Some an' /\ anode_upd an an' rel false.
Proof.
  intros Hwf Hf. pose proof (obj_free_in _ _ Hwf Hf) as Hin. revert Hwf Hf.
  induction Hin as [id sh nall nfree next bmp rel Hr|id sh nall nfree next bmp cs i c s Hc Hin IH];
    intros Hwf Hf.
  - destruct (upd_leaf id sh nall nfree next bmp rel false (-1)) as (an' & Einc & _ & _ & En & Hu);
      [done..|by rewrite Hf|].
    exists an'. split; [done|]. replace an' with (set_next next an') by (destruct an'; simpl in *; by subst).
    apply Hu. inversion Hwf; done.
  - open_node Hwf Hc. pose proof (obj_in_range _ _ Hwc Hin) as Hs.
    destruct (route_child id sh nall (sumZ (an_nfree <$> cs)) next bmp cs csh i c s) as (Hi & Hv & Ef & _); try done.
    rewrite Ef in Hf. destruct (IH Hwc Hf) as (c' & Huse & Hu).
    destruct (upd_node id sh nall (sumZ (an_nfree <$> cs)) next bmp cs csh i c c' s false
      (MONO_MAKE (Z.shiftl (an_id c) (an_shift c)) s) (-1)) as (an' & Einc & Hu'); try done; [by rewrite Hf|].
    exists an'. split; [|done].
    destruct cs as [|c0 cs0] eqn:Ecs; [done|]. cbn [anode_use_one]. rewrite <- Ecs in *.
    by rewrite Hi, Hc, list_lookup_fmap, Hc; cbn [fmap option_fmap option_map]; rewrite Hv, Huse, Einc.
Qed.

(** ** The properties of the allocator *)

(** Allocate [n] times; the numbers handed out, latest first. *)
Fixpoint alloc_many (allocfunc : Z -> Z -> bool) (n : nat) (an : anode) (acc : list Z)
  : option (anode * list Z) :=
  match n with
  | O => Some (an, acc)
  | S n =>
      let* p := pfs_anode_alloc allocfunc an in
      let '(an, val, rv) := p in
      if rv =? 0 then alloc_many allocfunc n an (val :: acc) else Some (an, acc)
  end.

Lemma alloc_many_ok allocfunc n an acc0 acc :
  anode_wf an -> an_id an = 0 -> NoDup acc -> (forall v, v ∈ acc -> obj_free an v = false) ->
  (forall v, v ∈ acc -> obj_free acc0 v = true) -> (forall v, obj_free an v = true -> obj_free acc0 v = true) ->
  exists an' l, alloc_many allocfunc n an acc = Some (an', l) /\ NoDup l /\ anode_wf an' /\
    (forall v, v ∈ l -> obj_free acc0 v = true) /\ (forall v, v ∈ l -> obj_free an' v = false).
Proof.
  revert an acc. induction n as [|n IH]; intros an acc Hwf Hid Hnd Hno H0 Hmono; simpl; [by eauto 10|].
  destruct (alloc_ok allocfunc an Hwf) as (an' & val & rv & -> & [(-> & rel & -> & Hr & Hf & _ & Hu)|(Hneg & -> & _)]).
  - rewrite Hid, Z.shiftl_0_l. unfold MONO_MAKE. rewrite Z.lor_0_l. destruct Hu as [Hwf' Hid' _ _ _ Hfree _ _].
    simpl. apply IH; [done|by rewrite Hid'| | | |].
    + constructor; [|done]. intros Hin%Hno. by rewrite Hf in Hin.
    + intros v [->|Hin]%elem_of_cons; rewrite Hfree; [by rewrite Z.eqb_refl|].
      case_match; [done|auto].
    + intros v [->|Hin]%elem_of_cons; auto.
    + intros v. rewrite Hfree. case_match; [done|auto].
  - destruct (Z.eqb_spec rv 0); [lia|]. by eauto 10.
Qed.

(** A tree of two chunks of four objects; the objects 1, 2 and 3 of chunk 0
    and 0 of chunk 1 are free. *)
Definition tree_example : anode :=
  ANode 0 0 8 4 0 [] [ANode 0 2 4 3 1 [14] []; ANode 1 2 4 1 0 [1] []].

Lemma tree_example_wf : anode_wf tree_example.
Proof.
  apply (wf_node _ _ _ _ _ _ _ 2); try done.
  - intros [|[|i]] c Hc; simplify_eq/=; by constructor.
  - intros [|[|i]] c Hc; simplify_eq/=; by vm_compute.
Qed.

(** C33: allocation is sound and complete on every well-formed allocation
    tree.  [pfs_anode_alloc] never aborts and its loops end.  Either it
    returns 0 with the number of an object that was free and that its metaset
    accepts, that object is now taken, every other object is as before and
    all the counters are right; or it returns an error, changes nothing, and
    there is no free object that a metaset would accept. *)
Theorem anode_alloc_sound_complete (allocfunc : Z -> Z -> bool) (an : anode) (Hwf : anode_wf an) :
  exists an' val rv, pfs_anode_alloc allocfunc an = Some (an', val, rv) /\
  ((rv = 0 /\ exists rel, val = MONO_MAKE (Z.shiftl (an_id an) (an_shift an)) rel /\
      obj_free an rel = true /\ accepts allocfunc an rel = true /\ anode_wf an' /\
      an_nfree an' = an_nfree an - 1 /\
      forall r, obj_free an' r = obj_free an r && negb (r =? rel)) \/
   (rv < 0 /\ an' = an /\ forall rel, obj_free an rel = true -> accepts allocfunc an rel = false)).
Proof.
  destruct (alloc_ok allocfunc an Hwf) as (an' & val & rv & E & [(Hrv & rel & Ev & Hr & Hf & Ha & Hu)|Hfail]);
    exists an', val, rv; (split; [done|]); [left|right; done].
  destruct Hu as [Hwf' _ _ _ Hn Hfree _ _]. split; [done|]. exists rel. rewrite Hf in Hn. split_and!; try done.
  - simpl in Hn. lia.
  - intros r. rewrite Hfree. destruct (Z.eqb_spec r rel) as [->|]; [by rewrite Hf|].
    by rewrite andb_true_r.
Qed.

Lemma anode_alloc_sound_complete_witness :
  exists an' val rv,
    pfs_anode_alloc (fun id oid => negb (id =? 0)) tree_example = Some (an', val, rv) /\ val = 4 /\ rv = 0.
Proof.
  destruct (anode_alloc_sound_complete (fun id oid => negb (id =? 0)) tree_example tree_example_wf)
    as (an' & val & rv & E & _).
  exists an', val, rv. split; [exact E|]. vm_compute in E. by simplify_eq.
Defined.

(** C34: no object is handed out twice.  However often one allocates from the
    root of a well-formed tree, the numbers returned are distinct, were free
    at the start, and are not free at the end. *)
Theorem anode_alloc_distinct (allocfunc : Z -> Z -> bool) (n : nat) (an : anode)
    (Hwf : anode_wf an) (Hroot : an_id an = 0) :
  exists an' l, alloc_many allocfunc n an [] = Some (an', l) /\ NoDup l /\
    forall v, v ∈ l -> obj_free an v = true /\ obj_free an' v = false.
Proof.
  destruct (alloc_many_ok allocfunc n an an []) as (an' & l & E & Hnd & _ & H0 & H1); try done.
  - constructor.
  - by intros v ?%elem_of_nil.
  - by intros v ?%elem_of_nil.
  - exists an', l. split_and!; auto.
Qed.

Lemma anode_alloc_distinct_witness :
  exists an' l, alloc_many (fun _ _ => true) 9 tree_example [] = Some (an', l) /\
    l = [4; 3; 2; 1] /\ NoDup l.
Proof.
  destruct (anode_alloc_distinct (fun _ _ => true) 9 tree_example tree_example_wf eq_refl)
    as (an' & l & E & Hnd & _).
  exists an', l. split; [exact E|]. split; [|exact Hnd]. vm_compute in E. by simplify_eq.
Defined.

(** C35: freeing undoes allocating.  After a successful allocation from the
    root, [pfs_anode_free] of the number it returned does not abort, and
    leaves exactly the objects free, and as many of them, as there were. *)
Theorem anode_free_alloc (allocfunc : Z -> Z -> bool) (an an' : anode) (val : Z)
    (Hwf : anode_wf an) (Hroot : an_id an = 0)
    (Halloc : pfs_anode_alloc allocfunc an = Some (an', val, 0)) :
  exists an'', pfs_anode_free an' val = Some an'' /\ anode_wf an'' /\
    an_nfree an'' = an_nfree an /\ forall r, obj_free an'' r = obj_free an r.
Proof.
  destruct (alloc_ok allocfunc an Hwf) as (an1 & val1 & rv & E & [(_ & rel & Ev & Hr & Hf & _ & Hu)|[? _]]);
    rewrite Halloc in E; injection E as <- <- <-; [|lia].
  rewrite Hroot, Z.shiftl_0_l in Ev. unfold MONO_MAKE in Ev. rewrite Z.lor_0_l in Ev. subst rel.
  destruct Hu as [Hwf' _ _ _ Hn Hfree _ Hinn].
  destruct (free_ok an' val Hwf') as (an'' & Efree & [Hwf'' _ _ _ Hn'' Hfree'' _ _]).
  - apply Hinn. by apply obj_free_in.
  - by rewrite Hfree, Z.eqb_refl.
  - exists an''. split; [done|]. split; [done|]. rewrite Hfree, Z.eqb_refl in Hn''. rewrite Hf in Hn.
    split; [simpl in *; lia|]. intros r. rewrite Hfree'', Hfree. destruct (Z.eqb_spec r val) as [->|]; done.
Qed.

Lemma anode_free_alloc_witness :
  exists an' an'', pfs_anode_alloc (fun _ _ => true) tree_example = Some (an', 1, 0) /\
    pfs_anode_free an' 1 = Some an'' /\ an_nfree an'' = 4.
Proof.
  eexists. destruct (anode_free_alloc (fun _ _ => true) tree_example _ 1 tree_example_wf eq_refl eq_refl)
    as (an'' & E & _ & Hn & _).
  exists an''. split; [reflexivity|]. split; [exact E|exact Hn].
Defined.

(** C36: undo and redo keep the counters right.  When the callback of the leaf
    changes the free state of its object from the one recorded to [b] and
    reports the difference, the walk of pfs_anode_undo and the one of
    pfs_anode_redo do not abort, pass the difference on, set the recorded
    state to [b] and leave every other object alone. *)
Theorem anode_reapply_accounts {H : Type} (func : H -> Z -> Z -> option (H * Z)) (h h' : H)
    (an : anode) (rel id oid delta : Z) (b : bool)
    (Hwf : anode_wf an) (Hin : obj_in an rel) (Hget : pfs_anode_get an rel = Some (id, oid))
    (Hfunc : func h id oid = Some (h', delta)) (Hb : Z.b2z b = Z.b2z (obj_free an rel) + delta) :
  exists an', pfs_anode_undo func an h rel = Some (an', h', delta) /\
    pfs_anode_redo func an h rel = Some (an', h', delta) /\ anode_wf an' /\
    an_nfree an' = an_nfree an + delta /\
    forall r, obj_free an' r = if r =? rel then b else obj_free an r.
Proof.
  destruct (reapply_ok func h h' an rel id oid delta b) as (an' & E & Hu); try done.
  exists an'. destruct Hu as [Hwf' _ _ _ Hn Hfree _ _]. split_and!; try done. lia.
Qed.

Lemma anode_reapply_accounts_witness :
  exists an', pfs_anode_undo (fun (h : unit) (_ _ : Z) => Some (h, 1)) tree_example tt 5 = Some (an', tt, 1) /\
    pfs_anode_redo (fun (h : unit) (_ _ : Z) => Some (h, 1)) tree_example tt 5 = Some (an', tt, 1) /\ an_nfree an' = 5 /\ obj_free an' 5 = true.
Proof.
  destruct (anode_reapply_accounts (fun (h : unit) (_ _ : Z) => Some (h, 1)) tt tt tree_example 5 1 1 1 true
    tree_example_wf) as (an' & E1 & E2 & _ & Hn & Hf).
  - apply (in_node _ _ _ _ _ _ _ 1 (ANode 1 2 4 1 0 [1] []) 1); [reflexivity|]. by constructor.
  - reflexivity.
  - reflexivity.
  - reflexivity.
  - exists an'. split; [exact E1|]. split; [exact E2|]. split; [exact Hn|exact (Hf 5)].
Defined.
