(* ===== verification/Object.v ===== *)
(** * Meta objects

    Model of the on-disk structures of pfs_meta.h, pfs_dir.h and pfs_inode.h:
    the 128-byte meta object with its block tag, directory entry or inode,
    its checksum, and the field-wise copy [pfs_metaobj_cp] of pfs_meta.cc. *)

From S2P Require Import Prelude Crc.

Open Scope pfs_scope.

(** ** Constants *)
Definition PFS_OBJDATA_SIZE : Z := 88.
Definition MT_NONE : Z := 0.
Definition MT_BLKTAG : Z := 1.
Definition MT_DIRENTRY : Z := 2.
Definition MT_INODE : Z := 3.
Definition MT_NTYPE : Z := 4.
Definition BDS_NONE : Z := 0.
Definition BDS_READY : Z := 1.
Definition BDS_INP : Z := 2.
Definition BDS_NMAX : Z := 3.

(** ** The data part of an object *)
Record pfs_blktag_phy := {
  bt_ino : Z; bt_blkid : Z; bt_dstatus : Z; bt_ndiscard : Z; bt_holelen : Z; bt_holeoff : Z }.
Record pfs_direntry_phy := {
  de_name : list Z; de_ino : Z; de_dirino : Z; de_extdeno : Z }.
Record pfs_inode_phy := {
  in_type : Z; in_flags : Z; in_padding : Z; in_pvtid : Z; in_deno : Z; in_nlink : Z;
  in_nblock : Z; in_size : Z; in_atime : Z; in_ctime : Z; in_mtime : Z; in_btime : Z }.

(** [mo_data] read through the structure of its type, with the bytes behind
    that structure; [DRaw] when the object has no type. *)
Inductive objdata :=
| DBlktag (bt : pfs_blktag_phy) (rest : list Z)
| DDirentry (de : pfs_direntry_phy)
| DInode (inode : pfs_inode_phy) (rest : list Z)
| DRaw (bytes : list Z).

Record pfs_metaobj_phy := MkObj {
  mo_number : Z; mo_version : Z; mo_next : Z; mo_prev : Z; mo_type : Z; mo_used : Z;
  mo_padding0 : Z; mo_padding1 : Z; mo_checksum : Z; mo_data : objdata }.

(** In an inode object the links are the head and the tail of its list. *)
Definition mo_head := mo_next.
Definition mo_tail := mo_prev.

#[export] Instance blktag_eq_dec : EqDecision pfs_blktag_phy.
Proof. solve_decision. Defined.
#[export] Instance direntry_eq_dec : EqDecision pfs_direntry_phy.
Proof. solve_decision. Defined.
#[export] Instance inode_phy_eq_dec : EqDecision pfs_inode_phy.
Proof. solve_decision. Defined.
#[export] Instance objdata_eq_dec : EqDecision objdata.
Proof. solve_decision. Defined.
#[export] Instance metaobj_eq_dec : EqDecision pfs_metaobj_phy.
Proof. solve_decision. Defined.

(** ** Field updates *)
Definition set_mo_next (v : Z) (mo : pfs_metaobj_phy) : pfs_metaobj_phy :=
  MkObj (mo_number mo) (mo_version mo) v (mo_prev mo) (mo_type mo) (mo_used mo)
    (mo_padding0 mo) (mo_padding1 mo) (mo_checksum mo) (mo_data mo).
Definition set_mo_prev (v : Z) (mo : pfs_metaobj_phy) : pfs_metaobj_phy :=
  MkObj (mo_number mo) (mo_version mo) (mo_next mo) v (mo_type mo) (mo_used mo)
    (mo_padding0 mo) (mo_padding1 mo) (mo_checksum mo) (mo_data mo).
Definition set_mo_used (v : Z) (mo : pfs_metaobj_phy) : pfs_metaobj_phy :=
  MkObj (mo_number mo) (mo_version mo) (mo_next mo) (mo_prev mo) (mo_type mo) v
    (mo_padding0 mo) (mo_padding1 mo) (mo_checksum mo) (mo_data mo).
Definition set_mo_checksum (v : Z) (mo : pfs_metaobj_phy) : pfs_metaobj_phy :=
  MkObj (mo_number mo) (mo_version mo) (mo_next mo) (mo_prev mo) (mo_type mo) (mo_used mo)
    (mo_padding0 mo) (mo_padding1 mo) v (mo_data mo).
Definition set_mo_data (v : objdata) (mo : pfs_metaobj_phy) : pfs_metaobj_phy :=
  MkObj (mo_number mo) (mo_version mo) (mo_next mo) (mo_prev mo) (mo_type mo) (mo_used mo)
    (mo_padding0 mo) (mo_padding1 mo) (mo_checksum mo) v.

(** ** Bytes *)
Definition blktag_bytes (bt : pfs_blktag_phy) : list Z :=
  le_bytes 8 (bt_ino bt) ++ le_bytes 8 (bt_blkid bt) ++ le_bytes 4 (bt_dstatus bt) ++
  le_bytes 4 (bt_ndiscard bt) ++ le_bytes 4 (bt_holelen bt) ++ le_bytes 4 (bt_holeoff bt).
Definition direntry_bytes (de : pfs_direntry_phy) : list Z :=
  de_name de ++ le_bytes 8 (de_ino de) ++ le_bytes 8 (de_dirino de) ++ le_bytes 8 (de_extdeno de).
Definition inode_bytes (i : pfs_inode_phy) : list Z :=
  le_bytes 1 (in_type i) ++ le_bytes 1 (in_flags i) ++ le_bytes 2 (in_padding i) ++
  le_bytes 4 (in_pvtid i) ++ le_bytes 8 (in_deno i) ++ le_bytes 8 (in_nlink i) ++
  le_bytes 8 (in_nblock i) ++ le_bytes 8 (in_size i) ++ le_bytes 8 (in_atime i) ++
  le_bytes 8 (in_ctime i) ++ le_bytes 8 (in_mtime i) ++ le_bytes 8 (in_btime i).
Definition objdata_bytes (d : objdata) : list Z :=
  match d with
  | DBlktag bt rest => blktag_bytes bt ++ rest
  | DDirentry de => direntry_bytes de
  | DInode i rest => inode_bytes i ++ rest
  | DRaw bytes => bytes
  end.

Definition metaobj_bytes (mo : pfs_metaobj_phy) : list Z :=
  le_bytes 8 (mo_number mo) ++ le_bytes 8 (mo_version mo) ++ le_bytes 8 (mo_next mo) ++
  le_bytes 8 (mo_prev mo) ++ le_bytes 1 (mo_type mo) ++ le_bytes 1 (mo_used mo) ++
  le_bytes 1 (mo_padding0 mo) ++ le_bytes 1 (mo_padding1 mo) ++ le_bytes 4 (mo_checksum mo) ++
  objdata_bytes (mo_data mo).

(** ** Checksum

    The offset of [mo_checksum] is 36; an object whose checksum is zero comes
    from an old version and is not checked. *)
Definition metaobj_crc (mo : pfs_metaobj_phy) : Z := crc32c_compute (metaobj_bytes mo) 36.

Definition pfs_metaobj_check_crc (mo : pfs_metaobj_phy) : option unit :=
  if mo_checksum mo =? 0 then Some tt
  else if negb (mo_checksum mo =? metaobj_crc mo) then None
  else Some tt.

Fixpoint pfs_metaobj_check_crc_buf (mobuf : list pfs_metaobj_phy) : option unit :=
  match mobuf with
  | [] => Some tt
  | mo :: mobuf => let* _ := pfs_metaobj_check_crc mo in pfs_metaobj_check_crc_buf mobuf
  end.

Definition seal (mo : pfs_metaobj_phy) : pfs_metaobj_phy := set_mo_checksum (metaobj_crc mo) mo.

(** ** Taking an object into use and out of it *)
Definition pfs_metaobj_init (mo : pfs_metaobj_phy) (type : Z) : option pfs_metaobj_phy :=
  PFS_ASSERT (mo_type mo =? type) ;;
  PFS_ASSERT (mo_prev mo =? 0) ;;
  PFS_ASSERT (mo_next mo =? 0) ;;
  PFS_ASSERT (mo_used mo =? 0) ;;
  Some (set_mo_used 1 mo).

Definition pfs_metaobj_fini (mo : pfs_metaobj_phy) (type : Z) : option pfs_metaobj_phy :=
  PFS_ASSERT (mo_type mo =? type) ;;
  PFS_ASSERT (mo_prev mo =? 0) ;;
  PFS_ASSERT (mo_next mo =? 0) ;;
  PFS_ASSERT (mo_used mo =? 1) ;;
  Some (set_mo_used 0 mo).

(** ** Field-wise copy *)
Definition pfs_metaobj_cp_base (src dest : pfs_metaobj_phy) : pfs_metaobj_phy :=
  MkObj (mo_number src) (mo_version src) (mo_next src) (mo_prev src) (mo_type src) (mo_used src)
    (mo_padding0 src) (mo_padding1 src) (mo_checksum src) (mo_data dest).

(** [psrc] and [pdest] are read as block tags whatever they are; the bytes
    behind the structure stay those of the destination. *)
Definition pfs_metaobj_cp_blktag (src dest : pfs_metaobj_phy) : option pfs_metaobj_phy :=
  match mo_data src, mo_data dest with
  | DBlktag bt _, DBlktag _ rest =>
      Some (set_mo_data (DBlktag
        {| bt_ino := bt_ino bt; bt_blkid := bt_blkid bt; bt_dstatus := bt_dstatus bt;
           bt_ndiscard := bt_ndiscard bt; bt_holelen := bt_holelen bt; bt_holeoff := bt_holeoff bt |}
        rest) (pfs_metaobj_cp_base src dest))
  | _, _ => None
  end.
Definition pfs_metaobj_cp_dentry (src dest : pfs_metaobj_phy) : option pfs_metaobj_phy :=
  match mo_data src, mo_data dest with
  | DDirentry de, DDirentry _ =>
      Some (set_mo_data (DDirentry
        {| de_name := de_name de; de_ino := de_ino de; de_dirino := de_dirino de;
           de_extdeno := de_extdeno de |}) (pfs_metaobj_cp_base src dest))
  | _, _ => None
  end.
Definition pfs_metaobj_cp_inode (src dest : pfs_metaobj_phy) : option pfs_metaobj_phy :=
  match mo_data src, mo_data dest with
  | DInode i _, DInode _ rest =>
      Some (set_mo_data (DInode
        {| in_type := in_type i; in_flags := in_flags i; in_padding := in_padding i;
           in_pvtid := in_pvtid i; in_deno := in_deno i; in_nlink := in_nlink i;
           in_nblock := in_nblock i; in_size := in_size i; in_atime := in_atime i;
           in_ctime := in_ctime i; in_mtime := in_mtime i; in_btime := in_btime i |} rest)
        (pfs_metaobj_cp_base src dest))
  | _, _ => None
  end.

Definition pfs_metaobj_cp (src dest : pfs_metaobj_phy) : option pfs_metaobj_phy :=
  PFS_ASSERT ((mo_type src >? 0) && (mo_type src <? MT_NTYPE)) ;;
  if mo_type src =? MT_BLKTAG then pfs_metaobj_cp_blktag src dest
  else if mo_type src =? MT_DIRENTRY then pfs_metaobj_cp_dentry src dest
  else pfs_metaobj_cp_inode src dest.

(** What [memset] leaves of an object. *)
Definition zero_obj : pfs_metaobj_phy :=
  MkObj 0 0 0 0 MT_NONE 0 0 0 0 (DRaw (replicate (Z.to_nat PFS_OBJDATA_SIZE) 0)).

(** ** Facts *)

(** The data of an object is of the kind its type says. *)
Definition typed (mo : pfs_metaobj_phy) : Prop :=
  match mo_data mo with
  | DBlktag _ _ => mo_type mo = MT_BLKTAG
  | DDirentry _ => mo_type mo = MT_DIRENTRY
  | DInode _ _ => mo_type mo = MT_INODE
  | DRaw _ => False
  end.

(** The bytes the field-wise copy leaves out. *)
Definition slack (mo : pfs_metaobj_phy) : list Z :=
  match mo_data mo with DBlktag _ rest | DInode _ rest | DRaw rest => rest | DDirentry _ => [] end.

Lemma cp_is_copy src dest :
  typed src -> typed dest -> mo_type dest = mo_type src -> slack dest = slack src ->
  pfs_metaobj_cp src dest = Some src.
Proof.
  destruct src as [? ? ? ? ty ? ? ? ? ds], dest as [? ? ? ? ty' ? ? ? ? dd]. unfold typed, slack.
  destruct ds as [[] ?|[]|[] ?|?], dd as [[] ?|[]|[] ?|?]; simpl; intros Hs Hd ? ?; try done; simplify_eq; done.
Qed.

Definition metaobj_head (mo : pfs_metaobj_phy) : list Z :=
  le_bytes 8 (mo_number mo) ++ le_bytes 8 (mo_version mo) ++ le_bytes 8 (mo_next mo) ++
  le_bytes 8 (mo_prev mo) ++ le_bytes 1 (mo_type mo) ++ le_bytes 1 (mo_used mo) ++
  le_bytes 1 (mo_padding0 mo) ++ le_bytes 1 (mo_padding1 mo).

Lemma metaobj_bytes_split mo :
  metaobj_bytes mo = metaobj_head mo ++ le_bytes 4 (mo_checksum mo) ++ objdata_bytes (mo_data mo).
Proof. unfold metaobj_bytes, metaobj_head. by rewrite <- !app_assoc. Qed.
Lemma length_metaobj_head mo : length (metaobj_head mo) = 36%nat.
Proof. unfold metaobj_head. by rewrite !length_app, !length_le_bytes. Qed.

Lemma metaobj_crc_checksum v mo :
  metaobj_crc (set_mo_checksum v mo) = metaobj_crc mo.
Proof.
  unfold metaobj_crc. rewrite !metaobj_bytes_split. cbn [mo_checksum set_mo_checksum mo_data].
  rewrite !crc32c_compute_field; rewrite ?length_metaobj_head, ?length_le_bytes; done.
Qed.

Lemma metaobj_check_seal mo : pfs_metaobj_check_crc (seal mo) = Some tt.
Proof.
  unfold pfs_metaobj_check_crc, seal. rewrite metaobj_crc_checksum. simpl.
  rewrite Z.eqb_refl. by destruct (_ =? 0).
Qed.
