(* ===== verification/Inode.v ===== *)
(** * The inode in memory and its transactions

    Model of the file part of pfs_inode.cc: the inode a mount keeps in memory
    for a file, the physical inode and the block tags it is loaded from, and
    the transactions that change both.  One thread works on one file; the
    other threads of the mount are at rest, so that a wait for another thread
    never ends ([None]) and a transaction is the difference between the
    physical metadata at its begin and now. *)

From S2P Require Import Prelude Blkio Blktable Alloc Object.

Open Scope pfs_scope.

(** ** Versions and features *)
Definition PFS_FEATURE_NONE : Z := 0.
Definition PFS_FEATURE_BLKHOLE : Z := Z.shiftl 1 0.
Definition PFS_FEATURE_EXTNAME : Z := Z.shiftl 1 1.
Definition PFS_FEATURE_PVTID : Z := Z.shiftl 1 2.
Definition pfs_feature_table : list Z :=
  [PFS_FEATURE_NONE; PFS_FEATURE_BLKHOLE; Z.lor PFS_FEATURE_BLKHOLE PFS_FEATURE_EXTNAME;
   Z.lor (Z.lor PFS_FEATURE_BLKHOLE PFS_FEATURE_EXTNAME) PFS_FEATURE_PVTID].
Definition pfs_current_version : Z := 2.

(** What a mount fixes: the geometry, the version it runs with, whether it is
    writable, whether read transactions poll the log, the clock, the number
    of the thread and the option [file_shrink_size]. *)
Record pfs_mount := MkMnt {
  mnt_geo : pfs_geometry; mnt_run_version : Z; pfs_writable : bool; pfs_mount_needsync : bool; mnt_time : Z; mnt_self : Z; file_shrink_size : Z }.

Definition pfs_version_has_features (mnt : pfs_mount) (features : Z) : option bool :=
  let rv := mnt_run_version mnt in
  PFS_ASSERT (rv <=? pfs_current_version) ;;
  let* f := pfs_feature_table !! Z.to_nat rv in
  Some (Z.land f features =? features).

(** ** Block numbers and block tags *)
Definition PFS_NBT_PERCHUNK : Z := 2560.
Definition btno_shift : Z := 12.
Definition blkno2btno (blkno : Z) : Z := Z.shiftl (blkno / PFS_NBT_PERCHUNK) btno_shift + blkno mod PFS_NBT_PERCHUNK.
Definition btno2blkno (btno : Z) : Z :=
  let ckno := Z.shiftr btno btno_shift in
  let btid := btno - Z.shiftl ckno btno_shift in
  ckno * PFS_NBT_PERCHUNK + btid.

(** The tags of the data blocks, as the inodes use them: the tag of a number
    in use, a new tag, the release of one.  [None] is an abort. *)
Class BlkPool (P : Type) := {
  bp_tag : P -> Z -> option pfs_blktag_phy;
  bp_put : Z -> pfs_blktag_phy -> P -> P;
  bp_alloc : pfs_mount -> P -> option (option Z * P);
  bp_free : Z -> P -> option P }.

(** ** The inode in memory *)
Definition PFS_INODET_NONE : Z := 0.
Definition PFS_INODET_FILE : Z := 1.
Definition PFS_INODET_DIR : Z := 2.
Definition PFS_CTIME_SYNC : Z := 10.

(** [wm_dblki] is the length of the vector. *)
Record pfs_writemodify := MkWm { wm_dblkv : option (list pfs_dblk); wm_dblkn : Z; wm_sizeinc : Z; wm_thread : Z }.
Definition wm_zero : pfs_writemodify := MkWm None 0 0 0.

(** The fields of [pfs_inode_t] a file uses. *)
Record pfs_inode := MkIn {
  mi_ino : Z; mi_type : Z; mi_size : Z; mi_size2 : Z; mi_ctime : Z; mi_btime : Z; mi_stale : bool; mi_cbdone : bool;
  mi_nblk_ip : Z; mi_nblk_modify : Z; mi_write_modify : pfs_writemodify; mi_sync_ver : Z; mi_rpl_ver : Z;
  mi_blks : blk_tables }.

Definition set_size (sz sz2 : Z) (i : pfs_inode) : pfs_inode :=
  MkIn (mi_ino i) (mi_type i) sz sz2 (mi_ctime i) (mi_btime i) (mi_stale i) (mi_cbdone i) (mi_nblk_ip i) (mi_nblk_modify i)
       (mi_write_modify i) (mi_sync_ver i) (mi_rpl_ver i) (mi_blks i).
Definition set_ctime (v : Z) (i : pfs_inode) : pfs_inode :=
  MkIn (mi_ino i) (mi_type i) (mi_size i) (mi_size2 i) v (mi_btime i) (mi_stale i) (mi_cbdone i) (mi_nblk_ip i) (mi_nblk_modify i)
       (mi_write_modify i) (mi_sync_ver i) (mi_rpl_ver i) (mi_blks i).
Definition set_stale (v : bool) (i : pfs_inode) : pfs_inode :=
  MkIn (mi_ino i) (mi_type i) (mi_size i) (mi_size2 i) (mi_ctime i) (mi_btime i) v (mi_cbdone i) (mi_nblk_ip i) (mi_nblk_modify i)
       (mi_write_modify i) (mi_sync_ver i) (mi_rpl_ver i) (mi_blks i).
Definition set_progress (ip mod_ : Z) (i : pfs_inode) : pfs_inode :=
  MkIn (mi_ino i) (mi_type i) (mi_size i) (mi_size2 i) (mi_ctime i) (mi_btime i) (mi_stale i) (mi_cbdone i) ip mod_
       (mi_write_modify i) (mi_sync_ver i) (mi_rpl_ver i) (mi_blks i).
Definition set_wm (v : pfs_writemodify) (i : pfs_inode) : pfs_inode :=
  MkIn (mi_ino i) (mi_type i) (mi_size i) (mi_size2 i) (mi_ctime i) (mi_btime i) (mi_stale i) (mi_cbdone i) (mi_nblk_ip i)
       (mi_nblk_modify i) v (mi_sync_ver i) (mi_rpl_ver i) (mi_blks i).
Definition set_sync_ver (v : Z) (i : pfs_inode) : pfs_inode :=
  MkIn (mi_ino i) (mi_type i) (mi_size i) (mi_size2 i) (mi_ctime i) (mi_btime i) (mi_stale i) (mi_cbdone i) (mi_nblk_ip i)
       (mi_nblk_modify i) (mi_write_modify i) v (mi_rpl_ver i) (mi_blks i).
Definition set_blks (v : blk_tables) (i : pfs_inode) : pfs_inode :=
  MkIn (mi_ino i) (mi_type i) (mi_size i) (mi_size2 i) (mi_ctime i) (mi_btime i) (mi_stale i) (mi_cbdone i) (mi_nblk_ip i)
       (mi_nblk_modify i) (mi_write_modify i) (mi_sync_ver i) (mi_rpl_ver i) v.

(** ** Transactions

    The functions a transaction calls when it is done, and whether it has an
    operation on the physical inode. *)
Inductive txcb := CbAdd | CbDel | CbHole | CbSize.

(** The physical metadata of the file: the inode, the numbers of its tags in
    the order of its list, and the tags. *)
Record phy (P : Type) := MkPhy { ph_in : pfs_inode_phy; ph_list : list Z; ph_pool : P }.
Arguments MkPhy {P} _ _ _.
Arguments ph_in {P} _.
Arguments ph_list {P} _.
Arguments ph_pool {P} _.

Record txn (P : Type) := MkTxn { t_ops : bool; t_inode : bool; t_cbs : list txcb; t_saved : phy P; t_timeoutfail : bool }.
Arguments MkTxn {P} _ _ _ _ _.
Arguments t_ops {P} _.
Arguments t_inode {P} _.
Arguments t_cbs {P} _.
Arguments t_saved {P} _.
Arguments t_timeoutfail {P} _.

(** [fs_logs]: the results of the log requests to come; zero at its end. *)
Record fstate (P : Type) := MkFs {
  fs_dev : device; fs_phy : phy P; fs_in : pfs_inode; fs_tx : option (txn P); fs_logs : list Z }.
Arguments MkFs {P} _ _ _ _ _.
Arguments fs_dev {P} _.
Arguments fs_phy {P} _.
Arguments fs_in {P} _.
Arguments fs_tx {P} _.
Arguments fs_logs {P} _.

(** A computation on the state; [None] is an abort, or a wait that nothing
    ends. *)
Definition fio (P T : Type) : Type := fstate P -> option (T * fstate P).
#[export] Instance fio_ret P : MRet (fio P) := fun T x s => Some (x, s).
#[export] Instance fio_bind P : MBind (fio P) := fun T U f m s => match m s with Some (x, s) => f x s | None => None end.

Definition set_phy_size (v nblock atime ctime mtime : Z) (i : pfs_inode_phy) : pfs_inode_phy :=
  {| in_type := in_type i; in_flags := in_flags i; in_padding := in_padding i; in_pvtid := in_pvtid i; in_deno := in_deno i;
     in_nlink := in_nlink i; in_nblock := nblock; in_size := v; in_atime := atime; in_ctime := ctime; in_mtime := mtime;
     in_btime := in_btime i |}.
Definition set_phy_nblock (v : Z) (i : pfs_inode_phy) : pfs_inode_phy :=
  set_phy_size (in_size i) v (in_atime i) (in_ctime i) (in_mtime i) i.
Definition set_tag_hole (off len : Z) (bt : pfs_blktag_phy) : pfs_blktag_phy :=
  {| bt_ino := bt_ino bt; bt_blkid := bt_blkid bt; bt_dstatus := bt_dstatus bt; bt_ndiscard := bt_ndiscard bt;
     bt_holelen := len; bt_holeoff := off |}.
Definition set_tag_owner (ino blkid : Z) (bt : pfs_blktag_phy) : pfs_blktag_phy :=
  {| bt_ino := ino; bt_blkid := blkid; bt_dstatus := bt_dstatus bt; bt_ndiscard := bt_ndiscard bt;
     bt_holelen := bt_holelen bt; bt_holeoff := bt_holeoff bt |}.

Section Inode.
Context {P : Type} `{BlkPool P} (mnt : pfs_mount).
Abbreviation F := (fio P).

Definition lift {T} (o : option T) : F T := fun s => match o with Some x => Some (x, s) | None => None end.
Definition assert_ (b : bool) : F unit := fun s => if b then Some (tt, s) else None.
Definition gets {T} (f : fstate P -> T) : F T := fun s => Some (f s, s).
Definition upd_in (f : pfs_inode -> pfs_inode) : F unit :=
  fun s => Some (tt, MkFs (fs_dev s) (fs_phy s) (f (fs_in s)) (fs_tx s) (fs_logs s)).
Definition upd_phy (f : phy P -> phy P) : F unit :=
  fun s => Some (tt, MkFs (fs_dev s) (f (fs_phy s)) (fs_in s) (fs_tx s) (fs_logs s)).
Definition upd_dev {T} (f : device -> option (T * device)) : F T :=
  fun s => match f (fs_dev s) with Some (x, d) => Some (x, MkFs d (fs_phy s) (fs_in s) (fs_tx s) (fs_logs s)) | None => None end.
Definition upd_tx (f : txn P -> txn P) : F unit :=
  fun s => Some (tt, MkFs (fs_dev s) (fs_phy s) (fs_in s) (f <$> fs_tx s) (fs_logs s)).
Definition set_tx (tx : option (txn P)) : F unit :=
  fun s => Some (tt, MkFs (fs_dev s) (fs_phy s) (fs_in s) tx (fs_logs s)).
Definition next_log : F Z :=
  fun s => match fs_logs s with
           | [] => Some (0, s)
           | rv :: logs => Some (rv, MkFs (fs_dev s) (fs_phy s) (fs_in s) (fs_tx s) logs)
           end.
Definition upd_phyin (f : pfs_inode_phy -> pfs_inode_phy) : F unit :=
  upd_phy (fun ph => MkPhy (f (ph_in ph)) (ph_list ph) (ph_pool ph)).

Definition pfs_tx_new_op : F unit :=
  upd_tx (fun tx => MkTxn true (t_inode tx) (t_cbs tx) (t_saved tx) (t_timeoutfail tx)).
(** The operation is on the inode. *)
Definition tx_inode_op : F unit :=
  upd_tx (fun tx => MkTxn (t_ops tx) true (t_cbs tx) (t_saved tx) (t_timeoutfail tx)).
Definition pfs_tx_done_op_callback (cb : txcb) : F unit :=
  upd_tx (fun tx => MkTxn (t_ops tx) (t_inode tx) (t_cbs tx ++ [cb]) (t_saved tx) (t_timeoutfail tx)).

(** *** Looking at the physical inode *)
Definition pfs_inode_check_stale (phyin : option pfs_inode_phy) (in_ : option pfs_inode) : Z :=
  if (match phyin with Some phyin => in_type phyin =? PFS_INODET_NONE | None => false end) then - ENOENT else
  if (match phyin, in_ with Some phyin, Some in_ => negb (mi_btime in_ =? in_btime phyin) | _, _ => false end) then - ENOENT else
  if (match in_ with Some in_ => mi_stale in_ || (mi_sync_ver in_ <? mi_rpl_ver in_) | None => false end) then - EAGAIN else 0.

Definition pfs_inode_phy_get : F Z :=
  phyin ← gets (fun s => ph_in (fs_phy s)); in_ ← gets fs_in;
  mret (pfs_inode_check_stale (Some phyin) (Some in_)).
Definition pfs_inode_phy_check : F Z := pfs_inode_phy_get.
Definition pfs_inode_mark_stale : F unit := upd_in (set_stale true).

Definition pfs_meta_get_blktag (btno : Z) : F pfs_blktag_phy :=
  pool ← gets (fun s => ph_pool (fs_phy s)); lift (bp_tag pool btno).
Definition upd_pool (f : P -> P) : F unit := upd_phy (fun ph => MkPhy (ph_in ph) (ph_list ph) (f (ph_pool ph))).

(** A tag as the index of blocks sees it. *)
Definition tag_view (used : bool) (btno : Z) (bt : pfs_blktag_phy) : blktag_view :=
  MkBt used (bt_blkid bt) (MkDblk (btno2blkno btno) (bt_holeoff bt) (bt_holelen bt)).
Definition sync_blk_meta (v : blktag_view) : F unit :=
  in_ ← gets fs_in; bt ← lift (pfs_inode_sync_blk_meta (mi_blks in_) v); upd_in (set_blks bt).

(** *** Adding and removing blocks *)
Definition pfs_inode_add (blkid : Z) : F Z :=
  pfs_tx_new_op;; pfs_tx_new_op;;
  tx_inode_op;;
  err ← pfs_inode_phy_get;
  if err <? 0 then mret err else
  pool ← gets (fun s => ph_pool (fs_phy s));
  r ← lift (bp_alloc mnt pool);
  let '(nbt, pool) := r in
  match nbt with
  | None => upd_pool (fun _ => pool);; mret (- ENOSPC)
  | Some btno =>
      upd_pool (fun _ => pool);;
      bt ← pfs_meta_get_blktag btno;
      in_ ← gets fs_in;
      let bt := set_tag_owner (mi_ino in_) blkid bt in
      upd_phy (fun ph => MkPhy (set_phy_nblock (in_nblock (ph_in ph) + 1) (ph_in ph)) (ph_list ph ++ [btno])
                           (bp_put btno bt (ph_pool ph)));;
      upd_in (fun i => set_progress (mi_nblk_ip i + 1) (mi_nblk_modify i) i);;
      sync_blk_meta (tag_view true btno bt);;
      pfs_tx_done_op_callback CbAdd;;
      mret 0
  end.

Definition pfs_inode_del (dblk : pfs_dblk) : F Z :=
  pfs_tx_new_op;; pfs_tx_new_op;;
  tx_inode_op;;
  err ← pfs_inode_phy_get;
  if err <? 0 then mret err else
  let btno := blkno2btno (db_blkno dblk) in
  bt ← pfs_meta_get_blktag btno;
  pool ← gets (fun s => ph_pool (fs_phy s));
  pool ← lift (bp_free btno pool);
  upd_phy (fun ph => MkPhy (set_phy_nblock (in_nblock (ph_in ph) - 1) (ph_in ph))
                       (filter (fun b => b <> btno) (ph_list ph)) pool);;
  upd_in (fun i => set_progress (mi_nblk_ip i - 1) (mi_nblk_modify i) i);;
  sync_blk_meta (tag_view false btno bt);;
  pfs_tx_done_op_callback CbDel;;
  mret 0.

(** The blocks of a table from [from] on, [n] of them. *)
Fixpoint del_table (n : nat) (from : Z) : F Z :=
  match n with
  | O => mret 0
  | S n =>
      in_ ← gets fs_in;
      p ← lift (pfs_inode_get_blk (mi_blks in_) from);
      match p with
      | None => del_table n (from + 1)
      | Some p =>
          dblk ← lift (blk_load (mi_blks in_) p);
          if pfs_dblk_empty dblk then del_table n (from + 1) else
          err ← pfs_inode_del dblk;
          if err <? 0 then mret err else del_table n (from + 1)
      end
  end.
Fixpoint del_tables (fuel : nat) (table_idx from : Z) : F Z :=
  match fuel with
  | O => mret 0
  | S fuel =>
      in_ ← gets fs_in;
      if negb (table_idx <? in_blk_table_nsoft (mi_blks in_)) then mret 0 else
      let n := BLK_TABLE_BLK_CNT - pfs_inode_blk_vec_idx from in
      err ← del_table (Z.to_nat n) from;
      if err <? 0 then mret err else del_tables fuel (table_idx + 1) (from + n)
  end.
(** The number of tables only falls, so that it bounds the steps. *)
Definition pfs_inode_del_from (from : Z) : F Z :=
  in_ ← gets fs_in;
  assert_ (mi_type in_ =? PFS_INODET_FILE);;
  let table_idx := pfs_inode_blk_table_idx from in
  del_tables (Z.to_nat (in_blk_table_nsoft (mi_blks in_) - table_idx)) table_idx from.

(** *** Holes *)
Definition pfs_inode_modify_dblk_hole (dblk : pfs_dblk) : F unit :=
  f ← lift (pfs_version_has_features mnt PFS_FEATURE_BLKHOLE);
  assert_ f;;
  assert_ (db_holeoff dblk + db_holelen dblk =? mnt_blksize (mnt_geo mnt));;
  pfs_tx_new_op;;
  let btno := blkno2btno (db_blkno dblk) in
  bt ← pfs_meta_get_blktag btno;
  upd_pool (bp_put btno (set_tag_hole (db_holeoff dblk) (db_holelen dblk) bt));;
  pfs_tx_done_op_callback CbHole;;
  upd_in (fun i => set_progress (mi_nblk_ip i) (mi_nblk_modify i + 1) i).

(** The block of [blkid] in the index; a null pointer ends the run. *)
Definition get_dblk (blkid : Z) : F ((Z * nat) * pfs_dblk) :=
  in_ ← gets fs_in;
  p ← lift (pfs_inode_get_blk (mi_blks in_) blkid);
  p ← lift p;
  dblk ← lift (blk_load (mi_blks in_) p);
  mret (p, dblk).
(** [pfs_dblk_change] through the pointer. *)
Definition change_dblk (p : Z * nat) (dblk : pfs_dblk) (off len : Z) : F pfs_dblk :=
  dblk ← lift (pfs_dblk_change off len dblk);
  in_ ← gets fs_in;
  bt ← lift (blk_store p dblk (mi_blks in_));
  upd_in (set_blks bt);;
  mret dblk.

Definition pfs_inode_expand_dblk_hole (blkid newbhoff newbhlen : Z) : F unit :=
  assert_ (newbhoff + newbhlen =? mnt_blksize (mnt_geo mnt));;
  r ← get_dblk blkid;
  let '(p, dblk) := r in
  assert_ (db_blkno dblk >? 0);;
  hoff ← lift (pfs_dblk_holeoff dblk);
  assert_ (newbhoff <? hoff);;
  dblk ← change_dblk p dblk newbhoff newbhlen;
  pfs_inode_modify_dblk_hole dblk.

Definition pfs_inode_shrink_dblk_hole (blkid newbhoff newbhlen : Z) : F unit :=
  assert_ (newbhoff + newbhlen =? mnt_blksize (mnt_geo mnt));;
  r ← get_dblk blkid;
  let '(p, dblk) := r in
  assert_ (db_blkno dblk >? 0);;
  hoff ← lift (pfs_dblk_holeoff dblk);
  assert_ (newbhoff >? hoff);;
  dblk ← change_dblk p dblk newbhoff newbhlen;
  pfs_inode_modify_dblk_hole dblk.

(** *** Changes that a write leaves to its commit *)
Definition isnull {T} (p : option T) : bool := match p with None => true | Some _ => false end.
Definition wm_dblki (wm : pfs_writemodify) : Z := Z.of_nat (length (default [] (wm_dblkv wm))).
Definition pfs_inode_writemodify_init (wm : pfs_writemodify) : bool :=
  isnull (wm_dblkv wm) && (wm_dblki wm =? 0) && (wm_dblkn wm =? 0) && (wm_sizeinc wm =? 0) && (wm_thread wm =? 0).
Definition pfs_inode_writemodify_fini (wm : pfs_writemodify) : pfs_writemodify := wm_zero.
Definition pfs_inode_writemodify_inprogress (wm : pfs_writemodify) : bool :=
  negb (isnull (wm_dblkv wm)) || negb (wm_sizeinc wm =? 0).

Definition pfs_inode_writemodify_shrink_dblk_hole (blkid newbhoff newbhlen : Z) : F unit :=
  in_ ← gets fs_in;
  let wm := mi_write_modify in_ in
  let tid := mnt_self mnt in
  f ← lift (pfs_version_has_features mnt PFS_FEATURE_BLKHOLE);
  assert_ f;;
  assert_ (newbhoff + newbhlen =? mnt_blksize (mnt_geo mnt));;
  assert_ ((wm_thread wm =? 0) || (wm_thread wm =? tid));;
  r ← get_dblk blkid;
  let '(p, dblk) := r in
  dblk ← change_dblk p dblk newbhoff newbhlen;
  let dblkn := (if isnull (wm_dblkv wm) || (wm_dblki wm >=? wm_dblkn wm) then wm_dblkn wm + 8 else wm_dblkn wm) in
  assert_ ((0 <=? wm_dblki wm) && (wm_dblki wm <? dblkn));;
  upd_in (set_wm (MkWm (Some (default [] (wm_dblkv wm) ++ [dblk])) dblkn (wm_sizeinc wm) tid)).

Definition pfs_inode_writemodify_increment_size (sizeinc : Z) : F unit :=
  in_ ← gets fs_in;
  let wm := mi_write_modify in_ in
  let tid := mnt_self mnt in
  assert_ ((sizeinc >? 0) && (sizeinc >=? wm_sizeinc wm));;
  assert_ ((wm_thread wm =? 0) || (wm_thread wm =? tid));;
  upd_in (set_wm (MkWm (wm_dblkv wm) (wm_dblkn wm) sizeinc tid)).

(** *** The size *)
Definition pfs_inode_change (szdelta : Z) (force : bool) : F Z :=
  in_ ← gets fs_in;
  let ctime := mnt_time mnt in
  if (szdelta =? 0) && (ctime - mi_ctime in_ <=? PFS_CTIME_SYNC) && negb force then mret 0 else
  tx ← gets fs_tx;
  err ← (match tx with
         | Some _ => pfs_tx_new_op;; tx_inode_op;; pfs_inode_phy_get
         | None => mret 0
         end);
  if err <? 0 then mret err else
  assert_ (mi_size in_ =? mi_size2 in_);;
  upd_in (fun i => set_ctime ctime (set_size (mi_size i) (mi_size2 i + szdelta) i));;
  upd_phyin (fun phyin =>
    set_phy_size (in_size phyin + szdelta) (in_nblock phyin)
      (if (szdelta =? 0) && (in_ctime phyin =? ctime) && force then in_atime phyin + 1 else in_atime phyin) ctime ctime phyin);;
  (if szdelta =? 0 then mret tt else pfs_tx_done_op_callback CbSize);;
  mret 0.

Fixpoint modify_holes (dblks : list pfs_dblk) : F unit :=
  match dblks with
  | [] => mret tt
  | dblk :: dblks => pfs_inode_modify_dblk_hole dblk;; modify_holes dblks
  end.

Definition pfs_inode_writemodify_commit : F Z :=
  in_ ← gets fs_in;
  let wm := mi_write_modify in_ in
  if negb (pfs_inode_writemodify_inprogress wm) then mret 0 else
  if negb (wm_thread wm =? mnt_self mnt) then mret 0 else
  assert_ (mi_nblk_modify in_ =? 0);;
  assert_ (mi_size in_ =? mi_size2 in_);;
  assert_ (wm_dblki wm <=? wm_dblkn wm);;
  err ← (match wm_dblkv wm with
         | Some dblkv =>
             err ← pfs_inode_phy_check;
             if negb (err =? 0) then pfs_inode_mark_stale;; mret err
             else modify_holes dblkv;; pfs_inode_change (wm_sizeinc wm) true
         | None =>
             assert_ (wm_dblkn wm =? 0);;
             pfs_inode_change (wm_sizeinc wm) true
         end);
  upd_in (fun i => set_wm (pfs_inode_writemodify_fini wm) i);;
  mret err.

(** *** Loading *)
Fixpoint build_findex (btnos : list Z) (blkcnt : Z) : F Z :=
  match btnos with
  | [] => mret blkcnt
  | btno :: btnos =>
      bt ← pfs_meta_get_blktag btno;
      in_ ← gets fs_in;
      assert_ (bt_ino bt =? mi_ino in_);;
      assert_ (bt_blkid bt >=? 0);;
      sync_blk_meta (tag_view true btno bt);;
      build_findex btnos (blkcnt + 1)
  end.
Definition pfs_inode_build_findex : F unit :=
  in_ ← gets fs_in;
  phyin ← gets (fun s => ph_in (fs_phy s));
  bt ← lift (pfs_inode_create_blktable (mi_blks in_) (in_nblock phyin));
  upd_in (set_blks bt);;
  btnos ← gets (fun s => ph_list (fs_phy s));
  blkcnt ← build_findex btnos 0;
  assert_ (blkcnt =? in_nblock phyin).

(** Of a file; a directory has an index of its own. *)
Definition pfs_inode_load : F Z :=
  phyin ← gets (fun s => ph_in (fs_phy s));
  let err := pfs_inode_check_stale (Some phyin) None in
  if err <? 0 then mret err else
  in_ ← gets fs_in;
  assert_ (pfs_inode_writemodify_init (mi_write_modify in_));;
  assert_ (in_type phyin =? PFS_INODET_FILE);;
  upd_in (fun i => MkIn (mi_ino i) (in_type phyin) (in_size phyin) (in_size phyin) (in_ctime phyin) (in_btime phyin)
                     (mi_stale i) (mi_cbdone i) 0 0 (mi_write_modify i) (mi_sync_ver i) (mi_rpl_ver i) (mi_blks i));;
  pfs_inode_build_findex;;
  upd_in (set_stale false);;
  mret 0.

Definition pfs_inode_reload : F Z :=
  in_ ← gets fs_in;
  assert_ (mi_stale in_);;
  (if mi_type in_ =? PFS_INODET_FILE then upd_in (fun i => set_blks (pfs_inode_destroy_blk_table (mi_blks i)) i) else mret tt);;
  upd_in (fun i => set_wm (pfs_inode_writemodify_fini (mi_write_modify i)) i);;
  pfs_inode_load.

(** What the loop on the condition variable waits for. *)
Definition sync_waits (in_ : pfs_inode) : bool :=
  negb (mi_nblk_ip in_ =? 0) || negb (mi_nblk_modify in_ =? 0) || negb (mi_size in_ =? mi_size2 in_) || negb (mi_cbdone in_) ||
  (pfs_inode_writemodify_inprogress (mi_write_modify in_) && negb (wm_thread (mi_write_modify in_) =? mnt_self mnt)).

Definition pfs_inode_sync_impl (type : Z) (first_sync : bool) (btime : Z) : F Z :=
  in_ ← gets fs_in;
  assert_ (negb (sync_waits in_));;
  err ← (if mi_stale in_ then pfs_inode_reload else mret 0);
  if negb (err =? 0) then mret err else
  let reloaded := mi_stale in_ in
  in_ ← gets fs_in;
  if pfs_inode_writemodify_inprogress (mi_write_modify in_) && (mi_sync_ver in_ <? mi_rpl_ver in_) then mret (- EAGAIN) else
  upd_in (fun i => set_sync_ver (mi_rpl_ver i) i);;
  assert_ (negb (mi_type in_ =? PFS_INODET_NONE));;
  if negb (mi_btime in_ =? btime) then mret (- ENOENT) else
  if negb (type =? PFS_INODET_NONE) && negb (mi_type in_ =? type)
  then mret (if type =? PFS_INODET_FILE then - EISDIR else - ENOTDIR) else
  if reloaded && negb first_sync then mret (- EAGAIN) else
  mret 0.
Definition pfs_inode_sync (type btime : Z) : F Z := pfs_inode_sync_impl type false btime.
Definition pfs_inode_sync_first (type btime : Z) : F Z := pfs_inode_sync_impl type true btime.

Definition pfs_inode_size : F Z :=
  in_ ← gets fs_in;
  assert_ (mi_type in_ =? PFS_INODET_FILE);;
  assert_ (mi_size in_ =? mi_size2 in_);;
  mret (mi_size in_).

(** *** Begin and end of a transaction *)
Definition pfs_tx_begin (timeoutfail : bool) : F unit :=
  ph ← gets fs_phy;
  set_tx (Some (MkTxn false false [] ph timeoutfail)).

(** The undo of an inode marks the inode in memory stale. *)
Definition pfs_tx_rollback (tx : txn P) : F unit :=
  upd_phy (fun _ => t_saved tx);;
  if t_inode tx then pfs_inode_mark_stale else mret tt.

Definition pfs_tx_submit (tx : txn P) (err : Z) : F Z :=
  if negb (t_ops tx) then mret err else
  if negb (err =? 0) then pfs_tx_rollback tx;; mret err else
  rv ← next_log;
  if rv <? 0 then
    pfs_tx_rollback tx;;
    mret (if (rv =? - ETIMEDOUT) && negb (t_timeoutfail tx) then - EAGAIN else rv)
  else mret rv.

Definition pfs_inode_add_committed : F unit :=
  in_ ← gets fs_in;
  assert_ (mi_nblk_ip in_ >? 0);;
  upd_in (fun i => set_progress (mi_nblk_ip i - 1) (mi_nblk_modify i) i).
Definition pfs_inode_del_committed : F unit :=
  in_ ← gets fs_in;
  assert_ (mi_nblk_ip in_ <? 0);;
  upd_in (fun i => set_progress (mi_nblk_ip i + 1) (mi_nblk_modify i) i).
Definition pfs_inode_modify_dblk_hole_done : F unit :=
  in_ ← gets fs_in;
  assert_ (mi_nblk_modify in_ >? 0);;
  upd_in (fun i => set_progress (mi_nblk_ip i) (mi_nblk_modify i - 1) i).
Definition pfs_inode_change_size_done : F unit := upd_in (fun i => set_size (mi_size2 i) (mi_size2 i) i).
Definition run_cb (cb : txcb) : F unit :=
  match cb with
  | CbAdd => pfs_inode_add_committed
  | CbDel => pfs_inode_del_committed
  | CbHole => pfs_inode_modify_dblk_hole_done
  | CbSize => pfs_inode_change_size_done
  end.
Fixpoint pfs_tx_do_callback (cbs : list txcb) : F unit :=
  match cbs with [] => mret tt | cb :: cbs => run_cb cb;; pfs_tx_do_callback cbs end.

(** On a mount that logs its transactions. *)
Definition pfs_tx_end (err : Z) : F Z :=
  tx ← gets fs_tx;
  tx ← lift tx;
  err ← pfs_tx_submit tx err;
  set_tx None;;
  pfs_tx_do_callback (t_cbs tx);;
  mret err.

(** [tls_write_begin] .. [tls_write_end]: the block computes a value and an
    error; the error of the end replaces it. *)
Definition tls_write {T} (timeoutfail : bool) (dflt : T) (body : F (T * Z)) : F (T * Z) :=
  if negb (pfs_writable mnt) then mret (dflt, - EROFS) else
  pfs_tx_begin timeoutfail;;
  r ← body;
  let '(x, err) := r in
  err ← pfs_tx_end err;
  mret (x, err).

(** [tls_read_begin] .. [tls_read_end]: a poll of the log comes first when it
    is wanted; what it finds of other hosts is not part of this file. *)
Definition tls_read {T} (needsync : bool) (dflt : T) (body : F (T * Z)) : F (T * Z) :=
  err ← (if needsync then next_log else mret 0);
  if negb (err =? 0) then mret (dflt, err) else body.
End Inode.
