(* ===== verification/Dir.v ===== *)
(** * Directories

    Model of pfs_dir.cc on the meta objects: directory entries with their
    extension entries for long names, the list of the entries of a directory
    (pfs_meta.cc), inodes, and the operations that add, delete, move and
    rename entries, read directories and compute paths.

    The operations of one thread inside one transaction; the objects are
    changed in place.  [None] is an abort. *)

From S2P Require Import Prelude Alloc Object Blkio Blktable Inode.

Open Scope pfs_scope.

(** ** Constants *)
Definition EPFS_FILE_2MANY : Z := 1001.
Definition INVALID_INO : Z := -1.
Definition INVALID_DENO : Z := 2 ^ 64 - 1.
Definition INVALID_EXTDENO : Z := 0.
Definition PFS_MAX_NAMELEN : Z := 256.
Definition PFS_MAX_NAMELEN_OLD : Z := 64.
Definition PFS_MAX_PATHLEN : Z := 4096.
Definition PFS_DIR_END : Z := 1.
Definition PFS_DE_UNLINKED : Z := 2.
(** [sizeof(pfs_metaobj_phy_t)]. *)
Definition METAOBJ_SIZE : Z := 128.

(** ** Strings

    A C string is the list of its bytes without the NUL. *)
Definition SLASH : Z := 47.
Definition strlen (s : list Z) : Z := Z.of_nat (length s).
(** The string in a buffer; [None] when nothing ends it. *)
Fixpoint cstr (buf : list Z) : option (list Z) :=
  match buf with
  | [] => None
  | c :: buf => if c =? 0 then Some [] else let* s := cstr buf in Some (c :: s)
  end.
Definition strncpy (s : list Z) (n : Z) : list Z := take (Z.to_nat n) (s ++ replicate (Z.to_nat n) 0).

(** ** What other parts do for directories

    The name cache of the mount. *)
Class NCacheOps (C : Type) := {
  ncache_lookup : Z -> list Z -> C -> option ((Z + Z) * C);
  ncache_enter : Z -> Z -> list Z -> Z -> C -> option C;
  ncache_delete_by_deno : Z -> C -> option C }.

(** The objects of one type with their allocation node; [os_shift] is the
    shift of the number of a chunk. *)
Record objset := MkSet { os_objs : gmap Z pfs_metaobj_phy; os_anode : anode; os_shift : Z }.

Record dstate (C : Type) := MkD { ds_de : objset; ds_in : objset; ds_nc : C }.
Arguments MkD {C} _ _ _.
Arguments ds_de {C} _.
Arguments ds_in {C} _.
Arguments ds_nc {C} _.

Definition dio (C T : Type) : Type := dstate C -> option (T * dstate C).
#[export] Instance dio_ret C : MRet (dio C) := fun T x s => Some (x, s).
#[export] Instance dio_bind C : MBind (dio C) := fun T U f m s => match m s with Some (x, s) => f x s | None => None end.

(** ** Object sets *)
Definition set_obj (n : Z) (mo : pfs_metaobj_phy) (os : objset) : objset :=
  MkSet (<[n := mo]> (os_objs os)) (os_anode os) (os_shift os).

(** [pfs_metaset_alloc] for directory entries and inodes: a free object of
    the set may be handed out. *)
Definition os_accepts (os : objset) (ckno oid : Z) : bool :=
  match os_objs os !! MONO_MAKE (Z.shiftl ckno (os_shift os)) oid with Some mo => mo_used mo =? 0 | None => false end.

Definition pfs_metaobj_alloc_common (mtype : Z) (os : objset) : option (option Z * objset) :=
  let* r := pfs_anode_alloc (os_accepts os) (os_anode os) in
  let '(an, val, err) := r in
  let os := MkSet (os_objs os) an (os_shift os) in
  if err =? - ENOSPC then Some (None, os)
  else
    let* mo := os_objs os !! val in
    let* mo := pfs_metaobj_init mo mtype in
    Some (Some val, set_obj val mo os).

Definition pfs_metaobj_free_common (mtype mono : Z) (os : objset) : option objset :=
  let* mo := os_objs os !! mono in
  let* mo := pfs_metaobj_fini mo mtype in
  let* an := pfs_anode_free (os_anode os) (mo_number mo) in
  Some (MkSet (<[mono := mo]> (os_objs os)) an (os_shift os)).

Section Dir.
Context {C : Type} `{NCacheOps C} (mnt : pfs_mount) (mnt_pbdname : list Z) (now : Z).
Abbreviation D := (dio C).

Definition gets {T} (f : dstate C -> T) : D T := fun s => Some (f s, s).
Definition lift {T} (x : option T) : D T := fun s => match x with Some v => Some (v, s) | None => None end.
Definition abort {T} : D T := fun _ => None.
Definition assert_ (b : bool) : D unit := fun s => if b then Some (tt, s) else None.
Definition set_de (os : objset) : D unit := fun s => Some (tt, MkD os (ds_in s) (ds_nc s)).
Definition set_in (os : objset) : D unit := fun s => Some (tt, MkD (ds_de s) os (ds_nc s)).
Definition set_nc (c : C) : D unit := fun s => Some (tt, MkD (ds_de s) (ds_in s) c).

(** *** [pfs_meta_get] and the views of an object *)
Definition de_mo (deno : Z) : D pfs_metaobj_phy := os ← gets ds_de; lift (os_objs os !! deno).
Definition in_mo (ino : Z) : D pfs_metaobj_phy := os ← gets ds_in; lift (os_objs os !! ino).
Definition MO2DE (mo : pfs_metaobj_phy) : option pfs_direntry_phy := match mo_data mo with DDirentry de => Some de | _ => None end.
Definition MO2IN (mo : pfs_metaobj_phy) : option pfs_inode_phy := match mo_data mo with DInode i _ => Some i | _ => None end.
Definition pfs_meta_get_direntry (deno : Z) : D pfs_direntry_phy := mo ← de_mo deno; lift (MO2DE mo).
Definition pfs_meta_get_inode (ino : Z) : D pfs_inode_phy := mo ← in_mo ino; lift (MO2IN mo).

Definition upd_de_mo (deno : Z) (f : pfs_metaobj_phy -> pfs_metaobj_phy) : D unit :=
  os ← gets ds_de; mo ← lift (os_objs os !! deno); set_de (set_obj deno (f mo) os).
Definition upd_in_mo (ino : Z) (f : pfs_metaobj_phy -> pfs_metaobj_phy) : D unit :=
  os ← gets ds_in; mo ← lift (os_objs os !! ino); set_in (set_obj ino (f mo) os).
Definition on_de (f : pfs_direntry_phy -> pfs_direntry_phy) (mo : pfs_metaobj_phy) : pfs_metaobj_phy :=
  match mo_data mo with DDirentry de => set_mo_data (DDirentry (f de)) mo | _ => mo end.
Definition on_in (f : pfs_inode_phy -> pfs_inode_phy) (mo : pfs_metaobj_phy) : pfs_metaobj_phy :=
  match mo_data mo with DInode i rest => set_mo_data (DInode (f i) rest) mo | _ => mo end.
Definition upd_de (deno : Z) (f : pfs_direntry_phy -> pfs_direntry_phy) : D unit := upd_de_mo deno (on_de f).
Definition upd_in (ino : Z) (f : pfs_inode_phy -> pfs_inode_phy) : D unit := upd_in_mo ino (on_in f).

(** [NULL] when no object is free. *)
Definition pfs_meta_alloc_direntry : D (option Z) :=
  os ← gets ds_de; r ← lift (pfs_metaobj_alloc_common MT_DIRENTRY os); set_de (snd r);; mret (fst r).
Definition pfs_meta_alloc_inode : D (option Z) :=
  os ← gets ds_in; r ← lift (pfs_metaobj_alloc_common MT_INODE os); set_in (snd r);; mret (fst r).
Definition pfs_meta_free_direntry (deno : Z) : D unit :=
  os ← gets ds_de; os ← lift (pfs_metaobj_free_common MT_DIRENTRY deno os); set_de os.
Definition pfs_meta_free_inode (ino : Z) : D unit :=
  os ← gets ds_in; os ← lift (pfs_metaobj_free_common MT_INODE ino os); set_in os.

Definition pfs_namecache_delete (deno : Z) : D unit :=
  c ← gets ds_nc; c ← lift (ncache_delete_by_deno deno c); set_nc c.

(** *** Fields *)
Definition set_de_name (v : list Z) (de : pfs_direntry_phy) : pfs_direntry_phy :=
  {| de_name := v; de_ino := de_ino de; de_dirino := de_dirino de; de_extdeno := de_extdeno de |}.
Definition set_de_owner (ino dirino : Z) (de : pfs_direntry_phy) : pfs_direntry_phy :=
  {| de_name := de_name de; de_ino := ino; de_dirino := dirino; de_extdeno := de_extdeno de |}.
Definition set_de_extdeno (v : Z) (de : pfs_direntry_phy) : pfs_direntry_phy :=
  {| de_name := de_name de; de_ino := de_ino de; de_dirino := de_dirino de; de_extdeno := v |}.
Definition set_in_link (deno nlink : Z) (i : pfs_inode_phy) : pfs_inode_phy :=
  {| in_type := in_type i; in_flags := in_flags i; in_padding := in_padding i; in_pvtid := in_pvtid i; in_deno := deno;
     in_nlink := nlink; in_nblock := in_nblock i; in_size := in_size i; in_atime := in_atime i; in_ctime := in_ctime i;
     in_mtime := in_mtime i; in_btime := in_btime i |}.
Definition set_in_size (v : Z) (i : pfs_inode_phy) : pfs_inode_phy := set_phy_size v (in_nblock i) (in_atime i) (in_ctime i) (in_mtime i) i.

(** [INPHY_UPDATE_TIME] and [gettimeofday_us]; [now] is the time of the call
    in microseconds. *)
Definition IN_ATIME : Z := 1.
Definition IN_MTIME : Z := 2.
Definition IN_CTIME : Z := 4.
Definition INPHY_UPDATE_TIME (mode : Z) (i : pfs_inode_phy) : pfs_inode_phy :=
  let curtime := now / 1000000 in
  set_phy_size (in_size i) (in_nblock i) (if negb (Z.land mode IN_ATIME =? 0) then curtime else in_atime i)
    (if negb (Z.land mode IN_CTIME =? 0) then curtime else in_ctime i)
    (if negb (Z.land mode IN_MTIME =? 0) then curtime else in_mtime i) i.
Definition gettimeofday_us : Z := now.

(** ** The list of the entries of a directory (pfs_meta.cc) *)
Definition pfs_meta_list_insert (headmo mo : Z) : D Z :=
  h ← in_mo headmo;
  assert_ (mo_type h =? MT_INODE);;
  m ← de_mo mo;
  (if mo_head h =? 0 then upd_in_mo headmo (set_mo_next (mo_number m))
   else
     tailmo ← de_mo (mo_tail h);
     upd_de_mo mo (set_mo_prev (mo_number tailmo));;
     upd_de_mo (mo_tail h) (set_mo_next (mo_number m)));;
  upd_in_mo headmo (set_mo_prev (mo_number m));;
  mret 0.

Definition pfs_meta_list_delete (headmo mo : Z) : D Z :=
  h ← in_mo headmo;
  assert_ (mo_type h =? MT_INODE);;
  m ← de_mo mo;
  (if negb (mo_prev m =? 0) then upd_de_mo (mo_prev m) (set_mo_next (mo_next m))
   else upd_in_mo headmo (set_mo_next (mo_next m)));;
  m ← de_mo mo;
  (if negb (mo_next m =? 0) then upd_de_mo (mo_next m) (set_mo_prev (mo_prev m))
   else upd_in_mo headmo (set_mo_prev (mo_prev m)));;
  upd_de_mo mo (set_mo_prev 0);;
  upd_de_mo mo (set_mo_next 0);;
  mret 0.

(** ** Names

    A name of more than 63 bytes continues in extension entries. *)
Definition DE_ISEXT (de : pfs_direntry_phy) : bool := negb (de_ino de =? INVALID_INO) && (de_dirino de =? INVALID_INO).

Definition extname_forward (name : list Z) (step : Z) : option (list Z) :=
  if strlen name + 1 <=? step then None else Some (drop (Z.to_nat step) name).

(** The bytes copied to the buffer; the assertion ends the loop in the fifth
    round at the latest. *)
Fixpoint getname_loop (n : nat) (deno ncopy : Z) : D (list Z) :=
  match n with
  | O => abort
  | S n =>
      assert_ (ncopy + PFS_MAX_NAMELEN_OLD <=? PFS_MAX_NAMELEN);;
      de ← pfs_meta_get_direntry deno;
      if de_extdeno de =? INVALID_EXTDENO then mret (de_name de)
      else rest ← getname_loop n (de_extdeno de) (ncopy + PFS_MAX_NAMELEN_OLD); mret (de_name de ++ rest)
  end.
(** The buffer read as a string. *)
Definition pfs_direntry_getname (headde : Z) : D (list Z) :=
  buf ← getname_loop 5 headde 0; lift (cstr buf).

Definition has_extname : D unit := f ← lift (pfs_version_has_features mnt PFS_FEATURE_EXTNAME); assert_ f.

(** [pfs_direntry_init] and [pfs_direntry_fini] over a function that sets a
    name. *)
Definition direntry_init (setname : Z -> list Z -> D Z) (deno dirino deino : Z) (name : list Z) : D Z :=
  de ← pfs_meta_get_direntry deno;
  c ← lift (head (de_name de));
  assert_ (c =? 0);;
  assert_ (de_ino de =? INVALID_INO);;
  assert_ (de_dirino de =? INVALID_INO);;
  assert_ (de_extdeno de =? INVALID_EXTDENO);;
  upd_de deno (set_de_owner deino dirino);;
  setname deno name.
Definition direntry_fini (setname : Z -> list Z -> D Z) (deno : Z) : D unit :=
  err ← setname deno [];
  assert_ (err =? 0);;
  de ← pfs_meta_get_direntry deno;
  c ← lift (head (de_name de));
  assert_ (c =? 0);;
  assert_ (de_extdeno de =? INVALID_EXTDENO);;
  upd_de deno (set_de_owner INVALID_INO INVALID_INO).

(** What is stored through [pextdeno] comes with the error; nothing is, when
    no entry is free.  [n] bounds the depth of the recursion. *)
Definition store_ext (deno : Z) (r : Z * option Z) : D Z :=
  match snd r with Some e => upd_de deno (set_de_extdeno e) | None => mret tt end;; mret (fst r).

Fixpoint setname_ext (n : nat) (deno headdeno : Z) (newname : option (list Z)) {struct n} : D (Z * option Z) :=
  match n with
  | O => abort
  | S n =>
      if (deno =? INVALID_EXTDENO) && bool_decide (newname = None) then mret (0, Some INVALID_EXTDENO) else
      has_extname;;
      match newname with
      | Some newname =>
          if deno =? INVALID_EXTDENO then
            a ← pfs_meta_alloc_direntry;
            match a with
            | None => mret (- EPFS_FILE_2MANY, None)
            | Some de =>
                direntry_init (setname n) de INVALID_INO headdeno newname;;
                r ← setname_ext n INVALID_EXTDENO headdeno (extname_forward newname PFS_MAX_NAMELEN_OLD);
                err ← store_ext de r;
                mo ← de_mo de;
                mret (err, Some (mo_number mo))
            end
          else
            de ← pfs_meta_get_direntry deno;
            assert_ (DE_ISEXT de);;
            assert_ (de_ino de =? headdeno);;
            setname n deno newname;;
            de ← pfs_meta_get_direntry deno;
            r ← setname_ext n (de_extdeno de) headdeno (extname_forward newname PFS_MAX_NAMELEN_OLD);
            err ← store_ext deno r;
            mo ← de_mo deno;
            mret (err, Some (mo_number mo))
      | None =>
          de ← pfs_meta_get_direntry deno;
          assert_ (DE_ISEXT de);;
          assert_ (de_ino de =? headdeno);;
          r ← setname_ext n (de_extdeno de) headdeno None;
          err ← store_ext deno r;
          direntry_fini (setname n) deno;;
          pfs_meta_free_direntry deno;;
          mret (err, Some INVALID_EXTDENO)
      end
  end
with setname (n : nat) (deno : Z) (newname : list Z) {struct n} : D Z :=
  match n with
  | O => abort
  | S n =>
      upd_de deno (set_de_name (strncpy newname PFS_MAX_NAMELEN_OLD));;
      de ← pfs_meta_get_direntry deno;
      if DE_ISEXT de then has_extname;; mret 0 else
      assert_ (negb (bool_decide (newname = [46]) || bool_decide (newname = [46; 46])));;
      mo ← de_mo deno;
      r ← setname_ext n (de_extdeno de) (mo_number mo) (extname_forward newname PFS_MAX_NAMELEN_OLD);
      store_ext deno r
  end.

(** A chain of entries has no more links than there are entries, and a new
    one no more than the name has bytes. *)
Definition name_fuel (s : dstate C) (name : list Z) : nat := 4 + size (os_objs (ds_de s)) + length name.
Definition pfs_direntry_setname (deno : Z) (newname : list Z) : D Z :=
  n ← gets (fun s => name_fuel s newname); setname n deno newname.
Definition pfs_direntry_init (deno dirino deino : Z) (name : list Z) : D Z :=
  direntry_init pfs_direntry_setname deno dirino deino name.
Definition pfs_direntry_fini (deno : Z) : D unit := direntry_fini pfs_direntry_setname deno.

(** ** Inodes (pfs_inode.cc) *)
Definition pfs_inodephy_init (ino deno : Z) (isdir : bool) : D unit :=
  phyin ← pfs_meta_get_inode ino;
  assert_ (in_type phyin =? PFS_INODET_NONE);;
  assert_ (in_nlink phyin =? 0);;
  assert_ (in_deno phyin =? INVALID_DENO);;
  assert_ (in_pvtid phyin =? 0);;
  upd_in ino (fun i => INPHY_UPDATE_TIME (Z.lor IN_MTIME IN_CTIME)
    {| in_type := if isdir then PFS_INODET_DIR else PFS_INODET_FILE; in_flags := in_flags i; in_padding := in_padding i;
       in_pvtid := 0; in_deno := deno; in_nlink := 1; in_nblock := 0; in_size := 0; in_atime := 0; in_ctime := 0;
       in_mtime := 0; in_btime := gettimeofday_us |}).

Definition pfs_inodephy_fini (ino : Z) : D unit :=
  mo ← in_mo ino;
  assert_ (mo_head mo =? 0);;
  upd_in ino (fun i =>
    {| in_type := PFS_INODET_NONE; in_flags := 0; in_padding := in_padding i; in_pvtid := 0; in_deno := INVALID_DENO;
       in_nlink := 0; in_nblock := 0; in_size := 0; in_atime := 0; in_ctime := 0; in_mtime := 0; in_btime := in_btime i |}).

(** [pfs_inodephy_release] of a directory, which has no blocks; the inode in
    memory is marked stale by its callers' part of the model. *)
Definition pfs_inodephy_release_dir (ino btime : Z) : D Z :=
  phyin ← pfs_meta_get_inode ino;
  let err := pfs_inode_check_stale (Some phyin) None in
  if err <? 0 then mret err else
  if negb (btime =? in_btime phyin) then mret (- ENOENT) else
  assert_ (in_nlink phyin =? 0);;
  mo ← in_mo ino;
  assert_ ((in_type phyin =? PFS_INODET_FILE) || (mo_head mo =? 0));;
  assert_ (mo_head mo =? 0);;
  pfs_inodephy_fini ino;;
  pfs_meta_free_inode ino;;
  mret err.

(** ** Operations on directories *)
(** The name of a directory and its parent; the name is copied to a buffer of
    [len] bytes when there is one. *)
Definition pfs_dir_info (dirino : Z) (buf : option Z) : D (Z * Z * list Z) :=
  if dirino =? 0 then
    match buf with Some len => assert_ (len >? 0) | None => mret tt end;; mret (0, 0, [])
  else
    in_ ← pfs_meta_get_inode dirino;
    if negb (in_type in_ =? PFS_INODET_DIR) then mret (- ENOTDIR, dirino, []) else
    if in_deno in_ =? INVALID_DENO then mret (PFS_DE_UNLINKED, dirino, []) else
    mo ← de_mo (in_deno in_);
    de ← pfs_meta_get_direntry (in_deno in_);
    assert_ (mo_number mo =? in_deno in_);;
    assert_ (de_ino de =? dirino);;
    match buf with
    | Some len =>
        namebuf ← pfs_direntry_getname (in_deno in_);
        assert_ (len >? 0);;
        if strlen namebuf >=? len then mret (- ENAMETOOLONG, dirino, []) else mret (0, de_dirino de, namebuf)
    | None => mret (0, de_dirino de, [])
    end.

(** The checks that [dirino] is a directory. *)
Definition dir_check (dirino : Z) : D Z :=
  dirin ← pfs_meta_get_inode dirino;
  if in_type dirin =? PFS_INODET_NONE then mret (- ENOENT) else
  if negb (in_type dirin =? PFS_INODET_DIR) then mret (- ENOTDIR) else mret 0.

(** The inode and its birth time. *)
Definition pfs_dir_add (dirino : Z) (name : list Z) (isdir : bool) : D (Z * Z * Z) :=
  err ← dir_check dirino;
  if err <? 0 then mret (err, 0, 0) else
  de ← pfs_meta_alloc_direntry;
  dein ← pfs_meta_alloc_inode;
  match de, dein with
  | Some de, Some dein =>
      inmo ← in_mo dein;
      err ← pfs_direntry_init de dirino (mo_number inmo) name;
      if err <? 0 then mret (err, 0, 0) else
      demo ← de_mo de;
      pfs_inodephy_init dein (mo_number demo) isdir;;
      err ← pfs_meta_list_insert dirino de;
      if err <? 0 then mret (err, 0, 0) else
      upd_in dirino (fun i => set_in_size (wrap64 (in_size i + METAOBJ_SIZE)) i);;
      upd_in dirino (INPHY_UPDATE_TIME (Z.lor IN_MTIME IN_CTIME));;
      upd_in dein (INPHY_UPDATE_TIME (Z.lor IN_MTIME IN_CTIME));;
      upd_in dein (fun i =>
        {| in_type := in_type i; in_flags := in_flags i; in_padding := in_padding i; in_pvtid := in_pvtid i; in_deno := in_deno i;
           in_nlink := in_nlink i; in_nblock := in_nblock i; in_size := in_size i; in_atime := in_atime i;
           in_ctime := in_ctime i; in_mtime := in_mtime i; in_btime := gettimeofday_us |} : pfs_inode_phy);;
      mret (0, mo_number inmo, gettimeofday_us)
  | _, _ => mret (- EPFS_FILE_2MANY, 0, 0)
  end.

Definition pfs_dir_del (dirino ino : Z) (name : option (list Z)) (isdir : bool) : D Z :=
  err ← dir_check dirino;
  if err <? 0 then mret err else
  dein ← pfs_meta_get_inode ino;
  if in_type dein =? PFS_INODET_NONE then mret (- ENOENT) else
  deinmo ← in_mo ino;
  let err := if isdir then
               if negb (in_type dein =? PFS_INODET_DIR) then - ENOTDIR
               else if negb (mo_head deinmo =? 0) then - ENOTEMPTY else 0
             else if negb (in_type dein =? PFS_INODET_FILE) then - EISDIR else 0 in
  if err <? 0 then mret err else
  assert_ (negb (in_deno dein =? INVALID_DENO));;
  de ← pfs_meta_get_direntry (in_deno dein);
  if de_ino de =? INVALID_INO then mret (- ENOENT) else
  if (in_type dein =? PFS_INODET_DIR) && negb (mo_head deinmo =? 0) then mret (- ENOTEMPTY) else
  assert_ (de_ino de =? ino);;
  demo ← de_mo (in_deno dein);
  pfs_namecache_delete (mo_number demo);;
  err ← pfs_meta_list_delete dirino (in_deno dein);
  if err <? 0 then mret err else
  upd_in dirino (fun i => set_in_size (wrap64 (in_size i - METAOBJ_SIZE)) i);;
  match name with
  | Some name => nm ← pfs_direntry_getname (in_deno dein); assert_ (bool_decide (name = nm))
  | None => mret tt
  end;;
  pfs_direntry_fini (in_deno dein);;
  pfs_meta_free_direntry (in_deno dein);;
  upd_in ino (fun i => set_in_link INVALID_DENO (in_nlink i - 1) i);;
  dein ← pfs_meta_get_inode ino;
  assert_ (in_nlink dein =? 0);;
  mret 0.

Definition pfs_dir_move (odirino deno ndirino : Z) (newname : list Z) : D Z :=
  odirin ← pfs_meta_get_inode odirino;
  ndirin ← pfs_meta_get_inode ndirino;
  assert_ (in_type odirin =? PFS_INODET_DIR);;
  assert_ (in_type ndirin =? PFS_INODET_DIR);;
  de ← pfs_meta_get_direntry deno;
  if de_ino de =? INVALID_INO then mret (- ENOENT) else
  in_ ← pfs_meta_get_inode (de_ino de);
  demo ← de_mo deno;
  pfs_namecache_delete (mo_number demo);;
  err ← pfs_meta_list_delete odirino deno;
  if err <? 0 then mret err else
  upd_in odirino (fun i => set_in_size (wrap64 (in_size i - METAOBJ_SIZE)) i);;
  upd_in odirino (INPHY_UPDATE_TIME IN_MTIME);;
  err ← pfs_direntry_setname deno newname;
  if err <? 0 then mret err else
  err ← pfs_meta_list_insert ndirino deno;
  if err <? 0 then mret err else
  upd_in ndirino (fun i => set_in_size (wrap64 (in_size i + METAOBJ_SIZE)) i);;
  upd_in ndirino (INPHY_UPDATE_TIME IN_MTIME);;
  upd_de deno (fun de => set_de_owner (de_ino de) ndirino de);;
  upd_in (de_ino de) (INPHY_UPDATE_TIME IN_CTIME);;
  mret 0.

(** The way up from the new parent; [n] bounds the rounds.  The directory it
    ends at, or an error. *)
Fixpoint subdir_loop (n : nat) (dirino oino : Z) : D (Z * Z) :=
  if (dirino >? 0) && negb (dirino =? oino) then
    match n with
    | O => abort
    | S n =>
        r ← pfs_dir_info dirino None;
        let '(err, par, _) := r in
        if err <? 0 then mret (err, dirino) else
        assert_ (negb (err =? PFS_DE_UNLINKED));;
        subdir_loop n par oino
    end
  else mret (0, dirino).

Definition rename_check (oino ndirino : Z) : D Z :=
  oldin ← pfs_meta_get_inode oino;
  if in_type oldin =? PFS_INODET_DIR then
    n ← gets (fun s => size (os_objs (ds_in s)));
    r ← subdir_loop n ndirino oino;
    let '(err, dirino) := r in
    if err <? 0 then mret err else
    if dirino =? oino then mret (- EINVAL) else
    assert_ (dirino =? 0);; mret 0
  else mret 0.

Definition pfs_dir_rename (odirino oino ndirino nino : Z) (newname : list Z) : D Z :=
  err ← dir_check odirino;
  if err <? 0 then mret err else
  err ← dir_check ndirino;
  if err <? 0 then mret err else
  oldin ← pfs_meta_get_inode oino;
  newin ← (if negb (nino =? INVALID_INO) then i ← pfs_meta_get_inode nino; mret (Some i) else mret None);
  err ← rename_check oino ndirino;
  if err <? 0 then mret err else
  err ← match newin with
        | Some newin =>
            assert_ (negb (in_deno newin =? INVALID_DENO));;
            if in_type newin =? PFS_INODET_DIR then pfs_dir_del ndirino nino None true
            else if in_type newin =? PFS_INODET_FILE then pfs_dir_del ndirino nino None false
            else abort
        | None => mret 0
        end;
  if err <? 0 then mret err else
  assert_ ((oino >? 0) && negb (nino =? 0));;
  oldin ← pfs_meta_get_inode oino;
  assert_ (negb (in_deno oldin =? INVALID_DENO));;
  pfs_dir_move odirino (in_deno oldin) ndirino newname.

(** ** Reading a directory *)
Record pfs_dirstream := MkDs { d_ino : Z; d_deno_vect : list Z; d_deno_index : Z; d_deno_count : Z }.

Fixpoint dir_collect (n : nat) (deno : Z) : D (list Z) :=
  if deno =? 0 then mret [] else
  match n with
  | O => abort
  | S n => mo ← de_mo deno; rest ← dir_collect n (mo_next mo); mret (deno :: rest)
  end.

(** The vector has room for [d_deno_count] numbers, which the assertions of
    the loop and after it check. *)
Definition pfs_dir_open (ino : Z) : D pfs_dirstream :=
  in_ ← pfs_meta_get_inode ino;
  assert_ (in_size in_ mod METAOBJ_SIZE =? 0);;
  let count := in_size in_ / METAOBJ_SIZE + (if ino =? 0 then 2 else 0) in
  mo ← in_mo ino;
  vect ← dir_collect (Z.to_nat count) (mo_head mo);
  assert_ (Z.of_nat (length vect) =? count);;
  mret (MkDs ino vect 0 count).

(** The next entry that still belongs to the directory. *)
Fixpoint dir_read_loop (n : nat) (dir : pfs_dirstream) : D (Z * (Z * list Z) * pfs_dirstream) :=
  let dir' := MkDs (d_ino dir) (d_deno_vect dir) (d_deno_index dir + 1) (d_deno_count dir) in
  if d_deno_index dir >=? d_deno_count dir then mret (PFS_DIR_END, (0, []), dir')
  else
    match n with
    | O => abort
    | S n =>
        deno ← lift (d_deno_vect dir !! Z.to_nat (d_deno_index dir));
        de ← pfs_meta_get_direntry deno;
        if (de_ino de =? INVALID_INO) || negb (de_dirino de =? d_ino dir) then dir_read_loop n dir'
        else name ← pfs_direntry_getname deno; mret (0, (de_ino de, name), dir')
    end.
Definition pfs_dir_read (dir : pfs_dirstream) : D (Z * (Z * list Z) * pfs_dirstream) :=
  dir_read_loop (Z.to_nat (d_deno_count dir - d_deno_index dir)) dir.

(** ** Paths *)
(** The path of an entry of at most [len - 1] bytes, or an error. *)
Fixpoint dir_path_impl (n : nat) (deno len : Z) : D (Z + list Z) :=
  match n with
  | O => abort
  | S n =>
      if deno =? 0 then
        let path := SLASH :: mnt_pbdname in
        mret (if strlen path >=? len then inl (- ENAMETOOLONG) else inr path)
      else
        de ← pfs_meta_get_direntry deno;
        if de_ino de =? INVALID_INO then mret (inl (- ENOENT)) else
        namebuf ← pfs_direntry_getname deno;
        let namelen := 1 + strlen namebuf in
        if namelen >=? len then mret (inl (- ENAMETOOLONG)) else
        dirin ← pfs_meta_get_inode (de_dirino de);
        assert_ (negb (in_deno dirin =? INVALID_DENO));;
        r ← dir_path_impl n (in_deno dirin) (len - namelen);
        match r with
        | inl err => mret (inl err)
        | inr path => assert_ (namelen + strlen path <? len);; mret (inr (path ++ SLASH :: namebuf))
        end
  end.

Definition pfs_dir_path (ino len btime : Z) : D (Z * list Z) :=
  in_ ← pfs_meta_get_inode ino;
  if (in_type in_ =? PFS_INODET_NONE) || negb (in_btime in_ =? btime) then mret (- ENOENT, []) else
  if in_deno in_ =? INVALID_DENO then mret (PFS_DE_UNLINKED, []) else
  n ← gets (fun s => S (size (os_objs (ds_de s))));
  r ← dir_path_impl n (in_deno in_) len;
  match r with
  | inl err => mret (err, [])
  | inr path =>
      if ino =? 0 then
        if strlen path + 1 >=? len then mret (- ENAMETOOLONG, []) else mret (0, path ++ [SLASH])
      else mret (0, path)
  end.
End Dir.
