(* ===== verification/DirBase.v ===== *)
(** * Objects and lists of directories

    Rules for runs of directory code, the invariant of a set of objects with
    its allocation node, and the doubly linked list of directory entries as a
    sequence. *)

From S2P Require Import Prelude Alloc Object Blkio Blktable Inode Dir.

Open Scope pfs_scope.

(** ** Runs

    [m] runs from [s] to the end, and [Q] holds of its result and state. *)
Definition runs {S T : Type} (m : S -> option (T * S)) (s : S) (Q : T -> S -> Prop) : Prop :=
  exists x s', m s = Some (x, s') /\ Q x s'.

Lemma runs_mono {S T} (m : S -> option (T * S)) s (Q Q' : T -> S -> Prop) :
  runs m s Q -> (forall x s', Q x s' -> Q' x s') -> runs m s Q'.
Proof. intros (x & s' & H & HQ) HQ'. exists x, s'. auto. Qed.

Section Rules.
Context {C : Type}.
Implicit Types s : dstate C.

Lemma runs_ret {T} (x : T) s (Q : T -> dstate C -> Prop) : Q x s -> runs (mret x : dio C T) s Q.
Proof. intros. by exists x, s. Qed.
Lemma runs_bind {T U} (m : dio C T) (f : T -> dio C U) s Q : runs m s (fun x s' => runs (f x) s' Q) -> runs (m ≫= f) s Q.
Proof. intros (x & s1 & H1 & y & s2 & H2 & HQ). exists y, s2. split; [|done]. unfold mbind, dio_bind. by rewrite H1. Qed.
Lemma runs_bind_inv {T U} (m : dio C T) (f : T -> dio C U) s Q : runs (m ≫= f) s Q -> runs m s (fun x s' => runs (f x) s' Q).
Proof.
  intros (y & s2 & H2 & HQ). unfold mbind, dio_bind in H2. destruct (m s) as [[x s1]|] eqn:Hm; [|done]. exists x, s1. split; [done|]. by exists y, s2.
Qed.
Lemma runs_gets {T} (f : dstate C -> T) s (Q : T -> dstate C -> Prop) : Q (f s) s -> runs (gets f) s Q.
Proof. intros. by exists (f s), s. Qed.
Lemma runs_lift {T} (x : option T) v s (Q : T -> dstate C -> Prop) : x = Some v -> Q v s -> runs (lift x) s Q.
Proof. intros -> HQ. by exists v, s. Qed.
Lemma runs_assert b s (Q : unit -> dstate C -> Prop) : b = true -> Q tt s -> runs (assert_ b) s Q.
Proof. intros -> HQ. by exists tt, s. Qed.

Lemma runs_de_mo deno mo s Q : os_objs (ds_de s) !! deno = Some mo -> Q mo s -> runs (de_mo deno) s Q.
Proof. intros Hm HQ. apply runs_bind, runs_gets. by eapply runs_lift. Qed.
Lemma runs_in_mo ino mo s Q : os_objs (ds_in s) !! ino = Some mo -> Q mo s -> runs (in_mo ino) s Q.
Proof. intros Hm HQ. apply runs_bind, runs_gets. by eapply runs_lift. Qed.
Lemma runs_get_de deno mo de s Q : os_objs (ds_de s) !! deno = Some mo -> MO2DE mo = Some de -> Q de s ->
  runs (pfs_meta_get_direntry deno) s Q.
Proof. intros. apply runs_bind. eapply runs_de_mo; [done|]. by eapply runs_lift. Qed.
Lemma runs_get_in ino mo i s Q : os_objs (ds_in s) !! ino = Some mo -> MO2IN mo = Some i -> Q i s ->
  runs (pfs_meta_get_inode ino) s Q.
Proof. intros. apply runs_bind. eapply runs_in_mo; [done|]. by eapply runs_lift. Qed.
Lemma runs_upd_de_mo deno f mo M an sh os c (Q : unit -> dstate C -> Prop) : M !! deno = Some mo ->
  Q tt (MkD (MkSet (<[deno := f mo]> M) an sh) os c) -> runs (upd_de_mo deno f) (MkD (MkSet M an sh) os c) Q.
Proof. intros Hm HQ. apply runs_bind, runs_gets, runs_bind. eapply runs_lift; [done|]. by eexists _, _. Qed.
Lemma runs_upd_in_mo ino f mo I an sh os c (Q : unit -> dstate C -> Prop) : I !! ino = Some mo ->
  Q tt (MkD os (MkSet (<[ino := f mo]> I) an sh) c) -> runs (upd_in_mo ino f) (MkD os (MkSet I an sh) c) Q.
Proof. intros Hm HQ. apply runs_bind, runs_gets, runs_bind. eapply runs_lift; [done|]. by eexists _, _. Qed.
End Rules.

(** One step of a run whose result is known. *)
Ltac dstep := match goal with
  | |- runs (mret _) _ _ => apply runs_ret
  | |- runs (_ ≫= _) _ _ => apply runs_bind
  | |- runs (gets _) _ _ => apply runs_gets
  | |- runs (assert_ _) _ _ => apply runs_assert
  end; cbn beta.

(** ** Allocation nodes stay nodes *)
Lemma nfree_inc_children an val delta an' : pfs_anode_nfree_inc an val delta = Some an' -> an_children an' = an_children an.
Proof. unfold pfs_anode_nfree_inc. destruct an as [id sh na nf nx bm [|c cs]]; simpl; intros Heq; run_inv Heq; done. Qed.
Lemma set_child_children i c an : an_children (set_child i c an) = <[i := c]> (an_children an).
Proof. by destruct an. Qed.
Lemma insert_not_nil {A} i (x : A) l : l <> [] -> <[i := x]> l <> [].
Proof. by destruct l, i. Qed.

Lemma child_scan_node n an res i start an' val rv : an_children an <> [] ->
  child_scan n an res i start = Some (an', val, rv) -> an_children an' <> [] /\ (rv = 0 \/ rv = - ENOSPC).
Proof.
  revert an i. induction n as [|n IH]; intros an i Hn Heq; simpl in Heq; [done|].
  destruct (an_children an !! i) as [can|]; [|done]. destruct (an_nfree can >? 0).
  - destruct (res !! i) as [[[[can' v] rv']|]|]; try done. destruct (rv' =? 0).
    + destruct (pfs_anode_nfree_inc _ _ _) as [an1|] eqn:E; [|done]. injection Heq as <- _ <-.
      rewrite (nfree_inc_children _ _ _ _ E), set_child_children. split; [by apply insert_not_nil|by left].
    + destruct (_ =? start)%nat; [injection Heq as <- _ <-|].
      * rewrite set_child_children. split; [by apply insert_not_nil|by right].
      * eapply IH; [|done]. rewrite set_child_children. by apply insert_not_nil.
  - destruct (_ =? start)%nat; [injection Heq as <- _ <-; by auto|]. by eapply IH.
Qed.
Lemma alloc_node allocfunc an an' val rv : an_children an <> [] ->
  pfs_anode_alloc allocfunc an = Some (an', val, rv) -> an_children an' <> [] /\ (rv = 0 \/ rv = - ENOSPC).
Proof.
  destruct an as [id sh na nf nx bm cs]. simpl. intros Hn Heq. destruct cs as [|c cs]; [done|].
  destruct (max_child _ _ _ _); [|injection Heq as <- _ <-; by auto]. by eapply child_scan_node in Heq.
Qed.
Lemma free_node an val an' : an_children an <> [] -> pfs_anode_free an val = Some an' -> an_children an' <> [].
Proof.
  destruct an as [id sh na nf nx bm cs]. intros Hn Heq. cbn [pfs_anode_free] in Heq. simpl in Hn.
  destruct cs as [|c cs]; [done|]. destruct (child_index _ _); [|done]. destruct (_ !! _); [|done].
  destruct (map pfs_anode_free _ !! _) as [f|]; [|done]. destruct (f _); [|done]. apply nfree_inc_children in Heq. rewrite Heq.
  simpl. by apply insert_not_nil.
Qed.

(** ** Sets of objects

    [blank] is what the data of a free object is. *)
Section Objects.
Context (ty : Z) (blank : objdata -> Prop).

Record mo_ok (n : Z) (mo : pfs_metaobj_phy) : Prop := {
  mk_number : mo_number mo = n;
  mk_type : mo_type mo = ty;
  mk_used : mo_used mo = 0 \/ mo_used mo = 1;
  mk_blank : mo_used mo = 0 -> mo_next mo = 0 /\ mo_prev mo = 0 /\ blank (mo_data mo) }.

Record os_ok (os : objset) : Prop := {
  oo_an : anode_wf (os_anode os);
  oo_root : an_id (os_anode os) = 0;
  oo_node : an_children (os_anode os) <> [];
  oo_get : forall n, is_Some (os_objs os !! n) -> exists ckno oid, pfs_anode_get (os_anode os) n = Some (ckno, oid) /\
    MONO_MAKE (Z.shiftl ckno (os_shift os)) oid = n;
  oo_free : forall n, obj_free (os_anode os) n = true -> is_Some (os_objs os !! n);
  oo_obj : forall n mo, os_objs os !! n = Some mo ->
    obj_in (os_anode os) n /\ obj_free (os_anode os) n = (mo_used mo =? 0) /\ 0 <= n < 2 ^ 63 /\ mo_ok n mo }.

Lemma os_obj os n mo : os_ok os -> os_objs os !! n = Some mo -> mo_ok n mo.
Proof. intros Hos Hn. by destruct (oo_obj _ Hos n mo Hn) as (_ & _ & _ & ?). Qed.
Lemma os_range os n : os_ok os -> is_Some (os_objs os !! n) -> 0 <= n < 2 ^ 63.
Proof. intros Hos [mo Hn]. by destruct (oo_obj _ Hos n mo Hn) as (_ & _ & ? & _). Qed.

(** An object changes and its use with it. *)
Lemma os_ok_upd os n mo mo' an' : os_ok os -> os_objs os !! n = Some mo -> mo_ok n mo' ->
  anode_upd (os_anode os) an' n (mo_used mo' =? 0) -> an_children an' <> [] -> os_ok (MkSet (<[n := mo']> (os_objs os)) an' (os_shift os)).
Proof.
  intros Hos Hn Hmo Hu Hch. destruct (oo_obj _ Hos n mo Hn) as (Hin & Hfr & Hr & _).
  split; simpl; [apply Hu|by rewrite (u_id _ _ _ _ Hu), (oo_root _ Hos)|done|..].
  - intros k Hk. rewrite (u_get _ _ _ _ Hu). apply (oo_get _ Hos). apply lookup_insert_is_Some in Hk as [->|[_ Hk]]; [by eexists|done].
  - intros k. rewrite (u_free _ _ _ _ Hu). destruct (Z.eqb_spec k n) as [->|Hne]; [by rewrite lookup_insert_eq|].
    rewrite lookup_insert_ne by done. by apply (oo_free _ Hos).
  - intros k mo1 [[<- <-]|[Hne Hk]]%lookup_insert_Some.
    + split_and!; [by apply (u_in _ _ _ _ Hu)|by rewrite (u_free _ _ _ _ Hu), Z.eqb_refl|lia|lia|done].
    + destruct (oo_obj _ Hos k mo1 Hk) as (Hin' & Hfr' & Hr' & Hok'). split_and!; [by apply (u_in _ _ _ _ Hu)| |lia|lia|done].
      by rewrite (u_free _ _ _ _ Hu), (proj2 (Z.eqb_neq k n)) by done.
Qed.
Lemma anode_upd_refl an n : anode_wf an -> anode_upd an an n (obj_free an n).
Proof. intros Hw. split; try done; [lia|]. intros r. by destruct (Z.eqb_spec r n) as [->|]. Qed.
Lemma os_ok_set M an sh n mo mo' : os_ok (MkSet M an sh) -> M !! n = Some mo -> mo_ok n mo' -> mo_used mo' = mo_used mo ->
  os_ok (MkSet (<[n := mo']> M) an sh).
Proof.
  intros Hos Hn Hmo Hu. apply (os_ok_upd (MkSet M an sh) n mo); [done..| |].
  - destruct (oo_obj _ Hos n mo Hn) as (_ & Hfr & _). simpl in *. rewrite Hu, <- Hfr. apply anode_upd_refl, (oo_an _ Hos).
  - apply (oo_node _ Hos).
Qed.

(** Allocation finds a free object or there is none. *)
Lemma alloc_common_ok M an sh : os_ok (MkSet M an sh) ->
  exists r os', pfs_metaobj_alloc_common ty (MkSet M an sh) = Some (r, os') /\ os_ok os' /\ os_shift os' = sh /\
    match r with
    | Some n => exists mo, M !! n = Some mo /\ mo_used mo = 0 /\ os_objs os' = <[n := set_mo_used 1 mo]> M
    | None => os_objs os' = M /\ forall n mo, M !! n = Some mo -> mo_used mo = 1
    end.
Proof.
  intros Hos. unfold pfs_metaobj_alloc_common. simpl.
  destruct (alloc_ok (os_accepts (MkSet M an sh)) an (oo_an _ Hos)) as (an' & val & rv & Ha & Hcase).
  destruct (alloc_node _ _ _ _ _ (oo_node _ Hos) Ha) as [Hch Hrv0]. rewrite Ha.
  pose proof (oo_root _ Hos) as Hid. simpl in Hid.
  destruct Hcase as [(-> & rel & Hval & Hr & Hf & _ & Hu)|(Hrv & -> & Hno)].
  - rewrite Hid, Z.shiftl_0_l in Hval. unfold MONO_MAKE in Hval. rewrite Z.lor_0_l in Hval. subst rel. simpl.
    destruct (oo_free _ Hos val Hf) as [mo Hmo]. simpl in Hmo. rewrite Hmo.
    destruct (oo_obj _ Hos val mo Hmo) as (_ & Hfr & _ & Hok). simpl in Hfr. rewrite Hf in Hfr. symmetry in Hfr. bool_prop.
    destruct (mk_blank _ _ Hok Hfr) as (Hn & Hp & Hb). unfold pfs_metaobj_init. rewrite (mk_type _ _ Hok), Hp, Hn, Hfr, !Z.eqb_refl.
    eexists _, _. split; [done|]. split_and!; [|done|by exists mo].
    apply (os_ok_upd (MkSet M an sh) val mo); [done..| | |].
    + destruct Hok. split; simpl; [done|done|by right|lia].
    + done.
    + done.
  - destruct Hrv0 as [->| ->]; [lia|]. rewrite Z.eqb_refl. eexists None, _. split; [done|]. split; [done|].
    split; [done|]. split; [done|]. intros n mo Hn. destruct (oo_obj _ Hos n mo Hn) as (_ & Hfr & _ & Hok). simpl in Hfr.
    destruct (mk_used _ _ Hok) as [Hu|Hu]; [|done]. rewrite Hu in Hfr. specialize (Hno n Hfr).
    destruct (oo_get _ Hos n) as (ckno & oid & Hg & Hmk); [by eexists|]. simpl in Hg, Hmk. unfold accepts in Hno. rewrite Hg in Hno.
    unfold os_accepts in Hno. simpl in Hno. by rewrite Hmk, Hn, Hu in Hno.
Qed.

(** The object that is given back is blank again. *)
Lemma free_common_ok M an sh n mo : os_ok (MkSet M an sh) -> M !! n = Some mo -> mo_used mo = 1 ->
  mo_next mo = 0 -> mo_prev mo = 0 -> blank (mo_data mo) ->
  exists an', pfs_metaobj_free_common ty n (MkSet M an sh) = Some (MkSet (<[n := set_mo_used 0 mo]> M) an' sh) /\
    os_ok (MkSet (<[n := set_mo_used 0 mo]> M) an' sh).
Proof.
  intros Hos Hn Hu Hnx Hpv Hb. unfold pfs_metaobj_free_common. simpl. rewrite Hn. pose proof (os_obj _ _ _ Hos Hn) as Hok.
  unfold pfs_metaobj_fini. rewrite (mk_type _ _ Hok), Hpv, Hnx, Hu, !Z.eqb_refl. simpl. rewrite (mk_number _ _ Hok).
  destruct (oo_obj _ Hos n mo Hn) as (Hin & Hfr & _). simpl in *. rewrite Hu in Hfr.
  destruct (free_ok an n (oo_an _ Hos) Hin Hfr) as (an' & Hf & Hupd). rewrite Hf. exists an'. split; [done|].
  apply (os_ok_upd (MkSet M an sh) n mo); [done|done| |done|by eapply free_node; [apply (oo_node _ Hos)|]].
  destruct Hok. split; simpl; [done|done|by left|done].
Qed.
End Objects.

(** ** The list of a directory

    [lnk M k n p]: the links of the entry [k]; [seg M pv l nx]: the entries
    [l] follow each other, between [pv] and [nx]. *)
Abbreviation objs := (gmap Z pfs_metaobj_phy).
Definition lnk (M : objs) (k n p : Z) : Prop := exists mo, M !! k = Some mo /\ mo_next mo = n /\ mo_prev mo = p.
Fixpoint seg (M : objs) (pv : Z) (l : list Z) (nx : Z) : Prop :=
  match l with [] => True | k :: l' => lnk M k (default nx (head l')) pv /\ seg M k l' nx end.
Definition first (l : list Z) : Z := default 0 (head l).
Definition final (l : list Z) : Z := default 0 (last l).

Lemma lnk_ne M j k mo n p : j <> k -> lnk (<[k := mo]> M) j n p <-> lnk M j n p.
Proof. intros Hne. unfold lnk. by rewrite lookup_insert_ne. Qed.
Lemma lnk_eq M k mo : lnk (<[k := mo]> M) k (mo_next mo) (mo_prev mo).
Proof. exists mo. by rewrite lookup_insert_eq. Qed.
Lemma seg_frame M M' pv l nx : (forall k, k ∈ l -> M' !! k = M !! k) -> seg M pv l nx -> seg M' pv l nx.
Proof.
  revert pv. induction l as [|k l IH]; intros pv Hk Hs; [done|]. destruct Hs as [Hl Hs]. split.
  - unfold lnk in *. rewrite Hk; [done|left].
  - apply IH; [|done]. intros j Hj. apply Hk. by right.
Qed.
Lemma seg_app M pv l1 l2 nx :
  seg M pv (l1 ++ l2) nx <-> seg M pv l1 (default nx (head l2)) /\ seg M (default pv (last l1)) l2 nx.
Proof.
  revert pv. induction l1 as [|k l1 IH]; intros pv; simpl; [tauto|]. rewrite IH.
  replace (default nx (head (l1 ++ l2))) with (default (default nx (head l2)) (head l1)) by (by destruct l1).
  replace (default pv (last (k :: l1))) with (default k (last l1)); [tauto|]. rewrite last_cons. by destruct (last l1).
Qed.
Lemma seg_notin M pv l nx k mo : k ∉ l -> seg (<[k := mo]> M) pv l nx <-> seg M pv l nx.
Proof.
  intros Hk. split; apply seg_frame; intros j Hj; rewrite lookup_insert_ne; congruence.
Qed.
Lemma seg_set_last M pv l p mo nx nx' : seg M pv (l ++ [p]) nx -> p ∉ l -> M !! p = Some mo ->
  seg (<[p := set_mo_next nx' mo]> M) pv (l ++ [p]) nx'.
Proof.
  intros Hs Hp Hm. apply seg_app in Hs as [Hs1 [(mo' & Hm' & _ & Hpv) _]]. apply seg_app. split; [by apply seg_notin|].
  simplify_eq. split; [|done]. exists (set_mo_next nx' mo'). by rewrite lookup_insert_eq.
Qed.
Lemma seg_set_first M pv pv' n l mo nx : seg M pv (n :: l) nx -> n ∉ l -> M !! n = Some mo ->
  seg (<[n := set_mo_prev pv' mo]> M) pv' (n :: l) nx.
Proof.
  intros [(mo' & Hm' & Hnx & _) Hs] Hn Hm. simplify_eq. split; [|by apply seg_notin]. exists (set_mo_prev pv' mo'). by rewrite lookup_insert_eq.
Qed.

(** The objects with other links. *)
Definition same_obj (mo mo' : pfs_metaobj_phy) : Prop :=
  mo_number mo' = mo_number mo /\ mo_type mo' = mo_type mo /\ mo_used mo' = mo_used mo /\ mo_data mo' = mo_data mo.
Definition relinked (L : list Z) (M M' : objs) : Prop :=
  forall k, if bool_decide (k ∈ L) then (match M !! k, M' !! k with Some mo, Some mo' => same_obj mo mo' | None, None => True | _, _ => False end)
            else M' !! k = M !! k.
Lemma relinked_refl L M : relinked L M M.
Proof. intros k. case_bool_decide; [|done]. by destruct (M !! k). Qed.
Lemma relinked_set L M k mo mo' : k ∈ L -> M !! k = Some mo -> same_obj mo mo' -> relinked L M (<[k := mo']> M).
Proof.
  intros Hk Hm Hs j. destruct (decide (j = k)) as [->|Hne].
  - rewrite bool_decide_true by done. by rewrite Hm, lookup_insert_eq.
  - rewrite lookup_insert_ne by done. apply (relinked_refl L M j).
Qed.
Lemma relinked_trans L M M' M'' : relinked L M M' -> relinked L M' M'' -> relinked L M M''.
Proof.
  intros H1 H2 k. specialize (H1 k). specialize (H2 k). case_bool_decide; [|congruence].
  destruct (M !! k), (M' !! k), (M'' !! k); try done. unfold same_obj in *. naive_solver congruence.
Qed.
Lemma relinked_lookup L M M' k mo : relinked L M M' -> M !! k = Some mo -> exists mo', M' !! k = Some mo' /\ same_obj mo mo'.
Proof.
  intros Hr Hm. specialize (Hr k). rewrite Hm in Hr. case_bool_decide; [|by exists mo; rewrite Hr].
  destruct (M' !! k) as [mo'|]; [by exists mo'|done].
Qed.
Lemma relinked_sym L M M' : relinked L M M' -> relinked L M' M.
Proof.
  intros Hr k. specialize (Hr k). case_bool_decide; [|done]. destruct (M !! k), (M' !! k); try done.
  unfold same_obj in *. naive_solver congruence.
Qed.

(** Links of entries in use do not matter to the set. *)
Lemma relinked_os ty blank L M M' an sh : os_ok ty blank (MkSet M an sh) -> relinked L M M' ->
  (forall k mo, k ∈ L -> M !! k = Some mo -> mo_used mo = 1) -> os_ok ty blank (MkSet M' an sh).
Proof.
  intros Hos Hr Hu.
  assert (Hd : forall k, is_Some (M' !! k) <-> is_Some (M !! k)).
  { intros k. split; intros [mo Hm]; [apply relinked_sym in Hr|];
      destruct (relinked_lookup _ _ _ _ _ Hr Hm) as (mo' & -> & _); by eexists. }
  split; try apply Hos; simpl.
  - intros n Hn. apply (oo_get _ _ _ Hos). by apply Hd.
  - intros n Hn. apply Hd. by apply (oo_free _ _ _ Hos).
  - intros n mo' Hn. pose proof Hr as Hr'. apply relinked_sym in Hr'. destruct (relinked_lookup _ _ _ _ _ Hr' Hn) as (mo & Hm & Hs).
    destruct (oo_obj _ _ _ Hos n mo Hm) as (Hin & Hfr & Hrg & Hok). simpl in *. destruct Hs as (Hs1 & Hs2 & Hs3 & Hs4).
    rewrite Hs3 in Hfr. split_and!; [done|done|lia|lia|]. destruct Hok as [? ? Hu' Hb]. split; [congruence|congruence| |].
    + by rewrite <- Hs3.
    + intros H0. specialize (Hr n). rewrite Hm, Hn in Hr. case_bool_decide as Hin'.
      * specialize (Hu n mo Hin' Hm). congruence.
      * simplify_eq. by apply Hb.
Qed.

(** *** Insertion and removal *)
Definition numbered (M : objs) : Prop := forall k mo, M !! k = Some mo -> mo_number mo = k.
Lemma os_numbered ty blank os : os_ok ty blank os -> numbered (os_objs os).
Proof. intros Hos k mo Hk. apply (mk_number _ _ _ _ (os_obj _ _ _ _ _ Hos Hk)). Qed.

Lemma same_next v mo : same_obj mo (set_mo_next v mo).
Proof. done. Qed.
Lemma same_prev v mo : same_obj mo (set_mo_prev v mo).
Proof. done. Qed.

(** The head of the list, an inode, has this first and this last entry. *)
Definition relist (l : list Z) (I : objs) (d : Z) (I' : objs) : Prop :=
  exists mo mo', I !! d = Some mo /\ I' = <[d := mo']> I /\ same_obj mo mo' /\ mo_next mo' = first l /\ mo_prev mo' = final l.

Section List.
Context {C : Type} `{NCacheOps C}.
Context (an ian : anode) (sh ish : Z) (c : C).
Abbreviation st M I := (MkD (MkSet M an sh) (MkSet I ian ish) c).

Lemma list_insert_ok M I d k l hmo (Q : Z -> dstate C -> Prop) :
  numbered M -> I !! d = Some hmo -> mo_type hmo = MT_INODE -> mo_next hmo = first l -> mo_prev hmo = final l ->
  seg M 0 l 0 -> lnk M k 0 0 -> k ∉ l -> 0 ∉ l -> NoDup l ->
  (forall M' I', relinked (k :: l) M M' -> seg M' 0 (l ++ [k]) 0 -> relist (l ++ [k]) I d I' -> Q 0 (st M' I')) ->
  runs (pfs_meta_list_insert d k) (st M I) Q.
Proof.
  intros Hnum Hh Hty Hnx Hpv Hs (kmo & Hk & Hkn & Hkp) Hkl H0 Hnd HQ. unfold pfs_meta_list_insert.
  dstep. eapply runs_in_mo; [done|]. dstep. dstep; [by apply Z.eqb_eq|]. dstep. eapply runs_de_mo; [done|].
  rewrite (Hnum _ _ Hk). dstep. unfold mo_head, mo_tail. rewrite Hnx.
  destruct l as [|p l _] using rev_ind.
  - simpl. eapply runs_upd_in_mo; [done|]. dstep. eapply runs_upd_in_mo; [apply lookup_insert_eq|]. dstep.
    rewrite insert_insert_eq. apply HQ.
    + apply relinked_refl.
    + simpl. split; [by exists kmo|done].
    + eexists hmo, _. split_and!; [done|done|done|done|done].
  - assert (Hf : (first (l ++ [p]) =? 0) = false).
    { apply Z.eqb_neq. intros Hf. apply H0. rewrite <- Hf. unfold first. destruct l as [|q l]; simpl; left. }
    rewrite Hf, Hpv. unfold final. rewrite last_snoc. simpl.
    destruct (proj1 (seg_app _ _ _ _ _) Hs) as [_ [(pmo & Hp & Hpn & Hpp) _]].
    assert (Hpl : (p ∉ l) /\ p <> k). { split; [|set_solver]. apply NoDup_app in Hnd as (_ & Hnd & _). intros Hpl. apply (Hnd p Hpl). left. }
    destruct Hpl as [Hpl Hpk]. dstep. eapply runs_de_mo; [done|]. rewrite (Hnum _ _ Hp). dstep. eapply runs_upd_de_mo; [done|].
    eapply runs_upd_de_mo; [by rewrite lookup_insert_ne|]. dstep. eapply runs_upd_in_mo; [done|]. dstep. apply HQ.
    + eapply relinked_trans.
      * eapply relinked_set; [left|done|apply (same_prev p)].
      * eapply relinked_set; [set_solver|by rewrite lookup_insert_ne|apply (same_next k)].
    + apply seg_app. rewrite last_snoc. simpl. split.
      * eapply seg_set_last; [|done|by rewrite lookup_insert_ne]. by apply seg_notin.
      * split; [|done]. apply lnk_ne; [done|]. rewrite <- Hkn. apply (lnk_eq M k (set_mo_prev p kmo)).
    + eexists hmo, _. split_and!; [done|done|done| |].
      * simpl. rewrite Hnx. unfold first. by destruct l.
      * simpl. unfold final. by rewrite last_snoc.
Qed.

Lemma list_delete_ok M I d k l1 l2 hmo (Q : Z -> dstate C -> Prop) :
  let l := l1 ++ k :: l2 in
  numbered M -> I !! d = Some hmo -> mo_type hmo = MT_INODE -> mo_next hmo = first l -> mo_prev hmo = final l ->
  seg M 0 l 0 -> 0 ∉ l -> NoDup l ->
  (forall M' I', relinked l M M' -> seg M' 0 (l1 ++ l2) 0 -> lnk M' k 0 0 -> relist (l1 ++ l2) I d I' -> Q 0 (st M' I')) ->
  runs (pfs_meta_list_delete d k) (st M I) Q.
Proof.
  intros l Hnum Hh Hty Hnx Hpv Hs H0 Hnd HQ. unfold pfs_meta_list_delete.
  destruct (proj1 (seg_app _ _ _ _ _) Hs) as [Hs1 [(kmo & Hk & Hkn & Hkp) Hs2]].
  assert (Hd : (k ∉ l1) /\ (k ∉ l2) /\ (forall x, x ∈ l1 -> x ∉ l2) /\ NoDup l1 /\ NoDup l2).
  { apply NoDup_app in Hnd as (Hn1 & Hd & Hn2). apply NoDup_cons in Hn2 as [Hk2 Hn2]. split_and!; try done; set_solver. }
  destruct Hd as (Hk1 & Hk2 & Hd12 & Hn1 & Hn2).
  dstep. eapply runs_in_mo; [done|]. dstep. dstep; [by apply Z.eqb_eq|]. dstep. eapply runs_de_mo; [done|]. dstep.
  (* the entry before, or the head *)
  assert (Hstep1 : exists M1 I1 hmo1, I1 !! d = Some hmo1 /\ same_obj hmo hmo1 /\ I1 = <[d := hmo1]> I /\
      mo_next hmo1 = first (l1 ++ l2) /\ mo_prev hmo1 = final l /\
      M1 !! k = Some kmo /\ relinked l M M1 /\ seg M1 0 l1 (first l2) /\ seg M1 k l2 0 /\
      forall Q', Q' tt (st M1 I1) -> runs (if negb (mo_prev kmo =? 0) then upd_de_mo (mo_prev kmo) (set_mo_next (mo_next kmo))
         else upd_in_mo d (set_mo_next (mo_next kmo))) (st M I) Q').
  { rewrite Hkp, Hkn. destruct l1 as [|p l1 _] using rev_ind.
    - simpl in *. eexists M, _, (set_mo_next (first l2) hmo). split_and!; [apply lookup_insert_eq|done..| |done| | ].
      + apply relinked_refl.
      + done.
      + intros Q' HQ'. eapply runs_upd_in_mo; [done|]. unfold first in HQ'. by destruct (head l2).
    - rewrite last_snoc. simpl. assert (Hp0 : p <> 0) by (intros ->; apply H0; set_solver). rewrite (proj2 (Z.eqb_neq p 0)) by done.
      destruct (proj1 (seg_app _ _ _ _ _) Hs1) as [_ [(pmo & Hp & _) _]].
      assert (Hpl : (p ∉ l1) /\ p <> k). { split; [|set_solver]. apply NoDup_app in Hn1 as (_ & Hn1 & _). intros Hpl. apply (Hn1 p Hpl). left. }
      exists (<[p := set_mo_next (first l2) pmo]> M), I, hmo. split_and!; [done|done|by rewrite insert_id| |done| | | | | ].
      + rewrite Hnx. unfold l, first. by destruct l1.
      + by rewrite lookup_insert_ne by naive_solver.
      + eapply relinked_set; [set_solver|done|apply (same_next (first l2))].
      + eapply seg_set_last; [done|naive_solver|done].
      + apply seg_notin; [|done]. apply Hd12. set_solver.
      + intros Q' HQ'. simpl. eapply runs_upd_de_mo; [done|]. unfold first in HQ'. by destruct (head l2). }
  destruct Hstep1 as (M1 & I1 & hmo1 & Hh1 & Hsame1 & HI1 & Hnx1 & Hpv1 & Hk1' & Hr1 & Hs1' & Hs2' & Hrun1). apply Hrun1.
  dstep. eapply runs_de_mo; [done|]. dstep.
  (* the entry behind, or the tail *)
  assert (Hstep2 : exists M2 hmo2, same_obj hmo hmo2 /\ mo_next hmo2 = first (l1 ++ l2) /\ mo_prev hmo2 = final (l1 ++ l2) /\
      M2 !! k = Some kmo /\ relinked l M M2 /\ seg M2 0 (l1 ++ l2) 0 /\
      forall Q', Q' tt (st M2 (<[d := hmo2]> I)) -> runs (if negb (mo_next kmo =? 0) then upd_de_mo (mo_next kmo) (set_mo_prev (mo_prev kmo))
         else upd_in_mo d (set_mo_prev (mo_prev kmo))) (st M1 I1) Q').
  { rewrite Hkp, Hkn. destruct l2 as [|n l2].
    - simpl in *. rewrite app_nil_r in *. eexists M1, (set_mo_prev (default 0 (last l1)) hmo1).
      split_and!; [exact Hsame1|done|done|done|done|done|].
      intros Q' HQ'. eapply runs_upd_in_mo; [done|]. rewrite HI1, insert_insert_eq. exact HQ'.
    - simpl. assert (Hn0 : n <> 0) by (intros ->; apply H0; set_solver). rewrite (proj2 (Z.eqb_neq n 0)) by done.
      destruct Hs2' as [(nmo & Hn & Hnn & Hnp) Hs2'']. apply NoDup_cons in Hn2 as [Hnl Hn2].
      exists (<[n := set_mo_prev (default 0 (last l1)) nmo]> M1), hmo1. split_and!; [done|done| | | | |].
      + rewrite Hpv1. unfold l, final. rewrite !last_app, !last_cons. by destruct (last l2).
      + rewrite lookup_insert_ne by set_solver. done.
      + eapply relinked_trans; [done|]. eapply relinked_set; [set_solver|done|apply (same_prev (default 0 (last l1)))].
      + apply seg_app. split; [apply seg_notin; [set_solver|done]|]. eapply seg_set_first; [|done|done]. split; [by exists nmo|done].
      + intros Q' HQ'. simpl. eapply runs_upd_de_mo; [done|]. rewrite HI1. exact HQ'. }
  destruct Hstep2 as (M2 & hmo2 & Hsame2 & Hnx2 & Hpv2 & Hk2' & Hr2 & Hs2b & Hrun2). apply Hrun2.
  dstep. eapply runs_upd_de_mo; [done|]. dstep. eapply runs_upd_de_mo; [apply lookup_insert_eq|]. dstep.
  rewrite insert_insert_eq. apply HQ.
  - eapply relinked_trans; [done|]. eapply relinked_set; [set_solver|done|]. done.
  - apply seg_notin; [set_solver|done].
  - exists (set_mo_next 0 (set_mo_prev 0 kmo)). by rewrite lookup_insert_eq.
  - by exists hmo, hmo2.
Qed.
End List.
