(* ===== verification/DirName.v ===== *)
(** * Names of directory entries

    A name is spread over a head entry and a chain of extension entries.
    Setting a name reuses, extends or cuts the chain and leaves every other
    entry alone; reading it back gives the name. *)

From S2P Require Import Prelude Alloc Object Blkio Blktable Inode Dir DirBase.

Open Scope pfs_scope.

(** ** Entries *)
Definition mkde (name : list Z) (ino dirino ext : Z) : pfs_direntry_phy :=
  {| de_name := name; de_ino := ino; de_dirino := dirino; de_extdeno := ext |}.
Definition no_name : list Z := replicate 64 0.
Definition blank_de (d : objdata) : Prop := d = DDirentry (mkde no_name INVALID_INO INVALID_INO INVALID_EXTDENO).
Abbreviation de_ok := (os_ok MT_DIRENTRY blank_de).

Definition forward (name : list Z) : option (list Z) := extname_forward name PFS_MAX_NAMELEN_OLD.
Definition piece (name : list Z) : list Z := strncpy name PFS_MAX_NAMELEN_OLD.

(** An extension entry of the head [hd]. *)
Definition ext_mo (hd : Z) (nm : list Z) (x : Z) (mo : pfs_metaobj_phy) : Prop :=
  mo_used mo = 1 /\ mo_next mo = 0 /\ mo_prev mo = 0 /\ mo_data mo = DDirentry (mkde (piece nm) hd INVALID_INO x).
Inductive ext_chain (M : objs) (hd : Z) : Z -> option (list Z) -> list Z -> Prop :=
| ec_nil : ext_chain M hd 0 None []
| ec_cons e nm xs mo x : e <> 0 -> M !! e = Some mo -> ext_mo hd nm x mo ->
    ext_chain M hd x (forward nm) xs -> ext_chain M hd e (Some nm) (e :: xs).

Lemma ext_frame M M' hd e r xs : ext_chain M hd e r xs -> (forall k, k ∈ xs -> M' !! k = M !! k) -> ext_chain M' hd e r xs.
Proof.
  induction 1 as [|e nm xs mo x Hne Hm Hx _ IH]; intros Hf; [constructor|].
  eapply ec_cons; [done|rewrite Hf; [done|left]|done|]. apply IH. intros k Hk. apply Hf. by right.
Qed.
Lemma ext_unique M hd e r xs r' xs' : ext_chain M hd e r xs -> ext_chain M hd e r' xs' -> xs = xs'.
Proof.
  intros H. revert r' xs'. induction H as [|e nm xs mo x Hne Hm Hx _ IH]; intros r' xs' H';
    inversion H' as [|? nm' xs1 mo' x' ? Hm' Hx' Hc']; subst; try done.
  f_equal. assert (mo' = mo) as -> by congruence. destruct Hx as (_ & _ & _ & Hx), Hx' as (_ & _ & _ & Hx').
  assert (x' = x) as -> by (rewrite Hx in Hx'; by injection Hx'). by eapply IH.
Qed.
Lemma ext_tail M hd e r xs k : ext_chain M hd e r xs -> k ∈ xs -> exists nm l, ext_chain M hd k (Some nm) (k :: l) /\ (length (k :: l) <= length xs)%nat.
Proof.
  induction 1 as [|e nm xs mo x Hne Hm Hx Hc IH]; intros Hk; [by apply elem_of_nil in Hk|].
  apply elem_of_cons in Hk as [->|Hk]; [exists nm, xs; split; [by eapply ec_cons|done]|].
  destruct (IH Hk) as (nm' & l & ? & ?). exists nm', l. split; [done|simpl in *; lia].
Qed.
Lemma ext_nodup M hd e r xs : ext_chain M hd e r xs -> NoDup xs.
Proof.
  induction 1 as [|e nm xs mo x Hne Hm Hx Hc IH]; [constructor|]. apply NoDup_cons. split; [|done].
  intros He. destruct (ext_tail _ _ _ _ _ _ Hc He) as (nm' & l & Hc' & Hl).
  assert (Heq : e :: xs = e :: l) by (eapply ext_unique; [by eapply ec_cons|done]). injection Heq as ->. simpl in Hl. lia.
Qed.
Lemma ext_mem M hd e r xs k : ext_chain M hd e r xs -> k ∈ xs ->
  k <> 0 /\ exists mo nm x, M !! k = Some mo /\ ext_mo hd nm x mo.
Proof.
  induction 1 as [|e nm xs mo x Hne Hm Hx Hc IH]; intros Hk; [by apply elem_of_nil in Hk|].
  apply elem_of_cons in Hk as [->|Hk]; [|auto]. split; [done|]. by exists mo, nm, x.
Qed.
Lemma ext_null M hd e xs : ext_chain M hd e None xs -> e = 0 /\ xs = [].
Proof. by inversion 1. Qed.
Lemma ext_zero M hd r xs : ext_chain M hd 0 r xs -> r = None /\ xs = [].
Proof. by inversion 1. Qed.

(** ** Pieces of a name *)
Lemma length_piece nm : length (piece nm) = 64%nat.
Proof. unfold piece, strncpy. rewrite length_take, length_app, length_replicate. change (Z.to_nat PFS_MAX_NAMELEN_OLD) with 64%nat. lia. Qed.
Lemma piece_nil : piece [] = no_name.
Proof. done. Qed.
Lemma forward_cases nm : (length nm < 64)%nat /\ forward nm = None \/ (64 <= length nm)%nat /\ forward nm = Some (drop 64 nm).
Proof.
  unfold forward, extname_forward, strlen, PFS_MAX_NAMELEN_OLD. destruct (_ <=? 64) eqn:Hl; bool_prop; [left|right]; (split; [lia|done]).
Qed.

(** ** Setting a name *)
Section SetName.
Context {C : Type} `{NCacheOps C} (mnt : pfs_mount) (sh : Z) (ios : objset) (c : C).
Abbreviation st M an := (MkD (MkSet M an sh) ios c).
Implicit Types Q : Z -> dstate C -> Prop.

Lemma runs_upd_de k f mo de M an (Q : unit -> dstate C -> Prop) : M !! k = Some mo -> mo_data mo = DDirentry de ->
  Q tt (st (<[k := set_mo_data (DDirentry (f de)) mo]> M) an) -> runs (upd_de k f) (st M an) Q.
Proof. intros Hm Hd HQ. eapply runs_upd_de_mo; [done|]. unfold on_de. by rewrite Hd. Qed.
Lemma runs_get_dir k mo de M an (Q : pfs_direntry_phy -> dstate C -> Prop) : M !! k = Some mo -> mo_data mo = DDirentry de ->
  Q de (st M an) -> runs (pfs_meta_get_direntry k) (st M an) Q.
Proof. intros Hm Hd HQ. eapply runs_get_de; [done| |done]. unfold MO2DE. by rewrite Hd. Qed.

Definition extname : Prop := pfs_version_has_features mnt PFS_FEATURE_EXTNAME = Some true.
Lemma runs_extname (s : dstate C) (Q : unit -> dstate C -> Prop) : extname -> Q tt s -> runs (has_extname mnt) s Q.
Proof. intros Hf HQ. apply runs_bind. eapply runs_lift; [done|]. by apply runs_assert. Qed.

(** The name of an extension entry. *)
Lemma setname_ext_entry n k mo hd nm x newname M an (Q : Z -> dstate C -> Prop) :
  M !! k = Some mo -> mo_data mo = DDirentry (mkde nm hd INVALID_INO x) -> hd <> INVALID_INO -> extname ->
  Q 0 (st (<[k := set_mo_data (DDirentry (mkde (piece newname) hd INVALID_INO x)) mo]> M) an) ->
  runs (setname mnt (S n) k newname) (st M an) Q.
Proof.
  intros Hm Hd Hhd Hf HQ. simpl. dstep. eapply runs_upd_de; [done..|]. dstep.
  eapply runs_get_dir; [apply lookup_insert_eq|done|]. unfold DE_ISEXT. simpl.
  rewrite (proj2 (Z.eqb_neq hd INVALID_INO)) by done. simpl. dstep. apply runs_extname; [done|]. by dstep.
Qed.

(** How the set of entries changes when the chain [xs] becomes [xs']. *)
Record rechained (xs xs' : list Z) (M M' : objs) : Prop := {
  rc_dom : forall k, is_Some (M' !! k) <-> is_Some (M !! k);
  rc_frame : forall k, k ∉ xs -> k ∉ xs' -> M' !! k = M !! k;
  rc_new : forall k, k ∈ xs' -> k ∉ xs -> exists mo, M !! k = Some mo /\ mo_used mo = 0;
  rc_old : forall k, k ∈ xs -> k ∉ xs' -> exists mo, M' !! k = Some mo /\ mo_used mo = 0 }.

Lemma dom_insert (M : objs) k mo mo' j : M !! k = Some mo -> is_Some (<[k := mo']> M !! j) <-> is_Some (M !! j).
Proof. intros Hk. rewrite lookup_insert_is_Some'. destruct (decide (j = k)) as [->|]; [rewrite Hk|]; naive_solver. Qed.

(** The entry 0 is in use: it ends the chains. *)
Definition sentinel (M : objs) : Prop := exists mo, M !! 0 = Some mo /\ mo_used mo = 1.

Lemma de_ok_set M an n mo mo' : de_ok (MkSet M an sh) -> M !! n = Some mo -> same_obj (set_mo_data (mo_data mo') mo) mo' -> mo_used mo = 1 ->
  de_ok (MkSet (<[n := mo']> M) an sh).
Proof.
  intros Hos Hn (H1 & H2 & H3 & _) Hu. simpl in *. destruct (os_obj _ _ _ _ _ Hos Hn). eapply os_ok_set; [done|done| |done].
  split; [congruence|congruence|right; congruence|]. intros Hz. congruence.
Qed.

(** A new extension entry. *)
Lemma new_ext_entry n hd nm M an de mo (Q : Z -> dstate C -> Prop) :
  M !! de = Some mo -> blank_de (mo_data mo) -> hd <> INVALID_INO -> extname ->
  Q 0 (st (<[de := set_mo_data (DDirentry (mkde (piece nm) hd INVALID_INO INVALID_EXTDENO)) mo]> M) an) ->
  runs (direntry_init (setname mnt (S n)) de INVALID_INO hd nm) (st M an) Q.
Proof.
  intros Hm Hb Hhd Hf HQ. unfold direntry_init. dstep. eapply runs_get_dir; [done..|]. dstep.
  eapply runs_lift; [done|]. dstep. dstep; [done|]. dstep. dstep; [done|]. dstep. dstep; [done|]. dstep. dstep; [done|].
  dstep. eapply runs_upd_de; [done..|]. eapply setname_ext_entry; [apply lookup_insert_eq|done|done|done|].
  by rewrite insert_insert_eq.
Qed.

(** An extension entry is emptied. *)
Lemma fini_ext_entry n hd nm M an de mo (Q : unit -> dstate C -> Prop) :
  M !! de = Some mo -> mo_data mo = DDirentry (mkde nm hd INVALID_INO 0) -> hd <> INVALID_INO -> extname ->
  Q tt (st (<[de := set_mo_data (DDirentry (mkde no_name INVALID_INO INVALID_INO INVALID_EXTDENO)) mo]> M) an) ->
  runs (direntry_fini (setname mnt (S n)) de) (st M an) Q.
Proof.
  intros Hm Hd Hhd Hf HQ. unfold direntry_fini. dstep. eapply setname_ext_entry; [done..|]. dstep. dstep; [done|].
  dstep. eapply runs_get_dir; [apply lookup_insert_eq|done|]. dstep. eapply runs_lift; [done|].
  dstep. dstep; [done|]. dstep. dstep; [done|]. eapply runs_upd_de; [apply lookup_insert_eq|done|].
  by rewrite insert_insert_eq.
Qed.

Definition demand (new : option (list Z)) : nat := match new with Some nm => S (length nm) | None => 0 end.
Lemma demand_forward nm : (demand (forward nm) <= length nm)%nat.
Proof. destruct (forward_cases nm) as [[? ->]|[? ->]]; simpl; [lia|rewrite length_drop; lia]. Qed.

(** No entry is free. *)
Definition full (M : objs) : Prop := forall k mo, M !! k = Some mo -> mo_used mo = 1.
Lemma full_set M k mo mo' : full M -> M !! k = Some mo -> mo_used mo' = mo_used mo -> full (<[k := mo']> M).
Proof. intros Hf Hm Hu j m [[<- <-]|[_ Hj]]%lookup_insert_Some; [rewrite Hu|]; by eapply Hf. Qed.
Lemma on_de_used f mo : mo_used (on_de f mo) = mo_used mo.
Proof. unfold on_de. by destruct (mo_data mo). Qed.

(** What a run of [setname_ext] may end in: the new chain, or no free entry. *)
Definition ext_post (hd : Z) (new : option (list Z)) (xs : list Z) (M : objs) (Q : Z * option Z -> dstate C -> Prop) : Prop :=
  (forall M' an' e' xs', de_ok (MkSet M' an' sh) -> ext_chain M' hd e' new xs' -> rechained xs xs' M M' -> Q (0, Some e') (st M' an')) /\
  (new <> None -> forall M' an' o, full M' -> (forall k, is_Some (M' !! k) <-> is_Some (M !! k)) -> Q (- EPFS_FILE_2MANY, o) (st M' an')).

Lemma runs_store_ext k r mo M an (Q : Z -> dstate C -> Prop) : M !! k = Some mo ->
  (forall M', (full M -> full M') -> (forall j, is_Some (M' !! j) <-> is_Some (M !! j)) -> Q (fst r) (st M' an)) -> runs (store_ext k r) (st M an) Q.
Proof.
  intros Hm HQ. unfold store_ext. dstep. destruct (snd r).
  - eapply runs_upd_de_mo; [done|]. dstep. apply HQ; [|intros j; by eapply dom_insert]. intros Hf. eapply full_set; [done|done|apply on_de_used].
  - dstep. dstep. by apply HQ.
Qed.

(** After an error below the rest of the function runs through. *)
Lemma ext_error k r (M : objs) an (M0 : objs) (Q : Z * option Z -> dstate C -> Prop) : is_Some (M !! k) ->
  (forall j, is_Some (M !! j) <-> is_Some (M0 !! j)) -> full M ->
  (forall M' an' o, full M' -> (forall k, is_Some (M' !! k) <-> is_Some (M0 !! k)) -> Q (- EPFS_FILE_2MANY, o) (st M' an')) ->
  runs (err ← store_ext k (- EPFS_FILE_2MANY, r); mo ← de_mo k; mret (err, Some (mo_number mo))) (st M an) Q.
Proof.
  intros [mo Hk] Hdom Hfull HQ. dstep. eapply runs_store_ext; [done|]. intros M' Hf' Hd'. dstep. simpl.
  destruct (proj2 (Hd' k)) as [mo' Hk']; [by eexists|]. eapply runs_de_mo; [done|]. dstep. apply HQ; [auto|].
  intros j. by rewrite Hd', Hdom.
Qed.

(** *** The four cases of [setname_ext] *)
Section Cases.
Context (hd : Z) (n : nat).
Hypothesis Hhd : hd <> INVALID_INO.
Hypothesis IH : forall e old new xs M an (Q : Z * option Z -> dstate C -> Prop),
  (2 + length xs + demand new <= S n)%nat -> de_ok (MkSet M an sh) -> sentinel M -> ext_chain M hd e old xs ->
  ((xs = [] /\ new = None) \/ extname) -> ext_post hd new xs M Q -> runs (setname_ext mnt (S n) e hd new) (st M an) Q.

Lemma ext_grow nm M an (Q : Z * option Z -> dstate C -> Prop) :
  (3 + length nm <= S (S n))%nat -> de_ok (MkSet M an sh) -> sentinel M -> extname -> ext_post hd (Some nm) [] M Q ->
  runs (setname_ext mnt (S (S n)) INVALID_EXTDENO hd (Some nm)) (st M an) Q.
Proof.
  intros Hn Hos Hsen Hf [HQ HE]. cbn [setname_ext]. rewrite Z.eqb_refl, bool_decide_false by done. cbn [andb].
  dstep. apply runs_extname; [done|]. dstep. unfold pfs_meta_alloc_direntry. dstep. dstep. dstep.
  destruct (alloc_common_ok _ _ M an sh Hos) as (r & [M1 an1 sh1] & Ha & Hos1 & Hsh & Hr). simpl in Hsh, Hr. subst sh1.
  eapply runs_lift; [done|]. dstep. eexists _, _. split; [done|]. cbn [ds_in ds_nc snd fst]. dstep. destruct r as [de|].
  2:{ dstep. destruct Hr as [-> Hfull]. by apply HE. }
  destruct Hr as (mo & Hm & Hu & ->). destruct (mk_blank _ _ _ _ (os_obj _ _ _ _ _ Hos Hm) Hu) as (Hnx & Hpv & Hb).
  assert (Hde0 : de <> 0). { intros ->. destruct Hsen as (mo0 & H0 & H1). congruence. }
  dstep. eapply (new_ext_entry n hd nm); [apply lookup_insert_eq|done|done|done|]. rewrite insert_insert_eq.
  set (emo := set_mo_data _ _). set (M2 := <[de := emo]> M).
  assert (Hos2 : de_ok (MkSet M2 an1 sh)).
  { unfold M2. rewrite <- (insert_insert_eq M de emo (set_mo_used 1 mo)). by eapply de_ok_set; [exact Hos1|apply lookup_insert_eq| |]. }
  assert (Hsen2 : sentinel M2) by (destruct Hsen as (mo0 & ? & ?); exists mo0; split; [unfold M2; by rewrite lookup_insert_ne|done]).
  assert (Hd2 : forall j, is_Some (M2 !! j) <-> is_Some (M !! j)) by (intros; by eapply dom_insert).
  dstep. eapply (IH INVALID_EXTDENO None (forward nm) []); [pose proof (demand_forward nm); cbn [length]; lia|done|done|constructor|by right|]. split.
  - intros M3 an3 e' xs' Hos3 Hc Hrc.
    assert (Hdx : de ∉ xs').
    { intros Hdx. destruct (rc_new _ _ _ _ Hrc de Hdx) as (mo' & Hmo' & Hu'); [apply not_elem_of_nil|].
      unfold M2 in Hmo'. rewrite lookup_insert_eq in Hmo'. by injection Hmo' as <-. }
    assert (Hm3 : M3 !! de = Some emo) by (rewrite (rc_frame _ _ _ _ Hrc) by (done || apply not_elem_of_nil); apply lookup_insert_eq).
    unfold store_ext. cbn [snd fst]. dstep. dstep. eapply runs_upd_de; [done..|]. dstep. dstep. eapply runs_de_mo; [apply lookup_insert_eq|].
    dstep. cbn [mo_number set_mo_data]. rewrite (mk_number _ _ _ _ (os_obj _ _ _ _ _ Hos Hm) : mo_number emo = de).
    apply (HQ _ _ _ (de :: xs')).
    + by eapply de_ok_set.
    + eapply ec_cons; [done|apply lookup_insert_eq|done|]. eapply ext_frame; [done|].
      intros k Hk. rewrite lookup_insert_ne; [done|]. by intros ->.
    + split.
      * intros k. rewrite dom_insert by done. rewrite (rc_dom _ _ _ _ Hrc). apply Hd2.
      * intros k _ Hk. apply not_elem_of_cons in Hk as [Hk1 Hk2]. rewrite lookup_insert_ne by done.
        rewrite (rc_frame _ _ _ _ Hrc) by (done || apply not_elem_of_nil). unfold M2. by rewrite lookup_insert_ne.
      * intros k Hk _. apply elem_of_cons in Hk as [->|Hk]; [by exists mo|].
        destruct (rc_new _ _ _ _ Hrc k Hk) as (mo' & Hmo' & Hu'); [apply not_elem_of_nil|]. exists mo'. split; [|done].
        unfold M2 in Hmo'. rewrite lookup_insert_ne in Hmo'; [done|]. by intros ->.
      * intros k Hk. by apply elem_of_nil in Hk.
  - intros _ M3 an3 o Hf3 Hd3. apply (ext_error de o M3 an3 M); [|intros j; by rewrite Hd3|done|by apply HE].
    apply Hd3. unfold M2. rewrite lookup_insert_eq. by eexists.
Qed.

Lemma ext_cut e nm xs M an (Q : Z * option Z -> dstate C -> Prop) :
  (3 + length xs <= S (S n))%nat -> de_ok (MkSet M an sh) -> sentinel M -> ext_chain M hd e (Some nm) (e :: xs) -> extname ->
  ext_post hd None (e :: xs) M Q -> runs (setname_ext mnt (S (S n)) e hd None) (st M an) Q.
Proof.
  intros Hn Hos Hsen Hc Hf [HQ HE]. pose proof (ext_nodup _ _ _ _ _ Hc) as Hnd. apply NoDup_cons in Hnd as [Hex Hnd].
  inversion Hc as [|? ? ? mo x He0 Hm (Hu & Hnx & Hpv & Hd) Hc']; subst. cbn [setname_ext].
  unfold INVALID_EXTDENO. rewrite (proj2 (Z.eqb_neq e 0)) by done. cbn [andb]. dstep. apply runs_extname; [done|].
  dstep. eapply runs_get_dir; [done..|]. dstep. dstep.
  { unfold DE_ISEXT. cbn [de_ino de_dirino mkde]. by rewrite (proj2 (Z.eqb_neq hd INVALID_INO)) by done. }
  dstep. dstep; [apply Z.eqb_refl|]. dstep.
  eapply (IH x (forward nm) None xs); [cbn [demand]; lia|done|done|done|by right|]. split.
  - intros M1 an1 e' xs' Hos1 Hc1 Hrc. apply ext_null in Hc1 as [-> ->].
    assert (Hm1 : M1 !! e = Some mo) by (rewrite (rc_frame _ _ _ _ Hrc) by (done || apply not_elem_of_nil); done).
    unfold store_ext. cbn [snd fst]. dstep. dstep. eapply runs_upd_de; [done..|]. dstep. dstep.
    eapply (fini_ext_entry n hd); [apply lookup_insert_eq|done|done|done|]. rewrite insert_insert_eq. dstep.
    set (bmo := set_mo_data _ _). set (M2 := <[e := bmo]> M1).
    assert (Hos2 : de_ok (MkSet M2 an1 sh)) by (by eapply de_ok_set).
    destruct (free_common_ok MT_DIRENTRY blank_de M2 an1 sh e bmo) as (an2 & Hfree & Hos3); [done|apply lookup_insert_eq|done..|].
    unfold pfs_meta_free_direntry. dstep. dstep. dstep. eapply runs_lift; [done|]. eexists _, _. split; [done|].
    dstep. unfold M2 in *. rewrite insert_insert_eq in *. apply (HQ _ _ _ []); [done|constructor|]. split.
    + intros k. rewrite dom_insert by done. apply (rc_dom _ _ _ _ Hrc).
    + intros k Hk _. apply not_elem_of_cons in Hk as [Hk1 Hk2]. rewrite lookup_insert_ne by done.
      by rewrite (rc_frame _ _ _ _ Hrc) by (done || apply not_elem_of_nil).
    + intros k Hk. by apply elem_of_nil in Hk.
    + intros k Hk _. apply elem_of_cons in Hk as [->|Hk]; [rewrite lookup_insert_eq; by eexists|].
      destruct (rc_old _ _ _ _ Hrc k Hk) as (mo' & Hmo' & Hu'); [apply not_elem_of_nil|]. exists mo'.
      rewrite lookup_insert_ne; [done|]. by intros ->.
  - done.
Qed.

Lemma ext_reuse e old xs nm M an (Q : Z * option Z -> dstate C -> Prop) :
  (4 + length xs + length nm <= S (S n))%nat -> de_ok (MkSet M an sh) -> sentinel M -> ext_chain M hd e (Some old) (e :: xs) ->
  extname -> ext_post hd (Some nm) (e :: xs) M Q -> runs (setname_ext mnt (S (S n)) e hd (Some nm)) (st M an) Q.
Proof.
  intros Hn Hos Hsen Hc Hf [HQ HE]. pose proof (ext_nodup _ _ _ _ _ Hc) as Hnd. apply NoDup_cons in Hnd as [Hex Hnd].
  inversion Hc as [|? ? ? mo x He0 Hm (Hu & Hnx & Hpv & Hd) Hc']; subst. cbn [setname_ext].
  unfold INVALID_EXTDENO. rewrite (proj2 (Z.eqb_neq e 0)) by done. cbn [andb]. dstep. apply runs_extname; [done|].
  dstep. eapply runs_get_dir; [done..|]. dstep. dstep.
  { unfold DE_ISEXT. cbn [de_ino de_dirino mkde]. by rewrite (proj2 (Z.eqb_neq hd INVALID_INO)) by done. }
  dstep. dstep; [apply Z.eqb_refl|]. dstep. eapply (setname_ext_entry n); [done..|].
  set (emo := set_mo_data _ _). set (M2 := <[e := emo]> M). dstep. eapply runs_get_dir; [apply lookup_insert_eq|done|]. dstep.
  assert (Hos2 : de_ok (MkSet M2 an sh)) by (by eapply de_ok_set).
  assert (Hsen2 : sentinel M2) by (destruct Hsen as (mo0 & ? & ?); exists mo0; split; [unfold M2; by rewrite lookup_insert_ne|done]).
  assert (Hd2 : forall j, is_Some (M2 !! j) <-> is_Some (M !! j)) by (intros; by eapply dom_insert).
  eapply (IH x (forward old) (forward nm) xs); [pose proof (demand_forward nm); lia|done|done| |by right|].
  { eapply ext_frame; [done|]. intros k Hk. unfold M2. rewrite lookup_insert_ne; [done|]. by intros ->. }
  split.
  - intros M3 an3 e' xs' Hos3 Hc3 Hrc.
    assert (Hdx : e ∉ xs').
    { intros Hdx. destruct (rc_new _ _ _ _ Hrc e Hdx) as (mo' & Hmo' & Hu'); [done|]. unfold M2 in Hmo'.
      rewrite lookup_insert_eq in Hmo'. injection Hmo' as <-. simpl in Hu'. congruence. }
    assert (Hm3 : M3 !! e = Some emo) by (rewrite (rc_frame _ _ _ _ Hrc) by done; apply lookup_insert_eq).
    unfold store_ext. cbn [snd fst]. dstep. dstep. eapply runs_upd_de; [done..|]. dstep. dstep. eapply runs_de_mo; [apply lookup_insert_eq|].
    dstep. cbn [mo_number set_mo_data]. rewrite (mk_number _ _ _ _ (os_obj _ _ _ _ _ Hos Hm) : mo_number emo = e).
    apply (HQ _ _ _ (e :: xs')).
    + by eapply de_ok_set.
    + eapply ec_cons; [done|apply lookup_insert_eq|done|]. eapply ext_frame; [done|].
      intros k Hk. rewrite lookup_insert_ne; [done|]. by intros ->.
    + split.
      * intros k. rewrite dom_insert by done. rewrite (rc_dom _ _ _ _ Hrc). apply Hd2.
      * intros k Hk Hk'. apply not_elem_of_cons in Hk as [Hk1 Hk2], Hk' as [_ Hk3]. rewrite lookup_insert_ne by done.
        rewrite (rc_frame _ _ _ _ Hrc) by done. unfold M2. by rewrite lookup_insert_ne.
      * intros k Hk Hk'. apply not_elem_of_cons in Hk' as [Hk1 Hk2]. apply elem_of_cons in Hk as [->|Hk]; [done|].
        destruct (rc_new _ _ _ _ Hrc k Hk Hk2) as (mo' & Hmo' & Hu'). exists mo'. split; [|done].
        unfold M2 in Hmo'. by rewrite lookup_insert_ne in Hmo'.
      * intros k Hk Hk'. apply not_elem_of_cons in Hk' as [Hk1 Hk2]. apply elem_of_cons in Hk as [->|Hk]; [done|].
        destruct (rc_old _ _ _ _ Hrc k Hk Hk2) as (mo' & Hmo' & Hu'). exists mo'. by rewrite lookup_insert_ne.
  - intros _ M3 an3 o Hf3 Hd3. apply (ext_error e o M3 an3 M); [|intros j; by rewrite Hd3|done|by apply HE].
    apply Hd3. unfold M2. rewrite lookup_insert_eq. by eexists.
Qed.
End Cases.

(** The chain becomes that of the new name, within the fuel. *)
Lemma setname_ext_ok n hd : hd <> INVALID_INO -> forall e old new xs M an (Q : Z * option Z -> dstate C -> Prop),
  (2 + length xs + demand new <= n)%nat -> de_ok (MkSet M an sh) -> sentinel M -> ext_chain M hd e old xs ->
  ((xs = [] /\ new = None) \/ extname) -> ext_post hd new xs M Q -> runs (setname_ext mnt n e hd new) (st M an) Q.
Proof.
  intros Hhd. induction n as [|n IH]; [lia|]. intros e old new xs M an Q Hn Hos Hsen Hc Hf HQ.
  destruct n as [|n]; [lia|].
  destruct Hc as [|e nm xs mo x He0 Hm Hx Hc], new as [new|].
  - destruct Hf as [[_ ?]|Hf]; [done|]. apply ext_grow; try done; simpl in *; lia.
  - cbn [setname_ext]. rewrite Z.eqb_refl, bool_decide_true by done. cbn [andb]. dstep. apply (proj1 HQ _ _ _ []); [done|constructor|].
    split; try done; intros k Hk; by apply elem_of_nil in Hk.
  - destruct Hf as [[? _]|Hf]; [done|]. eapply (ext_reuse hd n Hhd IH); try done; [simpl in *; lia|by eapply ec_cons].
  - destruct Hf as [[? _]|Hf]; [done|]. eapply (ext_cut hd n Hhd IH); try done; [simpl in *; lia|by eapply ec_cons].
Qed.

(** ** Head entries *)
(** The entry [k] of the inode [i] in the directory [d] has this name, with
    the extension entries [xs]. *)
Definition named (M : objs) (k i d : Z) (name xs : list Z) : Prop :=
  exists mo x, M !! k = Some mo /\ mo_used mo = 1 /\ mo_data mo = DDirentry (mkde (piece name) i d x) /\
    ext_chain M k x (forward name) xs.

Lemma ext_other M hd x r xs k mo nm i d y : ext_chain M hd x r xs -> M !! k = Some mo ->
  mo_data mo = DDirentry (mkde nm i d y) -> d <> INVALID_INO -> k ∉ xs.
Proof.
  intros Hc Hm Hd Hne Hk. destruct (ext_mem _ _ _ _ _ _ Hc Hk) as (_ & mo' & nm' & x' & Hm' & _ & _ & _ & Hd').
  rewrite Hm in Hm'. injection Hm' as <-. rewrite Hd in Hd'. injection Hd' as _ _ ? _. done.
Qed.

Lemma ext_size M hd x r xs : ext_chain M hd x r xs -> (length xs <= size M)%nat.
Proof.
  intros Hc. rewrite <- size_dom, <- (size_list_to_set (C := gset Z)) by (by eapply ext_nodup). apply subseteq_size. intros k Hk.
  apply elem_of_list_to_set in Hk. destruct (ext_mem _ _ _ _ _ _ Hc Hk) as (_ & mo & _ & _ & Hm & _). apply elem_of_dom. by eexists.
Qed.

Definition dotted (name : list Z) : bool := bool_decide (name = [46]) || bool_decide (name = [46; 46]).

(** What a run of [setname] on a head entry may end in. *)
Definition name_post (k : Z) (mo : pfs_metaobj_phy) (i d : Z) (name xs : list Z) (M : objs) (Q : Z -> dstate C -> Prop) : Prop :=
  (forall M' an' x' xs', de_ok (MkSet M' an' sh) ->
     M' !! k = Some (set_mo_data (DDirentry (mkde (piece name) i d x')) mo) -> ext_chain M' k x' (forward name) xs' ->
     rechained (k :: xs) (k :: xs') M M' -> Q 0 (st M' an')) /\
  (forward name <> None -> forall M' an', full M' -> Q (- EPFS_FILE_2MANY) (st M' an')).

Lemma setname_head n k mo nm0 i d x old xs name M an (Q : Z -> dstate C -> Prop) :
  (3 + length xs + length name <= n)%nat -> de_ok (MkSet M an sh) -> sentinel M -> 0 < k ->
  M !! k = Some mo -> mo_used mo = 1 -> mo_data mo = DDirentry (mkde nm0 i d x) -> d <> INVALID_INO ->
  ext_chain M k x old xs -> dotted name = false -> ((xs = [] /\ forward name = None) \/ extname) ->
  name_post k mo i d name xs M Q -> runs (setname mnt n k name) (st M an) Q.
Proof.
  intros Hn Hos Hsen Hk Hm Hu Hd Hdne Hc Hdot Hf [HQ HE]. destruct n as [|n]; [lia|]. cbn [setname]. dstep. eapply runs_upd_de; [done..|].
  set (m1 := set_mo_data _ _). set (M1 := <[k := m1]> M). dstep. eapply runs_get_dir; [apply lookup_insert_eq|done|].
  unfold DE_ISEXT. cbn [de_ino de_dirino set_de_name mkde]. rewrite (proj2 (Z.eqb_neq d INVALID_INO)), andb_false_r by done.
  dstep. dstep; [by apply negb_true_iff|]. dstep. eapply runs_de_mo; [apply lookup_insert_eq|]. dstep.
  rewrite (mk_number _ _ _ _ (os_obj _ _ _ _ _ Hos Hm) : mo_number m1 = k). cbn [de_extdeno].
  assert (Hkx : k ∉ xs) by (by eapply ext_other).
  assert (Hos1 : de_ok (MkSet M1 an sh)) by (by eapply de_ok_set).
  assert (Hsen1 : sentinel M1) by (destruct Hsen as (mo0 & ? & ?); exists mo0; split; [unfold M1; rewrite lookup_insert_ne by lia|]; done).
  eapply (setname_ext_ok n k) with (old := old) (xs := xs).
  - unfold INVALID_INO. lia.
  - fold (forward name). pose proof (demand_forward name). lia.
  - done.
  - done.
  - eapply ext_frame; [done|]. intros j Hj. unfold M1. rewrite lookup_insert_ne; [done|]. by intros ->.
  - done.
  - split.
    + intros M2 an2 e' xs' Hos2 Hc2 Hrc.
      assert (Hkx' : k ∉ xs').
      { intros Hkx'. destruct (rc_new _ _ _ _ Hrc k Hkx' Hkx) as (mo' & Hmo' & Hu'). unfold M1 in Hmo'. rewrite lookup_insert_eq in Hmo'.
        injection Hmo' as <-. simpl in Hu'. congruence. }
      assert (Hm2 : M2 !! k = Some m1) by (rewrite (rc_frame _ _ _ _ Hrc) by done; apply lookup_insert_eq).
      unfold store_ext. cbn [snd fst]. dstep. eapply runs_upd_de; [done..|]. dstep. apply (HQ _ _ e' xs').
      * by eapply de_ok_set.
      * apply lookup_insert_eq.
      * eapply ext_frame; [done|]. intros j Hj. rewrite lookup_insert_ne; [done|]. by intros ->.
      * split.
        -- intros j. rewrite dom_insert by done. rewrite (rc_dom _ _ _ _ Hrc). by eapply dom_insert.
        -- intros j Hj Hj'. apply not_elem_of_cons in Hj as [Hj1 Hj2], Hj' as [_ Hj3]. rewrite lookup_insert_ne by done.
           rewrite (rc_frame _ _ _ _ Hrc) by done. unfold M1. by rewrite lookup_insert_ne.
        -- intros j Hj Hj'. apply not_elem_of_cons in Hj' as [Hj1 Hj2]. apply elem_of_cons in Hj as [->|Hj]; [done|].
           destruct (rc_new _ _ _ _ Hrc j Hj Hj2) as (mo' & Hmo' & Hu'). exists mo'. unfold M1 in Hmo'. by rewrite lookup_insert_ne in Hmo'.
        -- intros j Hj Hj'. apply not_elem_of_cons in Hj' as [Hj1 Hj2]. apply elem_of_cons in Hj as [->|Hj]; [done|].
           destruct (rc_old _ _ _ _ Hrc j Hj Hj2) as (mo' & Hmo' & Hu'). exists mo'. by rewrite lookup_insert_ne.
    + intros Hne M2 an2 o Hf2 Hd2. destruct (proj2 (Hd2 k)) as [mo2 Hm2]; [unfold M1; rewrite lookup_insert_eq; by eexists|].
      eapply runs_store_ext; [done|]. intros M3 Hf3 _. apply HE; auto.
Qed.

Lemma setname_ok k mo nm0 i d x old xs name M an (Q : Z -> dstate C -> Prop) :
  de_ok (MkSet M an sh) -> sentinel M -> 0 < k ->
  M !! k = Some mo -> mo_used mo = 1 -> mo_data mo = DDirentry (mkde nm0 i d x) -> d <> INVALID_INO ->
  ext_chain M k x old xs -> dotted name = false -> ((xs = [] /\ forward name = None) \/ extname) ->
  name_post k mo i d name xs M Q -> runs (pfs_direntry_setname mnt k name) (st M an) Q.
Proof.
  intros Hos Hsen Hk Hm Hu Hd Hdne Hc Hdot Hf HQ. unfold pfs_direntry_setname. dstep. dstep.
  eapply setname_head; try done. unfold name_fuel. simpl. pose proof (ext_size _ _ _ _ _ Hc). lia.
Qed.

(** *** Reading a name *)
Lemma cstr_app s zs : Forall (fun b => b <> 0) s -> cstr (s ++ 0 :: zs) = Some s.
Proof. induction 1 as [|b s Hb _ IH]; [done|]. simpl. rewrite (proj2 (Z.eqb_neq b 0)) by done. by rewrite IH. Qed.

Lemma piece_short nm : (length nm < 64)%nat -> exists n, piece nm = nm ++ 0 :: replicate n 0.
Proof.
  intros Hl. exists (63 - length nm)%nat. unfold piece, strncpy. change (Z.to_nat PFS_MAX_NAMELEN_OLD) with 64%nat.
  rewrite take_app_ge by lia. f_equal. rewrite take_replicate. change (0 :: replicate (63 - length nm) 0) with (replicate (S (63 - length nm)) 0).
  f_equal. lia.
Qed.
Lemma piece_long nm : (64 <= length nm)%nat -> piece nm = take 64 nm.
Proof. intros Hl. unfold piece, strncpy. change (Z.to_nat PFS_MAX_NAMELEN_OLD) with 64%nat. by rewrite take_app_le by lia. Qed.

Lemma getname_loop_ok n : forall k mo nm i d x hd xs ncopy M an (Q : list Z -> dstate C -> Prop),
  M !! k = Some mo -> mo_data mo = DDirentry (mkde (piece nm) i d x) -> ext_chain M hd x (forward nm) xs ->
  ncopy + Z.of_nat (length nm) < PFS_MAX_NAMELEN -> ncopy mod 64 = 0 -> PFS_MAX_NAMELEN <= ncopy + 64 * Z.of_nat n -> 
  (forall zs, Q (nm ++ 0 :: zs) (st M an)) -> runs (getname_loop n k ncopy) (st M an) Q.
Proof.
  unfold PFS_MAX_NAMELEN. induction n as [|n IH]; intros k mo nm i d x hd xs ncopy M an Q Hm Hd Hc Hl Hmod Hn HQ; [lia|].
  cbn [getname_loop]. dstep. dstep.
  { apply Z.leb_le. unfold PFS_MAX_NAMELEN, PFS_MAX_NAMELEN_OLD. pose proof (Z.div_mod ncopy 64 ltac:(lia)). lia. }
  dstep. eapply runs_get_dir; [done..|]. cbn [de_extdeno de_name mkde].
  destruct (forward_cases nm) as [[Hs Hf]|[Hs Hf]]; rewrite Hf in Hc.
  - apply ext_null in Hc as [-> ->]. rewrite Z.eqb_refl. dstep. destruct (piece_short nm Hs) as [j ->]. apply HQ.
  - inversion Hc as [|? ? xs' mo' x' He0 Hm' (Hu & Hnx & Hpv & Hd') Hc']; subst. unfold INVALID_EXTDENO.
    rewrite (proj2 (Z.eqb_neq x 0)) by done. dstep. eapply IH; [done|done|done| | | |].
    + rewrite length_drop. unfold PFS_MAX_NAMELEN_OLD. lia.
    + unfold PFS_MAX_NAMELEN_OLD. rewrite <- Z.add_mod_idemp_l, Hmod by lia. done.
    + unfold PFS_MAX_NAMELEN_OLD. lia.
    + intros zs. dstep. rewrite (piece_long nm Hs), (assoc_L (++)), take_drop. apply HQ.
Qed.

Definition bytes_ok (name : list Z) : Prop := Forall (fun b => b <> 0) name /\ Z.of_nat (length name) < PFS_MAX_NAMELEN.
Lemma getname_ok k i d name xs M an (Q : list Z -> dstate C -> Prop) : named M k i d name xs -> bytes_ok name ->
  Q name (st M an) -> runs (pfs_direntry_getname k) (st M an) Q.
Proof.
  intros (mo & x & Hm & _ & Hd & Hc) [Hb Hl] HQ. unfold pfs_direntry_getname. dstep.
  eapply getname_loop_ok; [done|done|done|lia|done|unfold PFS_MAX_NAMELEN; lia|]. intros zs.
  eapply runs_lift; [|done]. by apply cstr_app.
Qed.

(** *** A head entry comes into use and goes out of it *)
Lemma rechained_from k xs xs' mo mo' M M' : M !! k = Some mo -> rechained (k :: xs) (k :: xs') (<[k := mo']> M) M' ->
  rechained (k :: xs) (k :: xs') M M'.
Proof.
  intros Hm [Hd Hf Hn Ho]. split.
  - intros j. rewrite Hd. by eapply dom_insert.
  - intros j Hj Hj'. rewrite Hf by done. apply not_elem_of_cons in Hj as [Hj _]. by rewrite lookup_insert_ne.
  - intros j Hj Hj'. destruct (Hn j Hj Hj') as (mo1 & Hm1 & Hu). apply not_elem_of_cons in Hj' as [Hj' _].
    rewrite lookup_insert_ne in Hm1 by done. by exists mo1.
  - done.
Qed.
Lemma rechained_to k xs xs' mo mo' M M' : M' !! k = Some mo -> rechained (k :: xs) (k :: xs') M M' ->
  rechained (k :: xs) (k :: xs') M (<[k := mo']> M').
Proof.
  intros Hm [Hd Hf Hn Ho]. split.
  - intros j. rewrite dom_insert by done. apply Hd.
  - intros j Hj Hj'. rewrite <- Hf by done. apply not_elem_of_cons in Hj as [Hj _]. by rewrite lookup_insert_ne.
  - done.
  - intros j Hj Hj'. destruct (Ho j Hj Hj') as (mo1 & Hm1 & Hu). apply not_elem_of_cons in Hj' as [Hj' _].
    exists mo1. by rewrite lookup_insert_ne.
Qed.

Lemma init_head k mo i d name M an (Q : Z -> dstate C -> Prop) :
  de_ok (MkSet M an sh) -> sentinel M -> 0 < k -> M !! k = Some mo -> mo_used mo = 1 -> blank_de (mo_data mo) ->
  d <> INVALID_INO -> dotted name = false -> (forward name = None \/ extname) -> name_post k mo i d name [] M Q ->
  runs (pfs_direntry_init mnt k d i name) (st M an) Q.
Proof.
  intros Hos Hsen Hk Hm Hu Hb Hd Hdot Hf [HQ HE]. unfold pfs_direntry_init, direntry_init. dstep. eapply runs_get_dir; [done..|]. dstep.
  eapply runs_lift; [done|]. dstep. dstep; [done|]. dstep. dstep; [done|]. dstep. dstep; [done|]. dstep. dstep; [done|].
  dstep. eapply runs_upd_de; [done..|]. set (m1 := set_mo_data _ _).
  eapply (setname_ok k m1 no_name i d INVALID_EXTDENO None []).
  - by eapply de_ok_set.
  - destruct Hsen as (mo0 & ? & ?). exists mo0. rewrite lookup_insert_ne by lia. done.
  - done.
  - apply lookup_insert_eq.
  - done.
  - done.
  - done.
  - constructor.
  - done.
  - destruct Hf; [left|right]; done.
  - split; [|done]. intros M' an' x' xs' Hos' Hm' Hc' Hrc. eapply HQ; [done|exact Hm'|done|]. by eapply rechained_from.
Qed.

Lemma fini_head k mo i d x name xs M an (Q : unit -> dstate C -> Prop) :
  de_ok (MkSet M an sh) -> sentinel M -> 0 < k -> M !! k = Some mo -> mo_used mo = 1 ->
  mo_data mo = DDirentry (mkde (piece name) i d x) -> ext_chain M k x (forward name) xs -> d <> INVALID_INO ->
  (xs = [] \/ extname) ->
  (forall M' an', de_ok (MkSet M' an' sh) -> rechained (k :: xs) [k] M M' ->
     M' !! k = Some (set_mo_data (DDirentry (mkde no_name INVALID_INO INVALID_INO INVALID_EXTDENO)) mo) -> Q tt (st M' an')) ->
  runs (pfs_direntry_fini mnt k) (st M an) Q.
Proof.
  intros Hos Hsen Hk Hm Hu Hd Hc Hne Hf HQ. unfold pfs_direntry_fini, direntry_fini. dstep.
  eapply (setname_ok k mo); try done; [destruct Hf; [by left|by right]|]. split; [|done].
  intros M1 an1 x' xs' Hos1 Hm1 Hc1 Hrc. apply ext_null in Hc1 as [-> ->]. dstep. dstep; [done|].
  dstep. eapply runs_get_dir; [done..|]. dstep. eapply runs_lift; [done|]. dstep. dstep; [done|]. dstep. dstep; [done|].
  eapply runs_upd_de; [done..|]. eapply HQ.
  - by eapply de_ok_set.
  - by eapply rechained_to.
  - apply lookup_insert_eq.
Qed.
End SetName.
