(* ===== verification/DirInv.v ===== *)
(** * The namespace and its representation

    A tree of nodes is the abstract namespace; [rep] relates it to the meta
    objects.  Each step of the directory operations changes the tree and the
    objects together. *)

From S2P Require Import Prelude Alloc Object Blkio Blktable Inode Dir DirBase DirName.

Open Scope pfs_scope.

(** ** The tree *)
Record node := MkNd { n_type : Z; n_link : option (Z * list Z); n_ents : list Z; n_size : Z; n_btime : Z }.
Abbreviation tree := (gmap Z node).
Definition set_link (v : option (Z * list Z)) (nd : node) : node := MkNd (n_type nd) v (n_ents nd) (n_size nd) (n_btime nd).
Definition set_ents (v : list Z) (nd : node) : node := MkNd (n_type nd) (n_link nd) v (n_size nd) (n_btime nd).
Definition set_size (v : Z) (nd : node) : node := MkNd (n_type nd) (n_link nd) (n_ents nd) v (n_btime nd).

(** ** Inodes *)
Definition blank_in (d : objdata) : Prop :=
  exists i rest, d = DInode i rest /\ in_type i = PFS_INODET_NONE /\ in_nlink i = 0 /\ in_deno i = INVALID_DENO /\ in_pvtid i = 0.
Abbreviation in_ok := (os_ok MT_INODE blank_in).

(** The inode object of a node; its links are those of the list of entries
    when it is a directory. *)
Record in_rep (dn : Z -> Z) (i : Z) (nd : node) (mo : pfs_metaobj_phy) : Prop := {
  ir_used : mo_used mo = 1;
  ir_data : exists ino rest, mo_data mo = DInode ino rest /\ in_type ino = n_type nd /\ in_size ino = n_size nd /\
    in_btime ino = n_btime nd /\
    in_deno ino = (if i =? 0 then 0 else match n_link nd with Some _ => dn i | None => INVALID_DENO end) /\
    in_nlink ino = (if i =? 0 then 1 else match n_link nd with Some _ => 1 | None => 0 end);
  ir_list : n_type nd = PFS_INODET_DIR -> mo_next mo = first (dn <$> n_ents nd) /\ mo_prev mo = final (dn <$> n_ents nd) }.

(** [dn]: the entry of a linked node; [xs]: its extension entries. *)
Record rep {C} (s : dstate C) (t : tree) (dn : Z -> Z) (xs : Z -> list Z) : Prop := {
  r_de : de_ok (ds_de s);
  r_in : in_ok (ds_in s);
  r_root : exists mo nm, os_objs (ds_de s) !! 0 = Some mo /\ mo_used mo = 1 /\ mo_data mo = DDirentry (mkde nm 0 INVALID_INO 0);
  r_node : forall i nd, t !! i = Some nd -> exists mo, os_objs (ds_in s) !! i = Some mo /\ in_rep dn i nd mo;
  r_live : forall i mo, os_objs (ds_in s) !! i = Some mo -> mo_used mo = 1 -> is_Some (t !! i);
  r_name : forall i nd d name, t !! i = Some nd -> n_link nd = Some (d, name) ->
    i <> 0 /\ 0 <= d /\ 0 < dn i /\ named (os_objs (ds_de s)) (dn i) i d name (xs i);
  r_owned : forall k mo, os_objs (ds_de s) !! k = Some mo -> mo_used mo = 1 ->
    k = 0 \/ exists i nd, t !! i = Some nd /\ is_Some (n_link nd) /\ (k = dn i \/ k ∈ xs i);
  r_seg : forall d nd, t !! d = Some nd -> seg (os_objs (ds_de s)) 0 (dn <$> n_ents nd) 0;
  r_nodup : forall d nd, t !! d = Some nd -> NoDup (n_ents nd);
  r_ents : forall d nd i, t !! d = Some nd -> i ∈ n_ents nd -> exists ni, t !! i = Some ni /\ is_Some (n_link ni);
  r_once : forall d d' nd nd' i, t !! d = Some nd -> t !! d' = Some nd' -> i ∈ n_ents nd -> i ∈ n_ents nd' -> d = d';
  r_loose : forall i nd, t !! i = Some nd -> is_Some (n_link nd) -> (forall d nd', t !! d = Some nd' -> i ∉ n_ents nd') ->
    lnk (os_objs (ds_de s)) (dn i) 0 0 }.

(** The node is in no list. *)
Abbreviation loose t i := (forall d nd, (t : tree) !! d = Some nd -> i ∉ n_ents nd).

Section Rep.
Context {C : Type}.
Implicit Types s : dstate C.

(** ** Entries belong to one node *)
Section Facts.
Context (s : dstate C) (t : tree) (dn : Z -> Z) (xs : Z -> list Z).
Hypothesis Hr : rep s t dn xs.
Let M := os_objs (ds_de s).

Definition linked (i : Z) : Prop := exists nd, t !! i = Some nd /\ is_Some (n_link nd).

Lemma linked_named i : linked i -> exists d name, 0 <= d /\ i <> 0 /\ 0 < dn i /\ named M (dn i) i d name (xs i).
Proof.
  intros (nd & Hi & [[d name] Hl]). destruct (r_name _ _ _ _ Hr i nd d name Hi Hl) as (? & ? & ? & ?). by exists d, name.
Qed.
Lemma dn_inj i j : linked i -> linked j -> dn i = dn j -> i = j.
Proof.
  intros Hi Hj Heq. destruct (linked_named i Hi) as (d & nm & _ & _ & _ & mo & x & Hm & _ & Hd & _).
  destruct (linked_named j Hj) as (d' & nm' & _ & _ & _ & mo' & x' & Hm' & _ & Hd' & _).
  rewrite Heq, Hm' in Hm. injection Hm as ->. rewrite Hd in Hd'. by injection Hd' as _ ? _ _.
Qed.
Lemma dn_not_ext i j : linked i -> linked j -> dn i ∉ xs j.
Proof.
  intros Hi Hj. destruct (linked_named i Hi) as (d & nm & Hd0 & _ & _ & mo & x & Hm & _ & Hd & _).
  destruct (linked_named j Hj) as (d' & nm' & _ & _ & _ & mo' & x' & _ & _ & _ & Hc').
  eapply ext_other; [done|done|done|]. unfold INVALID_INO. lia.
Qed.
Lemma ext_disjoint i j k : linked i -> linked j -> k ∈ xs i -> k ∈ xs j -> i = j.
Proof.
  intros Hi Hj Hki Hkj. apply dn_inj; [done..|].
  destruct (linked_named i Hi) as (d & nm & _ & _ & _ & mo & x & _ & _ & _ & Hc).
  destruct (linked_named j Hj) as (d' & nm' & _ & _ & _ & mo' & x' & _ & _ & _ & Hc').
  destruct (ext_mem _ _ _ _ _ _ Hc Hki) as (_ & m1 & n1 & y1 & Hm1 & _ & _ & _ & Hd1).
  destruct (ext_mem _ _ _ _ _ _ Hc' Hkj) as (_ & m2 & n2 & y2 & Hm2 & _ & _ & _ & Hd2).
  rewrite Hm1 in Hm2. injection Hm2 as <-. rewrite Hd1 in Hd2. by injection Hd2 as _ ? _.
Qed.
Lemma ents_linked d nd i : t !! d = Some nd -> i ∈ n_ents nd -> linked i.
Proof. intros. by eapply (r_ents _ _ _ _ Hr). Qed.
Lemma denos_nodup d nd : t !! d = Some nd -> NoDup (dn <$> n_ents nd).
Proof.
  intros Hd. pose proof (r_nodup _ _ _ _ Hr d nd Hd) as Hn.
  assert (Hl : forall i, i ∈ n_ents nd -> linked i) by (intros; by eapply ents_linked).
  induction Hn as [|i l Hi Hn IH]; [constructor|]. simpl. apply NoDup_cons. split.
  - intros (j & Heq & Hj)%list_elem_of_fmap. apply Hi. assert (i = j) as ->; [|done]. apply dn_inj; [apply Hl; left|apply Hl; by right|done].
  - apply IH. intros; apply Hl; by right.
Qed.
Lemma denos_pos d nd : t !! d = Some nd -> 0 ∉ (dn <$> n_ents nd).
Proof.
  intros Hd (i & Heq & Hi)%list_elem_of_fmap. destruct (linked_named i) as (? & ? & _ & _ & ? & _); [by eapply ents_linked|]. lia.
Qed.
Lemma denos_mem d nd i : t !! d = Some nd -> linked i -> dn i ∈ (dn <$> n_ents nd) <-> i ∈ n_ents nd.
Proof.
  intros Hd Hi. rewrite list_elem_of_fmap. split; [|by eauto]. intros (j & Heq & Hj).
  assert (i = j) as ->; [|done]. apply dn_inj; [done|by eapply ents_linked|done].
Qed.
Lemma sentinel_root : sentinel M.
Proof. destruct (r_root _ _ _ _ Hr) as (mo & nm & ? & ? & _). by exists mo. Qed.
Lemma node_inode i nd : t !! i = Some nd ->
  exists mo ino rest, os_objs (ds_in s) !! i = Some mo /\ in_rep dn i nd mo /\ mo_data mo = DInode ino rest /\
    mo_type mo = MT_INODE /\ mo_number mo = i /\ in_type ino = n_type nd /\ in_size ino = n_size nd /\ in_btime ino = n_btime nd /\
    in_deno ino = (if i =? 0 then 0 else match n_link nd with Some _ => dn i | None => INVALID_DENO end) /\
    in_nlink ino = (if i =? 0 then 1 else match n_link nd with Some _ => 1 | None => 0 end).
Proof.
  intros Hi. destruct (r_node _ _ _ _ Hr i nd Hi) as (mo & Hm & Hir). pose proof (os_obj _ _ _ _ _ (r_in _ _ _ _ Hr) Hm) as Hok.
  destruct (ir_data _ _ _ _ Hir) as (ino & rest & Hd & ?). exists mo, ino, rest.
  split_and!; try done; try apply Hok; naive_solver.
Qed.

(** The entries of the nodes other than [i]. *)
Definition foreign (i x : Z) : Prop := x = 0 \/ exists j, j <> i /\ linked j /\ (x = dn j \/ x ∈ xs j).
Lemma foreign_used i x : foreign i x -> exists mo, M !! x = Some mo /\ mo_used mo = 1.
Proof.
  intros [->|(j & _ & Hj & Hx)]; [apply sentinel_root|].
  destruct (linked_named j Hj) as (d & nm & _ & _ & _ & mo & y & Hm & Hu & _ & Hc).
  destruct Hx as [->|Hx]; [by exists mo|]. destruct (ext_mem _ _ _ _ _ _ Hc Hx) as (_ & mo' & ? & ? & ? & Hx'). exists mo'. split; [done|apply Hx'].
Qed.
Lemma foreign_own i x : linked i -> foreign i x -> x ∉ dn i :: xs i.
Proof.
  intros Hi Hx Hin. destruct (linked_named i Hi) as (d & nm & _ & _ & Hp & mo & y & _ & _ & _ & Hc).
  destruct Hx as [->|(j & Hne & Hj & [->|Hx])]; apply elem_of_cons in Hin as [Heq|Hin].
  - lia.
  - by destruct (ext_mem _ _ _ _ _ _ Hc Hin) as [? _].
  - apply Hne. by apply dn_inj.
  - by eapply (dn_not_ext j i).
  - subst x. by eapply (dn_not_ext i j).
  - apply Hne. by eapply ext_disjoint.
Qed.
Lemma foreign_all i x mo : M !! x = Some mo -> mo_used mo = 1 -> foreign i x \/ (linked i /\ (x = dn i \/ x ∈ xs i)).
Proof.
  intros Hm Hu. destruct (r_owned _ _ _ _ Hr x mo Hm Hu) as [->|(j & nd & Hj & Hl & Hx)]; [by left; left|].
  assert (Hlj : linked j) by (by exists nd). destruct (decide (j = i)) as [->|Hne]; [by right|left; right; by exists j].
Qed.

(** A chain of [i] changes: the entries of the others stay, and what is in
    use belongs to them or to the new chain. *)
Lemma rechained_frame i K K' M' : (forall x, foreign i x -> x ∉ K) -> rechained K K' M M' -> forall x, foreign i x -> M' !! x = M !! x.
Proof.
  intros HK Hrc x Hx. apply (rc_frame _ _ _ _ Hrc); [by apply HK|]. intros Hx'.
  destruct (rc_new _ _ _ _ Hrc x Hx' (HK x Hx)) as (mo & Hm & Hu). destruct (foreign_used i x Hx) as (mo' & Hm' & Hu'). congruence.
Qed.
Lemma rechained_owned i K K' M' x mo : (linked i -> forall y, y ∈ dn i :: xs i -> y ∈ K) ->
  rechained K K' M M' -> M' !! x = Some mo -> mo_used mo = 1 -> foreign i x \/ x ∈ K'.
Proof.
  intros Hown Hrc Hm Hu. destruct (decide (x ∈ K')) as [|Hx']; [by right|left].
  destruct (decide (x ∈ K)) as [Hx|Hx].
  - destruct (rc_old _ _ _ _ Hrc x Hx Hx') as (mo' & Hm' & Hu'). congruence.
  - rewrite (rc_frame _ _ _ _ Hrc x Hx Hx') in Hm. destruct (foreign_all i x mo Hm Hu) as [|[Hi Hxi]]; [done|].
    exfalso. apply Hx, (Hown Hi), elem_of_cons. naive_solver.
Qed.
End Facts.

(** ** Changes of one node *)
Lemma named_frame M M' k i d name ys : (forall x, x = k \/ x ∈ ys -> M' !! x = M !! x) -> named M k i d name ys -> named M' k i d name ys.
Proof.
  intros Hf (mo & x & Hm & Hu & Hd & Hc). exists mo, x. split_and!; [rewrite Hf; by auto|done|done|]. eapply ext_frame; [done|]. auto.
Qed.
Lemma fmap_upd (dn : Z -> Z) i k (l : list Z) : i ∉ l -> (<[i := k]> dn) <$> l = dn <$> l.
Proof. intros Hi. apply list_fmap_ext. intros ? x Hx%list_elem_of_lookup_2. apply fn_lookup_insert_ne. by intros ->. Qed.
Lemma in_rep_upd dn i k j nd mo : j <> i -> i ∉ n_ents nd -> in_rep dn j nd mo -> in_rep (<[i := k]> dn) j nd mo.
Proof. intros Hne Hi [? Hd Hl]. split; [done| |]; [by rewrite fn_lookup_insert_ne|by rewrite fmap_upd]. Qed.

Section Change.
Context (M I : objs) (an ian : anode) (sh ish : Z) (c : C) (t : tree) (dn : Z -> Z) (xs : Z -> list Z).
Abbreviation st M I := (MkD (MkSet M an sh) (MkSet I ian ish) c).
Hypothesis Hr : rep (st M I) t dn xs.

(** The inode of a node changes. *)
Lemma rep_node i nd nd' mo' : t !! i = Some nd -> n_link nd' = n_link nd -> n_ents nd' = n_ents nd ->
  in_ok (MkSet (<[i := mo']> I) ian ish) -> in_rep dn i nd' mo' -> rep (st M (<[i := mo']> I)) (<[i := nd']> t) dn xs.
Proof.
  intros Hi Hl He Hos Hir.
  assert (Hin : forall j n, <[i := nd']> t !! j = Some n -> exists n0, t !! j = Some n0 /\ n_link n = n_link n0 /\ n_ents n = n_ents n0).
  { intros j n [[<- <-]|[_ Hj]]%lookup_insert_Some; [by exists nd|by exists n]. }
  assert (Hup : forall j n, t !! j = Some n -> exists n', <[i := nd']> t !! j = Some n' /\ n_link n' = n_link n /\ n_ents n' = n_ents n).
  { intros j n Hj. destruct (decide (i = j)) as [<-|Hne]; [rewrite lookup_insert_eq; exists nd'; simplify_eq; done|].
    rewrite lookup_insert_ne by done. by exists n. }
  split; try apply Hr; simpl.
  - done.
  - intros j n [[<- <-]|[Hne Hj]]%lookup_insert_Some; [exists mo'; by rewrite lookup_insert_eq|].
    rewrite lookup_insert_ne by done. by apply (r_node _ _ _ _ Hr).
  - intros j mo [[<- <-]|[Hne Hj]]%lookup_insert_Some Hu; [rewrite lookup_insert_eq; by eexists|].
    rewrite lookup_insert_ne by done. by eapply (r_live _ _ _ _ Hr).
  - intros j n d name (n0 & Hj & -> & _)%Hin Hl'. by eapply (r_name _ _ _ _ Hr).
  - intros k mo Hk Hu. destruct (r_owned _ _ _ _ Hr k mo Hk Hu) as [|(j & n & Hj & Hl' & Hx)]; [by left|right].
    destruct (Hup j n Hj) as (n' & Hj' & Hln & _). exists j, n'. by rewrite Hln.
  - intros d n (n0 & Hd & _ & ->)%Hin. by apply (r_seg _ _ _ _ Hr d).
  - intros d n (n0 & Hd & _ & ->)%Hin. by apply (r_nodup _ _ _ _ Hr d).
  - intros d n j (n0 & Hd & _ & ->)%Hin Hj. destruct (r_ents _ _ _ _ Hr d n0 j Hd Hj) as (ni & Hni & Hli).
    destruct (Hup j ni Hni) as (n' & Hj' & Hln & _). exists n'. by rewrite Hln.
  - intros d d' n n' j (n0 & Hd & _ & ->)%Hin (n0' & Hd' & _ & ->)%Hin. by eapply (r_once _ _ _ _ Hr).
  - intros j n (n0 & Hj & -> & _)%Hin Hlj Hloose. apply (r_loose _ _ _ _ Hr j n0 Hj Hlj). intros d nd0 Hd.
    destruct (Hup d nd0 Hd) as (n' & Hd' & _ & <-). by eapply Hloose.
Qed.

(** The list of a directory changes. *)
Lemma rep_relist d nd l' js M' I' : t !! d = Some nd -> n_type nd = PFS_INODET_DIR ->
  relinked (dn <$> js) M M' -> seg M' 0 (dn <$> l') 0 -> relist (dn <$> l') I d I' -> NoDup l' ->
  (forall j, j ∈ js -> linked t j /\ (j ∈ n_ents nd \/ j ∈ l')) -> (forall j, j ∈ l' -> linked t j) ->
  (forall j d' nd', j ∈ js \/ j ∈ l' -> t !! d' = Some nd' -> d' <> d -> j ∉ n_ents nd') ->
  (forall j, j ∈ n_ents nd -> j ∉ l' -> lnk M' (dn j) 0 0) ->
  rep (st M' I') (<[d := set_ents l' nd]> t) dn xs.
Proof.
  intros Hd Hty Hrl Hseg (hmo & hmo' & Hh & -> & Hsame & Hnx & Hpv) Hnd Hjs Hl' Hoth Hfree.
  pose proof (r_de _ _ _ _ Hr) as Hde. pose proof (r_in _ _ _ _ Hr) as Hin. simpl in *.
  assert (Hnjs : forall j, linked t j -> j ∉ js -> M' !! dn j = M !! dn j).
  { intros j Hj Hn. specialize (Hrl (dn j)). rewrite bool_decide_false in Hrl; [done|].
    intros (j' & Heq & Hj')%list_elem_of_fmap. assert (j = j') as ->; [|done].
    eapply dn_inj; [exact Hr|done|by apply Hjs|done]. }
  assert (Hext : forall j x, linked t j -> x ∈ xs j -> M' !! x = M !! x).
  { intros j x Hj Hx. specialize (Hrl x). rewrite bool_decide_false in Hrl; [done|].
    intros (j' & -> & Hj')%list_elem_of_fmap. destruct (Hjs j' Hj') as [Hlj _]. by eapply (dn_not_ext _ _ _ _ Hr j' j). }
  assert (Hlk : forall j n, <[d := set_ents l' nd]> t !! j = Some n -> exists n0, t !! j = Some n0 /\ n_link n = n_link n0).
  { intros j n [[<- <-]|[_ Hj]]%lookup_insert_Some; [by exists nd|by exists n]. }
  assert (Hup : forall j, linked t j -> linked (<[d := set_ents l' nd]> t) j).
  { intros j (n & Hj & Hl). destruct (decide (d = j)) as [<-|Hne]; [exists (set_ents l' nd)|exists n].
    - rewrite lookup_insert_eq. simplify_eq. done.
    - by rewrite lookup_insert_ne. }
  destruct (r_node _ _ _ _ Hr d nd Hd) as (hm & Hhm & Hir). simpl in Hhm. assert (hm = hmo) as -> by congruence.
  destruct Hsame as (Hs1 & Hs2 & Hs3 & Hs4).
  split; simpl.
  - eapply relinked_os; [done|done|]. intros k mo (j & -> & Hj)%list_elem_of_fmap Hm. destruct (Hjs j Hj) as [Hlj _].
    destruct (linked_named _ _ _ _ Hr j Hlj) as (? & ? & _ & _ & _ & mo' & ? & Hm' & Hu & _). simpl in Hm'. congruence.
  - destruct (os_obj _ _ _ _ _ Hin Hh) as [? ? Hu Hb]. eapply os_ok_set; [done|done| |done]. split; [congruence|congruence|by rewrite Hs3|].
    intros Hz. pose proof (ir_used _ _ _ _ Hir). congruence.
  - destruct (r_root _ _ _ _ Hr) as (mo & nm & Hm & Hu & Hdd). simpl in Hm. destruct (relinked_lookup _ _ _ _ _ Hrl Hm) as (mo' & Hm' & Hss).
    exists mo', nm. destruct Hss as (_ & _ & -> & ->). done.
  - intros j n [[<- <-]|[Hne Hj]]%lookup_insert_Some.
    + exists hmo'. rewrite lookup_insert_eq. split; [done|]. destruct Hir as [Hu Hdat Hlist]. split; [congruence|by rewrite Hs4|].
      intros _. done.
    + rewrite lookup_insert_ne by done. by apply (r_node _ _ _ _ Hr).
  - intros j mo [[<- <-]|[Hne Hj]]%lookup_insert_Some Hu; [rewrite lookup_insert_eq; by eexists|].
    rewrite lookup_insert_ne by done. by eapply (r_live _ _ _ _ Hr).
  - intros j n d' name (n0 & Hj & Hl)%Hlk Hl2. rewrite Hl in Hl2. destruct (r_name _ _ _ _ Hr j n0 d' name Hj Hl2) as (? & ? & ? & mo & x & Hm & Hu & Hdat & Hc).
    simpl in *. split_and!; try done. destruct (relinked_lookup _ _ _ _ _ Hrl Hm) as (mo' & Hm' & (_ & _ & Hs3' & Hs4')).
    exists mo', x. split_and!; [done|congruence|congruence|]. eapply ext_frame; [done|]. intros y Hy. apply (Hext j); [|done]. exists n0. by rewrite Hl2.
  - intros k mo Hk Hu. apply relinked_sym in Hrl. destruct (relinked_lookup _ _ _ _ _ Hrl Hk) as (mo0 & Hk0 & (_ & _ & Hu0 & _)).
    destruct (r_owned _ _ _ _ Hr k mo0 Hk0) as [|(j & n & Hj & Hl & Hx)]; [congruence|by left|right].
    destruct (Hup j) as (n' & ? & ?); [by exists n|]. by exists j, n'.
  - intros d' n [[<- <-]|[Hne Hj]]%lookup_insert_Some; [done|]. eapply seg_frame; [|by apply (r_seg _ _ _ _ Hr d')].
    intros k (j & -> & Hjn)%list_elem_of_fmap. apply Hnjs; [by eapply (ents_linked _ _ _ _ Hr)|].
    intros Hjj. by eapply (Hoth j d' n); [left| | |].
  - intros d' n [[<- <-]|[Hne Hj]]%lookup_insert_Some; [done|]. by apply (r_nodup _ _ _ _ Hr d').
  - intros d' n j [[<- <-]|[Hne Hj]]%lookup_insert_Some Hjn; apply Hup; [by apply Hl'|by eapply (ents_linked _ _ _ _ Hr)].
  - intros d1 d2 n1 n2 j [[<- <-]|[Hne1 Hj1]]%lookup_insert_Some [[<- <-]|[Hne2 Hj2]]%lookup_insert_Some H1 H2; simpl in *.
    + done.
    + exfalso. by eapply (Hoth j d2 n2); [right| | |].
    + exfalso. by eapply (Hoth j d1 n1); [right| | |].
    + by eapply (r_once _ _ _ _ Hr d1 d2).
  - intros j n (n0 & Hj & Hl)%Hlk Hlj Hloose. rewrite Hl in Hlj. assert (Hlkj : linked t j) by (by exists n0).
    assert (Hjl : j ∉ l') by (apply (Hloose d (set_ents l' nd)), lookup_insert_eq).
    destruct (decide (j ∈ n_ents nd)) as [Hjn|Hjn]; [by apply Hfree|].
    unfold lnk. rewrite Hnjs; [|done|intros Hjs'; destruct (Hjs j Hjs') as [_ [?|?]]; done].
    apply (r_loose _ _ _ _ Hr j n0 Hj Hlj). intros d' nd' Hd'. destruct (decide (d' = d)) as [->|Hne]; [by simplify_eq|].
    apply (Hloose d'). by rewrite lookup_insert_ne.
Qed.

(** The entry of a node that is in no list changes, comes or goes. *)
Lemma rep_entry i nd' k' ys M' an' I' ian' mo' : loose t i ->
  (forall x, foreign t dn xs i x -> M' !! x = M !! x) -> de_ok (MkSet M' an' sh) ->
  (forall x mo, M' !! x = Some mo -> mo_used mo = 1 -> foreign t dn xs i x \/ (is_Some (n_link nd') /\ x ∈ k' :: ys)) ->
  in_ok (MkSet I' ian' ish) -> I' = <[i := mo']> I -> in_rep (<[i := k']> dn) i nd' mo' ->
  (forall d name, n_link nd' = Some (d, name) -> i <> 0 /\ 0 <= d /\ 0 < k' /\ named M' k' i d name ys /\ lnk M' k' 0 0) ->
  n_ents nd' = match t !! i with Some nd => n_ents nd | None => [] end ->
  rep (MkD (MkSet M' an' sh) (MkSet I' ian' ish) c) (<[i := nd']> t) (<[i := k']> dn) (<[i := ys]> xs).
Proof.
  intros Hlo Hfr Hde Hown Hin HI Hir Hnew Hents.
  assert (Hi' : i ∉ n_ents nd'). { rewrite Hents. destruct (t !! i) eqn:Hti; [by apply (Hlo i)|apply not_elem_of_nil]. }
  assert (Hlo' : loose (<[i := nd']> t) i). { intros d nd [[<- <-]|[_ Hd]]%lookup_insert_Some; [done|by eapply Hlo]. }
  assert (Hfor : forall j nd x, j <> i -> t !! j = Some nd -> is_Some (n_link nd) -> x = dn j \/ x ∈ xs j -> foreign t dn xs i x).
  { intros j nd x Hne Hj Hl Hx. right. exists j. split_and!; [done|by exists nd|done]. }
  assert (Hlist : forall d nd j, <[i := nd']> t !! d = Some nd -> j ∈ n_ents nd -> exists d0 nd0, t !! d0 = Some nd0 /\ d0 = d /\ n_ents nd0 = n_ents nd).
  { intros d nd j [[<- <-]|[_ Hd]]%lookup_insert_Some Hj; [|by exists d, nd]. rewrite Hents in *.
    destruct (t !! i) as [n0|] eqn:Hti; [by exists i, n0|by apply elem_of_nil in Hj]. }
  assert (Hch : forall d nd j, <[i := nd']> t !! d = Some nd -> j ∈ n_ents nd -> j <> i /\ linked t j).
  { intros d nd j Hd Hj. destruct (Hlist d nd j Hd Hj) as (d0 & nd0 & Hd0 & _ & He). rewrite <- He in Hj. split.
    - intros ->. by eapply Hlo.
    - by eapply (ents_linked _ _ _ _ Hr). }
  split; simpl; try done.
  - destruct (r_root _ _ _ _ Hr) as (mo & nm & Hm & ?). exists mo, nm. split; [rewrite Hfr; [done|by left]|done].
  - rewrite HI. intros j n [[<- <-]|[Hne Hj]]%lookup_insert_Some; [exists mo'; by rewrite lookup_insert_eq|].
    rewrite lookup_insert_ne by done. destruct (r_node _ _ _ _ Hr j n Hj) as (mo & Hm & Hir'). exists mo. split; [done|].
    apply in_rep_upd; [done| |done]. by eapply Hlo.
  - rewrite HI. intros j mo [[<- <-]|[Hne Hj]]%lookup_insert_Some Hu; [rewrite lookup_insert_eq; by eexists|].
    rewrite lookup_insert_ne by done. by eapply (r_live _ _ _ _ Hr).
  - intros j n d name [[<- <-]|[Hne Hj]]%lookup_insert_Some Hl.
    + rewrite !fn_lookup_insert. destruct (Hnew d name Hl) as (? & ? & ? & ? & _). done.
    + rewrite !fn_lookup_insert_ne by done. destruct (r_name _ _ _ _ Hr j n d name Hj Hl) as (? & ? & ? & Hn). split_and!; try done.
      eapply named_frame; [|done]. intros x Hx. apply Hfr. eapply (Hfor j); [done|done|by rewrite Hl|done].
  - intros k mo Hk Hu. destruct (Hown k mo Hk Hu) as [[->|(j & Hne & (n & Hj & Hl) & Hx)]|[Hl Hx]]; [by left|right|right].
    + exists j, n. rewrite lookup_insert_ne, !fn_lookup_insert_ne by done. done.
    + exists i, nd'. rewrite lookup_insert_eq, !fn_lookup_insert. apply elem_of_cons in Hx. done.
  - intros d n Hd. rewrite fmap_upd by (by eapply Hlo'). destruct (n_ents n) as [|j0 l0] eqn:He; [done|]. rewrite <- He.
    destruct (Hlist d n j0 Hd) as (d0 & nd0 & Hd0 & _ & He0); [rewrite He; left|]. rewrite <- He0.
    eapply seg_frame; [|by apply (r_seg _ _ _ _ Hr d0)]. intros k (j & -> & Hj)%list_elem_of_fmap. rewrite He0 in Hj.
    destruct (Hch d n j Hd Hj) as (Hne & nj & Hnj & Hlj). apply Hfr. eapply (Hfor j); [done|done|done|by left].
  - intros d n Hd. destruct (n_ents n) as [|j0 l0] eqn:He; [constructor|]. rewrite <- He.
    destruct (Hlist d n j0 Hd) as (d0 & nd0 & Hd0 & _ & He0); [rewrite He; left|]. rewrite <- He0. by apply (r_nodup _ _ _ _ Hr d0).
  - intros d n j Hd Hj. destruct (Hch d n j Hd Hj) as (Hne & nj & Hnj & Hlj). exists nj. by rewrite lookup_insert_ne.
  - intros d1 d2 n1 n2 j Hd1 Hd2 Hj1 Hj2. destruct (Hlist d1 n1 j Hd1 Hj1) as (e1 & m1 & He1 & <- & Hm1), (Hlist d2 n2 j Hd2 Hj2) as (e2 & m2 & He2 & <- & Hm2).
    rewrite <- Hm1 in Hj1. rewrite <- Hm2 in Hj2. by eapply (r_once _ _ _ _ Hr e1 e2).
  - intros j n [[<- <-]|[Hne Hj]]%lookup_insert_Some Hl Hlj.
    + rewrite fn_lookup_insert. destruct Hl as [[d name] Hl]. by destruct (Hnew d name Hl) as (_ & _ & _ & _ & ?).
    + rewrite fn_lookup_insert_ne by done. unfold lnk. rewrite Hfr by (by eapply (Hfor j); auto).
      apply (r_loose _ _ _ _ Hr j n Hj Hl). intros d nd Hd. destruct (decide (d = i)) as [->|Hned].
      * specialize (Hlj i nd'). rewrite lookup_insert_eq, Hents, Hd in Hlj. by apply Hlj.
      * apply (Hlj d). by rewrite lookup_insert_ne.
Qed.
End Change.
End Rep.
