(* ===== verification/DirStep.v ===== *)
(** * Steps of the directory operations

    What the parts of [pfs_dir_add], [pfs_dir_del] and [pfs_dir_move] do to
    the namespace the objects represent. *)

From S2P Require Import Prelude Alloc Object Blkio Blktable Inode Dir DirBase DirName DirInv.

Open Scope pfs_scope.

Definition drop_ent (i : Z) (l : list Z) : list Z := filter (fun j => j <> i) l.
Lemma drop_ent_notin i l : i ∉ l -> drop_ent i l = l.
Proof.
  induction l as [|j l IH]; [done|]. intros [Hne Hi]%not_elem_of_cons. unfold drop_ent. rewrite filter_cons_True by done.
  f_equal. by apply IH.
Qed.
Lemma drop_ent_split i l1 l2 : i ∉ l1 -> i ∉ l2 -> drop_ent i (l1 ++ i :: l2) = l1 ++ l2.
Proof.
  intros H1 H2. unfold drop_ent. rewrite filter_app, filter_cons_False by (intros Hn; by apply Hn).
  f_equal; by apply drop_ent_notin.
Qed.
Lemma elem_of_drop_ent i j l : j ∈ drop_ent i l <-> j <> i /\ j ∈ l.
Proof. unfold drop_ent. by rewrite list_elem_of_filter. Qed.

Section Steps.
Context {C : Type} `{NCacheOps C} (mnt : pfs_mount) (now : Z).
Implicit Types (s : dstate C) (t : tree).

(** ** Lists *)
Lemma unlist_ok s t dn xs d nd i (Q : Z -> dstate C -> Prop) : rep s t dn xs -> t !! d = Some nd -> n_type nd = PFS_INODET_DIR -> i ∈ n_ents nd ->
  (forall s', rep s' (<[d := set_ents (drop_ent i (n_ents nd)) nd]> t) dn xs -> ds_nc s' = ds_nc s -> Q 0 s') ->
  runs (pfs_meta_list_delete d (dn i)) s Q.
Proof.
  intros Hr Hd Hty Hi HQ. destruct s as [[M an sh] [I ian ish] c].
  destruct (node_inode _ _ _ _ Hr d nd Hd) as (mo & ino & rest & Hm & Hir & Hdat & Hmt & _). simpl in Hm.
  destruct (ir_list _ _ _ _ Hir Hty) as [Hnx Hpv]. pose proof (r_nodup _ _ _ _ Hr d nd Hd) as Hnd.
  pose proof (denos_nodup _ _ _ _ Hr d nd Hd) as Hnd'. pose proof (denos_pos _ _ _ _ Hr d nd Hd) as H0.
  pose proof (r_seg _ _ _ _ Hr d nd Hd) as Hs. simpl in Hs. pose proof (r_ents _ _ _ _ Hr d nd) as Hl.
  pose proof (fun j d' nd' => r_once _ _ _ _ Hr d d' nd nd' j Hd) as Honce.
  apply list_elem_of_split in Hi as (l1 & l2 & He). rewrite He, fmap_app, fmap_cons in *.
  assert (Hi12 : (i ∉ l1) /\ (i ∉ l2)). { apply NoDup_app in Hnd as (_ & Hn1 & Hn2). apply NoDup_cons in Hn2 as [Hn2 _]. set_solver. }
  eapply list_delete_ok; [eapply (os_numbered _ _ _ (r_de _ _ _ _ Hr))|exact Hm|done|done|done|done|done|done|].
  intros M' I' Hrl Hs' Hlk Hre. apply HQ; [|done]. rewrite drop_ent_split by apply Hi12.
  rewrite <- (fmap_app dn l1 l2) in Hs', Hre. rewrite <- fmap_cons, <- fmap_app in Hrl.
  eapply rep_relist; [done|done|done|done|done|done| | | | |].
  - apply NoDup_app in Hnd as (Hn0 & Hn1 & Hn2). apply NoDup_cons in Hn2 as [_ Hn2]. apply NoDup_app. set_solver.
  - intros j Hj. split; [by apply Hl|left; by rewrite He].
  - intros j Hj. apply Hl; [done|]. set_solver.
  - intros j d' nd' Hj Hd' Hne Hj'. apply Hne. symmetry. eapply (Honce j d' nd'); [done| |done]. set_solver.
  - intros j Hj Hj'. assert (j = i) as -> by (rewrite He in Hj; set_solver). done.
Qed.

Lemma enlist_ok s t dn xs d nd i (Q : Z -> dstate C -> Prop) : rep s t dn xs -> t !! d = Some nd -> n_type nd = PFS_INODET_DIR ->
  linked t i -> loose t i ->
  (forall s', rep s' (<[d := set_ents (n_ents nd ++ [i]) nd]> t) dn xs -> ds_nc s' = ds_nc s -> Q 0 s') ->
  runs (pfs_meta_list_insert d (dn i)) s Q.
Proof.
  intros Hr Hd Hty Hi Hlo HQ. destruct s as [[M an sh] [I ian ish] c].
  destruct (node_inode _ _ _ _ Hr d nd Hd) as (mo & ino & rest & Hm & Hir & Hdat & Hmt & _). simpl in Hm.
  destruct (ir_list _ _ _ _ Hir Hty) as [Hnx Hpv]. destruct Hi as (ni & Hni & Hli).
  assert (Hlk : linked t i) by (by exists ni).
  eapply (list_insert_ok an ian sh ish c M I d (dn i) (dn <$> n_ents nd)).
  - eapply (os_numbered _ _ _ (r_de _ _ _ _ Hr)).
  - exact Hm.
  - done.
  - done.
  - done.
  - apply (r_seg _ _ _ _ Hr d nd Hd).
  - by apply (r_loose _ _ _ _ Hr i ni).
  - rewrite (denos_mem _ _ _ _ Hr d nd i Hd Hlk). by apply (Hlo d nd).
  - by eapply (denos_pos _ _ _ _ Hr).
  - by eapply (denos_nodup _ _ _ _ Hr).
  - intros M' I' Hrl Hs' Hre. apply HQ; [|done]. change (dn i :: (dn <$> n_ents nd)) with (dn <$> (i :: n_ents nd)) in Hrl.
    change [dn i] with (dn <$> [i]) in Hs', Hre. rewrite <- fmap_app in Hs', Hre.
    assert (Hin : forall j, j ∈ i :: n_ents nd -> linked t j) by (intros j [->|Hj]%elem_of_cons; [done|by apply (ents_linked _ _ _ _ Hr d nd)]).
    eapply rep_relist; [done|done|done|done|done|done| | | | |].
    + apply NoDup_app. split_and!; [by apply (r_nodup _ _ _ _ Hr d nd)| |apply NoDup_singleton].
      intros j Hj ->%list_elem_of_singleton. by apply (Hlo d nd).
    + intros j Hj. split; [by apply Hin|]. set_solver.
    + intros j Hj. apply Hin. set_solver.
    + intros j d' nd' Hj Hd' Hne Hj'. destruct (decide (j = i)) as [->|Hji]; [by apply (Hlo d' nd')|].
      apply Hne. eapply (r_once _ _ _ _ Hr d' d nd' nd j); [done|done|done|]. set_solver.
    + intros j Hj Hn. exfalso. apply Hn. set_solver.
Qed.

(** ** Inodes *)
Lemma upd_in_ok s t dn xs i nd g v (Q : unit -> dstate C -> Prop) : rep s t dn xs -> t !! i = Some nd ->
  (forall ino, in_size ino = n_size nd -> in_btime ino = n_btime nd -> in_type (g ino) = in_type ino /\ in_btime (g ino) = in_btime ino /\
    in_deno (g ino) = in_deno ino /\ in_nlink (g ino) = in_nlink ino /\ in_size (g ino) = v) ->
  (forall s', rep s' (<[i := set_size v nd]> t) dn xs -> ds_nc s' = ds_nc s -> Q tt s') -> runs (upd_in i g) s Q.
Proof.
  intros Hr Hi Hg HQ. destruct s as [[M an sh] [I ian ish] c].
  destruct (node_inode _ _ _ _ Hr i nd Hi) as (mo & ino & rest & Hm & Hir & Hdat & Hmt & Hnum & Ht & Hsz & Hb & Hde & Hnl). simpl in Hm.
  eapply runs_upd_in_mo; [done|]. unfold on_in. rewrite Hdat. apply HQ; [|done].
  destruct (Hg ino Hsz Hb) as (Hg1 & Hg2 & Hg3 & Hg4 & Hg5).
  eapply rep_node; [done|done|done|done| |].
  - pose proof (os_obj _ _ _ _ _ (r_in _ _ _ _ Hr) Hm) as [? ? ? ?]. pose proof (ir_used _ _ _ _ Hir).
    eapply os_ok_set; [apply (r_in _ _ _ _ Hr)|exact Hm| |done]. split; [done|done|done|]. simpl. lia.
  - destruct Hir as [Hu _ Hlist]. split; [done| |done]. exists (g ino), rest. simpl. rewrite Hg1, Hg2, Hg3, Hg4. done.
Qed.
Lemma time_ok s t dn xs i nd mode (Q : unit -> dstate C -> Prop) : rep s t dn xs -> t !! i = Some nd ->
  (forall s', rep s' t dn xs -> ds_nc s' = ds_nc s -> Q tt s') -> runs (upd_in i (INPHY_UPDATE_TIME now mode)) s Q.
Proof.
  intros Hr Hi HQ. eapply (upd_in_ok _ _ _ _ i nd _ (n_size nd)); [done|done|done|].
  intros s' Hr'. apply HQ. rewrite insert_id in Hr'; [done|]. by destruct nd.
Qed.
Lemma size_ok s t dn xs i nd (f : Z -> Z) (Q : unit -> dstate C -> Prop) : rep s t dn xs -> t !! i = Some nd ->
  (forall s', rep s' (<[i := set_size (f (n_size nd)) nd]> t) dn xs -> ds_nc s' = ds_nc s -> Q tt s') ->
  runs (upd_in i (fun ino => set_in_size (f (in_size ino)) ino)) s Q.
Proof. intros Hr Hi HQ. eapply (upd_in_ok _ _ _ _ i nd); [done|done| |done]. intros ino <- _. done. Qed.

Lemma runs_node s t dn xs i nd (Q : pfs_inode_phy -> dstate C -> Prop) : rep s t dn xs -> t !! i = Some nd ->
  (forall ino, in_type ino = n_type nd -> in_size ino = n_size nd -> in_btime ino = n_btime nd ->
     in_deno ino = (if i =? 0 then 0 else match n_link nd with Some _ => dn i | None => INVALID_DENO end) ->
     in_nlink ino = (if i =? 0 then 1 else match n_link nd with Some _ => 1 | None => 0 end) -> Q ino s) ->
  runs (pfs_meta_get_inode i) s Q.
Proof.
  intros Hr Hi HQ. destruct (node_inode _ _ _ _ Hr i nd Hi) as (mo & ino & rest & Hm & Hir & Hdat & Hmt & Hnum & Ht & Hsz & Hb & Hde & Hnl).
  eapply runs_get_in; [done|unfold MO2IN; by rewrite Hdat|by apply HQ].
Qed.
Lemma runs_free_inode s t dn xs i (Q : pfs_inode_phy -> dstate C -> Prop) : rep s t dn xs -> is_Some (os_objs (ds_in s) !! i) -> t !! i = None ->
  (forall ino, in_type ino = PFS_INODET_NONE -> Q ino s) -> runs (pfs_meta_get_inode i) s Q.
Proof.
  intros Hr [mo Hm] Hi HQ. destruct (os_obj _ _ _ _ _ (r_in _ _ _ _ Hr) Hm) as [_ _ Hu Hb].
  destruct Hu as [Hu|Hu]; [|destruct (r_live _ _ _ _ Hr i mo Hm Hu); congruence]. destruct (Hb Hu) as (_ & _ & ino & rest & Hdat & Ht & _).
  eapply runs_get_in; [done|unfold MO2IN; by rewrite Hdat|by apply HQ].
Qed.
Lemma runs_node_mo s t dn xs i nd (Q : pfs_metaobj_phy -> dstate C -> Prop) : rep s t dn xs -> t !! i = Some nd ->
  (forall mo, mo_number mo = i -> (n_type nd = PFS_INODET_DIR -> mo_head mo = first (dn <$> n_ents nd)) -> Q mo s) -> runs (in_mo i) s Q.
Proof.
  intros Hr Hi HQ. destruct (node_inode _ _ _ _ Hr i nd Hi) as (mo & ino & rest & Hm & Hir & _ & _ & Hnum & _).
  eapply runs_in_mo; [done|]. apply HQ; [done|]. intros Ht. by apply (ir_list _ _ _ _ Hir).
Qed.

(** ** Entries
    A name that can be stored: the extension entries of a long one need the
    feature of the volume. *)
Definition name_ok (name : list Z) : Prop :=
  bytes_ok name /\ name <> [] /\ (SLASH ∉ name) /\ dotted name = false /\ (forward name = None \/ extname mnt).
Definition names_ok (t : tree) : Prop := forall i nd d name, t !! i = Some nd -> n_link nd = Some (d, name) -> name_ok name.

Lemma named_ext M k i d name ys : named M k i d name ys -> name_ok name -> ys = [] \/ extname mnt.
Proof. intros (mo & x & _ & _ & _ & Hc) (_ & _ & _ & _ & [Hf|Hf]); [left|by right]. rewrite Hf in Hc. by apply ext_null in Hc as [_ ?]. Qed.

Lemma runs_entry s t dn xs i nd d name (Q : pfs_direntry_phy -> dstate C -> Prop) : rep s t dn xs -> t !! i = Some nd -> n_link nd = Some (d, name) ->
  (forall de, de_ino de = i -> de_dirino de = d -> Q de s) -> runs (pfs_meta_get_direntry (dn i)) s Q.
Proof.
  intros Hr Hi Hl HQ. destruct (r_name _ _ _ _ Hr i nd d name Hi Hl) as (_ & _ & _ & mo & x & Hm & _ & Hd & _).
  eapply runs_get_de; [done|unfold MO2DE; by rewrite Hd|by apply HQ].
Qed.
Lemma runs_entry_mo s t dn xs i nd (Q : pfs_metaobj_phy -> dstate C -> Prop) : rep s t dn xs -> t !! i = Some nd -> is_Some (n_link nd) ->
  (forall mo, mo_number mo = dn i -> Q mo s) -> runs (de_mo (dn i)) s Q.
Proof.
  intros Hr Hi [[d name] Hl] HQ. destruct (r_name _ _ _ _ Hr i nd d name Hi Hl) as (_ & _ & _ & mo & x & Hm & _ & Hd & _).
  eapply runs_de_mo; [done|]. apply HQ, (mk_number _ _ _ _ (os_obj _ _ _ _ _ (r_de _ _ _ _ Hr) Hm)).
Qed.
Lemma runs_getname s t dn xs i nd d name (Q : list Z -> dstate C -> Prop) : rep s t dn xs -> t !! i = Some nd -> n_link nd = Some (d, name) ->
  bytes_ok name -> Q name s -> runs (pfs_direntry_getname (dn i)) s Q.
Proof.
  intros Hr Hi Hl Hb HQ. destruct (r_name _ _ _ _ Hr i nd d name Hi Hl) as (_ & _ & _ & Hn). destruct s as [[M an sh] ios c].
  by eapply getname_ok.
Qed.

Lemma in_rep_link dn i k nd v mo : in_rep dn i nd mo -> i <> 0 -> is_Some (n_link nd) -> k = dn i -> i ∉ n_ents nd ->
  in_rep (<[i := k]> dn) i (set_link (Some v) nd) mo.
Proof.
  intros [Hu (ino & rest & Hd & ? & ? & ? & Hde & Hnl) Hl] Hi0 [l Hlk] -> Hni. split; [done| |simpl; by rewrite fmap_upd].
  exists ino, rest. rewrite fn_lookup_insert, Hlk in *. done.
Qed.

(** The name of a node that is in no list is set. *)
Lemma rename_ok s t dn xs i nd d old name (Q : Z -> dstate C -> Prop) : rep s t dn xs -> t !! i = Some nd -> n_link nd = Some (d, old) -> loose t i ->
  name_ok old -> name_ok name ->
  (forall s' dn' xs', rep s' (<[i := set_link (Some (d, name)) nd]> t) dn' xs' -> (forall j, dn' j = dn j) -> ds_nc s' = ds_nc s -> Q 0 s') ->
  (forward name <> None -> forall s', full (os_objs (ds_de s')) -> ds_nc s' = ds_nc s -> Q (- EPFS_FILE_2MANY) s') ->
  runs (pfs_direntry_setname mnt (dn i) name) s Q.
Proof.
  intros Hr Hi Hl Hlo Hold Hnew HQ HE. destruct s as [[M an sh] [I ian ish] c].
  destruct (r_name _ _ _ _ Hr i nd d old Hi Hl) as (Hi0 & Hd0 & Hk & Hnm). pose proof Hnm as (mo & x & Hm & Hu & Hd & Hc). simpl in Hm, Hc, Hnm.
  assert (Hlk : linked t i) by (exists nd; by rewrite Hl).
  destruct (r_loose _ _ _ _ Hr i nd Hi ltac:(by rewrite Hl) Hlo) as (mo2 & Hm2 & Hnx & Hpv). simpl in Hm2. assert (mo2 = mo) as -> by congruence.
  destruct (r_node _ _ _ _ Hr i nd Hi) as (imo & Him & Hir). simpl in Him.
  eapply (setname_ok mnt sh _ c (dn i) mo (piece old) i d x (forward old) (xs i)); try done.
  - apply (r_de _ _ _ _ Hr).
  - apply (sentinel_root _ _ _ _ Hr).
  - unfold INVALID_INO. lia.
  - apply Hnew.
  - destruct Hnew as (_ & _ & _ & _ & [Hf|Hf]); [|by right]. destruct (named_ext _ _ _ _ _ _ Hnm Hold); [by left|by right].
  - split; [|intros Hf M' an' Hfu; by apply HE].
    intros M' an' x' xs' Hos' Hm' Hc' Hrc. apply (HQ _ (<[i := dn i]> dn) (<[i := xs']> xs)); [| |done].
    2:{ intros j. destruct (decide (j = i)) as [->|]; [by rewrite fn_lookup_insert|by rewrite fn_lookup_insert_ne]. }
    assert (HK : forall y, foreign t dn xs i y -> y ∉ dn i :: xs i) by (intros y Hy; by apply (foreign_own _ _ _ _ Hr)).
    apply (rep_entry M I an ian sh ish c t dn xs Hr i _ (dn i) xs' M' an' I ian imo Hlo).
    + by apply (rechained_frame _ _ _ _ Hr i _ _ _ HK Hrc).
    + done.
    + intros y ymo Hy Hyu. destruct (rechained_owned _ _ _ _ Hr i _ _ _ y ymo (fun _ _ h => h) Hrc Hy Hyu) as [|Hy']; [by left|right]. done.
    + apply (r_in _ _ _ _ Hr).
    + by rewrite insert_id.
    + apply in_rep_link; [done..|by rewrite Hl|done|by eapply Hlo].
    + intros d' name' [= <- <-]. split_and!; [done..| |]; [by eexists _, x'|by eexists _].
    + by rewrite Hi.
Qed.

(** The owner of an entry is set; its node may be in a list. *)
Lemma entry_reparent_ok s t dn xs i nd d name d' (Q : unit -> dstate C -> Prop) : rep s t dn xs -> t !! i = Some nd -> n_link nd = Some (d, name) ->
  0 <= d' -> (forall s' , rep s' (<[i := set_link (Some (d', name)) nd]> t) dn xs -> ds_nc s' = ds_nc s -> Q tt s') ->
  runs (upd_de (dn i) (fun de => set_de_owner (de_ino de) d' de)) s Q.
Proof.
  intros Hr Hi Hl Hd' HQ. destruct s as [[M an sh] [I ian ish] c].
  destruct (r_name _ _ _ _ Hr i nd d name Hi Hl) as (Hi0 & Hd0 & Hk & mo & x & Hm & Hu & Hd & Hc). simpl in Hm, Hc.
  eapply runs_upd_de; [done..|]. apply HQ; [|done]. set (mo' := set_mo_data _ _). set (M' := <[dn i := mo']> M).
  assert (Hlk : linked t i) by (exists nd; by rewrite Hl).
  assert (HlM : forall k n p, lnk M k n p -> lnk M' k n p).
  { intros k n p (m & Hk' & Hn). destruct (decide (k = dn i)) as [->|Hne]; [exists mo'|exists m].
    - unfold M'. rewrite lookup_insert_eq. assert (m = mo) as -> by congruence. done.
    - unfold M'. by rewrite lookup_insert_ne. }
  assert (HsM : forall l p n, seg M p l n -> seg M' p l n).
  { induction l as [|k l IH]; intros p n; [done|]. intros [? ?]. split; [by apply HlM|by apply IH]. }
  assert (Hst : forall j n, <[i := set_link (Some (d', name)) nd]> t !! j = Some n ->
    exists n0, t !! j = Some n0 /\ n_ents n = n_ents n0 /\ (is_Some (n_link n) -> is_Some (n_link n0)) /\ (forall m, in_rep dn j n0 m -> in_rep dn j n m)).
  { intros j n [[<- <-]|[_ Hj]]%lookup_insert_Some; [|by exists n]. exists nd. rewrite Hl. split_and!; [done..|].
    intros m [? Hdat ?]. split; [done| |done]. by rewrite Hl in Hdat. }
  assert (Hup : forall j, linked t j -> linked (<[i := set_link (Some (d', name)) nd]> t) j).
  { intros j (n & Hj & Hlj). destruct (decide (i = j)) as [<-|Hne]; [eexists; rewrite lookup_insert_eq; split; [done|by eexists]|].
    exists n. by rewrite lookup_insert_ne. }
  split; simpl.
  - eapply de_ok_set; [apply (r_de _ _ _ _ Hr)|exact Hm|done|done].
  - apply (r_in _ _ _ _ Hr).
  - destruct (r_root _ _ _ _ Hr) as (m & nm & Hm0 & ?). exists m, nm. unfold M'. rewrite lookup_insert_ne by lia. done.
  - intros j n (n0 & Hj & _ & _ & Hin)%Hst. destruct (r_node _ _ _ _ Hr j n0 Hj) as (m & ? & ?). exists m. auto.
  - intros j m Hj Hju. destruct (r_live _ _ _ _ Hr j m Hj Hju) as [n Hn]. apply lookup_insert_is_Some. destruct (decide (i = j)); [by left|right]. by eauto.
  - intros j n d1 name1 [[<- <-]|[Hne Hj]]%lookup_insert_Some Hl1.
    + injection Hl1 as <- <-. split_and!; [done..|]. exists mo', x. unfold M' at 1. rewrite lookup_insert_eq. split_and!; [done..|].
      eapply ext_frame; [done|]. intros y Hy. apply lookup_insert_ne. intros <-. by eapply (dn_not_ext _ _ _ _ Hr i i).
    + destruct (r_name _ _ _ _ Hr j n d1 name1 Hj Hl1) as (? & ? & ? & Hn). split_and!; [done..|]. eapply named_frame; [|done].
      assert (Hlj : linked t j) by (exists n; by rewrite Hl1).
      intros y Hy. apply lookup_insert_ne. intros <-. destruct Hy as [Heq|Hy].
      * apply Hne. by eapply (dn_inj _ _ _ _ Hr).
      * by eapply (dn_not_ext _ _ _ _ Hr i j).
  - intros k m Hk' Hku. destruct (decide (k = dn i)) as [->|Hne].
    + right. eexists i, _. rewrite lookup_insert_eq. split_and!; [done|by eexists|by left].
    + unfold M' in Hk'. rewrite lookup_insert_ne in Hk' by done. destruct (r_owned _ _ _ _ Hr k m Hk' Hku) as [|(j & n & Hj & Hlj & Hx)]; [by left|right].
      destruct (Hup j) as (n' & ? & ?); [by exists n|]. by exists j, n'.
  - intros j n (n0 & Hj & -> & _)%Hst. apply HsM. by apply (r_seg _ _ _ _ Hr j).
  - intros j n (n0 & Hj & -> & _)%Hst. by apply (r_nodup _ _ _ _ Hr j).
  - intros j n e (n0 & Hj & -> & _)%Hst He. apply Hup. by apply (r_ents _ _ _ _ Hr j n0 e).
  - intros j1 j2 n1 n2 e (n0 & Hj & -> & _)%Hst (n0' & Hj' & -> & _)%Hst. by eapply (r_once _ _ _ _ Hr).
  - intros j n (n0 & Hj & _ & Hlj & _)%Hst Hln Hlo. apply HlM. apply (r_loose _ _ _ _ Hr j n0 Hj (Hlj Hln)). intros d1 nd1 Hd1.
    destruct (decide (i = d1)) as [<-|Hne].
    + simplify_eq. specialize (Hlo i). rewrite lookup_insert_eq in Hlo. by apply (Hlo _ eq_refl).
    + apply (Hlo d1). by rewrite lookup_insert_ne.
Qed.

(** A node that is in no list loses its entry. *)
Lemma unlink_ok {T} s t dn xs i nd d name (rest : dio C T) (Q : T -> dstate C -> Prop) : rep s t dn xs -> t !! i = Some nd -> n_link nd = Some (d, name) ->
  loose t i -> name_ok name ->
  (forall s' dn' xs', rep s' (<[i := set_link None nd]> t) dn' xs' -> (forall j, dn' j = dn j) -> ds_nc s' = ds_nc s -> runs rest s' Q) ->
  runs (pfs_direntry_fini mnt (dn i);; pfs_meta_free_direntry (dn i);;
        upd_in i (fun ino => set_in_link INVALID_DENO (in_nlink ino - 1) ino);; rest) s Q.
Proof.
  intros Hr Hi Hl Hlo Hnm HQ. destruct s as [[M an sh] [I ian ish] c].
  destruct (r_name _ _ _ _ Hr i nd d name Hi Hl) as (Hi0 & Hd0 & Hk & Hn). pose proof Hn as (mo & x & Hm & Hu & Hd & Hc). simpl in Hm, Hc, Hn.
  assert (Hlk : linked t i) by (exists nd; by rewrite Hl).
  destruct (r_loose _ _ _ _ Hr i nd Hi ltac:(by rewrite Hl) Hlo) as (mo2 & Hm2 & Hnx & Hpv). simpl in Hm2. assert (mo2 = mo) as -> by congruence.
  destruct (node_inode _ _ _ _ Hr i nd Hi) as (imo & ino & irest & Him & Hir & Hidat & _ & _ & Hit & Hisz & Hib & _ & Hinl). simpl in Him.
  dstep. eapply fini_head; [apply (r_de _ _ _ _ Hr)|apply (sentinel_root _ _ _ _ Hr)|done|exact Hm|done|done|done|unfold INVALID_INO; lia|by eapply named_ext|].
  intros M1 an1 Hos1 Hrc Hm1. set (bmo := set_mo_data _ _) in Hm1.
  destruct (free_common_ok MT_DIRENTRY blank_de M1 an1 sh (dn i) bmo) as (an2 & Hfree & Hos2); [done..|].
  dstep. unfold pfs_meta_free_direntry. dstep. dstep. dstep. eapply runs_lift; [exact Hfree|]. eexists _, _. split; [done|].
  dstep. eapply runs_upd_in_mo; [exact Him|]. unfold on_in. rewrite Hidat. cbn [ds_in ds_nc].
  apply (HQ _ (<[i := dn i]> dn) (<[i := []]> xs)); [| |done].
  2:{ intros j. destruct (decide (j = i)) as [->|]; [by rewrite fn_lookup_insert|by rewrite fn_lookup_insert_ne]. }
  assert (HK : forall y, foreign t dn xs i y -> y ∉ dn i :: xs i) by (intros y Hy; by apply (foreign_own _ _ _ _ Hr)).
  eapply (rep_entry M I an ian sh ish c t dn xs Hr i _ (dn i) [] _ an2 _ ian _ Hlo).
  - intros y Hy. rewrite lookup_insert_ne; [by apply (rechained_frame _ _ _ _ Hr i _ _ _ HK Hrc)|].
    intros <-. apply (HK _ Hy). left.
  - done.
  - intros y ymo [[<- <-]|[Hne Hy]]%lookup_insert_Some Hyu; [done|].
    destruct (rechained_owned _ _ _ _ Hr i _ _ _ y ymo (fun _ _ h => h) Hrc Hy Hyu) as [|Hy']; [by left|]. set_solver.
  - pose proof (os_obj _ _ _ _ _ (r_in _ _ _ _ Hr) Him) as [? ? ? ?]. pose proof (ir_used _ _ _ _ Hir).
    eapply os_ok_set; [apply (r_in _ _ _ _ Hr)|exact Him| |done]. split; [done|done|done|]. simpl. lia.
  - done.
  - destruct Hir as [Hiu _ Hlist]. split; [done| |].
    + eexists _, irest. split; [done|]. simpl. rewrite Hl in Hinl. rewrite (proj2 (Z.eqb_neq i 0)) in * by done. rewrite Hinl. done.
    + simpl. rewrite fmap_upd by (by apply (Hlo i)). done.
  - done.
  - by rewrite Hi.
Qed.

(** *** A new node *)
Lemma runs_alloc_de s (Q : option Z -> dstate C -> Prop) : de_ok (ds_de s) ->
  (forall k mo an, os_objs (ds_de s) !! k = Some mo -> mo_used mo = 0 -> let os := MkSet (<[k := set_mo_used 1 mo]> (os_objs (ds_de s))) an (os_shift (ds_de s)) in
     de_ok os -> Q (Some k) (MkD os (ds_in s) (ds_nc s))) ->
  (forall os, os_objs os = os_objs (ds_de s) -> full (os_objs os) -> Q None (MkD os (ds_in s) (ds_nc s))) ->
  runs pfs_meta_alloc_direntry s Q.
Proof.
  intros Hos HQ HN. destruct s as [[M an sh] ios c]. simpl in *. unfold pfs_meta_alloc_direntry. dstep. dstep. dstep. 
  destruct (alloc_common_ok _ _ M an sh Hos) as (r & [M1 an1 sh1] & Ha & Hos1 & Hsh & Hr). simpl in Hsh, Hr. subst sh1.
  eapply runs_lift; [done|]. dstep. eexists _, _. split; [done|]. cbn [ds_in ds_nc snd fst]. dstep. destruct r as [k|].
  - destruct Hr as (mo & Hm & Hu & ->). by eapply HQ.
  - destruct Hr as [-> Hr]. by apply HN.
Qed.
Lemma runs_alloc_in s (Q : option Z -> dstate C -> Prop) : in_ok (ds_in s) ->
  (forall k mo an, os_objs (ds_in s) !! k = Some mo -> mo_used mo = 0 -> let os := MkSet (<[k := set_mo_used 1 mo]> (os_objs (ds_in s))) an (os_shift (ds_in s)) in
     in_ok os -> Q (Some k) (MkD (ds_de s) os (ds_nc s))) ->
  (forall os, os_objs os = os_objs (ds_in s) -> full (os_objs os) -> Q None (MkD (ds_de s) os (ds_nc s))) ->
  runs pfs_meta_alloc_inode s Q.
Proof.
  intros Hos HQ HN. destruct s as [eos [M an sh] c]. simpl in *. unfold pfs_meta_alloc_inode. dstep. dstep. dstep. 
  destruct (alloc_common_ok _ _ M an sh Hos) as (r & [M1 an1 sh1] & Ha & Hos1 & Hsh & Hr). simpl in Hsh, Hr. subst sh1.
  eapply runs_lift; [done|]. dstep. eexists _, _. split; [done|]. cbn [ds_de ds_nc snd fst]. dstep. destruct r as [k|].
  - destruct Hr as (mo & Hm & Hu & ->). by eapply HQ.
  - destruct Hr as [-> Hr]. by apply HN.
Qed.
Definition new_node (isdir : bool) (d : Z) (name : list Z) : node :=
  MkNd (if isdir then PFS_INODET_DIR else PFS_INODET_FILE) (Some (d, name)) [] 0 now.

Lemma runs_inodephy_init i k (isdir : bool) mo ino rest (I : objs) ian ish eos c (Q : unit -> dstate C -> Prop) : I !! i = Some mo -> mo_data mo = DInode ino rest ->
  in_type ino = PFS_INODET_NONE -> in_nlink ino = 0 -> in_deno ino = INVALID_DENO -> in_pvtid ino = 0 ->
  (forall ino', in_type ino' = (if isdir then PFS_INODET_DIR else PFS_INODET_FILE) -> in_size ino' = 0 -> in_btime ino' = now -> in_deno ino' = k ->
     in_nlink ino' = 1 -> Q tt (MkD eos (MkSet (<[i := set_mo_data (DInode ino' rest) mo]> I) ian ish) c)) ->
  runs (pfs_inodephy_init now i k isdir) (MkD eos (MkSet I ian ish) c) Q.
Proof.
  intros Hm Hd Ht Hn Hdn Hp HQ. unfold pfs_inodephy_init. dstep. eapply runs_get_in; [done|unfold MO2IN; by rewrite Hd|].
  rewrite Ht, Hn, Hdn, Hp, !Z.eqb_refl. do 4 (dstep; dstep; [done|]). eapply runs_upd_in_mo; [done|]. unfold on_in. rewrite Hd. by apply HQ.
Qed.

Lemma new_node_ok s t dn xs k kmo an1 i imo ian1 d name isdir (rest : dio C (Z * Z * Z)) (Q : Z * Z * Z -> dstate C -> Prop) : rep s t dn xs ->
  os_objs (ds_de s) !! k = Some kmo -> mo_used kmo = 0 -> os_objs (ds_in s) !! i = Some imo -> mo_used imo = 0 ->
  let eos := MkSet (<[k := set_mo_used 1 kmo]> (os_objs (ds_de s))) an1 (os_shift (ds_de s)) in
  let ios := MkSet (<[i := set_mo_used 1 imo]> (os_objs (ds_in s))) ian1 (os_shift (ds_in s)) in
  de_ok eos -> in_ok ios -> name_ok name -> is_Some (t !! 0) -> 0 <= d ->
  (forall s' xs', rep s' (<[i := new_node isdir d name]> t) (<[i := k]> dn) xs' -> t !! i = None -> i <> 0 -> loose t i -> ds_nc s' = ds_nc s -> runs rest s' Q) ->
  (forward name <> None -> forall s', full (os_objs (ds_de s')) -> ds_nc s' = ds_nc s -> Q (- EPFS_FILE_2MANY, 0, 0) s') ->
  runs (err ← pfs_direntry_init mnt k d i name;
        if err <? 0 then mret (err, 0, 0) else demo ← de_mo k; pfs_inodephy_init now i (mo_number demo) isdir;; rest)
    (MkD eos ios (ds_nc s)) Q.
Proof.
  destruct s as [[M an sh] [I ian ish] c]. simpl. intros Hr Hk Hku Hi Hiu Hos1 Hin1 Hnm Hroot Hd HQ HE.
  destruct (mk_blank _ _ _ _ (os_obj _ _ _ _ _ (r_de _ _ _ _ Hr) Hk) Hku) as (Hknx & Hkpv & Hkb).
  destruct (mk_blank _ _ _ _ (os_obj _ _ _ _ _ (r_in _ _ _ _ Hr) Hi) Hiu) as (Hinx & Hipv & ino & irest & Hidat & Hit & Hinl & Hideno & Hipv2).
  assert (Hti : t !! i = None).
  { destruct (t !! i) as [nd|] eqn:Hti; [|done]. destruct (r_node _ _ _ _ Hr i nd Hti) as (mo & Hmo & Hir). simpl in Hmo.
    pose proof (ir_used _ _ _ _ Hir). congruence. }
  assert (Hlo : loose t i). { intros d' nd' Hd' Hin. destruct (r_ents _ _ _ _ Hr d' nd' i Hd' Hin) as (? & ? & _). congruence. }
  assert (Hi0 : i <> 0) by (intros ->; destruct Hroot; congruence).
  assert (Hk0 : 0 < k).
  { pose proof (os_range _ _ _ k (r_de _ _ _ _ Hr) ltac:(by eexists)). destruct (sentinel_root _ _ _ _ Hr) as (mo0 & Hm0 & Hu0). simpl in Hm0.
    assert (k <> 0) by (intros ->; congruence). lia. }
  dstep. eapply (init_head mnt sh _ c k (set_mo_used 1 kmo) i d name); [done| |done|apply lookup_insert_eq|done|done|unfold INVALID_INO; lia|apply Hnm|apply Hnm|].
  { destruct (sentinel_root _ _ _ _ Hr) as (mo0 & Hm0 & Hu0). exists mo0. rewrite lookup_insert_ne by lia. done. }
  split; [|intros Hf M' an' Hfu; apply runs_ret; by apply HE].
  intros M' an' x' ys Hos' Hm' Hc' Hrc. simpl. apply (rechained_from _ _ _ _ _ _ _ Hk) in Hrc. dstep. eapply runs_de_mo; [exact Hm'|].
  rewrite (mk_number _ _ _ _ (os_obj _ _ _ _ _ Hos' Hm')). dstep.
  eapply runs_inodephy_init; [apply lookup_insert_eq|exact Hidat|done|done|done|done|]. intros ino' Ht' Hsz' Hb' Hde' Hnl'.
  rewrite insert_insert_eq. eapply (HQ _ (<[i := ys]> xs)); [|done|done|done|done].
  assert (HK : forall y, foreign t dn xs i y -> y ∉ [k]).
  { intros y Hy ->%list_elem_of_singleton. destruct (foreign_used _ _ _ _ Hr i k Hy) as (mo & Hm & Hu). simpl in Hm. congruence. }
  eapply (rep_entry M I an ian sh ish c t dn xs Hr i _ k ys M' an' _ ian1 _ Hlo).
  - by apply (rechained_frame _ _ _ _ Hr i _ _ _ HK Hrc).
  - done.
  - intros y ymo Hy Hyu. destruct (rechained_owned _ _ _ _ Hr i [k] (k :: ys) M' y ymo) as [|Hy']; try done; [|by left|right].
    + intros (nd & ? & _). congruence.
    + split; [by eexists|done].
  - pose proof (os_obj _ _ _ _ _ (r_in _ _ _ _ Hr) Hi) as [? ? ? ?].
    rewrite <- (insert_insert_eq I i _ (set_mo_used 1 imo)). eapply os_ok_set; [exact Hin1|apply lookup_insert_eq| |done]. split; simpl; [done|done|by right|lia].
  - done.
  - split; [done| |done]. exists ino', irest. rewrite (proj2 (Z.eqb_neq i 0)) by done. rewrite fn_lookup_insert. done.
  - intros d' name' [= <- <-]. split_and!; [done..| |]; [by eexists _, x'|by eexists _].
  - by rewrite Hti.
Qed.
End Steps.
