(* ===== verification/DirTree.v ===== *)
(** * Trees of nodes

    What makes a tree of nodes a namespace, the operations on it and that they
    keep it one. *)

From S2P Require Import Prelude Alloc Object Blkio Blktable Inode Dir DirBase DirName DirInv DirStep.

Open Scope pfs_scope.

(** The nodes from [c] up to the root, without the root. *)
Inductive chain (t : tree) : Z -> list Z -> Prop :=
| chain_root : chain t 0 []
| chain_up c nd d name l : t !! c = Some nd -> n_link nd = Some (d, name) -> chain t d l -> chain t c (c :: l).

Definition t_unlist (d i : Z) (t : tree) : tree :=
  alter (fun nd => set_size (wrap64 (n_size nd - METAOBJ_SIZE)) (set_ents (drop_ent i (n_ents nd)) nd)) d t.
Definition t_enlist (d i : Z) (t : tree) : tree :=
  alter (fun nd => set_size (wrap64 (n_size nd + METAOBJ_SIZE)) (set_ents (n_ents nd ++ [i]) nd)) d t.
(** A new node, the end of an entry, another place for an entry, the end of a
    node. *)
Definition t_create (now : Z) (d i : Z) (isdir : bool) (name : list Z) (t : tree) : tree := t_enlist d i (<[i := new_node now isdir d name]> t).
Definition t_remove (d i : Z) (t : tree) : tree := alter (set_link None) i (t_unlist d i t).
Definition t_move (o i n : Z) (name : list Z) (t : tree) : tree := alter (set_link (Some (n, name))) i (t_enlist n i (t_unlist o i t)).

Section Tree.
Context (mnt : pfs_mount).

(** The size of a directory; that of the root does not count the paxos file
    and the journal. *)
Definition dir_size (d : Z) (nents : nat) : Z := wrap64 (METAOBJ_SIZE * Z.of_nat nents - (if d =? 0 then 2 * METAOBJ_SIZE else 0)).

Record tree_ok (t : tree) : Prop := {
  to_root : exists nd, t !! 0 = Some nd /\ n_type nd = PFS_INODET_DIR /\ n_link nd = None;
  to_type : forall i nd, t !! i = Some nd -> n_type nd = PFS_INODET_FILE \/ n_type nd = PFS_INODET_DIR;
  to_ents : forall d nd c, t !! d = Some nd -> c ∈ n_ents nd -> exists nc name, t !! c = Some nc /\ n_link nc = Some (d, name);
  to_link : forall c nc d name, t !! c = Some nc -> n_link nc = Some (d, name) ->
    exists nd, t !! d = Some nd /\ n_type nd = PFS_INODET_DIR /\ c ∈ n_ents nd;
  to_nodup : forall d nd, t !! d = Some nd -> NoDup (n_ents nd);
  to_name : names_ok mnt t;
  to_unique : forall c c' nc nc' l, t !! c = Some nc -> t !! c' = Some nc' -> n_link nc = Some l -> n_link nc' = Some l -> c = c';
  to_chain : forall c nc, t !! c = Some nc -> is_Some (n_link nc) -> exists l, chain t c l;
  to_size : forall d nd, t !! d = Some nd -> n_type nd = PFS_INODET_DIR -> n_size nd = dir_size d (length (n_ents nd)) }.

(** The root and the nodes with an entry. *)
Definition attached (t : tree) (i : Z) : Prop := i = 0 \/ linked t i.
Definition child (t : tree) (d : Z) (name : list Z) (i : Z) : Prop := exists nd, t !! i = Some nd /\ n_link nd = Some (d, name).

Lemma lookup_alter_cases (f : node -> node) i (t : tree) j n : alter f i t !! j = Some n ->
  exists n0, t !! j = Some n0 /\ n = if decide (i = j) then f n0 else n0.
Proof. destruct (decide (i = j)) as [->|Hne]; [rewrite lookup_alter_eq|rewrite lookup_alter_ne by done]; [intros (n0 & ? & ?)%fmap_Some|]; by eauto. Qed.
Lemma lookup_alter_to (f : node -> node) i (t : tree) j n0 : t !! j = Some n0 -> alter f i t !! j = Some (if decide (i = j) then f n0 else n0).
Proof. intros Hj. destruct (decide (i = j)) as [->|Hne]; [rewrite lookup_alter_eq|rewrite lookup_alter_ne by done]; by rewrite Hj. Qed.

(** ** Chains *)
Lemma chain_mono t t' c l : (forall j nd, j ∈ l -> t !! j = Some nd -> exists nd', t' !! j = Some nd' /\ n_link nd' = n_link nd) ->
  chain t c l -> chain t' c l.
Proof.
  intros Hf. induction 1 as [|c nd d name l Hc Hl _ IH]; [constructor|]. destruct (Hf c nd) as (nd' & Hc' & Hl'); [left|done|].
  eapply chain_up; [done|by rewrite Hl'|]. apply IH. intros j n Hj. apply Hf. by right.
Qed.
Lemma chain_child t c l i : chain t c l -> i ∈ l -> i = c \/ exists name j, child t i name j.
Proof.
  induction 1 as [|c nd d name l Hc Hl Hch IH]; [by intros ?%elem_of_nil|]. intros [->|Hi]%elem_of_cons; [by left|right].
  destruct (IH Hi) as [->|(nm & j & Hj)]; [exists name, c; by exists nd|by exists nm, j].
Qed.
Lemma chain_mem t c l i : chain t c l -> i ∈ l -> linked t i /\ exists l', chain t i l' /\ (length l' <= length l)%nat.
Proof.
  induction 1 as [|c nd d name l Hc Hl Hch IH]; [by intros ?%elem_of_nil|]. intros [->|Hi]%elem_of_cons.
  - split; [exists nd; by rewrite Hl|]. exists (c :: l). split; [by eapply chain_up|done].
  - destruct (IH Hi) as (? & l' & ? & ?). split; [done|]. exists l'. split; [done|simpl; lia].
Qed.
Lemma chain_unique t c l l' : (forall nd, t !! 0 = Some nd -> n_link nd = None) -> chain t c l -> chain t c l' -> l = l'.
Proof.
  intros H0 Hch. revert l'. induction Hch as [|c nd d name l Hc Hl Hch IH]; inversion 1; subst; try (exfalso; naive_solver congruence); [done|].
  f_equal. simplify_eq. by apply IH.
Qed.
Lemma chain_nodup t c l : (forall nd, t !! 0 = Some nd -> n_link nd = None) -> chain t c l -> NoDup l.
Proof.
  intros H0. induction 1 as [|c nd d name l Hc Hl Hch IH]; [constructor|]. apply NoDup_cons. split; [|done].
  intros Hin. destruct (chain_mem _ _ _ _ Hch Hin) as (_ & l' & Hl' & Hle).
  assert (Heq : c :: l = l') by (eapply chain_unique; [done|by eapply chain_up|done]). subst l'. simpl in Hle. lia.
Qed.
Section Facts.
Context (t : tree) (Hok : tree_ok t).
Lemma root_link nd : t !! 0 = Some nd -> n_link nd = None.
Proof. intros H0. destruct (to_root _ Hok) as (nd' & ? & _ & ?). congruence. Qed.
Lemma attached_chain i : attached t i -> exists l, chain t i l.
Proof. intros [->|(nd & Hi & Hl)]; [exists []; constructor|by eapply to_chain]. Qed.
Lemma link_neq c d name : child t d name c -> c <> d.
Proof.
  intros (nd & Hc & Hl) ->. destruct (to_chain _ Hok d nd Hc) as [l Hch]; [by rewrite Hl|].
  pose proof (chain_nodup _ _ _ root_link Hch) as Hnd. inversion Hch as [|? nd' d' nm l' Hc' Hl' Hch']; subst.
  - apply root_link in Hc. congruence.
  - simplify_eq. inversion Hch' as [|? ? ? ? l'' ]; subst; [apply root_link in Hc; congruence|].
    apply NoDup_cons in Hnd as [Hnd _]. apply Hnd. left.
Qed.
Lemma attached_parent c d name : child t d name c -> attached t d.
Proof.
  intros (nd & Hc & Hl). destruct (to_chain _ Hok c nd Hc) as [l Hch]; [by rewrite Hl|].
  inversion Hch as [|? nd' d' nm l' Hc' Hl' Hch']; subst; [apply root_link in Hc; congruence|]. simplify_eq.
  inversion Hch' as [|? n1 ? ? ? H1 H2]; subst; [by left|right]. exists n1. by rewrite H2.
Qed.

Lemma dir_size_add d n : wrap64 (dir_size d n + METAOBJ_SIZE) = dir_size d (n + 1).
Proof. unfold dir_size, wrap64. rewrite Zplus_mod_idemp_l. f_equal. unfold METAOBJ_SIZE. destruct (d =? 0); lia. Qed.
Lemma dir_size_sub d n : (0 < n)%nat -> wrap64 (dir_size d n - METAOBJ_SIZE) = dir_size d (n - 1).
Proof. intros Hn. unfold dir_size, wrap64. rewrite Zminus_mod_idemp_l. f_equal. unfold METAOBJ_SIZE. destruct (d =? 0); lia. Qed.
Lemma length_drop_ent i l : NoDup l -> i ∈ l -> length (drop_ent i l) = (length l - 1)%nat.
Proof.
  intros Hnd (l1 & l2 & ->)%list_elem_of_split. apply NoDup_app in Hnd as (_ & H1 & H2). apply NoDup_cons in H2 as [H2 _].
  rewrite drop_ent_split by set_solver. rewrite !length_app. simpl. lia.
Qed.
Lemma nodup_drop_ent i l : NoDup l -> NoDup (drop_ent i l).
Proof. intros. by apply NoDup_filter. Qed.

(** ** A new node *)
Lemma create_ok_tree now d nd i isdir name : t !! d = Some nd -> n_type nd = PFS_INODET_DIR -> attached t d -> t !! i = None -> name_ok mnt name ->
  (forall c, ~ child t d name c) -> tree_ok (t_create now d i isdir name t).
Proof.
  intros Hd Hty Hatt Hi Hnm Hno. assert (Hdi : i <> d) by congruence.
  assert (Hi0 : i <> 0) by (destruct (to_root _ Hok) as (? & ? & _); congruence).
  assert (Hlo : forall e ne, t !! e = Some ne -> i ∉ n_ents ne).
  { intros e ne He Hin. destruct (to_ents _ Hok e ne i He Hin) as (? & ? & ? & _). congruence. }
  set (nd1 := set_size (wrap64 (n_size nd + METAOBJ_SIZE)) (set_ents (n_ents nd ++ [i]) nd)).
  assert (Ht : t_create now d i isdir name t = <[d := nd1]> (<[i := new_node now isdir d name]> t)).
  { unfold t_create, t_enlist. apply map_eq. intros j. destruct (decide (j = d)) as [->|Hne].
    - rewrite lookup_alter_eq, lookup_insert_eq, lookup_insert_ne by done. by rewrite Hd.
    - by rewrite lookup_alter_ne, (lookup_insert_ne _ d) by done. }
  set (t' := t_create now d i isdir name t) in *.
  assert (Hin : forall j n, t' !! j = Some n -> (j = i /\ n = new_node now isdir d name) \/ exists n0, t !! j = Some n0 /\ n_link n = n_link n0 /\ n_type n = n_type n0 /\
      (j = d /\ n_ents n = n_ents n0 ++ [i] /\ n_size n = wrap64 (n_size n0 + METAOBJ_SIZE) \/ n = n0)).
  { rewrite Ht. intros j n [[<- <-]|[Hne [[<- <-]|[Hne' Hj]]%lookup_insert_Some]]%lookup_insert_Some; [right; exists nd; split_and!; [done..|by left]|by left|right; exists n; split_and!; [done..|by right]]. }
  assert (Hup : forall j n, t !! j = Some n -> exists n', t' !! j = Some n' /\ n_link n' = n_link n /\ n_type n' = n_type n /\ (forall x, x ∈ n_ents n -> x ∈ n_ents n')).
  { rewrite Ht. intros j n Hj. destruct (decide (j = d)) as [->|Hne].
    - rewrite lookup_insert_eq. exists nd1. simplify_eq. split_and!; try done. intros x Hx. simpl. set_solver.
    - rewrite lookup_insert_ne, lookup_insert_ne by congruence. by exists n. }
  assert (Hnew : t' !! i = Some (new_node now isdir d name)) by (rewrite Ht, lookup_insert_ne, lookup_insert_eq; done).
  assert (Hchain : forall c l, chain t c l -> chain t' c l).
  { intros c l. apply chain_mono. intros j n _ Hj. destruct (Hup j n Hj) as (n' & ? & ? & _). by exists n'. }
  split.
  - destruct (to_root _ Hok) as (r & Hr & Hrt & Hrl). destruct (Hup 0 r Hr) as (r' & ? & ? & ? & _). exists r'. split_and!; congruence.
  - intros j n [[-> ->]|(n0 & Hj & _ & Htn & _)]%Hin; [destruct isdir; by auto|]. rewrite Htn. by apply (to_type _ Hok j).
  - intros e ne c [[-> ->]|(n0 & Hj & _ & _ & Hents)]%Hin Hc; [by apply elem_of_nil in Hc|].
    assert (Hcase : c ∈ n_ents n0 \/ (c = i /\ e = d)). { destruct Hents as [(-> & He & _)| ->]; [rewrite He in Hc; set_solver|by left]. }
    destruct Hcase as [Hc'|[-> ->]].
    + destruct (to_ents _ Hok e n0 c Hj Hc') as (nc & nm & Hnc & Hl). destruct (Hup c nc Hnc) as (nc' & ? & ? & _). exists nc', nm. split; congruence.
    + by exists (new_node now isdir d name), name.
  - intros c nc e nm [[-> ->]|(n0 & Hj & Hl & _)]%Hin Hlk.
    + injection Hlk as <- <-. rewrite Ht, lookup_insert_eq. exists nd1. split_and!; [done..|]. simpl. set_solver.
    + rewrite Hl in Hlk. destruct (to_link _ Hok c n0 e nm Hj Hlk) as (ne & He & Hte & Hce). destruct (Hup e ne He) as (ne' & ? & ? & ? & Hsub).
      exists ne'. split_and!; [done|congruence|by apply Hsub].
  - intros e ne [[-> ->]|(n0 & Hj & _ & _ & [(-> & -> & _)| ->])]%Hin; [constructor| |by apply (to_nodup _ Hok e)].
    apply NoDup_app. split_and!; [by apply (to_nodup _ Hok d)| |apply NoDup_singleton]. intros x Hx ->%list_elem_of_singleton. by eapply Hlo.
  - intros c nc e nm [[-> ->]|(n0 & Hj & Hl & _)]%Hin Hlk; [by injection Hlk as _ <-|]. rewrite Hl in Hlk. by eapply (to_name _ Hok).
  - intros c c' nc nc' [e nm] [[-> ->]|(n0 & Hj & Hl & _)]%Hin [[-> ->]|(n0' & Hj' & Hl' & _)]%Hin H1 H2; [done| | |].
    + injection H1 as <- <-. destruct (Hno c'). exists n0'. split; congruence.
    + injection H2 as <- <-. destruct (Hno c). exists n0. split; congruence.
    + eapply (to_unique _ Hok c c'); [done|done|rewrite <- Hl; done|congruence].
  - intros c nc [[-> ->]|(n0 & Hj & Hl & _)]%Hin Hlk.
    + destruct (attached_chain d Hatt) as [l Hch]. exists (i :: l). eapply chain_up; [done|done|by apply Hchain].
    + rewrite Hl in Hlk. destruct (to_chain _ Hok c n0 Hj Hlk) as [l Hch]. exists l. by apply Hchain.
  - intros e ne [[-> ->]|(n0 & Hj & _ & Htn & [(-> & He & Hsz)| ->])]%Hin Hte.
    + unfold dir_size, new_node. simpl. by rewrite (proj2 (Z.eqb_neq i 0)).
    + rewrite Hsz, He, length_app, (to_size _ Hok d n0 Hj) by congruence. simpl. apply dir_size_add.
    + by apply (to_size _ Hok e).
Qed.

(** ** The end of an entry *)
Definition cut (d i j : Z) (nd : node) : node :=
  if decide (d = j) then set_size (wrap64 (n_size nd - METAOBJ_SIZE)) (set_ents (drop_ent i (n_ents nd)) nd) else nd.
Lemma cut_link d i j nd : n_link (cut d i j nd) = n_link nd.
Proof. unfold cut. by destruct (decide _). Qed.
Lemma cut_type d i j nd : n_type (cut d i j nd) = n_type nd.
Proof. unfold cut. by destruct (decide _). Qed.
Lemma cut_ents d i name j nd x : child t d name i -> t !! j = Some nd -> x ∈ n_ents (cut d i j nd) <-> x <> i /\ x ∈ n_ents nd.
Proof.
  intros (ni & Hi & Hl) Hj. unfold cut. destruct (decide (d = j)) as [->|Hne]; [apply elem_of_drop_ent|]. split; [|tauto]. intros Hx. split; [|done].
  intros ->. destruct (to_ents _ Hok j nd i Hj Hx) as (? & ? & ? & ?). simplify_eq.
Qed.
Lemma cut_size d i name j nd : child t d name i -> t !! j = Some nd -> n_type nd = PFS_INODET_DIR ->
  n_size (cut d i j nd) = dir_size j (length (n_ents (cut d i j nd))).
Proof.
  intros (ni & Hi & Hl) Hj Hty. unfold cut. destruct (decide (d = j)) as [->|Hne]; simpl; [|by apply (to_size _ Hok)].
  destruct (to_link _ Hok i ni j name Hi Hl) as (nd' & ? & _ & Hin). simplify_eq.
  rewrite (to_size _ Hok j nd Hj Hty), length_drop_ent by (done || by apply (to_nodup _ Hok j)). apply dir_size_sub. destruct (n_ents nd); [by apply elem_of_nil in Hin|simpl; lia].
Qed.
Lemma cut_nodup d i j nd : t !! j = Some nd -> NoDup (n_ents (cut d i j nd)).
Proof. intros Hj. pose proof (to_nodup _ Hok j nd Hj). unfold cut. destruct (decide _); [by apply nodup_drop_ent|done]. Qed.
Lemma lookup_unlist d i j : t_unlist d i t !! j = cut d i j <$> t !! j.
Proof.
  unfold t_unlist, cut. destruct (decide (d = j)) as [->|Hne]; [by rewrite lookup_alter_eq|]. rewrite lookup_alter_ne by done.
  by destruct (t !! j).
Qed.

Lemma remove_ok_tree d name i ni : t !! i = Some ni -> n_link ni = Some (d, name) -> n_ents ni = [] -> tree_ok (t_remove d i t).
Proof.
  intros Hi Hl He. assert (Hch : child t d name i) by (by exists ni). pose proof (link_neq _ _ _ Hch) as Hid.
  assert (Hi0 : i <> 0) by (intros ->; apply root_link in Hi; congruence).
  assert (Hin : forall j n, t_remove d i t !! j = Some n -> exists n0, t !! j = Some n0 /\ n = (if decide (i = j) then set_link None (cut d i j n0) else cut d i j n0)).
  { intros j n (n1 & Hj & ->)%lookup_alter_cases. rewrite lookup_unlist in Hj. apply fmap_Some in Hj as (n0 & ? & ->). by exists n0. }
  assert (Hup : forall j n, t !! j = Some n -> t_remove d i t !! j = Some (if decide (i = j) then set_link None (cut d i j n) else cut d i j n)).
  { intros j n Hj. apply lookup_alter_to. by rewrite lookup_unlist, Hj. }
  assert (Hlk : forall j n0 l, n_link (if decide (i = j) then set_link None (cut d i j n0) else cut d i j n0) = Some l -> i <> j /\ n_link n0 = Some l).
  { intros j n0 l. destruct (decide (i = j)); [done|]. by rewrite cut_link. }
  assert (Hen : forall j n0, n_ents (if decide (i = j) then set_link None (cut d i j n0) else cut d i j n0) = n_ents (cut d i j n0)) by (intros j n0; by destruct (decide _)).
  assert (Hty : forall j n0, n_type (if decide (i = j) then set_link None (cut d i j n0) else cut d i j n0) = n_type n0) by (intros j n0; destruct (decide _); apply cut_type).
  split.
  - destruct (to_root _ Hok) as (r & Hr & Hrt & Hrl). eexists. split; [by apply Hup|]. rewrite Hty. split; [done|]. rewrite decide_False by done. by rewrite cut_link.
  - intros j n (n0 & Hj & ->)%Hin. rewrite Hty. by apply (to_type _ Hok j).
  - intros e ne c (n0 & Hj & ->)%Hin. rewrite Hen. intros [Hci Hc]%(cut_ents d i name); [|done|done].
    destruct (to_ents _ Hok e n0 c Hj Hc) as (nc & nm & Hnc & Hlc). eexists _, nm. split; [by apply Hup|]. rewrite decide_False by done. by rewrite cut_link.
  - intros c nc e nm (n0 & Hj & ->)%Hin [Hne Hlc]%Hlk. destruct (to_link _ Hok c n0 e nm Hj Hlc) as (ne & Hne' & Hte & Hce).
    eexists. split; [by apply Hup|]. rewrite Hty, Hen, (cut_ents d i name) by done. done.
  - intros e ne (n0 & Hj & ->)%Hin. rewrite Hen. by apply cut_nodup.
  - intros c nc e nm (n0 & Hj & ->)%Hin [Hne Hlc]%Hlk. by eapply (to_name _ Hok).
  - intros c c' nc nc' l (n0 & Hj & ->)%Hin (n0' & Hj' & ->)%Hin [_ H1]%Hlk [_ H2]%Hlk. by eapply (to_unique _ Hok).
  - intros c nc (n0 & Hj & ->)%Hin [l0 [Hne Hlc]%Hlk]. destruct (to_chain _ Hok c n0 Hj) as [l Hcl]; [by rewrite Hlc|]. exists l.
    eapply chain_mono; [|done]. intros j n Hjl Hjn. eexists. split; [by apply Hup|]. rewrite decide_False; [apply cut_link|]. intros <-.
    destruct (chain_child _ _ _ _ Hcl Hjl) as [?|(nm & k & nk & Hk & Hlk')]; [done|].
    destruct (to_link _ Hok k nk i nm Hk Hlk') as (? & ? & _ & Hin'). simplify_eq. rewrite He in Hin'. by apply elem_of_nil in Hin'.
  - intros e ne (n0 & Hj & ->)%Hin. rewrite Hty, Hen. intros Hte. rewrite <- (cut_size d i name e n0) by done. by destruct (decide _).
Qed.

(** ** Another place for an entry *)
Definition paste (n i j : Z) (nd : node) : node :=
  if decide (n = j) then set_size (wrap64 (n_size nd + METAOBJ_SIZE)) (set_ents (n_ents nd ++ [i]) nd) else nd.
Definition relink (i : Z) (l : Z * list Z) (j : Z) (nd : node) : node := if decide (i = j) then set_link (Some l) nd else nd.
Definition moved (o i n : Z) (name : list Z) (j : Z) (nd : node) : node := relink i (n, name) j (paste n i j (cut o i j nd)).
Lemma lookup_move o i n name j : t_move o i n name t !! j = moved o i n name j <$> t !! j.
Proof.
  unfold t_move, t_enlist, moved, relink, paste. destruct (decide (i = j)) as [->|Hij]; [rewrite lookup_alter_eq|rewrite lookup_alter_ne by done];
    (destruct (decide (n = j)) as [->|Hnj]; [rewrite lookup_alter_eq|rewrite lookup_alter_ne by done]); rewrite lookup_unlist; by destruct (t !! j).
Qed.
Lemma moved_type o i n name j nd : n_type (moved o i n name j nd) = n_type nd.
Proof. unfold moved, relink, paste. destruct (decide _), (decide _); simpl; apply cut_type. Qed.
Lemma moved_link o i n name j nd : n_link (moved o i n name j nd) = if decide (i = j) then Some (n, name) else n_link nd.
Proof. unfold moved, relink, paste. destruct (decide _); [done|]. destruct (decide _); simpl; apply cut_link. Qed.
Lemma moved_ents o i n name j nd : n_ents (moved o i n name j nd) = if decide (n = j) then n_ents (cut o i j nd) ++ [i] else n_ents (cut o i j nd).
Proof. unfold moved, relink, paste. by destruct (decide _), (decide _). Qed.
Lemma moved_size o i n name j nd : n_size (moved o i n name j nd) = if decide (n = j) then wrap64 (n_size (cut o i j nd) + METAOBJ_SIZE) else n_size (cut o i j nd).
Proof. unfold moved, relink, paste. by destruct (decide _), (decide _). Qed.

Lemma move_chain o old i n name ni ln : t !! i = Some ni -> n_link ni = Some (o, old) -> chain t n ln -> i ∉ ln ->
  forall c l, chain t c l -> exists l', chain (t_move o i n name t) c l'.
Proof.
  intros Hi Hl Hn Hin. assert (Hkeep : forall c l, chain t c l -> i ∉ l -> chain (t_move o i n name t) c l).
  { intros c l Hc Hil. eapply chain_mono; [|done]. intros j nd Hj Hjn. eexists. rewrite lookup_move, Hjn. split; [done|].
    rewrite moved_link, decide_False; [done|]. by intros ->. }
  induction 1 as [|c nd d nm l Hc Hlc Hch IH]; [exists []; constructor|]. destruct (decide (i = c)) as [<-|Hne].
  - exists (i :: ln). eapply chain_up; [by rewrite lookup_move, Hc| |by apply Hkeep]. by rewrite moved_link, decide_True.
  - destruct IH as [l' Hl']. exists (c :: l'). eapply chain_up; [by rewrite lookup_move, Hc| |done]. by rewrite moved_link, decide_False.
Qed.

Lemma move_ok_tree o old i ni n nn ln name : t !! i = Some ni -> n_link ni = Some (o, old) -> t !! n = Some nn -> n_type nn = PFS_INODET_DIR ->
  chain t n ln -> i ∉ ln -> name_ok mnt name -> (forall c, child t n name c -> c = i) -> tree_ok (t_move o i n name t).
Proof.
  intros Hi Hl Hn Htn Hln Hiln Hnm Hno. assert (Hch : child t o old i) by (by exists ni).
  assert (Hi0 : i <> 0) by (intros ->; apply root_link in Hi; congruence).
  assert (Hin : forall j x, t_move o i n name t !! j = Some x -> exists x0, t !! j = Some x0 /\ x = moved o i n name j x0).
  { intros j x Hj. rewrite lookup_move in Hj. by apply fmap_Some in Hj. }
  assert (Hup : forall j x, t !! j = Some x -> t_move o i n name t !! j = Some (moved o i n name j x)) by (intros j x Hj; by rewrite lookup_move, Hj).
  assert (Hlk : forall j x l, n_link (moved o i n name j x) = Some l -> j = i /\ l = (n, name) \/ i <> j /\ n_link x = Some l).
  { intros j x l. rewrite moved_link. destruct (decide (i = j)) as [->|]; [intros [= <-]; by left|by right]. }
  assert (Hen : forall j x c, t !! j = Some x -> c ∈ n_ents (moved o i n name j x) <-> (c <> i /\ c ∈ n_ents x) \/ (c = i /\ j = n)).
  { intros j x c Hj. rewrite moved_ents. destruct (decide (n = j)) as [->|Hnj]; [rewrite elem_of_app, list_elem_of_singleton|]; rewrite (cut_ents o i old) by done; naive_solver. }
  split.
  - destruct (to_root _ Hok) as (r & Hr & Hrt & Hrl). eexists. split; [by apply Hup|]. rewrite moved_type, moved_link, decide_False by done. done.
  - intros j x (x0 & Hj & ->)%Hin. rewrite moved_type. by apply (to_type _ Hok j).
  - intros e ne c (x0 & Hj & ->)%Hin. rewrite Hen by done. intros [[Hci Hc]|[-> ->]].
    + destruct (to_ents _ Hok e x0 c Hj Hc) as (nc & nm & Hnc & Hlc). eexists _, nm. split; [by apply Hup|]. by rewrite moved_link, decide_False.
    + eexists _, name. split; [by apply Hup|]. by rewrite moved_link, decide_True.
  - intros c nc e nm (x0 & Hj & ->)%Hin [[-> [= -> ->]]|[Hne Hlc]]%Hlk.
    + eexists. split; [by apply Hup|]. rewrite moved_type, Hen by done. auto.
    + destruct (to_link _ Hok c x0 e nm Hj Hlc) as (ne & Hne' & Hte & Hce). eexists. split; [by apply Hup|]. rewrite moved_type, Hen by done. auto.
  - intros e ne (x0 & Hj & ->)%Hin. rewrite moved_ents. destruct (decide _); [|by apply cut_nodup].
    apply NoDup_app. split_and!; [by apply cut_nodup| |apply NoDup_singleton]. intros c Hc ->%list_elem_of_singleton.
    by apply (cut_ents o i old) in Hc as [? _].
  - intros c nc e nm (x0 & Hj & ->)%Hin [[-> [= -> ->]]|[Hne Hlc]]%Hlk; [done|]. by eapply (to_name _ Hok).
  - intros c c' nc nc' l (x0 & Hj & ->)%Hin (x0' & Hj' & ->)%Hin [[-> ->]|[Hne1 H1]]%Hlk [[-> H2]|[Hne2 H2]]%Hlk.
    + done.
    + symmetry. apply Hno. by exists x0'.
    + subst l. apply Hno. by exists x0.
    + by eapply (to_unique _ Hok).
  - intros c nc (x0 & Hj & ->)%Hin [l Hlc].
    assert (Hlx : is_Some (n_link x0)). { apply Hlk in Hlc as [[-> _]|[_ Hlc]]; [simplify_eq; by rewrite Hl|by rewrite Hlc]. }
    destruct (to_chain _ Hok c x0 Hj Hlx) as [lc Hlc']. by eapply move_chain.
  - intros e ne (x0 & Hj & ->)%Hin. rewrite moved_type, moved_size, moved_ents. intros Hte. destruct (decide _).
    + rewrite (cut_size o i old e x0), length_app by done. apply dir_size_add.
    + by apply (cut_size o i old).
Qed.

(** ** The end of a node *)
Lemma orphan_empty i ni : t !! i = Some ni -> n_link ni = None -> i <> 0 -> n_ents ni = [].
Proof.
  intros Hi Hl Hi0. destruct (n_ents ni) as [|c l] eqn:E; [done|]. destruct (to_ents _ Hok i ni c Hi) as (nc & nm & Hc & Hlc); [rewrite E; left|].
  destruct (attached_parent c i nm) as [?|(n & ? & [? ?])]; [by exists nc|done|]. congruence.
Qed.
Lemma delete_ok_tree i ni : t !! i = Some ni -> n_link ni = None -> i <> 0 -> tree_ok (delete i t).
Proof.
  intros Hi Hl Hi0. pose proof (orphan_empty i ni Hi Hl Hi0) as He.
  assert (Hin : forall j n, delete i t !! j = Some n -> j <> i /\ t !! j = Some n) by (intros j n [? ?]%lookup_delete_Some; done).
  assert (Hlk : forall j n l, t !! j = Some n -> n_link n = Some l -> j <> i) by (intros j n l Hj Hlj ->; congruence).
  assert (Hup : forall j n, j <> i -> t !! j = Some n -> delete i t !! j = Some n) by (intros; by rewrite lookup_delete_ne).
  split.
  - destruct (to_root _ Hok) as (r & ? & ? & ?). exists r. split_and!; [by apply Hup|done..].
  - intros j n [_ Hj]%Hin. by apply (to_type _ Hok j).
  - intros d nd c [_ Hd]%Hin Hc. destruct (to_ents _ Hok d nd c Hd Hc) as (nc & nm & Hnc & Hlc). exists nc, nm. split; [|done]. apply Hup; [|done]. by eapply Hlk.
  - intros c nc d nm [_ Hc]%Hin Hlc. destruct (to_link _ Hok c nc d nm Hc Hlc) as (nd & Hd & Htd & Hcd). exists nd. split_and!; [|done..].
    apply Hup; [|done]. intros ->. simplify_eq. rewrite He in Hcd. by apply elem_of_nil in Hcd.
  - intros d nd [_ Hd]%Hin. by apply (to_nodup _ Hok d).
  - intros c nc d nm [_ Hc]%Hin. by apply (to_name _ Hok c).
  - intros c c' nc nc' l [_ Hc]%Hin [_ Hc']%Hin. by apply (to_unique _ Hok).
  - intros c nc [_ Hc]%Hin Hlc. destruct (to_chain _ Hok c nc Hc Hlc) as [l Hch]. exists l. eapply chain_mono; [|done].
    intros j n Hj Hjn. destruct (chain_mem _ _ _ _ Hch Hj) as [(n' & Hn' & [lk Hlk']) _]. exists n. split; [|done]. apply Hup; [|done]. by eapply Hlk.
  - intros d nd [_ Hd]%Hin. by apply (to_size _ Hok d).
Qed.
End Facts.
End Tree.
