(* ===== verification/DirOps.v ===== *)
(** * The directory operations on the namespace

    Each operation of pfs_dir.cc returns, with the result the namespace
    calls for, and leaves objects that represent the new namespace. *)

From S2P Require Import Prelude Alloc Object Blkio Blktable Inode Dir DirBase DirName DirInv DirStep DirTree.

Open Scope pfs_scope.

(** ** What the name cache promises
    Its entries: parent, name, inode and directory entry. *)
Class NCacheLaws (C : Type) `{NCacheOps C} := {
  ncache_inv : C -> Prop;
  ncache_has : C -> Z -> list Z -> Z -> Z -> Prop;
  nl_delete : forall deno c, ncache_inv c -> exists c', ncache_delete_by_deno deno c = Some c' /\ ncache_inv c' /\
    forall p n i k, ncache_has c' p n i k -> ncache_has c p n i k /\ k <> deno;
  nl_lookup : forall p n c, ncache_inv c -> dotted n = false -> exists r c', ncache_lookup p n c = Some (r, c') /\ ncache_inv c' /\
    (forall p n i k, ncache_has c' p n i k -> ncache_has c p n i k) /\
    match r with inl ino => exists k, ncache_has c p n ino k | inr err => err = - ENOENT end;
  nl_enter : forall p i n k c, ncache_inv c -> (forall i' k', ncache_has c p n i' k' -> i' = i /\ k' = k) ->
    (forall p' n' i', ncache_has c p' n' i' k -> p' = p /\ n' = n) ->
    exists c', ncache_enter p i n k c = Some c' /\ ncache_inv c' /\
      forall p' n' i' k', ncache_has c' p' n' i' k' -> ncache_has c p' n' i' k' \/ (p' = p /\ n' = n /\ i' = i /\ k' = k) }.

(** The cache holds entries of the namespace only. *)
Definition coherent {C} `{NCacheLaws C} (c : C) (t : tree) (dn : Z -> Z) : Prop :=
  ncache_inv c /\ forall p n i k, ncache_has c p n i k -> child t p n i /\ dn i = k.

Lemma alter_insert_eq (f : node -> node) d nd (t : tree) : t !! d = Some nd -> alter f d t = <[d := f nd]> t.
Proof.
  intros Hd. apply map_eq. intros j. destruct (decide (d = j)) as [->|Hne].
  - by rewrite lookup_alter_eq, lookup_insert_eq, Hd.
  - by rewrite lookup_alter_ne, lookup_insert_ne.
Qed.

Definition check_dir (t : tree) (d : Z) : Z :=
  match t !! d with Some nd => if n_type nd =? PFS_INODET_DIR then 0 else - ENOTDIR | None => - ENOENT end.

Section Ops.
Context {C : Type} `{NCacheLaws C} (mnt : pfs_mount) (mnt_pbdname : list Z) (now : Z).
Implicit Types (s : dstate C) (t : tree).

Abbreviation ino_ok s i := (is_Some (os_objs (ds_in s) !! i)).

Lemma dir_check_ok s t dn xs d (Q : Z -> dstate C -> Prop) : rep s t dn xs -> tree_ok mnt t -> ino_ok s d -> Q (check_dir t d) s -> runs (dir_check d) s Q.
Proof.
  intros Hr Hok Hd HQ. unfold dir_check, check_dir in *. dstep. destruct (t !! d) as [nd|] eqn:Htd.
  - eapply runs_node; [done..|]. intros ino Ht _ _ _ _. rewrite Ht. destruct (to_type _ _ Hok d nd Htd) as [E|E]; rewrite E in *; by apply runs_ret.
  - eapply runs_free_inode; [done..|]. intros ino Ht. rewrite Ht. by apply runs_ret.
Qed.
Lemma check_dir_ok t d : (check_dir t d <? 0) = false -> exists nd, t !! d = Some nd /\ n_type nd = PFS_INODET_DIR.
Proof. unfold check_dir. destruct (t !! d) as [nd|]; [|done]. destruct (n_type nd =? PFS_INODET_DIR) eqn:E; [|done]. intros _. bool_prop. by exists nd. Qed.
Lemma ino_range s t dn xs i nd : rep s t dn xs -> t !! i = Some nd -> 0 <= i < 2 ^ 63.
Proof. intros Hr Hi. destruct (r_node _ _ _ _ Hr i nd Hi) as (mo & Hm & _). eapply os_range; [apply (r_in _ _ _ _ Hr)|by eexists]. Qed.
Lemma deno_range s t dn xs i : rep s t dn xs -> linked t i -> 0 < dn i < 2 ^ 63.
Proof.
  intros Hr Hi. destruct (linked_named _ _ _ _ Hr i Hi) as (d & nm & _ & _ & Hp & mo & x & Hm & _). split; [done|].
  eapply os_range; [apply (r_de _ _ _ _ Hr)|by eexists].
Qed.

Lemma dir_add_ok s t dn xs d name isdir (Q : Z * Z * Z -> dstate C -> Prop) : rep s t dn xs -> tree_ok mnt t -> ino_ok s d -> name_ok mnt name ->
  (check_dir t d < 0 -> Q (check_dir t d, 0, 0) s) ->
  (forall s' i dn' xs', check_dir t d = 0 -> t !! i = None -> rep s' (t_create now d i isdir name t) dn' xs' -> (forall j, j <> i -> dn' j = dn j) ->
     ds_nc s' = ds_nc s -> Q (0, i, now) s') ->
  (forall s', check_dir t d = 0 -> ds_nc s' = ds_nc s -> full (os_objs (ds_de s')) \/ full (os_objs (ds_in s')) -> Q (- EPFS_FILE_2MANY, 0, 0) s') ->
  runs (pfs_dir_add mnt now d name isdir) s Q.
Proof.
  intros Hr Hok Hd Hnm HE HQ HF. unfold pfs_dir_add. dstep. eapply dir_check_ok; [done..|].
  destruct (check_dir t d <? 0) eqn:Hchk; [apply runs_ret, HE; by bool_prop|].
  destruct (check_dir_ok t d Hchk) as (nd & Htd & Hty).
  assert (Hc0 : check_dir t d = 0) by (unfold check_dir; by rewrite Htd, Hty). pose proof (ino_range _ _ _ _ _ _ Hr Htd) as Hdr.
  dstep. apply runs_alloc_de; [apply (r_de _ _ _ _ Hr)| |].
  2:{ intros os _ Hfull. dstep. apply runs_alloc_in; [apply (r_in _ _ _ _ Hr)|..]; intros; apply runs_ret, HF; by auto. }
  intros k kmo an1 Hk Hku eos Heos. dstep. apply runs_alloc_in; [apply (r_in _ _ _ _ Hr)| |].
  2:{ intros os _ Hfull. apply runs_ret, HF; by auto. }
  intros i imo ian1 Hi Hiu ios Hios. dstep. eapply runs_in_mo; [apply lookup_insert_eq|]. cbn [mo_number set_mo_used].
  rewrite (mk_number _ _ _ _ (os_obj _ _ _ _ _ (r_in _ _ _ _ Hr) Hi)).
  eapply (new_node_ok mnt now s t dn xs k kmo an1 i imo ian1); try done.
  { destruct (to_root _ _ Hok) as (? & ? & _). by eexists. }
  { lia. }
  2:{ intros _ s' Hfull Hnc. apply HF; [done|done|by left]. }
  intros s1 xs1 Hr1 Hti Hi0 Hlo Hnc1. assert (Hdi : d <> i) by congruence.
  assert (Htd1 : <[i := new_node now isdir d name]> t !! d = Some nd) by (by rewrite lookup_insert_ne).
  dstep. rewrite <- (fn_lookup_insert dn i k). eapply (enlist_ok _ _ _ _ d nd); [done|done|done| | |].
  { exists (new_node now isdir d name). rewrite lookup_insert_eq. split; [done|by eexists]. }
  { intros d' nd' [[<- <-]|[_ Hd']]%lookup_insert_Some; [apply not_elem_of_nil|by eapply Hlo]. }
  intros s2 Hr2 Hnc2. cbn [Z.ltb Z.compare]. dstep. eapply (size_ok _ _ _ _ d _ (fun v => wrap64 (v + METAOBJ_SIZE))); [exact Hr2|apply lookup_insert_eq|]. rewrite insert_insert_eq. intros s3 Hr3 Hnc3.
  assert (Hi3 : forall x, <[d := x]> (<[i := new_node now isdir d name]> t) !! i = Some (new_node now isdir d name)) by (intros; by rewrite lookup_insert_ne, lookup_insert_eq).
  dstep. eapply time_ok; [exact Hr3|apply lookup_insert_eq|]. intros s4 Hr4 Hnc4.
  dstep. eapply time_ok; [exact Hr4|apply Hi3|]. intros s5 Hr5 Hnc5.
  dstep. eapply (upd_in_ok _ _ _ _ i (new_node now isdir d name) _ 0); [exact Hr5|apply Hi3|done|]. intros s6 Hr6 Hnc6. apply runs_ret.
  eapply HQ; [done|done| | |congruence].
  - rewrite insert_id in Hr6 by apply Hi3. unfold t_create, t_enlist. rewrite (alter_insert_eq _ d nd) by done. exact Hr6.
  - intros j Hj. by rewrite fn_lookup_insert_ne.
Qed.

(** ** Removal *)
Lemma rep_nc s t dn xs (c : C) : rep s t dn xs -> rep (MkD (ds_de s) (ds_in s) c) t dn xs.
Proof. intros []. by split. Qed.
(** The cache forgets the entry of [i]. *)
Lemma runs_forget s t dn xs i (Q : unit -> dstate C -> Prop) : rep s t dn xs -> coherent (ds_nc s) t dn ->
  (forall c : C, coherent c t dn -> (forall p n j k, ncache_has c p n j k -> k <> dn i) -> rep (MkD (ds_de s) (ds_in s) c) t dn xs -> Q tt (MkD (ds_de s) (ds_in s) c)) ->
  runs (pfs_namecache_delete (dn i)) s Q.
Proof.
  intros Hr [Hinv Hc] HQ. destruct (nl_delete (dn i) _ Hinv) as (c' & Hdel & Hinv' & Hhas). unfold pfs_namecache_delete.
  dstep. dstep. dstep. eapply runs_lift; [done|]. eexists _, _. split; [done|]. apply HQ; [|intros p n j k Hk; by apply Hhas in Hk as [_ ?]|by apply rep_nc].
  split; [done|]. intros p n j k Hk. apply Hhas in Hk as [Hk _]. by apply Hc.
Qed.
(** A cache without the entry of [i] fits every tree that differs in [i]. *)
Lemma coherent_other (c : C) t t' dn dn' i : coherent c t dn -> (forall p n j k, ncache_has c p n j k -> k <> dn i) ->
  (forall j nd, j <> i -> t !! j = Some nd -> exists nd', t' !! j = Some nd' /\ n_link nd' = n_link nd) -> (forall j, j <> i -> dn' j = dn j) -> coherent c t' dn'.
Proof.
  intros [Hinv Hc] Hno Ht Hdn. split; [done|]. intros p n j k Hk. destruct (Hc p n j k Hk) as [(nd & Hj & Hl) Hdj].
  assert (Hne : j <> i) by (intros ->; by apply Hno in Hk). destruct (Ht j nd Hne Hj) as (nd' & Hj' & Hl').
  split; [exists nd'; by rewrite Hl'|]. by rewrite Hdn.
Qed.

Definition del_err (t : tree) (d i : Z) (isdir : bool) : Z :=
  if check_dir t d <? 0 then check_dir t d else
  match t !! i with
  | None => - ENOENT
  | Some nd =>
      if isdir then if negb (n_type nd =? PFS_INODET_DIR) then - ENOTDIR else if bool_decide (n_ents nd = []) then 0 else - ENOTEMPTY
      else if negb (n_type nd =? PFS_INODET_FILE) then - EISDIR else 0
  end.
Lemma first_denos s t dn xs d nd : rep s t dn xs -> t !! d = Some nd -> (first (dn <$> n_ents nd) =? 0) = bool_decide (n_ents nd = []).
Proof.
  intros Hr Hd. pose proof (ents_linked _ _ _ _ Hr d nd) as Hl. destruct (n_ents nd) as [|c l]; [done|].
  rewrite bool_decide_false by done. apply Z.eqb_neq. unfold first. simpl.
  destruct (linked_named _ _ _ _ Hr c) as (? & ? & _ & _ & ? & _); [apply Hl; [done|left]|]. lia.
Qed.
Lemma file_ents t i nd : tree_ok mnt t -> t !! i = Some nd -> n_type nd <> PFS_INODET_DIR -> n_ents nd = [].
Proof.
  intros Hok Hi Hty. destruct (n_ents nd) as [|c l] eqn:E; [done|]. destruct (to_ents _ _ Hok i nd c Hi) as (nc & nm & Hc & Hl); [rewrite E; left|].
  destruct (to_link _ _ Hok c nc i nm Hc Hl) as (? & ? & ? & _). congruence.
Qed.
Lemma remove_lookup t d i ni nd : t !! d = Some nd -> t !! i = Some ni -> d <> i ->
  t_remove d i t = <[i := set_link None ni]> (<[d := set_size (wrap64 (n_size nd - METAOBJ_SIZE)) (set_ents (drop_ent i (n_ents nd)) nd)]> t).
Proof.
  intros Hd Hi Hne. unfold t_remove, t_unlist. rewrite (alter_insert_eq _ d nd) by done. rewrite (alter_insert_eq _ i ni); [done|]. by rewrite lookup_insert_ne.
Qed.

Lemma dir_unlink_ok s t dn xs d i ni nm onm (Q : Z -> dstate C -> Prop) : rep s t dn xs -> tree_ok mnt t -> coherent (ds_nc s) t dn ->
  t !! i = Some ni -> n_link ni = Some (d, nm) -> (onm = None \/ onm = Some nm) -> n_ents ni = [] ->
  (forall s' dn' xs', rep s' (t_remove d i t) dn' xs' -> coherent (ds_nc s') (t_remove d i t) dn' -> (forall j, dn' j = dn j) -> Q 0 s') ->
  runs (pfs_namecache_delete (dn i);;
        err ← pfs_meta_list_delete d (dn i);
        if err <? 0 then mret err else
        upd_in d (fun i => set_in_size (wrap64 (in_size i - METAOBJ_SIZE)) i);;
        match onm with
        | Some name => nm ← pfs_direntry_getname (dn i); assert_ (bool_decide (name = nm))
        | None => mret tt
        end;;
        pfs_direntry_fini mnt (dn i);;
        pfs_meta_free_direntry (dn i);;
        upd_in i (fun i => set_in_link INVALID_DENO (in_nlink i - 1) i);;
        dein ← pfs_meta_get_inode i;
        assert_ (in_nlink dein =? 0);;
        mret 0) s Q.
Proof.
  intros Hr Hok Hco Hi Hl Honm He HQ. assert (Hch : child t d nm i) by (by exists ni). pose proof (link_neq _ _ Hok _ _ _ Hch) as Hid.
  destruct (to_link _ _ Hok i ni d nm Hi Hl) as (nd & Hd & Hty & Hin).
  assert (Hnm : name_ok mnt nm) by apply (to_name _ _ Hok i ni d nm Hi Hl).
  assert (Hi0 : i <> 0) by (intros ->; apply (root_link _ _ Hok) in Hi; congruence).
  dstep. eapply runs_forget; [done..|]. intros c1 Hc1 Hno Hr1. dstep. eapply unlist_ok; [exact Hr1|done..|]. intros s2 Hr2 Hnc2. cbn [Z.ltb Z.compare].
  dstep. eapply (size_ok _ _ _ _ d _ (fun v => wrap64 (v - METAOBJ_SIZE))); [exact Hr2|apply lookup_insert_eq|]. rewrite insert_insert_eq. intros s3 Hr3 Hnc3.
  set (nd1 := set_size _ _) in Hr3. assert (Hi3 : <[d := nd1]> t !! i = Some ni) by (by rewrite lookup_insert_ne).
  assert (Hlo : loose (<[d := nd1]> t) i).
  { intros d' nd' [[<- <-]|[Hne Hd']]%lookup_insert_Some Hin'; [by apply elem_of_drop_ent in Hin' as [? _]|].
    destruct (to_ents _ _ Hok d' nd' i Hd' Hin') as (? & ? & ? & ?). simplify_eq. }
  dstep. assert (Hname : forall Q' : unit -> dstate C -> Prop, Q' tt s3 -> runs (match onm with
        | Some name => nm ← pfs_direntry_getname (dn i); assert_ (bool_decide (name = nm)) | None => mret tt end : dio C unit) s3 Q').
  { intros Q' HQ'. destruct Honm as [->| ->]; [by apply runs_ret|]. dstep. eapply runs_getname; [exact Hr3|done|done|apply Hnm|]. apply runs_assert; [by apply bool_decide_true|done]. }
  apply Hname. eapply unlink_ok; [exact Hr3|done..|]. intros s4 dn4 xs4 Hr4 Hdn Hnc4.
  dstep. eapply (runs_node _ _ _ _ i); [exact Hr4|apply lookup_insert_eq|]. intros ino _ _ _ _ Hnl. rewrite (proj2 (Z.eqb_neq i 0)) in Hnl by done.
  dstep. dstep; [by rewrite Hnl|]. apply runs_ret.
  assert (Heq : t_remove d i t = <[i := set_link None ni]> (<[d := nd1]> t)) by exact (remove_lookup t d i ni nd Hd Hi (not_eq_sym Hid)). rewrite <- Heq in Hr4. eapply HQ; [exact Hr4| |done].
  rewrite Hnc4, Hnc3, Hnc2. eapply coherent_other; [exact Hc1|done| |auto]. intros j n Hne Hj.
  rewrite Heq, lookup_insert_ne by done. destruct (decide (d = j)) as [<-|Hdj].
  - rewrite lookup_insert_eq. eexists. split; [done|]. by simplify_eq.
  - rewrite lookup_insert_ne by done. by exists n.
Qed.

Lemma dir_del_ok s t dn xs d i onm isdir (Q : Z -> dstate C -> Prop) : rep s t dn xs -> tree_ok mnt t -> coherent (ds_nc s) t dn -> ino_ok s d -> ino_ok s i ->
  (forall ni, t !! i = Some ni -> exists nm, n_link ni = Some (d, nm) /\ (onm = None \/ onm = Some nm)) ->
  (del_err t d i isdir < 0 -> Q (del_err t d i isdir) s) ->
  (forall s' dn' xs', del_err t d i isdir = 0 -> rep s' (t_remove d i t) dn' xs' -> coherent (ds_nc s') (t_remove d i t) dn' -> (forall j, dn' j = dn j) -> Q 0 s') ->
  runs (pfs_dir_del mnt d i onm isdir) s Q.
Proof.
  intros Hr Hok Hco Hd Hi Hlink HE HQ. unfold pfs_dir_del. dstep. eapply dir_check_ok; [done..|]. unfold del_err in *.
  destruct (check_dir t d <? 0) eqn:Hchk; [bool_prop; apply runs_ret; by auto|]. dstep. destruct (t !! i) as [ni|] eqn:Hti.
  2:{ eapply runs_free_inode; [done..|]. intros ino ->. apply runs_ret. by apply HE. }
  destruct (Hlink ni eq_refl) as (nm & Hl & Honm). assert (Hlk : linked t i) by (exists ni; by rewrite Hl).
  pose proof (deno_range _ _ _ _ _ Hr Hlk) as Hdn.
  assert (Hi0 : i <> 0) by (intros ->; apply (root_link _ _ Hok) in Hti; congruence).
  eapply runs_node; [done..|]. intros ino Ht _ _ Hde _. rewrite Hl, (proj2 (Z.eqb_neq i 0)) in Hde by done. rewrite Ht, Hde.
  rewrite (proj2 (Z.eqb_neq (n_type ni) PFS_INODET_NONE)) by (destruct (to_type _ _ Hok i ni Hti) as [E|E]; by rewrite E).
  dstep. eapply runs_node_mo; [done..|]. intros mo Hnum Hhead. cbn zeta.
  assert (Herr : (if isdir then if negb (n_type ni =? PFS_INODET_DIR) then - ENOTDIR else if negb (mo_head mo =? 0) then - ENOTEMPTY else 0
     else if negb (n_type ni =? PFS_INODET_FILE) then - EISDIR else 0) =
     (if isdir then if negb (n_type ni =? PFS_INODET_DIR) then - ENOTDIR else if bool_decide (n_ents ni = []) then 0 else - ENOTEMPTY
      else if negb (n_type ni =? PFS_INODET_FILE) then - EISDIR else 0)).
  { destruct isdir; [|done]. destruct (n_type ni =? PFS_INODET_DIR) eqn:E; [|done]. bool_prop. simpl.
    rewrite (Hhead E), (first_denos _ _ _ _ i ni Hr Hti). by destruct (bool_decide _). }
  rewrite Herr. set (err := if isdir then _ else _) in *. destruct (err <? 0) eqn:Hlt; [bool_prop; apply runs_ret; by auto|].
  assert (He : n_ents ni = [] /\ err = 0).
  { unfold err in *. destruct isdir.
    - destruct (n_type ni =? PFS_INODET_DIR) eqn:E; [|done]. simpl in *. case_bool_decide; [by split|done].
    - destruct (n_type ni =? PFS_INODET_FILE) eqn:E; [|done]. bool_prop. split; [|done]. by eapply file_ents; [| |rewrite E]. }
  destruct He as [He Herr0]. clear Herr. dstep. dstep.
  { apply negb_true_iff, Z.eqb_neq. unfold INVALID_DENO. lia. }
  dstep. eapply runs_entry; [done..|]. intros de Hdei _. rewrite Hdei. pose proof (ino_range _ _ _ _ _ _ Hr Hti).
  rewrite (proj2 (Z.eqb_neq i INVALID_INO)) by (unfold INVALID_INO; lia).
  assert (Hhd : (n_type ni =? PFS_INODET_DIR) && negb (mo_head mo =? 0) = false).
  { destruct (n_type ni =? PFS_INODET_DIR) eqn:E; [|done]. bool_prop. by rewrite (Hhead E), (first_denos _ _ _ _ i ni Hr Hti), He. }
  rewrite Hhd. dstep. dstep; [by apply Z.eqb_refl|]. dstep. eapply runs_entry_mo; [done|done|by rewrite Hl|]. intros demo ->.
  eapply dir_unlink_ok; try done. intros s' dn' xs' ? ? ?. by eapply HQ.
Qed.

(** ** The way up *)
Lemma runs_info s t dn xs d nd p nm (Q : Z * Z * list Z -> dstate C -> Prop) : rep s t dn xs -> t !! d = Some nd -> n_type nd = PFS_INODET_DIR ->
  n_link nd = Some (p, nm) -> Q (0, p, []) s -> runs (pfs_dir_info d None) s Q.
Proof.
  intros Hr Hd Hty Hl HQ. assert (Hlk : linked t d) by (exists nd; by rewrite Hl). pose proof (deno_range _ _ _ _ _ Hr Hlk) as Hdn.
  destruct (r_name _ _ _ _ Hr d nd p nm Hd Hl) as (Hd0 & _). unfold pfs_dir_info. rewrite (proj2 (Z.eqb_neq d 0)) by done.
  dstep. eapply runs_node; [done..|]. intros ino Ht _ _ Hde _. rewrite Hl, (proj2 (Z.eqb_neq d 0)) in Hde by done. rewrite Ht, Hty, Hde, Z.eqb_refl. cbn [negb].
  rewrite (proj2 (Z.eqb_neq (dn d) INVALID_DENO)) by (unfold INVALID_DENO; lia).
  dstep. eapply runs_entry_mo; [done|done|by rewrite Hl|]. intros mo Hmo. dstep. eapply runs_entry; [done..|]. intros de Hdi Hdd.
  dstep. dstep; [by apply Z.eqb_eq|]. dstep. dstep; [by apply Z.eqb_eq|]. apply runs_ret. by rewrite Hdd.
Qed.
Lemma subdir_loop_ok s t dn xs i d l : rep s t dn xs -> tree_ok mnt t -> i <> 0 -> chain t d l -> forall n nd (Q : Z * Z -> dstate C -> Prop), t !! d = Some nd ->
  n_type nd = PFS_INODET_DIR -> (length l <= n)%nat -> Q (0, if decide (i ∈ l) then i else 0) s -> runs (subdir_loop n d i) s Q.
Proof.
  intros Hr Hok Hi0. induction 1 as [|c nc d nm l Hc Hl Hch IH]; intros n nd Q Hd Hty Hn HQ.
  - rewrite decide_False in HQ by apply not_elem_of_nil. destruct n; by apply runs_ret.
  - assert (nc = nd) as -> by congruence. pose proof (ino_range _ _ _ _ _ _ Hr Hd) as Hrg. destruct (r_name _ _ _ _ Hr c nd d nm Hd Hl) as (Hc0 & _).
    destruct (to_link _ _ Hok c nd d nm Hd Hl) as (np & Hp & Htp & _).
    assert (Hg : (c >? 0) = true) by (apply Z.gtb_lt; lia). destruct n as [|n]; [simpl in Hn; lia|]. cbn [subdir_loop]. rewrite Hg. cbn [andb].
    destruct (Z.eqb_spec c i) as [->|Hne]; cbn [negb].
    + apply runs_ret. by rewrite decide_True in HQ by left.
    + dstep. eapply runs_info; [done..|]. cbn [Z.ltb Z.compare]. dstep. dstep; [done|]. eapply IH; [done|done|simpl in Hn; lia|].
      destruct (decide (i ∈ l)) as [Hin|Hin]; [by rewrite decide_True in HQ by (by right)|]. rewrite decide_False in HQ; [done|]. set_solver.
Qed.
Lemma chain_size s t dn xs d l : rep s t dn xs -> tree_ok mnt t -> chain t d l -> (length l <= size (os_objs (ds_in s)))%nat.
Proof.
  intros Hr Hok Hch. rewrite <- size_dom, <- (size_list_to_set (C := gset Z)) by (eapply chain_nodup; [by apply (root_link _ _ Hok)|done]).
  apply subseteq_size. intros c Hc. apply elem_of_list_to_set in Hc. destruct (chain_mem _ _ _ _ Hch Hc) as [(nd & Hnd & _) _].
  destruct (r_node _ _ _ _ Hr c nd Hnd) as (mo & ? & _). apply elem_of_dom. by eexists.
Qed.
Lemma rename_check_ok s t dn xs i ni n nn l (Q : Z -> dstate C -> Prop) : rep s t dn xs -> tree_ok mnt t -> i <> 0 -> t !! i = Some ni -> chain t n l ->
  t !! n = Some nn -> n_type nn = PFS_INODET_DIR ->
  Q (if decide (n_type ni = PFS_INODET_DIR /\ i ∈ l) then - EINVAL else 0) s -> runs (rename_check i n) s Q.
Proof.
  intros Hr Hok Hi0 Hi Hch Hn Htn HQ. unfold rename_check. dstep. eapply runs_node; [done..|]. intros ino Ht _ _ _ _. rewrite Ht.
  destruct (Z.eqb_spec (n_type ni) PFS_INODET_DIR) as [Hty|Hty].
  - dstep. dstep. dstep. eapply (subdir_loop_ok s t dn xs i n l); [done..|by eapply chain_size|]. cbn [Z.ltb Z.compare].
    destruct (decide (i ∈ l)) as [Hin|Hin].
    + rewrite Z.eqb_refl. apply runs_ret. by rewrite decide_True in HQ.
    + rewrite (proj2 (Z.eqb_neq 0 i)) by done. dstep. dstep; [done|]. apply runs_ret. rewrite decide_False in HQ; [done|]. by intros [_ ?].
  - apply runs_ret. rewrite decide_False in HQ; [done|]. by intros [? _].
Qed.

(** ** Moving *)
Lemma move_lookup t o i n name no nn ni : t !! o = Some no -> t !! i = Some ni -> o <> i -> n <> i ->
  let t1 := <[o := set_size (wrap64 (n_size no - METAOBJ_SIZE)) (set_ents (drop_ent i (n_ents no)) no)]> t in
  t1 !! n = Some nn ->
  t_move o i n name t = <[i := set_link (Some (n, name)) ni]> (<[n := set_size (wrap64 (n_size nn + METAOBJ_SIZE)) (set_ents (n_ents nn ++ [i]) nn)]> t1).
Proof.
  intros Ho Hi Hoi Hni t1 Hn. unfold t_move, t_enlist, t_unlist. rewrite (alter_insert_eq _ o no) by done. fold t1.
  rewrite (alter_insert_eq _ n nn) by done. rewrite (alter_insert_eq _ i ni); [done|]. rewrite lookup_insert_ne by done. unfold t1. by rewrite lookup_insert_ne.
Qed.
Lemma dir_move_ok s t dn xs o i ni old n name (Q : Z -> dstate C -> Prop) : rep s t dn xs -> tree_ok mnt t -> coherent (ds_nc s) t dn ->
  t !! i = Some ni -> n_link ni = Some (o, old) -> check_dir t n = 0 -> n <> i -> name_ok mnt name ->
  (forall s' dn' xs', rep s' (t_move o i n name t) dn' xs' -> coherent (ds_nc s') (t_move o i n name t) dn' -> Q 0 s') ->
  (forall s', full (os_objs (ds_de s')) -> coherent (ds_nc s') t dn -> Q (- EPFS_FILE_2MANY) s') ->
  runs (pfs_dir_move mnt now o (dn i) n name) s Q.
Proof.
  intros Hr Hok Hco Hi Hl Hcn Hni Hnm HQ HF. assert (Hch : child t o old i) by (by exists ni). pose proof (link_neq _ _ Hok _ _ _ Hch) as Hio.
  destruct (to_link _ _ Hok i ni o old Hi Hl) as (no & Ho & Hto & Hin). destruct (check_dir_ok t n) as (nn0 & Hn0 & Htn0); [by rewrite Hcn|].
  pose proof (to_name _ _ Hok i ni o old Hi Hl) as Hold. assert (Hlk : linked t i) by (exists ni; by rewrite Hl).
  unfold pfs_dir_move. dstep. eapply (runs_node _ _ _ _ o); [done..|]. intros oino Hot _ _ _ _. dstep. eapply (runs_node _ _ _ _ n); [done..|]. intros nino Hnt _ _ _ _.
  dstep. dstep; [by rewrite Hot, Hto|]. dstep. dstep; [by rewrite Hnt, Htn0|]. dstep. eapply runs_entry; [done..|]. intros de Hdi _. rewrite Hdi.
  pose proof (ino_range _ _ _ _ _ _ Hr Hi) as Hir. pose proof (ino_range _ _ _ _ _ _ Hr Hn0) as Hnr. rewrite (proj2 (Z.eqb_neq i INVALID_INO)) by (unfold INVALID_INO; lia).
  dstep. eapply (runs_node _ _ _ _ i); [done..|]. intros iino _ _ _ _ _. dstep. eapply runs_entry_mo; [done|done|by rewrite Hl|]. intros demo ->.
  dstep. eapply runs_forget; [done..|]. intros c1 Hc1 Hno Hr1. dstep. eapply unlist_ok; [exact Hr1|exact Ho|done..|]. intros s2 Hr2 Hnc2. cbn [Z.ltb Z.compare].
  dstep. eapply (size_ok _ _ _ _ o _ (fun v => wrap64 (v - METAOBJ_SIZE))); [exact Hr2|apply lookup_insert_eq|]. rewrite insert_insert_eq. intros s3 Hr3 Hnc3.
  dstep. eapply time_ok; [exact Hr3|apply lookup_insert_eq|]. intros s4 Hr4 Hnc4. set (t1 := <[o := _]> t) in Hr4.
  assert (Hi1 : t1 !! i = Some ni) by (unfold t1; by rewrite lookup_insert_ne).
  assert (Hlo1 : loose t1 i).
  { intros d' nd' [[<- <-]|[Hne Hd']]%lookup_insert_Some Hin'; [by apply elem_of_drop_ent in Hin' as [? _]|].
    destruct (to_ents _ _ Hok d' nd' i Hd' Hin') as (? & ? & ? & ?). simplify_eq. }
  assert (Hnc : ds_nc s4 = c1) by (by rewrite Hnc4, Hnc3, Hnc2). clear Hnc4 Hnc3 Hnc2 Hr2 Hr3 s2 s3.
  dstep. eapply rename_ok; [exact Hr4|done..| |].
  2:{ intros _ s' Hfull Hnc'. apply runs_ret, HF; [done|]. by rewrite Hnc', Hnc. }
  intros s5 dn5 xs5 Hr5 Hdn5 Hnc5. cbn [Z.ltb Z.compare]. rewrite <- (Hdn5 i).
  assert (Hn1 : exists nn, t1 !! n = Some nn /\ n_type nn = PFS_INODET_DIR).
  { unfold t1. destruct (decide (o = n)) as [<-|Hne]; [rewrite lookup_insert_eq; by eexists|]. rewrite lookup_insert_ne by done. by exists nn0. }
  destruct Hn1 as (nn & Hn1 & Htn). set (t2 := <[i := _]> t1) in Hr5. assert (Hn2 : t2 !! n = Some nn) by (unfold t2; by rewrite lookup_insert_ne).
  dstep. eapply (enlist_ok _ _ _ _ n nn); [exact Hr5|done|done| | |].
  { eexists. unfold t2. rewrite lookup_insert_eq. split; [done|by eexists]. }
  { intros d' nd' [[<- <-]|[Hne Hd']]%lookup_insert_Some; [apply (Hlo1 i ni Hi1)|by eapply Hlo1]. }
  intros s6 Hr6 Hnc6. cbn [Z.ltb Z.compare]. dstep.
  eapply (size_ok _ _ _ _ n _ (fun v => wrap64 (v + METAOBJ_SIZE))); [exact Hr6|apply lookup_insert_eq|]. rewrite insert_insert_eq. intros s7 Hr7 Hnc7.
  dstep. eapply time_ok; [exact Hr7|apply lookup_insert_eq|]. intros s8 Hr8 Hnc8.
  dstep. eapply (entry_reparent_ok _ _ _ _ i _ o name n); [exact Hr8|rewrite lookup_insert_ne by done; apply lookup_insert_eq|done|lia|]. intros s9 Hr9 Hnc9.
  dstep. eapply time_ok; [exact Hr9|apply lookup_insert_eq|]. intros s10 Hr10 Hnc10. apply runs_ret.
  unfold t2 in Hr10. rewrite (insert_insert_ne t1 n i), insert_insert_eq in Hr10 by done.
  assert (Heq : t_move o i n name t = <[i := set_link (Some (n, name)) ni]> (<[n := set_size (wrap64 (n_size nn + METAOBJ_SIZE)) (set_ents (n_ents nn ++ [i]) nn)]> t1))
    by exact (move_lookup t o i n name no nn ni Ho Hi (not_eq_sym Hio) Hni Hn1).
  eapply HQ; [rewrite Heq; exact Hr10|]. replace (ds_nc s10) with c1 by congruence. eapply coherent_other; [exact Hc1|done| |auto].
  intros j x Hne Hj. rewrite (lookup_move t). rewrite Hj. eexists. split; [done|]. by rewrite moved_link, decide_False.
Qed.

(** ** Renaming *)
(** [i] is [n] or one of the directories above it. *)
Definition below (t : tree) (i n : Z) : Prop := exists l, chain t n l /\ i ∈ l.
Lemma below_decide t i n l : tree_ok mnt t -> chain t n l -> below t i n <-> i ∈ l.
Proof.
  intros Hok Hl. split; [|intros; by exists l]. intros (l' & Hl' & Hin). rewrite (chain_unique t n l l'); [done| |done|done]. by apply (root_link _ _ Hok).
Qed.
(** The name to move to: free, or that of another node. *)
Definition target (t : tree) (i n nino : Z) (name : list Z) : Prop :=
  (nino = INVALID_INO /\ forall c, ~ child t n name c) \/ (child t n name nino /\ nino <> i).
Inductive rename_spec (t : tree) (o i n nino : Z) (name : list Z) : Z -> tree -> Prop :=
| rs_dir : check_dir t n < 0 -> rename_spec t o i n nino name (check_dir t n) t
| rs_loop ni : check_dir t n = 0 -> t !! i = Some ni -> n_type ni = PFS_INODET_DIR -> below t i n -> rename_spec t o i n nino name (- EINVAL) t
| rs_full nd : check_dir t n = 0 -> ~ below t i n -> t !! nino = Some nd -> n_ents nd <> [] -> rename_spec t o i n nino name (- ENOTEMPTY) t
| rs_new : check_dir t n = 0 -> ~ below t i n -> nino = INVALID_INO -> rename_spec t o i n nino name 0 (t_move o i n name t)
| rs_over nd : check_dir t n = 0 -> ~ below t i n -> t !! nino = Some nd -> n_ents nd = [] ->
    rename_spec t o i n nino name 0 (t_move o i n name (t_remove n nino t)).

Lemma remove_keeps t d j name i ni : tree_ok mnt t -> child t d name j -> i <> j -> t !! i = Some ni ->
  exists ni', t_remove d j t !! i = Some ni' /\ n_link ni' = n_link ni /\ n_type ni' = n_type ni.
Proof.
  intros Hok _ Hij Hi. unfold t_remove. rewrite lookup_alter_ne by done. rewrite (lookup_unlist t), Hi. eexists. split; [done|].
  by rewrite cut_link, cut_type.
Qed.
Lemma remove_link t d j i x l : t_remove d j t !! i = Some x -> n_link x = Some l -> i <> j /\ exists x0, t !! i = Some x0 /\ n_link x0 = Some l.
Proof.
  unfold t_remove. intros (x1 & Hx & ->)%lookup_alter_cases Hl. rewrite (lookup_unlist t) in Hx. apply fmap_Some in Hx as (x0 & Hx0 & ->).
  destruct (decide (j = i)) as [->|Hne]; [done|]. rewrite cut_link in Hl. split; [done|]. by exists x0.
Qed.
Lemma file_not_below t i ni n nn : tree_ok mnt t -> t !! i = Some ni -> t !! n = Some nn -> n_type nn = PFS_INODET_DIR -> n_type ni <> PFS_INODET_DIR -> ~ below t i n.
Proof.
  intros Hok Hi Hn Htn Hti (l & Hl & Hin). destruct (chain_child _ _ _ _ Hl Hin) as [->|(nm & j & nj & Hj & Hlj)]; [congruence|].
  destruct (to_link _ _ Hok j nj i nm Hj Hlj) as (? & ? & ? & _). congruence.
Qed.

(** The tail of [pfs_dir_rename], when the new name is free. *)
Lemma rename_tail_ok s t dn xs o i ni old n nino name (Q : Z -> dstate C -> Prop) : rep s t dn xs -> tree_ok mnt t -> coherent (ds_nc s) t dn ->
  t !! i = Some ni -> n_link ni = Some (o, old) -> check_dir t n = 0 -> n <> i -> name_ok mnt name -> nino <> 0 ->
  (forall s' dn' xs', rep s' (t_move o i n name t) dn' xs' -> coherent (ds_nc s') (t_move o i n name t) dn' -> Q 0 s') ->
  (forall s', full (os_objs (ds_de s')) -> coherent (ds_nc s') t dn -> Q (- EPFS_FILE_2MANY) s') ->
  runs (assert_ ((i >? 0) && negb (nino =? 0));;
        oldin ← pfs_meta_get_inode i;
        assert_ (negb (in_deno oldin =? INVALID_DENO));;
        pfs_dir_move mnt now o (in_deno oldin) n name) s Q.
Proof.
  intros Hr Hok Hco Hi Hl Hcn Hni Hnm Hn0 HQ HF. pose proof (ino_range _ _ _ _ _ _ Hr Hi) as Hir.
  destruct (r_name _ _ _ _ Hr i ni o old Hi Hl) as (Hi0 & _). assert (Hlk : linked t i) by (exists ni; by rewrite Hl).
  pose proof (deno_range _ _ _ _ _ Hr Hlk) as Hdn.
  dstep. dstep. { apply andb_true_intro. split; [apply Z.gtb_lt; lia|by apply negb_true_iff, Z.eqb_neq]. }
  dstep. eapply runs_node; [done..|]. intros ino _ _ _ Hde _. rewrite Hl, (proj2 (Z.eqb_neq i 0)) in Hde by done. rewrite Hde.
  dstep. dstep. { apply negb_true_iff, Z.eqb_neq. unfold INVALID_DENO. lia. } by eapply dir_move_ok.
Qed.

(** The tail of [pfs_dir_rename], when the new name is that of another node. *)
Lemma rename_replace_ok s t dn xs o i ni old n nn l nino nd name (Q : Z -> dstate C -> Prop) : rep s t dn xs -> tree_ok mnt t -> coherent (ds_nc s) t dn ->
  t !! i = Some ni -> n_link ni = Some (o, old) -> t !! n = Some nn -> n_type nn = PFS_INODET_DIR -> chain t n l -> i ∉ l ->
  t !! nino = Some nd -> n_link nd = Some (n, name) -> nino <> i -> name_ok mnt name ->
  (n_ents nd <> [] -> Q (- ENOTEMPTY) s) ->
  (forall s' dn' xs', n_ents nd = [] -> let t' := t_move o i n name (t_remove n nino t) in rep s' t' dn' xs' -> coherent (ds_nc s') t' dn' -> Q 0 s') ->
  (forall s', full (os_objs (ds_de s')) -> coherent (ds_nc s') t dn -> Q (- EPFS_FILE_2MANY) s') ->
  runs (err ← (if n_type nd =? PFS_INODET_DIR then pfs_dir_del mnt n nino None true
               else if n_type nd =? PFS_INODET_FILE then pfs_dir_del mnt n nino None false else abort);
        if err <? 0 then mret err else
        assert_ ((i >? 0) && negb (nino =? 0));;
        oldin ← pfs_meta_get_inode i;
        assert_ (negb (in_deno oldin =? INVALID_DENO));;
        pfs_dir_move mnt now o (in_deno oldin) n name) s Q.
Proof.
  intros Hr Hok Hco Hi Hl Hn Htn Hch Hil Hnd Hlnd Hne Hnm HE HQ HF. assert (Hchild : child t n name nino) by (by exists nd).
  assert (Hc0 : check_dir t n = 0) by (unfold check_dir; by rewrite Hn, Htn).
  assert (Hni : n <> i). { intros ->. apply Hil. inversion Hch; subst; [|left]. apply (root_link _ _ Hok) in Hi. congruence. }
  assert (Hio : forall j x, t !! j = Some x -> ino_ok s j) by (intros j x Hj; destruct (r_node _ _ _ _ Hr j x Hj) as (? & ? & _); by eexists).
  assert (Hdel : forall Q' : Z -> dstate C -> Prop, (n_ents nd <> [] -> Q' (- ENOTEMPTY) s) ->
     (forall s' dn' xs', n_ents nd = [] -> rep s' (t_remove n nino t) dn' xs' -> coherent (ds_nc s') (t_remove n nino t) dn' -> (forall j, dn' j = dn j) -> Q' 0 s') ->
     runs (if n_type nd =? PFS_INODET_DIR then pfs_dir_del mnt n nino None true
               else if n_type nd =? PFS_INODET_FILE then pfs_dir_del mnt n nino None false else abort) s Q').
  { intros Q' HE' HQ'. assert (Herr : forall b : bool, n_type nd = (if b then PFS_INODET_DIR else PFS_INODET_FILE) -> del_err t n nino b = if bool_decide (n_ents nd = []) then 0 else - ENOTEMPTY).
    { intros b Hb. unfold del_err. rewrite Hc0, Hnd, Hb. destruct b; [done|]. cbn [Z.ltb Z.compare negb]. rewrite Z.eqb_refl. cbn [negb].
      rewrite bool_decide_true; [done|]. by eapply file_ents; [| |rewrite Hb]. }
    assert (Hrun : forall b : bool, n_type nd = (if b then PFS_INODET_DIR else PFS_INODET_FILE) -> runs (pfs_dir_del mnt n nino None b) s Q').
    { intros b Hb. eapply dir_del_ok; [done|done|done|by eapply Hio|by eapply Hio| | |].
      - intros x Hx. simplify_eq. exists name. by auto.
      - rewrite (Herr b Hb). case_bool_decide; [done|]. by auto.
      - intros s' dn' xs'. rewrite (Herr b Hb). case_bool_decide; [|done]. intros _. by apply HQ'. }
    destruct (to_type _ _ Hok nino nd Hnd) as [E|E]; rewrite E; [apply (Hrun false E)|apply (Hrun true E)]. }
  dstep. apply Hdel; [intros He; apply runs_ret; by auto|]. intros s1 dn1 xs1 He Hr1 Hco1 Hdn1. cbn [Z.ltb Z.compare].
  pose proof (remove_ok_tree _ _ Hok n name nino nd Hnd Hlnd He) as Hok1.
  destruct (remove_keeps t n nino name i ni Hok Hchild (not_eq_sym Hne) Hi) as (ni1 & Hi1 & Hl1 & _).
  pose proof (link_neq _ _ Hok _ _ _ Hchild) as Hnn.
  destruct (remove_keeps t n nino name n nn Hok Hchild (not_eq_sym Hnn) Hn) as (nn1 & Hn1 & _ & Ht1).
  eapply (rename_tail_ok s1 _ dn1 xs1 o i ni1 old n); try done.
  - by rewrite Hl1.
  - unfold check_dir. by rewrite Hn1, Ht1, Htn.
  - intros ->. apply (root_link _ _ Hok) in Hnd. congruence.
  - intros s' dn' xs'. by apply HQ.
  - intros s' Hfull [Hinv Hco']. apply HF; [done|]. split; [done|]. intros p m j k Hk. destruct (Hco' p m j k Hk) as [(x & Hx & Hlx) Hdj].
    destruct (remove_link _ _ _ _ _ _ Hx Hlx) as (_ & x0 & ? & ?). split; [by exists x0|]. by rewrite <- Hdn1.
Qed.
Lemma rename_over_ok s t dn xs o i ni old n nn l nino name (Q : Z -> dstate C -> Prop) : rep s t dn xs -> tree_ok mnt t -> coherent (ds_nc s) t dn ->
  t !! i = Some ni -> n_link ni = Some (o, old) -> t !! n = Some nn -> n_type nn = PFS_INODET_DIR -> chain t n l -> child t n name nino -> nino <> i -> name_ok mnt name ->
  (forall err, rename_spec t o i n nino name err t -> err <> 0 -> Q err s) ->
  (forall s' dn' xs' t', rename_spec t o i n nino name 0 t' -> rep s' t' dn' xs' -> coherent (ds_nc s') t' dn' -> Q 0 s') ->
  (forall s', full (os_objs (ds_de s')) -> coherent (ds_nc s') t dn -> Q (- EPFS_FILE_2MANY) s') ->
  runs (newin ← (if negb (nino =? INVALID_INO) then i ← pfs_meta_get_inode nino; mret (Some i) else mret None);
        err ← rename_check i n;
        if err <? 0 then mret err else
        err ← match newin with
              | Some newin =>
                  assert_ (negb (in_deno newin =? INVALID_DENO));;
                  if in_type newin =? PFS_INODET_DIR then pfs_dir_del mnt n nino None true
                  else if in_type newin =? PFS_INODET_FILE then pfs_dir_del mnt n nino None false
                  else abort
              | None => mret 0
              end;
        if err <? 0 then mret err else
        assert_ ((i >? 0) && negb (nino =? 0));;
        oldin ← pfs_meta_get_inode i;
        assert_ (negb (in_deno oldin =? INVALID_DENO));;
        pfs_dir_move mnt now o (in_deno oldin) n name) s Q.
Proof.
  intros Hr Hok Hco Hi Hl Hn Htn Hch (nd & Hnd & Hlnd) Hne Hnm HE HQ HF.
  assert (Hc0 : check_dir t n = 0) by (unfold check_dir; by rewrite Hn, Htn).
  destruct (r_name _ _ _ _ Hr i ni o old Hi Hl) as (Hi0 & _). destruct (r_name _ _ _ _ Hr nino nd n name Hnd Hlnd) as (Hnd0 & _).
  pose proof (ino_range _ _ _ _ _ _ Hr Hnd) as Hrg. assert (Hlk : linked t nino) by (exists nd; by rewrite Hlnd). pose proof (deno_range _ _ _ _ _ Hr Hlk) as Hdn.
  rewrite (proj2 (Z.eqb_neq nino INVALID_INO)) by (unfold INVALID_INO; lia). cbn [negb].
  dstep. dstep. eapply runs_node; [done..|]. intros ino Ht _ _ Hde _. rewrite Hlnd, (proj2 (Z.eqb_neq nino 0)) in Hde by done. dstep.
  dstep. eapply rename_check_ok; [done..|]. destruct (decide _) as [[Hti Hil]|Hnb]; cbn [Z.ltb Z.compare].
  { apply runs_ret, HE; [eapply rs_loop; [done..|by exists l]|done]. }
  assert (Hbel : ~ below t i n).
  { destruct (decide (n_type ni = PFS_INODET_DIR)) as [E|E]; [|by eapply file_not_below]. rewrite (below_decide t i n l) by done. tauto. }
  rewrite (below_decide t i n l) in Hbel by done. rewrite Ht, Hde.
  rewrite (proj2 (Z.eqb_neq (dn nino) INVALID_DENO)) by (unfold INVALID_DENO; lia). cbn [negb].
  apply runs_bind, runs_bind, runs_assert; [done|]. 
  eapply runs_bind_inv. eapply (rename_replace_ok s t dn xs o i ni old n nn l nino nd name); try done.
  - intros He. apply HE; [|done]. eapply rs_full; [done| |done|done]. by rewrite (below_decide t i n l).
  - intros s' dn' xs' He t' Hr' Hco'. eapply HQ; [|done|done]. eapply rs_over; [done| |done|done]. by rewrite (below_decide t i n l).
Qed.
Lemma dir_rename_ok s t dn xs o i ni old n nino name (Q : Z -> dstate C -> Prop) : rep s t dn xs -> tree_ok mnt t -> coherent (ds_nc s) t dn ->
  ino_ok s n -> t !! i = Some ni -> n_link ni = Some (o, old) -> (check_dir t n = 0 -> attached t n) -> target t i n nino name -> name_ok mnt name ->
  (forall err s' dn' xs' t', rename_spec t o i n nino name err t' -> (err = 0 -> rep s' t' dn' xs') -> coherent (ds_nc s') t' dn' -> (err <> 0 -> t' = t /\ dn' = dn /\ s' = s) -> Q err s') ->
  (forall s', full (os_objs (ds_de s')) -> coherent (ds_nc s') t dn -> Q (- EPFS_FILE_2MANY) s') ->
  runs (pfs_dir_rename mnt now o i n nino name) s Q.
Proof.
  intros Hr Hok Hco Hin Hi Hl Hatt Htgt Hnm HQ HF. destruct (to_link _ _ Hok i ni o old Hi Hl) as (no & Ho & Hto & Hio).
  destruct (r_name _ _ _ _ Hr i ni o old Hi Hl) as (Hi0 & _). pose proof (ino_range _ _ _ _ _ _ Hr Hi) as Hir.
  assert (Hoo : ino_ok s o) by (destruct (r_node _ _ _ _ Hr o no Ho) as (? & ? & _); by eexists).
  unfold pfs_dir_rename. dstep. eapply dir_check_ok; [done..|]. replace (check_dir t o) with 0 by (unfold check_dir; by rewrite Ho, Hto).
  cbn [Z.ltb Z.compare]. dstep. eapply dir_check_ok; [done..|]. destruct (check_dir t n <? 0) eqn:Hcn.
  { bool_prop. apply runs_ret. eapply (HQ _ s dn xs); [by apply rs_dir|lia|exact Hco|done]. }
  destruct (check_dir_ok t n Hcn) as (nn & Hn & Htn). assert (Hc0 : check_dir t n = 0) by (unfold check_dir; by rewrite Hn, Htn).
  destruct (attached_chain _ _ Hok n (Hatt Hc0)) as [l Hch]. dstep. eapply runs_node; [done..|]. intros oino _ _ _ _ _.
  destruct Htgt as [[-> Hfree]|[Hchild Hne]].
  - rewrite Z.eqb_refl. cbn [negb]. dstep. dstep. dstep. eapply rename_check_ok; [done..|].
    destruct (decide _) as [[Hti Hil]|Hnb]; cbn [Z.ltb Z.compare].
    { apply runs_ret. eapply (HQ _ s dn xs); [eapply rs_loop; [done..|by exists l]|done|exact Hco|done]. }
    assert (Hbel : ~ below t i n).
    { destruct (decide (n_type ni = PFS_INODET_DIR)) as [E|E]; [|by eapply file_not_below]. rewrite (below_decide t i n l) by done. tauto. }
    dstep. dstep. cbn [Z.ltb Z.compare]. eapply rename_tail_ok; try done.
    { intros ->. apply Hbel. destruct (to_chain _ _ Hok i ni Hi) as [li Hli]; [by rewrite Hl|]. exists li. split; [done|]. inversion Hli; subst; [done|left]. }
    intros s' dn' xs' Hr' Hco'. eapply HQ; [by apply rs_new|done|done|done].
  - apply (rename_over_ok s t dn xs o i ni old n nn l nino name Q); try done.
    + intros err Hsp Hne0. eapply (HQ _ s dn xs); [exact Hsp|done|exact Hco|done].
    + intros s' dn' xs' t' Hsp Hr' Hco'. eapply HQ; [exact Hsp|done|exact Hco'|done].
Qed.

(** ** The end of a directory without an entry *)
Definition release_err (t : tree) (i btime : Z) : Z :=
  match t !! i with Some nd => if btime =? n_btime nd then 0 else - ENOENT | None => - ENOENT end.
Lemma rep_delete M I an ian sh ish (c : C) t dn xs i nd mo ian' : rep (MkD (MkSet M an sh) (MkSet I ian ish) c) t dn xs -> t !! i = Some nd ->
  n_link nd = None -> n_ents nd = [] -> loose t i -> mo_used mo = 0 -> in_ok (MkSet (<[i := mo]> I) ian' ish) ->
  rep (MkD (MkSet M an sh) (MkSet (<[i := mo]> I) ian' ish) c) (delete i t) dn xs.
Proof.
  intros Hr Hi Hl He Hlo Hu Hin'. assert (Hin : forall j n, delete i t !! j = Some n -> i <> j /\ t !! j = Some n) by (intros j n [? ?]%lookup_delete_Some; done).
  assert (Hup : forall j, linked t j -> linked (delete i t) j).
  { intros j (n & Hj & Hlj). exists n. split; [|done]. rewrite lookup_delete_ne; [done|]. intros <-. simplify_eq. rewrite Hl in Hlj. by destruct Hlj. }
  split; simpl; try apply Hr; try done.
  - intros j n [Hne Hj]%Hin. rewrite lookup_insert_ne by done. by apply (r_node _ _ _ _ Hr j).
  - intros j m [[<- <-]|[Hne Hj]]%lookup_insert_Some Hju; [congruence|]. rewrite lookup_delete_ne by done. by eapply (r_live _ _ _ _ Hr).
  - intros j n d nm [_ Hj]%Hin. by apply (r_name _ _ _ _ Hr).
  - intros k m Hk Hku. destruct (r_owned _ _ _ _ Hr k m Hk Hku) as [|(j & n & Hj & Hlj & Hx)]; [by left|right].
    destruct (Hup j) as (n' & ? & ?); [by exists n|]. by exists j, n'.
  - intros d n [_ Hd]%Hin. by apply (r_seg _ _ _ _ Hr d).
  - intros d n [_ Hd]%Hin. by apply (r_nodup _ _ _ _ Hr d).
  - intros d n j [_ Hd]%Hin Hj. apply Hup. by apply (r_ents _ _ _ _ Hr d n).
  - intros d d' n n' j [_ Hd]%Hin [_ Hd']%Hin. by apply (r_once _ _ _ _ Hr).
  - intros j n [_ Hj]%Hin Hlj Hloj. apply (r_loose _ _ _ _ Hr j n Hj Hlj). intros d nd' Hd. destruct (decide (i = d)) as [<-|Hne].
    + simplify_eq. rewrite He. apply not_elem_of_nil.
    + apply (Hloj d). by rewrite lookup_delete_ne.
Qed.
Lemma dir_release_ok s t dn xs i btime (Q : Z -> dstate C -> Prop) : rep s t dn xs -> tree_ok mnt t -> ino_ok s i ->
  (forall nd, t !! i = Some nd -> n_link nd = None /\ i <> 0 /\ n_type nd = PFS_INODET_DIR) ->
  (release_err t i btime < 0 -> Q (release_err t i btime) s) ->
  (forall s', release_err t i btime = 0 -> rep s' (delete i t) dn xs -> ds_nc s' = ds_nc s -> Q 0 s') ->
  runs (pfs_inodephy_release_dir i btime) s Q.
Proof.
  intros Hr Hok Hio Hpre HE HQ. unfold pfs_inodephy_release_dir, release_err in *. dstep. destruct (t !! i) as [nd|] eqn:Hi.
  2:{ eapply runs_free_inode; [done..|]. intros ino Ht. unfold pfs_inode_check_stale. rewrite Ht. apply runs_ret. by apply HE. }
  destruct (Hpre nd eq_refl) as (Hl & Hi0 & Hty). pose proof (orphan_empty _ _ Hok i nd Hi Hl Hi0) as He. destruct s as [[M an sh] [I ian ish] c].
  destruct (node_inode _ _ _ _ Hr i nd Hi) as (mo & ino & rest & Hm & Hir & Hdat & Hmt & Hnum & Ht & _ & Hb & _ & Hnl). simpl in Hm.
  rewrite Hl, (proj2 (Z.eqb_neq i 0)) in Hnl by done. destruct (ir_list _ _ _ _ Hir Hty) as [Hnx Hpv]. rewrite He in Hnx, Hpv.
  eapply runs_get_in; [exact Hm|unfold MO2IN; by rewrite Hdat|]. unfold pfs_inode_check_stale. rewrite Ht, Hty, Hb. cbn [Z.eqb PFS_INODET_DIR PFS_INODET_NONE Z.ltb Z.compare].
  destruct (btime =? n_btime nd); cbn [negb]; [|apply runs_ret; by apply HE].
  assert (Hhd : mo_head mo = 0) by exact Hnx.
  dstep. dstep; [by rewrite Hnl|]. dstep. eapply runs_in_mo; [exact Hm|]. rewrite Hhd. dstep. dstep; [done|]. dstep. dstep; [done|].
  dstep. unfold pfs_inodephy_fini. dstep. eapply runs_in_mo; [exact Hm|]. rewrite Hhd. dstep. dstep; [done|].
  eapply runs_upd_in_mo; [exact Hm|]. unfold on_in. rewrite Hdat. set (mo1 := set_mo_data _ _).
  pose proof (os_obj _ _ _ _ _ (r_in _ _ _ _ Hr) Hm) as [? ? ? ?]. pose proof (ir_used _ _ _ _ Hir) as Hu.
  assert (Hin1 : in_ok (MkSet (<[i := mo1]> I) ian ish)).
  { eapply os_ok_set; [apply (r_in _ _ _ _ Hr)|exact Hm| |done]. split; [done|done|by right|]. simpl. lia. }
  destruct (free_common_ok MT_INODE blank_in (<[i := mo1]> I) ian ish i mo1) as (ian2 & Hfree & Hin2); [done|apply lookup_insert_eq|done|done|done|by eexists _, _|].
  dstep. unfold pfs_meta_free_inode. dstep. dstep. dstep. eapply runs_lift; [exact Hfree|]. eexists _, _. split; [done|]. apply runs_ret.
  apply HQ; [done| |done]. rewrite insert_insert_eq in *. cbn [ds_de ds_nc]. eapply rep_delete; [exact Hr|done|done|done| |done|done].
  intros d nd' Hd Hin. destruct (to_ents _ _ Hok d nd' i Hd Hin) as (? & ? & ? & ?). congruence.
Qed.
End Ops.
