(* ===== verification/DirView.v ===== *)
(** * Reading the namespace

    Paths and the contents of directories: [pfs_dir_path], [pfs_dir_open] and
    [pfs_dir_read] report what the namespace holds. *)

From S2P Require Import Prelude Alloc Object Blkio Blktable Inode Dir DirBase DirName DirInv DirStep DirTree DirOps.

Open Scope pfs_scope.

Definition name_of (t : tree) (i : Z) : list Z := match t !! i with Some nd => match n_link nd with Some (_, nm) => nm | None => [] end | None => [] end.
Lemma name_of_child t d nm i : child t d nm i -> name_of t i = nm.
Proof. intros (nd & Hi & Hl). unfold name_of. by rewrite Hi, Hl. Qed.

Section View.
Context {C : Type} `{NCacheLaws C} (mnt : pfs_mount) (mnt_pbdname : list Z).
Implicit Types (s : dstate C) (t : tree).

(** ** Paths *)
Fixpoint path_str (t : tree) (l : list Z) : list Z :=
  match l with [] => SLASH :: mnt_pbdname | c :: l => path_str t l ++ SLASH :: name_of t c end.

Lemma path_prefix t l : (length (SLASH :: mnt_pbdname) <= length (path_str t l))%nat.
Proof. induction l as [|c l IH]; cbn [path_str]; [done|]. rewrite length_app. lia. Qed.
Lemma slash_split (p p' nm nm' : list Z) : p ++ SLASH :: nm = p' ++ SLASH :: nm' -> SLASH ∉ nm -> SLASH ∉ nm' -> p = p' /\ nm = nm'.
Proof.
  intros Heq Hn Hn'. apply app_eq_inv in Heq as [(q & -> & Hq)|(q & -> & Hq)]; destruct q as [|x q]; simplify_eq/=.
  - by rewrite app_nil_r.
  - exfalso. apply Hn'. set_solver.
  - by rewrite app_nil_r.
  - exfalso. apply Hn. set_solver.
Qed.
(** Different nodes have different paths. *)
Lemma path_inj t c l c' l' : tree_ok mnt t -> chain t c l -> chain t c' l' -> path_str t l = path_str t l' -> c = c'.
Proof.
  intros Hok Hch. revert c' l'. induction Hch as [|c nc d nm l Hc Hl Hch IH]; intros c' l' Hch' Heq;
    inversion Hch' as [|? nc' d' nm' l'' Hc' Hl' Hch'']; subst; cbn [path_str] in Heq; [done|..].
  - apply (f_equal length) in Heq. rewrite length_app in Heq. pose proof (path_prefix t l''). simpl in *. lia.
  - apply (f_equal length) in Heq. rewrite length_app in Heq. pose proof (path_prefix t l). simpl in *. lia.
  - rewrite (name_of_child t d nm c), (name_of_child t d' nm' c') in Heq by (by eexists).
    destruct (to_name _ _ Hok c nc d nm Hc Hl) as (_ & _ & Hs & _), (to_name _ _ Hok c' nc' d' nm' Hc' Hl') as (_ & _ & Hs' & _).
    apply slash_split in Heq as [Hp ->]; [|done..]. pose proof (IH d' l'' Hch'' Hp) as ->. by eapply (to_unique _ _ Hok).
Qed.

Definition deno_of (dn : Z -> Z) (i : Z) : Z := if i =? 0 then 0 else dn i.
Lemma chain_head t c l : chain t c l -> c = 0 \/ linked t c.
Proof. destruct 1 as [|c nd d nm l Hc Hl _]; [by left|right]. exists nd. by rewrite Hl. Qed.
Lemma runs_attached s t dn xs i nd l (Q : pfs_inode_phy -> dstate C -> Prop) : rep s t dn xs -> chain t i l -> t !! i = Some nd ->
  (forall ino, in_type ino = n_type nd -> in_btime ino = n_btime nd -> in_deno ino = deno_of dn i -> (in_deno ino =? INVALID_DENO) = false -> Q ino s) -> runs (pfs_meta_get_inode i) s Q.
Proof.
  intros Hr Hch Hi HQ. eapply runs_node; [done..|]. intros ino Ht _ Hb Hde _.
  assert (Hd : in_deno ino = deno_of dn i /\ deno_of dn i <> INVALID_DENO).
  { unfold deno_of in *. destruct (chain_head _ _ _ Hch) as [->|Hlk]; [done|]. pose proof (deno_range _ _ _ _ _ Hr Hlk) as Hdn.
    destruct Hlk as (n & Hn & [lk Hl]). assert (n = nd) as -> by congruence. destruct (i =? 0); [done|]. rewrite Hl in Hde. split; [done|]. unfold INVALID_DENO. lia. }
  destruct Hd as [Hd Hne]. apply HQ; [done|done|done|]. rewrite Hd. by apply Z.eqb_neq.
Qed.

Lemma path_impl_ok s t dn xs c l : rep s t dn xs -> tree_ok mnt t -> chain t c l -> forall n len (Q : Z + list Z -> dstate C -> Prop), (length l < n)%nat ->
  Q (if strlen (path_str t l) <? len then inr (path_str t l) else inl (- ENAMETOOLONG)) s -> runs (dir_path_impl mnt_pbdname n (deno_of dn c) len) s Q.
Proof.
  intros Hr Hok. induction 1 as [|c nc d nm l Hc Hl Hch IH]; intros n len Q Hn HQ; (destruct n as [|n]; [simpl in Hn; lia|]); cbn [dir_path_impl].
  - unfold deno_of. rewrite !Z.eqb_refl. apply runs_ret. cbn [path_str] in HQ.
    destruct (strlen (SLASH :: mnt_pbdname) <? len) eqn:E; bool_prop; [rewrite Z.geb_leb, (proj2 (Z.leb_gt _ _)) by lia|rewrite Z.geb_leb, (proj2 (Z.leb_le _ _)) by lia]; done.
  - destruct (r_name _ _ _ _ Hr c nc d nm Hc Hl) as (Hc0 & Hd0 & Hk & _). pose proof (to_name _ _ Hok c nc d nm Hc Hl) as (Hb & _).
    pose proof (ino_range _ _ _ _ _ _ Hr Hc) as Hrg. destruct (to_link _ _ Hok c nc d nm Hc Hl) as (nd & Hd & _).
    unfold deno_of at 1 2 3. rewrite (proj2 (Z.eqb_neq c 0)) by done. rewrite (proj2 (Z.eqb_neq (dn c) 0)) by lia.
    dstep. eapply runs_entry; [done..|]. intros de Hdi Hdd. rewrite Hdi, (proj2 (Z.eqb_neq c INVALID_INO)) by (unfold INVALID_INO; lia).
    dstep. eapply runs_getname; [done..|]. cbn [path_str] in HQ. rewrite (name_of_child t d nm c) in HQ by (by exists nc).
    assert (Hlen : strlen (path_str t l ++ SLASH :: nm) = strlen (path_str t l) + (1 + strlen nm)) by (unfold strlen; rewrite length_app; simpl; lia).
    rewrite Hlen in HQ. assert (0 <= strlen (path_str t l)) by (unfold strlen; lia).
    destruct (1 + strlen nm >=? len) eqn:E.
    { rewrite Z.geb_leb in E. bool_prop. apply runs_ret. by rewrite (proj2 (Z.ltb_ge _ _)) in HQ by lia. }
    rewrite Hdd. dstep. eapply runs_attached; [exact Hr|exact Hch|exact Hd|]. intros ino _ _ Hde Hinv. dstep. dstep; [by rewrite Hinv|]. dstep. rewrite Hde.
    apply IH; [simpl in Hn; lia|]. destruct (strlen (path_str t l) <? len - (1 + strlen nm)) eqn:E2; bool_prop.
    + rewrite (proj2 (Z.ltb_lt (strlen (path_str t l) + (1 + strlen nm)) len)) in HQ by lia. dstep. dstep; [apply Z.ltb_lt; lia|]. by apply runs_ret.
    + rewrite (proj2 (Z.ltb_ge (strlen (path_str t l) + (1 + strlen nm)) len)) in HQ by lia. by apply runs_ret.
Qed.
Lemma chain_denos s t dn xs c l : rep s t dn xs -> tree_ok mnt t -> chain t c l -> (length l <= size (os_objs (ds_de s)))%nat.
Proof.
  intros Hr Hok Hch. pose proof (chain_nodup _ _ _ (root_link _ _ Hok) Hch) as Hnd.
  assert (Hlk : forall j, j ∈ l -> linked t j) by (intros j Hj; by apply (chain_mem _ _ _ _ Hch)).
  rewrite <- (length_fmap dn l), <- size_dom, <- (size_list_to_set (C := gset Z)).
  - apply subseteq_size. intros k Hk. apply elem_of_list_to_set, list_elem_of_fmap in Hk as (j & -> & Hj).
    destruct (linked_named _ _ _ _ Hr j (Hlk j Hj)) as (? & ? & _ & _ & _ & mo & ? & Hm & _). apply elem_of_dom. by eexists.
  - clear Hch. induction Hnd as [|j l Hj Hnd IH]; [constructor|]. rewrite fmap_cons. apply NoDup_cons. split; [|apply IH; intros; apply Hlk; by right].
    intros (j' & Heq & Hj')%list_elem_of_fmap. apply Hj. rewrite (dn_inj _ _ _ _ Hr j j'); [done|apply Hlk; left|apply Hlk; by right|done].
Qed.

(** The result of [pfs_dir_path]. *)
Definition full_path (t : tree) (i : Z) (l : list Z) : list Z := if i =? 0 then path_str t l ++ [SLASH] else path_str t l.
Lemma dir_path_ok s t dn xs i nd l len (Q : Z * list Z -> dstate C -> Prop) : rep s t dn xs -> tree_ok mnt t -> t !! i = Some nd -> chain t i l ->
  Q (if strlen (full_path t i l) <? len then (0, full_path t i l) else (- ENAMETOOLONG, [])) s -> runs (pfs_dir_path mnt_pbdname i len (n_btime nd)) s Q.
Proof.
  intros Hr Hok Hi Hch HQ. unfold pfs_dir_path. dstep. eapply runs_attached; [done..|]. intros ino Ht Hb Hde Hinv.
  assert (Hty : (in_type ino =? PFS_INODET_NONE) = false) by (rewrite Ht; destruct (to_type _ _ Hok i nd Hi) as [E|E]; by rewrite E).
  rewrite Hty, Hb, Z.eqb_refl, Hinv, Hde. cbn [negb orb]. dstep. dstep. dstep. eapply path_impl_ok; [exact Hr|done|done|pose proof (chain_denos _ _ _ _ _ _ Hr Hok Hch); lia|].
  unfold full_path in HQ. destruct (i =? 0).
  - assert (Hl1 : strlen (path_str t l ++ [SLASH]) = strlen (path_str t l) + 1) by (unfold strlen; rewrite length_app; simpl; lia). rewrite Hl1 in HQ.
    destruct (strlen (path_str t l) <? len) eqn:E; bool_prop.
    + destruct (strlen (path_str t l) + 1 <? len) eqn:E2; bool_prop; [rewrite Z.geb_leb, (proj2 (Z.leb_gt _ _)) by lia|rewrite Z.geb_leb, (proj2 (Z.leb_le _ _)) by lia]; by apply runs_ret.
    + rewrite (proj2 (Z.ltb_ge (strlen (path_str t l) + 1) len)) in HQ by lia. by apply runs_ret.
  - destruct (strlen (path_str t l) <? len); by apply runs_ret.
Qed.

(** ** Reading a directory *)
Lemma collect_ok s l : forall pv (Q : list Z -> dstate C -> Prop), seg (os_objs (ds_de s)) pv l 0 -> 0 ∉ l -> Q l s -> runs (dir_collect (length l) (first l)) s Q.
Proof.
  induction l as [|k l IH]; intros pv Q Hs Hz HQ; [by apply runs_ret|]. destruct Hs as [(mo & Hm & Hnx & _) Hs]. apply not_elem_of_cons in Hz as [Hk Hz].
  change (first (k :: l)) with k. cbn [length dir_collect]. rewrite (proj2 (Z.eqb_neq k 0)) by done. dstep. eapply runs_de_mo; [done|]. dstep.
  rewrite Hnx. eapply IH; [done|done|]. by apply runs_ret.
Qed.
(** The root keeps the two files its size does not count. *)
Lemma dir_open_ok s t dn xs d nd (Q : pfs_dirstream -> dstate C -> Prop) : rep s t dn xs -> tree_ok mnt t -> t !! d = Some nd -> n_type nd = PFS_INODET_DIR ->
  (d = 0 -> (2 <= length (n_ents nd))%nat) -> METAOBJ_SIZE * Z.of_nat (length (n_ents nd)) < 2 ^ 64 ->
  Q (MkDs d (dn <$> n_ents nd) 0 (Z.of_nat (length (n_ents nd)))) s -> runs (pfs_dir_open d) s Q.
Proof.
  intros Hr Hok Hd Hty H2 Hlt HQ. unfold pfs_dir_open. dstep. eapply runs_node; [done..|]. intros ino _ Hsz _ _ _.
  assert (Hs : in_size ino = METAOBJ_SIZE * (Z.of_nat (length (n_ents nd)) - (if d =? 0 then 2 else 0))).
  { rewrite Hsz, (to_size _ _ Hok d nd Hd Hty). unfold dir_size, METAOBJ_SIZE in *. rewrite wrap64_small; destruct (Z.eqb_spec d 0) as [Hd0|Hd0]; try lia; unfold is_u64.
    - specialize (H2 Hd0). lia.
    - lia. }
  rewrite Hs, (Z.mul_comm METAOBJ_SIZE), Z.mod_mul, Z.div_mul by done. dstep. dstep; [done|]. cbn zeta. dstep. eapply runs_node_mo; [done..|].
  intros mo _ Hhead. rewrite (Hhead Hty).
  replace (Z.of_nat (length (n_ents nd)) - (if d =? 0 then 2 else 0) + (if d =? 0 then 2 else 0)) with (Z.of_nat (length (n_ents nd))) by lia. rewrite Nat2Z.id.
  dstep. rewrite <- (length_fmap dn (n_ents nd)) at 1. eapply collect_ok; [by apply (r_seg _ _ _ _ Hr d)|by eapply (denos_pos _ _ _ _ Hr)|].
  dstep. dstep; [rewrite length_fmap; apply Z.eqb_refl|]. by apply runs_ret.
Qed.

(** The entry a number stands for in a directory. *)
Definition owner (s : dstate C) (t : tree) (d k : Z) : option (Z * list Z) :=
  match os_objs (ds_de s) !! k with
  | Some mo =>
      match mo_data mo with
      | DDirentry de => if (de_ino de =? INVALID_INO) || negb (de_dirino de =? d) then None else Some (de_ino de, name_of t (de_ino de))
      | _ => None
      end
  | None => None
  end.
(** An entry in use is that of its node, an extension, or the root's. *)
Lemma entry_cases s t dn xs k mo : rep s t dn xs -> os_objs (ds_de s) !! k = Some mo ->
  exists de, mo_data mo = DDirentry de /\ (de_ino de = INVALID_INO \/ de_dirino de = INVALID_INO \/ (child t (de_dirino de) (name_of t (de_ino de)) (de_ino de) /\ dn (de_ino de) = k)).
Proof.
  intros Hr Hm. destruct (os_obj _ _ _ _ _ (r_de _ _ _ _ Hr) Hm) as [_ _ Hu Hb]. destruct Hu as [Hu|Hu].
  { destruct (Hb Hu) as (_ & _ & Hd). eexists. split; [exact Hd|]. by left. }
  destruct (r_owned _ _ _ _ Hr k mo Hm Hu) as [->|(i & nd & Hi & [[d nm] Hl] & Hk)].
  - destruct (r_root _ _ _ _ Hr) as (mo' & nm & Hm' & _ & Hd). rewrite Hm in Hm'. injection Hm' as <-. eexists. split; [exact Hd|]. right. by left.
  - destruct (r_name _ _ _ _ Hr i nd d nm Hi Hl) as (_ & _ & _ & mo' & x & Hm' & _ & Hd' & Hc).
    assert (Hch : child t d nm i) by (by exists nd). destruct Hk as [->|Hk].
    + rewrite Hm in Hm'. injection Hm' as <-. eexists. split; [exact Hd'|]. right. right. cbn [de_ino de_dirino mkde]. by rewrite (name_of_child t d nm i).
    + destruct (ext_mem _ _ _ _ _ _ Hc Hk) as (_ & mo2 & nm2 & x2 & Hm2 & _ & _ & _ & Hd2). rewrite Hm in Hm2. injection Hm2 as <-.
      eexists. split; [exact Hd2|]. right. by left.
Qed.
Lemma owner_spec s t dn xs d k i nm : rep s t dn xs -> 0 <= d -> owner s t d k = Some (i, nm) <-> child t d nm i /\ dn i = k.
Proof.
  intros Hr Hd. unfold owner. split.
  - destruct (os_objs (ds_de s) !! k) as [mo|] eqn:Hm; [|done]. destruct (entry_cases _ _ _ _ _ _ Hr Hm) as (de & -> & Hcase).
    destruct (Z.eqb_spec (de_ino de) INVALID_INO) as [?|Hni]; [done|]. destruct (Z.eqb_spec (de_dirino de) d) as [Hdd|?]; [|done]. cbn [negb orb]. intros [= <- <-].
    destruct Hcase as [?|[Hx|Hc]]; [done| |by rewrite Hdd in Hc]. rewrite Hdd in Hx. unfold INVALID_INO in Hx. lia.
  - intros [Hc <-]. pose proof Hc as (nd & Hi & Hl). destruct (r_name _ _ _ _ Hr i nd d nm Hi Hl) as (_ & _ & _ & mo & x & Hm & _ & Hdat & _).
    rewrite Hm, Hdat. cbn [de_ino de_dirino mkde]. rewrite Z.eqb_refl, (name_of_child t d nm i) by done. pose proof (ino_range _ _ _ _ _ _ Hr Hi).
    by rewrite (proj2 (Z.eqb_neq i INVALID_INO)) by (unfold INVALID_INO; lia).
Qed.

Lemma dir_read_loop_ok s t dn xs d v : rep s t dn xs -> tree_ok mnt t -> 0 <= d -> (forall k, k ∈ v -> is_Some (os_objs (ds_de s) !! k)) ->
  forall rest idx (Q : Z * (Z * list Z) * pfs_dirstream -> dstate C -> Prop), drop idx v = rest -> (idx <= length v)%nat ->
  (forall r idx', omap (owner s t d) rest = r :: omap (owner s t d) (drop idx' v) -> (idx' <= length v)%nat ->
     Q (0, r, MkDs d v (Z.of_nat idx') (Z.of_nat (length v))) s) ->
  (forall ds, omap (owner s t d) rest = [] -> Q (PFS_DIR_END, (0, []), ds) s) ->
  runs (dir_read_loop (length rest) (MkDs d v (Z.of_nat idx) (Z.of_nat (length v)))) s Q.
Proof.
  intros Hr Hok Hd Hv. induction rest as [|k rest IH]; intros idx Q Hrest Hidx HQ HN.
  - pose proof (f_equal length Hrest) as Hlen. rewrite length_drop in Hlen. simpl in Hlen. cbn [dir_read_loop length d_deno_index d_deno_count].
    rewrite Z.geb_leb, (proj2 (Z.leb_le _ _)) by lia. apply runs_ret. by apply HN.
  - pose proof (f_equal length Hrest) as Hlen. rewrite length_drop in Hlen. simpl in Hlen. cbn [length dir_read_loop d_deno_index d_deno_count d_deno_vect d_ino].
    assert (Hk : v !! idx = Some k) by (rewrite <- (Nat.add_0_r idx), <- lookup_drop, Hrest; done).
    assert (Hrest' : drop (S idx) v = rest) by (rewrite <- Nat.add_1_r, <- drop_drop, Hrest; done).
    rewrite Z.geb_leb, (proj2 (Z.leb_gt _ _)) by lia. dstep. rewrite Nat2Z.id. eapply runs_lift; [exact Hk|].
    destruct (Hv k) as [mo Hm]; [by eapply list_elem_of_lookup_2|]. destruct (entry_cases _ _ _ _ _ _ Hr Hm) as (de & Hdat & Hcase).
    dstep. eapply runs_get_de; [exact Hm|unfold MO2DE; by rewrite Hdat|]. replace (Z.of_nat idx + 1) with (Z.of_nat (S idx)) by lia.
    assert (Hown : owner s t d k = if (de_ino de =? INVALID_INO) || negb (de_dirino de =? d) then None else Some (de_ino de, name_of t (de_ino de))) by (unfold owner; by rewrite Hm, Hdat).
    destruct (_ || _) eqn:Eskip.
    + apply IH; [done|lia| |]; [intros r idx' Hr'; apply HQ|intros ds Hr'; apply HN]; cbn; by rewrite Hown.
    + destruct (proj1 (owner_spec s t dn xs d k _ _ Hr Hd) Hown) as [Hch <-]. pose proof Hch as (nd & Hi & Hl).
      dstep. eapply runs_getname; [done|exact Hi|exact Hl|apply (to_name _ _ Hok _ _ _ _ Hi Hl)|]. apply runs_ret. apply HQ; [|lia].
      cbn. by rewrite Hown, Hrest'.
Qed.
Lemma dir_read_ok s t dn xs d v idx (Q : Z * (Z * list Z) * pfs_dirstream -> dstate C -> Prop) : rep s t dn xs -> tree_ok mnt t -> 0 <= d ->
  (forall k, k ∈ v -> is_Some (os_objs (ds_de s) !! k)) -> (idx <= length v)%nat ->
  (forall r idx', omap (owner s t d) (drop idx v) = r :: omap (owner s t d) (drop idx' v) -> (idx' <= length v)%nat ->
     Q (0, r, MkDs d v (Z.of_nat idx') (Z.of_nat (length v))) s) ->
  (forall ds, omap (owner s t d) (drop idx v) = [] -> Q (PFS_DIR_END, (0, []), ds) s) ->
  runs (pfs_dir_read (MkDs d v (Z.of_nat idx) (Z.of_nat (length v)))) s Q.
Proof.
  intros Hr Hok Hd Hv Hidx HQ HN. unfold pfs_dir_read. cbn [d_deno_index d_deno_count].
  replace (Z.to_nat (Z.of_nat (length v) - Z.of_nat idx)) with (length (drop idx v)) by (rewrite length_drop; lia).
  by eapply dir_read_loop_ok.
Qed.
End View.
