(* ===== verification/Dx.v ===== *)
(** * The index of a directory

    Model of the directory part of the inodes in memory (pfs_inode.cc): the
    index of the entries of a directory by the hash of their names, how it is
    built from the meta objects, the changes recorded by a transaction and
    applied when it has committed, and the operations on directories through
    it.

    The trees of pfs_avl are maps by the key here; AvlSpec shows that they
    are sorted sets.  The inodes in memory and the callbacks of the
    transaction travel with the name cache in the state of Dir.v.  Reference
    counts, locks and the waits for another thread are not modelled. *)

From S2P Require Import Prelude Alloc Object Blkio Blktable NameCache Inode Dir.

Open Scope pfs_scope.

(** ** Data *)
(** [e_in]: the entry holds a reference to the inode of a directory. *)
Record pfs_dxent := MkDx { e_ino : Z; e_in : bool }.
(** An entry of the tree with those chained behind it, by [e_nmhash]. *)
Abbreviation dxroot := (gmap Z (list pfs_dxent)).

Inductive dxop := DXOP_ADD | DXOP_DEL.
Record dxredo_rec := MkRec { rr_op : dxop; rr_nmhash : Z; rr_ino : Z; rr_isdir : bool }.
Definition DXR_MAX_NREC : nat := 4.

Record dinode := MkDi {
  di_type : Z; di_size : Z; di_size2 : Z; di_btime : Z; di_stale : bool; di_cbdone : bool;
  di_sync_ver : Z; di_rpl_ver : Z; di_dx_root : dxroot; di_dx_redo : list dxredo_rec }.
(** [pfs_inode_create]. *)
Definition new_dinode : dinode := MkDi PFS_INODET_NONE 0 0 0 true true 0 0 ∅ [].

(** The inodes in memory by number, and the callbacks of the transaction. *)
Record mems := MkMems { mm_ins : gmap Z dinode; mm_cbs : list Z }.

Definition dx_calc_hash (name : list Z) : Z := fnv_32_buf name FNV1_32_INIT.

(** ** The index *)
Definition dx_insert (nmhash : Z) (ent : pfs_dxent) (root : dxroot) : dxroot :=
  match root !! nmhash with
  | Some (first :: next) => <[nmhash := first :: ent :: next]> root
  | _ => <[nmhash := [ent]]> root
  end.

(** The entry of [ino] behind [prev]; it is unlinked. *)
Fixpoint chain_del (ino : Z) (l : list pfs_dxent) : option (pfs_dxent * list pfs_dxent) :=
  match l with
  | [] => None
  | ent :: next =>
      if e_ino ent =? ino then Some (ent, next)
      else let* r := chain_del ino next in Some (fst r, ent :: snd r)
  end.
Definition pfs_inode_dx_del (root : dxroot) (nmhash ino : Z) (isdir : bool) : option dxroot :=
  let* first := root !! nmhash in
  let* r := chain_del ino first in
  let '(ent, rest) := r in
  PFS_ASSERT (negb isdir || e_in ent) ;;
  Some (match rest with [] => delete nmhash root | _ => <[nmhash := rest]> root end).

(** [pfs_avl_first] has the least key. *)
Definition dx_first (root : dxroot) : option (Z * pfs_dxent) :=
  let* k := foldr (fun k m => Some (match m with Some m => Z.min k m | None => k end)) None (map_to_list root).*1 in
  let* l := root !! k in
  let* ent := head l in Some (k, ent).
Fixpoint pfs_inode_destroy_dindex (n : nat) (root : dxroot) : option dxroot :=
  if bool_decide (root = ∅) then Some root else
  match n with
  | O => None
  | S n =>
      let* f := dx_first root in
      let '(nmhash, ent) := f in
      let* root := pfs_inode_dx_del root nmhash (e_ino ent) (e_in ent) in
      pfs_inode_destroy_dindex n root
  end.
Definition dx_count (root : dxroot) : nat := map_fold (fun _ l n => length l + n)%nat 0%nat root.

(** ** State *)
#[global] Instance mem_ncache {N} `{NCacheOps N} : NCacheOps (N * mems) := {|
  ncache_lookup := fun p n c => let* r := ncache_lookup p n (fst c) in Some (fst r, (snd r, snd c));
  ncache_enter := fun p i n k c => let* c' := ncache_enter p i n k (fst c) in Some (c', snd c);
  ncache_delete_by_deno := fun k c => let* c' := ncache_delete_by_deno k (fst c) in Some (c', snd c) |}.

Definition set_dx (root : dxroot) (di : dinode) : dinode :=
  MkDi (di_type di) (di_size di) (di_size2 di) (di_btime di) (di_stale di) (di_cbdone di) (di_sync_ver di) (di_rpl_ver di) root (di_dx_redo di).
Definition set_redo (v : list dxredo_rec) (di : dinode) : dinode :=
  MkDi (di_type di) (di_size di) (di_size2 di) (di_btime di) (di_stale di) (di_cbdone di) (di_sync_ver di) (di_rpl_ver di) (di_dx_root di) v.
Definition set_cbdone (v : bool) (di : dinode) : dinode :=
  MkDi (di_type di) (di_size di) (di_size2 di) (di_btime di) (di_stale di) v (di_sync_ver di) (di_rpl_ver di) (di_dx_root di) (di_dx_redo di).
Definition set_sync_ver (v : Z) (di : dinode) : dinode :=
  MkDi (di_type di) (di_size di) (di_size2 di) (di_btime di) (di_stale di) (di_cbdone di) v (di_rpl_ver di) (di_dx_root di) (di_dx_redo di).
Definition set_stale (v : bool) (di : dinode) : dinode :=
  MkDi (di_type di) (di_size di) (di_size2 di) (di_btime di) v (di_cbdone di) (di_sync_ver di) (di_rpl_ver di) (di_dx_root di) (di_dx_redo di).
Definition add_size (v : Z) (di : dinode) : dinode :=
  MkDi (di_type di) (di_size di + v) (di_size2 di + v) (di_btime di) (di_stale di) (di_cbdone di) (di_sync_ver di) (di_rpl_ver di) (di_dx_root di) (di_dx_redo di).

Section Dx.
Context {N : Type} `{NCacheOps N} (mnt : pfs_mount) (now : Z).
Abbreviation X := (dio (N * mems)).

Definition mem_in (ino : Z) : X dinode := c ← gets ds_nc; lift (mm_ins (snd c) !! ino).
Definition put_in (ino : Z) (di : dinode) : X unit :=
  c ← gets ds_nc; set_nc (fst c, MkMems (<[ino := di]> (mm_ins (snd c))) (mm_cbs (snd c))).
Definition upd_mem (ino : Z) (f : dinode -> dinode) : X unit := di ← mem_in ino; put_in ino (f di).

(** The inode in memory is created on demand. *)
Definition pfs_inode_get (ino : Z) : X unit :=
  c ← gets ds_nc;
  match mm_ins (snd c) !! ino with Some _ => mret tt | None => put_in ino new_dinode end.

Definition pfs_inode_dx_add (dirino nmhash ino : Z) (isdir : bool) : X unit :=
  (if isdir then pfs_inode_get ino else mret tt);;
  upd_mem dirino (fun di => set_dx (dx_insert nmhash (MkDx ino isdir) (di_dx_root di)) di).

(** The result: inode, directory entry, type and birth time. *)
Fixpoint dx_find_loop (chain : list pfs_dxent) (name : list Z) : X (Z * (Z * Z * Z * Z)) :=
  match chain with
  | [] => mret (- ENOENT, (0, 0, 0, 0))
  | ent :: next =>
      phyin ← pfs_meta_get_inode (e_ino ent);
      nm ← pfs_direntry_getname (in_deno phyin);
      if bool_decide (name = nm) then mret (0, (e_ino ent, in_deno phyin, in_type phyin, in_btime phyin))
      else dx_find_loop next name
  end.
Definition pfs_inode_dx_find (dirino : Z) (name : list Z) : X (Z * (Z * Z * Z * Z)) :=
  di ← mem_in dirino;
  dx_find_loop (default [] (di_dx_root di !! dx_calc_hash name)) name.

(** ** Changes of a transaction *)
Definition pfs_inode_dxredo_record (dirino : Z) (op : dxop) (name : list Z) (ino : Z) (isdir : bool) : X unit :=
  di ← mem_in dirino;
  assert_ (length (di_dx_redo di) <? DXR_MAX_NREC)%nat;;
  put_in dirino (set_redo (di_dx_redo di ++ [MkRec op (dx_calc_hash name) ino isdir]) di).

Fixpoint dxredo_apply_loop (dirino : Z) (recs : list dxredo_rec) (szdelta : Z) : X Z :=
  match recs with
  | [] => mret szdelta
  | rec :: recs =>
      match rr_op rec with
      | DXOP_ADD =>
          pfs_inode_dx_add dirino (rr_nmhash rec) (rr_ino rec) (rr_isdir rec);;
          dxredo_apply_loop dirino recs (szdelta + METAOBJ_SIZE)
      | DXOP_DEL =>
          di ← mem_in dirino;
          root ← lift (pfs_inode_dx_del (di_dx_root di) (rr_nmhash rec) (rr_ino rec) (rr_isdir rec));
          put_in dirino (set_dx root di);;
          dxredo_apply_loop dirino recs (szdelta - METAOBJ_SIZE)
      end
  end.
Definition pfs_inode_dxredo_apply (dirino : Z) : X unit :=
  di ← mem_in dirino;
  szdelta ← dxredo_apply_loop dirino (di_dx_redo di) 0;
  upd_mem dirino (add_size szdelta).

Definition pfs_inode_dir_update_done (ino err : Z) : X unit :=
  di ← mem_in ino;
  assert_ (negb (di_cbdone di));;
  (if err =? 0 then pfs_inode_dxredo_apply ino else mret tt);;
  upd_mem ino (fun di => set_cbdone true (set_redo [] di)).

Definition pfs_inode_set_callback (ino : Z) : X unit :=
  di ← mem_in ino;
  assert_ (di_cbdone di);;
  c ← gets ds_nc;
  set_nc (fst c, MkMems (<[ino := set_cbdone false di]> (mm_ins (snd c))) (mm_cbs (snd c) ++ [ino])).

(** The transaction is over. *)
Fixpoint do_callbacks (cbs : list Z) (err : Z) : X unit :=
  match cbs with
  | [] => mret tt
  | ino :: cbs => pfs_inode_dir_update_done ino err;; do_callbacks cbs err
  end.
Definition pfs_tx_do_callback (err : Z) : X unit :=
  c ← gets ds_nc;
  do_callbacks (mm_cbs (snd c)) err;;
  c ← gets ds_nc; set_nc (fst c, MkMems (mm_ins (snd c)) []).

(** ** Operations through the index *)
Definition dir_check_stale (dirino : Z) : X Z :=
  di ← mem_in dirino; mret (if di_stale di || (di_sync_ver di <? di_rpl_ver di) then - EAGAIN else 0).

Definition pfs_inode_dir_add (dirino : Z) (name : list Z) (isdir : bool) : X (Z * (Z * Z)) :=
  err ← dir_check_stale dirino;
  if err <? 0 then mret (err, (0, 0)) else
  r ← pfs_dir_add mnt now dirino name isdir;
  let '(err, ino, btime) := r in
  if err <? 0 then mret (err, (0, 0)) else
  pfs_inode_dxredo_record dirino DXOP_ADD name ino isdir;;
  pfs_inode_set_callback dirino;;
  mret (0, (ino, btime)).

(** The result: inode, type and birth time. *)
Definition pfs_inode_dir_find (dirino : Z) (name : list Z) : X (Z * (Z * Z * Z)) :=
  c ← gets ds_nc;
  r ← lift (ncache_lookup dirino name c);
  set_nc (snd r);;
  match fst r with
  | inl tgtino =>
      phyin ← pfs_meta_get_inode tgtino;
      mret (0, (tgtino, in_type phyin, in_btime phyin))
  | inr err =>
      if negb (err =? - ENOENT) then mret (err, (0, 0, 0)) else
      err ← dir_check_stale dirino;
      if err <? 0 then mret (err, (0, 0, 0)) else
      r ← pfs_inode_dx_find dirino name;
      let '(err, (tgtino, deno, type, btime)) := r in
      if err <? 0 then mret (err, (0, 0, 0)) else
      c ← gets ds_nc;
      c ← lift (ncache_enter dirino tgtino name deno c);
      set_nc c;;
      mret (0, (tgtino, type, btime))
  end.

Definition pfs_inode_dir_del (dirino ino : Z) (name : list Z) (isdir : bool) : X Z :=
  if ino =? 0 then mret (- EINVAL) else
  err ← dir_check_stale dirino;
  if err <? 0 then mret err else
  err ← pfs_dir_del mnt dirino ino (Some name) isdir;
  if err <? 0 then mret err else
  pfs_inode_dxredo_record dirino DXOP_DEL name ino isdir;;
  pfs_inode_set_callback dirino;;
  mret 0.

Definition pfs_inode_dir_rename (isdir : bool) (odirino oino : Z) (oldname : list Z) (ndirino nino : Z) (newname : list Z) : X Z :=
  if (oino =? 0) || (nino =? 0) then mret (- EBUSY) else
  if oino =? nino then mret 0 else
  err ← dir_check_stale odirino;
  if err <? 0 then mret err else
  err ← dir_check_stale ndirino;
  if err <? 0 then mret err else
  err ← pfs_dir_rename mnt now odirino oino ndirino nino newname;
  if err <? 0 then mret err else
  (if negb (nino =? INVALID_INO) then pfs_inode_dxredo_record ndirino DXOP_DEL newname nino isdir else mret tt);;
  pfs_inode_dxredo_record odirino DXOP_DEL oldname oino isdir;;
  pfs_inode_dxredo_record ndirino DXOP_ADD newname oino isdir;;
  pfs_inode_set_callback odirino;;
  (if negb (ndirino =? odirino) then pfs_inode_set_callback ndirino else mret tt);;
  mret 0.

(** ** Loading *)
Fixpoint build_dindex_loop (n : nat) (dirino deno : Z) : X unit :=
  if deno =? 0 then mret tt else
  match n with
  | O => abort
  | S n =>
      mo ← de_mo deno;
      de ← pfs_meta_get_direntry deno;
      name ← pfs_direntry_getname deno;
      phyin ← pfs_meta_get_inode (de_ino de);
      pfs_inode_dx_add dirino (dx_calc_hash name) (de_ino de) (in_type phyin =? PFS_INODET_DIR);;
      build_dindex_loop n dirino (mo_next mo)
  end.
Definition pfs_inode_build_dindex (dirino : Z) : X unit :=
  mo ← in_mo dirino;
  n ← gets (fun s => size (os_objs (ds_de s)));
  build_dindex_loop n dirino (mo_head mo).

(** The index of a file is that of Inode.v. *)
Definition pfs_inode_load_dir (ino : Z) : X Z :=
  phyin ← pfs_meta_get_inode ino;
  let err := pfs_inode_check_stale (Some phyin) None in
  if err <? 0 then mret err else
  di ← mem_in ino;
  put_in ino (MkDi (in_type phyin) (in_size phyin) (in_size phyin) (in_btime phyin) (di_stale di) (di_cbdone di)
                (di_sync_ver di) (di_rpl_ver di) (di_dx_root di) (di_dx_redo di));;
  assert_ (bool_decide (length (di_dx_redo di) = 0%nat));;
  (if in_type phyin =? PFS_INODET_DIR then pfs_inode_build_dindex ino
   else assert_ (in_type phyin =? PFS_INODET_FILE));;
  upd_mem ino (set_stale false);;
  mret 0.

Definition pfs_inode_reload_dir (ino : Z) : X Z :=
  di ← mem_in ino;
  assert_ (di_stale di);;
  root ← (if di_type di =? PFS_INODET_DIR then lift (pfs_inode_destroy_dindex (dx_count (di_dx_root di)) (di_dx_root di))
          else mret (di_dx_root di));
  put_in ino (set_redo [] (set_dx root di));;
  pfs_inode_load_dir ino.

(** [pfs_inode_sync_impl]; no other thread changes the inode. *)
Definition pfs_inode_sync_dir (first_sync : bool) (ino type btime : Z) : X Z :=
  di ← mem_in ino;
  assert_ ((di_size di =? di_size2 di) && di_cbdone di);;
  r ← (if di_stale di then err ← pfs_inode_reload_dir ino; mret (err, true) else mret (0, false));
  let '(err, reloaded) := r in
  if negb (err =? 0) then mret err else
  di ← mem_in ino;
  put_in ino (set_sync_ver (di_rpl_ver di) di);;
  assert_ (negb (di_type di =? PFS_INODET_NONE));;
  mret (if negb (di_btime di =? btime) then - ENOENT
        else if negb (type =? PFS_INODET_NONE) && negb (di_type di =? type) then (if type =? PFS_INODET_FILE then - EISDIR else - ENOTDIR)
        else if reloaded && negb first_sync then - EAGAIN else 0).

Definition pfs_inode_invalidate (ino : Z) : X unit :=
  c ← gets ds_nc;
  match mm_ins (snd c) !! ino with Some di => put_in ino (set_stale true di) | None => mret tt end.

(** [pfs_inode_release] of a directory. *)
Definition pfs_inode_release_dir (ino btime : Z) : X Z :=
  err ← pfs_inodephy_release_dir ino btime;
  (if err =? 0 then pfs_inode_invalidate ino else mret tt);;
  mret err.

(** ** A transaction around an operation

    [committed] is what the log returns.  When the operation or the commit
    fails the objects are those from before, and the inodes [undone] whose
    objects were restored are marked stale. *)
Definition invalidate_all (undone : list Z) (ins : gmap Z dinode) : gmap Z dinode := foldr (alter (set_stale true)) ins undone.
Definition rollback (undone : list Z) (s s1 : dstate (N * mems)) : dstate (N * mems) :=
  MkD (ds_de s) (ds_in s) (fst (ds_nc s1), MkMems (invalidate_all undone (mm_ins (snd (ds_nc s1)))) (mm_cbs (snd (ds_nc s1)))).
Definition tls_write {T} (committed : Z) (undone : list Z) (m : X (Z * T)) : X (Z * T) := fun s =>
  match m s with
  | Some ((err, v), s1) =>
      let err := if err <? 0 then err else committed in
      match pfs_tx_do_callback err (if err <? 0 then rollback undone s s1 else s1) with Some (_, s2) => Some ((err, v), s2) | None => None end
  | None => None
  end.
End Dx.
