(* ===== verification/DxInv.v ===== *)
(** * The index of a directory agrees with the namespace

    The index of a directory in memory has its entries, its operations find
    and change them, and the inodes in memory follow the namespace. *)

From S2P Require Import Prelude Alloc Object Blkio Blktable NameCache Inode Dir DirBase DirName DirInv DirStep DirTree DirOps DirView Dx.

Open Scope pfs_scope.

#[global] Instance pfs_dxent_eq_dec : EqDecision pfs_dxent.
Proof. solve_decision. Defined.

(** ** Chains *)
Definition in_chain (root : dxroot) (h : Z) (e : pfs_dxent) : Prop := exists l, root !! h = Some l /\ e ∈ l.
Record dx_wf (root : dxroot) : Prop := {
  dw_ne : forall h l, root !! h = Some l -> l <> [];
  dw_nodup : forall h l, root !! h = Some l -> NoDup (e_ino <$> l) }.

Lemma dx_wf_empty : dx_wf ∅.
Proof. by split. Qed.
Lemma in_chain_empty h e : ~ in_chain ∅ h e.
Proof. by intros (l & ? & _). Qed.
Lemma in_chain_insert root h l h' e : in_chain (<[h := l]> root) h' e <-> (h = h' /\ e ∈ l) \/ (h <> h' /\ in_chain root h' e).
Proof.
  unfold in_chain. destruct (decide (h = h')) as [<-|Hne].
  - rewrite lookup_insert_eq. naive_solver.
  - rewrite lookup_insert_ne by done. naive_solver.
Qed.
Lemma in_chain_delete root h h' e : in_chain (delete h root) h' e <-> h <> h' /\ in_chain root h' e.
Proof.
  unfold in_chain. destruct (decide (h = h')) as [<-|Hne].
  - rewrite lookup_delete_eq. naive_solver.
  - rewrite lookup_delete_ne by done. naive_solver.
Qed.

Lemma dx_insert_in root h e h' e' : dx_wf root -> in_chain (dx_insert h e root) h' e' <-> in_chain root h' e' \/ (h' = h /\ e' = e).
Proof.
  intros [Hne _]. unfold dx_insert. destruct (root !! h) as [[|first next]|] eqn:Hh; [by apply Hne in Hh| |]; rewrite in_chain_insert.
  - destruct (decide (h = h')) as [<-|]; [|naive_solver]. unfold in_chain. rewrite Hh. split.
    + intros [[_ Hin]|?]; [|naive_solver]. rewrite !elem_of_cons in Hin. destruct Hin as [->|[->|Hin]]; [left; eexists; split; [done|left]|by right|left; eexists; split; [done|by right]].
    + intros [(l & [= <-] & Hin)|[_ ->]]; left; (split; [done|]); rewrite !elem_of_cons; [rewrite elem_of_cons in Hin|]; tauto.
  - rewrite list_elem_of_singleton. unfold in_chain. destruct (decide (h = h')) as [<-|]; [rewrite Hh|]; naive_solver.
Qed.
Lemma dx_insert_wf root h e : dx_wf root -> (forall e', in_chain root h e' -> e_ino e' <> e_ino e) -> dx_wf (dx_insert h e root).
Proof.
  intros [Hne Hnd] Hnew. unfold dx_insert. destruct (root !! h) as [[|first next]|] eqn:Hh; [by apply Hne in Hh| |]; split;
    intros h' l [[<- <-]|[_ Hl]]%lookup_insert_Some; try done; try (by eapply Hne); try (by eapply Hnd).
  - pose proof (Hnd _ _ Hh) as Hn. simpl in *. apply NoDup_cons in Hn as [Hf Hn].
    assert (Hi : forall e', e' ∈ first :: next -> e_ino e' <> e_ino e) by (intros e' He'; apply Hnew; by eexists).
    assert (Hni : e_ino e ∉ (e_ino <$> next)) by (intros (e' & Heq & He')%list_elem_of_fmap; symmetry in Heq; revert Heq; apply Hi; by right).
    apply NoDup_cons. split; [|by apply NoDup_cons]. rewrite not_elem_of_cons. split; [apply Hi; left|done].
  - simpl. apply NoDup_singleton.
Qed.

Lemma chain_del_ok ino l e : NoDup (e_ino <$> l) -> e ∈ l -> e_ino e = ino ->
  exists rest, chain_del ino l = Some (e, rest) /\ (forall e', e' ∈ rest <-> e' ∈ l /\ e_ino e' <> ino) /\ NoDup (e_ino <$> rest) /\ length l = S (length rest).
Proof.
  induction l as [|x l IH]; [by intros _ ?%elem_of_nil|]. intros Hnd Hin Hi. simpl in Hnd. apply NoDup_cons in Hnd as [Hx Hnd]. cbn [chain_del].
  destruct (Z.eqb_spec (e_ino x) ino) as [Hxi|Hxi].
  - assert (x = e) as ->.
    { apply elem_of_cons in Hin as [->|Hin]; [done|]. exfalso. apply Hx. apply list_elem_of_fmap. exists e. split; [congruence|done]. }
    exists l. split; [done|]. split_and!; [|done|done]. intros e'. rewrite elem_of_cons. split; [|naive_solver].
    intros He'. split; [by right|]. intros Heq. apply Hx. apply list_elem_of_fmap. exists e'. split; [congruence|done].
  - apply elem_of_cons in Hin as [->|Hin]; [done|]. destruct (IH Hnd Hin Hi) as (rest & -> & Hr & Hn & Hlen). exists (x :: rest). split; [done|]. split_and!.
    + intros e'. rewrite !elem_of_cons, Hr. naive_solver.
    + simpl. apply NoDup_cons. split; [|done]. intros (e' & Heq & He')%list_elem_of_fmap. apply Hr in He' as [He' _]. apply Hx. apply list_elem_of_fmap. by exists e'.
    + simpl. by rewrite Hlen.
Qed.
Lemma dx_del_ok root h ino isdir e : dx_wf root -> in_chain root h e -> e_ino e = ino -> (isdir = true -> e_in e = true) ->
  exists root', pfs_inode_dx_del root h ino isdir = Some root' /\ dx_wf root' /\
    forall h' e', in_chain root' h' e' <-> in_chain root h' e' /\ ~ (h' = h /\ e_ino e' = ino).
Proof.
  intros [Hne Hnd] (l & Hl & Hin) Hi Hd. destruct (chain_del_ok ino l e (Hnd _ _ Hl) Hin Hi) as (rest & Hdel & Hr & Hn & _).
  unfold pfs_inode_dx_del. rewrite Hl, Hdel. assert (negb isdir || e_in e = true) as -> by (destruct isdir; [by rewrite Hd|done]).
  eexists. split; [done|]. assert (Hroot : forall h' e', in_chain root h' e' <-> (h = h' /\ e' ∈ l) \/ (h <> h' /\ in_chain root h' e')).
  { intros h' e'. destruct (decide (h = h')) as [<-|]; [|naive_solver]. unfold in_chain. rewrite Hl. naive_solver. }
  destruct rest as [|r rest].
  - split; [split; intros h' l' [_ Hl']%lookup_delete_Some; by eauto|]. intros h' e'. rewrite in_chain_delete, Hroot. specialize (Hr e'). rewrite elem_of_nil in Hr. naive_solver.
  - split; [split; intros h' l' [[<- <-]|[_ Hl']]%lookup_insert_Some; by eauto|]. intros h' e'. rewrite in_chain_insert, Hroot, Hr. naive_solver.
Qed.

Lemma dx_count_delete root h l : root !! h = Some l -> dx_count root = (length l + dx_count (delete h root))%nat.
Proof. intros Hl. apply (map_fold_delete_L (fun _ l n => length l + n)%nat 0%nat h l root); [|done]. intros. lia. Qed.
Lemma dx_count_insert root h l : dx_count (<[h := l]> (delete h root)) = (length l + dx_count (delete h root))%nat.
Proof. apply (map_fold_insert_L (fun _ l n => length l + n)%nat 0%nat h l (delete h root)); [|apply lookup_delete_eq]. intros. lia. Qed.
Lemma least_key (ks : list Z) : ks <> [] -> exists k, foldr (fun k m => Some (match m with Some m => Z.min k m | None => k end)) None ks = Some k /\ k ∈ ks.
Proof.
  induction ks as [|x ks IH]; [done|]. intros _. simpl. destruct ks as [|y ks]; [exists x; split; [done|left]|].
  destruct IH as (k & -> & Hk); [done|]. eexists. split; [done|]. destruct (Z.min_spec x k) as [[_ ->]|[_ ->]]; [left|by right].
Qed.
Lemma dx_first_ok root : dx_wf root -> root <> ∅ -> exists h e l, dx_first root = Some (h, e) /\ root !! h = Some (e :: l).
Proof.
  intros [Hne _] Hr. unfold dx_first. destruct (least_key (map_to_list root).*1) as (k & -> & Hk).
  { intros E%fmap_nil_inv. apply Hr. by apply map_to_list_empty_iff. }
  apply list_elem_of_fmap in Hk as ([k' l] & -> & Hkl%elem_of_map_to_list). simpl. rewrite Hkl. destruct l as [|e l]; [by apply Hne in Hkl|]. by exists k', e, l.
Qed.
Lemma destroy_ok : forall n root, dx_wf root -> (dx_count root <= n)%nat -> pfs_inode_destroy_dindex n root = Some ∅.
Proof.
  induction n as [|n IH]; intros root Hwf Hn; cbn [pfs_inode_destroy_dindex]; case_bool_decide as Hr; try (by rewrite Hr).
  - destruct (dx_first_ok root Hwf Hr) as (h & e & l & _ & Hl). rewrite (dx_count_delete _ _ _ Hl) in Hn. simpl in Hn. lia.
  - destruct (dx_first_ok root Hwf Hr) as (h & e & l & -> & Hl).
    destruct (dx_del_ok root h (e_ino e) (e_in e) e Hwf) as (root' & Hdel & Hwf' & _); [eexists; split; [done|left]|done|done|].
    rewrite Hdel. apply IH; [done|]. revert Hdel. unfold pfs_inode_dx_del. rewrite Hl. cbn [chain_del]. rewrite Z.eqb_refl.
    destruct (negb (e_in e) || e_in e); [|done]. intros [= <-]. rewrite (dx_count_delete _ _ _ Hl) in Hn. simpl in Hn. destruct l as [|y l]; [simpl in *; lia|].
    rewrite <- insert_delete_eq, dx_count_insert. simpl in *. lia.
Qed.

(** ** What the index of a directory says *)
Definition isdir (t : tree) (i : Z) : bool := match t !! i with Some nd => n_type nd =? PFS_INODET_DIR | None => false end.
Definition name_hash (t : tree) (i : Z) : Z := dx_calc_hash (name_of t i).
Record dx_ok (t : tree) (ents : list Z) (root : dxroot) : Prop := {
  dk_wf : dx_wf root;
  dk_in : forall h e, in_chain root h e <-> e_ino e ∈ ents /\ h = name_hash t (e_ino e) /\ e_in e = isdir t (e_ino e) }.

Lemma dx_ok_ext t t' ents root : dx_ok t ents root -> (forall i, i ∈ ents -> name_of t' i = name_of t i /\ isdir t' i = isdir t i) -> dx_ok t' ents root.
Proof.
  intros [Hwf Hin] Hsame. split; [done|]. intros h e. rewrite Hin. split; intros (He & Hh & Hd); destruct (Hsame _ He) as [E1 E2];
    unfold name_hash in *; [rewrite E1, E2|rewrite <- E1, <- E2]; done.
Qed.
Lemma dx_ok_add t ents root i : dx_ok t ents root -> i ∉ ents -> dx_ok t (ents ++ [i]) (dx_insert (name_hash t i) (MkDx i (isdir t i)) root).
Proof.
  intros [Hwf Hin] Hi. split.
  - apply dx_insert_wf; [done|]. intros e' (He & _)%Hin Heq. simpl in Heq. congruence.
  - intros h e. rewrite dx_insert_in, Hin by done. rewrite elem_of_app, list_elem_of_singleton. split.
    + intros [?|[-> ->]]; [naive_solver|]. simpl. naive_solver.
    + intros ([?|He] & Hh & Hd); [by left|right]. rewrite He in *. split; [done|]. destruct e as [ei ed]. simpl in *. by subst.
Qed.
Lemma dx_ok_del t ents root i : dx_ok t ents root -> i ∈ ents -> exists root', pfs_inode_dx_del root (name_hash t i) i (isdir t i) = Some root' /\ dx_ok t (drop_ent i ents) root'.
Proof.
  intros [Hwf Hin] Hi. destruct (dx_del_ok root (name_hash t i) i (isdir t i) (MkDx i (isdir t i)) Hwf) as (root' & Hdel & Hwf' & Hin'); [by apply Hin|done|done|].
  exists root'. split; [done|]. split; [done|]. intros h e. rewrite Hin', Hin. unfold drop_ent. rewrite list_elem_of_filter. naive_solver.
Qed.

(** ** The inodes in memory *)
Record mem_ok (t : tree) (d : Z) (di : dinode) : Prop := {
  mi_cb : di_cbdone di = true;
  mi_redo : di_dx_redo di = [];
  mi_size : di_size di = di_size2 di;
  mi_ver : di_sync_ver di = di_rpl_ver di;
  mi_wf : dx_wf (di_dx_root di);
  mi_file : di_type di <> PFS_INODET_DIR -> di_dx_root di = ∅;
  mi_live : di_stale di = false -> exists nd, t !! d = Some nd /\ di_type di = n_type nd /\ di_btime di = n_btime nd /\
    (n_type nd = PFS_INODET_DIR -> dx_ok t (n_ents nd) (di_dx_root di)) }.
Definition mems_ok (t : tree) (ins : gmap Z dinode) : Prop := forall d di, ins !! d = Some di -> mem_ok t d di.

Lemma new_mem_ok t d : mem_ok t d new_dinode.
Proof. split; (done || apply dx_wf_empty). Qed.
(** A stale inode fits every namespace. *)
Lemma stale_mem_ok t t' d di : mem_ok t d di -> di_stale di = true -> mem_ok t' d di.
Proof. intros [] Hst. split; try done. by rewrite Hst. Qed.
Lemma set_stale_ok t t' d di : mem_ok t d di -> mem_ok t' d (set_stale true di).
Proof. intros []. by split. Qed.

(** All inodes but [d] are as before; some are new. *)
Definition mgrow (d : Z) (ins ins' : gmap Z dinode) : Prop :=
  (forall j di, j <> d -> ins !! j = Some di -> ins' !! j = Some di) /\ (forall j di, j <> d -> ins !! j = None -> ins' !! j = Some di -> di = new_dinode).
Lemma mgrow_refl d ins : mgrow d ins ins.
Proof. split; [done|]. intros. congruence. Qed.
Lemma mgrow_trans d i1 i2 i3 : mgrow d i1 i2 -> mgrow d i2 i3 -> mgrow d i1 i3.
Proof.
  intros [A1 B1] [A2 B2]. split; [by eauto|]. intros j di Hj H1 H3. destruct (i2 !! j) as [di2|] eqn:H2; [|by eauto].
  rewrite (A2 _ _ Hj H2) in H3. injection H3 as <-. by eauto.
Qed.
Lemma mgrow_put d ins di : mgrow d ins (<[d := di]> ins).
Proof. split; intros j di' Hj; rewrite lookup_insert_ne by done; congruence. Qed.
Lemma mgrow_ok t d ins ins' : mems_ok t ins -> mgrow d ins ins' -> (forall di, ins' !! d = Some di -> mem_ok t d di) -> mems_ok t ins'.
Proof.
  intros Hok [A B] Hd j di Hj. destruct (decide (j = d)) as [->|Hne]; [by apply Hd|].
  destruct (ins !! j) as [dj|] eqn:E; [|rewrite (B _ _ Hne E Hj); apply new_mem_ok]. rewrite (A _ _ Hne E) in Hj. injection Hj as <-. by apply Hok.
Qed.

(** ** The name cache next to the inodes *)
Section Mem.
Context {N : Type} `{NCacheLaws N} (mnt : pfs_mount) (now : Z).
Implicit Types (s : dstate (N * mems)) (t : tree).

(** The operations on the name cache leave the inodes alone. *)
Definition mem_laws (m : mems) : NCacheLaws (N * mems).
Proof.
  refine {| ncache_inv := fun c => ncache_inv (fst c) /\ snd c = m; ncache_has := fun c => ncache_has (fst c) |}.
  - intros deno [c m'] [Hinv Hm]. simpl in *. destruct (nl_delete deno c Hinv) as (c' & -> & Hinv' & Hh). exists (c', m'). split; [done|]. split; [done|exact Hh].
  - intros p n [c m'] [Hinv Hm] Hd. simpl in *. destruct (nl_lookup p n c Hinv Hd) as (r & c' & -> & Hinv' & Hh & Hr). exists r, (c', m'). split; [done|]. split; [done|]. split; [exact Hh|exact Hr].
  - intros p i n k [c m'] [Hinv Hm] H1 H2. simpl in *. destruct (nl_enter p i n k c Hinv H1 H2) as (c' & -> & Hinv' & Hh). exists (c', m'). split; [done|]. split; [done|exact Hh].
Defined.
Lemma coherent_mem m (c : N * mems) t dn : coherent (H0 := mem_laws m) c t dn <-> coherent (fst c) t dn /\ snd c = m.
Proof. unfold coherent. simpl. tauto. Qed.

Definition with_ins s (ins : gmap Z dinode) : dstate (N * mems) := MkD (ds_de s) (ds_in s) (fst (ds_nc s), MkMems ins (mm_cbs (snd (ds_nc s)))).
Definition s_ins s : gmap Z dinode := mm_ins (snd (ds_nc s)).
Lemma rep_ins s t dn xs ins : rep s t dn xs -> rep (with_ins s ins) t dn xs.
Proof. apply rep_nc. Qed.
Lemma with_ins_id s : with_ins s (s_ins s) = s.
Proof. by destruct s as [? ? [? []]]. Qed.
Lemma with_ins_twice s a b : with_ins (with_ins s a) b = with_ins s b.
Proof. done. Qed.

Lemma runs_mem_in s d di (Q : dinode -> dstate (N * mems) -> Prop) : s_ins s !! d = Some di -> Q di s -> runs (mem_in d) s Q.
Proof. intros Hd HQ. unfold mem_in. dstep. dstep. eapply runs_lift; [exact Hd|done]. Qed.
Lemma runs_put_in s d di (Q : unit -> dstate (N * mems) -> Prop) : Q tt (with_ins s (<[d := di]> (s_ins s))) -> runs (put_in d di) s Q.
Proof. intros HQ. unfold put_in. dstep. dstep. by eexists _, _. Qed.
Lemma runs_upd_mem s d di f (Q : unit -> dstate (N * mems) -> Prop) : s_ins s !! d = Some di -> Q tt (with_ins s (<[d := f di]> (s_ins s))) -> runs (upd_mem d f) s Q.
Proof. intros Hd HQ. unfold upd_mem. dstep. eapply runs_mem_in; [done|]. by apply runs_put_in. Qed.
Lemma runs_inode_get s d i (Q : unit -> dstate (N * mems) -> Prop) : is_Some (s_ins s !! d) ->
  (forall ins', mgrow d (s_ins s) ins' -> ins' !! d = s_ins s !! d -> is_Some (ins' !! i) -> Q tt (with_ins s ins')) -> runs (pfs_inode_get i) s Q.
Proof.
  intros Hd HQ. unfold pfs_inode_get. dstep. dstep. fold (s_ins s). destruct (s_ins s !! i) as [di|] eqn:E.
  - apply runs_ret. rewrite <- (with_ins_id s). apply HQ; [apply mgrow_refl|done|by rewrite E].
  - apply runs_put_in. apply HQ; [|apply lookup_insert_ne; intros ->; rewrite E in Hd; by destruct Hd|rewrite lookup_insert_eq; by eexists].
    split; [intros j di Hj Hsome; rewrite lookup_insert_ne; [done|congruence]|]. intros j di Hj Hnone [[_ <-]|[_ ?]]%lookup_insert_Some; [done|congruence].
Qed.
End Mem.
