(* ===== verification/DxOps.v ===== *)
(** * The operations through the index

    Lookup, loading and the operations on directories follow the namespace,
    and a transaction that ends leaves the inodes in memory in step with it. *)

From S2P Require Import Prelude Alloc Object Blkio Blktable NameCache Inode Dir DirBase DirName DirInv DirStep DirTree DirOps DirView Dx DxInv.

Open Scope pfs_scope.

Section Ops.
Context {N : Type} `{NCacheLaws N} (mnt : pfs_mount) (now : Z).
Implicit Types (s : dstate (N * mems)) (t : tree).

(** ** Lookup *)
Lemma ent_child t d nd i : tree_ok mnt t -> t !! d = Some nd -> i ∈ n_ents nd -> exists ni name, t !! i = Some ni /\ n_link ni = Some (d, name) /\ name_ok mnt name /\ i <> 0.
Proof.
  intros Hok Hd Hi. destruct (to_ents _ _ Hok d nd i Hd Hi) as (ni & name & Hni & Hl). exists ni, name. split_and!; [done|done|by eapply (to_name _ _ Hok)|].
  intros ->. apply (root_link _ _ Hok) in Hni. congruence.
Qed.
Lemma child_ent t d nd name i : tree_ok mnt t -> t !! d = Some nd -> child t d name i -> i ∈ n_ents nd /\ name_of t i = name.
Proof.
  intros Hok Hd Hc. pose proof (name_of_child _ _ _ _ Hc) as Hn. destruct Hc as (ni & Hi & Hl). split; [|done].
  destruct (to_link _ _ Hok i ni d name Hi Hl) as (nd' & Hd' & _ & ?). by simplify_eq.
Qed.

Lemma dx_find_loop_ok s t dn xs d nd name l (Q : Z * (Z * Z * Z * Z) -> dstate (N * mems) -> Prop) : rep s t dn xs -> tree_ok mnt t -> t !! d = Some nd ->
  (forall e, e ∈ l -> e_ino e ∈ n_ents nd) ->
  (forall i ni, child t d name i -> t !! i = Some ni -> Q (0, (i, dn i, n_type ni, n_btime ni)) s) ->
  ((forall e, e ∈ l -> ~ child t d name (e_ino e)) -> Q (- ENOENT, (0, 0, 0, 0)) s) -> runs (dx_find_loop l name) s Q.
Proof.
  intros Hr Hok Hd. induction l as [|e l IH]; intros Hl Hhit Hmiss; cbn [dx_find_loop]; [apply runs_ret, Hmiss; by intros e ?%elem_of_nil|].
  destruct (ent_child t d nd (e_ino e) Hok Hd) as (ni & nm & Hi & Hlk & Hnm & Hi0); [apply Hl; left|].
  dstep. eapply runs_node; [done..|]. intros ino Hty _ Hbt Hde _. rewrite Hlk, (proj2 (Z.eqb_neq _ 0)) in Hde by done. rewrite Hde, Hty, Hbt.
  dstep. eapply runs_getname; [done|done|done|by apply Hnm|]. case_bool_decide as Heq.
  - subst nm. apply runs_ret. apply Hhit; [by exists ni|done].
  - apply IH; [intros e' He'; apply Hl; by right|done|]. intros Hno. apply Hmiss. intros e' [->|He']%elem_of_cons; [|by apply Hno].
    intros (ni' & Hi' & Hl'). simplify_eq.
Qed.

(** The cache is asked first, then the index. *)
Lemma dir_find_ok s t dn xs d nd di name (Q : Z * (Z * Z * Z) -> dstate (N * mems) -> Prop) : rep s t dn xs -> tree_ok mnt t -> coherent (fst (ds_nc s)) t dn ->
  t !! d = Some nd -> n_type nd = PFS_INODET_DIR -> s_ins s !! d = Some di -> mem_ok t d di -> di_stale di = false -> dotted name = false ->
  (forall c i ni, coherent c t dn -> child t d name i -> t !! i = Some ni -> Q (0, (i, n_type ni, n_btime ni)) (MkD (ds_de s) (ds_in s) (c, snd (ds_nc s)))) ->
  (forall c, coherent c t dn -> (forall i, ~ child t d name i) -> Q (- ENOENT, (0, 0, 0)) (MkD (ds_de s) (ds_in s) (c, snd (ds_nc s)))) ->
  runs (pfs_inode_dir_find d name) s Q.
Proof.
  intros Hr Hok [Hinv Hc] Hd Hty Hdi Hmem Hst Hdot Hhit Hmiss. unfold pfs_inode_dir_find. dstep. dstep. dstep. destruct s as [des ins [c m]]. cbn [ds_nc fst snd] in *.
  destruct (nl_lookup d name c Hinv Hdot) as (r & c1 & E & Hinv1 & Hh1 & Hres). eapply runs_lift; [cbn [ncache_lookup mem_ncache fst snd]; rewrite E; done|].
  dstep. eexists _, _. split; [done|]. cbn [fst snd].
  assert (Hco1 : coherent c1 t dn) by (split; [done|]; intros p n i k Hk; by apply Hc, Hh1).
  assert (Hr1 : rep (MkD des ins (c1, m)) t dn xs) by (by eapply rep_nc in Hr). destruct r as [i|err].
  - destruct Hres as [k Hk]. destruct (Hc _ _ _ _ Hk) as [Hch _]. pose proof Hch as (ni & Hi & Hl). dstep. eapply runs_node; [exact Hr1|exact Hi|].
    intros ino Ht _ Hb _ _. rewrite Ht, Hb. apply runs_ret. by apply (Hhit c1 i ni).
  - subst err. rewrite Z.eqb_refl. cbn [negb]. dstep. unfold dir_check_stale. dstep. eapply runs_mem_in; [exact Hdi|]. rewrite Hst, (mi_ver _ _ _ Hmem), Z.ltb_irrefl.
    apply runs_ret. cbn [orb Z.ltb Z.compare]. dstep. unfold pfs_inode_dx_find. dstep. eapply runs_mem_in; [exact Hdi|].
    destruct (mi_live _ _ _ Hmem Hst) as (nd' & Hd' & _ & _ & Hdx). assert (nd' = nd) as -> by congruence. destruct (Hdx Hty) as [_ Hin].
    eapply (dx_find_loop_ok _ t dn xs d nd); [exact Hr1|done|done| | |].
    + intros e He. apply (Hin (dx_calc_hash name)). destruct (di_dx_root di !! dx_calc_hash name) as [l|] eqn:El; [by exists l|by apply elem_of_nil in He].
    + intros i ni Hch Hi. cbn [Z.ltb Z.compare]. assert (Hlk : linked t i) by (destruct Hch as (ni' & ? & Hl); exists ni'; by rewrite Hl).
      destruct (nl_enter d i name (dn i) c1 Hinv1) as (c2 & E2 & Hinv2 & Hh2).
      { intros i' k' Hk'. destruct (proj2 Hco1 _ _ _ _ Hk') as [(n1 & Hi1 & Hl1) <-]. destruct Hch as (n2 & Hi2 & Hl2). by assert (i' = i) as -> by (eapply (to_unique _ _ Hok); [exact Hi1|exact Hi2|exact Hl1|exact Hl2]). }
      { intros p' n' i' Hk'. destruct (proj2 Hco1 _ _ _ _ Hk') as [Hch' Hdn']. assert (i' = i) as ->.
        { eapply (dn_inj _ _ _ _ Hr); [|done|done]. destruct Hch' as (nx & ? & Hl'). exists nx. by rewrite Hl'. }
        destruct Hch' as (n1 & Hi1 & Hl1), Hch as (n2 & Hi2 & Hl2). by simplify_eq. }
      dstep. dstep. dstep. eapply runs_lift; [cbn [ncache_enter mem_ncache ds_nc fst snd]; rewrite E2; done|]. dstep. eexists _, _. split; [done|]. apply runs_ret.
      apply (Hhit c2 i ni); [|done|done]. split; [done|]. intros p n j k [Hk|(-> & -> & -> & ->)]%Hh2; [by apply Hco1|done].
    + intros Hno. apply runs_ret. apply (Hmiss c1); [done|]. intros i Hch. destruct (child_ent _ _ _ _ _ Hok Hd Hch) as [Hie Hnm].
      destruct (proj2 (Hin (dx_calc_hash name) (MkDx i (isdir t i)))) as (l & Hl & He); [split; [done|]; split; [unfold name_hash; simpl; by rewrite Hnm|done]|].
      apply (Hno (MkDx i (isdir t i))); [by rewrite Hl|done].
Qed.

(** ** Loading *)
Lemma runs_dx_add s d di h i b (Q : unit -> dstate (N * mems) -> Prop) : s_ins s !! d = Some di ->
  (forall ins', mgrow d (s_ins s) ins' -> ins' !! d = Some (set_dx (dx_insert h (MkDx i b) (di_dx_root di)) di) -> Q tt (with_ins s ins')) -> runs (pfs_inode_dx_add d h i b) s Q.
Proof.
  intros Hd HQ. unfold pfs_inode_dx_add. dstep.
  assert (Hadd : forall ins1, mgrow d (s_ins s) ins1 -> ins1 !! d = Some di -> runs (upd_mem d (fun di => set_dx (dx_insert h (MkDx i b) (di_dx_root di)) di)) (with_ins s ins1) Q).
  { intros ins1 Hg Hd1. eapply runs_upd_mem; [exact Hd1|]. apply HQ; [eapply mgrow_trans; [exact Hg|apply mgrow_put]|apply lookup_insert_eq]. }
  destruct b.
  - apply (runs_inode_get s d); [by eexists|]. intros ins1 Hg Hd1 _. apply Hadd; [done|congruence].
  - apply runs_ret. rewrite <- (with_ins_id s) at 1. apply Hadd; [apply mgrow_refl|done].
Qed.
Lemma build_loop_ok t dn xs d nd : tree_ok mnt t -> t !! d = Some nd -> forall l n s di pre pv (Q : unit -> dstate (N * mems) -> Prop), rep s t dn xs ->
  n_ents nd = pre ++ l -> (length l <= n)%nat -> seg (os_objs (ds_de s)) pv (dn <$> l) 0 -> s_ins s !! d = Some di -> dx_ok t pre (di_dx_root di) ->
  (forall ins' root, mgrow d (s_ins s) ins' -> ins' !! d = Some (set_dx root di) -> dx_ok t (n_ents nd) root -> Q tt (with_ins s ins')) ->
  runs (build_dindex_loop n d (first (dn <$> l))) s Q.
Proof.
  intros Hok Hd. induction l as [|i l IH]; intros n s di pre pv Q Hr He Hn Hs Hdi Hdx HQ.
  { destruct n; cbn [build_dindex_loop]; apply runs_ret; rewrite <- (with_ins_id s) at 1; (eapply (HQ _ (di_dx_root di)); [apply mgrow_refl|rewrite Hdi; by destruct di|]);
      rewrite He, app_nil_r; done. }
  destruct n as [|n]; [simpl in Hn; lia|]. destruct (ent_child t d nd i Hok Hd) as (ni & nm & Hi & Hlk & Hnm & Hi0); [rewrite He; set_solver|].
  rewrite fmap_cons in *. destruct Hs as [(mo & Hm & Hnx & _) Hs]. change (first (dn i :: (dn <$> l))) with (dn i). cbn [build_dindex_loop].
  assert (Hpos : 0 < dn i) by (eapply (deno_range s t dn xs); [done|exists ni; by rewrite Hlk]). rewrite (proj2 (Z.eqb_neq (dn i) 0)) by lia.
  dstep. eapply runs_de_mo; [exact Hm|]. dstep. eapply runs_entry; [done..|]. intros de Hdei _. dstep. eapply runs_getname; [done|done|done|by apply Hnm|].
  dstep. rewrite Hdei. eapply runs_node; [done..|]. intros ino Ht _ _ _ _. rewrite Ht. dstep. eapply runs_dx_add; [exact Hdi|]. intros ins1 Hg1 Hd1.
  rewrite Hnx. eapply (IH n (with_ins s ins1) _ (pre ++ [i]) (dn i)); [by apply rep_ins|by rewrite <- app_assoc|simpl in Hn; lia|exact Hs|exact Hd1| |].
  - assert (Hni : i ∉ pre).
    { pose proof (to_nodup _ _ Hok d nd Hd) as Hnd. rewrite He in Hnd. apply NoDup_app in Hnd as (_ & Hnd & _). intros Hin. apply (Hnd i Hin). left. }
    pose proof (dx_ok_add t pre (di_dx_root di) i Hdx Hni) as Hdx'. unfold name_hash in Hdx'. rewrite (name_of_child t d nm i) in Hdx' by (by exists ni).
    unfold isdir in Hdx'. rewrite Hi in Hdx'. exact Hdx'.
  - intros ins' root Hg' Hd' Hdx'. eapply (HQ _ root); [eapply mgrow_trans; [exact Hg1|exact Hg']|exact Hd'|exact Hdx'].
Qed.

Abbreviation ino_ok s i := (is_Some (os_objs (ds_in s) !! i)).
(** The inode of a node of the namespace is loaded; its index is empty
    before. *)
Lemma load_dir_ok s t dn xs d nd di (Q : Z -> dstate (N * mems) -> Prop) : rep s t dn xs -> tree_ok mnt t -> t !! d = Some nd -> s_ins s !! d = Some di ->
  di_dx_redo di = [] -> di_dx_root di = ∅ -> di_cbdone di = true -> di_sync_ver di = di_rpl_ver di ->
  (forall ins' di', mgrow d (s_ins s) ins' -> ins' !! d = Some di' -> mem_ok t d di' -> di_stale di' = false -> Q 0 (with_ins s ins')) ->
  runs (pfs_inode_load_dir d) s Q.
Proof.
  intros Hr Hok Hd Hdi Hredo Hdx Hcb Hver HQ. unfold pfs_inode_load_dir. dstep. eapply runs_node; [done..|]. intros ino Ht Hsz Hb _ _.
  assert (Hty : n_type nd = PFS_INODET_FILE \/ n_type nd = PFS_INODET_DIR) by (by eapply to_type).
  assert (He0 : pfs_inode_check_stale (Some ino) None = 0) by (unfold pfs_inode_check_stale; rewrite Ht; by destruct Hty as [-> | ->]). rewrite He0. cbn [Z.ltb Z.compare].
  dstep. eapply runs_mem_in; [exact Hdi|]. dstep. apply runs_put_in. set (di1 := MkDi _ _ _ _ _ _ _ _ _ _). dstep. dstep; [by rewrite Hredo|].
  assert (Hd1 : s_ins (with_ins s (<[d := di1]> (s_ins s))) !! d = Some di1) by apply lookup_insert_eq. rewrite Ht.
  assert (Hfin : forall ins' root, mgrow d (s_ins s) ins' -> ins' !! d = Some (set_dx root di1) -> (n_type nd = PFS_INODET_DIR -> dx_ok t (n_ents nd) root) -> (n_type nd <> PFS_INODET_DIR -> root = ∅) ->
    runs (upd_mem d (set_stale false);; mret 0) (with_ins s ins') Q).
  { intros ins' root Hg Hd' Hdx' Hfile. dstep. eapply runs_upd_mem; [exact Hd'|]. apply runs_ret. eapply HQ; [eapply mgrow_trans; [exact Hg|apply mgrow_put]|apply lookup_insert_eq| |done].
    split; simpl; try done.
    - destruct (decide (n_type nd = PFS_INODET_DIR)) as [E|E]; [by apply Hdx'|rewrite (Hfile E); apply dx_wf_empty].
    - intros E. apply Hfile. congruence.
    - intros _. exists nd. split_and!; try done. }
  destruct (Z.eqb_spec (n_type nd) PFS_INODET_DIR) as [E|E].
  - dstep. unfold pfs_inode_build_dindex. dstep. eapply runs_node_mo; [by apply rep_ins|exact Hd|]. intros mo _ Hhead. rewrite (Hhead E). dstep. dstep.
    eapply (build_loop_ok t dn xs d nd Hok Hd (n_ents nd) _ _ di1 [] 0); [by apply rep_ins|done| |by apply (r_seg _ _ _ _ Hr d)|exact Hd1| |].
    + pose proof (denos_nodup _ _ _ _ Hr d nd Hd) as Hnd. rewrite <- (length_fmap dn). rewrite <- size_dom, <- (size_list_to_set (C := gset Z)) by done. apply subseteq_size.
      intros k (i & -> & Hi)%elem_of_list_to_set%list_elem_of_fmap. destruct (linked_named _ _ _ _ Hr i) as (? & ? & _ & _ & _ & mo' & ? & Hm' & _); [by eapply (ents_linked _ _ _ _ Hr)|].
      apply elem_of_dom. by exists mo'.
    + unfold di1. simpl. rewrite Hdx. split; [apply dx_wf_empty|]. intros h e. split; [by intros ?%in_chain_empty|intros [?%elem_of_nil _]; done].
    + intros ins' root Hg Hd' Hdx'. apply (Hfin ins' root); [eapply mgrow_trans; [apply mgrow_put|exact Hg]|exact Hd'|done|done].
  - dstep. dstep; [destruct Hty as [-> |?]; done|]. apply (Hfin _ (di_dx_root di)); [apply mgrow_put|apply lookup_insert_eq|done|done].
Qed.

(** What a synchronisation reports. *)
Definition sync_err (t : tree) (d type btime : Z) : Z :=
  match t !! d with
  | None => - ENOENT
  | Some nd =>
      if negb (n_btime nd =? btime) then - ENOENT
      else if negb (type =? PFS_INODET_NONE) && negb (n_type nd =? type) then (if type =? PFS_INODET_FILE then - EISDIR else - ENOTDIR) else 0
  end.
Lemma sync_dir_ok s t dn xs d di type btime (Q : Z -> dstate (N * mems) -> Prop) : rep s t dn xs -> tree_ok mnt t -> mems_ok t (s_ins s) -> ino_ok s d -> s_ins s !! d = Some di ->
  (forall ins' di', mgrow d (s_ins s) ins' -> ins' !! d = Some di' -> mems_ok t ins' -> (sync_err t d type btime = 0 -> di_stale di' = false) -> Q (sync_err t d type btime) (with_ins s ins')) ->
  runs (pfs_inode_sync_dir true d type btime) s Q.
Proof.
  intros Hr Hok Hms Hino Hdi HQ. pose proof (Hms d di Hdi) as Hm. unfold pfs_inode_sync_dir. dstep. eapply runs_mem_in; [exact Hdi|].
  dstep. dstep; [by rewrite (mi_size _ _ _ Hm), Z.eqb_refl, (mi_cb _ _ _ Hm)|].
  assert (Hend : forall ins' di' (b : bool), mgrow d (s_ins s) ins' -> ins' !! d = Some di' -> mem_ok t d di' -> di_stale di' = false ->
    runs (di ← mem_in d; put_in d (set_sync_ver (di_rpl_ver di) di);; assert_ (negb (di_type di =? PFS_INODET_NONE));;
      mret (if negb (di_btime di =? btime) then - ENOENT
        else if negb (type =? PFS_INODET_NONE) && negb (di_type di =? type) then (if type =? PFS_INODET_FILE then - EISDIR else - ENOTDIR)
        else if b && negb true then - EAGAIN else 0)) (with_ins s ins') Q).
  { intros ins' di' b Hg Hd' Hm' Hst. destruct (mi_live _ _ _ Hm' Hst) as (nd & Hd & Hty & Hbt & Hdx). dstep. eapply runs_mem_in; [exact Hd'|]. dstep. apply runs_put_in. dstep.
    dstep; [rewrite Hty; by destruct (to_type _ _ Hok d nd Hd) as [-> | ->]|]. apply runs_ret. rewrite andb_false_r, Hty, Hbt.
    assert (Hse : sync_err t d type btime = (if negb (n_btime nd =? btime) then - ENOENT
        else if negb (type =? PFS_INODET_NONE) && negb (n_type nd =? type) then (if type =? PFS_INODET_FILE then - EISDIR else - ENOTDIR) else 0)) by (unfold sync_err; by rewrite Hd).
    rewrite <- Hse. set (ins2 := <[d := _]> _). assert (Hg2 : mgrow d (s_ins s) ins2) by (eapply mgrow_trans; [exact Hg|apply mgrow_put]).
    eapply (HQ ins2); [exact Hg2|apply lookup_insert_eq| |done].
    eapply mgrow_ok; [exact Hms|exact Hg2|]. intros di2. unfold ins2. rewrite lookup_insert_eq. intros [= <-]. destruct Hm'. split; simpl; done. }
  dstep. destruct (di_stale di) eqn:Hst.
  2:{ apply runs_ret. cbn [negb Z.eqb]. rewrite <- (with_ins_id s) at 1. apply (Hend _ di false); [apply mgrow_refl|done|done|done]. }
  dstep. unfold pfs_inode_reload_dir. dstep. eapply runs_mem_in; [exact Hdi|]. dstep. dstep; [done|]. dstep.
  assert (Hroot : forall (Q' : dxroot -> dstate (N * mems) -> Prop), Q' ∅ s -> runs (if di_type di =? PFS_INODET_DIR then lift (pfs_inode_destroy_dindex (dx_count (di_dx_root di)) (di_dx_root di)) else (mret (di_dx_root di) : dio (N * mems) dxroot)) s Q').
  { intros Q' HQ'. destruct (Z.eqb_spec (di_type di) PFS_INODET_DIR) as [E|E].
    - eapply runs_lift; [apply destroy_ok; [apply (mi_wf _ _ _ Hm)|done]|done].
    - apply runs_ret. by rewrite (mi_file _ _ _ Hm E). }
  apply Hroot. dstep. apply runs_put_in. set (di1 := set_redo [] (set_dx ∅ di)). set (ins1 := <[d := di1]> (s_ins s)).
  destruct (t !! d) as [nd|] eqn:Hd.
  - eapply (load_dir_ok (with_ins s ins1) t dn xs d nd di1); [by apply rep_ins|done|done|apply lookup_insert_eq|done|done|apply (mi_cb _ _ _ Hm)|apply (mi_ver _ _ _ Hm)|].
    intros ins2 di2 Hg2 Hd2 Hm2 Hst2. apply runs_ret. cbn [negb Z.eqb]. apply (Hend ins2 di2 true); [eapply mgrow_trans; [apply mgrow_put|exact Hg2]|exact Hd2|exact Hm2|exact Hst2].
  - unfold pfs_inode_load_dir. dstep. eapply runs_free_inode; [by apply rep_ins|exact Hino|exact Hd|]. intros ino Ht. unfold pfs_inode_check_stale. rewrite Ht.
    cbn [Z.eqb PFS_INODET_NONE]. change (- ENOENT <? 0) with true. apply runs_ret. apply runs_ret. change (negb (- ENOENT =? 0)) with true. apply runs_ret.
    assert (Hse : sync_err t d type btime = - ENOENT) by (unfold sync_err; by rewrite Hd). rewrite Hse in HQ.
    eapply (HQ ins1 di1); [apply mgrow_put|apply lookup_insert_eq| |done]. eapply mgrow_ok; [exact Hms|apply mgrow_put|]. intros di2. unfold ins1. rewrite lookup_insert_eq. intros [= <-].
    destruct Hm. split; simpl; try done; try apply dx_wf_empty. by rewrite Hst.
Qed.
End Ops.
