(* ===== verification/DxTx.v ===== *)
(** * Transactions on directories

    The changes of the indexes recorded by a transaction are those of the
    namespace, and the end of the transaction makes them or drops them. *)

From S2P Require Import Prelude Alloc Object Blkio Blktable NameCache Inode Dir DirBase DirName DirInv DirStep DirTree DirOps DirView Dx DxInv DxOps.

Open Scope pfs_scope.

(** ** Recorded changes *)
Fixpoint redo_run (recs : list dxredo_rec) (root : dxroot) : option dxroot :=
  match recs with
  | [] => Some root
  | rec :: recs =>
      match rr_op rec with
      | DXOP_ADD => redo_run recs (dx_insert (rr_nmhash rec) (MkDx (rr_ino rec) (rr_isdir rec)) root)
      | DXOP_DEL => let* root := pfs_inode_dx_del root (rr_nmhash rec) (rr_ino rec) (rr_isdir rec) in redo_run recs root
      end
  end.

(** The inode after the callback, when the changes give the index [root]. *)
Definition settled (root : dxroot) (delta : Z) (di : dinode) : dinode := set_cbdone true (set_redo [] (add_size delta (set_dx root di))).
(** [cbs] wait for the end of the transaction, which leads to [t]. *)
Record pend_ok (t : tree) (ins : gmap Z dinode) (cbs : list Z) : Prop := {
  pk_nodup : NoDup cbs;
  pk_have : forall d, d ∈ cbs -> is_Some (ins !! d);
  pk_rest : forall d di, ins !! d = Some di -> d ∉ cbs -> mem_ok t d di;
  pk_cbs : forall d di, ins !! d = Some di -> d ∈ cbs -> di_cbdone di = false /\
    exists root, redo_run (di_dx_redo di) (di_dx_root di) = Some root /\ forall delta, mem_ok t d (settled root delta di) }.
(** [cbs] wait for the end of a transaction that fails. *)
Record pend_fail (t : tree) (ins : gmap Z dinode) (cbs : list Z) : Prop := {
  pf_nodup : NoDup cbs;
  pf_have : forall d, d ∈ cbs -> is_Some (ins !! d);
  pf_rest : forall d di, ins !! d = Some di -> d ∉ cbs -> mem_ok t d di;
  pf_cbs : forall d di, ins !! d = Some di -> d ∈ cbs -> di_cbdone di = false /\ mem_ok t d (set_cbdone true (set_redo [] di)) }.

Definition keeps (ins ins' : gmap Z dinode) : Prop := forall d, is_Some (ins !! d) -> is_Some (ins' !! d).
Lemma mgrow_keeps d ins ins' : mgrow d ins ins' -> (is_Some (ins !! d) -> is_Some (ins' !! d)) -> keeps ins ins'.
Proof. intros [Hg _] Hd j [dj Hj]. destruct (decide (j = d)) as [->|Hne]; [apply Hd; by eexists|]. eexists. by eapply Hg. Qed.
Lemma keeps_trans i1 i2 i3 : keeps i1 i2 -> keeps i2 i3 -> keeps i1 i3.
Proof. unfold keeps. by eauto. Qed.
Lemma keeps_refl ins : keeps ins ins.
Proof. by intros d. Qed.

Section Tx.
Context {N : Type} `{NCacheLaws N} (mnt : pfs_mount) (now : Z).
Implicit Types (s : dstate (N * mems)) (t : tree).

Lemma apply_loop_ok d : forall recs s di root sz (Q : Z -> dstate (N * mems) -> Prop), s_ins s !! d = Some di -> redo_run recs (di_dx_root di) = Some root ->
  (forall ins' sz', mgrow d (s_ins s) ins' -> ins' !! d = Some (set_dx root di) -> Q sz' (with_ins s ins')) -> runs (dxredo_apply_loop d recs sz) s Q.
Proof.
  induction recs as [|rec recs IH]; intros s di root sz Q Hd Hrun HQ; cbn [dxredo_apply_loop redo_run] in *.
  - injection Hrun as <-. apply runs_ret. rewrite <- (with_ins_id s) at 1. apply HQ; [apply mgrow_refl|]. rewrite Hd. by destruct di.
  - destruct (rr_op rec).
    + dstep. eapply runs_dx_add; [exact Hd|]. intros ins1 Hg1 Hd1. eapply (IH (with_ins s ins1)); [exact Hd1|exact Hrun|].
      intros ins2 sz2 Hg2 Hd2. apply (HQ ins2 sz2); [eapply mgrow_trans; [exact Hg1|exact Hg2]|exact Hd2].
    + destruct (pfs_inode_dx_del _ _ _ _) as [root1|] eqn:Hdel; [|done]. dstep. eapply runs_mem_in; [exact Hd|]. dstep. eapply runs_lift; [exact Hdel|]. dstep. apply runs_put_in.
      eapply (IH (with_ins s (<[d := set_dx root1 di]> (s_ins s)))); [apply lookup_insert_eq|exact Hrun|].
      intros ins2 sz2 Hg2 Hd2. apply (HQ ins2 sz2); [eapply mgrow_trans; [apply mgrow_put|exact Hg2]|exact Hd2].
Qed.

Lemma dir_callbacks_ok t : forall cbs s (Q : unit -> dstate (N * mems) -> Prop), pend_ok t (s_ins s) cbs ->
  (forall ins', mems_ok t ins' -> keeps (s_ins s) ins' -> Q tt (with_ins s ins')) -> runs (do_callbacks cbs 0) s Q.
Proof.
  induction cbs as [|d cbs IH]; intros s Q Hp HQ; cbn [do_callbacks].
  - apply runs_ret. rewrite <- (with_ins_id s) at 1. apply HQ; [|apply keeps_refl]. intros d di Hd. apply (pk_rest _ _ _ Hp); [done|apply not_elem_of_nil].
  - pose proof (pk_nodup _ _ _ Hp) as Hnd. apply NoDup_cons in Hnd as [Hdc Hnd]. destruct (pk_have _ _ _ Hp d) as [di Hd]; [left|].
    destruct (pk_cbs _ _ _ Hp d di Hd) as (Hcb & root & Hrun & Hok); [left|]. dstep. unfold pfs_inode_dir_update_done. dstep. eapply runs_mem_in; [exact Hd|].
    dstep. dstep; [by rewrite Hcb|]. cbn [Z.eqb]. dstep. unfold pfs_inode_dxredo_apply. dstep. eapply runs_mem_in; [exact Hd|]. dstep.
    eapply apply_loop_ok; [exact Hd|exact Hrun|]. intros ins1 sz Hg1 Hd1. eapply runs_upd_mem; [exact Hd1|].
    set (ins2 := <[d := add_size sz (set_dx root di)]> ins1). eapply runs_upd_mem; [apply lookup_insert_eq|]. rewrite with_ins_twice.
    change (s_ins (with_ins (with_ins s ins1) (<[d := add_size sz (set_dx root di)]> (s_ins (with_ins s ins1))))) with ins2.
    unfold ins2. rewrite insert_insert_eq. clear ins2. set (ins2 := <[d := _]> ins1).
    assert (Hg2 : mgrow d (s_ins s) ins2) by (eapply mgrow_trans; [exact Hg1|apply mgrow_put]).
    assert (Hk2 : keeps (s_ins s) ins2) by (eapply mgrow_keeps; [exact Hg2|intros _; unfold ins2; rewrite lookup_insert_eq; by eexists]).
    eapply (IH (with_ins s ins2)).
    + split; [done| | |].
      * intros j Hj. apply Hk2, (pk_have _ _ _ Hp). by right.
      * intros j dj Hj Hjc. change (ins2 !! j = Some dj) in Hj. destruct (decide (j = d)) as [->|Hne].
        { unfold ins2 in Hj. rewrite lookup_insert_eq in Hj. injection Hj as <-. apply Hok. }
        destruct (s_ins s !! j) as [d0|] eqn:E.
        -- rewrite (proj1 Hg2 _ _ Hne E) in Hj. injection Hj as <-. apply (pk_rest _ _ _ Hp); [done|]. rewrite not_elem_of_cons. done.
        -- rewrite (proj2 Hg2 _ _ Hne E Hj). apply new_mem_ok.
      * intros j dj Hj Hjc. change (ins2 !! j = Some dj) in Hj. assert (Hne : j <> d) by (intros ->; done). destruct (pk_have _ _ _ Hp j) as [d0 E]; [by right|].
        rewrite (proj1 Hg2 _ _ Hne E) in Hj. injection Hj as <-. apply (pk_cbs _ _ _ Hp); [done|by right].
    + intros ins' Hms Hk. apply HQ; [done|]. eapply keeps_trans; [exact Hk2|exact Hk].
Qed.
Lemma callbacks_fail t err : err <> 0 -> forall cbs s (Q : unit -> dstate (N * mems) -> Prop), pend_fail t (s_ins s) cbs ->
  (forall ins', mems_ok t ins' -> keeps (s_ins s) ins' -> Q tt (with_ins s ins')) -> runs (do_callbacks cbs err) s Q.
Proof.
  intros Herr. induction cbs as [|d cbs IH]; intros s Q Hp HQ; cbn [do_callbacks].
  - apply runs_ret. rewrite <- (with_ins_id s) at 1. apply HQ; [|apply keeps_refl]. intros d di Hd. apply (pf_rest _ _ _ Hp); [done|apply not_elem_of_nil].
  - pose proof (pf_nodup _ _ _ Hp) as Hnd. apply NoDup_cons in Hnd as [Hdc Hnd]. destruct (pf_have _ _ _ Hp d) as [di Hd]; [left|].
    destruct (pf_cbs _ _ _ Hp d di Hd) as (Hcb & Hok); [left|]. dstep. unfold pfs_inode_dir_update_done. dstep. eapply runs_mem_in; [exact Hd|].
    dstep. dstep; [by rewrite Hcb|]. rewrite (proj2 (Z.eqb_neq err 0)) by done. dstep. dstep. eapply runs_upd_mem; [exact Hd|].
    set (ins2 := <[d := _]> (s_ins s)). eapply (IH (with_ins s ins2)).
    + split; [done| | |].
      * intros j Hj. apply lookup_insert_is_Some'. right. apply (pf_have _ _ _ Hp). by right.
      * intros j dj Hj Hjc. unfold s_ins, ins2 in Hj. cbn [with_ins ds_nc snd mm_ins] in Hj. apply lookup_insert_Some in Hj as [[<- <-]|[Hne Hj]]; [exact Hok|]. apply (pf_rest _ _ _ Hp); [done|]. by rewrite not_elem_of_cons.
      * intros j dj Hj Hjc. unfold s_ins, ins2 in Hj. cbn [with_ins ds_nc snd mm_ins] in Hj. apply lookup_insert_Some in Hj as [[<- <-]|[Hne Hj]]; [done|]. apply (pf_cbs _ _ _ Hp); [done|by right].
    + intros ins' Hms Hk. apply HQ; [done|]. eapply keeps_trans; [|exact Hk]. intros j Hj. apply lookup_insert_is_Some'. by right.
Qed.

(** ** The namespace of a mount *)
Record ns_ok s t (dn : Z -> Z) : Prop := {
  no_rep : exists xs, rep s t dn xs;
  no_tree : tree_ok mnt t;
  no_cache : coherent (fst (ds_nc s)) t dn;
  no_mems : mems_ok t (s_ins s);
  no_cbs : mm_cbs (snd (ds_nc s)) = [] }.

Lemma lookup_invalidate undone (ins : gmap Z dinode) d di : invalidate_all undone ins !! d = Some di ->
  exists di0, ins !! d = Some di0 /\ (di = di0 \/ di = set_stale true di0).
Proof.
  revert di. induction undone as [|u undone IH]; intros di Hd; [by exists di; auto|]. cbn [invalidate_all foldr] in Hd. destruct (decide (u = d)) as [->|Hne].
  - rewrite lookup_alter_eq in Hd. apply fmap_Some in Hd as (d1 & Hd1 & ->). destruct (IH d1 Hd1) as (d0 & H0d & [->| ->]); exists d0; (split; [done|]); by right.
  - rewrite lookup_alter_ne in Hd by done. by apply IH.
Qed.
Lemma invalidate_keeps undone (ins : gmap Z dinode) : keeps ins (invalidate_all undone ins).
Proof.
  intros d Hd. induction undone as [|u undone IH]; [done|]. cbn [invalidate_all foldr]. by apply lookup_alter_is_Some.
Qed.
Lemma invalidate_pend t undone ins cbs : pend_fail t ins cbs -> pend_fail t (invalidate_all undone ins) cbs.
Proof.
  intros [H1 H2 H3 H4]. split; [done| | |].
  - intros d Hd. by apply invalidate_keeps, H2.
  - intros d di (d0 & Hd0 & [->| ->])%lookup_invalidate Hdc; [by apply H3|]. eapply set_stale_ok. by apply H3.
  - intros d di (d0 & Hd0 & [->| ->])%lookup_invalidate Hdc; [by apply H4|]. destruct (H4 d d0 Hd0 Hdc) as [? Hm]. split; [done|]. exact (set_stale_ok t t d _ Hm).
Qed.
Lemma do_callback_ok s err (Q : unit -> dstate (N * mems) -> Prop) :
  runs (do_callbacks (mm_cbs (snd (ds_nc s))) err) s (fun _ s1 => Q tt (MkD (ds_de s1) (ds_in s1) (fst (ds_nc s1), MkMems (s_ins s1) []))) -> runs (pfs_tx_do_callback err) s Q.
Proof. intros Hr. unfold pfs_tx_do_callback. dstep. dstep. dstep. eapply runs_mono; [exact Hr|]. intros [] s1 HQ. cbn beta. dstep. dstep. by eexists _, _. Qed.

(** What an operation leaves to the end of its transaction: the namespace is
    [t] when the transaction fails. *)
Definition tx_post {T} (committed : Z) (k0 : gmap Z dinode) t dn (Q : Z * T -> dstate (N * mems) -> Prop) (r : Z * T) s1 : Prop :=
  coherent (fst (ds_nc s1)) t dn /\ pend_fail t (s_ins s1) (mm_cbs (snd (ds_nc s1))) /\ keeps k0 (s_ins s1) /\
  (fst r < 0 \/ committed < 0 -> forall s2, ns_ok s2 t dn -> keeps k0 (s_ins s2) -> Q (if fst r <? 0 then fst r else committed, snd r) s2) /\
  (0 <= fst r -> committed = 0 -> exists t' dn' xs', rep s1 t' dn' xs' /\ tree_ok mnt t' /\ coherent (fst (ds_nc s1)) t' dn' /\ pend_ok t' (s_ins s1) (mm_cbs (snd (ds_nc s1))) /\
    forall s2, ns_ok s2 t' dn' -> keeps k0 (s_ins s2) -> Q (0, snd r) s2).

Lemma mems_pend t ins : mems_ok t ins -> pend_fail t ins [] /\ pend_ok t ins [].
Proof. intros Hms. split; (split; [constructor|by intros d ?%elem_of_nil|by auto|by intros d di _ ?%elem_of_nil]). Qed.
(** Nothing is changed. *)
Lemma tx_post_same {T} committed k0 s t dn (Q : Z * T -> dstate (N * mems) -> Prop) r : ns_ok s t dn -> keeps k0 (s_ins s) -> committed <= 0 ->
  (forall s2, ns_ok s2 t dn -> keeps k0 (s_ins s2) -> Q (if fst r <? 0 then fst r else committed, snd r) s2) -> tx_post committed k0 t dn Q r s.
Proof.
  intros [[xs Hr] Htr Hco Hms Hcb] Hk Hcom HQ. unfold tx_post. rewrite Hcb. destruct (mems_pend t _ Hms) as [Hpf Hpk]. split_and!; try done.
  intros Hr0 ->. exists t, dn, xs. split_and!; try done. intros s2 Hs2 Hk2. rewrite (proj2 (Z.ltb_ge _ _)) in HQ by done. by apply HQ.
Qed.

(** A transaction fails and changes nothing of the namespace, or it commits
    the changes of the operation. *)
Lemma dir_write_ok {T} committed undone (m : dio (N * mems) (Z * T)) s t dn (Q : Z * T -> dstate (N * mems) -> Prop) : ns_ok s t dn -> committed <= 0 ->
  runs m s (tx_post committed (s_ins s) t dn Q) -> runs (tls_write committed undone m) s Q.
Proof.
  intros Hns Hcom ([err v] & s1 & Hm & Hco & Hpf & Hk1 & Hfail & Hok). unfold runs, tls_write. rewrite Hm. cbn [fst snd] in *. cbv zeta.
  destruct (no_rep _ _ _ Hns) as [xs Hr]. destruct (decide (err < 0 \/ committed < 0)) as [Hneg|Hpos].
  - set (e := if err <? 0 then err else committed) in *. assert (He : e < 0) by (unfold e; destruct (Z.ltb_spec err 0); lia). rewrite (proj2 (Z.ltb_lt e 0)) by done.
    assert (Hrun : runs (pfs_tx_do_callback e) (rollback undone s s1) (fun _ s2 => ns_ok s2 t dn /\ keeps (s_ins s) (s_ins s2))).
    { apply do_callback_ok. eapply (callbacks_fail t); [lia|by apply invalidate_pend|]. intros ins' Hms Hk. split.
      - split; [exists xs; by apply (rep_nc _ _ _ _ _ Hr)|apply Hns|exact Hco|exact Hms|done].
      - eapply keeps_trans; [exact Hk1|]. eapply keeps_trans; [apply invalidate_keeps|exact Hk]. }
    destruct Hrun as ([] & s2 & -> & Hns2 & Hk2). exists (e, v), s2. split; [done|]. by apply Hfail.
  - assert (He : (if err <? 0 then err else committed) = 0) by (destruct (Z.ltb_spec err 0); lia). rewrite He. cbn [Z.ltb Z.compare].
    destruct Hok as (t' & dn' & xs' & Hr' & Htr' & Hco' & Hpk & HQ); [lia|lia|].
    assert (Hrun : runs (pfs_tx_do_callback 0) s1 (fun _ s2 => ns_ok s2 t' dn' /\ keeps (s_ins s) (s_ins s2))).
    { apply do_callback_ok. eapply (dir_callbacks_ok t'); [exact Hpk|]. intros ins' Hms Hk. split; [|eapply keeps_trans; [exact Hk1|exact Hk]].
      split; [exists xs'; by apply (rep_nc _ _ _ _ _ Hr')|done|exact Hco'|exact Hms|done]. }
    destruct Hrun as ([] & s2 & -> & Hns2 & Hk2). exists (0, v), s2. split; [done|]. by apply HQ.
Qed.

(** ** Inodes in memory and a changed namespace

    Only the directories [ds] get or lose entries, and only the nodes [ms]
    get another entry. *)
Record evolves (ds ms : list Z) t t' : Prop := {
  ev_node : forall j nd, t !! j = Some nd -> exists nd', t' !! j = Some nd' /\ n_type nd' = n_type nd /\ n_btime nd' = n_btime nd /\
    (j ∉ ds -> n_ents nd' = n_ents nd) /\ (j ∉ ms -> n_link nd' = n_link nd);
  ev_moved : forall j nd i, t !! j = Some nd -> i ∈ n_ents nd -> i ∈ ms -> j ∈ ds }.

Lemma evolves_isdir ds ms t t' i nd : evolves ds ms t t' -> t !! i = Some nd -> isdir t' i = isdir t i.
Proof. intros Hev Hi. destruct (ev_node _ _ _ _ Hev i nd Hi) as (nd' & Hi' & Ht & _). unfold isdir. by rewrite Hi, Hi', Ht. Qed.
Lemma evolves_name ds ms t t' i nd : evolves ds ms t t' -> t !! i = Some nd -> i ∉ ms -> name_of t' i = name_of t i.
Proof. intros Hev Hi Hm. destruct (ev_node _ _ _ _ Hev i nd Hi) as (nd' & Hi' & _ & _ & _ & Hl). unfold name_of. by rewrite Hi, Hi', (Hl Hm). Qed.
(** The index of entries that do not change. *)
Lemma evolves_dx ds ms t t' d nd l root : tree_ok mnt t -> evolves ds ms t t' -> t !! d = Some nd -> (forall i, i ∈ l -> i ∈ n_ents nd /\ i ∉ ms) -> dx_ok t l root -> dx_ok t' l root.
Proof.
  intros Hok Hev Hd Hl Hdx. eapply dx_ok_ext; [exact Hdx|]. intros i Hi. destruct (Hl i Hi) as [Hie Him].
  destruct (to_ents _ _ Hok d nd i Hd Hie) as (ni & nm & Hni & _). split; [by eapply evolves_name|by eapply evolves_isdir].
Qed.
Lemma mem_frame ds ms t t' d di : tree_ok mnt t -> evolves ds ms t t' -> d ∉ ds -> mem_ok t d di -> mem_ok t' d di.
Proof.
  intros Hok Hev Hd [M1 M2 M3 M4 M5 M6 M7]. split; try done. intros Hst. destruct (M7 Hst) as (nd & Htd & Hty & Hbt & Hdx).
  destruct (ev_node _ _ _ _ Hev d nd Htd) as (nd' & Htd' & Hty' & Hbt' & He & _). exists nd'. split_and!; [done|congruence|congruence|]. rewrite Hty', (He Hd). intros E.
  eapply (evolves_dx ds ms t t' d nd); [done|done|done| |by apply Hdx]. intros i Hi. split; [done|]. intros Him. apply Hd. by eapply (ev_moved _ _ _ _ Hev).
Qed.

(** ** Recording *)
Lemma runs_record s d di op name i b (Q : unit -> dstate (N * mems) -> Prop) : s_ins s !! d = Some di -> (length (di_dx_redo di) < 4)%nat ->
  Q tt (with_ins s (<[d := set_redo (di_dx_redo di ++ [MkRec op (dx_calc_hash name) i b]) di]> (s_ins s))) -> runs (pfs_inode_dxredo_record d op name i b) s Q.
Proof. intros Hd Hlen HQ. unfold pfs_inode_dxredo_record. dstep. eapply runs_mem_in; [exact Hd|]. dstep. dstep; [by apply Nat.ltb_lt|]. by apply runs_put_in. Qed.
Definition add_cb s (d : Z) (di : dinode) : dstate (N * mems) :=
  MkD (ds_de s) (ds_in s) (fst (ds_nc s), MkMems (<[d := set_cbdone false di]> (s_ins s)) (mm_cbs (snd (ds_nc s)) ++ [d])).
Lemma runs_set_callback s d di (Q : unit -> dstate (N * mems) -> Prop) : s_ins s !! d = Some di -> di_cbdone di = true ->
  Q tt (add_cb s d di) -> runs (pfs_inode_set_callback d) s Q.
Proof. intros Hd Hcb HQ. unfold pfs_inode_set_callback. dstep. eapply runs_mem_in; [exact Hd|]. dstep. dstep; [done|]. dstep. dstep. by eexists _, _. Qed.
Lemma runs_not_stale s t d di (Q : Z -> dstate (N * mems) -> Prop) : s_ins s !! d = Some di -> mem_ok t d di -> di_stale di = false -> Q 0 s -> runs (dir_check_stale d) s Q.
Proof. intros Hd Hm Hst HQ. unfold dir_check_stale. dstep. eapply runs_mem_in; [exact Hd|]. rewrite Hst, (mi_ver _ _ _ Hm), Z.ltb_irrefl. by apply runs_ret. Qed.
End Tx.
