(* ===== verification/DxSteps.v ===== *)
(** * The steps of a transaction on a directory

    Adding, deleting and renaming through the index: the objects, the name
    cache and the recorded changes of the indexes agree on the new
    namespace. *)

From S2P Require Import Prelude Alloc Object Blkio Blktable NameCache Inode Dir DirBase DirName DirInv DirStep DirTree DirOps DirView Dx DxInv DxOps DxTx.

Open Scope pfs_scope.

Section Steps.
Context {N : Type} `{NCacheLaws N} (mnt : pfs_mount) (now : Z).
Implicit Types (s : dstate (N * mems)) (t : tree).
Abbreviation ino_ok s i := (is_Some (os_objs (ds_in s) !! i)).

(** ** The operations of pfs_dir.cc only delete from the name cache *)
Definition del_only : NCacheOps (N * mems) := {|
  ncache_lookup := fun p n c => ncache_lookup p n c;
  ncache_enter := fun p i n k c => Some c;
  ncache_delete_by_deno := fun k c => ncache_delete_by_deno k c |}.
Definition sub_laws (m : mems) (c0 : N) : NCacheLaws (N * mems) (H := del_only).
Proof.
  refine {| ncache_inv := fun c => (ncache_inv (fst c) /\ snd c = m) /\ forall p n i k, ncache_has (fst c) p n i k -> ncache_has c0 p n i k;
            ncache_has := fun c => ncache_has (fst c) |}.
  - intros deno c [Hinv Hs]. destruct (nl_delete (NCacheLaws := mem_laws m) deno c Hinv) as (c' & E & Hinv' & Hh). exists c'. split; [exact E|]. split; [|exact Hh].
    split; [exact Hinv'|]. intros p n i k Hk. apply Hs. by apply Hh in Hk as [? _].
  - intros p n c [Hinv Hs] Hd. destruct (nl_lookup (NCacheLaws := mem_laws m) p n c Hinv Hd) as (r & c' & E & Hinv' & Hh & Hr). exists r, c'. split; [exact E|].
    split; [|split; [exact Hh|exact Hr]]. split; [exact Hinv'|]. intros p' n' i k Hk. by apply Hs, Hh.
  - intros p i n k c Hinv _ _. exists c. split; [done|]. split; [exact Hinv|]. intros. by left.
Defined.

(** A cache without new entries still fits the old namespace. *)
Lemma sub_coherent m (c0 : N) (c : N * mems) t t' dn dn' : coherent c0 t dn -> coherent (H := del_only) (H0 := sub_laws m c0) c t' dn' ->
  coherent (fst c) t dn /\ coherent (fst c) t' dn' /\ snd c = m.
Proof. intros [Hi Hc] [[[Hi' Hm] Hs] Hc']. split_and!; [|by split|done]. split; [done|]. intros p n i k Hk. by apply Hc, Hs. Qed.
Lemma coherent_sub m (c : N * mems) t dn : coherent (fst c) t dn -> snd c = m -> coherent (H := del_only) (H0 := sub_laws m (fst c)) c t dn.
Proof. intros [Hi Hc] Hm. split; [|done]. by split. Qed.

Lemma mem_del_ok s t dn xs d i onm isdir (Q : Z -> dstate (N * mems) -> Prop) : rep s t dn xs -> tree_ok mnt t -> coherent (fst (ds_nc s)) t dn -> ino_ok s d -> ino_ok s i ->
  (forall ni, t !! i = Some ni -> exists nm, n_link ni = Some (d, nm) /\ (onm = None \/ onm = Some nm)) ->
  (del_err t d i isdir < 0 -> Q (del_err t d i isdir) s) ->
  (forall s' dn' xs', del_err t d i isdir = 0 -> rep s' (t_remove d i t) dn' xs' -> coherent (fst (ds_nc s')) t dn -> coherent (fst (ds_nc s')) (t_remove d i t) dn' ->
     snd (ds_nc s') = snd (ds_nc s) -> Q 0 s') ->
  runs (pfs_dir_del mnt d i onm isdir) s Q.
Proof.
  intros Hr Hok Hco Hd Hi Hlk HE HQ.
  eapply (dir_del_ok (H := del_only) (H0 := sub_laws (snd (ds_nc s)) (fst (ds_nc s)))); try done; [by apply coherent_sub|].
  intros s' dn' xs' He Hr' Hco' Hdn. destruct (sub_coherent _ _ _ _ _ _ _ Hco Hco') as (? & ? & ?). by eapply HQ.
Qed.
Lemma mem_rename_ok s t dn xs o i ni old n nino name (Q : Z -> dstate (N * mems) -> Prop) : rep s t dn xs -> tree_ok mnt t -> coherent (fst (ds_nc s)) t dn ->
  ino_ok s n -> t !! i = Some ni -> n_link ni = Some (o, old) -> (check_dir t n = 0 -> attached t n) -> target t i n nino name -> name_ok mnt name ->
  (forall err, rename_spec t o i n nino name err t -> err <> 0 -> Q err s) ->
  (forall s' dn' xs' t', rename_spec t o i n nino name 0 t' -> rep s' t' dn' xs' -> coherent (fst (ds_nc s')) t dn -> coherent (fst (ds_nc s')) t' dn' ->
     snd (ds_nc s') = snd (ds_nc s) -> Q 0 s') ->
  (forall s', full (os_objs (ds_de s')) -> coherent (fst (ds_nc s')) t dn -> snd (ds_nc s') = snd (ds_nc s) -> Q (- EPFS_FILE_2MANY) s') ->
  runs (pfs_dir_rename mnt now o i n nino name) s Q.
Proof.
  intros Hr Hok Hco Hn Hi Hl Hatt Htg Hnm HE HQ HF.
  eapply (dir_rename_ok (H := del_only) (H0 := sub_laws (snd (ds_nc s)) (fst (ds_nc s)))); try done; [by apply coherent_sub| |].
  - intros err s' dn' xs' t' Hsp Hr' Hco' Hsame. destruct (sub_coherent _ _ _ _ _ _ _ Hco Hco') as (? & ? & ?). destruct (decide (err = 0)) as [->|Hne].
    + eapply HQ; [exact Hsp|by apply Hr'|done|done|done].
    + destruct (Hsame Hne) as (-> & _ & ->). by apply HE.
  - intros s' Hf Hco'. destruct (sub_coherent _ _ _ _ _ _ _ Hco Hco') as (? & ? & ?). by apply HF.
Qed.

(** ** What the steps change *)
Lemma evolves_trans d1 m1 d2 m2 t t1 t2 : evolves d1 m1 t t1 -> evolves d2 m2 t1 t2 -> evolves (d1 ++ d2) (m1 ++ m2) t t2.
Proof.
  intros [A1 B1] [A2 B2]. split.
  - intros j nd Hj. destruct (A1 j nd Hj) as (n1 & Hj1 & T1 & BT1 & E1 & L1). destruct (A2 j n1 Hj1) as (n2 & Hj2 & T2 & BT2 & E2 & L2).
    exists n2. rewrite !not_elem_of_app. split_and!; [done|congruence|congruence| |]; intros [? ?].
    + rewrite E2, E1 by done. done.
    + rewrite L2, L1 by done. done.
  - intros j nd i Hj Hi. rewrite !elem_of_app. intros [Hm|Hm]; [left; by eapply B1|]. destruct (decide (j ∈ d1)) as [?|Hd]; [by left|right].
    destruct (A1 j nd Hj) as (n1 & Hj1 & _ & _ & E1 & _). eapply (B2 j n1 i); [done|by rewrite E1|done].
Qed.
Lemma evolves_sub ds ms ds' ms' t t' : evolves ds ms t t' -> ds ⊆ ds' -> ms ⊆ ms' -> (forall j nd i, t !! j = Some nd -> i ∈ n_ents nd -> i ∈ ms' -> j ∈ ds') -> evolves ds' ms' t t'.
Proof.
  intros [A _] Hd Hm Hmv. split; [|done]. intros j nd Hj. destruct (A j nd Hj) as (n1 & ? & ? & ? & E & L). exists n1. split_and!; [done..| |]; intros; [apply E|apply L]; set_solver.
Qed.
Lemma evolves_create d nd i (b : bool) name t : t !! d = Some nd -> t !! i = None -> evolves [d] [] t (t_create now d i b name t).
Proof.
  intros Hd Hi. split; [|by intros j nd' c _ _ ?%elem_of_nil]. intros j nj Hj. unfold t_create, t_enlist. assert (Hne : i <> j) by congruence.
  eexists. split; [apply lookup_alter_to; rewrite lookup_insert_ne by done; exact Hj|]. destruct (decide (d = j)) as [->|]; [|done]. split_and!; try done. intros Hn. exfalso. apply Hn. left.
Qed.
Lemma parent_in (ds : list Z) i d nm t : tree_ok mnt t -> child t d nm i -> d ∈ ds -> forall j nd c, t !! j = Some nd -> c ∈ n_ents nd -> c ∈ [i] -> j ∈ ds.
Proof.
  intros Hok (ni & Hi & Hl) Hd j nd c Hj Hc ->%list_elem_of_singleton. destruct (to_ents _ _ Hok j nd i Hj Hc) as (ni' & nm' & Hi' & Hl'). by simplify_eq.
Qed.
Lemma evolves_remove d i nm t : tree_ok mnt t -> child t d nm i -> evolves [d] [i] t (t_remove d i t).
Proof.
  intros Hok Hc. split; [|eapply parent_in; [done|done|left]]. intros j nj Hj. unfold t_remove, t_unlist.
  eexists. split; [apply lookup_alter_to, lookup_alter_to; exact Hj|]. destruct (decide (d = j)) as [->|], (decide (i = j)) as [->|]; (split_and!; try done); rewrite not_elem_of_cons; tauto.
Qed.
Lemma evolves_move o i n nm name t : tree_ok mnt t -> child t o nm i -> evolves [o; n] [i] t (t_move o i n name t).
Proof.
  intros Hok Hc. split; [|eapply parent_in; [done|done|left]]. intros j nj Hj. unfold t_move, t_enlist, t_unlist.
  eexists. split; [apply lookup_alter_to, lookup_alter_to, lookup_alter_to; exact Hj|].
  destruct (decide (o = j)) as [->|], (decide (n = j)) as [->|], (decide (i = j)) as [->|]; (split_and!; try done); rewrite !not_elem_of_cons; tauto.
Qed.

(** ** What waits for the end *)
Lemma pend_dirs ms t t' ins ins1 cbs : mems_ok t ins -> tree_ok mnt t -> evolves cbs ms t t' -> NoDup cbs -> (forall j, j ∉ cbs -> ins1 !! j = ins !! j) ->
  (forall d, d ∈ cbs -> exists di recs root nd, ins !! d = Some di /\ ins1 !! d = Some (set_cbdone false (set_redo recs di)) /\ di_stale di = false /\ redo_run recs (di_dx_root di) = Some root /\
     t' !! d = Some nd /\ n_type nd = PFS_INODET_DIR /\ dx_ok t' (n_ents nd) root) ->
  pend_fail t ins1 cbs /\ pend_ok t' ins1 cbs /\ keeps ins ins1.
Proof.
  intros Hms Hok Hev Hnd Hrest Hcbs. split_and!.
  - split; [done| | |].
    + intros d Hd. destruct (Hcbs d Hd) as (di & recs & root & nd & _ & -> & _). by eexists.
    + intros d di Hd Hdc. rewrite Hrest in Hd by done. by apply Hms.
    + intros d di Hd Hdc. destruct (Hcbs d Hdc) as (d0 & recs & root & nd & H1 & H2 & _). simplify_eq. split; [done|]. destruct (Hms d d0 H1). by split.
  - split; [done| | |].
    + intros d Hd. destruct (Hcbs d Hd) as (di & recs & root & nd & _ & -> & _). by eexists.
    + intros d di Hd Hdc. rewrite Hrest in Hd by done. eapply mem_frame; [done|exact Hev|done|by apply Hms].
    + intros d di Hd Hdc. destruct (Hcbs d Hdc) as (d0 & recs & root & nd & H1 & H2 & Hst & Hrun & Hd' & Hty & Hdx). assert (di = set_cbdone false (set_redo recs d0)) as -> by congruence.
      split; [done|]. exists root. split; [exact Hrun|]. intros delta. destruct (Hms d d0 H1) as [M1 M2 M3 M4 M5 M6 M7]. destruct (M7 Hst) as (nd0 & Hd0 & Ht0 & Hb0 & _).
      destruct (ev_node _ _ _ _ Hev d nd0 Hd0) as (nd1 & Hd1 & Ht1 & Hb1 & _). assert (nd1 = nd) as -> by congruence.
      split; simpl; try done; [by rewrite M3|apply Hdx|intros E; exfalso; apply E; congruence|]. intros _. exists nd. split_and!; [done|congruence|congruence|done].
  - intros j [dj Hj]. destruct (decide (j ∈ cbs)) as [Hjc|Hjc]; [|rewrite Hrest by done; by eexists]. destruct (Hcbs j Hjc) as (di & recs & root & nd & _ & -> & _). by eexists.
Qed.

(** The operation has succeeded, and [cbs] have recorded its changes. *)
Lemma tx_post_dirs {T} ms t t' dn dn' xs' s s1 cbs committed k0 (v : T) (Q : Z * T -> dstate (N * mems) -> Prop) : ns_ok mnt s t dn -> keeps k0 (s_ins s) ->
  rep s1 t' dn' xs' -> tree_ok mnt t' -> coherent (fst (ds_nc s1)) t dn -> coherent (fst (ds_nc s1)) t' dn' -> evolves cbs ms t t' -> NoDup cbs ->
  mm_cbs (snd (ds_nc s1)) = cbs -> (forall j, j ∉ cbs -> s_ins s1 !! j = s_ins s !! j) ->
  (forall d, d ∈ cbs -> exists di recs root nd, s_ins s !! d = Some di /\ s_ins s1 !! d = Some (set_cbdone false (set_redo recs di)) /\ di_stale di = false /\
     redo_run recs (di_dx_root di) = Some root /\ t' !! d = Some nd /\ n_type nd = PFS_INODET_DIR /\ dx_ok t' (n_ents nd) root) ->
  (forall s2, committed < 0 -> ns_ok mnt s2 t dn -> keeps k0 (s_ins s2) -> Q (committed, v) s2) ->
  (forall s2, committed = 0 -> ns_ok mnt s2 t' dn' -> keeps k0 (s_ins s2) -> Q (0, v) s2) -> tx_post mnt committed k0 t dn Q (0, v) s1.
Proof.
  intros Hns Hk Hr1 Hok' Hco Hco' Hev Hnd Hcbs Hrest Hrec HE HQ. destruct (pend_dirs ms t t' (s_ins s) (s_ins s1) cbs) as (Hpf & Hpk & Hk1); [apply Hns|apply Hns|done..|].
  unfold tx_post. rewrite Hcbs. split_and!; [exact Hco|exact Hpf|eapply keeps_trans; [exact Hk|exact Hk1]| |].
  - intros [?|Hc] s2 Hs2 Hk2; [simpl in *; lia|]. by apply HE.
  - intros _ Hc. exists t', dn', xs'. split_and!; try done. intros s2 Hs2 Hk2. by apply HQ.
Qed.
(** One directory records one change. *)
Lemma record_one {T} ms t t' dn dn' xs' s s1 d di nd rec root committed k0 (v : T) (Q : Z * T -> dstate (N * mems) -> Prop) : ns_ok mnt s t dn -> keeps k0 (s_ins s) ->
  rep s1 t' dn' xs' -> tree_ok mnt t' -> coherent (fst (ds_nc s1)) t dn -> coherent (fst (ds_nc s1)) t' dn' -> snd (ds_nc s1) = snd (ds_nc s) -> evolves [d] ms t t' ->
  s_ins s !! d = Some di -> di_stale di = false -> redo_run [rec] (di_dx_root di) = Some root -> t' !! d = Some nd -> n_type nd = PFS_INODET_DIR -> dx_ok t' (n_ents nd) root ->
  (forall s2, committed < 0 -> ns_ok mnt s2 t dn -> keeps k0 (s_ins s2) -> Q (committed, v) s2) ->
  (forall s2, committed = 0 -> ns_ok mnt s2 t' dn' -> keeps k0 (s_ins s2) -> Q (0, v) s2) ->
  tx_post mnt committed k0 t dn Q (0, v) (add_cb (with_ins s1 (<[d := set_redo [rec] di]> (s_ins s1))) d (set_redo [rec] di)).
Proof.
  intros Hns Hk Hr1 Hok' Hco Hco' Hnc Hev Hdi Hst Hrun Hd' Hty Hdx HE HQ.
  assert (Hins : s_ins (add_cb (with_ins s1 (<[d := set_redo [rec] di]> (s_ins s1))) d (set_redo [rec] di)) = <[d := set_cbdone false (set_redo [rec] di)]> (s_ins s)).
  { unfold s_ins, add_cb, with_ins. cbn [ds_nc snd mm_ins]. unfold s_ins. cbn [ds_nc snd mm_ins]. by rewrite insert_insert_eq, Hnc. }
  eapply (tx_post_dirs ms t t' dn dn' xs' s _ [d]); try done.
  - by apply (rep_nc _ _ _ _ _ Hr1).
  - apply NoDup_singleton.
  - unfold add_cb, with_ins. cbn [ds_nc snd mm_cbs]. by rewrite Hnc, (no_cbs _ _ _ _ Hns).
  - intros j Hj. rewrite Hins. apply lookup_insert_ne. intros <-. apply Hj. left.
  - intros j ->%list_elem_of_singleton. exists di, [rec], root, nd. rewrite Hins, lookup_insert_eq. by split_and!.
Qed.

(** ** Adding *)
Lemma create_lookup t d nd i (b : bool) name : t !! d = Some nd -> t !! i = None ->
  t_create now d i b name t !! i = Some (new_node now b d name) /\
  t_create now d i b name t !! d = Some (set_size (wrap64 (n_size nd + METAOBJ_SIZE)) (set_ents (n_ents nd ++ [i]) nd)).
Proof.
  intros Hd Hi. assert (Hne : d <> i) by congruence. unfold t_create, t_enlist. rewrite lookup_alter_ne, lookup_insert_eq by done. split; [done|].
  by rewrite lookup_alter_eq, lookup_insert_ne, Hd.
Qed.
Lemma create_dx t d nd i (b : bool) name root : tree_ok mnt t -> t !! d = Some nd -> t !! i = None -> dx_ok t (n_ents nd) root ->
  dx_ok (t_create now d i b name t) (n_ents nd ++ [i]) (dx_insert (dx_calc_hash name) (MkDx i b) root).
Proof.
  intros Hok Hd Hi Hdx. destruct (create_lookup t d nd i b name Hd Hi) as [Hi' _]. set (t' := t_create now d i b name t) in *.
  assert (Hnm : name_of t' i = name) by (unfold name_of; by rewrite Hi'). assert (Hb : isdir t' i = b) by (unfold isdir; rewrite Hi'; by destruct b).
  assert (Hni : i ∉ n_ents nd) by (intros Hin; destruct (to_ents _ _ Hok d nd i Hd Hin) as (? & ? & ? & _); congruence).
  pose proof (dx_ok_add t' (n_ents nd) root i) as Hadd. unfold name_hash in Hadd. rewrite Hnm, Hb in Hadd. apply Hadd; [|done].
  eapply (evolves_dx mnt [d] [] t t' d nd); [done|by eapply evolves_create|done| |done]. intros c Hc. split; [done|apply not_elem_of_nil].
Qed.

Lemma inode_dir_add_ok s t dn committed k0 d nd di name (b : bool) (Q : Z * (Z * Z) -> dstate (N * mems) -> Prop) : ns_ok mnt s t dn -> keeps k0 (s_ins s) -> committed <= 0 ->
  t !! d = Some nd -> n_type nd = PFS_INODET_DIR -> attached t d -> s_ins s !! d = Some di -> di_stale di = false -> name_ok mnt name -> (forall c, ~ child t d name c) ->
  (forall err v s2, err < 0 -> err = committed \/ err = - EPFS_FILE_2MANY -> ns_ok mnt s2 t dn -> keeps k0 (s_ins s2) -> Q (err, v) s2) ->
  (forall i s2 dn', committed = 0 -> t !! i = None -> ns_ok mnt s2 (t_create now d i b name t) dn' -> keeps k0 (s_ins s2) -> Q (0, (i, now)) s2) ->
  runs (pfs_inode_dir_add mnt now d name b) s (tx_post mnt committed k0 t dn Q).
Proof.
  intros Hns Hk Hcom Hd Hty Hatt Hdi Hst Hnm Hno HE HQ. pose proof Hns as [[xs Hr] Hok Hco Hms Hcb]. pose proof (Hms d di Hdi) as Hm.
  unfold pfs_inode_dir_add. dstep. eapply runs_not_stale; [done..|]. cbn [Z.ltb Z.compare]. dstep.
  assert (Hino : ino_ok s d) by (destruct (r_node _ _ _ _ Hr d nd Hd) as (mo & ? & _); by eexists). assert (Hc0 : check_dir t d = 0) by (unfold check_dir; by rewrite Hd, Hty).
  eapply dir_add_ok; [done|done|done|done|rewrite Hc0; intros; lia| |].
  - intros s1 i dn' xs' _ Hi Hr1 Hdn Hnc. cbn [Z.ltb Z.compare]. assert (Hins : s_ins s1 = s_ins s) by (unfold s_ins; by rewrite Hnc).
    destruct (create_lookup t d nd i b name Hd Hi) as [Hi' Hd']. set (t' := t_create now d i b name t) in *.
    dstep. eapply runs_record; [rewrite Hins; exact Hdi|rewrite (mi_redo _ _ _ Hm); simpl; lia|]. rewrite (mi_redo _ _ _ Hm). cbn [app].
    dstep. eapply runs_set_callback; [apply lookup_insert_eq|apply (mi_cb _ _ _ Hm)|]. apply runs_ret.
    destruct (mi_live _ _ _ Hm Hst) as (nd0 & Hd0 & _ & _ & Hdx). assert (nd0 = nd) as -> by congruence. pose proof (evolves_create d nd i b name t Hd Hi) as Hev.
    eapply (record_one [] t t' dn dn' xs' s s1 d di); [done|done|done|by eapply create_ok_tree|by rewrite Hnc| |by rewrite Hnc|done|done|done|done|exact Hd'|exact Hty|by apply create_dx; [| | |apply Hdx]| |].
    + rewrite Hnc. split; [apply Hco|]. intros p n j k Hjk. destruct (proj2 Hco _ _ _ _ Hjk) as [(nj & Hj & Hl) Hdj]. assert (j <> i) by congruence.
      destruct (ev_node _ _ _ _ Hev j nj Hj) as (nj' & Hj' & _ & _ & _ & Hl'). split; [|by rewrite Hdn]. exists nj'. split; [done|]. rewrite Hl'; [done|apply not_elem_of_nil].
    + intros s2 Hc Hs2 Hk2. apply HE; [done|by left|done|done].
    + intros s2 Hc Hs2 Hk2. by eapply HQ.
  - intros s1 _ Hnc _. change (- EPFS_FILE_2MANY <? 0) with true. cbn iota. apply runs_ret. assert (Hins : s_ins s1 = s_ins s) by (unfold s_ins; by rewrite Hnc).
    unfold tx_post. rewrite Hnc, Hcb, Hins. split_and!; [done|by apply mems_pend|done| |simpl; unfold EPFS_FILE_2MANY; intros; lia].
    intros _ s2 Hs2 Hk2. cbn [fst snd]. change (- EPFS_FILE_2MANY <? 0) with true. cbn iota. apply HE; [done|by right|done|done].
Qed.

(** ** Deleting *)
Lemma del_err_ok t d i ni (b : bool) : tree_ok mnt t -> t !! i = Some ni -> del_err t d i b = 0 -> n_ents ni = [] /\ isdir t i = b.
Proof.
  intros Hok Hi. unfold del_err, isdir. rewrite Hi. destruct (check_dir t d <? 0) eqn:E; [bool_prop; lia|]. destruct b.
  - destruct (n_type ni =? PFS_INODET_DIR) eqn:Et; [|done]. cbn [negb]. case_bool_decide; [done|done].
  - destruct (Z.eqb_spec (n_type ni) PFS_INODET_FILE) as [Et|Et]; [|done]. intros _. split; [|by rewrite Et]. by eapply file_ents; [| |rewrite Et].
Qed.
Lemma remove_dx t d nd i nm root : tree_ok mnt t -> t !! d = Some nd -> child t d nm i -> dx_ok t (n_ents nd) root ->
  exists root', pfs_inode_dx_del root (dx_calc_hash nm) i (isdir t i) = Some root' /\ dx_ok t (drop_ent i (n_ents nd)) root'.
Proof.
  intros Hok Hd Hc Hdx. destruct (child_ent mnt t d nd nm i Hok Hd Hc) as [Hi Hnm]. destruct (dx_ok_del t (n_ents nd) root i Hdx Hi) as (root' & Hdel & Hdx').
  unfold name_hash in Hdel. rewrite Hnm in Hdel. by exists root'.
Qed.
Lemma inode_dir_del_ok s t dn committed k0 d nd di i ni nm (b : bool) (Q : Z * unit -> dstate (N * mems) -> Prop) : ns_ok mnt s t dn -> keeps k0 (s_ins s) -> committed <= 0 ->
  t !! d = Some nd -> n_type nd = PFS_INODET_DIR -> s_ins s !! d = Some di -> di_stale di = false -> t !! i = Some ni -> n_link ni = Some (d, nm) ->
  (forall err s2, err < 0 -> err = del_err t d i b \/ (del_err t d i b = 0 /\ err = committed) -> ns_ok mnt s2 t dn -> keeps k0 (s_ins s2) -> Q (err, tt) s2) ->
  (forall s2 dn', committed = 0 -> del_err t d i b = 0 -> ns_ok mnt s2 (t_remove d i t) dn' -> keeps k0 (s_ins s2) -> Q (0, tt) s2) ->
  runs (err ← pfs_inode_dir_del mnt d i nm b; mret (err, tt)) s (tx_post mnt committed k0 t dn Q).
Proof.
  intros Hns Hk Hcom Hd Hty Hdi Hst Hi Hl HE HQ. pose proof Hns as [[xs Hr] Hok Hco Hms Hcb]. pose proof (Hms d di Hdi) as Hm.
  assert (Hi0 : i <> 0) by (intros ->; apply (root_link _ _ Hok) in Hi; congruence). assert (Hch : child t d nm i) by (by exists ni).
  dstep. unfold pfs_inode_dir_del. rewrite (proj2 (Z.eqb_neq i 0)) by done. dstep. eapply runs_not_stale; [done..|]. cbn [Z.ltb Z.compare]. dstep.
  assert (Hio : forall j x, t !! j = Some x -> ino_ok s j) by (intros j x Hj; destruct (r_node _ _ _ _ Hr j x Hj) as (? & ? & _); by eexists).
  eapply mem_del_ok; [done|done|done|by eapply Hio|by eapply Hio| | |].
  - intros x Hx. simplify_eq. exists nm. by auto.
  - intros Hneg. rewrite (proj2 (Z.ltb_lt _ _) Hneg). apply runs_ret. apply runs_ret. eapply tx_post_same; [done|done|done|]. intros s2 Hs2 Hk2. cbn [fst snd].
    rewrite (proj2 (Z.ltb_lt _ _) Hneg). apply HE; [done|by left|done|done].
  - intros s1 dn1 xs1 He Hr1 Hco1 Hco1' Hnc. cbn [Z.ltb Z.compare]. assert (Hins : s_ins s1 = s_ins s) by (unfold s_ins; by rewrite Hnc).
    destruct (del_err_ok t d i ni b Hok Hi He) as [Hemp Hb]. dstep. eapply runs_record; [rewrite Hins; exact Hdi|rewrite (mi_redo _ _ _ Hm); simpl; lia|].
    rewrite (mi_redo _ _ _ Hm). cbn [app]. dstep. eapply runs_set_callback; [apply lookup_insert_eq|apply (mi_cb _ _ _ Hm)|]. apply runs_ret. apply runs_ret.
    destruct (mi_live _ _ _ Hm Hst) as (nd0 & Hd0 & _ & _ & Hdx). assert (nd0 = nd) as -> by congruence.
    destruct (remove_dx t d nd i nm _ Hok Hd Hch (Hdx Hty)) as (root' & Hdel & Hdx'). rewrite Hb in Hdel. pose proof (evolves_remove d i nm t Hok Hch) as Hev.
    pose proof (link_neq _ _ Hok _ _ _ Hch) as Hne.
    eapply (record_one [i] t _ dn dn1 xs1 s s1 d di _ _ root'); [done|done|done|by eapply remove_ok_tree|done|done|done|done|done|done| | | | | |].
    + cbn [redo_run rr_op rr_nmhash rr_ino rr_isdir]. by rewrite Hdel.
    + rewrite (remove_lookup t d i ni nd) by done. rewrite lookup_insert_ne, lookup_insert_eq by done. done.
    + exact Hty.
    + eapply (evolves_dx mnt [d] [i] t _ d nd); [done|done|done| |exact Hdx']. intros c [Hc ?]%elem_of_drop_ent. split; [done|]. by intros ->%list_elem_of_singleton.
    + intros s2 Hc Hs2 Hk2. apply HE; [done|by right|done|done].
    + intros s2 Hc Hs2 Hk2. by eapply HQ.
Qed.
End Steps.
