(* ===== verification/DxRename.v ===== *)
(** * Renaming through the index

    The new namespace of a rename, the changes of the one or two indexes
    and the step of a transaction. *)

From S2P Require Import Prelude Alloc Object Blkio Blktable NameCache Inode Dir DirBase DirName DirInv DirStep DirTree DirOps DirView Dx DxInv DxOps DxTx DxSteps.

Open Scope pfs_scope.

(** What becomes of the node that had the new name. *)
Definition over_tree (n nino : Z) (t : tree) : tree := if nino =? INVALID_INO then t else t_remove n nino t.
Definition over_recs (nino : Z) (name : list Z) (b : bool) : list dxredo_rec := if nino =? INVALID_INO then [] else [MkRec DXOP_DEL (dx_calc_hash name) nino b].
Definition over_ents (nino : Z) (l : list Z) : list Z := if nino =? INVALID_INO then l else drop_ent nino l.

Lemma redo_run_app r1 r2 root : redo_run (r1 ++ r2) root = match redo_run r1 root with Some root' => redo_run r2 root' | None => None end.
Proof.
  revert root. induction r1 as [|r r1 IH]; intros root; [done|]. cbn [app redo_run]. destruct (rr_op r); [apply IH|]. destruct (pfs_inode_dx_del _ _ _ _); [apply IH|done].
Qed.
Lemma elem_of_over_ents nino c l : (forall x, x ∈ l -> x <> INVALID_INO) -> c ∈ over_ents nino l <-> c <> nino /\ c ∈ l.
Proof.
  intros Hl. unfold over_ents. destruct (Z.eqb_spec nino INVALID_INO) as [->|]; [|apply elem_of_drop_ent]. split; [|tauto]. intros Hc. split; [by apply Hl|done].
Qed.

Section Rename.
Context (mnt : pfs_mount) (t : tree) (o i n nino : Z) (ni nn : node) (old name : list Z) (ln : list Z).
Hypothesis Hok : tree_ok mnt t.
Hypothesis Hpos : forall j x, t !! j = Some x -> 0 <= j.
Hypothesis Hi : t !! i = Some ni.
Hypothesis Hl : n_link ni = Some (o, old).
Hypothesis Hn : t !! n = Some nn.
Hypothesis Htn : n_type nn = PFS_INODET_DIR.
Hypothesis Hln : chain t n ln.
Hypothesis Hiln : i ∉ ln.
Hypothesis Hnm : name_ok mnt name.
Hypothesis Htgt : target t i n nino name.
Hypothesis Hemp : forall nd, t !! nino = Some nd -> n_ents nd = [].
Let t0 := over_tree n nino t.
Let t' := t_move o i n name t0.

Lemma ents_valid d nd c : t !! d = Some nd -> c ∈ n_ents nd -> c <> INVALID_INO.
Proof. intros Hd Hc ->. destruct (to_ents _ _ Hok d nd _ Hd Hc) as (x & ? & Hx & _). apply Hpos in Hx. unfold INVALID_INO in Hx. lia. Qed.
Lemma nino_cases : (nino = INVALID_INO /\ (forall c, ~ child t n name c)) \/ (nino <> INVALID_INO /\ child t n name nino /\ nino <> i /\ nino <> n).
Proof.
  destruct Htgt as [[-> Hno]|[Hc Hne]]; [by left|right]. pose proof (link_neq _ _ Hok _ _ _ Hc). pose proof Hc as (x & Hx & _). apply Hpos in Hx.
  split_and!; try done. unfold INVALID_INO. lia.
Qed.

Lemma over_ok : tree_ok mnt t0 /\ chain t0 n ln /\ (forall c, ~ child t0 n name c) /\ evolves [n] [nino] t t0.
Proof.
  unfold t0, over_tree. destruct nino_cases as [[E Hno]|(E & Hc & Hne & Hnn)].
  - rewrite (proj2 (Z.eqb_eq _ _) E). split_and!; try done. split; [intros j nd Hj; by exists nd|].
    intros j nd c Hj Hc Hm%list_elem_of_singleton. subst c. rewrite E in Hc. by apply (ents_valid j nd) in Hc.
  - rewrite (proj2 (Z.eqb_neq _ _)) by done. pose proof Hc as (x & Hx & Hlx). split_and!; [by eapply remove_ok_tree, Hemp| | |by eapply evolves_remove].
    + eapply chain_mono; [|exact Hln]. intros j nd Hj Htj. destruct (decide (j = nino)) as [->|Hjn].
      { destruct (chain_child _ _ _ _ Hln Hj) as [?|(nm & c & nc & Htc & Hlc)]; [done|]. destruct (to_link _ _ Hok c nc nino nm Htc Hlc) as (x' & Hx' & _ & Hin).
        rewrite (Hemp x') in Hin by done. by apply elem_of_nil in Hin. }
      destruct (remove_keeps mnt t n nino name j nd Hok Hc Hjn Htj) as (nd' & ? & ? & _). by exists nd'.
    + intros c (y & Hy & Hly). destruct (remove_link _ _ _ _ _ _ Hy Hly) as (Hcn & y0 & Hy0 & Hly0). apply Hcn. eapply (to_unique _ _ Hok); [exact Hy0|exact Hx|exact Hly0|exact Hlx].
Qed.
Lemma over_node j nd : t !! j = Some nd -> exists nd0, t0 !! j = Some nd0 /\ n_type nd0 = n_type nd /\ n_ents nd0 = (if decide (n = j) then over_ents nino (n_ents nd) else n_ents nd) /\
  (j <> nino -> n_link nd0 = n_link nd).
Proof.
  intros Hj. unfold t0, over_tree, over_ents. destruct (nino =? INVALID_INO); [exists nd; by destruct (decide _)|]. unfold t_remove, t_unlist.
  eexists. split; [apply lookup_alter_to, lookup_alter_to; exact Hj|]. destruct (decide (n = j)), (decide (nino = j)); split_and!; try done; congruence.
Qed.
Lemma i_kept : exists ni0, t0 !! i = Some ni0 /\ n_link ni0 = Some (o, old) /\ n_type ni0 = n_type ni.
Proof.
  destruct (over_node i ni Hi) as (ni0 & Hi0 & Ht & _ & Hlk). exists ni0. split_and!; [done| |done]. rewrite Hlk; [done|]. intros E.
  destruct nino_cases as [[E' _]|(_ & _ & ? & _)]; [|congruence]. apply Hpos in Hi. unfold INVALID_INO in *. lia.
Qed.

Lemma rename_tree_ok : tree_ok mnt t'.
Proof.
  destruct over_ok as (Hok0 & Hln0 & Hno0 & _). destruct i_kept as (ni0 & Hi0 & Hl0 & _). destruct (over_node n nn Hn) as (nn0 & Hn0 & Ht0 & _).
  eapply (move_ok_tree mnt t0 Hok0 o old i ni0 n nn0 ln); try done; [congruence|]. intros c Hc. by apply Hno0 in Hc.
Qed.
Lemma rename_evolves : evolves [o; n] [nino; i] t t'.
Proof.
  destruct over_ok as (Hok0 & _ & _ & Hev0). destruct i_kept as (ni0 & Hi0 & Hl0 & _).
  assert (Hev1 : evolves [o; n] [i] t0 t') by (eapply evolves_move; [exact Hok0|by exists ni0]).
  eapply evolves_sub; [exact (evolves_trans _ _ _ _ _ _ _ Hev0 Hev1)|set_solver|set_solver|]. intros j nd c Hj Hc Hm. apply elem_of_cons in Hm as [->|Hm].
  - pose proof (ev_moved _ _ _ _ Hev0 j nd nino Hj Hc) as Hin. set_solver.
  - eapply (parent_in mnt [o; n] i o old t Hok); [by exists ni|left|exact Hj|exact Hc|exact Hm].
Qed.
Lemma rename_node j nd : t !! j = Some nd -> exists nd', t' !! j = Some nd' /\ n_type nd' = n_type nd /\
  n_ents nd' = (let x := if decide (n = j) then over_ents nino (n_ents nd) else n_ents nd in let y := if decide (o = j) then drop_ent i x else x in if decide (n = j) then y ++ [i] else y).
Proof.
  intros Hj. destruct (over_node j nd Hj) as (nd0 & Hj0 & Ht0 & He0 & _). exists (moved o i n name j nd0). unfold t'. rewrite lookup_move, Hj0. split; [done|].
  rewrite moved_type. split; [done|]. rewrite <- He0. unfold moved, relink, paste, cut. by destruct (decide (i = j)), (decide (n = j)), (decide (o = j)).
Qed.
Lemma rename_i : name_of t' i = name /\ isdir t' i = isdir t i.
Proof.
  destruct i_kept as (ni0 & Hi0 & _ & Ht0). unfold name_of, isdir, t'. rewrite lookup_move, Hi0, Hi. cbn [fmap option_fmap option_map]. rewrite moved_link, moved_type, Ht0. by rewrite decide_True.
Qed.

(** *** The indexes *)
Context (b : bool).
Hypothesis Hbi : isdir t i = b.
Hypothesis Hbn : nino <> INVALID_INO -> isdir t nino = b.

Lemma over_run root : dx_ok t (n_ents nn) root -> exists root', redo_run (over_recs nino name b) root = Some root' /\ dx_ok t (over_ents nino (n_ents nn)) root'.
Proof.
  intros Hdx. unfold over_recs, over_ents. destruct nino_cases as [[E _]|(E & Hc & _)]; [rewrite (proj2 (Z.eqb_eq _ _) E); by exists root|].
  rewrite (proj2 (Z.eqb_neq _ _) E). destruct (remove_dx mnt t n nn nino name root Hok Hn Hc Hdx) as (root' & Hdel & Hdx'). exists root'.
  rewrite (Hbn E) in Hdel. cbn [redo_run rr_op rr_nmhash rr_ino rr_isdir]. by rewrite Hdel.
Qed.
Lemma cut_run l root : dx_ok t l root -> i ∈ l -> exists root', redo_run [MkRec DXOP_DEL (dx_calc_hash old) i b] root = Some root' /\ dx_ok t (drop_ent i l) root'.
Proof.
  intros Hdx Hin. destruct (dx_ok_del t l root i Hdx Hin) as (root' & Hdel & Hdx'). exists root'. unfold name_hash, name_of in Hdel. rewrite Hi, Hl, Hbi in Hdel.
  cbn [redo_run rr_op rr_nmhash rr_ino rr_isdir]. by rewrite Hdel.
Qed.
Lemma kept_dx d nd l root : t !! d = Some nd -> (forall c, c ∈ l -> c ∈ n_ents nd /\ c <> nino /\ c <> i) -> dx_ok t l root -> dx_ok t' l root.
Proof.
  intros Hd Hsub. eapply (evolves_dx mnt _ _ t t' d nd); [done|exact rename_evolves|exact Hd|]. intros c Hc. destruct (Hsub c Hc) as (? & ? & ?).
  split; [done|]. rewrite !not_elem_of_cons. split_and!; [done|done|apply not_elem_of_nil].
Qed.
Lemma paste_run l root : dx_ok t l root -> (forall c, c ∈ l -> c ∈ n_ents nn /\ c <> nino /\ c <> i) ->
  exists root', redo_run [MkRec DXOP_ADD (dx_calc_hash name) i b] root = Some root' /\ dx_ok t' (l ++ [i]) root'.
Proof.
  intros Hdx Hsub. eexists. split; [done|]. cbn [rr_nmhash rr_ino rr_isdir]. destruct rename_i as [Hni Hii]. pose proof (dx_ok_add t' l root i) as Hadd. unfold name_hash in Hadd.
  rewrite Hni, Hii, Hbi in Hadd. apply Hadd; [by eapply kept_dx|]. by intros (_ & _ & ?)%Hsub.
Qed.
Lemma in_over c : c ∈ over_ents nino (n_ents nn) <-> c <> nino /\ c ∈ n_ents nn.
Proof. apply elem_of_over_ents. intros x. by apply (ents_valid n nn). Qed.
Lemma i_listed no : t !! o = Some no -> i ∈ n_ents no.
Proof. intros Ho. destruct (to_link _ _ Hok i ni o old Hi Hl) as (? & ? & _ & ?). by simplify_eq. Qed.
Lemma i_not_over : i <> nino.
Proof. intros E. destruct nino_cases as [[E' _]|(_ & _ & ? & _)]; [|congruence]. apply Hpos in Hi. unfold INVALID_INO in *. lia. Qed.

(** The directory keeps the node. *)
Lemma same_run root : o = n -> dx_ok t (n_ents nn) root -> exists root' nd, t' !! n = Some nd /\ n_type nd = PFS_INODET_DIR /\
  redo_run (over_recs nino name b ++ [MkRec DXOP_DEL (dx_calc_hash old) i b; MkRec DXOP_ADD (dx_calc_hash name) i b]) root = Some root' /\ dx_ok t' (n_ents nd) root'.
Proof.
  intros E Hdx. destruct (over_run root Hdx) as (r1 & Hr1 & Hdx1). destruct (cut_run _ r1 Hdx1) as (r2 & Hr2 & Hdx2).
  { apply in_over. split; [apply i_not_over|]. apply i_listed. by rewrite E. }
  destruct (paste_run _ r2 Hdx2) as (r3 & Hr3 & Hdx3); [intros c [? [? ?]%in_over]%elem_of_drop_ent; done|].
  destruct (rename_node n nn Hn) as (nd & Hnd & Hty & Hents). exists r3, nd. split_and!; [done|congruence| |].
  - rewrite redo_run_app, Hr1. change [MkRec DXOP_DEL (dx_calc_hash old) i b; MkRec DXOP_ADD (dx_calc_hash name) i b] with ([MkRec DXOP_DEL (dx_calc_hash old) i b] ++ [MkRec DXOP_ADD (dx_calc_hash name) i b]).
    by rewrite redo_run_app, Hr2.
  - rewrite Hents. cbv zeta. rewrite !decide_True by done. done.
Qed.
(** It moves to another directory. *)
Lemma from_run no root : o <> n -> t !! o = Some no -> dx_ok t (n_ents no) root -> exists root' nd, t' !! o = Some nd /\ n_type nd = n_type no /\
  redo_run [MkRec DXOP_DEL (dx_calc_hash old) i b] root = Some root' /\ dx_ok t' (n_ents nd) root'.
Proof.
  intros Hne Ho Hdx. destruct (cut_run _ root Hdx (i_listed no Ho)) as (r1 & Hr1 & Hdx1). destruct (rename_node o no Ho) as (nd & Hnd & Hty & Hents).
  exists r1, nd. split_and!; [done|done|done|]. rewrite Hents. cbv zeta. rewrite !(decide_False (P := n = o)), decide_True by congruence.
  eapply (kept_dx o no); [done| |done]. intros c [Hci Hc]%elem_of_drop_ent. split_and!; [done| |done]. intros ->.
  destruct (to_ents _ _ Hok o no nino Ho Hc) as (x & nm & Hx & Hlx). destruct nino_cases as [[E _]|(_ & (x' & Hx' & Hlx') & _)]; [by apply (ents_valid o no nino)|congruence].
Qed.
Lemma into_run root : o <> n -> dx_ok t (n_ents nn) root -> exists root' nd, t' !! n = Some nd /\ n_type nd = PFS_INODET_DIR /\
  redo_run (over_recs nino name b ++ [MkRec DXOP_ADD (dx_calc_hash name) i b]) root = Some root' /\ dx_ok t' (n_ents nd) root'.
Proof.
  intros Hne Hdx. destruct (over_run root Hdx) as (r1 & Hr1 & Hdx1). destruct (paste_run _ r1 Hdx1) as (r2 & Hr2 & Hdx2).
  { intros c [Hc Hin]%in_over. split_and!; [done|done|]. intros ->. destruct (to_ents _ _ Hok n nn i Hn Hin) as (x & nm & Hx & Hlx). congruence. }
  destruct (rename_node n nn Hn) as (nd & Hnd & Hty & Hents). exists r2, nd. split_and!; [done|congruence|by rewrite redo_run_app, Hr1|].
  rewrite Hents. cbv zeta. by rewrite (decide_False (P := o = n)), !decide_True.
Qed.
End Rename.

(** ** The step *)
Section RenameStep.
Context {N : Type} `{NCacheLaws N} (mnt : pfs_mount) (now : Z).
Implicit Types (s : dstate (N * mems)) (t : tree).
Abbreviation ino_ok s i := (is_Some (os_objs (ds_in s) !! i)).

Lemma set_redo_id di : di_dx_redo di = [] -> set_redo [] di = di.
Proof. destruct di. simpl. by intros ->. Qed.
Lemma runs_over_rec s n di nino name b {U} (k : dio (N * mems) U) (Q : U -> dstate (N * mems) -> Prop) : s_ins s !! n = Some di -> di_dx_redo di = [] ->
  runs k (with_ins s (<[n := set_redo (over_recs nino name b) di]> (s_ins s))) Q ->
  runs ((if negb (nino =? INVALID_INO) then pfs_inode_dxredo_record n DXOP_DEL name nino b else mret tt);; k) s Q.
Proof.
  intros Hd Hre Hk. unfold over_recs in Hk. destruct (nino =? INVALID_INO); cbn [negb]; dstep.
  - rewrite set_redo_id, insert_id, with_ins_id in Hk by done. by apply runs_ret.
  - eapply runs_record; [done|rewrite Hre; simpl; lia|]. by rewrite Hre.
Qed.
Ltac see_ins := unfold add_cb, with_ins, s_ins; cbn [ds_nc snd mm_ins mm_cbs].
Definition rename_tail (b : bool) (o i : Z) (old : list Z) (n nino : Z) (name : list Z) : dio (N * mems) Z :=
  (if negb (nino =? INVALID_INO) then pfs_inode_dxredo_record n DXOP_DEL name nino b else mret tt);;
  pfs_inode_dxredo_record o DXOP_DEL old i b;;
  pfs_inode_dxredo_record n DXOP_ADD name i b;;
  pfs_inode_set_callback o;;
  (if negb (n =? o) then pfs_inode_set_callback n else mret tt);;
  mret 0.
Lemma over_recs_short nino name b : (length (over_recs nino name b) <= 1)%nat.
Proof. unfold over_recs. destruct (_ =? _); simpl; lia. Qed.
Lemma tail_same s b n i old nino name di (Q : Z -> dstate (N * mems) -> Prop) : s_ins s !! n = Some di -> di_dx_redo di = [] -> di_cbdone di = true ->
  (forall s', ds_de s' = ds_de s -> ds_in s' = ds_in s -> fst (ds_nc s') = fst (ds_nc s) -> mm_cbs (snd (ds_nc s')) = mm_cbs (snd (ds_nc s)) ++ [n] ->
     s_ins s' = <[n := set_cbdone false (set_redo (over_recs nino name b ++ [MkRec DXOP_DEL (dx_calc_hash old) i b; MkRec DXOP_ADD (dx_calc_hash name) i b]) di)]> (s_ins s) -> Q 0 s') ->
  runs (rename_tail b n i old n nino name) s Q.
Proof.
  intros Hd Hre Hcb HQ. pose proof (over_recs_short nino name b). unfold rename_tail. eapply runs_over_rec; [done|done|]. dstep. eapply runs_record; [apply lookup_insert_eq|simpl; lia|]. cbn [set_redo di_dx_redo].
  dstep. eapply runs_record; [apply lookup_insert_eq|simpl; rewrite length_app; simpl; lia|]. cbn [set_redo di_dx_redo]. dstep. eapply runs_set_callback; [apply lookup_insert_eq|done|].
  rewrite Z.eqb_refl. cbn [negb]. dstep. dstep. apply runs_ret. apply HQ; try done. see_ins. rewrite !insert_insert_eq, <- app_assoc. done.
Qed.
Lemma tail_other s b o i old n nino name d1 d2 (Q : Z -> dstate (N * mems) -> Prop) : o <> n -> s_ins s !! o = Some d1 -> s_ins s !! n = Some d2 ->
  di_dx_redo d1 = [] -> di_dx_redo d2 = [] -> di_cbdone d1 = true -> di_cbdone d2 = true ->
  (forall s', ds_de s' = ds_de s -> ds_in s' = ds_in s -> fst (ds_nc s') = fst (ds_nc s) -> mm_cbs (snd (ds_nc s')) = mm_cbs (snd (ds_nc s)) ++ [o; n] ->
     s_ins s' !! o = Some (set_cbdone false (set_redo [MkRec DXOP_DEL (dx_calc_hash old) i b] d1)) ->
     s_ins s' !! n = Some (set_cbdone false (set_redo (over_recs nino name b ++ [MkRec DXOP_ADD (dx_calc_hash name) i b]) d2)) ->
     (forall j, j <> o -> j <> n -> s_ins s' !! j = s_ins s !! j) -> Q 0 s') ->
  runs (rename_tail b o i old n nino name) s Q.
Proof.
  intros Hne H1 H2 R1 R2 C1 C2 HQ. pose proof (over_recs_short nino name b). unfold rename_tail. eapply runs_over_rec; [done|done|].
  dstep. eapply runs_record; [see_ins; rewrite lookup_insert_ne by done; exact H1|rewrite R1; simpl; lia|]. rewrite R1. cbn [app].
  dstep. eapply runs_record; [see_ins; rewrite lookup_insert_ne by done; apply lookup_insert_eq|simpl; lia|]. cbn [set_redo di_dx_redo].
  dstep. eapply runs_set_callback; [see_ins; rewrite lookup_insert_ne by done; apply lookup_insert_eq|done|]. rewrite (proj2 (Z.eqb_neq n o)) by done. cbn [negb].
  dstep. eapply runs_set_callback; [see_ins; rewrite lookup_insert_ne by done; apply lookup_insert_eq|done|].
  apply runs_ret. apply HQ; try done; see_ins.
  - by rewrite <- app_assoc.
  - rewrite lookup_insert_ne by done. apply lookup_insert_eq.
  - apply lookup_insert_eq.
  - intros j Hjo Hjn. by rewrite !lookup_insert_ne by done.
Qed.

Lemma rename_neg t o i n nino name err t' : rename_spec t o i n nino name err t' -> err <= 0.
Proof. destruct 1; unfold EINVAL, ENOTEMPTY; lia. Qed.
Lemma rename_new t o i n nino name t' : tree_ok mnt t -> rename_spec t o i n nino name 0 t' -> target t i n nino name -> (forall j x, t !! j = Some x -> 0 <= j) ->
  check_dir t n = 0 /\ ~ below t i n /\ (forall nd, t !! nino = Some nd -> n_ents nd = []) /\ t' = t_move o i n name (over_tree n nino t).
Proof.
  intros Hok Hsp Htgt Hpos. inversion Hsp as [Hc E| |nd ? ? ? ? E|? ? E|nd ? ? Hnd He]; try (unfold EINVAL, ENOTEMPTY in *; lia).
  - split_and!; [done|done| |by rewrite E; unfold over_tree; rewrite Z.eqb_refl]. rewrite E. intros nd Hx%Hpos. unfold INVALID_INO in Hx. lia.
  - split_and!; [done|done|by intros; simplify_eq|]. unfold over_tree. rewrite (proj2 (Z.eqb_neq _ _)); [done|]. intros ->. apply Hpos in Hnd. unfold INVALID_INO in Hnd. lia.
Qed.

Lemma rep_ext s s' t dn xs : rep s t dn xs -> ds_de s' = ds_de s -> ds_in s' = ds_in s -> rep s' t dn xs.
Proof. intros Hr E1 E2. destruct s' as [de ins c]. simpl in *. subst. by apply rep_nc. Qed.
(** The objects are changed; the indexes record it. *)
Lemma rename_commit s s1 t dn dn1 xs1 committed k0 o i ni old n nino name (b : bool) d1 d2 (Q : Z * unit -> dstate (N * mems) -> Prop) :
  let t' := t_move o i n name (over_tree n nino t) in ns_ok mnt s t dn -> keeps k0 (s_ins s) ->
  t !! i = Some ni -> n_link ni = Some (o, old) -> s_ins s !! o = Some d1 -> di_stale d1 = false -> s_ins s !! n = Some d2 -> di_stale d2 = false ->
  attached t n -> target t i n nino name -> name_ok mnt name -> isdir t i = b -> (nino <> INVALID_INO -> isdir t nino = b) ->
  rename_spec t o i n nino name 0 t' -> rep s1 t' dn1 xs1 -> coherent (fst (ds_nc s1)) t dn -> coherent (fst (ds_nc s1)) t' dn1 -> snd (ds_nc s1) = snd (ds_nc s) ->
  (forall s2, committed < 0 -> ns_ok mnt s2 t dn -> keeps k0 (s_ins s2) -> Q (committed, tt) s2) ->
  (forall s2, committed = 0 -> ns_ok mnt s2 t' dn1 -> keeps k0 (s_ins s2) -> Q (0, tt) s2) ->
  runs (rename_tail b o i old n nino name) s1 (fun err s2 => tx_post mnt committed k0 t dn Q (err, tt) s2).
Proof.
  intros t' Hns Hk Hi Hl H1 Hst1 H2 Hst2 Hatt Htgt Hnm Hbi Hbn Hsp Hr1 Hco1 Hco1' Hnc HE HQ. pose proof Hns as [[xs Hr] Hok Hco Hms Hcb].
  pose proof (Hms o d1 H1) as Hm1. pose proof (Hms n d2 H2) as Hm2. assert (Hpos : forall j x, t !! j = Some x -> 0 <= j) by (intros j x Hj; by apply (ino_range _ _ _ _ _ _ Hr Hj)).
  destruct (rename_new t o i n nino name t' Hok Hsp Htgt Hpos) as (Hcn & Hnb & Hemp & _). destruct (attached_chain _ _ Hok n Hatt) as [ln Hln].
  assert (Hiln : i ∉ ln) by (intros Hin; apply Hnb; by exists ln).
  destruct (mi_live _ _ _ Hm2 Hst2) as (nn & Hn & _ & _ & Hdx2). destruct (mi_live _ _ _ Hm1 Hst1) as (no & Ho & _ & _ & Hdx1).
  assert (Htn : n_type nn = PFS_INODET_DIR). { destruct (check_dir_ok t n) as (? & ? & ?); [by rewrite Hcn|]. by simplify_eq. }
  assert (Hto : n_type no = PFS_INODET_DIR) by (destruct (to_link _ _ Hok i ni o old Hi Hl) as (? & ? & ? & _); by simplify_eq).
  assert (Hok' : tree_ok mnt t') by (by eapply rename_tree_ok). assert (Hev : evolves [o; n] [nino; i] t t') by (by eapply rename_evolves).
  assert (Hins : s_ins s1 = s_ins s) by (unfold s_ins; by rewrite Hnc). destruct (decide (o = n)) as [<-|Hne].
  - assert (d2 = d1) as -> by congruence. destruct (same_run mnt t o i o nino ni nn old name ln) with (b := b) (root := di_dx_root d1) as (root' & nd & Hnd & Hty & Hrun & Hdx); try done; [by auto|].
    eapply tail_same; [by rewrite Hins|apply Hm1|apply Hm1|]. intros s2 E1 E2 E3 E4 E5. rewrite Hins in E5.
    eapply (tx_post_dirs mnt [nino; i] t t' dn dn1 xs1 s s2 [o]); try done; [by eapply rep_ext|by rewrite E3|by rewrite E3| | |by rewrite E4, Hnc, Hcb| |].
    + eapply evolves_sub; [exact Hev|set_solver|set_solver|]. intros j x c Hj Hc Hm. pose proof (ev_moved _ _ _ _ Hev j x c Hj Hc Hm). set_solver.
    + apply NoDup_singleton.
    + intros j Hj. rewrite E5. apply lookup_insert_ne. set_solver.
    + intros j ->%list_elem_of_singleton. eexists d1, _, root', nd. rewrite E5, lookup_insert_eq. by split_and!.
  - destruct (from_run mnt t o i n nino ni nn old name ln) with (b := b) (root := di_dx_root d1) (no := no) as (r1 & nd1 & Hnd1 & Hty1 & Hrun1 & Hx1); try done; [by auto|].
    destruct (into_run mnt t o i n nino ni nn old name ln) with (b := b) (root := di_dx_root d2) as (r2 & nd2 & Hnd2 & Hty2 & Hrun2 & Hx2); try done; [by auto|].
    eapply tail_other; [done|by rewrite Hins|by rewrite Hins|apply Hm1|apply Hm2|apply Hm1|apply Hm2|]. intros s2 E1 E2 E3 E4 E5 E6 E7. rewrite Hins in E7.
    eapply (tx_post_dirs mnt [nino; i] t t' dn dn1 xs1 s s2 [o; n]); try done; [by eapply rep_ext|by rewrite E3|by rewrite E3| |by rewrite E4, Hnc, Hcb| |].
    + apply NoDup_cons. split; [set_solver|apply NoDup_singleton].
    + intros j Hj. apply E7; set_solver.
    + intros j [->|Hj]%elem_of_cons; [|apply list_elem_of_singleton in Hj as ->].
      * eexists d1, _, r1, nd1. split_and!; try done. congruence.
      * by eexists d2, _, r2, nd2.
Qed.

Lemma inode_dir_rename_ok s t dn committed k0 o i ni old n nino name (b : bool) d1 d2 (Q : Z * unit -> dstate (N * mems) -> Prop) : ns_ok mnt s t dn -> keeps k0 (s_ins s) -> committed <= 0 ->
  t !! i = Some ni -> n_link ni = Some (o, old) -> s_ins s !! o = Some d1 -> di_stale d1 = false -> s_ins s !! n = Some d2 -> di_stale d2 = false ->
  (check_dir t n = 0 -> attached t n) -> target t i n nino name -> name_ok mnt name -> isdir t i = b -> (nino <> INVALID_INO -> isdir t nino = b) ->
  (forall err s2, err < 0 -> err = committed \/ err = - EPFS_FILE_2MANY \/ rename_spec t o i n nino name err t -> ns_ok mnt s2 t dn -> keeps k0 (s_ins s2) -> Q (err, tt) s2) ->
  (forall s2 t' dn', committed = 0 -> rename_spec t o i n nino name 0 t' -> ns_ok mnt s2 t' dn' -> keeps k0 (s_ins s2) -> Q (0, tt) s2) ->
  runs (err ← pfs_inode_dir_rename mnt now b o i old n nino name; mret (err, tt)) s (tx_post mnt committed k0 t dn Q).
Proof.
  intros Hns Hk Hcom Hi Hl H1 Hst1 H2 Hst2 Hatt Htgt Hnm Hbi Hbn HE HQ. pose proof Hns as [[xs Hr] Hok Hco Hms Hcb].
  pose proof (Hms o d1 H1) as Hm1. pose proof (Hms n d2 H2) as Hm2. assert (Hpos : forall j x, t !! j = Some x -> 0 <= j) by (intros j x Hj; by apply (ino_range _ _ _ _ _ _ Hr Hj)).
  assert (Hi0 : i <> 0) by (intros ->; apply (root_link _ _ Hok) in Hi; congruence).
  assert (Hn0 : nino <> 0). { destruct Htgt as [[-> _]|[(x & Hx & Hlx) _]]; [done|]. intros ->. apply (root_link _ _ Hok) in Hx. congruence. }
  assert (Hin : i <> nino). { intros <-. destruct Htgt as [[-> _]|[_ ?]]; [|done]. apply Hpos in Hi. unfold INVALID_INO in Hi. lia. }
  dstep. unfold pfs_inode_dir_rename. rewrite (proj2 (Z.eqb_neq i 0)), (proj2 (Z.eqb_neq nino 0)), (proj2 (Z.eqb_neq i nino)) by done. cbn [orb].
  dstep. eapply runs_not_stale; [done..|]. cbn [Z.ltb Z.compare]. dstep. eapply runs_not_stale; [done..|]. cbn [Z.ltb Z.compare]. dstep.
  destruct (mi_live _ _ _ Hm2 Hst2) as (nn & Hn & Htn & _ & Hdx2). destruct (mi_live _ _ _ Hm1 Hst1) as (no & Ho & Hto & _ & Hdx1).
  eapply mem_rename_ok; [done|done|done| |done|done|done|done|done| | |].
  - destruct (r_node _ _ _ _ Hr n nn Hn) as (? & ? & _). by eexists.
  - intros err Hsp Hne. pose proof (rename_neg _ _ _ _ _ _ _ _ Hsp). assert (Hneg : err < 0) by lia. rewrite (proj2 (Z.ltb_lt _ _) Hneg). apply runs_ret. apply runs_ret.
    eapply tx_post_same; [done|done|done|]. intros s2 Hs2 Hk2. cbn [fst snd]. rewrite (proj2 (Z.ltb_lt _ _) Hneg). apply HE; [done|by right; right|done|done].
  - intros s1 dn1 xs1 t' Hsp Hr1 Hco1 Hco1' Hnc. cbn [Z.ltb Z.compare]. assert (Hins : s_ins s1 = s_ins s) by (unfold s_ins; by rewrite Hnc).
    destruct (rename_new t o i n nino name t' Hok Hsp Htgt Hpos) as (Hcn & Hnb & Hemp & ->).
    eapply (runs_mono (rename_tail b o i old n nino name)); [|intros err s2 Hp; apply runs_ret; exact Hp]. eapply (rename_commit s s1 t dn dn1 xs1); try done; [by apply Hatt| |].
    + intros s2 Hc Hs2 Hk2. apply HE; [done|by left|done|done].
    + intros s2 Hc Hs2 Hk2. by eapply HQ.
  - intros s1 _ Hco1 Hnc. change (- EPFS_FILE_2MANY <? 0) with true. cbn iota. apply runs_ret. apply runs_ret. assert (Hins : s_ins s1 = s_ins s) by (unfold s_ins; by rewrite Hnc).
    unfold tx_post. rewrite Hnc, Hcb, Hins. split_and!; [done|by apply mems_pend|done| |simpl; unfold EPFS_FILE_2MANY; intros; lia].
    intros _ s2 Hs2 Hk2. cbn [fst snd]. change (- EPFS_FILE_2MANY <? 0) with true. cbn iota. apply HE; [done|by right; left|done|done].
Qed.
End RenameStep.
