(* ===== verification/Namei.v ===== *)
(** * Path lookup

    Model of pfs_namei.cc: a path is split into the name of the device and
    components, which are resolved from the root through the name cache and
    the indexes of the directories; the inodes on the way are kept on a stack
    with the path they make up, against which the result is checked again
    under the lock of the meta data.

    A string is the list of its bytes without the final NUL.  [s_path] is the
    string in the buffer, [s_nextpos] an offset into it; memory is always
    allocated. *)

From S2P Require Import Prelude Alloc Object Blkio Blktable NameCache Inode Dir Dx.

Open Scope pfs_scope.

Definition PFS_MAX_PBDLEN : Z := 64.
Definition O_CREAT : Z := 64.
Definition O_EXCL : Z := 128.

(** ** Strings *)
Fixpoint strchr (s : list Z) (c : Z) : option nat :=
  match s with
  | [] => None
  | x :: s => if x =? c then Some 0%nat else S <$> strchr s c
  end.
Fixpoint strrchr (s : list Z) (c : Z) : option nat :=
  match s with
  | [] => None
  | x :: s => match strrchr s c with Some n => Some (S n) | None => if x =? c then Some 0%nat else None end
  end.
Fixpoint skip_slash (s : list Z) : list Z :=
  match s with x :: s' => if x =? SLASH then skip_slash s' else s | [] => [] end.
(** What the calls of [strtok_r] yield, [cur] of the next token being read. *)
Fixpoint strtok (cur s : list Z) : list (list Z) :=
  match s with
  | [] => if bool_decide (cur = []) then [] else [cur]
  | x :: s => if x =? SLASH then (if bool_decide (cur = []) then strtok [] s else cur :: strtok [] s) else strtok (cur ++ [x]) s
  end.
Definition DOT : list Z := [46].
Definition DOTDOT : list Z := [46; 46].

(** ** The stack *)
Record instack := MkStk { s_vec : list (Z * Z); s_path : list Z; s_nextpos : nat }.
Definition instk_init : instack := MkStk [] [] 0.

Definition instk_pop (stk : instack) : option instack :=
  let i := length (s_vec stk) in
  PFS_ASSERT (0 <? i)%nat ;;
  let* pos := (if (i =? 1)%nat then Some 0%nat
               else let* pos := strrchr (s_path stk) SLASH in Some (if (i =? 2)%nat then S pos else pos)) in
  let path := take pos (s_path stk) in
  let nextpos := if (i =? 2)%nat then (pos - 1)%nat else pos in
  let vec := take (i - 1) (s_vec stk) in
  PFS_ASSERT (negb (length vec =? 0)%nat || (bool_decide (path = []) && (nextpos =? 0)%nat)) ;;
  Some (MkStk vec path nextpos).
Definition instk_top (stk : instack) : option (Z * Z) := last (s_vec stk).
Definition instk_size (stk : instack) : nat := length (s_vec stk).
Definition instk_parent_of_top (stk : instack) : option (Z * Z) :=
  let i := length (s_vec stk) in
  PFS_ASSERT (0 <? i)%nat ;;
  if (i =? 1)%nat then s_vec stk !! (i - 1)%nat else s_vec stk !! (i - 2)%nat.

(** ** The path of a caller *)
Record nameinfo := MkNi {
  ni_pbd : list Z; ni_path : list Z; ni_srch_name : list Z;
  ni_par_ino : Z; ni_ino : Z; ni_par_btime : Z; ni_btime : Z; ni_tgt_type : Z; ni_broken_path : bool; ni_instk : instack }.

Definition set_ni_inos (srch : list Z) (par ino : Z) (ni : nameinfo) : nameinfo :=
  MkNi (ni_pbd ni) (ni_path ni) srch par ino (ni_par_btime ni) (ni_btime ni) (ni_tgt_type ni) (ni_broken_path ni) (ni_instk ni).
Definition set_ni_btimes (par b : Z) (ni : nameinfo) : nameinfo :=
  MkNi (ni_pbd ni) (ni_path ni) (ni_srch_name ni) (ni_par_ino ni) (ni_ino ni) par b (ni_tgt_type ni) (ni_broken_path ni) (ni_instk ni).
Definition set_ni_tgt_type (v : Z) (ni : nameinfo) : nameinfo :=
  MkNi (ni_pbd ni) (ni_path ni) (ni_srch_name ni) (ni_par_ino ni) (ni_ino ni) (ni_par_btime ni) (ni_btime ni) v (ni_broken_path ni) (ni_instk ni).
Definition set_ni_broken (v : bool) (ni : nameinfo) : nameinfo :=
  MkNi (ni_pbd ni) (ni_path ni) (ni_srch_name ni) (ni_par_ino ni) (ni_ino ni) (ni_par_btime ni) (ni_btime ni) (ni_tgt_type ni) v (ni_instk ni).
Definition set_ni_instk (v : instack) (ni : nameinfo) : nameinfo :=
  MkNi (ni_pbd ni) (ni_path ni) (ni_srch_name ni) (ni_par_ino ni) (ni_ino ni) (ni_par_btime ni) (ni_btime ni) (ni_tgt_type ni) (ni_broken_path ni) v.

(** [pfs_dir_getwd] under the lock of [work_dir]. *)
Definition pfs_memdir_xgetwd (work_dir : list Z) (len : Z) : Z * list Z :=
  if bool_decide (work_dir = []) then (- ENOENT, [])
  else if strlen work_dir >=? len then (- ERANGE, []) else (0, work_dir).

Definition pfs_namei_init (work_dir path : list Z) (type : Z) : option (Z + nameinfo) :=
  let len := PFS_MAX_PATHLEN in
  let r :=
    match path with
    | [] => inl (- EINVAL)
    | c :: _ =>
        if c =? SLASH then inr path
        else let '(err, wd) := pfs_memdir_xgetwd work_dir len in
             if err <? 0 then inl err else inr (wd ++ SLASH :: path)
    end in
  match r with
  | inl err => Some (inl err)
  | inr buf =>
      if strlen buf >=? len then Some (inl (- ENAMETOOLONG)) else
      PFS_ASSERT (bool_decide (head buf = Some SLASH)) ;;
      let nmstart := skip_slash (drop 1 buf) in
      match strchr nmstart SLASH with
      | None => Some (inl (- EINVAL))
      | Some len =>
          PFS_ASSERT (0 <? len)%nat ;;
          if Z.of_nat len >=? PFS_MAX_PBDLEN then Some (inl (- ENAMETOOLONG)) else
          let pbd := take len nmstart in
          let path := drop len nmstart in
          let isdir := bool_decide (last path = Some SLASH) in
          if isdir && (type =? PFS_INODET_FILE) then Some (inl (- EISDIR)) else
          Some (inr (MkNi pbd path [] 0 0 0 0 (if isdir then PFS_INODET_DIR else type) true instk_init))
      end
  end.

(** ** Lookup *)
Section Namei.
Context {N : Type} `{NCacheOps N} (mnt : pfs_mount) (mnt_pbdname : list Z).
Abbreviation X := (dio (N * mems)).

Definition instk_push (stk : instack) (ino btime : Z) (name : list Z) : X instack :=
  assert_ (negb (length (s_vec stk) =? 0)%nat || (bool_decide (s_path stk = []) && (s_nextpos stk =? 0)%nat));;
  pfs_inode_get ino;;
  let bufsz := PFS_MAX_PATHLEN - Z.of_nat (s_nextpos stk) in
  let rv := 1 + strlen name in
  assert_ ((rv >? 0) && (rv <? bufsz));;
  let path := take (s_nextpos stk) (s_path stk) ++ SLASH :: name in
  let nextpos := (s_nextpos stk + Z.to_nat rv)%nat in
  mret (MkStk (s_vec stk ++ [(ino, btime)]) (if ino =? 0 then path ++ [SLASH] else path) nextpos).

(** From the top of the stack to the root. *)
Fixpoint isvalid_loop (vec : list (Z * Z)) (ino type : Z) : X bool :=
  match vec with
  | [] => assert_ (ino =? INVALID_INO);; mret true
  | (in_ino, btime) :: vec =>
      if negb (in_ino =? ino) then mret false else
      phyin ← pfs_meta_get_inode ino;
      if (in_type phyin =? PFS_INODET_NONE) || (in_deno phyin =? INVALID_DENO) then mret false else
      if negb (type =? PFS_INODET_NONE) && negb (in_type phyin =? type) then mret false else
      if negb (in_btime phyin =? btime) then mret false else
      de ← pfs_meta_get_direntry (in_deno phyin);
      isvalid_loop vec (de_dirino de) PFS_INODET_DIR
  end.
Definition instk_isvalid (stk : instack) (type : Z) : X bool :=
  se ← lift (instk_top stk);
  let '(ino, btime) := se in
  r ← pfs_dir_path mnt_pbdname ino PFS_MAX_PATHLEN btime;
  let '(err, realpath) := r in
  if (err <? 0) || (err =? PFS_DE_UNLINKED) then mret false else
  if negb (bool_decide (s_path stk = realpath)) then mret false else
  isvalid_loop (rev (s_vec stk)) ino type.

(** One component that is neither dot nor dotdot: the error, and the inode
    with its type and birth time. *)
Definition namei_find (dirino dirbtime : Z) (name : list Z) : X (Z * (Z * Z * Z)) :=
  c ← gets ds_nc;
  r ← lift (ncache_lookup dirino name c);
  set_nc (snd r);;
  match fst r with
  | inl tgtino =>
      phyin ← pfs_meta_get_inode tgtino;
      mret (0, (tgtino, in_type phyin, in_btime phyin))
  | inr err =>
      if err =? - ENOENT then
        err ← pfs_inode_sync_dir true dirino PFS_INODET_DIR dirbtime;
        if err =? 0 then pfs_inode_dir_find dirino name else mret (err, (0, 0, 0))
      else mret (err, (0, 0, 0))
  end.

(** The components left, the type of the inode reached and the last error;
    [badname] when the last component had no entry. *)
Fixpoint namei_loop (maxnamelen : Z) (names : list (list Z)) (ni : nameinfo) (type err : Z) (badname : bool) : X (nameinfo * Z * Z) :=
  match names with
  | [] => mret (set_ni_broken false ni, type, err)
  | name :: names =>
      if badname then assert_ (err =? - ENOENT);; mret (ni, type, err) else
      if strlen name >=? maxnamelen then mret (ni, type, - ENAMETOOLONG) else
      se ← lift (instk_top (ni_instk ni));
      assert_ ((ni_par_ino ni >=? 0) && (ni_ino ni >=? 0));;
      if bool_decide (name = DOT) then
        if negb (type =? PFS_INODET_DIR) then mret (ni, type, - ENOTDIR) else namei_loop maxnamelen names ni type err false
      else if bool_decide (name = DOTDOT) then
        if negb (type =? PFS_INODET_DIR) then mret (ni, type, - ENOTDIR) else
        stk ← (if (1 <? instk_size (ni_instk ni))%nat then lift (instk_pop (ni_instk ni)) else mret (ni_instk ni));
        let ni := set_ni_instk stk ni in
        r ← pfs_dir_info (ni_par_ino ni) (Some PFS_MAX_NAMELEN);
        let '(err, par, name_buf) := r in
        assert_ (negb (err =? PFS_DE_UNLINKED));;
        if err <? 0 then mret (set_ni_inos (ni_srch_name ni) (ni_par_ino ni) (ni_par_ino ni) ni, type, err)
        else namei_loop maxnamelen names (set_ni_inos name_buf par (ni_par_ino ni) ni) type err false
      else
        r ← namei_find (fst se) (snd se) name;
        let '(err, (tgtino, ttype, btime)) := r in
        if err =? 0 then
          stk ← instk_push (ni_instk ni) tgtino btime name;
          assert_ (negb (ttype =? PFS_INODET_NONE));;
          namei_loop maxnamelen names (set_ni_instk stk (set_ni_inos name (ni_ino ni) tgtino ni)) ttype 0 false
        else
          let ni := set_ni_inos name (ni_ino ni) INVALID_INO ni in
          if negb (err =? - ENOENT) then mret (ni, type, err)
          else namei_loop maxnamelen names ni type err true
  end.

(** What a lookup hands back: the directory, the target and its type. *)
Record lookup_res := MkRes { lr_ni : nameinfo; lr_dirin : option Z; lr_tgtin : option Z; lr_type : Z }.

(** The checks after the loop. *)
Definition namei_finish (ni : nameinfo) (type err oflags : Z) : X (Z * lookup_res) :=
  if err <? 0 then
    if (err =? - ENOENT) && negb (ni_broken_path ni) then
      assert_ ((ni_par_ino ni >=? 0) && (ni_ino ni =? INVALID_INO));;
      assert_ ((Z.land oflags O_CREAT =? 0) || (ni_tgt_type ni =? PFS_INODET_DIR) || (ni_tgt_type ni =? PFS_INODET_FILE));;
      se ← lift (instk_top (ni_instk ni));
      mret (err, MkRes (set_ni_btimes (snd se) (ni_btime ni) ni) (Some (fst se)) None type)
    else mret (err, MkRes ni None None type)
  else
    assert_ (negb (ni_broken_path ni) && negb (ni_ino ni =? INVALID_INO));;
    if Z.land oflags (Z.lor O_EXCL O_CREAT) =? Z.lor O_EXCL O_CREAT then mret (- EEXIST, MkRes ni None None type) else
    if negb (type =? PFS_INODET_NONE) && negb (ni_tgt_type ni =? PFS_INODET_NONE) && negb (type =? ni_tgt_type ni) then
      mret (if type =? PFS_INODET_DIR then - EISDIR else - ENOTDIR, MkRes ni None None type)
    else
      par ← lift (instk_parent_of_top (ni_instk ni));
      se ← lift (instk_top (ni_instk ni));
      mret (0, MkRes (set_ni_btimes (snd par) (snd se) ni) (Some (fst par)) (Some (fst se)) type).

Definition pfs_namei_lookup (ni : nameinfo) (oflags : Z) : X (Z * lookup_res) :=
  f ← lift (pfs_version_has_features mnt PFS_FEATURE_EXTNAME);
  let maxnamelen := if f : bool then PFS_MAX_NAMELEN else PFS_MAX_NAMELEN_OLD in
  phyin ← pfs_meta_get_inode 0;
  stk ← instk_push (ni_instk ni) 0 (in_btime phyin) mnt_pbdname;
  r ← namei_loop maxnamelen (strtok [] (ni_path ni)) (set_ni_instk stk ni) PFS_INODET_DIR 0 false;
  let '(ni, type, err) := r in
  namei_finish ni type err oflags.

Definition pfs_namei_check_stale (ni : nameinfo) (type : Z) : X Z :=
  v ← instk_isvalid (ni_instk ni) type;
  mret (if v : bool then 0 else - EAGAIN).

(** [pfs_namei_lookup_done]: the stack is emptied. *)
Fixpoint pop_all (n : nat) (stk : instack) : option instack :=
  if (instk_size stk =? 0)%nat then Some stk
  else match n with O => None | S n => let* stk := instk_pop stk in pop_all n stk end.
Definition pfs_namei_lookup_done (ni : nameinfo) : X nameinfo :=
  stk ← lift (pop_all (instk_size (ni_instk ni)) (ni_instk ni)); mret (set_ni_instk stk ni).
End Namei.
