(* ===== verification/NameiInv.v ===== *)
(** * The tree a path is resolved in

    A reference definition of path resolution over the namespace, the stack
    of a lookup as a function of the nodes passed, and the check of a stack
    against a namespace. *)

From S2P Require Import Prelude Alloc Object Blkio Blktable NameCache Inode Dir DirBase DirName DirInv DirStep DirTree DirOps DirView Dx DxInv DxOps DxTx Namei.

Open Scope pfs_scope.

(** ** Resolution

    [l] holds the nodes from the current one up to the root, which is left
    out. *)
Definition top (l : list Z) : Z := match l with [] => 0 | c :: _ => c end.
Definition entry (t : tree) (d : Z) (name : list Z) : option Z :=
  match t !! d with Some nd => head (filter (fun c => name_of t c = name) (n_ents nd)) | None => None end.

Inductive walked := Found (l : list Z) | Missing (l : list Z) (name : list Z) | Wrong (err : Z).
Fixpoint walk (t : tree) (maxnamelen : Z) (l : list Z) (names : list (list Z)) : walked :=
  match names with
  | [] => Found l
  | name :: names =>
      if strlen name >=? maxnamelen then Wrong (- ENAMETOOLONG)
      else if negb (isdir t (top l)) then Wrong (- ENOTDIR)
      else if bool_decide (name = DOT) then walk t maxnamelen l names
      else if bool_decide (name = DOTDOT) then walk t maxnamelen (tail l) names
      else match entry t (top l) name with
           | Some c => walk t maxnamelen (c :: l) names
           | None => match names with [] => Missing l name | _ => Wrong (- ENOENT) end
           end
  end.

Definition btime_of (t : tree) (i : Z) : Z := match t !! i with Some nd => n_btime nd | None => 0 end.
Definition type_of (t : tree) (i : Z) : Z := match t !! i with Some nd => n_type nd | None => PFS_INODET_NONE end.

Lemma entry_child mnt t d name c : tree_ok mnt t -> entry t d name = Some c <-> child t d name c.
Proof.
  intros Hok. unfold entry. split.
  - destruct (t !! d) as [nd|] eqn:Hd; [|done]. intros Hh. assert (Hin : c ∈ filter (fun c => name_of t c = name) (n_ents nd)) by (destruct (filter _ _); simplify_eq/=; left).
    apply list_elem_of_filter in Hin as [Hn Hin]. destruct (to_ents _ _ Hok d nd c Hd Hin) as (nc & nm & Hc & Hl). rewrite (name_of_child t d nm c) in Hn by (by exists nc). subst. by exists nc.
  - intros Hch. pose proof Hch as (nc & Hc & Hl). destruct (to_link _ _ Hok c nc d name Hc Hl) as (nd & Hd & _ & Hin). rewrite Hd.
    assert (Hin' : c ∈ filter (fun c => name_of t c = name) (n_ents nd)) by (apply list_elem_of_filter; split; [by apply (name_of_child t d)|done]).
    destruct (filter (fun c => name_of t c = name) (n_ents nd)) as [|x xs] eqn:E; [by apply elem_of_nil in Hin'|]. cbn [head]. f_equal.
    assert (Hx : x ∈ filter (fun c => name_of t c = name) (n_ents nd)) by (rewrite E; left). apply list_elem_of_filter in Hx as [Hnx Hx].
    destruct (to_ents _ _ Hok d nd x Hd Hx) as (nx & nm & Hxx & Hlx). rewrite (name_of_child t d nm x) in Hnx by (by exists nx). subst nm. by eapply (to_unique _ _ Hok).
Qed.
Lemma entry_none mnt t d name : tree_ok mnt t -> entry t d name = None <-> forall c, ~ child t d name c.
Proof.
  intros Hok. split.
  - intros E c Hc. apply (entry_child mnt t d name c Hok) in Hc. congruence.
  - intros Hno. destruct (entry t d name) as [c|] eqn:E; [|done]. apply (entry_child mnt t d name c Hok) in E. by apply Hno in E.
Qed.

(** ** Stacks *)
Section Stack.
Context (mnt : pfs_mount) (mnt_pbdname : list Z).
Implicit Types t : tree.
Abbreviation path_str := (path_str mnt_pbdname).
Abbreviation full_path := (full_path mnt_pbdname).

(** From the top to the root. *)
Definition vec_of t (l : list Z) : list (Z * Z) := (fun c => (c, btime_of t c)) <$> (l ++ [0]).
Definition stk_of t (l : list Z) : instack := MkStk (rev (vec_of t l)) (full_path t (top l) l) (length (path_str t l)).

Lemma chain_top t c l : chain t c l -> c = top l.
Proof. by destruct 1. Qed.
Lemma chain_tail t l : chain t (top l) l -> chain t (top (tail l)) (tail l).
Proof. destruct l as [|c l]; [done|]. inversion 1 as [|? nd d nm l' Hc Hl Hch]; subst. cbn [tail]. by rewrite (chain_top _ _ _ Hch) in Hch. Qed.
Lemma chain_up_child t l c name : chain t (top l) l -> child t (top l) name c -> chain t c (c :: l).
Proof. intros Hl (nc & Hc & Hlk). by eapply chain_up. Qed.
Lemma chain_node t c l : tree_ok mnt t -> chain t c l -> exists nd, t !! c = Some nd.
Proof. intros Hok Hch. destruct Hch as [|c nd d nm l Hc _ _]; [|by exists nd]. destruct (to_root _ _ Hok) as (nd & ? & _). by exists nd. Qed.
Lemma chain_pos t c d l : tree_ok mnt t -> chain t c (d :: l) -> c = d /\ c <> 0.
Proof. intros Hok Hch. inversion Hch as [|? nd d' nm l' Hc Hl Hch']; subst. split; [done|]. intros ->. apply (root_link _ _ Hok) in Hc. congruence. Qed.

Lemma length_vec t l : length (rev (vec_of t l)) = S (length l).
Proof. unfold vec_of. rewrite length_rev, length_fmap, length_app. simpl. lia. Qed.
Lemma vec_top t l : instk_top (stk_of t l) = Some (top l, btime_of t (top l)).
Proof. unfold instk_top, stk_of, vec_of. cbn [s_vec]. destruct l as [|c l]; [done|].  cbn [app fmap list_fmap rev]. by rewrite last_snoc. Qed.
Lemma vec_cons t c l : rev (vec_of t (c :: l)) = rev (vec_of t l) ++ [(c, btime_of t c)].
Proof. done. Qed.
Lemma vec_parent t l : instk_parent_of_top (stk_of t l) = Some (top (tail l), btime_of t (top (tail l))).
Proof.
  unfold instk_parent_of_top, stk_of. cbn [s_vec]. rewrite length_vec. cbn [Nat.ltb Nat.leb]. destruct l as [|c l]; [done|]. cbn [length Nat.eqb Nat.sub tail].
  rewrite vec_cons, lookup_app_l by (rewrite length_vec; lia). pose proof (vec_top t l) as Ht. unfold instk_top, stk_of in Ht. cbn [s_vec] in Ht.
  rewrite last_lookup, length_vec in Ht. cbn [pred] in Ht. by rewrite Nat.sub_0_r.
Qed.

(** *** Strings *)
Lemma strrchr_none s c : c ∉ s -> strrchr s c = None.
Proof. induction s as [|x s IH]; [done|]. rewrite not_elem_of_cons. intros [Hx Hs]. cbn [strrchr]. rewrite IH by done. by rewrite (proj2 (Z.eqb_neq x c)). Qed.
Lemma strrchr_last s1 s2 c : c ∉ s2 -> strrchr (s1 ++ c :: s2) c = Some (length s1).
Proof. intros Hs. induction s1 as [|x s IH]; cbn [app strrchr length]; [by rewrite strrchr_none, Z.eqb_refl|by rewrite IH]. Qed.
Lemma name_no_slash t c d nm : tree_ok mnt t -> child t d nm c -> SLASH ∉ nm.
Proof. intros Hok (nc & Hc & Hl). by destruct (to_name _ _ Hok c nc d nm Hc Hl) as (_ & _ & ? & _). Qed.

Lemma pop_ok t c l : tree_ok mnt t -> chain t c (c :: l) -> instk_pop (stk_of t (c :: l)) = Some (stk_of t l).
Proof.
  intros Hok Hch. destruct (chain_pos _ _ _ _ Hok Hch) as [_ Hc0]. inversion Hch as [|? nd d nm l' Hc Hl Hch']; subst.
  pose proof (chain_top _ _ _ Hch') as Hd. assert (Hcd : child t d nm c) by (by exists nd). pose proof (name_no_slash t c d nm Hok Hcd) as Hs.
  unfold instk_pop, stk_of. cbn [s_vec s_path]. rewrite length_vec. cbn [length Nat.ltb Nat.leb Nat.eqb top].
  assert (Hfp : full_path t c (c :: l) = path_str t l ++ SLASH :: nm).
  { unfold full_path. rewrite (proj2 (Z.eqb_neq c 0)) by done. cbn [DirView.path_str]. by rewrite (name_of_child t d nm c). }
  rewrite Hfp, strrchr_last by done. cbn [Nat.sub]. rewrite vec_cons, take_app_length' by (by rewrite length_vec). rewrite length_vec. cbn [Nat.eqb negb orb].
  destruct l as [|x l]; cbn [length Nat.eqb top].
  - f_equal. f_equal. unfold full_path. cbn [Z.eqb DirView.path_str]. change (SLASH :: nm) with ([SLASH] ++ nm). by rewrite app_assoc, take_app_length' by (rewrite length_app; simpl; lia).
  - f_equal. f_equal. unfold full_path. destruct (chain_pos _ _ _ _ Hok Hch') as [<- Hx0]. rewrite (proj2 (Z.eqb_neq _ 0)) by done. apply take_app_length.
Qed.
End Stack.
