(* ===== verification/NameiOps.v ===== *)
(** * Lookup resolves paths in the namespace

    The check of a stack against the namespace is exact, whatever happened
    since the lookup; without changes in between a lookup is the resolution of
    the path in the namespace. *)

From S2P Require Import Prelude Alloc Object Blkio Blktable NameCache Inode Dir DirBase DirName DirInv DirStep DirTree DirOps DirView Dx DxInv DxOps DxTx Namei NameiInv.

Open Scope pfs_scope.

Section NameiOps.
Context {N : Type} `{NCacheLaws N} (mnt : pfs_mount) (mnt_pbdname : list Z).
Implicit Types (s : dstate (N * mems)) (t : tree).
Abbreviation ino_ok s i := (is_Some (os_objs (ds_in s) !! i)).
Abbreviation path_str := (path_str mnt_pbdname).
Abbreviation full_path := (full_path mnt_pbdname).
Abbreviation stk_of := (stk_of mnt_pbdname).

(** ** The check *)
Definition type_fits (type ty : Z) : Prop := type = PFS_INODET_NONE \/ ty = type.
Lemma type_test type ty : (negb (type =? PFS_INODET_NONE) && negb (ty =? type)) = false <-> type_fits type ty.
Proof. unfold type_fits. rewrite andb_false_iff, !negb_false_iff, !Z.eqb_eq. done. Qed.

Lemma isvalid_step s t dn xs c nd l x b vec type p (Q : bool -> dstate (N * mems) -> Prop) : rep s t dn xs -> tree_ok mnt t -> chain t c l -> t !! c = Some nd ->
  runs (pfs_meta_get_direntry (deno_of dn c)) s (fun de s' => s' = s /\ de_dirino de = p) ->
  (x = c -> b = n_btime nd -> type_fits type (n_type nd) -> runs (isvalid_loop vec p PFS_INODET_DIR) s Q) ->
  (~ (x = c /\ b = n_btime nd /\ type_fits type (n_type nd)) -> Q false s) -> runs (isvalid_loop ((x, b) :: vec) c type) s Q.
Proof.
  intros Hr Hok Hch Hc Hde Hyes Hno. cbn [isvalid_loop]. destruct (Z.eqb_spec x c) as [Hx|Hx]; cbn [negb]; [|apply runs_ret, Hno; tauto].
  dstep. eapply runs_attached; [exact Hr|exact Hch|exact Hc|]. intros ino Ht Hb Hd Hinv. rewrite Hinv, Ht, Hb, Hd.
  rewrite (proj2 (Z.eqb_neq (n_type nd) PFS_INODET_NONE)) by (by destruct (to_type _ _ Hok c nd Hc) as [-> | ->]). cbn [orb].
  destruct (negb (type =? PFS_INODET_NONE) && negb (n_type nd =? type)) eqn:Et; [apply runs_ret, Hno; intros (_ & _ & E%type_test); congruence|]. apply type_test in Et.
  destruct (Z.eqb_spec (n_btime nd) b) as [Eb|Eb]; cbn [negb]; [|apply runs_ret, Hno; intros (_ & E & _); congruence].
  dstep. eapply runs_mono; [exact Hde|]. intros de s' [-> <-]. by apply Hyes.
Qed.
Lemma isvalid_loop_ok s t dn xs c l : rep s t dn xs -> tree_ok mnt t -> chain t c l -> forall vec type (Q : bool -> dstate (N * mems) -> Prop),
  (exists b, last vec = Some (0, b)) -> Forall (fun e => 0 <= fst e) vec ->
  (forall b : bool, (b = true <-> vec = vec_of t l /\ type_fits type (type_of t c)) -> Q b s) -> runs (isvalid_loop vec c type) s Q.
Proof.
  intros Hr Hok. induction 1 as [|c nc d nm l Hc Hl Hch IH]; intros vec type Q [b0 Hlast] Hpos HQ; (destruct vec as [|[x b] vec]; [done|]).
  - destruct (to_root _ _ Hok) as (nd & Hn0 & Ht0 & Hl0). assert (E : vec_of t [] = [(0, n_btime nd)]) by (unfold vec_of, btime_of; cbn; by rewrite Hn0).
    rewrite E in HQ. unfold type_of in HQ. rewrite Hn0 in HQ. eapply (isvalid_step) with (p := INVALID_INO); [done|done|by constructor|done| | |].
    + destruct (r_root _ _ _ _ Hr) as (mo & nm & Hm & _ & Hd). eapply runs_get_de; [exact Hm|unfold MO2DE; rewrite Hd; done|]. done.
    + intros -> -> Hf. destruct vec as [|[y b'] vec]; cbn [isvalid_loop].
      * dstep. dstep; [apply Z.eqb_refl|]. apply runs_ret, HQ. split; [by auto|done].
      * apply Forall_cons in Hpos as [_ Hpos]. apply Forall_cons in Hpos as [Hy _]. simpl in Hy. rewrite (proj2 (Z.eqb_neq y INVALID_INO)) by (unfold INVALID_INO; lia).
        apply runs_ret, HQ. split; [done|]. by intros [[=] _].
    + intros Hno. apply HQ. split; [done|]. intros [[=] ?]. exfalso. by apply Hno.
  - destruct (chain_pos mnt t c c l Hok) as [_ Hc0]; [by eapply chain_up|]. assert (E : vec_of t (c :: l) = (c, n_btime nc) :: vec_of t l) by (unfold vec_of; cbn; unfold btime_of at 1; by rewrite Hc).
    rewrite E in HQ. unfold type_of in HQ. rewrite Hc in HQ. eapply (isvalid_step) with (p := d); [done|done|by eapply chain_up|done| | |].
    + unfold deno_of. rewrite (proj2 (Z.eqb_neq c 0)) by done. eapply runs_entry; [exact Hr|exact Hc|exact Hl|]. by intros de _ Hd.
    + intros -> -> Hf. apply Forall_cons in Hpos as [_ Hpos]. apply IH; [|done|].
      * exists b0. destruct vec as [|y vec]; [simpl in Hlast; congruence|]. by rewrite last_cons_cons in Hlast.
      * intros b' Hb'. apply HQ. rewrite Hb'. assert (Hd : type_of t d = PFS_INODET_DIR) by (destruct (to_link _ _ Hok c nc d nm Hc Hl) as (nd & Hd & ? & _); unfold type_of; by rewrite Hd).
        rewrite Hd. split; [intros [-> _]; done|intros [[=] _]; split; [done|by right]].
    + intros Hno. apply HQ. split; [done|]. intros [[=] ?]. exfalso. by apply Hno.
Qed.

(** A stack as lookups leave it: it starts at the root, and its inodes are
    objects of the volume. *)
Definition stk_wf s (stk : instack) : Prop := (exists b, head (s_vec stk) = Some (0, b)) /\ Forall (fun e => 0 <= fst e /\ ino_ok s (fst e)) (s_vec stk).
(** The stack is the way to a node of the namespace of that type. *)
Definition stk_valid t (stk : instack) (type : Z) (l : list Z) : Prop :=
  chain t (top l) l /\ s_vec stk = rev (vec_of t l) /\ s_path stk = full_path t (top l) l /\ strlen (full_path t (top l) l) < PFS_MAX_PATHLEN /\ type_fits type (type_of t (top l)).

Lemma stk_wf_top s stk : stk_wf s stk -> exists i b, instk_top stk = Some (i, b) /\ 0 <= i /\ ino_ok s i /\ (exists b, last (rev (s_vec stk)) = Some (0, b)) /\ Forall (fun e => 0 <= fst e) (rev (s_vec stk)).
Proof.
  intros [[b0 Hh] Hf]. unfold instk_top. destruct (s_vec stk) as [|e v] eqn:E; [done|]. destruct (last (e :: v)) as [[i b]|] eqn:El; [|by apply last_None in El].
  exists i, b. assert (Hin : (i, b) ∈ e :: v) by (apply last_Some in El as [l ->]; set_solver). rewrite Forall_forall in Hf. destruct (Hf _ Hin) as [? ?]. split_and!; [done|done|done| |].
  - exists b0. cbn [rev]. rewrite last_snoc. by rewrite <- Hh.
  - apply Forall_forall. intros x Hx. apply Hf. by rewrite list_elem_of_In, in_rev, <- list_elem_of_In.
Qed.

Lemma isvalid_ok s t dn xs stk type (Q : bool -> dstate (N * mems) -> Prop) : rep s t dn xs -> tree_ok mnt t -> stk_wf s stk ->
  (forall b : bool, (b = true <-> exists l, stk_valid t stk type l) -> Q b s) -> runs (instk_isvalid mnt_pbdname stk type) s Q.
Proof.
  intros Hr Hok Hwf HQ. destruct (stk_wf_top _ _ Hwf) as (i & b & Htop & Hi0 & Hio & Hlast & Hpos). unfold instk_isvalid. dstep. eapply runs_lift; [exact Htop|]. cbn beta iota. dstep.
  assert (Hno : (forall l, chain t (top l) l -> s_vec stk = rev (vec_of t l) -> s_path stk = full_path t (top l) l -> strlen (full_path t (top l) l) < PFS_MAX_PATHLEN -> False) -> Q false s).
  { intros Hf. apply HQ. split; [done|]. intros (l & A & B & C & D & _). destruct (Hf l A B C D). }
  assert (Htl : forall l, s_vec stk = rev (vec_of t l) -> top l = i /\ b = btime_of t i).
  { intros l El. pose proof (vec_top mnt_pbdname t l) as Hv. unfold instk_top, stk_of in *. cbn [s_vec] in Hv. rewrite <- El, Htop in Hv. by simplify_eq. }
  destruct (t !! i) as [nd|] eqn:Hi.
  2: { unfold pfs_dir_path. dstep. eapply runs_free_inode; [done..|]. intros ino ->. rewrite Z.eqb_refl. cbn [orb]. apply runs_ret. cbn [Z.ltb Z.opp Z.compare orb]. change (- ENOENT <? 0) with true. cbn [orb].
    apply runs_ret, Hno. intros l A B _ _. destruct (Htl l B) as [E _]. destruct (chain_node mnt t (top l) l Hok A) as [nd Hnd]. congruence. }
  destruct (decide (b = n_btime nd)) as [->|Hb].
  2: { unfold pfs_dir_path. dstep. eapply runs_node; [done..|]. intros ino _ _ -> _ _. rewrite (proj2 (Z.eqb_neq (n_btime nd) b)) by congruence. rewrite orb_true_r. apply runs_ret.
    change (- ENOENT <? 0) with true. cbn [orb]. apply runs_ret, Hno. intros l A B _ _. destruct (Htl l B) as [_ E]. unfold btime_of in E. rewrite Hi in E. congruence. }
  assert (Hatt : attached t i \/ (i <> 0 /\ n_link nd = None)).
  { destruct (decide (i = 0)) as [->|]; [left; by left|]. destruct (n_link nd) as [lk|] eqn:El; [left; right; exists nd; by rewrite El|by right]. }
  destruct Hatt as [Hatt|[Hi1 Hlk]].
  2: { unfold pfs_dir_path. dstep. eapply runs_node; [done..|]. rewrite (proj2 (Z.eqb_neq i 0)), Hlk by done. intros ino -> _ -> -> _. rewrite Z.eqb_refl. cbn [negb]. rewrite orb_false_r.
    rewrite (proj2 (Z.eqb_neq (n_type nd) PFS_INODET_NONE)) by (by destruct (to_type _ _ Hok i nd Hi) as [-> | ->]). rewrite Z.eqb_refl. apply runs_ret. rewrite Z.eqb_refl, orb_true_r.
    apply runs_ret, Hno. intros l A B _ _. destruct (Htl l B) as [E _]. rewrite E in A. destruct (chain_head _ _ _ A) as [?|(nd' & Hnd' & [? ?])]; congruence. }
  destruct (attached_chain _ _ Hok i Hatt) as [l Hch]. pose proof (chain_top _ _ _ Hch) as ->.
  assert (Huniq : forall l', chain t (top l') l' -> s_vec stk = rev (vec_of t l') -> l' = l).
  { intros l' A B. destruct (Htl l' B) as [E _]. rewrite E in A. eapply chain_unique; [|exact A|exact Hch]. apply (root_link _ _ Hok). }
  eapply dir_path_ok; [done|done|done|exact Hch|]. destruct (strlen (full_path t (top l) l) <? PFS_MAX_PATHLEN) eqn:Elen; bool_prop.
  2: { change (- ENAMETOOLONG <? 0) with true. cbn [orb]. apply runs_ret, Hno. intros l' A B _ D. rewrite (Huniq l' A B) in D. lia. }
  change (0 <? 0) with false. change (0 =? PFS_DE_UNLINKED) with false. cbn [orb]. case_bool_decide as Hp; cbn [negb]; [|apply runs_ret, Hno; intros l' A B C _; by rewrite (Huniq l' A B) in C].
  eapply isvalid_loop_ok; [done|done|done|done|done|]. intros b Hb. apply HQ. rewrite Hb. split.
  - intros [E Hf]. exists l. split_and!; try done. by rewrite <- E, rev_involutive.
  - intros (l' & A & B & _ & _ & F). pose proof (Huniq l' A B) as ->. split; [by rewrite B, rev_involutive|done].
Qed.

(** ** One component *)
Lemma ns_with_ins s t dn ins : ns_ok mnt s t dn -> mems_ok t ins -> ns_ok mnt (with_ins s ins) t dn.
Proof. intros [[xs Hr] Hok Hco Hms Hcb] Hi. split; try done. exists xs. by apply rep_ins. Qed.
Lemma ns_with_nc s t dn (c : N) : ns_ok mnt s t dn -> coherent c t dn -> ns_ok mnt (MkD (ds_de s) (ds_in s) (c, snd (ds_nc s))) t dn.
Proof. intros [[xs Hr] Hok Hco Hms Hcb] Hc. split; try done. exists xs. by apply rep_nc. Qed.

Lemma get_ok s t dn i (Q : unit -> dstate (N * mems) -> Prop) : ns_ok mnt s t dn ->
  (forall s', ns_ok mnt s' t dn -> keeps (s_ins s) (s_ins s') -> is_Some (s_ins s' !! i) -> Q tt s') -> runs (pfs_inode_get i) s Q.
Proof.
  intros Hns HQ. unfold pfs_inode_get. dstep. dstep. fold (s_ins s). destruct (s_ins s !! i) as [di|] eqn:E; [apply runs_ret, HQ; [done|apply keeps_refl|by rewrite E]|].
  apply runs_put_in, HQ.
  - apply ns_with_ins; [done|]. intros j dj [[<- <-]|[_ Hj]]%lookup_insert_Some; [apply new_mem_ok|by apply (no_mems _ _ _ _ Hns)].
  - intros j [dj Hj]. change (is_Some (<[i := new_dinode]> (s_ins s) !! j)). rewrite lookup_insert_ne by congruence. by eexists.
  - change (is_Some (<[i := new_dinode]> (s_ins s) !! i)). rewrite lookup_insert_eq. by eexists.
Qed.

Lemma find_ok s t dn d nd name (Q : Z * (Z * Z * Z) -> dstate (N * mems) -> Prop) : ns_ok mnt s t dn -> t !! d = Some nd -> is_Some (s_ins s !! d) -> dotted name = false ->
  (forall s' c nc, ns_ok mnt s' t dn -> keeps (s_ins s) (s_ins s') -> child t d name c -> t !! c = Some nc -> Q (0, (c, n_type nc, n_btime nc)) s') ->
  (forall s', ns_ok mnt s' t dn -> keeps (s_ins s) (s_ins s') -> n_type nd <> PFS_INODET_DIR -> Q (- ENOTDIR, (0, 0, 0)) s') ->
  (forall s', ns_ok mnt s' t dn -> keeps (s_ins s) (s_ins s') -> n_type nd = PFS_INODET_DIR -> (forall c, ~ child t d name c) -> Q (- ENOENT, (0, 0, 0)) s') ->
  runs (namei_find d (n_btime nd) name) s Q.
Proof.
  intros Hns Hd Hdi Hdot Hhit Hndir Hmiss. pose proof Hns as [[xs Hr] Hok [Hinv Hc] Hms Hcb]. unfold namei_find. dstep. dstep. dstep.
  destruct (nl_lookup d name (fst (ds_nc s)) Hinv Hdot) as (r & c1 & E & Hinv1 & Hh1 & Hres). eapply runs_lift; [cbn [ncache_lookup mem_ncache]; rewrite E; done|].
  dstep. eexists _, _. split; [done|]. cbn [fst snd]. assert (Hco1 : coherent c1 t dn) by (split; [done|]; intros p n i k Hk; by apply Hc, Hh1).
  pose proof (ns_with_nc s t dn c1 Hns Hco1) as Hns1. destruct (no_rep _ _ _ _ Hns1) as [xs1 Hr1]. destruct r as [i|err].
  - destruct Hres as [k Hk]. destruct (Hc _ _ _ _ Hk) as [Hch _]. pose proof Hch as (ni & Hi & Hl). dstep. eapply runs_node; [exact Hr1|exact Hi|].
    intros ino -> _ -> _ _. apply runs_ret. eapply (Hhit _ i ni); [exact Hns1|exact (keeps_refl _)|done|done].
  - subst err. rewrite Z.eqb_refl. dstep. destruct Hdi as [di Hdi].
    eapply (sync_dir_ok mnt _ t dn xs1 d di); [done|done|apply Hns1|destruct (r_node _ _ _ _ Hr1 d nd Hd) as (mo & ? & _); by eexists|exact Hdi|].
    intros ins' di' Hg Hdi' Hms' Hst. pose proof (ns_with_ins _ t dn ins' Hns1 Hms') as Hns2.
    assert (Hk : keeps (s_ins s) ins') by (eapply mgrow_keeps; [exact Hg|by eexists]). unfold sync_err in *. rewrite Hd, Z.eqb_refl in *. cbn [negb] in *. change (PFS_INODET_DIR =? PFS_INODET_NONE) with false in *.
    cbn [negb andb] in *. destruct (Z.eqb_spec (n_type nd) PFS_INODET_DIR) as [Hty|Hty]; cbn [negb] in *.
    + rewrite Z.eqb_refl. destruct (no_rep _ _ _ _ Hns2) as [xs2 Hr2]. eapply (dir_find_ok mnt _ t dn xs2 d nd di'); [done|done|done|done|done|done|by apply Hms'|by apply Hst|done| |].
      * intros c i ni Hci Hch Hi. eapply Hhit; [by apply (ns_with_nc _ _ _ _ Hns2)|exact Hk|exact Hch|exact Hi].
      * intros c Hci Hno. eapply Hmiss; [by apply (ns_with_nc _ _ _ _ Hns2)|exact Hk|done|done].
    + change (PFS_INODET_DIR =? PFS_INODET_FILE) with false. change (- ENOTDIR =? 0) with false. cbn iota. apply runs_ret. by apply Hndir.
Qed.

(** ** All components *)
Definition comp_ok (name : list Z) : Prop := name <> [] /\ (SLASH ∉ name) /\ Forall (fun b => b <> 0) name.
Definition room (names : list (list Z)) : nat := foldr (fun n k => (S (length n) + k)%nat) 0%nat names.
Record at_node t (l : list Z) (ni : nameinfo) : Prop := {
  at_stk : ni_instk ni = stk_of t l;
  at_chain : chain t (top l) l;
  at_ino : ni_ino ni = top l;
  at_par : ni_par_ino ni = top (tail l);
  at_srch : ni_srch_name ni = name_of t (top l) }.
Record no_node t (l : list Z) (name : list Z) (ni : nameinfo) : Prop := {
  nn_stk : ni_instk ni = stk_of t l;
  nn_chain : chain t (top l) l;
  nn_ino : ni_ino ni = INVALID_INO;
  nn_par : ni_par_ino ni = top l;
  nn_srch : ni_srch_name ni = name;
  nn_dir : isdir t (top l) = true;
  nn_free : forall c, ~ child t (top l) name c;
  nn_name : comp_ok name /\ dotted name = false }.
Definition asked (ni ni' : nameinfo) : Prop := ni_pbd ni' = ni_pbd ni /\ ni_path ni' = ni_path ni /\ ni_tgt_type ni' = ni_tgt_type ni.
Definition on_mem s (l : list Z) : Prop := forall j, j ∈ 0 :: l -> is_Some (s_ins s !! j).

Lemma on_mem_keeps s s' l : on_mem s l -> keeps (s_ins s) (s_ins s') -> on_mem s' l.
Proof. intros Hm Hk j Hj. by apply Hk, Hm. Qed.
Lemma on_mem_tail s l : on_mem s l -> on_mem s (tail l).
Proof. intros Hm j Hj. apply Hm. destruct l as [|c l]; [done|]. cbn [tail] in Hj. set_solver. Qed.
Lemma on_mem_top s l : on_mem s l -> is_Some (s_ins s !! top l).
Proof. intros Hm. apply Hm. destruct l as [|c l]; cbn [top]; set_solver. Qed.

Context (t : tree) (dn : Z -> Z) (max : Z) (k0 : gmap Z dinode) (ni0 : nameinfo).
(** The state of a lookup. *)
Record going (l : list Z) (ni : nameinfo) s : Prop := {
  go_ns : ns_ok mnt s t dn;
  go_keeps : keeps k0 (s_ins s);
  go_mem : on_mem s l;
  go_asked : asked ni0 ni;
  go_len : strlen (full_path t (top l) l) < PFS_MAX_PATHLEN }.
Definition looked (w : walked) (Q : nameinfo * Z * Z -> dstate (N * mems) -> Prop) : Prop :=
  match w with
  | Found l => forall ni s, going l ni s -> at_node t l ni -> ni_broken_path ni = false -> Q (ni, type_of t (top l), 0) s
  | Missing l name => forall ni s, going l ni s -> no_node t l name ni -> strlen name < max -> ni_broken_path ni = false -> Q (ni, PFS_INODET_DIR, - ENOENT) s
  | Wrong err => forall ni ty s l, err < 0 -> going l ni s -> ni_instk ni = stk_of t l -> chain t (top l) l -> ni_broken_path ni = ni_broken_path ni0 -> Q (ni, ty, err) s
  end.

Lemma isdir_type i : isdir t i = (type_of t i =? PFS_INODET_DIR).
Proof. unfold isdir, type_of. by destruct (t !! i). Qed.
Lemma push_ok s l c nc name (Q : instack -> dstate (N * mems) -> Prop) : ns_ok mnt s t dn -> chain t (top l) l -> child t (top l) name c -> t !! c = Some nc ->
  (length (path_str t l) + S (length name) < Z.to_nat PFS_MAX_PATHLEN)%nat ->
  (forall s', ns_ok mnt s' t dn -> keeps (s_ins s) (s_ins s') -> is_Some (s_ins s' !! c) -> Q (stk_of t (c :: l)) s') -> runs (instk_push (stk_of t l) c (n_btime nc) name) s Q.
Proof.
  intros Hns Hch Hc Hnc Hlen HQ. pose proof Hns as [[xs Hr] Hok _ _ _]. destruct (chain_pos mnt t c c l Hok) as [_ Hc0]; [by eapply chain_up_child|].
  unfold instk_push, stk_of. cbn [s_vec s_path s_nextpos]. rewrite (length_vec t l). dstep. dstep; [done|]. dstep. eapply get_ok; [exact Hns|]. intros s' Hns' Hk' Hs'. dstep. dstep.
  { apply andb_true_iff. split; [apply Z.gtb_lt; unfold strlen; lia|apply Z.ltb_lt; unfold strlen; lia]. }
  apply runs_ret. rewrite (proj2 (Z.eqb_neq c 0)) by done. specialize (HQ s' Hns' Hk' Hs'). unfold stk_of in HQ. rewrite vec_cons in HQ. cbn [top DirView.path_str] in HQ.
  unfold full_path in HQ at 1. rewrite (proj2 (Z.eqb_neq c 0)) in HQ by done. cbn [DirView.path_str] in HQ. rewrite (name_of_child t (top l) name c) in HQ by done. unfold btime_of in HQ. rewrite Hnc in HQ.
  replace (take _ _) with (path_str t l); [replace (length _ + _)%nat with (length (path_str t l ++ SLASH :: name)); [exact HQ|]|].
  - rewrite length_app. unfold strlen. simpl. lia.
  - unfold full_path. destruct (top l =? 0); [by rewrite take_app_length|by rewrite take_ge].
Qed.

Lemma root_name : tree_ok mnt t -> name_of t 0 = [].
Proof. intros Hok. destruct (to_root _ _ Hok) as (nd & Hn & _ & Hl). unfold name_of. by rewrite Hn, Hl. Qed.
Lemma info_ok s l (Q : Z * Z * list Z -> dstate (N * mems) -> Prop) : ns_ok mnt s t dn -> chain t (top l) l -> isdir t (top l) = true ->
  Q (0, top (tail l), name_of t (top l)) s -> runs (pfs_dir_info (top l) (Some PFS_MAX_NAMELEN)) s Q.
Proof.
  intros Hns Hch Hdir HQ. pose proof Hns as [[xs Hr] Hok _ _ _]. unfold pfs_dir_info. destruct l as [|c l]; cbn [top tail] in *.
  { rewrite Z.eqb_refl. dstep. dstep; [done|]. apply runs_ret. by rewrite root_name in HQ. }
  destruct (chain_pos mnt t c c l Hok Hch) as [_ Hc0]. rewrite (proj2 (Z.eqb_neq c 0)) by done. inversion Hch as [|? nd d nm l' Hc Hl Hch']; subst. pose proof (chain_top _ _ _ Hch') as Hd.
  rewrite (name_of_child t d nm c) in HQ by (by exists nd). unfold isdir in Hdir. rewrite Hc in Hdir. dstep. eapply runs_attached; [exact Hr|exact Hch|exact Hc|]. intros ino Ht _ Hde Hinv.
  rewrite Ht, Hdir, Hinv, Hde. cbn [negb]. unfold deno_of. rewrite (proj2 (Z.eqb_neq c 0)) by done. dstep. eapply runs_entry_mo; [done|done|by rewrite Hl|]. intros mo Hmo.
  dstep. eapply runs_entry; [done..|]. intros de Hdi Hdd. dstep. dstep; [by apply Z.eqb_eq|]. dstep. dstep; [by apply Z.eqb_eq|]. dstep. eapply runs_getname; [exact Hr|exact Hc|exact Hl|by apply (to_name _ _ Hok c nd d nm)|].
  dstep. dstep; [done|]. destruct (to_name _ _ Hok c nd d nm Hc Hl) as ([_ Hlen] & _). rewrite Z.geb_leb, (proj2 (Z.leb_gt _ _)) by (unfold strlen; lia). apply runs_ret. rewrite Hdd, Hd. done.
Qed.
Lemma going_mono l l' ni ni' s s' : going l ni s -> ns_ok mnt s' t dn -> keeps (s_ins s) (s_ins s') -> on_mem s' l' -> asked ni ni' -> strlen (full_path t (top l') l') < PFS_MAX_PATHLEN -> going l' ni' s'.
Proof.
  intros [H1 H2 H3 H4 H5] Hns Hk Hm Ha Hlen. split; [done|by eapply keeps_trans|done| |done]. unfold asked in *. destruct H4 as (? & ? & ?), Ha as (? & ? & ?). split_and!; congruence.
Qed.

Lemma tail_len l : strlen (full_path t (top l) l) < PFS_MAX_PATHLEN -> strlen (full_path t (top (tail l)) (tail l)) < PFS_MAX_PATHLEN.
Proof.
  destruct l as [|c l]; [done|]. cbn [tail]. unfold full_path, strlen. cbn [top DirView.path_str]. destruct (c =? 0), (top l =? 0); repeat rewrite length_app; simpl; lia.
Qed.
Lemma top_pos s l : ns_ok mnt s t dn -> chain t (top l) l -> 0 <= top l.
Proof. intros [[xs Hr] Hok _ _ _] Hch. destruct (chain_node mnt t _ _ Hok Hch) as [nd Hnd]. by apply (ino_range _ _ _ _ _ _ Hr Hnd). Qed.
Lemma parent_dir l : tree_ok mnt t -> chain t (top l) l -> type_of t (top (tail l)) = PFS_INODET_DIR \/ l = [] .
Proof.
  intros Hok Hch. destruct l as [|c l]; [by right|left]. inversion Hch as [|? nd d nm l' Hc Hl Hch']; subst. rewrite (chain_top _ _ _ Hch') in Hl.
  destruct (to_link _ _ Hok c nd _ nm Hc Hl) as (np & Hp & ? & _). unfold type_of. cbn [tail]. by rewrite Hp.
Qed.
Lemma up_ok s l ni names (Q : nameinfo * Z * Z -> dstate (N * mems) -> Prop) : going l ni s -> at_node t l ni -> type_of t (top l) = PFS_INODET_DIR ->
  (forall ni', going (tail l) ni' s -> at_node t (tail l) ni' -> ni_broken_path ni' = ni_broken_path ni -> type_of t (top (tail l)) = PFS_INODET_DIR ->
     runs (namei_loop max names ni' PFS_INODET_DIR 0 false) s Q) ->
  runs (stk ← (if (1 <? instk_size (ni_instk ni))%nat then lift (instk_pop (ni_instk ni)) else mret (ni_instk ni));
        let ni := set_ni_instk stk ni in
        r ← pfs_dir_info (ni_par_ino ni) (Some PFS_MAX_NAMELEN);
        let '(err, par, name_buf) := r in
        assert_ (negb (err =? PFS_DE_UNLINKED));;
        if err <? 0 then mret (set_ni_inos (ni_srch_name ni) (ni_par_ino ni) (ni_par_ino ni) ni, PFS_INODET_DIR, err)
        else namei_loop max names (set_ni_inos name_buf par (ni_par_ino ni) ni) PFS_INODET_DIR err false) s Q.
Proof.
  intros Hg Hat Hty HQ. pose proof (go_ns _ _ _ Hg) as Hns. pose proof (no_tree _ _ _ _ Hns) as Hok. pose proof (at_chain _ _ _ Hat) as Hch. pose proof (chain_tail _ _ Hch) as Hch'.
  assert (Htl : type_of t (top (tail l)) = PFS_INODET_DIR) by (destruct (parent_dir l Hok Hch) as [?| ->]; done). dstep.
  assert (Hstk : runs (if (1 <? instk_size (ni_instk ni))%nat then lift (instk_pop (ni_instk ni)) else mret (ni_instk ni) : dio (N * mems) instack) s (fun stk s' => stk = stk_of t (tail l) /\ s' = s)).
  { rewrite (at_stk _ _ _ Hat). unfold instk_size, stk_of at 1. cbn [s_vec]. rewrite length_vec. destruct l as [|c l]; [by apply runs_ret|]. cbn [length Nat.ltb Nat.leb].
    eapply runs_lift; [by eapply pop_ok|done]. }
  eapply runs_mono; [exact Hstk|]. intros stk s' [-> ->]. cbn zeta. cbn [ni_par_ino set_ni_instk]. rewrite (at_par _ _ _ Hat). dstep. eapply info_ok; [done|done|by rewrite isdir_type, Htl|].
  cbn beta iota. dstep. dstep; [done|]. change (0 <? 0) with false. cbn iota. apply HQ; [|by split|done|done].
  eapply going_mono; [exact Hg|done|apply keeps_refl|apply on_mem_tail, Hg|done|apply tail_len, Hg].
Qed.
Lemma down_ok s l ni name names (Q : nameinfo * Z * Z -> dstate (N * mems) -> Prop) : going l ni s -> at_node t l ni -> ni_broken_path ni = ni_broken_path ni0 -> comp_ok name -> dotted name = false ->
  strlen name < max -> (length (path_str t l) + S (length name) < Z.to_nat PFS_MAX_PATHLEN)%nat ->
  (forall c ni' s', child t (top l) name c -> going (c :: l) ni' s' -> at_node t (c :: l) ni' -> ni_broken_path ni' = ni_broken_path ni0 -> looked (walk t max (c :: l) names) Q ->
     runs (namei_loop max names ni' (type_of t (top (c :: l))) 0 false) s' Q) ->
  looked (if negb (isdir t (top l)) then Wrong (- ENOTDIR)
          else match entry t (top l) name with
               | Some c => walk t max (c :: l) names
               | None => match names with [] => Missing l name | _ => Wrong (- ENOENT) end
               end) Q ->
  runs (r ← namei_find (top l) (btime_of t (top l)) name;
        let '(err, (tgtino, ttype, btime)) := r in
        if err =? 0 then
          stk ← instk_push (ni_instk ni) tgtino btime name;
          assert_ (negb (ttype =? PFS_INODET_NONE));;
          namei_loop max names (set_ni_instk stk (set_ni_inos name (ni_ino ni) tgtino ni)) ttype 0 false
        else
          let ni := set_ni_inos name (ni_ino ni) INVALID_INO ni in
          if negb (err =? - ENOENT) then mret (ni, type_of t (top l), err)
          else namei_loop max names ni (type_of t (top l)) err true) s Q.
Proof.
  intros Hg Hat Hbr Hname Hdot Hlen Hroom IH HQ. pose proof (go_ns _ _ _ Hg) as Hns. pose proof (no_tree _ _ _ _ Hns) as Hok. pose proof (at_chain _ _ _ Hat) as Hch. destruct (chain_node mnt t _ _ Hok Hch) as [nd Hnd].
  rewrite isdir_type in HQ. unfold type_of in *. rewrite Hnd in *. unfold btime_of. rewrite Hnd. dstep. eapply find_ok; [done|done|apply on_mem_top, Hg|done| | |].
  - intros s' c nc Hns' Hk' Hc Hnc. rewrite Z.eqb_refl. pose proof Hc as (x & Hx & Hlx). destruct (to_link _ _ Hok c x (top l) name Hx Hlx) as (nd' & Hnd' & Htd & _). assert (nd' = nd) as -> by congruence.
    rewrite Htd in HQ. cbn [Z.eqb negb] in HQ. rewrite Z.eqb_refl in HQ. cbn [negb] in HQ. rewrite (proj2 (entry_child mnt t (top l) name c Hok) Hc) in HQ.
    rewrite (at_stk _ _ _ Hat). dstep. eapply push_ok; [done|done|done|done|done|]. intros s2 Hns2 Hk2 Hm2. dstep. dstep; [apply negb_true_iff, Z.eqb_neq; by destruct (to_type _ _ Hok c nc Hnc) as [-> | ->]|].
    specialize (IH c (set_ni_instk (stk_of t (c :: l)) (set_ni_inos name (ni_ino ni) c ni)) s2 Hc). cbn [top] in IH. rewrite Hnc in IH. apply IH; [| |done|done].
    + eapply going_mono; [exact Hg|done|eapply keeps_trans; [exact Hk'|exact Hk2]| |done|]; [intros j [->|[->|Hj]%elem_of_cons]%elem_of_cons; [|done|]; apply Hk2, Hk', (go_mem _ _ _ Hg); set_solver|].
      unfold full_path, strlen. cbn [top DirView.path_str]. destruct (chain_pos mnt t c c l Hok) as [_ Hc0]; [by eapply chain_up_child|]. rewrite (proj2 (Z.eqb_neq c 0)), (name_of_child t (top l) name c), length_app by done. simpl. lia.
    + split; cbn [ni_instk set_ni_instk set_ni_inos ni_ino ni_par_ino ni_srch_name top tail]; [done|by eapply chain_up_child|done|by apply (at_ino t)|by rewrite (name_of_child t (top l) name c)].
  - intros s' Hns' Hk' Hty. rewrite (proj2 (Z.eqb_neq (n_type nd) PFS_INODET_DIR)) in HQ by done. cbn [negb] in HQ. change (- ENOTDIR =? 0) with false. change (- ENOTDIR =? - ENOENT) with false. cbn iota zeta. cbn [negb].
    apply runs_ret. eapply (HQ _ _ s' l); [done| |by apply Hat|done|done]. eapply going_mono; [exact Hg|done|done|eapply on_mem_keeps; [apply Hg|done]|done|apply Hg].
  - intros s' Hns' Hk' Hty Hno. rewrite Hty, Z.eqb_refl in HQ. cbn [negb] in HQ. rewrite (proj2 (entry_none mnt t (top l) name Hok) Hno) in HQ. change (- ENOENT =? 0) with false. cbn iota zeta. rewrite Z.eqb_refl. cbn [negb].
    assert (Hg' : going l (set_ni_inos name (ni_ino ni) INVALID_INO ni) s') by (eapply going_mono; [exact Hg|done|done|eapply on_mem_keeps; [apply Hg|done]|done|apply Hg]).
    destruct names as [|n2 names]; cbn [namei_loop].
    + rewrite Hty. apply runs_ret, HQ; [by destruct Hg'| |done|done]. split; cbn [set_ni_broken set_ni_inos ni_instk ni_ino ni_par_ino ni_srch_name]; try done; [apply Hat|apply Hat|by rewrite isdir_type; unfold type_of; rewrite Hnd, Hty].
    + dstep. dstep; [apply Z.eqb_refl|]. apply runs_ret. eapply (HQ _ _ s' l); [done|done|apply Hat|done|done].
Qed.

Lemma loop_ok names : Forall comp_ok names -> forall l ni s (Q : nameinfo * Z * Z -> dstate (N * mems) -> Prop), going l ni s -> at_node t l ni -> ni_broken_path ni = ni_broken_path ni0 ->
  (length (path_str t l) + room names < Z.to_nat PFS_MAX_PATHLEN)%nat -> looked (walk t max l names) Q -> runs (namei_loop max names ni (type_of t (top l)) 0 false) s Q.
Proof.
  induction 1 as [|name names Hname Hnames IH]; intros l ni s Q Hg Hat Hbr Hroom HQ; cbn [namei_loop walk] in *.
  { apply runs_ret, HQ; [by destruct Hg|by destruct Hat|done]. }
  pose proof (go_ns _ _ _ Hg) as Hns. pose proof (no_tree _ _ _ _ Hns) as Hok. pose proof (at_chain _ _ _ Hat) as Hch. destruct (chain_node mnt t _ _ Hok Hch) as [nd Hnd].
  rewrite isdir_type in HQ. cbn [room foldr] in Hroom. destruct (strlen name >=? max) eqn:Hlen.
  { apply runs_ret. eapply (HQ ni _ s l); [done|done|apply Hat|done|done]. }
  dstep. eapply runs_lift; [rewrite (at_stk _ _ _ Hat); apply vec_top|]. dstep. dstep.
  { rewrite (at_par _ _ _ Hat), (at_ino _ _ _ Hat). apply andb_true_iff. rewrite !Z.geb_le. split; [by eapply top_pos, chain_tail|by eapply top_pos]. }
  case_bool_decide as Hdot; [|case_bool_decide as Hdd].
  - destruct (type_of t (top l) =? PFS_INODET_DIR); cbn [negb] in *; [|apply runs_ret, (HQ ni _ s l); [done|done|apply Hat|done|done]].
    apply IH; [done|done|done|fold (room names) in *; lia|done].
  - destruct (type_of t (top l) =? PFS_INODET_DIR) eqn:Hty; cbn [negb] in *; [|apply runs_ret, (HQ ni _ s l); [done|done|apply Hat|done|done]]. bool_prop.
    rewrite Hty. eapply up_ok; [done|done|done|]. intros ni' Hg' Hat' Hbr' Hty'. rewrite <- Hty'. apply IH; [done|done|congruence| |done].
    fold (room names) in *. destruct l as [|c l]; cbn [tail DirView.path_str] in *; [lia|]. rewrite length_app in Hroom. simpl in Hroom. lia.
  - fold (room names) in *. eapply down_ok; [done|done|done|done| |bool_prop; lia|lia| |rewrite isdir_type; exact HQ].
    + unfold dotted, DOT, DOTDOT in *. by rewrite !bool_decide_false.
    + intros c ni' s' Hc Hg' Hat' Hbr' HQ'. apply IH; [done|done|done| |done]. cbn [DirView.path_str]. rewrite length_app, (name_of_child t (top l) name c) by done. simpl. lia.
Qed.
End NameiOps.

(** ** Components of a string *)
Lemma strtok_ok s : forall cur, Forall (fun b => b <> 0) s -> Forall (fun b => b <> 0) cur -> SLASH ∉ cur -> Forall comp_ok (strtok cur s).
Proof.
  induction s as [|x s IH]; intros cur Hs Hcur Hsl; cbn [strtok].
  - case_bool_decide; [constructor|]. by repeat constructor.
  - apply Forall_cons in Hs as [Hx Hs]. destruct (Z.eqb_spec x SLASH) as [->|Hne].
    + case_bool_decide; [apply IH; [done|constructor|apply not_elem_of_nil]|]. constructor; [by repeat constructor|]. apply IH; [done|constructor|apply not_elem_of_nil].
    + apply IH; [done|apply Forall_app; by repeat constructor|]. rewrite elem_of_app, list_elem_of_singleton. intros [?|?]; [done|congruence].
Qed.
Lemma strtok_room s : forall cur, (room (strtok cur s) <= S (length cur + length s))%nat.
Proof.
  induction s as [|x s IH]; intros cur; cbn [strtok].
  - case_bool_decide; simpl; lia.
  - destruct (x =? SLASH).
    + case_bool_decide; [|cbn [room foldr]; fold (room (strtok [] s))]; pose proof (IH []); simpl in *; lia.
    + pose proof (IH (cur ++ [x])) as Hi. rewrite length_app in Hi. simpl in *. lia.
Qed.
Lemma strtok_slash s : (room (strtok [] (SLASH :: s)) <= length (SLASH :: s))%nat.
Proof. cbn [strtok]. rewrite Z.eqb_refl. case_bool_decide; [|done]. pose proof (strtok_room s []). simpl in *. lia. Qed.

(** ** Lookup *)
Section Lookup.
Context {N : Type} `{NCacheLaws N} (mnt : pfs_mount) (mnt_pbdname : list Z).
Implicit Types (s : dstate (N * mems)).
Abbreviation stk_of := (stk_of mnt_pbdname).

Definition maxnamelen : Z := match pfs_version_has_features mnt PFS_FEATURE_EXTNAME with Some true => PFS_MAX_NAMELEN | _ => PFS_MAX_NAMELEN_OLD end.
(** As [pfs_namei_init] leaves it. *)
Record fresh_ni (ni : nameinfo) : Prop := {
  fn_stk : ni_instk ni = instk_init;
  fn_ino : ni_ino ni = 0;
  fn_par : ni_par_ino ni = 0;
  fn_srch : ni_srch_name ni = [];
  fn_broken : ni_broken_path ni = true;
  fn_slash : head (ni_path ni) = Some SLASH;
  fn_bytes : Forall (fun b => b <> 0) (ni_path ni);
  fn_len : strlen mnt_pbdname + 1 + strlen (ni_path ni) < PFS_MAX_PATHLEN }.

Definition resolve (t : tree) (ni : nameinfo) : walked := walk t maxnamelen [] (strtok [] (ni_path ni)).
Definition found_err (t : tree) (tgt_type oflags : Z) (l : list Z) : Z :=
  if Z.land oflags (Z.lor O_EXCL O_CREAT) =? Z.lor O_EXCL O_CREAT then - EEXIST
  else if negb (tgt_type =? PFS_INODET_NONE) && negb (type_of t (top l) =? tgt_type) then (if isdir t (top l) then - EISDIR else - ENOTDIR)
  else 0.

Lemma comp_name_ok name : comp_ok name -> dotted name = false -> strlen name < maxnamelen -> name_ok mnt name.
Proof.
  intros (Hne & Hsl & Hb) Hdot Hlen. unfold maxnamelen in Hlen. assert (Hlong : strlen name < PFS_MAX_NAMELEN) by (destruct (pfs_version_has_features _ _) as [[]|]; unfold PFS_MAX_NAMELEN, PFS_MAX_NAMELEN_OLD in *; lia).
  split_and!; [by split|done|done|done|]. destruct (forward_cases name) as [[_ ?]|[Hl _]]; [by left|right]. unfold extname. destruct (pfs_version_has_features _ _) as [[]|]; [done|..]; unfold PFS_MAX_NAMELEN_OLD, strlen in Hlen; lia.
Qed.
Lemma root_push s t dn stk (Q : instack -> dstate (N * mems) -> Prop) : ns_ok mnt s t dn -> stk = instk_init -> strlen mnt_pbdname + 1 < PFS_MAX_PATHLEN ->
  (forall s', ns_ok mnt s' t dn -> keeps (s_ins s) (s_ins s') -> is_Some (s_ins s' !! 0) -> Q (stk_of t []) s') -> runs (instk_push stk 0 (btime_of t 0) mnt_pbdname) s Q.
Proof.
  intros Hns -> Hlen HQ. unfold instk_push, instk_init. cbn [s_vec s_path s_nextpos length Nat.eqb negb orb]. dstep. dstep; [done|]. dstep. eapply get_ok; [exact Hns|]. intros s' Hns' Hk' Hs'. dstep. dstep.
  { apply andb_true_iff. split; [apply Z.gtb_lt; unfold strlen; lia|apply Z.ltb_lt; simpl; lia]. }
  apply runs_ret. specialize (HQ s' Hns' Hk' Hs'). unfold NameiInv.stk_of, full_path in HQ. cbn [top Z.eqb DirView.path_str vec_of app fmap list_fmap rev] in HQ.
  replace (0 + Z.to_nat (1 + strlen mnt_pbdname))%nat with (length (SLASH :: mnt_pbdname)) by (unfold strlen; simpl; lia). exact HQ.
Qed.

Context (t : tree) (dn : Z -> Z).
(** What a lookup returns for what the path resolves to. *)
Definition lookup_post (k0 : gmap Z dinode) (ni0 : nameinfo) (oflags : Z) (w : walked) (Q : Z * lookup_res -> dstate (N * mems) -> Prop) : Prop :=
  match w with
  | Found l =>
      forall r s, going mnt mnt_pbdname t dn k0 ni0 l (lr_ni r) s -> at_node mnt_pbdname t l (lr_ni r) -> ni_broken_path (lr_ni r) = false ->
      (found_err t (ni_tgt_type ni0) oflags l = 0 -> lr_dirin r = Some (top (tail l)) /\ lr_tgtin r = Some (top l) /\ lr_type r = type_of t (top l) /\
         ni_par_btime (lr_ni r) = btime_of t (top (tail l)) /\ ni_btime (lr_ni r) = btime_of t (top l)) ->
      Q (found_err t (ni_tgt_type ni0) oflags l, r) s
  | Missing l name =>
      forall r s, going mnt mnt_pbdname t dn k0 ni0 l (lr_ni r) s -> no_node mnt_pbdname t l name (lr_ni r) -> name_ok mnt name -> ni_broken_path (lr_ni r) = false ->
      lr_dirin r = Some (top l) -> lr_tgtin r = None -> ni_par_btime (lr_ni r) = btime_of t (top l) -> Q (- ENOENT, r) s
  | Wrong err =>
      forall r s l, err < 0 -> going mnt mnt_pbdname t dn k0 ni0 l (lr_ni r) s -> ni_instk (lr_ni r) = stk_of t l -> chain t (top l) l -> ni_broken_path (lr_ni r) = true -> Q (err, r) s
  end.

Lemma finish_found s k0 ni0 oflags l ni (Q : Z * lookup_res -> dstate (N * mems) -> Prop) : going mnt mnt_pbdname t dn k0 ni0 l ni s -> at_node mnt_pbdname t l ni -> ni_broken_path ni = false ->
  lookup_post k0 ni0 oflags (Found l) Q -> runs (namei_finish ni (type_of t (top l)) 0 oflags) s Q.
Proof.
  intros Hg Hat Hbr HQ. pose proof (no_tree _ _ _ _ (go_ns _ _ _ _ _ _ _ _ _ Hg)) as Hok. pose proof (at_chain _ _ _ _ Hat) as Hch. destruct (chain_node mnt t _ _ Hok Hch) as [nd Hnd].
  destruct (go_asked _ _ _ _ _ _ _ _ _ Hg) as (_ & _ & Htgt). unfold lookup_post, found_err in HQ. rewrite <- Htgt, (isdir_type t) in HQ. unfold namei_finish. change (0 <? 0) with false. cbn iota.
  pose proof (top_pos mnt t dn s l (go_ns _ _ _ _ _ _ _ _ _ Hg) Hch) as Hpos. dstep. dstep.
  { rewrite Hbr, (at_ino _ _ _ _ Hat), (proj2 (Z.eqb_neq (top l) INVALID_INO)) by (unfold INVALID_INO; lia). done. }
  destruct (Z.land oflags (Z.lor O_EXCL O_CREAT) =? Z.lor O_EXCL O_CREAT); [apply runs_ret, HQ; done|].
  assert (Hnn : (type_of t (top l) =? PFS_INODET_NONE) = false) by (unfold type_of; rewrite Hnd; apply Z.eqb_neq; by destruct (to_type _ _ Hok _ nd Hnd) as [-> | ->]).
  rewrite Hnn. cbn [negb andb]. destruct (negb (ni_tgt_type ni =? PFS_INODET_NONE) && negb (type_of t (top l) =? ni_tgt_type ni)).
  - apply runs_ret, HQ; try done. by destruct (type_of t (top l) =? PFS_INODET_DIR).
  - rewrite (at_stk _ _ _ _ Hat). dstep. eapply runs_lift; [apply vec_parent|]. dstep. eapply runs_lift; [apply vec_top|]. apply runs_ret. cbn [fst snd].
    apply HQ; [by destruct Hg|by destruct Hat|done|]. intros _. by split_and!.
Qed.
Lemma lookup_ok s ni oflags (Q : Z * lookup_res -> dstate (N * mems) -> Prop) : is_Some (pfs_version_has_features mnt PFS_FEATURE_EXTNAME) -> ns_ok mnt s t dn -> fresh_ni ni ->
  (Z.land oflags O_CREAT <> 0 -> ni_tgt_type ni = PFS_INODET_DIR \/ ni_tgt_type ni = PFS_INODET_FILE) ->
  lookup_post (s_ins s) ni oflags (resolve t ni) Q -> runs (pfs_namei_lookup mnt mnt_pbdname ni oflags) s Q.
Proof.
  intros [f Hf] Hns Hfr Hcr HQ. pose proof Hns as [[xs Hr] Hok _ _ _]. pose proof (fn_len _ Hfr) as Hlen. unfold pfs_namei_lookup. dstep. eapply runs_lift; [exact Hf|].
  replace (if f then PFS_MAX_NAMELEN else PFS_MAX_NAMELEN_OLD) with maxnamelen by (unfold maxnamelen; rewrite Hf; by destruct f).
  destruct (to_root _ _ Hok) as (nd & Hn0 & Ht0 & _). assert (Htr : type_of t 0 = PFS_INODET_DIR) by (unfold type_of; by rewrite Hn0). dstep. eapply runs_node; [done..|]. intros ino _ _ Hb _ _.
  replace (in_btime ino) with (btime_of t 0) by (unfold btime_of; by rewrite Hn0). dstep. eapply root_push; [done|apply Hfr|unfold strlen in *; lia|]. intros s1 Hns1 Hk1 Hm1. dstep.
  assert (Hcs : Forall comp_ok (strtok [] (ni_path ni))) by (apply strtok_ok; [apply Hfr|constructor|apply not_elem_of_nil]).
  rewrite <- Htr at 1. eapply (loop_ok mnt mnt_pbdname t dn maxnamelen (s_ins s) ni _ Hcs []).
  - split; [done|done|by intros j ->%list_elem_of_singleton|done|]. unfold full_path, strlen in *. cbn [top Z.eqb DirView.path_str]. rewrite length_app. destruct (ni_path ni) as [|x p] eqn:Ep; [by pose proof (fn_slash _ Hfr) as E; rewrite Ep in E|]. simpl in *. lia.
  - split; cbn [set_ni_instk ni_instk ni_ino ni_par_ino ni_srch_name top tail]; [done|constructor|apply Hfr|apply Hfr|by rewrite (fn_srch _ Hfr), (root_name mnt t Hok)].
  - done.
  - destruct (ni_path ni) as [|x p] eqn:Ep; [by pose proof (fn_slash _ Hfr) as E; rewrite Ep in E|]. pose proof (fn_slash _ Hfr) as E. rewrite Ep in E. cbn [head] in E. injection E as ->.
    pose proof (strtok_slash p). cbn [DirView.path_str]. unfold strlen in Hlen. cbn [length] in *. lia.
  - unfold resolve in HQ. destruct (walk t maxnamelen [] (strtok [] (ni_path ni))) as [l|l name|err]; cbn [looked].
    + intros ni' s' Hg Hat Hbr. by eapply finish_found.
    + intros ni' s' Hg Hno Hl Hbr. cbn beta iota. unfold namei_finish. change (- ENOENT <? 0) with true. rewrite Z.eqb_refl, Hbr. cbn [negb andb].
      pose proof (top_pos mnt t dn s' l (go_ns _ _ _ _ _ _ _ _ _ Hg) (nn_chain _ _ _ _ _ Hno)) as Hpos. dstep. dstep.
      { rewrite (nn_ino _ _ _ _ _ Hno), Z.eqb_refl, (nn_par _ _ _ _ _ Hno), andb_true_r. apply Z.geb_le. lia. }
      dstep. dstep.
      { destruct (go_asked _ _ _ _ _ _ _ _ _ Hg) as (_ & _ & ->). destruct (Z.eqb_spec (Z.land oflags O_CREAT) 0) as [|Hne]; [done|]. by destruct (Hcr Hne) as [-> | ->]. }
      rewrite (nn_stk _ _ _ _ _ Hno). dstep. eapply runs_lift; [apply vec_top|]. apply runs_ret. cbn [fst snd]. destruct (nn_name _ _ _ _ _ Hno) as [Hc Hd].
      apply HQ; cbn [lr_ni lr_dirin lr_tgtin]; [by destruct Hg|by destruct Hno|by apply comp_name_ok|done..].
    + intros ni' ty s' l Hneg Hg Hstk Hch Hbr. cbn beta iota. unfold namei_finish. rewrite (proj2 (Z.ltb_lt _ _) Hneg). cbn [set_ni_instk ni_broken_path] in Hbr. rewrite (fn_broken _ Hfr) in Hbr. rewrite Hbr, andb_false_r.
      apply runs_ret. by eapply HQ.
Qed.
End Lookup.
