(* ===== verification/Memdir.v ===== *)
(** * Operations on paths

    Model of the [pfs_memdir_*] functions of pfs_dir.cc and of the calls of
    pfs_api.cc on top of them.  An operation looks its path up, which may
    release the lock of the meta data, takes the lock of the directory, checks
    the path again and works on the index, inside a transaction; the part
    after the lookup is a definition of its own.

    One volume is mounted.  The locks have no state here: the model runs one
    thread between the points where another one may change the namespace. *)

From S2P Require Import Prelude Alloc Object Blkio Blktable NameCache Inode Dir Dx Namei.

Open Scope pfs_scope.

Definition set_ni_new (ino btime : Z) (ni : nameinfo) : nameinfo :=
  set_ni_btimes (ni_par_btime ni) btime (set_ni_inos (ni_srch_name ni) (ni_par_ino ni) ino ni).

Section Memdir.
Context {N : Type} `{NCacheOps N} (mnt : pfs_mount) (mnt_pbdname : list Z) (now : Z).
Abbreviation X := (dio (N * mems)).
Abbreviation pfs_path_enter := (pfs_namei_lookup mnt mnt_pbdname).
Abbreviation pfs_path_check := (pfs_namei_check_stale mnt_pbdname).
Abbreviation pfs_path_exit := pfs_namei_lookup_done.

(** ** Lookup and creation *)
Definition xlookup_add (ni : nameinfo) (dirin : Z) : X (Z * nameinfo) :=
  err ← pfs_inode_sync_dir true dirin PFS_INODET_DIR (ni_par_btime ni);
  if err <? 0 then mret (err, ni) else
  err ← pfs_path_check ni PFS_INODET_DIR;
  if err <? 0 then mret (err, ni) else
  r ← pfs_inode_dir_find dirin (ni_srch_name ni);
  let '(err, (ino, _, _)) := r in
  let ni := if err =? 0 then set_ni_inos (ni_srch_name ni) (ni_par_ino ni) ino ni else ni in
  let err := if err =? 0 then - EAGAIN else err in
  if (err <? 0) && negb (err =? - ENOENT) then mret (err, ni) else
  r ← pfs_inode_dir_add mnt now dirin (ni_srch_name ni) (ni_tgt_type ni =? PFS_INODET_DIR);
  let '(err, (ino, btime)) := r in
  mret (err, if err <? 0 then ni else set_ni_new ino btime ni).

(** With [O_CREAT], inside the transaction. *)
Definition xlookup_create (ni : nameinfo) (oflags : Z) : X (Z * nameinfo) :=
  r ← pfs_path_enter ni oflags;
  let '(err, res) := r in
  let ni := lr_ni res in
  r ← (if err =? 0 then
         err ← pfs_path_check ni (ni_tgt_type ni);
         mret (if (err =? 0) && negb (Z.land oflags O_EXCL =? 0) then - EEXIST else err, ni)
       else if (err =? - ENOENT) && negb (ni_broken_path ni) then
         dirin ← lift (lr_dirin res); xlookup_add ni dirin
       else mret (err, ni));
  let '(err, ni) := r in
  ni ← pfs_path_exit ni;
  mret (err, ni).
(** Without, [sync] is the result of [pfs_mount_sync] in [tls_read_begin], 0
    when there is no poll: a poll that fails skips everything up to
    [tls_read_end]. *)
Definition xlookup_read (sync : Z) (ni : nameinfo) (oflags : Z) : X (Z * nameinfo) :=
  if negb (sync =? 0) then mret (sync, ni) else
  r ← pfs_path_enter ni oflags;
  let '(err, res) := r in
  let ni := lr_ni res in
  err ← (if err =? 0 then pfs_path_check ni (ni_tgt_type ni) else mret err);
  ni ← pfs_path_exit ni;
  mret (err, ni).
(** [committed] is what the log answers to the commit or to the poll. *)
Definition pfs_memdir_xlookup (committed : Z) (undone : list Z) (ni : nameinfo) (oflags : Z) : X (Z * nameinfo) :=
  if negb (Z.land oflags O_CREAT =? 0) then tls_write committed undone (xlookup_create ni oflags)
  else xlookup_read committed ni oflags.

(** ** Removal *)
Definition xremove_locked (ni : nameinfo) (dirin in_ : Z) : X Z :=
  err ← pfs_inode_sync_dir true dirin PFS_INODET_DIR (ni_par_btime ni);
  err ← (if err =? 0 then pfs_path_check ni (ni_tgt_type ni) else mret err);
  if err =? 0 then pfs_inode_dir_del mnt dirin in_ (ni_srch_name ni) (ni_tgt_type ni =? PFS_INODET_DIR) else mret err.
Definition pfs_memdir_xremove (committed : Z) (undone : list Z) (ni : nameinfo) : X (Z * nameinfo) :=
  tls_write committed undone
    (r ← pfs_path_enter ni 0;
     let '(err, res) := r in
     let ni := lr_ni res in
     err ← (if err =? 0 then dirin ← lift (lr_dirin res); in_ ← lift (lr_tgtin res); xremove_locked ni dirin in_ else mret err);
     ni ← pfs_path_exit ni;
     mret (err, ni)).

(** ** Renaming *)
(** The result: whether a directory is renamed, the directories, the inode
    and the one at the new path. *)
Definition pfs_memdir_before_rename (oldnamei newnamei : nameinfo) : X (Z * (nameinfo * nameinfo) * option (bool * Z * Z * Z * Z)) :=
  r ← pfs_path_enter oldnamei 0;
  let '(err, ores) := r in
  let oldnamei := lr_ni ores in
  if err <? 0 then mret (err, (oldnamei, newnamei), None) else
  odirin ← lift (lr_dirin ores);
  oin ← lift (lr_tgtin ores);
  if oin =? 0 then mret (- EBUSY, (oldnamei, newnamei), None) else
  let type := lr_type ores in
  let newnamei := set_ni_tgt_type type newnamei in
  r ← pfs_path_enter newnamei 0;
  let '(err, nres) := r in
  let newnamei := lr_ni nres in
  let isdir := type =? PFS_INODET_DIR in
  if err =? 0 then
    ndirin ← lift (lr_dirin nres);
    nin ← lift (lr_tgtin nres);
    if nin =? 0 then mret (- EBUSY, (oldnamei, newnamei), None)
    else mret (0, (oldnamei, newnamei), Some (isdir, odirin, oin, ndirin, nin))
  else if err =? - ENOENT then
    if ni_broken_path newnamei then mret (err, (oldnamei, newnamei), None)
    else ndirin ← lift (lr_dirin nres); mret (0, (oldnamei, newnamei), Some (isdir, odirin, oin, ndirin, INVALID_INO))
  else mret (err, (oldnamei, newnamei), None).

Definition xrename_locked (oldni newni : nameinfo) (isdir : bool) (odirin oino ndirin nino : Z) : X Z :=
  err ← pfs_inode_sync_dir true odirin PFS_INODET_DIR (ni_par_btime oldni);
  if err <? 0 then mret err else
  err ← (if negb (ndirin =? odirin) then pfs_inode_sync_dir true ndirin PFS_INODET_DIR (ni_par_btime newni) else mret err);
  if err <? 0 then mret err else
  let type := if isdir then PFS_INODET_DIR else PFS_INODET_FILE in
  err ← pfs_path_check oldni type;
  if err <? 0 then mret err else
  err ← pfs_path_check newni (if nino =? INVALID_INO then PFS_INODET_DIR else type);
  if err <? 0 then mret err else
  err ← (if nino =? INVALID_INO then
           r ← pfs_inode_dir_find ndirin (ni_srch_name newni);
           let err := if fst r =? 0 then - EAGAIN else fst r in
           if (err <? 0) && negb (err =? - ENOENT) then mret err
           else assert_ (err =? - ENOENT);; mret 0
         else mret 0);
  if err <? 0 then mret err else
  pfs_inode_dir_rename mnt now isdir odirin oino (ni_srch_name oldni) ndirin nino (ni_srch_name newni).
Definition pfs_memdir_xrename (committed : Z) (undone : list Z) (oldni newni : nameinfo) : X (Z * (nameinfo * nameinfo)) :=
  tls_write committed undone
    (r ← pfs_memdir_before_rename oldni newni;
     let '(err, (oldni, newni), found) := r in
     err ← (if err <? 0 then mret err else
            f ← lift found;
            let '(isdir, odirin, oino, ndirin, nino) := f in
            xrename_locked oldni newni isdir odirin oino ndirin nino);
     oldni ← pfs_path_exit oldni;
     newni ← pfs_path_exit newni;
     mret (err, (oldni, newni))).

(** ** Reading *)
Definition pfs_memdir_xopen (sync : Z) (ni : nameinfo) : X (Z * nameinfo * option pfs_dirstream) :=
  if negb (sync =? 0) then mret (sync, ni, None) else
  r ← pfs_path_enter ni 0;
  let '(err, res) := r in
  let ni := lr_ni res in
  r ← (if err =? 0 then
         in_ ← lift (lr_tgtin res);
         err ← pfs_inode_sync_dir true in_ (ni_tgt_type ni) (ni_btime ni);
         err ← (if err =? 0 then pfs_path_check ni (ni_tgt_type ni) else mret err);
         if err =? 0 then dir ← pfs_dir_open in_; mret (err, Some dir) else mret (err, None)
       else mret (err, None));
  let '(err, dir) := r in
  ni ← pfs_path_exit ni;
  mret (err, ni, dir).
Definition pfs_memdir_xread (dir : pfs_dirstream) : X (Z * option (Z * list Z) * pfs_dirstream) :=
  r ← pfs_dir_read dir;
  let '(err, de, dir) := r in
  if err =? 0 then mret (0, Some de, dir)
  else if err =? PFS_DIR_END then mret (0, None, dir) else mret (err, None, dir).

(** ** The work directory *)
Definition pfs_dir_setwd (ino btime : Z) (work_dir : list Z) : X (Z * list Z) :=
  r ← pfs_dir_path mnt_pbdname ino PFS_MAX_PATHLEN btime;
  let '(err, pathbuf) := r in
  if err <? 0 then mret (err, work_dir) else
  assert_ (negb (err =? PFS_DE_UNLINKED));;
  assert_ (0 <? strlen pathbuf);;
  mret (0, pathbuf).
Definition pfs_memdir_xsetwd (sync : Z) (ni : nameinfo) (work_dir : list Z) : X (Z * list Z) :=
  if negb (sync =? 0) then mret (sync, work_dir) else
  r ← pfs_path_enter ni 0;
  let '(err, res) := r in
  let ni := lr_ni res in
  r ← (if err =? 0 then
         in_ ← lift (lr_tgtin res);
         err ← pfs_inode_sync_dir true in_ (ni_tgt_type ni) (ni_btime ni);
         err ← (if err =? 0 then pfs_path_check ni (ni_tgt_type ni) else mret err);
         if err =? 0 then pfs_dir_setwd in_ (ni_btime ni) work_dir else mret (err, work_dir)
       else mret (err, work_dir));
  let '(err, work_dir) := r in
  ni ← pfs_path_exit ni;
  mret (err, work_dir).
End Memdir.
