(* ===== verification/MemdirOps.v ===== *)
(** * Operations on paths: the part under the locks

    Whatever happened to the namespace since the lookup, the part of an
    operation after it works on the nodes its path names now, or fails and
    changes nothing. *)

From S2P Require Import Prelude Alloc Object Blkio Blktable NameCache Inode Dir DirBase DirName DirInv DirStep DirTree DirOps DirView Dx DxInv DxOps DxTx DxSteps DxRename Namei NameiInv NameiOps Memdir.

Open Scope pfs_scope.

Section Locked.
Context {N : Type} `{NCacheLaws N} (mnt : pfs_mount) (mnt_pbdname : list Z) (now : Z).
Implicit Types (s : dstate (N * mems)) (t : tree).
Abbreviation path_str := (path_str mnt_pbdname).
Abbreviation full_path := (full_path mnt_pbdname).
Abbreviation stk_of := (stk_of mnt_pbdname).
Abbreviation stk_valid := (stk_valid mnt_pbdname).

(** ** Steps *)
Lemma check_stale_ok s t dn ni type (Q : Z -> dstate (N * mems) -> Prop) : ns_ok mnt s t dn -> stk_wf s (ni_instk ni) ->
  (forall l, stk_valid t (ni_instk ni) type l -> Q 0 s) -> ((forall l, ~ stk_valid t (ni_instk ni) type l) -> Q (- EAGAIN) s) ->
  runs (pfs_namei_check_stale mnt_pbdname ni type) s Q.
Proof.
  intros [[xs Hr] Hok _ _ _] Hwf Hyes Hno. unfold pfs_namei_check_stale. dstep. eapply isvalid_ok; [done|done|done|]. intros [] Hb; apply runs_ret.
  - destruct (proj1 Hb eq_refl) as [l Hl]. by eapply Hyes.
  - apply Hno. intros l Hl. assert (false = true) by (apply Hb; by exists l). done.
Qed.
(** What the check says of the inode at the top and its directory. *)
Lemma valid_top t stk type l : stk_valid t stk type l ->
  instk_top stk = Some (top l, btime_of t (top l)) /\ instk_parent_of_top stk = Some (top (tail l), btime_of t (top (tail l))).
Proof.
  intros (_ & Hv & _). pose proof (vec_top mnt_pbdname t l) as Ht. pose proof (vec_parent mnt_pbdname t l) as Hp. unfold instk_top, instk_parent_of_top, stk_of in *.
  cbn [s_vec] in Ht, Hp. by rewrite Hv.
Qed.
Lemma sync_ok s t dn d btime (Q : Z -> dstate (N * mems) -> Prop) : ns_ok mnt s t dn -> is_Some (os_objs (ds_in s) !! d) -> is_Some (s_ins s !! d) ->
  (forall s' di, ns_ok mnt s' t dn -> keeps (s_ins s) (s_ins s') -> ds_in s' = ds_in s -> s_ins s' !! d = Some di -> (sync_err t d PFS_INODET_DIR btime = 0 -> di_stale di = false) ->
     (forall j dj, j <> d -> s_ins s !! j = Some dj -> s_ins s' !! j = Some dj) -> Q (sync_err t d PFS_INODET_DIR btime) s') -> runs (pfs_inode_sync_dir true d PFS_INODET_DIR btime) s Q.
Proof.
  intros Hns Hio [di Hdi] HQ. pose proof Hns as [[xs Hr] Hok Hco Hms Hcb]. eapply sync_dir_ok; [done..|]. intros ins' di' Hg Hdi' Hms' Hst. eapply HQ; [by apply ns_with_ins| |done|exact Hdi'|done|].
  - eapply mgrow_keeps; [exact Hg|by eexists].
  - intros j dj Hj Hdj. by eapply (proj1 Hg).
Qed.
Lemma sync_err_neg t d type btime : sync_err t d type btime <= 0.
Proof. unfold sync_err, ENOENT, EISDIR, ENOTDIR. destruct (t !! d) as [nd|]; [|lia]. destruct (negb (n_btime nd =? btime)); [lia|]. destruct (_ && _); [|lia]. destruct (type =? PFS_INODET_FILE); lia. Qed.
Lemma sync_err_zero t d btime : sync_err t d PFS_INODET_DIR btime = 0 -> exists nd, t !! d = Some nd /\ n_type nd = PFS_INODET_DIR /\ n_btime nd = btime.
Proof.
  unfold sync_err. destruct (t !! d) as [nd|]; [|done]. destruct (Z.eqb_spec (n_btime nd) btime) as [|]; [|done]. change (PFS_INODET_DIR =? PFS_INODET_NONE) with false. cbn [negb andb].
  destruct (Z.eqb_spec (n_type nd) PFS_INODET_DIR); [|done]. intros _. by exists nd.
Qed.
Lemma stk_wf_objs s s' stk : stk_wf s stk -> ds_in s' = ds_in s -> stk_wf s' stk.
Proof. intros [? ?] E. split; [done|]. by rewrite E. Qed.

(** The operation returns another value. *)
Lemma tx_post_map {T U} committed k0 t dn (Q0 : Z * T -> dstate (N * mems) -> Prop) (Q : Z * U -> dstate (N * mems) -> Prop) err v u s1 :
  (forall e s2, (e < 0 \/ (0 <= err /\ e = 0)) -> Q0 (e, v) s2 -> Q (e, u) s2) -> tx_post mnt committed k0 t dn Q0 (err, v) s1 -> committed <= 0 -> tx_post mnt committed k0 t dn Q (err, u) s1.
Proof.
  intros Hm (A & B & C & D & E) Hcom. cbn [fst snd] in *. split_and!; try done; cbn [fst snd].
  - intros Hn s2 Hs2 Hk2. apply Hm; [|by apply D]. destruct (Z.ltb_spec err 0); lia.
  - intros Hp Hc. destruct (E Hp Hc) as (t' & dn' & xs' & ? & ? & ? & ? & HQ). exists t', dn', xs'. split_and!; try done. intros s2 Hs2 Hk2. apply Hm; [right; lia|by apply HQ].
Qed.

(** ** Removal *)
(** The request fits its stack: the inode at the top, the directory below it
    and the last component of the path. *)
Record request (ni : nameinfo) (d i : Z) : Prop := {
  rq_top : exists b, instk_top (ni_instk ni) = Some (i, b);
  rq_par : instk_parent_of_top (ni_instk ni) = Some (d, ni_par_btime ni);
  rq_name : i <> 0 -> exists p, s_path (ni_instk ni) = p ++ SLASH :: ni_srch_name ni /\ SLASH ∉ ni_srch_name ni }.

Lemma request_names t ni d i type l : tree_ok mnt t -> request ni d i -> stk_valid t (ni_instk ni) type l -> i <> 0 ->
  exists l', l = i :: l' /\ chain t d l' /\ child t d (ni_srch_name ni) i.
Proof.
  intros Hok Hrq Hv Hi0. destruct (valid_top _ _ _ _ Hv) as [Ht Hp]. destruct (rq_top _ _ _ Hrq) as [b Hb]. rewrite Hb in Ht. rewrite (rq_par _ _ _ Hrq) in Hp. injection Ht as Et _. injection Hp as Ep _.
  destruct Hv as (Hch & _ & Hpath & _). destruct l as [|c l]; [done|]. cbn [top tail] in *. subst c. exists l. inversion Hch as [|? nd d' nm l' Hc Hl Hch']; subst. pose proof (chain_top _ _ _ Hch') as E.
  rewrite <- E. split_and!; [done|done|]. exists nd. split; [done|]. destruct (rq_name _ _ _ Hrq Hi0) as (p & Hp' & Hs). rewrite Hpath in Hp'. unfold full_path in Hp'. rewrite (proj2 (Z.eqb_neq i 0)) in Hp' by done.
  cbn [DirView.path_str] in Hp'. rewrite (name_of_child t d' nm i) in Hp' by (by exists nd). apply slash_split in Hp' as [_ <-]; [done| |done]. eapply name_no_slash; [exact Hok|by exists nd].
Qed.

(** Why a removal fails. *)
Inductive remove_fails t (ni : nameinfo) (d i committed : Z) : Z -> Prop :=
| rf_sync : sync_err t d PFS_INODET_DIR (ni_par_btime ni) <> 0 -> remove_fails t ni d i committed (sync_err t d PFS_INODET_DIR (ni_par_btime ni))
| rf_stale : (forall l, ~ stk_valid t (ni_instk ni) (ni_tgt_type ni) l) -> remove_fails t ni d i committed (- EAGAIN)
| rf_root : i = 0 -> remove_fails t ni d i committed (- EINVAL)
| rf_del : i <> 0 -> child t d (ni_srch_name ni) i -> remove_fails t ni d i committed (del_err t d i (ni_tgt_type ni =? PFS_INODET_DIR))
| rf_commit : del_err t d i (ni_tgt_type ni =? PFS_INODET_DIR) = 0 -> i <> 0 -> remove_fails t ni d i committed committed.

Lemma xremove_locked_ok s t dn committed k0 ni d i (Q : Z * unit -> dstate (N * mems) -> Prop) : ns_ok mnt s t dn -> keeps k0 (s_ins s) -> committed <= 0 ->
  stk_wf s (ni_instk ni) -> is_Some (os_objs (ds_in s) !! d) -> is_Some (s_ins s !! d) -> request ni d i ->
  (forall err s2, err < 0 -> remove_fails t ni d i committed err -> ns_ok mnt s2 t dn -> keeps k0 (s_ins s2) -> Q (err, tt) s2) ->
  (forall s2 dn' l, committed = 0 -> stk_valid t (ni_instk ni) (ni_tgt_type ni) (i :: l) -> chain t d l -> child t d (ni_srch_name ni) i ->
     del_err t d i (ni_tgt_type ni =? PFS_INODET_DIR) = 0 -> ns_ok mnt s2 (t_remove d i t) dn' -> keeps k0 (s_ins s2) -> Q (0, tt) s2) ->
  runs (err ← xremove_locked mnt mnt_pbdname ni d i; mret (err, tt)) s (tx_post mnt committed k0 t dn Q).
Proof.
  intros Hns Hk Hcom Hwf Hio Hdi Hrq HE HQ. pose proof (no_tree _ _ _ _ Hns) as Hok. dstep. unfold xremove_locked. dstep. eapply sync_ok; [done..|]. intros s1 di Hns1 Hk1 Ein1 Hdi1 Hst1 _.
  assert (Hk01 : keeps k0 (s_ins s1)) by (by eapply keeps_trans). pose proof (sync_err_neg t d PFS_INODET_DIR (ni_par_btime ni)) as Hneg.
  assert (Hfail : forall err, err < 0 -> remove_fails t ni d i committed err -> tx_post mnt committed k0 t dn Q (err, tt) s1).
  { intros err He Hw. eapply tx_post_same; [done|done|done|]. intros s2 Hs2 Hk2. cbn [fst snd]. rewrite (proj2 (Z.ltb_lt _ _) He). by apply HE. }
  destruct (Z.eqb_spec (sync_err t d PFS_INODET_DIR (ni_par_btime ni)) 0) as [Hs0|Hs0].
  2: { dstep. dstep. rewrite (proj2 (Z.eqb_neq _ _) Hs0). apply runs_ret, runs_ret. apply Hfail; [lia|by constructor]. }
  dstep. eapply check_stale_ok; [done|by eapply stk_wf_objs| |].
  2: { intros Hno. change (- EAGAIN =? 0) with false. cbn iota. apply runs_ret, runs_ret, Hfail; [done|by apply rf_stale]. }
  intros l Hv. rewrite Z.eqb_refl. destruct (decide (i = 0)) as [->|Hi0].
  { unfold pfs_inode_dir_del. rewrite Z.eqb_refl. apply runs_ret, runs_ret, Hfail; [done|by apply rf_root]. }
  destruct (request_names t ni d i _ l Hok Hrq Hv Hi0) as (l' & -> & Hch & Hc). pose proof Hc as (ni_ & Hi & Hl). destruct (sync_err_zero _ _ _ Hs0) as (nd & Hd & Hty & _).
  apply runs_bind_inv. eapply inode_dir_del_ok; [done|done|done|done|done|done|by apply Hst1|done|done| |].
  - intros err s2 He Hw Hs2 Hk2. apply HE; [done| |done|done]. destruct Hw as [->|[? ->]]; [by apply rf_del|by apply rf_commit].
  - intros s2 dn' Hc0 Hde Hs2 Hk2. by eapply HQ.
Qed.

(** ** Creation *)
(** The stack ends at the directory. *)
Record add_request (ni : nameinfo) (d : Z) : Prop := {
  ar_top : instk_top (ni_instk ni) = Some (d, ni_par_btime ni);
  ar_name : name_ok mnt (ni_srch_name ni) }.
Inductive add_fails t (ni : nameinfo) (d committed : Z) : Z -> Prop :=
| af_sync : sync_err t d PFS_INODET_DIR (ni_par_btime ni) <> 0 -> add_fails t ni d committed (sync_err t d PFS_INODET_DIR (ni_par_btime ni))
| af_stale : (forall l, ~ stk_valid t (ni_instk ni) PFS_INODET_DIR l) -> add_fails t ni d committed (- EAGAIN)
| af_exists i : child t d (ni_srch_name ni) i -> add_fails t ni d committed (- EAGAIN)
| af_many : add_fails t ni d committed (- EPFS_FILE_2MANY)
| af_commit : add_fails t ni d committed committed.

Lemma xlookup_add_ok s t dn committed k0 ni d (Q : Z * nameinfo -> dstate (N * mems) -> Prop) : ns_ok mnt s t dn -> keeps k0 (s_ins s) -> committed <= 0 ->
  stk_wf s (ni_instk ni) -> is_Some (os_objs (ds_in s) !! d) -> is_Some (s_ins s !! d) -> add_request ni d ->
  (forall err ni' s2, err < 0 -> add_fails t ni d committed err -> ni_instk ni' = ni_instk ni -> ns_ok mnt s2 t dn -> keeps k0 (s_ins s2) -> Q (err, ni') s2) ->
  (forall s2 dn' l i, committed = 0 -> stk_valid t (ni_instk ni) PFS_INODET_DIR l -> d = top l -> (forall c, ~ child t d (ni_srch_name ni) c) -> t !! i = None ->
     ns_ok mnt s2 (t_create now d i (ni_tgt_type ni =? PFS_INODET_DIR) (ni_srch_name ni) t) dn' -> keeps k0 (s_ins s2) -> Q (0, set_ni_new i now ni) s2) ->
  runs (xlookup_add mnt mnt_pbdname now ni d) s (fun r s1 => ni_instk (snd r) = ni_instk ni /\ tx_post mnt committed k0 t dn Q r s1).
Proof.
  intros Hns Hk Hcom Hwf Hio Hdi Hrq HE HQ. pose proof (no_tree _ _ _ _ Hns) as Hok. unfold xlookup_add. dstep. eapply sync_ok; [done..|]. intros s1 di Hns1 Hk1 Ein1 Hdi1 Hst1 _.
  assert (Hk01 : keeps k0 (s_ins s1)) by (by eapply keeps_trans). pose proof (sync_err_neg t d PFS_INODET_DIR (ni_par_btime ni)) as Hneg.
  assert (Hfail : forall err ni' s', err < 0 -> add_fails t ni d committed err -> ni_instk ni' = ni_instk ni -> ns_ok mnt s' t dn -> keeps k0 (s_ins s') ->
    ni_instk (snd (err, ni')) = ni_instk ni /\ tx_post mnt committed k0 t dn Q (err, ni') s').
  { intros err ni' s' He Hw Hni Hs' Hk'. split; [done|]. eapply tx_post_same; [done|done|done|]. intros s2 Hs2 Hk2. cbn [fst snd]. rewrite (proj2 (Z.ltb_lt _ _) He). by apply HE. }
  destruct (Z.ltb_spec (sync_err t d PFS_INODET_DIR (ni_par_btime ni)) 0) as [Hs0|Hs0]; [apply runs_ret, Hfail; [done|constructor; lia|done..]|].
  assert (Hz : sync_err t d PFS_INODET_DIR (ni_par_btime ni) = 0) by lia. destruct (sync_err_zero _ _ _ Hz) as (nd & Hd & Hty & _). specialize (Hst1 Hz).
  dstep. eapply check_stale_ok; [done|by eapply stk_wf_objs| |].
  2: { intros Hno. change (- EAGAIN <? 0) with true. cbn iota. apply runs_ret, Hfail; [done|by apply af_stale|done..]. }
  intros l Hv. change (0 <? 0) with false. cbn iota. assert (El : d = top l) by (destruct (valid_top _ _ _ _ Hv) as [E _]; rewrite (ar_top _ _ Hrq) in E; congruence).
  pose proof Hns1 as [[xs1 Hr1] _ Hco1 Hms1 _]. pose proof (ar_name _ _ Hrq) as (_ & _ & _ & Hdot & _). dstep. eapply (dir_find_ok mnt s1 t dn xs1 d nd di); [done|done|done|done|done|done|by apply Hms1|done|done| |].
  - intros c i ni_ Hc Hch Hi. cbn beta iota. rewrite Z.eqb_refl. cbn zeta. change ((- EAGAIN <? 0) && negb (- EAGAIN =? - ENOENT)) with true. cbn iota.
    apply runs_ret, Hfail; [done|by eapply af_exists|done|by apply (ns_with_nc mnt s1 t dn c Hns1)|exact Hk01].
  - intros c Hc Hno. cbn beta iota zeta. change (- ENOENT =? 0) with false. cbn iota. change ((- ENOENT <? 0) && negb (- ENOENT =? - ENOENT)) with false. cbn iota.
    dstep. set (s1' := MkD _ _ _). pose proof (ns_with_nc mnt s1 t dn c Hns1 Hc) as Hns'. fold s1' in Hns'.
    eapply runs_mono; [eapply (inode_dir_add_ok mnt now s1' t dn committed k0 d nd di (ni_srch_name ni) _
      (fun r s2 => (fst r < 0 -> forall ni', ni_instk ni' = ni_instk ni -> Q (fst r, ni') s2) /\ (fst r = 0 -> Q (0, set_ni_new (fst (snd r)) (snd (snd r)) ni) s2)))|]; try done.
    + rewrite El. destruct (chain_head _ _ _ (proj1 Hv)) as [E|E]; [by left|by right].
    + apply Hrq.
    + intros err v s2 He Hw Hs2 Hk2. cbn [fst snd]. split; [|lia]. intros _ ni' Hni. apply HE; [done| |done..]. destruct Hw as [-> | ->]; [apply af_commit|apply af_many].
    + intros i s2 dn' Hc0 Hi Hs2 Hk2. cbn [fst snd]. split; [lia|]. intros _. by eapply HQ.
    + intros [err [i b]] s2 Hp. apply runs_ret. split; [by destruct (err <? 0)|]. eapply tx_post_map; [|exact Hp|done]. cbn [fst snd]. intros e s3 [He|[He ->]] [Hneg' Hzero]; [apply Hneg'; [done|by destruct (err <? 0)]|].
      rewrite (proj2 (Z.ltb_ge err 0)) by done. by apply Hzero.
Qed.

(** ** Renaming *)
(** The new path names [nino], or a directory without that entry. *)
Definition new_request (ni : nameinfo) (n nino : Z) : Prop := (nino = INVALID_INO /\ add_request ni n) \/ (0 < nino /\ request ni n nino).
Definition new_type (type nino : Z) : Z := if nino =? INVALID_INO then PFS_INODET_DIR else type.
Inductive rename_fails t (oldni newni : nameinfo) (type o i n nino committed : Z) : Z -> Prop :=
| nf_sync d ni : (d, ni) = (o, oldni) \/ (d, ni) = (n, newni) -> sync_err t d PFS_INODET_DIR (ni_par_btime ni) <> 0 ->
    rename_fails t oldni newni type o i n nino committed (sync_err t d PFS_INODET_DIR (ni_par_btime ni))
| nf_old : (forall l, ~ stk_valid t (ni_instk oldni) type l) -> rename_fails t oldni newni type o i n nino committed (- EAGAIN)
| nf_new : (forall l, ~ stk_valid t (ni_instk newni) (new_type type nino) l) -> rename_fails t oldni newni type o i n nino committed (- EAGAIN)
| nf_exists c : nino = INVALID_INO -> child t n (ni_srch_name newni) c -> rename_fails t oldni newni type o i n nino committed (- EAGAIN)
| nf_spec err : nino <> i -> child t o (ni_srch_name oldni) i -> rename_spec t o i n nino (ni_srch_name newni) err t -> rename_fails t oldni newni type o i n nino committed err
| nf_many : nino <> i -> rename_fails t oldni newni type o i n nino committed (- EPFS_FILE_2MANY)
| nf_commit : rename_fails t oldni newni type o i n nino committed committed.

(** What a valid new path means. *)
Lemma new_request_ok t ni n nino type i l : tree_ok mnt t -> new_request ni n nino -> i <> nino -> stk_valid t (ni_instk ni) (new_type type nino) l -> type <> PFS_INODET_NONE ->
  (nino = INVALID_INO -> forall c, ~ child t n (ni_srch_name ni) c) ->
  attached t n /\ target t i n nino (ni_srch_name ni) /\ name_ok mnt (ni_srch_name ni) /\ (nino <> INVALID_INO -> type_of t nino = type).
Proof.
  intros Hok [[-> Har]|[Hpos Hrq]] Hne Hv Hty Hno.
  - destruct (valid_top _ _ _ _ Hv) as [E _]. rewrite (ar_top _ _ Har) in E. injection E as -> _. split_and!; [destruct (chain_head _ _ _ (proj1 Hv)); [by left|by right]|by left; auto|apply Har|done].
  - assert (Hn0 : nino <> 0) by lia. unfold new_type in Hv. rewrite (proj2 (Z.eqb_neq nino INVALID_INO)) in Hv by (unfold INVALID_INO; lia).
    destruct (request_names t ni n nino type l Hok Hrq Hv Hn0) as (l' & -> & Hch & Hc). pose proof Hc as (nd & Hnd & Hl). split_and!; [destruct (chain_head _ _ _ Hch); [by left|by right]|by right|by eapply (to_name _ _ Hok)|].
    intros _. destruct Hv as (_ & _ & _ & _ & [?|?]); [done|done].
Qed.

Section RenameLocked.
Context (t : tree) (dn : Z -> Z) (committed : Z) (k0 : gmap Z dinode) (oldni newni : nameinfo) (isdir : bool) (o i n nino : Z) (Q : Z * unit -> dstate (N * mems) -> Prop).
Let type := if isdir then PFS_INODET_DIR else PFS_INODET_FILE.
Hypothesis Hcom : committed <= 0.
Hypothesis Hi0 : i <> 0.
Hypothesis Hold : request oldni o i.
Hypothesis Hnew : new_request newni n nino.
Hypothesis HE : forall err s2, err < 0 -> rename_fails t oldni newni type o i n nino committed err -> ns_ok mnt s2 t dn -> keeps k0 (s_ins s2) -> Q (err, tt) s2.
Hypothesis HQ : forall s2 t' dn', committed = 0 -> child t o (ni_srch_name oldni) i -> (exists l, stk_valid t (ni_instk oldni) type l) ->
  (exists l, stk_valid t (ni_instk newni) (new_type type nino) l) ->
  (nino = i /\ t' = t) \/ (nino <> i /\ rename_spec t o i n nino (ni_srch_name newni) 0 t') -> ns_ok mnt s2 t' dn' -> keeps k0 (s_ins s2) -> Q (0, tt) s2.

Lemma rename_fail err s : err < 0 -> rename_fails t oldni newni type o i n nino committed err -> ns_ok mnt s t dn -> keeps k0 (s_ins s) -> tx_post mnt committed k0 t dn Q (err, tt) s.
Proof.
  intros He Hw Hs Hk. eapply tx_post_same; [done|done|done|]. intros s2 Hs2 Hk2. cbn [fst snd]. rewrite (proj2 (Z.ltb_lt _ _) He). by apply HE.
Qed.
(** The paths are valid and the indexes in sync. *)
Lemma rename_checked s d1 d2 lo ln : ns_ok mnt s t dn -> keeps k0 (s_ins s) -> s_ins s !! o = Some d1 -> di_stale d1 = false -> s_ins s !! n = Some d2 -> di_stale d2 = false ->
  stk_valid t (ni_instk oldni) type lo -> stk_valid t (ni_instk newni) (new_type type nino) ln -> (nino = INVALID_INO -> forall c, ~ child t n (ni_srch_name newni) c) ->
  runs (err ← pfs_inode_dir_rename mnt now isdir o i (ni_srch_name oldni) n nino (ni_srch_name newni); mret (err, tt)) s (tx_post mnt committed k0 t dn Q).
Proof.
  intros Hns Hk H1 Hst1 H2 Hst2 Hvo Hvn Hno. pose proof (no_tree _ _ _ _ Hns) as Hok. destruct (request_names t oldni o i type lo Hok Hold Hvo Hi0) as (l' & -> & Hch & Hc). pose proof Hc as (nd & Hi & Hl).
  assert (Hty : type_of t i = type) by (destruct Hvo as (_ & _ & _ & _ & [E|E]); [unfold type in E; by destruct isdir|done]).
  assert (Htn : type <> PFS_INODET_NONE) by (unfold type; by destruct isdir). assert (Hbt : forall j, type_of t j = type -> DxInv.isdir t j = isdir) by (intros j E; rewrite isdir_type, E; unfold type; by destruct isdir).
  destruct (decide (nino = i)) as [E|Hne].
  - dstep. unfold pfs_inode_dir_rename. rewrite E, (proj2 (Z.eqb_neq i 0)), Z.eqb_refl by done. cbn [orb]. apply runs_ret, runs_ret. eapply tx_post_same; [done|done|done|]. intros s2 Hs2 Hk2. cbn [fst snd].
    change (0 <? 0) with false. cbn iota. destruct (decide (committed = 0)) as [Hc0|Hc0]; [|apply HE; [lia|apply nf_commit|done|done]]. rewrite Hc0. eapply HQ; [done|done|by eexists|by eexists|by left|done|done].
  - destruct (new_request_ok t newni n nino type i ln Hok Hnew (not_eq_sym Hne) Hvn Htn Hno) as (Hatt & Htg & Hnm & Hnt).
    eapply (inode_dir_rename_ok mnt now s t dn committed k0 o i nd); [done|done|done|done|done|done|done|done|done|done|done|done|by apply Hbt|intros En; by apply Hbt, Hnt| |].
    + intros err s2 He Hw Hs2 Hk2. apply HE; [done| |done|done]. destruct Hw as [->|[->|Hsp]]; [apply nf_commit|by apply nf_many|by apply nf_spec].
    + intros s2 t' dn' Hc0 Hsp Hs2 Hk2. eapply HQ; [done|done|by eexists|by eexists|by right|done|done].
Qed.

(** The checks with the locks held. *)
Lemma rename_tail_checked s d1 d2 : ns_ok mnt s t dn -> keeps k0 (s_ins s) -> s_ins s !! o = Some d1 -> di_stale d1 = false -> s_ins s !! n = Some d2 -> di_stale d2 = false ->
  stk_wf s (ni_instk oldni) -> stk_wf s (ni_instk newni) ->
  runs (err ← (err ← pfs_namei_check_stale mnt_pbdname oldni type;
               if err <? 0 then mret err else
               err ← pfs_namei_check_stale mnt_pbdname newni (new_type type nino);
               if err <? 0 then mret err else
               err ← (if nino =? INVALID_INO then
                        r ← pfs_inode_dir_find n (ni_srch_name newni);
                        let err := if fst r =? 0 then - EAGAIN else fst r in
                        if (err <? 0) && negb (err =? - ENOENT) then mret err
                        else assert_ (err =? - ENOENT);; mret 0
                      else mret 0);
               if err <? 0 then mret err else
               pfs_inode_dir_rename mnt now isdir o i (ni_srch_name oldni) n nino (ni_srch_name newni)); mret (err, tt)) s (tx_post mnt committed k0 t dn Q).
Proof.
  intros Hns Hk H1 Hst1 H2 Hst2 Hwo Hwn. dstep. dstep. eapply check_stale_ok; [done|done| |].
  2: { intros Hno. change (- EAGAIN <? 0) with true. cbn iota. apply runs_ret, runs_ret, rename_fail; [done|by apply nf_old|done|done]. }
  intros lo Hvo. change (0 <? 0) with false. cbn iota. dstep. eapply check_stale_ok; [done|done| |].
  2: { intros Hno. change (- EAGAIN <? 0) with true. cbn iota. apply runs_ret, runs_ret, rename_fail; [done|by apply nf_new|done|done]. }
  intros ln Hvn. change (0 <? 0) with false. cbn iota. destruct (Z.eqb_spec nino INVALID_INO) as [En|En].
  - pose proof Hns as [[xs Hr] Hok Hco Hms _]. assert (Har : add_request newni n) by (destruct Hnew as [[_ ?]|[? _]]; [done|unfold INVALID_INO in En; lia]). pose proof (ar_name _ _ Har) as (_ & _ & _ & Hdot & _).
    destruct (mi_live _ _ _ (Hms n d2 H2) Hst2) as (nd & Hn & _ & _ & _).
    assert (Hty : n_type nd = PFS_INODET_DIR).
    { destruct (valid_top _ _ _ _ Hvn) as [E _]. rewrite (ar_top _ _ Har) in E. injection E as E _. destruct Hvn as (_ & _ & _ & _ & Hf). unfold new_type, type_of, type_fits in Hf.
      rewrite (proj2 (Z.eqb_eq _ _) En), <- E, Hn in Hf. by destruct Hf. }
    dstep. dstep. eapply (dir_find_ok mnt s t dn xs n nd d2); [done|done|done|done|done|done|by apply Hms|done|done| |].
    + intros c j nj Hc Hch Hj. cbn beta iota zeta. cbn [fst]. rewrite Z.eqb_refl. change ((- EAGAIN <? 0) && negb (- EAGAIN =? - ENOENT)) with true. cbn iota. apply runs_ret. change (- EAGAIN <? 0) with true. cbn iota.
      apply runs_ret, runs_ret, rename_fail; [done|by eapply nf_exists|by apply ns_with_nc|exact Hk].
    + intros c Hc Hno. cbn beta iota zeta. cbn [fst]. change (- ENOENT =? 0) with false. cbn iota. change ((- ENOENT <? 0) && negb (- ENOENT =? - ENOENT)) with false. cbn iota. dstep. dstep; [apply Z.eqb_refl|]. apply runs_ret.
      change (0 <? 0) with false. cbn iota. apply runs_bind_inv. eapply rename_checked; [by apply ns_with_nc|exact Hk|exact H1|done|exact H2|done|done|done|done].
  - dstep. dstep. change (0 <? 0) with false. cbn iota. apply runs_bind_inv. by eapply rename_checked.
Qed.
Lemma xrename_locked_ok s : ns_ok mnt s t dn -> keeps k0 (s_ins s) -> stk_wf s (ni_instk oldni) -> stk_wf s (ni_instk newni) ->
  is_Some (os_objs (ds_in s) !! o) -> is_Some (s_ins s !! o) -> is_Some (os_objs (ds_in s) !! n) -> is_Some (s_ins s !! n) ->
  runs (err ← xrename_locked mnt mnt_pbdname now oldni newni isdir o i n nino; mret (err, tt)) s (tx_post mnt committed k0 t dn Q).
Proof.
  intros Hns Hk Hwo Hwn Hoo Hom Hno Hnm. dstep. unfold xrename_locked. fold type. fold (new_type type nino). dstep. eapply sync_ok; [done..|]. intros s1 d1 Hns1 Hk1 Ein1 Hd1 Hst1 _.
  assert (Hk01 : keeps k0 (s_ins s1)) by (by eapply keeps_trans). pose proof (sync_err_neg t o PFS_INODET_DIR (ni_par_btime oldni)) as Hneg.
  destruct (Z.ltb_spec (sync_err t o PFS_INODET_DIR (ni_par_btime oldni)) 0) as [Hs0|Hs0]; [apply runs_ret, runs_ret, rename_fail; [done|apply (nf_sync _ _ _ _ _ _ _ _ _ o oldni); [by left|lia]|done|done]|].
  assert (Hz : sync_err t o PFS_INODET_DIR (ni_par_btime oldni) = 0) by lia. specialize (Hst1 Hz). rewrite Hz. destruct (Z.eqb_spec n o) as [E|Hne]; cbn [negb].
  - dstep. dstep. change (0 <? 0) with false. cbn iota zeta. apply runs_bind_inv. eapply (rename_tail_checked s1 d1 d1); [done|done|done|done|by rewrite E|done|by eapply stk_wf_objs|by eapply stk_wf_objs].
  - dstep. eapply sync_ok; [done|by rewrite Ein1|by apply Hk1|]. intros s2 d2 Hns2 Hk2 Ein2 Hd2 Hst2 Hoth. assert (Hk02 : keeps k0 (s_ins s2)) by (by eapply keeps_trans).
    pose proof (sync_err_neg t n PFS_INODET_DIR (ni_par_btime newni)) as Hneg2.
    destruct (Z.ltb_spec (sync_err t n PFS_INODET_DIR (ni_par_btime newni)) 0) as [Hs2|Hs2]; [apply runs_ret, runs_ret, rename_fail; [done|apply (nf_sync _ _ _ _ _ _ _ _ _ n newni); [by right|lia]|done|done]|].
    cbn zeta. apply runs_bind_inv. eapply (rename_tail_checked s2 d1 d2); [done|done|by apply Hoth|done|done|apply Hst2; lia|eapply stk_wf_objs; [done|congruence]..].
Qed.
End RenameLocked.
End Locked.
