(* ===== verification/MemdirSpec.v ===== *)
(** * Operations on paths refine the namespace

    What creating, removing and renaming by path do to the tree of names when
    nothing interferes, errors included. *)

From S2P Require Import Prelude Alloc Object Blkio Blktable NameCache Inode Dir DirBase DirName DirInv DirStep DirTree DirOps DirView Dx DxInv DxOps DxTx DxSteps DxRename Namei NameiInv NameiOps Memdir MemdirOps.

Open Scope pfs_scope.

Section Paths.
Context {N : Type} `{NCacheLaws N} (mnt : pfs_mount) (mnt_pbdname : list Z) (now : Z).
Implicit Types (s : dstate (N * mems)) (t : tree).
Abbreviation full_path := (full_path mnt_pbdname).
Abbreviation stk_of := (stk_of mnt_pbdname).
Abbreviation stk_valid := (stk_valid mnt_pbdname).

(** ** The stack of a lookup in the namespace itself *)
Lemma chain_objs s t dn l j : ns_ok mnt s t dn -> chain t (top l) l -> j ∈ l ++ [0] -> 0 <= j /\ is_Some (os_objs (ds_in s) !! j).
Proof.
  intros [[xs Hr] Hok _ _ _] Hch Hj. assert (Hn : exists nd, t !! j = Some nd).
  { apply elem_of_app in Hj as [Hj|Hj%list_elem_of_singleton]; [|subst; destruct (to_root _ _ Hok) as (nd & ? & _); by exists nd].
    destruct (chain_mem _ _ _ _ Hch Hj) as [(nd & ? & _) _]. by exists nd. }
  destruct Hn as [nd Hnd]. split; [by apply (ino_range _ _ _ _ _ _ Hr Hnd)|]. destruct (r_node _ _ _ _ Hr j nd Hnd) as (mo & ? & _). by eexists.
Qed.
Lemma node_wf s t dn l : ns_ok mnt s t dn -> chain t (top l) l -> stk_wf s (stk_of t l).
Proof.
  intros Hns Hch. split.
  - exists (btime_of t 0). unfold NameiInv.stk_of, vec_of. cbn [s_vec]. by rewrite fmap_app, rev_app_distr.
  - apply Forall_forall. intros e He. unfold NameiInv.stk_of, vec_of in He. cbn [s_vec] in He. rewrite list_elem_of_In, <- in_rev, <- list_elem_of_In in He.
    apply list_elem_of_fmap in He as (c & -> & Hc). by eapply chain_objs.
Qed.
Lemma node_valid t l type : chain t (top l) l -> strlen (full_path t (top l) l) < PFS_MAX_PATHLEN -> type_fits type (type_of t (top l)) -> stk_valid t (stk_of t l) type l.
Proof. intros Hch Hlen Hf. by split_and!. Qed.
Lemma node_unique t l l' type : tree_ok mnt t -> chain t (top l) l -> stk_valid t (stk_of t l) type l' -> l' = l.
Proof.
  intros Hok Hch Hv. destruct (valid_top _ _ _ _ _ Hv) as [Ht _]. rewrite vec_top in Ht. injection Ht as Et _. destruct Hv as (Hch' & _). rewrite <- Et in Hch'.
  eapply chain_unique; [|exact Hch'|exact Hch]. apply (root_link _ _ Hok).
Qed.
Lemma node_sync t d nd : t !! d = Some nd -> n_type nd = PFS_INODET_DIR -> sync_err t d PFS_INODET_DIR (btime_of t d) = 0.
Proof. intros Hd Hty. unfold sync_err, btime_of. by rewrite Hd, Z.eqb_refl, Hty. Qed.
Lemma pop_all_ok t l : tree_ok mnt t -> chain t (top l) l -> pop_all (S (length l)) (stk_of t l) = Some instk_init.
Proof.
  intros Hok. induction l as [|c l IH]; intros Hch; cbn [pop_all]; unfold instk_size at 1, NameiInv.stk_of at 1; cbn [s_vec]; rewrite length_vec; cbn [Nat.eqb]; [done|].
  rewrite (pop_ok mnt mnt_pbdname t c l) by done. apply IH. by apply (chain_tail t (c :: l)).
Qed.
Lemma path_done_ok s t ni l (Q : nameinfo -> dstate (N * mems) -> Prop) : tree_ok mnt t -> chain t (top l) l -> ni_instk ni = stk_of t l -> Q (set_ni_instk instk_init ni) s ->
  runs (pfs_namei_lookup_done ni) s Q.
Proof.
  intros Hok Hch E HQ. unfold pfs_namei_lookup_done. rewrite E. unfold instk_size, NameiInv.stk_of at 1. cbn [s_vec]. rewrite length_vec. dstep. eapply runs_lift; [by eapply pop_all_ok|]. by apply runs_ret.
Qed.
Lemma node_request t l ni : tree_ok mnt t -> at_node mnt_pbdname t l ni -> ni_par_btime ni = btime_of t (top (tail l)) -> request ni (top (tail l)) (top l).
Proof.
  intros Hok Hat Hb. pose proof (at_chain _ _ _ _ Hat) as Hch. split; rewrite (at_stk _ _ _ _ Hat).
  - eexists. apply vec_top.
  - rewrite vec_parent. by rewrite Hb.
  - intros Hne. destruct l as [|c l]; [done|]. cbn [top] in *. inversion Hch as [|? nd d nm l' Hc Hl Hch']; subst. exists (path_str mnt_pbdname t l). rewrite (at_srch _ _ _ _ Hat). cbn [top].
    rewrite (name_of_child t d nm c) by (by exists nd). unfold NameiInv.stk_of, DirView.full_path. cbn [s_path top]. rewrite (proj2 (Z.eqb_neq c 0)) by done. cbn [DirView.path_str].
    rewrite (name_of_child t d nm c) by (by exists nd). split; [done|]. eapply name_no_slash; [exact Hok|by exists nd].
Qed.
Lemma top_dir t l nd : tree_ok mnt t -> chain t (top l) l -> t !! top (tail l) = Some nd -> n_type nd = PFS_INODET_DIR \/ l = [].
Proof. intros Hok Hch Hd. destruct (parent_dir mnt t l Hok Hch) as [E|E]; [left|by right]. unfold type_of in E. by rewrite Hd in E. Qed.
Lemma parent_sync t l : tree_ok mnt t -> chain t (top l) l -> sync_err t (top (tail l)) PFS_INODET_DIR (btime_of t (top (tail l))) = 0.
Proof.
  intros Hok Hch. destruct (chain_node mnt t _ _ Hok (chain_tail _ _ Hch)) as [nd Hd]. eapply node_sync; [exact Hd|]. destruct (top_dir t l nd Hok Hch Hd) as [?| ->]; [done|].
  destruct (to_root _ _ Hok) as (n0 & ? & ? & _). cbn [tail top] in Hd. congruence.
Qed.

(** ** Removal *)
Definition remove_err t (isd : bool) (l : list Z) : Z := match l with [] => - EINVAL | i :: l => del_err t (top l) i isd end.
Definition remove_spec t (ni : nameinfo) (committed err : Z) t' : Prop :=
  match resolve mnt t ni with
  | Wrong e => err = e /\ t' = t
  | Missing _ _ => err = - ENOENT /\ t' = t
  | Found l =>
      let isd := ni_tgt_type ni =? PFS_INODET_DIR in
      let e := if found_err t (ni_tgt_type ni) 0 l <? 0 then found_err t (ni_tgt_type ni) 0 l
               else remove_err t isd l in
      if e <? 0 then err = e /\ t' = t
      else if committed <? 0 then err = committed /\ t' = t
      else err = 0 /\ t' = match l with [] => t | i :: l => t_remove (top l) i t end
  end.

Lemma found_err_neg t tgt oflags l : found_err t tgt oflags l <= 0.
Proof. unfold found_err, EEXIST, EISDIR, ENOTDIR. destruct (_ =? _); [lia|]. destruct (_ && _); [destruct (isdir t (top l)); lia|lia]. Qed.
Lemma del_err_neg t d i b : del_err t d i b <= 0.
Proof.
  unfold del_err, ENOENT, ENOTDIR, ENOTEMPTY, EISDIR. destruct (Z.ltb_spec (check_dir t d) 0); [lia|].
  destruct (t !! i) as [ni|]; [|lia]. destruct b; [destruct (negb _); [lia|]; case_bool_decide; lia|destruct (negb _); lia].
Qed.
Lemma runs_tt {T} (m : dio (N * mems) T) s (P : T * unit -> dstate (N * mems) -> Prop) : runs (x ← m; mret (x, tt)) s P -> runs m s (fun x s' => P (x, tt) s').
Proof. intros Hm%runs_bind_inv. eapply runs_mono; [exact Hm|]. intros x s' (y & s2 & [= <- <-] & HP). exact HP. Qed.
(** A failed operation in a transaction. *)
Lemma fail_post {T} s t dn committed k0 err (v : T) (Q : Z * T -> dstate (N * mems) -> Prop) : ns_ok mnt s t dn -> keeps k0 (s_ins s) -> committed <= 0 -> err < 0 ->
  (forall s2, ns_ok mnt s2 t dn -> keeps k0 (s_ins s2) -> Q (err, v) s2) -> tx_post mnt committed k0 t dn Q (err, v) s.
Proof. intros Hns Hk Hcom He HQ. eapply tx_post_same; [done..|]. intros s2 Hs2 Hk2. cbn [fst snd]. rewrite (proj2 (Z.ltb_lt _ _) He). by apply HQ. Qed.

Lemma found_fits t tgt oflags l : found_err t tgt oflags l = 0 -> type_fits tgt (type_of t (top l)).
Proof.
  unfold found_err. destruct (_ =? _); [done|]. destruct (negb (tgt =? PFS_INODET_NONE) && negb (type_of t (top l) =? tgt)) eqn:E; [by destruct (isdir t (top l))|]. intros _. by apply type_test.
Qed.
Lemma top_zero t l : tree_ok mnt t -> chain t (top l) l -> top l = 0 -> l = [].
Proof. intros Hok Hch E. destruct l as [|c l]; [done|]. destruct (chain_pos mnt t _ _ _ Hok Hch) as [_ ?]. done. Qed.
Lemma remove_fails_spec t l ni committed err : tree_ok mnt t -> at_node mnt_pbdname t l ni -> strlen (full_path t (top l) l) < PFS_MAX_PATHLEN ->
  type_fits (ni_tgt_type ni) (type_of t (top l)) -> ni_par_btime ni = btime_of t (top (tail l)) -> err < 0 -> remove_fails mnt_pbdname t ni (top (tail l)) (top l) committed err ->
  let e := remove_err t (ni_tgt_type ni =? PFS_INODET_DIR) l in if e <? 0 then err = e else committed < 0 /\ err = committed.
Proof.
  intros Hok Hat Hlen Hf Hpb He Hw. pose proof (at_chain _ _ _ _ Hat) as Hch. destruct Hw as [Hs|Hst|Hr|Hi Hc|Hd Hi]; cbn zeta.
  - rewrite Hpb in Hs. by rewrite (parent_sync t l Hok Hch) in Hs.
  - exfalso. apply (Hst l). rewrite (at_stk _ _ _ _ Hat). by apply node_valid.
  - by rewrite (top_zero t l Hok Hch Hr).
  - destruct l as [|c l]; [done|]. cbn [remove_err tail top] in *. by rewrite (proj2 (Z.ltb_lt _ _) He).
  - destruct l as [|c l]; [done|]. cbn [remove_err tail top] in *. by rewrite Hd.
Qed.

Lemma xremove_ok s t dn committed undone ni : is_Some (pfs_version_has_features mnt PFS_FEATURE_EXTNAME) -> ns_ok mnt s t dn -> fresh_ni mnt_pbdname ni -> committed <= 0 ->
  runs (pfs_memdir_xremove mnt mnt_pbdname committed undone ni) s (fun r s' => exists t' dn', remove_spec t ni committed (fst r) t' /\ ns_ok mnt s' t' dn' /\ keeps (s_ins s) (s_ins s') /\
    (fst r = 0 -> exists i l, resolve mnt t ni = Found (i :: l) /\ ni_ino (snd r) = i /\ ni_btime (snd r) = btime_of t i)).
Proof.
  intros Hf Hns Hfr Hcom. pose proof (no_tree _ _ _ _ Hns) as Hok. eapply dir_write_ok; [done|done|]. dstep. eapply lookup_ok; [done|done|done|done|]. unfold remove_spec.
  destruct (resolve mnt t ni) as [l|l name|err]; cbn [lookup_post].
  - intros r s1 Hg Hat Hbr Hres. pose proof (go_ns _ _ _ _ _ _ _ _ _ Hg) as Hns1. pose proof (go_keeps _ _ _ _ _ _ _ _ _ Hg) as Hk1. pose proof (at_chain _ _ _ _ Hat) as Hch.
    destruct (go_asked _ _ _ _ _ _ _ _ _ Hg) as (_ & _ & Htgt). cbn beta iota zeta. pose proof (found_err_neg t (ni_tgt_type ni) 0 l) as Hfe. rewrite Z.eqb_sym.
    destruct (Z.eqb_spec 0 (found_err t (ni_tgt_type ni) 0 l)) as [E|E].
    2: { rewrite (proj2 (Z.ltb_lt (found_err t (ni_tgt_type ni) 0 l) 0)) by lia. dstep. dstep. dstep. eapply (path_done_ok _ t _ l); [done|done|apply Hat|]. apply runs_ret. eapply fail_post; [done|done|done|lia|].
      intros s2 Hs2 Hk2. exists t, dn. cbn [fst snd]. rewrite (proj2 (Z.ltb_lt (found_err t (ni_tgt_type ni) 0 l) 0)) by lia. split_and!; [done|done|done|done|lia]. }
    destruct (Hres (eq_sym E)) as (Hdi & Hti & _ & Hpb & Hb). rewrite Hdi, Hti. dstep. dstep. eapply runs_lift; [done|]. dstep. eapply runs_lift; [done|].
    pose proof (node_wf s1 t dn l Hns1 Hch) as Hwf. rewrite <- (at_stk _ _ _ _ Hat) in Hwf.
    assert (Hd : top (tail l) ∈ l ++ [0]) by (destruct l as [|c [|c' l]]; cbn [tail top app]; set_solver).
    pose proof (parent_sync t l Hok Hch) as Hsy. rewrite <- Hpb in Hsy. set (isd := ni_tgt_type ni =? PFS_INODET_DIR). set (e := remove_err t isd l).
    set (Q0 := fun (r0 : Z * unit) (s2 : dstate (N * mems)) => exists t' dn', (if e <? 0 then fst r0 = e /\ t' = t else if committed <? 0 then fst r0 = committed /\ t' = t else fst r0 = 0 /\ t' = match l with [] => t | i :: l => t_remove (top l) i t end) /\
      ns_ok mnt s2 t' dn' /\ keeps (s_ins s) (s_ins s2)).
    eapply runs_mono; [apply runs_tt, (xremove_locked_ok mnt mnt_pbdname s1 t dn committed (s_ins s) (lr_ni r) _ _ Q0)|]; try done.
    + apply (chain_objs s1 t dn l _ Hns1 Hch Hd).
    + apply (go_mem _ _ _ _ _ _ _ _ _ Hg). destruct l as [|c [|c' l]]; cbn [tail top]; set_solver.
    + by apply (node_request t).
    + intros err s2 He Hw Hs2 Hk2. exists t, dn. split; [|by split]. cbn [fst]. pose proof (remove_fails_spec t l (lr_ni r) committed err Hok Hat (go_len _ _ _ _ _ _ _ _ _ Hg)) as Hrf. rewrite Htgt in Hrf. fold isd e in Hrf. cbn zeta in Hrf.
      specialize (Hrf (found_fits _ _ _ _ (eq_sym E)) Hpb He Hw). destruct (e <? 0); [done|]. destruct Hrf as [Hc ->]. by rewrite (proj2 (Z.ltb_lt _ _) Hc).
    + intros s2 dn' l' Hc0 Hv Hch' Hchild Hde Hs2 Hk2. exists (t_remove (top (tail l)) (top l) t), dn'. split; [|by split]. rewrite (at_stk _ _ _ _ Hat) in Hv. pose proof (node_unique t l _ _ Hok Hch Hv) as El. rewrite Htgt in Hde. fold isd in Hde.
      unfold e, remove_err. rewrite <- El in *. cbn [tail top] in *. rewrite Hde, Hc0. done.
    + intros err s2 Hp. dstep. eapply (path_done_ok _ t _ l); [done|done|apply Hat|]. apply runs_ret. eapply tx_post_map; [|exact Hp|done]. unfold Q0. cbn [fst snd]. intros e0 s3 _ (t' & dn' & Hsp & Hs3 & Hk3).
      exists t', dn'. rewrite <- E. change (0 <? 0) with false. cbn iota. fold isd. fold e. split_and!; [done|done|done|]. intros ->. cbn [ni_ino ni_btime set_ni_instk]. rewrite (at_ino _ _ _ _ Hat), Hb. destruct l as [|i l]; [|by exists i, l]. exfalso. unfold e, remove_err in Hsp. by destruct Hsp.
  - intros r s1 Hg Hno _ _ _ _ _. cbn beta iota zeta. change (- ENOENT =? 0) with false. cbn iota. dstep. dstep. dstep. eapply (path_done_ok _ t _ l); [done|apply Hno|apply Hno|]. apply runs_ret.
    eapply fail_post; [apply Hg|apply Hg|done|done|]. intros s2 Hs2 Hk2. by exists t, dn.
  - intros r s1 l Hneg Hg Hstk Hch _. cbn beta iota zeta. rewrite (proj2 (Z.eqb_neq err 0)) by lia. dstep. dstep. dstep. eapply (path_done_ok _ t _ l); [done|done|done|]. apply runs_ret.
    eapply fail_post; [apply Hg|apply Hg|done|done|]. intros s2 Hs2 Hk2. exists t, dn. split_and!; [done|done|done|done|simpl; lia].
Qed.

(** ** Creation and lookup *)
(** A new node [i], a failed transaction, or an error. *)
Definition lookup_spec t (ni : nameinfo) (oflags committed err i : Z) t' : Prop :=
  let creat := negb (Z.land oflags O_CREAT =? 0) in
  if negb creat && negb (committed =? 0) then err = committed /\ t' = t else
  match resolve mnt t ni with
  | Wrong e => err = e /\ t' = t
  | Found l =>
      t' = t /\ (err = 0 -> i = top l) /\
      err = (if found_err t (ni_tgt_type ni) oflags l <? 0 then found_err t (ni_tgt_type ni) oflags l
             else if creat then if negb (Z.land oflags O_EXCL =? 0) then - EEXIST else committed else 0)
  | Missing l name =>
      if creat then
        (err = 0 /\ committed = 0 /\ t !! i = None /\ t' = t_create now (top l) i (ni_tgt_type ni =? PFS_INODET_DIR) name t) \/
        (err < 0 /\ (err = committed \/ err = - EPFS_FILE_2MANY) /\ t' = t)
      else err = - ENOENT /\ t' = t
  end.

Lemma add_fails_spec t l name ni committed err : tree_ok mnt t -> no_node mnt_pbdname t l name ni -> strlen (full_path t (top l) l) < PFS_MAX_PATHLEN ->
  ni_par_btime ni = btime_of t (top l) -> add_fails mnt_pbdname t ni (top l) committed err -> err = committed \/ err = - EPFS_FILE_2MANY.
Proof.
  intros Hok Hno Hlen Hpb Hw. pose proof (nn_dir _ _ _ _ _ Hno) as Hdir. rewrite isdir_type in Hdir. apply Z.eqb_eq in Hdir. destruct Hw as [Hs|Hst|i Hi| |]; [..|by right|by left].
  - exfalso. apply Hs. rewrite Hpb. unfold type_of in Hdir. destruct (t !! top l) as [nd|] eqn:Hd; [|done]. by eapply node_sync.
  - exfalso. apply (Hst l). rewrite (nn_stk _ _ _ _ _ Hno). apply node_valid; [apply Hno|done|by right].
  - exfalso. rewrite (nn_srch _ _ _ _ _ Hno) in Hi. by apply (nn_free _ _ _ _ _ Hno) in Hi.
Qed.
Lemma xlookup_missing s1 t dn committed k0 ni0 r l name : tree_ok mnt t -> going mnt mnt_pbdname t dn k0 ni0 l (lr_ni r) s1 -> no_node mnt_pbdname t l name (lr_ni r) -> name_ok mnt name ->
  ni_par_btime (lr_ni r) = btime_of t (top l) -> committed <= 0 -> forall (Q : Z * nameinfo -> dstate (N * mems) -> Prop),
  (forall err ni' s2, err < 0 -> err = committed \/ err = - EPFS_FILE_2MANY -> ns_ok mnt s2 t dn -> keeps k0 (s_ins s2) -> Q (err, ni') s2) ->
  (forall i ni' s2 dn', committed = 0 -> t !! i = None -> ni_ino ni' = i -> ns_ok mnt s2 (t_create now (top l) i (ni_tgt_type ni0 =? PFS_INODET_DIR) name t) dn' -> keeps k0 (s_ins s2) -> Q (0, ni') s2) ->
  runs (r ← xlookup_add mnt mnt_pbdname now (lr_ni r) (top l); let '(err, ni) := r in ni ← pfs_namei_lookup_done ni; mret (err, ni)) s1 (tx_post mnt committed k0 t dn Q).
Proof.
  intros Hok Hg Hno Hnm Hpb Hcom Q HE HQ.  pose proof (go_ns _ _ _ _ _ _ _ _ _ Hg) as Hns1. pose proof (nn_chain _ _ _ _ _ Hno) as Hch. destruct (go_asked _ _ _ _ _ _ _ _ _ Hg) as (_ & _ & Htgt).
  dstep. eapply runs_mono; [eapply (xlookup_add_ok mnt mnt_pbdname now s1 t dn committed k0 (lr_ni r) (top l) (fun x s2 => Q (fst x, set_ni_instk instk_init (snd x)) s2))|]; try done.
  - exact (go_keeps _ _ _ _ _ _ _ _ _ Hg).
  - rewrite (nn_stk _ _ _ _ _ Hno). by apply (node_wf s1 t dn l).
  - apply (chain_objs s1 t dn l _ Hns1 Hch). destruct l; cbn [top app]; set_solver.
  - apply on_mem_top, (go_mem _ _ _ _ _ _ _ _ _ Hg).
  - split; [by rewrite (nn_stk _ _ _ _ _ Hno), vec_top, Hpb|by rewrite (nn_srch _ _ _ _ _ Hno)].
  - intros err ni' s2 He Hw _ Hs2 Hk2. apply HE; [done| |done|done]. eapply add_fails_spec; [done|done|apply Hg|done|done].
  - intros s2 dn' l' i Hc0 Hv El Hnc Hi Hs2 Hk2. rewrite (nn_srch _ _ _ _ _ Hno), Htgt in Hs2. by eapply HQ.
  - intros [err ni'] s2 [Hst Hp]. cbn [snd] in Hst. dstep. eapply (path_done_ok _ t _ l); [done|done|by rewrite Hst, (nn_stk _ _ _ _ _ Hno)|]. apply runs_ret. eapply tx_post_map; [|exact Hp|done]. by intros e s3 _.
Qed.

Lemma check_found s t dn k0 ni0 l ni type (Q : Z -> dstate (N * mems) -> Prop) : going mnt mnt_pbdname t dn k0 ni0 l ni s -> ni_instk ni = stk_of t l -> chain t (top l) l ->
  type_fits type (type_of t (top l)) -> Q 0 s -> runs (pfs_namei_check_stale mnt_pbdname ni type) s Q.
Proof.
  intros Hg Hst Hch Hf HQ. pose proof (go_ns _ _ _ _ _ _ _ _ _ Hg) as Hns. eapply check_stale_ok; [exact Hns|rewrite Hst; by eapply node_wf|done|]. intros Hno. exfalso. apply (Hno l). rewrite Hst.
  apply node_valid; [done|apply Hg|done].
Qed.
Lemma found_err_enoent t tgt oflags l : (found_err t tgt oflags l =? - ENOENT) = false.
Proof. unfold found_err. destruct (Z.land oflags _ =? _); [done|]. destruct (_ && _); [by destruct (isdir t (top l))|done]. Qed.

Lemma xlookup_ok s t dn committed undone ni oflags : is_Some (pfs_version_has_features mnt PFS_FEATURE_EXTNAME) -> ns_ok mnt s t dn -> fresh_ni mnt_pbdname ni -> committed <= 0 ->
  (Z.land oflags O_CREAT <> 0 -> ni_tgt_type ni = PFS_INODET_DIR \/ ni_tgt_type ni = PFS_INODET_FILE) ->
  runs (pfs_memdir_xlookup mnt mnt_pbdname now committed undone ni oflags) s (fun r s' => exists t' dn', lookup_spec t ni oflags committed (fst r) (ni_ino (snd r)) t' /\ ns_ok mnt s' t' dn' /\ keeps (s_ins s) (s_ins s')).
Proof.
  intros Hf Hns Hfr Hcom Hcr. pose proof (no_tree _ _ _ _ Hns) as Hok. unfold pfs_memdir_xlookup, lookup_spec. destruct (negb (Z.land oflags O_CREAT =? 0)).
  - cbn [negb andb]. eapply dir_write_ok; [done|done|]. unfold xlookup_create. dstep. eapply lookup_ok; [done|done|done|done|]. destruct (resolve mnt t ni) as [l|l name|err]; cbn [lookup_post].
    + intros r s1 Hg Hat Hbr Hres. cbn beta iota zeta. pose proof (at_chain _ _ _ _ Hat) as Hch. destruct (go_asked _ _ _ _ _ _ _ _ _ Hg) as (_ & _ & Htgt). rewrite found_err_enoent. cbn [andb].
      pose proof (found_err_neg t (ni_tgt_type ni) oflags l) as Hfe. destruct (Z.eqb_spec (found_err t (ni_tgt_type ni) oflags l) 0) as [E|E].
      * rewrite E. dstep. dstep. eapply check_found; [done|apply Hat|done|rewrite Htgt; by eapply found_fits|]. apply runs_ret. rewrite Z.eqb_refl. cbn [andb]. dstep. eapply (path_done_ok _ t _ l); [done|done|apply Hat|]. apply runs_ret.
        eapply tx_post_same; [apply Hg|apply Hg|done|]. intros s2 Hs2 Hk2. cbn [fst snd ni_ino set_ni_instk]. exists t, dn. split; [|by split]. split_and!; [done|by intros _; apply Hat|]. by destruct (negb (Z.land oflags O_EXCL =? 0)).
      * assert (Hn : found_err t (ni_tgt_type ni) oflags l < 0) by lia. rewrite (proj2 (Z.ltb_lt _ _) Hn). dstep. dstep. dstep. eapply (path_done_ok _ t _ l); [done|done|apply Hat|]. apply runs_ret. eapply fail_post; [apply Hg|apply Hg|done|done|].
        intros s2 Hs2 Hk2. exists t, dn. cbn [fst snd]. split_and!; [done|lia|done|done|done].
    + intros r s1 Hg Hno Hnm Hbr Hdi _ Hpb. cbn beta iota zeta. change (- ENOENT =? 0) with false. rewrite Z.eqb_refl, Hbr, Hdi. cbn [negb andb]. dstep. dstep. eapply runs_lift; [done|]. apply runs_bind_inv.
      eapply (xlookup_missing s1 t dn committed _ ni r l name); [done|done|done|done|done|done| |].
      * intros err ni' s2 He Hw Hs2 Hk2. exists t, dn. split; [right|]; by split_and!.
      * intros i ni' s2 dn' Hc0 Hi Hni Hs2 Hk2. eexists _, dn'. split; [left|]; [|by split]. cbn [fst snd]. by rewrite Hni.
    + intros r s1 l Hneg Hg Hstk Hch Hbr. cbn beta iota zeta. rewrite (proj2 (Z.eqb_neq err 0)) by lia. rewrite Hbr, andb_false_r. dstep. dstep. dstep. eapply (path_done_ok _ t _ l); [done|done|done|]. apply runs_ret.
      eapply fail_post; [apply Hg|apply Hg|done|done|]. intros s2 Hs2 Hk2. by exists t, dn.
  - unfold xlookup_read. cbn [negb andb]. destruct (Z.eqb_spec committed 0) as [->|Hc0]; cbn [negb].
    2: { apply runs_ret. exists t, dn. split_and!; [done|done|done|apply keeps_refl]. }
    dstep. eapply lookup_ok; [done|done|done|done|]. destruct (resolve mnt t ni) as [l|l name|err]; cbn [lookup_post].
    + intros r s1 Hg Hat Hbr Hres. cbn beta iota zeta. pose proof (at_chain _ _ _ _ Hat) as Hch. destruct (go_asked _ _ _ _ _ _ _ _ _ Hg) as (_ & _ & Htgt).
      pose proof (found_err_neg t (ni_tgt_type ni) oflags l) as Hfe. destruct (Z.eqb_spec (found_err t (ni_tgt_type ni) oflags l) 0) as [E|E].
      * rewrite E. dstep. eapply check_found; [done|apply Hat|done|rewrite Htgt; by eapply found_fits|]. dstep. eapply (path_done_ok _ t _ l); [done|done|apply Hat|]. apply runs_ret.
        cbn [fst snd ni_ino set_ni_instk]. exists t, dn. split; [|by destruct Hg]. split_and!; [done|by intros _; apply Hat|done].
      * assert (Hn : found_err t (ni_tgt_type ni) oflags l < 0) by lia. rewrite (proj2 (Z.ltb_lt _ _) Hn). dstep. dstep. dstep. eapply (path_done_ok _ t _ l); [done|done|apply Hat|]. apply runs_ret.
        exists t, dn. cbn [fst snd]. split; [|by destruct Hg]. split_and!; [done|lia|done].
    + intros r s1 Hg Hno Hnm Hbr Hdi _ Hpb. cbn beta iota zeta. change (- ENOENT =? 0) with false. dstep. dstep. dstep. eapply (path_done_ok _ t _ l); [done|apply Hno|apply Hno|]. apply runs_ret. exists t, dn. split; [done|by destruct Hg].
    + intros r s1 l Hneg Hg Hstk Hch Hbr. cbn beta iota zeta. rewrite (proj2 (Z.eqb_neq err 0)) by lia. dstep. dstep. dstep. eapply (path_done_ok _ t _ l); [done|done|done|]. apply runs_ret. exists t, dn. split; [done|by destruct Hg].
Qed.
End Paths.
