(* ===== verification/MemdirRename.v ===== *)
(** * Renaming by path

    What the two paths of a rename come to, and what the operation does to the
    tree of names when nothing interferes. *)

From S2P Require Import Prelude Alloc Object Blkio Blktable NameCache Inode Dir DirBase DirName DirInv DirStep DirTree DirOps DirView Dx DxInv DxOps DxTx DxSteps DxRename Namei NameiInv NameiOps Memdir MemdirOps MemdirSpec.

Open Scope pfs_scope.

Section Rename.
Context {N : Type} `{NCacheLaws N} (mnt : pfs_mount) (mnt_pbdname : list Z) (now : Z).
Implicit Types (s : dstate (N * mems)) (t : tree).
Abbreviation full_path := (full_path mnt_pbdname).
Abbreviation stk_of := (stk_of mnt_pbdname).

(** What the two paths come to: an error, or the node and the nodes above it,
    the node at the new path if there is one, the nodes above that and the new
    name. *)
Definition rename_plan t (oldni newni : nameinfo) : Z + (Z * list Z * Z * list Z * list Z) :=
  match resolve mnt t oldni with
  | Wrong e => inl e
  | Missing _ _ => inl (- ENOENT)
  | Found lo =>
      if found_err t (ni_tgt_type oldni) 0 lo <? 0 then inl (found_err t (ni_tgt_type oldni) 0 lo) else
      match lo with
      | [] => inl (- EBUSY)
      | i :: lo =>
          match resolve mnt t newni with
          | Wrong e => inl e
          | Missing ln name => inr (i, lo, INVALID_INO, ln, name)
          | Found ln =>
              if found_err t (type_of t i) 0 ln <? 0 then inl (found_err t (type_of t i) 0 ln) else
              match ln with [] => inl (- EBUSY) | nino :: ln => inr (i, lo, nino, ln, name_of t nino) end
          end
      end
  end.
Definition rename_path_spec t (oldni newni : nameinfo) (committed err : Z) t' : Prop :=
  match rename_plan t oldni newni with
  | inl e => err = e /\ t' = t
  | inr (i, lo, nino, ln, name) =>
      (nino = i /\ err = committed /\ t' = t) \/
      (nino <> i /\ rename_spec t (top lo) i (top ln) nino name err t' /\ (err = 0 -> committed = 0)) \/
      (nino <> i /\ err < 0 /\ (err = committed \/ err = - EPFS_FILE_2MANY) /\ t' = t)
  end.

(** ** Both lookups *)
Definition stk_done t (stk : instack) : Prop := stk = instk_init \/ exists l, chain t (top l) l /\ stk = stk_of t l.
Lemma exit_ok s t ni (Q : nameinfo -> dstate (N * mems) -> Prop) : tree_ok mnt t -> stk_done t (ni_instk ni) -> Q (set_ni_instk instk_init ni) s -> runs (pfs_namei_lookup_done ni) s Q.
Proof.
  intros Hok [E|(l & Hch & E)] HQ; [|by eapply path_done_ok]. unfold pfs_namei_lookup_done. rewrite E. dstep. eapply runs_lift; [done|]. by apply runs_ret.
Qed.

(** The new path, as it was looked up. *)
Record planned t (i : Z) (lo : list Z) (nino : Z) (ln name : list Z) (oldni newni : nameinfo) s : Prop := {
  pl_i : i <> 0;
  pl_old : ni_instk oldni = stk_of t (i :: lo) /\ chain t i (i :: lo) /\ strlen (full_path t i (i :: lo)) < PFS_MAX_PATHLEN;
  pl_orq : request oldni (top lo) i;
  pl_ob : ni_par_btime oldni = btime_of t (top lo);
  pl_new : exists l, ni_instk newni = stk_of t l /\ chain t (top l) l /\ strlen (full_path t (top l) l) < PFS_MAX_PATHLEN /\ type_of t (top l) = new_type (type_of t i) nino /\
    chain t (top ln) ln /\ top ln ∈ l ++ [0];
  pl_nrq : new_request mnt newni (top ln) nino;
  pl_nb : ni_par_btime newni = btime_of t (top ln) /\ isdir t (top ln) = true;
  pl_name : ni_srch_name newni = name;
  pl_free : nino = INVALID_INO -> forall c, ~ child t (top ln) name c;
  pl_mem : is_Some (s_ins s !! top lo) /\ is_Some (s_ins s !! top ln) }.

Definition before_post t dn (k0 : gmap Z dinode) (plan : Z + (Z * list Z * Z * list Z * list Z))
    (Q : Z * (nameinfo * nameinfo) * option (bool * Z * Z * Z * Z) -> dstate (N * mems) -> Prop) : Prop :=
  match plan with
  | inl err => forall o' n' s', err < 0 -> ns_ok mnt s' t dn -> keeps k0 (s_ins s') -> stk_done t (ni_instk o') -> stk_done t (ni_instk n') -> Q (err, (o', n'), None) s'
  | inr (i, lo, nino, ln, name) => forall o' n' s', ns_ok mnt s' t dn -> keeps k0 (s_ins s') -> planned t i lo nino ln name o' n' s' ->
      Q (0, (o', n'), Some (isdir t i, top lo, i, top ln, nino)) s'
  end.

Lemma before_rename_ok s t dn oldni newni Q : is_Some (pfs_version_has_features mnt PFS_FEATURE_EXTNAME) -> ns_ok mnt s t dn -> fresh_ni mnt_pbdname oldni -> fresh_ni mnt_pbdname newni ->
  before_post t dn (s_ins s) (rename_plan t oldni newni) Q -> runs (pfs_memdir_before_rename mnt mnt_pbdname oldni newni) s Q.
Proof.
  intros Hf Hns Hfo Hfn HQ. pose proof (no_tree _ _ _ _ Hns) as Hok. unfold pfs_memdir_before_rename. dstep. eapply lookup_ok; [done|done|done|done|]. unfold rename_plan in HQ.
  assert (Hi : stk_done t (ni_instk newni)) by (left; apply Hfn). destruct (resolve mnt t oldni) as [l|l name|err]; cbn [lookup_post].
  2: { intros r s1 Hg Hno _ _ _ _ _. cbn beta iota zeta. change (- ENOENT <? 0) with true. cbn iota. apply runs_ret, HQ; [done|apply Hg|apply Hg|right; exists l; split; apply Hno|done]. }
  2: { intros r s1 l Hneg Hg Hstk Hch _. cbn beta iota zeta. rewrite (proj2 (Z.ltb_lt _ _) Hneg). apply runs_ret, HQ; [done|apply Hg|apply Hg|right; by exists l|done]. }
  intros r s1 Hg Hat Hbr Hres. cbn beta iota zeta. pose proof (go_ns _ _ _ _ _ _ _ _ _ Hg) as Hns1. pose proof (at_chain _ _ _ _ Hat) as Hch. pose proof (found_err_neg t (ni_tgt_type oldni) 0 l) as Hfe.
  assert (Hdo : stk_done t (ni_instk (lr_ni r))) by (right; exists l; split; apply Hat).
  destruct (Z.ltb_spec (found_err t (ni_tgt_type oldni) 0 l) 0) as [E|E]; [apply runs_ret, HQ; [done|done|apply Hg|done|done]|].
  destruct Hres as (Hdi & Hti & Hty & Hpb & Hb); [lia|]. rewrite Hdi, Hti, Hty. dstep. eapply runs_lift; [done|]. dstep. eapply runs_lift; [done|]. destruct l as [|i lo]; cbn [top tail] in *.
  { rewrite Z.eqb_refl. apply runs_ret, HQ; [done|done|apply Hg|done|done]. }
  destruct (chain_pos mnt t i i lo Hok Hch) as [_ Hi0]. rewrite (proj2 (Z.eqb_neq i 0)) by done. cbn zeta.
  assert (Hfn' : fresh_ni mnt_pbdname (set_ni_tgt_type (type_of t i) newni)) by (by destruct Hfn). dstep. eapply lookup_ok; [done|done|exact Hfn'|done|]. change (resolve mnt t (set_ni_tgt_type (type_of t i) newni)) with (resolve mnt t newni).
  assert (Hold : forall s2, keeps (s_ins s1) (s_ins s2) -> is_Some (s_ins s2 !! top lo)) by (intros s2 Hk2; apply Hk2, (go_mem _ _ _ _ _ _ _ _ _ Hg); destruct lo; cbn [top]; set_solver).
  pose proof (node_request mnt mnt_pbdname t (i :: lo) (lr_ni r) Hok Hat Hpb) as Hrq. cbn [top tail] in Hrq.
  assert (Hos : ni_instk (lr_ni r) = stk_of t (i :: lo) /\ chain t i (i :: lo) /\ strlen (full_path t i (i :: lo)) < PFS_MAX_PATHLEN) by (split_and!; [apply Hat|done|apply (go_len _ _ _ _ _ _ _ _ _ Hg)]).
  assert (Hk : forall s2, keeps (s_ins s1) (s_ins s2) -> keeps (s_ins s) (s_ins s2)) by (intros s2 Hk2; eapply keeps_trans; [apply Hg|exact Hk2]).
  destruct (resolve mnt t newni) as [l|l name|err]; cbn [lookup_post].
  - intros r2 s2 Hg2 Hat2 _ Hres2. cbn beta iota zeta. change (ni_tgt_type (set_ni_tgt_type (type_of t i) newni)) with (type_of t i) in *. pose proof (found_err_neg t (type_of t i) 0 l) as Hfe2.
    pose proof (at_chain _ _ _ _ Hat2) as Hch2. assert (Hdn : stk_done t (ni_instk (lr_ni r2))) by (right; exists l; split; apply Hat2).
    destruct (Z.eqb_spec (found_err t (type_of t i) 0 l) 0) as [E2|E2].
    2: { rewrite found_err_enoent. rewrite (proj2 (Z.ltb_lt (found_err t (type_of t i) 0 l) 0)) in HQ by lia. apply runs_ret, HQ; [lia|apply Hg2|apply Hk, Hg2|done|done]. }
    rewrite E2 in HQ. change (0 <? 0) with false in HQ. cbn iota in HQ. destruct (Hres2 E2) as (Hdi2 & Hti2 & _ & Hpb2 & _). rewrite Hdi2, Hti2. dstep. eapply runs_lift; [done|]. dstep. eapply runs_lift; [done|].
    pose proof (found_fits _ _ _ _ E2) as Hfit. destruct l as [|nino ln]; cbn [top tail] in *.
    { rewrite Z.eqb_refl. apply runs_ret, HQ; [done|apply Hg2|apply Hk, Hg2|done|done]. }
    destruct (chain_pos mnt t nino nino ln Hok Hch2) as [_ Hn0]. rewrite (proj2 (Z.eqb_neq nino 0)) by done. apply runs_ret. rewrite <- isdir_type. pose proof (top_pos mnt t dn s2 (nino :: ln) (go_ns _ _ _ _ _ _ _ _ _ Hg2) Hch2) as Hpos. cbn [top] in Hpos.
    apply HQ; [apply Hg2|apply Hk, Hg2|]. assert (Hni : (nino =? INVALID_INO) = false) by (apply Z.eqb_neq; unfold INVALID_INO; lia). split; try done.
    + exists (nino :: ln). unfold new_type. rewrite Hni. split_and!; [apply Hat2|done|apply (go_len _ _ _ _ _ _ _ _ _ Hg2)| |by apply (chain_tail t (nino :: ln))|destruct ln; cbn [top app]; set_solver].
      cbn [top]. destruct (chain_node mnt t i _ Hok Hch) as [ndi Hndi]. destruct Hfit as [E0|E0]; [|done]. unfold type_of in E0. rewrite Hndi in E0. exfalso. by destruct (to_type _ _ Hok i ndi Hndi) as [E1|E1]; rewrite E1 in E0.
    + right. split; [lia|]. apply (node_request mnt mnt_pbdname t (nino :: ln)); done.
    + split; [done|]. destruct (parent_dir mnt t (nino :: ln) Hok Hch2) as [Ed|Ed]; [|done]. rewrite isdir_type. cbn [tail] in Ed. by rewrite Ed.
    + apply (at_srch _ _ _ _ Hat2).
    + intros ->. done.
    + split; [apply Hold, Hg2|]. apply (go_mem _ _ _ _ _ _ _ _ _ Hg2). destruct ln; cbn [top]; set_solver.
  - intros r2 s2 Hg2 Hno Hnm Hbr2 Hdi2 _ Hpb2. cbn beta iota zeta. change (- ENOENT =? 0) with false. cbn iota. rewrite Z.eqb_refl, Hbr2, Hdi2. dstep. eapply runs_lift; [done|]. apply runs_ret. rewrite <- isdir_type.
    apply HQ; [apply Hg2|apply Hk, Hg2|]. pose proof (nn_dir _ _ _ _ _ Hno) as Hdir. split; try done.
    + exists l. split_and!; [apply Hno|apply Hno|apply Hg2| |apply Hno|destruct l; cbn [top app]; set_solver]. unfold new_type. rewrite Z.eqb_refl. rewrite isdir_type in Hdir. by apply Z.eqb_eq.
    + left. split; [done|]. split; [by rewrite (nn_stk _ _ _ _ _ Hno), vec_top, Hpb2|by rewrite (nn_srch _ _ _ _ _ Hno)].
    + apply (nn_srch _ _ _ _ _ Hno).
    + intros _. apply (nn_free _ _ _ _ _ Hno).
    + split; [apply Hold, Hg2|]. apply on_mem_top, (go_mem _ _ _ _ _ _ _ _ _ Hg2).
  - intros r2 s2 l Hneg Hg2 Hstk Hch2 Hbr2. cbn beta iota zeta. rewrite (proj2 (Z.eqb_neq err 0)), Hbr2 by lia.
    assert (Hq : Q (err, (lr_ni r, lr_ni r2), None) s2) by (apply HQ; [done|apply Hg2|apply Hk, Hg2|done|right; by exists l]). destruct (err =? - ENOENT); by apply runs_ret.
Qed.

(** ** The operation *)
Section Planned.
Context (t : tree) (dn : Z -> Z) (i : Z) (lo : list Z) (nino : Z) (ln name : list Z) (o' n' : nameinfo) (s1 : dstate (N * mems)).
Hypothesis Hns1 : ns_ok mnt s1 t dn.
Hypothesis Hpl : planned t i lo nino ln name o' n' s1.

Lemma planned_type : (if isdir t i then PFS_INODET_DIR else PFS_INODET_FILE) = type_of t i.
Proof.
  destruct (pl_old _ _ _ _ _ _ _ _ _ Hpl) as (_ & Hch & _). destruct (chain_node mnt t i _ (no_tree _ _ _ _ Hns1) Hch) as [nd Hnd]. unfold isdir, type_of. rewrite Hnd.
  by destruct (to_type _ _ (no_tree _ _ _ _ Hns1) i nd Hnd) as [-> | ->].
Qed.
Lemma planned_fails committed err : rename_fails mnt_pbdname t o' n' (type_of t i) (top lo) i (top ln) nino committed err -> err < 0 ->
  (nino <> i /\ rename_spec t (top lo) i (top ln) nino name err t) \/ err = committed \/ (nino <> i /\ err = - EPFS_FILE_2MANY).
Proof.
  pose proof (no_tree _ _ _ _ Hns1) as Hok. intros Hw He. destruct (pl_old _ _ _ _ _ _ _ _ _ Hpl) as (Eo & Hcho & Hlo). destruct (pl_new _ _ _ _ _ _ _ _ _ Hpl) as (l & En & Hchn & Hln & Htn & Hcn & _).
  destruct (pl_nb _ _ _ _ _ _ _ _ _ Hpl) as [Hnb Hdir]. destruct Hw as [d ni Hd Hs|Hst|Hst|c Hc Hex|err Hne _ Hsp|Hne|].
  - exfalso. apply Hs. destruct Hd as [[=-> ->]|[=-> ->]].
    + rewrite (pl_ob _ _ _ _ _ _ _ _ _ Hpl). apply (parent_sync mnt t (i :: lo) Hok Hcho).
    + rewrite Hnb. rewrite isdir_type in Hdir. apply Z.eqb_eq in Hdir. unfold type_of in Hdir. destruct (t !! top ln) as [nd|] eqn:E; [|done]. by eapply node_sync.
  - exfalso. apply (Hst (i :: lo)). rewrite Eo. apply node_valid; [done|done|by right].
  - exfalso. apply (Hst l). rewrite En. apply node_valid; [done|done|by right].
  - exfalso. rewrite (pl_name _ _ _ _ _ _ _ _ _ Hpl) in Hex. by apply (pl_free _ _ _ _ _ _ _ _ _ Hpl) in Hex.
  - left. by rewrite <- (pl_name _ _ _ _ _ _ _ _ _ Hpl).
  - by right; right.
  - by right; left.
Qed.
End Planned.

Lemma xrename_ok s t dn committed undone oldni newni : is_Some (pfs_version_has_features mnt PFS_FEATURE_EXTNAME) -> ns_ok mnt s t dn -> fresh_ni mnt_pbdname oldni -> fresh_ni mnt_pbdname newni -> committed <= 0 ->
  runs (pfs_memdir_xrename mnt mnt_pbdname now committed undone oldni newni) s (fun r s' => exists t' dn', rename_path_spec t oldni newni committed (fst r) t' /\ ns_ok mnt s' t' dn' /\ keeps (s_ins s) (s_ins s')).
Proof.
  intros Hf Hns Hfo Hfn Hcom. pose proof (no_tree _ _ _ _ Hns) as Hok. eapply dir_write_ok; [done|done|]. dstep. eapply before_rename_ok; [done|done|done|done|]. unfold rename_path_spec.
  destruct (rename_plan t oldni newni) as [err|((((i & lo) & nino) & ln) & name)]; cbn [before_post].
  - intros o' n' s1 He Hns1 Hk1 Hdo Hdn. cbn beta iota. rewrite (proj2 (Z.ltb_lt _ _) He). dstep. dstep. dstep. eapply exit_ok; [done|done|]. dstep. eapply exit_ok; [done|done|]. apply runs_ret.
    eapply fail_post; [done|done|done|done|]. intros s2 Hs2 Hk2. by exists t, dn.
  - intros o' n' s1 Hns1 Hk1 Hpl. cbn beta iota. change (0 <? 0) with false. cbn iota. dstep. dstep. eapply runs_lift; [done|]. cbn beta iota.
    destruct (pl_old _ _ _ _ _ _ _ _ _ Hpl) as (Eo & Hcho & _). destruct (pl_new _ _ _ _ _ _ _ _ _ Hpl) as (l & En & Hchn & _ & _ & Hcn & Hin).
    set (Q0 := fun (r0 : Z * unit) (s2 : dstate (N * mems)) => exists t' dn', ((nino = i /\ fst r0 = committed /\ t' = t) \/
      (nino <> i /\ rename_spec t (top lo) i (top ln) nino name (fst r0) t' /\ (fst r0 = 0 -> committed = 0)) \/
      (nino <> i /\ fst r0 < 0 /\ (fst r0 = committed \/ fst r0 = - EPFS_FILE_2MANY) /\ t' = t)) /\ ns_ok mnt s2 t' dn' /\ keeps (s_ins s) (s_ins s2)).
    eapply runs_mono; [apply runs_tt, (xrename_locked_ok mnt mnt_pbdname now t dn committed (s_ins s) o' n' (isdir t i) (top lo) i (top ln) nino Q0)|].
    + done.
    + apply Hpl.
    + apply Hpl.
    + apply Hpl.
    + rewrite (planned_type t dn i lo nino ln name o' n' s1 Hns1 Hpl). intros err s2 He Hw Hs2 Hk2. exists t, dn. split; [|by split]. cbn [fst].
      destruct (decide (nino = i)) as [E|Hne]; destruct (planned_fails t dn i lo nino ln name o' n' s1 Hns1 Hpl committed err Hw He) as [[? Hsp]|[->|[? ->]]]; try done.
      * by left.
      * right; left. split_and!; [done|done|lia].
      * right; right. by auto.
      * right; right. by auto.
    + intros s2 t' dn' Hc0 _ _ _ Hsp Hs2 Hk2. exists t', dn'. split; [|by split]. cbn [fst]. rewrite (pl_name _ _ _ _ _ _ _ _ _ Hpl) in Hsp. destruct Hsp as [[? ->]|[? ?]]; [by left|by right; left].
    + done.
    + done.
    + rewrite Eo. by apply (node_wf mnt mnt_pbdname s1 t dn (i :: lo)).
    + rewrite En. by apply (node_wf mnt mnt_pbdname s1 t dn l).
    + apply (chain_objs mnt s1 t dn (i :: lo)); [done|done|destruct lo; cbn [top app]; set_solver].
    + apply Hpl.
    + by apply (chain_objs mnt s1 t dn l).
    + apply Hpl.
    + intros err s2 Hp. dstep. eapply exit_ok; [done|right; exists (i :: lo); by split|]. dstep. eapply exit_ok; [done|right; exists l; by split|]. apply runs_ret.
      eapply tx_post_map; [|exact Hp|done]. by intros e s3 _.
Qed.
End Rename.
