(* ===== verification/Api.v ===== *)
(** * Calls on paths

    Model of the calls of pfs_api.cc that work on the namespace.  A call
    makes a path absolute, finds the mount of its device and runs the
    operation; it is repeated as long as it returns [EAGAIN].

    [outcomes] are the results of the commits of the transactions, each with
    the inodes an abort restores; one is used for each transaction.  [sync] is
    the result of the poll with which a reading call begins. *)

From S2P Require Import Prelude Alloc Object Blkio Blktable NameCache Inode Dir Dx Namei Memdir.

Open Scope pfs_scope.

Definition F_OK : Z := 0.
Definition X_OK : Z := 1.
Definition W_OK : Z := 2.
Definition R_OK : Z := 4.
Definition EXDEV : Z := 18.
Definition ENODEV : Z := 19.

Section Api.
Context {N : Type} `{NCacheOps N} (mnt : pfs_mount) (mnt_pbdname : list Z) (now : Z).
Abbreviation X := (dio (N * mems)).
Abbreviation outcome := (Z * list Z)%type.

(** [GET_MOUNT_NAMEI] when this volume alone is mounted. *)
Definition get_mount_namei (work_dir pbdpath : list Z) (type : Z) : X (Z + nameinfo) :=
  r ← lift (pfs_namei_init work_dir pbdpath type);
  match r with
  | inl err => mret (inl err)
  | inr ni => mret (if bool_decide (ni_pbd ni = mnt_pbdname) then inr ni else inl (- ENODEV))
  end.

Definition _pfs_mkdir (work_dir pbdpath : list Z) (o : outcome) : X Z :=
  r ← get_mount_namei work_dir pbdpath PFS_INODET_DIR;
  match r with
  | inl err => mret err
  | inr ni => r ← pfs_memdir_xlookup mnt mnt_pbdname now (fst o) (snd o) ni (Z.lor O_CREAT O_EXCL); mret (fst r)
  end.

Definition _pfs_access (work_dir pbdpath : list Z) (amode sync : Z) : X Z :=
  if negb (amode =? F_OK) && (Z.land amode (Z.lor R_OK (Z.lor W_OK X_OK)) =? 0) then mret (- EINVAL) else
  r ← get_mount_namei work_dir pbdpath PFS_INODET_NONE;
  match r with
  | inl err => mret err
  | inr ni =>
      r ← pfs_memdir_xlookup mnt mnt_pbdname now sync [] ni 0;
      mret (if negb (fst r =? 0) then (if amode =? F_OK then - ENOENT else - EACCES) else 0)
  end.

(** [pfs_inode_release] without an inode in memory. *)
Fixpoint pfs_inode_release (outcomes : list outcome) (ino btime : Z) : X Z :=
  match outcomes with
  | [] => abort
  | o :: outcomes =>
      r ← tls_write (fst o) (snd o) (err ← pfs_inode_release_dir ino btime; mret (err, tt));
      let err := if fst r =? - ENOENT then 0 else fst r in
      if err =? - EAGAIN then pfs_inode_release outcomes ino btime else mret err
  end.

Definition _pfs_rmdir (work_dir pbdpath : list Z) (o : outcome) (outcomes : list outcome) : X Z :=
  r ← get_mount_namei work_dir pbdpath PFS_INODET_DIR;
  match r with
  | inl err => mret err
  | inr ni =>
      r ← pfs_memdir_xremove mnt mnt_pbdname (fst o) (snd o) ni;
      let '(err, ni) := r in
      if err >=? 0 then pfs_inode_release outcomes (ni_ino ni) (ni_btime ni) else mret err
  end.

Definition _pfs_chdir (work_dir path : list Z) (sync : Z) : X (Z * list Z) :=
  r ← get_mount_namei work_dir path PFS_INODET_DIR;
  match r with
  | inl err => mret (err, work_dir)
  | inr ni => pfs_memdir_xsetwd mnt mnt_pbdname sync ni work_dir
  end.

Definition _pfs_opendir (work_dir pbdpath : list Z) (sync : Z) : X (Z * option pfs_dirstream) :=
  r ← get_mount_namei work_dir pbdpath PFS_INODET_DIR;
  match r with
  | inl err => mret (err, None)
  | inr ni => r ← pfs_memdir_xopen mnt mnt_pbdname sync ni; let '(err, _, dir) := r in mret (err, dir)
  end.

(** [_pfs_unlink] up to the release of the file. *)
Definition unlink_name (work_dir pbdpath : list Z) (o : outcome) : X Z :=
  r ← get_mount_namei work_dir pbdpath PFS_INODET_FILE;
  match r with
  | inl err => mret err
  | inr ni => r ← pfs_memdir_xremove mnt mnt_pbdname (fst o) (snd o) ni; mret (fst r)
  end.
(** [_pfs_rename] up to the release of the node that was at the new path. *)
Definition rename_names (work_dir oldpbdpath newpbdpath : list Z) (o : outcome) : X Z :=
  r ← lift (pfs_namei_init work_dir oldpbdpath PFS_INODET_NONE);
  match r with
  | inl err => mret err
  | inr oldni =>
      r ← lift (pfs_namei_init work_dir newpbdpath PFS_INODET_NONE);
      match r with
      | inl err => mret err
      | inr newni =>
          if negb (bool_decide (ni_pbd oldni = ni_pbd newni)) then mret (- EXDEV) else
          if negb (bool_decide (ni_pbd oldni = mnt_pbdname)) then mret (- ENODEV) else
          r ← pfs_memdir_xrename mnt mnt_pbdname now (fst o) (snd o) oldni newni;
          mret (fst r)
      end
  end.

(** The loop of [pfs_mkdir]. *)
Fixpoint pfs_mkdir (work_dir pbdpath : list Z) (outcomes : list outcome) : X Z :=
  match outcomes with
  | [] => abort
  | o :: outcomes =>
      err ← _pfs_mkdir work_dir pbdpath o;
      if err =? - EAGAIN then pfs_mkdir work_dir pbdpath outcomes else mret err
  end.
(** The loop of [pfs_rmdir]; a round takes the outcomes of its transactions. *)
Fixpoint pfs_rmdir (work_dir pbdpath : list Z) (rounds : list (outcome * list outcome)) : X Z :=
  match rounds with
  | [] => abort
  | (o, outcomes) :: rounds =>
      err ← _pfs_rmdir work_dir pbdpath o outcomes;
      if err =? - EAGAIN then pfs_rmdir work_dir pbdpath rounds else mret err
  end.
End Api.
