(* ===== verification/ApiOps.v ===== *)
(** * Calls on paths and the namespace

    Paths of callers become well-formed requests; each call does to the
    namespace what its path says, and ends. *)

From S2P Require Import Prelude Alloc Object Blkio Blktable NameCache Inode Dir DirBase DirName DirInv DirStep DirTree DirOps DirView Dx DxInv DxOps DxTx DxSteps DxRename Namei NameiInv NameiOps Memdir MemdirOps MemdirSpec MemdirRename Api.

Open Scope pfs_scope.

(** ** Requests *)
Definition cstring (s : list Z) : Prop := Forall (fun b => b <> 0) s.
Definition absolute (s : list Z) : Prop := s = [] \/ head s = Some SLASH.

Lemma skip_slash_suffix s : exists p, s = p ++ skip_slash s.
Proof. induction s as [|x s [p IH]]; [by exists []|]. cbn [skip_slash]. destruct (x =? SLASH); [exists (x :: p); simpl; congruence|by exists []]. Qed.
Lemma skip_slash_head s : head (skip_slash s) <> Some SLASH.
Proof. induction s as [|x s IH]; [done|]. cbn [skip_slash]. destruct (Z.eqb_spec x SLASH); [done|]. cbn [head]. congruence. Qed.
Lemma strchr_ok s c n : strchr s c = Some n -> s !! n = Some c /\ c ∉ take n s.
Proof.
  revert n. induction s as [|x s IH]; intros n; [done|]. cbn [strchr]. destruct (Z.eqb_spec x c) as [->|Hne]; [intros [= <-]; split; [done|apply not_elem_of_nil]|].
  intros (m & Hm & ->)%fmap_Some. destruct (IH m Hm) as [? ?]. split; [done|]. cbn [take]. rewrite not_elem_of_cons. by split.
Qed.

Lemma namei_init_ok wd path type : absolute wd -> cstring wd -> cstring path -> exists r, pfs_namei_init wd path type = Some r /\
  match r with
  | inl err => err < 0 /\ err <> - EAGAIN
  | inr ni => fresh_ni (ni_pbd ni) ni /\ 0 < strlen (ni_pbd ni) < PFS_MAX_PBDLEN /\ (SLASH ∉ ni_pbd ni) /\ (ni_tgt_type ni = type \/ ni_tgt_type ni = PFS_INODET_DIR)
  end.
Proof.
  intros Hwd Hbwd Hbp. unfold pfs_namei_init, pfs_memdir_xgetwd.
  assert (Hbuf : forall buf, cstring buf -> head buf = Some SLASH -> exists r,
    (if strlen buf >=? PFS_MAX_PATHLEN then Some (inl (- ENAMETOOLONG)) else
      PFS_ASSERT (bool_decide (head buf = Some SLASH)) ;;
      match strchr (skip_slash (drop 1 buf)) SLASH with
      | None => Some (inl (- EINVAL))
      | Some len =>
          PFS_ASSERT (0 <? len)%nat ;;
          if Z.of_nat len >=? PFS_MAX_PBDLEN then Some (inl (- ENAMETOOLONG)) else
          if bool_decide (last (drop len (skip_slash (drop 1 buf))) = Some SLASH) && (type =? PFS_INODET_FILE) then Some (inl (- EISDIR)) else
          Some (inr (MkNi (take len (skip_slash (drop 1 buf))) (drop len (skip_slash (drop 1 buf))) [] 0 0 0 0 (if bool_decide (last (drop len (skip_slash (drop 1 buf))) = Some SLASH) then PFS_INODET_DIR else type) true instk_init))
      end) = Some r /\
    match r with inl err => err < 0 /\ err <> - EAGAIN | inr ni => fresh_ni (ni_pbd ni) ni /\ 0 < strlen (ni_pbd ni) < PFS_MAX_PBDLEN /\ (SLASH ∉ ni_pbd ni) /\ (ni_tgt_type ni = type \/ ni_tgt_type ni = PFS_INODET_DIR) end).
  { intros buf Hb Hh. destruct (strlen buf >=? PFS_MAX_PATHLEN) eqn:Hlen; [eexists; split; [done|by split]|]. rewrite Z.geb_leb in Hlen. apply Z.leb_gt in Hlen. rewrite bool_decide_true by done. destruct buf as [|x b]; [done|]. cbn [drop]. rewrite ?drop_0. destruct (skip_slash_suffix b) as [p Hp].
    pose proof (skip_slash_head b) as Hsh. set (nm := skip_slash b) in *. destruct (strchr nm SLASH) as [len|] eqn:Hc; [|eexists; split; [done|by split]]. destruct (strchr_ok _ _ _ Hc) as [Hat Hno].
    assert (Hl0 : (0 < len)%nat) by (destruct len; [|lia]; exfalso; apply Hsh; by destruct nm; simplify_eq/=). rewrite (proj2 (Nat.ltb_lt 0 len)) by done. destruct (Z.of_nat len >=? PFS_MAX_PBDLEN) eqn:Hpl; [eexists; split; [done|by split]|]. rewrite Z.geb_leb in Hpl. apply Z.leb_gt in Hpl.
    destruct (bool_decide _ && _); [eexists; split; [done|by split]|]. eexists. split; [done|]. cbn [ni_pbd ni_tgt_type]. pose proof (lookup_lt_Some _ _ _ Hat) as Hlt.
    assert (Hbl : (length p + length nm)%nat = length b) by (rewrite Hp; by rewrite length_app). unfold strlen in *. cbn [length] in Hlen. split_and!.
    - split; cbn [ni_instk ni_ino ni_par_ino ni_srch_name ni_broken_path ni_path]; try done.
      + destruct (drop len nm) as [|y r] eqn:E; [apply (f_equal length) in E; rewrite length_drop in E; simpl in E; lia|]. cbn [head]. rewrite <- (Nat.add_0_r len), <- lookup_drop, E in Hat. done.
      + apply Forall_drop. unfold cstring in Hb. rewrite Hp in Hb. apply Forall_cons in Hb as [_ Hb]. by apply Forall_app in Hb as [_ Hb].
      + unfold strlen. rewrite length_drop, length_take. lia.
    - rewrite length_take. lia.
    - rewrite length_take. lia.
    - done.
    - destruct (bool_decide _); [by right|by left]. }
  destruct path as [|c path]; [eexists; split; [done|by split]|]. destruct (Z.eqb_spec c SLASH) as [->|Hc]; [by apply Hbuf|].
  destruct wd as [|w wd]; [eexists; split; [done|by split]|]. rewrite bool_decide_false by done. destruct (strlen (w :: wd) >=? PFS_MAX_PATHLEN); [eexists; split; [done|by split]|]. change (0 <? 0) with false. cbn iota. apply Hbuf.
  - apply Forall_app. split; [done|]. by apply Forall_cons.
  - destruct Hwd as [?|Hwd]; [done|]. by rewrite <- Hwd.
Qed.

(** ** The end of a removed directory *)
Section Release.
Context {N : Type} `{NCacheLaws N} (mnt : pfs_mount).
Implicit Types (s : dstate (N * mems)) (t : tree).

(** A directory without a name, to be released. *)
Definition orphan t (i : Z) : Prop := forall nd, t !! i = Some nd -> n_link nd = None /\ i <> 0 /\ n_type nd = PFS_INODET_DIR.
Lemma delete_mem t i ni j dj : tree_ok mnt t -> t !! i = Some ni -> n_link ni = None -> j <> i -> mem_ok t j dj -> mem_ok (delete i t) j dj.
Proof.
  intros Hok Hi Hl Hj [A B C D E F G]. split; try done. intros Hst. destruct (G Hst) as (nd & Hnd & ? & ? & Hdx). exists nd. split_and!; [by rewrite lookup_delete_ne|done|done|]. intros Hty.
  eapply dx_ok_ext; [by apply Hdx|]. intros c Hc. destruct (to_ents _ _ Hok j nd c Hnd Hc) as (nc & nm & Hnc & Hlc). assert (Hne : i <> c) by congruence. unfold name_of, isdir. by rewrite lookup_delete_ne.
Qed.
Lemma delete_coherent (c : N) t dn i ni : coherent c t dn -> t !! i = Some ni -> n_link ni = None -> coherent c (delete i t) dn.
Proof.
  intros [Hinv Hc] Hi Hl. split; [done|]. intros p n j k Hk. destruct (Hc p n j k Hk) as [(nj & Hj & Hlj) ?]. split; [|done]. exists nj. split; [|done]. rewrite lookup_delete_ne; [done|congruence].
Qed.
Lemma release_ok s t dn committed undone i btime (Q : Z * unit -> dstate (N * mems) -> Prop) : ns_ok mnt s t dn -> committed <= 0 -> is_Some (os_objs (ds_in s) !! i) -> orphan t i ->
  (forall err s2, err < 0 -> err = release_err t i btime \/ (release_err t i btime = 0 /\ err = committed) -> ns_ok mnt s2 t dn -> keeps (s_ins s) (s_ins s2) -> Q (err, tt) s2) ->
  (forall s2, committed = 0 -> release_err t i btime = 0 -> ns_ok mnt s2 (delete i t) dn -> keeps (s_ins s) (s_ins s2) -> Q (0, tt) s2) ->
  runs (tls_write committed undone (err ← pfs_inode_release_dir i btime; mret (err, tt))) s Q.
Proof.
  intros Hns Hcom Hio Horp HE HQ. pose proof Hns as [[xs Hr] Hok Hco Hms Hcb]. eapply dir_write_ok; [done|done|]. dstep. unfold pfs_inode_release_dir. dstep. eapply (dir_release_ok mnt); [done|done|done|done| |].
  - intros Hneg. rewrite (proj2 (Z.eqb_neq (release_err t i btime) 0)) by lia. dstep. dstep. apply runs_ret, runs_ret. eapply fail_post; [done|apply keeps_refl|done|done|]. intros s2 Hs2 Hk2. apply HE; [done|by left|done|done].
  - intros s1 Hz Hr1 Hnc. rewrite Z.eqb_refl. assert (Hi : exists ni, t !! i = Some ni) by (unfold release_err in Hz; destruct (t !! i) as [ni|]; [by exists ni|done]). destruct Hi as [ni Hi].
    destruct (Horp ni Hi) as (Hl & Hi0 & _). set (ins1 := alter (set_stale true) i (s_ins s)).
    assert (Hinv : runs (pfs_inode_invalidate i) s1 (fun _ s2 => s2 = with_ins s1 ins1)).
    { unfold pfs_inode_invalidate. dstep. dstep. rewrite Hnc. fold (s_ins s). destruct (s_ins s !! i) as [di|] eqn:Edi.
      - apply runs_put_in. unfold ins1, s_ins. rewrite Hnc. f_equal. symmetry. apply map_eq. intros j. destruct (decide (i = j)) as [<-|Hne]; [by rewrite lookup_alter_eq, lookup_insert_eq; unfold s_ins in Edi; rewrite Edi|by rewrite lookup_alter_ne, lookup_insert_ne].
      - apply runs_ret. unfold ins1. rewrite alter_id by (intros; congruence). destruct s1 as [? ? [? []]]. unfold with_ins, s_ins. cbn [ds_nc] in *. by rewrite <- Hnc. }
    dstep. eapply runs_mono; [exact Hinv|]. intros [] s2 ->. apply runs_ret, runs_ret.
    assert (Hst : forall t', (forall j dj, j <> i -> mem_ok t j dj -> mem_ok t' j dj) -> mems_ok t' ins1).
    { intros t' Ht' j dj Hj. unfold ins1 in Hj. destruct (decide (i = j)) as [<-|Hne].
      - rewrite lookup_alter_eq in Hj. apply fmap_Some in Hj as (d0 & Hd0 & ->). eapply set_stale_ok, Hms, Hd0.
      - rewrite lookup_alter_ne in Hj by done. by apply Ht', Hms. }
    unfold tx_post. cbn [fst snd]. change (s_ins (with_ins s1 ins1)) with ins1. change (snd (ds_nc (with_ins s1 ins1))) with (MkMems ins1 (mm_cbs (snd (ds_nc s1)))). cbn [mm_cbs].
    change (fst (ds_nc (with_ins s1 ins1))) with (fst (ds_nc s1)). rewrite Hnc, Hcb.
    assert (Hk : keeps (s_ins s) ins1) by (intros j Hj; by apply lookup_alter_is_Some). split_and!; [done|apply mems_pend, Hst; by auto|done| |].
    + intros Hneg s2 Hs2 Hk2. change (0 <? 0) with false. cbn iota. apply HE; [lia|by right|done|done].
    + intros _ Hc0. exists (delete i t), dn, xs. split_and!; [by apply rep_ins|by eapply delete_ok_tree|by eapply delete_coherent|apply mems_pend, Hst; intros j dj Hj Hm; by eapply delete_mem|].
      intros s2 Hs2 Hk2. by apply HQ.
Qed.
End Release.

(** ** Calls *)
Section Calls.
Context {N : Type} `{NCacheLaws N} (mnt : pfs_mount) (mnt_pbdname : list Z) (now : Z).
Implicit Types (s : dstate (N * mems)) (t : tree).
Hypothesis Hfeat : is_Some (pfs_version_has_features mnt PFS_FEATURE_EXTNAME).

(** The request a path makes of this volume. *)
Definition request_of (wd path : list Z) (type : Z) : Z + nameinfo :=
  match pfs_namei_init wd path type with
  | Some (inr ni) => if bool_decide (ni_pbd ni = mnt_pbdname) then inr ni else inl (- ENODEV)
  | Some (inl err) => inl err
  | None => inl 0
  end.
Lemma get_namei_ok s wd path type (Q : Z + nameinfo -> dstate (N * mems) -> Prop) : absolute wd -> cstring wd -> cstring path ->
  match request_of wd path type with
  | inl err => err < 0 -> err <> - EAGAIN -> Q (inl err) s
  | inr ni => fresh_ni mnt_pbdname ni -> ni_tgt_type ni = type \/ ni_tgt_type ni = PFS_INODET_DIR -> Q (inr ni) s
  end -> runs (get_mount_namei mnt_pbdname wd path type) s Q.
Proof.
  intros Hwd Hbw Hbp. destruct (namei_init_ok wd path type Hwd Hbw Hbp) as (r & E & Hr). unfold request_of, get_mount_namei. rewrite E. destruct r as [err|ni].
  - intros HQ. dstep. eapply runs_lift; [done|]. apply runs_ret. destruct Hr. by apply HQ.
  - destruct Hr as (Hfr & _ & _ & Hty). case_bool_decide as Hn; intros HQ; dstep; (eapply runs_lift; [done|]); apply runs_ret; [rewrite bool_decide_true by done; rewrite Hn in Hfr|rewrite bool_decide_false by done]; by apply HQ.
Qed.

Definition mkdir_spec t (wd path : list Z) (committed err : Z) t' : Prop :=
  match request_of wd path PFS_INODET_DIR with
  | inl e => err = e /\ t' = t
  | inr ni => exists i, lookup_spec mnt now t ni (Z.lor O_CREAT O_EXCL) committed err i t'
  end.
Lemma mkdir_ok s t dn wd path o : ns_ok mnt s t dn -> absolute wd -> cstring wd -> cstring path -> fst o <= 0 ->
  runs (_pfs_mkdir mnt mnt_pbdname now wd path o) s (fun err s' => exists t' dn', mkdir_spec t wd path (fst o) err t' /\ ns_ok mnt s' t' dn' /\ keeps (s_ins s) (s_ins s')).
Proof.
  intros Hns Hwd Hbw Hbp Hcom. unfold _pfs_mkdir, mkdir_spec. dstep. eapply get_namei_ok; [done..|]. destruct (request_of wd path PFS_INODET_DIR) as [err|ni].
  - intros He _. apply runs_ret. exists t, dn. split_and!; [done|done|done|apply keeps_refl].
  - intros Hfr Hty. dstep. eapply runs_mono; [eapply (xlookup_ok mnt mnt_pbdname now s t dn)|]; [done|done|done|done|by intros _; destruct Hty; left|]. intros [err ni'] s' (t' & dn' & Hsp & Hs' & Hk). apply runs_ret. exists t', dn'. split; [|by split]. by eexists.
Qed.
(** A repeated call ends with the first commit that is not to be repeated. *)
Definition no_again (outcomes : list (Z * list Z)) : Prop := Exists (fun o => fst o <> - EAGAIN) outcomes.
Definition commits (outcomes : list (Z * list Z)) : Prop := Forall (fun o => fst o <= 0 /\ fst o <> - ENOENT) outcomes.
Lemma request_again wd path type : absolute wd -> cstring wd -> cstring path -> request_of wd path type <> inl (- EAGAIN).
Proof.
  intros Hwd Hbw Hbp. destruct (namei_init_ok wd path type Hwd Hbw Hbp) as (r & E & Hr). unfold request_of. rewrite E. destruct r as [err|ni]; [intros [= ->]; by destruct Hr|]. by case_bool_decide.
Qed.
Lemma walk_wrong t max names e : forall l, walk t max l names = Wrong e -> e = - ENAMETOOLONG \/ e = - ENOTDIR \/ e = - ENOENT.
Proof.
  induction names as [|name names IH]; intros l; cbn [walk]; [done|]. destruct (_ >=? _); [intros [= <-]; auto|]. destruct (negb _); [intros [= <-]; auto|]. case_bool_decide; [apply IH|]. case_bool_decide; [apply IH|].
  destruct (entry t (top l) name); [apply IH|]. destruct names; [done|]. intros [= <-]. auto.
Qed.
Lemma walk_chain t max names l' : tree_ok mnt t -> forall l, chain t (top l) l -> walk t max l names = Found l' -> chain t (top l') l'.
Proof.
  intros Hok. induction names as [|name names IH]; intros l Hl; cbn [walk]; [intros [= <-]; done|]. destruct (_ >=? _); [done|]. destruct (negb _); [done|]. case_bool_decide; [by apply IH|]. case_bool_decide; [by apply IH, chain_tail|].
  destruct (entry t (top l) name) as [c|] eqn:E; [|by destruct names]. apply IH. apply (entry_child mnt) in E; [|done]. by eapply chain_up_child.
Qed.
Lemma found_again t tgt oflags l : found_err t tgt oflags l <> - EAGAIN.
Proof. unfold found_err. destruct (Z.land oflags _ =? _); [done|]. destruct (_ && _); [by destruct (isdir t (top l))|done]. Qed.
Lemma mkdir_again t wd path committed t' : absolute wd -> cstring wd -> cstring path -> mkdir_spec t wd path committed (- EAGAIN) t' -> committed = - EAGAIN /\ t' = t.
Proof.
  intros Hwd Hbw Hbp. unfold mkdir_spec. pose proof (request_again wd path PFS_INODET_DIR Hwd Hbw Hbp) as Hrq. destruct (request_of wd path PFS_INODET_DIR) as [err|ni]; [intros [<- _]; done|].
  intros [i Hsp]. unfold lookup_spec in Hsp. unfold resolve in Hsp. destruct (walk _ _ _ _) as [l|l name|e] eqn:Hwk.
  - destruct Hsp as (-> & _ & He). pose proof (found_again t (ni_tgt_type ni) (Z.lor O_CREAT O_EXCL) l) as Hfa. destruct (found_err t (ni_tgt_type ni) (Z.lor O_CREAT O_EXCL) l <? 0); [by rewrite <- He in Hfa|].
    done.
  - destruct Hsp as [[? _]|(_ & [?|?] & ->)]; done.
  - destruct Hsp as [<- _]. by destruct (walk_wrong _ _ _ _ _ Hwk) as [?|[?|?]].
Qed.

(** The loop of the call. *)
Definition mkdir_ends t (wd path : list Z) (outcomes : list (Z * list Z)) (err : Z) t' : Prop := exists o, o ∈ outcomes /\ mkdir_spec t wd path (fst o) err t' /\ err <> - EAGAIN.
Lemma mkdir_loop_ok s t dn wd path outcomes : ns_ok mnt s t dn -> absolute wd -> cstring wd -> cstring path -> commits outcomes -> no_again outcomes ->
  runs (pfs_mkdir mnt mnt_pbdname now wd path outcomes) s (fun err s' => exists t' dn', mkdir_ends t wd path outcomes err t' /\ ns_ok mnt s' t' dn' /\ keeps (s_ins s) (s_ins s')).
Proof.
  intros Hns Hwd Hbw Hbp Hcs Hna. revert s dn Hns. induction outcomes as [|o outcomes IH]; intros s dn Hns; [by apply Exists_nil in Hna|]. apply Forall_cons in Hcs as [[Ho _] Hcs]. cbn [pfs_mkdir]. dstep.
  eapply runs_mono; [by eapply mkdir_ok|]. intros err s1 (t1 & dn1 & Hsp & Hns1 & Hk1). destruct (Z.eqb_spec err (- EAGAIN)) as [->|Hne].
  - destruct (mkdir_again t wd path (fst o) t1) as [Ec ->]; [done..|]. apply Exists_cons in Hna as [?|Hna]; [done|].
    eapply runs_mono; [by eapply (IH Hcs Hna s1 dn1)|]. intros err s2 (t2 & dn2 & (o2 & Ho2 & ? & ?) & Hns2 & Hk2). exists t2, dn2. split_and!; [exists o2; split_and!; [by right|done|done]|done|by eapply keeps_trans].
  - apply runs_ret. exists t1, dn1. split; [|by split]. exists o. split_and!; [left|done|done].
Qed.

(** *** Removal of a directory *)
Lemma release_loop_ok s t dn outcomes i btime (Q : Z -> dstate (N * mems) -> Prop) : ns_ok mnt s t dn -> orphan t i -> is_Some (t !! i) -> btime_of t i = btime -> commits outcomes -> no_again outcomes ->
  (forall o s2, o ∈ outcomes -> fst o < 0 -> fst o <> - EAGAIN -> ns_ok mnt s2 t dn -> keeps (s_ins s) (s_ins s2) -> Q (fst o) s2) ->
  (forall s2, ns_ok mnt s2 (delete i t) dn -> keeps (s_ins s) (s_ins s2) -> Q 0 s2) -> runs (pfs_inode_release outcomes i btime) s Q.
Proof.
  intros Hns Horp [nd Hi] Hb Hcs Hna. assert (Hre : release_err t i btime = 0) by (unfold release_err, btime_of in *; rewrite Hi in *; by rewrite Hb, Z.eqb_refl).
  revert s Hns. induction outcomes as [|o outcomes IH]; intros s Hns HE HQ; [by apply Exists_nil in Hna|]. apply Forall_cons in Hcs as [[Ho Hon] Hcs]. cbn [pfs_inode_release]. dstep.
  destruct (no_rep _ _ _ _ Hns) as [xs Hr]. eapply (release_ok mnt s t dn); [done|done|destruct (r_node _ _ _ _ Hr i nd Hi) as (mo & ? & _); by eexists|done| |].
  - intros err s2 He Hw Hs2 Hk2. assert (Hw' : err = fst o) by (rewrite Hre in Hw; destruct Hw as [?|[_ ?]]; [lia|done]). clear Hw. subst err. cbn [fst]. rewrite (proj2 (Z.eqb_neq (fst o) (- ENOENT))) by done.
    cbn zeta. destruct (Z.eqb_spec (fst o) (- EAGAIN)) as [Ea|Ea]; [|apply runs_ret, HE; [left|done|done|done|done]]. apply Exists_cons in Hna as [?|Hna]; [done|]. apply (IH Hcs Hna s2 Hs2).
    + intros o2 s3 Ho2 Hn2 Ha2 Hs3 Hk3. apply HE; [by right|done|done|done|by eapply keeps_trans].
    + intros s3 Hs3 Hk3. apply HQ; [done|by eapply keeps_trans].
  - intros s2 _ _ Hs2 Hk2. cbn [fst]. change (0 =? - ENOENT) with false. cbn iota zeta. change (0 =? - EAGAIN) with false. cbn iota. apply runs_ret. by apply HQ.
Qed.
Lemma removed_orphan t d i nm : tree_ok mnt t -> child t d nm i -> del_err t d i true = 0 -> orphan (t_remove d i t) i /\ is_Some (t_remove d i t !! i) /\ btime_of (t_remove d i t) i = btime_of t i.
Proof.
  intros Hok (ni & Hi & Hl) Hde. assert (Hc : child t d nm i) by (by exists ni). destruct (del_err_ok mnt t d i ni true Hok Hi Hde) as [_ Hdir]. unfold isdir in Hdir. rewrite Hi in Hdir. apply Z.eqb_eq in Hdir.
  destruct (ev_node _ _ _ _ (evolves_remove mnt d i nm t Hok Hc) i ni Hi) as (ni' & Hi' & Ht & Hb & _). assert (Hi0 : i <> 0) by (intros ->; apply (root_link _ _ Hok) in Hi; congruence).
  split_and!; [|by eexists|unfold btime_of; by rewrite Hi, Hi', Hb]. intros nd Hnd. split_and!; [|done|congruence]. unfold t_remove in Hnd. rewrite lookup_alter_eq in Hnd. by apply fmap_Some in Hnd as (? & _ & ->).
Qed.

Lemma remove_spec_zero t ni committed err t' : tree_ok mnt t -> committed <= 0 -> remove_spec mnt t ni committed err t' -> 0 <= err -> exists i l nm, resolve mnt t ni = Found (i :: l) /\ err = 0 /\ t' = t_remove (top l) i t /\
  child t (top l) nm i /\ del_err t (top l) i (ni_tgt_type ni =? PFS_INODET_DIR) = 0.
Proof.
  intros Hok Hcom Hsp Hge. unfold remove_spec in Hsp. destruct (resolve mnt t ni) as [l|l name|e] eqn:Hres.
  - pose proof (found_err_neg t (ni_tgt_type ni) 0 l) as Hfe. cbn zeta in Hsp. destruct (Z.ltb_spec (found_err t (ni_tgt_type ni) 0 l) 0).
    { rewrite (proj2 (Z.ltb_lt (found_err t (ni_tgt_type ni) 0 l) 0)) in Hsp by done. lia. }
    destruct (Z.ltb_spec (remove_err t (ni_tgt_type ni =? PFS_INODET_DIR) l) 0) as [?|Hre]; [lia|]. destruct (Z.ltb_spec committed 0); [lia|]. destruct Hsp as [-> ->].
    destruct l as [|i l]; [done|]. cbn [remove_err] in Hre. pose proof (del_err_neg t (top l) i (ni_tgt_type ni =? PFS_INODET_DIR)). unfold resolve in Hres.
    apply walk_chain in Hres; [|done|constructor]. inversion Hres as [|? nd d nm l' Hc Hl Hch]; subst. pose proof (chain_top _ _ _ Hch) as ->. exists i, l, nm. split_and!; [done|done|done|by exists nd|lia].
  - unfold ENOENT in Hsp. lia.
  - destruct Hsp as [-> _]. unfold resolve in Hres. destruct (walk_wrong _ _ _ _ _ Hres) as [?|[?|?]]; unfold ENAMETOOLONG, ENOTDIR, ENOENT in *; lia.
Qed.

(** The path and what becomes of its directory: an error and no change, the
    end of its name and of the node, or of its name only when no release
    commits. *)
Definition rmdir_spec t (wd path : list Z) (committed : Z) (outcomes : list (Z * list Z)) (err : Z) t' : Prop :=
  match request_of wd path PFS_INODET_DIR with
  | inl e => err = e /\ t' = t
  | inr ni =>
      (err < 0 /\ remove_spec mnt t ni committed err t') \/
      exists i l, resolve mnt t ni = Found (i :: l) /\ remove_spec mnt t ni committed 0 (t_remove (top l) i t) /\
        ((err = 0 /\ t' = delete i (t_remove (top l) i t)) \/ (err < 0 /\ err ∈ outcomes.*1 /\ t' = t_remove (top l) i t))
  end.
Lemma rmdir_ok s t dn wd path o outcomes : ns_ok mnt s t dn -> absolute wd -> cstring wd -> cstring path -> fst o <= 0 -> commits outcomes -> no_again outcomes ->
  runs (_pfs_rmdir mnt mnt_pbdname wd path o outcomes) s (fun err s' => exists t' dn', rmdir_spec t wd path (fst o) outcomes err t' /\ ns_ok mnt s' t' dn' /\ keeps (s_ins s) (s_ins s')).
Proof.
  intros Hns Hwd Hbw Hbp Hcom Hcs Hna. pose proof (no_tree _ _ _ _ Hns) as Hok. unfold _pfs_rmdir, rmdir_spec. dstep. eapply get_namei_ok; [done..|]. destruct (request_of wd path PFS_INODET_DIR) as [err|ni].
  { intros He _. apply runs_ret. exists t, dn. split_and!; [done|done|done|apply keeps_refl]. }
  intros Hfr Hty. dstep. eapply runs_mono; [eapply (xremove_ok mnt mnt_pbdname s t dn); done|]. intros [err ni'] s1 (t1 & dn1 & Hsp & Hns1 & Hk1 & Hz). cbn [fst snd] in *. destruct (err >=? 0) eqn:Hge.
  - destruct (remove_spec_zero t ni (fst o) err t1 Hok Hcom Hsp ltac:(lia)) as (i & l & nm & Hres & -> & -> & Hc & Hde). destruct (Hz eq_refl) as (i' & l' & Hres' & -> & ->). rewrite Hres in Hres'. injection Hres' as <- <-.
    assert (Hd : (ni_tgt_type ni =? PFS_INODET_DIR) = true) by (apply Z.eqb_eq; by destruct Hty). rewrite Hd in Hde. destruct (removed_orphan t (top l) i nm Hok Hc Hde) as (Horp & Hin & Hb).
    eapply (release_loop_ok s1 _ dn1); [done|done|done|done|done|done| |].
    + intros o2 s2 Ho2 Hn2 _ Hs2 Hk2. exists (t_remove (top l) i t), dn1. split_and!; [|done|by eapply keeps_trans]. right. exists i, l. split_and!; [done|done|right]. split_and!; [done| |done]. apply list_elem_of_fmap. by exists o2.
    + intros s2 Hs2 Hk2. eexists _, dn1. split_and!; [|done|by eapply keeps_trans]. right. exists i, l. split_and!; [done|done|by left].
  - apply runs_ret. exists t1, dn1. split; [left; split; [lia|done]|by split].
Qed.
End Calls.
