(* ===== verification/NsCache.v ===== *)
(** * The name cache under the namespace

    The cache of pfs_namecache.cc is what the operations on directories and
    paths assume of it. *)

From S2P Require Import Prelude Alloc Object Blkio Blktable NameCache NameCacheInv NameCacheSpec Inode Dir DirBase DirName DirInv DirStep DirTree DirOps.

Open Scope pfs_scope.

Section NsCache.
Context (opts : ncopts) (mntid : Z).
(** The time of a call, and the address of a new entry. *)
Context (clock malloc : ncstate -> Z).
Hypothesis Hmax : 0 <= get_nc_max opts.
Hypothesis Hmalloc : forall s, nc_heap s !! malloc s = None.

Definition nc_ops : NCacheOps ncstate := {|
  ncache_lookup := fun p n s => pfs_namecache_lookup opts mntid p n (clock s) s;
  ncache_enter := fun p i n k s => pfs_namecache_enter opts mntid p i n k (clock s) (malloc s) true true true s;
  ncache_delete_by_deno := fun k s => pfs_namecache_delete_by_deno mntid k s |}.

Definition nc_has (s : ncstate) (p : Z) (n : list Z) (i k : Z) : Prop :=
  exists e, e ∈ view s /\ name_key e = (mntid, p, n) /\ nc_ino e = i /\ nc_deno e = k.

Lemma find_in (g : namecache -> bool) l e : List.find g l = Some e -> e ∈ l /\ g e = true.
Proof. intros [Hin Hg]%find_some. by rewrite list_elem_of_In. Qed.
(** Using an entry changes its time only. *)
Lemma touch_in g now l e : e ∈ touch opts g now l -> exists e0, e0 ∈ l /\ name_key e = name_key e0 /\ nc_ino e = nc_ino e0 /\ nc_deno e = nc_deno e0.
Proof.
  unfold touch. destruct (List.find g l) as [f|] eqn:Hf; [|by exists e]. destruct (should_promote opts now f); [|by exists e]. destruct l as [|h l]; [done|]. destruct (g h); [by exists e|].
  intros [->|Hin]%elem_of_cons; [exists f; split; [by apply find_in in Hf as [? _]|done]|]. exists e. split; [|done]. rewrite list_elem_of_In in *. by apply filter_In in Hin as [? _].
Qed.
Lemma has_touch g now s s' p n i k : view s' = touch opts g now (view s) -> nc_has s' p n i k -> nc_has s p n i k.
Proof. intros Hv (e & He & Hk & <- & <-). rewrite Hv in He. destruct (touch_in _ _ _ _ He) as (e0 & ? & Hk0 & Hi & Hd). exists e0. split_and!; [done|congruence|congruence|congruence]. Qed.
Lemma has_same s s' p n i k : view s' = view s -> nc_has s' p n i k -> nc_has s p n i k.
Proof. unfold nc_has. by intros ->. Qed.

Definition nc_laws : NCacheLaws ncstate (H := nc_ops).
Proof.
  refine {| ncache_inv := nc_ok; ncache_has := nc_has |}.
  - intros deno c Hok. destruct (delete_ok mntid deno c Hok) as (c' & E & Hok' & Hv). exists c'. split; [exact E|]. split; [done|]. intros p n i k (e & He & Hk & Hi & Hd). rewrite Hv in He.
    rewrite list_elem_of_In in He. apply filter_In in He as [He Hm]. rewrite <- list_elem_of_In in He. split; [by exists e|]. intros ->. apply negb_true_iff in Hm.
    assert (deno_match mntid deno e = true); [|congruence]. apply deno_match_key. unfold deno_key, name_key in *. congruence.
  - intros p n c Hok Hdot. destruct (nc_lookup_ok opts mntid p n (clock c) c Hok) as (r & c' & E & Hok' & _ & Hsp). exists r, c'. split; [exact E|]. split; [done|].
    inversion Hsp; subst; [split; [intros *; by apply has_same|done]|done|split; [intros *; by apply has_same|done]|].
    split; [intros *; by eapply has_touch|]. match goal with Hf : List.find _ _ = Some ?e |- _ => apply find_in in Hf as [Hin Hm]; exists (nc_deno e), e end.
    split_and!; [done|by apply name_match_key|done|done].
  - intros p i n k c Hok Hsame Hother.
    destruct (enter_ok opts mntid p i n k (clock c) (malloc c) true true true c Hok Hmax) as (c' & E & Hok' & Hsp).
    { split_and!; [done|done|done|]. intros e He. split.
      - intros Hk. apply (Hsame (nc_ino e) (nc_deno e)). by exists e.
      - intros Hd. unfold deno_key, name_key in *. injection Hd as Hm Hd. destruct (Hother (nc_parent_ino e) (nc_name e) (nc_ino e)) as [-> ->]; [|by rewrite Hm]. exists e. unfold name_key. by rewrite Hm. }
    exists c'. split; [exact E|]. split; [done|]. intros p' n' i' k' Hh. inversion Hsp; subst; [left; by eapply has_same|left; by eapply has_same| |left; by eapply has_touch].
    destruct Hh as (e & He & Hk & Hi & Hd). match goal with Hv : _ = view c' |- _ => rewrite <- Hv in He end. apply elem_of_take in He as (m & He & _). apply list_elem_of_lookup_2, elem_of_cons in He as [->|He].
    + right. unfold name_key in Hk. cbn [nc_mnt nc_parent_ino nc_name nc_ino nc_deno] in *. by simplify_eq.
    + left. by exists e.
Defined.
End NsCache.
