(* ===== verification/NsView.v ===== *)
(** * Paths and listings of the namespace

    The path a node has is a path that leads to it, and a stream opened by
    path reads the entries of its directory. *)

From S2P Require Import Prelude Alloc Object Blkio Blktable NameCache Inode Dir DirBase DirName DirInv DirStep DirTree DirOps DirView Dx DxInv DxOps DxTx DxSteps DxRename Namei NameiInv NameiOps Memdir MemdirOps MemdirSpec ApiOps.

Open Scope pfs_scope.

(** ** Components of a path *)
Lemma strtok_slash_app s nm : forall cur, strtok cur (s ++ SLASH :: nm) = strtok cur s ++ strtok [] nm.
Proof.
  induction s as [|x s IH]; intros cur; cbn [app strtok]; [rewrite Z.eqb_refl; by case_bool_decide|].
  destruct (x =? SLASH); [|apply IH]. case_bool_decide; [apply IH|]. by rewrite IH.
Qed.
Lemma strtok_word nm : forall cur, SLASH ∉ nm -> cur ++ nm <> [] -> strtok cur nm = [cur ++ nm].
Proof.
  induction nm as [|x nm IH]; intros cur Hs Hne; cbn [strtok]; [rewrite app_nil_r in *; by rewrite bool_decide_false|]. apply not_elem_of_cons in Hs as [Hx Hs].
  rewrite (proj2 (Z.eqb_neq x SLASH)) by done. rewrite IH; [by rewrite <- app_assoc|done|by destruct cur].
Qed.
Lemma strchr_first a b c : c ∉ a -> strchr (a ++ c :: b) c = Some (length a).
Proof.
  induction a as [|x a IH]; intros Ha; cbn [app strchr length]; [by rewrite Z.eqb_refl|]. apply not_elem_of_cons in Ha as [Hx Ha].
  rewrite (proj2 (Z.eqb_neq x c)) by done. by rewrite IH.
Qed.
Lemma skip_slash_word a b : a <> [] -> SLASH ∉ a -> skip_slash (a ++ b) = a ++ b.
Proof. destruct a as [|x a]; intros Ha Hs; [done|]. apply not_elem_of_cons in Hs as [Hx _]. cbn [app skip_slash]. by rewrite (proj2 (Z.eqb_neq x SLASH)). Qed.

Section Paths.
Context (mnt : pfs_mount) (mnt_pbdname : list Z).
Implicit Types (t : tree).

Lemma walk_snoc t max names name : forall l l', walk t max l names = Found l' -> walk t max l (names ++ [name]) = walk t max l' [name].
Proof.
  induction names as [|n names IH]; intros l l'; cbn [app]; [by intros [= ->]|]. cbn [walk]. destruct (_ >=? _); [done|]. destruct (negb _); [done|].
  case_bool_decide; [apply IH|]. case_bool_decide; [apply IH|]. destruct (entry t (top l) n); [apply IH|]. by destruct names.
Qed.
Lemma name_short name : name_ok mnt name -> strlen name < maxnamelen mnt.
Proof.
  intros ([_ Hl] & _ & _ & _ & Hf). unfold maxnamelen, strlen in *. destruct Hf as [Hf|Hf].
  - destruct (forward_cases name) as [[? _]|[_ E]]; [|congruence]. destruct (pfs_version_has_features _ _) as [[]|]; unfold PFS_MAX_NAMELEN, PFS_MAX_NAMELEN_OLD; lia.
  - unfold extname in Hf. by rewrite Hf.
Qed.

(** A path without the device. *)
Definition rel_path t (l : list Z) : list Z := drop (S (length mnt_pbdname)) (path_str mnt_pbdname t l).
Lemma path_rel t l : path_str mnt_pbdname t l = SLASH :: mnt_pbdname ++ rel_path t l.
Proof.
  unfold rel_path. induction l as [|c l IH]; cbn [path_str drop]; [by rewrite drop_all, app_nil_r|]. rewrite IH. cbn [app drop]. f_equal. rewrite <- !app_assoc. by rewrite drop_app_length.
Qed.
Lemma rel_cons t c l : rel_path t (c :: l) = rel_path t l ++ SLASH :: name_of t c.
Proof. pose proof (path_rel t (c :: l)) as E. cbn [path_str] in E. rewrite path_rel in E. cbn [app] in E. injection E as E. rewrite <- app_assoc in E. by apply app_inv_head in E. Qed.
Lemma walk_rel t l : tree_ok mnt t -> chain t (top l) l -> walk t (maxnamelen mnt) [] (strtok [] (rel_path t l)) = Found l.
Proof.
  intros Hok. induction l as [|c l IH]; intros Hch; [unfold rel_path; cbn [path_str drop]; by rewrite drop_all|].
  inversion Hch as [|? nc d nm l' Hc Hl Hch']; subst. pose proof (chain_top _ _ _ Hch') as ->. assert (Hcd : child t (top l) nm c) by (by exists nc). rewrite rel_cons, (name_of_child t (top l) nm c) by done.
  pose proof (to_name _ _ Hok c nc _ nm Hc Hl) as Hnm. pose proof (name_short _ Hnm) as Hs. destruct Hnm as (_ & Hne & Hsl & Hdot & _).
  rewrite strtok_slash_app, (strtok_word nm []) by done. rewrite (walk_snoc _ _ _ _ _ l) by (by apply IH). cbn [app walk]. rewrite Z.geb_leb, (proj2 (Z.leb_gt _ _)) by done.
  destruct (to_link _ _ Hok c nc _ nm Hc Hl) as (nd & Hd & Hty & _). unfold isdir. rewrite Hd, Hty. cbn [negb Z.eqb Pos.eqb]. unfold dotted in Hdot. apply orb_false_iff in Hdot as [H1 H2]. apply bool_decide_eq_false in H1, H2. rewrite !bool_decide_false by done.
  by rewrite (proj2 (entry_child mnt t _ _ _ Hok) Hcd).
Qed.
Lemma rel_last t c l : tree_ok mnt t -> chain t c (c :: l) -> last (rel_path t (c :: l)) <> Some SLASH.
Proof.
  intros Hok Hch. inversion Hch as [|? nc d nm l' Hc Hl Hch']; subst. rewrite rel_cons, (name_of_child t d nm c) by (by exists nc).
  pose proof (to_name _ _ Hok c nc _ nm Hc Hl) as (_ & Hne & Hsl & _). destruct (exists_last Hne) as (a & x & ->). change (SLASH :: a ++ [x]) with ((SLASH :: a) ++ [x]). rewrite app_assoc, last_snoc. set_solver.
Qed.

(** The request the path of a node makes. *)
Lemma init_path wd r type : mnt_pbdname <> [] -> (SLASH ∉ mnt_pbdname) -> strlen mnt_pbdname < PFS_MAX_PBDLEN -> strlen (SLASH :: mnt_pbdname ++ SLASH :: r) < PFS_MAX_PATHLEN ->
  let isdir := bool_decide (last (SLASH :: r) = Some SLASH) in (isdir = true -> type <> PFS_INODET_FILE) ->
  exists ni, pfs_namei_init wd (SLASH :: mnt_pbdname ++ SLASH :: r) type = Some (inr ni) /\ ni_pbd ni = mnt_pbdname /\ ni_path ni = SLASH :: r /\ ni_tgt_type ni = if isdir then PFS_INODET_DIR else type.
Proof.
  intros Hne Hs Hp Hl isd Hty. unfold pfs_namei_init. rewrite Z.eqb_refl. rewrite Z.geb_leb, (proj2 (Z.leb_gt _ _)) by done. rewrite bool_decide_true by done. cbn [drop]. rewrite ?drop_0.
  rewrite skip_slash_word, strchr_first by done. rewrite (proj2 (Nat.ltb_lt _ _)) by (destruct mnt_pbdname; [done|simpl; lia]). unfold strlen in Hp. rewrite Z.geb_leb, (proj2 (Z.leb_gt _ _)) by done.
  rewrite take_app_length, drop_app_length. fold isd. assert (E : isd && (type =? PFS_INODET_FILE) = false) by (destruct isd; [apply Z.eqb_neq; by apply Hty|done]). rewrite E. eexists. by split_and!.
Qed.
Lemma full_path_ok wd t i l type : tree_ok mnt t -> chain t i l -> mnt_pbdname <> [] -> (SLASH ∉ mnt_pbdname) -> strlen mnt_pbdname < PFS_MAX_PBDLEN ->
  strlen (full_path mnt_pbdname t i l) < PFS_MAX_PATHLEN -> (i = 0 -> type <> PFS_INODET_FILE) ->
  exists ni, pfs_namei_init wd (full_path mnt_pbdname t i l) type = Some (inr ni) /\ ni_pbd ni = mnt_pbdname /\ resolve mnt t ni = Found l /\ ni_tgt_type ni = if i =? 0 then PFS_INODET_DIR else type.
Proof.
  intros Hok Hch Hne Hs Hp Hl Hty. pose proof (chain_top _ _ _ Hch) as ->. unfold resolve. unfold full_path in *. destruct l as [|c l]; cbn [top] in *.
  - cbn [Z.eqb path_str app] in *. destruct (init_path wd [] type) as (ni & E & ? & Hpa & Ht); try done; [by intros _; apply Hty|]. exists ni. split; [exact E|]. rewrite Hpa, Ht. by split_and!.
  - destruct (chain_pos mnt t _ _ _ Hok Hch) as [_ Hc0]. rewrite (proj2 (Z.eqb_neq c 0)) in * by done. rewrite path_rel in *.
    assert (Hh : exists r, rel_path t (c :: l) = SLASH :: r).
    { rewrite rel_cons. clear. induction l as [|x l IH]; [exists (name_of t c); unfold rel_path; cbn [path_str drop]; by rewrite drop_all|]. rewrite rel_cons, <- app_assoc. destruct (rel_path t l) as [|y r]; [by eexists|]. destruct IH as [r' E]. cbn [app] in *. injection E as -> _. by eexists. }
    destruct Hh as [r Hr]. pose proof (rel_last t c l Hok Hch) as Hla. pose proof (walk_rel t (c :: l) Hok Hch) as Hw. rewrite Hr in *. destruct (init_path wd r type) as (ni & E & ? & Hpa & Ht); try done; [by rewrite bool_decide_false|].
    exists ni. split; [exact E|]. rewrite Hpa, Ht, bool_decide_false by done. by split_and!.
Qed.
End Paths.

(** ** Listing a directory *)
Section Listing.
Context {N : Type} `{NCacheLaws N} (mnt : pfs_mount) (mnt_pbdname : list Z).
Implicit Types (s : dstate (N * mems)) (t : tree).

(** The calls of [readdir] until it has no entry, at most [n]. *)
Fixpoint read_all (n : nat) (dir : pfs_dirstream) : dio (N * mems) (option (list (Z * list Z))) :=
  match n with
  | O => mret None
  | S n =>
      r ← pfs_memdir_xread dir;
      let '(err, de, dir) := r in
      if err <? 0 then mret None else
      match de with
      | None => mret (Some [])
      | Some e => es ← read_all n dir; mret (cons e <$> es)
      end
  end.

Lemma read_all_ok s t dn xs d v : rep s t dn xs -> tree_ok mnt t -> 0 <= d -> (forall k, k ∈ v -> is_Some (os_objs (ds_de s) !! k)) ->
  forall n idx (Q : option (list (Z * list Z)) -> dstate (N * mems) -> Prop), (idx <= length v)%nat -> (length (omap (owner s t d) (drop idx v)) < n)%nat ->
  Q (Some (omap (owner s t d) (drop idx v))) s -> runs (read_all n (MkDs d v (Z.of_nat idx) (Z.of_nat (length v)))) s Q.
Proof.
  intros Hr Hok Hd Hv. induction n as [|n IH]; intros idx Q Hidx Hn HQ; [lia|]. cbn [read_all]. dstep. unfold pfs_memdir_xread. dstep. eapply dir_read_ok; [done..| |].
  - intros r idx' E Hidx'. cbn beta iota. change (0 =? 0) with true. cbn iota. apply runs_ret. cbn beta iota. change (0 <? 0) with false. cbn iota. dstep. rewrite E in *. cbn [length] in Hn. apply IH; [done|lia|]. by apply runs_ret.
  - intros ds E. rewrite E in *. cbn beta iota. change (PFS_DIR_END =? 0) with false. rewrite Z.eqb_refl. cbn iota. apply runs_ret. cbn beta iota. change (0 <? 0) with false. cbn iota. by apply runs_ret.
Qed.

(** The entries of a directory: the nodes and their names. *)
Definition listing t (d : Z) : list (Z * list Z) := match t !! d with Some nd => (fun i => (i, name_of t i)) <$> n_ents nd | None => [] end.
Lemma owners_listing s t dn xs d nd : rep s t dn xs -> tree_ok mnt t -> 0 <= d -> t !! d = Some nd -> omap (owner s t d) (dn <$> n_ents nd) = listing t d.
Proof.
  intros Hr Hok Hd Hnd. unfold listing. rewrite Hnd. assert (Hall : forall i, i ∈ n_ents nd -> owner s t d (dn i) = Some (i, name_of t i)).
  { intros i Hi. destruct (to_ents _ _ Hok d nd i Hnd Hi) as (nc & nm & Hc & Hl). apply (owner_spec s t dn xs d (dn i) i _ Hr Hd). split; [|done]. rewrite (name_of_child t d nm i) by (by exists nc). by exists nc. }
  induction (n_ents nd) as [|i l IH]; [done|]. rewrite !fmap_cons. cbn [omap list_omap]. rewrite Hall by left. f_equal. apply IH. intros j Hj. apply Hall. by right.
Qed.

(** [opendir] by path. *)
Lemma xopen_ok s t dn ni (Q : Z * nameinfo * option pfs_dirstream -> dstate (N * mems) -> Prop) : is_Some (pfs_version_has_features mnt PFS_FEATURE_EXTNAME) -> ns_ok mnt s t dn -> fresh_ni mnt_pbdname ni -> ni_tgt_type ni = PFS_INODET_DIR ->
  (forall nd, t !! 0 = Some nd -> (2 <= length (n_ents nd))%nat) -> (forall d nd, t !! d = Some nd -> METAOBJ_SIZE * Z.of_nat (length (n_ents nd)) < 2 ^ 64) ->
  (forall ni' s', ns_ok mnt s' t dn -> match resolve mnt t ni with
     | Found l => if isdir t (top l) then forall nd, t !! top l = Some nd -> n_type nd = PFS_INODET_DIR -> Q (0, ni', Some (MkDs (top l) (dn <$> n_ents nd) 0 (Z.of_nat (length (n_ents nd))))) s' else Q (- ENOTDIR, ni', None) s'
     | Missing _ _ => Q (- ENOENT, ni', None) s'
     | Wrong e => Q (e, ni', None) s'
     end) -> runs (pfs_memdir_xopen mnt mnt_pbdname 0 ni) s Q.
Proof.
  intros Hf Hns Hfr Hdir H2 Hsz HQ. pose proof (no_tree _ _ _ _ Hns) as Hok. unfold pfs_memdir_xopen. cbn [Z.eqb negb]. dstep. eapply lookup_ok; [done|done|done|done|]. destruct (resolve mnt t ni) as [l|l name|err]; cbn [lookup_post].
  - intros r s1 Hg Hat Hbr Hres. pose proof (go_ns _ _ _ _ _ _ _ _ _ Hg) as Hns1. pose proof (at_chain _ _ _ _ Hat) as Hch. destruct (go_asked _ _ _ _ _ _ _ _ _ Hg) as (_ & _ & Htgt). cbn beta iota zeta.
    assert (Efe : found_err t (ni_tgt_type ni) 0 l = if isdir t (top l) then 0 else - ENOTDIR).
    { unfold found_err. rewrite Hdir, isdir_type. change (Z.land 0 _ =? _) with false. cbn iota. change (PFS_INODET_DIR =? PFS_INODET_NONE) with false. cbn [negb andb]. by destruct (type_of t (top l) =? PFS_INODET_DIR). }
    rewrite Efe in *. specialize (HQ (set_ni_instk instk_init (lr_ni r))). destruct (isdir t (top l)) eqn:Eis.
    + destruct (Hres eq_refl) as (_ & Hti & _ & _ & Hb). rewrite Hti, Htgt, Hdir, Hb. dstep. change (0 =? 0) with true. cbn iota. dstep. eapply runs_lift; [done|]. dstep. destruct (chain_node mnt t _ _ Hok Hch) as [nd Hnd].
      assert (Hty : n_type nd = PFS_INODET_DIR) by (unfold isdir in Eis; rewrite Hnd in Eis; by apply Z.eqb_eq).
      destruct (chain_objs mnt s1 t dn l (top l) Hns1 Hch) as [Hpos Hobj]; [destruct l; cbn [top app]; set_solver|].
      eapply sync_ok; [done|exact Hobj|apply on_mem_top, (go_mem _ _ _ _ _ _ _ _ _ Hg)|]. rewrite (node_sync t _ nd Hnd Hty). intros s2 di Hns2 _ _ _ _ _. dstep. change (0 =? 0) with true. cbn iota.
      eapply check_stale_ok; [done|rewrite (at_stk _ _ _ _ Hat); by eapply node_wf| |intros Hno; exfalso; apply (Hno l); rewrite (at_stk _ _ _ _ Hat); apply node_valid; [done|apply Hg|right; unfold type_of; by rewrite Hnd]].
      intros _ _. change (0 =? 0) with true. cbn iota. dstep. destruct (no_rep _ _ _ _ Hns2) as [xs2 Hr2]. eapply dir_open_ok; [exact Hr2|done|exact Hnd|done|intros E; rewrite E in Hnd; by apply H2|by eapply Hsz|]. apply runs_ret.
      dstep. eapply (path_done_ok mnt mnt_pbdname _ t _ l); [done|done|apply Hat|]. apply runs_ret. by apply HQ.
    + dstep. change (- ENOTDIR =? 0) with false. cbn iota. dstep. dstep. eapply (path_done_ok mnt mnt_pbdname _ t _ l); [done|done|apply Hat|]. apply runs_ret. by apply HQ.
  - intros r s1 Hg Hno _ _ _ _ _. cbn beta iota zeta. change (- ENOENT =? 0) with false. cbn iota. dstep. dstep. dstep. eapply (path_done_ok mnt mnt_pbdname _ t _ l); [done|apply Hno|apply Hno|]. apply runs_ret. apply HQ, Hg.
  - intros r s1 l Hneg Hg Hstk Hch _. cbn beta iota zeta. rewrite (proj2 (Z.eqb_neq err 0)) by lia. dstep. dstep. dstep. eapply (path_done_ok mnt mnt_pbdname _ t _ l); [done|done|done|]. apply runs_ret. apply HQ, Hg.
Qed.
End Listing.
