(* ===== verification/InodeInv.v ===== *)
(** * The inode and its metadata agree

    Weakest preconditions for the computations of [Inode], the laws of a pool
    of block tags, the invariant that ties the index in memory and the block
    tags to one map from file blocks to device blocks, and what every
    operation of the inode does to it. *)

From S2P Require Import Prelude Blkio Blktable Object Inode.

Open Scope pfs_scope.

(** ** Weakest preconditions: the computation ends in a state with [Q] *)
Definition wp {P T} (m : fio P T) (s : fstate P) (Q : T -> fstate P -> Prop) : Prop :=
  exists x s', m s = Some (x, s') /\ Q x s'.

Section Wp.
Context {P : Type} `{BlkPool P}.
Implicit Types s : fstate P.

Lemma wp_ret {T} (x : T) s (Q : T -> fstate P -> Prop) : Q x s -> wp (mret x) s Q.
Proof. intros HQ. by exists x, s. Qed.
Lemma wp_bind {T U} (m : fio P T) (f : T -> fio P U) s (Q : U -> fstate P -> Prop) :
  wp m s (fun x s' => wp (f x) s' Q) -> wp (m ≫= f) s Q.
Proof.
  intros (x & s1 & Hm & y & s2 & Hf & HQ). exists y, s2. split; [|done].
  unfold mbind, fio_bind. by rewrite Hm.
Qed.
Lemma wp_mono {T} (m : fio P T) s (Q Q' : T -> fstate P -> Prop) :
  wp m s Q -> (forall x s', Q x s' -> Q' x s') -> wp m s Q'.
Proof. intros (x & s1 & Hm & HQ) Hi. exists x, s1. auto. Qed.
Lemma wp_gets {T} (f : fstate P -> T) s (Q : T -> fstate P -> Prop) : Q (f s) s -> wp (gets f) s Q.
Proof. intros HQ. by exists (f s), s. Qed.
Lemma wp_lift {T} (o : option T) x s (Q : T -> fstate P -> Prop) : o = Some x -> Q x s -> wp (lift o) s Q.
Proof. intros -> HQ. by exists x, s. Qed.
Lemma wp_assert b s (Q : unit -> fstate P -> Prop) : b = true -> Q tt s -> wp (assert_ b) s Q.
Proof. intros -> HQ. by exists tt, s. Qed.
Lemma wp_upd_in f s (Q : unit -> fstate P -> Prop) :
  Q tt (MkFs (fs_dev s) (fs_phy s) (f (fs_in s)) (fs_tx s) (fs_logs s)) -> wp (upd_in f) s Q.
Proof. intros HQ. eexists _, _. by split. Qed.
Lemma wp_upd_phy f s (Q : unit -> fstate P -> Prop) :
  Q tt (MkFs (fs_dev s) (f (fs_phy s)) (fs_in s) (fs_tx s) (fs_logs s)) -> wp (upd_phy f) s Q.
Proof. intros HQ. eexists _, _. by split. Qed.
Lemma wp_upd_tx f s (Q : unit -> fstate P -> Prop) :
  Q tt (MkFs (fs_dev s) (fs_phy s) (fs_in s) (f <$> fs_tx s) (fs_logs s)) -> wp (upd_tx f) s Q.
Proof. intros HQ. eexists _, _. by split. Qed.
Lemma wp_set_tx tx s (Q : unit -> fstate P -> Prop) :
  Q tt (MkFs (fs_dev s) (fs_phy s) (fs_in s) tx (fs_logs s)) -> wp (set_tx tx) s Q.
Proof. intros HQ. eexists _, _. by split. Qed.
Lemma wp_upd_dev {T} (f : device -> option (T * device)) x d s (Q : T -> fstate P -> Prop) :
  f (fs_dev s) = Some (x, d) -> Q x (MkFs d (fs_phy s) (fs_in s) (fs_tx s) (fs_logs s)) -> wp (upd_dev f) s Q.
Proof. intros Hf HQ. eexists _, _. split; [|exact HQ]. unfold upd_dev. by rewrite Hf. Qed.
End Wp.

(** One step through a computation. *)
Ltac fstep :=
  cbv beta iota zeta;
  lazymatch goal with
  | |- wp (mbind _ _) _ _ => apply wp_bind
  | |- wp (mret _) _ _ => apply wp_ret
  | |- wp (gets _) _ _ => apply wp_gets; cbn [fs_dev fs_phy fs_in fs_tx fs_logs]
  | |- wp (upd_in _) _ _ => apply wp_upd_in; cbn [fs_dev fs_phy fs_in fs_tx fs_logs]
  | |- wp (upd_phy _) _ _ => apply wp_upd_phy; cbn [fs_dev fs_phy fs_in fs_tx fs_logs ph_in ph_list ph_pool]
  | |- wp (upd_phyin _) _ _ => unfold upd_phyin; apply wp_upd_phy; cbn [fs_dev fs_phy fs_in fs_tx fs_logs ph_in ph_list ph_pool]
  | |- wp (upd_pool _) _ _ => unfold upd_pool; apply wp_upd_phy; cbn [fs_dev fs_phy fs_in fs_tx fs_logs ph_in ph_list ph_pool]
  | |- wp (upd_tx _) _ _ => apply wp_upd_tx; cbn [fs_dev fs_phy fs_in fs_tx fs_logs fmap option_fmap option_map]
  | |- wp (set_tx _) _ _ => apply wp_set_tx; cbn [fs_dev fs_phy fs_in fs_tx fs_logs]
  | |- wp (assert_ _) _ _ => apply wp_assert
  | |- wp (lift _) _ _ => eapply wp_lift
  end.

(** ** What a pool of block tags promises *)
Class PoolLaws (mnt : pfs_mount) (P : Type) `{BlkPool P} := {
  bp_wf : P -> Prop;
  bp_in_use : forall p n bt, bp_wf p -> bp_tag p n = Some bt ->
    0 < btno2blkno n /\ btno2blkno n * mnt_blksize (mnt_geo mnt) + mnt_blksize (mnt_geo mnt) <= mnt_disksize (mnt_geo mnt) /\
    blkno2btno (btno2blkno n) = n;
  bp_put_ok : forall p n bt0 bt, bp_wf p -> bp_tag p n = Some bt0 ->
    bt_dstatus bt = bt_dstatus bt0 -> bt_ndiscard bt = bt_ndiscard bt0 ->
    bp_wf (bp_put n bt p) /\ forall k, bp_tag (bp_put n bt p) k = if k =? n then Some bt else bp_tag p k;
  bp_alloc_ok : forall p, bp_wf p -> pfs_version_has_features mnt PFS_FEATURE_BLKHOLE = Some true ->
    bp_alloc mnt p = Some (None, p) \/
    exists n p' bt, bp_alloc mnt p = Some (Some n, p') /\ bp_wf p' /\ bp_tag p n = None /\
      bt_holeoff bt = 0 /\ bt_holelen bt = mnt_blksize (mnt_geo mnt) /\
      forall k, bp_tag p' k = if k =? n then Some bt else bp_tag p k;
  bp_free_ok : forall p n bt, bp_wf p -> bp_tag p n = Some bt ->
    exists p', bp_free n p = Some p' /\ bp_wf p' /\ forall k, bp_tag p' k = if k =? n then None else bp_tag p k }.

Lemma filter_one (l : list Z) n : NoDup l -> n ∈ l -> S (length (filter (fun k => k <> n) l)) = length l.
Proof.
  induction l as [|k l IH]; intros Hnd Hn; [by apply elem_of_nil in Hn|].
  apply NoDup_cons in Hnd as [Hk Hnd]. apply elem_of_cons in Hn as [->|Hn]; rewrite filter_cons; simpl.
  - rewrite decide_False by tauto. f_equal. f_equal. clear IH Hnd. induction l as [|j l IH]; [done|].
    rewrite filter_cons, decide_True by set_solver. f_equal. apply IH. set_solver.
  - rewrite decide_True by congruence. simpl. f_equal. by apply IH.
Qed.

(** ** The metadata of a file as a map from its blocks to device blocks *)
Definition tag_dblk (n : Z) (bt : pfs_blktag_phy) : pfs_dblk := MkDblk (btno2blkno n) (bt_holeoff bt) (bt_holelen bt).

Section Phy.
Context (mnt : pfs_mount) {P : Type} `{PoolLaws mnt P} (ino : Z).
Let B := mnt_blksize (mnt_geo mnt).

Definition hole_ok (b : pfs_dblk) : Prop :=
  db_holelen b = 0 \/ (0 <= db_holeoff b /\ 0 < db_holelen b /\ db_holeoff b + db_holelen b = B).

(** The tags on the list are the tags of the file, each for one block. *)
Record tags_ok (l : list Z) (pool : P) (m : gmap Z pfs_dblk) : Prop := {
  tg_wf : bp_wf pool;
  tg_nodup : NoDup l;
  tg_list : forall n, n ∈ l -> exists bt, bp_tag pool n = Some bt /\ bt_ino bt = ino /\ blkid_ok (bt_blkid bt) /\
      m !! bt_blkid bt = Some (tag_dblk n bt);
  tg_map : forall blkid b, m !! blkid = Some b -> exists n bt, n ∈ l /\ bp_tag pool n = Some bt /\ bt_blkid bt = blkid /\
      b = tag_dblk n bt;
  tg_hole : forall blkid b, m !! blkid = Some b -> hole_ok b
}.

Record phy_ok (ph : phy P) (m : gmap Z pfs_dblk) (sz btime : Z) : Prop := {
  py_tags : tags_ok (ph_list ph) (ph_pool ph) m;
  py_type : in_type (ph_in ph) = PFS_INODET_FILE;
  py_nblock : in_nblock (ph_in ph) = Z.of_nat (length (ph_list ph));
  py_size : in_size (ph_in ph) = sz;
  py_pos : 0 <= sz;
  py_btime : in_btime (ph_in ph) = btime
}.

Section Tags.
Context (l : list Z) (pool : P) (m : gmap Z pfs_dblk).
Hypothesis Hok : tags_ok l pool m.

Lemma tags_entry blkid b : m !! blkid = Some b -> exists n bt, n ∈ l /\ bp_tag pool n = Some bt /\ bt_blkid bt = blkid /\
  b = tag_dblk n bt /\ blkid_ok blkid /\ bt_ino bt = ino /\
  0 < db_blkno b /\ db_blkno b * B + B <= mnt_disksize (mnt_geo mnt) /\ blkno2btno (db_blkno b) = n /\ hole_ok b.
Proof.
  intros Hm. destruct (tg_map _ _ _ Hok _ _ Hm) as (n & bt & Hn & Ht & Hb & ->). exists n, bt.
  destruct (tg_list _ _ _ Hok n Hn) as (bt' & Ht' & Hi & Hbk & _). rewrite Ht in Ht'. injection Ht' as <-.
  destruct (bp_in_use pool n bt (tg_wf _ _ _ Hok) Ht) as (Hp & Hd & Hr). rewrite Hb in Hbk.
  split_and!; try done. by eapply tg_hole.
Qed.

(** Different file blocks have different device blocks. *)
Lemma tags_inj blkid blkid' b b' : m !! blkid = Some b -> m !! blkid' = Some b' -> db_blkno b = db_blkno b' -> blkid = blkid'.
Proof.
  intros Hb Hb' E. destruct (tags_entry _ _ Hb) as (n & bt & _ & Ht & Hi & -> & _ & _ & _ & _ & Hn & _).
  destruct (tags_entry _ _ Hb') as (n' & bt' & _ & Ht' & Hi' & -> & _ & _ & _ & _ & Hn' & _).
  simpl in *. rewrite E in Hn. rewrite Hn in Hn'. subst n'. rewrite Ht in Ht'. injection Ht' as <-. congruence.
Qed.

Lemma tags_dom blkid : is_Some (m !! blkid) -> blkid_ok blkid.
Proof. intros [b Hb]. by destruct (tags_entry _ _ Hb) as (n & bt & _ & _ & _ & _ & ? & _). Qed.

(** A tag on the list gets another hole. *)
Lemma tags_set_hole blkid b off len : m !! blkid = Some b -> hole_ok (MkDblk (db_blkno b) off len) ->
  exists bt, bp_tag pool (blkno2btno (db_blkno b)) = Some bt /\
    tags_ok l (bp_put (blkno2btno (db_blkno b)) (set_tag_hole off len bt) pool) (<[blkid := MkDblk (db_blkno b) off len]> m).
Proof.
  intros Hm Hh. destruct (tags_entry _ _ Hm) as (n & bt & Hn & Ht & Hi & -> & Hbk & Hino & _ & _ & -> & _).
  exists bt. split; [done|]. simpl in *.
  destruct (bp_put_ok pool n bt (set_tag_hole off len bt) (tg_wf _ _ _ Hok) Ht) as [Hwf Hput]; [done..|].
  split; [done|apply (tg_nodup _ _ _ Hok)| | |].
  - intros k Hk. rewrite Hput. destruct (Z.eqb_spec k n) as [->|Hne].
    + eexists. split; [done|]. simpl. rewrite Hi. split_and!; [done|done|by rewrite lookup_insert_eq].
    + destruct (tg_list _ _ _ Hok k Hk) as (bt' & Ht' & Hi' & Hbk' & Hm'). exists bt'. split_and!; try done.
      rewrite lookup_insert_ne; [done|]. intros E. rewrite <- E in Hm'. rewrite Hm in Hm'. injection Hm' as E1 _ _.
      apply Hne. destruct (bp_in_use pool k bt' (tg_wf _ _ _ Hok) Ht') as (_ & _ & <-).
      destruct (bp_in_use pool n bt (tg_wf _ _ _ Hok) Ht) as (_ & _ & <-). by rewrite E1.
  - intros blkid' b' [[<- <-]|[Hne Hm']]%lookup_insert_Some.
    + exists n, (set_tag_hole off len bt). split_and!; [done|by rewrite Hput, Z.eqb_refl|done|done].
    + destruct (tg_map _ _ _ Hok _ _ Hm') as (k & bt' & Hk & Ht' & Hb' & ->). exists k, bt'. split_and!; try done.
      rewrite Hput. destruct (Z.eqb_spec k n) as [->|]; [|done]. rewrite Ht in Ht'. injection Ht' as <-. congruence.
  - intros blkid' b' [[_ <-]|[_ Hm']]%lookup_insert_Some; [done|by eapply tg_hole].
Qed.

(** A new tag for a block without one. *)
Lemma tags_add blkid n p' bt : m !! blkid = None -> blkid_ok blkid -> bp_wf p' -> bp_tag pool n = None ->
  bt_holeoff bt = 0 -> bt_holelen bt = B -> 0 < B -> (forall k, bp_tag p' k = if k =? n then Some bt else bp_tag pool k) ->
  tags_ok (l ++ [n]) (bp_put n (set_tag_owner ino blkid bt) p') (<[blkid := MkDblk (btno2blkno n) 0 B]> m).
Proof.
  intros Hm Hb Hwf Hn Hho Hhl HB Hp'.
  destruct (bp_put_ok p' n bt (set_tag_owner ino blkid bt) Hwf) as [Hwf2 Hput]; [by rewrite Hp', Z.eqb_refl|done..|].
  assert (Hnl : forall k, k ∈ l -> k <> n).
  { intros k Hk ->. destruct (tg_list _ _ _ Hok n Hk) as (bt' & Ht' & _). congruence. }
  split; [done| | | |].
  - apply NoDup_app. split_and!; [apply (tg_nodup _ _ _ Hok)| |apply NoDup_singleton].
    intros k Hk ->%list_elem_of_singleton. by eapply Hnl.
  - intros k [Hk| ->%list_elem_of_singleton]%elem_of_app.
    + pose proof (Hnl k Hk) as Hne. destruct (tg_list _ _ _ Hok k Hk) as (bt' & Ht' & Hi' & Hbk' & Hm'). exists bt'.
      rewrite Hput, Hp', (proj2 (Z.eqb_neq k n)) by done. split_and!; try done. rewrite lookup_insert_ne; [done|congruence].
    + eexists. rewrite Hput, Z.eqb_refl. split; [done|]. simpl. split_and!; [done|done|]. rewrite lookup_insert_eq.
      unfold tag_dblk. simpl. by rewrite Hho, Hhl.
  - intros blkid' b' [[<- <-]|[Hne Hm']]%lookup_insert_Some.
    + exists n, (set_tag_owner ino blkid bt). split_and!; [set_solver|by rewrite Hput, Z.eqb_refl|done|].
      unfold tag_dblk. simpl. by rewrite Hho, Hhl.
    + destruct (tg_map _ _ _ Hok _ _ Hm') as (k & bt' & Hk & Ht' & Hb' & ->). exists k, bt'. split_and!; try done; [set_solver|].
      by rewrite Hput, Hp', (proj2 (Z.eqb_neq k n)) by by apply Hnl.
  - intros blkid' b' [[_ <-]|[_ Hm']]%lookup_insert_Some; [|by eapply tg_hole]. right. simpl. lia.
Qed.

(** The tag of a block goes back to the pool. *)
Lemma tags_del blkid b : m !! blkid = Some b -> let n := blkno2btno (db_blkno b) in
  exists bt p', bp_tag pool n = Some bt /\ bt_blkid bt = blkid /\ bp_free n pool = Some p' /\
    tags_ok (filter (fun k => k <> n) l) p' (delete blkid m) /\ n ∈ l /\
    S (length (filter (fun k => k <> n) l)) = length l /\
    (forall k, bp_tag p' k = if k =? n then None else bp_tag pool k).
Proof.
  intros Hm n0. destruct (tags_entry _ _ Hm) as (n & bt & Hn & Ht & Hi & Eb & _ & _ & _ & _ & En & _). subst n0. rewrite En.
  destruct (bp_free_ok pool n bt (tg_wf _ _ _ Hok) Ht) as (p' & Hf & Hwf & Hp'). exists bt, p'. split_and!; try done.
  - split; [done|apply NoDup_filter, (tg_nodup _ _ _ Hok)| | |].
    + intros k [Hne Hk]%list_elem_of_filter. destruct (tg_list _ _ _ Hok k Hk) as (bt' & Ht' & Hi' & Hbk' & Hm'). exists bt'.
      rewrite Hp', (proj2 (Z.eqb_neq k n)) by done. split_and!; try done. rewrite lookup_delete_ne; [done|].
      intros E. rewrite <- E in Hm'. rewrite Hm in Hm'. injection Hm' as E1. apply Hne.
      destruct (bp_in_use pool k bt' (tg_wf _ _ _ Hok) Ht') as (_ & _ & <-).
      by rewrite <- En, E1.
    + intros blkid' b' [Hne Hm']%lookup_delete_Some.
      destruct (tg_map _ _ _ Hok _ _ Hm') as (k & bt' & Hk & Ht' & Hb' & ->). exists k, bt'.
      assert (k <> n). { intros ->. rewrite Ht in Ht'. injection Ht' as <-. congruence. }
      split_and!; try done; [by apply list_elem_of_filter|]. by rewrite Hp', (proj2 (Z.eqb_neq k n)).
    + intros blkid' b' [_ Hm']%lookup_delete_Some. by eapply tg_hole.
  - apply filter_one; [apply (tg_nodup _ _ _ Hok)|done].
Qed.
End Tags.

(** The tags of other files stay. *)
Definition others (ph ph' : phy P) : Prop :=
  forall n bt, bp_tag (ph_pool ph) n = Some bt -> n ∉ ph_list ph -> bp_tag (ph_pool ph') n = Some bt /\ n ∉ ph_list ph'.
Lemma others_refl ph : others ph ph.
Proof. by intros n bt. Qed.
Lemma others_trans ph ph1 ph2 : others ph ph1 -> others ph1 ph2 -> others ph ph2.
Proof. intros H1 H2 n bt Hn Hl. destruct (H1 n bt Hn Hl) as [Hn1 Hl1]. by apply H2. Qed.
End Phy.

(** ** Operations of the inode *)
(** An inode in memory that a transaction of its own thread may use. *)
Definition core (ino sz sz2 ct btime : Z) (stale : bool) (ip md : Z) (wm : pfs_writemodify) (rv : Z) (tb : blk_tables) : pfs_inode :=
  MkIn ino PFS_INODET_FILE sz sz2 ct btime stale true ip md wm rv rv tb.

Definition add_ops {P} (inode : bool) (cbs : list txcb) (tx : txn P) : txn P :=
  MkTxn true (t_inode tx || inode) (t_cbs tx ++ cbs) (t_saved tx) (t_timeoutfail tx).
Lemma add_ops_assoc {P} i1 c1 i2 c2 (tx : txn P) : add_ops i2 c2 (add_ops i1 c1 tx) = add_ops (i1 || i2) (c1 ++ c2) tx.
Proof. unfold add_ops. simpl. by rewrite orb_assoc, app_assoc. Qed.

(** The callbacks of a transaction. *)
Definition cb_is (c c' : txcb) : bool :=
  match c, c' with CbAdd, CbAdd | CbDel, CbDel | CbHole, CbHole | CbSize, CbSize => true | _, _ => false end.
Fixpoint cb_count (c : txcb) (cbs : list txcb) : Z :=
  match cbs with [] => 0 | c' :: cbs => (if cb_is c c' then 1 else 0) + cb_count c cbs end.
Lemma cb_count_pos c cbs : 0 <= cb_count c cbs.
Proof. induction cbs as [|c' cbs IH]; simpl; [done|]. destruct (cb_is c c'); lia. Qed.
Lemma cb_count_app c cbs cbs' : cb_count c (cbs ++ cbs') = cb_count c cbs + cb_count c cbs'.
Proof. induction cbs as [|c' cbs IH]; simpl; [done|]. lia. Qed.
Lemma cb_count_rep c c' n : cb_count c (replicate n c') = if cb_is c c' then Z.of_nat n else 0.
Proof. induction n as [|n IH]; simpl; [by destruct (cb_is c c')|]. rewrite IH. destruct (cb_is c c'); lia. Qed.

(** The counters are those of the callbacks. *)
Definition cbs_ok (cbs : list txcb) (ip md : Z) : Prop :=
  ip = cb_count CbAdd cbs - cb_count CbDel cbs /\ (cb_count CbAdd cbs = 0 \/ cb_count CbDel cbs = 0) /\ md = cb_count CbHole cbs.

Definition logs_fine (logs : list Z) : Prop := Forall (fun rv => rv = 0) logs.

Section Ops.
Context (mnt : pfs_mount) {P : Type} `{PoolLaws mnt P} (ino : Z).
Let B := mnt_blksize (mnt_geo mnt).
Hypothesis Hfeat : pfs_version_has_features mnt PFS_FEATURE_BLKHOLE = Some true.
Hypothesis HB : 0 < B.

Lemma phy_get_ok d ph m sz btime sz1 sz2 ct ip md wm rv tb tx logs (Q : Z -> fstate P -> Prop) :
  phy_ok mnt ino ph m sz btime ->
  let s := MkFs d ph (core ino sz1 sz2 ct btime false ip md wm rv tb) tx logs in
  Q 0 s -> wp pfs_inode_phy_get s Q.
Proof.
  intros Hph s HQ. unfold pfs_inode_phy_get, s. repeat fstep. unfold pfs_inode_check_stale. simpl.
  rewrite (py_type _ _ _ _ _ _ Hph), (py_btime _ _ _ _ _ _ Hph), Z.eqb_refl, Z.ltb_irrefl. done.
Qed.

Lemma sync_blk_ok d ph m sz1 sz2 ct btime ip md wm rv tb tx logs v (Q : unit -> fstate P -> Prop) :
  tables_ok tb m -> tag_ok v ->
  (forall tb', pfs_inode_sync_blk_meta tb v = Some tb' -> tables_ok tb' (tag_step m v) -> Q tt (MkFs d ph (core ino sz1 sz2 ct btime false ip md wm rv tb') tx logs)) ->
  wp (sync_blk_meta v) (MkFs d ph (core ino sz1 sz2 ct btime false ip md wm rv tb) tx logs) Q.
Proof.
  intros Htb Hv HQ. destruct (sync_blk_meta_ok tb m v Htb Hv) as (tb' & Hs & Hok).
  unfold sync_blk_meta. repeat fstep; [exact Hs|]. repeat fstep. by apply HQ.
Qed.

Lemma inode_add_ok d ph m sz btime ct ip md wm rv tb tx logs blkid (Q : Z -> fstate P -> Prop) :
  phy_ok mnt ino ph m sz btime -> tables_ok tb m -> m !! blkid = None -> blkid_ok blkid ->
  (Q (- ENOSPC) (MkFs d ph (core ino sz sz ct btime false ip md wm rv tb) (Some (add_ops true [] tx)) logs)) ->
  (forall n ph' tb', let m' := <[blkid := MkDblk (btno2blkno n) 0 B]> m in
     phy_ok mnt ino ph' m' sz btime -> tables_ok tb' m' -> others ph ph' -> bp_tag (ph_pool ph) n = None ->
     Q 0 (MkFs d ph' (core ino sz sz ct btime false (ip + 1) md wm rv tb') (Some (add_ops true [CbAdd] tx)) logs)) ->
  wp (pfs_inode_add mnt blkid) (MkFs d ph (core ino sz sz ct btime false ip md wm rv tb) (Some tx) logs) Q.
Proof.
  intros Hph Htb Hm Hb Hfull Hadd. unfold pfs_inode_add, pfs_tx_new_op, tx_inode_op. do 6 fstep. fstep.
  eapply phy_get_ok; [done|]. simpl. do 2 fstep. pose proof Hph as [Htg Hty Hnb Hsz Hps Hbt].
  destruct (bp_alloc_ok (ph_pool ph) (tg_wf _ _ _ _ _ Htg) Hfeat) as [Hfl|(n & p' & bt & Ha & Hwf & Hn & Ho & Hl & Hp')].
  - repeat fstep; [exact Hfl|]. do 3 fstep. revert Hfull. unfold add_ops. destruct ph, tx. simpl. by rewrite app_nil_r, orb_true_r.
  - fstep. fstep; [exact Ha|]. do 2 fstep. fstep. unfold pfs_meta_get_blktag. do 2 fstep. fstep; [by rewrite Hp', Z.eqb_refl|].
    do 6 fstep. fold B.
    pose proof (tags_add mnt ino _ _ _ Htg blkid n p' bt Hm Hb Hwf Hn Ho Hl HB Hp') as Htg'.
    set (bt' := set_tag_owner _ blkid bt) in *.
    destruct (tg_list _ _ _ _ _ Htg' n) as (bt2 & Ht2 & _); [set_solver|].
    fstep. eapply sync_blk_ok; [done| |].
    { split; [done|]. simpl. by destruct (bp_in_use _ n bt2 (tg_wf _ _ _ _ _ Htg') Ht2). }
    intros tb' _ Htb'. unfold pfs_tx_done_op_callback. do 3 fstep.
    specialize (Hadd n (MkPhy (set_phy_nblock (in_nblock (ph_in ph) + 1) (ph_in ph)) (ph_list ph ++ [n])
      (bp_put n bt' p')) tb'). unfold add_ops in Hadd. cbn [t_ops t_inode t_cbs t_saved t_timeoutfail].
    rewrite orb_true_r in Hadd. apply Hadd; [| | |done].
    + split; simpl; try done. rewrite length_app. simpl. lia.
    + revert Htb'. unfold tag_step. simpl. by rewrite Ho, Hl.
    + intros k btk Hk Hkl. simpl in *. destruct (bp_put_ok p' n bt bt' Hwf) as [_ Hput]; [by rewrite Hp', Z.eqb_refl|done..|].
      assert (k <> n) by congruence. rewrite Hput, Hp', (proj2 (Z.eqb_neq k n)) by done. split; [done|]. set_solver.
Qed.

Lemma inode_del_ok d ph m sz btime ct ip md wm rv tb tx logs blkid b (Q : Z -> fstate P -> Prop) :
  phy_ok mnt ino ph m sz btime -> tables_ok tb m -> m !! blkid = Some b ->
  (forall ph' tb', let m' := delete blkid m in
     phy_ok mnt ino ph' m' sz btime -> tables_ok tb' m' -> in_blk_table_nsoft tb' <= in_blk_table_nsoft tb -> others ph ph' ->
     Q 0 (MkFs d ph' (core ino sz sz ct btime false (ip - 1) md wm rv tb') (Some (add_ops true [CbDel] tx)) logs)) ->
  wp (pfs_inode_del b) (MkFs d ph (core ino sz sz ct btime false ip md wm rv tb) (Some tx) logs) Q.
Proof.
  intros Hph Htb Hm HQ. unfold pfs_inode_del, pfs_tx_new_op, tx_inode_op. do 6 fstep. fstep.
  eapply phy_get_ok; [done|]. simpl. pose proof Hph as [Htg Hty Hnb Hsz Hps Hbt].
  destruct (tags_del mnt ino _ _ _ Htg blkid b Hm) as (bt & p' & Ht & Hi & Hf & Htg' & Hn & Hlen & Hp').
  destruct (tags_entry mnt ino _ _ _ Htg blkid b Hm) as (n & bt0 & _ & Ht0 & _ & Eb & Hbk & _ & Hpos & _ & En & _).
  rewrite En in *. rewrite Ht in Ht0. injection Ht0 as <-.
  fstep. unfold pfs_meta_get_blktag. do 2 fstep. fstep; [exact Ht|]. do 3 fstep. fstep; [exact Hf|]. do 5 fstep.
  eapply sync_blk_ok; [exact Htb| |].
  { split; simpl; [by rewrite Hi|]. by rewrite Eb in Hpos. }
  intros tb' Hs Htb'. unfold pfs_tx_done_op_callback. do 3 fstep.
  specialize (HQ (MkPhy (set_phy_nblock (in_nblock (ph_in ph) - 1) (ph_in ph)) (filter (fun k => k <> n) (ph_list ph)) p') tb').
  unfold add_ops in HQ. cbn [t_ops t_inode t_cbs t_saved t_timeoutfail]. rewrite orb_true_r in HQ.
  apply HQ.
  - split; simpl; try done. lia.
  - revert Htb'. unfold tag_step. simpl. by rewrite Hi.
  - revert Hs. unfold pfs_inode_sync_blk_meta. simpl. apply remove_blk_nsoft.
  - intros k btk Hk Hkl. simpl in *. assert (k <> n) by congruence. rewrite Hp', (proj2 (Z.eqb_neq k n)) by done.
    split; [done|]. intros [_ ?]%list_elem_of_filter. done.
Qed.

(** [c] blocks were deleted. *)
Definition del_tx (c : nat) (tx : txn P) : txn P := match c with O => tx | _ => add_ops true (replicate c CbDel) tx end.
Lemma del_tx_step c tx : del_tx c (add_ops true [CbDel] tx) = del_tx (S c) tx.
Proof. destruct c; [done|]. unfold del_tx. rewrite add_ops_assoc. done. Qed.
Lemma del_tx_add c c' tx : del_tx c (del_tx c' tx) = del_tx (c' + c) tx.
Proof.
  revert tx. induction c' as [|c' IH]; intros tx; [done|]. simpl Nat.add. rewrite <- !del_tx_step. by rewrite IH.
Qed.

(** The state with [c] blocks fewer. *)
Definition deleted (d : device) (ph : phy P) (sz ct btime ip md : Z) (wm : pfs_writemodify) (rv : Z) (tb : blk_tables)
    (tx : txn P) (logs : list Z) (m' : gmap Z pfs_dblk) (s' : fstate P) : Prop :=
  exists c ph' tb', s' = MkFs d ph' (core ino sz sz ct btime false (ip - Z.of_nat c) md wm rv tb') (Some (del_tx c tx)) logs /\
    phy_ok mnt ino ph' m' sz btime /\ tables_ok tb' m' /\ in_blk_table_nsoft tb' <= in_blk_table_nsoft tb /\ others ph ph'.

Lemma del_table_ok d sz btime ct md wm rv logs n : forall ph m ip tb tx from (Q : Z -> fstate P -> Prop),
  phy_ok mnt ino ph m sz btime -> tables_ok tb m -> 0 <= from -> from + Z.of_nat n <= 2 ^ 35 ->
  (forall m' s', (forall k, m' !! k = if decide (from <= k < from + Z.of_nat n) then None else m !! k) ->
     deleted d ph sz ct btime ip md wm rv tb tx logs m' s' -> Q 0 s') ->
  wp (del_table n from) (MkFs d ph (core ino sz sz ct btime false ip md wm rv tb) (Some tx) logs) Q.
Proof.
  induction n as [|n IH]; intros ph m ip tb tx from Q Hph Htb Hf Hfn HQ.
  { simpl. fstep. apply (HQ m).
    - intros k. rewrite decide_False by lia. done.
    - exists 0%nat, ph, tb. rewrite Z.sub_0_r. split_and!; try done. }
  simpl del_table. do 3 fstep.
  assert (Hskip : m !! from = None ->
    wp (del_table n (from + 1)) (MkFs d ph (core ino sz sz ct btime false ip md wm rv tb) (Some tx) logs) Q).
  { intros Hnone. eapply IH; [done|done|lia|lia|]. intros m' s' Hm' Hd. apply (HQ m'); [|done].
    intros k. rewrite Hm'. destruct (decide (k = from)) as [->|].
    - rewrite Hnone. by destruct (decide _), (decide _).
    - repeat case_decide; try done; lia. }
  destruct (get_blk_ok tb m Htb from) as [[Hg Hnone]|(p & b & Hg & Hl & _ & _ & Hmb)]; [split; lia| |].
  - fstep; [exact Hg|]. by apply Hskip.
  - fstep; [exact Hg|]. cbv beta iota. fstep. fstep; [exact Hl|]. cbv beta iota.
    destruct (pfs_dblk_empty b) eqn:Eb; [by apply Hskip|].
    fstep. eapply inode_del_ok; [done|done|exact Hmb|]. intros ph1 tb1 m1 Hph1 Htb1 Hs1 Ho1.
    change (0 <? 0) with false. cbv iota. eapply IH; [exact Hph1|exact Htb1|lia|lia|]. intros m' s' Hm' (c & ph' & tb' & -> & Hph' & Htb' & Hs' & Ho').
    apply (HQ m').
    + intros k. rewrite Hm'. unfold m1. destruct (decide (k = from)) as [->|].
      * rewrite lookup_delete_eq. by destruct (decide _), (decide _); try lia.
      * rewrite lookup_delete_ne by done. repeat case_decide; try done; lia.
    + exists (S c), ph', tb'. rewrite del_tx_step. split_and!; try done; [do 2 f_equal; lia|lia|by eapply others_trans].
Qed.

Lemma del_tables_ok d sz btime ct md wm rv logs fuel : forall ph m ip tb tx table_idx from (Q : Z -> fstate P -> Prop),
  phy_ok mnt ino ph m sz btime -> tables_ok tb m -> 0 <= from -> table_idx = from / 16 ->
  in_blk_table_nsoft tb - table_idx <= Z.of_nat fuel ->
  (forall m' s', (forall k, m' !! k = if decide (from <= k) then None else m !! k) ->
     deleted d ph sz ct btime ip md wm rv tb tx logs m' s' -> Q 0 s') ->
  wp (del_tables fuel table_idx from) (MkFs d ph (core ino sz sz ct btime false ip md wm rv tb) (Some tx) logs) Q.
Proof.
  induction fuel as [|fuel IH]; intros ph m ip tb tx table_idx from Q Hph Htb Hf Ht Hfuel HQ.
  all: assert (Hend : in_blk_table_nsoft tb <= table_idx ->
    Q 0 (MkFs d ph (core ino sz sz ct btime false ip md wm rv tb) (Some tx) logs)).
  1, 3: intros Hend; apply (HQ m); [|exists 0%nat, ph, tb; rewrite Z.sub_0_r; split_and!; try done; apply others_refl];
    intros k; case_decide; [|done]; eapply tables_above; [done|lia|];
    rewrite Ht in Hend; pose proof (Z.div_le_mono from k 16); lia.
  { simpl. fstep. apply Hend. lia. }
  simpl del_tables. do 2 fstep. cbn [core mi_blks].
  destruct (Z.ltb_spec table_idx (in_blk_table_nsoft tb)) as [Hlt|Hge]; cbn [negb]; cbv iota; [|fstep; apply Hend; lia].
  pose proof (tk_bound _ _ Htb) as Hbd. pose proof (Z.div_mod from 16 ltac:(lia)) as Hdm. pose proof (Z.mod_pos_bound from 16 ltac:(lia)) as Hmb.
  destruct (idx_ok from) as (_ & Hvi & _); [split; lia|]. rewrite Hvi. change BLK_TABLE_BLK_CNT with 16.
  fstep. eapply del_table_ok; [exact Hph|exact Htb|lia|lia|]. intros m1 s1 Hm1 (c & ph1 & tb1 & -> & Hph1 & Htb1 & Hs1 & Ho1).
  change (0 <? 0) with false. cbv iota. eapply IH; [exact Hph1|exact Htb1|lia| |lia|].
  { rewrite Ht. replace (from + (16 - from mod 16)) with ((from / 16 + 1) * 16) by lia. by rewrite Z.div_mul by lia. }
  intros m' s' Hm' (c' & ph' & tb' & -> & Hph' & Htb' & Hs' & Ho'). apply (HQ m').
  - intros k. rewrite Hm', Hm1. repeat case_decide; try done; lia.
  - exists (c + c')%nat, ph', tb'. rewrite del_tx_add. split_and!; try done; [do 2 f_equal; lia|lia|by eapply others_trans].
Qed.

Lemma del_from_ok d ph m sz btime ct ip md wm rv tb tx logs from (Q : Z -> fstate P -> Prop) :
  phy_ok mnt ino ph m sz btime -> tables_ok tb m -> 0 <= from ->
  (forall m' s', (forall k, m' !! k = if decide (from <= k) then None else m !! k) ->
     deleted d ph sz ct btime ip md wm rv tb tx logs m' s' -> Q 0 s') ->
  wp (pfs_inode_del_from from) (MkFs d ph (core ino sz sz ct btime false ip md wm rv tb) (Some tx) logs) Q.
Proof.
  intros Hph Htb Hf HQ. unfold pfs_inode_del_from. do 3 fstep. fstep; [done|]. cbn [core mi_blks].
  unfold pfs_inode_blk_table_idx. change BLK_TABLE_BLK_CNT with 16. rewrite Z.quot_div_nonneg by lia.
  eapply del_tables_ok; try done. lia.
Qed.

(** *** Holes *)
Lemma modify_hole_ok d ph m sz btime sz1 sz2 ct ip md wm rv tb tx logs blkid b w (Q : unit -> fstate P -> Prop) :
  phy_ok mnt ino ph m sz btime -> m !! blkid = Some b -> db_blkno w = db_blkno b -> hole_ok mnt w ->
  db_holeoff w + db_holelen w = B ->
  (forall ph', phy_ok mnt ino ph' (<[blkid := w]> m) sz btime -> others ph ph' ->
     Q tt (MkFs d ph' (core ino sz1 sz2 ct btime false ip (md + 1) wm rv tb) (Some (add_ops false [CbHole] tx)) logs)) ->
  wp (pfs_inode_modify_dblk_hole mnt w) (MkFs d ph (core ino sz1 sz2 ct btime false ip md wm rv tb) (Some tx) logs) Q.
Proof.
  intros Hph Hm Hw Hh Hsum HQ. unfold pfs_inode_modify_dblk_hole, pfs_tx_new_op, pfs_tx_done_op_callback.
  fstep. fstep; [exact Hfeat|]. fstep. fstep; [done|]. fstep. fstep; [apply Z.eqb_eq; exact Hsum|]. do 2 fstep.
  pose proof Hph as [Htg Hty Hnb Hsz Hps Hbt].
  destruct (tags_set_hole mnt ino _ _ _ Htg blkid b (db_holeoff w) (db_holelen w) Hm) as (bt & Ht & Htg').
  { unfold hole_ok in *. simpl. done. }
  rewrite Hw. fstep. unfold pfs_meta_get_blktag. do 2 fstep. fstep; [exact Ht|]. do 5 fstep.
  specialize (HQ (MkPhy (ph_in ph) (ph_list ph) (bp_put (blkno2btno (db_blkno b)) (set_tag_hole (db_holeoff w) (db_holelen w) bt) (ph_pool ph)))).
  unfold add_ops in HQ. cbn [t_ops t_inode t_cbs t_saved t_timeoutfail]. rewrite orb_false_r in HQ. apply HQ.
  - split; try done. simpl. replace w with (MkDblk (db_blkno b) (db_holeoff w) (db_holelen w)) by (rewrite <- Hw; by destruct w).
    done.
  - intros k btk Hk Hkl. simpl in *.
    destruct (bp_put_ok (ph_pool ph) _ bt (set_tag_hole (db_holeoff w) (db_holelen w) bt) (tg_wf _ _ _ _ _ Htg) Ht) as [_ Hput]; [done..|].
    rewrite Hput. split; [|done]. destruct (Z.eqb_spec k (blkno2btno (db_blkno b))) as [->|]; [|done].
    destruct (tags_entry mnt ino _ _ _ Htg blkid b Hm) as (n & bt0 & Hn & _ & _ & _ & _ & _ & _ & _ & En & _). by rewrite En in Hkl.
Qed.

Lemma change_dblk_ok d ph m sz1 sz2 ct btime ip md wm rv tb tx logs blkid b off len p (Q : pfs_dblk -> fstate P -> Prop) :
  tables_ok tb m -> m !! blkid = Some b -> blkid_ok blkid -> 0 < db_blkno b ->
  pfs_inode_get_blk tb blkid = Some (Some p) ->
  (forall tb', tables_ok tb' (<[blkid := MkDblk (db_blkno b) off len]> m) ->
     Q (MkDblk (db_blkno b) off len) (MkFs d ph (core ino sz1 sz2 ct btime false ip md wm rv tb') tx logs)) ->
  wp (change_dblk p b off len) (MkFs d ph (core ino sz1 sz2 ct btime false ip md wm rv tb) tx logs) Q.
Proof.
  intros Htb Hm Hb Hpos Hg HQ. destruct (store_blk_ok tb m blkid b (MkDblk (db_blkno b) off len) Htb Hm Hb) as (p' & tb' & Hg' & _ & Hst & Htb'); [done|].
  rewrite Hg in Hg'. injection Hg' as <-. unfold change_dblk. fstep. fstep.
  { unfold pfs_dblk_change. by rewrite (proj2 (Z.gtb_gt _ _)) by lia. }
  do 3 fstep. fstep; [exact Hst|]. do 3 fstep. by apply HQ.
Qed.

Lemma get_dblk_ok d ph m sz1 sz2 ct btime ip md wm rv tb tx logs blkid b (Q : (Z * nat) * pfs_dblk -> fstate P -> Prop) :
  let s := MkFs d ph (core ino sz1 sz2 ct btime false ip md wm rv tb) tx logs in
  tables_ok tb m -> m !! blkid = Some b -> blkid_ok blkid ->
  (forall p, pfs_inode_get_blk tb blkid = Some (Some p) -> Q (p, b) s) -> wp (get_dblk blkid) s Q.
Proof.
  intros s Htb Hm Hb HQ. destruct (tk_dom _ _ Htb _ _ Hm) as [_ Hpos].
  destruct (store_blk_ok tb m blkid b b Htb Hm Hb Hpos) as (p & tb' & Hg & Hl & _). unfold get_dblk, s.
  do 3 fstep. fstep; [exact Hg|]. fstep. fstep; [done|]. fstep. fstep; [exact Hl|]. fstep. by apply HQ.
Qed.

Lemma holeoff_ok b : 0 < db_blkno b -> pfs_dblk_holeoff b = Some (if db_holelen b >? 0 then db_holeoff b else INT_MAX).
Proof.
  intros Hp. unfold pfs_dblk_holeoff. rewrite geb_true by lia. by rewrite (proj2 (Z.eqb_neq _ _)) by lia.
Qed.

Lemma expand_ok d ph m sz btime ct ip md wm rv tb tx logs blkid b off (Q : unit -> fstate P -> Prop) :
  phy_ok mnt ino ph m sz btime -> tables_ok tb m -> m !! blkid = Some b -> 0 <= off < B ->
  off < (if db_holelen b >? 0 then db_holeoff b else INT_MAX) ->
  (forall ph' tb', let m' := <[blkid := MkDblk (db_blkno b) off (B - off)]> m in
     phy_ok mnt ino ph' m' sz btime -> tables_ok tb' m' -> others ph ph' ->
     Q tt (MkFs d ph' (core ino sz sz ct btime false ip (md + 1) wm rv tb') (Some (add_ops false [CbHole] tx)) logs)) ->
  wp (pfs_inode_expand_dblk_hole mnt blkid off (B - off)) (MkFs d ph (core ino sz sz ct btime false ip md wm rv tb) (Some tx) logs) Q.
Proof.
  intros Hph Htb Hm Ho Hlt HQ. destruct (tags_entry mnt ino _ _ _ (py_tags _ _ _ _ _ _ Hph) blkid b Hm) as (n & bt & _ & _ & _ & _ & Hb & _ & Hpos & _).
  unfold pfs_inode_expand_dblk_hole. fstep. fstep; [apply Z.eqb_eq; unfold B; lia|]. fstep.
  eapply get_dblk_ok; [done|done|done|]. intros p Hg. fstep. fstep; [apply Z.gtb_gt; lia|]. fstep. fstep; [by apply holeoff_ok|].
  fstep. fstep; [by apply Z.ltb_lt|]. fstep. eapply change_dblk_ok; try done. intros tb' Htb'.
  eapply modify_hole_ok; [exact Hph|exact Hm|done|right; simpl; lia|simpl; lia|]. intros ph' Hph' Ho'. by apply HQ.
Qed.

Lemma shrink_ok d ph m sz btime ct ip md wm rv tb tx logs blkid b (Q : unit -> fstate P -> Prop) :
  phy_ok mnt ino ph m sz btime -> tables_ok tb m -> m !! blkid = Some b ->
  (if db_holelen b >? 0 then db_holeoff b else INT_MAX) < B ->
  (forall ph' tb', let m' := <[blkid := MkDblk (db_blkno b) B 0]> m in
     phy_ok mnt ino ph' m' sz btime -> tables_ok tb' m' -> others ph ph' ->
     Q tt (MkFs d ph' (core ino sz sz ct btime false ip (md + 1) wm rv tb') (Some (add_ops false [CbHole] tx)) logs)) ->
  wp (pfs_inode_shrink_dblk_hole mnt blkid B 0) (MkFs d ph (core ino sz sz ct btime false ip md wm rv tb) (Some tx) logs) Q.
Proof.
  intros Hph Htb Hm Hlt HQ. destruct (tags_entry mnt ino _ _ _ (py_tags _ _ _ _ _ _ Hph) blkid b Hm) as (n & bt & _ & _ & _ & _ & Hb & _ & Hpos & _).
  unfold pfs_inode_shrink_dblk_hole. fstep. fstep; [apply Z.eqb_eq; unfold B; lia|]. fstep.
  eapply get_dblk_ok; [done|done|done|]. intros p Hg. fstep. fstep; [apply Z.gtb_gt; lia|]. fstep. fstep; [by apply holeoff_ok|].
  fstep. fstep; [apply Z.gtb_gt; lia|]. fstep. eapply change_dblk_ok; try done. intros tb' Htb'.
  eapply modify_hole_ok; [exact Hph|exact Hm|done|by left|simpl; lia|]. intros ph' Hph' Ho'. by apply HQ.
Qed.

(** *** The changes a write collects

    [gs]: the blocks whose holes it removed; [inc]: how far it grew the file. *)
Definition wm_ok (wm : pfs_writemodify) (gs : list (Z * pfs_dblk)) (inc : Z) : Prop :=
  (match wm_dblkv wm with None => gs = [] /\ wm_dblkn wm = 0 | Some v => v = gs.*2 /\ gs <> [] /\ Z.of_nat (length v) <= wm_dblkn wm end) /\
  wm_sizeinc wm = inc /\ 0 <= inc /\ ((wm_thread wm = mnt_self mnt /\ (gs <> [] \/ 0 < inc)) \/ (wm_thread wm = 0 /\ gs = [] /\ inc = 0)).

Definition apply_gs (gs : list (Z * pfs_dblk)) (m : gmap Z pfs_dblk) : gmap Z pfs_dblk :=
  fold_left (fun m g => <[fst g := snd g]> m) gs m.
Lemma apply_gs_app gs g m : apply_gs (gs ++ [g]) m = <[fst g := snd g]> (apply_gs gs m).
Proof. unfold apply_gs. by rewrite fold_left_app. Qed.

(** The blocks of [gs] are mapped, and keep their device blocks. *)
Definition gs_ok (m : gmap Z pfs_dblk) (gs : list (Z * pfs_dblk)) : Prop :=
  Forall (fun g => (exists b, m !! fst g = Some b /\ db_blkno (snd g) = db_blkno b) /\ db_holeoff (snd g) = B /\ db_holelen (snd g) = 0) gs.

Lemma gs_ok_step m gs g b : gs_ok m gs -> m !! fst g = Some b -> db_blkno (snd g) = db_blkno b -> gs_ok (<[fst g := snd g]> m) gs.
Proof.
  intros Hgs Hm Hb. eapply Forall_impl; [exact Hgs|]. intros g' ((b' & Hm' & Hb') & Hh). split; [|done].
  destruct (decide (fst g' = fst g)) as [E|E].
  - rewrite E, lookup_insert_eq. exists (snd g). split; [done|]. rewrite E in Hm'. congruence.
  - rewrite lookup_insert_ne by done. by exists b'.
Qed.

Lemma gs_dom m gs k b : gs_ok m gs -> apply_gs gs m !! k = Some b -> exists b0, m !! k = Some b0 /\ db_blkno b = db_blkno b0.
Proof.
  revert k b. induction gs as [|g gs IH] using rev_ind; intros k b Hgs Hb; [by exists b|].
  apply Forall_app in Hgs as [Hgs [((b0 & Hm & E) & _) _]%Forall_cons]. rewrite apply_gs_app in Hb.
  apply lookup_insert_Some in Hb as [[<- <-]|[_ Hb]]; [by exists b0|by apply IH].
Qed.

Lemma gs_dom_inv m gs k b : gs_ok m gs -> m !! k = Some b -> exists b', apply_gs gs m !! k = Some b' /\ db_blkno b' = db_blkno b.
Proof.
  induction gs as [|g gs IH] using rev_ind; intros Hgs Hb; [by exists b|].
  apply Forall_app in Hgs as [Hgs [((b0 & Hm & E) & _) _]%Forall_cons]. rewrite apply_gs_app.
  destruct (decide (fst g = k)) as [<-|Hne]; [|by rewrite lookup_insert_ne by done; apply IH].
  exists (snd g). rewrite lookup_insert_eq. split; [done|]. congruence.
Qed.

Lemma inprogress_ok wm gs inc : wm_ok wm gs inc ->
  pfs_inode_writemodify_inprogress wm = negb (bool_decide (gs = []) && (inc =? 0)).
Proof.
  intros (Hv & Hi & _). unfold pfs_inode_writemodify_inprogress. rewrite Hi. destruct (wm_dblkv wm) as [v|]; simpl.
  - destruct Hv as (_ & Hne & _). by rewrite bool_decide_false.
  - destruct Hv as [-> _]. by rewrite bool_decide_true.
Qed.

(** Room for one more. *)
Lemma wm_push wm gs inc : wm_ok wm gs inc ->
  let dblkn := if isnull (wm_dblkv wm) || (wm_dblki wm >=? wm_dblkn wm) then wm_dblkn wm + 8 else wm_dblkn wm in
  ((0 <=? wm_dblki wm) && (wm_dblki wm <? dblkn)) = true /\ default [] (wm_dblkv wm) = gs.*2 /\
  Z.of_nat (length (default [] (wm_dblkv wm))) < dblkn.
Proof.
  intros (Hv & _ & _ & _). destruct wm as [v n i t]. unfold wm_dblki. simpl in *. destruct v as [v|]; simpl in *.
  - destruct Hv as (-> & Hne & Hl). destruct (Z.geb_spec (Z.of_nat (length gs.*2)) n); rewrite andb_true_iff, Z.leb_le, Z.ltb_lt; split_and!; lia || done.
  - destruct Hv as [-> ->]. done.
Qed.

Lemma wm_shrink_ok d ph m sz1 sz2 ct btime ip md wm rv tb tx logs blkid b gs inc (Q : unit -> fstate P -> Prop) :
  tables_ok tb m -> m !! blkid = Some b -> blkid_ok blkid -> wm_ok wm gs inc ->
  (forall tb' wm', let g := (blkid, MkDblk (db_blkno b) B 0) in
     tables_ok tb' (<[blkid := snd g]> m) -> wm_ok wm' (gs ++ [g]) inc ->
     Q tt (MkFs d ph (core ino sz1 sz2 ct btime false ip md wm' rv tb') tx logs)) ->
  wp (pfs_inode_writemodify_shrink_dblk_hole mnt blkid B 0) (MkFs d ph (core ino sz1 sz2 ct btime false ip md wm rv tb) tx logs) Q.
Proof.
  intros Htb Hm Hb Hwm HQ. destruct (tk_dom _ _ Htb _ _ Hm) as [_ Hpos]. pose proof Hwm as (Hv & Hi & Hinc & Ht).
  unfold pfs_inode_writemodify_shrink_dblk_hole. do 3 fstep. fstep; [exact Hfeat|]. fstep. fstep; [done|].
  fstep. fstep; [apply Z.eqb_eq; unfold B; lia|]. fstep. fstep.
  { cbn [core mi_write_modify]. destruct Ht as [[-> _]|[-> _]]; rewrite Z.eqb_refl; [apply orb_true_r|done]. }
  fstep. eapply get_dblk_ok; [done|done|done|]. intros p Hg. fstep. eapply change_dblk_ok; try done. intros tb' Htb'.
  cbn [core mi_write_modify]. fstep. fstep.
  { apply (proj1 (wm_push wm gs inc Hwm)). }
  fstep. apply HQ; [done|]. split_and!; try done; [|left; split; [done|left; by destruct gs]]. simpl.
  destruct (wm_push wm gs inc Hwm) as (_ & Hd & Hn). rewrite Hd, fmap_app. split_and!; [done|by destruct gs|].
  rewrite Hd in Hn. rewrite length_app. simpl. lia.
Qed.

Lemma wm_increment_ok d ph sz1 sz2 ct btime ip md wm rv tb tx logs gs inc n (Q : unit -> fstate P -> Prop) :
  wm_ok wm gs inc -> 0 < n -> inc <= n ->
  (forall wm', wm_ok wm' gs n -> Q tt (MkFs d ph (core ino sz1 sz2 ct btime false ip md wm' rv tb) tx logs)) ->
  wp (pfs_inode_writemodify_increment_size mnt n) (MkFs d ph (core ino sz1 sz2 ct btime false ip md wm rv tb) tx logs) Q.
Proof.
  intros (Hv & Hi & Hinc & Ht) Hn Hle HQ. unfold pfs_inode_writemodify_increment_size. do 3 fstep. cbn [core mi_write_modify]. fstep.
  { rewrite Hi. apply andb_true_intro. split; [apply Z.gtb_gt|apply Z.geb_le]; lia. }
  fstep. fstep; [destruct Ht as [[-> _]|[-> _]]; rewrite Z.eqb_refl; [apply orb_true_r|done]|].
  fstep. apply HQ. split_and!; try done; [lia|left; split; [done|by right]].
Qed.

(** *** The size *)
Lemma change_ok d ph m sz btime ct ip md wm rv tb tx logs delta force (Q : Z -> fstate P -> Prop) :
  phy_ok mnt ino ph m sz btime -> 0 <= sz + delta -> delta <> 0 \/ force = true ->
  (forall ph' ct', phy_ok mnt ino ph' m (sz + delta) btime -> others ph ph' ->
     Q 0 (MkFs d ph' (core ino sz (sz + delta) ct' btime false ip md wm rv tb)
            (Some (add_ops true (if delta =? 0 then [] else [CbSize]) tx)) logs)) ->
  wp (pfs_inode_change mnt delta force) (MkFs d ph (core ino sz sz ct btime false ip md wm rv tb) (Some tx) logs) Q.
Proof.
  intros Hph Hpos Hd HQ. unfold pfs_inode_change. do 2 fstep. cbn [core mi_ctime].
  assert ((delta =? 0) && (mnt_time mnt - ct <=? PFS_CTIME_SYNC) && negb force = false) as ->.
  { destruct Hd as [Hd| ->]; [|by rewrite andb_false_r]. by rewrite (proj2 (Z.eqb_neq _ _) Hd). }
  cbv iota. do 3 fstep. cbv iota. unfold pfs_tx_new_op, tx_inode_op. do 4 fstep. eapply phy_get_ok; [exact Hph|].
  change (0 <? 0) with false. cbv iota. fstep. fstep; [apply Z.eqb_refl|]. do 4 fstep. pose proof Hph as [Htg Hty Hnb Hsz Hps Hbt].
  match goal with |- context [MkFs d ?p _ _ _] => set (ph' := p) end.
  assert (Hph' : phy_ok mnt ino ph' m (sz + delta) btime).
  { unfold ph'. split; simpl; try done. by rewrite Hsz. }
  specialize (HQ ph' (mnt_time mnt) Hph'). unfold add_ops in HQ. rewrite orb_true_r in HQ.
  cbn [t_ops t_inode t_cbs t_saved t_timeoutfail].
  fstep. destruct (delta =? 0); [fstep|unfold pfs_tx_done_op_callback; fstep; cbn [t_ops t_inode t_cbs t_saved t_timeoutfail]].
  all: fstep; rewrite ?app_nil_r in HQ; apply HQ; by intros n0 bt0.
Qed.

Lemma modify_holes_ok d sz btime sz1 sz2 ct ip wm rv tb logs gs : forall ph m md tx (Q : unit -> fstate P -> Prop),
  phy_ok mnt ino ph m sz btime -> gs_ok m gs ->
  (forall ph', phy_ok mnt ino ph' (apply_gs gs m) sz btime -> others ph ph' ->
     Q tt (MkFs d ph' (core ino sz1 sz2 ct btime false ip (md + Z.of_nat (length gs)) wm rv tb)
             (Some (match gs with [] => tx | _ => add_ops false (replicate (length gs) CbHole) tx end)) logs)) ->
  wp (modify_holes mnt gs.*2) (MkFs d ph (core ino sz1 sz2 ct btime false ip md wm rv tb) (Some tx) logs) Q.
Proof.
  induction gs as [|g gs IH]; intros ph m md tx Q Hph Hgs HQ; simpl.
  { fstep. rewrite <- (Z.add_0_r md). apply HQ; [done|apply others_refl]. }
  apply Forall_cons in Hgs as [((b & Hm & Hb) & Ho & Hl) Hgs]. fstep.
  eapply modify_hole_ok; [exact Hph|exact Hm|exact Hb|by left|lia|]. intros ph1 Hph1 Ho1.
  eapply IH; [exact Hph1|by eapply gs_ok_step|]. intros ph' Hph' Ho'.
  specialize (HQ ph' Hph' ltac:(by eapply others_trans)). revert HQ.
  replace (md + Z.of_nat (length (g :: gs))) with (md + 1 + Z.of_nat (length gs)) by (simpl; lia).
  destruct gs; [done|]. by rewrite add_ops_assoc.
Qed.

(** What the transaction of a commit has. *)
Definition commit_cbs (gs : list (Z * pfs_dblk)) (inc : Z) : list txcb :=
  replicate (length gs) CbHole ++ (if inc =? 0 then [] else [CbSize]).

Lemma wm_commit_ok d ph m sz btime ct ip wm rv tb tx logs gs inc (Q : Z -> fstate P -> Prop) :
  phy_ok mnt ino ph m sz btime -> wm_ok wm gs inc -> gs_ok m gs -> mnt_self mnt <> 0 ->
  (gs = [] -> inc = 0 -> Q 0 (MkFs d ph (core ino sz sz ct btime false ip 0 wm rv tb) (Some tx) logs)) ->
  (forall ph' ct', phy_ok mnt ino ph' (apply_gs gs m) (sz + inc) btime -> others ph ph' ->
     Q 0 (MkFs d ph' (core ino sz (sz + inc) ct' btime false ip (Z.of_nat (length gs)) wm_zero rv tb)
            (Some (add_ops true (commit_cbs gs inc) tx)) logs)) ->
  wp (pfs_inode_writemodify_commit mnt) (MkFs d ph (core ino sz sz ct btime false ip 0 wm rv tb) (Some tx) logs) Q.
Proof.
  intros Hph Hwm Hgs Hself Hnone Hsome. unfold pfs_inode_writemodify_commit. do 2 fstep. cbn [core mi_write_modify].
  rewrite (inprogress_ok wm gs inc Hwm), negb_involutive. pose proof Hwm as (Hv & Hi & Hinc & Ht).
  destruct (bool_decide (gs = []) && (inc =? 0)) eqn:E.
  { apply andb_true_iff in E as [->%bool_decide_eq_true ->%Z.eqb_eq]. fstep. by apply Hnone. }
  assert (wm_thread wm = mnt_self mnt) as Hth.
  { by destruct Ht as [[? _]|(_ & -> & ->)]. }
  rewrite Hth, Z.eqb_refl. cbn [negb]. cbv iota. fstep. fstep; [done|]. fstep. fstep; [apply Z.eqb_refl|]. fstep. fstep.
  { apply Z.leb_le. unfold wm_dblki. destruct (wm_dblkv wm); simpl; [by destruct Hv as (-> & _ & ?)|by destruct Hv as [_ ->]]. }
  assert (Hlast : forall ph1 tx1, phy_ok mnt ino ph1 (apply_gs gs m) sz btime -> others ph ph1 ->
     tx1 = (match gs with [] => tx | _ => add_ops false (replicate (length gs) CbHole) tx end) ->
     wp (pfs_inode_change mnt (wm_sizeinc wm) true)
       (MkFs d ph1 (core ino sz sz ct btime false ip (Z.of_nat (length gs)) wm rv tb) (Some tx1) logs)
       (fun err s' => wp (upd_in (fun i => set_wm (pfs_inode_writemodify_fini wm) i);; mret err) s' Q)).
  { intros ph1 tx1 Hph1 Ho1 ->. rewrite Hi. eapply change_ok; [exact Hph1|pose proof (py_pos _ _ _ _ _ _ Hph1); lia|by right|]. intros ph' ct' Hph' Ho'.
    do 3 fstep. specialize (Hsome ph' ct' Hph' ltac:(by eapply others_trans)). revert Hsome. unfold commit_cbs.
    destruct gs; [done|]. by rewrite add_ops_assoc. }
  fstep. destruct (wm_dblkv wm) as [v|].
  - destruct Hv as (-> & Hne & _). fstep. eapply phy_get_ok; [exact Hph|]. cbn [negb Z.eqb]. cbv iota.
    fstep. eapply modify_holes_ok; [exact Hph|exact Hgs|]. intros ph1 Hph1 Ho1. rewrite Z.add_0_l. by apply Hlast.
  - destruct Hv as [-> Hn]. fstep. fstep; [by rewrite Hn|]. by apply Hlast; [| |].
Qed.

(** *** Loading *)
(** The blocks whose tags are in [l]. *)
Definition loaded (l : list Z) (m : gmap Z pfs_dblk) : gmap Z pfs_dblk :=
  filter (fun kb => blkno2btno (db_blkno (snd kb)) ∈ l) m.

Lemma loaded_all l pool m : tags_ok mnt ino l pool m -> loaded l m = m.
Proof.
  intros Htg. apply map_filter_id. intros k b Hm.
  destruct (tags_entry mnt ino _ _ _ Htg k b Hm) as (n & bt & Hn & _ & _ & _ & _ & _ & _ & _ & En & _). simpl. by rewrite En.
Qed.

Lemma loaded_step l pool m done n rest bt : tags_ok mnt ino l pool m -> l = done ++ n :: rest -> bp_tag pool n = Some bt ->
  bt_ino bt = ino /\ tag_ok (tag_view true n bt) /\ tag_step (loaded done m) (tag_view true n bt) = loaded (done ++ [n]) m.
Proof.
  intros Htg -> Ht. destruct (tg_list _ _ _ _ _ Htg n) as (bt' & Ht' & Hi & Hb & Hm); [set_solver|].
  rewrite Ht in Ht'. injection Ht' as <-. destruct (bp_in_use pool n bt (tg_wf _ _ _ _ _ Htg) Ht) as (Hp & _ & Hr).
  split_and!; [done|done|]. unfold tag_step. simpl. apply map_eq. intros k. unfold loaded. rewrite map_lookup_filter.
  destruct (decide (k = bt_blkid bt)) as [->|Hk].
  - rewrite lookup_insert_eq, Hm. simpl. rewrite Hr. rewrite option_guard_True by set_solver. done.
  - rewrite lookup_insert_ne by done. rewrite map_lookup_filter. destruct (m !! k) as [b|] eqn:Em; [|done]. simpl.
    destruct (tags_entry mnt ino _ _ _ Htg k b Em) as (n' & bt' & Hn' & Ht' & Hk' & _ & _ & _ & _ & _ & En & _). rewrite En.
    assert (n' <> n) by (intros ->; rewrite Ht in Ht'; injection Ht' as <-; done).
    destruct (decide (n' ∈ done)).
    + rewrite !option_guard_True by set_solver. done.
    + rewrite !option_guard_False by set_solver. done.
Qed.

Lemma build_findex_ok d ph m sz btime sz1 sz2 ct ip md wm rv st tx logs rest : forall done tb cnt (Q : Z -> fstate P -> Prop),
  phy_ok mnt ino ph m sz btime -> ph_list ph = done ++ rest -> tables_ok tb (loaded done m) ->
  (forall tb', tables_ok tb' m ->
     Q (cnt + Z.of_nat (length rest)) (MkFs d ph (core ino sz1 sz2 ct btime st ip md wm rv tb') tx logs)) ->
  wp (build_findex rest cnt) (MkFs d ph (core ino sz1 sz2 ct btime st ip md wm rv tb) tx logs) Q.
Proof.
  induction rest as [|n rest IH]; intros done tb cnt Q Hph Hl Htb HQ; simpl.
  { fstep. rewrite <- (Z.add_0_r cnt). apply HQ. rewrite app_nil_r in Hl.
    rewrite <- Hl, (loaded_all _ (ph_pool ph) m) in Htb by apply (py_tags _ _ _ _ _ _ Hph). done. }
  pose proof (py_tags _ _ _ _ _ _ Hph) as Htg.
  destruct (tg_list _ _ _ _ _ Htg n) as (bt & Ht & _ & Hb & _); [rewrite Hl; set_solver|].
  destruct (loaded_step _ _ _ done n rest bt Htg Hl Ht) as (Hi & Htok & Hstep).
  fstep. unfold pfs_meta_get_blktag. do 2 fstep. fstep; [exact Ht|]. do 3 fstep. fstep; [by apply Z.eqb_eq|].
  fstep. fstep; [apply Z.geb_le; apply Hb|].
  destruct (sync_blk_meta_ok tb _ _ Htb Htok) as (tb' & Hs & Htb'). rewrite Hstep in Htb'.
  fstep. unfold sync_blk_meta. do 3 fstep. fstep; [exact Hs|]. fstep.
  eapply (IH (done ++ [n]) tb' (cnt + 1)); [exact Hph|by rewrite Hl, <- app_assoc|exact Htb'|]. intros tb2 Htb2.
  specialize (HQ tb2 Htb2). by replace (cnt + 1 + Z.of_nat (length rest)) with (cnt + Z.of_nat (S (length rest))) by lia.
Qed.

Lemma reload_ok d ph m sz btime szx ct rv tb tx logs (Q : Z -> fstate P -> Prop) :
  phy_ok mnt ino ph m sz btime ->
  (forall ct' tb', tables_ok tb' m -> Q 0 (MkFs d ph (core ino sz sz ct' btime false 0 0 wm_zero rv tb') tx logs)) ->
  wp pfs_inode_reload (MkFs d ph (core ino szx szx ct btime true 0 0 wm_zero rv tb) tx logs) Q.
Proof.
  intros Hph HQ. unfold pfs_inode_reload, pfs_inode_load. do 3 fstep. fstep; [done|]. fstep. cbn [core mi_type].
  change (PFS_INODET_FILE =? PFS_INODET_FILE) with true. cbv iota. do 3 fstep. do 2 fstep.
  unfold pfs_inode_check_stale. rewrite (py_type _ _ _ _ _ _ Hph). simpl. do 3 fstep. fstep; [done|].
  fstep. fstep; [done|]. do 2 fstep. fstep. unfold pfs_inode_build_findex.
  destruct (create_ok (in_nblock (ph_in ph))) as (tb0 & Hc & Htb0); [rewrite (py_nblock _ _ _ _ _ _ Hph); lia|].
  do 5 fstep. fstep; [exact Hc|]. do 5 fstep.
  rewrite (py_size _ _ _ _ _ _ Hph), (py_btime _ _ _ _ _ _ Hph).
  eapply (build_findex_ok _ _ _ _ _ _ _ _ _ _ _ _ _ _ _ _ []); [exact Hph|done| |].
  { replace (loaded [] m) with (∅ : gmap Z pfs_dblk); [done|]. symmetry. apply map_empty. intros k.
    apply map_lookup_filter_None. right. by intros b _ ?%elem_of_nil. }
  intros tb' Htb'. fstep; [apply Z.eqb_eq; rewrite (py_nblock _ _ _ _ _ _ Hph); lia|]. do 3 fstep. by apply HQ.
Qed.

(** *** Synchronisation with the metadata *)
Lemma sync_busy_ok d ph sz btime ct wm rv tb tx logs gs inc first (Q : Z -> fstate P -> Prop) :
  let s := MkFs d ph (core ino sz sz ct btime false 0 0 wm rv tb) tx logs in
  wm_ok wm gs inc -> Q 0 s -> wp (pfs_inode_sync_impl mnt PFS_INODET_FILE first btime) s Q.
Proof.
  intros s Hwm HQ. unfold s, pfs_inode_sync_impl. do 3 fstep. fstep.
  { unfold sync_waits. simpl. rewrite Z.eqb_refl. simpl. rewrite (inprogress_ok wm gs inc Hwm).
    destruct Hwm as (_ & _ & _ & [[-> _]|(_ & -> & ->)]); [by rewrite Z.eqb_refl, andb_false_r|done]. }
  cbn [core mi_stale]. cbv iota. do 2 fstep. cbn [negb Z.eqb]. cbv iota. do 2 fstep.
  cbn [core mi_sync_ver mi_rpl_ver]. rewrite Z.ltb_irrefl, andb_false_r. do 3 fstep. fstep; [done|].
  cbn [core mi_btime mi_type]. rewrite Z.eqb_refl. simpl. by fstep.
Qed.

Lemma wm_zero_ok : wm_ok wm_zero [] 0.
Proof. split_and!; try done. right. done. Qed.
Lemma wm_ok_zero wm : wm_ok wm [] 0 -> wm = wm_zero.
Proof.
  destruct wm as [v n i t]. intros (Hv & Hi & _ & Ht). simpl in *. destruct v as [v|]; [by destruct Hv as (_ & ? & _)|].
  destruct Hv as [_ ->]. subst i. destruct Ht as [[_ [?|?]]|[-> _]]; done.
Qed.

(** At rest: the inode in memory has the metadata or is stale. *)
Definition at_rest (i : pfs_inode) (m : gmap Z pfs_dblk) (sz btime : Z) : Prop :=
  exists szx ct st rv tb, i = core ino szx szx ct btime st 0 0 wm_zero rv tb /\
    (st = false -> szx = sz /\ tables_ok tb m).

Lemma sync_first_ok d ph i m sz btime tx logs (Q : Z -> fstate P -> Prop) :
  phy_ok mnt ino ph m sz btime -> at_rest i m sz btime ->
  (forall ct rv tb, tables_ok tb m -> Q 0 (MkFs d ph (core ino sz sz ct btime false 0 0 wm_zero rv tb) tx logs)) ->
  wp (pfs_inode_sync_first mnt PFS_INODET_FILE btime) (MkFs d ph i tx logs) Q.
Proof.
  intros Hph (szx & ct & st & rv & tb & -> & Hfresh) HQ. unfold pfs_inode_sync_first. destruct st.
  - unfold pfs_inode_sync_impl. do 3 fstep. fstep; [unfold sync_waits; simpl; by rewrite Z.eqb_refl|].
    cbn [core mi_stale]. cbv iota. fstep. eapply reload_ok; [exact Hph|]. intros ct' tb' Htb'.
    cbn [negb Z.eqb]. cbv iota. do 2 fstep. cbn [core mi_sync_ver mi_rpl_ver]. rewrite Z.ltb_irrefl, andb_false_r.
    do 3 fstep. fstep; [done|]. cbn [core mi_btime mi_type]. rewrite Z.eqb_refl. simpl. fstep. by apply HQ.
  - destruct (Hfresh eq_refl) as [-> Htb]. eapply sync_busy_ok; [apply wm_zero_ok|]. by apply HQ.
Qed.

(** *** The end of a transaction *)
Lemma callbacks_ok d ph sz2 btime ct st wm rv tb tx logs cbs : forall sz ip md (Q : unit -> fstate P -> Prop),
  cbs_ok cbs ip md -> (cb_count CbSize cbs = 0 -> sz = sz2) ->
  Q tt (MkFs d ph (core ino sz2 sz2 ct btime st 0 0 wm rv tb) tx logs) ->
  wp (pfs_tx_do_callback cbs) (MkFs d ph (core ino sz sz2 ct btime st ip md wm rv tb) tx logs) Q.
Proof.
  induction cbs as [|cb cbs IH]; intros sz ip md Q (Hip & Hor & Hmd) Hsz HQ; simpl in *.
  { fstep. by rewrite Hip, Hmd, Hsz. }
  pose proof (cb_count_pos CbAdd cbs). pose proof (cb_count_pos CbDel cbs). pose proof (cb_count_pos CbHole cbs).
  pose proof (cb_count_pos CbSize cbs). fstep.
  destruct cb; simpl in *;
    unfold pfs_inode_add_committed, pfs_inode_del_committed, pfs_inode_modify_dblk_hole_done, pfs_inode_change_size_done.
  - do 3 fstep. fstep; [apply Z.gtb_gt; simpl; lia|]. fstep. apply IH; [unfold cbs_ok; simpl; lia|intros; apply Hsz; lia|done].
  - do 3 fstep. fstep; [apply Z.ltb_lt; simpl; lia|]. fstep. apply IH; [unfold cbs_ok; simpl; lia|intros; apply Hsz; lia|done].
  - do 3 fstep. fstep; [apply Z.gtb_gt; simpl; lia|]. fstep. apply IH; [unfold cbs_ok; simpl; lia|intros; apply Hsz; lia|done].
  - fstep. apply IH; [unfold cbs_ok; simpl; lia|done|done].
Qed.

(** A transaction without error whose log request goes well. *)
Lemma tx_end_ok d ph sz sz2 ct btime st ip md wm rv tb tx logs (Q : Z -> fstate P -> Prop) :
  cbs_ok (t_cbs tx) ip md -> (cb_count CbSize (t_cbs tx) = 0 -> sz = sz2) -> logs_fine logs ->
  (forall logs', logs_fine logs' -> Q 0 (MkFs d ph (core ino sz2 sz2 ct btime st 0 0 wm rv tb) None logs')) ->
  wp (pfs_tx_end 0) (MkFs d ph (core ino sz sz2 ct btime st ip md wm rv tb) (Some tx) logs) Q.
Proof.
  intros Hcb Hsz Hlg HQ. unfold pfs_tx_end. do 3 fstep. fstep; [done|]. fstep. unfold pfs_tx_submit.
  assert (Hend : forall logs', logs_fine logs' ->
    wp (set_tx None;; pfs_tx_do_callback (t_cbs tx);; mret 0) (MkFs d ph (core ino sz sz2 ct btime st ip md wm rv tb) (Some tx) logs') Q).
  { intros logs' Hl'. do 3 fstep. eapply callbacks_ok; [done|done|]. fstep. by apply HQ. }
  destruct (t_ops tx); cbn [negb Z.eqb]; cbv iota; [|fstep; by apply Hend].
  fstep. destruct logs as [|l logs].
  - eexists _, _. split; [reflexivity|]. simpl. fstep. by apply Hend.
  - apply Forall_cons in Hlg as [-> Hlg]. eexists _, _. split; [reflexivity|]. simpl. fstep. by apply Hend.
Qed.

(** A transaction that failed is undone. *)
Lemma tx_end_fail d ph sz ct btime st ip md wm rv tb tx logs err (Q : Z -> fstate P -> Prop) :
  cbs_ok (t_cbs tx) ip md -> cb_count CbSize (t_cbs tx) = 0 -> err < 0 -> t_ops tx = true -> t_inode tx = true ->
  Q err (MkFs d (t_saved tx) (core ino sz sz ct btime true 0 0 wm rv tb) None logs) ->
  wp (pfs_tx_end err) (MkFs d ph (core ino sz sz ct btime st ip md wm rv tb) (Some tx) logs) Q.
Proof.
  intros Hcb Hsz He Hops Hin HQ. unfold pfs_tx_end. do 3 fstep. fstep; [done|]. fstep. unfold pfs_tx_submit, pfs_tx_rollback, pfs_inode_mark_stale.
  rewrite Hops, Hin, (proj2 (Z.eqb_neq err 0)) by lia. cbn [negb]. cbv iota. do 4 fstep. do 4 fstep. eapply callbacks_ok; [done|done|]. by fstep.
Qed.

(** A transaction whose log request fails is undone, too. *)
Lemma tx_end_log_fail d ph sz sz2 ct btime st ip md wm rv tb tx logs e (Q : Z -> fstate P -> Prop) :
  cbs_ok (t_cbs tx) ip md -> (cb_count CbSize (t_cbs tx) = 0 -> sz = sz2) -> e < 0 -> e <> - ETIMEDOUT -> t_ops tx = true -> t_inode tx = true ->
  Q e (MkFs d (t_saved tx) (core ino sz2 sz2 ct btime true 0 0 wm rv tb) None logs) ->
  wp (pfs_tx_end 0) (MkFs d ph (core ino sz sz2 ct btime st ip md wm rv tb) (Some tx) (e :: logs)) Q.
Proof.
  intros Hcb Hsz He Het Hops Hin HQ. unfold pfs_tx_end. do 3 fstep. fstep; [done|]. fstep. unfold pfs_tx_submit, pfs_tx_rollback, pfs_inode_mark_stale.
  rewrite Hops, Hin. cbn [negb Z.eqb]. cbv iota. fstep. eexists _, _. split; [reflexivity|]. cbn [fs_dev fs_phy fs_in fs_tx fs_logs].
  rewrite (proj2 (Z.ltb_lt e 0)) by done. cbv iota. do 4 fstep. rewrite (proj2 (Z.eqb_neq _ _) Het). cbn [andb]. cbv iota. do 4 fstep.
  eapply callbacks_ok; [done|done|]. by fstep.
Qed.
End Ops.
