(* ===== verification/File.v ===== *)
(** * Files

    Model of the data path of pfs_file.cc and of the calls of pfs_api.cc on
    an open file: read, write, truncate, allocate and seek, over the block
    I/O ([Blkio]), the block index ([Blktable]) and the inode ([Inode]). *)

From S2P Require Import Prelude Blkio Blktable Object Inode.

Open Scope pfs_scope.

Definition OFFSET_FILE_POS : Z := -1.
Definition OFFSET_FILE_SIZE : Z := -2.
Definition FALLOC_FL_KEEP_SIZE : Z := 1.
Definition FALLOC_FL_NO_HIDE_STALE : Z := 4.
Definition FALLOC_PFSFL_FIXED_OFFSET : Z := 256.
Definition OFF_MAX : Z := 2 ^ 63 - 1.
Definition SEEK_SET : Z := 0.
Definition SEEK_CUR : Z := 1.
Definition SEEK_END : Z := 2.

(** [ssize_t] of a [size_t]. *)
Definition to_i64 (z : Z) : Z := (z + 2 ^ 63) mod 2 ^ 64 - 2 ^ 63.
Definition flag_set (mode flag : Z) : bool := negb (Z.land mode flag =? 0).

(** The open file. *)
Record pfs_file := MkFile { f_append : bool; f_offset : Z; f_btime : Z }.
Definition set_offset (v : Z) (f : pfs_file) : pfs_file := MkFile (f_append f) v (f_btime f).

Section File.
Context {P : Type} `{BlkPool P} (mnt : pfs_mount).
Let geo := mnt_geo mnt.
Let blksize := mnt_blksize geo.
Abbreviation F := (fio P).

Definition fblkid (off : Z) : F Z :=
  assert_ (Z.land blksize (blksize - 1) =? 0);;
  assert_ (off >=? 0);;
  mret (off / blksize).
Definition fblkoff (off : Z) : F Z :=
  assert_ (Z.land blksize (blksize - 1) =? 0);;
  assert_ (off >=? 0);;
  mret (Z.land off (blksize - 1)).

Definition map_blk (blkid : Z) : F (Z * Z) := in_ ← gets fs_in; lift (pfs_inode_map (mi_blks in_) blkid).
Definition blkio_read (len dblkno blkoff : Z) : F (Z * list Z) :=
  upd_dev (fun d => let* r := pfs_blkio_read geo (replicate (Z.to_nat len) 0) dblkno blkoff len d in
                    let '(rv, buf, d) := r in Some ((rv, buf), d)).
Definition blkio_write (data : option (list Z)) (dblkno blkoff len : Z) : F Z :=
  upd_dev (pfs_blkio_write geo data dblkno blkoff len).
Definition has_blkhole : F bool := lift (pfs_version_has_features mnt PFS_FEATURE_BLKHOLE).

(** ** Read

    The number of bytes or an error, and the bytes read. *)
Fixpoint read_loop (fuel : nat) (locked : bool) (btime len rsum offset : Z) : F (Z * list Z) :=
  if negb (rsum <? len) then mret (rsum, []) else
  match fuel with
  | O => lift None
  | S fuel =>
      let left := len - rsum in
      blkid ← fblkid offset;
      blkoff ← fblkoff offset;
      m ← map_blk blkid;
      let '(dblkno, dbhoff) := m in
      again ← (if dblkno =? 0 then sz ← pfs_inode_size; mret (offset + left >? sz) else mret false);
      if again : bool then mret (- EAGAIN, []) else
      r ← (if dbhoff <=? blkoff then
             ok ← (if dblkno =? 0 then mret true else has_blkhole);
             assert_ ok;;
             let rlen := Z.min (blksize - blkoff) left in
             mret (rlen, replicate (Z.to_nat rlen) 0)
           else
             blkio_read (Z.min (Z.min dbhoff blksize - blkoff) left) dblkno blkoff);
      let '(rlen, data) := r in
      if rlen <? 0 then mret (rlen, []) else
      err ← (if locked && (rsum + rlen <? len) then pfs_inode_sync mnt PFS_INODET_FILE btime else mret 0);
      if err <? 0 then mret (err, []) else
      r ← read_loop fuel locked btime len (rsum + rlen) (offset + rlen);
      let '(rv, rest) := r in
      mret (rv, data ++ rest)
  end.

Definition pfs_file_read (len offset : Z) (locked : bool) (btime : Z) : F (Z * list Z) :=
  err ← (if locked then pfs_inode_sync_first mnt PFS_INODET_FILE btime else mret 0);
  if err <? 0 then mret (err, []) else
  fsize ← pfs_inode_size;
  let len := (if offset >=? fsize then 0 else if to_i64 (offset + len) >=? fsize then fsize - offset else len) in
  read_loop (Z.to_nat len) locked btime len 0 offset.

(** ** Write

    The part of a write inside one block: a write past the start of the hole
    fills the rest of the block with zeros. *)
Definition write_block (fsize offset blkid blkoff dblkno dbhoff wlen : Z) (data : list Z) : F Z :=
  fill ← (if (dbhoff <? blksize) && (blkoff + wlen >? dbhoff) then has_blkhole else mret false);
  if fill : bool then
    pfs_inode_writemodify_shrink_dblk_hole mnt blkid blksize 0;;
    zlen ← (if dbhoff <? blkoff then blkio_write None dblkno dbhoff (blkoff - dbhoff) else mret 0);
    if zlen <? 0 then mret zlen else
    wlen ← blkio_write (Some data) dblkno blkoff wlen;
    if wlen <? 0 then mret wlen else
    zlen ← (if blkoff + wlen <? blksize
            then blkio_write None dblkno (blkoff + wlen) (blksize - blkoff - wlen) else mret 0);
    if zlen <? 0 then mret zlen else
    (if offset + wlen >? fsize then pfs_inode_writemodify_increment_size mnt (offset + wlen - fsize) else mret tt);;
    mret wlen
  else
    (if offset + wlen >? fsize then pfs_inode_writemodify_increment_size mnt (offset + wlen - fsize) else mret tt);;
    blkio_write (Some data) dblkno blkoff wlen.

(** [data] is what is left of the buffer; the result has the offset behind
    the last byte. *)
Fixpoint write_loop (fuel : nat) (locked : bool) (btime len fsize wsum offset : Z) (data : list Z) : F (Z * Z) :=
  if negb (wsum <? len) then mret (wsum, offset) else
  match fuel with
  | O => lift None
  | S fuel =>
      let left := len - wsum in
      blkid ← fblkid offset;
      blkoff ← fblkoff offset;
      m ← map_blk blkid;
      let '(dblkno, dbhoff) := m in
      if dblkno =? 0 then mret (- EAGAIN, offset) else
      ok ← (if locked || (dbhoff >=? blksize) then mret true else f ← has_blkhole; mret (negb f));
      assert_ ok;;
      let wlen := Z.min (blksize - blkoff) left in
      wlen ← write_block fsize offset blkid blkoff dblkno dbhoff wlen data;
      if wlen <? 0 then mret (wlen, offset) else
      err ← (if locked then pfs_inode_sync mnt PFS_INODET_FILE btime else mret 0);
      if negb (err =? 0) then mret (err, offset) else
      write_loop fuel locked btime len fsize (wsum + wlen) (offset + wlen) (drop (Z.to_nat wlen) data)
  end.

(** The offset is written back on success only. *)
Definition pfs_file_write (buf : list Z) (len off : Z) (locked : bool) (btime : Z) : F (Z * Z) :=
  err ← (if locked then pfs_inode_sync_first mnt PFS_INODET_FILE btime else mret 0);
  if negb (err =? 0) then mret (err, off) else
  fsize ← pfs_inode_size;
  let offset := if off =? OFFSET_FILE_SIZE then fsize else off in
  r ← write_loop (Z.to_nat len) locked btime len fsize 0 offset buf;
  let '(wsum, offset) := r in
  mret (wsum, if wsum <? 0 then off else offset).

(** ** Truncate *)
Definition pfs_file_truncate (len btime : Z) : F Z :=
  err ← pfs_inode_sync_first mnt PFS_INODET_FILE btime;
  if err <? 0 then mret err else
  fsize ← pfs_inode_size;
  let shrinksize := file_shrink_size mnt in
  let len := if (shrinksize >? 0) && (fsize - len >? shrinksize) then fsize - shrinksize else len in
  r ← (if len =? 0 then mret (0, -1) else
       lastblkid ← fblkid (len - 1);
       m ← map_blk lastblkid;
       let '(dblkno, dbhoff) := m in
       if (dblkno >? 0) && (len <? fsize) then
         blkoff ← fblkoff len;
         expand ← (if (blkoff >? 0) && (blkoff <? dbhoff) then has_blkhole else mret false);
         if expand : bool then
           err ← pfs_inode_phy_check;
           if err <? 0 then mret (err, lastblkid) else
           pfs_inode_expand_dblk_hole mnt lastblkid blkoff (blksize - blkoff);;
           mret (0, lastblkid)
         else mret (0, lastblkid)
       else mret (0, lastblkid));
  let '(err, lastblkid) := r in
  if err <? 0 then mret err else
  err ← pfs_inode_del_from (lastblkid + 1);
  if err <? 0 then mret err else
  if negb (len =? fsize) then
    err ← pfs_inode_change mnt (len - fsize) false;
    if err <? 0 then mret err else mret len
  else mret len.

(** ** Allocate *)
Fixpoint allocate_loop (fuel : nat) (mode len asum offset fsize : Z) : F (Z * Z) :=
  if negb (asum <? len) then mret (0, fsize) else
  match fuel with
  | O => lift None
  | S fuel =>
      let left := len - asum in
      blkid ← fblkid offset;
      m ← map_blk blkid;
      let '(dblkno, dbhoff) := m in
      err ← (if dblkno =? 0 then
               err ← pfs_inode_add mnt blkid;
               if err <? 0 then mret err else
               shrink ← (if flag_set mode FALLOC_FL_NO_HIDE_STALE then has_blkhole else mret false);
               (if shrink : bool then pfs_inode_shrink_dblk_hole mnt blkid blksize 0 else mret tt);;
               mret 0
             else mret 0);
      if err <? 0 then mret (err, fsize) else
      blkoff ← fblkoff offset;
      let alen := Z.min (blksize - blkoff) left in
      allocate_loop fuel mode len (asum + alen) (offset + alen)
        (if offset + alen >? fsize then offset + alen else fsize)
  end.

Definition pfs_file_allocate (offset len mode btime : Z) : F Z :=
  err ← pfs_inode_sync_first mnt PFS_INODET_FILE btime;
  if err <? 0 then mret err else
  oldfsize ← pfs_inode_size;
  let offset := if offset =? OFFSET_FILE_SIZE then oldfsize else offset in
  r ← allocate_loop (Z.to_nat len) mode len 0 offset oldfsize;
  let '(err, fsize) := r in
  if err <? 0 then mret err else
  if negb (flag_set mode FALLOC_FL_KEEP_SIZE) && (fsize >? oldfsize) then
    err ← pfs_inode_change mnt (fsize - oldfsize) false;
    if err <? 0 then mret err else mret fsize
  else mret fsize.

(** ** The calls on an open file *)
Definition errof (rv : Z) : Z := if rv <? 0 then rv else 0.

(** The loop of [pfs_file_xftruncate]: every round takes off at most
    [file_shrink_size] bytes. *)
Fixpoint pfs_file_xftruncate (fuel : nat) (file : pfs_file) (len : Z) : F Z :=
  match fuel with
  | O => lift None
  | S fuel =>
      assert_ (len >=? 0);;
      r ← tls_write mnt false 0 (fsize ← pfs_file_truncate len (f_btime file); mret (fsize, errof fsize));
      let '(fsize, err) := r in
      if (err =? 0) && negb (fsize =? len) then pfs_file_xftruncate fuel file len else mret err
  end.

Definition pfs_file_xpread (file : pfs_file) (len off : Z) : F (Z * list Z * pfs_file) :=
  let off2 := if off =? OFFSET_FILE_POS then f_offset file else off in
  assert_ (off2 >=? 0);;
  r ← tls_read (pfs_mount_needsync mnt) (-1, [])
        (r ← pfs_file_read len off2 true (f_btime file); mret (r, errof (fst r)));
  let '((rlen, data), err) := r in
  mret (rlen, data, if (err =? 0) && (off =? -1) then set_offset (f_offset file + rlen) file else file).

Definition pfs_file_xpwrite (file : pfs_file) (buf : list Z) (len off : Z) : F (Z * pfs_file) :=
  if len <=? 0 then mret (0, file) else
  let off2 := (if f_append file then OFFSET_FILE_SIZE
               else if off =? OFFSET_FILE_POS then f_offset file else off) in
  assert_ ((off2 >=? 0) || (off2 =? OFFSET_FILE_SIZE));;
  r ← pfs_file_write buf len off2 true (f_btime file);
  let '(wlen, off2) := r in
  let err := errof wlen in
  r ← tls_write mnt (f_append file) tt
        (err1 ← pfs_inode_writemodify_commit mnt; mret (tt, ERR_UPDATE err err1));
  let err := snd r in
  if negb (err =? 0) then mret (err, file)
  else mret (wlen, if off =? OFFSET_FILE_POS then set_offset off2 file else file).

Definition pfs_file_xfallocate (file : pfs_file) (offset len mode : Z) : F Z :=
  let off2 := (if flag_set mode FALLOC_PFSFL_FIXED_OFFSET then offset
               else if f_append file then OFFSET_FILE_SIZE
               else if offset =? OFFSET_FILE_POS then f_offset file else offset) in
  assert_ ((off2 >=? 0) || (off2 =? OFFSET_FILE_SIZE));;
  r ← tls_write mnt false tt (newfsize ← pfs_file_allocate off2 len mode (f_btime file); mret (tt, errof newfsize));
  mret (snd r).

Definition pfs_inodephy_size : F Z :=
  phyin ← gets (fun s => ph_in (fs_phy s));
  let err := pfs_inode_check_stale (Some phyin) None in
  if err <? 0 then mret err else
  if in_type phyin =? PFS_INODET_DIR then mret (- EISDIR) else mret (in_size phyin).

Definition pfs_file_size (btime : Z) : F Z :=
  in_ ← gets fs_in;
  if negb (pfs_writable mnt) && mi_stale in_ then pfs_inodephy_size else
  err ← pfs_inode_sync_first mnt PFS_INODET_FILE btime;
  fsize ← (if err =? 0 then pfs_inode_size else mret 0);
  mret (if err <? 0 then err else fsize).

(** The checks rely on two's complement addition. *)
Definition lseek_check (file : pfs_file) (new_offset : Z) : Z * pfs_file :=
  if new_offset <? 0 then (- EINVAL, file) else (new_offset, set_offset new_offset file).
Definition lseek_relative (file : pfs_file) (old_offset offset : Z) : Z * pfs_file :=
  let new_offset := to_i64 (old_offset + offset) in
  if (offset >? 0) && (new_offset <? old_offset) then (- EOVERFLOW, file) else
  if (offset <? 0) && (new_offset >? old_offset) then (- EOVERFLOW, file) else
  lseek_check file new_offset.
Definition pfs_file_lseek (file : pfs_file) (offset whence : Z) : F (Z * pfs_file) :=
  if whence =? SEEK_SET then mret (lseek_check file offset) else
  if whence =? SEEK_CUR then mret (lseek_relative file (f_offset file) offset) else
  if whence =? SEEK_END then
    old_offset ← pfs_file_size (f_btime file);
    if old_offset <? 0 then mret (old_offset, file) else mret (lseek_relative file old_offset offset)
  else mret (- EINVAL, file).

Definition pfs_file_xlseek (file : pfs_file) (offset whence : Z) : F (Z * pfs_file) :=
  let need_sync := pfs_mount_needsync mnt && (whence =? SEEK_END) in
  r ← tls_read need_sync (-1, file)
        (r ← pfs_file_lseek file offset whence; mret (r, errof (fst r)));
  mret (fst r).

(** ** The API behind the file descriptor *)
Definition _pfs_read (file : pfs_file) (len : Z) : F (Z * list Z * pfs_file) :=
  if len =? 0 then mret (0, [], file) else pfs_file_xpread file len OFFSET_FILE_POS.
Definition _pfs_pread (file : pfs_file) (len offset : Z) : F (Z * list Z * pfs_file) :=
  if len =? 0 then mret (0, [], file) else pfs_file_xpread file len offset.

Definition _pfs_write (file : pfs_file) (buf : list Z) (len : Z) : F (Z * pfs_file) :=
  if len =? 0 then mret (0, file) else
  if wrap64 (OFF_MAX - f_offset file) <? len then mret (- EFBIG, file) else
  err ← pfs_file_xfallocate file OFFSET_FILE_POS len FALLOC_FL_KEEP_SIZE;
  if err <? 0 then mret (err, file) else
  pfs_file_xpwrite file buf len OFFSET_FILE_POS.
Definition _pfs_pwrite (file : pfs_file) (buf : list Z) (len offset : Z) : F (Z * pfs_file) :=
  if len =? 0 then mret (0, file) else
  if wrap64 (OFF_MAX - offset) <? len then mret (- EFBIG, file) else
  err ← pfs_file_xfallocate file offset len FALLOC_FL_KEEP_SIZE;
  if err <? 0 then mret (err, file) else
  pfs_file_xpwrite file buf len offset.
Definition _pfs_fallocate (file : pfs_file) (mode offset len : Z) : F Z :=
  pfs_file_xfallocate file offset len (Z.lor FALLOC_PFSFL_FIXED_OFFSET mode).
Definition _pfs_ftruncate (fuel : nat) (file : pfs_file) (len : Z) : F Z := pfs_file_xftruncate fuel file len.
Definition _pfs_lseek (file : pfs_file) (offset whence : Z) : F (Z * pfs_file) := pfs_file_xlseek file offset whence.
End File.
