(* ===== verification/FileSafe.v ===== *)
(** * Files behave as sequences of bytes

    What the read and write paths of [File] do to the content of a file: the
    bytes of its blocks, zero in holes and past the end. *)

From S2P Require Import Prelude Blkio Blktable Object Inode InodeInv File.

Open Scope pfs_scope.

Definition holestart (b : pfs_dblk) : Z := if db_holelen b >? 0 then db_holeoff b else INT_MAX.

Lemma nth_zeros i n : nth i (replicate n 0) 0 = 0.
Proof. rewrite nth_lookup. destruct (replicate n 0 !! i) as [x|] eqn:E; [|done]. by apply lookup_replicate in E as [-> _]. Qed.

Lemma zero_buf_length : length pfs_zero_buf = Z.to_nat PFS_BLOCK_SIZE.
Proof. apply length_replicate. Qed.
Lemma zero_buf_take n : (n <= Z.to_nat PFS_BLOCK_SIZE)%nat -> take n pfs_zero_buf = replicate n 0.
Proof. unfold pfs_zero_buf. generalize (Z.to_nat PFS_BLOCK_SIZE). intros N Hn. by rewrite take_replicate, Nat.min_l. Qed.

Section FileSafe.
Context (mnt : pfs_mount) {P : Type} `{PoolLaws mnt P} (ino : Z).
Let geo := mnt_geo mnt.
Let B := mnt_blksize geo.

(** The byte of the file at [o], of the blocks [m] on a device with bytes [f]. *)
Definition file_byte (f : Z -> Z) (m : gmap Z pfs_dblk) (o : Z) : Z :=
  match m !! (o / B) with
  | Some b => if o mod B <? holestart b then f (db_blkno b * B + o mod B) else 0
  | None => 0
  end.

Hypothesis Hfeat : pfs_version_has_features mnt PFS_FEATURE_BLKHOLE = Some true.
Hypothesis Hgeo : geo_ok geo.
Hypothesis Hpow : exists k, 0 <= k /\ B = 2 ^ k.
Hypothesis Hmax : B <= PFS_BLOCK_SIZE.

Lemma HB : 0 < B.
Proof. by destruct Hgeo as (_ & _ & ? & _). Qed.
Lemma B_int_max : B < INT_MAX.
Proof. unfold PFS_BLOCK_SIZE, INT_MAX in *. change (Z.shiftl 4 20) with 4194304 in Hmax. lia. Qed.
Lemma pow2_land : Z.land B (B - 1) = 0.
Proof.
  destruct Hpow as (k & Hk & ->). rewrite Z.sub_1_r, <- Z.ones_equiv, Z.land_ones by done. by rewrite Z.mod_same by lia.
Qed.
Lemma blkoff_mod off : Z.land off (B - 1) = off mod B.
Proof. destruct Hpow as (k & Hk & ->). by rewrite Z.sub_1_r, <- Z.ones_equiv, Z.land_ones. Qed.

Lemma fblkid_ok off s (Q : Z -> fstate P -> Prop) : 0 <= off -> Q (off / B) s -> wp (fblkid mnt off) s Q.
Proof.
  intros Ho HQ. unfold fblkid. fold geo B. fstep. fstep; [by rewrite pow2_land|]. fstep. fstep; [by apply geb_true|]. by fstep.
Qed.
Lemma fblkoff_ok off s (Q : Z -> fstate P -> Prop) : 0 <= off -> Q (off mod B) s -> wp (fblkoff mnt off) s Q.
Proof.
  intros Ho HQ. unfold fblkoff. fold geo B. fstep. fstep; [by rewrite pow2_land|]. fstep. fstep; [by apply geb_true|]. fstep.
  by rewrite blkoff_mod.
Qed.

(** The block of an offset and the place in it. *)
Lemma block_of o i : 0 <= i -> o mod B + i < B -> (o + i) / B = o / B /\ (o + i) mod B = o mod B + i.
Proof.
  intros Hi Hlt. pose proof HB. pose proof (Z.mod_pos_bound o B ltac:(lia)). pose proof (Z.div_mod o B ltac:(lia)).
  assert (o + i = B * (o / B) + (o mod B + i)) as E by lia.
  split; symmetry; [eapply Z.div_unique|eapply Z.mod_unique]; [left|exact E|left|exact E]; lia.
Qed.

Lemma holestart_cases b : hole_ok mnt b -> (holestart b = INT_MAX /\ db_holelen b = 0) \/ (0 <= holestart b < B /\ holestart b = db_holeoff b).
Proof.
  intros [E|(H1 & H2 & H3)]; unfold holestart.
  - rewrite E. by left.
  - rewrite (proj2 (Z.gtb_gt _ _)) by lia. right. fold geo B in H3. lia.
Qed.

(** ** Reading *)
Lemma map_blk_ok d ph m sz btime ct ip md wm rv tb tx logs blkid (Q : Z * Z -> fstate P -> Prop) :
  let s := MkFs d ph (core ino sz sz ct btime false ip md wm rv tb) tx logs in
  tables_ok tb m -> blkid_ok blkid ->
  Q (match m !! blkid with Some b => (db_blkno b, holestart b) | None => (0, 0) end) s -> wp (map_blk blkid) s Q.
Proof.
  intros s Htb Hb HQ. unfold map_blk, s. do 2 fstep. fstep; [by apply map_ok|]. exact HQ.
Qed.

Lemma inode_size_ok d ph sz btime ct ip md wm rv tb tx logs st (Q : Z -> fstate P -> Prop) :
  let s := MkFs d ph (core ino sz sz ct btime st ip md wm rv tb) tx logs in Q sz s -> wp pfs_inode_size s Q.
Proof.
  intros s HQ. unfold pfs_inode_size, s. do 3 fstep. fstep; [done|]. fstep. fstep; [apply Z.eqb_refl|]. by fstep.
Qed.

Definition dev_fine (d : device) : Prop := d_pending d = [] /\ all_fine d.

(** The bytes of a file inside one block. *)
Lemma bytes_in_block f m o n b : 0 <= o -> 0 <= n -> m !! (o / B) = Some b -> o mod B + n <= Z.min (holestart b) B ->
  bytes_at (file_byte f m) o n = bytes_at f (db_blkno b * B + o mod B) n.
Proof.
  intros Ho Hn Hm Hle. apply (nth_ext _ _ 0 0); rewrite !bytes_at_length; [done|]. intros i Hi.
  rewrite !bytes_at_nth by lia. destruct (block_of o (Z.of_nat i)) as [E1 E2]; [lia..|].
  unfold file_byte. rewrite E1, E2, Hm, (proj2 (Z.ltb_lt _ _)) by lia. f_equal. lia.
Qed.
Lemma bytes_in_hole f m o n : 0 <= o -> 0 <= n -> o mod B + n <= B ->
  (m !! (o / B) = None \/ exists b, m !! (o / B) = Some b /\ holestart b <= o mod B) ->
  bytes_at (file_byte f m) o n = replicate (Z.to_nat n) 0.
Proof.
  intros Ho Hn Hle Hm. apply (nth_ext _ _ 0 0); rewrite bytes_at_length, ?length_replicate; [done|]. intros i Hi.
  rewrite bytes_at_nth, nth_zeros by lia. destruct (block_of o (Z.of_nat i)) as [E1 E2]; [lia..|].
  unfold file_byte. rewrite E1, E2. destruct Hm as [->|(b & -> & Hh)]; [done|]. by rewrite (proj2 (Z.ltb_ge _ _)) by lia.
Qed.

Lemma file_read_loop_ok ph m sz btime ct rv tb tx logs len fuel : forall d rsum offset (Q : Z * list Z -> fstate P -> Prop),
  phy_ok mnt ino ph m sz btime -> tables_ok tb m -> dev_fine d -> 0 <= offset -> rsum <= len -> len - rsum <= Z.of_nat fuel ->
  offset + (len - rsum) <= sz -> sz <= 2 ^ 35 * B ->
  (forall d', d_bytes d' = d_bytes d -> dev_fine d' ->
     Q (len, bytes_at (file_byte (d_bytes d) m) offset (len - rsum)) (MkFs d' ph (core ino sz sz ct btime false 0 0 wm_zero rv tb) tx logs)) ->
  wp (read_loop mnt fuel true btime len rsum offset) (MkFs d ph (core ino sz sz ct btime false 0 0 wm_zero rv tb) tx logs) Q.
Proof.
  induction fuel as [|fuel IH]; intros d rsum offset Q Hph Htb Hd Ho Hr Hf Hsz Hlim HQ.
  all: simpl read_loop; destruct (Z.ltb_spec rsum len) as [Hlt|Hge]; cbn [negb]; cbv iota.
  2, 4: fstep; replace rsum with len in * by lia; specialize (HQ d eq_refl Hd); rewrite Z.sub_diag in HQ; exact HQ.
  { lia. }
  pose proof HB as HB0. pose proof (Z.mod_pos_bound offset B ltac:(lia)) as Hmb. pose proof (Z.div_pos offset B ltac:(lia) ltac:(lia)) as Hdp.
  assert (Hbk : blkid_ok (offset / B)).
  { split; [done|]. apply Z.div_lt_upper_bound; nia. }
  fstep. apply fblkid_ok; [done|]. fstep. apply fblkoff_ok; [done|]. fstep. eapply map_blk_ok; [exact Htb|done|].
  (** The tail of the loop, after [rlen] bytes [data] were read. *)
  assert (Htail : forall rlen data d', 0 < rlen <= len - rsum -> d_bytes d' = d_bytes d -> dev_fine d' ->
    data = bytes_at (file_byte (d_bytes d) m) offset rlen ->
    wp (if rlen <? 0 then mret (rlen, []) else
        err ← (if true && (rsum + rlen <? len) then pfs_inode_sync mnt PFS_INODET_FILE btime else mret 0);
        if err <? 0 then mret (err, []) else
        r ← read_loop mnt fuel true btime len (rsum + rlen) (offset + rlen);
        let '(rv, rest) := r in
        mret (rv, data ++ rest)) (MkFs d' ph (core ino sz sz ct btime false 0 0 wm_zero rv tb) tx logs) Q).
  { intros rlen data d' Hrl Hbd Hfd Hdat. rewrite (proj2 (Z.ltb_ge rlen 0)) by lia. cbn [andb].
    apply wp_bind. apply (wp_mono _ _ (fun err s' => err = 0 /\ s' = MkFs d' ph (core ino sz sz ct btime false 0 0 wm_zero rv tb) tx logs)).
    { destruct (rsum + rlen <? len); [|by fstep]. by eapply sync_busy_ok; [apply wm_zero_ok|]. }
    intros err s' [-> ->]. change (0 <? 0) with false. cbv iota. fstep.
    eapply IH; try done; try lia. intros d2 Hb2 Hf2. rewrite Hbd in *. fstep. specialize (HQ d2 Hb2 Hf2). revert HQ.
    rewrite Hdat, bytes_at_app by lia. by replace (rlen + (len - (rsum + rlen))) with (len - rsum) by lia. }
  destruct (m !! (offset / B)) as [b|] eqn:Em.
  - destruct (tags_entry mnt ino _ _ _ (py_tags _ _ _ _ _ _ Hph) _ _ Em) as (n & bt & _ & _ & _ & _ & _ & _ & Hpos & Hdisk & _ & Hh).
    cbv beta iota zeta. rewrite (proj2 (Z.eqb_neq (db_blkno b) 0)) by lia. do 2 fstep. cbv beta iota. fstep.
    destruct (Z.leb_spec (holestart b) (offset mod B)) as [Hle|Hgt].
    + fstep. unfold has_blkhole. fstep; [exact Hfeat|]. fstep. fstep; [done|]. fstep. fold geo B.
      apply Htail; [lia|done|done|]. symmetry. apply bytes_in_hole; [lia|lia|lia|right; by exists b].
    + fold geo B. unfold blkio_read. fold geo. set (rlen := Z.min (Z.min (holestart b) B - offset mod B) (len - rsum)).
      destruct (read_ok geo (db_blkno b) Hgeo ltac:(lia) Hdisk (replicate (Z.to_nat rlen) 0) (offset mod B) rlen d)
        as (rv' & l' & d' & Hrd & Hp' & _ & Hb' & Hl' & Hf'); [unfold rlen; fold geo B; rewrite ?length_replicate; lia..|apply Hd|].
      destruct (Hf' (proj2 Hd)) as [-> Hf2]. eapply wp_upd_dev; [cbn [fs_dev]; by rewrite Hrd|]. cbn [fs_phy fs_in fs_tx fs_logs].
      cbv beta iota. apply Htail; [unfold rlen; lia|done|done|]. rewrite (Hl' eq_refl), drop_ge, app_nil_r by (rewrite length_replicate; lia).
      symmetry. fold geo B. apply bytes_in_block; [lia|unfold rlen; lia|done|unfold rlen; lia].
  - cbv beta iota zeta. change (0 =? 0) with true. cbv iota. fstep. fstep. apply inode_size_ok. fstep.
    assert ((offset + (len - rsum) >? sz) = false) as -> by (rewrite Z.gtb_ltb; apply Z.ltb_ge; lia). cbv iota.
    rewrite (proj2 (Z.leb_le 0 _)) by lia. do 3 fstep. fstep. fstep; [done|]. fstep. fold geo B.
    apply Htail; [lia|done|done|]. symmetry. apply bytes_in_hole; [lia|lia|lia|by left].
Qed.

(** ** Writing *)
(** The blocks of a file: one device block each, on the device. *)
Record blks_ok (m : gmap Z pfs_dblk) : Prop := {
  bk_inj : forall k k' b b', m !! k = Some b -> m !! k' = Some b' -> db_blkno b = db_blkno b' -> k = k';
  bk_pos : forall k b, m !! k = Some b -> 0 < db_blkno b /\ db_blkno b * B + B <= mnt_disksize geo /\ hole_ok mnt b
}.

Lemma tags_blks l pool m : tags_ok mnt ino l pool m -> blks_ok m.
Proof.
  intros Htg. split.
  - intros k k' b b'. by apply (tags_inj mnt ino l pool m Htg).
  - intros k b Hm. by destruct (tags_entry mnt ino _ _ _ Htg _ _ Hm) as (n & bt & _ & _ & _ & _ & _ & _ & Hp & Hd & _ & Hh).
Qed.

Lemma blks_upd m k b b' : blks_ok m -> m !! k = Some b -> db_blkno b' = db_blkno b -> hole_ok mnt b' -> blks_ok (<[k := b']> m).
Proof.
  intros [Hi Hp] Hm Hb Hh. split.
  - intros k1 k2 b1 b2 [[<- <-]|[? L1]]%lookup_insert_Some [[<- <-]|[? L2]]%lookup_insert_Some E; [done| | |].
    + rewrite Hb in E. by eapply Hi.
    + rewrite Hb in E. by eapply Hi.
    + by eapply Hi.
  - intros k1 b1 [[<- <-]|[? L1]]%lookup_insert_Some; [|by eapply Hp]. rewrite Hb. by destruct (Hp k b Hm) as (? & ? & _).
Qed.

(** A change of one block of the device and of its hole. *)
Lemma file_byte_upd f f' m k b b' : blks_ok m -> m !! k = Some b -> db_blkno b' = db_blkno b ->
  (forall x, ~ (db_blkno b * B <= x < db_blkno b * B + B) -> f' x = f x) ->
  forall o, 0 <= o -> file_byte f' (<[k := b']> m) o =
    if o / B =? k then (if o mod B <? holestart b' then f' (db_blkno b * B + o mod B) else 0) else file_byte f m o.
Proof.
  intros [Hi _] Hm Hb Hf o Ho. unfold file_byte. destruct (Z.eqb_spec (o / B) k) as [->|Hne].
  - by rewrite lookup_insert_eq, Hb.
  - rewrite lookup_insert_ne by done. destruct (m !! (o / B)) as [c|] eqn:Ec; [|done].
    destruct (o mod B <? holestart c); [|done]. apply Hf. intros Hx. apply Hne.
    pose proof HB. pose proof (Z.mod_pos_bound o B ltac:(lia)). eapply Hi; [done|done|]. nia.
Qed.

Lemma wrote_eq f f' a l x : wrote f f' a l True ->
  f' x = if (a <=? x) && (x <? a + Z.of_nat (length l)) then nth (Z.to_nat (x - a)) l 0 else f x.
Proof.
  intros Hw. destruct (Hw x) as [Ho Hi]. destruct (Z.leb_spec a x), (Z.ltb_spec x (a + Z.of_nat (length l))); simpl; try (apply Ho; lia).
  by apply Hi.
Qed.

Lemma blkio_write_ok m k b data off len d ph i tx logs (Q : Z -> fstate P -> Prop) :
  blks_ok m -> m !! k = Some b -> dev_fine d -> 0 <= off -> 0 <= len -> off + len <= B ->
  (match data with Some l => len <= Z.of_nat (length l) | None => True end) ->
  (forall d', wrote (d_bytes d) (d_bytes d') (db_blkno b * B + off)
       (match data with Some l => take (Z.to_nat len) l | None => replicate (Z.to_nat len) 0 end) True -> dev_fine d' ->
     Q len (MkFs d' ph i tx logs)) ->
  wp (blkio_write mnt data (db_blkno b) off len) (MkFs d ph i tx logs) Q.
Proof.
  intros [_ Hp] Hm Hd Ho Hl He Hdat HQ. destruct (Hp k b Hm) as (Hpos & Hdisk & _). unfold blkio_write. fold geo.
  assert (exists l, pfs_blkio_write geo data (db_blkno b) off len d = pfs_blkio_write geo (Some l) (db_blkno b) off len d /\
    len <= Z.of_nat (length l) /\
    take (Z.to_nat len) l = match data with Some l => take (Z.to_nat len) l | None => replicate (Z.to_nat len) 0 end)
    as (l & Hw & Hll & Htk).
  { destruct data as [l|]; [by exists l|]. exists pfs_zero_buf. rewrite write_zero_ok, zero_buf_length, zero_buf_take by lia.
    split; [reflexivity|]. split; [|reflexivity]. rewrite Z2Nat.id by discriminate. lia. }
  destruct (write_ok geo (db_blkno b) Hgeo ltac:(lia) Hdisk l off len d Ho Hl He Hll (proj1 Hd))
    as (rv & d' & Hwr & Hp' & _ & Hwt & Hf).
  destruct (Hf (proj2 Hd)) as [-> Hf']. eapply wp_upd_dev; [cbn [fs_dev]; rewrite Hw; exact Hwr|]. cbn [fs_phy fs_in fs_tx fs_logs].
  apply HQ; [|done]. rewrite <- Htk. eapply wrote_mono; [|exact Hwt]. done.
Qed.

(** [data] at [offset]. *)
Definition over (g : Z -> Z) (offset n : Z) (data : list Z) (o : Z) : Z :=
  if (offset <=? o) && (o <? offset + n) then nth (Z.to_nat (o - offset)) data 0 else g o.

Lemma content_step f f' m b b' offset wlen data : blks_ok m -> m !! (offset / B) = Some b -> db_blkno b' = db_blkno b ->
  (forall x, ~ (db_blkno b * B <= x < db_blkno b * B + B) -> f' x = f x) -> 0 <= offset -> offset mod B + wlen <= B ->
  (forall i, 0 <= i < B -> (if i <? holestart b' then f' (db_blkno b * B + i) else 0) =
     over (fun i => if i <? holestart b then f (db_blkno b * B + i) else 0) (offset mod B) wlen data i) ->
  forall o, 0 <= o -> file_byte f' (<[offset / B := b']> m) o = over (file_byte f m) offset wlen data o.
Proof.
  intros Hbk Hm Hb Hout Ho Hle Hin o Hoo. rewrite (file_byte_upd f f' m _ b b' Hbk Hm Hb Hout o Hoo).
  pose proof HB as HB0. pose proof (Z.div_mod o B ltac:(lia)). pose proof (Z.mod_pos_bound o B ltac:(lia)).
  pose proof (Z.div_mod offset B ltac:(lia)). pose proof (Z.mod_pos_bound offset B ltac:(lia)).
  destruct (Z.eqb_spec (o / B) (offset / B)) as [E|E].
  - rewrite Hin by lia. unfold over. rewrite E in *.
    replace (offset <=? o) with (offset mod B <=? o mod B) by (destruct (Z.leb_spec offset o), (Z.leb_spec (offset mod B) (o mod B)); lia).
    replace (o <? offset + wlen) with (o mod B <? offset mod B + wlen)
      by (destruct (Z.ltb_spec o (offset + wlen)), (Z.ltb_spec (o mod B) (offset mod B + wlen)); lia).
    destruct (_ && _); [do 2 f_equal; lia|]. unfold file_byte. by rewrite E, Hm.
  - unfold over. destruct (Z.leb_spec offset o), (Z.ltb_spec o (offset + wlen)); simpl; try done.
    exfalso. apply E. nia.
Qed.

Lemma leb_add a x y : (a + x <=? a + y) = negb (y <? x).
Proof. rewrite Z.leb_antisym. f_equal. destruct (Z.ltb_spec (a + y) (a + x)), (Z.ltb_spec y x); lia. Qed.
Lemma ltb_add a x y : (a + x <? a + y) = (x <? y).
Proof. destruct (Z.ltb_spec (a + x) (a + y)), (Z.ltb_spec x y); lia. Qed.

(** A range of a block after a write to it. *)
Definition in_range (lo hi i : Z) : bool := negb (i <? lo) && (i <? hi).
Lemma wrote_block f f' c lo l : wrote f f' (c + lo) l True -> 0 <= lo -> lo + Z.of_nat (length l) <= B ->
  (forall x, ~ (c <= x < c + B) -> f' x = f x) /\
  (forall i, f' (c + i) = if in_range lo (lo + Z.of_nat (length l)) i then nth (Z.to_nat (i - lo)) l 0 else f (c + i)).
Proof.
  intros Hw Hlo Hhi. split.
  - intros x Hx. apply (Hw x). lia.
  - intros i. rewrite (wrote_eq _ _ _ _ _ Hw), leb_add, <- Z.add_assoc, ltb_add. unfold in_range. by replace (c + i - (c + lo)) with (i - lo) by lia.
Qed.

(** A range of a block is filled with zeros, if it is not empty. *)
Lemma zero_fill_ok m k b lo hi d ph i tx logs (Q : Z -> fstate P -> Prop) :
  blks_ok m -> m !! k = Some b -> dev_fine d -> 0 <= lo -> hi <= B ->
  (forall z d', 0 <= z -> dev_fine d' -> (forall x, ~ (db_blkno b * B <= x < db_blkno b * B + B) -> d_bytes d' x = d_bytes d x) ->
     (forall i, d_bytes d' (db_blkno b * B + i) = if in_range lo hi i then 0 else d_bytes d (db_blkno b * B + i)) ->
     Q z (MkFs d' ph i tx logs)) ->
  wp (if lo <? hi then blkio_write mnt None (db_blkno b) lo (hi - lo) else mret 0) (MkFs d ph i tx logs) Q.
Proof.
  intros Hbk Hm Hd Hlo Hhi HQ. destruct (Z.ltb_spec lo hi) as [Hlt|Hge].
  - eapply blkio_write_ok; [exact Hbk|exact Hm|exact Hd|lia|lia|lia|done|]. intros d' Hw Hd'.
    destruct (wrote_block _ _ _ _ _ Hw) as [Hout Hin]; [done|rewrite length_replicate; lia|].
    apply HQ; [lia|done|done|]. intros j. rewrite Hin, length_replicate, nth_zeros.
    by replace (lo + Z.of_nat (Z.to_nat (hi - lo))) with hi by lia.
  - fstep. apply HQ; [done|done|done|]. intros j. unfold in_range.
    destruct (Z.ltb_spec j lo), (Z.ltb_spec j hi); simpl; try done. lia.
Qed.

Lemma write_block_ok d ph m sz1 sz2 btime ct wm rv tb tx logs gs inc b fsize offset wlen data (Q : Z -> fstate P -> Prop) :
  let blkid := offset / B in let blkoff := offset mod B in
  tables_ok tb m -> blks_ok m -> blkid_ok blkid -> m !! blkid = Some b -> dev_fine d -> wm_ok mnt wm gs inc ->
  0 <= offset -> 0 < wlen -> blkoff + wlen <= B -> wlen <= Z.of_nat (length data) -> inc <= Z.max 0 (offset - fsize) ->
  (forall d' tb' wm' gs', let m' := apply_gs gs' m in
     (gs' = [] \/ gs' = [(blkid, MkDblk (db_blkno b) B 0)]) -> tables_ok tb' m' -> dev_fine d' ->
     wm_ok mnt wm' (gs ++ gs') (if offset + wlen >? fsize then offset + wlen - fsize else inc) ->
     (forall o, 0 <= o -> file_byte (d_bytes d') m' o = over (file_byte (d_bytes d) m) offset wlen data o) ->
     (forall x, ~ (db_blkno b * B <= x < db_blkno b * B + B) -> d_bytes d' x = d_bytes d x) ->
     Q wlen (MkFs d' ph (core ino sz1 sz2 ct btime false 0 0 wm' rv tb') tx logs)) ->
  wp (write_block mnt fsize offset blkid blkoff (db_blkno b) (holestart b) wlen data)
    (MkFs d ph (core ino sz1 sz2 ct btime false 0 0 wm rv tb) tx logs) Q.
Proof.
  intros blkid blkoff Htb Hbk Hkb Hm Hd Hwm Ho Hw Hle Hdl Hinc HQ. pose proof HB as HB0.
  pose proof (Z.mod_pos_bound offset B ltac:(lia)) as Hmb. fold blkoff in Hmb.
  pose proof B_int_max as HIM. destruct (bk_pos _ Hbk _ _ Hm) as (Hpos & _ & Hh).
  (** The size is noted in both branches. *)
  assert (Hsize : forall d' wm' tb' gs' (Q' : unit -> fstate P -> Prop), wm_ok mnt wm' gs' inc ->
    (forall wm2, wm_ok mnt wm2 gs' (if offset + wlen >? fsize then offset + wlen - fsize else inc) ->
       Q' tt (MkFs d' ph (core ino sz1 sz2 ct btime false 0 0 wm2 rv tb') tx logs)) ->
    wp (if offset + wlen >? fsize then pfs_inode_writemodify_increment_size mnt (offset + wlen - fsize) else mret tt)
      (MkFs d' ph (core ino sz1 sz2 ct btime false 0 0 wm' rv tb') tx logs) Q').
  { intros d' wm' tb' gs' Q' Hwm' HQ'. destruct (Z.gtb_spec (offset + wlen) fsize); [|fstep; by apply HQ'].
    eapply wm_increment_ok; [exact Hwm'|lia|lia|]. done. }
  unfold write_block. fold geo B. fstep.
  apply (wp_mono _ _ (fun fill s' => fill = ((holestart b <? B) && (blkoff + wlen >? holestart b)) /\
    s' = MkFs d ph (core ino sz1 sz2 ct btime false 0 0 wm rv tb) tx logs)).
  { destruct ((holestart b <? B) && _); [|by fstep]. unfold has_blkhole. fstep; [exact Hfeat|done]. }
  intros fill s' [-> ->]. destruct ((holestart b <? B) && (blkoff + wlen >? holestart b)) eqn:Efill.
  - apply andb_true_iff in Efill as [E1%Z.ltb_lt E2]. rewrite Z.gtb_ltb in E2. apply Z.ltb_lt in E2.
    assert (0 <= holestart b) by (destruct (holestart_cases b Hh) as [[? _]|[? _]]; lia).
    fstep. eapply (wm_shrink_ok mnt ino Hfeat); [exact Htb|exact Hm|done|exact Hwm|]. intros tb1 wm1 g Htb1 Hwm1.
    fstep. eapply zero_fill_ok; [exact Hbk|exact Hm|exact Hd|lia|lia|]. intros z1 d1 Hz1 Hd1 Ho1 Hf1.
    rewrite (proj2 (Z.ltb_ge z1 0)) by lia. fstep.
    eapply blkio_write_ok; [exact Hbk|exact Hm|exact Hd1|lia|lia|lia|done|]. intros d2 Hw2 Hd2.
    destruct (wrote_block _ _ _ _ _ Hw2) as [Ho2 Hf2]; [lia|rewrite length_take; lia|].
    rewrite length_take, Nat.min_l, Z2Nat.id in Hf2 by lia.
    rewrite (proj2 (Z.ltb_ge wlen 0)) by lia. replace (B - blkoff - wlen) with (B - (blkoff + wlen)) by lia. fstep.
    eapply zero_fill_ok; [exact Hbk|exact Hm|exact Hd2|lia|lia|]. intros z3 d3 Hz3 Hd3 Ho3 Hf3.
    rewrite (proj2 (Z.ltb_ge z3 0)) by lia. fstep. eapply Hsize; [exact Hwm1|]. intros wm2 Hwm2. fstep.
    assert (Hout : forall x, ~ (db_blkno b * B <= x < db_blkno b * B + B) -> d_bytes d3 x = d_bytes d x).
    { intros x Hx. by rewrite Ho3, Ho2, Ho1. }
    apply (HQ d3 tb1 wm2 [g]); [by right|done|done|done| |done].
    eapply content_step; [exact Hbk|exact Hm|done|done|done|done|]. intros i Hi. change (holestart (snd g)) with INT_MAX.
    rewrite (proj2 (Z.ltb_lt i INT_MAX)) by lia. rewrite Hf3, Hf2, Hf1. unfold over, in_range. fold blkoff. rewrite Z.leb_antisym.
    destruct (Z.ltb_spec i blkoff), (Z.ltb_spec i (blkoff + wlen)), (Z.ltb_spec i (holestart b)), (Z.ltb_spec i B); simpl; try lia; try done;
      by rewrite nth_take by lia.
  - fstep. eapply Hsize; [exact Hwm|]. intros wm2 Hwm2.
    eapply blkio_write_ok; [exact Hbk|exact Hm|exact Hd|lia|lia|lia|done|]. intros d2 Hw2 Hd2.
    destruct (wrote_block _ _ _ _ _ Hw2) as [Ho2 Hf2]; [lia|rewrite length_take; lia|].
    rewrite length_take, Nat.min_l, Z2Nat.id in Hf2 by lia.
    assert (Hhs : blkoff + wlen <= holestart b).
    { destruct (Z.ltb_spec (holestart b) B), (Z.gtb_spec (blkoff + wlen) (holestart b)); simpl in Efill; try done; lia. }
    apply (HQ d2 tb wm2 []); [by left|done|done|by rewrite app_nil_r| |done].
    intros o Hoo. change (apply_gs [] m) with m. rewrite <- (insert_id m blkid b Hm) at 1. revert o Hoo.
    eapply content_step; [exact Hbk|exact Hm|done|done|done|done|].
    intros i Hi. rewrite Hf2. unfold over, in_range. fold blkoff. rewrite Z.leb_antisym.
    destruct (Z.ltb_spec i blkoff), (Z.ltb_spec i (blkoff + wlen)), (Z.ltb_spec i (holestart b)); simpl; try lia; try done;
      by rewrite nth_take by lia.
Qed.

(** A place of the device that is in no block of the file. *)
Definition foreign (m : gmap Z pfs_dblk) (x : Z) : Prop :=
  forall k b, m !! k = Some b -> ~ (db_blkno b * B <= x < db_blkno b * B + B).
Lemma foreign_upd m k b b' x : m !! k = Some b -> db_blkno b' = db_blkno b -> foreign m x -> foreign (<[k := b']> m) x.
Proof. intros Hm Hb Hf k' c [[<- <-]|[_ Hc]]%lookup_insert_Some; [rewrite Hb; by eapply Hf|by eapply Hf]. Qed.

(** The blocks of a range are there. *)
Definition mapped (m : gmap Z pfs_dblk) (offset n : Z) : Prop := forall o, offset <= o < offset + n -> is_Some (m !! (o / B)).
Lemma mapped_upd m k b offset n : mapped m offset n -> mapped (<[k := b]> m) offset n.
Proof. intros Hm o Ho. destruct (decide (k = o / B)) as [->|]; [by rewrite lookup_insert_eq|by rewrite lookup_insert_ne by done; apply Hm]. Qed.
Lemma mapped_sub m offset n offset' n' : mapped m offset n -> offset <= offset' -> offset' + n' <= offset + n -> mapped m offset' n'.
Proof. intros Hm ? ? o Ho. apply Hm. lia. Qed.

Lemma over_over g o n n' l x : 0 <= n -> 0 <= n' -> (Z.to_nat n <= length l)%nat ->
  over (over g o n l) (o + n) n' (drop (Z.to_nat n) l) x = over g o (n + n') l x.
Proof.
  intros Hn Hn' Hl. unfold over.
  destruct (Z.leb_spec (o + n) x), (Z.ltb_spec x (o + n + n')), (Z.leb_spec o x), (Z.ltb_spec x (o + n)), (Z.ltb_spec x (o + (n + n')));
    simpl; try done; try lia.
  rewrite nth_drop. f_equal. lia.
Qed.
Lemma over_ext g g' o n l x : g x = g' x -> over g o n l x = over g' o n l x.
Proof. intros E. unfold over. by destruct (_ && _). Qed.

Lemma file_write_loop_ok ph m0 sz btime ct rv tx logs len fuel : forall d tb wm gs inc wsum offset data (Q : Z * Z -> fstate P -> Prop),
  let m := apply_gs gs m0 in
  tables_ok tb m -> blks_ok m -> gs_ok mnt m0 gs -> wm_ok mnt wm gs inc -> dev_fine d -> 0 <= offset -> wsum <= len -> len - wsum <= Z.of_nat fuel ->
  offset + (len - wsum) <= 2 ^ 35 * B -> mapped m offset (len - wsum) -> len - wsum <= Z.of_nat (length data) ->
  inc <= Z.max 0 (offset - sz) -> 0 <= inc ->
  (forall d' tb' wm' gs', let m' := apply_gs gs' m0 in
     tables_ok tb' m' -> blks_ok m' -> gs_ok mnt m0 gs' -> dev_fine d' ->
     wm_ok mnt wm' gs' (if wsum <? len then Z.max 0 (offset + (len - wsum) - sz) else inc) ->
     (forall o, 0 <= o -> file_byte (d_bytes d') m' o = over (file_byte (d_bytes d) m) offset (len - wsum) data o) ->
     (forall x, foreign m x -> foreign m' x /\ d_bytes d' x = d_bytes d x) ->
     Q (len, offset + (len - wsum)) (MkFs d' ph (core ino sz sz ct btime false 0 0 wm' rv tb') tx logs)) ->
  wp (write_loop mnt fuel true btime len sz wsum offset data) (MkFs d ph (core ino sz sz ct btime false 0 0 wm rv tb) tx logs) Q.
Proof.
  induction fuel as [|fuel IH]; intros d tb wm gs inc wsum offset data Q m Htb Hbk Hgs Hwm Hd Ho Hr Hf Hlim Hmap Hdl Hinc Hinc0 HQ.
  all: simpl write_loop; destruct (Z.ltb_spec wsum len) as [Hlt|Hge]; cbn [negb]; cbv iota.
  2, 4: fstep; replace wsum with len in * by lia; rewrite Z.sub_diag, Z.add_0_r in HQ; apply (HQ d tb wm gs); try done;
    intros o _; unfold over; destruct (Z.leb_spec offset o), (Z.ltb_spec o (offset + 0)); simpl; try done; lia.
  { lia. }
  pose proof HB as HB0. pose proof (Z.mod_pos_bound offset B ltac:(lia)) as Hmb. pose proof (Z.div_pos offset B ltac:(lia) ltac:(lia)) as Hdp.
  assert (Hkb : blkid_ok (offset / B)) by (split; [done|]; apply Z.div_lt_upper_bound; nia).
  fstep. apply fblkid_ok; [done|]. fstep. apply fblkoff_ok; [done|]. fstep. eapply map_blk_ok; [exact Htb|done|].
  destruct (Hmap offset) as [b Hm]; [lia|]. rewrite Hm. cbv beta iota zeta. destruct (bk_pos _ Hbk _ _ Hm) as (Hpos & _ & Hh).
  rewrite (proj2 (Z.eqb_neq (db_blkno b) 0)) by lia. cbn [orb]. do 2 fstep. fstep. fstep; [done|]. fstep. fold geo B.
  set (wlen := Z.min (B - offset mod B) (len - wsum)).
  eapply write_block_ok; [exact Htb|exact Hbk|exact Hkb|exact Hm|exact Hd|exact Hwm|done|unfold wlen; lia..|].
  intros d1 tb1 wm1 gs1 m1 Hg1 Htb1 Hd1 Hwm1 Hc1 Hf1.
  assert (Hm1 : blks_ok m1 /\ gs_ok mnt m0 (gs ++ gs1) /\ m1 = apply_gs (gs ++ gs1) m0 /\ mapped m1 offset (len - wsum) /\
    (forall x, foreign m x -> foreign m1 x)).
  { unfold m1. destruct Hg1 as [-> | ->]; [rewrite app_nil_r; done|]. rewrite apply_gs_app. split_and!.
    - eapply blks_upd; [exact Hbk|exact Hm|done|by left].
    - apply Forall_app. split; [done|]. constructor; [|constructor]. simpl. split; [|done].
      destruct (gs_dom mnt m0 gs _ _ Hgs Hm) as (b0 & Hb0 & E). by exists b0.
    - done.
    - by apply mapped_upd.
    - intros x. by eapply foreign_upd. }
  destruct Hm1 as (Hbk1 & Hgs1 & Em1 & Hmap1 & Hfo1).
  rewrite (proj2 (Z.ltb_ge wlen 0)) by (unfold wlen; lia). fstep. eapply sync_busy_ok; [exact Hwm1|]. cbn [negb Z.eqb]. cbv iota.
  eapply (IH d1 tb1 wm1 (gs ++ gs1)); try (by rewrite <- Em1); try done; try (unfold wlen; lia).
  - rewrite <- Em1. eapply mapped_sub; [exact Hmap1|unfold wlen; lia..].
  - rewrite length_drop. unfold wlen. lia.
  - destruct (Z.gtb_spec (offset + wlen) sz); unfold wlen in *; lia.
  - destruct (Z.gtb_spec (offset + wlen) sz); unfold wlen in *; lia.
  - rewrite <- Em1. intros d' tb' wm' gs' m' Htb' Hbk' Hgs' Hd' Hwm' Hc' Hf'.
    replace (offset + wlen + (len - (wsum + wlen))) with (offset + (len - wsum)) in * by lia.
    apply (HQ d' tb' wm' gs'); try done.
    + revert Hwm'. destruct (Z.ltb_spec (wsum + wlen) len) as [_|Hl]; [done|].
      replace (if offset + wlen >? sz then offset + wlen - sz else inc) with (Z.max 0 (offset + (len - wsum) - sz)); [done|].
      destruct (Z.gtb_spec (offset + wlen) sz); unfold wlen in *; lia.
    + intros o Hoo. etransitivity; [by apply Hc'|]. rewrite (over_ext _ (over (file_byte (d_bytes d) m) offset wlen data)) by by apply Hc1.
      rewrite over_over by (unfold wlen; lia). f_equal. lia.
    + intros x Hx. destruct (Hf' x (Hfo1 x Hx)) as [Hx' ->]. split; [done|]. apply Hf1. by apply (Hx (offset / B)).
Qed.
End FileSafe.
