(* ===== verification/FileSpec.v ===== *)
(** * Files refine byte sequences

    The calls on an open file against their specification: a file is a list
    of bytes; reads take from it, writes overlay it, truncation cuts it or
    extends it with zeros. *)

From S2P Require Import Prelude Blkio Blktable Object Inode InodeInv File FileSafe.

Open Scope pfs_scope.

(** ** The specification *)
Definition zeros (n : Z) : list Z := replicate (Z.to_nat n) 0.
Definition size (c : list Z) : Z := Z.of_nat (length c).
Definition pread_spec (c : list Z) (off len : Z) : list Z := take (Z.to_nat len) (drop (Z.to_nat off) c).
Definition pwrite_spec (c : list Z) (off : Z) (buf : list Z) : list Z :=
  take (Z.to_nat off) c ++ zeros (off - size c) ++ buf ++ drop (Z.to_nat (off + size buf)) c.
Definition extend (c : list Z) (n : Z) : list Z := c ++ zeros (n - size c).
Definition truncate_spec (c : list Z) (n : Z) : list Z := take (Z.to_nat n) (extend c n).

Lemma size_pos c : 0 <= size c.
Proof. unfold size. lia. Qed.
Lemma nth_extend c n o : nth o (extend c n) 0 = nth o c 0.
Proof.
  unfold extend, zeros. destruct (decide (o < length c)%nat); [by rewrite app_nth1 by lia|].
  rewrite app_nth2, nth_zeros by lia. by rewrite nth_overflow by lia.
Qed.
Lemma size_extend c n : size (extend c n) = Z.max (size c) n.
Proof. unfold extend, zeros, size. rewrite length_app, length_replicate. lia. Qed.
Lemma nth_truncate c n o : 0 <= n -> nth o (truncate_spec c n) 0 = if (o <? Z.to_nat n)%nat then nth o c 0 else 0.
Proof.
  intros Hn. unfold truncate_spec. destruct (Nat.ltb_spec o (Z.to_nat n)).
  - rewrite nth_take by lia. apply nth_extend.
  - apply nth_overflow. rewrite length_take. lia.
Qed.
Lemma size_truncate c n : 0 <= n -> size (truncate_spec c n) = n.
Proof. intros Hn. unfold truncate_spec, size. rewrite length_take. pose proof (size_extend c n) as E. unfold size in E. lia. Qed.

Lemma size_pwrite c off buf : 0 <= off -> size (pwrite_spec c off buf) = Z.max (size c) (off + size buf).
Proof.
  intros Ho. unfold pwrite_spec, zeros, size. rewrite !length_app, length_take, length_replicate, length_drop. lia.
Qed.
Lemma nth_pwrite c off buf o : 0 <= off -> 0 <= o ->
  nth (Z.to_nat o) (pwrite_spec c off buf) 0 = over (fun o => nth (Z.to_nat o) c 0) off (size buf) buf o.
Proof.
  intros Ho Hoo. unfold pwrite_spec, over, zeros, size.
  destruct (Z.leb_spec off o), (Z.ltb_spec o (off + Z.of_nat (length buf))); simpl.
  - rewrite !app_nth2 by (rewrite ?length_take, ?length_replicate; lia). rewrite app_nth1 by (rewrite ?length_take, ?length_replicate; lia).
    f_equal. rewrite length_take, length_replicate. lia.
  - destruct (decide (o < size c)) as [Hc|Hc]; unfold size in Hc.
    + rewrite !app_nth2 by (rewrite ?length_take, ?length_replicate; lia). rewrite nth_drop, length_take, length_replicate. f_equal. lia.
    + rewrite (nth_overflow c) by lia. apply nth_overflow. rewrite !length_app, length_take, length_replicate, length_drop. lia.
  - destruct (decide (o < size c)) as [Hc|Hc]; unfold size in Hc.
    + rewrite app_nth1 by (rewrite length_take; lia). by rewrite nth_take by lia.
    + rewrite (nth_overflow c), app_nth2, app_nth1, nth_zeros by (rewrite ?length_take, ?length_replicate; lia). done.
  - lia.
Qed.

Lemma truncate_truncate c n n' : 0 <= n <= n' -> truncate_spec (truncate_spec c n') n = truncate_spec c n.
Proof.
  intros Hn. pose proof (size_truncate (truncate_spec c n') n ltac:(lia)) as E1. pose proof (size_truncate c n ltac:(lia)) as E2.
  unfold size in E1, E2. apply (nth_ext _ _ 0 0); [lia|]. intros i Hi. rewrite !nth_truncate by lia.
  destruct (Nat.ltb_spec i (Z.to_nat n)); [|done]. by rewrite (proj2 (Nat.ltb_lt i (Z.to_nat n'))) by lia.
Qed.
Lemma pread_written c off buf : 0 <= off ->
  pread_spec (truncate_spec (pwrite_spec c off buf) (off + size buf)) off (size buf) = buf.
Proof.
  intros Ho. pose proof (size_pos buf) as Hb. pose proof (size_truncate (pwrite_spec c off buf) (off + size buf) ltac:(lia)) as Es.
  unfold pread_spec. unfold size in *. apply (nth_ext _ _ 0 0); [rewrite length_take, length_drop; lia|].
  rewrite length_take, length_drop. intros j Hj. rewrite nth_take, nth_drop by lia.
  replace (Z.to_nat off + j)%nat with (Z.to_nat (off + Z.of_nat j)) by lia. rewrite nth_truncate, nth_pwrite by lia.
  rewrite (proj2 (Nat.ltb_lt _ _)) by lia. unfold over, size. rewrite (proj2 (Z.leb_le _ _)), (proj2 (Z.ltb_lt _ _)) by lia. simpl. f_equal. lia.
Qed.

(** ** The state of a file between two calls *)
Section FileSpec.
Context (mnt : pfs_mount) {P : Type} `{PoolLaws mnt P} (ino btime : Z).
Let geo := mnt_geo mnt.
Let B := mnt_blksize geo.
Hypothesis Hfeat : pfs_version_has_features mnt PFS_FEATURE_BLKHOLE = Some true.
Hypothesis Hgeo : geo_ok geo.
Hypothesis Hpow : exists k, 0 <= k /\ B = 2 ^ k.
Hypothesis Hmax : B <= PFS_BLOCK_SIZE.
Hypothesis Hrw : pfs_writable mnt = true.
Hypothesis Hself : mnt_self mnt <> 0.

Definition rep (f : Z -> Z) (m : gmap Z pfs_dblk) (c : list Z) : Prop :=
  forall o, 0 <= o -> file_byte mnt f m o = nth (Z.to_nat o) c 0.

(** The largest file: its blocks have numbers below 2^35. *)
Definition file_max : Z := 2 ^ 35 * B.

Record file_at (s : fstate P) (m : gmap Z pfs_dblk) (c : list Z) : Prop := {
  fa_phy : phy_ok mnt ino (fs_phy s) m (size c) btime;
  fa_in : at_rest ino (fs_in s) m (size c) btime;
  fa_tx : fs_tx s = None;
  fa_dev : dev_fine (fs_dev s);
  fa_logs : logs_fine (fs_logs s);
  fa_rep : rep (d_bytes (fs_dev s)) m c;
  fa_max : size c <= file_max
}.

Lemma HB1 : 0 < B.
Proof. by destruct Hgeo as (_ & _ & ? & _). Qed.

(** Two states of the device that hold the same for other files. *)
Definition keeps_others (s s' : fstate P) (m' : gmap Z pfs_dblk) : Prop :=
  others (fs_phy s) (fs_phy s') /\ forall x, foreign mnt m' x -> d_bytes (fs_dev s') x = d_bytes (fs_dev s) x.

Lemma to_i64_small z : 0 <= z < 2 ^ 63 -> to_i64 z = z.
Proof. intros Hz. unfold to_i64. rewrite Z.mod_small by lia. lia. Qed.

Lemma rep_bytes f m c off n : rep f m c -> 0 <= off -> 0 <= n -> off + n <= size c ->
  bytes_at (file_byte mnt f m) off n = pread_spec c off n.
Proof.
  intros Hr Ho Hn Hle. unfold pread_spec. unfold size in *. apply (nth_ext _ _ 0 0).
  - rewrite bytes_at_length, length_take, length_drop. lia.
  - rewrite bytes_at_length. intros i Hi. rewrite bytes_at_nth, nth_take, nth_drop, Hr by lia. f_equal. lia.
Qed.

Lemma rest_core sz ct rv tb m : tables_ok tb m -> at_rest ino (core ino sz sz ct btime false 0 0 wm_zero rv tb) m sz btime.
Proof. intros Htb. exists sz, ct, false, rv, tb. split; [done|]. by intros _. Qed.

(** ** Reading *)
Lemma file_read_ok s m c len off (Q : Z * list Z -> fstate P -> Prop) :
  file_at s m c -> 0 <= off -> 0 <= len -> off + len < 2 ^ 63 ->
  (forall s', file_at s' m c -> keeps_others s s' m ->
     Q (size (pread_spec c off len), pread_spec c off len) s') ->
  wp (pfs_file_read mnt len off true btime) s Q.
Proof.
  destruct s as [d ph i tx logs]. intros [Hph Hin Htx Hd Hlg Hr Hmx] Ho Hl Hlt HQ. simpl in *. subst tx.
  unfold pfs_file_read. fstep. eapply (sync_first_ok mnt ino Hfeat HB1); [exact Hph|exact Hin|]. intros ct rv tb Htb.
  change (0 <? 0) with false. cbv iota. fstep. apply inode_size_ok. rewrite to_i64_small by lia.
  set (n := if off >=? size c then 0 else if off + len >=? size c then size c - off else len).
  pose proof (size_pos c).
  assert (Hn : 0 <= n <= len /\ pread_spec c off len = pread_spec c off n /\ size (pread_spec c off len) = n /\ (0 < n -> off + n <= size c)).
  { unfold n, pread_spec, size in *. destruct (Z.geb_spec off (Z.of_nat (length c))) as [Hge|Hlt'].
    - rewrite !take_ge by (rewrite length_drop; lia). rewrite length_drop. split_and!; try lia. done.
    - destruct (Z.geb_spec (off + len) (Z.of_nat (length c))).
      + rewrite !take_ge by (rewrite length_drop; lia). rewrite length_drop. split_and!; try lia. done.
      + rewrite length_take, length_drop. split_and!; try lia. done. }
  destruct Hn as (Hn & E1 & E2 & Hn2). rewrite E2, E1 in HQ.
  destruct (decide (n = 0)) as [->|Hne].
  { change (Z.to_nat 0) with 0%nat. simpl read_loop. fstep. unfold pread_spec in HQ. simpl in HQ. apply HQ; [|split; [apply others_refl|done]].
    split; try done. by apply rest_core. }
  eapply (file_read_loop_ok mnt ino Hfeat Hgeo Hpow Hmax); [exact Hph|exact Htb|exact Hd|lia|lia|lia|lia|exact Hmx|].
  intros d' Hb' Hd'. rewrite Z.sub_0_r, (rep_bytes _ _ c) by (done || lia).
  apply HQ; [|split; [apply others_refl|simpl; by rewrite Hb']].
  split; simpl; try done; [by apply rest_core|by rewrite Hb'].
Qed.

Lemma tls_read_ok {T} needsync (dflt : T) (body : fio P (T * Z)) s m c (Q : T * Z -> fstate P -> Prop) :
  file_at s m c -> (forall s', file_at s' m c -> keeps_others s s' m -> wp body s' Q) -> wp (tls_read needsync dflt body) s Q.
Proof.
  destruct s as [d ph i tx logs]. intros [Hph Hin Htx Hd Hlg Hr Hmx] HQ. simpl in *. unfold tls_read. fstep. destruct needsync.
  - destruct logs as [|l logs]; [|apply Forall_cons in Hlg as [-> Hlg]];
      (eexists _, _; split; [reflexivity|]; simpl; apply HQ; [by split|split; [apply others_refl|done]]).
  - fstep. simpl. apply HQ; [by split|split; [apply others_refl|done]].
Qed.

(** ** Allocating *)
(** [m'] has the blocks of [m] and some new ones that are holes. *)
Definition grown (m m' : gmap Z pfs_dblk) : Prop :=
  forall k, m' !! k = m !! k \/ (m !! k = None /\ exists b, m' !! k = Some b /\ holestart b = 0).
Lemma grown_refl m : grown m m.
Proof. intros k. by left. Qed.
Lemma grown_trans m m1 m2 : grown m m1 -> grown m1 m2 -> grown m m2.
Proof. intros G1 G2 k. destruct (G1 k) as [E1|(E1 & b & E2 & E3)], (G2 k) as [F1|(F1 & b' & F2 & F3)]; [left; congruence|right; split; [congruence|by exists b']|right; split; [done|exists b; split; [congruence|done]]|congruence]. Qed.
Lemma grown_byte f m m' o : grown m m' -> 0 <= o -> file_byte mnt f m' o = file_byte mnt f m o.
Proof.
  intros G Ho. unfold file_byte. fold geo B. destruct (G (o / B)) as [->|(-> & b & -> & Hh)]; [done|].
  pose proof HB1. pose proof (Z.mod_pos_bound o B ltac:(lia)). rewrite Hh. by rewrite (proj2 (Z.ltb_ge _ _)) by lia.
Qed.
Lemma grown_mapped m m' o n : grown m m' -> mapped mnt m o n -> mapped mnt m' o n.
Proof. intros G Hm x Hx. destruct (G (x / mnt_blksize (mnt_geo mnt))) as [->|(_ & b & -> & _)]; [by apply Hm|by eexists]. Qed.

Definition add_tx (k : nat) (tx : txn P) : txn P := match k with O => tx | _ => add_ops true (replicate k CbAdd) tx end.
Lemma add_tx_step k tx : add_tx k (add_ops true [CbAdd] tx) = add_tx (S k) tx.
Proof. destruct k; [done|]. unfold add_tx. by rewrite add_ops_assoc. Qed.

Lemma add_tx_add k j tx : add_tx k (add_tx j tx) = add_tx (j + k) tx.
Proof. revert tx. induction j as [|j IH]; intros tx; [done|]. simpl Nat.add. rewrite <- !add_tx_step. by rewrite IH. Qed.

Lemma allocate_loop_ok d sz ct rv logs mode len fuel : forall ph m ip tb tx asum offset fsize (Q : Z * Z -> fstate P -> Prop),
  flag_set mode FALLOC_FL_NO_HIDE_STALE = false ->
  phy_ok mnt ino ph m sz btime -> tables_ok tb m -> 0 <= offset -> asum <= len -> len - asum <= Z.of_nat fuel ->
  offset + (len - asum) <= file_max ->
  (forall k ph1 tb1 fs, Q (- ENOSPC, fs) (MkFs d ph1 (core ino sz sz ct btime false (ip + Z.of_nat k) 0 wm_zero rv tb1)
                      (Some (add_ops true (replicate k CbAdd) tx)) logs)) ->
  (forall k ph' tb' m', phy_ok mnt ino ph' m' sz btime -> tables_ok tb' m' -> grown m m' -> mapped mnt m' offset (len - asum) ->
     others ph ph' ->
     Q (0, if asum <? len then Z.max fsize (offset + (len - asum)) else fsize)
       (MkFs d ph' (core ino sz sz ct btime false (ip + Z.of_nat k) 0 wm_zero rv tb') (Some (add_tx k tx)) logs)) ->
  wp (allocate_loop mnt fuel mode len asum offset fsize)
    (MkFs d ph (core ino sz sz ct btime false ip 0 wm_zero rv tb) (Some tx) logs) Q.
Proof.
  induction fuel as [|fuel IH]; intros ph m ip tb tx asum offset fsize Q Hmode Hph Htb Ho Hr Hf Hlim Hfull HQ.
  all: simpl allocate_loop; destruct (Z.ltb_spec asum len) as [Hlt|Hge]; cbn [negb]; cbv iota.
  2, 4: fstep; replace asum with len in * by lia; rewrite Z.sub_diag in HQ;
    specialize (HQ 0%nat ph tb m Hph Htb (grown_refl m)); rewrite Z.add_0_r in HQ; apply HQ; [intros o Ho'; lia|apply others_refl].
  { lia. }
  pose proof HB1 as HB0. pose proof (Z.mod_pos_bound offset B ltac:(lia)) as Hmb. pose proof (Z.div_pos offset B ltac:(lia) ltac:(lia)) as Hdp.
  assert (Hkb : blkid_ok (offset / B)) by (split; [done|]; apply Z.div_lt_upper_bound; unfold file_max in *; nia).
  fstep. apply (fblkid_ok mnt Hpow Hmax); [done|]. fold geo B. fstep. eapply map_blk_ok; [exact Htb|done|].
  set (alen := Z.min (B - offset mod B) (len - asum)).
  (** The rest of the loop, with the block of [offset] there. *)
  assert (Htail : forall j ph1 m1 tb1, phy_ok mnt ino ph1 m1 sz btime -> tables_ok tb1 m1 -> grown m m1 -> is_Some (m1 !! (offset / B)) ->
    others ph ph1 ->
    wp (blkoff ← fblkoff mnt offset;
        allocate_loop mnt fuel mode len (asum + Z.min (B - blkoff) (len - asum)) (offset + Z.min (B - blkoff) (len - asum))
          (if offset + Z.min (B - blkoff) (len - asum) >? fsize then offset + Z.min (B - blkoff) (len - asum) else fsize))
       (MkFs d ph1 (core ino sz sz ct btime false (ip + Z.of_nat j) 0 wm_zero rv tb1) (Some (add_tx j tx)) logs) Q).
  { intros j ph1 m1 tb1 Hph1 Htb1 Hg1 Hm1 Ho1. fstep. apply (fblkoff_ok mnt Hpow Hmax); [done|]. fold geo B. fold alen.
    eapply (IH ph1 m1); try done; try (unfold alen; lia).
    - intros k ph2 tb2 fs. specialize (Hfull (j + k)%nat ph2 tb2 fs). revert Hfull. rewrite Nat2Z.inj_add, Z.add_assoc, replicate_add.
      destruct j; [done|]. unfold add_tx. by rewrite add_ops_assoc.
    - intros k ph' tb' m' Hph' Htb' Hg' Hmp' Ho'. specialize (HQ (j + k)%nat ph' tb' m' Hph' Htb').
      rewrite Nat2Z.inj_add, Z.add_assoc in HQ.
      replace (if asum + alen <? len then Z.max (if offset + alen >? fsize then offset + alen else fsize) (offset + alen + (len - (asum + alen)))
        else if offset + alen >? fsize then offset + alen else fsize) with (Z.max fsize (offset + (len - asum))).
      2: { destruct (Z.gtb_spec (offset + alen) fsize), (Z.ltb_spec (asum + alen) len); unfold alen in *; lia. }
      rewrite add_tx_add.
      apply HQ; [by eapply grown_trans| |by eapply others_trans].
      intros o Hoo. destruct (decide (o < offset + alen)) as [Hin|Hin]; [|apply Hmp'; unfold alen in *; lia].
      fold geo B. assert (o / B = offset / B) as ->.
      { destruct (block_of mnt Hgeo offset (o - offset)) as [E _]; [lia|fold geo B; unfold alen in *; lia|].
        fold geo B in E. by replace (offset + (o - offset)) with o in E by lia. }
      destruct (Hg' (offset / B)) as [->|(_ & b & -> & _)]; [done|by eexists]. }
  destruct (m !! (offset / B)) as [b|] eqn:Em; cbv beta iota zeta.
  - destruct (tk_dom _ _ Htb _ _ Em) as [_ Hpos]. rewrite (proj2 (Z.eqb_neq (db_blkno b) 0)) by lia. do 2 fstep.
    change (0 <? 0) with false. cbv iota. specialize (Htail 0%nat ph m tb). rewrite Z.add_0_r in Htail.
    apply Htail; [done|done|apply grown_refl|by eexists|apply others_refl].
  - change (0 =? 0) with true. cbv iota. do 2 fstep. eapply (inode_add_ok mnt ino Hfeat HB1); [exact Hph|exact Htb|exact Em|exact Hkb| |].
    + change (- ENOSPC <? 0) with true. cbv iota. fstep. change (- ENOSPC <? 0) with true. cbv iota. fstep. specialize (Hfull 0%nat ph tb fsize). by rewrite Z.add_0_r in Hfull.
    + intros n ph1 tb1 m1 Hph1 Htb1 Ho1 _. change (0 <? 0) with false. cbv iota. rewrite Hmode. do 2 fstep. do 2 fstep. fstep.
      change (0 <? 0) with false. cbv iota. apply (Htail 1%nat ph1 m1 tb1); [done|done| | |done].
      * intros k. unfold m1. destruct (decide (k = offset / B)) as [->|]; [|left; by rewrite lookup_insert_ne].
        right. split; [done|]. eexists. rewrite lookup_insert_eq. split; [done|]. unfold holestart. simpl. by rewrite (proj2 (Z.gtb_gt _ _)) by (fold geo B; lia).
      * unfold m1. rewrite lookup_insert_eq. by eexists.
Qed.

Lemma grown_rep f m m' c : grown m m' -> rep f m c -> rep f m' c.
Proof. intros G Hr o Ho. rewrite (grown_byte f m m' o G Ho). by apply Hr. Qed.
Lemma extend_rep f m c n : rep f m c -> rep f m (extend c n).
Proof. intros Hr o Ho. rewrite nth_extend. by apply Hr. Qed.

(** A write transaction. *)
Lemma tls_write_ok {T} tf (dflt : T) (body : fio P (T * Z)) s (Q : T * Z -> fstate P -> Prop) :
  wp body (MkFs (fs_dev s) (fs_phy s) (fs_in s) (Some (MkTxn false false [] (fs_phy s) tf)) (fs_logs s))
    (fun r s' => wp (pfs_tx_end (snd r)) s' (fun err s2 => Q (fst r, err) s2)) ->
  wp (tls_write mnt tf dflt body) s Q.
Proof.
  intros Hb. unfold tls_write. rewrite Hrw. cbn [negb]. cbv iota. unfold pfs_tx_begin. do 4 fstep. fstep.
  eapply wp_mono; [exact Hb|]. intros [x err] s' Hw. cbv beta iota. cbn [fst snd] in Hw. fstep.
  eapply wp_mono; [exact Hw|]. intros err' s2 HQ. by fstep.
Qed.

Lemma add_tx_cbs k tx : t_cbs tx = [] -> t_cbs (add_tx k tx) = replicate k CbAdd.
Proof. intros E. destruct k; simpl; by rewrite E. Qed.

Lemma xfallocate_ok s m c file offset len mode o (Q : Z -> fstate P -> Prop) :
  file_at s m c -> flag_set mode FALLOC_FL_NO_HIDE_STALE = false -> f_btime file = btime -> 0 < len ->
  (let off2 := (if flag_set mode FALLOC_PFSFL_FIXED_OFFSET then offset
               else if f_append file then OFFSET_FILE_SIZE
               else if offset =? OFFSET_FILE_POS then f_offset file else offset) in
   off2 = OFFSET_FILE_SIZE /\ o = size c \/ off2 = o /\ 0 <= o) -> o + len <= file_max ->
  (forall s', file_at s' m c -> keeps_others s s' m -> Q (- ENOSPC) s') ->
  (forall s' m', file_at s' m' (if flag_set mode FALLOC_FL_KEEP_SIZE then c else extend c (o + len)) ->
     grown m m' -> mapped mnt m' o len -> keeps_others s s' m' -> Q 0 s') ->
  wp (pfs_file_xfallocate mnt file offset len mode) s Q.
Proof.
  destruct s as [d ph i tx logs]. intros [Hph Hin Htx Hd Hlg Hr Hmx] Hmode Hbt Hlen Hoff Hlim Hfull HQ. simpl in *. subst tx.
  unfold pfs_file_xfallocate. set (off2 := if flag_set mode FALLOC_PFSFL_FIXED_OFFSET then _ else _) in *. cbv zeta.
  assert (Ho : 0 <= o /\ (if off2 =? OFFSET_FILE_SIZE then size c else off2) = o).
  { destruct Hoff as [[-> ->]|[-> Ho]]; [split; [apply size_pos|done]|]. split; [done|].
    unfold OFFSET_FILE_SIZE. by rewrite (proj2 (Z.eqb_neq o (-2))) by lia. }
  destruct Ho as [Ho Eo]. fstep. fstep.
  { destruct Hoff as [[-> _]|[-> _]]; [done|]. by rewrite geb_true by lia. }
  fstep. apply tls_write_ok. cbn [fs_dev fs_phy fs_in fs_logs]. fstep. rewrite Hbt. unfold pfs_file_allocate. fstep.
  eapply (sync_first_ok mnt ino Hfeat HB1); [exact Hph|exact Hin|]. intros ct rv tb Htb. change (0 <? 0) with false. cbv iota.
  fstep. apply inode_size_ok. cbv zeta. rewrite Eo. fstep.
  set (tx0 := MkTxn false false [] ph false).
  eapply (allocate_loop_ok d (size c) ct rv logs mode len (Z.to_nat len) ph m 0 tb tx0); try done; try lia.
  - intros k ph1 tb1 fs. cbv beta iota. change (- ENOSPC <? 0) with true. cbv iota. do 2 fstep. unfold errof. change (- ENOSPC <? 0) with true. cbn [fst snd].
    eapply (tx_end_fail mnt ino); try done; [| |].
    + simpl. unfold cbs_ok. rewrite !cb_count_rep. simpl. lia.
    + simpl. by rewrite cb_count_rep.
    + fstep. apply Hfull; [|split; [apply others_refl|done]]. split; try done. simpl. exists (size c), ct, true, rv, tb1. split; [done|by intros].
  - intros k ph' tb' m' Hph' Htb' Hg Hmp Hoth. cbv beta iota. change (0 <? 0) with false. cbv iota. rewrite Z.sub_0_r in *.
    rewrite (proj2 (Z.ltb_lt 0 len)) by done. set (fsize := Z.max (size c) (o + len)). pose proof (size_pos c) as Hsz.
    assert (Hgrow : forall ph2 sz2 ct2 cbs c', phy_ok mnt ino ph2 m' sz2 btime -> others ph' ph2 ->
      cbs = [] /\ sz2 = size c \/ cbs = [CbSize] -> sz2 = size c' -> rep (d_bytes d) m' c' -> size c' <= file_max ->
      c' = (if flag_set mode FALLOC_FL_KEEP_SIZE then c else extend c (o + len)) -> forall tx1, t_cbs tx1 = replicate k CbAdd ++ cbs ->
      wp (pfs_tx_end 0) (MkFs d ph2 (core ino (size c) sz2 ct2 btime false (0 + Z.of_nat k) 0 wm_zero rv tb') (Some tx1) logs)
        (fun err s2 => wp (mret (snd (tt, err))) s2 Q)).
    { intros ph2 sz2 ct2 cbs c' Hph2 Ho2 Hcb Esz Hrep' Hmx' Ec tx1 Htx1.
      eapply (tx_end_ok mnt ino); [| |exact Hlg|].
      - rewrite Htx1. unfold cbs_ok. rewrite !cb_count_app, !cb_count_rep. simpl. destruct Hcb as [[-> _]| ->]; simpl; lia.
      - rewrite Htx1, cb_count_app, cb_count_rep. simpl. destruct Hcb as [[-> ->]| ->]; [done|]. simpl. lia.
      - intros logs' Hlg'. fstep. rewrite Ec in *. apply (HQ _ m'); [|done|done|].
        + split; simpl; try done; [by rewrite <- Esz|]. rewrite <- Esz. by apply rest_core.
        + split; [by eapply others_trans|done]. }
    destruct (flag_set mode FALLOC_FL_KEEP_SIZE) eqn:Ekeep; cbn [negb andb].
    { cbv iota. do 2 fstep. unfold errof. rewrite (proj2 (Z.ltb_ge fsize 0)) by lia. cbn [fst snd].
      eapply (Hgrow ph' (size c) ct [] c); try done; [by left|by eapply grown_rep|]. rewrite app_nil_r. by apply add_tx_cbs. }
    destruct (Z.gtb_spec fsize (size c)) as [Hgt|Hle]; cbv iota.
    + fstep. eapply (change_ok mnt ino); [exact Hph'|lia|left; lia|]. intros ph2 ct2 Hph2 Ho2. rewrite (proj2 (Z.eqb_neq (fsize - size c) 0)) by lia.
      change (0 <? 0) with false. cbv iota. do 2 fstep. unfold errof. rewrite (proj2 (Z.ltb_ge fsize 0)) by lia. cbn [fst snd].
      eapply (Hgrow ph2 _ ct2 [CbSize] (extend c (o + len))); try done.
      * by right.
      * rewrite size_extend. lia.
      * by eapply extend_rep, grown_rep.
      * rewrite size_extend. unfold file_max in *. lia.
      * simpl. by rewrite add_tx_cbs.
    + do 2 fstep. unfold errof. rewrite (proj2 (Z.ltb_ge fsize 0)) by lia. cbn [fst snd].
      assert (Ee : extend c (o + len) = c).
      { unfold extend, zeros. replace (Z.to_nat (o + len - size c)) with 0%nat by lia. by rewrite app_nil_r. }
      eapply (Hgrow ph' (size c) ct [] c); try done; [by left|by eapply grown_rep|]. rewrite app_nil_r. by apply add_tx_cbs.
Qed.

(** ** Writing *)
Lemma foreign_gs m gs x : gs_ok mnt m gs -> foreign mnt (apply_gs gs m) x -> foreign mnt m x.
Proof.
  intros Hgs Hf k b Hb. destruct (gs_dom_inv mnt m gs k b Hgs Hb) as (b' & Hb' & E). rewrite <- E. by eapply Hf.
Qed.

Lemma commit_count gs inc : cbs_ok (commit_cbs gs inc) 0 (Z.of_nat (length gs)) /\ cb_count CbSize (commit_cbs gs inc) = if inc =? 0 then 0 else 1.
Proof. unfold cbs_ok, commit_cbs. rewrite !cb_count_app, !cb_count_rep. destruct (inc =? 0); simpl; split_and!; lia. Qed.

(** The end of a write: the holes and the size go into a transaction. *)
Lemma write_commit_ok d ph m c c' wm gs inc ct rv tb tf logs (Q : unit * Z -> fstate P -> Prop) :
  phy_ok mnt ino ph m (size c) btime -> wm_ok mnt wm gs inc -> gs_ok mnt m gs -> tables_ok tb (apply_gs gs m) ->
  dev_fine d -> logs_fine logs -> rep (d_bytes d) (apply_gs gs m) c' -> size c' = size c + inc -> size c' <= file_max ->
  (forall s', file_at s' (apply_gs gs m) c' -> others ph (fs_phy s') -> fs_dev s' = d -> Q (tt, 0) s') ->
  wp (tls_write mnt tf tt (err1 ← pfs_inode_writemodify_commit mnt; mret (tt, ERR_UPDATE 0 err1)))
    (MkFs d ph (core ino (size c) (size c) ct btime false 0 0 wm rv tb) None logs) Q.
Proof.
  intros Hph Hwm Hgs Htb Hd Hlg Hrep Hsz Hmx HQ. apply tls_write_ok. cbn [fs_dev fs_phy fs_in fs_logs]. fstep.
  eapply (wm_commit_ok mnt ino Hfeat); [exact Hph|exact Hwm|exact Hgs|done| |].
  - intros -> ->. rewrite (wm_ok_zero mnt wm Hwm). fstep. cbn [snd fst]. eapply (tx_end_ok mnt ino); [split_and!; [done|by left|done]|done|exact Hlg|].
    intros logs' Hlg'. rewrite Z.add_0_r in Hsz. apply HQ; [|apply others_refl|done].
    split; simpl; try done; [by rewrite Hsz|rewrite Hsz; by apply rest_core].
  - intros ph' ct' Hph' Hoth. fstep. change (ERR_UPDATE 0 0) with 0. cbn [snd fst]. destruct (commit_count gs inc) as [Hc1 Hc2].
    eapply (tx_end_ok mnt ino); [exact Hc1| |exact Hlg|].
    + simpl. rewrite Hc2. intros Hi. destruct (Z.eqb_spec inc 0); [lia|done].
    + intros logs' Hlg'. apply HQ; [|done|done]. split; simpl; try done; [by rewrite Hsz|rewrite Hsz; by apply rest_core].
Qed.

Lemma xpwrite_ok s m c file buf off o (Q : Z * pfs_file -> fstate P -> Prop) :
  file_at s m c -> f_btime file = btime -> 0 < size buf ->
  (let off2 := (if f_append file then OFFSET_FILE_SIZE else if off =? OFFSET_FILE_POS then f_offset file else off) in
   off2 = OFFSET_FILE_SIZE /\ o = size c \/ off2 = o /\ 0 <= o) -> o + size buf <= file_max -> mapped mnt m o (size buf) ->
  (forall s' m', file_at s' m' (pwrite_spec c o buf) -> keeps_others s s' m' ->
     Q (size buf, if off =? OFFSET_FILE_POS then set_offset (o + size buf) file else file) s') ->
  wp (pfs_file_xpwrite mnt file buf (size buf) off) s Q.
Proof.
  destruct s as [d ph i tx logs]. intros [Hph Hin Htx Hd Hlg Hr Hmx] Hbt Hlen Hoff Hlim Hmp HQ. simpl in *. subst tx.
  unfold pfs_file_xpwrite. rewrite (proj2 (Z.leb_gt (size buf) 0)) by done. set (off2 := if f_append file then _ else _) in *. cbv zeta.
  assert (Ho : 0 <= o /\ (if off2 =? OFFSET_FILE_SIZE then size c else off2) = o).
  { destruct Hoff as [[-> ->]|[-> Ho]]; [split; [apply size_pos|done]|]. split; [done|].
    unfold OFFSET_FILE_SIZE. by rewrite (proj2 (Z.eqb_neq o (-2))) by lia. }
  destruct Ho as [Ho Eo]. fstep. fstep.
  { destruct Hoff as [[-> _]|[-> _]]; [done|]. by rewrite geb_true by lia. }
  fstep. unfold pfs_file_write. fstep. rewrite Hbt. eapply (sync_first_ok mnt ino Hfeat HB1); [exact Hph|exact Hin|].
  intros ct rv tb Htb. cbn [negb Z.eqb]. cbv iota. fstep. apply inode_size_ok. cbv zeta. rewrite Eo. fstep.
  eapply (file_write_loop_ok mnt ino Hfeat Hgeo Hpow Hmax ph m (size c) btime ct rv None logs (size buf) (Z.to_nat (size buf)) d tb wm_zero [] 0);
    rewrite ?Z.sub_0_r; try done; try lia.
  { eapply tags_blks. apply (py_tags _ _ _ _ _ _ Hph). } { constructor. } { apply wm_zero_ok. }
  intros d' tb' wm' gs' m' Htb' Hbk' Hgs' Hd' Hwm' Hc' Hf'. rewrite (proj2 (Z.ltb_lt 0 (size buf))) in Hwm' by done.
  fstep. rewrite (proj2 (Z.ltb_ge (size buf) 0)) by lia. cbv beta iota zeta. unfold errof. rewrite (proj2 (Z.ltb_ge (size buf) 0)) by lia.
  fstep. eapply (write_commit_ok d' ph m c (pwrite_spec c o buf)); try done.
  - intros x Hx. etransitivity; [by apply Hc'|]. rewrite nth_pwrite by done. by apply over_ext, Hr.
  - rewrite size_pwrite by done. lia.
  - rewrite size_pwrite by done. lia.
  - intros s' Hs' Hoth Hdev. cbn [snd]. cbn [negb Z.eqb]. cbv iota. fstep. apply (HQ s' m'); [done|].
    split; [done|]. intros x Hx. simpl. rewrite Hdev. by apply Hf', (foreign_gs m gs').
Qed.

(** ** Truncating *)
(** The content after the blocks behind [n] are gone; the block of [n] has
    its hole at [n] or nothing behind it. *)
Lemma truncated_bytes f m m1 m' c n : let last := (n - 1) / B in rep f m c -> 0 <= n ->
  (m1 = m /\ (size c <= n \/ n mod B = 0 \/ (forall b, m !! last = Some b -> holestart b <= n mod B)) \/
   (exists b, m !! last = Some b /\ 0 < n mod B < holestart b /\ m1 = <[last := MkDblk (db_blkno b) (n mod B) (B - n mod B)]> m)) ->
  (forall k, m' !! k = if decide (last + 1 <= k) then None else m1 !! k) ->
  rep f m' (truncate_spec c n).
Proof.
  intros last Hr Hn Hm1 Hm' o Ho. rewrite nth_truncate by done. pose proof HB1 as HB0.
  pose proof (Z.div_mod o B ltac:(lia)) as Edo. pose proof (Z.mod_pos_bound o B ltac:(lia)) as Emo.
  assert (Hl : last * B < n <= (last + 1) * B).
  { pose proof (Z.div_mod (n - 1) B ltac:(lia)). pose proof (Z.mod_pos_bound (n - 1) B ltac:(lia)). unfold last. nia. }
  pose proof (Z.div_mod n B ltac:(lia)) as Edn. pose proof (Z.mod_pos_bound n B ltac:(lia)) as Emn.
  assert (Hdiv : 0 < n mod B -> n / B = last) by (intros Hp; nia).
  specialize (Hr o Ho). unfold file_byte in Hr |- *. fold geo B in Hr |- *. rewrite Hm'.
  destruct (Nat.ltb_spec (Z.to_nat o) (Z.to_nat n)) as [Hlt|Hge].
  - assert (Hon : o < n) by lia. rewrite <- Hr. assert (Hk : o / B <= last) by nia.
    rewrite decide_False by lia. destruct Hm1 as [[-> _]|(b & Hb & Hh & ->)]; [done|].
    destruct (decide (o / B = last)) as [E|E]; [|by rewrite lookup_insert_ne by done].
    specialize (Hdiv ltac:(lia)). rewrite E, lookup_insert_eq, Hb. unfold holestart at 1. simpl.
    rewrite (proj2 (Z.gtb_gt (B - n mod B) 0)) by lia. rewrite !(proj2 (Z.ltb_lt _ _)) by nia. done.
  - assert (Hon : n <= o) by lia. case_decide as Hk; [done|]. destruct (decide (0 < n mod B)) as [Hp|Hp].
    2:{ exfalso. apply Hk. apply Z.div_le_lower_bound; [done|]. assert (n mod B = 0) by lia. assert (n / B = last + 1) by nia. nia. }
    specialize (Hdiv Hp). assert (E : o / B = last) by (pose proof (Z.div_le_mono n o B HB0 Hon); lia). rewrite E in *.
    destruct Hm1 as [[-> [Hc|[Hc|Hc]]]|(b & Hb & Hh & ->)]; [|lia| |].
    + rewrite Hr. apply nth_overflow. unfold size in Hc. lia.
    + destruct (m !! last) as [b|]; [|done]. specialize (Hc b eq_refl). by rewrite (proj2 (Z.ltb_ge _ _)) by nia.
    + rewrite lookup_insert_eq. unfold holestart at 1. simpl.
      rewrite (proj2 (Z.gtb_gt (B - n mod B) 0)) by lia. by rewrite (proj2 (Z.ltb_ge _ _)) by nia.
Qed.

Definition shrink_to (fsize n : Z) : Z :=
  if (file_shrink_size mnt >? 0) && (fsize - n >? file_shrink_size mnt) then fsize - file_shrink_size mnt else n.

Lemma shrink_to_bounds fsize n : 0 <= n -> n <= shrink_to fsize n <= Z.max fsize n.
Proof.
  intros Hn. unfold shrink_to. destruct (Z.gtb_spec (file_shrink_size mnt) 0) as [H1|H1]; [|simpl; lia].
  destruct (Z.gtb_spec (fsize - n) (file_shrink_size mnt)) as [H2|H2]; simpl; lia.
Qed.

(** The hole in the last block. *)
Definition punched (m : gmap Z pfs_dblk) (c : list Z) (n : Z) (m1 : gmap Z pfs_dblk) : Prop :=
  let last := (n - 1) / B in
  m1 = m /\ (size c <= n \/ n mod B = 0 \/ (forall b, m !! last = Some b -> holestart b <= n mod B)) \/
  (exists b, m !! last = Some b /\ 0 < n mod B < holestart b /\ m1 = <[last := MkDblk (db_blkno b) (n mod B) (B - n mod B)]> m).

Definition punch (n fsize : Z) : fio P (Z * Z) :=
  if n =? 0 then mret (0, -1) else
  lastblkid ← fblkid mnt (n - 1);
  m ← map_blk lastblkid;
  let '(dblkno, dbhoff) := m in
  if (dblkno >? 0) && (n <? fsize) then
    blkoff ← fblkoff mnt n;
    expand ← (if (blkoff >? 0) && (blkoff <? dbhoff) then has_blkhole mnt else mret false);
    if expand : bool then
      err ← pfs_inode_phy_check;
      if err <? 0 then mret (err, lastblkid) else
      pfs_inode_expand_dblk_hole mnt lastblkid blkoff (B - blkoff);;
      mret (0, lastblkid)
    else mret (0, lastblkid)
  else mret (0, lastblkid).

Lemma punch_ok d ph m c sz ct rv tb tx logs n (Q : Z * Z -> fstate P -> Prop) :
  phy_ok mnt ino ph m sz btime -> tables_ok tb m -> 0 <= n <= file_max -> t_cbs tx = [] -> (sz <= n -> size c <= n) ->
  (forall ph1 md tb1 m1 tx1, phy_ok mnt ino ph1 m1 sz btime -> tables_ok tb1 m1 -> punched m c n m1 -> others ph ph1 ->
     t_cbs tx1 = replicate (Z.to_nat md) CbHole -> 0 <= md ->
     Q (0, (n - 1) / B) (MkFs d ph1 (core ino sz sz ct btime false 0 md wm_zero rv tb1) (Some tx1) logs)) ->
  wp (punch n sz) (MkFs d ph (core ino sz sz ct btime false 0 0 wm_zero rv tb) (Some tx) logs) Q.
Proof.
  intros Hph Htb Hn Hcb Hszc HQ. unfold punch. pose proof HB1 as HB0.
  assert (Hskip : (size c <= n \/ n mod B = 0 \/ (forall b, m !! ((n - 1) / B) = Some b -> holestart b <= n mod B)) ->
    Q (0, (n - 1) / B) (MkFs d ph (core ino sz sz ct btime false 0 0 wm_zero rv tb) (Some tx) logs)).
  { intros Hs. apply (HQ ph 0 tb m tx); try done; by left. }
  destruct (Z.eqb_spec n 0) as [->|Hne].
  { fstep. replace ((0 - 1) / B) with (-1) in Hskip. { apply Hskip. right. left. by apply Z.mod_0_l; lia. }
    apply (Z.div_unique _ B (-1) (B - 1)); lia. }
  fstep. apply (fblkid_ok mnt Hpow Hmax); [lia|]. fstep.
  assert (Hbi : blkid_ok ((n - 1) / B)).
  { split; [apply Z.div_pos; lia|]. apply Z.div_lt_upper_bound; [done|]. unfold file_max in Hn. lia. }
  eapply (map_blk_ok ino); [exact Htb|done|]. fold geo B. destruct (m !! ((n - 1) / B)) as [b|] eqn:Eb.
  2:{ cbv beta iota. change (0 >? 0) with false. cbn [andb]. cbv iota. fstep. apply Hskip. right. right. by intros b. }
  cbv beta iota. destruct (tags_entry mnt ino _ _ _ (py_tags _ _ _ _ _ _ Hph) _ b Eb) as (_ & _ & _ & _ & _ & _ & _ & _ & Hpos & _).
  rewrite (proj2 (Z.gtb_gt (db_blkno b) 0)) by lia. cbn [andb]. destruct (Z.ltb_spec n sz) as [Hlt|Hge].
  2:{ fstep. apply Hskip. left. by apply Hszc. }
  fstep. apply (fblkoff_ok mnt Hpow Hmax); [lia|]. fold geo B. pose proof (Z.mod_pos_bound n B ltac:(lia)) as Hmod.
  destruct (Z.gtb_spec (n mod B) 0) as [H1|H1]; cbn [andb].
  2:{ do 3 fstep. apply Hskip. right. left. lia. }
  destruct (Z.ltb_spec (n mod B) (holestart b)) as [H2|H2].
  2:{ do 3 fstep. apply Hskip. right. right. by intros b' [= ->]. }
  fstep. unfold has_blkhole. fstep; [exact Hfeat|]. cbv iota. fstep. eapply phy_get_ok; [exact Hph|].
  change (0 <? 0) with false. cbv iota. fstep. eapply (expand_ok mnt ino Hfeat); [exact Hph|exact Htb|exact Eb|exact Hmod|exact H2|].
  intros ph1 tb1 m1 Hph1 Htb1 Ho1. fstep. apply (HQ ph1 (0 + 1) tb1 m1); try done; [|simpl; by rewrite Hcb].
  right. exists b. done.
Qed.

Lemma file_truncate_ok d ph i m c sz n tf logs (Q : Z -> fstate P -> Prop) :
  let n' := shrink_to sz n in let tx0 := MkTxn false false [] ph tf in
  phy_ok mnt ino ph m sz btime -> at_rest ino i m sz btime -> rep (d_bytes d) m c -> 0 <= n <= file_max -> sz <= file_max -> (sz <= n' -> size c <= n') ->
  (forall ph' ct ip md rv tb m' tx, phy_ok mnt ino ph' m' n' btime -> tables_ok tb m' -> rep (d_bytes d) m' (truncate_spec c n') ->
     others ph ph' -> cbs_ok (t_cbs tx) ip md -> (cb_count CbSize (t_cbs tx) = 0 -> sz = n') ->
     Q n' (MkFs d ph' (core ino sz n' ct btime false ip md wm_zero rv tb) (Some tx) logs)) ->
  wp (pfs_file_truncate mnt n btime) (MkFs d ph i (Some tx0) logs) Q.
Proof.
  intros n' tx0 Hph Hin Hr Hn Hmx Hszc HQ. unfold pfs_file_truncate. fstep. pose proof HB1 as HB0. pose proof (py_pos _ _ _ _ _ _ Hph) as Hsz.
  eapply (sync_first_ok mnt ino Hfeat HB1); [exact Hph|exact Hin|]. intros ct rv tb Htb. change (0 <? 0) with false. cbv iota.
  fstep. apply inode_size_ok. cbv zeta. fold (shrink_to sz n). fold n'. pose proof (shrink_to_bounds sz n ltac:(lia)) as Hn'. fold n' in Hn'.
  fstep. fold geo B. fold (punch n' sz). eapply punch_ok; [exact Hph|exact Htb|lia|done|exact Hszc|].
  intros ph1 md tb1 m1 tx1 Hph1 Htb1 Hpu Ho1 Ecb Hmd. cbv beta iota. change (0 <? 0) with false. cbv iota. fstep.
  eapply (del_from_ok mnt ino); [exact Hph1|exact Htb1| |].
  { pose proof (Z.div_le_mono (-1) (n' - 1) B HB0 ltac:(lia)). replace (-1 / B) with (-1) in *; [lia|]. apply (Z.div_unique _ B (-1) (B - 1)); lia. }
  intros m' s' Hm' (k & ph2 & tb2 & -> & Hph2 & Htb2 & _ & Ho2). change (0 <? 0) with false. cbv iota.
  assert (Hrep : rep (d_bytes d) m' (truncate_spec c n')) by (by eapply truncated_bytes; [exact Hr|lia|exact Hpu|exact Hm']).
  assert (Ecb' : t_cbs (del_tx k tx1) = replicate (Z.to_nat md) CbHole ++ replicate k CbDel).
  { destruct k; simpl; rewrite Ecb; [by rewrite app_nil_r|done]. }
  destruct (Z.eqb_spec n' sz) as [E|E]; cbn [negb].
  - fstep. rewrite E in *. eapply HQ; try done; [by eapply others_trans|].
    rewrite Ecb'. unfold cbs_ok. rewrite !cb_count_app, !cb_count_rep. simpl. lia.
  - fstep. eapply (change_ok mnt ino); [exact Hph2|lia|left; lia|]. intros ph3 ct3 Hph3 Ho3. change (0 <? 0) with false. cbv iota. fstep.
    rewrite (proj2 (Z.eqb_neq (n' - sz) 0)) by lia. replace (sz + (n' - sz)) with n' in * by lia.
    eapply HQ; try done; [by do 2 (eapply others_trans; [done|])| |].
    + simpl. rewrite Ecb'. unfold cbs_ok. rewrite !cb_count_app, !cb_count_rep. simpl. lia.
    + simpl. rewrite Ecb', !cb_count_app, !cb_count_rep. simpl. lia.
Qed.

Lemma keeps_foreign_trans s s1 s2 m1 m2 : keeps_others s s1 m1 -> keeps_others s1 s2 m2 ->
  (forall x, foreign mnt m2 x -> foreign mnt m1 x) -> keeps_others s s2 m2.
Proof.
  intros [H1 H2] [H3 H4] Hx. split; [by eapply others_trans|]. intros x Hf. rewrite H4, H2 by auto. done.
Qed.

(** Every round takes [file_shrink_size] bytes off, the last one the rest. *)
Definition truncate_rounds (fsize n : Z) : nat :=
  if file_shrink_size mnt >? 0 then S (Z.to_nat ((fsize - n - 1) / file_shrink_size mnt)) else 1.

Lemma shrink_round fsize n : 0 <= n -> shrink_to fsize n <> n ->
  fsize - n > file_shrink_size mnt /\ file_shrink_size mnt > 0 /\ shrink_to fsize n = fsize - file_shrink_size mnt /\
  truncate_rounds fsize n = S (truncate_rounds (shrink_to fsize n) n).
Proof.
  intros Hn. unfold shrink_to, truncate_rounds. destruct (Z.gtb_spec (file_shrink_size mnt) 0) as [H1|H1]; [|done].
  destruct (Z.gtb_spec (fsize - n) (file_shrink_size mnt)) as [H2|H2]; simpl; [|done]. intros _. split_and!; [lia|lia|done|]. f_equal.
  replace (fsize - n - 1) with (fsize - file_shrink_size mnt - n - 1 + 1 * file_shrink_size mnt) by lia.
  rewrite Z.div_add by lia. rewrite Z2Nat.inj_add; [lia| |lia]. apply Z.div_pos; lia.
Qed.

Lemma xftruncate_ok fuel : forall s m c file n (Q : Z -> fstate P -> Prop),
  file_at s m c -> f_btime file = btime -> 0 <= n <= file_max -> (truncate_rounds (size c) n <= fuel)%nat ->
  (forall s' m', file_at s' m' (truncate_spec c n) -> others (fs_phy s) (fs_phy s') -> d_bytes (fs_dev s') = d_bytes (fs_dev s) -> Q 0 s') ->
  wp (pfs_file_xftruncate mnt fuel file n) s Q.
Proof.
  induction fuel as [|fuel IH]; intros s m c file n Q Hf Hbt Hn Hfuel HQ.
  { unfold truncate_rounds in Hfuel. destruct (file_shrink_size mnt >? 0); lia. }
  destruct s as [d ph i tx logs]. destruct Hf as [Hph Hin Htx Hd Hlg Hr Hmx]. simpl in Hph, Hin, Htx, Hd, Hlg, Hr, HQ. subst tx.
  cbn [pfs_file_xftruncate]. fstep. fstep; [apply geb_true; lia|]. fstep. apply tls_write_ok. cbn [fs_dev fs_phy fs_in fs_logs].
  fstep. rewrite Hbt. pose proof (shrink_to_bounds (size c) n ltac:(lia)) as Hb.
  eapply file_truncate_ok; [exact Hph|exact Hin|exact Hr|lia|exact Hmx|done|]. intros ph' ct ip md rv tb m' tx Hph' Htb' Hr' Ho' Hcb Hcs.
  set (n' := shrink_to (size c) n) in *. fstep. cbn [snd fst]. unfold errof. rewrite (proj2 (Z.ltb_ge n' 0)) by lia.
  eapply (tx_end_ok mnt ino); [exact Hcb|exact Hcs|exact Hlg|]. intros logs' Hlg'. cbv beta iota. change (0 =? 0) with true. cbn [andb].
  assert (Hs' : file_at (MkFs d ph' (core ino n' n' ct btime false 0 0 wm_zero rv tb) None logs') m' (truncate_spec c n')).
  { split; simpl; rewrite ?size_truncate by lia; try done; [by apply rest_core|lia]. }
  destruct (Z.eqb_spec n' n) as [E|E]; cbn [negb]; cbv iota.
  - fstep. rewrite <- E in HQ. apply (HQ _ m'); [exact Hs'|exact Ho'|done].
  - destruct (shrink_round (size c) n ltac:(lia) E) as (_ & _ & _ & Er). fold n' in Er. eapply IH; [exact Hs'|exact Hbt|done| |].
    + rewrite size_truncate by lia. lia.
    + rewrite truncate_truncate by lia. intros s2 m2 Hs2 Ho2 Hd2. apply (HQ s2 m2); [done|by eapply others_trans|done].
Qed.

(** ** Reading at an offset or at the position *)
Lemma xpread_ok s m c file len off o (Q : Z * list Z * pfs_file -> fstate P -> Prop) :
  file_at s m c -> f_btime file = btime -> o = (if off =? OFFSET_FILE_POS then f_offset file else off) ->
  0 <= o -> 0 <= len -> o + len < 2 ^ 63 ->
  (forall s', file_at s' m c -> keeps_others s s' m ->
     Q (size (pread_spec c o len), pread_spec c o len,
        if off =? OFFSET_FILE_POS then set_offset (o + size (pread_spec c o len)) file else file) s') ->
  wp (pfs_file_xpread mnt file len off) s Q.
Proof.
  intros Hs Hbt Eo Ho Hlen Hlt HQ. unfold pfs_file_xpread. cbv zeta. rewrite <- Eo. fstep. fstep; [by apply geb_true|]. fstep.
  eapply tls_read_ok; [exact Hs|]. intros s1 Hs1 Hk1. fstep. rewrite Hbt. eapply file_read_ok; [exact Hs1|done|done|done|].
  intros s2 Hs2 Hk2. fstep. cbv beta iota. cbn [fst]. unfold errof. rewrite (proj2 (Z.ltb_ge _ 0)) by apply size_pos.
  change (0 =? 0) with true. cbn [andb]. fstep. change (-1) with OFFSET_FILE_POS.
  assert (E : (if off =? OFFSET_FILE_POS then set_offset (f_offset file + size (pread_spec c o len)) file else file) =
              (if off =? OFFSET_FILE_POS then set_offset (o + size (pread_spec c o len)) file else file)).
  { rewrite Eo. by destruct (off =? OFFSET_FILE_POS). }
  rewrite E. apply HQ; [done|]. eapply keeps_foreign_trans; [exact Hk1|exact Hk2|done].
Qed.

(** ** The size and the position *)
Lemma file_size_ok s m c (Q : Z -> fstate P -> Prop) : file_at s m c ->
  (forall s', file_at s' m c -> keeps_others s s' m -> Q (size c) s') -> wp (pfs_file_size mnt btime) s Q.
Proof.
  destruct s as [d ph i tx logs]. intros [Hph Hin Htx Hd Hlg Hr Hmx] HQ. simpl in *. subst tx. unfold pfs_file_size. do 2 fstep.
  rewrite Hrw. cbn [negb andb]. cbv iota. fstep. eapply (sync_first_ok mnt ino Hfeat HB1); [exact Hph|exact Hin|]. intros ct rv tb Htb.
  change (0 =? 0) with true. cbv iota. fstep. apply inode_size_ok. fstep. change (0 <? 0) with false. cbv iota.
  apply HQ; [|split; [apply others_refl|done]]. split; simpl; try done. by apply rest_core.
Qed.

(** ** A write whose size change is not committed *)
Lemma gs_hole m gs k b : gs_ok mnt m gs -> m !! k = Some b ->
  exists b', apply_gs gs m !! k = Some b' /\ db_blkno b' = db_blkno b /\ (b' = b \/ db_holelen b' = 0).
Proof.
  induction gs as [|g gs IH] using rev_ind; intros Hgs Hb; [exists b; auto|].
  apply Forall_app in Hgs as [Hgs [((b0 & Hm & E) & _ & Hl) _]%Forall_cons]. rewrite apply_gs_app.
  destruct (decide (fst g = k)) as [<-|Hne]; [|by rewrite lookup_insert_ne by done; apply IH].
  rewrite lookup_insert_eq. exists (snd g). split_and!; [done|congruence|by right].
Qed.

(** The bytes of the file outside the holes that were to be filled. *)
Lemma gs_byte f m gs o : gs_ok mnt m gs -> file_byte mnt f m o =
  match m !! (o / B) with Some b => if o mod B <? holestart b then file_byte mnt f (apply_gs gs m) o else 0 | None => 0 end.
Proof.
  intros Hgs. unfold file_byte. fold geo B. destruct (m !! (o / B)) as [b|] eqn:Hb; [|done].
  destruct (gs_hole m gs _ b Hgs Hb) as (b' & -> & Ebn & Hh). rewrite Ebn. destruct (Z.ltb_spec (o mod B) (holestart b)) as [E|E]; [|done].
  assert (o mod B < holestart b'); [|by rewrite (proj2 (Z.ltb_lt _ _))]. destruct Hh as [->|Hh]; [done|].
  unfold holestart at 1. rewrite Hh. change (0 >? 0) with false. cbv iota. pose proof (Z.mod_pos_bound o B HB1). pose proof (B_int_max mnt Hmax) as Hi. fold geo B in Hi. lia.
Qed.

Definition no_holes (m : gmap Z pfs_dblk) (off n : Z) : Prop :=
  forall o, off <= o < off + n -> exists b, m !! (o / B) = Some b /\ db_holelen b = 0.

Lemma failed_commit_ok d ph i m c file buf off e logs (Q : Z * pfs_file -> fstate P -> Prop) :
  file_at (MkFs d ph i None []) m c -> f_btime file = btime -> f_append file = false -> 0 < size buf -> 0 <= off ->
  size c < off + size buf <= file_max -> no_holes m off (size buf) -> e < 0 -> e <> - ETIMEDOUT ->
  (forall d' i', at_rest ino i' m (size c) btime -> dev_fine d' -> rep (d_bytes d') m (pwrite_spec c off buf) ->
     Q (e, file) (MkFs d' ph i' None logs)) ->
  wp (pfs_file_xpwrite mnt file buf (size buf) off) (MkFs d ph i None (e :: logs)) Q.
Proof.
  intros [Hph Hin _ Hd _ Hr Hmx] Hbt Hap Hlen Ho Hlim Hnh He Het HQ. simpl in Hph, Hin, Hd, Hr.
  assert (Hmp : mapped mnt m off (size buf)). { intros o Hoo. destruct (Hnh o Hoo) as (b & Hb & _). fold geo B. by rewrite Hb. }
  unfold pfs_file_xpwrite. rewrite (proj2 (Z.leb_gt (size buf) 0)), Hap by done. cbv zeta.
  assert (En : (off =? OFFSET_FILE_POS) = false) by (apply Z.eqb_neq; unfold OFFSET_FILE_POS; lia).
  assert (En2 : (off =? OFFSET_FILE_SIZE) = false) by (apply Z.eqb_neq; unfold OFFSET_FILE_SIZE; lia).
  rewrite En. fstep. fstep; [by rewrite geb_true|]. fstep. unfold pfs_file_write. fstep. rewrite Hbt.
  eapply (sync_first_ok mnt ino Hfeat HB1); [exact Hph|exact Hin|]. intros ct rv tb Htb. cbn [negb Z.eqb]. cbv iota. fstep.
  apply inode_size_ok. cbv zeta. rewrite En2. fstep.
  eapply (file_write_loop_ok mnt ino Hfeat Hgeo Hpow Hmax ph m (size c) btime ct rv None (e :: logs) (size buf) (Z.to_nat (size buf)) d tb wm_zero [] 0);
    rewrite ?Z.sub_0_r; try done; try lia.
  { eapply tags_blks. apply (py_tags _ _ _ _ _ _ Hph). } { constructor. } { apply wm_zero_ok. } { apply Hlim. }
  intros d' tb' wm' gs m' Htb' Hbk' Hgs Hd' Hwm Hc' _. rewrite (proj2 (Z.ltb_lt 0 (size buf))), Z.max_r in Hwm by lia.
  fstep. unfold errof. rewrite (proj2 (Z.ltb_ge (size buf) 0)) by lia.
  fstep. apply tls_write_ok. cbn [fs_dev fs_phy fs_in fs_logs]. fstep.
  eapply (wm_commit_ok mnt ino Hfeat); [exact Hph|exact Hwm|exact Hgs|done|lia|]. intros ph' ct' Hph' _. fstep. change (ERR_UPDATE 0 0) with 0. cbn [snd fst].
  destruct (commit_count gs (off + size buf - size c)) as [Hc1 Hc2]. eapply (tx_end_log_fail mnt ino); [exact Hc1| |done|done|done|done|].
  { simpl. rewrite Hc2. destruct (Z.eqb_spec (off + size buf - size c) 0); [lia|done]. }
  cbn [snd]. rewrite (proj2 (Z.eqb_neq e 0)) by lia. cbn [negb]. cbv iota. fstep. apply HQ; [|done|].
  - eexists _, _, true, _, _. split; [done|]. by intros.
  - intros o Hoo. rewrite (gs_byte _ m gs o Hgs), Hc', nth_pwrite by done. change (apply_gs [] m) with m. unfold over.
    destruct ((off <=? o) && (o <? off + size buf)) eqn:Er.
    + apply andb_true_iff in Er as [E1%Z.leb_le E2%Z.ltb_lt]. destruct (Hnh o ltac:(lia)) as (b & -> & Hl). unfold holestart. rewrite Hl.
      change (0 >? 0) with false. cbv iota. pose proof (Z.mod_pos_bound o B HB1). pose proof (B_int_max mnt Hmax) as Hi. fold geo B in Hi.
      by rewrite (proj2 (Z.ltb_lt _ _)) by lia.
    + rewrite <- (Hr o Hoo). unfold file_byte. fold geo B. destruct (m !! (o / B)) as [b|]; [|done]. destruct (o mod B <? holestart b); done.
Qed.

(** The file is extended over the bytes of a write that failed. *)
Lemma extend_over_ok d ph i m c c2 n file logs (Q : Z -> fstate P -> Prop) :
  phy_ok mnt ino ph m (size c) btime -> at_rest ino i m (size c) btime -> dev_fine d -> logs_fine logs -> rep (d_bytes d) m c2 ->
  f_btime file = btime -> size c <= n <= file_max -> size c2 <= n ->
  (forall s' m', file_at s' m' (truncate_spec c2 n) -> Q 0 s') ->
  wp (pfs_file_xftruncate mnt 1 file n) (MkFs d ph i None logs) Q.
Proof.
  intros Hph Hin Hd Hlg Hr Hbt Hn Hc2 HQ. pose proof (size_pos c) as Hsz. cbn [pfs_file_xftruncate]. fstep. fstep; [apply geb_true; lia|]. fstep.
  apply tls_write_ok. cbn [fs_dev fs_phy fs_in fs_logs]. fstep. rewrite Hbt.
  assert (En : shrink_to (size c) n = n).
  { unfold shrink_to. destruct (Z.gtb_spec (file_shrink_size mnt) 0) as [H1|H1]; [|done].
    destruct (Z.gtb_spec (size c - n) (file_shrink_size mnt)) as [H2|H2]; [lia|done]. }
  eapply (file_truncate_ok d ph i m c2 (size c)); rewrite ?En; try done; [lia|lia|]. intros ph' ct ip md rv tb m' tx Hph' Htb' Hr' Ho' Hcb Hcs.
  fstep. cbn [snd fst]. unfold errof. rewrite (proj2 (Z.ltb_ge n 0)) by lia.
  eapply (tx_end_ok mnt ino); [exact Hcb|exact Hcs|exact Hlg|]. intros logs' Hlg'. cbv beta iota. rewrite !Z.eqb_refl. cbn [andb negb]. cbv iota. fstep.
  apply (HQ _ m'). split; simpl; rewrite ?size_truncate by lia; try done; [by apply rest_core|lia].
Qed.
End FileSpec.
