(* ===== verification/FileOps.v ===== *)
(** * Calls on an open file refine operations on a list of bytes

    The calls of src/src/pfs_core/pfs_api.cc that take a descriptor, as the
    operations of [File], against a specification in which a file is a list
    of bytes and a descriptor a position. *)
From S2P Require Import Prelude Blkio Blktable Object Inode InodeInv File FileSafe FileSpec.
Open Scope pfs_scope.

(** ** The specification *)
Inductive fop :=
  | FRead (len : Z)
  | FPread (len off : Z)
  | FWrite (buf : list Z)
  | FPwrite (buf : list Z) (off : Z)
  | FTruncate (len : Z)
  | FAllocate (mode off len : Z)
  | FSeek (off whence : Z).

(** What a call returns: its result and the bytes it read. *)
Definition fres : Type := Z * list Z.

Definition seek_spec (base off : Z) : Z :=
  if base + off >? OFF_MAX then - EOVERFLOW else if base + off <? 0 then - EINVAL else base + off.

Definition seek_new (c : list Z) (pos off whence : Z) : Z :=
  if whence =? SEEK_SET then if off <? 0 then - EINVAL else off
  else if whence =? SEEK_CUR then seek_spec pos off
  else if whence =? SEEK_END then seek_spec (size c) off else - EINVAL.

(** The result, the bytes and the position. *)
Definition op_spec (append : bool) (op : fop) (c : list Z) (pos : Z) : fres * list Z * Z :=
  match op with
  | FRead len => let data := pread_spec c pos len in ((size data, data), c, pos + size data)
  | FPread len off => let data := pread_spec c off len in ((size data, data), c, pos)
  | FWrite buf =>
      if size buf =? 0 then ((0, []), c, pos) else
      if OFF_MAX - pos <? size buf then ((- EFBIG, []), c, pos) else
      let o := if append then size c else pos in ((size buf, []), pwrite_spec c o buf, o + size buf)
  | FPwrite buf off =>
      if size buf =? 0 then ((0, []), c, pos) else
      if OFF_MAX - off <? size buf then ((- EFBIG, []), c, pos) else
      ((size buf, []), pwrite_spec c (if append then size c else off) buf, pos)
  | FTruncate len => ((0, []), truncate_spec c len, pos)
  | FAllocate mode off len =>
      ((0, []), if flag_set mode FALLOC_FL_KEEP_SIZE then c else extend c (off + len), pos)
  | FSeek off whence =>
      let new := seek_new c pos off whence in ((new, []), c, if new <? 0 then pos else new)
  end.

Definition takes_space (op : fop) : bool :=
  match op with FWrite _ | FPwrite _ _ | FAllocate _ _ _ => true | _ => false end.

(** A call does what the specification says, or nothing for want of space. *)
Definition op_step (append : bool) (op : fop) (c : list Z) (pos : Z) (r : fres) (c' : list Z) (pos' : Z) : Prop :=
  op_spec append op c pos = (r, c', pos') \/
  (takes_space op = true /\ r = (- ENOSPC, []) /\ c' = c /\ pos' = pos).

(** The arguments the calls are made for; [lim] is the largest file. *)
Definition op_ok (lim : Z) (append : bool) (op : fop) (c : list Z) (pos : Z) : Prop :=
  match op with
  | FRead len => 0 <= len /\ pos + len < 2 ^ 63
  | FPread len off => 0 <= off /\ 0 <= len /\ off + len < 2 ^ 63
  | FWrite buf => (if append then size c else pos) + size buf <= lim
  | FPwrite buf off => 0 <= off <= OFF_MAX /\ (if append then size c else off) + size buf <= lim
  | FTruncate len => 0 <= len <= lim
  | FAllocate mode off len => 0 <= mode /\ flag_set mode FALLOC_FL_NO_HIDE_STALE = false /\ 0 <= off /\ 0 < len /\ off + len <= lim
  | FSeek off whence => - 2 ^ 63 <= off < 2 ^ 63
  end.

(** The arguments of a sequence of calls, whatever the calls before returned. *)
Fixpoint ops_ok (lim : Z) (append : bool) (ops : list fop) (c : list Z) (pos : Z) : Prop :=
  match ops with
  | [] => True
  | op :: ops => op_ok lim append op c pos /\
      forall r c' pos', op_step append op c pos r c' pos' -> ops_ok lim append ops c' pos'
  end.

Inductive ops_run (append : bool) : list fop -> list Z -> Z -> list fres -> list Z -> Z -> Prop :=
  | run_nil c pos : ops_run append [] c pos [] c pos
  | run_cons op ops c pos r c1 pos1 rs c2 pos2 :
      op_step append op c pos r c1 pos1 -> ops_run append ops c1 pos1 rs c2 pos2 ->
      ops_run append (op :: ops) c pos (r :: rs) c2 pos2.

(** ** The calls *)
Section Calls.
Context (mnt : pfs_mount) {P : Type} `{BlkPool P}.

(** The loop of a truncation is run for the rounds the size asks for. *)
Definition do_op (file : pfs_file) (op : fop) : fio P (fres * pfs_file) :=
  match op with
  | FRead len => _pfs_read mnt file len
  | FPread len off => _pfs_pread mnt file len off
  | FWrite buf => r ← _pfs_write mnt file buf (size buf); mret ((fst r, []), snd r)
  | FPwrite buf off => r ← _pfs_pwrite mnt file buf (size buf) off; mret ((fst r, []), snd r)
  | FTruncate len =>
      fsize ← gets (fun s => in_size (ph_in (fs_phy s)));
      err ← _pfs_ftruncate mnt (truncate_rounds mnt fsize len) file len;
      mret ((err, []), file)
  | FAllocate mode off len => err ← _pfs_fallocate mnt file mode off len; mret ((err, []), file)
  | FSeek off whence => r ← _pfs_lseek mnt file off whence; mret ((fst r, []), snd r)
  end.

Fixpoint do_ops (file : pfs_file) (ops : list fop) : fio P (list fres * pfs_file) :=
  match ops with
  | [] => mret ([], file)
  | op :: ops =>
      r ← do_op file op;
      let '(x, file) := r in
      rs ← do_ops file ops;
      mret (x :: fst rs, snd rs)
  end.
End Calls.

(** ** What the calls rely on *)
Record mount_ok (mnt : pfs_mount) : Prop := {
  mk_feat : pfs_version_has_features mnt PFS_FEATURE_BLKHOLE = Some true;
  mk_geo : geo_ok (mnt_geo mnt);
  mk_pow : exists k, 0 <= k /\ mnt_blksize (mnt_geo mnt) = 2 ^ k;
  mk_max : mnt_blksize (mnt_geo mnt) <= PFS_BLOCK_SIZE;
  mk_rw : pfs_writable mnt = true;
  mk_self : mnt_self mnt <> 0
}.

Lemma flag_keep mode : flag_set (Z.lor FALLOC_PFSFL_FIXED_OFFSET mode) FALLOC_FL_KEEP_SIZE = flag_set mode FALLOC_FL_KEEP_SIZE.
Proof. unfold flag_set. by rewrite Z.land_lor_distr_l. Qed.
Lemma flag_stale mode : flag_set (Z.lor FALLOC_PFSFL_FIXED_OFFSET mode) FALLOC_FL_NO_HIDE_STALE = flag_set mode FALLOC_FL_NO_HIDE_STALE.
Proof. unfold flag_set. by rewrite Z.land_lor_distr_l. Qed.
Lemma flag_fixed mode : flag_set (Z.lor FALLOC_PFSFL_FIXED_OFFSET mode) FALLOC_PFSFL_FIXED_OFFSET = true.
Proof.
  unfold flag_set. rewrite Z.land_lor_distr_l. apply negb_true_iff, Z.eqb_neq. intros [E _]%Z.lor_eq_0_iff. done.
Qed.

Section FileOps.
Context (mnt : pfs_mount) {P : Type} `{PoolLaws mnt P} (ino btime : Z) (append : bool).
Let B := mnt_blksize (mnt_geo mnt).
Hypothesis Hm : mount_ok mnt.
Let Hfeat := mk_feat _ Hm.
Let Hgeo := mk_geo _ Hm.
Let Hpow := mk_pow _ Hm.
Let Hmax := mk_max _ Hm.
Let Hrw := mk_rw _ Hm.
Let Hself := mk_self _ Hm.

(** The blocks of other files and their bytes stay. *)
Definition kept (s s' : fstate P) : Prop :=
  forall n bt, bp_tag (ph_pool (fs_phy s)) n = Some bt -> n ∉ ph_list (fs_phy s) ->
    bp_tag (ph_pool (fs_phy s')) n = Some bt /\ (n ∉ ph_list (fs_phy s')) /\
    forall x, (btno2blkno n * B <= x < btno2blkno n * B + B)%Z -> d_bytes (fs_dev s') x = d_bytes (fs_dev s) x.

Lemma kept_refl s : kept s s.
Proof. by intros n bt. Qed.
Lemma kept_trans s s1 s2 : kept s s1 -> kept s1 s2 -> kept s s2.
Proof.
  intros H1 H2 n bt Ht Hn. destruct (H1 n bt Ht Hn) as (Ht1 & Hn1 & Hx1). destruct (H2 n bt Ht1 Hn1) as (Ht2 & Hn2 & Hx2).
  split_and!; [done|done|]. intros x Hx. by rewrite Hx2, Hx1.
Qed.

(** An open file that holds [c]. *)
Record open_at (s : fstate P) (file : pfs_file) (c : list Z) (pos : Z) : Prop := {
  oa_file : exists m, file_at mnt ino btime s m c;
  oa_btime : f_btime file = btime;
  oa_append : f_append file = append;
  oa_pos : f_offset file = pos;
  oa_range : 0 <= pos <= OFF_MAX
}.

(** What a file needs of a call: a step of the specification. *)
Definition stepped (s : fstate P) (op : fop) (c : list Z) (pos : Z) (r : fres * pfs_file) (s' : fstate P) : Prop :=
  exists c' pos', op_step append op c pos (fst r) c' pos' /\ open_at s' (snd r) c' pos' /\ kept s s'.

Lemma keeps_kept s s' m' c' : file_at mnt ino btime s' m' c' -> keeps_others mnt s s' m' -> kept s s'.
Proof.
  intros Hs [Ho Hx] n bt Ht Hn. destruct (Ho n bt Ht Hn) as [Ht' Hn']. split_and!; [done|done|]. intros x Hr. apply Hx.
  intros k b Hb Hr'. pose proof (fa_phy _ _ _ _ _ _ Hs) as Hph.
  destruct (tags_entry mnt ino _ _ _ (py_tags _ _ _ _ _ _ Hph) k b Hb) as (n1 & bt1 & Hn1 & _ & _ & _ & _ & _ & _ & _ & En & _).
  destruct (bp_in_use (ph_pool (fs_phy s')) n bt) as (_ & _ & En'); [apply (py_tags _ _ _ _ _ _ Hph)|done|].
  assert (btno2blkno n = db_blkno b) as E by (pose proof (HB1 mnt Hgeo) as HB0; fold B in HB0, Hr'; nia).
  rewrite E in En'. congruence.
Qed.

Lemma same_kept s s' : others (fs_phy s) (fs_phy s') -> d_bytes (fs_dev s') = d_bytes (fs_dev s) -> kept s s'.
Proof. intros Ho Hd n bt Ht Hn. destruct (Ho n bt Ht Hn). split_and!; [done|done|]. intros x _. by rewrite Hd. Qed.

Lemma read_step s file c pos len off op : open_at s file c pos -> 
  op = FRead len /\ off = OFFSET_FILE_POS \/ op = FPread len off /\ 0 <= off -> op_ok (file_max mnt) append op c pos -> 
  wp (if len =? 0 then mret (0, [], file) else pfs_file_xpread mnt file len off) s (stepped s op c pos).
Proof.
  intros [[m Hs] Hb Ha Hp Hr] Hop Hok. set (o := if off =? OFFSET_FILE_POS then f_offset file else off).
  assert (Ho : 0 <= o /\ 0 <= len /\ o + len < 2 ^ 63 /\
    op_spec append op c pos = ((size (pread_spec c o len), pread_spec c o len), c, 
      if off =? OFFSET_FILE_POS then o + size (pread_spec c o len) else pos)).
  { unfold o. destruct Hop as [[-> ->]|[-> Ho]]; simpl in *; [rewrite Hp; split_and!; lia || done|].
    unfold OFFSET_FILE_POS. rewrite (proj2 (Z.eqb_neq off (-1))) by lia. split_and!; lia || done. }
  destruct Ho as (Ho & Hl & Hlt & Hsp). destruct (Z.eqb_spec len 0) as [->|Hne].
  { fstep. exists c, pos. split_and!; [|split; eauto|apply kept_refl]. left. rewrite Hsp. unfold pread_spec. simpl.
    destruct (Z.eqb_spec off OFFSET_FILE_POS) as [E|]; [|done]. unfold o. by rewrite Hp, Z.add_0_r. }
  eapply (xpread_ok mnt ino btime Hfeat Hgeo Hpow Hmax s m c file len off o); try done. intros s' Hs' Hk. clearbody o.
  eexists _, _. split_and!; [left; exact Hsp| |by eapply keeps_kept].
  destruct (off =? OFFSET_FILE_POS); (split; [by eauto|done|done|done|]); [|done].
  pose proof (size_pos (pread_spec c o len)). unfold OFF_MAX in *. assert (size (pread_spec c o len) <= len); [|lia].
  unfold size, pread_spec. rewrite length_take. lia.
Qed.

Lemma file_max_off : file_max mnt <= OFF_MAX.
Proof. unfold file_max. pose proof Hmax as HM. change PFS_BLOCK_SIZE with (2 ^ 22) in HM. fold B in HM |- *. unfold OFF_MAX. lia. Qed.

Lemma alloc_write_ok s file c pos buf off : open_at s file c pos -> off = OFFSET_FILE_POS \/ 0 <= off -> 0 < size buf ->
  let o := if append then size c else if off =? OFFSET_FILE_POS then pos else off in o + size buf <= file_max mnt ->
  wp (err ← pfs_file_xfallocate mnt file off (size buf) FALLOC_FL_KEEP_SIZE;
      if err <? 0 then mret (err, file) else pfs_file_xpwrite mnt file buf (size buf) off) s
    (fun r s' => kept s s' /\
       (r = (- ENOSPC, file) /\ open_at s' file c pos \/
        r = (size buf, if off =? OFFSET_FILE_POS then set_offset (o + size buf) file else file) /\
        exists m', file_at mnt ino btime s' m' (pwrite_spec c o buf))).
Proof.
  intros [[m Hs] Hb Ha Hp Hr] Hoff Hlen o Hlim. fstep.
  assert (Ho : let off2 := (if f_append file then OFFSET_FILE_SIZE else if off =? OFFSET_FILE_POS then f_offset file else off) in
    off2 = OFFSET_FILE_SIZE /\ o = size c \/ off2 = o /\ 0 <= o).
  { cbv zeta. unfold o. rewrite Ha, Hp. destruct append; [by left|]. right. split; [done|].
    destruct Hoff as [->|Hoff]; [simpl; lia|]. destruct (off =? OFFSET_FILE_POS); lia. }
  eapply (xfallocate_ok mnt ino btime Hfeat Hgeo Hpow Hmax Hrw s m c file off (size buf) _ o); try done.
  - intros s' Hs' Hk. change (- ENOSPC <? 0) with true. cbv iota. fstep. split; [by eapply keeps_kept|]. left. split; [done|]. split; eauto.
  - intros s1 m1 Hs1 _ Hmp Hk1. change (0 <? 0) with false. cbv iota. change (flag_set FALLOC_FL_KEEP_SIZE FALLOC_FL_KEEP_SIZE) with true in Hs1.
    eapply (xpwrite_ok mnt ino btime Hfeat Hgeo Hpow Hmax Hrw Hself s1 m1 c file buf off o); try done.
    intros s2 m2 Hs2 Hk2. split; [exact (kept_trans _ _ _ (keeps_kept _ _ _ _ Hs1 Hk1) (keeps_kept _ _ _ _ Hs2 Hk2))|].
    right. split; [done|]. by exists m2.
Qed.

Lemma write_step s file c pos buf off base op : open_at s file c pos ->
  op = FWrite buf /\ off = OFFSET_FILE_POS /\ base = pos \/ op = FPwrite buf off /\ 0 <= off /\ base = off ->
  op_ok (file_max mnt) append op c pos ->
  wp (r ← (if size buf =? 0 then mret (0, file) else
           if wrap64 (OFF_MAX - base) <? size buf then mret (- EFBIG, file) else
           err ← pfs_file_xfallocate mnt file off (size buf) FALLOC_FL_KEEP_SIZE;
           if err <? 0 then mret (err, file) else pfs_file_xpwrite mnt file buf (size buf) off);
      mret ((fst r, []), snd r)) s (stepped s op c pos).
Proof.
  intros Hs Hop Hok. pose proof (oa_range _ _ _ _ Hs) as Hr. pose proof (size_pos buf) as Hpos. pose proof (size_pos c) as Hpc.
  assert (Hbase : 0 <= base <= OFF_MAX) by (destruct Hop as [(-> & _ & ->)|(-> & _ & ->)]; simpl in Hok; lia).
  rewrite wrap64_small by (unfold is_u64, OFF_MAX in *; lia).
  set (o := if append then size c else if off =? OFFSET_FILE_POS then pos else off).
  assert (Hsp : op_spec append op c pos =
    if size buf =? 0 then ((0, []), c, pos) else if OFF_MAX - base <? size buf then ((- EFBIG, []), c, pos) else
    ((size buf, []), pwrite_spec c o buf, if off =? OFFSET_FILE_POS then o + size buf else pos)).
  { unfold o. destruct Hop as [(-> & -> & ->)|(-> & Hoff & ->)]; [done|]. simpl. unfold OFFSET_FILE_POS.
    by rewrite (proj2 (Z.eqb_neq off (-1))) by lia. }
  fstep. destruct (Z.eqb_spec (size buf) 0) as [E0|E0].
  { do 2 fstep. exists c, pos. split_and!; [by left|done|apply kept_refl]. }
  destruct (Z.ltb_spec (OFF_MAX - base) (size buf)) as [E1|E1].
  { do 2 fstep. exists c, pos. split_and!; [by left|done|apply kept_refl]. }
  assert (Hlim : o + size buf <= file_max mnt /\ 0 <= o /\ (off = OFFSET_FILE_POS \/ 0 <= off)).
  { unfold o. destruct Hop as [(-> & -> & ->)|(-> & Hoff & ->)]; simpl in Hok |- *; [destruct append; split_and!; try lia; by left|].
    unfold OFFSET_FILE_POS. rewrite (proj2 (Z.eqb_neq off (-1))) by lia. destruct append; lia. }
  destruct Hlim as (Hlim & Ho & Hoff). eapply wp_mono; [apply (alloc_write_ok s file c pos buf off Hs Hoff); [lia|exact Hlim]|].
  intros r s' (Hk & [[-> Hs']|[-> [m' Hs']]]); fstep.
  - exists c, pos. split_and!; [|done|done]. right. split_and!; try done. by destruct Hop as [(-> & _)|(-> & _)].
  - eexists _, _. split_and!; [left; exact Hsp| |done]. fold o. pose proof file_max_off. destruct Hs.
    destruct (off =? OFFSET_FILE_POS); (split; [by eauto|done|done|done|simpl; lia]).
Qed.

Lemma truncate_step s file c pos len : open_at s file c pos -> op_ok (file_max mnt) append (FTruncate len) c pos ->
  wp (do_op mnt file (FTruncate len)) s (stepped s (FTruncate len) c pos).
Proof.
  intros [[m Hs] Hb Ha Hp Hr] Hok. unfold do_op. simpl in Hok. do 3 fstep. rewrite (py_size _ _ _ _ _ _ (fa_phy _ _ _ _ _ _ Hs)).
  eapply (xftruncate_ok mnt ino btime Hfeat Hgeo Hpow Hmax Hrw); try done. intros s' m' Hs' Ho Hd. fstep.
  eexists _, _. split_and!; [by left|split; eauto|by apply same_kept].
Qed.

Lemma allocate_step s file c pos mode off len : open_at s file c pos -> op_ok (file_max mnt) append (FAllocate mode off len) c pos ->
  wp (do_op mnt file (FAllocate mode off len)) s (stepped s (FAllocate mode off len) c pos).
Proof.
  intros [[m Hs] Hb Ha Hp Hr] (_ & Hst & Ho & Hl & Hlim). unfold do_op, _pfs_fallocate. fstep.
  eapply (xfallocate_ok mnt ino btime Hfeat Hgeo Hpow Hmax Hrw s m c file off len _ off); try done.
  - by rewrite flag_stale.
  - cbv zeta. rewrite flag_fixed. by right.
  - intros s' Hs' Hk. fstep. exists c, pos. split_and!; [by right|split; eauto|by eapply keeps_kept].
  - intros s' m' Hs' _ _ Hk. fstep. rewrite flag_keep in Hs'. eexists _, _. split_and!; [by left|split; eauto|by eapply keeps_kept].
Qed.

Lemma seek_relative_ok file base off : 0 <= base <= OFF_MAX -> - 2 ^ 63 <= off < 2 ^ 63 ->
  lseek_relative file base off =
    (seek_spec base off, if seek_spec base off <? 0 then file else set_offset (seek_spec base off) file).
Proof.
  intros Hb Ho. unfold lseek_relative, lseek_check, seek_spec, to_i64, OFF_MAX in *. destruct (Z.gtb_spec (base + off) (2 ^ 63 - 1)) as [E|E].
  - replace ((base + off + 2 ^ 63) mod 2 ^ 64 - 2 ^ 63) with (base + off - 2 ^ 64) by (rewrite <- (Z.mod_unique (base + off + 2 ^ 63) (2 ^ 64) 1 (base + off + 2 ^ 63 - 2 ^ 64)); lia).
    rewrite (proj2 (Z.gtb_gt off 0)), (proj2 (Z.ltb_lt _ _)) by lia. done.
  - rewrite Z.mod_small by lia. replace (base + off + 2 ^ 63 - 2 ^ 63) with (base + off) by lia.
    assert ((off >? 0) && (base + off <? base) = false) as ->. { destruct (Z.gtb_spec off 0); [|done]. apply Z.ltb_ge. lia. }
    assert ((off <? 0) && (base + off >? base) = false) as ->.
    { destruct (Z.ltb_spec off 0); [|done]. rewrite Z.gtb_ltb. apply Z.ltb_ge. lia. }
    destruct (Z.ltb_spec (base + off) 0) as [E0|E0]; [done|]. by rewrite (proj2 (Z.ltb_ge (base + off) 0)) by lia.
Qed.

Lemma seek_new_range c pos off whence : - 2 ^ 63 <= off < 2 ^ 63 -> seek_new c pos off whence < 0 \/ 0 <= seek_new c pos off whence <= OFF_MAX.
Proof.
  intros Ho. assert (Hs : forall b, seek_spec b off < 0 \/ 0 <= seek_spec b off <= OFF_MAX).
  { intros b. unfold seek_spec, EOVERFLOW, EINVAL. destruct (Z.gtb_spec (b + off) OFF_MAX); [lia|]. destruct (Z.ltb_spec (b + off) 0); lia. }
  unfold seek_new, EINVAL. repeat case_match; auto; try lia.
  destruct (Z.ltb_spec off 0); [done|]. unfold OFF_MAX. lia.
Qed.

Lemma lseek_ok s m c file pos off whence (Q : Z * pfs_file -> fstate P -> Prop) : file_at mnt ino btime s m c ->
  f_btime file = btime -> f_offset file = pos -> 0 <= pos <= OFF_MAX -> - 2 ^ 63 <= off < 2 ^ 63 ->
  (forall s', file_at mnt ino btime s' m c -> keeps_others mnt s s' m ->
     let new := seek_new c pos off whence in Q (new, if new <? 0 then file else set_offset new file) s') ->
  wp (pfs_file_lseek mnt file off whence) s Q.
Proof.
  intros Hs Hb Hp Hr Hoff HQ. unfold pfs_file_lseek, seek_new in *. pose proof (size_pos c). pose proof file_max_off.
  assert (Hk : keeps_others mnt s s m) by (split; [apply others_refl|done]). pose proof (HQ s Hs Hk) as HQ0. cbv zeta in HQ0.
  destruct (whence =? SEEK_SET).
  { fstep. unfold lseek_check. by destruct (off <? 0) eqn:E; rewrite ?E in HQ0. }
  destruct (whence =? SEEK_CUR).
  { fstep. rewrite Hp, seek_relative_ok by done. exact HQ0. }
  destruct (whence =? SEEK_END); [|by fstep].
  fstep. rewrite Hb. eapply (file_size_ok mnt ino btime Hfeat Hgeo Hrw); [exact Hs|]. intros s' Hs' Hk'.
  rewrite (proj2 (Z.ltb_ge (size c) 0)) by done. fstep. rewrite seek_relative_ok by (pose proof (fa_max _ _ _ _ _ _ Hs); lia). by apply HQ.
Qed.

Lemma seek_step s file c pos off whence : open_at s file c pos -> op_ok (file_max mnt) append (FSeek off whence) c pos ->
  wp (do_op mnt file (FSeek off whence)) s (stepped s (FSeek off whence) c pos).
Proof.
  intros [[m Hs] Hb Ha Hp Hr] Hok. unfold do_op, _pfs_lseek, pfs_file_xlseek. simpl in Hok. do 2 fstep.
  eapply (tls_read_ok mnt ino btime); [exact Hs|]. intros s1 Hs1 Hk1. fstep. eapply lseek_ok; try done. intros s2 Hs2 Hk2 new. do 3 fstep.
  eexists _, _. split_and!; [by left| |].
  - pose proof (seek_new_range c pos off whence Hok) as Hn. fold new in Hn |- *. cbn [fst snd].
    destruct (Z.ltb_spec new 0); (split; [by eauto|done|done|done|lia]).
  - exact (kept_trans _ _ _ (keeps_kept _ _ _ _ Hs1 Hk1) (keeps_kept _ _ _ _ Hs2 Hk2)).
Qed.

Lemma op_refines s file c pos op : open_at s file c pos -> op_ok (file_max mnt) append op c pos ->
  wp (do_op mnt file op) s (stepped s op c pos).
Proof.
  intros Hs Hok. destruct op; try (by apply truncate_step || by apply allocate_step || by apply seek_step).
  - unfold do_op, _pfs_read. apply (read_step s file c pos); auto.
  - unfold do_op, _pfs_pread. apply (read_step s file c pos); auto. right. split; [done|]. by destruct Hok.
  - unfold do_op, _pfs_write. rewrite (oa_pos _ _ _ _ Hs). apply write_step; auto.
  - unfold do_op, _pfs_pwrite. apply write_step; auto. right. split_and!; try done. apply Hok.
Qed.

Lemma ops_refine ops : forall s file c pos, open_at s file c pos -> ops_ok (file_max mnt) append ops c pos ->
  wp (do_ops mnt file ops) s (fun r s' => exists c' pos', ops_run append ops c pos (fst r) c' pos' /\ open_at s' (snd r) c' pos' /\ kept s s').
Proof.
  induction ops as [|op ops IH]; intros s file c pos Hs Hok.
  { simpl do_ops. fstep. exists c, pos. split_and!; [constructor|done|apply kept_refl]. }
  destruct Hok as [Hok Hoks]. simpl do_ops. fstep. eapply wp_mono; [by apply op_refines|].
  intros [x file1] s1 (c1 & pos1 & Hst & Hs1 & Hk1). cbv beta iota. fstep. cbn [fst snd] in *.
  eapply wp_mono; [apply (IH s1 file1 c1 pos1); [done|by eapply Hoks]|]. intros [rs file2] s2 (c2 & pos2 & Hrun & Hs2 & Hk2). fstep.
  exists c2, pos2. split_and!; [by econstructor|done|by eapply kept_trans].
Qed.
End FileOps.
