(* ===== verification/Discard.v ===== *)
(** * The pool of block tags and the discard of free blocks

    Model of the block tags of pfs_meta.cc, of the trees of free blocks in
    pfs_mount.cc, and of the thread that discards them.  A tag that is free
    waits in the tree READY; the discard thread takes tags from there, marks
    them INP in one transaction, trims the blocks on the device, and marks
    the tags NONE in another. *)

From S2P Require Import Prelude Blkio Blktable Alloc Object Inode.

Open Scope pfs_scope.

(** ** Search trees of the C library

    What tsearch(3) documents of the trees: the keys in the order of
    [twalk], and the key at the root. *)
Class TSearch (T : Type) := {
  tempty : T;
  tsearch : Z -> T -> T;
  tdelete : Z -> T -> T;
  twalk : T -> list Z;
  troot : T -> option Z }.

Class TSearchLaws (T : Type) `{TSearch T} := {
  ts_empty : twalk tempty = [];
  ts_search : forall k t x, x ∈ twalk (tsearch k t) <-> x = k \/ x ∈ twalk t;
  ts_delete : forall k t x, x ∈ twalk (tdelete k t) <-> x <> k /\ x ∈ twalk t;
  ts_nodup : forall t, NoDup (twalk t);
  ts_root_none : forall t, troot t = None <-> twalk t = [];
  ts_root_in : forall t k, troot t = Some k -> k ∈ twalk t }.

(** [TNODE_KEY] of a node found by [tfind]. *)
Definition tfind {T} `{TSearch T} (k : Z) (t : T) : bool := bool_decide (k ∈ twalk t).

(** ** The pool *)
Record blkpool (T : Type) := MkPool {
  mnt_anode : anode;
  mnt_blktag : gmap Z (bool * pfs_blktag_phy);
  mnt_bdroot : list T }.
Arguments MkPool {T}. Arguments mnt_anode {T}. Arguments mnt_blktag {T}. Arguments mnt_bdroot {T}.

Section Pool.
Context {T : Type} `{TSearch T}.
Abbreviation pool := (blkpool T).

Definition set_anode (an : anode) (p : pool) : pool := MkPool an (mnt_blktag p) (mnt_bdroot p).
Definition set_blktag (n : Z) (v : bool * pfs_blktag_phy) (p : pool) : pool :=
  MkPool (mnt_anode p) (<[n := v]> (mnt_blktag p)) (mnt_bdroot p).
Definition set_bdroot (bds : Z) (t : T) (p : pool) : pool :=
  MkPool (mnt_anode p) (mnt_blktag p) (<[Z.to_nat bds := t]> (mnt_bdroot p)).

(** ** The trees of a mount *)
Definition bds_ok (bds : Z) : bool := (bds >=? BDS_NONE) && (bds <? BDS_NMAX).

Definition pfs_bd_add (bds btno : Z) (p : pool) : option pool :=
  PFS_ASSERT (bds_ok bds) ;;
  let* t := mnt_bdroot p !! Z.to_nat bds in
  Some (set_bdroot bds (tsearch btno t) p).
Definition pfs_bd_del (bds btno : Z) (p : pool) : option pool :=
  PFS_ASSERT (bds_ok bds) ;;
  let* t := mnt_bdroot p !! Z.to_nat bds in
  Some (set_bdroot bds (tdelete btno t) p).
Definition pfs_bd_find (bds btno : Z) (p : pool) : option Z :=
  PFS_ASSERT (bds_ok bds) ;;
  let* t := mnt_bdroot p !! Z.to_nat bds in
  Some (if tfind btno t then btno else -1).
Definition pfs_bd_get (bds : Z) (p : pool) : option Z :=
  PFS_ASSERT (bds_ok bds) ;;
  let* t := mnt_bdroot p !! Z.to_nat bds in
  Some (match troot t with None => -1 | Some k => k end).

(** ** Tags *)
Definition set_discard (dstatus ndiscard : Z) (bt : pfs_blktag_phy) : pfs_blktag_phy :=
  {| bt_ino := bt_ino bt; bt_blkid := bt_blkid bt; bt_dstatus := dstatus; bt_ndiscard := ndiscard;
     bt_holelen := bt_holelen bt; bt_holeoff := bt_holeoff bt |}.

(** [oid] is the number inside the set of the chunk [ckno]. *)
Definition pfs_metaset_alloc (p : pool) (ckno oid : Z) : bool :=
  match mnt_blktag p !! MONO_MAKE (Z.shiftl ckno btno_shift) oid with
  | Some (used, bt) => if used : bool then false else negb (bt_dstatus bt =? BDS_INP)
  | None => false
  end.

Definition pfs_metaobj_alloc_blktag (mnt : pfs_mount) (p : pool) : option (option Z * pool) :=
  let* val := pfs_bd_get BDS_READY p in
  let* r := (if negb (val =? -1) then
               let* p := pfs_bd_del BDS_READY val p in
               let* an := anode_use_one (mnt_anode p) val in
               Some (Some (val, true), set_anode an p)
             else
               let* r := pfs_anode_alloc (pfs_metaset_alloc p) (mnt_anode p) in
               let '(an, val, err) := r in
               Some (if err =? 0 then Some (val, false) else None, set_anode an p)) in
  match r with
  | (None, p) => Some (None, p)
  | (Some (val, reused), p) =>
      let* mo := mnt_blktag p !! val in
      let '(used, bt) := mo in
      PFS_ASSERT (negb used) ;;
      PFS_ASSERT (if reused : bool then bt_dstatus bt =? BDS_READY else negb (bt_dstatus bt =? BDS_INP)) ;;
      PFS_ASSERT (bt_holeoff bt =? 0) ;;
      PFS_ASSERT (bt_holelen bt =? 0) ;;
      let* hole := pfs_version_has_features mnt PFS_FEATURE_BLKHOLE in
      let bt := set_tag_hole 0 (if hole : bool then mnt_blksize (mnt_geo mnt) else 0) (set_discard BDS_NONE 0 bt) in
      Some (Some val, set_blktag val (true, bt) p)
  end.

Definition pfs_metaobj_free_blktag (btno : Z) (p : pool) : option pool :=
  let* mo := mnt_blktag p !! btno in
  let '(used, bt) := mo in
  PFS_ASSERT (bt_ndiscard bt =? 0) ;;
  PFS_ASSERT (bt_dstatus bt =? BDS_NONE) ;;
  let* p := pfs_bd_add BDS_READY btno p in
  PFS_ASSERT (used : bool) ;;
  let p := set_blktag btno (false, set_tag_hole 0 0 (set_discard BDS_READY 0 bt)) p in
  let* an := pfs_anode_free (mnt_anode p) btno in
  Some (set_anode an p).

(** The index follows a tag that came from the log or was undone. *)
Definition pfs_meta_bd_change_index (btno : Z) (bt : pfs_blktag_phy) (p : pool) : option pool :=
  if bt_dstatus bt =? BDS_READY then
    let* p := pfs_bd_add BDS_READY btno p in pfs_bd_del BDS_INP btno p
  else if bt_dstatus bt =? BDS_INP then
    let* p := pfs_bd_add BDS_INP btno p in pfs_bd_del BDS_READY btno p
  else if bt_dstatus bt =? BDS_NONE then
    let* p := pfs_bd_del BDS_READY btno p in pfs_bd_del BDS_INP btno p
  else None.

(** The index of a freshly loaded set of tags, in the order of the tags. *)
Definition bd_build_one (btno : Z) (mo : bool * pfs_blktag_phy) (p : pool) : option pool :=
  let '(used, bt) := mo in
  if used : bool then Some p else
  if (bt_dstatus bt =? BDS_READY) || (bt_dstatus bt =? BDS_INP) then pfs_bd_add (bt_dstatus bt) btno p
  else if bt_dstatus bt =? BDS_NONE then Some p else None.
Fixpoint pfs_metaset_bd_build_index (mos : list (Z * (bool * pfs_blktag_phy))) (p : pool) : option pool :=
  match mos with
  | [] => Some p
  | (btno, mo) :: mos => let* p := bd_build_one btno mo p in pfs_metaset_bd_build_index mos p
  end.

(** ** Selecting blocks *)
Fixpoint bd_select_ready (n : nat) (bdroot : T) (p : pool) : option (T * pool) :=
  match n with
  | O => Some (bdroot, p)
  | S n =>
      let* btno := pfs_bd_get BDS_READY p in
      if btno >=? 0 then
        let* p := pfs_bd_del BDS_READY btno p in
        bd_select_ready n (tsearch btno bdroot) p
      else Some (bdroot, p)
  end.

(** The tree selected, whether to back off, and the pool. *)
Definition pfs_bd_select (discard_ninp : Z) (bdroot : T) (p : pool) : option (T * bool * pool) :=
  let* inp := mnt_bdroot p !! Z.to_nat BDS_INP in
  match troot inp with
  | Some _ => Some (inp, true, set_bdroot BDS_INP tempty p)
  | None => let* r := bd_select_ready (Z.to_nat discard_ninp) bdroot p in Some (fst r, false, snd r)
  end.

(** ** Marking blocks

    The operation of the transaction on the tag [btno]: whether it was
    marked, and the tag. *)
Definition pfs_meta_bd_mark_inp (btno : Z) (p : pool) : option (bool * pool) :=
  let* mo := mnt_blktag p !! btno in
  let '(used, bt) := mo in
  if bt_dstatus bt =? BDS_READY then
    let* f := pfs_bd_find BDS_READY btno p in
    if f <? 0 then
      PFS_ASSERT (bt_ndiscard bt =? 0) ;;
      Some (true, set_blktag btno (used, set_discard BDS_INP (bt_ndiscard bt + 1) bt) p)
    else Some (false, p)
  else if bt_dstatus bt =? BDS_INP then
    let* f := pfs_bd_find BDS_INP btno p in
    if f <? 0 then
      PFS_ASSERT (bt_ndiscard bt >? 0) ;;
      Some (true, set_blktag btno (used, set_discard BDS_INP (bt_ndiscard bt + 1) bt) p)
    else Some (false, p)
  else if bt_dstatus bt =? BDS_NONE then Some (false, p)
  else None.

Definition pfs_meta_bd_mark_done (btno : Z) (p : pool) : option (bool * pool) :=
  let* mo := mnt_blktag p !! btno in
  let '(used, bt) := mo in
  if bt_dstatus bt =? BDS_INP then
    let* f := pfs_bd_find BDS_INP btno p in
    if f <? 0 then
      PFS_ASSERT (bt_ndiscard bt >? 0) ;;
      Some (true, set_blktag btno (used, set_discard BDS_NONE (bt_ndiscard bt) bt) p)
    else Some (false, p)
  else if (bt_dstatus bt =? BDS_READY) || (bt_dstatus bt =? BDS_NONE) then Some (false, p)
  else None.

(** The walk over the tree collects the tags that changed; they then leave
    the tree. *)
Fixpoint bd_mark_walk (mark : Z -> pool -> option (bool * pool)) (force : bool) (keys : list Z) (changed : T) (p : pool)
    : option (T * pool) :=
  match keys with
  | [] => Some (changed, p)
  | btno :: keys =>
      let* r := mark btno p in
      let '(ok, p) := r in
      bd_mark_walk mark force keys (if negb ok && negb force then tsearch btno changed else changed) p
  end.

(** The loop ends when the tree of changed tags is empty. *)
Fixpoint bd_drop_changed (fuel : nat) (changed bdroot : T) : option (T * T) :=
  match troot changed with
  | None => Some (changed, bdroot)
  | Some key =>
      match fuel with
      | O => None
      | S fuel => bd_drop_changed fuel (tdelete key changed) (tdelete key bdroot)
      end
  end.

Definition bd_mark (mark : Z -> pool -> option (bool * pool)) (force : bool) (bdroot : T) (p : pool) : option (Z * T * pool) :=
  let* r := bd_mark_walk mark force (twalk bdroot) tempty p in
  let '(changed, p) := r in
  let* r := bd_drop_changed (length (twalk changed)) changed bdroot in
  let bdroot := snd r in
  Some (match troot bdroot with None => - ENODATA | Some _ => 0 end, bdroot, p).
Definition pfs_bd_mark_inp (force : bool) := bd_mark pfs_meta_bd_mark_inp force.
Definition pfs_bd_mark_done (force : bool) := bd_mark pfs_meta_bd_mark_done force.

(** ** The transactions

    [rv] is the result of the commit.  A transaction that fails puts the tags
    back and the index follows them. *)
Fixpoint bd_undo (tags : gmap Z (bool * pfs_blktag_phy)) (keys : list Z) (p : pool) : option pool :=
  match keys with
  | [] => Some p
  | btno :: keys =>
      let* mo := tags !! btno in
      let* p := pfs_meta_bd_change_index btno (snd mo) (set_blktag btno mo p) in
      bd_undo tags keys p
  end.
Definition bd_tx (rv : Z) (body : T -> pool -> option (Z * T * pool)) (bdroot : T) (p : pool) : option (Z * T * pool) :=
  let keys := twalk bdroot in
  let tags := mnt_blktag p in
  let* r := body bdroot p in
  let '(err, bdroot, p) := r in
  let err := if err =? 0 then rv else err in
  if err =? 0 then Some (0, bdroot, p) else
  let* p := bd_undo tags keys p in
  Some (err, bdroot, p).

(** ** Trimming

    [trim] is the device: it is given the offset of a block.  The blocks that
    were trimmed, and the error that stopped the walk. *)
Fixpoint bd_execute_walk (trim : Z -> Z) (keys : list Z) (done : list Z) (err : Z) : option (list Z * Z) :=
  match keys with
  | [] => Some (done, err)
  | btno :: keys =>
      if negb (err =? 0) then bd_execute_walk trim keys done err else
      let blkno := btno2blkno btno in
      PFS_ASSERT (negb (blkno mod PFS_NBT_PERCHUNK =? 0)) ;;
      let err := trim (blkno * PFS_BLOCK_SIZE) in
      if err <? 0 then bd_execute_walk trim keys done err
      else bd_execute_walk trim keys (done ++ [btno]) 0
  end.
Definition pfs_bd_execute (trim : Z -> Z) (bdroot : T) : option (list Z * Z) :=
  bd_execute_walk trim (twalk bdroot) [] 0.

(** ** One discard

    [rv1] and [rv2] are the results of the two commits.  The other threads of
    the mount work on the pool between the transactions: [between]. *)
Definition pfs_bd_discard (force : bool) (rv1 rv2 : Z) (between : pool -> pool) (trim : Z -> Z) (bdroot : T) (p : pool)
    : option (Z * list Z * T * pool) :=
  let* r := bd_tx rv1 (pfs_bd_mark_inp force) bdroot p in
  let '(err, bdroot, p) := r in
  if negb (err =? 0) then Some (err, [], bdroot, p) else
  let p := between p in
  let* r := pfs_bd_execute trim bdroot in
  let '(done, err) := r in
  if err <? 0 then Some (err, done, bdroot, p) else
  let* r := bd_tx rv2 (pfs_bd_mark_done force) bdroot p in
  let '(err, bdroot, p) := r in
  Some (err, done, bdroot, p).

(** ** A turn of the discard thread

    Other threads work on the pool between the selection and the first
    transaction, too: [before].  The tree of the thread is empty at the end
    ([pfs_bd_reset]). *)
Definition pfs_bd_thread_turn (discard_ninp rv1 rv2 : Z) (before between : pool -> pool) (trim : Z -> Z) (p : pool)
    : option (list Z * pool) :=
  let* r := pfs_bd_select discard_ninp tempty p in
  let '(bdroot, quiescent, p) := r in
  match troot bdroot with
  | None => Some ([], p)
  | Some _ =>
      let* r := pfs_bd_discard false rv1 rv2 between trim bdroot (before p) in
      let '(err, done, bdroot, p) := r in
      Some (done, p)
  end.

(** ** The selection of pfsadm fstrim: the free tags of a chunk *)
Fixpoint pfs_metaset_bd_select (d_all : bool) (mos : list (Z * (bool * pfs_blktag_phy))) (bdroot : T) (nblk : Z) : T * Z :=
  match mos with
  | [] => (bdroot, nblk)
  | (btno, (used, bt)) :: mos =>
      if used : bool then pfs_metaset_bd_select d_all mos bdroot nblk else
      if negb d_all && (bt_dstatus bt =? BDS_NONE) then pfs_metaset_bd_select d_all mos bdroot nblk else
      pfs_metaset_bd_select d_all mos (tsearch btno bdroot) (nblk + 1)
  end.

#[global] Instance blkpool_ops : BlkPool pool := {
  bp_tag p n := match mnt_blktag p !! n with
                | Some (true, bt) => if n mod 2 ^ btno_shift =? 0 then None else Some bt
                | _ => None end;
  bp_put n bt p := match mnt_blktag p !! n with Some (used, _) => set_blktag n (used, bt) p | None => p end;
  bp_alloc := pfs_metaobj_alloc_blktag;
  bp_free := pfs_metaobj_free_blktag }.
End Pool.

(** ** Trees as sets of keys *)
#[global] Instance gset_tree : TSearch (gset Z) := {
  tempty := ∅;
  tsearch k t := {[k]} ∪ t;
  tdelete k t := t ∖ {[k]};
  twalk t := elements t;
  troot t := head (elements t) }.
#[global] Instance gset_tree_laws : TSearchLaws (gset Z).
Proof.
  split; simpl.
  - apply elements_empty.
  - intros k t x. rewrite !elem_of_elements. set_solver.
  - intros k t x. rewrite !elem_of_elements. set_solver.
  - intros t. apply NoDup_elements.
  - intros t. by destruct (elements t).
  - intros t k E. destruct (elements t); [done|]. injection E as ->. set_solver.
Qed.
