(* ===== verification/DiscardInv.v ===== *)
(** * The pool keeps its invariant, and what is trimmed is not in use

    The tags, the allocation tree and the trees of free blocks agree; every
    operation keeps them so; the pool keeps the promises of [PoolLaws]. *)

From S2P Require Import Prelude Blkio Blktable Alloc Object Inode InodeInv Discard.

Open Scope pfs_scope.

Section PoolInv.
Context (mnt : pfs_mount) {T : Type} `{TSearchLaws T}.
Abbreviation pool := (blkpool T).
Let geo := mnt_geo mnt.
Implicit Types p : blkpool T.

Definition bd_in (p : pool) (bds x : Z) : Prop :=
  match mnt_bdroot p !! Z.to_nat bds with Some t => x ∈ twalk t | None => False end.

(** The discard status of a tag that is free. *)
Definition free_tag (bt : pfs_blktag_phy) : Prop :=
  bt_holeoff bt = 0 /\ bt_holelen bt = 0 /\
  (bt_dstatus bt = BDS_NONE \/ (bt_dstatus bt = BDS_READY /\ bt_ndiscard bt = 0) \/ (bt_dstatus bt = BDS_INP /\ 0 < bt_ndiscard bt)).
Definition used_tag (bt : pfs_blktag_phy) : Prop := bt_dstatus bt = BDS_NONE /\ bt_ndiscard bt = 0.

(** A tag number: the first tag of a chunk is reserved. *)
Definition tagno_ok (n : Z) : Prop :=
  0 <= n /\ n mod 2 ^ btno_shift < PFS_NBT_PERCHUNK /\
  btno2blkno n * mnt_blksize geo + mnt_blksize geo <= mnt_disksize geo.

Record pool_wf (p : pool) : Prop := {
  pw_an : anode_wf (mnt_anode p);
  pw_root : an_id (mnt_anode p) = 0;
  pw_get : forall n ckno oid, is_Some (mnt_blktag p !! n) -> pfs_anode_get (mnt_anode p) n = Some (ckno, oid) ->
    MONO_MAKE (Z.shiftl ckno btno_shift) oid = n;
  pw_free : forall n, obj_free (mnt_anode p) n = true -> is_Some (mnt_blktag p !! n);
  pw_tag : forall n used bt, mnt_blktag p !! n = Some (used, bt) ->
    obj_in (mnt_anode p) n /\ obj_free (mnt_anode p) n = negb used /\ tagno_ok n /\
    (if used : bool then used_tag bt else free_tag bt /\ n mod 2 ^ btno_shift <> 0);
  pw_bds : length (mnt_bdroot p) = 3%nat;
  pw_in : forall bds n, bds = BDS_READY \/ bds = BDS_INP -> bd_in p bds n ->
    exists bt, mnt_blktag p !! n = Some (false, bt) /\ bt_dstatus bt = bds
}.

(** ** The trees *)
Lemma bds_cases bds : bds_ok bds = true -> bds = 0 \/ bds = 1 \/ bds = 2.
Proof. unfold bds_ok, BDS_NONE, BDS_NMAX. rewrite andb_true_iff, Z.geb_le, Z.ltb_lt. lia. Qed.

Lemma bd_tree p bds : length (mnt_bdroot p) = 3%nat -> bds_ok bds = true -> exists t, mnt_bdroot p !! Z.to_nat bds = Some t.
Proof. intros Hl Hb. apply lookup_lt_is_Some. rewrite Hl. destruct (bds_cases _ Hb) as [->|[->| ->]]; simpl; lia. Qed.

Lemma bd_upd p bds t b x : length (mnt_bdroot p) = 3%nat -> bds_ok bds = true -> bds_ok b = true ->
  bd_in (set_bdroot bds t p) b x <-> if b =? bds then x ∈ twalk t else bd_in p b x.
Proof.
  intros Hl Hb Hb'. unfold bd_in, set_bdroot. simpl. destruct (Z.eqb_spec b bds) as [->|Hne].
  - rewrite list_lookup_insert_eq; [done|]. rewrite Hl. destruct (bds_cases _ Hb) as [->|[->| ->]]; simpl; lia.
  - rewrite list_lookup_insert_ne; [done|]. destruct (bds_cases _ Hb) as [->|[->| ->]]; destruct (bds_cases _ Hb') as [->|[->| ->]]; simpl; lia.
Qed.

Lemma bd_add_ok p bds n : length (mnt_bdroot p) = 3%nat -> bds_ok bds = true ->
  exists t, pfs_bd_add bds n p = Some (set_bdroot bds t p) /\
    forall b x, bds_ok b = true -> bd_in (set_bdroot bds t p) b x <-> (b = bds /\ x = n) \/ bd_in p b x.
Proof.
  intros Hl Hb. destruct (bd_tree p bds Hl Hb) as [t Ht]. exists (tsearch n t). unfold pfs_bd_add. rewrite Hb, Ht. split; [done|].
  intros b x Hb'. rewrite bd_upd by done. destruct (Z.eqb_spec b bds) as [->|Hne]; [|tauto].
  rewrite ts_search. unfold bd_in. rewrite Ht. tauto.
Qed.

Lemma bd_del_ok p bds n : length (mnt_bdroot p) = 3%nat -> bds_ok bds = true ->
  exists t, pfs_bd_del bds n p = Some (set_bdroot bds t p) /\
    forall b x, bds_ok b = true -> bd_in (set_bdroot bds t p) b x <-> bd_in p b x /\ ~ (b = bds /\ x = n).
Proof.
  intros Hl Hb. destruct (bd_tree p bds Hl Hb) as [t Ht]. exists (tdelete n t). unfold pfs_bd_del. rewrite Hb, Ht. split; [done|].
  intros b x Hb'. rewrite bd_upd by done. destruct (Z.eqb_spec b bds) as [->|Hne]; [|tauto].
  rewrite ts_delete. unfold bd_in. rewrite Ht. tauto.
Qed.

Lemma bd_find_ok p bds n : length (mnt_bdroot p) = 3%nat -> bds_ok bds = true -> 0 <= n ->
  exists f, pfs_bd_find bds n p = Some f /\ (f < 0 <-> ~ bd_in p bds n).
Proof.
  intros Hl Hb Hn. destruct (bd_tree p bds Hl Hb) as [t Ht]. unfold pfs_bd_find, bd_in, tfind. rewrite Hb, Ht. simpl.
  eexists. split; [done|]. case_bool_decide; split; intros ?; try done; lia.
Qed.

Lemma bd_get_ok p bds : length (mnt_bdroot p) = 3%nat -> bds_ok bds = true -> (forall n, bd_in p bds n -> 0 <= n) ->
  exists v, pfs_bd_get bds p = Some v /\ (v = -1 /\ (forall n, ~ bd_in p bds n) \/ 0 <= v /\ bd_in p bds v).
Proof.
  intros Hl Hb Hn. destruct (bd_tree p bds Hl Hb) as [t Ht]. unfold pfs_bd_get, bd_in in *. rewrite Hb, Ht in *. simpl.
  eexists. split; [done|]. destruct (troot t) as [k|] eqn:E.
  - right. pose proof (ts_root_in t k E). auto.
  - left. split; [done|]. intros n. apply ts_root_none in E. rewrite E. apply not_elem_of_nil.
Qed.

Lemma wf_in_pos p n : pool_wf p -> bd_in p BDS_READY n \/ bd_in p BDS_INP n -> 0 <= n.
Proof.
  intros Hw Hn. assert (exists bt, mnt_blktag p !! n = Some (false, bt)) as [bt Hbt].
  { destruct Hn as [Hn|Hn]; apply (pw_in _ Hw) in Hn; auto; destruct Hn as (bt & ? & _); eauto. }
  destruct (pw_tag _ Hw _ _ _ Hbt) as (_ & _ & [? _] & _). done.
Qed.

(** ** Numbers of tags and of blocks *)
Lemma tagno_round n : 0 <= n -> n mod 2 ^ btno_shift < PFS_NBT_PERCHUNK -> n mod 2 ^ btno_shift <> 0 ->
  0 < btno2blkno n /\ blkno2btno (btno2blkno n) = n /\ btno2blkno n mod PFS_NBT_PERCHUNK <> 0.
Proof.
  intros Hn Hlt Hne. unfold btno2blkno, blkno2btno. rewrite !Z.shiftl_mul_pow2, Z.shiftr_div_pow2 by done.
  change (2 ^ btno_shift) with 4096 in *. pose proof (Z.div_mod n 4096 ltac:(lia)). pose proof (Z.mod_pos_bound n 4096 ltac:(lia)).
  pose proof (Z.div_pos n 4096 Hn ltac:(lia)). replace (n - n / 4096 * 4096) with (n mod 4096) by lia.
  unfold PFS_NBT_PERCHUNK in *. rewrite (Z.add_comm (n / 4096 * 2560)), Z.div_add, Z.mod_add by lia.
  rewrite (Z.div_small (n mod 4096) 2560), (Z.mod_small (n mod 4096) 2560) by lia. lia.
Qed.

(** ** Updates of one tag *)
Lemma upd_refl an n : anode_wf an -> anode_upd an an n (obj_free an n).
Proof. intros Hw. split; try done; [lia|]. intros r. by destruct (Z.eqb_spec r n) as [->|]. Qed.

Lemma wf_upd p an' n used' bt' roots :
  let p' := MkPool an' (<[n := (used', bt')]> (mnt_blktag p)) roots in
  pool_wf p -> is_Some (mnt_blktag p !! n) -> anode_upd (mnt_anode p) an' n (negb used') ->
  (if used' : bool then used_tag bt' else free_tag bt' /\ n mod 2 ^ btno_shift <> 0) -> length roots = 3%nat ->
  (forall bds x, bds = BDS_READY \/ bds = BDS_INP -> bd_in p' bds x ->
     if decide (x = n) then used' = false /\ bt_dstatus bt' = bds else bd_in p bds x) ->
  pool_wf p'.
Proof.
  intros p' Hw [[used bt] Hn] Hu Htag Hl Hin. destruct (pw_tag _ Hw _ _ _ Hn) as (Hi & Hf & Hno & _).
  split; simpl; [apply Hu|by rewrite (u_id _ _ _ _ Hu), (pw_root _ Hw)|..].
  - intros k ckno oid Hk. rewrite (u_get _ _ _ _ Hu). apply Hw. apply lookup_insert_is_Some in Hk as [->|[_ Hk]]; [by eauto|done].
  - intros k. rewrite (u_free _ _ _ _ Hu). destruct (Z.eqb_spec k n) as [->|Hne]; [by rewrite lookup_insert_eq|].
    rewrite lookup_insert_ne by done. by apply Hw.
  - intros k u b [[<- E]|[Hne Hk]]%lookup_insert_Some.
    + injection E as <- <-. split_and!; [by apply (u_in _ _ _ _ Hu)|by rewrite (u_free _ _ _ _ Hu), Z.eqb_refl|done|done].
    + destruct (pw_tag _ Hw _ _ _ Hk) as (Hi' & Hf' & Hno' & Ht'). split_and!; [by apply (u_in _ _ _ _ Hu)| |done|done].
      by rewrite (u_free _ _ _ _ Hu), (proj2 (Z.eqb_neq k n)) by done.
  - done.
  - intros bds x Hb Hx. specialize (Hin bds x Hb Hx). case_decide as E.
    + subst x. destruct Hin as [-> Hs]. exists bt'. by rewrite lookup_insert_eq.
    + rewrite lookup_insert_ne by done. by apply Hw.
Qed.

(** The tags of files are those the inodes see. *)
Lemma tag_upd p an' n v roots k : n mod 2 ^ btno_shift <> 0 ->
  bp_tag (MkPool an' (<[n := v]> (mnt_blktag p)) roots) k =
  if k =? n then (if fst v : bool then Some (snd v) else None) else bp_tag p k.
Proof.
  intros Hne. simpl. destruct (Z.eqb_spec k n) as [->|Hk].
  - rewrite lookup_insert_eq. destruct v as [[] bt]; [|done]. by rewrite (proj2 (Z.eqb_neq _ _)) by done.
  - by rewrite lookup_insert_ne.
Qed.

(** ** Allocation *)
Lemma alloc_blktag_ok p : pool_wf p -> pfs_version_has_features mnt PFS_FEATURE_BLKHOLE = Some true ->
  pfs_metaobj_alloc_blktag mnt p = Some (None, p) \/
  exists n an' roots bt0, let bt := set_tag_hole 0 (mnt_blksize geo) (set_discard BDS_NONE 0 bt0) in
    let p' := MkPool an' (<[n := (true, bt)]> (mnt_blktag p)) roots in
    pfs_metaobj_alloc_blktag mnt p = Some (Some n, p') /\ mnt_blktag p !! n = Some (false, bt0) /\ bt_dstatus bt0 <> BDS_INP /\ pool_wf p' /\
    (forall x, bd_in p' BDS_INP x -> bd_in p BDS_INP x).
Proof.
  intros Hw Hfeat. unfold pfs_metaobj_alloc_blktag.
  destruct (bd_get_ok p BDS_READY (pw_bds _ Hw) eq_refl) as (v & -> & Hv); [intros n Hn; eapply wf_in_pos; eauto|]. cbn [mbind option_bind].
  destruct Hv as [[-> Hnone]|[Hv Hin]].
  - change (negb (-1 =? -1)) with false. cbv iota.
    destruct (alloc_ok (pfs_metaset_alloc p) (mnt_anode p) (pw_an _ Hw)) as (an' & val & rv & -> & [(-> & rel & Ev & Hr & Hf & Ha & Hu)|(Hrv & -> & _)]); cbn [mbind option_bind].
    2:{ left. rewrite (proj2 (Z.eqb_neq rv 0)) by lia. by destruct p. }
    right. rewrite (pw_root _ Hw), Z.shiftl_0_l in Ev. unfold MONO_MAKE in Ev. rewrite Z.lor_0_l in Ev. subst rel.
    destruct (pw_free _ Hw _ Hf) as [[used bt0] Hn]. destruct (pw_tag _ Hw _ _ _ Hn) as (_ & Hf' & _ & Htag).
    rewrite Hf in Hf'. destruct used; [done|]. destruct Htag as [(Hho & Hhl & Hds) Hne].
    assert (Hinp : bt_dstatus bt0 <> BDS_INP).
    { unfold accepts in Ha. destruct (pfs_anode_get (mnt_anode p) val) as [[ckno oid]|] eqn:Eg; [|done].
      unfold pfs_metaset_alloc in Ha. rewrite (pw_get _ Hw _ _ _ (pw_free _ Hw _ Hf) Eg), Hn in Ha. apply negb_true_iff, Z.eqb_neq in Ha. done. }
    exists val, an', (mnt_bdroot p), bt0. simpl. rewrite Hn. simpl. rewrite (proj2 (Z.eqb_neq _ _) Hinp), Hho, Hhl, Hfeat. simpl.
    split_and!; try done. refine (wf_upd p an' val true _ _ Hw _ Hu _ (pw_bds _ Hw) _); [by eauto|done|]. intros bds x Hb Hx. change (bd_in p bds x) in Hx.
    case_decide as E; [|done]. subst x. exfalso. destruct Hb as [->| ->]; [by eapply Hnone|].
    destruct (pw_in _ Hw BDS_INP val (or_intror eq_refl) Hx) as (bt1 & Hn1 & Hs1). rewrite Hn in Hn1. injection Hn1 as <-. done.
  - rewrite (proj2 (Z.eqb_neq v (-1))) by lia. cbn [negb]. cbv iota.
    destruct (bd_del_ok p BDS_READY v (pw_bds _ Hw) eq_refl) as (t & -> & Ht). cbn [mbind option_bind].
    destruct (pw_in _ Hw BDS_READY v (or_introl eq_refl) Hin) as (bt0 & Hn & Hs). destruct (pw_tag _ Hw _ _ _ Hn) as (_ & Hf & _ & (Hho & Hhl & _) & Hne).
    destruct (use_one_ok (mnt_anode p) v (pw_an _ Hw) Hf) as (an' & Euse & Hu). simpl. rewrite Euse. simpl. rewrite Hn. simpl.
    rewrite Hs, Hho, Hhl, Hfeat. simpl. right. exists v, an', (<[Z.to_nat BDS_READY := t]> (mnt_bdroot p)), bt0. split_and!; [done|done|by rewrite Hs| |intros x Hx; by apply Ht in Hx as [? _]].
    refine (wf_upd p an' v true _ _ Hw _ Hu _ _ _); [by eauto|done|simpl; by rewrite length_insert, (pw_bds _ Hw)|]. intros bds x Hb Hx.
    change (bd_in (set_bdroot BDS_READY t p) bds x) in Hx. apply Ht in Hx as [Hx Hnx]; [|by destruct Hb as [->| ->]].
    case_decide as E; [|done]. subst x. exfalso. destruct Hb as [->| ->]; [by apply Hnx|].
    destruct (pw_in _ Hw BDS_INP v (or_intror eq_refl) Hx) as (bt1 & Hn1 & Hs1). rewrite Hn in Hn1. injection Hn1 as <-. by rewrite Hs in Hs1.
Qed.

(** ** Release *)
Lemma free_blktag_ok p n bt : pool_wf p -> mnt_blktag p !! n = Some (true, bt) -> n mod 2 ^ btno_shift <> 0 ->
  exists an' roots, let p' := MkPool an' (<[n := (false, set_tag_hole 0 0 (set_discard BDS_READY 0 bt))]> (mnt_blktag p)) roots in
    pfs_metaobj_free_blktag n p = Some p' /\ pool_wf p' /\ (forall x, bd_in p' BDS_INP x -> bd_in p BDS_INP x).
Proof.
  intros Hw Hn Hne. unfold pfs_metaobj_free_blktag. rewrite Hn. cbn [mbind option_bind].
  destruct (pw_tag _ Hw _ _ _ Hn) as (Hi & Hf & Hno & Hds & Hnd). rewrite Hds, Hnd. simpl.
  destruct (bd_add_ok p BDS_READY n (pw_bds _ Hw) eq_refl) as (t & -> & Ht). simpl.
  destruct (free_ok (mnt_anode p) n (pw_an _ Hw) Hi Hf) as (an' & -> & Hu). simpl. eexists _, _. split; [done|].
  split; [|intros x Hx; apply Ht in Hx as [[? _]|?]; done].
  refine (wf_upd p an' n false _ _ Hw _ Hu _ _ _); [by eauto| |simpl; by rewrite length_insert, (pw_bds _ Hw)|].
  - split; [|done]. split_and!; [done|done|]. right. left. done.
  - intros bds x Hb Hx. change (bd_in (set_bdroot BDS_READY t p) bds x) in Hx. apply Ht in Hx; [|by destruct Hb as [->| ->]].
    case_decide as E; [|by destruct Hx as [[_ ?]|?]]. subst x. split; [done|]. destruct Hx as [[-> _]|Hx]; [done|].
    destruct (pw_in _ Hw bds n Hb Hx) as (bt1 & Hn1 & _). by rewrite Hn in Hn1.
Qed.

(** A tag in use is changed, its discard state kept. *)
Lemma put_tag_ok p n bt0 bt : pool_wf p -> mnt_blktag p !! n = Some (true, bt0) -> bt_dstatus bt = bt_dstatus bt0 -> bt_ndiscard bt = bt_ndiscard bt0 ->
  pool_wf (set_blktag n (true, bt) p).
Proof.
  intros Hw Hn Hs Hd. destruct (pw_tag _ Hw _ _ _ Hn) as (Hi & Hf & Hno & Hus & Hun).
  refine (wf_upd p _ n true bt _ Hw _ _ _ (pw_bds _ Hw) _); [by eauto| |split; congruence|].
  - pose proof (upd_refl _ n (pw_an _ Hw)) as Hu. by rewrite Hf in Hu.
  - intros bds x Hb Hx. change (bd_in p bds x) in Hx. case_decide as E; [|done]. subst x.
    destruct (pw_in _ Hw bds n Hb Hx) as (bt1 & Hn1 & _). by rewrite Hn in Hn1.
Qed.

#[global] Instance blkpool_laws : PoolLaws mnt pool.
Proof.
  refine {| bp_wf := pool_wf |}.
  - intros p n bt Hw Ht. simpl in Ht. destruct (mnt_blktag p !! n) as [[[] bt']|] eqn:Hn; try done.
    destruct (Z.eqb_spec (n mod 2 ^ btno_shift) 0) as [|Hne]; [done|]. destruct (pw_tag _ Hw _ _ _ Hn) as (_ & _ & (Hp & Hlt & Hd) & _).
    destruct (tagno_round n Hp Hlt Hne) as (? & ? & _). done.
  - intros p n bt0 bt Hw Ht Hs Hd. simpl in Ht |- *. destruct (mnt_blktag p !! n) as [[[] bt']|] eqn:Hn; try done.
    destruct (Z.eqb_spec (n mod 2 ^ btno_shift) 0) as [|Hne]; [done|]. injection Ht as ->. split; [by eapply put_tag_ok|].
    intros k. apply (tag_upd p (mnt_anode p) n (true, bt) (mnt_bdroot p) k Hne).
  - intros p Hw Hfeat. destruct (alloc_blktag_ok p Hw Hfeat) as [|(n & an' & roots & bt0 & Ha & Hn & _ & Hw' & _)]; [by left|]. right.
    destruct (pw_tag _ Hw _ _ _ Hn) as (_ & _ & _ & _ & Hne). eexists n, _, (set_tag_hole 0 (mnt_blksize geo) (set_discard BDS_NONE 0 bt0)).
    split_and!; [exact Ha|done|simpl; by rewrite Hn|done|done|].
    intros k. apply (tag_upd p an' n (true, _) roots k Hne).
  - intros p n bt Hw Ht. simpl in Ht. destruct (mnt_blktag p !! n) as [[[] bt']|] eqn:Hn; try done.
    destruct (Z.eqb_spec (n mod 2 ^ btno_shift) 0) as [|Hne]; [done|]. injection Ht as ->.
    destruct (free_blktag_ok p n bt Hw Hn Hne) as (an' & roots & Hf & Hw' & _). eexists. split_and!; [exact Hf|done|].
    intros k. apply (tag_upd p an' n (false, _) roots k Hne).
Defined.
End PoolInv.
