(* ===== verification/DiscardSafe.v ===== *)
(** * Discarding free blocks is safe

    A block is trimmed only while its tag is free, whatever the other threads
    of the mount allocate and release meanwhile. *)

From S2P Require Import Prelude Blkio Blktable Alloc Object Inode InodeInv Discard DiscardInv.

Open Scope pfs_scope.

Section DiscardSafe.
Context (mnt : pfs_mount) {T : Type} `{TSearchLaws T}.
Abbreviation pool := (blkpool T).
Implicit Types p : blkpool T.
Abbreviation wf := (pool_wf mnt).

(** The tags that are marked may not be allocated, and no tree has them. *)
Definition marked p (k : Z) : Prop :=
  exists bt, mnt_blktag p !! k = Some (false, bt) /\ bt_dstatus bt = BDS_INP /\ ~ bd_in p BDS_INP k.

(** Only discard states differ. *)
Definition same_use p p' : Prop :=
  mnt_bdroot p' = mnt_bdroot p /\ forall k, fst <$> mnt_blktag p' !! k = fst <$> mnt_blktag p !! k.
Lemma same_use_refl p : same_use p p.
Proof. done. Qed.
Lemma same_use_trans p p1 p2 : same_use p p1 -> same_use p1 p2 -> same_use p p2.
Proof. intros [E1 H1] [E2 H2]. split; [congruence|]. intros k. by rewrite H2. Qed.

(** The discard state of a free tag that no tree has is changed. *)
Lemma set_discard_ok p k bt ds nd : wf p -> mnt_blktag p !! k = Some (false, bt) -> ~ bd_in p BDS_READY k -> ~ bd_in p BDS_INP k ->
  ds = BDS_NONE \/ (ds = BDS_INP /\ 0 < nd) ->
  let p' := set_blktag k (false, set_discard ds nd bt) p in wf p' /\ same_use p p'.
Proof.
  intros Hw Hk Hr Hi Hds p'. destruct (pw_tag _ _ Hw _ _ _ Hk) as (_ & Hf & _ & (Hho & Hhl & _) & Hne). split.
  - refine (wf_upd mnt p _ k false _ _ Hw _ _ _ (pw_bds _ _ Hw) _); [by eauto| | |].
    + pose proof (upd_refl _ k (pw_an _ _ Hw)) as Hu. by rewrite Hf in Hu.
    + split; [|done]. split_and!; [done|done|]. simpl. destruct Hds as [->|[-> ?]]; [by left|by right; right].
    + intros bds x Hb Hx. change (bd_in p bds x) in Hx. case_decide; [|done]. subst x. by destruct Hb as [->| ->].
  - split; [done|]. intros x. simpl. destruct (decide (x = k)) as [->|]; [by rewrite lookup_insert_eq, Hk|by rewrite lookup_insert_ne].
Qed.

(** What marking one tag does. *)
Definition marks (mark : Z -> pool -> option (bool * pool)) (done : pool -> Z -> Prop) : Prop :=
  forall k p, wf p -> is_Some (mnt_blktag p !! k) ->
  exists ok p', mark k p = Some (ok, p') /\ wf p' /\ same_use p p' /\
    (forall x, x <> k -> mnt_blktag p' !! x = mnt_blktag p !! x) /\ (ok = true -> done p' k).

Lemma not_in_other p k bt bds : wf p -> mnt_blktag p !! k = Some (false, bt) -> bds = BDS_READY \/ bds = BDS_INP ->
  bt_dstatus bt <> bds -> ~ bd_in p bds k.
Proof. intros Hw Hk Hb Hne Hin. destruct (pw_in _ _ Hw bds k Hb Hin) as (bt' & Hk' & E). rewrite Hk in Hk'. by injection Hk' as ->. Qed.

Lemma mark_inp_marks : marks pfs_meta_bd_mark_inp marked.
Proof.
  intros k p Hw [[used bt] Hk]. unfold pfs_meta_bd_mark_inp. rewrite Hk. cbn [mbind option_bind].
  destruct (pw_tag _ _ Hw _ _ _ Hk) as (_ & _ & (Hpos & _) & Htag).
  assert (Hskip : exists ok p', Some (false, p) = Some (ok, p') /\ wf p' /\ same_use p p' /\
    (forall x, x <> k -> mnt_blktag p' !! x = mnt_blktag p !! x) /\ (ok = true -> marked p' k)) by (by eexists _, _).
  assert (Hmark : forall nd, used = false -> ~ bd_in p BDS_READY k -> ~ bd_in p BDS_INP k -> 0 < nd ->
    exists ok p', Some (true, set_blktag k (used, set_discard BDS_INP nd bt) p) = Some (ok, p') /\ wf p' /\ same_use p p' /\
    (forall x, x <> k -> mnt_blktag p' !! x = mnt_blktag p !! x) /\ (ok = true -> marked p' k)).
  { intros nd -> Hr Hi Hnd. eexists _, _. split; [done|]. destruct (set_discard_ok p k bt BDS_INP nd Hw Hk Hr Hi (or_intror (conj eq_refl Hnd))) as [? ?].
    split_and!; try done; [intros x Hx; simpl; by rewrite lookup_insert_ne|]. intros _. eexists. simpl. rewrite lookup_insert_eq. done. }
  destruct used.
  { destruct Htag as [Hds _]. by rewrite Hds. }
  destruct Htag as [(_ & _ & [Hds|[[Hds Hnd]|[Hds Hnd]]]) _]; rewrite Hds; simpl; [done| |].
  - destruct (bd_find_ok p BDS_READY k (pw_bds _ _ Hw) eq_refl Hpos) as (f & -> & Hf). simpl.
    destruct (Z.ltb_spec f 0); [|done]. rewrite Hnd. simpl. apply Hmark; [done|tauto| |done]. eapply not_in_other; eauto. by rewrite Hds.
  - destruct (bd_find_ok p BDS_INP k (pw_bds _ _ Hw) eq_refl Hpos) as (f & -> & Hf). simpl.
    destruct (Z.ltb_spec f 0); [|done]. rewrite (proj2 (Z.gtb_gt _ 0)) by lia. apply Hmark; [done| |tauto|lia]. eapply not_in_other; eauto. by rewrite Hds.
Qed.

(** A tag that is done is free. *)
Definition unused p (k : Z) : Prop := exists bt, mnt_blktag p !! k = Some (false, bt).

Lemma mark_done_marks : marks pfs_meta_bd_mark_done unused.
Proof.
  intros k p Hw [[used bt] Hk]. unfold pfs_meta_bd_mark_done. rewrite Hk. cbn [mbind option_bind].
  destruct (pw_tag _ _ Hw _ _ _ Hk) as (_ & _ & (Hpos & _) & Htag).
  assert (Hskip : exists ok p', Some (false, p) = Some (ok, p') /\ wf p' /\ same_use p p' /\
    (forall x, x <> k -> mnt_blktag p' !! x = mnt_blktag p !! x) /\ (ok = true -> unused p' k)) by (by eexists _, _).
  destruct used.
  { destruct Htag as [Hds _]. by rewrite Hds. }
  destruct Htag as [(_ & _ & [Hds|[[Hds Hnd]|[Hds Hnd]]]) _]; rewrite Hds; simpl; [done|done|].
  destruct (bd_find_ok p BDS_INP k (pw_bds _ _ Hw) eq_refl Hpos) as (f & -> & Hf). simpl.
  destruct (Z.ltb_spec f 0); [|done]. rewrite (proj2 (Z.gtb_gt _ 0)) by lia.
  destruct (set_discard_ok p k bt BDS_NONE (bt_ndiscard bt) Hw Hk) as [? ?]; [|tauto|by left|].
  { eapply not_in_other; eauto. by rewrite Hds. }
  eexists _, _. split; [done|]. split_and!; try done; [intros x Hx; simpl; by rewrite lookup_insert_ne|].
  intros _. eexists. simpl. by rewrite lookup_insert_eq.
Qed.

(** ** A transaction over a tree *)
Section Mark.
Context (mark : Z -> pool -> option (bool * pool)) (done : pool -> Z -> Prop).
Hypothesis Hmark : marks mark done.
Hypothesis Hdone : forall p p' k, done p k -> mnt_blktag p' !! k = mnt_blktag p !! k -> mnt_bdroot p' = mnt_bdroot p -> done p' k.

Lemma mark_walk_ok keys : forall changed p, wf p -> NoDup keys -> (forall k, k ∈ keys -> is_Some (mnt_blktag p !! k)) ->
  exists changed' p', bd_mark_walk mark false keys changed p = Some (changed', p') /\ wf p' /\ same_use p p' /\
    (forall x, x ∉ keys -> mnt_blktag p' !! x = mnt_blktag p !! x) /\
    (forall x, x ∈ twalk changed -> x ∈ twalk changed') /\
    (forall k, k ∈ keys -> k ∈ twalk changed' \/ done p' k).
Proof.
  induction keys as [|k keys IH]; intros changed p Hw Hnd Hex.
  { exists changed, p. split_and!; try done. by intros k ?%elem_of_nil. }
  apply NoDup_cons in Hnd as [Hk Hnd]. simpl. destruct (Hmark k p Hw) as (ok & p1 & -> & Hw1 & Hs1 & Ho1 & Hd1); [set_solver|]. simpl.
  destruct (IH (if negb ok && true then tsearch k changed else changed) p1 Hw1 Hnd) as (ch & p2 & -> & Hw2 & Hs2 & Ho2 & Hc2 & Hd2).
  { intros x Hx. rewrite Ho1 by set_solver. set_solver. }
  exists ch, p2. split_and!; try done.
  - by eapply same_use_trans.
  - intros x Hx. rewrite Ho2, Ho1 by set_solver. done.
  - intros x Hx. apply Hc2. destruct ok; simpl; [done|]. apply ts_search. by right.
  - intros x [->|Hx]%elem_of_cons; [|by apply Hd2]. destruct ok.
    + right. eapply Hdone; [by apply Hd1|by apply Ho2|apply Hs2].
    + left. apply Hc2. simpl. apply ts_search. by left.
Qed.

Lemma drop_changed_ok fuel : forall changed bdroot, (length (twalk changed) <= fuel)%nat ->
  exists c' bdroot', bd_drop_changed fuel changed bdroot = Some (c', bdroot') /\
    forall x, x ∈ twalk bdroot' <-> x ∈ twalk bdroot /\ x ∉ twalk changed.
Proof.
  induction fuel as [|fuel IH]; intros changed bdroot Hl; simpl; destruct (troot changed) as [k|] eqn:E.
  - apply ts_root_in in E. destruct (twalk changed); [by apply elem_of_nil in E|simpl in Hl; lia].
  - apply ts_root_none in E. eexists _, _. split; [done|]. intros x. rewrite E. set_solver.
  - apply ts_root_in in E. destruct (IH (tdelete k changed) (tdelete k bdroot)) as (c' & b' & -> & Hb).
    + assert (twalk changed ≡ₚ k :: twalk (tdelete k changed)) as Hp.
      { apply NoDup_Permutation; [apply ts_nodup| |].
        - apply NoDup_cons. split; [rewrite ts_delete; tauto|apply ts_nodup].
        - intros x. rewrite elem_of_cons, ts_delete. destruct (decide (x = k)); naive_solver. }
      rewrite Hp in Hl. simpl in Hl. lia.
    + exists c', b'. split; [done|]. intros x. rewrite Hb, !ts_delete. destruct (decide (x = k)); naive_solver.
  - apply ts_root_none in E. eexists _, _. split; [done|]. intros x. rewrite E. set_solver.
Qed.

Lemma bd_mark_ok bdroot p : wf p -> (forall k, k ∈ twalk bdroot -> is_Some (mnt_blktag p !! k)) ->
  exists err bdroot' p', bd_mark mark false bdroot p = Some (err, bdroot', p') /\ wf p' /\ same_use p p' /\ err <= 0 /\
    (forall x, x ∉ twalk bdroot -> mnt_blktag p' !! x = mnt_blktag p !! x) /\
    (forall k, k ∈ twalk bdroot' -> k ∈ twalk bdroot /\ done p' k).
Proof.
  intros Hw Hex. unfold bd_mark. destruct (mark_walk_ok (twalk bdroot) tempty p Hw (ts_nodup _) Hex) as (ch & p1 & -> & Hw1 & Hs1 & Ho1 & _ & Hd1).
  simpl. destruct (drop_changed_ok (length (twalk ch)) ch bdroot) as (c' & b' & -> & Hb); [done|]. simpl.
  eexists _, _, _. split; [done|]. split_and!; try done; [by destruct (troot b')|]. intros k [Hk Hn]%Hb. split; [done|].
  by destruct (Hd1 k Hk).
Qed.
End Mark.

(** ** Undoing *)
Lemma change_index_ok p k used btc bt : wf p -> mnt_blktag p !! k = Some (used, btc) ->
  (if used : bool then used_tag bt else free_tag bt /\ k mod 2 ^ btno_shift <> 0) ->
  exists roots, let p' := MkPool (mnt_anode p) (<[k := (used, bt)]> (mnt_blktag p)) roots in
    pfs_meta_bd_change_index k bt (set_blktag k (used, bt) p) = Some p' /\ wf p'.
Proof.
  intros Hw Hk Htag. destruct (pw_tag _ _ Hw _ _ _ Hk) as (_ & Hf & _ & _). set (p1 := set_blktag k (used, bt) p).
  pose proof (pw_bds _ _ Hw) as Hl. change (length (mnt_bdroot p1) = 3%nat) in Hl.
  assert (Hend : forall roots, length roots = 3%nat ->
    (forall bds x, bds = BDS_READY \/ bds = BDS_INP -> bd_in (MkPool (mnt_anode p) (mnt_blktag p1) roots) bds x ->
       if decide (x = k) then used = false /\ bt_dstatus bt = bds else bd_in p bds x) ->
    wf (MkPool (mnt_anode p) (<[k := (used, bt)]> (mnt_blktag p)) roots)).
  { intros roots Hlr Hin. refine (wf_upd mnt p _ k used bt roots Hw _ _ Htag Hlr Hin); [by eauto|].
    pose proof (upd_refl _ k (pw_an _ _ Hw)) as Hu. by rewrite Hf in Hu. }
  assert (Huse : bt_dstatus bt <> BDS_NONE -> used = false) by (destruct used; [by intros []; apply Htag|done]).
  unfold pfs_meta_bd_change_index.
  assert (Hds : bt_dstatus bt = BDS_READY \/ bt_dstatus bt = BDS_INP \/ bt_dstatus bt = BDS_NONE).
  { destruct used; [right; right; apply Htag|]. destruct Htag as [(_ & _ & Hd) _]. naive_solver. }
  destruct Hds as [E|[E|E]]; rewrite E in *; simpl.
  - destruct (bd_add_ok p1 BDS_READY k Hl eq_refl) as (t & -> & Ht). simpl.
    destruct (bd_del_ok (set_bdroot BDS_READY t p1) BDS_INP k) as (t' & -> & Ht'); [simpl; by rewrite length_insert|done|].
    eexists. split; [done|]. apply Hend; [simpl; by rewrite !length_insert|]. intros bds x Hb Hx.
    assert (Hok : bds_ok bds = true) by (by destruct Hb as [->| ->]). apply (Ht' bds x Hok) in Hx as [Hx Hn]. apply (Ht bds x Hok) in Hx.
    case_decide; [subst x|]; destruct Hb as [->| ->]; [by auto|tauto|by destruct Hx as [[_ ?]|?]..].
  - destruct (bd_add_ok p1 BDS_INP k Hl eq_refl) as (t & -> & Ht). simpl.
    destruct (bd_del_ok (set_bdroot BDS_INP t p1) BDS_READY k) as (t' & -> & Ht'); [simpl; by rewrite length_insert|done|].
    eexists. split; [done|]. apply Hend; [simpl; by rewrite !length_insert|]. intros bds x Hb Hx.
    assert (Hok : bds_ok bds = true) by (by destruct Hb as [->| ->]). apply (Ht' bds x Hok) in Hx as [Hx Hn]. apply (Ht bds x Hok) in Hx.
    case_decide; [subst x|]; destruct Hb as [->| ->]; [tauto|by auto|by destruct Hx as [[_ ?]|?]..].
  - destruct (bd_del_ok p1 BDS_READY k Hl eq_refl) as (t & -> & Ht). simpl.
    destruct (bd_del_ok (set_bdroot BDS_READY t p1) BDS_INP k) as (t' & -> & Ht'); [simpl; by rewrite length_insert|done|].
    eexists. split; [done|]. apply Hend; [simpl; by rewrite !length_insert|]. intros bds x Hb Hx.
    assert (Hok : bds_ok bds = true) by (by destruct Hb as [->| ->]). apply (Ht' bds x Hok) in Hx as [Hx Hn]. apply (Ht bds x Hok) in Hx as [Hx Hn'].
    case_decide; [subst x|]; destruct Hb as [->| ->]; tauto || done.
Qed.

Lemma undo_ok p0 keys : wf p0 -> forall p, wf p -> (forall k, fst <$> mnt_blktag p !! k = fst <$> mnt_blktag p0 !! k) ->
  (forall k, k ∈ keys -> is_Some (mnt_blktag p0 !! k)) ->
  exists p', bd_undo (mnt_blktag p0) keys p = Some p' /\ wf p' /\
    (forall k, mnt_blktag p' !! k = if decide (k ∈ keys) then mnt_blktag p0 !! k else mnt_blktag p !! k).
Proof.
  intros Hw0. induction keys as [|k keys IH]; intros p Hw Hu Hex.
  { exists p. split_and!; try done. }
  simpl. destruct (Hex k ltac:(set_solver)) as [[used bt] Hk]. rewrite Hk. cbn [mbind option_bind snd].
  pose proof (Hu k) as Huk. rewrite Hk in Huk. destruct (mnt_blktag p !! k) as [[u btc]|] eqn:Hkp; [|done]. simpl in Huk. injection Huk as ->.
  destruct (pw_tag _ _ Hw0 _ _ _ Hk) as (_ & _ & _ & Htag). destruct (change_index_ok p k used btc bt Hw Hkp Htag) as (roots & -> & Hw1). simpl.
  destruct (IH _ Hw1) as (p' & -> & Hw' & Ht'); [| |exists p'; split_and!; try done].
  - intros x. simpl. destruct (decide (x = k)) as [->|]; [by rewrite lookup_insert_eq, Hk|by rewrite lookup_insert_ne].
  - intros x Hx. apply Hex. set_solver.
  - intros x. rewrite Ht'. simpl. destruct (decide (x = k)) as [->|Hne].
    + rewrite lookup_insert_eq, Hk. rewrite (decide_True (P := k ∈ k :: keys)) by set_solver. by case_decide.
    + rewrite lookup_insert_ne by done. by repeat case_decide; set_solver.
Qed.

(** ** What other threads do *)
Inductive pool_step : pool -> pool -> Prop :=
  | step_alloc p r p' : pfs_metaobj_alloc_blktag mnt p = Some (r, p') -> pool_step p p'
  | step_free p n p' : n mod 2 ^ btno_shift <> 0 -> pfs_metaobj_free_blktag n p = Some p' -> pool_step p p'
  | step_put p n bt0 bt : bp_tag p n = Some bt0 -> bt_dstatus bt = bt_dstatus bt0 -> bt_ndiscard bt = bt_ndiscard bt0 ->
      pool_step p (bp_put n bt p).

Lemma step_marked p p' k : pfs_version_has_features mnt PFS_FEATURE_BLKHOLE = Some true -> pool_step p p' -> wf p ->
  wf p' /\ (marked p k -> marked p' k).
Proof.
  intros Hfeat Hst Hw. inversion Hst as [? r ? Ha|? n ? Hne Hf|? n bt0 bt Ht Hs Hd]; subst.
  - destruct (alloc_blktag_ok mnt p Hw Hfeat) as [E|(n & an' & roots & bt0 & E & Hn & Hni & Hw' & Hin)]; rewrite Ha in E; injection E as -> ->; [done|].
    split; [done|]. intros (bt & Hk & Hds & Hnk). exists bt. simpl. rewrite lookup_insert_ne; [split_and!; [done|done|intros Hx; by apply Hnk, Hin]|]. intros ->. rewrite Hn in Hk. by injection Hk as ->.
  - assert (exists bt, mnt_blktag p !! n = Some (true, bt)) as [bt Hn].
    { unfold pfs_metaobj_free_blktag in Hf. destruct (mnt_blktag p !! n) as [[[] bt]|]; simpl in Hf; [by eauto| |done].
      exfalso. destruct (bt_ndiscard bt =? 0), (bt_dstatus bt =? BDS_NONE); simpl in Hf; try done. by destruct (pfs_bd_add BDS_READY n p). }
    destruct (free_blktag_ok mnt p n bt Hw Hn Hne) as (an' & roots & E & Hw' & Hin). rewrite Hf in E. injection E as ->. split; [done|].
    intros (bt' & Hk & Hds & Hnk). exists bt'. simpl. rewrite lookup_insert_ne; [split_and!; [done|done|intros Hx; by apply Hnk, Hin]|]. intros ->. by rewrite Hn in Hk.
  - simpl in Ht |- *. destruct (mnt_blktag p !! n) as [[[] bt']|] eqn:Hn; try done. destruct (_ =? 0); [done|]. injection Ht as ->.
    split; [by eapply put_tag_ok|]. intros (bt' & Hk & Hds & Hnk). exists bt'. simpl. rewrite lookup_insert_ne; [done|]. intros ->. by rewrite Hn in Hk.
Qed.

Lemma steps_marked p p' : pfs_version_has_features mnt PFS_FEATURE_BLKHOLE = Some true -> rtc pool_step p p' -> wf p ->
  wf p' /\ forall k, marked p k -> marked p' k.
Proof.
  intros Hfeat. induction 1 as [|p p1 p2 Hst _ IH]; intros Hw; [done|]. destruct (step_marked p p1 0 Hfeat Hst Hw) as [Hw1 _].
  destruct (IH Hw1) as [Hw2 Hm]. split; [done|]. intros k Hk. apply Hm. by apply (step_marked p p1 k Hfeat Hst Hw).
Qed.

(** ** One discard *)
Lemma tx_mark_ok mark done rv bdroot p : marks mark done ->
  (forall p p' k, done p k -> mnt_blktag p' !! k = mnt_blktag p !! k -> mnt_bdroot p' = mnt_bdroot p -> done p' k) ->
  wf p -> (forall k, k ∈ twalk bdroot -> is_Some (mnt_blktag p !! k)) ->
  exists err bdroot' p', bd_tx rv (bd_mark mark false) bdroot p = Some (err, bdroot', p') /\ wf p' /\
    (forall k, fst <$> mnt_blktag p' !! k = fst <$> mnt_blktag p !! k) /\
    (err = 0 -> forall k, k ∈ twalk bdroot' -> k ∈ twalk bdroot /\ done p' k).
Proof.
  intros Hm Hd Hw Hex. unfold bd_tx. destruct (bd_mark_ok mark done Hm Hd bdroot p Hw Hex) as (err & b' & p1 & -> & Hw1 & [_ Hs1] & _ & _ & Hk1). simpl.
  set (e := if err =? 0 then rv else err). destruct (Z.eqb_spec e 0) as [E|E].
  - eexists _, _, _. split; [done|]. split_and!; done.
  - destruct (undo_ok p (twalk bdroot) Hw p1 Hw1 Hs1 Hex) as (p2 & -> & Hw2 & Ht2). simpl. eexists _, _, _. split; [done|].
    split_and!; [done| |done]. intros k. rewrite Ht2. by case_decide.
Qed.

Lemma execute_walk_ok trim keys : (forall k, k ∈ keys -> btno2blkno k mod PFS_NBT_PERCHUNK <> 0) -> forall done err, err <= 0 ->
  exists done' err', bd_execute_walk trim keys done err = Some (done', err') /\ forall k, k ∈ done' -> k ∈ done \/ k ∈ keys.
Proof.
  induction keys as [|k keys IH]; intros Hk done err He; simpl.
  { eexists _, _. split; [done|]. by left. }
  assert (Hk' : forall x, x ∈ keys -> btno2blkno x mod PFS_NBT_PERCHUNK <> 0) by (intros x Hx; apply Hk; set_solver).
  destruct (Z.eqb_spec err 0) as [->|Hne]; simpl.
  - rewrite (proj2 (Z.eqb_neq _ _)) by (apply Hk; set_solver). simpl. destruct (Z.ltb_spec (trim (btno2blkno k * PFS_BLOCK_SIZE)) 0).
    + destruct (IH Hk' done (trim (btno2blkno k * PFS_BLOCK_SIZE)) ltac:(lia)) as (d & e & -> & Hd). eexists _, _. split; [done|]. set_solver.
    + destruct (IH Hk' (done ++ [k]) 0 ltac:(lia)) as (d & e & -> & Hd). eexists _, _. split; [done|]. set_solver.
  - destruct (IH Hk' done err He) as (d & e & -> & Hd). eexists _, _. split; [done|]. set_solver.
Qed.

Lemma unused_numbers p k : wf p -> unused p k -> btno2blkno k mod PFS_NBT_PERCHUNK <> 0.
Proof. intros Hw [bt Hk]. destruct (pw_tag _ _ Hw _ _ _ Hk) as (_ & _ & (Hp & Hl & _) & _ & Hne). by apply tagno_round. Qed.

Lemma bd_discard_ok rv1 rv2 between trim bdroot p : pfs_version_has_features mnt PFS_FEATURE_BLKHOLE = Some true -> wf p ->
  (forall k, k ∈ twalk bdroot -> is_Some (mnt_blktag p !! k)) -> (forall p1, rtc pool_step p1 (between p1)) ->
  exists err done bdroot' p', pfs_bd_discard false rv1 rv2 between trim bdroot p = Some (err, done, bdroot', p') /\ wf p' /\
    forall k, k ∈ done -> k ∈ twalk bdroot /\ unused p' k.
Proof.
  intros Hfeat Hw Hex Hbt. unfold pfs_bd_discard, pfs_bd_mark_inp, pfs_bd_mark_done.
  destruct (tx_mark_ok _ _ rv1 bdroot p mark_inp_marks) as (e1 & b1 & p1 & -> & Hw1 & _ & Hk1); [|done|done|].
  { intros q q' k (bt & Hk & Hds & Hn) Et Er. exists bt. rewrite Et. unfold bd_in in *. by rewrite Er. }
  simpl. destruct (Z.eqb_spec e1 0) as [E1|E1]; simpl.
  2:{ eexists _, _, _, _. split; [done|]. split; [done|]. by intros k ?%elem_of_nil. }
  specialize (Hk1 E1). destruct (steps_marked p1 (between p1) Hfeat (Hbt p1) Hw1) as [Hw2 Hm2]. set (p2 := between p1) in *.
  assert (Hun : forall k, k ∈ twalk b1 -> unused p2 k).
  { intros k Hk. destruct (Hm2 k) as (bt & ? & _); [by apply Hk1|]. by exists bt. }
  destruct (execute_walk_ok trim (twalk b1)) with (done := @nil Z) (err := 0) as (d & e2 & He & Hd); [|done|].
  { intros k Hk. by eapply unused_numbers, Hun. }
  unfold pfs_bd_execute. rewrite He. simpl.
  assert (Hdk : forall k, k ∈ d -> k ∈ twalk bdroot /\ unused p2 k).
  { intros k Hk. destruct (Hd k Hk) as [?%elem_of_nil|Hk']; [done|]. split; [by apply Hk1|by apply Hun]. }
  destruct (e2 <? 0); [by eexists _, _, _, _|].
  destruct (tx_mark_ok _ _ rv2 b1 p2 mark_done_marks) as (e3 & b3 & p3 & -> & Hw3 & Hs3 & _); [|done| |].
  { intros q q' k [bt Hk] Et _. exists bt. by rewrite Et. }
  { intros k Hk. destruct (Hun k Hk). by eexists. }
  simpl. eexists _, _, _, _. split; [done|]. split; [done|]. intros k Hk. destruct (Hdk k Hk) as [? [bt Hb]]. split; [done|].
  specialize (Hs3 k). rewrite Hb in Hs3. destruct (mnt_blktag p3 !! k) as [[u bt3]|] eqn:E3; [|done]. simpl in Hs3. injection Hs3 as ->. by exists bt3.
Qed.

(** ** The selection *)
Lemma set_root_wf p bds t : wf p -> bds_ok bds = true -> (forall x, x ∈ twalk t -> bd_in p bds x) -> wf (set_bdroot bds t p).
Proof.
  intros Hw Hb Hsub. destruct Hw as [Ha Hr Hg Hf Ht Hl Hin]. split; simpl; try done; [by rewrite length_insert|].
  intros b x Hb' Hx. apply Hin; [done|]. apply bd_upd in Hx; [|done|done|by destruct Hb' as [->| ->]].
  destruct (Z.eqb_spec b bds) as [->|]; [by apply Hsub|done].
Qed.

Lemma select_ready_ok n : forall bdroot p, wf p -> (forall k, k ∈ twalk bdroot -> is_Some (mnt_blktag p !! k)) ->
  exists b' p', bd_select_ready n bdroot p = Some (b', p') /\ wf p' /\ mnt_blktag p' = mnt_blktag p /\
    forall k, k ∈ twalk b' -> is_Some (mnt_blktag p !! k).
Proof.
  induction n as [|n IH]; intros bdroot p Hw Hb; simpl; [by eexists _, _|].
  destruct (bd_get_ok p BDS_READY (pw_bds _ _ Hw) eq_refl) as (v & -> & Hv); [intros x Hx; eapply wf_in_pos; eauto|]. simpl.
  destruct Hv as [[-> _]|[Hv Hin]]; [by eexists _, _|]. rewrite geb_true by done.
  destruct (bd_del_ok p BDS_READY v (pw_bds _ _ Hw) eq_refl) as (t & -> & Ht). simpl.
  destruct (IH (tsearch v bdroot) (set_bdroot BDS_READY t p)) as (b' & p' & -> & Hw' & Et & Hb'); [| |by eexists _, _].
  - apply set_root_wf; [done|done|]. intros x Hx. apply (Ht BDS_READY x eq_refl). apply bd_upd; [apply Hw|done|done|]. by rewrite Z.eqb_refl.
  - intros k [->|Hk]%ts_search; [|by apply Hb]. destruct (pw_in _ _ Hw BDS_READY v (or_introl eq_refl) Hin) as (bt & Hk & _). by exists (false, bt).
Qed.

Lemma bd_select_ok ninp p : wf p ->
  exists b q p', pfs_bd_select ninp tempty p = Some (b, q, p') /\ wf p' /\ mnt_blktag p' = mnt_blktag p /\
    forall k, k ∈ twalk b -> is_Some (mnt_blktag p !! k).
Proof.
  intros Hw. unfold pfs_bd_select. destruct (bd_tree p BDS_INP (pw_bds _ _ Hw) eq_refl) as [t Ht]. rewrite Ht. simpl. destruct (troot t).
  - eexists _, _, _. split; [done|]. split_and!; [|done|].
    + apply set_root_wf; [done|done|]. intros x Hx. rewrite ts_empty in Hx. by apply elem_of_nil in Hx.
    + intros k Hk. destruct (pw_in _ _ Hw BDS_INP k (or_intror eq_refl)) as (bt & -> & _); [|by eauto]. unfold bd_in. by rewrite Ht.
  - destruct (select_ready_ok (Z.to_nat ninp) tempty p Hw) as (b & p' & -> & ?); [|by eexists _, _, _].
    intros k Hk. rewrite ts_empty in Hk. by apply elem_of_nil in Hk.
Qed.

Lemma steps_tags p p' : pfs_version_has_features mnt PFS_FEATURE_BLKHOLE = Some true -> rtc pool_step p p' -> wf p ->
  forall k, is_Some (mnt_blktag p !! k) -> is_Some (mnt_blktag p' !! k).
Proof.
  intros Hfeat. induction 1 as [|p p1 p2 Hst _ IH]; intros Hw k Hk; [done|]. destruct (step_marked p p1 0 Hfeat Hst Hw) as [Hw1 _].
  apply (IH Hw1). inversion Hst as [? r ? Ha|? n ? Hne Hf|? n bt0 bt Ht Hs Hd]; subst.
  - destruct (alloc_blktag_ok mnt p Hw Hfeat) as [E|(n & an' & roots & bt0 & E & _)]; rewrite Ha in E; injection E as -> ->; [done|].
    simpl. apply lookup_insert_is_Some. destruct (decide (n = k)); tauto.
  - unfold pfs_metaobj_free_blktag in Hf. destruct (mnt_blktag p !! n) as [[u bt]|]; simpl in Hf; [|done].
    destruct (bt_ndiscard bt =? 0), (bt_dstatus bt =? BDS_NONE); simpl in Hf; try done.
    destruct (bd_add_ok p BDS_READY n (pw_bds _ _ Hw) eq_refl) as (t & E & _). rewrite E in Hf. simpl in Hf. destruct u; [|done]. simpl in Hf.
    destruct (pfs_anode_free (mnt_anode p) n); [|done]. injection Hf as <-. simpl. apply lookup_insert_is_Some. destruct (decide (n = k)); tauto.
  - simpl. destruct (mnt_blktag p !! n) as [[u bt']|]; [|done]. simpl. apply lookup_insert_is_Some. destruct (decide (n = k)); tauto.
Qed.

Lemma thread_turn_ok ninp rv1 rv2 before between trim p : pfs_version_has_features mnt PFS_FEATURE_BLKHOLE = Some true -> wf p ->
  (forall p1, rtc pool_step p1 (before p1)) -> (forall p1, rtc pool_step p1 (between p1)) ->
  exists done p', pfs_bd_thread_turn ninp rv1 rv2 before between trim p = Some (done, p') /\ wf p' /\ forall k, k ∈ done -> unused p' k.
Proof.
  intros Hfeat Hw Hbe Hbt. unfold pfs_bd_thread_turn. destruct (bd_select_ok ninp p Hw) as (b & q & p1 & -> & Hw1 & Et & Hb). simpl.
  destruct (troot b) eqn:E; [|eexists _, _; split; [done|]; split; [done|]; by intros k ?%elem_of_nil].
  destruct (steps_marked p1 (before p1) Hfeat (Hbe p1) Hw1) as [Hw2 _].
  destruct (bd_discard_ok rv1 rv2 between trim b (before p1) Hfeat Hw2) as (err & d & b' & p3 & -> & Hw3 & Hd); [|done|].
  { intros k Hk. eapply steps_tags; [done|apply Hbe|done|]. rewrite Et. by apply Hb. }
  simpl. eexists _, _. split; [done|]. split; [done|]. intros k Hk. by apply Hd.
Qed.
End DiscardSafe.

(** ** A small pool: tag 0 is reserved, tag 1 belongs to inode 9, tag 2 is
    free and tag 3 is free and waits to be discarded. *)
Definition ex_mnt : pfs_mount := MkMnt ex_geo 2 true false 100 7 0.
Definition ex_tag (ino blkid dstatus : Z) : pfs_blktag_phy :=
  {| bt_ino := ino; bt_blkid := blkid; bt_dstatus := dstatus; bt_ndiscard := 0; bt_holelen := 0; bt_holeoff := 0 |}.
Definition ex_pool : blkpool (gset Z) :=
  MkPool (ANode 0 0 4 2 0 [] [ANode 0 12 4 2 2 [12] []])
    (list_to_map [(0, (true, ex_tag 0 0 BDS_NONE)); (1, (true, ex_tag 9 0 BDS_NONE));
                  (2, (false, ex_tag 0 0 BDS_NONE)); (3, (false, ex_tag 5 1 BDS_READY))])
    [∅; {[3]}; ∅].

Lemma ex_pool_tags n v : mnt_blktag ex_pool !! n = Some v ->
  (n = 0 /\ v = (true, ex_tag 0 0 BDS_NONE)) \/ (n = 1 /\ v = (true, ex_tag 9 0 BDS_NONE)) \/
  (n = 2 /\ v = (false, ex_tag 0 0 BDS_NONE)) \/ (n = 3 /\ v = (false, ex_tag 5 1 BDS_READY)).
Proof. simpl. rewrite !lookup_insert_Some, lookup_empty. naive_solver. Qed.

Lemma ex_obj_in n : 0 <= n < 4 -> obj_in (mnt_anode ex_pool) n.
Proof.
  intros Hn. assert (n = MONO_MAKE (Z.shiftl 0 12) n) as ->; [unfold MONO_MAKE; by rewrite Z.shiftl_0_l, Z.lor_0_l|].
  apply (in_node 0 0 4 2 0 [] [ANode 0 12 4 2 2 [12] []] 0 (ANode 0 12 4 2 2 [12] []) n); [reflexivity|]. by constructor.
Qed.

Lemma ex_anode_wf : anode_wf (mnt_anode ex_pool).
Proof.
  apply (wf_node _ _ _ _ _ _ _ 12); try done.
  - intros [|i] c Hc; simplify_eq/=; by constructor.
  - intros [|i] c Hc; simplify_eq/=; by vm_compute.
Qed.

Lemma ex_obj_range n : obj_in (mnt_anode ex_pool) n -> n = 0 \/ n = 1 \/ n = 2 \/ n = 3.
Proof.
  intros Hin. inversion Hin as [|? ? ? ? ? ? ? [|i] c s Hc Hs]; subst; simplify_eq/=.
  inversion Hs as [? ? ? ? ? ? ? Hr|? ? ? ? ? ? ? [] ? ? Hc' ?]; simplify_eq/=.
  unfold MONO_MAKE. rewrite Z.lor_0_l. lia.
Qed.

Lemma ex_pool_wf : pool_wf ex_mnt ex_pool.
Proof.
  split.
  - apply ex_anode_wf.
  - done.
  - intros n ckno oid [v Hv] E. by apply ex_pool_tags in Hv as [[-> _]|[[-> _]|[[-> _]|[-> _]]]]; vm_compute in E; injection E as <- <-.
  - intros n Hf. apply obj_free_in, ex_obj_range in Hf; [|apply ex_anode_wf]. by destruct Hf as [->|[->|[->| ->]]]; eexists.
  - intros n u bt Hv. apply ex_pool_tags in Hv as [[-> E]|[[-> E]|[[-> E]|[-> E]]]]; injection E as -> ->;
      (split; [by apply ex_obj_in|]; split; [reflexivity|]; split; [by vm_compute|]); try done.
    + split; [|done]. split_and!; [done|done|]. by left.
    + split; [|done]. split_and!; [done|done|]. by right; left.
  - done.
  - intros bds n [->| ->] Hn; unfold bd_in in Hn; simpl in Hn; rewrite ?elem_of_elements in Hn; [|set_solver].
    apply elem_of_singleton in Hn as ->. eexists. by split.
Qed.

(** ** Properties *)

(** C14: a turn of the discard thread trims free blocks only.  For every
    result of the two commits and of the device, and whatever tags other
    threads allocate, change and release between the selection, the first
    transaction and the trim, the turn does not abort, its loops end, the
    tags, the allocation tree and the trees of free blocks still agree, and
    every block that was trimmed has a tag that is not in use. *)
Theorem discard_trims_free_blocks (mnt : pfs_mount) (T : Type) `{TSearchLaws T} (ninp rv1 rv2 : Z)
    (before between : blkpool T -> blkpool T) (trim : Z -> Z) (p : blkpool T)
    (Hfeat : pfs_version_has_features mnt PFS_FEATURE_BLKHOLE = Some true) (Hwf : pool_wf mnt p)
    (Hbefore : forall p1, rtc (pool_step mnt) p1 (before p1)) (Hbetween : forall p1, rtc (pool_step mnt) p1 (between p1)) :
  exists done p', pfs_bd_thread_turn ninp rv1 rv2 before between trim p = Some (done, p') /\ pool_wf mnt p' /\
    forall k, k ∈ done -> exists bt, mnt_blktag p' !! k = Some (false, bt).
Proof. by apply thread_turn_ok. Qed.

(** Other threads allocate a block if they can. *)
Definition ex_alloc (p : blkpool (gset Z)) : blkpool (gset Z) :=
  match pfs_metaobj_alloc_blktag ex_mnt p with Some (_, p') => p' | None => p end.
Lemma ex_alloc_steps p1 : rtc (pool_step ex_mnt) p1 (ex_alloc p1).
Proof. unfold ex_alloc. destruct (pfs_metaobj_alloc_blktag ex_mnt p1) as [[r p']|] eqn:E; [|done]. apply rtc_once. by eapply step_alloc. Qed.

Lemma discard_trims_free_blocks_witness :
  exists done p', pfs_bd_thread_turn 8 0 0 id ex_alloc (fun _ => 0) ex_pool = Some (done, p') /\ done = [3] /\
    (exists bt, mnt_blktag p' !! 3 = Some (false, bt)).
Proof.
  destruct (discard_trims_free_blocks ex_mnt (gset Z) 8 0 0 id ex_alloc (fun _ => 0) ex_pool eq_refl ex_pool_wf (fun _ => rtc_refl _ _) ex_alloc_steps)
    as (done & p' & E & _ & Hd).
  assert (Ed : fst <$> pfs_bd_thread_turn 8 0 0 id ex_alloc (fun _ => 0) ex_pool = Some [3]) by (vm_compute; reflexivity).
  rewrite E in Ed. injection Ed as ->. exists [3], p'. split; [exact E|]. split; [reflexivity|]. apply Hd. set_solver.
Defined.
