(* ===== verification/FileProps.v ===== *)
(** * Files: the properties

    The calls on an open file refine operations on a list of bytes; two
    places where the code does not do what it means to. *)

From S2P Require Import Prelude Blkio Blktable Alloc Object Inode InodeInv File FileSafe FileSpec FileOps Discard DiscardInv DiscardSafe.

Open Scope pfs_scope.

(** ** An empty file on the small pool *)
Definition ex_inode : pfs_inode_phy :=
  {| in_type := PFS_INODET_FILE; in_flags := 0; in_padding := 0; in_pvtid := 0; in_deno := 5; in_nlink := 1;
     in_nblock := 0; in_size := 0; in_atime := 0; in_ctime := 0; in_mtime := 0; in_btime := 77 |}.
Definition ex_state (logs : list Z) : fstate (blkpool (gset Z)) :=
  MkFs (ex_dev []) (MkPhy ex_inode [] ex_pool) (core 5 0 0 0 77 true 0 0 wm_zero 0 pfs_inode_init_blktable) None logs.
Definition ex_file : pfs_file := MkFile false 0 77.


Lemma ex_mount_ok : mount_ok ex_mnt.
Proof. split; try done. exists 14. done. Qed.

Lemma ex_open logs : logs_fine logs -> open_at ex_mnt 5 77 false (ex_state logs) ex_file [] 0.
Proof.
  intros Hl. split; try done. exists ∅. split; simpl; try done.
  - split; try done. split; [apply ex_pool_wf|constructor|by intros n ?%elem_of_nil|by intros ? ? ?%lookup_empty_Some..].
  - eexists 0, 0, true, 0, _. done.
  - by split; [|constructor].
  - intros o Ho. unfold file_byte. rewrite lookup_empty. by destruct (Z.to_nat o).
Qed.

(** C8: the calls on an open file refine operations on a list of bytes.
    Take a writable mount with block holes whose device does not fail and
    whose log grants every commit, and an open file that holds the bytes [c],
    with the descriptor at [pos].  Consider reads, writes, truncations,
    allocations and seeks with arguments that are not negative, such that
    writes, truncations and allocations stay within the 2^35 blocks that the
    tables can index (see blkid_index_overflow), the end of a read fits 63
    bits, and an allocation does not ask for FALLOC_FL_NO_HIDE_STALE.  Every
    sequence of such calls runs without an abort and every loop ends.  Each
    call returns what the operation on the list returns and leaves the bytes
    and the position it leaves, or it is a write or an allocation that
    returns [-ENOSPC] and changes neither.  The block tags of other files and
    the bytes of their blocks stay as they were. *)
Theorem file_refines (mnt : pfs_mount) (P : Type) `{PoolLaws mnt P} (ino btime : Z) (append : bool) (s : fstate P) (file : pfs_file)
    (c : list Z) (pos : Z) (ops : list fop)
    (Hmnt : mount_ok mnt) (Hopen : open_at mnt ino btime append s file c pos) (Hops : ops_ok (file_max mnt) append ops c pos) :
  exists rs file' s' c' pos', do_ops mnt file ops s = Some ((rs, file'), s') /\
    ops_run append ops c pos rs c' pos' /\ open_at mnt ino btime append s' file' c' pos' /\ kept mnt s s'.
Proof.
  destruct (ops_refine mnt ino btime append Hmnt ops s file c pos Hopen Hops) as ([rs file'] & s' & E & c' & pos' & ?).
  by exists rs, file', s', c', pos'.
Qed.

(** Four bytes are written, two of them read back, and the file cut. *)
Definition ex_calls : list fop := [FPwrite [1; 2; 3; 4] 0; FSeek 1 SEEK_SET; FRead 2; FTruncate 3].

Ltac ops_arg :=
  split; [vm_compute; intuition discriminate|];
  let r := fresh in let c' := fresh in let pos' := fresh in
  intros r c' pos' [Hx|(Hx & -> & -> & ->)]; [vm_compute in Hx; injection Hx as <- <- <-|first [discriminate Hx|clear Hx]].

Lemma ex_calls_ok : ops_ok (file_max ex_mnt) false ex_calls [] 0.
Proof. unfold ex_calls. repeat (ops_arg || exact I). Qed.

Lemma file_refines_witness :
  exists rs file' s' c' pos', do_ops ex_mnt ex_file ex_calls (ex_state []) = Some ((rs, file'), s') /\
    ops_run false ex_calls [] 0 rs c' pos' /\ open_at ex_mnt 5 77 false s' file' c' pos' /\ kept ex_mnt (ex_state []) s'.
Proof.
  apply (file_refines ex_mnt (blkpool (gset Z)) 5 77 false (ex_state []) ex_file [] 0 ex_calls ex_mount_ok (ex_open [] (Forall_nil_2 _)) ex_calls_ok).
Defined.

(** C25: a read reports [-1] when the log cannot be polled.  On a mount that
    polls the log before a read, [pfs_file_xpread] returns -1, which the
    caller takes for [-EPERM], whatever error the poll returned. *)
Theorem read_hides_sync_error (mnt : pfs_mount) (P : Type) `{BlkPool P} (file : pfs_file) (len off e : Z) (logs : list Z) (s : fstate P)
    (Hsync : pfs_mount_needsync mnt = true) (Hlogs : fs_logs s = e :: logs) (He : e < 0)
    (Hoff : 0 <= (if off =? OFFSET_FILE_POS then f_offset file else off)) :
  exists s', pfs_file_xpread mnt file len off s = Some ((-1, [], file), s').
Proof.
  destruct s as [d ph i tx l]. simpl in Hlogs. subst l. unfold pfs_file_xpread. rewrite Hsync. cbv zeta.
  enough (wp (assert_ ((if off =? OFFSET_FILE_POS then f_offset file else off) >=? 0);;
    r ← tls_read true (-1, [])
        (r ← pfs_file_read mnt len (if off =? OFFSET_FILE_POS then f_offset file else off) true (f_btime file); mret (r, errof (fst r)));
    let '((rlen, data), err) := r in
    mret (rlen, data, if (err =? 0) && (off =? -1) then set_offset (f_offset file + rlen) file else file))
    (MkFs d ph i tx (e :: logs)) (fun r _ => r = (-1, [], file))) as (r & s' & E & ->) by (by exists s').
  fstep. fstep; [by apply geb_true|]. fstep. unfold tls_read. fstep. eexists _, _. split; [reflexivity|]. cbn [fs_dev fs_phy fs_in fs_tx fs_logs].
  rewrite (proj2 (Z.eqb_neq e 0)) by lia. cbn [negb]. cbv iota. fstep. cbv beta iota. rewrite (proj2 (Z.eqb_neq e 0)) by lia. cbn [andb]. cbv iota. by fstep.
Qed.

Lemma read_hides_sync_error_witness :
  exists s', pfs_file_xpread (MkMnt ex_geo 2 false true 100 7 0) ex_file 4 0 (ex_state [- ETIMEDOUT]) = Some ((-1, [], ex_file), s').
Proof. apply (read_hides_sync_error (MkMnt ex_geo 2 false true 100 7 0) _ ex_file 4 0 (- ETIMEDOUT) []); done. Defined.

(** C24: a write that failed can show up later.  Consider a write behind the
    end of the file into blocks that are all allocated already and have no
    hole, whose transaction the log refuses with an error other than
    -ETIMEDOUT.  It returns the error, and the size of the file stays.  But
    the bytes are on the device, and when the file is extended over them, they are read
    where zeros are expected. *)
Theorem failed_write_exposed (mnt : pfs_mount) (P : Type) `{PoolLaws mnt P} (ino btime : Z) (d : device) (ph : phy P) (i : pfs_inode)
    (m : gmap Z pfs_dblk) (c : list Z) (file : pfs_file) (buf : list Z) (off e : Z) (logs : list Z)
    (Hmnt : mount_ok mnt) (Hfile : file_at mnt ino btime (MkFs d ph i None []) m c) (Hbtime : f_btime file = btime)
    (Happend : f_append file = false) (Hlen : 0 < size buf) (Hoff : size c <= off) (Hlim : off + size buf <= file_max mnt)
    (Hblk : no_holes mnt m off (size buf)) (He : e < 0) (Het : e <> - ETIMEDOUT) (Hlogs : logs_fine logs) :
  exists s1 s2 s3,
    pfs_file_xpwrite mnt file buf (size buf) off (MkFs d ph i None (e :: logs)) = Some ((e, file), s1) /\ fs_phy s1 = ph /\
    pfs_file_xftruncate mnt 1 file (off + size buf) s1 = Some (0, s2) /\
    pfs_file_xpread mnt file (size buf) off s2 = Some ((size buf, buf, file), s3).
Proof.
  destruct Hmnt as [Hfeat Hgeo Hpow Hmax Hrw Hself]. pose proof (size_pos c) as Hc.
  assert (wp (pfs_file_xpwrite mnt file buf (size buf) off) (MkFs d ph i None (e :: logs)) (fun r s1 => r = (e, file) /\ fs_phy s1 = ph /\
    wp (pfs_file_xftruncate mnt 1 file (off + size buf)) s1 (fun r2 s2 => r2 = 0 /\
      wp (pfs_file_xpread mnt file (size buf) off) s2 (fun r3 s3 => r3 = (size buf, buf, file))))) as
    (r & s1 & E1 & -> & Eph & r2 & s2 & E2 & -> & r3 & s3 & E3 & ->); [|by exists s1, s2, s3].
  eapply (failed_commit_ok mnt ino btime Hfeat Hgeo Hpow Hmax Hrw Hself); try done; [lia|lia|]. intros d' i' Hin Hd Hr. split; [done|]. split; [done|].
  eapply (extend_over_ok mnt ino btime Hfeat Hgeo Hpow Hmax Hrw d' ph i' m c (pwrite_spec c off buf)); try done.
  - apply (fa_phy _ _ _ _ _ _ Hfile).
  - lia.
  - rewrite size_pwrite by lia. lia.
  - intros s2 m2 Hs2. split; [done|].
    assert (En : (off =? OFFSET_FILE_POS) = false) by (apply Z.eqb_neq; unfold OFFSET_FILE_POS; lia).
    eapply (xpread_ok mnt ino btime Hfeat Hgeo Hpow Hmax s2 m2 _ file (size buf) off off); try done; try (rewrite ?En; done || lia).
    + unfold file_max in Hlim. change PFS_BLOCK_SIZE with (2 ^ 22) in Hmax. nia.
    + intros s3 _ _. rewrite En, pread_written by lia. done.
Qed.

(** Inode 9 owns tag 1 and holds four bytes. *)
Definition ex_inode9 : pfs_inode_phy :=
  {| in_type := PFS_INODET_FILE; in_flags := 0; in_padding := 0; in_pvtid := 0; in_deno := 9; in_nlink := 1;
     in_nblock := 1; in_size := 4; in_atime := 0; in_ctime := 0; in_mtime := 0; in_btime := 77 |}.
Definition ex_dev9 : device := MkDev (fun x => if (16384 <=? x) && (x <? 16388) then x - 16383 else 0) [] [].
Definition ex_map9 : gmap Z pfs_dblk := {[0 := MkDblk 1 0 0]}.
Definition ex_in9 : pfs_inode := core 9 4 4 0 77 true 0 0 wm_zero 0 pfs_inode_init_blktable.

Lemma ex_file9 : file_at ex_mnt 9 77 (MkFs ex_dev9 (MkPhy ex_inode9 [1] ex_pool) ex_in9 None []) ex_map9 [1; 2; 3; 4].
Proof.
  split; simpl; try done.
  - split; try done. split; [apply ex_pool_wf|apply NoDup_singleton| | |].
    + intros n ->%list_elem_of_singleton. exists (ex_tag 9 0 BDS_NONE). split_and!; try done.
    + unfold ex_map9. intros k b [<- <-]%lookup_singleton_Some. exists 1, (ex_tag 9 0 BDS_NONE). split_and!; try done. set_solver.
    + unfold ex_map9. intros k b [_ <-]%lookup_singleton_Some. by left.
  - eexists 4, 0, true, 0, _. done.
  - by split; [|constructor].
  - constructor.
  - intros o Ho. unfold file_byte. change (mnt_blksize (mnt_geo ex_mnt)) with 16384. unfold ex_map9.
    pose proof (Z.div_mod o 16384 ltac:(lia)). pose proof (Z.mod_pos_bound o 16384 ltac:(lia)). pose proof (Z.div_pos o 16384 Ho ltac:(lia)).
    destruct (decide (o < 4)) as [Hs|Hs].
    + by assert (o = 0 \/ o = 1 \/ o = 2 \/ o = 3) as [->|[->|[->| ->]]] by lia.
    + rewrite nth_overflow by (simpl; lia). destruct (decide (0 = o / 16384)) as [E|E]; [|by rewrite lookup_singleton_ne].
      rewrite <- E, lookup_singleton_eq. simpl. destruct (_ <? _); [|done].
      rewrite (proj2 (Z.ltb_ge (1 * 16384 + o mod 16384) 16388)) by lia. by rewrite andb_false_r.
Qed.

Lemma failed_write_exposed_witness :
  exists s1 s2 s3,
    pfs_file_xpwrite ex_mnt ex_file [5; 6] 2 10 (MkFs ex_dev9 (MkPhy ex_inode9 [1] ex_pool) ex_in9 None [- EIO]) = Some ((- EIO, ex_file), s1) /\
    fs_phy s1 = MkPhy ex_inode9 [1] ex_pool /\
    pfs_file_xftruncate ex_mnt 1 ex_file 12 s1 = Some (0, s2) /\
    pfs_file_xpread ex_mnt ex_file 2 10 s2 = Some ((2, [5; 6], ex_file), s3).
Proof.
  apply (failed_write_exposed ex_mnt _ 9 77 ex_dev9 (MkPhy ex_inode9 [1] ex_pool) ex_in9 ex_map9 [1; 2; 3; 4] ex_file [5; 6] 10 (- EIO) []
    ex_mount_ok ex_file9); try done; [|constructor].
  intros o Ho. exists (MkDblk 1 0 0). change (mnt_blksize (mnt_geo ex_mnt)) with 16384. change (size [5; 6]) with 2 in Ho.
  by rewrite (Z.div_small o 16384) by lia.
Defined.
