(* ===== verification/Tx.v ===== *)
(** * Transactions

    Model of pfs_tx.h / pfs_tx.cc: a transaction collects operations, each on
    a private copy of one meta object.  Operations on the same object share
    the copy of the first one, the head; the later ones are its duplicates,
    opened and closed in nested or sequential order.

    A sector buffer of the meta cache is named by its block address; [mem]
    maps it to its objects.  An operation is named by a number, [t_heap] maps
    it to its structure. *)

From S2P Require Import Prelude Crc Object.

Open Scope pfs_scope.
#[local] Set Warnings "-register-all".

Definition TXT_WRITE : Z := 1.
Definition TXT_REPLAY : Z := 2.

(** [top_flags] is the three booleans; [top_local] is also [top_remote]. *)
Record pfs_txop := MkTop {
  top_local : pfs_metaobj_phy;
  top_recreate : bool;
  top_inited : bool;
  top_done : bool;
  top_buf : option Z;
  top_bda : Z;
  top_idx : Z;
  top_cb : option Z;
  top_dup_head : option nat;
  top_shadow : option nat;
  top_dup_cnt : Z;
  top_dup_idx : Z }.

Definition set_top_local (v : pfs_metaobj_phy) (t : pfs_txop) : pfs_txop :=
  MkTop v (top_recreate t) (top_inited t) (top_done t) (top_buf t) (top_bda t) (top_idx t)
    (top_cb t) (top_dup_head t) (top_shadow t) (top_dup_cnt t) (top_dup_idx t).
Definition set_top_done (cb : option Z) (t : pfs_txop) : pfs_txop :=
  MkTop (top_local t) (top_recreate t) (top_inited t) true (top_buf t) (top_bda t) (top_idx t)
    cb (top_dup_head t) (top_shadow t) (top_dup_cnt t) (top_dup_idx t).
Definition set_top_buf (v : option Z) (t : pfs_txop) : pfs_txop :=
  MkTop (top_local t) (top_recreate t) (top_inited t) (top_done t) v (top_bda t) (top_idx t)
    (top_cb t) (top_dup_head t) (top_shadow t) (top_dup_cnt t) (top_dup_idx t).
Definition set_top_dup (head : option nat) (cnt idx : Z) (t : pfs_txop) : pfs_txop :=
  MkTop (top_local t) (top_recreate t) (top_inited t) (top_done t) (top_buf t) (top_bda t) (top_idx t)
    (top_cb t) head (top_shadow t) cnt idx.
Definition set_top_dup_cnt (v : Z) (t : pfs_txop) : pfs_txop :=
  MkTop (top_local t) (top_recreate t) (top_inited t) (top_done t) (top_buf t) (top_bda t) (top_idx t)
    (top_cb t) (top_dup_head t) (top_shadow t) v (top_dup_idx t).
Definition set_top_shadow (v : option nat) (t : pfs_txop) : pfs_txop :=
  MkTop (top_local t) (top_recreate t) (top_inited t) (top_done t) (top_buf t) (top_bda t) (top_idx t)
    (top_cb t) (top_dup_head t) v (top_dup_cnt t) (top_dup_idx t).

Record pfs_tx := MkTx {
  t_type : Z;
  t_id : Z;
  t_done : bool;
  t_timeoutfail : bool;
  t_nops : Z;
  t_ops : list nat;
  t_opsroot : list nat;
  t_cbs : list (Z * Z);
  t_heap : gmap nat pfs_txop;
  t_fresh : nat }.

Definition set_t_id (v : Z) (tx : pfs_tx) : pfs_tx :=
  MkTx (t_type tx) v (t_done tx) (t_timeoutfail tx) (t_nops tx) (t_ops tx) (t_opsroot tx)
    (t_cbs tx) (t_heap tx) (t_fresh tx).
Definition set_t_done (v : bool) (tx : pfs_tx) : pfs_tx :=
  MkTx (t_type tx) (t_id tx) v (t_timeoutfail tx) (t_nops tx) (t_ops tx) (t_opsroot tx)
    (t_cbs tx) (t_heap tx) (t_fresh tx).
Definition set_t_ops (n : Z) (v : list nat) (tx : pfs_tx) : pfs_tx :=
  MkTx (t_type tx) (t_id tx) (t_done tx) (t_timeoutfail tx) n v (t_opsroot tx)
    (t_cbs tx) (t_heap tx) (t_fresh tx).
Definition set_t_opsroot (v : list nat) (tx : pfs_tx) : pfs_tx :=
  MkTx (t_type tx) (t_id tx) (t_done tx) (t_timeoutfail tx) (t_nops tx) (t_ops tx) v
    (t_cbs tx) (t_heap tx) (t_fresh tx).
Definition set_t_heap (v : gmap nat pfs_txop) (tx : pfs_tx) : pfs_tx :=
  MkTx (t_type tx) (t_id tx) (t_done tx) (t_timeoutfail tx) (t_nops tx) (t_ops tx) (t_opsroot tx)
    (t_cbs tx) v (t_fresh tx).

(** [tx_upd] writes through the pointer [id]. *)
Definition tx_upd (id : nat) (f : pfs_txop -> pfs_txop) (tx : pfs_tx) : pfs_tx :=
  set_t_heap (alter f id (t_heap tx)) tx.

Definition pfs_tx_get (type : Z) (timeoutfail : bool) : pfs_tx :=
  MkTx type (-1) false timeoutfail 0 [] [] [] ∅ 0.

(** ** Creating operations *)

(** [pfs_txop_create]: [flags] is 0 for a new operation. *)
Definition txop_new : pfs_txop :=
  MkTop zero_obj false false false None 0 0 None None None 0 0.

Definition pfs_txop_create (top : pfs_txop) (tx : pfs_tx) : pfs_tx * nat :=
  (MkTx (t_type tx) (t_id tx) (t_done tx) (t_timeoutfail tx) (t_nops tx) (t_ops tx) (t_opsroot tx)
     (t_cbs tx) (<[t_fresh tx := top]> (t_heap tx)) (S (t_fresh tx)), t_fresh tx).

Definition pfs_tx_new_op (tx : pfs_tx) : pfs_tx * nat :=
  let '(tx, top) := pfs_txop_create txop_new tx in
  (set_t_ops (t_nops tx + 1) (t_ops tx ++ [top]) tx, top).

(** ** The index of a transaction by type and number *)
Definition key : Type := Z * Z.
Definition mo_key (mo : pfs_metaobj_phy) : key := (mo_type mo, mo_number mo).

Definition txop_index_compare (a b : pfs_metaobj_phy) : Z :=
  if mo_type a >? mo_type b then 1
  else if mo_type a <? mo_type b then -1
  else if mo_number a >? mo_number b then 1
  else if mo_number a <? mo_number b then -1
  else 0.

(** [tfind]: the node that compares equal. *)
Fixpoint tx_tfind (heap : gmap nat pfs_txop) (root : list nat) (mo : pfs_metaobj_phy) : option nat :=
  match root with
  | [] => None
  | r :: root =>
      match heap !! r with
      | Some top => if txop_index_compare mo (top_local top) =? 0 then Some r
                    else tx_tfind heap root mo
      | None => tx_tfind heap root mo
      end
  end.

(** [tsearch] of the [top_local] of operation [top]. *)
Definition pfs_tx_index_op (tx : pfs_tx) (top : nat) (mo : pfs_metaobj_phy) : pfs_tx * nat :=
  match tx_tfind (t_heap tx) (t_opsroot tx) mo with
  | Some r => (tx, r)
  | None => (set_t_opsroot (t_opsroot tx ++ [top]) tx, top)
  end.

Definition pfs_tx_find_mo (tx : pfs_tx) (mo : pfs_metaobj_phy) : option nat :=
  tx_tfind (t_heap tx) (t_opsroot tx) mo.

(** What a reader in this thread sees of an object of the meta cache. *)
Definition pfs_tx_get_mo (tx : option pfs_tx) (obj_meta : pfs_metaobj_phy) : pfs_metaobj_phy :=
  match tx with
  | None => obj_meta
  | Some tx =>
      if t_done tx then obj_meta
      else match pfs_tx_find_mo tx obj_meta with
           | Some r => match t_heap tx !! r with Some top => top_local top | None => obj_meta end
           | None => obj_meta
           end
  end.

(** ** Opening an operation on object [oid] of the buffer [buf]

    Returns the head, through whose [top_local] the caller modifies. *)
Definition pfs_txop_init (tx : pfs_tx) (top : nat) (mem : Z -> list pfs_metaobj_phy)
    (buf oid bda : Z) : option (pfs_tx * nat) :=
  let* t := t_heap tx !! top in
  let* obj_meta := mem buf !! Z.to_nat oid in
  PFS_ASSERT (negb (top_recreate t) && negb (top_inited t) && negb (top_done t)) ;;
  let l := top_local t in
  let l := MkObj (mo_number obj_meta) (mo_version l) (mo_next l) (mo_prev l) (mo_type obj_meta)
             (mo_used l) (mo_padding0 l) (mo_padding1 l) (mo_checksum l) (mo_data l) in
  let tx := tx_upd top (fun t => MkTop l (top_recreate t) true (top_done t) (Some buf) bda oid
              (top_cb t) (top_dup_head t) (top_shadow t) (top_dup_cnt t) (top_dup_idx t)) tx in
  let '(tx, duphead) := pfs_tx_index_op tx top l in
  let tx := if (duphead =? top)%nat then tx_upd top (set_top_local obj_meta) tx else tx in
  let tx := tx_upd top (set_top_dup (Some duphead) 0 (top_dup_idx t)) tx in
  let* h := t_heap tx !! duphead in  (* its count is 0 when it is [top] itself *)
  let tx := tx_upd top (set_top_dup (Some duphead) 0 (top_dup_cnt h)) tx in
  let tx := tx_upd duphead (fun h => set_top_dup_cnt (top_dup_cnt h + 1) h) tx in
  Some (tx, duphead).

(** ** Closing an operation *)
Definition pfs_txop_update (tx : pfs_tx) (top : nat) (cb : option Z) : option pfs_tx :=
  let* t := t_heap tx !! top in
  PFS_ASSERT (match top_buf t with Some _ => true | None => false end) ;;
  PFS_ASSERT (top_inited t && negb (top_done t)) ;;
  let* duphead := top_dup_head t in
  let tx := tx_upd duphead (fun h => set_top_local (seal (top_local h)) h) tx in
  let tx := tx_upd top (set_top_done cb) tx in
  let tx := tx_upd duphead (fun h => set_top_dup_cnt (top_dup_cnt h - 1) h) tx in
  let* h := t_heap tx !! duphead in
  let* t := t_heap tx !! top in
  PFS_ASSERT (top_dup_idx t =? top_dup_cnt h) ;;
  PFS_ASSERT (top_dup_cnt t =? 0) ;;
  Some tx.

(** [pfs_txop_destroy] of an operation that shadows nothing. *)
Definition pfs_txop_merge (tx : pfs_tx) (duphead top : nat) : option pfs_tx :=
  let* h := t_heap tx !! duphead in
  let* t := t_heap tx !! top in
  PFS_ASSERT (top_inited h) ;;
  PFS_ASSERT (top_done t) ;;
  PFS_ASSERT (match top_shadow t with None => true | Some _ => false end) ;;
  match top_cb t with
  | Some _ =>
      let tx := tx_upd top (set_top_shadow (top_shadow h)) tx in
      Some (tx_upd duphead (set_top_shadow (Some top)) tx)
  | None => Some (set_t_heap (delete top (t_heap tx)) tx)
  end.

Definition pfs_tx_done_op (tx : pfs_tx) (top : nat) (cb : option Z) : option pfs_tx :=
  let* tx := pfs_txop_update tx top cb in
  let* t := t_heap tx !! top in
  let* duphead := top_dup_head t in
  if negb (top =? duphead)%nat then
    pfs_txop_merge (set_t_ops (t_nops tx - 1) (filter (fun o => o <> top) (t_ops tx)) tx) duphead top
  else Some tx.

(** ** Applying a transaction to the meta cache *)
Fixpoint tx_apply_ops (heap : gmap nat pfs_txop) (ops : list nat) (mem : Z -> list pfs_metaobj_phy)
  : option (Z -> list pfs_metaobj_phy) :=
  match ops with
  | [] => Some mem
  | o :: ops =>
      let* top := heap !! o in
      let* buf := top_buf top in
      let* obj := mem buf !! Z.to_nat (top_idx top) in
      let* obj := pfs_metaobj_cp (top_local top) obj in
      tx_apply_ops heap ops (<[buf := <[Z.to_nat (top_idx top) := obj]> (mem buf)]> mem)
  end.

Definition pfs_tx_apply (tx : pfs_tx) (mem : Z -> list pfs_metaobj_phy)
  : option (Z -> list pfs_metaobj_phy) := tx_apply_ops (t_heap tx) (t_ops tx) mem.

(** ** Transaction bodies

    What the callers do: open an operation on an object, change it, open
    others in between, close it.  [AOp bda idx body cb] is one such block. *)
Inductive act : Type :=
| AModify (f : pfs_metaobj_phy -> pfs_metaobj_phy)
| AOp (bda idx : Z) (body : list act) (cb : option Z).

Section Run.
Context (mem : Z -> list pfs_metaobj_phy).

Fixpoint run_act (head : option nat) (a : act) (tx : pfs_tx) : option pfs_tx :=
  match a with
  | AModify f =>
      let* h := head in Some (tx_upd h (fun t => set_top_local (f (top_local t)) t) tx)
  | AOp bda idx body cb =>
      let '(tx, top) := pfs_tx_new_op tx in
      let* p := pfs_txop_init tx top mem bda idx bda in
      let '(tx, h) := p in
      let* tx := (fix run_body (l : list act) (tx : pfs_tx) : option pfs_tx :=
                    match l with
                    | [] => Some tx
                    | a :: l => let* tx := run_act (Some h) a tx in run_body l tx
                    end) body tx in
      pfs_tx_done_op tx top cb
  end.

Fixpoint run_acts (head : option nat) (l : list act) (tx : pfs_tx) : option pfs_tx :=
  match l with
  | [] => Some tx
  | a :: l => let* tx := run_act head a tx in run_acts head l tx
  end.

(** *** The specification: an overlay of private copies *)
Abbreviation overlay := (gmap key pfs_metaobj_phy).

Definition ov_open (obj : pfs_metaobj_phy) (ov : overlay) : overlay :=
  match ov !! mo_key obj with Some _ => ov | None => <[mo_key obj := obj]> ov end.

Fixpoint spec_act (k : key) (a : act) (ov : overlay) : overlay :=
  match a with
  | AModify f => alter f k ov
  | AOp bda idx body cb =>
      match mem bda !! Z.to_nat idx with
      | Some obj =>
          alter seal (mo_key obj)
            ((fix spec_body (l : list act) (ov : overlay) : overlay :=
                match l with [] => ov | a :: l => spec_body l (spec_act (mo_key obj) a ov) end)
               body (ov_open obj ov))
      | None => ov
      end
  end.

Fixpoint spec_acts (k : key) (l : list act) (ov : overlay) : overlay :=
  match l with [] => ov | a :: l => spec_acts k l (spec_act k a ov) end.

(** Modifications change fields of the structure of the object's type. *)
Definition keeps (f : pfs_metaobj_phy -> pfs_metaobj_phy) : Prop :=
  forall mo, mo_key (f mo) = mo_key mo /\ slack (f mo) = slack mo /\ (typed mo -> typed (f mo)).

Fixpoint act_ok (top : bool) (a : act) : Prop :=
  match a with
  | AModify f => top = false /\ keeps f
  | AOp bda idx body cb =>
      0 <= idx /\ (exists obj, mem bda !! Z.to_nat idx = Some obj /\ typed obj) /\
      (fix ok_body (l : list act) : Prop :=
         match l with [] => True | a :: l => act_ok false a /\ ok_body l end) body
  end.

Fixpoint acts_ok (top : bool) (l : list act) : Prop :=
  match l with [] => True | a :: l => act_ok top a /\ acts_ok top l end.

Lemma run_act_op head bda idx body cb tx :
  run_act head (AOp bda idx body cb) tx =
  let '(tx, top) := pfs_tx_new_op tx in
  let* p := pfs_txop_init tx top mem bda idx bda in
  let '(tx, h) := p in
  let* tx := run_acts (Some h) body tx in pfs_tx_done_op tx top cb.
Proof.
  cbn [run_act]. destruct (pfs_tx_new_op tx) as [tx1 top].
  destruct (pfs_txop_init _ _ _ _ _ _) as [[tx2 h]|]; [|done].
  assert (Hb : forall l tx, (fix run_body (l : list act) (tx : pfs_tx) : option pfs_tx :=
     match l with [] => Some tx | a :: l => let* tx := run_act (Some h) a tx in run_body l tx end) l tx
     = run_acts (Some h) l tx).
  { induction l as [|a l IH]; intros tx'; [done|]. simpl. by destruct (run_act (Some h) a tx'). }
  by rewrite Hb.
Qed.

Lemma spec_act_op k bda idx body cb ov obj :
  mem bda !! Z.to_nat idx = Some obj ->
  spec_act k (AOp bda idx body cb) ov =
  alter seal (mo_key obj) (spec_acts (mo_key obj) body (ov_open obj ov)).
Proof.
  intros Hobj. cbn [spec_act]. rewrite Hobj. f_equal.
  generalize (ov_open obj ov). induction body as [|a l IH]; intros ov'; [done|]. by simpl.
Qed.

Lemma act_ok_op top bda idx body cb :
  act_ok top (AOp bda idx body cb) <->
  0 <= idx /\ (exists obj, mem bda !! Z.to_nat idx = Some obj /\ typed obj) /\ acts_ok false body.
Proof.
  cbn [act_ok]. assert (Hb : forall l, (fix ok_body (l : list act) : Prop :=
    match l with [] => True | a :: l => act_ok false a /\ ok_body l end) l <-> acts_ok false l).
  { induction l as [|a l IH]; [done|]. simpl. by rewrite IH. }
  by rewrite Hb.
Qed.
End Run.

(** ** The invariant

    [open] lists the open operations, innermost first, each with its head. *)
Definition nopen (open : list (nat * nat)) (r : nat) : Z :=
  Z.of_nat (length (filter (fun p => p.2 = r) open)).

Record head_ok (mem : Z -> list pfs_metaobj_phy) (open : list (nat * nat)) (r : nat) (t : pfs_txop)
  : Prop := {
  h_recreate : top_recreate t = false;
  h_inited : top_inited t = true;
  h_head : top_dup_head t = Some r;
  h_cnt : top_dup_cnt t = nopen open r;
  h_done : top_done t = bool_decide (r ∉ open.*1);
  h_idx : top_dup_idx t = 0 /\ 0 <= top_idx t;
  h_cell : exists bda obj, top_buf t = Some bda /\ top_bda t = bda /\
    mem bda !! Z.to_nat (top_idx t) = Some obj /\
    mo_key obj = mo_key (top_local t) /\ slack obj = slack (top_local t) /\
    typed obj /\ typed (top_local t) }.

Record open_ok (open : list (nat * nat)) (id r : nat) (t : pfs_txop) : Prop := {
  o_head : top_dup_head t = Some r;
  o_inited : top_inited t = true;
  o_done : top_done t = false;
  o_buf : exists b, top_buf t = Some b;
  o_idx : top_dup_idx t = nopen open r;
  o_dup : id <> r -> top_dup_cnt t = 0 /\ top_shadow t = None }.

Record tx_inv (mem : Z -> list pfs_metaobj_phy) (tx : pfs_tx) (ov : gmap key pfs_metaobj_phy)
    (open : list (nat * nat)) : Prop := {
  i_notdone : t_done tx = false;
  i_fresh : forall id, is_Some (t_heap tx !! id) -> (id < t_fresh tx)%nat;
  i_ops_nodup : NoDup (t_ops tx);
  i_nops : t_nops tx = Z.of_nat (length (t_ops tx));
  i_ops : forall id, id ∈ t_ops tx <-> id ∈ t_opsroot tx \/ id ∈ open.*1;
  i_root_nodup : NoDup (t_opsroot tx);
  i_root : forall r, r ∈ t_opsroot tx -> exists t, t_heap tx !! r = Some t /\
    head_ok mem open r t /\ ov !! mo_key (top_local t) = Some (top_local t);
  i_keys : forall r r' t t', r ∈ t_opsroot tx -> r' ∈ t_opsroot tx ->
    t_heap tx !! r = Some t -> t_heap tx !! r' = Some t' ->
    mo_key (top_local t) = mo_key (top_local t') -> r = r';
  i_ov : forall k, is_Some (ov !! k) -> exists r t, r ∈ t_opsroot tx /\ t_heap tx !! r = Some t /\
    mo_key (top_local t) = k;
  i_open_nodup : NoDup (open.*1);
  i_open : forall pre id r post, open = pre ++ (id, r) :: post ->
    r ∈ t_opsroot tx /\ exists t, t_heap tx !! id = Some t /\ open_ok post id r t }.

Lemma tx_inv_start mem : tx_inv mem (pfs_tx_get TXT_WRITE false) ∅ [].
Proof.
  split; simpl.
  - done.
  - intros id [t Ht]. by rewrite lookup_empty in Ht.
  - constructor.
  - done.
  - intros id. rewrite !elem_of_nil. tauto.
  - constructor.
  - intros r Hr. by apply elem_of_nil in Hr.
  - intros r r' t t' Hr. by apply elem_of_nil in Hr.
  - intros k [v Hv]. by rewrite lookup_empty in Hv.
  - constructor.
  - by intros [] ? ? ?.
Qed.

Lemma index_compare_eq a b : txop_index_compare a b = 0 <-> mo_key a = mo_key b.
Proof.
  unfold txop_index_compare, mo_key.
  destruct (Z.gtb_spec (mo_type a) (mo_type b)), (Z.ltb_spec (mo_type a) (mo_type b)),
    (Z.gtb_spec (mo_number a) (mo_number b)), (Z.ltb_spec (mo_number a) (mo_number b));
    split; intros; simplify_eq; try lia; f_equal; lia.
Qed.

(** Lookup through the index is lookup in the overlay. *)
Lemma tfind_spec mem tx ov open mo :
  tx_inv mem tx ov open ->
  match tx_tfind (t_heap tx) (t_opsroot tx) mo with
  | Some r => r ∈ t_opsroot tx /\ exists t, t_heap tx !! r = Some t /\
      mo_key (top_local t) = mo_key mo /\ ov !! mo_key mo = Some (top_local t)
  | None => ov !! mo_key mo = None
  end.
Proof.
  intros Hi. assert (Hgen : forall root, root ⊆ t_opsroot tx ->
    match tx_tfind (t_heap tx) root mo with
    | Some r => r ∈ root /\ exists t, t_heap tx !! r = Some t /\ mo_key (top_local t) = mo_key mo
    | None => forall r t, r ∈ root -> t_heap tx !! r = Some t -> mo_key (top_local t) <> mo_key mo
    end).
  { induction root as [|r root IH]; intros Hsub; simpl; [by intros ? ? ?%elem_of_nil|].
    destruct (i_root _ _ _ _ Hi r) as (t & Ht & _); [set_solver|]. rewrite Ht.
    specialize (IH ltac:(set_solver)). destruct (Z.eqb_spec (txop_index_compare mo (top_local t)) 0) as [E|E].
    - split; [by left|]. exists t. split; [done|]. symmetry. by apply index_compare_eq.
    - destruct (tx_tfind _ root mo) as [r'|].
      + destruct IH as [Hr' ?]. split; [by right|done].
      + intros r' t' [->|Hr']%elem_of_cons Ht'; [|by eapply IH].
        assert (t' = t) as -> by congruence. intros Ek. by apply E, index_compare_eq. }
  specialize (Hgen _ (reflexivity _)). destruct (tx_tfind _ _ mo) as [r|].
  - destruct Hgen as [Hr (t & Ht & Ek)]. split; [done|]. exists t. split_and!; [done|done|].
    destruct (i_root _ _ _ _ Hi r Hr) as (t' & Ht' & _ & Hov).
    assert (t' = t) as -> by congruence. by rewrite Ek in Hov.
  - apply eq_None_not_Some. intros (r & t & Hr & Ht & Ek)%(i_ov _ _ _ _ Hi). by eapply Hgen.
Qed.

Lemma get_mo_spec mem tx ov open mo :
  tx_inv mem tx ov open -> pfs_tx_get_mo (Some tx) mo = default mo (ov !! mo_key mo).
Proof.
  intros Hi. unfold pfs_tx_get_mo, pfs_tx_find_mo. rewrite (i_notdone _ _ _ _ Hi).
  pose proof (tfind_spec _ _ _ _ mo Hi) as Hf. destruct (tx_tfind _ _ mo) as [r|].
  - destruct Hf as [_ (t & -> & _ & ->)]. done.
  - by rewrite Hf.
Qed.

(** ** Opening *)
Lemma tfind_insert_fresh heap root n t mo :
  n ∉ root -> tx_tfind (<[n:=t]> heap) root mo = tx_tfind heap root mo.
Proof.
  induction root as [|r root IH]; intros Hn; [done|]. apply not_elem_of_cons in Hn as [Hne Hn].
  simpl. rewrite lookup_insert_ne by done. by rewrite IH.
Qed.

(** The operation [new_op] and [init] make of object [obj], as a duplicate
    of [r] or as a head. *)
Definition dup_top (obj : pfs_metaobj_phy) (bda idx : Z) (r : nat) (cnt : Z) : pfs_txop :=
  MkTop (MkObj (mo_number obj) 0 0 0 (mo_type obj) 0 0 0 0 (mo_data zero_obj))
    false true false (Some bda) bda idx None (Some r) None 0 cnt.
Definition head_top (obj : pfs_metaobj_phy) (bda idx : Z) (r : nat) : pfs_txop :=
  MkTop obj false true false (Some bda) bda idx None (Some r) None 1 0.

Definition opened (tx : pfs_tx) (root : list nat) (heap : gmap nat pfs_txop) : pfs_tx :=
  MkTx (t_type tx) (t_id tx) (t_done tx) (t_timeoutfail tx) (t_nops tx + 1)
    (t_ops tx ++ [t_fresh tx]) root (t_cbs tx) heap (S (t_fresh tx)).

Lemma heap_set m tx : t_heap (set_t_heap m tx) = m.
Proof. done. Qed.
Lemma root_set m tx : t_opsroot (set_t_heap m tx) = t_opsroot tx.
Proof. done. Qed.
Lemma upd_set id f m tx : tx_upd id f (set_t_heap m tx) = set_t_heap (alter f id m) tx.
Proof. done. Qed.
Lemma root_set_heap r m tx : set_t_opsroot r (set_t_heap m tx) = set_t_heap m (set_t_opsroot r tx).
Proof. done. Qed.

Lemma tfind_in heap root mo r : tx_tfind heap root mo = Some r -> r ∈ root.
Proof.
  induction root as [|a root IH]; simpl; [done|]. repeat case_match; intros; simplify_eq.
  - by left.
  - right. auto.
  - right. auto.
Qed.

Lemma new_init mem tx obj bda idx :
  mem bda !! Z.to_nat idx = Some obj -> t_fresh tx ∉ t_opsroot tx ->
  let n := t_fresh tx in
  pfs_txop_init (fst (pfs_tx_new_op tx)) (snd (pfs_tx_new_op tx)) mem bda idx bda =
  match tx_tfind (t_heap tx) (t_opsroot tx) obj with
  | Some r =>
      if decide (r = n) then None else
      match t_heap tx !! r with
      | Some h => Some (opened tx (t_opsroot tx) (<[n := dup_top obj bda idx r (top_dup_cnt h)]>
                    (alter (fun h => set_top_dup_cnt (top_dup_cnt h + 1) h) r (t_heap tx))), r)
      | None => None
      end
  | None => Some (opened tx (t_opsroot tx ++ [n]) (<[n := head_top obj bda idx n]> (t_heap tx)), n)
  end.
Proof.
  intros Hobj Hn n.
  assert (Enew : pfs_tx_new_op tx = (set_t_heap (<[n:=txop_new]> (t_heap tx)) (opened tx (t_opsroot tx) (t_heap tx)), n)).
  { done. }
  rewrite Enew. cbn [fst snd]. unfold pfs_txop_init.
  rewrite heap_set, lookup_insert_eq, Hobj. cbn [top_recreate top_inited top_done txop_new negb andb].
  rewrite upd_set, alter_insert_eq. unfold pfs_tx_index_op.
  rewrite heap_set, root_set, tfind_insert_fresh by done.
  change (t_opsroot (opened tx (t_opsroot tx) (t_heap tx))) with (t_opsroot tx).
  set (l := MkObj _ _ _ _ _ _ _ _ _ _).
  assert (Hl : forall root, tx_tfind (t_heap tx) root l = tx_tfind (t_heap tx) root obj).
  { induction root as [|r root IH]; simpl; [done|]. by rewrite IH. }
  rewrite Hl. destruct (tx_tfind (t_heap tx) (t_opsroot tx) obj) as [r|] eqn:Ef.
  - assert (Hr : r <> n) by (intros ->; apply Hn; by eapply tfind_in).
    destruct (Nat.eqb_spec r n); [done|]. rewrite decide_False by done.
    rewrite upd_set, alter_insert_eq, heap_set, lookup_insert_ne by done.
    destruct (t_heap tx !! r) as [h|] eqn:Eh; [|done].
    rewrite !upd_set, alter_insert_eq, alter_insert_ne by done. done.
  - rewrite Nat.eqb_refl, root_set_heap, !upd_set, !alter_insert_eq, heap_set, lookup_insert_eq.
    by rewrite !upd_set, !alter_insert_eq.
Qed.

Lemma nopen_cons id h open r :
  nopen ((id, h) :: open) r = nopen open r + (if decide (h = r) then 1 else 0).
Proof.
  unfold nopen. rewrite filter_cons. simpl. destruct (decide (h = r)); simpl; lia.
Qed.

Lemma filter_remove_length (n : nat) l :
  NoDup l -> n ∈ l -> length l = S (length (filter (fun o => o <> n) l)).
Proof.
  assert (Hid : forall l : list nat, n ∉ l -> filter (fun o => o <> n) l = l).
  { induction l0 as [|a l0 IH]; intros Hn; [done|]. apply not_elem_of_cons in Hn as [? ?].
    rewrite filter_cons_True, IH by done. done. }
  intros Hnd. induction Hnd as [|a l Ha Hnd IH]; intros Hin; [by apply elem_of_nil in Hin|].
  destruct (decide (a = n)) as [->|Hne].
  - rewrite filter_cons_False, Hid by tauto. done.
  - rewrite filter_cons_True by done. simpl. f_equal. apply IH. by apply elem_of_cons in Hin as [->|?].
Qed.

Section Inv.
Context (mem : Z -> list pfs_metaobj_phy).

Lemma root_heap tx ov open r : tx_inv mem tx ov open -> r ∈ t_opsroot tx -> is_Some (t_heap tx !! r).
Proof. intros Hi (t & -> & _)%(i_root _ _ _ _ Hi). done. Qed.

Lemma open_split {A} (l : list A) x : x ∈ l -> exists pre post, l = pre ++ x :: post.
Proof. apply list_elem_of_split. Qed.

Lemma open_elem tx ov open id r :
  tx_inv mem tx ov open -> (id, r) ∈ open -> r ∈ t_opsroot tx /\ is_Some (t_heap tx !! id).
Proof.
  intros Hi (pre & post & E)%open_split.
  destruct (i_open _ _ _ _ Hi _ _ _ _ E) as [? (t & -> & _)]. done.
Qed.

Lemma fresh_not_root tx ov open : tx_inv mem tx ov open -> t_fresh tx ∉ t_opsroot tx.
Proof.
  intros Hi Hin. pose proof (i_fresh _ _ _ _ Hi _ (root_heap _ _ _ _ Hi Hin)). lia.
Qed.

Lemma fresh_not_open tx ov open : tx_inv mem tx ov open -> t_fresh tx ∉ open.*1.
Proof.
  intros Hi ([id r] & E & Hin)%list_elem_of_fmap. simpl in E.
  destruct (open_elem _ _ _ _ _ Hi Hin) as [_ Hs]. subst id. pose proof (i_fresh _ _ _ _ Hi _ Hs). lia.
Qed.

Lemma nopen_fresh tx ov open : tx_inv mem tx ov open -> nopen open (t_fresh tx) = 0.
Proof.
  intros Hi. unfold nopen. replace (filter _ open) with (@nil (nat * nat)); [done|].
  symmetry. apply elem_of_nil_inv. intros [id r] [Er Hin]%list_elem_of_filter. simpl in Er. subst r.
  destruct (open_elem _ _ _ _ _ Hi Hin) as [Hr _]. by apply (fresh_not_root _ _ _ Hi).
Qed.

Lemma fresh_not_ops tx ov open : tx_inv mem tx ov open -> t_fresh tx ∉ t_ops tx.
Proof.
  intros Hi [Hin|Hin]%(i_ops _ _ _ _ Hi).
  - by apply (fresh_not_root _ _ _ Hi).
  - by apply (fresh_not_open _ _ _ Hi).
Qed.

Lemma h_done_cons (open : list (nat * nat)) (n h r : nat) t :
  n <> r -> top_done t = bool_decide (r ∉ open.*1) -> top_done t = bool_decide (r ∉ ((n, h) :: open).*1).
Proof.
  intros Hne ->. apply bool_decide_ext. simpl. rewrite not_elem_of_cons.
  split; [intros ?; split; [congruence|done]|by intros [_ ?]].
Qed.

(** Changing how often a head is open. *)
Lemma head_ok_open open n h r t :
  n <> r -> head_ok mem open r t ->
  head_ok mem ((n, h) :: open) r (set_top_dup_cnt (top_dup_cnt t + (if decide (h = r) then 1 else 0)) t).
Proof.
  intros Hne [H1 H2 H3 H4 H5 H6 H7]. split; try done; simpl.
  - rewrite nopen_cons, H4. done.
  - by apply (h_done_cons open n h).
Qed.

Lemma set_cnt_id t : set_top_dup_cnt (top_dup_cnt t + 0) t = t.
Proof. destruct t. unfold set_top_dup_cnt. simpl. f_equal. lia. Qed.

Lemma open_dup tx ov open obj bda idx r h :
  let n := t_fresh tx in
  tx_inv mem tx ov open -> r ∈ t_opsroot tx -> t_heap tx !! r = Some h ->
  tx_inv mem (opened tx (t_opsroot tx) (<[n := dup_top obj bda idx r (top_dup_cnt h)]>
      (alter (fun h => set_top_dup_cnt (top_dup_cnt h + 1) h) r (t_heap tx)))) ov ((n, r) :: open).
Proof.
  intros n Hi Hr Hh. pose proof (fresh_not_root _ _ _ Hi) as Hnr. fold n in Hnr.
  assert (Hlk : forall x, x ∈ t_opsroot tx ->
    (<[n := dup_top obj bda idx r (top_dup_cnt h)]>
      (alter (fun h => set_top_dup_cnt (top_dup_cnt h + 1) h) r (t_heap tx))) !! x
    = (fun t => set_top_dup_cnt (top_dup_cnt t + (if decide (r = x) then 1 else 0)) t) <$> t_heap tx !! x).
  { intros x Hx. rewrite lookup_insert_ne by (by intros ->). destruct (decide (r = x)) as [->|Hne].
    - by rewrite lookup_alter_eq.
    - rewrite lookup_alter_ne by done. destruct (t_heap tx !! x); simpl; [|done]. by rewrite set_cnt_id. }
  split; cbn [t_done t_heap t_fresh t_ops t_nops t_opsroot opened].
  - apply Hi.
  - intros id. destruct (decide (id = n)) as [->|Hne]; [lia|]. rewrite lookup_insert_ne by done.
    intros Hs. assert (is_Some (t_heap tx !! id)) as Hs' by (by apply lookup_alter_is_Some in Hs).
    pose proof (i_fresh _ _ _ _ Hi _ Hs'). lia.
  - apply NoDup_app. split_and!; [apply Hi| |by apply NoDup_singleton].
    intros x Hx ->%list_elem_of_singleton. by apply (fresh_not_ops _ _ _ Hi).
  - rewrite length_app, (i_nops _ _ _ _ Hi). simpl. lia.
  - intros id. rewrite elem_of_app, list_elem_of_singleton, (i_ops _ _ _ _ Hi). simpl.
    rewrite elem_of_cons. fold n. tauto.
  - apply Hi.
  - intros x Hx. destruct (i_root _ _ _ _ Hi x Hx) as (t & Ht & Hok & Hov).
    rewrite Hlk, Ht by done. eexists. split; [done|]. split; [|done].
    apply head_ok_open; [by intros ->|done].
  - intros x y t t' Hx Hy. rewrite !Hlk by done.
    destruct (i_root _ _ _ _ Hi x Hx) as (tx0 & Htx & _), (i_root _ _ _ _ Hi y Hy) as (ty0 & Hty & _).
    rewrite Htx, Hty. intros [= <-] [= <-] Ek. by eapply (i_keys _ _ _ _ Hi).
  - intros k Hk. destruct (i_ov _ _ _ _ Hi k Hk) as (x & t & Hx & Ht & Ek).
    exists x. rewrite Hlk, Ht by done. eexists. split; [done|]. by split.
  - simpl. constructor; [|apply Hi]. apply (fresh_not_open _ _ _ Hi).
  - intros pre id q post E. destruct pre as [|p pre]; simplify_eq/=.
    + split; [done|]. rewrite lookup_insert_eq. eexists. split; [done|]. split; simpl; try done; [by eexists|].
      destruct (i_root _ _ _ _ Hi q Hr) as (t & Ht & Hok & _). rewrite Hh in Ht. simplify_eq.
      apply (h_cnt _ _ _ _ Hok).
    + destruct (i_open _ _ _ _ Hi pre id q post eq_refl) as [Hq (t & Ht & Hok)]. split; [done|].
      assert (id <> n) by (intros ->; pose proof (i_fresh _ _ _ _ Hi n ltac:(by exists t)); lia).
      rewrite lookup_insert_ne by done. destruct (decide (r = id)) as [->|Hne].
      * rewrite lookup_alter_eq, Ht. eexists. split; [done|]. destruct Hok. split; try done.
        intros Hne. exfalso. destruct (i_root _ _ _ _ Hi id Hr) as (t' & Ht' & Hok' & _).
        rewrite Ht in Ht'. simplify_eq. destruct Hok'. congruence.
      * rewrite lookup_alter_ne by done. eauto.
Qed.
Lemma open_new tx ov open obj bda idx :
  let n := t_fresh tx in
  tx_inv mem tx ov open -> 0 <= idx -> mem bda !! Z.to_nat idx = Some obj -> typed obj -> ov !! mo_key obj = None ->
  tx_inv mem (opened tx (t_opsroot tx ++ [n]) (<[n := head_top obj bda idx n]> (t_heap tx)))
    (<[mo_key obj := obj]> ov) ((n, n) :: open).
Proof.
  intros n Hi Hpos Hobj Hty Hov. pose proof (fresh_not_root _ _ _ Hi) as Hnr. fold n in Hnr.
  assert (Hlk : forall x, x ∈ t_opsroot tx -> <[n := head_top obj bda idx n]> (t_heap tx) !! x = t_heap tx !! x).
  { intros x Hx. apply lookup_insert_ne. by intros ->. }
  assert (Hkey : forall x t, x ∈ t_opsroot tx -> t_heap tx !! x = Some t -> mo_key obj <> mo_key (top_local t)).
  { intros x t Hx Ht Ek. destruct (i_root _ _ _ _ Hi x Hx) as (t' & Ht' & _ & Ho). congruence. }
  split; cbn [t_done t_heap t_fresh t_ops t_nops t_opsroot opened].
  - apply Hi.
  - intros id. destruct (decide (id = n)) as [->|Hne]; [lia|]. rewrite lookup_insert_ne by done.
    intros Hs. pose proof (i_fresh _ _ _ _ Hi _ Hs). lia.
  - apply NoDup_app. split_and!; [apply Hi| |by apply NoDup_singleton].
    intros x Hx ->%list_elem_of_singleton. by apply (fresh_not_ops _ _ _ Hi).
  - rewrite length_app, (i_nops _ _ _ _ Hi). simpl. lia.
  - intros id. rewrite !elem_of_app, !list_elem_of_singleton, (i_ops _ _ _ _ Hi). simpl.
    rewrite elem_of_cons. fold n. tauto.
  - apply NoDup_app. split_and!; [apply Hi| |by apply NoDup_singleton].
    by intros x Hx ->%list_elem_of_singleton.
  - intros x [Hx| ->%list_elem_of_singleton]%elem_of_app.
    + destruct (i_root _ _ _ _ Hi x Hx) as (t & Ht & Hok & Ho). rewrite Hlk by done.
      exists t. split; [done|]. split.
      * rewrite <- (set_cnt_id t). replace 0 with (if decide (n = x) then 1 else 0)
          by (rewrite decide_False by (by intros ->); done).
        apply head_ok_open; [by intros ->|done].
      * rewrite lookup_insert_ne by (by eapply Hkey). done.
    + rewrite lookup_insert_eq. eexists. split; [done|]. split; [|by rewrite lookup_insert_eq].
      split; simpl; try done.
      * rewrite nopen_cons, decide_True by done. pose proof (nopen_fresh _ _ _ Hi) as H0. fold n in H0. lia.
      * symmetry. apply bool_decide_eq_false. intros Hn. apply Hn. by left.
      * by exists bda, obj.
  - intros x y t t' Hx Hy Ht Ht' Ek.
    apply elem_of_app in Hx as [Hx|Hx%list_elem_of_singleton], Hy as [Hy|Hy%list_elem_of_singleton]; subst.
    + rewrite Hlk in Ht, Ht' by done. by eapply (i_keys _ _ _ _ Hi).
    + rewrite Hlk in Ht by done. rewrite lookup_insert_eq in Ht'. injection Ht' as <-.
      exfalso. by apply (Hkey _ _ Hx Ht).
    + rewrite Hlk in Ht' by done. rewrite lookup_insert_eq in Ht. injection Ht as <-.
      exfalso. by apply (Hkey _ _ Hy Ht').
    + done.
  - intros k Hk. destruct (decide (k = mo_key obj)) as [->|Hne].
    + exists n, (head_top obj bda idx n). rewrite lookup_insert_eq. split_and!; [set_solver|done|done].
    + rewrite lookup_insert_ne in Hk by done.
      destruct (i_ov _ _ _ _ Hi k Hk) as (x & t & Hx & Ht & Ek). exists x, t. rewrite Hlk by done.
      split_and!; [set_solver|done|done].
  - simpl. constructor; [|apply Hi]. apply (fresh_not_open _ _ _ Hi).
  - intros pre id q post E. destruct pre as [|p pre]; simplify_eq/=.
    + split; [set_solver|]. rewrite lookup_insert_eq. eexists. split; [done|]. split; simpl; try done; [by eexists|].
      symmetry. apply (nopen_fresh _ _ _ Hi).
    + destruct (i_open _ _ _ _ Hi pre id q post eq_refl) as [Hq (t & Ht & Hok)]. split; [set_solver|].
      assert (id <> n) by (intros ->; pose proof (i_fresh _ _ _ _ Hi n ltac:(by exists t)); lia).
      rewrite lookup_insert_ne by done. eauto.
Qed.

(** Opening an operation on [obj] puts it into the overlay if it is not
    there yet. *)
Lemma open_op tx ov open obj bda idx :
  tx_inv mem tx ov open -> 0 <= idx -> mem bda !! Z.to_nat idx = Some obj -> typed obj ->
  exists tx' h, pfs_txop_init (fst (pfs_tx_new_op tx)) (snd (pfs_tx_new_op tx)) mem bda idx bda = Some (tx', h) /\
    tx_inv mem tx' (ov_open obj ov) ((snd (pfs_tx_new_op tx), h) :: open) /\
    exists t, t_heap tx' !! h = Some t /\ mo_key (top_local t) = mo_key obj.
Proof.
  intros Hi Hpos Hobj Hty. rewrite (new_init mem tx obj) by (done || by eapply fresh_not_root).
  pose proof (tfind_spec _ _ _ _ obj Hi) as Hf. unfold ov_open.
  change (snd (pfs_tx_new_op tx)) with (t_fresh tx).
  destruct (tx_tfind _ _ obj) as [r|].
  - destruct Hf as [Hr (t & Ht & Ek & Hov)]. rewrite Hov.
    assert (Hne : r <> t_fresh tx) by (intros ->; by apply (fresh_not_root _ _ _ Hi)).
    rewrite decide_False, Ht by done. eexists _, _. split; [done|]. split; [by apply open_dup|].
    simpl. rewrite lookup_insert_ne, lookup_alter_eq, Ht by done. by eexists.
  - rewrite Hf. eexists _, _. split; [done|]. split; [by apply open_new|].
    simpl. rewrite lookup_insert_eq. by eexists.
Qed.
(** ** Modifying *)
Lemma keeps_seal : keeps seal.
Proof. by intros []. Qed.

Lemma modify_inv tx ov open h t f :
  tx_inv mem tx ov open -> h ∈ t_opsroot tx -> t_heap tx !! h = Some t -> keeps f ->
  tx_inv mem (tx_upd h (fun t => set_top_local (f (top_local t)) t) tx)
    (alter f (mo_key (top_local t)) ov) open.
Proof.
  intros Hi Hh Ht Hf. set (g := fun t => set_top_local (f (top_local t)) t).
  assert (Hkey : forall x, mo_key (top_local (g x)) = mo_key (top_local x)).
  { intros x. apply (Hf (top_local x)). }
  assert (Hlk : forall x y, alter g h (t_heap tx) !! x = Some y ->
    exists z, t_heap tx !! x = Some z /\ y = (if decide (x = h) then g z else z)).
  { intros x y. destruct (decide (x = h)) as [->|Hne].
    - rewrite lookup_alter_eq, Ht. intros [= <-]. eauto.
    - rewrite lookup_alter_ne by done. eauto. }
  split; cbn [t_done t_heap t_fresh t_ops t_nops t_opsroot tx_upd set_t_heap]; try apply Hi.
  - intros id [y Hy]. destruct (Hlk _ _ Hy) as (z & Hz & _). apply (i_fresh _ _ _ _ Hi). by eexists.
  - intros r Hr. destruct (i_root _ _ _ _ Hi r Hr) as (t' & Ht' & Hok & Ho).
    destruct (decide (r = h)) as [->|Hne].
    + rewrite lookup_alter_eq, Ht'. eexists. split; [done|]. assert (t' = t) as -> by congruence. split.
      * destruct Hok as [H1 H2 H3 H4 H5 H6 (bda & obj & ? & ? & ? & ? & ? & ? & ?)]. split; try done.
        exists bda, obj. destruct (Hf (top_local t)) as (Ek & Es & Ety). simpl. rewrite Ek, Es. split_and!; auto.
      * rewrite Hkey, lookup_alter_eq, Ho. done.
    + rewrite lookup_alter_ne by done. exists t'. split; [done|]. split; [done|].
      rewrite lookup_alter_ne; [done|]. intros Ek. apply Hne. symmetry. by eapply (i_keys _ _ _ _ Hi).
  - intros r r' y y' Hr Hr' (z & Hz & ->)%Hlk (z' & Hz' & ->)%Hlk Ek. eapply (i_keys _ _ _ _ Hi); try done.
    revert Ek. repeat case_decide; rewrite ?Hkey; done.
  - intros k Hk. apply lookup_alter_is_Some in Hk. destruct (i_ov _ _ _ _ Hi k Hk) as (r & z & Hr & Hz & Ek).
    exists r. destruct (decide (r = h)) as [->|Hne].
    + rewrite lookup_alter_eq, Hz. eexists. split_and!; [done|done|]. by rewrite Hkey.
    + rewrite lookup_alter_ne by done. eauto.
  - intros pre id r post E. destruct (i_open _ _ _ _ Hi _ _ _ _ E) as [Hr (z & Hz & Hok)]. split; [done|].
    destruct (decide (id = h)) as [->|Hne].
    + rewrite lookup_alter_eq, Hz. eexists. split; [done|]. by destruct Hok.
    + rewrite lookup_alter_ne by done. eauto.
Qed.

(** ** Closing *)
Lemma id_in_open (pre : list (nat * nat)) id r post : id ∈ (pre ++ (id, r) :: post).*1.
Proof. apply list_elem_of_fmap. exists (id, r). split; [done|]. apply elem_of_app. right. by left. Qed.

Lemma head_ok_close open n h r t :
  n <> r -> head_ok mem ((n, h) :: open) r t ->
  head_ok mem open r (set_top_dup_cnt (top_dup_cnt t - (if decide (h = r) then 1 else 0)) t).
Proof.
  intros Hne [H1 H2 H3 H4 H5 H6 H7]. split; try done; simpl.
  - rewrite H4, nopen_cons. lia.
  - rewrite H5. apply bool_decide_ext. simpl. rewrite not_elem_of_cons.
    split; [by intros [_ ?]|intros ?; split; [congruence|done]].
Qed.

Lemma close_head tx ov open h cb :
  let g := fun x => set_top_dup_cnt (top_dup_cnt x - 1) (set_top_done cb x) in
  tx_inv mem tx ov ((h, h) :: open) -> tx_inv mem (tx_upd h g tx) ov open.
Proof.
  intros g Hi.
  assert (Hlk : forall x y, alter g h (t_heap tx) !! x = Some y ->
    exists z, t_heap tx !! x = Some z /\ top_local y = top_local z).
  { intros x y. destruct (decide (x = h)) as [->|Hne].
    - rewrite lookup_alter_eq. destruct (t_heap tx !! h); [|done]. intros [= <-]. eauto.
    - rewrite lookup_alter_ne by done. eauto. }
  pose proof (i_open_nodup _ _ _ _ Hi) as [Hnin Hnd]%NoDup_cons.
  destruct (i_open _ _ _ _ Hi [] h h open eq_refl) as [Hr _].
  split; cbn [t_done t_heap t_fresh t_ops t_nops t_opsroot tx_upd set_t_heap]; try apply Hi; try done.
  - intros id [y Hy]. destruct (Hlk _ _ Hy) as (z & Hz & _). apply (i_fresh _ _ _ _ Hi). by eexists.
  - intros id. rewrite (i_ops _ _ _ _ Hi). simpl. rewrite elem_of_cons. split; [|tauto].
    intros [?|[->|?]]; auto.
  - intros r Hr'. destruct (i_root _ _ _ _ Hi r Hr') as (t & Ht & Hok & Ho).
    destruct (decide (r = h)) as [->|Hne].
    + rewrite lookup_alter_eq, Ht. eexists. split; [done|]. split; [|done].
      destruct Hok as [H1 H2 H3 H4 H5 H6 H7]. split; try done; simpl.
      * rewrite H4, nopen_cons, decide_True by done. lia.
      * symmetry. by apply bool_decide_eq_true.
    + rewrite lookup_alter_ne by done. exists t. split; [done|]. split; [|done].
      apply head_ok_close in Hok; [|done]. rewrite decide_False in Hok by done.
      by rewrite Z.sub_0_r in Hok; destruct t.
  - intros r r' y y' H1 H2 (z & Hz & E)%Hlk (z' & Hz' & E')%Hlk Ek. rewrite E, E' in Ek.
    by eapply (i_keys _ _ _ _ Hi).
  - intros k Hk. destruct (i_ov _ _ _ _ Hi k Hk) as (r & z & Hr' & Hz & Ek). exists r.
    destruct (decide (r = h)) as [->|Hne].
    + rewrite lookup_alter_eq, Hz. by eexists.
    + rewrite lookup_alter_ne by done. eauto.
  - intros pre id r post E. destruct (i_open _ _ _ _ Hi ((h, h) :: pre) id r post) as [Hr' (z & Hz & Hok)];
      [by rewrite E|]. split; [done|].
    rewrite lookup_alter_ne; [eauto|]. intros <-. apply Hnin. rewrite E. apply id_in_open.
Qed.

(** The heap after an operation [n] other than the head [h] is closed. *)
Definition merged (cb : option Z) (n h : nat) (m : gmap nat pfs_txop) : gmap nat pfs_txop :=
  match cb with
  | Some _ =>
      alter (set_top_shadow (Some n)) h
        (alter (set_top_shadow (m !! h ≫= top_shadow)) n m)
  | None => delete n m
  end.

Lemma merged_ne cb n h m x : x <> n -> x <> h -> merged cb n h m !! x = m !! x.
Proof.
  intros. unfold merged. destruct cb; [|by rewrite lookup_delete_ne].
  by rewrite !lookup_alter_ne by done.
Qed.

Lemma merged_h cb n h m t :
  n <> h -> m !! h = Some t -> exists s, merged cb n h m !! h = Some (set_top_shadow s t).
Proof.
  intros Hne Ht. unfold merged. destruct cb.
  - rewrite lookup_alter_eq, lookup_alter_ne, Ht by done. by eexists.
  - rewrite lookup_delete_ne by done. exists (top_shadow t). rewrite Ht. by destruct t.
Qed.

Lemma merged_dom cb n h m x : is_Some (merged cb n h m !! x) -> is_Some (m !! x).
Proof.
  unfold merged. destruct cb; [by rewrite !lookup_alter_is_Some|].
  intros [y [_ Hy]%lookup_delete_Some]. by eexists.
Qed.

Definition close_dup_heap (cb : option Z) (n h : nat) (m : gmap nat pfs_txop) : gmap nat pfs_txop :=
  merged cb n h (alter (fun x => set_top_dup_cnt (top_dup_cnt x - 1) x) h (alter (set_top_done cb) n m)).

Lemma close_dup_heap_ne cb n h m x : x <> n -> x <> h -> close_dup_heap cb n h m !! x = m !! x.
Proof. intros. unfold close_dup_heap. by rewrite merged_ne, !lookup_alter_ne by done. Qed.

Lemma close_dup_heap_h cb n h m t :
  n <> h -> m !! h = Some t ->
  exists s, close_dup_heap cb n h m !! h = Some (set_top_shadow s (set_top_dup_cnt (top_dup_cnt t - 1) t)).
Proof.
  intros Hne Ht. apply merged_h; [done|]. by rewrite lookup_alter_eq, lookup_alter_ne, Ht by done.
Qed.

Lemma close_dup tx ov open n h cb :
  n <> h -> tx_inv mem tx ov ((n, h) :: open) ->
  tx_inv mem (set_t_heap (close_dup_heap cb n h (t_heap tx))
    (set_t_ops (t_nops tx - 1) (filter (fun o => o <> n) (t_ops tx)) tx)) ov open.
Proof.
  intros Hnh Hi. pose proof (i_open_nodup _ _ _ _ Hi) as [Hnin Hnd]%NoDup_cons.
  destruct (i_open _ _ _ _ Hi [] n h open eq_refl) as [Hh (tn & Htn & Hokn)].
  assert (Hnr : n ∉ t_opsroot tx).
  { intros Hr. destruct (i_root _ _ _ _ Hi n Hr) as (t & Ht & Hok & _).
    assert (t = tn) as -> by congruence. pose proof (o_head _ _ _ _ Hokn). pose proof (h_head _ _ _ _ Hok).
    congruence. }
  assert (Hne : forall r, r ∈ t_opsroot tx -> r <> n) by (intros r Hr ->; done).
  assert (Hroot : forall r t, r ∈ t_opsroot tx -> t_heap tx !! r = Some t ->
    exists s d, close_dup_heap cb n h (t_heap tx) !! r = Some (set_top_shadow s (set_top_dup_cnt d t)) /\
      d = top_dup_cnt t - (if decide (h = r) then 1 else 0)).
  { intros r t Hr Ht. destruct (decide (h = r)) as [<-|Hr'].
    - destruct (close_dup_heap_h cb n h _ t Hnh Ht) as [s ->]. eauto.
    - rewrite close_dup_heap_ne by auto. exists (top_shadow t), (top_dup_cnt t).
      split; [|lia]. rewrite Ht. by destruct t. }
  assert (Hback : forall r y, r ∈ t_opsroot tx -> close_dup_heap cb n h (t_heap tx) !! r = Some y ->
    exists t, t_heap tx !! r = Some t /\ top_local y = top_local t).
  { intros r y Hr Hy. destruct (root_heap _ _ _ _ Hi Hr) as [t Ht]. exists t. split; [done|].
    destruct (Hroot r t Hr Ht) as (s & d & Hy' & _). rewrite Hy' in Hy. by injection Hy as <-. }
  split; cbn [t_done t_heap t_fresh t_ops t_nops t_opsroot tx_upd set_t_heap set_t_ops]; try apply Hi; try done.
  - intros id Hs%merged_dom. rewrite !lookup_alter_is_Some in Hs. by apply (i_fresh _ _ _ _ Hi).
  - apply NoDup_filter, Hi.
  - rewrite (i_nops _ _ _ _ Hi). assert (Hin : n ∈ t_ops tx) by (apply (i_ops _ _ _ _ Hi); right; by left).
    pose proof (i_ops_nodup _ _ _ _ Hi) as Hnd'. pose proof (filter_remove_length n _ Hnd' Hin). lia.
  - intros id. rewrite list_elem_of_filter, (i_ops _ _ _ _ Hi). simpl. rewrite elem_of_cons. split.
    + intros [? [?|[->|?]]]; tauto.
    + intros [Hr|Ho]; (split; [|tauto]); [by apply Hne|]. intros ->. done.
  - intros r Hr. destruct (i_root _ _ _ _ Hi r Hr) as (t & Ht & Hok & Ho).
    destruct (Hroot r t Hr Ht) as (s & d & -> & ->). eexists. split; [done|]. split; [|done].
    apply head_ok_close in Hok; [|by apply not_eq_sym, Hne]. by destruct Hok.
  - intros r r' y y' Hr Hr' (z & Hz & E)%Hback (z' & Hz' & E')%Hback Ek; [|done..]. rewrite E, E' in Ek.
    by eapply (i_keys _ _ _ _ Hi).
  - intros k Hk. destruct (i_ov _ _ _ _ Hi k Hk) as (r & z & Hr & Hz & Ek).
    destruct (Hroot r z Hr Hz) as (s & d & Hy & _). exists r. eexists. split_and!; [done|done|]. done.
  - intros pre id r post E.
    destruct (i_open _ _ _ _ Hi ((n, h) :: pre) id r post) as [Hr' (z & Hz & Hok)]; [by rewrite E|].
    split; [done|]. assert (id <> n) by (intros ->; apply Hnin; rewrite E; apply id_in_open).
    destruct (decide (id = h)) as [->|].
    + destruct (Hroot h z Hh Hz) as (s & d & -> & _). eexists. split; [done|].
      destruct Hok as [E1 ? ? ? ? ?]. split; try done. intros Hc. exfalso.
      destruct (i_root _ _ _ _ Hi h Hh) as (z' & Hz' & Hok' & _). assert (z' = z) as -> by congruence.
      pose proof (h_head _ _ _ _ Hok'). congruence.
    + rewrite close_dup_heap_ne by done. eauto.
Qed.
End Inv.
