(* ===== verification/TxSafe.v ===== *)
(** * Transactions: refinement of the overlay, and application

    The nesting of [pfs_tx_new_op] / [pfs_txop_init] / [pfs_tx_done_op] never
    fails an assertion, computes the overlay of private copies of [Tx], and
    [pfs_tx_apply] writes exactly that overlay to the meta cache. *)

From S2P Require Import Prelude Crc Object Tx.

Open Scope pfs_scope.

(** ** One operation *)

(** What stays of the heads of a transaction: they stay heads of the same object. *)
Definition heads_kept (tx tx' : pfs_tx) : Prop :=
  forall h t, h ∈ t_opsroot tx -> t_heap tx !! h = Some t ->
    h ∈ t_opsroot tx' /\ exists t', t_heap tx' !! h = Some t' /\ mo_key (top_local t') = mo_key (top_local t).

#[export] Instance heads_kept_preorder : PreOrder heads_kept.
Proof.
  split; [intros tx h t ? ?; eauto|].
  intros tx1 tx2 tx3 H12 H23 h t Hh Ht. destruct (H12 h t Hh Ht) as (Hh2 & t2 & Ht2 & <-).
  destruct (H23 h t2 Hh2 Ht2) as (? & t3 & ? & ?). eauto.
Qed.

Lemma alter_twice (f g : pfs_txop -> pfs_txop) (i : nat) (m : gmap nat pfs_txop) :
  alter g i (alter f i m) = alter (fun x => g (f x)) i m.
Proof.
  apply map_eq. intros j. destruct (decide (i = j)) as [->|Hne].
  - rewrite !lookup_alter_eq. by destruct (m !! j).
  - by rewrite !lookup_alter_ne.
Qed.

Lemma upd_def i f tx : tx_upd i f tx = set_t_heap (alter f i (t_heap tx)) tx.
Proof. done. Qed.

Section Run.
Context (mem : Z -> list pfs_metaobj_phy).

Lemma heads_kept_upd tx h f :
  (forall x, mo_key (top_local (f x)) = mo_key (top_local x)) -> heads_kept tx (tx_upd h f tx).
Proof.
  intros Hf r t Hr Ht. split; [done|]. simpl. destruct (decide (r = h)) as [->|Hne].
  - rewrite lookup_alter_eq, Ht. by eexists.
  - rewrite lookup_alter_ne by done. eauto.
Qed.

(** The two updates of [pfs_txop_update] after the checksum, on head [h]. *)
Lemma update_ok tx ov open n h cb :
  tx_inv mem tx ov ((n, h) :: open) ->
  pfs_txop_update tx n cb = Some
    (tx_upd h (fun x => set_top_dup_cnt (top_dup_cnt x - 1) x) (tx_upd n (set_top_done cb)
      (tx_upd h (fun x => set_top_local (seal (top_local x)) x) tx))).
Proof.
  intros Hi. destruct (i_open _ _ _ _ Hi [] n h open eq_refl) as [Hh (tn & Htn & Hok)].
  destruct (i_root _ _ _ _ Hi h Hh) as (th & Hth & Hokh & _).
  destruct Hok as [E1 E2 E3 [b E4] E5 E6]. unfold pfs_txop_update. rewrite Htn, E4, E2, E3, E1.
  cbn [negb andb]. rewrite (upd_def h _ tx), !upd_set, !heap_set.
  pose proof (h_cnt _ _ _ _ Hokh) as Hc. rewrite nopen_cons, decide_True in Hc by done.
  destruct (decide (n = h)) as [->|Hne].
  - assert (tn = th) as -> by congruence. pose proof (h_idx _ _ _ _ Hokh) as [Hx _].
    rewrite !alter_twice, lookup_alter_eq, Hth. cbn [fmap option_fmap option_map].
    replace (top_dup_idx _ =? top_dup_cnt _) with true by (symmetry; apply Z.eqb_eq; simpl; lia).
    replace (top_dup_cnt _ =? 0) with true by (symmetry; apply Z.eqb_eq; simpl; lia).
    done.
  - rewrite lookup_alter_eq, lookup_alter_ne, lookup_alter_eq, Hth by done.
    rewrite !lookup_alter_ne, lookup_alter_eq, lookup_alter_ne, Htn by done.
    cbn [fmap option_fmap option_map]. destruct (E6 Hne) as [E7 E8].
    replace (top_dup_idx _ =? top_dup_cnt _) with true by (symmetry; apply Z.eqb_eq; simpl; lia).
    replace (top_dup_cnt _ =? 0) with true by (symmetry; apply Z.eqb_eq; simpl; lia).
    done.
Qed.

Lemma done_ok tx ov open n h t cb :
  tx_inv mem tx ov ((n, h) :: open) -> t_heap tx !! h = Some t ->
  exists tx', pfs_tx_done_op tx n cb = Some tx' /\
    tx_inv mem tx' (alter seal (mo_key (top_local t)) ov) open /\ heads_kept tx tx'.
Proof.
  intros Hi Ht. destruct (i_open _ _ _ _ Hi [] n h open eq_refl) as [Hh (tn & Htn & Hok)].
  pose proof (modify_inv mem _ _ _ h t seal Hi Hh Ht keeps_seal) as Hi1.
  unfold pfs_tx_done_op. rewrite (update_ok _ _ _ _ _ _ Hi).
  set (tx1 := tx_upd h (fun x => set_top_local (seal (top_local x)) x) tx) in *.
  assert (Hk1 : heads_kept tx tx1) by (apply heads_kept_upd; by intros []).
  destruct (i_open _ _ _ _ Hi1 [] n h open eq_refl) as [Hh1 (tn1 & Htn1 & Hok1)].
  rewrite (upd_def n _ tx1), upd_set, heap_set.
  destruct (decide (n = h)) as [->|Hne].
  - rewrite alter_twice, lookup_alter_eq, Htn1. cbn [fmap option_fmap option_map].
    change (top_dup_head _) with (top_dup_head tn1). rewrite (o_head _ _ _ _ Hok1), Nat.eqb_refl.
    eexists. split; [done|]. split; [by apply close_head|].
    transitivity tx1; [done|]. apply heads_kept_upd. done.
  - rewrite lookup_alter_ne, lookup_alter_eq, Htn1 by done. cbn [fmap option_fmap option_map].
    change (top_dup_head _) with (top_dup_head tn1). rewrite (o_head _ _ _ _ Hok1).
    destruct (Nat.eqb_spec n h); [done|]. cbn [negb].
    pose proof (close_dup mem _ _ _ _ _ cb Hne Hi1) as Hc.
    destruct (i_root _ _ _ _ Hi1 h Hh1) as (th & Hth & Hokh & _).
    match goal with |- context [pfs_txop_merge ?x _ _] =>
      assert (Em : pfs_txop_merge x h n = Some (set_t_heap (close_dup_heap cb n h (t_heap tx1))
        (set_t_ops (t_nops tx1 - 1) (filter (fun o => o <> n) (t_ops tx1)) tx1))) end.
    { unfold pfs_txop_merge.
      change (t_heap (set_t_ops ?a ?b (set_t_heap ?c ?d))) with c.
      rewrite lookup_alter_eq, !lookup_alter_ne, lookup_alter_eq, Hth, Htn1 by done.
      cbn [fmap option_fmap option_map]. destruct (o_dup _ _ _ _ Hok1 Hne) as [_ Esh].
      cbn [top_inited top_done top_shadow top_cb set_top_done set_top_dup_cnt].
      rewrite (h_inited _ _ _ _ Hokh), Esh. unfold close_dup_heap, merged.
      destruct cb; [|done].
      rewrite lookup_alter_eq, lookup_alter_ne, Hth by done. done. }
    rewrite Em. eexists. split; [done|]. split; [done|]. transitivity tx1; [done|].
    intros r x Hr Hx. split; [done|]. cbn [t_heap set_t_heap].
    assert (Hrn : r <> n).
    { intros ->. destruct (i_root _ _ _ _ Hi1 n Hr) as (x' & Hx' & Hokx & _).
      assert (x' = tn1) as -> by congruence. pose proof (o_head _ _ _ _ Hok1).
      pose proof (h_head _ _ _ _ Hokx). congruence. }
    destruct (decide (r = h)) as [->|Hrh].
    + destruct (close_dup_heap_h cb n h _ x Hne Hx) as [s ->]. by eexists.
    + rewrite close_dup_heap_ne by done. eauto.
Qed.

(** ** Bodies *)
Definition run_spec (a : act) : Prop := forall top head k tx ov open,
  tx_inv mem tx ov open -> act_ok mem top a ->
  (top = false -> exists h t, head = Some h /\ h ∈ t_opsroot tx /\ t_heap tx !! h = Some t /\
     mo_key (top_local t) = k) ->
  exists tx', run_act mem head a tx = Some tx' /\ tx_inv mem tx' (spec_act mem k a ov) open /\
    heads_kept tx tx'.

Lemma run_acts_ok l : Forall run_spec l -> forall top head k tx ov open,
  tx_inv mem tx ov open -> acts_ok mem top l ->
  (top = false -> exists h t, head = Some h /\ h ∈ t_opsroot tx /\ t_heap tx !! h = Some t /\
     mo_key (top_local t) = k) ->
  exists tx', run_acts mem head l tx = Some tx' /\ tx_inv mem tx' (spec_acts mem k l ov) open /\
    heads_kept tx tx'.
Proof.
  induction 1 as [|a l Ha _ IH]; intros top head k tx ov open Hi Hok Hh.
  - by exists tx.
  - destruct Hok as [Hoka Hokl]. destruct (Ha _ _ _ _ _ _ Hi Hoka Hh) as (tx1 & E1 & Hi1 & Hk1).
    simpl. rewrite E1. destruct (IH top head k tx1 _ open Hi1 Hokl) as (tx2 & E2 & Hi2 & Hk2).
    { intros Ht. destruct (Hh Ht) as (h & t & -> & Hr & Hx & <-).
      destruct (Hk1 h t Hr Hx) as (? & t' & ? & ?). exists h, t'. done. }
    exists tx2. split_and!; [done..|]. by transitivity tx1.
Qed.

Lemma heads_kept_open tx tx' n h bda idx obj :
  tx_inv mem tx' n h -> mem bda !! Z.to_nat idx = Some obj -> t_fresh tx ∉ t_opsroot tx ->
  forall r, pfs_txop_init (fst (pfs_tx_new_op tx)) (snd (pfs_tx_new_op tx)) mem bda idx bda = Some (tx', r) ->
  heads_kept tx tx'.
Proof.
  intros _ Hobj Hf r E. rewrite (new_init mem tx obj) in E by done. intros x t Hx Ht.
  assert (Hne : x <> t_fresh tx) by (intros ->; done).
  destruct (tx_tfind _ _ obj) as [d|].
  - destruct (decide _); [done|]. destruct (t_heap tx !! d); [|done]. injection E as <- <-.
    split; [done|]. simpl. rewrite lookup_insert_ne by done. destruct (decide (x = d)) as [->|].
    + rewrite lookup_alter_eq, Ht. by eexists.
    + rewrite lookup_alter_ne by done. eauto.
  - injection E as <- <-. simpl. split; [apply elem_of_app; by left|].
    rewrite lookup_insert_ne by done. eauto.
Qed.

Lemma run_act_ok a : run_spec a.
Proof.
  revert a. fix IH 1. intros [f|bda idx body cb] top head k tx ov open Hi Hok Hh.
  - destruct Hok as [-> Hf]. destruct (Hh eq_refl) as (h & t & -> & Hr & Ht & <-). simpl.
    eexists. split; [done|]. split; [by apply modify_inv|].
    apply heads_kept_upd. intros x. apply (Hf (top_local x)).
  - apply act_ok_op in Hok as (Hpos & (obj & Hobj & Hty) & Hbody).
    rewrite run_act_op, (spec_act_op mem k bda idx body cb ov obj Hobj).
    destruct (open_op mem _ _ _ _ _ _ Hi Hpos Hobj Hty) as (tx1 & h & E1 & Hi1 & t & Ht & Ek).
    pose proof (heads_kept_open _ _ _ _ _ _ _ Hi1 Hobj (fresh_not_root mem _ _ _ Hi) _ E1) as Hk1.
    destruct (pfs_tx_new_op tx) as [tx0 n]. cbn [fst snd] in *. rewrite E1.
    destruct (i_open _ _ _ _ Hi1 [] n h open eq_refl) as [Hr1 _].
    assert (Hall : Forall run_spec body).
    { clear -IH. induction body as [|a l IHl]; constructor; [apply IH|apply IHl]. }
    destruct (run_acts_ok body Hall false (Some h) (mo_key obj) tx1 _ _ Hi1 Hbody) as (tx2 & E2 & Hi2 & Hk2).
    { intros _. eauto 10. }
    rewrite E2. destruct (Hk2 h t Hr1 Ht) as (_ & t2 & Ht2 & Ek2).
    destruct (done_ok _ _ _ _ _ _ cb Hi2 Ht2) as (tx3 & E3 & Hi3 & Hk3).
    rewrite Ek2, Ek in Hi3. exists tx3. split_and!; [done..|].
    transitivity tx1; [done|]. by transitivity tx2.
Qed.

Lemma run_ok l : acts_ok mem true l ->
  exists tx, run_acts mem None l (pfs_tx_get TXT_WRITE false) = Some tx /\
    tx_inv mem tx (spec_acts mem (0, 0) l ∅) [].
Proof.
  intros Hok. destruct (run_acts_ok l) with (top := true) (head := @None nat) (k := (0, 0))
    (tx := pfs_tx_get TXT_WRITE false) (ov := (∅ : gmap key pfs_metaobj_phy)) (open := @nil (nat * nat))
    as (tx & E & Hi & _); try done.
  - apply Forall_forall. intros. apply run_act_ok.
  - apply tx_inv_start.
  - eauto.
Qed.
End Run.

(** ** Applying *)

(** Objects of the meta cache have distinct type and number. *)
Definition keys_unique (mem : Z -> list pfs_metaobj_phy) : Prop :=
  forall b i o b' i' o', mem b !! i = Some o -> mem b' !! i' = Some o' -> mo_key o = mo_key o' ->
    b = b' /\ i = i'.

Section Apply.
Context (mem : Z -> list pfs_metaobj_phy).
Hypothesis Hkeys : keys_unique mem.

(** The cache when the operations [l] are still to be applied. *)
Definition applied (tx : pfs_tx) (ov : gmap key pfs_metaobj_phy) (l : list nat)
    (m : Z -> list pfs_metaobj_phy) : Prop :=
  (forall b, length (m b) = length (mem b)) /\
  forall b i obj, mem b !! i = Some obj ->
    m b !! i = Some (match tx_tfind (t_heap tx) l obj with
                     | Some _ => obj
                     | None => default obj (ov !! mo_key obj)
                     end).

Lemma tfind_none tx ov l obj :
  tx_inv mem tx ov [] -> l ⊆ t_opsroot tx ->
  (forall r t, r ∈ l -> t_heap tx !! r = Some t -> mo_key (top_local t) <> mo_key obj) ->
  tx_tfind (t_heap tx) l obj = None.
Proof.
  intros Hi. induction l as [|r l IH]; intros Hsub Hk; [done|]. simpl.
  destruct (root_heap mem _ _ _ r Hi) as [t Ht]; [apply Hsub; by left|]. rewrite Ht.
  destruct (Z.eqb_spec (txop_index_compare obj (top_local t)) 0) as [E|_].
  - apply index_compare_eq in E. by destruct (Hk r t ltac:(by left) Ht).
  - apply IH; [intros x Hx; apply Hsub; by right|]. intros x y Hx. apply Hk. by right.
Qed.

Lemma apply_ops_ok tx ov l m :
  tx_inv mem tx ov [] -> NoDup l -> l ⊆ t_opsroot tx -> applied tx ov l m ->
  exists m', tx_apply_ops (t_heap tx) l m = Some m' /\ applied tx ov [] m'.
Proof.
  intros Hi. revert m. induction l as [|r l IH]; intros m Hnd Hsub [Hlen Hm]; [by exists m|].
  apply NoDup_cons in Hnd as [Hr Hnd].
  assert (Hrr : r ∈ t_opsroot tx) by (apply Hsub; by left).
  destruct (i_root _ _ _ _ Hi r Hrr) as (t & Ht & Hok & Hov).
  destruct (h_cell _ _ _ _ Hok) as (b & obj & Eb & _ & Hobj & Ek & Es & Hto & Htl).
  simpl. rewrite Ht, Eb, (Hm _ _ _ Hobj). simpl. rewrite Ht.
  replace (txop_index_compare obj (top_local t) =? 0) with true
    by (symmetry; apply Z.eqb_eq, index_compare_eq; done).
  rewrite cp_is_copy by (done || by injection Ek).
  apply IH; [done|intros x Hx; apply Hsub; by right|]. split.
  { intros b'. destruct (decide (b = b')) as [<-|Hne].
    - by rewrite fn_lookup_insert, length_insert.
    - by rewrite fn_lookup_insert_ne. }
  intros b' i' obj' Hobj'.
  destruct (decide (b = b' /\ Z.to_nat (top_idx t) = i')) as [[<- <-]|Hne].
  - assert (obj' = obj) as -> by congruence.
    rewrite fn_lookup_insert, list_lookup_insert_eq by (rewrite Hlen; by eapply lookup_lt_Some).
    rewrite (tfind_none _ _ _ _ Hi), Ek, Hov; [done|intros x Hx; apply Hsub; by right|].
    intros x y Hx Hy Exy. assert (x = r) as ->; [|done].
    apply (i_keys _ _ _ _ Hi x r y t); [apply Hsub; by right|done..|congruence].
  - assert (Hkk : mo_key obj' <> mo_key (top_local t)).
    { intros Ek'. apply Hne. apply (Hkeys b _ obj b' i' obj'); congruence. }
    specialize (Hm _ _ _ Hobj'). simpl in Hm. rewrite Ht in Hm.
    destruct (Z.eqb_spec (txop_index_compare obj' (top_local t)) 0) as [E|_];
      [by apply index_compare_eq in E|]. rewrite <- Hm.
    destruct (decide (b = b')) as [<-|?].
    + rewrite fn_lookup_insert, list_lookup_insert_ne; [done|]. intros E. by apply Hne.
    + by rewrite fn_lookup_insert_ne.
Qed.

Lemma apply_ok tx ov :
  tx_inv mem tx ov [] -> exists m', pfs_tx_apply tx mem = Some m' /\
    (forall b, length (m' b) = length (mem b)) /\
    forall b i obj, mem b !! i = Some obj -> m' b !! i = Some (default obj (ov !! mo_key obj)).
Proof.
  intros Hi. assert (Hops : forall r, r ∈ t_ops tx <-> r ∈ t_opsroot tx).
  { intros r. rewrite (i_ops _ _ _ _ Hi). simpl. rewrite elem_of_nil. tauto. }
  apply apply_ops_ok; [done|apply Hi|by intros r Hr%Hops|]. split; [done|].
  intros b i obj Hobj. destruct (tx_tfind _ _ obj) eqn:Ef; [done|].
  assert (Hov : ov !! mo_key obj = None); [|by rewrite Hov].
  apply eq_None_not_Some. intros (r & t & Hr%Hops & Ht & Ek)%(i_ov _ _ _ _ Hi).
  revert Ef Hr. generalize (t_ops tx). induction l as [|x l IH]; intros Ef Hr; [by apply elem_of_nil in Hr|].
  simpl in Ef. apply elem_of_cons in Hr as [->|Hr].
  - rewrite Ht in Ef. by rewrite (proj2 (Z.eqb_eq _ _) (proj2 (index_compare_eq _ _) (eq_sym Ek))) in Ef.
  - destruct (t_heap tx !! x); [destruct (_ =? 0); [done|]|]; auto.
Qed.
End Apply.

(** One operation is left per object of the overlay. *)
Lemma ops_count mem tx ov : tx_inv mem tx ov [] -> t_nops tx = Z.of_nat (size ov).
Proof.
  intros Hi. rewrite (i_nops _ _ _ _ Hi). f_equal.
  assert (Hops : forall r, r ∈ t_ops tx <-> r ∈ t_opsroot tx).
  { intros r. rewrite (i_ops _ _ _ _ Hi). simpl. rewrite elem_of_nil. tauto. }
  set (f := fun r => match t_heap tx !! r with Some t => mo_key (top_local t) | None => (0, 0) end).
  transitivity (length (f <$> t_ops tx)); [by rewrite length_fmap|].
  assert (Hd : (f <$> t_ops tx) ≡ₚ elements (dom ov)).
  { apply NoDup_Permutation.
    - apply NoDup_fmap_2_strong; [|apply Hi]. intros r r' Hr%Hops Hr'%Hops E. unfold f in E.
      destruct (i_root _ _ _ _ Hi r Hr) as (t & Ht & _), (i_root _ _ _ _ Hi r' Hr') as (t' & Ht' & _).
      rewrite Ht, Ht' in E. by eapply (i_keys _ _ _ _ Hi).
    - apply NoDup_elements.
    - intros k. rewrite list_elem_of_fmap, elem_of_elements, elem_of_dom. split.
      + intros (r & -> & Hr%Hops). destruct (i_root _ _ _ _ Hi r Hr) as (t & Ht & _ & Ho).
        unfold f. rewrite Ht, Ho. by eexists.
      + intros (r & t & Hr%Hops & Ht & <-)%(i_ov _ _ _ _ Hi). exists r. unfold f. by rewrite Ht. }
  rewrite Hd. by rewrite <- (size_dom (D := gset key)).
Qed.

(** ** Checksums *)
Definition sealed_but (S : key -> Prop) (ov : gmap key pfs_metaobj_phy) : Prop :=
  forall k o, ov !! k = Some o -> S k \/ pfs_metaobj_check_crc o = Some tt.

Lemma spec_sealed mem a : forall top k S ov,
  act_ok mem top a -> (top = false -> S k) -> sealed_but S ov -> sealed_but S (spec_act mem k a ov).
Proof.
  revert a. fix IH 1. intros [f|bda idx body cb] top k S ov Hok Hk Hs.
  - destruct Hok as [-> _]. simpl. intros k' o. destruct (decide (k = k')) as [<-|Hne].
    + left. auto.
    + rewrite lookup_alter_ne by done. apply Hs.
  - apply act_ok_op in Hok as (_ & (obj & Hobj & _) & Hbody).
    rewrite (spec_act_op mem k bda idx body cb ov obj Hobj).
    assert (Hs1 : sealed_but (fun k' => S k' \/ k' = mo_key obj) (ov_open obj ov)).
    { unfold ov_open. destruct (ov !! mo_key obj) eqn:E; intros k' o Ho.
      - destruct (Hs k' o Ho); auto.
      - destruct (decide (k' = mo_key obj)) as [->|]; [auto|].
        rewrite lookup_insert_ne in Ho by done. destruct (Hs k' o Ho); auto. }
    assert (Hs2 : sealed_but (fun k' => S k' \/ k' = mo_key obj) (spec_acts mem (mo_key obj) body (ov_open obj ov))).
    { revert Hbody Hs1. generalize (ov_open obj ov). clear -IH.
      induction body as [|a l IHl]; intros ov' Hb Hs1; [done|]. destruct Hb as [Ha Hl]. simpl.
      apply IHl; [done|]. eapply IH; [done|by right|done]. }
    intros k' o. destruct (decide (mo_key obj = k')) as [<-|Hne].
    + rewrite lookup_alter_eq. destruct (_ !! mo_key obj); [|done]. intros [= <-].
      right. apply metaobj_check_seal.
    + rewrite lookup_alter_ne by done. intros Ho. destruct (Hs2 k' o Ho) as [[?|Ek]|?]; [auto|congruence|auto].
Qed.

Lemma spec_acts_sealed mem l : forall ov, acts_ok mem true l ->
  sealed_but (fun _ => False) ov -> sealed_but (fun _ => False) (spec_acts mem (0, 0) l ov).
Proof.
  induction l as [|a l IH]; intros ov Hok Hs; [done|]. destruct Hok as [Ha Hl]. simpl.
  apply IH; [done|]. by eapply spec_sealed.
Qed.

(** ** Properties *)

(** C7: a transaction whose body opens, changes and closes operations in any
    nesting runs without failing an assertion.  Readers in the transaction
    see exactly the changes made so far (the overlay of private copies), one
    operation per object is left, every one is done and carries a valid
    checksum, and applying the transaction replaces exactly the changed
    objects in the meta cache. *)
Theorem tx_refines_overlay (mem : Z -> list pfs_metaobj_phy) (l : list act)
    (Hkeys : keys_unique mem) (Hok : acts_ok mem true l) :
  let ov := spec_acts mem (0, 0) l ∅ in
  exists tx mem', run_acts mem None l (pfs_tx_get TXT_WRITE false) = Some tx /\
    pfs_tx_apply tx mem = Some mem' /\
    (forall b, length (mem' b) = length (mem b)) /\
    (forall b i obj, mem b !! i = Some obj ->
       pfs_tx_get_mo (Some tx) obj = default obj (ov !! mo_key obj) /\
       mem' b !! i = Some (default obj (ov !! mo_key obj))) /\
    NoDup (t_ops tx) /\ t_nops tx = Z.of_nat (size ov) /\
    (forall r, r ∈ t_ops tx -> exists t, t_heap tx !! r = Some t /\ top_done t = true /\
       top_dup_cnt t = 0 /\ pfs_metaobj_check_crc (top_local t) = Some tt).
Proof.
  intros ov. destruct (run_ok mem l Hok) as (tx & Erun & Hi). fold ov in Hi.
  destruct (apply_ok mem Hkeys tx ov Hi) as (m' & Eap & Hlen & Hm').
  exists tx, m'. split_and!; [done|done|done| |apply Hi| |].
  - intros b i obj Hobj. split; [by eapply get_mo_spec|by apply Hm' in Hobj].
  - by apply ops_count with mem.
  - intros r [Hr|Hr%elem_of_nil]%(i_ops _ _ _ _ Hi); [|done].
    destruct (i_root _ _ _ _ Hi r Hr) as (t & Ht & Hokt & Hov). exists t. split; [done|].
    rewrite (h_done _ _ _ _ Hokt), (h_cnt _ _ _ _ Hokt). split; [by apply bool_decide_eq_true; intros ?%elem_of_nil|].
    split; [done|].
    destruct (spec_acts_sealed mem l ∅ Hok) with (mo_key (top_local t)) (top_local t) as [[]|Hc]; [|done..].
    intros k o Ho. by rewrite lookup_empty in Ho.
Qed.

(** Two objects in one sector; the second is changed while the first is
    open, and the first is opened again inside. *)
Definition ex_tag (number : Z) : pfs_metaobj_phy :=
  MkObj number 0 0 0 MT_BLKTAG 0 0 0 0
    (DBlktag {| bt_ino := 0; bt_blkid := 0; bt_dstatus := 0; bt_ndiscard := 0; bt_holelen := 0; bt_holeoff := 0 |}
       (replicate 56 0)).
Definition ex_mem : Z -> list pfs_metaobj_phy := fun b => if b =? 4096 then [ex_tag 1; ex_tag 2] else [].
Definition ex_acts : list act :=
  [AOp 4096 0 [AModify (set_mo_used 1);
     AOp 4096 1 [AModify (set_mo_next 1); AOp 4096 0 [AModify (set_mo_prev 2)] (Some 5)] None;
     AModify (set_mo_next 9)] None].

Lemma tx_refines_overlay_witness :
  exists tx mem', run_acts ex_mem None ex_acts (pfs_tx_get TXT_WRITE false) = Some tx /\
    pfs_tx_apply tx ex_mem = Some mem' /\ t_nops tx = 2 /\
    mem' 4096 !! 0%nat = Some (seal (set_mo_next 9 (seal (set_mo_prev 2 (set_mo_used 1 (ex_tag 1)))))).
Proof.
  destruct (tx_refines_overlay ex_mem ex_acts) as (tx & m' & E1 & E2 & _ & Hm & _ & Hn & _).
  - intros b i o b' i'. unfold ex_mem. destruct (Z.eqb_spec b 4096), (Z.eqb_spec b' 4096); [|done..].
    destruct i as [|[|i]], i' as [|[|i']]; simpl; intros o' H1 H2 Hk; simplify_eq; done.
  - split; [|done]. apply act_ok_op. split; [done|]. split; [by exists (ex_tag 1)|]. split; [done|]. split; [|done].
    apply act_ok_op. split; [done|]. split; [by exists (ex_tag 2)|]. split; [done|]. split; [|done].
    apply act_ok_op. split; [done|]. by split; [exists (ex_tag 1)|].
  - exists tx, m'. split_and!; [exact E1|exact E2|rewrite Hn; vm_compute; reflexivity|].
    destruct (Hm 4096 0%nat (ex_tag 1) eq_refl) as [_ ->]. vm_compute. reflexivity.
Defined.
