(* ===== verification/Meta.v ===== *)
(** * Metasets and the replay of transactions

    Model of the metasets of pfs_meta.cc (where an object lies, the allocation
    nodes built from the loaded objects, redo of an operation) and of the
    replay of journal transactions in pfs_tx.cc.

    A buffer of a metaset is named by the address of its sector; [mem] maps it
    to its objects. *)

From S2P Require Import Prelude Crc Alloc Object Tx.

Open Scope pfs_scope.
#[local] Set Warnings "-register-all".

(** ** Metasets *)
Record pfs_metaset := MkMs {
  ms_type : Z;
  ms_opps : Z;
  ms_sectbda : Z;
  ms_nsect : Z;
  ms_objsize : Z }.

(** [ck_metaset] by type. *)
Record pfs_chunk := MkCk { ck_number : Z; ck_metaset : Z -> pfs_metaset }.

(** The buffer (and sector) of an object and its index there. *)
Definition metaset_slot (ms : pfs_metaset) (oid : Z) : option (Z * Z) :=
  let si := Z.shiftr oid (ms_opps ms) in
  let oi := oid - Z.shiftl si (ms_opps ms) in
  let sectsize := Z.shiftl (ms_objsize ms) (ms_opps ms) in
  PFS_ASSERT ((si <? ms_nsect ms) && (oi <? Z.shiftl 1 (ms_opps ms))) ;;
  Some (ms_sectbda ms + si * sectsize, oi).

(** [pfs_metaset_getobject] without an operation: what the transaction [tx]
    of this thread sees of the object. *)
Definition pfs_metaset_getobject (mem : Z -> list pfs_metaobj_phy) (tx : option pfs_tx)
    (ms : pfs_metaset) (oid : Z) : option pfs_metaobj_phy :=
  let* p := metaset_slot ms oid in
  let '(bda, oi) := p in
  let* mo := mem bda !! Z.to_nat oi in
  Some (pfs_tx_get_mo tx mo).

(** With the operation [top] of [tx]. *)
Definition pfs_metaset_get (mem : Z -> list pfs_metaobj_phy) (tx : pfs_tx) (top : nat)
    (ms : pfs_metaset) (oid : Z) : option (pfs_tx * nat) :=
  let* p := metaset_slot ms oid in
  let '(bda, oi) := p in
  pfs_txop_init tx top mem bda oi bda.

(** May a free object be handed out? *)
Definition pfs_metaset_alloc (mem : Z -> list pfs_metaobj_phy) (tx : option pfs_tx)
    (ms : pfs_metaset) (oid : Z) : option bool :=
  let* mo := pfs_metaset_getobject mem tx ms oid in
  if negb (mo_used mo =? 0) then Some false
  else if mo_type mo =? MT_BLKTAG then
    match mo_data mo with
    | DBlktag bt _ => Some (negb (bt_dstatus bt =? BDS_INP))
    | _ => None
    end
  else Some true.

(** ** Allocation nodes *)
Definition roundup_power2 (val : Z) : Z :=
  let val := wrap64 (val - 1) in
  let val := Z.lor val (Z.shiftr val 1) in
  let val := Z.lor val (Z.shiftr val 2) in
  let val := Z.lor val (Z.shiftr val 4) in
  let val := Z.lor val (Z.shiftr val 8) in
  let val := Z.lor val (Z.shiftr val 16) in
  let val := Z.lor val (Z.shiftr val 32) in
  wrap64 (val + 1).

(** [ffs] of the C library: one plus the lowest bit set, 0 for 0. *)
Fixpoint ffs_from (n : nat) (i : Z) (v : Z) : Z :=
  match n with
  | O => 0
  | S n => if Z.testbit v i then i + 1 else ffs_from n (i + 1) v
  end.
Definition ffs (v : Z) : Z := ffs_from 32 0 (wrap32 v).

(** [PFS_MAX_ANODE_NCNT / 64] words. *)
Definition AN_BMP_WORDS : nat := 40.

(** The objects [oid, oid + 1, ...] of a leaf under construction. *)
Fixpoint init_anode_loop (n : nat) (oid : Z) (used : Z -> option Z) (next : Z) (an : anode)
  : option (anode * Z) :=
  match n with
  | O => Some (an, next)
  | S n =>
      let* u := used oid in
      let 'ANode id sh nall nfree nx bmp cs := an in
      let an := ANode id sh (nall + 1) nfree nx bmp cs in
      if u =? 0 then
        let* an := pfs_anode_nfree_inc an oid 1 in
        init_anode_loop n (oid + 1) used (if next <? 0 then oid else next) an
      else init_anode_loop n (oid + 1) used next an
  end.

Definition mo_used_at (mem : Z -> list pfs_metaobj_phy) (ms : pfs_metaset) (oid : Z) : option Z :=
  let* p := metaset_slot ms oid in
  let '(bda, oi) := p in
  let* mo := mem bda !! Z.to_nat oi in
  Some (mo_used mo).

Definition ms_shift (ms : pfs_metaset) : Z := ms_opps ms + ffs (roundup_power2 (ms_nsect ms)) - 1.

Definition pfs_metaset_init_anode (mem : Z -> list pfs_metaobj_phy) (ms : pfs_metaset) (ckno : Z) : option anode :=
  let* p := init_anode_loop (Z.to_nat (Z.shiftl (ms_nsect ms) (ms_opps ms))) 0 (mo_used_at mem ms) (-1)
              (ANode ckno (ms_shift ms) 0 0 0 (replicate AN_BMP_WORDS 0) []) in
  let '(an, next) := p in
  Some (if next >=? 0 then set_next next an else an).

(** [pfs_init_anode]: the root of a type over the leafs of the chunks. *)
Fixpoint init_anode_children (an : anode) (i : nat) (cs : list anode) : option anode :=
  match cs with
  | [] => Some an
  | can :: cs =>
      let* an := pfs_anode_nfree_inc an (Z.of_nat i) (an_nfree can) in
      let 'ANode id sh nall nfree nx bmp l := an in
      init_anode_children (ANode id sh (nall + an_nall can) nfree nx bmp l) (S i) cs
  end.

Definition pfs_init_anode (mem : Z -> list pfs_metaobj_phy) (chunkv : list pfs_chunk) (mtype : Z)
  : option anode :=
  let* cs := mapM (fun ck => pfs_metaset_init_anode mem (ck_metaset ck mtype) (ck_number ck)) chunkv in
  init_anode_children (ANode 0 0 0 0 0 (replicate AN_BMP_WORDS 0) cs) 0 cs.

(** ** Redo *)

(** The meta data of a mount: chunks, allocation trees by type, buffers. *)
Record metadata := MkMeta {
  mnt_chunkv : list pfs_chunk;
  mnt_anode : Z -> anode;
  mnt_objbuf : Z -> list pfs_metaobj_phy }.

(** The metaset that hosts the leaf [id] of the tree of type [mtype]. *)
Definition an_host (chunkv : list pfs_chunk) (mtype id : Z) : option pfs_metaset :=
  let* ck := chunkv !! Z.to_nat id in Some (ck_metaset ck mtype).

Definition pfs_txop_redo (top : pfs_txop) (mo : pfs_metaobj_phy) (buf : Z)
  : option (pfs_txop * pfs_metaobj_phy * Z) :=
  PFS_ASSERT (top_recreate top) ;;
  PFS_ASSERT (match top_buf top with None => true | Some _ => false end) ;;
  let top := set_top_buf (Some buf) top in
  let nfree_delta := mo_used mo - mo_used (top_local top) in
  Some (top, top_local top, nfree_delta).

(** The transaction of the thread is the replayed one, which is done, so the
    object is that of the buffer.  [mt_redo] is a null pointer for [MT_NONE];
    before the mount is inited it changes caches of names only. *)
Definition pfs_metaset_redo (chunkv : list pfs_chunk) (mtype : Z)
    (h : (Z -> list pfs_metaobj_phy) * pfs_txop) (id oid : Z)
  : option ((Z -> list pfs_metaobj_phy) * pfs_txop * Z) :=
  let '(mem, top) := h in
  let* ms := an_host chunkv mtype id in
  let* p := metaset_slot ms oid in
  let '(bda, oi) := p in
  let* mo := mem bda !! Z.to_nat oi in
  let* r := pfs_txop_redo top mo bda in
  let '(top, mo, nfree_delta) := r in
  PFS_ASSERT ((MT_NONE <? mo_type mo) && (mo_type mo <? MT_NTYPE)) ;;
  Some (<[bda := <[Z.to_nat oi := mo]> (mem bda)]> mem, top, nfree_delta).

Definition pfs_meta_redo (md : metadata) (mtype objno : Z) (top : pfs_txop) : option (metadata * pfs_txop) :=
  let* r := pfs_anode_redo (pfs_metaset_redo (mnt_chunkv md) mtype) (mnt_anode md mtype)
              (mnt_objbuf md, top) objno in
  let '(an, h, _) := r in
  Some (MkMeta (mnt_chunkv md) (<[mtype := an]> (mnt_anode md)) (fst h), snd h).

Definition pfs_txop_replay (md : metadata) (top : pfs_txop) : option (metadata * pfs_txop) :=
  PFS_ASSERT (top_recreate top) ;;
  let mo := top_local top in
  pfs_meta_redo md (mo_type mo) (mo_number mo) top.

(** The loop of [pfs_tx_replay] over [t_ops]. *)
Fixpoint tx_replay_ops (md : metadata) (heap : gmap nat pfs_txop) (ops : list nat)
  : option (metadata * gmap nat pfs_txop) :=
  match ops with
  | [] => Some (md, heap)
  | o :: ops =>
      let* top := heap !! o in
      let* p := pfs_txop_replay md top in
      let '(md, top) := p in
      tx_replay_ops md (<[o := top]> heap) ops
  end.

Definition pfs_tx_replay (md : metadata) (rtx : pfs_tx) : option (metadata * pfs_tx) :=
  let rtx := set_t_done true rtx in
  let* p := tx_replay_ops md (t_heap rtx) (t_ops rtx) in
  let '(md, heap) := p in
  Some (md, set_t_heap heap rtx).

(** The replay of a queue up to the request to the log thread: the replayed
    transactions, which it then hands over with [LOG_REPLAYDONE]. *)
Fixpoint txlist_replay_loop (md : metadata) (txq : list pfs_tx) (starttid stoptid ntxs : Z)
  : option (metadata * list pfs_tx * Z * Z * Z) :=
  match txq with
  | [] => Some (md, [], starttid, stoptid, ntxs)
  | rtx :: txq =>
      PFS_ASSERT (t_type rtx =? TXT_REPLAY) ;;
      let starttid := if starttid <? 0 then t_id rtx else starttid in
      let stoptid := t_id rtx in
      let* p := pfs_tx_replay md rtx in
      let '(md, rtx) := p in
      let* r := txlist_replay_loop md txq starttid stoptid (ntxs + 1) in
      let '(md, txq, starttid, stoptid, ntxs) := r in
      Some (md, rtx :: txq, starttid, stoptid, ntxs)
  end.

Definition pfs_txlist_replay (md : metadata) (replaytxq : list pfs_tx) : option (metadata * list pfs_tx) :=
  PFS_ASSERT (negb (bool_decide (length replaytxq = 0%nat))) ;;
  let* r := txlist_replay_loop md replaytxq (-1) (-1) 0 in
  let '(md, txq, starttid, stoptid, ntxs) := r in
  PFS_ASSERT (stoptid - starttid + 1 =? ntxs) ;;
  Some (md, txq).
