(* ===== verification/LogIo.v ===== *)
(** * Journal entries and the I/O of the log thread

    Model of the entry of pfs_log.h, of the checksum over it, and of the I/O
    the log thread issues (pfs_log.cc), as programs over device commands.

    The journal file is read and written in units of entries of 256 bytes;
    offsets and lengths stay in bytes, as in the code. *)

From S2P Require Import Prelude Crc Lease Object Tx.

Open Scope pfs_scope.

Definition LE_SIZE : Z := 256.

(** [le_padding] is what the alignment to 256 bytes adds. *)
Record pfs_logentry_phy := MkLe {
  le_obj_val : pfs_metaobj_phy;
  le_lsn : Z;
  le_sector_bda : Z;
  le_txid : Z;
  le_obj_idx : Z;
  le_checksum : Z;
  le_more : Z;
  le_padding : list Z }.

Definition set_le_checksum (v : Z) (le : pfs_logentry_phy) : pfs_logentry_phy :=
  MkLe (le_obj_val le) (le_lsn le) (le_sector_bda le) (le_txid le) (le_obj_idx le) v
    (le_more le) (le_padding le).

Definition logentry_bytes (le : pfs_logentry_phy) : list Z :=
  metaobj_bytes (le_obj_val le) ++ le_bytes 8 (le_lsn le) ++ le_bytes 8 (le_sector_bda le) ++
  le_bytes 8 (le_txid le) ++ le_bytes 4 (le_obj_idx le) ++ le_bytes 4 (le_checksum le) ++
  le_bytes 4 (le_more le) ++ le_padding le.

(** [offsetof(le_checksum)] is 28 behind the object: 156. *)
Definition logentry_crc (le : pfs_logentry_phy) : Z :=
  crc32c_compute (logentry_bytes le) (length (metaobj_bytes (le_obj_val le)) + 28).

Definition pfs_log_check_one (le : pfs_logentry_phy) : bool := le_checksum le =? logentry_crc le.

Fixpoint pfs_log_check (lebuf : list pfs_logentry_phy) : option unit :=
  match lebuf with
  | [] => Some tt
  | le :: lebuf =>
      if le_checksum le =? 0 then pfs_log_check lebuf
      else if negb (pfs_log_check_one le) then None
      else pfs_log_check lebuf
  end.

(** [pfs_txop_log]: fill the entry of an operation; [more] says whether
    another operation follows it in the transaction. *)
Definition pfs_txop_log (t_id : Z) (top : pfs_txop) (more : bool) (lsn : Z) : option pfs_logentry_phy :=
  PFS_ASSERT (top_done top) ;;
  let* _ := pfs_metaobj_check_crc (top_local top) in
  PFS_ASSERT (negb (mo_type (top_local top) =? MT_NONE)) ;;
  let le := MkLe (top_local top) lsn (top_bda top) t_id (top_idx top) 0 (if more then 1 else 0)
              (replicate 92 0) in
  Some (set_le_checksum (logentry_crc le) le).

(** ** Programs

    A command and the continuation on its result.  [PreadLog] and [PwriteLog]
    are [pfs_file_pread] and [pfs_file_pwrite] on the journal, [PwriteSect] is
    [pfsdev_pwrite] of a meta sector, [GetLeader] and [PutLeader] are the raw
    read and write of sector 0 of the paxos file, [TryRdLock] is
    [MOUNT_META_TRYRDLOCK], [ClockSec] reads the seconds of the clock and
    [LoadMeta] is [pfs_meta_load_all_chunks]. *)
Inductive logio (A : Type) : Type :=
| LRet (a : A)
| LAbort
| LHang
| PreadLog (len offset : Z) (k : Z * list pfs_logentry_phy -> logio A)
| PwriteLog (buf : list pfs_logentry_phy) (offset : Z) (k : Z -> logio A)
| PwriteSect (bda : Z) (buf : list pfs_metaobj_phy) (k : Z -> logio A)
| GetLeader (k : Z * pfs_leader_record -> logio A)
| PutLeader (lr : pfs_leader_record) (k : Z -> logio A)
| TryRdLock (k : bool -> logio A)
| ClockSec (k : Z -> logio A)
| LoadMeta (k : Z * (Z -> list pfs_metaobj_phy) -> logio A).
Arguments LRet {A} a.
Arguments LAbort {A}.
Arguments LHang {A}.
Arguments PreadLog {A} len offset k.
Arguments PwriteLog {A} buf offset k.
Arguments PwriteSect {A} bda buf k.
Arguments GetLeader {A} k.
Arguments PutLeader {A} lr k.
Arguments TryRdLock {A} k.
Arguments ClockSec {A} k.
Arguments LoadMeta {A} k.

Fixpoint logio_bind {A B} (p : logio A) (f : A -> logio B) : logio B :=
  match p with
  | LRet a => f a
  | LAbort => LAbort
  | LHang => LHang
  | PreadLog len offset k => PreadLog len offset (fun x => logio_bind (k x) f)
  | PwriteLog buf offset k => PwriteLog buf offset (fun x => logio_bind (k x) f)
  | PwriteSect bda buf k => PwriteSect bda buf (fun x => logio_bind (k x) f)
  | GetLeader k => GetLeader (fun x => logio_bind (k x) f)
  | PutLeader lr k => PutLeader lr (fun x => logio_bind (k x) f)
  | TryRdLock k => TryRdLock (fun x => logio_bind (k x) f)
  | ClockSec k => ClockSec (fun x => logio_bind (k x) f)
  | LoadMeta k => LoadMeta (fun x => logio_bind (k x) f)
  end.

(** Code that aborts without I/O. *)
Definition lift {A} (o : option A) : logio A := match o with Some a => LRet a | None => LAbort end.

Declare Scope logio_scope.
Delimit Scope logio_scope with logio.
Notation "'run' p <- c ; k" := (logio_bind c (fun p => k))
  (at level 100, p pattern, c at level 99, k at level 200, right associativity) : logio_scope.
Notation "'ASSERT' b ; k" := (if b : bool then k else LAbort)
  (at level 100, b at level 99, k at level 200, right associativity) : logio_scope.

(** ** The device *)
Record disk := MkDisk {
  d_log : Z -> pfs_logentry_phy;
  d_sect : Z -> list pfs_metaobj_phy;
  d_leader : pfs_leader_record }.

(** Entry slots [i, i+1, ...] get [les]. *)
Fixpoint write_slots (i : Z) (les : list pfs_logentry_phy) (m : Z -> pfs_logentry_phy)
  : Z -> pfs_logentry_phy :=
  match les with
  | [] => m
  | le :: les => write_slots (i + 1) les (<[i := le]> m)
  end.
Fixpoint read_slots (i : Z) (n : nat) (m : Z -> pfs_logentry_phy) : list pfs_logentry_phy :=
  match n with O => [] | S n => m i :: read_slots (i + 1) n m end.

Definition set_d_log (v : Z -> pfs_logentry_phy) (d : disk) : disk := MkDisk v (d_sect d) (d_leader d).
Definition set_d_sect (v : Z -> list pfs_metaobj_phy) (d : disk) : disk := MkDisk (d_log d) v (d_leader d).
Definition set_d_leader (v : pfs_leader_record) (d : disk) : disk := MkDisk (d_log d) (d_sect d) v.
