(* ===== verification/Trim.v ===== *)
(** * Trim groups

    Model of the sector buffers and trim groups of pfs_log.cc / pfs_tx.cc: the
    dirty sectors of a range of transactions, the copies of them that are
    written back, and the two groups that alternate. *)

From S2P Require Import Prelude Object Tx LogIo.

Open Scope pfs_scope.
Open Scope logio_scope.

(** ** Sector buffers

    [s_metabuf] is the buffer of the meta cache, [s_buf] the private copy. *)
Record pfs_sectbuf := MkSb {
  s_txid : Z;
  s_bda : Z;
  s_metabuf : option Z;
  s_buf : option (list pfs_metaobj_phy) }.

Definition set_s_txid (v : Z) (sb : pfs_sectbuf) : pfs_sectbuf :=
  MkSb v (s_bda sb) (s_metabuf sb) (s_buf sb).
Definition set_s_buf (v : option (list pfs_metaobj_phy)) (sb : pfs_sectbuf) : pfs_sectbuf :=
  MkSb (s_txid sb) (s_bda sb) (s_metabuf sb) v.

Definition pfs_sectbuf_bind (t_id : Z) (top : pfs_txop) : pfs_sectbuf :=
  MkSb t_id (top_bda top) (top_buf top) None.

Definition pfs_sectbuf_sync (sb : pfs_sectbuf) (top : pfs_txop) : pfs_sectbuf :=
  match s_buf sb with
  | Some b => set_s_buf (Some (<[Z.to_nat (top_idx top) := top_local top]> b)) sb
  | None => sb
  end.

(** ** Groups

    A sector is named by its address within a group, so [g_sect_empty_first]
    is an address; [g_rootp] is the set of addresses in the search tree. *)
Record pfs_trimgroup := MkGrp {
  g_ltxid : Z;
  g_rtxid : Z;
  g_roffset : Z;
  g_nsects : Z;
  g_nsects_empty : Z;
  g_sect_empty_first : option Z;
  g_sects : list pfs_sectbuf;
  g_rootp : gset Z }.

Definition pfs_trimgroup_init : pfs_trimgroup := MkGrp 0 0 0 0 0 None [] ∅.
Definition pfs_trimgroup_fini (grp : pfs_trimgroup) : pfs_trimgroup := MkGrp 0 0 0 0 0 None [] ∅.

Definition pfs_trimgroup_nsectors (grp : pfs_trimgroup) : Z := g_nsects grp.
Definition pfs_trimgroup_ntx (grp : pfs_trimgroup) : Z := g_rtxid grp - g_ltxid grp.

(** [TAILQ] helpers, by address. *)
Fixpoint sect_find (bda : Z) (l : list pfs_sectbuf) : option pfs_sectbuf :=
  match l with
  | [] => None
  | sb :: l => if s_bda sb =? bda then Some sb else sect_find bda l
  end.
Fixpoint sect_next (bda : Z) (l : list pfs_sectbuf) : option Z :=
  match l with
  | [] => None
  | sb :: l => if s_bda sb =? bda then s_bda <$> head l else sect_next bda l
  end.
Definition sect_remove (bda : Z) (l : list pfs_sectbuf) : list pfs_sectbuf :=
  filter (fun sb => s_bda sb <> bda) l.

Definition off_modular_add (offset len modulus : Z) : Z :=
  let offset := offset + len in if offset >=? modulus then offset - modulus else offset.
Definition len_modular_cut (len offset modulus : Z) : Z :=
  if len + offset >? modulus then modulus - offset else len.

(** ** Adding the sectors of a transaction *)
Definition is_some {A} (o : option A) : bool := match o with Some _ => true | None => false end.

Definition trimgroup_insert_op (txid : Z) (grp : pfs_trimgroup) (top : pfs_txop) : option pfs_trimgroup :=
  let sb := pfs_sectbuf_bind txid top in
  if bool_decide (s_bda sb ∈ g_rootp grp) then
    let* sb2 := sect_find (s_bda sb) (g_sects grp) in
    PFS_ASSERT (s_txid sb2 <=? s_txid sb) ;;
    let sb2 := pfs_sectbuf_sync (set_s_txid txid sb2) top in
    PFS_ASSERT (is_some (g_sect_empty_first grp) || is_some (s_buf sb2)) ;;
    let next := sect_next (s_bda sb2) (g_sects grp) in
    let first := if bool_decide (g_sect_empty_first grp = Some (s_bda sb2)) && is_some next
                 then next else g_sect_empty_first grp in
    Some (MkGrp (g_ltxid grp) (g_rtxid grp) (g_roffset grp) (g_nsects grp) (g_nsects_empty grp) first
            (sect_remove (s_bda sb2) (g_sects grp) ++ [sb2]) (g_rootp grp))
  else
    PFS_ASSERT (negb ((g_nsects_empty grp =? 0) && is_some (g_sect_empty_first grp))) ;;
    Some (MkGrp (g_ltxid grp) (g_rtxid grp) (g_roffset grp) (g_nsects grp + 1) (g_nsects_empty grp + 1)
            (if g_nsects_empty grp =? 0 then Some (s_bda sb) else g_sect_empty_first grp)
            (g_sects grp ++ [sb]) ({[s_bda sb]} ∪ g_rootp grp)).

Fixpoint trimgroup_insert_ops (txid : Z) (grp : pfs_trimgroup) (opsq : list pfs_txop) : option pfs_trimgroup :=
  match opsq with
  | [] => Some grp
  | top :: opsq => let* grp := trimgroup_insert_op txid grp top in trimgroup_insert_ops txid grp opsq
  end.

Definition pfs_trimgroup_insert (grp : pfs_trimgroup) (txid logused : Z) (opsq : list pfs_txop)
    (logsize : Z) : option pfs_trimgroup :=
  PFS_ASSERT (txid =? g_rtxid grp + 1) ;;
  let* grp := trimgroup_insert_ops txid grp opsq in
  Some (MkGrp (g_ltxid grp) txid (off_modular_add (g_roffset grp) logused logsize) (g_nsects grp)
          (g_nsects_empty grp) (g_sect_empty_first grp) (g_sects grp) (g_rootp grp)).

(** ** Dropping sectors *)
Fixpoint trimgroup_delete_sects (to_txid : Z) (sects : list pfs_sectbuf) (grp : pfs_trimgroup) : pfs_trimgroup :=
  match sects with
  | sb :: rest =>
      if s_txid sb <=? to_txid then
        trimgroup_delete_sects to_txid rest
          (MkGrp (g_ltxid grp) (g_rtxid grp) (g_roffset grp) (g_nsects grp - 1)
             (if is_some (s_buf sb) then g_nsects_empty grp else g_nsects_empty grp - 1)
             (if bool_decide (g_sect_empty_first grp = Some (s_bda sb))
              then s_bda <$> head rest else g_sect_empty_first grp)
             rest (g_rootp grp ∖ {[s_bda sb]}))
      else grp
  | [] => grp
  end.

Definition pfs_trimgroup_delete (grp : pfs_trimgroup) (to_txid : Z) : pfs_trimgroup :=
  if to_txid <=? g_ltxid grp then grp
  else
    let grp := trimgroup_delete_sects to_txid (g_sects grp) grp in
    MkGrp (to_txid `min` g_rtxid grp) (g_rtxid grp) (g_roffset grp) (g_nsects grp) (g_nsects_empty grp)
      (g_sect_empty_first grp) (g_sects grp) (g_rootp grp).

(** ** Writing the sectors back

    The count of sectors written, or the error. *)
Fixpoint trimgroup_flush_sects (ltxid rtxid : Z) (sects : list pfs_sectbuf) (n : Z) : logio Z :=
  match sects with
  | [] => LRet n
  | sb :: sects =>
      ASSERT ((s_txid sb >? ltxid) && (s_txid sb <=? rtxid));
      match s_buf sb with
      | None => LAbort
      | Some buf =>
          PwriteSect (s_bda sb) buf (fun rv =>
          if rv <? 0 then LRet rv else trimgroup_flush_sects ltxid rtxid sects (n + 1))
      end
  end.

(** With the new tail, when something was written. *)
Definition pfs_trimgroup_flush (grp : pfs_trimgroup) (tail_txid tail_offset : Z) : logio (Z * Z * Z) :=
  run n <- trimgroup_flush_sects (g_ltxid grp) (g_rtxid grp) (g_sects grp) 0;
  if n >? 0 then LRet (n, g_rtxid grp, g_roffset grp) else LRet (n, tail_txid, tail_offset).
