(* ===== verification/Log.v ===== *)
(** * The journal

    Model of pfs_log.cc: circular reads and writes of the journal file, scan,
    commit, trim, load, poll, the request handlers of the log thread and one
    turn of its loop.

    The leader record on the device anchors the journal: the transactions in
    (tail_txid, head_txid] lie between tail_offset and head_offset. *)

From S2P Require Import Prelude Crc Lease Object Tx LogIo Trim.

Open Scope pfs_scope.
Open Scope logio_scope.

#[export] Instance leader_body_eq_dec : EqDecision leader_body.
Proof. solve_decision. Defined.
#[export] Instance pfs_leader_record_eq_dec : EqDecision pfs_leader_record.
Proof. solve_decision. Defined.

(** ** Anchors of the leader record *)
Abbreviation tail_txid lr := (lr_tail_txid (lr_body lr)).
Abbreviation head_txid lr := (lr_head_txid (lr_body lr)).
Abbreviation tail_offset lr := (lr_tail_offset (lr_body lr)).
Abbreviation head_offset lr := (lr_head_offset (lr_body lr)).
Abbreviation log_size lr := (lr_log_size (lr_body lr)).
Abbreviation head_lsn lr := (lr_head_lsn (lr_body lr)).

Definition set_body (f : leader_body -> leader_body) (lr : pfs_leader_record) : pfs_leader_record :=
  {| lr_body := f (lr_body lr); lr_checksum := lr_checksum lr |}.
Definition set_tail (txid offset : Z) (lr : pfs_leader_record) : pfs_leader_record :=
  set_body (fun b => {| lr_magic := lr_magic b; lr_version := lr_version b; lr_flags := lr_flags b;
    lr_sector_size := lr_sector_size b; lr_num_hosts := lr_num_hosts b; lr_max_hosts := lr_max_hosts b;
    lr_unused := lr_unused b; lr_tail_txid := txid; lr_head_txid := lr_head_txid b;
    lr_tail_offset := offset; lr_head_offset := lr_head_offset b; lr_log_size := lr_log_size b;
    lr_head_lsn := lr_head_lsn b |}) lr.
Definition set_head (txid offset lsn : Z) (lr : pfs_leader_record) : pfs_leader_record :=
  set_body (fun b => {| lr_magic := lr_magic b; lr_version := lr_version b; lr_flags := lr_flags b;
    lr_sector_size := lr_sector_size b; lr_num_hosts := lr_num_hosts b; lr_max_hosts := lr_max_hosts b;
    lr_unused := lr_unused b; lr_tail_txid := lr_tail_txid b; lr_head_txid := txid;
    lr_tail_offset := lr_tail_offset b; lr_head_offset := offset; lr_log_size := lr_log_size b;
    lr_head_lsn := lsn |}) lr.
Definition set_logsize (v : Z) (lr : pfs_leader_record) : pfs_leader_record :=
  set_body (fun b => {| lr_magic := lr_magic b; lr_version := lr_version b; lr_flags := lr_flags b;
    lr_sector_size := lr_sector_size b; lr_num_hosts := lr_num_hosts b; lr_max_hosts := lr_max_hosts b;
    lr_unused := lr_unused b; lr_tail_txid := lr_tail_txid b; lr_head_txid := lr_head_txid b;
    lr_tail_offset := lr_tail_offset b; lr_head_offset := lr_head_offset b; lr_log_size := v;
    lr_head_lsn := lr_head_lsn b |}) lr.

(** ** State of the log thread *)
Definition LOGST_NOTLOADED : Z := 0.
Definition LOGST_SERVING : Z := 1.
Definition LOGST_SUSPENDED : Z := 2.
Definition LOGST_STOP : Z := 3.

Definition LOG_IO_STOP : Z := 0.
Definition LOG_IO_CONT : Z := 1.
Definition LOG_IO_BACK : Z := 2.

Definition LOG_MERGED : Z := 0.
Definition LOG_LOAD : Z := 1.
Definition LOG_REPLAYDONE : Z := 2.
Definition LOG_TRIM : Z := 3.
Definition LOG_POLL : Z := 4.
Definition LOG_TRY_RESET_LOCK : Z := 5.
Definition LOG_WRITE : Z := 6.
Definition LOG_FLUSH : Z := 7.
Definition LOG_SUSPEND : Z := 8.
Definition LOG_RESUME : Z := 9.
Definition LOG_STOP : Z := 10.
Definition LOG_NREQ : Z := 11.
Definition LOG_REPLAY_WAIT : Z := 12.

(** [log_flags] is the three booleans; the mount fields are those of [Lease]. *)
Record pfs_log := MkLog {
  log_mount : mount;
  log_state : Z;
  log_replay_wait : bool;
  log_space_needed : bool;
  log_trim_forced : bool;
  log_leader : pfs_leader_record;
  log_leader_latest : pfs_leader_record;
  log_workgrp : pfs_trimgroup;
  log_waitgrp : pfs_trimgroup;
  log_trimts : Z }.

Definition set_log_mount (v : mount) (l : pfs_log) : pfs_log :=
  MkLog v (log_state l) (log_replay_wait l) (log_space_needed l) (log_trim_forced l) (log_leader l)
    (log_leader_latest l) (log_workgrp l) (log_waitgrp l) (log_trimts l).
Definition set_log_state (v : Z) (l : pfs_log) : pfs_log :=
  MkLog (log_mount l) v (log_replay_wait l) (log_space_needed l) (log_trim_forced l) (log_leader l)
    (log_leader_latest l) (log_workgrp l) (log_waitgrp l) (log_trimts l).
Definition set_replay_wait (v : bool) (l : pfs_log) : pfs_log :=
  MkLog (log_mount l) (log_state l) v (log_space_needed l) (log_trim_forced l) (log_leader l)
    (log_leader_latest l) (log_workgrp l) (log_waitgrp l) (log_trimts l).
Definition set_space_needed (v : bool) (l : pfs_log) : pfs_log :=
  MkLog (log_mount l) (log_state l) (log_replay_wait l) v (log_trim_forced l) (log_leader l)
    (log_leader_latest l) (log_workgrp l) (log_waitgrp l) (log_trimts l).
Definition set_trim_forced (v : bool) (l : pfs_log) : pfs_log :=
  MkLog (log_mount l) (log_state l) (log_replay_wait l) (log_space_needed l) v (log_leader l)
    (log_leader_latest l) (log_workgrp l) (log_waitgrp l) (log_trimts l).
Definition set_leader (v : pfs_leader_record) (l : pfs_log) : pfs_log :=
  MkLog (log_mount l) (log_state l) (log_replay_wait l) (log_space_needed l) (log_trim_forced l) v
    (log_leader_latest l) (log_workgrp l) (log_waitgrp l) (log_trimts l).
Definition set_log_latest (v : pfs_leader_record) (l : pfs_log) : pfs_log :=
  MkLog (log_mount l) (log_state l) (log_replay_wait l) (log_space_needed l) (log_trim_forced l)
    (log_leader l) v (log_workgrp l) (log_waitgrp l) (log_trimts l).
Definition set_log_grps (work wait : pfs_trimgroup) (l : pfs_log) : pfs_log :=
  MkLog (log_mount l) (log_state l) (log_replay_wait l) (log_space_needed l) (log_trim_forced l)
    (log_leader l) (log_leader_latest l) work wait (log_trimts l).
Definition set_log_trimts (v : Z) (l : pfs_log) : pfs_log :=
  MkLog (log_mount l) (log_state l) (log_replay_wait l) (log_space_needed l) (log_trim_forced l)
    (log_leader l) (log_leader_latest l) (log_workgrp l) (log_waitgrp l) v.

(** ** Space *)
Definition pfs_log_usedspace (log_size tail_offset head_offset : Z) : option Z :=
  let used := head_offset - tail_offset in
  let used := if used <? 0 then used + log_size else used in
  PFS_ASSERT (used mod LE_SIZE =? 0) ;;
  Some used.

Definition pfs_log_space (log : pfs_log) : option Z :=
  let lr := log_leader log in
  let* used := pfs_log_usedspace (log_size lr) (tail_offset lr) (head_offset lr) in
  Some (log_size lr - used).

(** ** The leader record *)
Definition pfs_leader_read (mnt : mount) : logio (Z * pfs_leader_record) :=
  GetLeader (fun r => LRet (leader_read_one mnt r, snd r)).

(** The record with its checksum is what the caller is left with. *)
Definition pfs_leader_write (mnt : mount) (nl : pfs_leader_record) : logio (Z * pfs_leader_record) :=
  PutLeader (leader_seal nl) (fun raw =>
  let rv := paxos_write_rv (mnt_sectsize mnt) raw in
  LRet (if rv <? 0 then rv else PFS_OK, leader_seal nl)).

Definition pfs_log_paxos_try_acquire (log : pfs_log) : pfs_log := set_log_latest (log_leader log) log.

Definition pfs_log_paxos_forward_leader (log : pfs_log) : logio (pfs_log * Z) :=
  let lr := log_leader log in
  let lr_latest := log_leader_latest log in
  let latest_bak := lr_latest in
  ASSERT (tail_txid lr >=? tail_txid lr_latest);
  ASSERT ((head_txid lr >=? head_txid lr_latest) && (head_lsn lr >=? head_lsn lr_latest));
  ASSERT ((tail_txid lr >? tail_txid lr_latest) ||
          ((head_txid lr >? head_txid lr_latest) && (head_lsn lr >? head_lsn lr_latest)));
  let lr_latest := set_tail (tail_txid lr) (tail_offset lr)
    (set_head (head_txid lr) (head_offset lr) (head_lsn lr) (set_logsize (log_size lr) lr_latest)) in
  ASSERT (bool_decide (lr_latest = lr));
  run (rv, lr_latest) <- pfs_leader_write (log_mount log) lr_latest;
  if rv <? 0 then
    let rv := if rv =? PFS_AIO_TIMEOUT then - ETIMEDOUT else rv in
    LRet (set_log_latest latest_bak log, rv)
  else ASSERT (rv =? PFS_OK); LRet (set_log_latest lr_latest log, 0).

(** ** Circular reads and writes *)
Definition pfs_log_read (log : pfs_log) (len offset : Z) : logio (Z * list pfs_logentry_phy) :=
  let lr := log_leader log in
  let offset := off_modular_add offset 0 (log_size lr) in
  ASSERT (offset <? log_size lr);
  let readlen := PFS_FRAG_SIZE - Z.land offset (PFS_FRAG_SIZE - 1) in
  let readlen := len_modular_cut readlen offset (log_size lr) in
  let readlen := if readlen >? len then len else readlen in
  ASSERT (readlen >=? LE_SIZE);
  PreadLog readlen offset (fun '(rv, buf) =>
  if rv >? 0 then
    ASSERT (rv mod LE_SIZE =? 0);
    run _ <- lift (pfs_log_check buf);
    LRet (rv, buf)
  else LRet (rv, buf)).

(** One [pfs_file_pwrite] per part before and behind the wrap; [fuel] bounds
    short writes. *)
Fixpoint log_write_loop (fuel : nat) (size : Z) (buf : list pfs_logentry_phy) (left offset : Z) : logio Z :=
  if left >? 0 then
    match fuel with
    | O => LHang
    | S fuel =>
        let wlen := len_modular_cut left offset size in
        PwriteLog (take (Z.to_nat (wlen / LE_SIZE)) buf) offset (fun wlen =>
        if wlen <? 0 then LRet wlen
        else log_write_loop fuel size (drop (Z.to_nat (wlen / LE_SIZE)) buf) (left - wlen)
               (off_modular_add offset wlen size))
    end
  else LRet 0.

Definition pfs_log_write (log : pfs_log) (buf : list pfs_logentry_phy) (offset : Z) : logio Z :=
  let buflen := LE_SIZE * Z.of_nat (length buf) in
  run space <- lift (pfs_log_space log);
  ASSERT (buflen <? space);
  let size := log_size (log_leader log) in
  run rv <- log_write_loop (S (length buf)) size buf buflen (off_modular_add offset 0 size);
  if rv <? 0 then LRet rv else LRet buflen.

(** ** Logging a transaction *)

(** The operations of a transaction, in order. *)
Definition tx_oplist (tx : pfs_tx) : option (list pfs_txop) := mapM (fun id => t_heap tx !! id) (t_ops tx).

(** [buf] holds the entries not yet written; [nle] counts entries. *)
Fixpoint tx_log_loop (log : pfs_log) (t_id head_lsn : Z) (buflen : Z) (ops : list pfs_txop)
    (nle : Z) (buf : list pfs_logentry_phy) (offset : Z)
  : logio (Z * Z * list pfs_logentry_phy * Z) :=
  match ops with
  | [] => LRet (0, nle, buf, offset)
  | top :: ops =>
      let nle := nle + 1 in
      run le <- lift (pfs_txop_log t_id top (bool_decide (ops <> [])) (head_lsn + nle));
      let buf := buf ++ [le] in
      let len := LE_SIZE * Z.of_nat (length buf) in
      if len >=? buflen then
        ASSERT (len =? buflen);
        run rv <- pfs_log_write log buf offset;
        if rv <? 0 then LRet (rv, nle, buf, offset)
        else tx_log_loop log t_id head_lsn buflen ops nle [] (offset + rv)
      else tx_log_loop log t_id head_lsn buflen ops nle buf offset
  end.

(** [buflen] is [log_workbufsz]. *)
Definition pfs_tx_log (log : pfs_log) (tx : pfs_tx) (head_txid head_lsn head_offset : Z) : logio (pfs_tx * Z) :=
  ASSERT (bool_decide (t_ops tx <> []));
  let tx := set_t_id (head_txid + 1) tx in
  run ops <- lift (tx_oplist tx);
  run (rv, nle, buf, offset) <- tx_log_loop log (t_id tx) head_lsn PFS_FRAG_SIZE ops 0 [] head_offset;
  if rv <? 0 then LRet (tx, rv) else
  ASSERT (nle =? t_nops tx);
  run (rv, offset) <- (if negb (Z.of_nat (length buf) =? 0) then
                         run rv <- pfs_log_write log buf offset;
                         if rv <? 0 then LRet (rv, offset) else LRet (rv, offset + rv)
                       else LRet (0, offset));
  if rv <? 0 then LRet (tx, rv) else LRet (tx, offset - head_offset).

Definition pfs_log_commit (log : pfs_log) (tx : pfs_tx) (latest : pfs_leader_record)
  : logio (pfs_log * pfs_tx * Z) :=
  let lr := log_leader log in
  let lrbak := lr in
  if head_txid lr - head_txid latest <? 0 then LRet (log, tx, - EAGAIN) else
  run (tx, rv) <- pfs_tx_log log tx (head_txid lr) (head_lsn lr) (head_offset lr);
  if rv <? 0 then LRet (set_leader lrbak log, tx, rv) else
  let lr := set_head (head_txid lr + 1) (off_modular_add (head_offset lr) rv (log_size lr))
              (head_lsn lr + rv / LE_SIZE) lr in
  run (log, rv) <- pfs_log_paxos_forward_leader (set_leader lr log);
  if rv <? 0 then LRet (set_leader lrbak log, tx, rv) else LRet (log, tx, rv).

(** ** Recreating transactions from the journal *)
Definition pfs_txop_recreate (le : pfs_logentry_phy) : option pfs_txop :=
  let* _ := pfs_metaobj_check_crc (le_obj_val le) in
  PFS_ASSERT (negb (mo_type (le_obj_val le) =? MT_NONE)) ;;
  Some (MkTop (le_obj_val le) true false false None (le_sector_bda le) (le_obj_idx le) None None None 0 0).

Definition pfs_tx_recreate_op (tx : pfs_tx) (le : pfs_logentry_phy) : option pfs_tx :=
  let* top := pfs_txop_recreate le in
  let '(tx, id) := pfs_txop_create top tx in
  Some (set_t_ops (t_nops tx + 1) (t_ops tx ++ [id]) tx).

(** The state of the scan: the entries of the buffer from [le] on, the
    transactions completed and the one being filled. *)
Fixpoint log_scan_loop (fuel : nat) (log : pfs_log) (buflen : Z) (start_txid stop_txid : Z)
    (les : list pfs_logentry_phy) (offset readlen nentry last_lsn last_txid : Z)
    (txq : list pfs_tx) (tx : option pfs_tx) : logio (Z * list pfs_tx) :=
  match fuel with
  | O => LHang
  | S fuel =>
      run p <- (match les with
                | [] =>
                    ASSERT (offset <? log_size (log_leader log));
                    let offset := off_modular_add offset readlen (log_size (log_leader log)) in
                    run (readlen, buf) <- pfs_log_read log buflen offset;
                    ASSERT (readlen >? 0);
                    LRet (buf, offset, readlen)
                | _ => LRet (les, offset, readlen)
                end);
      let '(les, offset, readlen) := p in
      match les with
      | [] => LAbort
      | le :: les =>
          ASSERT ((last_lsn <? 0) || (le_lsn le - last_lsn =? 1));
          ASSERT ((le_txid le - last_txid =? 0) || (le_txid le - last_txid =? 1));
          ASSERT ((le_txid le - start_txid >? 0) && (le_txid le - stop_txid <=? 0));
          let '(txq, tx) := match tx with
                            | Some tx =>
                                if t_id tx =? le_txid le then (txq, tx)
                                else (txq ++ [tx], set_t_id (le_txid le) (pfs_tx_get TXT_REPLAY false))
                            | None => (txq, set_t_id (le_txid le) (pfs_tx_get TXT_REPLAY false))
                            end in
          run tx <- lift (pfs_tx_recreate_op tx le);
          let nentry := nentry + 1 in
          if (le_txid le =? stop_txid) && (le_more le =? 0)
          then LRet (nentry * LE_SIZE, txq ++ [tx])
          else log_scan_loop fuel log buflen start_txid stop_txid les offset readlen nentry
                 (le_lsn le) (le_txid le) txq (Some tx)
      end
  end.

Definition pfs_log_scan (fuel : nat) (log : pfs_log) (start_offset start_txid stop_txid : Z)
  : logio (Z * list pfs_tx) :=
  ASSERT (start_offset <? log_size (log_leader log));
  if start_txid =? stop_txid then LRet (0, [])
  else log_scan_loop fuel log PFS_FRAG_SIZE start_txid stop_txid [] start_offset 0 0 (-1) start_txid [] None.

Section Options.
(** The options of pfs_log.cc; [fuel] bounds the entries one scan reads. *)
Context (trimgroup_nsect_threshold trimgroup_ntx_threshold trimgroup_ntx_threshold_hard : Z).
Context (trimgroup_nsects_swapinmax log_trim_interval log_skip_journal_probe : Z).
Context (fuel : nat).

(** ** Swapping the groups *)

(** The copies made from the first sector without one on; [mem] is the meta
    cache.  Returns the sectors, the count left without a copy and where the
    loop stopped. *)
Fixpoint swapin (mem : Z -> list pfs_metaobj_phy) (sects : list pfs_sectbuf) (nswapin nempty : Z)
  : option (list pfs_sectbuf * Z * option Z) :=
  match sects with
  | [] => Some ([], nempty, None)
  | sb :: rest =>
      match s_buf sb with
      | None =>
          let* metabuf := s_metabuf sb in
          let sb := set_s_buf (Some (mem metabuf)) sb in
          let nswapin := nswapin - 1 in
          let nempty := nempty - 1 in
          if nempty =? 0 then Some (sb :: rest, nempty, Some (s_bda sb))
          else if nswapin =? 0 then Some (sb :: rest, nempty, s_bda <$> head rest)
          else let* r := swapin mem rest nswapin nempty in
               let '(l, e, p) := r in Some (sb :: l, e, p)
      | Some _ =>
          let* r := swapin mem rest nswapin nempty in
          let '(l, e, p) := r in Some (sb :: l, e, p)
      end
  end.

Fixpoint swapin_from (mem : Z -> list pfs_metaobj_phy) (first : Z) (sects : list pfs_sectbuf)
    (nswapin nempty : Z) : option (list pfs_sectbuf * Z * option Z) :=
  match sects with
  | [] => Some ([], nempty, None)
  | sb :: rest =>
      if s_bda sb =? first then swapin mem sects nswapin nempty
      else let* r := swapin_from mem first rest nswapin nempty in
           let '(l, e, p) := r in Some (sb :: l, e, p)
  end.

Definition set_g_swap (l : list pfs_sectbuf) (nempty : Z) (first : option Z) (grp : pfs_trimgroup)
  : pfs_trimgroup :=
  MkGrp (g_ltxid grp) (g_rtxid grp) (g_roffset grp) (g_nsects grp) nempty first l (g_rootp grp).

(** [direct_swap]: exchange the groups when the waiting one is empty. *)
Definition tryswap_direct (log : pfs_log) (force : bool) : pfs_log * Z :=
  let work := log_workgrp log in
  if pfs_trimgroup_ntx (log_waitgrp log) >? 0 then (log, 0)
  else if negb force && (pfs_trimgroup_nsectors work <? trimgroup_nsect_threshold)
          && (pfs_trimgroup_ntx work <? trimgroup_ntx_threshold) then (log, 0)
  else
    let wait := log_waitgrp log in
    (set_log_grps (MkGrp (g_rtxid work) (g_rtxid work) (g_roffset work) (g_nsects wait)
                     (g_nsects_empty wait) (g_sect_empty_first wait) (g_sects wait) (g_rootp wait)) work log, 0).

Definition pfs_log_tryswap_trimgroup (log : pfs_log) (mem : Z -> list pfs_metaobj_phy) (force : bool)
    (handle_type : Z) : logio (pfs_log * Z) :=
  let work := log_workgrp log in
  let nswapin := g_nsects_empty work in
  let over_threshold := (pfs_trimgroup_ntx work >=? trimgroup_ntx_threshold)
                        || (pfs_trimgroup_nsectors work >=? trimgroup_nsect_threshold) in
  if negb (mnt_writable (log_mount log)) then LRet (log, - nswapin)
  else if nswapin =? 0 then LRet (tryswap_direct log force)
  else if negb force && ((handle_type =? LOG_WRITE) || (handle_type =? LOG_REPLAYDONE))
          && negb over_threshold then LRet (log, - nswapin)
  else
    match g_sect_empty_first work with
    | None => LAbort
    | Some sb =>
        let copy :=
          let nswapin := if negb force && negb over_threshold then trimgroup_nsects_swapinmax else nswapin in
          run (sects, nempty, sb) <- lift (swapin_from mem sb (g_sects work) nswapin (g_nsects_empty work));
          if negb (nempty =? 0) then
            ASSERT (is_some sb);
            LRet (set_log_grps (set_g_swap sects nempty sb work) (log_waitgrp log) log, nempty)
          else LRet (tryswap_direct (set_log_grps (set_g_swap sects nempty None work) (log_waitgrp log) log) force) in
        if negb (handle_type =? LOG_WRITE) then
          TryRdLock (fun locked => if locked then copy else LRet (log, - nswapin))
        else copy
    end.

Definition pfs_log_add_trimentry (log : pfs_log) (txid txspace : Z) (opsq : list pfs_txop) : option pfs_log :=
  let* work := pfs_trimgroup_insert (log_workgrp log) txid txspace opsq (log_size (log_leader log)) in
  Some (set_log_grps work (log_waitgrp log) log).

Definition pfs_log_del_trimentry (log : pfs_log) (to_txid : Z) : pfs_log :=
  set_log_grps (pfs_trimgroup_delete (log_workgrp log) to_txid)
    (pfs_trimgroup_delete (log_waitgrp log) to_txid) log.

(** ** Trimming *)
Definition pfs_log_need_trim (log : pfs_log) : option bool :=
  if tail_txid (log_leader log) =? head_txid (log_leader log) then
    PFS_ASSERT (g_ltxid (log_workgrp log) =? g_rtxid (log_workgrp log)) ;;
    PFS_ASSERT (g_ltxid (log_waitgrp log) =? g_rtxid (log_waitgrp log)) ;;
    Some false
  else
    Some (((pfs_trimgroup_nsectors (log_workgrp log) >=? trimgroup_nsect_threshold)
           || (pfs_trimgroup_ntx (log_workgrp log) >=? trimgroup_ntx_threshold))
          && (g_ltxid (log_waitgrp log) <? g_rtxid (log_waitgrp log))).

Definition pfs_log_need_trim_hard (log : pfs_log) : option bool :=
  if pfs_trimgroup_ntx (log_workgrp log) >=? trimgroup_ntx_threshold_hard then
    PFS_ASSERT (trimgroup_ntx_threshold_hard >? trimgroup_ntx_threshold) ;;
    Some true
  else Some false.

Definition pfs_log_trim (log : pfs_log) : logio (pfs_log * Z) :=
  run _ <- lift (pfs_log_space log);
  let lr := log_leader log in
  let grp := log_waitgrp log in
  if g_ltxid grp =? g_rtxid grp then LRet (log, 0) else
  ASSERT ((tail_txid lr =? g_ltxid grp) && (g_rtxid grp =? g_ltxid (log_workgrp log)));
  run (nsects, tail_txid, tail_offset) <- pfs_trimgroup_flush grp (-1) 0;
  if nsects <=? 0 then LRet (log, nsects) else
  let oldlr := lr in
  run (log, rv) <- pfs_log_paxos_forward_leader (set_leader (set_tail tail_txid tail_offset lr) log);
  if rv <? 0 then LRet (set_leader oldlr log, rv) else
  let log := pfs_log_del_trimentry log tail_txid in
  ASSERT (g_ltxid (log_waitgrp log) =? g_rtxid (log_waitgrp log));
  LRet (log, 0).

(** ** Loading and polling

    The replay transactions found are the second result. *)
Definition pfs_log_load (log : pfs_log) : logio (pfs_log * Z * list pfs_tx) :=
  let lr := log_leader log in
  run (rv, latest) <- pfs_leader_read (log_mount log);
  if rv <? 0 then LRet (log, rv, []) else
  ASSERT (tail_txid lr <=? tail_txid latest);
  ASSERT (head_txid lr <=? head_txid latest);
  if head_txid lr <? tail_txid latest then LRet (log, - EAGAIN, []) else
  run (rv, txq) <- pfs_log_scan fuel log (tail_offset lr) (tail_txid lr) (head_txid latest);
  if rv <? 0 then LRet (log, rv, txq) else
  let lr := set_tail (tail_txid latest) (tail_offset latest)
              (set_head (head_txid latest) (head_offset latest) (head_lsn latest) lr) in
  LRet (set_leader lr log, rv, txq).

Definition log_poll_latest (log : pfs_log) (latest : pfs_leader_record) : logio (pfs_log * Z * list pfs_tx) :=
  let lr := log_leader log in
  ASSERT (head_txid lr - tail_txid latest >=? 0);
  let log := if tail_txid lr <? tail_txid latest then
               let log := pfs_log_del_trimentry log (tail_txid latest) in
               set_leader (set_tail (tail_txid latest) (tail_offset latest) lr) log
             else log in
  let lr := log_leader log in
  run (rlen, txq) <- pfs_log_scan fuel log (head_offset lr) (head_txid lr) (head_txid latest);
  if rlen <? 0 then LRet (log, rlen, txq) else
  LRet (set_leader (set_head (head_txid latest) (head_offset latest) (head_lsn latest) lr) log, rlen, txq).

Definition pfs_log_poll (log : pfs_log) (latest : option pfs_leader_record) : logio (pfs_log * Z * list pfs_tx) :=
  match latest with
  | Some latest => log_poll_latest log latest
  | None =>
      let lr := log_leader log in
      let read_latest :=
        run (rv, cur_lr) <- pfs_leader_read (log_mount log);
        if rv <? 0 then LRet (log, rv, []) else log_poll_latest log cur_lr in
      if negb (log_skip_journal_probe =? 1) then
        let rlen := PBD_SECTOR_SIZE - Z.land (head_offset lr) (PBD_SECTOR_SIZE - 1) in
        run (rv, buf) <- pfs_log_read log rlen (head_offset lr);
        if rv <? 0 then LRet (log, rv, []) else
        match buf with
        | le :: _ => if le_txid le - head_txid lr <=? 0 then LRet (log, 0, []) else read_latest
        | [] => LAbort
        end
      else read_latest
  end.

(** ** Requests

    [r_id] names the waiting thread; [th_out] lists the replies, each with
    the result and the replay transactions handed over. *)
Record log_req := MkReq {
  r_id : nat;
  r_type : Z;
  r_itx : option pfs_tx;
  r_otxq : list pfs_tx;
  r_hostid : Z;
  r_next_hostid : Z }.

Definition set_r_otxq (v : list pfs_tx) (r : log_req) : log_req :=
  MkReq (r_id r) (r_type r) (r_itx r) v (r_hostid r) (r_next_hostid r).

Definition log_trimreq : log_req := MkReq 0 LOG_TRIM None [] 0 0.

Record log_thread := MkTh {
  th_log : pfs_log;
  th_mem : Z -> list pfs_metaobj_phy;
  work_req : Z -> list log_req;
  th_out : list (nat * Z * list pfs_tx) }.

Definition set_th_log (v : pfs_log) (th : log_thread) : log_thread :=
  MkTh v (th_mem th) (work_req th) (th_out th).
Definition set_th_mem (v : Z -> list pfs_metaobj_phy) (th : log_thread) : log_thread :=
  MkTh (th_log th) v (work_req th) (th_out th).
Definition set_work_req (i : Z) (v : list log_req) (th : log_thread) : log_thread :=
  MkTh (th_log th) (th_mem th) (<[i := v]> (work_req th)) (th_out th).

Definition pfs_log_reply (req : log_req) (rv : Z) (th : log_thread) : log_thread :=
  MkTh (th_log th) (th_mem th) (work_req th)
    (th_out th ++ [(r_id req, rv, if (rv <? 0) && negb (rv =? - EAGAIN) then [] else r_otxq req)]).

Fixpoint reply_all (reqs : list log_req) (rv : Z) (th : log_thread) : log_thread :=
  match reqs with
  | [] => th
  | req :: reqs => reply_all reqs rv (pfs_log_reply req rv th)
  end.

Definition pfs_log_reply_queue (i : Z) (rv : Z) (th : log_thread) : log_thread :=
  set_work_req i [] (reply_all (work_req th i) rv th).

(** [TAILQ_CONCAT(&work_req[i], &work_req[j])]. *)
Definition req_concat (i j : Z) (th : log_thread) : log_thread :=
  set_work_req j [] (set_work_req i (work_req th i ++ work_req th j) th).

(** [pfs_log_replaytx_put] with [trim]: the replayed transactions enter the
    work group. *)
Fixpoint pfs_log_replaytx_put (log : pfs_log) (mem : Z -> list pfs_metaobj_phy) (otxq : list pfs_tx)
  : logio pfs_log :=
  match otxq with
  | [] => LRet log
  | tx :: otxq =>
      run ops <- lift (tx_oplist tx);
      run log <- lift (pfs_log_add_trimentry log (t_id tx) (t_nops tx * LE_SIZE) ops);
      run (log, _) <- pfs_log_tryswap_trimgroup log mem false LOG_REPLAYDONE;
      pfs_log_replaytx_put log mem otxq
  end.

(** ** Handlers *)
Definition pfs_log_handle_load (th : log_thread) : logio (log_thread * Z) :=
  let log := th_log th in
  ASSERT (log_state log =? LOGST_NOTLOADED);
  ASSERT (negb (log_replay_wait log));
  match work_req th LOG_LOAD with
  | [req] =>
      let th := set_work_req LOG_LOAD [] th in
      run (log, rv, txq) <- pfs_log_load log;
      let req := set_r_otxq (r_otxq req ++ txq) req in
      if rv <? 0 then LRet (pfs_log_reply req rv (set_th_log log th), LOG_IO_STOP)
      else if rv =? 0 then
        ASSERT (tail_txid (log_leader log) =? head_txid (log_leader log));
        LRet (pfs_log_reply req 0 (set_th_log (set_log_state LOGST_SERVING log) th), LOG_IO_CONT)
      else LRet (pfs_log_reply req rv (set_th_log (set_replay_wait true log) th), LOG_IO_CONT)
  | _ => LAbort
  end.

(** [log_paxos_got] is never set, so the record is always read. *)
Definition pfs_log_handle_poll (th : log_thread) : logio (log_thread * Z) :=
  let log := th_log th in
  ASSERT (log_state log =? LOGST_SERVING);
  if log_replay_wait log then LRet (th, LOG_IO_CONT) else
  match work_req th LOG_POLL with
  | req :: rest =>
      run (log, rv, txq) <- pfs_log_poll log None;
      let req := set_r_otxq (r_otxq req ++ txq) req in
      let th := set_work_req LOG_POLL (req :: rest) (set_th_log log th) in
      if rv <? 0 then LRet (pfs_log_reply_queue LOG_POLL rv th, LOG_IO_STOP)
      else if rv =? 0 then
        ASSERT (bool_decide (length (r_otxq req) = 0%nat));
        LRet (pfs_log_reply_queue LOG_POLL 0 th, LOG_IO_CONT)
      else
        ASSERT (bool_decide (length (r_otxq req) <> 0%nat));
        let th := set_th_log (set_replay_wait true log) th in
        let th := pfs_log_reply req rv (set_work_req LOG_POLL rest th) in
        let th := req_concat LOG_REPLAY_WAIT LOG_POLL th in
        LRet (pfs_log_reply_queue LOG_WRITE (- EAGAIN) th, LOG_IO_CONT)
  | [] => LAbort
  end.

Definition pfs_log_handle_try_reset_lock (th : log_thread) : logio (log_thread * Z) :=
  let log := th_log th in
  ASSERT (log_state log =? LOGST_SERVING);
  if log_replay_wait log then LRet (th, LOG_IO_STOP) else
  match work_req th LOG_TRY_RESET_LOCK with
  | req :: rest =>
      let log := if mnt_host_id (log_mount log) =? r_hostid req
                 then set_log_mount (set_host_id (r_next_hostid req) (log_mount log)) log else log in
      let th := set_work_req LOG_TRY_RESET_LOCK rest (set_th_log log th) in
      LRet (pfs_log_reply req 0 th, LOG_IO_CONT)
  | [] => LAbort
  end.

(** The part of [pfs_log_handle_write] behind the checks. *)
Definition handle_write_commit (th : log_thread) (req : log_req) (rest : list log_req) (tx : pfs_tx)
    (txspace : Z) : logio (log_thread * Z) :=
  let log := th_log th in
  run (log, tx, rv) <- pfs_log_commit log tx (log_leader log);
  let req := MkReq (r_id req) (r_type req) (Some tx) (r_otxq req) (r_hostid req) (r_next_hostid req) in
  if rv <? 0 then
    let th := set_work_req LOG_WRITE rest (set_th_log log th) in
    ASSERT (bool_decide (length rest = 0%nat));
    LRet (pfs_log_reply req rv th, LOG_IO_STOP)
  else
    run mem <- lift (pfs_tx_apply tx (th_mem th));
    run ops <- lift (tx_oplist tx);
    run log <- lift (pfs_log_add_trimentry log (t_id tx) txspace ops);
    run (log, _) <- pfs_log_tryswap_trimgroup log mem false LOG_WRITE;
    ASSERT (g_roffset (log_workgrp log) =? head_offset (log_leader log));
    let th := set_work_req LOG_WRITE rest (set_th_log log (set_th_mem mem th)) in
    ASSERT (bool_decide (length rest = 0%nat));
    LRet (pfs_log_reply_queue LOG_POLL 0 (pfs_log_reply req 0 th), LOG_IO_CONT).

Definition pfs_log_handle_write (th : log_thread) : logio (log_thread * Z) :=
  let log := th_log th in
  ASSERT (log_state log =? LOGST_SERVING);
  if log_replay_wait log then LRet (pfs_log_reply_queue LOG_WRITE (- EAGAIN) th, LOG_IO_CONT) else
  let log := pfs_log_paxos_try_acquire log in
  let th := set_th_log log th in
  let lr := log_leader log in
  let latest := log_leader_latest log in
  let trim_first (th : log_thread) :=
    LRet (set_work_req LOG_TRIM (work_req th LOG_TRIM ++ [log_trimreq]) th, LOG_IO_BACK) in
  if tail_txid lr <? tail_txid latest then trim_first th else
  match work_req th LOG_WRITE with
  | req :: rest =>
      ASSERT (head_txid lr <=? head_txid latest);
      if head_txid lr <? head_txid latest then
        run (log, rv, txq) <- pfs_log_poll log (Some latest);
        ASSERT (negb (rv =? 0));
        let th := set_work_req LOG_WRITE (set_r_otxq (r_otxq req ++ txq) req :: rest) (set_th_log log th) in
        if rv <? 0 then LRet (pfs_log_reply_queue LOG_WRITE rv th, LOG_IO_STOP)
        else
          let th := set_th_log (set_replay_wait true log) th in
          LRet (req_concat LOG_REPLAY_WAIT LOG_POLL (pfs_log_reply_queue LOG_WRITE (- EAGAIN) th), LOG_IO_CONT)
      else
        match r_itx req with
        | None => LAbort
        | Some tx =>
            let txspace := t_nops tx * LE_SIZE in
            ASSERT ((t_nops tx >? 0) && (txspace <=? log_size lr));
            run space <- lift (pfs_log_space log);
            if txspace >=? space then trim_first (set_th_log (set_space_needed true log) th)
            else handle_write_commit th req rest tx txspace
        end
  | [] => LAbort
  end.

(** The clock is read before anything else. *)
Definition pfs_log_handle_trim (th : log_thread) : logio (log_thread * Z) :=
  ASSERT (log_state (th_log th) =? LOGST_SERVING);
  ClockSec (fun now =>
  let log := set_log_trimts now (th_log th) in
  if log_replay_wait log then LRet (set_th_log log th, LOG_IO_CONT) else
  match work_req th LOG_TRIM with
  | [] => LAbort
  | _ :: rest =>
      let th := set_work_req LOG_TRIM rest th in
      let log := pfs_log_paxos_try_acquire log in
      let latest := log_leader_latest log in
      let lr := log_leader log in
      ASSERT (tail_txid latest <=? head_txid lr);
      let log := if tail_txid lr <? tail_txid latest then
                   set_leader (set_tail (tail_txid latest) (tail_offset latest) lr)
                     (pfs_log_del_trimentry log (tail_txid latest))
                 else log in
      let lr := log_leader log in
      ASSERT (head_txid lr <=? head_txid latest);
      if head_txid lr <? head_txid latest then LRet (set_th_log log th, LOG_IO_CONT) else
      run (log, rv) <-
        (if log_trim_forced log then
           run (log, _) <- pfs_log_tryswap_trimgroup log (th_mem th) true LOG_TRIM;
           pfs_log_trim (set_trim_forced false log)
         else if log_space_needed log then
           run (log, _) <- pfs_log_tryswap_trimgroup log (th_mem th) true LOG_WRITE;
           pfs_log_trim (set_space_needed false log)
         else
           run need <- lift (pfs_log_need_trim log);
           if need : bool then pfs_log_trim log else LRet (log, 0));
      LRet (set_th_log log th, if rv <? 0 then LOG_IO_STOP else LOG_IO_CONT)
  end).

Definition pfs_log_handle_flush (th : log_thread) : logio (log_thread * Z) :=
  let log := th_log th in
  ASSERT (log_state log =? LOGST_SERVING);
  if log_replay_wait log then LRet (th, LOG_IO_CONT) else
  match work_req th LOG_FLUSH with
  | req :: rest =>
      let th := set_work_req LOG_FLUSH rest th in
      if tail_txid (log_leader log) =? head_txid (log_leader log)
      then LRet (pfs_log_reply req (- ENODATA) th, LOG_IO_CONT)
      else
        let th := set_work_req LOG_TRIM (log_trimreq :: work_req th LOG_TRIM)
                    (set_th_log (set_trim_forced true log) th) in
        LRet (pfs_log_reply req (- EAGAIN) th, LOG_IO_BACK)
  | [] => LAbort
  end.

Definition pfs_log_handle_replaydone (th : log_thread) : logio (log_thread * Z) :=
  let log := th_log th in
  ASSERT (log_replay_wait log);
  match work_req th LOG_REPLAYDONE with
  | [req] =>
      let th := set_work_req LOG_REPLAYDONE [] th in
      run log <- pfs_log_replaytx_put log (th_mem th) (r_otxq req);
      let req := set_r_otxq [] req in
      let log := if log_state log =? LOGST_NOTLOADED
                 then set_log_state LOGST_SERVING (pfs_log_del_trimentry log (tail_txid (log_leader log)))
                 else log in
      ASSERT ((g_rtxid (log_workgrp log) =? head_txid (log_leader log)) &&
              (g_roffset (log_workgrp log) =? head_offset (log_leader log)));
      let th := set_th_log (set_replay_wait false log) th in
      LRet (pfs_log_reply req 0 (pfs_log_reply_queue LOG_REPLAY_WAIT 0 th), LOG_IO_CONT)
  | _ => LAbort
  end.

Definition pfs_log_handle_stop (th : log_thread) : logio (log_thread * Z) :=
  LRet (pfs_log_reply_queue LOG_STOP 0 (set_th_log (set_log_state LOGST_STOP (th_log th)) th), LOG_IO_CONT).

Definition pfs_log_handle_suspend (th : log_thread) : logio (log_thread * Z) :=
  ASSERT (log_state (th_log th) =? LOGST_SERVING);
  LRet (pfs_log_reply_queue LOG_SUSPEND 0
          (set_th_log (set_log_state LOGST_SUSPENDED (th_log th)) th), LOG_IO_CONT).

Definition pfs_log_handle_resume (th : log_thread) : logio (log_thread * Z) :=
  ASSERT (log_state (th_log th) =? LOGST_SUSPENDED);
  run (log, _) <- pfs_log_tryswap_trimgroup (set_log_state LOGST_SERVING (th_log th)) (th_mem th) true LOG_RESUME;
  LRet (pfs_log_reply_queue LOG_RESUME 0 (set_th_log log th), LOG_IO_CONT).

(** ** Dispatch *)
Definition log_req_handler (i : Z) (th : log_thread) : logio (log_thread * Z) :=
  if i =? LOG_LOAD then pfs_log_handle_load th
  else if i =? LOG_REPLAYDONE then pfs_log_handle_replaydone th
  else if i =? LOG_TRIM then pfs_log_handle_trim th
  else if i =? LOG_POLL then pfs_log_handle_poll th
  else if i =? LOG_TRY_RESET_LOCK then pfs_log_handle_try_reset_lock th
  else if i =? LOG_WRITE then pfs_log_handle_write th
  else if i =? LOG_FLUSH then pfs_log_handle_flush th
  else if i =? LOG_SUSPEND then pfs_log_handle_suspend th
  else if i =? LOG_RESUME then pfs_log_handle_resume th
  else if i =? LOG_STOP then pfs_log_handle_stop th
  else LAbort.

Fixpoint log_handle_req_loop (n : nat) (th : log_thread) (reqmask : Z) (i rv : Z) : logio (log_thread * Z) :=
  if i <? LOG_NREQ then
    match n with
    | O => LHang
    | S n =>
        if negb (Z.testbit reqmask i) || bool_decide (length (work_req th i) = 0%nat)
        then log_handle_req_loop n th reqmask (i + 1) rv
        else
          run (th, rv) <- log_req_handler i th;
          if rv =? LOG_IO_STOP then LRet (th, rv)
          else if rv =? LOG_IO_BACK then log_handle_req_loop n th reqmask LOG_TRIM rv
          else log_handle_req_loop n th reqmask (i + 1) rv
    end
  else LRet (th, rv).

Definition pfs_log_handle_req (n : nat) (th : log_thread) (reqmask : Z) : logio (log_thread * Z) :=
  log_handle_req_loop n th reqmask 1 0.

(** ** One turn of the log thread

    The requests taken from [log_reqhead] are [reqs]; those left of the turn
    before are in queue 0.  The lease renewal at the start of the turn is
    [Lease.log_thread_renew]. *)
Definition log_bits (l : list Z) : Z := fold_right (fun i m => Z.lor (Z.shiftl 1 i) m) 0 l.

Definition log_reqmask (log : pfs_log) : option Z :=
  if log_state log =? LOGST_NOTLOADED then Some (log_bits [LOG_LOAD; LOG_STOP; LOG_REPLAYDONE])
  else if log_state log =? LOGST_SERVING then
    let m := log_bits [LOG_POLL; LOG_STOP; LOG_REPLAYDONE; LOG_SUSPEND; LOG_TRY_RESET_LOCK] in
    Some (if mnt_writable (log_mount log) then Z.lor m (log_bits [LOG_TRIM; LOG_WRITE; LOG_FLUSH]) else m)
  else if log_state log =? LOGST_SUSPENDED then Some (log_bits [LOG_RESUME])
  else None.

Fixpoint distribute (reqs : list log_req) (th : log_thread) : log_thread :=
  match reqs with
  | [] => th
  | req :: reqs => distribute reqs (set_work_req (r_type req) (work_req th (r_type req) ++ [req]) th)
  end.

Definition req_types : list Z :=
  [LOG_LOAD; LOG_REPLAYDONE; LOG_TRIM; LOG_POLL; LOG_TRY_RESET_LOCK; LOG_WRITE; LOG_FLUSH; LOG_SUSPEND;
   LOG_RESUME; LOG_STOP].

Definition log_thread_turn (n : nat) (th : log_thread) (reqs : list log_req) : logio log_thread :=
  let merged := work_req th LOG_MERGED ++ reqs in
  let th := distribute merged (set_work_req LOG_MERGED [] th) in
  run reqmask <- lift (log_reqmask (th_log th));
  run th <- (if Z.testbit reqmask LOG_TRIM && bool_decide (length (work_req th LOG_TRIM) = 0%nat) then
               run need <- lift (pfs_log_need_trim (th_log th));
               if need : bool then
                 ClockSec (fun curts =>
                 run hard <- (if curts - log_trimts (th_log th) >=? log_trim_interval then LRet true
                              else lift (pfs_log_need_trim_hard (th_log th)));
                 LRet (if hard : bool
                       then set_work_req LOG_TRIM (work_req th LOG_TRIM ++ [log_trimreq]) th else th))
               else LRet th
             else LRet th);
  run (th, _) <- pfs_log_handle_req n th reqmask;
  LRet (fold_left (fun th i => req_concat LOG_MERGED i th) req_types th).

(** The checkpoint before the wait: [swap_ts] is the second of the last swap. *)
Definition log_thread_swap (th : log_thread) (reqmask ts swap_ts : Z) : logio (log_thread * Z) :=
  if Z.testbit reqmask LOG_TRIM && bool_decide (length (work_req th LOG_MERGED) = 0%nat)
     && negb (log_replay_wait (th_log th)) && (ts - swap_ts >=? 1) then
    run (log, rv) <- pfs_log_tryswap_trimgroup (th_log th) (th_mem th) false LOG_NREQ;
    LRet (set_th_log log th, if rv >=? 0 then ts else swap_ts)
  else LRet (th, swap_ts).
End Options.

(** ** Preload

    The record is read with device I/O and not verified; the work group
    starts at its tail.  An error is the left result. *)
Definition zero_leader : pfs_leader_record :=
  {| lr_body := {| lr_magic := 0; lr_version := 0; lr_flags := 0; lr_sector_size := 0; lr_num_hosts := 0;
       lr_max_hosts := 0; lr_unused := replicate 176 0; lr_tail_txid := 0; lr_head_txid := 0;
       lr_tail_offset := 0; lr_head_offset := 0; lr_log_size := 0; lr_head_lsn := 0 |};
     lr_checksum := 0 |}.

Definition pfs_log_preload (mnt : mount) : logio (Z + pfs_log) :=
  GetLeader (fun '(rv, lr) =>
  if rv <? 0 then LRet (inl rv) else
  let g := pfs_trimgroup_init in
  LRet (inr (MkLog mnt LOGST_NOTLOADED false false false lr zero_leader
    (MkGrp (tail_txid lr) (tail_txid lr) (tail_offset lr) (g_nsects g) (g_nsects_empty g)
       (g_sect_empty_first g) (g_sects g) (g_rootp g)) g 0))).
