(* ===== verification/LogSem.v ===== *)
(** * Running the log thread against a device that can fail

    Operational semantics of the programs of [LogIo]: a journal write can be
    short, fail with any entries of it written, or be cut by a crash; a
    sector write that fails or is cut leaves each object old or new; the
    leader sector is written as a whole or not at all, but a write of it that
    fails may have reached the device; every read can fail, and gives all it
    was asked for otherwise ([pfs_file_read] has no partial result).  A write
    that failed takes effect at once or never.  [safe] is the proof rule,
    sound for every execution and every crash. *)

From S2P Require Import Prelude Crc Lease Object Tx LogIo Trim Log.

Open Scope Z_scope.

Section Sem.
(** [nslots] is the number of entries of the journal file, [ss] the size of
    a sector of the paxos file; [hang] says when a loop may run without end,
    [halt] whether the process may abort on a journal read that fails. *)
Context (nslots ss : Z) {hang halt : Prop}.

Definition in_file (offset len : Z) : Prop :=
  0 <= offset /\ offset mod LE_SIZE = 0 /\ 0 < len /\ len mod LE_SIZE = 0 /\ offset + len <= LE_SIZE * nslots.

Definition slot (offset : Z) : Z := offset / LE_SIZE.

(** Each entry from [offset] on is old or the one of [buf], the others are
    old: an entry lies within one device sector. *)
Definition log_damaged (d d' : disk) (offset : Z) (buf : list pfs_logentry_phy) : Prop :=
  d_sect d' = d_sect d /\ d_leader d' = d_leader d /\
  forall i, d_log d' i = d_log d i \/
    exists j le, buf !! j = Some le /\ i = slot offset + Z.of_nat j /\ d_log d' i = le.

(** Sector [bda] has the length it had and each object is old or new. *)
Definition sect_torn (d d' : disk) (bda : Z) (buf : list pfs_metaobj_phy) : Prop :=
  d_log d' = d_log d /\ d_leader d' = d_leader d /\
  (forall b, b <> bda -> d_sect d' b = d_sect d b) /\
  length (d_sect d' bda) = length (d_sect d bda) /\
  forall i, d_sect d' bda !! i = d_sect d bda !! i \/ d_sect d' bda !! i = buf !! i.

Inductive lstep {A} : logio A * disk -> logio A * disk -> Prop :=
| st_pread d len offset k :
    lstep (PreadLog len offset k, d)
      (k (len, read_slots (slot offset) (Z.to_nat (len / LE_SIZE)) (d_log d)), d)
| st_pread_fail d len offset k rv buf :
    rv < 0 -> lstep (PreadLog len offset k, d) (k (rv, buf), d)
| st_pwrite d buf offset k n :
    (1 <= n <= length buf)%nat ->
    lstep (PwriteLog buf offset k, d)
      (k (LE_SIZE * Z.of_nat n), set_d_log (write_slots (slot offset) (take n buf) (d_log d)) d)
| st_pwrite_fail d buf offset k rv d' :
    rv < 0 -> log_damaged d d' offset buf -> lstep (PwriteLog buf offset k, d) (k rv, d')
| st_sect d bda buf k rv :
    0 <= rv -> lstep (PwriteSect bda buf k, d) (k rv, set_d_sect (<[bda := buf]> (d_sect d)) d)
| st_sect_fail d bda buf k rv d' :
    rv < 0 -> sect_torn d d' bda buf -> lstep (PwriteSect bda buf k, d) (k rv, d')
| st_get d k : lstep (GetLeader k, d) (k (ss, d_leader d), d)
| st_get_fail d k rv lr : rv < 0 -> lstep (GetLeader k, d) (k (rv, lr), d)
| st_put d lr k : lstep (PutLeader lr k, d) (k ss, set_d_leader lr d)
| st_put_fail d lr k rv : rv < 0 -> lstep (PutLeader lr k, d) (k rv, d)
| st_put_land d lr k rv : rv < 0 -> lstep (PutLeader lr k, d) (k rv, set_d_leader lr d)
| st_lock d k b : lstep (TryRdLock k, d) (k b, d)
| st_clock d k t : lstep (ClockSec k, d) (k t, d)
| st_meta d k : lstep (LoadMeta k, d) (k (0, d_sect d), d)
| st_meta_fail d k rv m : rv < 0 -> lstep (LoadMeta k, d) (k (rv, m), d).

(** What a crash in the middle of a command can leave. *)
Inductive lcrash {A} : logio A * disk -> disk -> Prop :=
| cr_idle p d : lcrash (p, d) d
| cr_pwrite d buf offset k d' : log_damaged d d' offset buf -> lcrash (PwriteLog buf offset k, d) d'
| cr_sect d bda buf k d' : sect_torn d d' bda buf -> lcrash (PwriteSect bda buf k, d) d'
| cr_put d lr k : lcrash (PutLeader lr k, d) (set_d_leader lr d).

(** ** The proof rule

    [I] holds whenever the process can crash, [Q] of the result. *)
Fixpoint safe {A} (I : disk -> Prop) (Q : A -> disk -> Prop) (p : logio A) (d : disk) : Prop :=
  I d /\
  match p with
  | LRet a => Q a d
  | LAbort => False
  | LHang => hang
  | PreadLog len offset k =>
      in_file offset len /\
      (forall rv buf, rv < 0 -> (halt /\ k (rv, buf) = LAbort) \/ safe I Q (k (rv, buf)) d) /\
      safe I Q (k (len, read_slots (slot offset) (Z.to_nat (len / LE_SIZE)) (d_log d))) d
  | PwriteLog buf offset k =>
      in_file offset (LE_SIZE * Z.of_nat (length buf)) /\
      (forall d', log_damaged d d' offset buf -> I d' /\ forall rv, rv < 0 -> safe I Q (k rv) d') /\
      forall n, (1 <= n <= length buf)%nat ->
        safe I Q (k (LE_SIZE * Z.of_nat n)) (set_d_log (write_slots (slot offset) (take n buf) (d_log d)) d)
  | PwriteSect bda buf k =>
      (forall d', sect_torn d d' bda buf -> I d' /\ forall rv, rv < 0 -> safe I Q (k rv) d') /\
      forall rv, 0 <= rv -> safe I Q (k rv) (set_d_sect (<[bda := buf]> (d_sect d)) d)
  | GetLeader k =>
      safe I Q (k (ss, d_leader d)) d /\ forall rv lr, rv < 0 -> safe I Q (k (rv, lr)) d
  | PutLeader lr k =>
      I (set_d_leader lr d) /\ safe I Q (k ss) (set_d_leader lr d) /\
      forall rv, rv < 0 -> safe I Q (k rv) d /\ safe I Q (k rv) (set_d_leader lr d)
  | TryRdLock k => forall b, safe I Q (k b) d
  | ClockSec k => forall t, safe I Q (k t) d
  | LoadMeta k =>
      (forall b, pfs_metaobj_check_crc_buf (d_sect d b) = Some tt) /\
      safe I Q (k (0, d_sect d)) d /\ forall rv m, rv < 0 -> safe I Q (k (rv, m)) d
  end.

Lemma safe_crash {A} I Q (p : logio A) d : safe I Q p d -> I d.
Proof. by destruct p; intros []. Qed.

Lemma safe_bind {A B} I (Q : B -> disk -> Prop) (R : A -> disk -> Prop) (p : logio A) (f : A -> logio B) d :
  safe I R p d -> (forall a d', R a d' -> safe I Q (f a) d') -> safe I Q (logio_bind p f) d.
Proof.
  intros Hp Hf. revert d Hp.
  induction p as [a| | |len off k IH|buf off k IH|bda buf k IH|k IH|lr k IH|k IH|k IH|k IH];
    intros d [HI Hp]; simpl.
  - by apply Hf.
  - done.
  - done.
  - split; [done|]. destruct Hp as (? & H1 & H2). split_and!; [done| |auto].
    intros rv buf Hrv. destruct (H1 rv buf Hrv) as [[Hs E]|]; [left|right; auto]. by rewrite E.
  - split; [done|]. destruct Hp as (? & H1 & H2). split_and!; [done| |auto].
    intros d' Hd'. destruct (H1 d' Hd'). split; auto.
  - split; [done|]. destruct Hp as (H1 & H2). split; [|auto].
    intros d' Hd'. destruct (H1 d' Hd'). split; auto.
  - split; [done|]. destruct Hp. split; auto.
  - split; [done|]. destruct Hp as (? & ? & H2). split_and!; [done|auto|].
    intros rv Hrv. destruct (H2 rv Hrv). split; auto.
  - split; [done|]. auto.
  - split; [done|]. auto.
  - split; [done|]. destruct Hp as (? & ? & ?). split_and!; auto.
Qed.

Lemma safe_mono {A} (I I' : disk -> Prop) (Q Q' : A -> disk -> Prop) p d :
  (forall d, I d -> I' d) -> (forall a d, I d -> Q a d -> Q' a d) -> safe I Q p d -> safe I' Q' p d.
Proof.
  intros HI HQ. revert d.
  induction p as [a| | |len off k IH|buf off k IH|bda buf k IH|k IH|lr k IH|k IH|k IH|k IH];
    intros d [Hd Hp]; simpl; (split; [by apply HI|]).
  - by apply HQ.
  - done.
  - done.
  - destruct Hp as (? & H1 & H2). split_and!; [done| |auto].
    intros rv buf Hrv. destruct (H1 rv buf Hrv) as [?|]; [by left|right; auto].
  - destruct Hp as (? & H1 & H2). split_and!; [done| |auto].
    intros d' Hd'. destruct (H1 d' Hd'). split; auto.
  - destruct Hp as (H1 & H2). split; [|auto]. intros d' Hd'. destruct (H1 d' Hd'). split; auto.
  - destruct Hp. split; auto.
  - destruct Hp as (? & ? & H2). split_and!; [auto|auto|].
    intros rv Hrv. destruct (H2 rv Hrv). split; auto.
  - auto.
  - auto.
  - destruct Hp as (? & ? & ?). split_and!; auto.
Qed.

(** A journal read whose data the process accepts. *)
Definition reads {A} (p : logio A) (d : disk) : Prop :=
  exists len offset k, p = PreadLog len offset k /\
    k (len, read_slots (slot offset) (Z.to_nat (len / LE_SIZE)) (d_log d)) <> LAbort.

Lemma safe_no_abort {A} I Q (p : logio A) d : safe I Q p d -> p <> LAbort.
Proof. by intros Hp ->; destruct Hp. Qed.

Lemma safe_step {A} I Q (p p' : logio A) d d' : safe I Q p d -> lstep (p, d) (p', d') ->
  safe I Q p' d' \/ (halt /\ p' = LAbort /\ I d' /\ reads p d).
Proof.
  intros Hp Hst. inversion Hst; subst; destruct Hp as [HI Hp].
  - left. by destruct Hp as (_ & _ & ?).
  - destruct Hp as (_ & Hp & Hok). destruct (Hp rv buf) as [[Hs E]|]; [done| |by left]. right.
    split_and!; try done. exists len, offset, k. split; [done|]. by eapply safe_no_abort.
  - left. destruct Hp as (_ & _ & Hp). by apply Hp.
  - left. destruct Hp as (_ & Hp & _). destruct (Hp d') as [_ H']; [done|]. by apply H'.
  - left. destruct Hp as (_ & Hp). by apply Hp.
  - left. destruct Hp as (Hp & _). destruct (Hp d') as [_ H']; [done|]. by apply H'.
  - left. by destruct Hp.
  - left. destruct Hp as (_ & Hp). by apply Hp.
  - left. by destruct Hp as (_ & ? & _).
  - left. destruct Hp as (_ & _ & Hp). by apply Hp.
  - left. destruct Hp as (_ & _ & Hp). by apply Hp.
  - left. exact (Hp b).
  - left. exact (Hp t).
  - left. by destruct Hp as (_ & ? & _).
  - left. destruct Hp as (_ & _ & Hp). by apply Hp.
Qed.

Lemma safe_reach {A} I Q (p p' : logio A) d d' : safe I Q p d -> rtc lstep (p, d) (p', d') ->
  safe I Q p' d' \/ (halt /\ p' = LAbort /\ I d').
Proof.
  intros Hp Hr. remember (p, d) as x eqn:Ex. remember (p', d') as y eqn:Ey. revert p d Ex Hp.
  induction Hr as [x|x [p1 d1] z Hst Hr IH]; intros p d -> Hp; simplify_eq; [by left|].
  destruct (safe_step _ _ _ _ _ _ Hp Hst) as [Hp1|(Hs & -> & HI & _)]; [by eapply IH|].
  right. inversion Hr as [|? ? ? Hst' _]; subst; [done|by inversion Hst'].
Qed.

(** Soundness: in every execution the crash states satisfy [I], results
    satisfy [Q], the process hangs only if [hang] and aborts only if [halt]. *)
Lemma safe_sound {A} I Q (p p' : logio A) d d' :
  safe I Q p d -> rtc lstep (p, d) (p', d') ->
  (forall dc, lcrash (p', d') dc -> I dc) /\ (forall a, p' = LRet a -> Q a d') /\
  (p' = LAbort -> halt) /\ (p' = LHang -> hang).
Proof.
  intros Hp Hr. destruct (safe_reach _ _ _ _ _ _ Hp Hr) as [Hp'|(Hs & -> & HI)].
  - split_and!.
    + intros dc Hc. inversion Hc; subst; clear Hc.
      * by eapply safe_crash.
      * destruct Hp' as (_ & _ & Hp' & _). by apply Hp'.
      * destruct Hp' as (_ & Hp' & _). by apply Hp'.
      * by destruct Hp' as (_ & ? & _).
    + intros a ->. by destruct Hp'.
    + intros ->. by destruct Hp'.
    + intros ->. by destruct Hp'.
  - split_and!; try done. intros dc Hc. by inversion Hc; subst.
Qed.

(** The step that aborts is a journal read that failed. *)
Lemma safe_abort {A} I Q (p p' : logio A) d d1 d' :
  safe I Q p d -> rtc lstep (p, d) (p', d1) -> lstep (p', d1) (LAbort, d') -> halt /\ reads p' d1.
Proof.
  intros Hp Hr Hst. destruct (safe_reach _ _ _ _ _ _ Hp Hr) as [Hp'|(_ & -> & _)]; [|by inversion Hst].
  by destruct (safe_step _ _ _ _ _ _ Hp' Hst) as [[_ []]|(? & _ & _ & ?)].
Qed.

(** Every command can take a step, and there are finitely many of them. *)
Definition ends {A} (p : logio A) (d : disk) : Prop :=
  Acc (fun y x => lstep x y) (p, d) /\
  forall p' d', rtc lstep (p, d) (p', d') -> (exists x, lstep (p', d') x) \/ exists a, p' = LRet a.

Lemma lstep_acc {A} (p : logio A) : forall d, Acc (fun y x => lstep x y) (p, d).
Proof.
  induction p as [a| | |len off k IH|buf off k IH|bda buf k IH|k IH|lr k IH|k IH|k IH|k IH];
    intros d; constructor; intros [p' d'] Hst; inversion Hst; subst; auto.
Qed.

Lemma safe_ends {A} I Q (p : logio A) d : safe I Q p d -> ~ hang -> ~ halt -> ends p d.
Proof.
  intros Hp Hh Hns. split; [apply lstep_acc|]. intros p' d' Hr. destruct (safe_sound _ _ _ _ _ _ Hp Hr) as (_ & _ & Ha & Hg).
  destruct p' as [a| | |len off k|buf off k|bda buf k|k|lr k|k|k|k].
  - right. by exists a.
  - destruct Hns. by apply Ha.
  - destruct Hh. by apply Hg.
  - left. eexists. apply st_pread.
  - left. eexists. apply (st_pwrite_fail d' buf off k (-1) d'); [done|]. split; [done|]. split; [done|]. by left.
  - left. eexists. by apply (st_sect d' bda buf k 0).
  - left. eexists. apply st_get.
  - left. eexists. apply st_put.
  - left. eexists. apply (st_lock d' k true).
  - left. eexists. apply (st_clock d' k 0).
  - left. eexists. apply st_meta.
Qed.
End Sem.

(** More aborts allowed. *)
Lemma safe_halt {nslots ss} {hang halt halt' : Prop} {A} I Q (p : logio A) d : (halt -> halt') ->
  safe (hang := hang) (halt := halt) nslots ss I Q p d -> safe (hang := hang) (halt := halt') nslots ss I Q p d.
Proof.
  intros Hh. revert d.
  induction p as [a| | |len off k IH|buf off k IH|bda buf k IH|k IH|lr k IH|k IH|k IH|k IH];
    intros d [Hd Hp]; simpl; (split; [done|]); try done.
  - destruct Hp as (? & H1 & H2). split_and!; [done| |auto].
    intros rv buf Hrv. destruct (H1 rv buf Hrv) as [[? ?]|]; [left; auto|right; auto].
  - destruct Hp as (? & H1 & H2). split_and!; [done| |auto].
    intros d' Hd'. destruct (H1 d' Hd'). split; auto.
  - destruct Hp as (H1 & H2). split; [|auto]. intros d' Hd'. destruct (H1 d' Hd'). split; auto.
  - destruct Hp. split; auto.
  - destruct Hp as (? & ? & H2). split_and!; [auto|auto|].
    intros rv Hrv. destruct (H2 rv Hrv). split; auto.
  - auto.
  - auto.
  - destruct Hp as (? & ? & ?). split_and!; auto.
Qed.
