(* ===== verification/LogCirc.v ===== *)
(** * The circular journal

    [pfs_log_write], [pfs_tx_log] and [pfs_log_read] against the device:
    entries land in consecutive slots modulo the size of the journal, across
    the wrap, across the work buffer and across short writes, and nothing
    outside these slots changes. *)

From S2P Require Import Prelude Crc Lease Object Tx LogIo Trim Log LogSem.

Open Scope Z_scope.

(** ** Slots *)
Lemma write_slots_out les : forall i m x,
  ~ (i <= x < i + Z.of_nat (length les)) -> write_slots i les m x = m x.
Proof.
  induction les as [|le les IH]; intros i m x Hx; [done|]. simpl in *.
  rewrite IH by lia. rewrite fn_lookup_insert_ne; [done|lia].
Qed.

Lemma write_slots_in les : forall i m j le,
  les !! j = Some le -> write_slots i les m (i + Z.of_nat j) = le.
Proof.
  induction les as [|a les IH]; intros i m [|j] le Hj; simpl in *; simplify_eq.
  - rewrite Z.add_0_r, write_slots_out by lia. apply fn_lookup_insert.
  - replace (i + Z.of_nat (S j)) with (i + 1 + Z.of_nat j) by lia. by apply IH.
Qed.

Lemma length_read_slots n : forall i m, length (read_slots i n m) = n.
Proof. induction n; intros; simpl; auto. Qed.

Lemma read_slots_lookup n : forall i m j, (j < n)%nat -> read_slots i n m !! j = Some (m (i + Z.of_nat j)).
Proof.
  induction n as [|n IH]; intros i m [|j] Hj; simpl; [lia|lia|by rewrite Z.add_0_r|].
  rewrite IH by lia. do 2 f_equal. lia.
Qed.

Lemma LE_SIZE_eq : LE_SIZE = 256.
Proof. done. Qed.

Lemma slot_mul s : slot (LE_SIZE * s) = s.
Proof. unfold slot. rewrite Z.mul_comm. apply Z.div_mul. by rewrite LE_SIZE_eq. Qed.

Lemma le_div n : (LE_SIZE * n) / LE_SIZE = n.
Proof. rewrite Z.mul_comm. apply Z.div_mul. by rewrite LE_SIZE_eq. Qed.
Lemma le_mod n : (LE_SIZE * n) mod LE_SIZE = 0.
Proof. rewrite Z.mul_comm. apply Z.mod_mul. by rewrite LE_SIZE_eq. Qed.

Section Circ.
Context (nslots ss : Z) {hang halt : Prop}.
Hypothesis Hn : 0 < nslots.

(** [les] lies at position [p] of the circular journal. *)
Definition at_slots (d : disk) (p : Z) (les : list pfs_logentry_phy) : Prop :=
  forall j le, les !! j = Some le -> d_log d ((p + Z.of_nat j) mod nslots) = le.

(** Entries the scan accepts. *)
Definition le_valid (le : pfs_logentry_phy) : Prop := pfs_log_check [le] = Some tt.
Definition log_valid (d : disk) : Prop := forall i, le_valid (d_log d i).

(** [d'] differs from [d] only in the [n] slots from position [p] on. *)
Definition log_only (d d' : disk) (p n : Z) : Prop :=
  d_sect d' = d_sect d /\ d_leader d' = d_leader d /\ (log_valid d -> log_valid d') /\
  forall i, 0 <= i < nslots -> (forall j, 0 <= j < n -> i <> (p + j) mod nslots) -> d_log d' i = d_log d i.

Lemma log_only_refl d p n : log_only d d p n.
Proof. done. Qed.

Lemma log_only_trans d1 d2 d3 p n : log_only d1 d2 p n -> log_only d2 d3 p n -> log_only d1 d3 p n.
Proof.
  intros (E1 & E2 & V1 & H1) (E3 & E4 & V2 & H2). split_and!; [congruence|congruence|by auto|].
  intros i Hi Hj. by rewrite H2, H1.
Qed.

Lemma log_only_sub d d' p n q m :
  log_only d d' (p + q) m -> 0 <= q -> q + m <= n -> log_only d d' p n.
Proof.
  intros (E1 & E2 & V & H) Hq Hm. split_and!; [done..|]. intros i Hi Hj. apply H; [done|].
  intros j Hj' ->. apply (Hj (q + j)); [lia|]. f_equal. lia.
Qed.

Lemma log_only_mod d d' p n : log_only d d' (p mod nslots) n <-> log_only d d' p n.
Proof.
  unfold log_only. split; intros (E1 & E2 & V & H); (split_and!; [done..|]); intros i Hi Hj; apply H; auto;
    intros j Hj' ->; apply (Hj j Hj').
  - by rewrite Z.add_mod_idemp_l by lia.
  - by rewrite Z.add_mod_idemp_l by lia.
Qed.

Lemma at_slots_mod d p les : at_slots d (p mod nslots) les <-> at_slots d p les.
Proof.
  unfold at_slots. split; intros H j le Hj; specialize (H j le Hj);
    revert H; by rewrite Z.add_mod_idemp_l by lia.
Qed.

Lemma mod_slot p j k : 0 <= j < k -> k - j < nslots -> (p + j) mod nslots <> (p + k) mod nslots.
Proof.
  intros Hj Hk E. pose proof (Z.div_mod (p + j) nslots ltac:(lia)).
  pose proof (Z.div_mod (p + k) nslots ltac:(lia)).
  set (q := (p + k) / nslots - (p + j) / nslots).
  assert (k - j = nslots * q) by (unfold q; lia). clearbody q.
  destruct (Z.le_gt_cases q 0); nia.
Qed.

Lemma at_slots_only d d' p les q m :
  at_slots d p les -> log_only d d' (p + q) m -> Z.of_nat (length les) <= q -> q + m <= nslots ->
  at_slots d' p les.
Proof.
  intros Hat (_ & _ & _ & H) Hq Hm j le Hj. pose proof (lookup_lt_Some _ _ _ Hj).
  rewrite H; [by apply Hat|apply Z.mod_pos_bound; lia|].
  intros k Hk. rewrite <- Z.add_assoc. apply mod_slot; lia.
Qed.

Lemma at_slots_app d p l1 l2 :
  at_slots d p (l1 ++ l2) <-> at_slots d p l1 /\ at_slots d (p + Z.of_nat (length l1)) l2.
Proof.
  split.
  - intros H. split; intros j le Hj.
    + apply H. by rewrite lookup_app_l by (by eapply lookup_lt_Some).
    + rewrite <- (H (length l1 + j)%nat le); [do 2 f_equal; lia|].
      rewrite lookup_app_r by lia. by replace (length l1 + j - length l1)%nat with j by lia.
  - intros [H1 H2] j le Hj. apply lookup_app_Some in Hj as [Hj|[Hl Hj]]; [by apply H1|].
    rewrite <- (H2 _ _ Hj). do 2 f_equal. lia.
Qed.

(** A write that does not wrap. *)
Lemma write_slots_from l : forall s m i,
  write_slots s l m i = m i \/ exists j le, l !! j = Some le /\ i = s + Z.of_nat j /\ write_slots s l m i = le.
Proof.
  intros s m i. destruct (decide (s <= i < s + Z.of_nat (length l))) as [Hi|Hi].
  - right. destruct (lookup_lt_is_Some_2 l (Z.to_nat (i - s))) as [le Hle]; [lia|].
    exists (Z.to_nat (i - s)), le. split_and!; [done|lia|]. rewrite <- (write_slots_in l s m _ le Hle). f_equal. lia.
  - left. by apply write_slots_out.
Qed.

Lemma damaged_only d d' s l :
  0 <= s -> s + Z.of_nat (length l) <= nslots -> Forall le_valid l ->
  log_damaged d d' (LE_SIZE * s) l -> log_only d d' s (Z.of_nat (length l)).
Proof.
  intros Hs Hm Hl (E1 & E2 & H). rewrite slot_mul in H. split_and!; [done|done| |].
  - intros Hv i. destruct (H i) as [->|(j & le & Hj & _ & ->)]; [apply Hv|].
    rewrite Forall_lookup in Hl. by eapply Hl.
  - intros i Hi Hj. destruct (H i) as [->|(j & le & Hlj & -> & _)]; [done|].
    apply lookup_lt_Some in Hlj. destruct (Hj (Z.of_nat j)); [lia|]. rewrite Z.mod_small; lia.
Qed.

Lemma write_only d s (l : list pfs_logentry_phy) n :
  0 <= s -> s + Z.of_nat (length l) <= nslots -> Z.of_nat (length l) <= n -> Forall le_valid l ->
  log_only d (set_d_log (write_slots s l (d_log d)) d) s n /\
  at_slots (set_d_log (write_slots s l (d_log d)) d) s l.
Proof.
  intros Hs Hl Hln Hv. split.
  - apply (log_only_sub _ _ _ _ 0 (Z.of_nat (length l))); [rewrite Z.add_0_r|lia|lia].
    apply damaged_only; [done..|]. split_and!; [done|done|]. rewrite slot_mul. intros i.
    apply write_slots_from.
  - intros j le Hj. pose proof (lookup_lt_Some _ _ _ Hj). simpl. rewrite Z.mod_small by lia.
    by apply write_slots_in.
Qed.

Lemma off_add_slot s k :
  0 <= s < nslots -> 0 <= k <= nslots ->
  off_modular_add (LE_SIZE * s) (LE_SIZE * k) (LE_SIZE * nslots) = LE_SIZE * ((s + k) mod nslots).
Proof.
  intros Hs Hk. unfold off_modular_add. rewrite LE_SIZE_eq.
  destruct (Z.geb_spec (256 * s + 256 * k) (256 * nslots)).
  - rewrite <- (Z_mod_plus_full (s + k) (-1) nslots), Z.mod_small by lia. lia.
  - rewrite Z.mod_small by lia. lia.
Qed.

Lemma log_write_loop_ok (I : disk -> Prop) fuel : forall buf s d,
  (length buf < fuel)%nat -> 0 <= s < nslots -> Z.of_nat (length buf) <= nslots -> Forall le_valid buf ->
  (forall d', log_only d d' s (Z.of_nat (length buf)) -> I d') ->
  safe (hang := hang) (halt := halt) nslots ss I (fun rv d' => log_only d d' s (Z.of_nat (length buf)) /\
      (0 <= rv -> rv = 0 /\ at_slots d' s buf))
    (log_write_loop fuel (LE_SIZE * nslots) buf (LE_SIZE * Z.of_nat (length buf)) (LE_SIZE * s)) d.
Proof.
  induction fuel as [|fuel IH]; intros buf s d Hf Hs Hlen Hv HI; [lia|]. cbn [log_write_loop].
  destruct (Z.gtb_spec (LE_SIZE * Z.of_nat (length buf)) 0) as [Hpos|Hpos].
  2: { assert (buf = []) as -> by (destruct buf; [done|]; simpl in *; rewrite LE_SIZE_eq in *; lia).
       split; [apply HI, log_only_refl|]. split; [apply log_only_refl|]. intros _. by split. }
  set (m := if (Z.of_nat (length buf) + s >? nslots) then nslots - s else Z.of_nat (length buf)).
  assert (Em : len_modular_cut (LE_SIZE * Z.of_nat (length buf)) (LE_SIZE * s) (LE_SIZE * nslots) = LE_SIZE * m).
  { unfold len_modular_cut, m. rewrite LE_SIZE_eq.
    destruct (Z.gtb_spec (256 * Z.of_nat (length buf) + 256 * s) (256 * nslots)),
      (Z.gtb_spec (Z.of_nat (length buf) + s) nslots); lia. }
  rewrite Em, le_div. assert (Hm : 0 < m /\ m <= Z.of_nat (length buf) /\ s + m <= nslots).
  { unfold m. rewrite LE_SIZE_eq in Hpos. destruct (Z.gtb_spec (Z.of_nat (length buf) + s) nslots); lia. }
  clearbody m. split; [apply HI, log_only_refl|].
  assert (Hl : length (take (Z.to_nat m) buf) = Z.to_nat m) by (rewrite length_take; lia).
  split_and!.
  - rewrite Hl. unfold in_file. rewrite !le_mod. rewrite LE_SIZE_eq. lia.
  - intros d' Hd'. apply damaged_only in Hd'; [|lia|lia|by apply Forall_take]. rewrite Hl in Hd'.
    assert (Ho : log_only d d' s (Z.of_nat (length buf))).
    { apply (log_only_sub _ _ _ _ 0 (Z.of_nat (Z.to_nat m))); [by rewrite Z.add_0_r|lia..]. }
    split; [by apply HI|]. intros rv Hrv. destruct (Z.ltb_spec rv 0); [|lia].
    split; [by apply HI|]. split; [done|lia].
  - intros k Hk. rewrite Hl in Hk. rewrite take_take, Nat.min_l, slot_mul by lia.
    destruct (Z.ltb_spec (LE_SIZE * Z.of_nat k) 0); [rewrite LE_SIZE_eq in *; lia|].
    rewrite le_div, Nat2Z.id.
    assert (Hlk : length (take k buf) = k) by (rewrite length_take; lia).
    destruct (write_only d s (take k buf) (Z.of_nat (length buf))) as [Ho Hat]; [lia|lia|lia|by apply Forall_take|].
    set (d1 := set_d_log _ d) in *.
    rewrite off_add_slot by lia. rewrite <- Z.mul_sub_distr_l.
    assert (Hld : length (drop k buf) = (length buf - k)%nat) by apply length_drop.
    replace (Z.of_nat (length buf) - Z.of_nat k) with (Z.of_nat (length (drop k buf))) by lia.
    assert (Hsub : forall d', log_only d1 d' ((s + Z.of_nat k) mod nslots) (Z.of_nat (length (drop k buf))) ->
      log_only d d' s (Z.of_nat (length buf))).
    { intros d' Hd'. eapply log_only_trans; [exact Ho|].
      apply (proj1 (log_only_mod _ _ _ _)) in Hd'. eapply log_only_sub; [done|lia..]. }
    eapply safe_mono; [by intros ? ?| |apply IH; [lia|apply Z.mod_pos_bound; lia|lia|by apply Forall_drop|]].
    + intros rv d' _ [Ho' Hr]. split; [by apply Hsub|]. intros Hrv. destruct (Hr Hrv) as [-> Hat'].
      split; [done|]. rewrite <- (take_drop k buf). apply at_slots_app. split.
      * eapply at_slots_only; [exact Hat|apply log_only_mod; exact Ho'|lia|lia].
      * rewrite Hlk. by apply at_slots_mod.
    + intros d' Hd'. by apply HI, Hsub.
Qed.

(** ** Writing *)
Lemma off_norm o : 0 <= o < 2 * nslots ->
  off_modular_add (LE_SIZE * o) 0 (LE_SIZE * nslots) = LE_SIZE * (o mod nslots).
Proof.
  intros Ho. unfold off_modular_add. rewrite LE_SIZE_eq, Z.add_0_r.
  destruct (Z.geb_spec (256 * o) (256 * nslots)).
  - rewrite <- (Z_mod_plus_full o (-1) nslots), Z.mod_small by lia. lia.
  - rewrite Z.mod_small by lia. lia.
Qed.

Definition log_room (log : pfs_log) (n : Z) : Prop :=
  log_size (log_leader log) = LE_SIZE * nslots /\
  exists space, pfs_log_space log = Some space /\ LE_SIZE * n < space /\ space <= LE_SIZE * nslots.

Lemma log_room_le log n m : log_room log n -> m <= n -> log_room log m.
Proof.
  intros [? (space & ? & ? & ?)] ?. split; [done|]. exists space. split_and!; [done| |done].
  rewrite LE_SIZE_eq in *. lia.
Qed.

Lemma pfs_log_write_ok (I : disk -> Prop) log buf o d :
  log_room log (Z.of_nat (length buf)) -> 0 <= o < 2 * nslots -> Forall le_valid buf ->
  (forall d', log_only d d' o (Z.of_nat (length buf)) -> I d') ->
  safe (hang := hang) (halt := halt) nslots ss I (fun rv d' => log_only d d' o (Z.of_nat (length buf)) /\
      (0 <= rv -> rv = LE_SIZE * Z.of_nat (length buf) /\ at_slots d' o buf))
    (pfs_log_write log buf (LE_SIZE * o)) d.
Proof.
  intros [Hsz (space & Esp & Hlt & Hle)] Ho Hv HI. unfold pfs_log_write. rewrite Esp. cbn [lift logio_bind].
  destruct (Z.ltb_spec (LE_SIZE * Z.of_nat (length buf)) space); [|lia].
  rewrite Hsz, off_norm by done.
  eapply safe_bind; [apply log_write_loop_ok; [lia|apply Z.mod_pos_bound; lia| |done|]|].
  - rewrite LE_SIZE_eq in *. lia.
  - intros d' Hd'. by apply HI, log_only_mod.
  - intros rv d' [Hon Hr]. apply (proj1 (log_only_mod _ _ _ _)) in Hon.
    destruct (Z.ltb_spec rv 0).
    + split; [by apply HI|]. split; [done|lia].
    + destruct (Hr ltac:(lia)) as [-> Hat]. split; [by apply HI|]. split; [done|].
      intros _. split; [done|]. by apply at_slots_mod.
Qed.

(** ** Logging a transaction *)
Fixpoint tx_entries (t_id lsn : Z) (ops : list pfs_txop) : option (list pfs_logentry_phy) :=
  match ops with
  | [] => Some []
  | top :: ops =>
      match pfs_txop_log t_id top (bool_decide (ops <> [])) (lsn + 1), tx_entries t_id (lsn + 1) ops with
      | Some le, Some es => Some (le :: es)
      | _, _ => None
      end
  end.

Lemma length_tx_entries t_id ops : forall lsn es, tx_entries t_id lsn ops = Some es -> length es = length ops.
Proof.
  induction ops as [|top ops IH]; intros lsn es E; simpl in E; [by simplify_eq|].
  destruct (pfs_txop_log _ _ _ _); [|done]. destruct (tx_entries _ (lsn + 1) ops) eqn:E'; [|done].
  simplify_eq. simpl. f_equal. by eapply IH.
Qed.

Lemma logentry_crc_checksum v le : logentry_crc (set_le_checksum v le) = logentry_crc le.
Proof.
  unfold logentry_crc, logentry_bytes. cbn [le_obj_val le_lsn le_sector_bda le_txid le_obj_idx le_checksum
    le_more le_padding set_le_checksum].
  set (a := metaobj_bytes _).
  assert (Hs : forall c, a ++ le_bytes 8 (le_lsn le) ++ le_bytes 8 (le_sector_bda le) ++
    le_bytes 8 (le_txid le) ++ le_bytes 4 (le_obj_idx le) ++ le_bytes 4 c ++ le_bytes 4 (le_more le) ++ le_padding le
    = (a ++ le_bytes 8 (le_lsn le) ++ le_bytes 8 (le_sector_bda le) ++ le_bytes 8 (le_txid le) ++
       le_bytes 4 (le_obj_idx le)) ++ le_bytes 4 c ++ le_bytes 4 (le_more le) ++ le_padding le).
  { intros c. by rewrite <- !app_assoc. }
  rewrite !Hs, !crc32c_compute_field; rewrite ?length_app, ?length_le_bytes; done || lia.
Qed.

Lemma txop_log_valid t_id top more lsn le : pfs_txop_log t_id top more lsn = Some le -> le_valid le.
Proof.
  intros E. unfold pfs_txop_log in E.
  destruct (top_done top); [|done]. destruct (pfs_metaobj_check_crc _); [|done].
  destruct (negb _); [|done]. injection E as <-.
  unfold le_valid. cbn [pfs_log_check]. unfold pfs_log_check_one. rewrite logentry_crc_checksum.
  cbn [le_checksum set_le_checksum]. rewrite Z.eqb_refl. by destruct (_ =? 0).
Qed.

Lemma tx_entries_valid t_id ops : forall lsn es, tx_entries t_id lsn ops = Some es -> Forall le_valid es.
Proof.
  induction ops as [|top ops IH]; intros lsn es E; simpl in E; [by simplify_eq|].
  destruct (pfs_txop_log _ _ _ _) eqn:E1; [|done]. destruct (tx_entries _ (lsn + 1) ops) eqn:E2; [|done].
  simplify_eq. constructor; [by eapply txop_log_valid|by eapply IH].
Qed.

Lemma frag_entries : PFS_FRAG_SIZE = LE_SIZE * 64.
Proof. done. Qed.

Lemma tx_log_loop_ok (I : disk -> Prop) log t_id head_lsn hs ops : forall n nle written buf es d0 d,
  tx_entries t_id (head_lsn + nle) ops = Some es ->
  n = Z.of_nat (length (written ++ buf ++ es)) -> log_room log n -> n <= nslots ->
  0 <= hs < nslots -> (length buf < 64)%nat -> Forall le_valid buf ->
  (forall d', log_only d0 d' hs n -> I d') ->
  log_only d0 d hs n -> at_slots d hs written ->
  safe (hang := hang) (halt := halt) nslots ss I (fun '(rv, nle', buf', offset') d' => log_only d0 d' hs n /\
      (0 <= rv -> rv = 0 /\ nle' = nle + Z.of_nat (length ops) /\ exists written',
         written ++ buf ++ es = written' ++ buf' /\ at_slots d' hs written' /\
         offset' = LE_SIZE * (hs + Z.of_nat (length written'))))
    (tx_log_loop log t_id head_lsn PFS_FRAG_SIZE ops nle buf (LE_SIZE * (hs + Z.of_nat (length written)))) d.
Proof.
  induction ops as [|top ops IH]; intros n nle written buf es d0 d Ees En Hroom Hns Hhs Hbuf Hv HI Hon Hat;
    simpl in Ees.
  - simplify_eq. split; [by apply HI|]. split; [done|]. intros _. split; [done|]. split; [simpl; lia|].
    exists written. rewrite app_nil_r. done.
  - destruct (pfs_txop_log _ top _ _) as [le|] eqn:Ele; [|done].
    destruct (tx_entries _ _ ops) as [es'|] eqn:Ees'; [|done]. simplify_eq.
    assert (Hv' : Forall le_valid (buf ++ [le])).
    { apply Forall_app. split; [done|]. constructor; [|done]. by eapply txop_log_valid. }
    cbn [tx_log_loop]. rewrite Z.add_assoc. rewrite <- Z.add_assoc in Ele, Ees'.
    rewrite <- Z.add_assoc, Ele. cbn [lift logio_bind]. rewrite length_app. simpl length.
    assert (Hshift : written ++ (buf ++ [le]) ++ es' = written ++ buf ++ le :: es').
    { by rewrite <- (assoc_L app buf). }
    rewrite !length_app in *. simpl length in *.
    destruct (Z.geb_spec (LE_SIZE * Z.of_nat (length buf + 1)) PFS_FRAG_SIZE) as [Hge|Hlt].
    + rewrite frag_entries in *. destruct (Z.eqb_spec (LE_SIZE * Z.of_nat (length buf + 1)) (LE_SIZE * 64)) as [_|Hne];
        [|rewrite LE_SIZE_eq in *; lia].
      assert (Hsub : forall d', log_only d d' (hs + Z.of_nat (length written)) (Z.of_nat (length (buf ++ [le]))) ->
        log_only d0 d' hs (Z.of_nat (length written + (length buf + S (length es'))))).
      { intros d' Hd'. eapply log_only_trans; [exact Hon|]. eapply log_only_sub; [exact Hd'|lia|].
        rewrite length_app. simpl. lia. }
      eapply safe_bind; [apply pfs_log_write_ok|].
      * eapply log_room_le; [exact Hroom|]. rewrite length_app. simpl. lia.
      * lia.
      * done.
      * intros d' Hd'. by apply HI, Hsub.
      * intros rv d' [Hon' Hr]. destruct (Z.ltb_spec rv 0).
        { split; [by apply HI, Hsub|]. split; [by apply Hsub|lia]. }
        destruct (Hr ltac:(lia)) as [-> Hat']. rewrite <- Z.mul_add_distr_l.
        replace (hs + Z.of_nat (length written) + Z.of_nat (length (buf ++ [le])))
          with (hs + Z.of_nat (length (written ++ (buf ++ [le])))) by (rewrite length_app; lia).
        eapply safe_mono; [by intros ? ?| |
          apply (IH (Z.of_nat (length written + (length buf + S (length es')))) (nle + 1)
                   (written ++ (buf ++ [le])) [] es' d0); try done; try lia].
        -- intros [[[rv nle'] buf'] offset'] d'' _ [H1 H2]. split; [done|]. intros Hrv.
           destruct (H2 Hrv) as (-> & -> & w & Ew & Hw & ->). split; [done|]. split; [lia|]. exists w.
           split; [|done]. rewrite <- Hshift, <- Ew. by rewrite <- (assoc_L app written).
        -- rewrite !length_app. simpl. lia.
        -- simpl. lia.
        -- by apply Hsub.
        -- apply at_slots_app. split; [|done]. eapply at_slots_only; [exact Hat|exact Hon'|lia|].
           rewrite length_app. simpl. lia.
    + eapply safe_mono; [by intros ? ?| |
        apply (IH (Z.of_nat (length written + (length buf + S (length es')))) (nle + 1)
                 written (buf ++ [le]) es' d0); try done; try lia].
      * intros [[[rv nle'] buf'] offset'] d'' _ [H1 H2]. split; [done|]. intros Hrv.
        destruct (H2 Hrv) as (-> & -> & w & Ew & Hw & ->). split; [done|]. split; [lia|]. exists w.
        by rewrite <- Hshift.
      * rewrite !length_app. simpl. lia.
      * rewrite frag_entries in Hlt. rewrite length_app. simpl. rewrite LE_SIZE_eq in Hlt. lia.
Qed.

Lemma log_room_slots log n : log_room log n -> n < nslots.
Proof. intros [_ (space & _ & ? & ?)]. rewrite LE_SIZE_eq in *. lia. Qed.

Lemma pfs_tx_log_ok (I : disk -> Prop) log tx ops es htxid hlsn hs d :
  tx_oplist tx = Some ops -> t_ops tx <> [] -> t_nops tx = Z.of_nat (length ops) ->
  tx_entries (htxid + 1) hlsn ops = Some es -> log_room log (Z.of_nat (length es)) -> 0 <= hs < nslots ->
  (forall d', log_only d d' hs (Z.of_nat (length es)) -> I d') ->
  safe (hang := hang) (halt := halt) nslots ss I (fun '(tx', rv) d' => tx' = set_t_id (htxid + 1) tx /\
      log_only d d' hs (Z.of_nat (length es)) /\
      (0 <= rv -> rv = LE_SIZE * Z.of_nat (length es) /\ at_slots d' hs es))
    (pfs_tx_log log tx htxid hlsn (LE_SIZE * hs)) d.
Proof.
  intros Eops Hne Hnops Ees Hroom Hhs HI. unfold pfs_tx_log. rewrite bool_decide_eq_true_2 by done.
  pose proof (log_room_slots _ _ Hroom) as Hlt.
  change (tx_oplist (set_t_id (htxid + 1) tx)) with (tx_oplist tx). rewrite Eops. cbn [lift logio_bind].
  change (t_id (set_t_id (htxid + 1) tx)) with (htxid + 1).
  change (t_nops (set_t_id (htxid + 1) tx)) with (t_nops tx).
  eapply safe_bind.
  { pose proof (tx_log_loop_ok I log (htxid + 1) hlsn hs ops (Z.of_nat (length es)) 0 [] [] es d d) as Hl.
    rewrite !Z.add_0_r in Hl.
    apply Hl; try done; [lia|simpl; lia]. }
  intros [[[rv nle] buf] offset] d1 [Hon Hr]. destruct (Z.ltb_spec rv 0) as [Hrv|Hrv].
  { split; [by apply HI|]. split; [done|]. split; [done|lia]. }
  destruct (Hr Hrv) as (-> & -> & w & Ew & Hw & ->). cbn [app] in Ew. rewrite Hnops, Z.add_0_l, Z.eqb_refl.
  assert (El : length es = (length w + length buf)%nat) by (by rewrite Ew, length_app).
  destruct (Z.eqb_spec (Z.of_nat (length buf)) 0) as [Hz|Hz]; cbn [negb].
  - cbn [logio_bind]. destruct (Z.ltb_spec 0 0); [lia|]. split; [by apply HI|]. split; [done|]. split; [done|].
    intros _. assert (buf = []) as -> by (destruct buf; [done|]; simpl in Hz; lia). rewrite app_nil_r in Ew.
    subst w. split; [|done]. rewrite LE_SIZE_eq. lia.
  - assert (Hsub : forall d', log_only d1 d' (hs + Z.of_nat (length w)) (Z.of_nat (length buf)) ->
      log_only d d' hs (Z.of_nat (length es))).
    { intros d' Hd'. eapply log_only_trans; [exact Hon|]. eapply log_only_sub; [exact Hd'|lia|lia]. }
    eapply safe_bind.
    { eapply safe_bind; [apply pfs_log_write_ok|].
      - eapply log_room_le; [done|]. lia.
      - lia.
      - assert (Hes : Forall le_valid es) by (by eapply tx_entries_valid).
        rewrite Ew in Hes. by apply Forall_app in Hes as [_ ?].
      - intros d' Hd'. by apply HI, Hsub.
      - intros rv d' [Ho Hr']. instantiate (1 := fun '(rv, offset) d' => log_only d d' hs (Z.of_nat (length es)) /\
          (0 <= rv -> offset - LE_SIZE * hs = LE_SIZE * Z.of_nat (length es) /\ at_slots d' hs es)).
        destruct (Z.ltb_spec rv 0).
        { split; [by apply HI, Hsub|]. split; [by apply Hsub|lia]. }
        split; [by apply HI, Hsub|]. split; [by apply Hsub|]. intros _. destruct (Hr' ltac:(lia)) as [-> Hat].
        split; [rewrite LE_SIZE_eq; lia|]. rewrite Ew. apply at_slots_app. split; [|done].
        eapply at_slots_only; [exact Hw|exact Ho|lia|lia]. }
    intros [rv offset] d' [Ho Hr']. destruct (Z.ltb_spec rv 0).
    + split; [by apply HI|]. split; [done|]. split; [done|lia].
    + destruct (Hr' ltac:(lia)) as [E Hat]. split; [by apply HI|]. split; [done|]. split; [done|].
      intros _. by rewrite E.
Qed.

(** ** Reading *)
Lemma log_check_forall l : pfs_log_check l = Some tt <-> Forall le_valid l.
Proof.
  unfold le_valid. induction l as [|le l IH]; [done|]. rewrite Forall_cons, <- IH. simpl.
  destruct (_ =? 0); [tauto|]. destruct (negb _); [|tauto]. split; [done|]. by intros [? _].
Qed.

Lemma pfs_log_read_ok {B} (I : disk -> Prop) (Q : B -> disk -> Prop) log m o d f :
  1 <= m ->
  log_size (log_leader log) = LE_SIZE * nslots -> 0 <= o < 2 * nslots -> log_valid d -> I d ->
  (forall rv buf, rv < 0 ->
     (halt /\ f (rv, buf) = LAbort) \/ safe (hang := hang) (halt := halt) nslots ss I Q (f (rv, buf)) d) ->
  (forall (r : nat) buf, (1 <= r)%nat -> o mod nslots + Z.of_nat r <= nslots -> length buf = r ->
     at_slots d (o mod nslots) buf ->
     safe (hang := hang) (halt := halt) nslots ss I Q (f (LE_SIZE * Z.of_nat r, buf)) d) ->
  safe (hang := hang) (halt := halt) nslots ss I Q
    (logio_bind (pfs_log_read log (LE_SIZE * m) (LE_SIZE * o)) f) d.
Proof.
  intros Hm1 Hsz Ho Hv HI Hfail Hf. unfold pfs_log_read. rewrite Hsz, off_norm by done.
  pose proof (Z.mod_pos_bound o nslots ltac:(lia)) as Hs. set (s := o mod nslots) in *. clearbody s.
  destruct (Z.ltb_spec (LE_SIZE * s) (LE_SIZE * nslots)) as [_|]; [|rewrite LE_SIZE_eq in *; lia].
  change (PFS_FRAG_SIZE - 1) with (Z.ones 14). rewrite Z.land_ones by lia.
  assert (Emod : (LE_SIZE * s) mod 2 ^ 14 = LE_SIZE * (s mod 64)).
  { change (2 ^ 14) with (LE_SIZE * 64). by rewrite Z.mul_mod_distr_l. }
  rewrite Emod. pose proof (Z.mod_pos_bound s 64 ltac:(lia)) as H64.
  set (r1 := 64 - s mod 64). set (r2 := if r1 + s >? nslots then nslots - s else r1).
  set (r := if r2 >? m then m else r2).
  assert (Er : (let readlen := len_modular_cut (PFS_FRAG_SIZE - LE_SIZE * (s mod 64)) (LE_SIZE * s) (LE_SIZE * nslots) in
    if readlen >? LE_SIZE * m then LE_SIZE * m else readlen) = LE_SIZE * r).
  { unfold len_modular_cut, r, r2, r1. rewrite frag_entries, LE_SIZE_eq. clear -H64 Hs.
    generalize dependent (s mod 64). intros k H64. cbv zeta.
    destruct (Z.gtb_spec (256 * 64 - 256 * k + 256 * s) (256 * nslots)), (Z.gtb_spec (64 - k + s) nslots);
      repeat match goal with |- context [?a >? ?b] => destruct (Z.gtb_spec a b) end; lia. }
  cbv zeta in Er. rewrite Er. assert (Hr : 1 <= r /\ s + r <= nslots).
  { unfold r, r2, r1. destruct (Z.gtb_spec (64 - s mod 64 + s) nslots);
      match goal with |- context [?a >? m] => destruct (Z.gtb_spec a m) end; lia. }
  clearbody r. destruct (Z.geb_spec (LE_SIZE * r) LE_SIZE) as [_|]; [|rewrite LE_SIZE_eq in *; lia].
  cbn [logio_bind]. split; [done|]. split; [unfold in_file; rewrite !le_mod, LE_SIZE_eq; lia|]. split.
  { intros rv buf Hrv. destruct (Z.gtb_spec rv 0); [lia|]. by apply Hfail. }
  rewrite slot_mul, le_div. destruct (Z.gtb_spec (LE_SIZE * r) 0); [|rewrite LE_SIZE_eq in *; lia].
  rewrite le_mod. simpl (0 =? 0).
  assert (Hck : pfs_log_check (read_slots s (Z.to_nat r) (d_log d)) = Some tt).
  { apply log_check_forall, Forall_lookup. intros j le Hj.
    pose proof (lookup_lt_Some _ _ _ Hj) as Hlt. rewrite length_read_slots in Hlt.
    rewrite read_slots_lookup in Hj by done. simplify_eq. apply Hv. }
  rewrite Hck. cbn [lift logio_bind]. replace r with (Z.of_nat (Z.to_nat r)) at 1 by lia.
  apply Hf; [lia|lia|by rewrite length_read_slots|].
  intros j le Hj. pose proof (lookup_lt_Some _ _ _ Hj) as Hlt. rewrite length_read_slots in Hlt.
  rewrite read_slots_lookup in Hj by done. simplify_eq. rewrite Z.mod_small; [done|lia].
Qed.

(** ** Scanning

    The scan of a list of entries, without the reads. *)
Fixpoint scan_list (start_txid stop_txid : Z) (les : list pfs_logentry_phy) (nentry last_lsn last_txid : Z)
    (txq : list pfs_tx) (tx : option pfs_tx) : option (Z * list pfs_tx) :=
  match les with
  | [] => None
  | le :: les =>
      if ((last_lsn <? 0) || (le_lsn le - last_lsn =? 1)) then
      if ((le_txid le - last_txid =? 0) || (le_txid le - last_txid =? 1)) then
      if ((le_txid le - start_txid >? 0) && (le_txid le - stop_txid <=? 0)) then
        let '(txq, tx) := match tx with
                          | Some tx =>
                              if t_id tx =? le_txid le then (txq, tx)
                              else (txq ++ [tx], set_t_id (le_txid le) (pfs_tx_get TXT_REPLAY false))
                          | None => (txq, set_t_id (le_txid le) (pfs_tx_get TXT_REPLAY false))
                          end in
        match pfs_tx_recreate_op tx le with
        | Some tx =>
            if (le_txid le =? stop_txid) && (le_more le =? 0)
            then Some ((nentry + 1) * LE_SIZE, txq ++ [tx])
            else scan_list start_txid stop_txid les (nentry + 1) (le_lsn le) (le_txid le) txq (Some tx)
        | None => None
        end
      else None else None else None
  end.

Lemma log_scan_loop_ok (I : disk -> Prop) log start stop d res :
  halt -> log_size (log_leader log) = LE_SIZE * nslots -> log_valid d -> I d ->
  forall fuel L les p o r nentry last_lsn last_txid txq tx,
  at_slots d p L -> at_slots d p les -> 0 <= o < nslots -> 0 <= r <= nslots ->
  (o + r) mod nslots = (p + Z.of_nat (length les)) mod nslots ->
  scan_list start stop L nentry last_lsn last_txid txq tx = Some res -> (length L <= fuel)%nat ->
  safe (hang := hang) (halt := halt) nslots ss I (fun res' d' => d' = d /\ res' = res)
    (log_scan_loop fuel log PFS_FRAG_SIZE start stop les (LE_SIZE * o) (LE_SIZE * r) nentry last_lsn last_txid txq tx) d.
Proof.
  intros Hhalt Hsz Hv HI. induction fuel as [|fuel IH];
    intros L les p o r nentry last_lsn last_txid txq tx HL Hles Ho Hr Hpos Hsc Hf.
  { destruct L; [done|simpl in Hf; lia]. }
  destruct L as [|le L]; [done|]. cbn [log_scan_loop].
  eapply safe_bind with (R := fun '(les', offset, readlen) d' => d' = d /\ exists o' r',
    offset = LE_SIZE * o' /\ readlen = LE_SIZE * r' /\ 0 <= o' < nslots /\ 0 <= r' <= nslots /\
    at_slots d p les' /\ (o' + r') mod nslots = (p + Z.of_nat (length les')) mod nslots /\ les' <> []).
  { destruct les as [|le0 les0].
    - rewrite Hsz. destruct (Z.ltb_spec (LE_SIZE * o) (LE_SIZE * nslots)); [|rewrite LE_SIZE_eq in *; lia].
      rewrite off_add_slot by done. pose proof (Z.mod_pos_bound (o + r) nslots ltac:(lia)) as Hm.
      rewrite frag_entries. apply pfs_log_read_ok; try done; [lia|by intros rv buf Hrv; destruct (Z.gtb_spec rv 0); [lia|left]|].
      intros k buf Hk Hkn Hlen Hbuf.
      rewrite Z.mod_small in Hkn, Hbuf by done. simpl in Hpos. rewrite Z.add_0_r in Hpos.
      destruct (Z.gtb_spec (LE_SIZE * Z.of_nat k) 0); [|rewrite LE_SIZE_eq in *; lia].
      split; [done|]. split; [done|]. exists ((o + r) mod nslots), (Z.of_nat k).
      rewrite Hpos in *. split_and!; try done; try lia.
      + by apply at_slots_mod.
      + rewrite Z.add_mod_idemp_l by lia. by rewrite Hlen.
      + destruct buf; simpl in *; [lia|done].
    - split; [done|]. split; [done|]. exists o, r. done. }
  intros [[les' offset] readlen] d' [-> (o' & r' & -> & -> & Ho' & Hr' & Hles' & Hpos' & Hne)].
  destruct les' as [|le' les']; [done|].
  assert (le' = le) as ->.
  { rewrite <- (HL 0%nat le eq_refl). symmetry. by apply (Hles' 0%nat). }
  cbn [scan_list] in Hsc. destruct ((last_lsn <? 0) || _)%bool; [|done].
  destruct ((le_txid le - last_txid =? 0) || _)%bool; [|done].
  destruct ((le_txid le - start >? 0) && _)%bool; [|done].
  destruct (match tx with Some _ => _ | None => _ end) as [txq' tx'].
  destruct (pfs_tx_recreate_op tx' le) as [tx''|]; [|done]. cbn [lift logio_bind].
  destruct ((le_txid le =? stop) && _)%bool; [simplify_eq; by split|].
  apply (IH L les' (p + 1)); try done.
  - intros j x Hj. rewrite <- (HL (S j) x Hj). do 2 f_equal. lia.
  - intros j x Hj. rewrite <- (Hles' (S j) x Hj). do 2 f_equal. lia.
  - rewrite Hpos'. simpl. f_equal. lia.
  - simpl in Hf. lia.
Qed.
End Circ.

(** ** Transactions in the journal

    Entry [le] of the transaction [txid]; [lsn] is the number before it. *)
Definition le_good (le : pfs_logentry_phy) : Prop :=
  pfs_metaobj_check_crc (le_obj_val le) = Some tt /\ mo_type (le_obj_val le) <> MT_NONE.

Fixpoint entries_ok (txid lsn : Z) (es : list pfs_logentry_phy) : Prop :=
  match es with
  | [] => True
  | le :: es => le_txid le = txid /\ le_lsn le = lsn + 1 /\
      le_more le = (match es with [] => 0 | _ => 1 end) /\ le_good le /\ entries_ok txid (lsn + 1) es
  end.

(** The transactions after [txid]. *)
Fixpoint txs_ok (txid lsn : Z) (hs : list (list pfs_logentry_phy)) : Prop :=
  match hs with
  | [] => True
  | es :: hs => es <> [] /\ entries_ok (txid + 1) lsn es /\ txs_ok (txid + 1) (lsn + Z.of_nat (length es)) hs
  end.

(** What the scan makes of them. *)
Definition rtop (le : pfs_logentry_phy) : pfs_txop :=
  MkTop (le_obj_val le) true false false None (le_sector_bda le) (le_obj_idx le) None None None 0 0.
Definition add_op (tx : pfs_tx) (le : pfs_logentry_phy) : pfs_tx :=
  let '(tx, id) := pfs_txop_create (rtop le) tx in set_t_ops (t_nops tx + 1) (t_ops tx ++ [id]) tx.
Definition rtx (txid : Z) (es : list pfs_logentry_phy) : pfs_tx :=
  foldl add_op (set_t_id txid (pfs_tx_get TXT_REPLAY false)) es.
Fixpoint rtxs (txid : Z) (hs : list (list pfs_logentry_phy)) : list pfs_tx :=
  match hs with [] => [] | es :: hs => rtx (txid + 1) es :: rtxs (txid + 1) hs end.

Lemma recreate_good tx le : le_good le -> pfs_tx_recreate_op tx le = Some (add_op tx le).
Proof.
  intros [H1 H2]. unfold pfs_tx_recreate_op, pfs_txop_recreate. rewrite H1.
  destruct (Z.eqb_spec (mo_type (le_obj_val le)) MT_NONE); done.
Qed.

Lemma t_id_add_op tx es : t_id (foldl add_op tx es) = t_id tx.
Proof. revert tx. induction es as [|le es IH]; intros tx; simpl; [done|]. by rewrite IH. Qed.

Lemma scan_entries start stop es rest : forall txid lsn n txq tx,
  entries_ok txid lsn es -> t_id tx = txid -> start < txid <= stop ->
  (txid = stop -> es <> []) ->
  scan_list start stop (es ++ rest) n lsn txid txq (Some tx) =
  if txid =? stop then Some ((n + Z.of_nat (length es)) * LE_SIZE, txq ++ [foldl add_op tx es])
  else scan_list start stop rest (n + Z.of_nat (length es)) (lsn + Z.of_nat (length es)) txid txq
         (Some (foldl add_op tx es)).
Proof.
  induction es as [|le es IH]; intros txid lsn n txq tx Hes Htx Hr Hne.
  - destruct (Z.eqb_spec txid stop) as [E|_]; [by destruct (Hne E)|]. simpl. by rewrite !Z.add_0_r.
  - destruct Hes as (E1 & E2 & E3 & Hg & Hes). simpl app. cbn [scan_list].
    rewrite E1, E2. replace (lsn + 1 - lsn =? 1) with true by (symmetry; apply Z.eqb_eq; lia).
    rewrite orb_true_r. replace (txid - txid =? 0) with true by (symmetry; apply Z.eqb_eq; lia). simpl orb.
    replace ((txid - start >? 0) && (txid - stop <=? 0))%bool with true
      by (symmetry; apply andb_true_iff; split; [apply Z.gtb_lt|apply Z.leb_le]; lia).
    rewrite Htx, Z.eqb_refl, (recreate_good _ _ Hg), E3.
    destruct es as [|le' es].
    + rewrite andb_true_r. simpl. destruct (txid =? stop); [done|]. done.
    + rewrite andb_false_r, IH; [|done|by rewrite <- Htx; apply (t_id_add_op tx [le])|done|done].
      simpl foldl. simpl length. replace (n + 1 + Z.of_nat (S (length es))) with (n + Z.of_nat (S (S (length es)))) by lia.
      by replace (lsn + 1 + Z.of_nat (S (length es))) with (lsn + Z.of_nat (S (S (length es)))) by lia.
Qed.

(** The first entry of a transaction opens a new replay transaction. *)
Lemma scan_first start stop le les n last_lsn last_txid txq tx txid lsn :
  le_txid le = txid + 1 -> le_lsn le = lsn + 1 -> le_good le -> start <= txid < stop ->
  last_txid = txid -> last_lsn < 0 \/ last_lsn = lsn -> (forall t, tx = Some t -> t_id t = txid) ->
  scan_list start stop (le :: les) n last_lsn last_txid txq tx =
  scan_list start stop (le :: les) n lsn (txid + 1) (txq ++ option_list tx)
    (Some (set_t_id (txid + 1) (pfs_tx_get TXT_REPLAY false))).
Proof.
  intros E1 E2 Hg Hr -> Hlsn Htx. cbn [scan_list]. rewrite E1, E2.
  replace (lsn + 1 - lsn =? 1) with true by (symmetry; apply Z.eqb_eq; lia).
  replace ((last_lsn <? 0) || (lsn + 1 - last_lsn =? 1))%bool with true
    by (symmetry; destruct Hlsn as [?| ->]; [rewrite (proj2 (Z.ltb_lt _ _)) by lia; done|];
        apply orb_true_iff; right; apply Z.eqb_eq; lia).
  rewrite orb_true_r. replace (txid + 1 - txid =? 1) with true by (symmetry; apply Z.eqb_eq; lia).
  rewrite orb_true_r. replace (txid + 1 - (txid + 1) =? 0) with true by (symmetry; apply Z.eqb_eq; lia).
  simpl orb. cbn [t_id set_t_id]. rewrite Z.eqb_refl. destruct tx as [t|]; simpl option_list.
  - rewrite (Htx t eq_refl). by destruct (Z.eqb_spec txid (txid + 1)); [lia|].
  - by rewrite app_nil_r.
Qed.

Lemma scan_txs start stop hs : forall txid lsn n last_lsn txq tx,
  txs_ok txid lsn hs -> hs <> [] -> stop = txid + Z.of_nat (length hs) -> start <= txid ->
  last_lsn < 0 \/ last_lsn = lsn -> (forall t, tx = Some t -> t_id t = txid) ->
  scan_list start stop (concat hs) n last_lsn txid txq tx =
  Some ((n + Z.of_nat (length (concat hs))) * LE_SIZE, txq ++ option_list tx ++ rtxs txid hs).
Proof.
  induction hs as [|es hs IH]; intros txid lsn n last_lsn txq tx Hok Hne Hstop Hst Hlsn Htx; [done|].
  destruct Hok as (Hes & Hent & Hok). simpl length in Hstop. simpl concat.
  assert (Hf : scan_list start stop (es ++ concat hs) n last_lsn txid txq tx =
    scan_list start stop (es ++ concat hs) n lsn (txid + 1) (txq ++ option_list tx)
      (Some (set_t_id (txid + 1) (pfs_tx_get TXT_REPLAY false)))).
  { destruct es as [|le es]; [done|]. destruct Hent as (E1 & E2 & _ & Hg & _). simpl app.
    apply scan_first; done || lia. }
  rewrite Hf, (scan_entries start stop es (concat hs) (txid + 1)); [|done|done|lia|done].
  cbn [rtxs]. rewrite length_app. destruct (Z.eqb_spec (txid + 1) stop) as [E|E].
  - assert (hs = []) as -> by (destruct hs; [done|]; simpl in *; lia). simpl.
    rewrite <- !app_assoc. by rewrite Nat.add_0_r.
  - rewrite (IH (txid + 1) (lsn + Z.of_nat (length es))); [|done|intros ->; simpl in *; lia|simpl in *; lia|lia|by right|].
    + rewrite <- !app_assoc. do 3 f_equal; lia.
    + intros t [= <-]. by rewrite t_id_add_op.
Qed.
