(* ===== verification/LogInv.v ===== *)
(** * Committed state and the invariant of the device

    The committed history is the list of transactions in the journal's order
    since the file system was made; the committed state is its replay.
    [rec_ok] says that the device holds it: live entries in the journal, and
    every object that no live entry rewrites up to date in its sector. *)

From S2P Require Import Prelude Crc Lease Object Tx LogIo Trim Log LogSem LogCirc.

Open Scope Z_scope.

Abbreviation meta := (Z -> list pfs_metaobj_phy).
Abbreviation history := (list (list pfs_logentry_phy)).

(** ** Replay *)
Definition le_apply (m : meta) (le : pfs_logentry_phy) : meta :=
  <[le_sector_bda le := <[Z.to_nat (le_obj_idx le) := le_obj_val le]> (m (le_sector_bda le))]> m.

Definition touched (es : list pfs_logentry_phy) (b : Z) (i : nat) : Prop :=
  exists le, le ∈ es /\ le_sector_bda le = b /\ Z.to_nat (le_obj_idx le) = i.

Lemma touched_dec es b i : {touched es b i} + {~ touched es b i}.
Proof.
  destruct (decide (Exists (fun le => le_sector_bda le = b /\ Z.to_nat (le_obj_idx le) = i) es)) as [H|H].
  - left. apply Exists_exists in H as (le & ? & ? & ?). by exists le.
  - right. intros (le & ? & ? & ?). apply H, Exists_exists. by exists le.
Qed.

Lemma touched_app es1 es2 b i : touched (es1 ++ es2) b i <-> touched es1 b i \/ touched es2 b i.
Proof.
  unfold touched. split.
  - intros (le & [?|?]%elem_of_app & ?); [left|right]; eauto.
  - intros [(le & ? & ?)|(le & ? & ?)]; exists le; rewrite elem_of_app; auto.
Qed.

Lemma touched_cons le es b i :
  touched (le :: es) b i <-> (le_sector_bda le = b /\ Z.to_nat (le_obj_idx le) = i) \/ touched es b i.
Proof.
  unfold touched. split.
  - intros (x & [->|?]%elem_of_cons & ?); eauto.
  - intros [?|(x & ? & ?)]; [exists le|exists x]; rewrite elem_of_cons; auto.
Qed.

Lemma length_le_apply m le b : length (le_apply m le b) = length (m b).
Proof.
  unfold le_apply. destruct (decide (le_sector_bda le = b)) as [<-|].
  - by rewrite fn_lookup_insert, length_insert.
  - by rewrite fn_lookup_insert_ne.
Qed.

Lemma length_apply es : forall m b, length (foldl le_apply m es b) = length (m b).
Proof. induction es as [|le es IH]; intros m b; simpl; [done|]. by rewrite IH, length_le_apply. Qed.

Lemma le_apply_ne m le b i :
  ~ (le_sector_bda le = b /\ Z.to_nat (le_obj_idx le) = i) -> le_apply m le b !! i = m b !! i.
Proof.
  intros Hne. unfold le_apply. destruct (decide (le_sector_bda le = b)) as [<-|].
  - rewrite fn_lookup_insert, list_lookup_insert_ne; [done|]. naive_solver.
  - by rewrite fn_lookup_insert_ne.
Qed.

Lemma apply_untouched es : forall m b i, ~ touched es b i -> foldl le_apply m es b !! i = m b !! i.
Proof.
  induction es as [|le es IH]; intros m b i Hn; simpl; [done|].
  rewrite touched_cons in Hn. rewrite IH by tauto. apply le_apply_ne. tauto.
Qed.

(** Replay forgets what it rewrites. *)
Lemma apply_agree es : forall m m' b i,
  length (m b) = length (m' b) -> m b !! i = m' b !! i \/ touched es b i ->
  foldl le_apply m es b !! i = foldl le_apply m' es b !! i.
Proof.
  induction es as [|le es IH]; intros m m' b i Hl Hmi; simpl.
  { destruct Hmi as [?|(? & ?%elem_of_nil & _)]; done. }
  apply IH; [by rewrite !length_le_apply|].
  destruct (decide (le_sector_bda le = b /\ Z.to_nat (le_obj_idx le) = i)) as [[<- <-]|Hne].
  - left. unfold le_apply. rewrite !fn_lookup_insert.
    destruct (decide (Z.to_nat (le_obj_idx le) < length (m (le_sector_bda le)))%nat) as [Hlt|Hge].
    + rewrite !list_lookup_insert_eq by lia. done.
    + rewrite !lookup_ge_None_2; rewrite ?length_insert; [done|lia|lia].
  - rewrite !le_apply_ne by done. rewrite touched_cons in Hmi. destruct Hmi as [?|[?|?]]; [by left|done|by right].
Qed.

Section Inv.
(** [S0] is the state at transaction [T0], the entry number then is [L0] and
    the journal starts at slot [O0]. *)
Context (nslots ss : Z) (mnt : mount).
Context (locate : Z -> Z -> option (Z * nat)).
Context (S0 : meta) (T0 L0 O0 : Z).
Hypothesis Hn : 0 < nslots.
Hypothesis HO0 : 0 <= O0.

Definition state (H : history) (n : nat) : meta := foldl le_apply S0 (concat (take n H)).
Definition pos (H : history) (n : nat) : Z := Z.of_nat (length (concat (take n H))).

Lemma length_state H n b : length (state H n b) = length (S0 b).
Proof. apply length_apply. Qed.

Lemma state_app H H' n : (n <= length H)%nat -> state (H ++ H') n = state H n.
Proof. intros. unfold state. by rewrite take_app_le. Qed.
Lemma pos_app H H' n : (n <= length H)%nat -> pos (H ++ H') n = pos H n.
Proof. intros. unfold pos. by rewrite take_app_le. Qed.

Lemma state_split H a b : (a <= b)%nat ->
  state H b = foldl le_apply (state H a) (concat (drop a (take b H))).
Proof.
  intros Hab. unfold state. rewrite <- foldl_app, <- concat_app. f_equal. f_equal.
  rewrite <- (take_drop a (take b H)) at 1. by rewrite take_take, Nat.min_l.
Qed.

Lemma pos_split H a b : (a <= b)%nat ->
  pos H b = pos H a + Z.of_nat (length (concat (drop a (take b H)))).
Proof.
  intros Hab. unfold pos. rewrite <- Nat2Z.inj_add, <- length_app, <- concat_app. do 2 f_equal.
  rewrite <- (take_drop a (take b H)) at 1. by rewrite take_take, Nat.min_l.
Qed.

Lemma pos_mono H a b : (a <= b)%nat -> pos H a <= pos H b.
Proof. intros. rewrite (pos_split H a b) by done. lia. Qed.

Lemma state_untouched H a b x i : (a <= b)%nat ->
  ~ touched (concat (drop a (take b H))) x i -> state H b x !! i = state H a x !! i.
Proof. intros Hab Hn'. rewrite (state_split H a b) by done. by apply apply_untouched. Qed.

(** ** Objects in their place *)

(** [mo_used] is a flag. *)
Definition used01 (o : pfs_metaobj_phy) : Prop := mo_used o = 0 \/ mo_used o = 1.
Definition obj_good (o : pfs_metaobj_phy) : Prop := pfs_metaobj_check_crc o = Some tt /\ used01 o.

Definition le_placed (le : pfs_logentry_phy) : Prop :=
  0 <= le_obj_idx le /\
  locate (mo_type (le_obj_val le)) (mo_number (le_obj_val le)) = Some (le_sector_bda le, Z.to_nat (le_obj_idx le)) /\
  (Z.to_nat (le_obj_idx le) < length (S0 (le_sector_bda le)))%nat /\ used01 (le_obj_val le).

(** ** The leader record *)
Definition leader_ok (lr : pfs_leader_record) : Prop :=
  verify_leader mnt lr (leader_checksum (lr_body lr)) = PFS_OK.

(** ** What the device holds *)
Record rec_ok (d : disk) (H : history) (t : nat) : Prop := {
  rk_txs : txs_ok T0 L0 H;
  rk_placed : Forall le_placed (concat H);
  rk_t : (t <= length H)%nat;
  rk_tail : tail_txid (d_leader d) = T0 + Z.of_nat t;
  rk_head : head_txid (d_leader d) = T0 + Z.of_nat (length H);
  rk_lsn : head_lsn (d_leader d) = L0 + pos H (length H);
  rk_size : log_size (d_leader d) = LE_SIZE * nslots;
  rk_toff : tail_offset (d_leader d) = LE_SIZE * ((O0 + pos H t) mod nslots);
  rk_hoff : head_offset (d_leader d) = LE_SIZE * ((O0 + pos H (length H)) mod nslots);
  rk_room : pos H (length H) - pos H t < nslots;
  rk_live : at_slots nslots d (O0 + pos H t) (concat (drop t H));
  rk_valid : log_valid d;
  rk_slen : forall b, length (d_sect d b) = length (S0 b);
  rk_sect : forall b i, ~ touched (concat (drop t H)) b i -> d_sect d b !! i = state H (length H) b !! i;
  rk_good : forall b i o, d_sect d b !! i = Some o -> obj_good o;
  rk_leader : leader_ok (d_leader d) }.

Lemma drop_take_all (H : history) t : drop t (take (length H) H) = drop t H.
Proof. by rewrite firstn_all. Qed.

Lemma pos_len_drop H t : (t <= length H)%nat ->
  Z.of_nat (length (concat (drop t H))) = pos H (length H) - pos H t.
Proof. intros. rewrite (pos_split H t (length H)) by done. rewrite drop_take_all. lia. Qed.

(** What recovery computes is the committed state. *)
Lemma rec_ok_replay d H t b i : rec_ok d H t ->
  foldl le_apply (d_sect d) (concat (drop t H)) b !! i = state H (length H) b !! i.
Proof.
  intros Hr. rewrite (state_split H t (length H)) by apply Hr. rewrite drop_take_all.
  apply apply_agree; [by rewrite (rk_slen _ _ _ Hr), length_state|].
  destruct (touched_dec (concat (drop t H)) b i) as [?|Hnt]; [by right|]. left.
  rewrite (rk_sect _ _ _ Hr) by done. apply state_untouched; [apply Hr|by rewrite drop_take_all].
Qed.

(** Writing behind the head keeps the committed history. *)
Lemma rec_ok_window d d' H t n :
  rec_ok d H t -> log_only nslots d d' (O0 + pos H (length H)) n ->
  pos H (length H) - pos H t + n <= nslots -> rec_ok d' H t.
Proof.
  intros Hr Ho Hnn. pose proof Ho as (Es & El & Hv & _).
  split; rewrite ?El, ?Es; try apply Hr.
  - eapply at_slots_only; [done|apply (rk_live _ _ _ Hr)| | |exact Hnn].
    + replace (O0 + pos H t + (pos H (length H) - pos H t)) with (O0 + pos H (length H)) by lia. exact Ho.
    + rewrite pos_len_drop by apply Hr. lia.
  - by apply Hv, Hr.
Qed.

(** Every object of every state is good. *)
Hypothesis HS0good : forall b i o, S0 b !! i = Some o -> obj_good o.

Lemma entries_good es : forall txid lsn, entries_ok txid lsn es -> Forall le_good es.
Proof.
  induction es as [|le es IH]; intros txid lsn Hes; [done|]. destruct Hes as (_ & _ & _ & ? & ?).
  constructor; [done|by eapply IH].
Qed.

Lemma txs_good hs : forall txid lsn, txs_ok txid lsn hs -> Forall le_good (concat hs).
Proof.
  induction hs as [|es hs IH]; intros txid lsn Hok; [done|]. destruct Hok as (_ & ? & ?). simpl.
  apply Forall_app. split; [by eapply entries_good|by eapply IH].
Qed.

Lemma apply_good es : forall m, Forall le_good es -> Forall le_placed es ->
  (forall b i o, m b !! i = Some o -> obj_good o) ->
  forall b i o, foldl le_apply m es b !! i = Some o -> obj_good o.
Proof.
  induction es as [|le es IH]; intros m Hg Hp Hm; simpl; [done|].
  apply Forall_cons in Hg as [[Hc _] Hg]. apply Forall_cons in Hp as [(_ & _ & _ & Hu) Hp].
  apply IH; [done|done|]. intros b i o.
  destruct (decide (le_sector_bda le = b /\ Z.to_nat (le_obj_idx le) = i)) as [[<- <-]|Hne].
  - unfold le_apply. rewrite fn_lookup_insert. intros [(_ & <- & _)|[_ ?]]%list_lookup_insert_Some; [done|by eapply Hm].
  - rewrite le_apply_ne by done. apply Hm.
Qed.

Lemma state_good H n b i o : txs_ok T0 L0 H -> Forall le_placed (concat H) -> state H n b !! i = Some o -> obj_good o.
Proof.
  intros Hok Hp. apply txs_good in Hok. rewrite <- (take_drop n H), concat_app in Hok, Hp.
  apply Forall_app in Hok as [Hok _]. apply Forall_app in Hp as [Hp _]. by apply apply_good.
Qed.

(** Rewriting a sector with objects of states not older than the next tail. *)
Lemma rec_ok_sect d d' H t b buf (w : nat) :
  rec_ok d H t -> (t <= w <= length H)%nat -> length buf = length (S0 b) ->
  (forall i, exists j, (w <= j <= length H)%nat /\ buf !! i = state H j b !! i) ->
  sect_torn d d' b buf -> rec_ok d' H t.
Proof.
  intros Hr Hw Hlb Hbuf (Elog & Elr & Hne & Hlen & Hi). split; rewrite ?Elr; try apply Hr.
  - intros j le Hj. rewrite Elog. by apply Hr.
  - intros i. rewrite Elog. by apply Hr.
  - intros b'. destruct (decide (b' = b)) as [->|]; [|rewrite Hne by done; apply Hr].
    rewrite Hlen. apply Hr.
  - intros b' i Hnt. destruct (decide (b' = b)) as [->|]; [|rewrite Hne by done; by apply Hr].
    destruct (Hi i) as [->| ->]; [by apply Hr|]. destruct (Hbuf i) as (j & Hj & ->).
    symmetry. apply state_untouched; [lia|]. rewrite drop_take_all.
    intros Ht. apply Hnt. rewrite <- (take_drop (j - t) (drop t H)), concat_app. apply touched_app. right.
    rewrite drop_drop. by replace (t + (j - t))%nat with j by lia.
  - intros b' i o. destruct (decide (b' = b)) as [->|]; [|rewrite Hne by done; apply Hr].
    destruct (Hi i) as [->| ->]; [apply Hr|]. destruct (Hbuf i) as (j & Hj & ->). by apply state_good; apply Hr.
Qed.

(** Moving the tail, when the sectors of the transactions dropped are written. *)
Lemma drop_split (H : history) t w : (t <= w)%nat ->
  concat (drop t H) = concat (drop t (take w H)) ++ concat (drop w H).
Proof.
  intros. rewrite <- concat_app. f_equal. rewrite <- (take_drop w H) at 1.
  rewrite drop_app. f_equal. rewrite length_take.
  destruct (decide (w <= length H)%nat).
  - rewrite Nat.min_l by lia. by replace (t - w)%nat with 0%nat by lia.
  - rewrite !(drop_ge H) by lia. by rewrite drop_nil.
Qed.

Lemma rec_ok_tail d H t (w : nat) lr :
  rec_ok d H t -> (t <= w <= length H)%nat ->
  (forall b i, touched (concat (drop t (take w H))) b i ->
     exists j, (w <= j <= length H)%nat /\ d_sect d b !! i = state H j b !! i) ->
  lr_body lr = lr_body (set_tail (T0 + Z.of_nat w) (LE_SIZE * ((O0 + pos H w) mod nslots)) (d_leader d)) ->
  leader_ok lr -> rec_ok (set_d_leader lr d) H w.
Proof.
  intros Hr Hw Hs Elr Hlr. pose proof (pos_mono H t w ltac:(lia)).
  split; cbn [d_leader d_log d_sect set_d_leader]; rewrite ?Elr; try apply Hr; try done.
  - lia.
  - pose proof (rk_room _ _ _ Hr). lia.
  - pose proof (rk_live _ _ _ Hr) as Hl. rewrite (drop_split H t w) in Hl by lia.
    apply at_slots_app in Hl as [_ Hl]. rewrite (pos_split H t w) by lia.
    rewrite Z.add_assoc. exact Hl.
  - intros b i Hnt. destruct (touched_dec (concat (drop t (take w H))) b i) as [Ht|Ht].
    + destruct (Hs b i Ht) as (j & Hj & ->). symmetry. apply state_untouched; [lia|].
      rewrite drop_take_all. intros Htj. apply Hnt. rewrite (drop_split H w j) by lia. apply touched_app. by right.
    + apply Hr. rewrite (drop_split H t w) by lia. rewrite touched_app. tauto.
Qed.

(** Moving the head over a transaction in the journal. *)
Lemma txs_ok_snoc hs es : forall txid lsn,
  txs_ok txid lsn hs -> es <> [] ->
  entries_ok (txid + Z.of_nat (length hs) + 1) (lsn + Z.of_nat (length (concat hs))) es ->
  txs_ok txid lsn (hs ++ [es]).
Proof.
  induction hs as [|e hs IH]; intros txid lsn Hok Hne He; simpl in *.
  - rewrite !Z.add_0_r in He. done.
  - destruct Hok as (? & ? & ?). split_and!; [done|done|]. apply IH; [done|done|].
    rewrite length_app in He.
    replace (txid + 1 + Z.of_nat (length hs) + 1) with (txid + Z.of_nat (S (length hs)) + 1) by lia.
    by replace (lsn + Z.of_nat (length e) + Z.of_nat (length (concat hs)))
      with (lsn + Z.of_nat (length e + length (concat hs))) by lia.
Qed.

Lemma pos_all H : pos H (length H) = Z.of_nat (length (concat H)).
Proof. unfold pos. by rewrite firstn_all. Qed.

Lemma concat_snoc {A} (l : list (list A)) x : concat (l ++ [x]) = concat l ++ x.
Proof. rewrite concat_app. simpl. by rewrite app_nil_r. Qed.

Lemma pos_snoc H es : pos (H ++ [es]) (length (H ++ [es])) = pos H (length H) + Z.of_nat (length es).
Proof. rewrite !pos_all, concat_snoc, length_app. lia. Qed.

Lemma state_snoc H es : state (H ++ [es]) (length (H ++ [es])) = foldl le_apply (state H (length H)) es.
Proof. unfold state. by rewrite !firstn_all, concat_snoc, foldl_app. Qed.

Lemma rec_ok_head d H t es lr :
  rec_ok d H t -> es <> [] -> entries_ok (T0 + Z.of_nat (length H) + 1) (L0 + pos H (length H)) es ->
  Forall le_placed es -> at_slots nslots d (O0 + pos H (length H)) es ->
  pos H (length H) - pos H t + Z.of_nat (length es) < nslots ->
  lr_body lr = lr_body (set_head (T0 + Z.of_nat (length H) + 1)
    (LE_SIZE * ((O0 + pos H (length H) + Z.of_nat (length es)) mod nslots))
    (L0 + pos H (length H) + Z.of_nat (length es)) (d_leader d)) ->
  leader_ok lr -> rec_ok (set_d_leader lr d) (H ++ [es]) t.
Proof.
  intros Hr Hne Hes Hpl Hat Hroom Elr Hlr. pose proof (rk_t _ _ _ Hr) as Ht.
  assert (El : length (H ++ [es]) = S (length H)) by (rewrite length_app; simpl; lia).
  assert (Ed : concat (drop t (H ++ [es])) = concat (drop t H) ++ es).
  { rewrite drop_app_le by done. apply concat_snoc. }
  pose proof (pos_snoc H es) as Ep.
  split; cbn [d_leader d_log d_sect set_d_leader]; rewrite ?Elr; try apply Hr; try done.
  - apply txs_ok_snoc; [apply Hr|done|]. by rewrite <- pos_all.
  - rewrite concat_snoc. apply Forall_app. split; [apply Hr|done].
  - lia.
  - simpl. lia.
  - simpl. rewrite Ep. lia.
  - simpl. rewrite pos_app by done. apply Hr.
  - simpl. rewrite Ep. by rewrite Z.add_assoc.
  - rewrite Ep, pos_app by done. lia.
  - rewrite pos_app, Ed by done. apply at_slots_app. split; [apply Hr|].
    rewrite pos_len_drop by done. by replace (O0 + pos H t + (pos H (length H) - pos H t))
      with (O0 + pos H (length H)) by lia.
  - intros b i Hnt. rewrite Ed, touched_app in Hnt. rewrite state_snoc, apply_untouched by tauto.
    apply Hr. tauto.
Qed.
End Inv.
