(* ===== verification/MetaInv.v ===== *)
(** * Allocation trees and replay agree with the meta objects

    The allocation tree built when a chunk is loaded has exactly the unused
    objects free, and redo keeps it so. *)

From S2P Require Import Prelude Crc Alloc Object Tx LogIo Trim Log LogSem LogCirc LogInv Meta.

Open Scope pfs_scope.
#[local] Set Warnings "-register-all".

(** ** Geometry *)
Definition nobj (ms : pfs_metaset) : Z := ms_nsect ms * 2 ^ ms_opps ms.
Definition sect_addr (ms : pfs_metaset) (si : Z) : Z :=
  ms_sectbda ms + si * Z.shiftl (ms_objsize ms) (ms_opps ms).
Definition is_mtype (t : Z) : Prop := MT_NONE < t < MT_NTYPE.

(** [2560] objects are what the bitmap of a leaf holds. *)
Record ms_ok (ms : pfs_metaset) : Prop := {
  mk_opps : 0 <= ms_opps ms;
  mk_nsect : 0 < ms_nsect ms;
  mk_max : nobj ms <= 2560 }.

Definition csh (chunkv : list pfs_chunk) (t : Z) : Z :=
  match head chunkv with Some ck => ms_shift (ck_metaset ck t) | None => 0 end.

Record chunkv_ok (chunkv : list pfs_chunk) : Prop := {
  cv_ne : chunkv <> [];
  cv_len : Z.of_nat (length chunkv) < 2 ^ 31;
  cv_num : forall i ck, chunkv !! i = Some ck -> ck_number ck = Z.of_nat i;
  cv_ms : forall i ck t, chunkv !! i = Some ck -> is_mtype t -> ms_ok (ck_metaset ck t);
  cv_shift : forall i ck t, chunkv !! i = Some ck -> is_mtype t -> ms_shift (ck_metaset ck t) = csh chunkv t;
  cv_inj : forall i ck t si i' ck' t' si',
    chunkv !! i = Some ck -> chunkv !! i' = Some ck' -> is_mtype t -> is_mtype t' ->
    0 <= si < ms_nsect (ck_metaset ck t) -> 0 <= si' < ms_nsect (ck_metaset ck' t') ->
    sect_addr (ck_metaset ck t) si = sect_addr (ck_metaset ck' t') si' -> i = i' /\ t = t' /\ si = si' }.

(** Where an object lies. *)
Definition locate (chunkv : list pfs_chunk) (mtype objno : Z) : option (Z * nat) :=
  PFS_ASSERT ((MT_NONE <? mtype) && (mtype <? MT_NTYPE) && (0 <=? objno)) ;;
  let* ck := chunkv !! Z.to_nat (objno / 2 ^ csh chunkv mtype) in
  let* p := metaset_slot (ck_metaset ck mtype) (objno mod 2 ^ csh chunkv mtype) in
  Some (fst p, Z.to_nat (snd p)).

Lemma slot_eq ms oid : ms_ok ms -> 0 <= oid ->
  metaset_slot ms oid = if oid <? nobj ms
    then Some (sect_addr ms (oid / 2 ^ ms_opps ms), oid mod 2 ^ ms_opps ms) else None.
Proof.
  intros [H1 H2 H3] Ho. unfold metaset_slot. rewrite Z.shiftr_div_pow2, !Z.shiftl_mul_pow2, Z.mul_1_l by done.
  assert (Hp : 0 < 2 ^ ms_opps ms) by (by apply Z.pow_pos_nonneg).
  assert (Em : oid - oid / 2 ^ ms_opps ms * 2 ^ ms_opps ms = oid mod 2 ^ ms_opps ms).
  { rewrite Z.mod_eq by lia. lia. }
  rewrite Em. pose proof (Z.mod_pos_bound oid _ Hp) as Hm.
  rewrite (proj2 (Z.ltb_lt (oid mod _) _)), andb_true_r by lia.
  unfold sect_addr. rewrite Z.shiftl_mul_pow2 by done. unfold nobj.
  destruct (Z.ltb_spec oid (ms_nsect ms * 2 ^ ms_opps ms)), (Z.ltb_spec (oid / 2 ^ ms_opps ms) (ms_nsect ms)); try done.
  - assert (oid / 2 ^ ms_opps ms < ms_nsect ms) by (apply Z.div_lt_upper_bound; lia). lia.
  - pose proof (Z.mul_div_le oid (2 ^ ms_opps ms) Hp). nia.
Qed.

(** [an_shift] leaves room for the objects. *)
Definition shift_fits (n : Z) : bool :=
  (0 <=? ffs (roundup_power2 n) - 1) && (n <=? 2 ^ (ffs (roundup_power2 n) - 1)).

Fixpoint all_upto (f : Z -> bool) (n : nat) : bool :=
  match n with O => true | S m => f (Z.of_nat n) && all_upto f m end.

Lemma all_upto_ok f n k : all_upto f n = true -> 1 <= k <= Z.of_nat n -> f k = true.
Proof.
  induction n as [|n IH]; intros Ha Hk; [lia|]. cbn [all_upto] in Ha. apply andb_true_iff in Ha as [H1 H2].
  destruct (decide (k = Z.of_nat (S n))) as [->|]; [done|]. apply IH; [done|lia].
Qed.

Lemma shift_fits_all : all_upto shift_fits 2560 = true.
Proof. vm_cast_no_check (eq_refl true). Qed.

Lemma shift_fits_ok n : 1 <= n <= 2560 -> shift_fits n = true.
Proof. intros Hn. exact (all_upto_ok shift_fits 2560 n shift_fits_all Hn). Qed.

Lemma shift_room n o k : 0 <= o -> 0 <= k - 1 -> n <= 2 ^ (k - 1) -> 0 <= o + k - 1 /\ n * 2 ^ o <= 2 ^ (o + k - 1).
Proof.
  intros Ho Hk Hn. replace (o + k - 1) with (k - 1 + o) by lia. split; [lia|].
  rewrite Z.pow_add_r by lia. apply Z.mul_le_mono_nonneg_r; [|done]. by apply Z.pow_nonneg.
Qed.

Lemma nsect_max ms : ms_ok ms -> 1 <= ms_nsect ms <= 2560.
Proof.
  intros [H1 H2 H3]. assert (Hp : 0 < 2 ^ ms_opps ms) by (by apply Z.pow_pos_nonneg).
  unfold nobj in H3. generalize dependent (2 ^ ms_opps ms). intros p H3 Hp. nia.
Qed.

Lemma ms_shift_eq ms : ms_shift ms = ms_opps ms + ffs (roundup_power2 (ms_nsect ms)) - 1.
Proof. reflexivity. Qed.

Lemma shift_fits_prop n : shift_fits n = true ->
  0 <= ffs (roundup_power2 n) - 1 /\ n <= 2 ^ (ffs (roundup_power2 n) - 1).
Proof. unfold shift_fits. generalize (ffs (roundup_power2 n)). intros k Hs. by bool_prop. Qed.

Lemma shift_ok ms : ms_ok ms -> 0 <= ms_shift ms /\ nobj ms <= 2 ^ ms_shift ms.
Proof.
  intros Hms. destruct (shift_fits_prop _ (shift_fits_ok _ (nsect_max ms Hms))) as [H1 H2].
  rewrite ms_shift_eq. unfold nobj. generalize dependent (ffs (roundup_power2 (ms_nsect ms))). intros k H1 H2.
  apply shift_room; [apply Hms|done|done].
Qed.

(** ** The leaf of a metaset *)
Lemma count_false f n : (forall i, 0 <= i < Z.of_nat n -> f i = false) -> count f n = 0.
Proof. induction n as [|n IH]; intros Hf; [done|]. simpl. rewrite IH, Hf; [done|lia|]. intros. apply Hf. lia. Qed.

Lemma init_loop_ok id sh used : forall n k nf bmp next,
  length bmp = AN_BMP_WORDS -> Z.of_nat (k + n) <= 2560 -> nf = count (bmp_test bmp) k ->
  (forall v, Z.of_nat k <= v < 2560 -> bmp_test bmp v = false) -> -1 <= next < Z.of_nat k ->
  (forall v, Z.of_nat k <= v < Z.of_nat (k + n) -> is_Some (used v)) ->
  exists nf' bmp' next', init_anode_loop n (Z.of_nat k) used next (ANode id sh (Z.of_nat k) nf 0 bmp [])
      = Some (ANode id sh (Z.of_nat (k + n)) nf' 0 bmp' [], next') /\
    length bmp' = AN_BMP_WORDS /\ nf' = count (bmp_test bmp') (k + n) /\ -1 <= next' < Z.of_nat (k + n) /\
    forall v, 0 <= v < Z.of_nat (k + n) -> bmp_test bmp' v = if v <? Z.of_nat k then bmp_test bmp v
      else match used v with Some u => u =? 0 | None => false end.
Proof.
  induction n as [|n IH]; intros k nf bmp next Hl Hk Hnf Hb Hx Hu; cbn [init_anode_loop].
  { rewrite Nat.add_0_r. exists nf, bmp, next. split_and!; [done..|lia|lia|].
    intros v Hv. by rewrite (proj2 (Z.ltb_lt v _)) by lia. }
  destruct (Hu (Z.of_nat k)) as [u Eu]; [lia|]. rewrite Eu.
  replace (Z.of_nat k + 1) with (Z.of_nat (S k)) by lia.
  replace (k + S n)%nat with (S k + n)%nat in * by lia.
  destruct (Z.eqb_spec u 0) as [->|Hne].
  - destruct (bmp_word_in bmp (Z.of_nat k)) as [w Hw]; [rewrite Hl; unfold AN_BMP_WORDS; lia|].
    unfold pfs_anode_nfree_inc. cbn [set_nfree an_nfree an_children an_free_bmp set_bmp]. rewrite Hw.
    set (bmp1 := <[_ := _]> bmp).
    assert (Ht : forall i, 0 <= i -> bmp_test bmp1 i = if i =? Z.of_nat k then true else bmp_test bmp i).
    { intros i Hi. unfold bmp1. rewrite bmp_test_flip by (done || lia). rewrite (Hb (Z.of_nat k)) by lia. done. }
    destruct (IH (S k) (nf + 1) bmp1 (if next <? 0 then Z.of_nat k else next)) as (nf' & bmp' & nx' & -> & H1 & H2 & H3 & H4).
    + unfold bmp1. by rewrite length_insert.
    + lia.
    + simpl. rewrite (count_ext (bmp_test bmp1) (bmp_test bmp)).
      * rewrite Ht, Z.eqb_refl by lia. simpl. lia.
      * intros i Hi. rewrite Ht by lia. by rewrite (proj2 (Z.eqb_neq _ _)) by lia.
    + intros v Hv. rewrite Ht, (proj2 (Z.eqb_neq _ _)) by lia. apply Hb. lia.
    + destruct (Z.ltb_spec next 0); lia.
    + intros v Hv. apply Hu. lia.
    + exists nf', bmp', nx'. split_and!; [done..|lia|lia|]. intros v Hv. rewrite H4 by lia.
      destruct (Z.ltb_spec v (Z.of_nat (S k))), (Z.ltb_spec v (Z.of_nat k)); try lia; try done.
      * rewrite Ht by lia. by rewrite (proj2 (Z.eqb_neq _ _)) by lia.
      * assert (v = Z.of_nat k) as -> by lia. by rewrite Ht, Z.eqb_refl, Eu by lia.
  - destruct (IH (S k) nf bmp next) as (nf' & bmp' & nx' & -> & H1 & H2 & H3 & H4); try done.
    + simpl. rewrite (Hb (Z.of_nat k)) by lia. simpl. lia.
    + intros v Hv. apply Hb. lia.
    + lia.
    + intros v Hv. apply Hu. lia.
    + exists nf', bmp', nx'. split_and!; [done..|lia|lia|]. intros v Hv. rewrite H4 by lia.
      destruct (Z.ltb_spec v (Z.of_nat (S k))), (Z.ltb_spec v (Z.of_nat k)); try lia; try done.
      assert (v = Z.of_nat k) as -> by lia. rewrite Eu, (Hb (Z.of_nat k)) by lia.
      by rewrite (proj2 (Z.eqb_neq _ _)).
Qed.

(** The buffers of a metaset are loaded. *)
Definition ms_loaded (mem : Z -> list pfs_metaobj_phy) (ms : pfs_metaset) : Prop :=
  forall si, 0 <= si < ms_nsect ms -> length (mem (sect_addr ms si)) = Z.to_nat (2 ^ ms_opps ms).

Lemma slot_loaded mem ms oid : ms_ok ms -> ms_loaded mem ms -> 0 <= oid < nobj ms ->
  exists mo, mem (sect_addr ms (oid / 2 ^ ms_opps ms)) !! Z.to_nat (oid mod 2 ^ ms_opps ms) = Some mo.
Proof.
  intros [H1 H2 H3] Hl Ho. assert (Hp : 0 < 2 ^ ms_opps ms) by (by apply Z.pow_pos_nonneg).
  apply lookup_lt_is_Some_2. rewrite Hl.
  - pose proof (Z.mod_pos_bound oid _ Hp). lia.
  - split; [apply Z.div_pos; lia|]. unfold nobj in Ho. apply Z.div_lt_upper_bound; lia.
Qed.

Lemma init_leaf_ok mem ms ckno : ms_ok ms -> ms_loaded mem ms -> 0 <= ckno ->
  exists an, pfs_metaset_init_anode mem ms ckno = Some an /\ anode_wf an /\ an_children an = [] /\
    an_id an = ckno /\ an_shift an = ms_shift ms /\ an_nall an = nobj ms /\
    forall oid, 0 <= oid < nobj ms -> exists mo,
      mem (sect_addr ms (oid / 2 ^ ms_opps ms)) !! Z.to_nat (oid mod 2 ^ ms_opps ms) = Some mo /\
      obj_free an oid = (mo_used mo =? 0).
Proof.
  intros Hms Hl Hc. pose proof Hms as [H1 H2 H3]. unfold pfs_metaset_init_anode. rewrite Z.shiftl_mul_pow2 by done.
  fold (nobj ms). assert (Hp : 0 < 2 ^ ms_opps ms) by (by apply Z.pow_pos_nonneg).
  assert (Hpos : 0 < nobj ms) by (unfold nobj; nia).
  assert (Hu : forall v, 0 <= v < nobj ms -> exists mo,
    mem (sect_addr ms (v / 2 ^ ms_opps ms)) !! Z.to_nat (v mod 2 ^ ms_opps ms) = Some mo /\
    mo_used_at mem ms v = Some (mo_used mo)).
  { intros v Hv. destruct (slot_loaded mem ms v Hms Hl Hv) as [mo Hmo]. exists mo. split; [done|].
    unfold mo_used_at. rewrite slot_eq by (done || lia). rewrite (proj2 (Z.ltb_lt v _)) by lia.
    by rewrite Hmo. }
  destruct (init_loop_ok ckno (ms_shift ms) (mo_used_at mem ms) (Z.to_nat (nobj ms)) 0 0
    (replicate AN_BMP_WORDS 0) (-1)) as (nf & bmp & next & E & E1 & E2 & E3 & E4); try done; try lia.
  - intros v Hv. unfold bmp_test. destruct (bmp_word _ v) as [w|] eqn:Ew; [|done].
    apply lookup_replicate in Ew as [-> _]. apply Z.bits_0.
  - intros v Hv. destruct (Hu v) as (mo & _ & ->); [lia|]. by eexists.
  - change (Z.of_nat 0) with 0 in *. rewrite Nat.add_0_l in *. rewrite E. rewrite Z2Nat.id in E3, E4 by lia. rewrite Z2Nat.id by lia.
    eexists. split; [done|]. assert (Hw : exists nx, 0 <= nx < nobj ms /\
      (if next >=? 0 then set_next next (ANode ckno (ms_shift ms) (nobj ms) nf 0 bmp [])
       else ANode ckno (ms_shift ms) (nobj ms) nf 0 bmp []) = ANode ckno (ms_shift ms) (nobj ms) nf nx bmp []).
    { destruct (Z.geb_spec next 0); [exists next|exists 0]; split; (done || lia). }
    destruct Hw as (nx & Hnx & ->). split_and!; try done.
    + destruct (shift_ok ms Hms). constructor; try done. rewrite E1. unfold AN_BMP_WORDS. lia.
    + intros v Hv. destruct (Hu v Hv) as (mo & Hmo & Eu). exists mo. split; [done|].
      simpl. unfold an_bound. simpl. rewrite (proj2 (Z.leb_le 0 v)), (proj2 (Z.ltb_lt v _)) by lia. simpl.
      rewrite E4 by lia. rewrite Eu. by destruct (Z.ltb_spec v 0); [lia|].
Qed.

(** ** The tree of a type *)
Lemma init_children_ok cs : forall id sh nall nfree nx bmp all i, all <> [] ->
  init_anode_children (ANode id sh nall nfree nx bmp all) i cs =
  Some (ANode id sh (nall + sumZ (an_nall <$> cs)) (nfree + sumZ (an_nfree <$> cs)) nx bmp all).
Proof.
  induction cs as [|c cs IH]; intros id sh nall nfree nx bmp all i Hall; cbn [init_anode_children].
  { simpl. by rewrite !Z.add_0_r. }
  unfold pfs_anode_nfree_inc. cbn [set_nfree an_nfree an_children]. destruct all as [|a0 all0] eqn:Ea; [done|].
  rewrite IH by done. rewrite !fmap_cons. cbn [sumZ foldr]. fold sumZ.
  by rewrite !Z.add_assoc.
Qed.

(** What the tree [an] of type [t] says of the buffers [mem]. *)
Record tree_ok (chunkv : list pfs_chunk) (mem : Z -> list pfs_metaobj_phy) (t : Z) (an : anode) : Prop := {
  tk_wf : anode_wf an;
  tk_id : an_id an = 0;
  tk_get : forall v b i, locate chunkv t v = Some (b, i) ->
    pfs_anode_get an v = Some (v / 2 ^ csh chunkv t, v mod 2 ^ csh chunkv t) /\ obj_in an v;
  tk_free : forall v b i mo, locate chunkv t v = Some (b, i) -> mem b !! i = Some mo ->
    obj_free an v = (mo_used mo =? 0) }.

Definition loaded (chunkv : list pfs_chunk) (mem : Z -> list pfs_metaobj_phy) : Prop :=
  forall i ck t, chunkv !! i = Some ck -> is_mtype t -> ms_loaded mem (ck_metaset ck t).

Section Chunks.
Context (chunkv : list pfs_chunk).
Hypothesis Hcv : chunkv_ok chunkv.

Lemma locate_inv t v b i : locate chunkv t v = Some (b, i) ->
  is_mtype t /\ 0 <= v /\ exists ck, chunkv !! Z.to_nat (v / 2 ^ csh chunkv t) = Some ck /\
    let ms := ck_metaset ck t in let oid := v mod 2 ^ csh chunkv t in
    ms_ok ms /\ 0 <= oid < nobj ms /\ metaset_slot ms oid = Some (b, oid mod 2 ^ ms_opps ms) /\
    b = sect_addr ms (oid / 2 ^ ms_opps ms) /\ i = Z.to_nat (oid mod 2 ^ ms_opps ms).
Proof.
  unfold locate. destruct ((_ <? _) && _ && _) eqn:Ec; [|done]. bool_prop.
  assert (Ht : is_mtype t) by done. destruct (chunkv !! _) as [ck|] eqn:Hck; [|done].
  pose proof (cv_ms _ Hcv _ _ _ Hck Ht) as Hms.
  assert (Hs : 0 <= csh chunkv t).
  { rewrite <- (cv_shift _ Hcv _ _ _ Hck Ht). by apply shift_ok. }
  pose proof (Z.mod_pos_bound v (2 ^ csh chunkv t) ltac:(by apply Z.pow_pos_nonneg)) as Hm.
  destruct (metaset_slot _ _) as [[b' o']|] eqn:Es; [|done]. intros [= <- <-].
  rewrite slot_eq in Es by (done || lia). destruct (Z.ltb_spec (v mod 2 ^ csh chunkv t) (nobj (ck_metaset ck t))); [|done].
  injection Es as <- <-. split; [done|]. split; [done|]. exists ck. split; [done|]. cbv zeta.
  split; [done|]. split; [lia|]. split; [|done].
  rewrite slot_eq by (done || lia). by rewrite (proj2 (Z.ltb_lt _ _)) by lia.
Qed.

Lemma div_mod_eq p a b : 0 < p -> a / p = b / p -> a mod p = b mod p -> a = b.
Proof. intros. rewrite (Z.div_mod a p), (Z.div_mod b p) by lia. congruence. Qed.

(** Distinct objects lie in distinct places. *)
Lemma locate_inj t v t' v' p : locate chunkv t v = Some p -> locate chunkv t' v' = Some p -> t = t' /\ v = v'.
Proof.
  destruct p as [b i]. intros (Ht & Hv & ck & Hck & Hms & Ho & _ & Eb & Ei)%locate_inv.
  intros (Ht' & Hv' & ck' & Hck' & Hms' & Ho' & _ & Eb' & Ei')%locate_inv.
  assert (Hdiv : forall ms o, ms_ok ms -> 0 <= o < nobj ms -> 0 <= o / 2 ^ ms_opps ms < ms_nsect ms /\ 0 < 2 ^ ms_opps ms).
  { intros ms o [H1 H2 H3] Hr. assert (0 < 2 ^ ms_opps ms) by (by apply Z.pow_pos_nonneg).
    split; [|done]. split; [apply Z.div_pos; lia|]. unfold nobj in Hr. apply Z.div_lt_upper_bound; lia. }
  destruct (Hdiv _ _ Hms Ho) as [Hd Hp], (Hdiv _ _ Hms' Ho') as [Hd' Hp'].
  destruct (cv_inj _ Hcv _ _ _ _ _ _ _ _ Hck Hck' Ht Ht' Hd Hd') as (Ec & <- & Es); [congruence|].
  split; [done|]. rewrite <- Ec, Hck in Hck'. injection Hck' as <-.
  assert (Hs : 0 < 2 ^ csh chunkv t).
  { apply Z.pow_pos_nonneg; [done|]. rewrite <- (cv_shift _ Hcv _ _ _ Hck Ht). by apply shift_ok. }
  pose proof (Z.div_pos v _ Hv Hs). pose proof (Z.div_pos v' _ Hv' Hs).
  apply (div_mod_eq (2 ^ csh chunkv t)); [done|lia|]. apply (div_mod_eq (2 ^ ms_opps (ck_metaset ck t))); [done..|].
  set (o := v mod _) in *. set (o' := v' mod _) in *.
  pose proof (Z.mod_pos_bound o _ Hp). pose proof (Z.mod_pos_bound o' _ Hp). lia.
Qed.

Lemma csh_nonneg t : is_mtype t -> 0 <= csh chunkv t.
Proof.
  intros Ht. destruct (lookup_lt_is_Some_2 chunkv 0%nat) as [ck Hck].
  { pose proof (cv_ne _ Hcv). destruct chunkv; [done|simpl; lia]. }
  rewrite <- (cv_shift _ Hcv _ _ _ Hck Ht). apply shift_ok. by eapply cv_ms.
Qed.

(** The leafs of the type [t]. *)
Definition leaf_ok (mem : Z -> list pfs_metaobj_phy) (t : Z) (i : nat) (c : anode) (ck : pfs_chunk) : Prop :=
  anode_wf c /\ an_children c = [] /\ an_id c = Z.of_nat i /\ an_shift c = csh chunkv t /\
  an_bound c = nobj (ck_metaset ck t) /\
  forall oid, 0 <= oid < nobj (ck_metaset ck t) -> exists mo,
    mem (sect_addr (ck_metaset ck t) (oid / 2 ^ ms_opps (ck_metaset ck t))) !!
      Z.to_nat (oid mod 2 ^ ms_opps (ck_metaset ck t)) = Some mo /\ obj_free c oid = (mo_used mo =? 0).

Lemma leaves_ok mem t : is_mtype t -> loaded chunkv mem -> exists cs,
  mapM (fun ck => pfs_metaset_init_anode mem (ck_metaset ck t) (ck_number ck)) chunkv = Some cs /\
  length cs = length chunkv /\
  forall i c, cs !! i = Some c -> exists ck, chunkv !! i = Some ck /\ leaf_ok mem t i c ck.
Proof.
  intros Ht Hl.
  assert (Hone : forall i ck, chunkv !! i = Some ck -> exists an,
    pfs_metaset_init_anode mem (ck_metaset ck t) (ck_number ck) = Some an /\ leaf_ok mem t i an ck).
  { intros i ck Hck. pose proof (cv_num _ Hcv _ _ Hck) as Hnum.
    destruct (init_leaf_ok mem (ck_metaset ck t) (ck_number ck)) as (an & Ean & H1 & H2 & H3 & H4 & H5 & H6);
      [by eapply cv_ms|by eapply Hl|lia|]. exists an. split; [done|].
    rewrite (cv_shift _ Hcv _ _ _ Hck Ht) in H4. unfold leaf_ok, an_bound. rewrite H2. split_and!; try done. congruence. }
  assert (Hm : exists cs, mapM (fun ck => pfs_metaset_init_anode mem (ck_metaset ck t) (ck_number ck)) chunkv = Some cs).
  { apply mapM_is_Some_2, Forall_forall. intros ck (i & Hck)%list_elem_of_lookup.
    destruct (Hone i ck Hck) as (an & Ean & _). by exists an. }
  destruct Hm as (cs & E). exists cs. apply mapM_Some_1 in E as F. split; [done|].
  split; [symmetry; by eapply Forall2_length|]. intros i c Hc.
  destruct (Forall2_lookup_r _ _ _ _ _ F Hc) as (ck & Hck & Ec). exists ck. split; [done|].
  destruct (Hone i ck Hck) as (an & Ean & Hok). rewrite Ean in Ec. by injection Ec as <-.
Qed.

Section Tree.
Context (mem : Z -> list pfs_metaobj_phy) (t : Z) (cs : list anode).
Hypothesis Ht : is_mtype t.
Hypothesis Hlen : length cs = length chunkv.
Hypothesis Hleaf : forall i c, cs !! i = Some c -> exists ck, chunkv !! i = Some ck /\ leaf_ok mem t i c ck.

Lemma leaf_shape i c : cs !! i = Some c ->
  an_shift c = csh chunkv t /\ an_id c = Z.of_nat i /\ an_bound c <= 2 ^ csh chunkv t.
Proof.
  intros Hc. destruct (Hleaf i c Hc) as (ck & Hck & H1 & H2 & H3 & H4 & H5 & _).
  split_and!; [done|done|]. rewrite H5, <- (cv_shift _ Hcv _ _ _ Hck Ht). apply shift_ok. by eapply cv_ms.
Qed.

Lemma leaf_count : cs <> [] /\ Z.of_nat (length cs) < 2 ^ 31.
Proof. rewrite Hlen. split; [|apply Hcv]. intros ->. pose proof (cv_ne _ Hcv). by destruct chunkv. Qed.

(** The leaf and the number in it of a located object. *)
Lemma leaf_of v b i : locate chunkv t v = Some (b, i) -> exists c ck,
  cs !! Z.to_nat (v / 2 ^ csh chunkv t) = Some c /\ leaf_ok mem t (Z.to_nat (v / 2 ^ csh chunkv t)) c ck /\
  let s := v mod 2 ^ csh chunkv t in
  0 <= s < an_bound c /\ v = MONO_MAKE (Z.shiftl (an_id c) (an_shift c)) s /\ 0 <= v / 2 ^ csh chunkv t /\
  b = sect_addr (ck_metaset ck t) (s / 2 ^ ms_opps (ck_metaset ck t)) /\
  i = Z.to_nat (s mod 2 ^ ms_opps (ck_metaset ck t)).
Proof.
  intros (_ & Hv & ck & Hck & Hms & Ho & _ & -> & ->)%locate_inv.
  destruct (lookup_lt_is_Some_2 cs (Z.to_nat (v / 2 ^ csh chunkv t))) as [c Hc];
    [rewrite Hlen; by eapply lookup_lt_Some|].
  destruct (Hleaf _ _ Hc) as (ck' & Hck' & Hok). rewrite Hck in Hck'. injection Hck' as <-.
  exists c, ck. split; [done|]. split; [done|]. cbv zeta. pose proof Hok as (H1 & H2 & H3 & H4 & H5 & _).
  assert (Hp : 0 < 2 ^ csh chunkv t) by (apply Z.pow_pos_nonneg; [done|]; by apply csh_nonneg).
  pose proof (Z.div_pos v _ Hv Hp) as Hd. rewrite H5. split; [done|]. split; [|done]. destruct leaf_count as [Hne Hcl].
  destruct (child_number 0 0 0 0 0 [] cs (csh chunkv t) (csh_nonneg t Ht) Hne Hcl leaf_shape _ c (v mod 2 ^ csh chunkv t) Hc)
    as (-> & _); [by rewrite H5|].
  rewrite Z2Nat.id by done. rewrite Z.mul_comm. apply Z.div_mod. lia.
Qed.

Lemma tree_of_leaves nall bmp : tree_ok chunkv mem t (ANode 0 0 nall (sumZ (an_nfree <$> cs)) 0 bmp cs).
Proof.
  destruct leaf_count as [Hne Hcl]. pose proof (csh_nonneg t Ht) as Hs. split.
  - apply (wf_node _ _ _ _ _ _ _ (csh chunkv t)); try done; [|apply leaf_shape].
    intros i c Hc. by destruct (Hleaf i c Hc) as (ck & _ & ? & _).
  - done.
  - intros v b i Hl. destruct (leaf_of v b i Hl) as (c & ck & Hc & Hok & Hr & Ev & Hd & _).
    pose proof Hok as (H1 & H2 & H3 & _). destruct c as [id' sh' nall' nf' nx' bmp' cs']. simpl in H2. subst cs'. split.
    + rewrite (anode_get_node _ _ _ _ _ _ _ (csh chunkv t)) by (done || apply leaf_shape).
      destruct (route_child 0 0 nall (sumZ (an_nfree <$> cs)) 0 bmp cs (csh chunkv t) _ _ _ Hs Hcl leaf_shape Hc Hr)
        as (R1 & R2 & _).
      rewrite <- Ev in R1, R2. rewrite R1, Hc, R2. simpl in H3 |- *. rewrite H3. f_equal. f_equal. lia.
    + rewrite Ev. eapply in_node; [done|]. constructor. exact Hr.
  - intros v b i mo Hl Hmo. destruct (leaf_of v b i Hl) as (c & ck & Hc & Hok & Hr & Ev & Hd & -> & ->).
    pose proof Hok as (H1 & H2 & H3 & H4 & H5 & H6). rewrite H5 in Hr. destruct (H6 _ Hr) as (mo' & Hmo' & Ef).
    assert (mo' = mo) as -> by congruence. rewrite <- H5 in Hr. rewrite <- Ef.
    destruct (route_child 0 0 nall (sumZ (an_nfree <$> cs)) 0 bmp cs (csh chunkv t) _ _ _ Hs Hcl leaf_shape Hc Hr)
      as (_ & _ & R3 & _). by rewrite <- Ev in R3.
Qed.

(** The tree has no other objects. *)
Lemma tree_located nall nfree bmp v : obj_in (ANode 0 0 nall nfree 0 bmp cs) v -> is_Some (locate chunkv t v).
Proof.
  destruct leaf_count as [Hne Hcl]. pose proof (csh_nonneg t Ht) as Hs. inversion 1 as [|? ? ? ? ? ? ? i c s Hc Hin]; subst; [done|].
  destruct (Hleaf i c Hc) as (ck & Hck & Hwf & Hch & Hid & Hsh & Hbd & _). pose proof (obj_in_range _ _ Hwf Hin) as Hr.
  destruct (child_number 0 0 0 0 0 [] cs (csh chunkv t) Hs Hne Hcl leaf_shape i c s Hc Hr) as (_ & Hv & Hdiv & Hmod).
  unfold locate. rewrite (proj2 (Z.ltb_lt _ _) (proj1 Ht)), (proj2 (Z.ltb_lt _ _) (proj2 Ht)), (proj2 (Z.leb_le _ _) (proj1 Hv)). cbn [andb].
  rewrite Hdiv, Hmod, Hck, slot_eq by (by eapply cv_ms || lia). rewrite <- Hbd, (proj2 (Z.ltb_lt _ _)) by lia. by eexists.
Qed.
End Tree.

Lemma init_tree_full mem t : is_mtype t -> loaded chunkv mem ->
  exists an, pfs_init_anode mem chunkv t = Some an /\ tree_ok chunkv mem t an /\ an_children an <> [] /\
    forall v, obj_in an v -> is_Some (locate chunkv t v).
Proof.
  intros Ht Hl. destruct (leaves_ok mem t Ht Hl) as (cs & E & Hlen & Hleaf).
  unfold pfs_init_anode. rewrite E, init_children_ok by (by eapply leaf_count).
  eexists. split; [done|]. split; [by apply tree_of_leaves|]. split; [by eapply leaf_count|]. intros v. by eapply tree_located.
Qed.
Lemma init_tree_ok mem t : is_mtype t -> loaded chunkv mem ->
  exists an, pfs_init_anode mem chunkv t = Some an /\ tree_ok chunkv mem t an.
Proof.
  intros Ht Hl. destruct (init_tree_full mem t Ht Hl) as (an & ? & ? & _). by exists an.
Qed.

(** ** Redo *)
Record md_ok (md : metadata) : Prop := {
  md_chunks : mnt_chunkv md = chunkv;
  md_loaded : loaded chunkv (mnt_objbuf md);
  md_used : forall b i o, mnt_objbuf md b !! i = Some o -> used01 o;
  md_tree : forall t, is_mtype t -> tree_ok chunkv (mnt_objbuf md) t (mnt_anode md t) }.

Definition obj_write (mem : Z -> list pfs_metaobj_phy) (b : Z) (i : nat) (mo : pfs_metaobj_phy)
  : Z -> list pfs_metaobj_phy := <[b := <[i := mo]> (mem b)]> mem.

Lemma length_obj_write mem b i mo b' : length (obj_write mem b i mo b') = length (mem b').
Proof.
  unfold obj_write. destruct (decide (b = b')) as [<-|]; [by rewrite fn_lookup_insert, length_insert|].
  by rewrite fn_lookup_insert_ne.
Qed.

Lemma obj_write_lookup mem b i mo b' i' o :
  obj_write mem b i mo b' !! i' = Some o -> (b' = b /\ i' = i /\ o = mo) \/ ((b', i') <> (b, i) /\ mem b' !! i' = Some o).
Proof.
  unfold obj_write. destruct (decide (b = b')) as [<-|].
  - rewrite fn_lookup_insert. intros [(-> & <- & _)|[? ?]]%list_lookup_insert_Some; [by left|right]. split; [congruence|done].
  - rewrite fn_lookup_insert_ne by done. right. split; [congruence|done].
Qed.

Lemma metaset_redo_ok mem t top v b i old :
  locate chunkv t v = Some (b, i) -> mem b !! i = Some old ->
  top_recreate top = true -> top_buf top = None -> is_mtype (mo_type (top_local top)) ->
  pfs_metaset_redo chunkv t (mem, top) (v / 2 ^ csh chunkv t) (v mod 2 ^ csh chunkv t) =
  Some (obj_write mem b i (top_local top), set_top_buf (Some b) top, mo_used old - mo_used (top_local top)).
Proof.
  intros (Ht & Hv & ck & Hck & Hms & Ho & Es & -> & ->)%locate_inv Hold Hr Hb [Hty1 Hty2].
  unfold pfs_metaset_redo, an_host. rewrite Hck, Es, Hold. unfold pfs_txop_redo. rewrite Hr, Hb.
  cbn [set_top_buf top_local]. by rewrite (proj2 (Z.ltb_lt _ _) Hty1), (proj2 (Z.ltb_lt _ _) Hty2).
Qed.

Lemma free_delta old new : used01 old -> used01 new ->
  Z.b2z (mo_used new =? 0) = Z.b2z (mo_used old =? 0) + (mo_used old - mo_used new).
Proof. intros [-> | ->] [-> | ->]; reflexivity. Qed.

Lemma txop_replay_ok md top b i old :
  md_ok md -> top_recreate top = true -> top_buf top = None -> used01 (top_local top) ->
  locate chunkv (mo_type (top_local top)) (mo_number (top_local top)) = Some (b, i) ->
  mnt_objbuf md b !! i = Some old ->
  exists md', pfs_txop_replay md top = Some (md', set_top_buf (Some b) top) /\ md_ok md' /\
    mnt_objbuf md' = obj_write (mnt_objbuf md) b i (top_local top).
Proof.
  intros [M1 M2 M3 M4] Hr Hb Hu Hl Hold. pose proof (locate_inv _ _ _ _ Hl) as (Ht & _).
  set (mo := top_local top) in *. set (t := mo_type mo) in *. set (v := mo_number mo) in *.
  pose proof (M4 t Ht) as [T1 T2 T3 T4]. destruct (T3 _ _ _ Hl) as [Hget Hin].
  pose proof (metaset_redo_ok _ _ _ _ _ _ _ Hl Hold Hr Hb Ht) as Eredo. fold mo in Eredo.
  destruct (reapply_ok (pfs_metaset_redo chunkv t) (mnt_objbuf md, top) (obj_write (mnt_objbuf md) b i mo, set_top_buf (Some b) top)
    (mnt_anode md t) v _ _ (mo_used old - mo_used mo) (mo_used mo =? 0) T1 Hin Hget Eredo) as (an' & Ean & Hup).
  { rewrite (T4 _ _ _ _ Hl Hold). apply free_delta; [by eapply M3|done]. }
  unfold pfs_txop_replay, pfs_meta_redo, pfs_anode_redo. rewrite Hr. fold mo t v. rewrite M1, Ean.
  eexists. split; [done|]. cbn [fst snd mnt_objbuf]. split; [|done].
  split; cbn [mnt_chunkv mnt_anode mnt_objbuf].
  - done.
  - intros j ck t' Hck Ht' si Hsi. rewrite length_obj_write. by eapply M2.
  - intros b' i' o [(-> & -> & ->)|[_ Ho]]%obj_write_lookup; [done|by eapply M3].
  - intros t' Ht'. pose proof (M4 t' Ht') as [U1 U2 U3 U4].
    destruct (decide (t' = t)) as [->|Hne].
    + rewrite fn_lookup_insert. destruct Hup as [W1 W2 W3 W4 W5 W6 W7 W8]. split; [done|congruence| |].
      * intros v' b' i' Hl'. rewrite W7. destruct (T3 _ _ _ Hl'). split; [done|by apply W8].
      * intros v' b' i' mo' Hl' [(-> & -> & ->)|[Hn Ho]]%obj_write_lookup; rewrite W6.
        -- destruct (locate_inj _ _ _ _ _ Hl Hl') as [_ <-]. by rewrite Z.eqb_refl.
        -- destruct (Z.eqb_spec v' v) as [->|]; [congruence|]. by eapply T4.
    + rewrite fn_lookup_insert_ne by done. split; try done.
      intros v' b' i' mo' Hl' [(-> & -> & ->)|[_ Ho]]%obj_write_lookup; [|by eapply U4].
      destruct (locate_inj _ _ _ _ _ Hl Hl'). congruence.
Qed.
End Chunks.
