(* ===== verification/Format.v ===== *)
(** * Formatting and loading a volume

    Model of the part of cmd_mkfs.cc that writes the chunks of a volume
    ([pfs_make]), of the code of pfs_meta.cc that loads them again, and of
    pfs_version.cc.

    A device is a map from sector addresses to what the sector holds: the
    header of a chunk or meta objects.  Each I/O takes the next result of the
    device; a negative one is an error, after which a sector that was to be
    written has the old or the new contents.  [None] is an abort or an exit. *)

From S2P Require Import Prelude Crc Alloc Object Tx Meta Blkio Blktable Inode Dir.

Open Scope pfs_scope.

(** ** Constants *)
Definition PBD_CHUNK_SIZE : Z := Z.shiftl 10 30.
Definition PBD_SECTOR_SIZE : Z := 4096.
Definition PFS_BLOCK_SIZE : Z := Z.shiftl 4 20.
Definition PFS_FRAG_SIZE : Z := Z.shiftl 16 10.
Definition PFS_NIN_PERCHUNK : Z := 2048.
Definition PFS_NDE_PERCHUNK : Z := PFS_NIN_PERCHUNK.
Definition PFS_CHUNK_MAGIC : Z := 0x5046534348.
Definition PFS_MAX_VERSION : Z := 64.
Definition PAXOS_FILE_MONO : Z := 1.
Definition JOURNAL_FILE_MONO : Z := 2.
Definition INNER_FILE_BTIME : Z := 0.
Definition MAX_NTHRD : Z := 64.
Definition MIN_NTHRD : Z := 8.
Definition ENOTSUP : Z := 95.
(** ".pfs-paxos" and ".pfs-journal". *)
Definition PFS_PAXOS_FILE : list Z := [46; 112; 102; 115; 45; 112; 97; 120; 111; 115].
Definition PFS_JOURNAL_FILE : list Z := [46; 112; 102; 115; 45; 106; 111; 117; 114; 110; 97; 108].

(** ** Headers *)
Record pfs_metaset_phy := MkMsPhy { pms_sectbda : Z; pms_nsect : Z; pms_objsize : Z }.
Record pfs_chunk_phy := MkCkPhy {
  pck_magic : Z; pck_chunksize : Z; pck_blksize : Z; pck_sectsize : Z; pck_number : Z; pck_nchunk : Z;
  pck_physet : list pfs_metaset_phy; pck_checksum : Z }.

Definition metaset_phy_bytes (ms : pfs_metaset_phy) : list Z :=
  le_bytes 8 (pms_sectbda ms) ++ le_bytes 4 (pms_nsect ms) ++ le_bytes 4 (pms_objsize ms).
(** With the padding of the structure; the checksum is at offset 112. *)
Definition head_bytes (ck : pfs_chunk_phy) : list Z :=
  le_bytes 8 (pck_magic ck) ++ le_bytes 8 (pck_chunksize ck) ++ le_bytes 8 (pck_blksize ck) ++ le_bytes 8 (pck_sectsize ck) ++
  le_bytes 8 (pck_number ck) ++ le_bytes 4 (pck_nchunk ck) ++ replicate 4 0 ++ concat (metaset_phy_bytes <$> pck_physet ck).
Definition chunk_phy_bytes (ck : pfs_chunk_phy) : list Z := head_bytes ck ++ le_bytes 4 (pck_checksum ck) ++ replicate 4 0.
Definition chunk_crc (ck : pfs_chunk_phy) : Z := crc32c_compute (chunk_phy_bytes ck) 112.
Definition set_checksum (v : Z) (ck : pfs_chunk_phy) : pfs_chunk_phy :=
  MkCkPhy (pck_magic ck) (pck_chunksize ck) (pck_blksize ck) (pck_sectsize ck) (pck_number ck) (pck_nchunk ck) (pck_physet ck) v.
Definition set_magic (v : Z) (ck : pfs_chunk_phy) : pfs_chunk_phy :=
  MkCkPhy v (pck_chunksize ck) (pck_blksize ck) (pck_sectsize ck) (pck_number ck) (pck_nchunk ck) (pck_physet ck) (pck_checksum ck).

Definition to_int64 (z : Z) : Z := let u := wrap64 z in if u <? 2 ^ 63 then u else u - 2 ^ 64.
Definition chunk_magic_valid (ckid magic : Z) : bool :=
  (magic =? PFS_CHUNK_MAGIC) ||
  ((ckid =? 0) && (0 <=? to_int64 (magic - PFS_CHUNK_MAGIC)) && (to_int64 (magic - PFS_CHUNK_MAGIC) <? PFS_MAX_VERSION)).
Definition pfs_version_get : Z := pfs_current_version.
Definition chunk_magic_make (ckid : Z) : Z := if negb (ckid =? 0) then PFS_CHUNK_MAGIC else PFS_CHUNK_MAGIC + pfs_version_get.
Definition chunk_magic_version (magic : Z) : Z := wrap64 (magic - PFS_CHUNK_MAGIC).

(** ** Devices *)
Inductive sector :=
| SHead (ck : pfs_chunk_phy)
| SObjs (mos : list pfs_metaobj_phy)
| SOther.
Record disk := MkDisk { dk_sect : Z -> sector; dk_res : list (Z * bool) }.
Definition io (T : Type) : Type := disk -> option (T * disk).
#[export] Instance io_ret : MRet io := fun T x d => Some (x, d).
#[export] Instance io_bind : MBind io := fun T U f m d => match m d with Some (x, d) => f x d | None => None end.
Definition io_lift {T} (x : option T) : io T := fun d => match x with Some v => Some (v, d) | None => None end.
Definition io_assert (b : bool) : io unit := fun d => if b then Some (tt, d) else None.

(** The result of the next I/O, and whether a write that fails takes effect. *)
Definition next_res (res : list (Z * bool)) : Z * bool * list (Z * bool) := match res with [] => (0, true, []) | r :: res => (fst r, snd r, res) end.
Definition pfsdev_pwrite (s : sector) (bda : Z) : io Z := fun d =>
  let '(r, hit, res) := next_res (dk_res d) in
  Some (Z.min r 0, MkDisk (if (0 <=? r) || hit then <[bda := s]> (dk_sect d) else dk_sect d) res).
Definition pfsdev_pread (bda : Z) : io (Z * sector) := fun d =>
  let '(r, _, res) := next_res (dk_res d) in
  Some ((Z.min r 0, if 0 <=? r then dk_sect d bda else SOther), MkDisk (dk_sect d) res).
Definition pfsdev_wait_io : io Z := fun d =>
  let '(r, _, res) := next_res (dk_res d) in Some (Z.min r 0, MkDisk (dk_sect d) res).

(** ** Making a volume (cmd_mkfs.cc) *)
Section Make.
Context (now : Z).

Definition nobj_perchunk (mtype : Z) : Z :=
  if mtype =? MT_BLKTAG then PFS_NBT_PERCHUNK else if mtype =? MT_DIRENTRY then PFS_NDE_PERCHUNK
  else if mtype =? MT_INODE then PFS_NIN_PERCHUNK else 0.

(** An object of zeros with its number. *)
Definition zero_mo (mo_number : Z) : pfs_metaobj_phy := MkObj mo_number 0 0 0 0 0 0 0 0 (DRaw (replicate 88 0)).
Definition set_mo_type (v : Z) (mo : pfs_metaobj_phy) : pfs_metaobj_phy :=
  MkObj (mo_number mo) (mo_version mo) (mo_next mo) (mo_prev mo) v (mo_used mo) (mo_padding0 mo) (mo_padding1 mo) (mo_checksum mo) (mo_data mo).
Definition zero_bt : pfs_blktag_phy := Build_pfs_blktag_phy 0 0 0 0 0 0.
Definition mk_in (type deno nlink btime : Z) : pfs_inode_phy :=
  {| in_type := type; in_flags := 0; in_padding := 0; in_pvtid := 0; in_deno := deno; in_nlink := nlink; in_nblock := 0; in_size := 0;
     in_atime := 0; in_ctime := 0; in_mtime := 0; in_btime := btime |}.
Definition mk_de (name : list Z) (ino dirino : Z) : pfs_direntry_phy :=
  {| de_name := name; de_ino := ino; de_dirino := dirino; de_extdeno := INVALID_EXTDENO |}.
Definition links (next prev : Z) (mo : pfs_metaobj_phy) : pfs_metaobj_phy := set_mo_prev prev (set_mo_next next mo).

Definition metaobj_init (mo : pfs_metaobj_phy) (mtype oid : Z) : option pfs_metaobj_phy :=
  let mo := set_mo_type mtype mo in
  let* mo :=
    if mtype =? MT_BLKTAG then
      let mo := set_mo_data (DBlktag zero_bt (replicate 56 0)) mo in
      Some (if oid =? 0 then set_mo_used 1 mo else mo)
    else if mtype =? MT_DIRENTRY then
      let de name ino dirino := set_mo_data (DDirentry (mk_de name ino dirino)) in
      if mo_number mo =? 0 then Some (set_mo_used 1 (de (replicate 64 0) 0 INVALID_INO mo))
      else if mo_number mo =? 1 then
        PFS_ASSERT (strlen PFS_PAXOS_FILE <? 64) ;;
        Some (set_mo_used 1 (links JOURNAL_FILE_MONO 0 (de (strncpy PFS_PAXOS_FILE 64) 1 0 mo)))
      else if mo_number mo =? 2 then
        PFS_ASSERT (strlen PFS_JOURNAL_FILE <? 64) ;;
        Some (set_mo_used 1 (links 0 PAXOS_FILE_MONO (de (strncpy PFS_JOURNAL_FILE 64) 2 0 mo)))
      else Some (de (replicate 64 0) INVALID_INO INVALID_INO mo)
    else if mtype =? MT_INODE then
      let ino i := set_mo_data (DInode i (replicate 16 0)) in
      if mo_number mo =? 0 then
        Some (set_mo_used 1 (links PAXOS_FILE_MONO JOURNAL_FILE_MONO (ino (mk_in PFS_INODET_DIR 0 1 now) mo)))
      else if mo_number mo =? 1 then Some (set_mo_used 1 (links 0 0 (ino (mk_in PFS_INODET_FILE 1 1 INNER_FILE_BTIME) mo)))
      else if mo_number mo =? 2 then Some (set_mo_used 1 (links 0 0 (ino (mk_in PFS_INODET_FILE 2 1 INNER_FILE_BTIME) mo)))
      else Some (ino (mk_in PFS_INODET_NONE INVALID_DENO 0 0) mo)
    else None in
  Some (seal mo).

(** The page [fi] of a metaset. *)
Fixpoint page_init (n : nat) (mtype base oid : Z) : option (list pfs_metaobj_phy) :=
  match n with
  | O => Some []
  | S n =>
      let* mo := metaobj_init (zero_mo (MONO_MAKE base oid)) mtype oid in
      let* rest := page_init n mtype base (oid + 1) in
      Some (mo :: rest)
  end.
Fixpoint metaset_pages (n : nat) (mtype base nobj_perpage oid sectbda : Z) : io (Z * Z) :=
  match n with
  | O => mret (0, sectbda)
  | S n =>
      page ← io_lift (page_init (Z.to_nat nobj_perpage) mtype base oid);
      err ← pfsdev_pwrite (SObjs page) sectbda;
      if err <? 0 then mret (err, sectbda)
      else metaset_pages n mtype base nobj_perpage (oid + nobj_perpage) (sectbda + PBD_SECTOR_SIZE)
  end.
(** The error, the header of the metaset and the address behind it. *)
Definition metaset_init (ck_number mtype sectbda : Z) : io (Z * pfs_metaset_phy * Z) :=
  let ms_objsize := METAOBJ_SIZE in
  let ms_nsect := nobj_perchunk mtype * ms_objsize / PBD_SECTOR_SIZE in
  let ms := MkMsPhy sectbda ms_nsect ms_objsize in
  let nobj_perpage := PBD_SECTOR_SIZE / ms_objsize in
  let opcs := ffs (roundup_power2 (nobj_perchunk mtype)) - 1 in
  r ← metaset_pages (Z.to_nat ms_nsect) mtype (Z.shiftl ck_number opcs) nobj_perpage 0 sectbda;
  mret (fst r, ms, snd r).

Definition chunk_init (pbd_disksize pbd_chunksize ckno : Z) : io (Z * option pfs_chunk_phy) :=
  let sectbda := pbd_chunksize * ckno + PBD_SECTOR_SIZE in
  r ← metaset_init ckno MT_BLKTAG sectbda;
  let '(err, bt, sectbda) := r in
  if err <? 0 then mret (err, None) else
  r ← metaset_init ckno MT_DIRENTRY sectbda;
  let '(err, de, sectbda) := r in
  if err <? 0 then mret (err, None) else
  r ← metaset_init ckno MT_INODE sectbda;
  let '(err, ino, _) := r in
  if err <? 0 then mret (err, None) else
  let ck := MkCkPhy (chunk_magic_make ckno) pbd_chunksize PFS_BLOCK_SIZE PBD_SECTOR_SIZE ckno (wrap32 (pbd_disksize / pbd_chunksize))
              [MkMsPhy 0 0 0; bt; de; ino] 0 in
  mret (0, Some (set_checksum (chunk_crc ck) ck)).

Fixpoint make_chunks (n : nat) (pbd_disksize pbd_chunksize i : Z) : io Z :=
  match n with
  | O => mret 0
  | S n =>
      r ← chunk_init pbd_disksize pbd_chunksize i;
      match r with
      | (err, Some ck) =>
          err ← pfsdev_pwrite (SHead ck) (i * pbd_chunksize);
          if err <? 0 then mret err else make_chunks n pbd_disksize pbd_chunksize (i + 1)
      | (err, None) => mret err
      end
  end.
Definition pfs_make (pbd_disksize pbd_chunksize : Z) : io Z :=
  make_chunks (Z.to_nat (wrap32 (pbd_disksize / pbd_chunksize))) pbd_disksize pbd_chunksize 0.
End Make.

(** ** Loading (pfs_meta.cc) *)
(** An exit when something does not match. *)
Definition pfs_meta_check_chunk (ck : pfs_chunk_phy) : option unit :=
  let mismatch := negb (pck_checksum ck =? 0) && negb (pck_checksum ck =? chunk_crc ck) in
  let mismatch := mismatch || negb (chunk_magic_valid (pck_number ck) (pck_magic ck)) in
  let mismatch := mismatch || negb (pck_chunksize ck =? PBD_CHUNK_SIZE) in
  let mismatch := mismatch || negb (pck_sectsize ck =? PBD_SECTOR_SIZE) in
  if mismatch then None else Some tt.

Definition objs_of (s : sector) : list pfs_metaobj_phy := match s with SObjs mos => mos | _ => [] end.
(** One read: the sectors of [[bda, bda + rlen)] go to their buffers. *)
Definition read_frag (bda rlen : Z) (mem : Z -> list pfs_metaobj_phy) : io (Z * (Z -> list pfs_metaobj_phy)) := fun d =>
  let '(r, _, res) := next_res (dk_res d) in
  let d' := MkDisk (dk_sect d) res in
  if r <? 0 then Some ((r, mem), d')
  else Some ((0, fun b => if (bda <=? b) && (b <? bda + rlen) then objs_of (dk_sect d b) else mem b), d').
(** The loop over the fragments; each round reads a byte at least. *)
Fixpoint load_frags (n : nat) (bda rsum buflen : Z) (mem : Z -> list pfs_metaobj_phy) : io (Z * (Z -> list pfs_metaobj_phy)) :=
  if rsum <? buflen then
    match n with
    | O => fun _ => None
    | S n =>
        let rlen := Z.min (PFS_FRAG_SIZE - bda mod PFS_FRAG_SIZE) (buflen - rsum) in
        r ← read_frag bda rlen mem;
        let '(err, mem) := r in
        if err <? 0 then mret (err, mem) else load_frags n (bda + rlen) (rsum + rlen) buflen mem
    end
  else mret (0, mem).

Definition pfs_meta_load_set (ck : pfs_chunk_phy) (mtype : Z) (mem : Z -> list pfs_metaobj_phy)
    : io (Z * pfs_metaset * (Z -> list pfs_metaobj_phy)) :=
  physet ← io_lift (pck_physet ck !! Z.to_nat mtype);
  let ms_opps := ffs (pck_sectsize ck / pms_objsize physet) - 1 in
  let ms := MkMs mtype ms_opps (pms_sectbda physet) (pms_nsect physet) (pms_objsize physet) in
  io_assert (Z.shiftl (pms_objsize physet) ms_opps =? pck_sectsize ck);;
  io_assert (pck_sectsize ck mod METAOBJ_SIZE =? 0);;
  let buflen := pms_nsect physet * pck_sectsize ck in
  r ← load_frags (Z.to_nat buflen) (pms_sectbda physet) 0 buflen mem;
  err1 ← pfsdev_wait_io;
  mret (ERR_UPDATE (fst r) err1, ms, snd r).

Fixpoint pfs_metaset_check_crc (n : nat) (i : Z) (ms : pfs_metaset) (mem : Z -> list pfs_metaobj_phy) : option unit :=
  match n with
  | O => Some tt
  | S n =>
      let* _ := pfs_metaobj_check_crc_buf (mem (ms_sectbda ms + i * PBD_SECTOR_SIZE)) in
      pfs_metaset_check_crc n (i + 1) ms mem
  end.

(** The metasets of the types [t, t + 1, ...] of a chunk; their allocation
    leafs are built in [pfs_init_anode]. *)
Fixpoint load_sets (n : nat) (t : Z) (ck : pfs_chunk_phy) (sets : Z -> pfs_metaset) (mem : Z -> list pfs_metaobj_phy)
    : io (Z * (Z -> pfs_metaset) * (Z -> list pfs_metaobj_phy)) :=
  match n with
  | O => mret (0, sets, mem)
  | S n =>
      r ← pfs_meta_load_set ck t mem;
      let '(err, ms, mem) := r in
      if err <? 0 then mret (err, sets, mem) else
      io_lift (pfs_metaset_check_crc (Z.to_nat (ms_nsect ms)) 0 ms mem);;
      load_sets n (t + 1) ck (<[t := ms]> sets) mem
  end.

Definition no_set : pfs_metaset := MkMs MT_NONE 0 0 0 0.
Definition pfs_meta_load_chunk (mnt_nchunk ckid : Z) (mem : Z -> list pfs_metaobj_phy)
    : io (Z * option (pfs_chunk * pfs_chunk_phy) * (Z -> list pfs_metaobj_phy)) :=
  io_assert ((0 <=? mnt_nchunk) && (ckid <? mnt_nchunk));;
  r ← pfsdev_pread (ckid * PBD_CHUNK_SIZE);
  let '(err, s) := r in
  if err <? 0 then mret (- EIO, None, mem) else
  phyck ← io_lift (match s with SHead ck => Some ck | _ => None end);
  io_lift (pfs_meta_check_chunk phyck);;
  io_assert (pck_number phyck =? ckid);;
  r ← load_sets (Z.to_nat (MT_NTYPE - 1)) MT_BLKTAG phyck (fun _ => no_set) mem;
  let '(err, sets, mem) := r in
  mret (err, Some (MkCk (pck_number phyck) sets, phyck), mem).

(** The chunks of a mount by number, and the buffers. *)
Record loaded_meta := MkLoad { ld_chunkv : gmap Z (pfs_chunk * pfs_chunk_phy); ld_mem : Z -> list pfs_metaobj_phy }.
Definition put_chunk (ckid : Z) (ck : option (pfs_chunk * pfs_chunk_phy)) (mem : Z -> list pfs_metaobj_phy) (l : loaded_meta) : loaded_meta :=
  MkLoad (match ck with Some ck => <[ckid := ck]> (ld_chunkv l) | None => ld_chunkv l end) mem.

Fixpoint pfs_meta_loadtask_run (n : nat) (mnt_nchunk ckid : Z) (l : loaded_meta) : io (Z * loaded_meta) :=
  match n with
  | O => mret (0, l)
  | S n =>
      r ← pfs_meta_load_chunk mnt_nchunk ckid (ld_mem l);
      let '(err, ck, mem) := r in
      let l := put_chunk ckid ck mem l in
      if err <? 0 then mret (err, l) else pfs_meta_loadtask_run n mnt_nchunk (ckid + 1) l
  end.

(** The tasks of the load threads; they touch different chunks and are run
    one after the other. *)
Fixpoint run_tasks (n : nat) (i nstep nresd mnt_nchunk ckid err : Z) (l : loaded_meta) : io (Z * loaded_meta) :=
  match n with
  | O => mret (err, l)
  | S n =>
      let nck := if i <? nresd then nstep + 1 else nstep in
      r ← pfs_meta_loadtask_run (Z.to_nat nck) mnt_nchunk ckid l;
      run_tasks n (i + 1) nstep nresd mnt_nchunk (ckid + nck) (ERR_UPDATE err (fst r)) (snd r)
  end.
Definition pfs_meta_load_chunks_parallel (loadthread_count mnt_nchunk oldnck newnck : Z) (l : loaded_meta) : io (Z * loaded_meta) :=
  io_assert (oldnck <? newnck);;
  let nthrd := Z.max loadthread_count MIN_NTHRD in
  let nthrd := Z.min nthrd MAX_NTHRD in
  let nthrd := Z.min nthrd (newnck - oldnck) in
  run_tasks (Z.to_nat nthrd) 0 ((newnck - oldnck) / nthrd) ((newnck - oldnck) mod nthrd) mnt_nchunk oldnck 0 l.

Record geometry := MkGeom { gm_nchunk : Z; gm_blksize : Z; gm_sectsize : Z; gm_fragsize : Z; gm_disksize : Z }.
(** The number of chunks, an int in the code, and the addresses, of 64 bits,
    are not bounded here: volumes below 2^31 chunks and 16 EiB. *)
Definition pfs_meta_load_all_chunks (loadthread_count : Z) (g : geometry) (l : loaded_meta) : io (Z * geometry * loaded_meta) :=
  r ← pfsdev_pread 0;
  let '(err, s) := r in
  if err <? 0 then mret (err, g, l) else
  phyck ← io_lift (match s with SHead ck => Some ck | _ => None end);
  io_lift (pfs_meta_check_chunk phyck);;
  let nchunk := pck_nchunk phyck in
  let g := MkGeom (gm_nchunk g) (pck_blksize phyck) (pck_sectsize phyck) PFS_FRAG_SIZE (gm_disksize g) in
  if gm_nchunk g =? nchunk then mret (0, g, l) else
  io_assert (gm_nchunk g <? nchunk);;
  r ← pfs_meta_load_chunks_parallel loadthread_count nchunk (gm_nchunk g) nchunk l;
  mret (fst r, MkGeom nchunk (gm_blksize g) (gm_sectsize g) PFS_FRAG_SIZE (nchunk * PBD_CHUNK_SIZE), snd r).

(** ** Growing a volume (cmd_mkfs.cc) *)
Definition set_nchunk (v : Z) (ck : pfs_chunk_phy) : pfs_chunk_phy :=
  MkCkPhy (pck_magic ck) (pck_chunksize ck) (pck_blksize ck) (pck_sectsize ck) (pck_number ck) (wrap32 v) (pck_physet ck) (pck_checksum ck).
(** The headers of the chunks [n - 1, ..., 0]. *)
Fixpoint grow_headers (n : nat) (newcknum pbd_chunksize : Z) : io Z :=
  match n with
  | O => mret 0
  | S n =>
      r ← pfsdev_pread (Z.of_nat n * pbd_chunksize);
      let '(err, s) := r in
      if err <? 0 then mret err else
      phyck ← io_lift (match s with SHead ck => Some ck | _ => None end);
      io_lift (pfs_meta_check_chunk phyck);;
      let phyck := set_nchunk newcknum phyck in
      let phyck := set_checksum (chunk_crc phyck) phyck in
      err ← pfsdev_pwrite (SHead phyck) (Z.of_nat n * pbd_chunksize);
      if err <? 0 then mret err else grow_headers n newcknum pbd_chunksize
  end.
Definition pfs_grow (now pbd_disksize pbd_chunksize oldcknum newcknum : Z) : io Z :=
  err ← make_chunks now (Z.to_nat (newcknum - oldcknum)) pbd_disksize pbd_chunksize oldcknum;
  if err <? 0 then mret err else grow_headers (Z.to_nat oldcknum) newcknum pbd_chunksize.

(** ** Versions (pfs_version.cc) *)
(** The version on disk and the one to run with. *)
Definition pfs_version_select (istool : bool) (ck : pfs_chunk_phy) : Z * (Z * Z) :=
  let diskver := chunk_magic_version (pck_magic ck) in
  if pfs_current_version <? diskver then (- ENOTSUP, (diskver, 0))
  else (0, (diskver, if istool then diskver else pfs_current_version)).

Definition pfs_version_upgrade (istool writable : bool) (disk_version run_version : Z) (ck : pfs_chunk_phy) : io (Z * pfs_chunk_phy) :=
  io_assert (negb istool && writable);;
  io_assert (run_version =? pfs_current_version);;
  io_assert (disk_version <=? run_version);;
  if disk_version =? run_version then mret (0, ck) else
  let ck := set_magic (chunk_magic_make 0) ck in
  let ck := set_checksum (chunk_crc ck) ck in
  err ← pfsdev_pwrite (SHead ck) 0;
  mret (err, ck).
