(* ===== verification/FormatInv.v ===== *)
(** * Formatted volumes

    The layout of the chunks of a volume, that [pfs_make] writes it, that the
    loader reads it, and that [pfs_grow] adds to it. *)

From S2P Require Import Prelude Crc Alloc Object Tx Meta Blkio Blktable Inode Dir Format.

Open Scope pfs_scope.
#[local] Opaque crc32c_compute.

(** ** The layout *)
Definition set_nsect (t : Z) : Z := if t =? MT_BLKTAG then 80 else 64.
Definition set_off (t : Z) : Z := if t =? MT_BLKTAG then 1 else if t =? MT_DIRENTRY then 81 else 145.
Definition set_addr (i t : Z) : Z := PBD_CHUNK_SIZE * i + PBD_SECTOR_SIZE * set_off t.
Definition std_phy (i t : Z) : pfs_metaset_phy := MkMsPhy (set_addr i t) (set_nsect t) METAOBJ_SIZE.
Definition std_set (i t : Z) : pfs_metaset := MkMs t 5 (set_addr i t) (set_nsect t) METAOBJ_SIZE.
Definition std_physets (i : Z) : list pfs_metaset_phy := [MkMsPhy 0 0 0; std_phy i MT_BLKTAG; std_phy i MT_DIRENTRY; std_phy i MT_INODE].
(** The sectors of a chunk that hold its header and its meta data. *)
Definition meta_sects : Z := 209.

Definition mtype (t : Z) : Prop := t = MT_BLKTAG \/ t = MT_DIRENTRY \/ t = MT_INODE.

Record head_ok (i : Z) (ck : pfs_chunk_phy) : Prop := {
  hk_check : pfs_meta_check_chunk ck = Some tt;
  hk_number : pck_number ck = i;
  hk_blksize : pck_blksize ck = PFS_BLOCK_SIZE;
  hk_sectsize : pck_sectsize ck = PBD_SECTOR_SIZE;
  hk_sets : pck_physet ck = std_physets i }.
Definition page_ok (l : list pfs_metaobj_phy) : Prop := length l = 32%nat /\ pfs_metaobj_check_crc_buf l = Some tt.
Definition pages_ok (sect : Z -> sector) (i : Z) : Prop :=
  forall t fi, mtype t -> 0 <= fi < set_nsect t -> exists l, sect (set_addr i t + fi * PBD_SECTOR_SIZE) = SObjs l /\ page_ok l.
(** The chunk [i] is in place, in a volume of [n] chunks. *)
Definition chunk_at (sect : Z -> sector) (i n : Z) : Prop :=
  (exists ck, sect (i * PBD_CHUNK_SIZE) = SHead ck /\ head_ok i ck /\ pck_nchunk ck = n) /\ pages_ok sect i.

(** Two devices agree on the meta data of a chunk. *)
Definition in_chunk (i b : Z) : Prop := PBD_CHUNK_SIZE * i <= b < PBD_CHUNK_SIZE * i + PBD_SECTOR_SIZE * meta_sects.
Lemma pages_frame s s' i : (forall b, in_chunk i b -> b <> i * PBD_CHUNK_SIZE -> s' b = s b) -> pages_ok s i -> pages_ok s' i.
Proof.
  intros Hf Hp t fi Ht Hfi. destruct (Hp t fi Ht Hfi) as (l & Hl & Hok). exists l. split; [|done]. rewrite Hf; [done| |].
  - unfold in_chunk, set_addr, set_off, set_nsect, meta_sects, PBD_SECTOR_SIZE in *. destruct Ht as [->|[->| ->]]; cbn in *; lia.
  - unfold set_addr, set_off, set_nsect, PBD_SECTOR_SIZE in *. destruct Ht as [->|[->| ->]]; cbn in *; lia.
Qed.
Lemma chunk_frame s s' i n : (forall b, in_chunk i b -> s' b = s b) -> chunk_at s i n -> chunk_at s' i n.
Proof.
  intros Hf [(ck & Hck & Hok) Hp]. split; [|by eapply pages_frame; [|done]; auto].
  exists ck. split; [|done]. rewrite Hf; [done|]. unfold in_chunk, meta_sects, PBD_SECTOR_SIZE. lia.
Qed.

(** ** Runs *)
Definition quiet (d : disk) : Prop := Forall (fun r => 0 <= fst r) (dk_res d).

(** A write: no error, or the old or new contents. *)
Lemma sect_write_ok s b d : exists err d', pfsdev_pwrite s b d = Some (err, d') /\ err <= 0 /\
  (dk_sect d' = dk_sect d \/ dk_sect d' = <[b := s]> (dk_sect d)) /\ (err = 0 -> dk_sect d' = <[b := s]> (dk_sect d)) /\
  (quiet d -> err = 0 /\ quiet d').
Proof.
  unfold pfsdev_pwrite, quiet. destruct (next_res (dk_res d)) as [[r hit] res] eqn:E. eexists _, _. split; [done|]. simpl. split; [lia|].
  split; [destruct (_ || _); by auto|]. split.
  - intros Hr. assert (Hr0 : (0 <=? r) = true) by (apply Z.leb_le; lia). by rewrite Hr0.
  - intros Hq. destruct (dk_res d) as [|[r0 h0] res0]; simpl in E; injection E as <- <- <-; [done|]. inversion Hq; subst. simpl in *. split; [lia|done].
Qed.

(** ** Headers *)
Lemma chunk_crc_set ck v : length (pck_physet ck) = 4%nat -> chunk_crc (set_checksum v ck) = chunk_crc ck.
Proof.
  intros Hl. assert (Hlen : length (concat (metaset_phy_bytes <$> pck_physet ck)) = 64%nat).
  { by destruct (pck_physet ck) as [|a [|b [|c [|d [|]]]]]. }
  assert (Hh : length (head_bytes ck) = 112%nat) by (unfold head_bytes; rewrite !length_app, !length_le_bytes, length_replicate, Hlen; done).
  unfold chunk_crc, chunk_phy_bytes. rewrite !crc32c_compute_field by (done || apply length_le_bytes). done.
Qed.
Lemma check_chunk_ok ck : length (pck_physet ck) = 4%nat -> chunk_magic_valid (pck_number ck) (pck_magic ck) = true -> pck_chunksize ck = PBD_CHUNK_SIZE ->
  pck_sectsize ck = PBD_SECTOR_SIZE -> pfs_meta_check_chunk (set_checksum (chunk_crc ck) ck) = Some tt.
Proof.
  intros Hl Hm Hc Hs. unfold pfs_meta_check_chunk. rewrite chunk_crc_set by done. cbn [pck_checksum pck_number pck_magic pck_chunksize pck_sectsize set_checksum].
  by rewrite Hm, Hc, Hs, !Z.eqb_refl, andb_false_r.
Qed.
Lemma magic_make_valid i : chunk_magic_valid i (chunk_magic_make i) = true.
Proof. unfold chunk_magic_make. destruct (Z.eqb_spec i 0) as [->|Hne]; cbn [negb]; [reflexivity|]. unfold chunk_magic_valid. by rewrite Z.eqb_refl. Qed.

Lemma chunk_size_eq : PBD_CHUNK_SIZE = 10737418240.
Proof. done. Qed.
(** Addresses in terms of the sizes of chunks and sectors. *)
Ltac addr := unfold in_chunk, meta_sects, PBD_SECTOR_SIZE in *; rewrite ?chunk_size_eq in *; lia.

(** ** Making chunks *)
Section Make.
Context (now : Z).

Definition fresh_obj (t n oid : Z) : pfs_metaobj_phy := default (zero_mo n) (metaobj_init now (zero_mo n) t oid).
Lemma metaobj_init_ok t n oid : mtype t -> metaobj_init now (zero_mo n) t oid = Some (fresh_obj t n oid) /\
  pfs_metaobj_check_crc (fresh_obj t n oid) = Some tt.
Proof.
  intros Ht. assert (Hs : exists mo, metaobj_init now (zero_mo n) t oid = Some (seal mo)).
  { unfold metaobj_init. destruct Ht as [->|[->| ->]]; cbn [Z.eqb Pos.eqb MT_BLKTAG MT_DIRENTRY MT_INODE].
    - by eexists.
    - cbn [mo_number set_mo_type zero_mo]. destruct (n =? 0), (n =? 1), (n =? 2); by eexists.
    - cbn [mo_number set_mo_type zero_mo]. destruct (n =? 0), (n =? 1), (n =? 2); by eexists. }
  destruct Hs as [mo Hmo]. unfold fresh_obj. rewrite Hmo. split; [done|]. apply metaobj_check_seal.
Qed.

(** The objects [oid, ...] of a page. *)
Definition fresh_page (t base oid : Z) (n : nat) : list pfs_metaobj_phy := (fun o => fresh_obj t (MONO_MAKE base o) o) <$> seqZ oid (Z.of_nat n).
Lemma page_init_ok t base : mtype t -> forall n oid, page_init now n t base oid = Some (fresh_page t base oid n).
Proof.
  intros Ht. induction n as [|n IH]; intros oid; [done|]. cbn [page_init]. destruct (metaobj_init_ok t (MONO_MAKE base oid) oid Ht) as [-> _].
  rewrite IH. unfold fresh_page. rewrite Nat2Z.inj_succ, (seqZ_cons oid) by lia. by rewrite fmap_cons, Z.pred_succ.
Qed.
Lemma fresh_page_ok t base oid n : mtype t -> length (fresh_page t base oid n) = n /\ pfs_metaobj_check_crc_buf (fresh_page t base oid n) = Some tt.
Proof.
  intros Ht. split; [unfold fresh_page; rewrite length_fmap, length_seqZ; lia|]. unfold fresh_page. induction (seqZ oid (Z.of_nat n)) as [|o l IH]; [done|].
  rewrite fmap_cons. cbn [pfs_metaobj_check_crc_buf]. destruct (metaobj_init_ok t (MONO_MAKE base o) o Ht) as [_ ->]. done.
Qed.

(** The pages of a metaset are written one after the other, up to an error. *)
Lemma metaset_pages_ok t base npp : mtype t -> 0 <= npp -> forall n oid b d, exists err b' d', metaset_pages now n t base npp oid b d = Some ((err, b'), d') /\ err <= 0 /\
  (forall a, a < b \/ b + Z.of_nat n * PBD_SECTOR_SIZE <= a -> dk_sect d' a = dk_sect d a) /\
  (err = 0 -> b' = b + Z.of_nat n * PBD_SECTOR_SIZE /\ forall fi, 0 <= fi < Z.of_nat n ->
     dk_sect d' (b + fi * PBD_SECTOR_SIZE) = SObjs (fresh_page t base (oid + fi * npp) (Z.to_nat npp))) /\
  (quiet d -> err = 0 /\ quiet d').
Proof.
  intros Ht Hnpp. unfold PBD_SECTOR_SIZE. induction n as [|n IH]; intros oid b d.
  - eexists _, _, _. split; [done|]. split_and!; [lia|done|intros _; split; lia|done].
  - cbn [metaset_pages]. rewrite page_init_ok by done. unfold mbind at 1, io_bind at 1. simpl. unfold mbind at 1, io_bind at 1.
    destruct (sect_write_ok (SObjs (fresh_page t base oid (Z.to_nat npp))) b d) as (err & d1 & -> & Herr & Hold & Hnew & Hq).
    destruct (Z.ltb_spec err 0) as [Hlt|Hge].
    + eexists err, _, _. split; [done|]. split; [lia|]. split_and!; [|lia|intros Hqd; destruct (Hq Hqd); lia].
      intros a Ha. destruct Hold as [->| ->]; [done|]. apply fn_lookup_insert_ne. lia.
    + assert (err = 0) as -> by lia. destruct (IH (oid + npp) (b + 4096) d1) as (err2 & b2 & d2 & E & Herr2 & Hfr & Hok & Hq2). unfold PBD_SECTOR_SIZE. rewrite E.
      eexists _, _, _. split; [done|]. split; [done|]. split_and!.
      * intros a Ha. rewrite Hfr by lia. rewrite Hnew by done. apply fn_lookup_insert_ne. lia.
      * intros E0. destruct (Hok E0) as [-> Hp]. split; [lia|]. intros fi Hfi. destruct (decide (fi = 0)) as [->|Hne].
        -- rewrite Hfr by lia. rewrite Hnew by done. replace (b + 0 * 4096) with b by lia. rewrite fn_lookup_insert. f_equal; f_equal; ring.
        -- replace (b + fi * 4096) with (b + 4096 + (fi - 1) * 4096) by lia. rewrite Hp by lia. f_equal; f_equal; ring.
      * intros Hqd. destruct (Hq Hqd) as [_ Hq1]. by apply Hq2.
Qed.

(** The shift of the number of a chunk in the numbers of its objects. *)
Definition num_shift (t : Z) : Z := if t =? MT_BLKTAG then 12 else 11.
Definition fresh_chunk (sect : Z -> sector) (i : Z) : Prop :=
  forall t fi, mtype t -> 0 <= fi < set_nsect t ->
    sect (set_addr i t + fi * PBD_SECTOR_SIZE) = SObjs (fresh_page t (Z.shiftl i (num_shift t)) (fi * 32) 32).

Lemma metaset_init_eq i t b d : mtype t -> metaset_init now i t b d =
  match metaset_pages now (Z.to_nat (set_nsect t)) t (Z.shiftl i (num_shift t)) 32 0 b d with
  | Some (r, d') => Some ((fst r, MkMsPhy b (set_nsect t) METAOBJ_SIZE, snd r), d')
  | None => None
  end.
Proof. intros [->|[->| ->]]; reflexivity. Qed.
Lemma metaset_init_ok i t b d : mtype t -> exists err b' d', metaset_init now i t b d = Some ((err, MkMsPhy b (set_nsect t) METAOBJ_SIZE, b'), d') /\ err <= 0 /\
  (forall a, a < b \/ b + set_nsect t * PBD_SECTOR_SIZE <= a -> dk_sect d' a = dk_sect d a) /\
  (err = 0 -> b' = b + set_nsect t * PBD_SECTOR_SIZE /\ forall fi, 0 <= fi < set_nsect t ->
     dk_sect d' (b + fi * PBD_SECTOR_SIZE) = SObjs (fresh_page t (Z.shiftl i (num_shift t)) (fi * 32) 32)) /\
  (quiet d -> err = 0 /\ quiet d').
Proof.
  intros Ht. rewrite metaset_init_eq by done. assert (Hn : Z.of_nat (Z.to_nat (set_nsect t)) = set_nsect t) by (destruct Ht as [->|[->| ->]]; reflexivity).
  destruct (metaset_pages_ok t (Z.shiftl i (num_shift t)) 32 Ht ltac:(lia) (Z.to_nat (set_nsect t)) 0 b d) as (err & b' & d' & E & H1 & H2 & H3 & H4). rewrite Hn in *.
  rewrite E. by eexists err, b', d'.
Qed.

(** The header [chunk_init] makes. *)
Definition raw_head (disksize i : Z) : pfs_chunk_phy :=
  MkCkPhy (chunk_magic_make i) PBD_CHUNK_SIZE PFS_BLOCK_SIZE PBD_SECTOR_SIZE i (wrap32 (disksize / PBD_CHUNK_SIZE)) (std_physets i) 0.
Definition mk_head (disksize i : Z) : pfs_chunk_phy := set_checksum (chunk_crc (raw_head disksize i)) (raw_head disksize i).

Lemma chunk_init_ok disksize i d : exists err ck d', chunk_init now disksize PBD_CHUNK_SIZE i d = Some ((err, ck), d') /\ err <= 0 /\
  (forall a, a < PBD_CHUNK_SIZE * i + PBD_SECTOR_SIZE \/ PBD_CHUNK_SIZE * i + PBD_SECTOR_SIZE * meta_sects <= a -> dk_sect d' a = dk_sect d a) /\
  ck = (if err <? 0 then None else Some (mk_head disksize i)) /\ (err = 0 -> fresh_chunk (dk_sect d') i) /\ (quiet d -> err = 0 /\ quiet d').
Proof.
  unfold chunk_init. set (c := PBD_CHUNK_SIZE * i).
  assert (Hstep : forall t b dd, mtype t -> exists err b' d', metaset_init now i t b dd = Some ((err, MkMsPhy b (set_nsect t) METAOBJ_SIZE, b'), d') /\ err <= 0 /\
    (forall a, a < b \/ b + set_nsect t * 4096 <= a -> dk_sect d' a = dk_sect dd a) /\
    (err = 0 -> b' = b + set_nsect t * 4096 /\ forall fi, 0 <= fi < set_nsect t ->
       dk_sect d' (b + fi * 4096) = SObjs (fresh_page t (Z.shiftl i (num_shift t)) (fi * 32) 32)) /\ (quiet dd -> err = 0 /\ quiet d')) by (intros; by apply metaset_init_ok).
  unfold meta_sects, PBD_SECTOR_SIZE. unfold mbind at 1, io_bind at 1.
  destruct (Hstep MT_BLKTAG (c + 4096) d) as (e1 & b1 & d1 & -> & H1 & F1 & S1 & Q1); [by left|]. change (set_nsect MT_BLKTAG) with 80 in *.
  destruct (Z.ltb_spec e1 0) as [Hl1|Hl1].
  { eexists e1, None, d1. split; [done|]. rewrite (proj2 (Z.ltb_lt e1 0)) by done. split_and!; [done|intros; apply F1; lia|done|lia|intros Hq; destruct (Q1 Hq); lia]. }
  assert (e1 = 0) as -> by lia. destruct (S1 eq_refl) as [-> P1]. unfold mbind at 1, io_bind at 1.
  destruct (Hstep MT_DIRENTRY (c + 4096 + 80 * 4096) d1) as (e2 & b2 & d2 & -> & H2 & F2 & S2 & Q2); [by right; left|]. change (set_nsect MT_DIRENTRY) with 64 in *.
  destruct (Z.ltb_spec e2 0) as [Hl2|Hl2].
  { eexists e2, None, d2. split; [done|]. rewrite (proj2 (Z.ltb_lt e2 0)) by done. split_and!; [done|intros; rewrite F2, F1 by lia; done|done|lia|].
    intros Hq. destruct (Q1 Hq) as [_ Hq1], (Q2 Hq1). lia. }
  assert (e2 = 0) as -> by lia. destruct (S2 eq_refl) as [-> P2]. unfold mbind at 1, io_bind at 1.
  destruct (Hstep MT_INODE (c + 4096 + 80 * 4096 + 64 * 4096) d2) as (e3 & b3 & d3 & -> & H3 & F3 & S3 & Q3); [by right; right|]. change (set_nsect MT_INODE) with 64 in *.
  destruct (Z.ltb_spec e3 0) as [Hl3|Hl3].
  { eexists e3, None, d3. split; [done|]. rewrite (proj2 (Z.ltb_lt e3 0)) by done. split_and!; [done|intros; rewrite F3, F2, F1 by lia; done|done|lia|].
    intros Hq. destruct (Q1 Hq) as [_ Hq1], (Q2 Hq1) as [_ Hq2], (Q3 Hq2). lia. }
  assert (e3 = 0) as -> by lia. destruct (S3 eq_refl) as [-> P3].
  eexists 0, (Some (mk_head disksize i)), d3. split.
  { assert (Hps : [MkMsPhy 0 0 0; MkMsPhy (c + 4096) 80 METAOBJ_SIZE; MkMsPhy (c + 4096 + 80 * 4096) 64 METAOBJ_SIZE;
        MkMsPhy (c + 4096 + 80 * 4096 + 64 * 4096) 64 METAOBJ_SIZE] = std_physets i).
    { unfold std_physets, std_phy, set_addr, set_off, PBD_SECTOR_SIZE. fold c. cbn [Z.eqb Pos.eqb MT_BLKTAG MT_DIRENTRY MT_INODE set_nsect].
      replace (c + 4096 * 81) with (c + 4096 + 80 * 4096) by lia. replace (c + 4096 * 145) with (c + 4096 + 80 * 4096 + 64 * 4096) by lia.
      by replace (c + 4096 * 1) with (c + 4096) by lia. }
    by rewrite Hps. }
  split_and!; [done|intros; rewrite F3, F2, F1 by lia; done|done| |].
  - intros _ t fi [->|[->| ->]] Hfi; unfold set_addr, set_off, PBD_SECTOR_SIZE; fold c; cbn [Z.eqb Pos.eqb MT_BLKTAG MT_DIRENTRY MT_INODE set_nsect] in *.
    + rewrite F3, F2 by lia. replace (c + 4096 * 1) with (c + 4096) by lia. by apply P1.
    + rewrite F3 by lia. replace (c + 4096 * 81) with (c + 4096 + 80 * 4096) by lia. by apply P2.
    + replace (c + 4096 * 145) with (c + 4096 + 80 * 4096 + 64 * 4096) by lia. by apply P3.
  - intros Hq. destruct (Q1 Hq) as [_ Hq1], (Q2 Hq1) as [_ Hq2], (Q3 Hq2). done.
Qed.

Lemma mk_head_ok disksize i : head_ok i (mk_head disksize i).
Proof. split; try done. apply check_chunk_ok; [done|apply magic_make_valid|done..]. Qed.
Lemma fresh_pages sect i : fresh_chunk sect i -> pages_ok sect i.
Proof. intros Hf t fi Ht Hfi. eexists. split; [by apply Hf|]. by apply fresh_page_ok. Qed.
Definition new_chunk (disksize : Z) (sect : Z -> sector) (i : Z) : Prop := sect (i * PBD_CHUNK_SIZE) = SHead (mk_head disksize i) /\ fresh_chunk sect i.
Lemma new_chunk_at disksize sect i : new_chunk disksize sect i -> chunk_at sect i (wrap32 (disksize / PBD_CHUNK_SIZE)).
Proof. intros [Hh Hf]. split; [|by apply fresh_pages]. eexists. split; [done|]. split; [apply mk_head_ok|done]. Qed.

Lemma fresh_frame s s' i : (forall b, in_chunk i b -> b <> i * PBD_CHUNK_SIZE -> s' b = s b) -> fresh_chunk s i -> fresh_chunk s' i.
Proof.
  intros Hf Hp t fi Ht Hfi. rewrite Hf; [by apply Hp| |].
  - unfold in_chunk, set_addr, set_off, set_nsect, meta_sects, PBD_SECTOR_SIZE in *. destruct Ht as [->|[->| ->]]; cbn in *; lia.
  - unfold set_addr, set_off, set_nsect, PBD_SECTOR_SIZE in *. destruct Ht as [->|[->| ->]]; cbn in *; lia.
Qed.

Lemma make_chunks_ok disksize : forall n i d, exists err d', make_chunks now n disksize PBD_CHUNK_SIZE i d = Some (err, d') /\ err <= 0 /\
  (forall a, a < PBD_CHUNK_SIZE * i \/ PBD_CHUNK_SIZE * (i + Z.of_nat n) <= a -> dk_sect d' a = dk_sect d a) /\
  (err = 0 -> forall j, i <= j < i + Z.of_nat n -> new_chunk disksize (dk_sect d') j) /\ (quiet d -> err = 0 /\ quiet d').
Proof.
  induction n as [|n IH]; intros i d.
  { eexists 0, d. split_and!; try done. intros _ j Hj. lia. }
  cbn [make_chunks]. unfold mbind at 1, io_bind at 1. destruct (chunk_init_ok disksize i d) as (e1 & ck & d1 & -> & H1 & F1 & -> & S1 & Q1).
  destruct (Z.ltb_spec e1 0) as [Hl1|Hl1].
  { eexists e1, d1. split; [done|]. split_and!; [done|intros a Ha; apply F1; addr|lia|intros Hq; destruct (Q1 Hq); lia]. }
  assert (e1 = 0) as -> by lia. unfold mbind at 1, io_bind at 1.
  destruct (sect_write_ok (SHead (mk_head disksize i)) (i * PBD_CHUNK_SIZE) d1) as (e2 & d2 & -> & H2 & O2 & N2 & Q2).
  destruct (Z.ltb_spec e2 0) as [Hl2|Hl2].
  { eexists e2, d2. split; [done|]. split_and!; [done| |lia|intros Hq; destruct (Q1 Hq) as [_ Hq1], (Q2 Hq1); lia].
    intros a Ha. destruct O2 as [->| ->]; [apply F1; addr|]. rewrite fn_lookup_insert_ne by addr. apply F1. addr. }
  assert (e2 = 0) as -> by lia. destruct (IH (i + 1) d2) as (e3 & d3 & -> & H3 & F3 & S3 & Q3). eexists e3, d3. split; [done|]. split_and!; [done| | |].
  - intros a Ha. rewrite F3, N2, fn_lookup_insert_ne by (done || addr). apply F1. addr.
  - intros E3 j Hj. destruct (decide (j = i)) as [->|Hne]; [|apply S3; [done|lia]]. split.
    + rewrite F3 by addr. rewrite N2 by done. by rewrite fn_lookup_insert.
    + eapply (fresh_frame (dk_sect d1)); [|by apply S1]. intros b Hb Hb'. unfold in_chunk in Hb. rewrite F3, N2 by (done || addr). by rewrite fn_lookup_insert_ne.
  - intros Hq. destruct (Q1 Hq) as [_ Hq1], (Q2 Hq1) as [_ Hq2]. by apply Q3.
Qed.
End Make.

(** ** Loading *)
Lemma read_frag_ok bda rlen mem d : quiet d -> exists mem' d', read_frag bda rlen mem d = Some ((0, mem'), d') /\ dk_sect d' = dk_sect d /\ quiet d' /\
  forall b, mem' b = if (bda <=? b) && (b <? bda + rlen) then objs_of (dk_sect d b) else mem b.
Proof.
  intros Hq. unfold read_frag, quiet in *. destruct (dk_res d) as [|[r h] res]; simpl; [by eexists _, _|]. inversion Hq; subst. simpl in *.
  rewrite (proj2 (Z.ltb_ge r 0)) by lia. by eexists _, _.
Qed.
Lemma sect_read_ok b d : quiet d -> exists d', pfsdev_pread b d = Some ((0, dk_sect d b), d') /\ dk_sect d' = dk_sect d /\ quiet d'.
Proof.
  intros Hq. unfold pfsdev_pread, quiet in *. destruct (dk_res d) as [|[r h] res]; simpl; [by eexists|]. inversion Hq; subst. simpl in *.
  rewrite (proj2 (Z.leb_le 0 r)), Z.min_r by lia. by eexists.
Qed.
Lemma wait_ok d : quiet d -> exists d', pfsdev_wait_io d = Some (0, d') /\ dk_sect d' = dk_sect d /\ quiet d'.
Proof.
  intros Hq. unfold pfsdev_wait_io, quiet in *. destruct (dk_res d) as [|[r h] res]; simpl; [by eexists|]. inversion Hq; subst. simpl in *.
  rewrite Z.min_r by lia. by eexists.
Qed.
(** The fragments cover the metaset. *)
Lemma load_frags_ok n : forall bda rsum buflen mem d, quiet d -> buflen - rsum <= Z.of_nat n ->
  exists mem' d', load_frags n bda rsum buflen mem d = Some ((0, mem'), d') /\ dk_sect d' = dk_sect d /\ quiet d' /\
    forall b, mem' b = if (bda <=? b) && (b <? bda + (buflen - rsum)) then objs_of (dk_sect d b) else mem b.
Proof.
  induction n as [|n IH]; intros bda rsum buflen mem d Hq Hn; cbn [load_frags]; destruct (Z.ltb_spec rsum buflen) as [Hlt|Hge]; try lia.
  - eexists mem, d. split_and!; try done. intros b. rewrite (proj2 (andb_false_iff _ _)); [done|]. rewrite Z.leb_gt, Z.ltb_ge. lia.
  - set (rlen := Z.min _ _). assert (Hr : 1 <= rlen <= buflen - rsum).
    { unfold rlen. pose proof (Z.mod_pos_bound bda PFS_FRAG_SIZE ltac:(done)). lia. }
    unfold mbind, io_bind. destruct (read_frag_ok bda rlen mem d Hq) as (m1 & d1 & -> & Hd1 & Hq1 & Hm1). cbn [Z.ltb Z.compare].
    destruct (IH (bda + rlen) (rsum + rlen) buflen m1 d1 Hq1) as (m2 & d2 & -> & Hd2 & Hq2 & Hm2); [lia|]. eexists m2, d2.
    split_and!; [done|congruence|done|]. intros b. rewrite Hm2, Hm1, Hd1.
    destruct (Z.leb_spec bda b), (Z.ltb_spec b (bda + rlen)), (Z.leb_spec (bda + rlen) b), (Z.ltb_spec b (bda + rlen + (buflen - (rsum + rlen)))), (Z.ltb_spec b (bda + (buflen - rsum)));
      cbn [andb]; try done; lia.
  - eexists mem, d. split_and!; try done. intros b. rewrite (proj2 (andb_false_iff _ _)); [done|]. rewrite Z.leb_gt, Z.ltb_ge. lia.
Qed.

(** What the buffers hold after the sectors [[a, a + len)] are read. *)
Definition loads (sect : Z -> sector) (a len : Z) (mem mem' : Z -> list pfs_metaobj_phy) : Prop :=
  forall b, mem' b = if (a <=? b) && (b <? a + len) then objs_of (sect b) else mem b.
Lemma load_set_ok i ck t mem d : head_ok i ck -> mtype t -> quiet d -> exists mem' d', pfs_meta_load_set ck t mem d = Some ((0, std_set i t, mem'), d') /\
  dk_sect d' = dk_sect d /\ quiet d' /\ loads (dk_sect d) (set_addr i t) (set_nsect t * PBD_SECTOR_SIZE) mem mem'.
Proof.
  intros Hh Ht Hq. unfold pfs_meta_load_set. rewrite (hk_sets _ _ Hh), (hk_sectsize _ _ Hh).
  assert (Hl : std_physets i !! Z.to_nat t = Some (std_phy i t)) by (destruct Ht as [->|[->| ->]]; done). rewrite Hl.
  unfold mbind at 1, io_bind at 1, io_lift at 1. cbn [pms_sectbda pms_nsect pms_objsize std_phy].
  unfold mbind at 1, io_bind at 1, io_assert at 1. change (Z.shiftl METAOBJ_SIZE (ffs (PBD_SECTOR_SIZE / METAOBJ_SIZE) - 1) =? PBD_SECTOR_SIZE) with true. cbv iota.
  unfold mbind at 1, io_bind at 1, io_assert at 1. change (PBD_SECTOR_SIZE mod METAOBJ_SIZE =? 0) with true. cbv iota.
  unfold mbind at 1, io_bind at 1. destruct (load_frags_ok (Z.to_nat (set_nsect t * PBD_SECTOR_SIZE)) (set_addr i t) 0 (set_nsect t * PBD_SECTOR_SIZE) mem d Hq)
    as (m1 & d1 & -> & Hd1 & Hq1 & Hm1); [destruct Ht as [->|[->| ->]]; cbv [set_nsect PBD_SECTOR_SIZE]; lia|].
  unfold mbind, io_bind. destruct (wait_ok d1 Hq1) as (d2 & -> & Hd2 & Hq2). eexists m1, d2. split; [done|]. split_and!; [congruence|done|].
  intros b. rewrite Hm1. by rewrite Z.sub_0_r.
Qed.
Lemma metaset_crc_ok mem ms : forall n i, (forall fi, i <= fi < i + Z.of_nat n -> pfs_metaobj_check_crc_buf (mem (ms_sectbda ms + fi * PBD_SECTOR_SIZE)) = Some tt) ->
  pfs_metaset_check_crc n i ms mem = Some tt.
Proof.
  induction n as [|n IH]; intros i Hc; [done|]. cbn [pfs_metaset_check_crc]. rewrite Hc by lia. apply IH. intros fi Hfi. apply Hc. lia.
Qed.

Definition std_sets (i : Z) : Z -> pfs_metaset :=
  <[MT_INODE := std_set i MT_INODE]> (<[MT_DIRENTRY := std_set i MT_DIRENTRY]> (<[MT_BLKTAG := std_set i MT_BLKTAG]> (fun _ => no_set))).
Definition std_chunk (i : Z) : pfs_chunk := MkCk i (std_sets i).
Lemma std_sets_eq i t : mtype t -> std_sets i t = std_set i t.
Proof. intros [->|[->| ->]]; reflexivity. Qed.

(** One metaset: loaded, checked. *)
Lemma load_one_ok i ck t mem d (sets : Z -> pfs_metaset) n : head_ok i ck -> mtype t -> pages_ok (dk_sect d) i -> quiet d -> exists mem' d',
  load_sets (S n) t ck sets mem d = load_sets n (t + 1) ck (<[t := std_set i t]> sets) mem' d' /\
  dk_sect d' = dk_sect d /\ quiet d' /\ loads (dk_sect d) (set_addr i t) (set_nsect t * PBD_SECTOR_SIZE) mem mem'.
Proof.
  intros Hh Ht Hp Hq. destruct (load_set_ok i ck t mem d Hh Ht Hq) as (m1 & d1 & E & Hd1 & Hq1 & Hm1). eexists m1, d1. split_and!; [|done..].
  cbn [load_sets]. unfold mbind at 1, io_bind at 1. rewrite E. cbn [Z.ltb Z.compare]. unfold mbind at 1, io_bind at 1, io_lift at 1.
  rewrite (metaset_crc_ok m1 (std_set i t)); [done|]. intros fi Hfi. cbn [ms_sectbda ms_nsect std_set] in *.
  assert (Hfi' : 0 <= fi < set_nsect t) by (destruct Ht as [->|[->| ->]]; cbv [set_nsect] in *; lia).
  destruct (Hp t fi Ht Hfi') as (l & Hl & _ & Hcrc). rewrite Hm1, Hl. unfold PBD_SECTOR_SIZE in *.
  rewrite (proj2 (Z.leb_le _ _)), (proj2 (Z.ltb_lt _ _)) by lia. done.
Qed.
(** The buffers of the chunk [i]. *)
Definition loads_chunk (sect : Z -> sector) (i : Z) (mem mem' : Z -> list pfs_metaobj_phy) : Prop :=
  loads sect (PBD_CHUNK_SIZE * i + PBD_SECTOR_SIZE) (PBD_SECTOR_SIZE * (meta_sects - 1)) mem mem'.

Lemma load_chunk_ok i n ncks mem d : chunk_at (dk_sect d) i ncks -> 0 <= i < n -> quiet d -> exists ck mem' d',
  pfs_meta_load_chunk n i mem d = Some ((0, Some (std_chunk i, ck), mem'), d') /\ dk_sect d (i * PBD_CHUNK_SIZE) = SHead ck /\
  dk_sect d' = dk_sect d /\ quiet d' /\ loads_chunk (dk_sect d) i mem mem'.
Proof.
  intros [(ck & Hck & Hh & _) Hp] Hi Hq. unfold pfs_meta_load_chunk. unfold mbind at 1, io_bind at 1, io_assert at 1.
  rewrite (proj2 (Z.leb_le 0 n)), (proj2 (Z.ltb_lt i n)) by lia. cbn [andb].
  unfold mbind at 1, io_bind at 1. destruct (sect_read_ok (i * PBD_CHUNK_SIZE) d Hq) as (d1 & -> & Hd1 & Hq1). rewrite Hck. cbn [Z.ltb Z.compare].
  unfold mbind at 1, io_bind at 1, io_lift at 1. unfold mbind at 1, io_bind at 1, io_lift at 1. rewrite (hk_check _ _ Hh).
  unfold mbind at 1, io_bind at 1, io_assert at 1. rewrite (hk_number _ _ Hh), Z.eqb_refl. unfold mbind at 1, io_bind at 1. change (Z.to_nat (MT_NTYPE - 1)) with 3%nat.
  destruct (load_one_ok i ck MT_BLKTAG mem d1 (fun _ => no_set) 2) as (m2 & d2 & -> & Hd2 & Hq2 & Hm2); [done|by left|by rewrite Hd1|done|].
  destruct (load_one_ok i ck MT_DIRENTRY m2 d2 (<[MT_BLKTAG := std_set i MT_BLKTAG]> (fun _ => no_set)) 1) as (m3 & d3 & E3 & Hd3 & Hq3 & Hm3); [done|by right; left|by rewrite Hd2, Hd1|done|].
  change (MT_BLKTAG + 1) with MT_DIRENTRY. rewrite E3.
  destruct (load_one_ok i ck MT_INODE m3 d3 (<[MT_DIRENTRY := std_set i MT_DIRENTRY]> (<[MT_BLKTAG := std_set i MT_BLKTAG]> (fun _ => no_set))) 0)
    as (m4 & d4 & E4 & Hd4 & Hq4 & Hm4); [done|by right; right|by rewrite Hd3, Hd2, Hd1|done|].
  change (MT_DIRENTRY + 1) with MT_INODE. rewrite E4. eexists ck, m4, d4. split; [done|]. split; [done|]. split; [congruence|]. split; [done|].
  intros b. rewrite Hm4, Hm3, Hm2. rewrite Hd3, Hd2, Hd1. unfold set_addr, set_off, meta_sects, PBD_SECTOR_SIZE.
  cbn [set_nsect Z.eqb Pos.eqb MT_BLKTAG MT_DIRENTRY MT_INODE]. set (c := PBD_CHUNK_SIZE * i).
  repeat match goal with |- context [?x <=? ?y] => destruct (Z.leb_spec x y) | |- context [?x <? ?y] => destruct (Z.ltb_spec x y) end; cbn [andb]; try done; lia.
Qed.

(** The chunks [[lo, hi)] are loaded; nothing else has changed since [l0]. *)
Record got (sect : Z -> sector) (lo hi : Z) (l0 l : loaded_meta) : Prop := {
  gt_chunk : forall j, lo <= j < hi -> exists ck, ld_chunkv l !! j = Some (std_chunk j, ck) /\ sect (j * PBD_CHUNK_SIZE) = SHead ck;
  gt_mem : forall j b, lo <= j < hi -> PBD_CHUNK_SIZE * j + PBD_SECTOR_SIZE <= b < PBD_CHUNK_SIZE * j + PBD_SECTOR_SIZE * meta_sects -> ld_mem l b = objs_of (sect b);
  gt_old : forall j, j < lo \/ hi <= j -> ld_chunkv l !! j = ld_chunkv l0 !! j;
  gt_old_mem : forall b, b < PBD_CHUNK_SIZE * lo \/ PBD_CHUNK_SIZE * hi <= b -> ld_mem l b = ld_mem l0 b }.
Lemma got_nil sect lo l : got sect lo lo l l.
Proof. split; try done; intros; lia. Qed.
Lemma got_next sect lo i l0 l ck mem' : lo <= i -> got sect lo i l0 l -> sect (i * PBD_CHUNK_SIZE) = SHead ck -> loads_chunk sect i (ld_mem l) mem' ->
  got sect lo (i + 1) l0 (put_chunk i (Some (std_chunk i, ck)) mem' l).
Proof.
  intros Hlo [H1 H2 H3 H4] Hck Hm. split; simpl.
  - intros j Hj. destruct (decide (j = i)) as [->|Hne]; [exists ck; by rewrite lookup_insert_eq|]. rewrite lookup_insert_ne by done. apply H1. lia.
  - intros j b Hj Hb. rewrite Hm. destruct (decide (j = i)) as [->|Hne].
    + rewrite (proj2 (Z.leb_le _ _)), (proj2 (Z.ltb_lt _ _)) by addr. done.
    + rewrite (proj2 (andb_false_iff _ _)); [apply (H2 j b); [lia|done]|]. rewrite Z.leb_gt, Z.ltb_ge. addr.
  - intros j Hj. rewrite lookup_insert_ne by lia. apply H3. lia.
  - intros b Hb. rewrite Hm, (proj2 (andb_false_iff _ _)); [apply H4; addr|]. rewrite Z.leb_gt, Z.ltb_ge. addr.
Qed.

Section Load.
Context (sect : Z -> sector) (ncks : Z -> Z) (lo total : Z) (l0 : loaded_meta).
Hypothesis Hlo : 0 <= lo.
Hypothesis Hat : forall j, lo <= j < total -> chunk_at sect j (ncks j).

Lemma loadtask_ok : forall n i l d, dk_sect d = sect -> quiet d -> lo <= i -> i + Z.of_nat n <= total -> got sect lo i l0 l ->
  exists l' d', pfs_meta_loadtask_run n total i l d = Some ((0, l'), d') /\ dk_sect d' = sect /\ quiet d' /\ got sect lo (i + Z.of_nat n) l0 l'.
Proof.
  induction n as [|n IH]; intros i l d Hd Hq Hi Hn Hg; [eexists l, d; split_and!; try done; by rewrite Z.add_0_r|].
  cbn [pfs_meta_loadtask_run]. unfold mbind at 1, io_bind at 1.
  destruct (load_chunk_ok i total (ncks i) (ld_mem l) d) as (ck & m1 & d1 & -> & Hck & Hd1 & Hq1 & Hm1); [rewrite Hd; apply Hat; lia|lia|done|]. cbn [Z.ltb Z.compare].
  rewrite Hd in *. destruct (IH (i + 1) (put_chunk i (Some (std_chunk i, ck)) m1 l) d1) as (l' & d' & -> & ? & ? & Hg'); [congruence|done|lia|lia|by apply got_next|].
  eexists l', d'. split_and!; try done. by replace (i + Z.of_nat (S n)) with (i + 1 + Z.of_nat n) by lia.
Qed.
(** The chunks the threads from [i] on take. *)
Definition tasks_size (n : nat) (i nstep nresd : Z) : Z := Z.of_nat n * nstep + Z.max 0 (Z.min (nresd - i) (Z.of_nat n)).
Lemma run_tasks_ok nstep nresd : 0 <= nstep -> forall n i ckid l d, dk_sect d = sect -> quiet d -> lo <= ckid -> ckid + tasks_size n i nstep nresd <= total ->
  got sect lo ckid l0 l ->
  exists l' d', run_tasks n i nstep nresd total ckid 0 l d = Some ((0, l'), d') /\ dk_sect d' = sect /\ quiet d' /\ got sect lo (ckid + tasks_size n i nstep nresd) l0 l'.
Proof.
  intros Hs. induction n as [|n IH]; intros i ckid l d Hd Hq Hc Hn Hg.
  { eexists l, d. split_and!; try done. replace (ckid + tasks_size 0 i nstep nresd) with ckid by (unfold tasks_size; lia). done. }
  cbn [run_tasks]. set (nck := if i <? nresd then nstep + 1 else nstep).
  assert (Hnck : 0 <= nck /\ tasks_size (S n) i nstep nresd = nck + tasks_size n (i + 1) nstep nresd) by (unfold nck, tasks_size; destruct (Z.ltb_spec i nresd); lia).
  destruct Hnck as [Hnck Hsz]. assert (0 <= tasks_size n (i + 1) nstep nresd) by (unfold tasks_size; lia). rewrite Hsz in *.
  unfold mbind at 1, io_bind at 1. destruct (loadtask_ok (Z.to_nat nck) ckid l d) as (l1 & d1 & -> & Hd1 & Hq1 & Hg1); [done|done|done|lia|done|]. rewrite Z2Nat.id in Hg1 by done.
  destruct (IH (i + 1) (ckid + nck) l1 d1) as (l2 & d2 & E2 & ? & ? & Hg2); [done|done|lia|lia|done|]. cbn [fst snd]. change (ERR_UPDATE 0 0) with 0. rewrite E2.
  eexists l2, d2. split_and!; try done. by rewrite Z.add_assoc.
Qed.
Lemma load_parallel_ok thr l d : lo < total -> dk_sect d = sect -> quiet d -> got sect lo lo l0 l ->
  exists l' d', pfs_meta_load_chunks_parallel thr total lo total l d = Some ((0, l'), d') /\ dk_sect d' = sect /\ quiet d' /\ got sect lo total l0 l'.
Proof.
  intros Hlt Hd Hq Hg. unfold pfs_meta_load_chunks_parallel. unfold mbind at 1, io_bind at 1, io_assert at 1. rewrite (proj2 (Z.ltb_lt lo total)) by done.
  set (nthrd := Z.min (Z.min (Z.max thr MIN_NTHRD) MAX_NTHRD) (total - lo)). assert (Hth : 0 < nthrd) by (unfold nthrd, MIN_NTHRD, MAX_NTHRD; lia).
  pose proof (Z.div_mod (total - lo) nthrd ltac:(lia)) as Hdm. pose proof (Z.mod_pos_bound (total - lo) nthrd Hth) as Hmod.
  assert (Hsz : tasks_size (Z.to_nat nthrd) 0 ((total - lo) / nthrd) ((total - lo) mod nthrd) = total - lo) by (unfold tasks_size; rewrite Z2Nat.id by lia; lia).
  destruct (run_tasks_ok ((total - lo) / nthrd) ((total - lo) mod nthrd) ltac:(apply Z.div_pos; lia) (Z.to_nat nthrd) 0 lo l d) as (l' & d' & -> & ? & ? & Hg');
    [done|done|done|lia|done|]. eexists l', d'. split_and!; try done. rewrite Hsz in Hg'. by replace (lo + (total - lo)) with total in Hg' by lia.
Qed.
End Load.

Lemma load_all_ok thr g l d n (ncks : Z -> Z) : quiet d -> 0 <= gm_nchunk g < n -> ncks 0 = n -> (forall j, 0 <= j < n -> chunk_at (dk_sect d) j (ncks j)) ->
  exists l' d', pfs_meta_load_all_chunks thr g l d = Some ((0, MkGeom n PFS_BLOCK_SIZE PBD_SECTOR_SIZE PFS_FRAG_SIZE (n * PBD_CHUNK_SIZE), l'), d') /\
    dk_sect d' = dk_sect d /\ quiet d' /\ got (dk_sect d) (gm_nchunk g) n l l'.
Proof.
  intros Hq Hg Hn Hat. destruct (Hat 0) as [(ck & Hck & Hh & Hnc) _]; [lia|]. unfold pfs_meta_load_all_chunks.
  unfold mbind at 1, io_bind at 1. destruct (sect_read_ok 0 d Hq) as (d1 & -> & Hd1 & Hq1). rewrite Z.mul_0_l in Hck. rewrite Hck. cbn [Z.ltb Z.compare].
  unfold mbind at 1, io_bind at 1, io_lift at 1. unfold mbind at 1, io_bind at 1, io_lift at 1. rewrite (hk_check _ _ Hh). cbn [gm_nchunk]. rewrite Hnc, Hn.
  rewrite (proj2 (Z.eqb_neq _ _)) by lia. unfold mbind at 1, io_bind at 1, io_assert at 1. rewrite (proj2 (Z.ltb_lt _ _)) by lia.
  unfold mbind, io_bind. destruct (load_parallel_ok (dk_sect d) ncks (gm_nchunk g) n l ltac:(lia) ltac:(intros j Hj; apply Hat; lia) thr l d1)
    as (l' & d' & -> & ? & ? & Hgot); [lia|done|done|apply got_nil|]. eexists l', d'. split; [|done].
  cbn [fst snd gm_blksize gm_sectsize]. by rewrite (hk_blksize _ _ Hh), (hk_sectsize _ _ Hh).
Qed.

(** ** Growing *)
Lemma check_chunk_inv ck : pfs_meta_check_chunk ck = Some tt ->
  chunk_magic_valid (pck_number ck) (pck_magic ck) = true /\ pck_chunksize ck = PBD_CHUNK_SIZE /\ pck_sectsize ck = PBD_SECTOR_SIZE.
Proof.
  unfold pfs_meta_check_chunk. destruct (_ && _); [done|]. destruct (chunk_magic_valid _ _); [|done]. cbn [negb orb].
  destruct (Z.eqb_spec (pck_chunksize ck) PBD_CHUNK_SIZE); [|done]. cbn [negb orb]. by destruct (Z.eqb_spec (pck_sectsize ck) PBD_SECTOR_SIZE).
Qed.
Lemma head_grow i ck n : head_ok i ck -> head_ok i (set_checksum (chunk_crc (set_nchunk n ck)) (set_nchunk n ck)).
Proof.
  intros [H1 H2 H3 H4 H5]. destruct (check_chunk_inv ck H1) as (Hm & Hc & Hs). split; try done. apply check_chunk_ok; try done. simpl. by rewrite H5.
Qed.
Lemma in_chunk_head i b j : in_chunk i b -> b = j * PBD_CHUNK_SIZE -> i = j.
Proof. intros Hb ->. addr. Qed.
(** The header of another chunk, or none, is written. *)
Lemma chunk_put sect i b s : b = i * PBD_CHUNK_SIZE -> forall j nj, i <> j -> chunk_at sect j nj -> chunk_at (<[b := s]> sect) j nj.
Proof. intros -> j nj Hne. apply chunk_frame. intros b Hb. apply fn_lookup_insert_ne. intros <-. apply Hne. symmetry. by eapply in_chunk_head. Qed.
Lemma chunk_put_head sect i n ck : head_ok i ck -> pck_nchunk ck = n -> pages_ok sect i -> chunk_at (<[i * PBD_CHUNK_SIZE := SHead ck]> sect) i n.
Proof.
  intros Hh Hn Hp. split; [exists ck; by rewrite fn_lookup_insert|]. eapply pages_frame; [|done]. intros b _ Hb. by apply fn_lookup_insert_ne.
Qed.

Lemma pread_any b d : exists err s d', pfsdev_pread b d = Some ((err, s), d') /\ err <= 0 /\ dk_sect d' = dk_sect d /\ (err = 0 -> s = dk_sect d b).
Proof.
  unfold pfsdev_pread. destruct (next_res (dk_res d)) as [[r hit] res]. eexists _, _, _. split; [done|]. split; [lia|]. split; [done|].
  intros Hr. by rewrite (proj2 (Z.leb_le 0 r)) by lia.
Qed.
Lemma grow_headers_ok new : forall n ncks d, (forall j, 0 <= j < Z.of_nat n -> chunk_at (dk_sect d) j (ncks j)) ->
  exists err d' ncks', grow_headers n new PBD_CHUNK_SIZE d = Some (err, d') /\ err <= 0 /\
    (forall b, (forall j, 0 <= j < Z.of_nat n -> b <> j * PBD_CHUNK_SIZE) -> dk_sect d' b = dk_sect d b) /\
    (forall j, 0 <= j < Z.of_nat n -> chunk_at (dk_sect d') j (ncks' j)) /\
    (forall j, 0 <= j < Z.of_nat n -> ncks' j = ncks j \/ ncks' j = wrap32 new) /\ (err = 0 -> forall j, 0 <= j < Z.of_nat n -> ncks' j = wrap32 new).
Proof.
  induction n as [|n IH]; intros ncks d Hat; [eexists 0, d, ncks; split_and!; try done; lia|]. cbn [grow_headers]. unfold mbind at 1, io_bind at 1.
  assert (Hstop : forall err d1, err < 0 -> dk_sect d1 = dk_sect d -> exists err0 d' ncks', Some (err, d1) = Some (err0, d') /\ err0 <= 0 /\
    (forall b, (forall j, 0 <= j < Z.of_nat (S n) -> b <> j * PBD_CHUNK_SIZE) -> dk_sect d' b = dk_sect d b) /\
    (forall j, 0 <= j < Z.of_nat (S n) -> chunk_at (dk_sect d') j (ncks' j)) /\
    (forall j, 0 <= j < Z.of_nat (S n) -> ncks' j = ncks j \/ ncks' j = wrap32 new) /\ (err0 = 0 -> forall j, 0 <= j < Z.of_nat (S n) -> ncks' j = wrap32 new)).
  { intros err d1 Herr Hd1. eexists err, d1, ncks. rewrite Hd1. split_and!; try done; [lia|by auto|lia]. }
  destruct (pread_any (Z.of_nat n * PBD_CHUNK_SIZE) d) as (e1 & s1 & d1 & -> & H1 & Hd1 & Hs1).
  destruct (Z.ltb_spec e1 0) as [Hl1|Hl1]; [by apply Hstop|]. assert (e1 = 0) as -> by lia. rewrite Hs1 by done.
  destruct (Hat (Z.of_nat n)) as [(ck & Hck & Hh & Hnc) Hp]; [lia|]. rewrite Hck. unfold mbind at 1, io_bind at 1, io_lift at 1.
  unfold mbind at 1, io_bind at 1, io_lift at 1. rewrite (hk_check _ _ Hh). cbn zeta. set (ck' := set_checksum _ _). assert (Hh' : head_ok (Z.of_nat n) ck') by (by apply head_grow).
  unfold mbind at 1, io_bind at 1. destruct (sect_write_ok (SHead ck') (Z.of_nat n * PBD_CHUNK_SIZE) d1) as (e2 & d2 & -> & H2 & O2 & N2 & _). rewrite Hd1 in *.
  assert (Hnew : chunk_at (<[Z.of_nat n * PBD_CHUNK_SIZE := SHead ck']> (dk_sect d)) (Z.of_nat n) (wrap32 new)) by (by apply chunk_put_head).
  set (sect1 := <[Z.of_nat n * PBD_CHUNK_SIZE := SHead ck']> (dk_sect d)) in *.
  assert (Hold : forall j, 0 <= j < Z.of_nat n -> chunk_at sect1 j (ncks j)) by (intros j Hj; eapply chunk_put; [done|lia|apply Hat; lia]).
  assert (Hfr : forall b, (forall j, 0 <= j < Z.of_nat (S n) -> b <> j * PBD_CHUNK_SIZE) -> sect1 b = dk_sect d b).
  { intros b Hb. apply fn_lookup_insert_ne. intros <-. apply (Hb (Z.of_nat n)); [lia|done]. }
  destruct (Z.ltb_spec e2 0) as [Hl2|Hl2].
  - destruct O2 as [O2|O2]; [by apply Hstop|]. eexists e2, d2, (<[Z.of_nat n := wrap32 new]> ncks). rewrite O2. split_and!; [done|lia|done| | |lia].
    + intros j Hj. destruct (decide (j = Z.of_nat n)) as [->|Hne]; [by rewrite fn_lookup_insert|]. rewrite fn_lookup_insert_ne by done. apply Hold. lia.
    + intros j Hj. destruct (decide (j = Z.of_nat n)) as [->|Hne]; [rewrite fn_lookup_insert; by right|]. rewrite fn_lookup_insert_ne by done. by left.
  - assert (e2 = 0) as -> by lia. pose proof (N2 eq_refl) as Hd2.
    destruct (IH ncks d2) as (e3 & d3 & ncks3 & -> & H3 & F3 & A3 & C3 & N3); [intros j Hj; rewrite Hd2; by apply Hold|].
    eexists e3, d3, (<[Z.of_nat n := wrap32 new]> ncks3). split_and!; [done|done| | | |].
    + intros b Hb. rewrite F3, Hd2 by (intros; apply Hb; lia). by apply Hfr.
    + intros j Hj. destruct (decide (j = Z.of_nat n)) as [->|Hne].
      * rewrite fn_lookup_insert. eapply (chunk_frame sect1); [|done]. intros b Hb. rewrite F3, Hd2; [done|]. intros j' Hj' ->. pose proof (in_chunk_head _ _ _ Hb eq_refl). lia.
      * rewrite fn_lookup_insert_ne by done. apply A3. lia.
    + intros j Hj. destruct (decide (j = Z.of_nat n)) as [->|Hne]; [rewrite fn_lookup_insert; by right|]. rewrite fn_lookup_insert_ne by done. apply C3. lia.
    + intros E j Hj. destruct (decide (j = Z.of_nat n)) as [->|Hne]; [by rewrite fn_lookup_insert|]. rewrite fn_lookup_insert_ne by done. apply N3; [done|lia].
Qed.

(** A volume of [n] chunks; the number of chunks counts in chunk 0 only. *)
Definition volume (sect : Z -> sector) (n : Z) : Prop := exists ncks, ncks 0 = n /\ forall j, 0 <= j < n -> chunk_at sect j (ncks j).
(** Nothing of the chunks below [n] but their headers differs. *)
Definition same_objs (n : Z) (sect sect' : Z -> sector) : Prop :=
  forall b, b < PBD_CHUNK_SIZE * n -> (forall j, 0 <= j < n -> b <> j * PBD_CHUNK_SIZE) -> sect' b = sect b.

Lemma volume_frame n s s' : (forall b, b < PBD_CHUNK_SIZE * n -> s' b = s b) -> volume s n -> volume s' n.
Proof.
  intros Hf (ncks & Hn & Hat). exists ncks. split; [done|]. intros j Hj. eapply chunk_frame; [|by apply Hat]. intros b Hb. apply Hf. addr.
Qed.
Lemma grow_ok now new old d : 0 < old < new -> new < 2 ^ 32 -> volume (dk_sect d) old ->
  exists err d' n, pfs_grow now (new * PBD_CHUNK_SIZE) PBD_CHUNK_SIZE old new d = Some (err, d') /\ err <= 0 /\
    (n = old \/ n = new) /\ (err = 0 -> n = new) /\ volume (dk_sect d') n /\ same_objs old (dk_sect d) (dk_sect d') /\
    (n = new -> forall j, old <= j < new -> fresh_chunk now (dk_sect d') j).
Proof.
  intros Hon Hnew Hvol. assert (Hw : wrap32 new = new) by (apply Z.mod_small; lia). unfold pfs_grow. unfold mbind at 1, io_bind at 1.
  destruct (make_chunks_ok now (new * PBD_CHUNK_SIZE) (Z.to_nat (new - old)) old d) as (e1 & d1 & -> & H1 & F1 & N1 & _).
  assert (Hlow : forall b, b < PBD_CHUNK_SIZE * old -> dk_sect d1 b = dk_sect d b) by (intros b Hb; apply F1; by left).
  pose proof (volume_frame _ _ _ Hlow Hvol) as Hvol1. destruct (Z.ltb_spec e1 0) as [Hl1|Hl1].
  { eexists e1, d1, old. split_and!; [done|lia|by left|lia|done| |lia]. intros b Hb _. by apply Hlow. }
  assert (e1 = 0) as -> by lia. destruct Hvol1 as (ncks & Hn & Hat).
  destruct (grow_headers_ok new (Z.to_nat old) ncks d1) as (e2 & d2 & ncks2 & -> & H2 & F2 & A2 & C2 & N2); rewrite ?Z2Nat.id in * by lia; [done|].
  rewrite Hw in *. eexists e2, d2, (ncks2 0). split; [done|]. split; [done|].
  assert (Hup : forall j b, old <= j -> in_chunk j b -> dk_sect d2 b = dk_sect d1 b) by (intros j b Hj Hb; apply F2; intros j' Hj'; addr).
  split; [rewrite <- Hn; apply C2; lia|]. split; [intros E; apply N2; [done|lia]|]. split_and!.
  - exists (fun j => if j <? old then ncks2 j else new). split; [by rewrite (proj2 (Z.ltb_lt 0 old)) by lia|].
    intros j Hj. destruct (Z.ltb_spec j old) as [Hjo|Hjo]; [apply A2; lia|].
    assert (j < new) by (destruct (C2 0) as [E|E]; [lia|rewrite E in Hj; lia|lia]).
    eapply chunk_frame; [intros b Hb; by apply (Hup j)|]. replace new with (wrap32 (new * PBD_CHUNK_SIZE / PBD_CHUNK_SIZE)).
    + apply (new_chunk_at now). apply N1; [done|lia].
    + rewrite Z.div_mul by done. by rewrite Hw.
  - intros b Hb Hne. rewrite F2 by done. by apply Hlow.
  - intros _ j Hj. eapply fresh_frame; [intros b Hb _; apply (Hup j); [lia|done]|]. apply N1; [done|lia].
Qed.
