(* ===== verification/FormatNs.v ===== *)
(** * The namespace of a formatted volume

    The object sets of a mount from the loaded chunks, and what they hold
    when the volume has just been made: the root directory with the paxos
    file and the journal. *)

From S2P Require Import Prelude Crc Alloc Object Tx LogIo Trim Log LogSem LogCirc LogInv Meta MetaInv Blkio Blktable Inode Dir DirBase DirName DirInv DirStep DirTree Format FormatInv.

Open Scope pfs_scope.
#[local] Opaque crc32c_compute.
#[local] Set Warnings "-register-all".

(** ** Object sets of the loaded chunks *)
Definition chunk_list (l : loaded_meta) (n : Z) : list pfs_chunk := omap (fun j => fst <$> ld_chunkv l !! j) (seqZ 0 n).
Definition mount_objs (chunkv : list pfs_chunk) (mem : Z -> list pfs_metaobj_phy) (t : Z) : gmap Z pfs_metaobj_phy :=
  map_imap (fun v _ => match locate chunkv t v with Some (b, i) => mem b !! i | None => None end)
    (gset_to_gmap tt (list_to_set (seqZ 0 (Z.of_nat (length chunkv) * 2 ^ csh chunkv t)))).
Definition mount_objset (chunkv : list pfs_chunk) (mem : Z -> list pfs_metaobj_phy) (t : Z) : option objset :=
  let* an := pfs_init_anode mem chunkv t in Some (MkSet (mount_objs chunkv mem t) an (csh chunkv t)).

Lemma mono_make_add j sh o : 0 <= sh -> 0 <= o < 2 ^ sh -> MONO_MAKE (Z.shiftl j sh) o = j * 2 ^ sh + o.
Proof.
  intros Hs Ho. unfold MONO_MAKE. rewrite <- Z.add_lor_land, Z.shiftl_mul_pow2 by done.
  assert (Z.land (j * 2 ^ sh) o = 0) as ->; [|lia]. rewrite <- Z.shiftl_mul_pow2, Z.land_comm by done. apply Z.bits_inj'. intros k Hk.
  rewrite Z.land_spec, Z.bits_0. destruct (Z.ltb_spec k sh); [by rewrite Z.shiftl_spec_low, andb_false_r|].
  rewrite <- (Z.mod_small o (2 ^ sh)) by done. by rewrite Z.mod_pow2_bits_high by lia.
Qed.

Section Objects.
Context (chunkv : list pfs_chunk) (mem : Z -> list pfs_metaobj_phy).
Hypothesis Hcv : chunkv_ok chunkv.
Hypothesis Hld : loaded chunkv mem.

Lemma mount_objs_lookup t v mo : mount_objs chunkv mem t !! v = Some mo <-> exists b i, locate chunkv t v = Some (b, i) /\ mem b !! i = Some mo.
Proof.
  unfold mount_objs. rewrite map_lookup_imap, lookup_gset_to_gmap. split.
  - destruct (guard _); [|done]. simpl. destruct (locate chunkv t v) as [[b i]|]; [|done]. intros ?. by exists b, i.
  - intros (b & i & Hl & Hm). destruct (locate_inv _ Hcv _ _ _ _ Hl) as (Ht & Hv & ck & Hck & _).
    assert (Hp : 0 < 2 ^ csh chunkv t) by (apply Z.pow_pos_nonneg; [done|by apply csh_nonneg]).
    pose proof (lookup_lt_Some _ _ _ Hck) as Hlt. pose proof (Z.div_pos v _ Hv Hp). pose proof (Z.mod_pos_bound v _ Hp). pose proof (Z.div_mod v (2 ^ csh chunkv t)).
    rewrite option_guard_True; [simpl; by rewrite Hl|]. apply elem_of_list_to_set, elem_of_seqZ. nia.
Qed.

Lemma mount_objset_ok ty blank : is_mtype ty -> Z.of_nat (length chunkv) * 2 ^ csh chunkv ty <= 2 ^ 63 ->
  (forall v mo, mount_objs chunkv mem ty !! v = Some mo -> mo_ok ty blank v mo) ->
  exists os, mount_objset chunkv mem ty = Some os /\ os_objs os = mount_objs chunkv mem ty /\ os_ok ty blank os.
Proof.
  intros Ht Hmax Hmo. destruct (init_tree_full _ Hcv mem ty Ht Hld) as (an & E & Htr & Hch & Hloc). destruct Htr as [T1 T2 T3 T4].
  unfold mount_objset. rewrite E. eexists. split; [done|]. split; [done|].
  assert (Hp : 0 < 2 ^ csh chunkv ty) by (apply Z.pow_pos_nonneg; [done|by apply csh_nonneg]). split; simpl; try done.
  - intros v [mo (b & i & Hl & Hm)%mount_objs_lookup]. destruct (T3 _ _ _ Hl) as [Hget _]. eexists _, _. split; [done|].
    rewrite mono_make_add; [rewrite Z.mul_comm; symmetry; apply Z.div_mod; lia|by apply csh_nonneg|by apply Z.mod_pos_bound].
  - intros v Hf%obj_free_in; [|done]. destruct (Hloc v Hf) as [[b i] Hl]. destruct (locate_inv _ Hcv _ _ _ _ Hl) as (_ & Hv & ck & Hck & Hms & Ho & _ & -> & ->).
    destruct (slot_loaded mem _ _ Hms (Hld _ _ _ Hck Ht) Ho) as [mo Hm]. exists mo. apply mount_objs_lookup. by eexists _, _.
  - intros v mo Hv. pose proof Hv as (b & i & Hl & Hm)%mount_objs_lookup. destruct (T3 _ _ _ Hl) as [_ Hin].
    split; [done|]. split; [by eapply T4|]. split; [|by apply Hmo]. destruct (locate_inv _ Hcv _ _ _ _ Hl) as (_ & Hv0 & ck & Hck & _).
    pose proof (lookup_lt_Some _ _ _ Hck) as Hlt. pose proof (Z.div_pos v _ Hv0 Hp). pose proof (Z.mod_pos_bound v _ Hp). pose proof (Z.div_mod v (2 ^ csh chunkv ty)). nia.
Qed.
End Objects.

(** ** The standard layout *)
Lemma is_mtype_iff t : is_mtype t <-> mtype t.
Proof. unfold is_mtype, mtype, MT_NONE, MT_NTYPE, MT_BLKTAG, MT_DIRENTRY, MT_INODE. lia. Qed.
Definition std_chunks (n : Z) : list pfs_chunk := std_chunk <$> seqZ 0 n.
Lemma std_lookup n i ck : std_chunks n !! i = Some ck <-> ck = std_chunk (Z.of_nat i) /\ Z.of_nat i < n.
Proof.
  unfold std_chunks. rewrite list_lookup_fmap_Some. split.
  - intros (k & -> & [-> ?]%lookup_seqZ). split; [by rewrite Z.add_0_l|lia].
  - intros [-> Hi]. exists (Z.of_nat i). split; [done|]. apply lookup_seqZ. lia.
Qed.
Lemma std_ms i t : is_mtype t -> ck_metaset (std_chunk i) t = std_set i t.
Proof. intros Ht%is_mtype_iff. by apply std_sets_eq. Qed.
Lemma std_shift i t : is_mtype t -> ms_shift (std_set i t) = num_shift t.
Proof. intros [->|[->| ->]]%is_mtype_iff; reflexivity. Qed.
Lemma std_nobj i t : is_mtype t -> nobj (std_set i t) = 32 * set_nsect t /\ 32 * set_nsect t <= 2 ^ num_shift t /\ 0 < set_nsect t.
Proof. intros [->|[->| ->]]%is_mtype_iff; by vm_compute. Qed.
Lemma std_addr i t si : sect_addr (std_set i t) si = set_addr i t + si * PBD_SECTOR_SIZE.
Proof. reflexivity. Qed.
Lemma std_csh n t : 0 < n -> is_mtype t -> csh (std_chunks n) t = num_shift t.
Proof.
  intros Hn Ht. unfold csh, std_chunks. rewrite seqZ_cons by done. rewrite fmap_cons. cbn [head]. by rewrite std_ms, std_shift.
Qed.
Lemma std_chunkv_ok n : 0 < n < 2 ^ 31 -> chunkv_ok (std_chunks n).
Proof.
  intros Hn. split.
  - unfold std_chunks. rewrite seqZ_cons by lia. done.
  - unfold std_chunks. rewrite length_fmap, length_seqZ. lia.
  - by intros i ck [-> _]%std_lookup.
  - intros i ck t [-> _]%std_lookup Ht. rewrite std_ms by done. destruct (std_nobj (Z.of_nat i) t Ht) as (E & _ & ?). split; simpl; [lia|done|].
    rewrite E. apply is_mtype_iff in Ht as [->|[->| ->]]; by vm_compute.
  - intros i ck t [-> _]%std_lookup Ht. by rewrite std_ms, std_shift, std_csh by (done || lia).
  - intros i ck t si i' ck' t' si' [-> Hi]%std_lookup [-> Hi']%std_lookup Ht Ht'. rewrite !std_ms, !std_addr by done. cbn [std_set ms_nsect].
    apply is_mtype_iff in Ht as [->|[->| ->]]; apply is_mtype_iff in Ht' as [->|[->| ->]]; unfold set_addr, set_off, set_nsect; cbn [Z.eqb Pos.eqb MT_BLKTAG MT_DIRENTRY MT_INODE]; intros; addr.
Qed.

Section Fresh.
Context (now n : Z) (sect : Z -> sector) (mem : Z -> list pfs_metaobj_phy).
Hypothesis Hn : 0 < n < 2 ^ 31.
Hypothesis Hfresh : forall j, 0 <= j < n -> fresh_chunk now sect j.
Hypothesis Hmem : forall j b, 0 <= j < n -> PBD_CHUNK_SIZE * j + PBD_SECTOR_SIZE <= b < PBD_CHUNK_SIZE * j + PBD_SECTOR_SIZE * meta_sects -> mem b = objs_of (sect b).

Lemma fresh_mem j t fi : 0 <= j < n -> mtype t -> 0 <= fi < set_nsect t ->
  mem (set_addr j t + fi * PBD_SECTOR_SIZE) = fresh_page now t (Z.shiftl j (num_shift t)) (fi * 32) 32.
Proof.
  intros Hj Ht Hfi. rewrite (Hmem j), (Hfresh j Hj t fi) by (done || (unfold set_addr, set_off, set_nsect in *; destruct Ht as [->|[->| ->]]; cbn [Z.eqb Pos.eqb MT_BLKTAG MT_DIRENTRY MT_INODE] in *; addr)). done.
Qed.
Lemma fresh_loaded : loaded (std_chunks n) mem.
Proof.
  intros i ck t [-> Hi]%std_lookup Ht si Hsi. rewrite std_ms in * by done. rewrite std_addr, fresh_mem by (done || lia || by apply is_mtype_iff).
  by apply fresh_page_ok, is_mtype_iff.
Qed.
Lemma fresh_lookup t v mo : is_mtype t -> mount_objs (std_chunks n) mem t !! v = Some mo <->
  0 <= v < n * 2 ^ num_shift t /\ v mod 2 ^ num_shift t < 32 * set_nsect t /\ mo = fresh_obj now t v (v mod 2 ^ num_shift t).
Proof.
  intros Ht. rewrite mount_objs_lookup by (by apply std_chunkv_ok). pose proof (std_csh n t ltac:(lia) Ht) as Hcs.
  assert (Hp : 0 < 2 ^ num_shift t) by (apply is_mtype_iff in Ht as [->|[->| ->]]; by vm_compute).
  pose proof (Z.mod_pos_bound v _ Hp) as Hmod. pose proof (Z.div_mod v (2 ^ num_shift t) ltac:(lia)) as Hdm.
  destruct (std_nobj (v / 2 ^ num_shift t) t Ht) as (Hno & Hle & Hpos).
  assert (Hobj : forall j, 0 <= j < n -> 0 <= v mod 2 ^ num_shift t < 32 * set_nsect t -> j = v / 2 ^ num_shift t ->
    mem (set_addr j t + (v mod 2 ^ num_shift t / 32) * PBD_SECTOR_SIZE) !! Z.to_nat (v mod 2 ^ num_shift t mod 32) = Some (fresh_obj now t v (v mod 2 ^ num_shift t))).
  { intros j Hj Ho Hjv. set (o := v mod 2 ^ num_shift t) in *. pose proof (Z.div_mod o 32 ltac:(lia)). pose proof (Z.mod_pos_bound o 32 ltac:(lia)).
    rewrite fresh_mem by (done || (by apply is_mtype_iff) || (split; [apply Z.div_pos; lia|apply Z.div_lt_upper_bound; lia])).
    unfold fresh_page. rewrite list_lookup_fmap, (proj2 (lookup_seqZ _ _ _ (o / 32 * 32 + o mod 32))) by lia. simpl. replace (o / 32 * 32 + o mod 32) with o by lia.
    rewrite mono_make_add by (lia || (apply is_mtype_iff in Ht as [->|[->| ->]]; by vm_compute)). do 2 f_equal. subst j. lia. }
  split.
  - intros (b & i & Hl & Hm). destruct (locate_inv _ (std_chunkv_ok n Hn) _ _ _ _ Hl) as (_ & Hv & ck & Hck & _ & Ho & _ & -> & ->). rewrite Hcs in *.
    apply std_lookup in Hck as [-> Hlt]. pose proof (Z.div_pos v _ Hv Hp) as Hd. rewrite Z2Nat.id in * by done. rewrite std_ms, Hno in * by done.
    rewrite std_addr in Hm. cbn [ms_opps std_set] in Hm. change (2 ^ 5) with 32 in Hm. rewrite Hobj in Hm by (done || lia). simplify_eq. split; [nia|]. split; [lia|done].
  - intros (Hv & Ho & ->). assert (Hd : 0 <= v / 2 ^ num_shift t < n) by (split; [apply Z.div_pos; lia|apply Z.div_lt_upper_bound; lia]).
    eexists _, _. split; [|apply (Hobj (v / 2 ^ num_shift t)); [done|lia|done]]. unfold locate. rewrite Hcs, (proj2 (Z.ltb_lt _ _) (proj1 Ht)), (proj2 (Z.ltb_lt _ _) (proj2 Ht)), (proj2 (Z.leb_le 0 v)) by lia. cbn [andb].
    rewrite (proj2 (std_lookup n (Z.to_nat (v / 2 ^ num_shift t)) (std_chunk (v / 2 ^ num_shift t)))) by (rewrite Z2Nat.id by lia; split; [done|lia]).
    rewrite std_ms by done. rewrite slot_eq; [|split; simpl; [lia|done|rewrite Hno; apply is_mtype_iff in Ht as [->|[->| ->]]; by vm_compute]|lia].
    rewrite Hno, (proj2 (Z.ltb_lt _ _)) by lia. done.
Qed.
End Fresh.

(** ** The first namespace *)
Definition first_tree (now : Z) : tree :=
  <[0 := MkNd PFS_INODET_DIR None [1; 2] 0 now]> (<[1 := MkNd PFS_INODET_FILE (Some (0, PFS_PAXOS_FILE)) [] 0 INNER_FILE_BTIME]>
    {[2 := MkNd PFS_INODET_FILE (Some (0, PFS_JOURNAL_FILE)) [] 0 INNER_FILE_BTIME]}).
Lemma init_cases now i nd : first_tree now !! i = Some nd ->
  (i = 0 /\ nd = MkNd PFS_INODET_DIR None [1; 2] 0 now) \/ (i = 1 /\ nd = MkNd PFS_INODET_FILE (Some (0, PFS_PAXOS_FILE)) [] 0 INNER_FILE_BTIME) \/
  (i = 2 /\ nd = MkNd PFS_INODET_FILE (Some (0, PFS_JOURNAL_FILE)) [] 0 INNER_FILE_BTIME).
Proof. unfold first_tree. intros [[<- <-]|[_ [[<- <-]|[_ [<- <-]%lookup_singleton_Some]]%lookup_insert_Some]]%lookup_insert_Some; by auto. Qed.
Ltac init_cases H := apply init_cases in H as [[-> ->] | [[-> ->] | [-> ->]]].

Lemma first_tree_ok mnt now : tree_ok mnt (first_tree now).
Proof.
  split.
  - by eexists.
  - intros i nd Hi. init_cases Hi; simpl; by auto.
  - intros d nd c Hd Hc. init_cases Hd; cbn [n_ents] in Hc; [|by apply elem_of_nil in Hc..].
    apply elem_of_cons in Hc as [->|Hc]; [|apply list_elem_of_singleton in Hc as ->]; by eexists _, _.
  - intros c nc d name Hc Hl. init_cases Hc; simplify_eq/=; (eexists; split; [done|]; split; [done|]); cbn [n_ents]; set_solver.
  - intros d nd Hd. init_cases Hd; cbn [n_ents]; [|constructor..]. by apply (bool_decide_unpack _).
  - intros i nd d name Hi Hl. init_cases Hi; simplify_eq/=; (split_and!; [split; [repeat constructor|]; done|done| |done|by left]); by apply (bool_decide_unpack _).
  - intros c c' nc nc' l Hc Hc' Hl Hl'. init_cases Hc; init_cases Hc'; by simplify_eq/=.
  - intros c nc Hc [[d name] Hl]. init_cases Hc; simplify_eq/=; eexists; (eapply chain_up; [done|done|constructor]).
  - intros d nd Hd Ht. init_cases Hd; by simplify_eq/=.
Qed.

Section Fresh_objects.
Context (now : Z).
Lemma fresh_common t v o : mtype t -> mo_number (fresh_obj now t v o) = v /\ mo_type (fresh_obj now t v o) = t.
Proof.
  unfold fresh_obj, metaobj_init. intros [->|[->| ->]]; cbn [Z.eqb Pos.eqb MT_BLKTAG MT_DIRENTRY MT_INODE mo_number set_mo_type zero_mo].
  - by destruct (o =? 0).
  - by destruct (v =? 0), (v =? 1), (v =? 2).
  - by destruct (v =? 0), (v =? 1), (v =? 2).
Qed.
Lemma fresh_free t v o : t = MT_DIRENTRY \/ t = MT_INODE -> v <> 0 -> v <> 1 -> v <> 2 -> let mo := fresh_obj now t v o in
  mo_used mo = 0 /\ mo_next mo = 0 /\ mo_prev mo = 0 /\ (if t =? MT_DIRENTRY then blank_de else blank_in) (mo_data mo).
Proof.
  unfold fresh_obj, metaobj_init. intros [->| ->] H0 H1 H2; cbn [Z.eqb Pos.eqb MT_BLKTAG MT_DIRENTRY MT_INODE mo_number set_mo_type zero_mo];
    rewrite !(proj2 (Z.eqb_neq _ _)) by done; split_and!; try done. by eexists _, _.
Qed.
End Fresh_objects.

(** The objects of a new volume represent it, whatever the name cache. *)
Section Namespace.
Context {C : Type} (c : C) (now : Z) (de ino : objset).
Hypothesis Hde_ok : de_ok de.
Hypothesis Hin_ok : in_ok ino.
Hypothesis Hde : forall v, v = 0 \/ v = 1 \/ v = 2 -> exists o, os_objs de !! v = Some (fresh_obj now MT_DIRENTRY v o).
Hypothesis Hin : forall v, v = 0 \/ v = 1 \/ v = 2 -> exists o, os_objs ino !! v = Some (fresh_obj now MT_INODE v o).
Hypothesis Hde_free : forall v mo, os_objs de !! v = Some mo -> mo_used mo = 1 -> v = 0 \/ v = 1 \/ v = 2.
Hypothesis Hin_free : forall v mo, os_objs ino !! v = Some mo -> mo_used mo = 1 -> v = 0 \/ v = 1 \/ v = 2.

Lemma first_rep : rep (MkD de ino c) (first_tree now) (fun i => i) (fun _ => []).
Proof.
  destruct (Hde 0) as [o0 E0]; [by auto|]. destruct (Hde 1) as [o1 E1]; [by auto|]. destruct (Hde 2) as [o2 E2]; [by auto|]. split; simpl; try done.
  - by eexists _, _.
  - intros i nd Hi. assert (Hi3 : i = 0 \/ i = 1 \/ i = 2) by (init_cases Hi; by auto). destruct (Hin i Hi3) as [o Eo]. eexists. split; [done|].
    init_cases Hi; (split; [done| |done]); by eexists _, _.
  - intros i mo Hi Hu. destruct (Hin_free i mo Hi Hu) as [->|[->| ->]]; by eexists.
  - intros i nd d name Hi Hl. init_cases Hi; simplify_eq/=; (split_and!; [done|done|done|]); eexists _, 0; (split_and!; [done|done|done|constructor]).
  - intros k mo Hk Hu. destruct (Hde_free k mo Hk Hu) as [->|[->| ->]]; [by left|right; exists 1|right; exists 2]; eexists; (split; [done|]; split; [by eexists|by left]).
  - intros d nd Hd. init_cases Hd; cbn [n_ents fmap list_fmap seg]; [|done..]. split; [by eexists|]. split; [by eexists|done].
  - intros d nd Hd. init_cases Hd; cbn [n_ents]; [|constructor..]. by apply (bool_decide_unpack _).
  - intros d nd i Hd Hi. init_cases Hd; cbn [n_ents] in Hi; [|by apply elem_of_nil in Hi..].
    apply elem_of_cons in Hi as [->|Hi]; [|apply list_elem_of_singleton in Hi as ->]; (eexists; split; [done|by eexists]).
  - intros d d' nd nd' i Hd Hd' Hi Hi'. init_cases Hd; cbn [n_ents] in Hi; [|by apply elem_of_nil in Hi..].
    init_cases Hd'; cbn [n_ents] in Hi'; [done|by apply elem_of_nil in Hi'..].
  - intros i nd Hi [[d name] Hl] Hno. exfalso. apply (Hno 0 (MkNd PFS_INODET_DIR None [1; 2] 0 now)); [done|]. init_cases Hi; simplify_eq/=; set_solver.
Qed.
End Namespace.

Lemma fresh_mo_ok now t v o : t = MT_DIRENTRY \/ t = MT_INODE ->
  mo_ok t (if t =? MT_DIRENTRY then blank_de else blank_in) v (fresh_obj now t v o) /\ (mo_used (fresh_obj now t v o) = 1 -> v = 0 \/ v = 1 \/ v = 2).
Proof.
  intros Ht. destruct (fresh_common now t v o) as [H1 H2]; [unfold mtype; tauto|].
  destruct (decide (v = 0 \/ v = 1 \/ v = 2)) as [Hv|Hv].
  - assert (Hu : mo_used (fresh_obj now t v o) = 1) by (destruct Ht as [->| ->], Hv as [->|[->| ->]]; done).
    split; [|done]. split; [done|done|by right|by rewrite Hu].
  - destruct (fresh_free now t v o Ht) as (Hu & ?); [lia..|]. split; [|by rewrite Hu]. split; [done|done|by left|done].
Qed.

(** What a mount finds on a volume just made. *)
Lemma first_mount {C} (c : C) now n sect l l0 : 0 < n < 2 ^ 31 -> (forall j, 0 <= j < n -> fresh_chunk now sect j) -> got sect 0 n l0 l ->
  exists de ino, mount_objset (chunk_list l n) (ld_mem l) MT_DIRENTRY = Some de /\ mount_objset (chunk_list l n) (ld_mem l) MT_INODE = Some ino /\
    rep (MkD de ino c) (first_tree now) (fun i => i) (fun _ => []).
Proof.
  intros Hn Hf Hg. assert (Hcl : chunk_list l n = std_chunks n).
  { unfold chunk_list, std_chunks. assert (Hall : forall j, j ∈ seqZ 0 n -> fst <$> ld_chunkv l !! j = Some (std_chunk j)).
    { intros j Hj%elem_of_seqZ. destruct (gt_chunk _ _ _ _ _ Hg j) as (ck & -> & _); [lia|done]. }
    induction (seqZ 0 n) as [|j js IH]; [done|]. cbn [omap list_omap]. rewrite fmap_cons, (Hall j) by left. f_equal. apply IH. intros k Hk. apply Hall. by right. }
  rewrite Hcl. pose proof (std_chunkv_ok n Hn) as Hcv. pose proof (fresh_loaded now n sect (ld_mem l) Hf (fun j b Hj Hb => gt_mem _ _ _ _ _ Hg j b Hj Hb)) as Hld.
  pose proof (fresh_lookup now n sect (ld_mem l) Hn Hf (fun j b Hj Hb => gt_mem _ _ _ _ _ Hg j b Hj Hb)) as Hlook.
  assert (Hset : forall t, t = MT_DIRENTRY \/ t = MT_INODE -> exists os, mount_objset (std_chunks n) (ld_mem l) t = Some os /\
    os_objs os = mount_objs (std_chunks n) (ld_mem l) t /\ os_ok t (if t =? MT_DIRENTRY then blank_de else blank_in) os).
  { intros t Ht. assert (Hm : is_mtype t) by (apply is_mtype_iff; unfold mtype; tauto). apply mount_objset_ok; try done.
    - rewrite std_csh by (done || lia). unfold std_chunks. rewrite length_fmap, length_seqZ, Z2Nat.id by lia. destruct Ht as [->| ->]; cbn; lia.
    - intros v mo (_ & _ & ->)%Hlook; [|done]. by apply fresh_mo_ok. }
  assert (Hsmall : forall t v, t = MT_DIRENTRY \/ t = MT_INODE -> v = 0 \/ v = 1 \/ v = 2 -> mount_objs (std_chunks n) (ld_mem l) t !! v = Some (fresh_obj now t v (v mod 2 ^ num_shift t))).
  { intros t v Ht Hv. apply Hlook; [apply is_mtype_iff; unfold mtype; tauto|]. destruct Ht as [->| ->], Hv as [->|[->| ->]]; (split_and!; [done|cbn; lia|done|done]). }
  assert (Hfree : forall t v mo, t = MT_DIRENTRY \/ t = MT_INODE -> mount_objs (std_chunks n) (ld_mem l) t !! v = Some mo -> mo_used mo = 1 -> v = 0 \/ v = 1 \/ v = 2).
  { intros t v mo Ht (_ & _ & ->)%Hlook; [by apply fresh_mo_ok|apply is_mtype_iff; unfold mtype; tauto]. }
  destruct (Hset MT_DIRENTRY) as (de & -> & Ede & Hde); [by left|]. destruct (Hset MT_INODE) as (ino & -> & Ein & Hin); [by right|].
  exists de, ino. split; [done|]. split; [done|]. apply first_rep; [done|done|..]; intros v; rewrite ?Ede, ?Ein.
  - intros Hv. eexists. apply Hsmall; by auto.
  - intros Hv. eexists. apply Hsmall; by auto.
  - intros mo. apply Hfree. by left.
  - intros mo. apply Hfree. by right.
Qed.
