(* ===== verification/FormatSpec.v ===== *)
(** * Formatting, loading and growing a volume

    The properties of [pfs_make], of the loader of the chunks and of
    [pfs_grow]. *)

From S2P Require Import Prelude Crc Alloc Object Tx LogIo Trim Log LogSem LogCirc LogInv Meta MetaInv Blkio Blktable Inode Dir DirBase DirName DirInv DirStep DirTree Format FormatInv FormatNs.

Open Scope pfs_scope.
#[local] Opaque crc32c_compute.
#[local] Set Warnings "-register-all".

(** The chunks are loaded by a mount that has none. *)
Definition no_meta : loaded_meta := MkLoad ∅ (fun _ => []).
Definition load_volume (loadthread_count : Z) (sect : Z -> sector) : option ((Z * geometry * loaded_meta) * disk) :=
  pfs_meta_load_all_chunks loadthread_count (MkGeom 0 0 0 0 0) no_meta (MkDisk sect []).
Definition std_geom (n : Z) : geometry := MkGeom n PFS_BLOCK_SIZE PBD_SECTOR_SIZE PFS_FRAG_SIZE (n * PBD_CHUNK_SIZE).

Lemma load_volume_ok thr sect n : 0 < n -> volume sect n -> exists l d, load_volume thr sect = Some ((0, std_geom n, l), d) /\ got sect 0 n no_meta l.
Proof.
  intros Hn (ncks & Hnc & Hat). destruct (load_all_ok thr (MkGeom 0 0 0 0 0) no_meta (MkDisk sect []) n ncks) as (l & d & E & _ & _ & Hg); [by constructor|simpl; lia|done|done|].
  exists l, d. split; [exact E|exact Hg].
Qed.
Lemma make_ok now n d : 0 < n < 2 ^ 32 -> quiet d ->
  exists d', pfs_make now (n * PBD_CHUNK_SIZE) PBD_CHUNK_SIZE d = Some (0, d') /\ volume (dk_sect d') n /\ forall j, 0 <= j < n -> fresh_chunk now (dk_sect d') j.
Proof.
  intros Hn Hq. assert (Hw : wrap32 (n * PBD_CHUNK_SIZE / PBD_CHUNK_SIZE) = n) by (rewrite Z.div_mul by done; apply Z.mod_small; lia).
  unfold pfs_make. rewrite Hw. destruct (make_chunks_ok now (n * PBD_CHUNK_SIZE) (Z.to_nat n) 0 d) as (err & d' & E & _ & _ & Hnew & Hz). destruct (Hz Hq) as [-> _].
  rewrite Z2Nat.id in Hnew by lia. exists d'. split; [done|]. split; [|intros j Hj; apply Hnew; [done|lia]].
  exists (fun _ => n). split; [done|]. intros j Hj. pose proof (new_chunk_at now _ _ j (Hnew eq_refl j ltac:(lia))) as Hc. by rewrite Hw in Hc.
Qed.

(** C20: a volume made by [pfs_make] on a device that reports no error loads
    with any number of load threads, and the objects the mount finds represent
    a well-formed namespace: the root directory with the paxos file and the
    journal, and every other entry and inode free. *)
Theorem mkfs_namespace {C} (c : C) (mnt : pfs_mount) (thr now n : Z) (d : disk) : 0 < n < 2 ^ 31 -> quiet d ->
  exists d' l d2 de ino, pfs_make now (n * PBD_CHUNK_SIZE) PBD_CHUNK_SIZE d = Some (0, d') /\
    load_volume thr (dk_sect d') = Some ((0, std_geom n, l), d2) /\
    mount_objset (chunk_list l n) (ld_mem l) MT_DIRENTRY = Some de /\ mount_objset (chunk_list l n) (ld_mem l) MT_INODE = Some ino /\
    rep (MkD de ino c) (first_tree now) (fun i => i) (fun _ => []) /\ tree_ok mnt (first_tree now).
Proof.
  intros Hn Hq. destruct (make_ok now n d) as (d' & Hmk & Hvol & Hf); [lia|done|].
  destruct (load_volume_ok thr _ n ltac:(lia) Hvol) as (l & d2 & Hld & Hg).
  destruct (first_mount c now n _ l no_meta Hn Hf Hg) as (de & ino & ? & ? & ?). exists d', l, d2, de, ino. split_and!; try done. apply first_tree_ok.
Qed.
Lemma mkfs_namespace_witness : exists d' l d2 de ino, pfs_make 1600000000 (3 * PBD_CHUNK_SIZE) PBD_CHUNK_SIZE (MkDisk (fun _ => SOther) []) = Some (0, d') /\
    load_volume 4 (dk_sect d') = Some ((0, std_geom 3, l), d2) /\
    mount_objset (chunk_list l 3) (ld_mem l) MT_DIRENTRY = Some de /\ mount_objset (chunk_list l 3) (ld_mem l) MT_INODE = Some ino /\
    rep (MkD de ino tt) (first_tree 1600000000) (fun i => i) (fun _ => []) /\ tree_ok (MkMnt ex_geo 2 true false 0 1 0) (first_tree 1600000000).
Proof. apply mkfs_namespace; [lia|by constructor]. Defined.

(** C21: growing a volume is all or nothing whatever requests fail: the volume
    on the device afterwards loads with the old or the new number of chunks, with
    the new one when [pfs_grow] reports success; the objects of the old chunks
    are those from before, and the volume can be grown again. *)
Theorem grow_atomic (thr now old new : Z) (d : disk) : 0 < old < new -> new < 2 ^ 32 -> volume (dk_sect d) old ->
  exists err d' n l d2, pfs_grow now (new * PBD_CHUNK_SIZE) PBD_CHUNK_SIZE old new d = Some (err, d') /\ err <= 0 /\
    (n = old \/ n = new) /\ (err = 0 -> n = new) /\ volume (dk_sect d') n /\ load_volume thr (dk_sect d') = Some ((0, std_geom n, l), d2) /\
    (forall j b, 0 <= j < old -> PBD_CHUNK_SIZE * j + PBD_SECTOR_SIZE <= b < PBD_CHUNK_SIZE * j + PBD_SECTOR_SIZE * meta_sects -> ld_mem l b = objs_of (dk_sect d b)) /\
    (n = new -> forall j, old <= j < new -> fresh_chunk now (dk_sect d') j).
Proof.
  intros Hon Hnew Hvol. destruct (grow_ok now new old d Hon Hnew Hvol) as (err & d' & n & Hgr & Herr & Hn & Hz & Hvol' & Hsame & Hf).
  destruct (load_volume_ok thr _ n ltac:(destruct Hn; lia) Hvol') as (l & d2 & Hld & Hg). exists err, d', n, l, d2. split_and!; try done.
  intros j b Hj Hb. rewrite (gt_mem _ _ _ _ _ Hg j b) by (done || (destruct Hn; lia)). f_equal. apply Hsame; [addr|]. intros j' Hj' ->. addr.
Qed.
Lemma grow_atomic_witness : exists d, volume (dk_sect d) 1 /\ exists err d' n l d2, pfs_grow 7 (3 * PBD_CHUNK_SIZE) PBD_CHUNK_SIZE 1 3 d = Some (err, d') /\ err <= 0 /\
    (n = 1 \/ n = 3) /\ (err = 0 -> n = 3) /\ volume (dk_sect d') n /\ load_volume 4 (dk_sect d') = Some ((0, std_geom n, l), d2) /\
    (forall j b, 0 <= j < 1 -> PBD_CHUNK_SIZE * j + PBD_SECTOR_SIZE <= b < PBD_CHUNK_SIZE * j + PBD_SECTOR_SIZE * meta_sects -> ld_mem l b = objs_of (dk_sect d b)) /\
    (n = 3 -> forall j, 1 <= j < 3 -> fresh_chunk 7 (dk_sect d') j).
Proof.
  destruct (make_ok 0 1 (MkDisk (fun _ => SOther) [])) as (d & _ & Hvol & _); [lia|by constructor|].
  exists (MkDisk (dk_sect d) [(0, true); (- EIO, true)]). split; [exact Hvol|]. apply grow_atomic; [lia|lia|exact Hvol].
Defined.

(** C28: a mount that knows [old] chunks of a volume that has grown to [new]
    loads the new chunks only; what it has of the old ones does not change. *)
Theorem growfs_loads_new (thr old new : Z) (g : geometry) (l : loaded_meta) (d : disk) : 0 <= old < new -> gm_nchunk g = old -> quiet d -> volume (dk_sect d) new ->
  exists l' d', pfs_meta_load_all_chunks thr g l d = Some ((0, std_geom new, l'), d') /\
    (forall j, old <= j < new -> exists ck, ld_chunkv l' !! j = Some (std_chunk j, ck)) /\
    (forall j b, old <= j < new -> PBD_CHUNK_SIZE * j + PBD_SECTOR_SIZE <= b < PBD_CHUNK_SIZE * j + PBD_SECTOR_SIZE * meta_sects -> ld_mem l' b = objs_of (dk_sect d b)) /\
    (forall j, j < old -> ld_chunkv l' !! j = ld_chunkv l !! j) /\ (forall b, b < PBD_CHUNK_SIZE * old -> ld_mem l' b = ld_mem l b).
Proof.
  intros Hon Hg Hq (ncks & Hn & Hat). destruct (load_all_ok thr g l d new ncks Hq ltac:(lia) Hn Hat) as (l' & d' & E & _ & _ & Hgot). rewrite Hg in Hgot.
  exists l', d'. split; [exact E|]. split_and!.
  - intros j Hj. destruct (gt_chunk _ _ _ _ _ Hgot j Hj) as (ck & ? & _). by exists ck.
  - intros j b Hj. by apply (gt_mem _ _ _ _ _ Hgot).
  - intros j Hj. apply (gt_old _ _ _ _ _ Hgot). by left.
  - intros b Hb. apply (gt_old_mem _ _ _ _ _ Hgot). by left.
Qed.
Lemma growfs_loads_new_witness : exists d, volume (dk_sect d) 2 /\ exists l' d', pfs_meta_load_all_chunks 8 (std_geom 1) no_meta d = Some ((0, std_geom 2, l'), d') /\
    (forall j, 1 <= j < 2 -> exists ck, ld_chunkv l' !! j = Some (std_chunk j, ck)) /\
    (forall j b, 1 <= j < 2 -> PBD_CHUNK_SIZE * j + PBD_SECTOR_SIZE <= b < PBD_CHUNK_SIZE * j + PBD_SECTOR_SIZE * meta_sects -> ld_mem l' b = objs_of (dk_sect d b)) /\
    (forall j, j < 1 -> ld_chunkv l' !! j = ld_chunkv no_meta !! j) /\ (forall b, b < PBD_CHUNK_SIZE * 1 -> ld_mem l' b = ld_mem no_meta b).
Proof.
  destruct (make_ok 0 2 (MkDisk (fun _ => SOther) [])) as (d & _ & Hvol & _); [lia|by constructor|].
  exists (MkDisk (dk_sect d) []). split; [exact Hvol|]. apply growfs_loads_new; [lia|done|by constructor|exact Hvol].
Defined.
