(* ===== verification/NsSpec.v ===== *)
(** * The namespace seen through paths

    What callers are promised: lookups resolve paths in the tree of names,
    whatever the name cache holds; an operation works on the nodes its path
    names when it takes its locks; sequences of calls refine the operations on
    the tree. *)

From S2P Require Import Prelude Format FormatInv FormatNs FormatSpec Alloc Object Blkio Blktable NameCache NameCacheInv NameCacheSpec Inode Dir DirBase DirName DirInv DirStep DirTree DirOps DirView Dx DxInv DxOps DxTx DxSteps DxRename Namei NameiInv NameiOps Memdir MemdirOps MemdirSpec MemdirRename Api ApiOps NsCache NsView.

Open Scope pfs_scope.

(** ** Lookup *)
Definition lookup_result mnt (t : tree) (ni : nameinfo) (oflags err : Z) (r : lookup_res) : Prop :=
  match resolve mnt t ni with
  | Found l => err = found_err t (ni_tgt_type ni) oflags l /\ ni_ino (lr_ni r) = top l /\ ni_broken_path (lr_ni r) = false /\
      (err = 0 -> lr_dirin r = Some (top (tail l)) /\ lr_tgtin r = Some (top l) /\ lr_type r = type_of t (top l))
  | Missing l name => err = - ENOENT /\ ni_broken_path (lr_ni r) = false /\ lr_dirin r = Some (top l) /\ lr_tgtin r = None /\ ni_srch_name (lr_ni r) = name
  | Wrong e => err = e /\ err < 0 /\ ni_broken_path (lr_ni r) = true
  end.
Lemma lookup_resolves_aux {N} `{NCacheLaws N} mnt pbd (s : dstate (N * mems)) t dn ni oflags : is_Some (pfs_version_has_features mnt PFS_FEATURE_EXTNAME) -> ns_ok mnt s t dn -> fresh_ni pbd ni ->
  (Z.land oflags O_CREAT <> 0 -> ni_tgt_type ni = PFS_INODET_DIR \/ ni_tgt_type ni = PFS_INODET_FILE) ->
  runs (pfs_namei_lookup mnt pbd ni oflags) s (fun x s' => ns_ok mnt s' t dn /\ lookup_result mnt t ni oflags (fst x) (snd x)).
Proof.
  intros Hf Hns Hfr Hcr. eapply lookup_ok; [done|done|done|done|]. unfold lookup_result. destruct (resolve mnt t ni) as [l|l name|e]; cbn [lookup_post fst snd].
  - intros r s' Hg Hat Hbr Hres. split; [apply Hg|]. split_and!; [done|apply Hat|done|]. intros E. by destruct (Hres E) as (? & ? & ? & _).
  - intros r s' Hg Hno _ Hbr Hdi Hti _. split; [apply Hg|]. split_and!; [done|done|done|done|apply Hno].
  - intros r s' l Hneg Hg _ _ Hbr. split; [apply Hg|]. by split_and!.
Qed.

(** ** Calls *)
Inductive fs_call :=
| Mkdir (path : list Z) (o : Z * list Z)
| Rmdir (path : list Z) (o : Z * list Z) (outcomes : list (Z * list Z))
| Create (path : list Z) (o : Z * list Z)      (** an open with [O_CREAT], up to the file *)
| Unlink (path : list Z) (o : Z * list Z)      (** up to the release of the file *)
| Rename (oldpath newpath : list Z) (o : Z * list Z)   (** up to the release of what was at the new path *)
| Access (path : list Z) (amode sync : Z).

Section Calls.
Context {N : Type} `{NCacheLaws N} (mnt : pfs_mount) (pbd : list Z) (now : Z) (wd : list Z).
Implicit Types (s : dstate (N * mems)) (t : tree).
Hypothesis Hfeat : is_Some (pfs_version_has_features mnt PFS_FEATURE_EXTNAME).
Hypothesis Hwd : absolute wd.
Hypothesis Hwdb : cstring wd.

Definition fs_do (c : fs_call) : dio (N * mems) Z :=
  match c with
  | Mkdir path o => _pfs_mkdir mnt pbd now wd path o
  | Rmdir path o outcomes => _pfs_rmdir mnt pbd wd path o outcomes
  | Create path o =>
      r ← get_mount_namei pbd wd path PFS_INODET_FILE;
      match r with inl err => mret err | inr ni => r ← pfs_memdir_xlookup mnt pbd now (fst o) (snd o) ni O_CREAT; mret (fst r) end
  | Unlink path o => unlink_name mnt pbd wd path o
  | Rename oldpath newpath o => rename_names mnt pbd now wd oldpath newpath o
  | Access path amode sync => _pfs_access mnt pbd now wd path amode sync
  end.
Definition call_wf (c : fs_call) : Prop :=
  match c with
  | Mkdir path o | Create path o | Unlink path o => cstring path /\ fst o <= 0
  | Rmdir path o outcomes => cstring path /\ fst o <= 0 /\ commits outcomes /\ no_again outcomes
  | Rename oldpath newpath o => cstring oldpath /\ cstring newpath /\ fst o <= 0
  | Access path _ sync => cstring path /\ sync <= 0
  end.

(** The operations on the tree. *)
Definition with_request (path : list Z) (type : Z) (P : nameinfo -> Z -> tree -> Prop) t (err : Z) t' : Prop :=
  match request_of pbd wd path type with inl e => err = e /\ t' = t | inr ni => P ni err t' end.
Definition fs_spec (c : fs_call) t (err : Z) t' : Prop :=
  match c with
  | Mkdir path o => mkdir_spec mnt pbd now t wd path (fst o) err t'
  | Rmdir path o outcomes => rmdir_spec mnt pbd t wd path (fst o) outcomes err t'
  | Create path o => with_request path PFS_INODET_FILE (fun ni err t' => exists i, lookup_spec mnt now t ni O_CREAT (fst o) err i t') t err t'
  | Unlink path o => with_request path PFS_INODET_FILE (fun ni err t' => remove_spec mnt t ni (fst o) err t') t err t'
  | Rename oldpath newpath o =>
      match pfs_namei_init wd oldpath PFS_INODET_NONE, pfs_namei_init wd newpath PFS_INODET_NONE with
      | Some (inl e), _ | Some (inr _), Some (inl e) => err = e /\ t' = t
      | Some (inr oldni), Some (inr newni) =>
          if bool_decide (ni_pbd oldni = ni_pbd newni) then if bool_decide (ni_pbd oldni = pbd) then rename_path_spec mnt t oldni newni (fst o) err t' else err = - ENODEV /\ t' = t
          else err = - EXDEV /\ t' = t
      | _, _ => False
      end
  | Access path amode sync =>
      t' = t /\
      if negb (amode =? F_OK) && (Z.land amode (Z.lor R_OK (Z.lor W_OK X_OK)) =? 0) then err = - EINVAL
      else match request_of pbd wd path PFS_INODET_NONE with
           | inl e => err = e
           | inr ni => err = if negb (sync =? 0) then (if amode =? F_OK then - ENOENT else - EACCES) else
                             match resolve mnt t ni with
                             | Found l => if found_err t (ni_tgt_type ni) 0 l <? 0 then (if amode =? F_OK then - ENOENT else - EACCES) else 0
                             | _ => if amode =? F_OK then - ENOENT else - EACCES
                             end
           end
  end.

Lemma fs_call_ok c s t dn : ns_ok mnt s t dn -> call_wf c -> runs (fs_do c) s (fun err s' => exists t' dn', fs_spec c t err t' /\ ns_ok mnt s' t' dn').
Proof.
  intros Hns. destruct c as [path o|path o outcomes|path o|path o|op np o|path amode sync]; cbn [fs_do call_wf fs_spec].
  - intros [Hp Ho]. eapply runs_mono; [by eapply mkdir_ok|]. intros err s' (t' & dn' & ? & ? & _). by exists t', dn'.
  - intros (Hp & Ho & Hc & Hn). eapply runs_mono; [by eapply rmdir_ok|]. intros err s' (t' & dn' & ? & ? & _). by exists t', dn'.
  - intros [Hp Ho]. unfold with_request. dstep. eapply get_namei_ok; [done..|]. destruct (request_of pbd wd path PFS_INODET_FILE) as [e|ni]; [intros _ _; apply runs_ret; by exists t, dn|]. intros Hfr Hty.
    dstep. eapply runs_mono; [eapply (xlookup_ok mnt pbd now s t dn); [done..|by intros _; destruct Hty; auto]|]. intros [err ni'] s' (t' & dn' & Hsp & ? & _). apply runs_ret. exists t', dn'. split; [by eexists|done].
  - intros [Hp Ho]. unfold unlink_name, with_request. dstep. eapply get_namei_ok; [done..|]. destruct (request_of pbd wd path PFS_INODET_FILE) as [e|ni]; [intros _ _; apply runs_ret; by exists t, dn|]. intros Hfr Hty.
    dstep. eapply runs_mono; [eapply (xremove_ok mnt pbd s t dn); done|]. intros [err ni'] s' (t' & dn' & Hsp & ? & _). apply runs_ret. by exists t', dn'.
  - intros (Hp & Hq & Ho). unfold rename_names. destruct (namei_init_ok wd op PFS_INODET_NONE Hwd Hwdb Hp) as (ro & Eo & Hro), (namei_init_ok wd np PFS_INODET_NONE Hwd Hwdb Hq) as (rn & En & Hrn). rewrite Eo, En.
    dstep. eapply runs_lift; [done|]. destruct ro as [e|oni]; [apply runs_ret; by exists t, dn|]. dstep. eapply runs_lift; [done|]. destruct rn as [e|nni]; [apply runs_ret; by exists t, dn|].
    case_bool_decide as E1; cbn [negb]; [|apply runs_ret; by exists t, dn]. case_bool_decide as E2; cbn [negb]; [|apply runs_ret; by exists t, dn].
    destruct Hro as [Hfo _], Hrn as [Hfn _]. rewrite <- E1, E2 in Hfn. rewrite E2 in Hfo. dstep. eapply runs_mono; [eapply (xrename_ok mnt pbd now s t dn); done|]. intros [err r] s' (t' & dn' & Hsp & ? & _). apply runs_ret. by exists t', dn'.
  - intros [Hp Hsy]. unfold _pfs_access. destruct (negb (amode =? F_OK) && _); [apply runs_ret; by exists t, dn|]. dstep. eapply get_namei_ok; [done..|]. destruct (request_of pbd wd path PFS_INODET_NONE) as [e|ni]; [intros _ _; apply runs_ret; by exists t, dn|].
    intros Hfr Hty. dstep. eapply runs_mono; [eapply (xlookup_ok mnt pbd now s t dn); done|]. intros [err ni'] s' (t' & dn' & Hsp & ? & _). apply runs_ret. exists t', dn'. split; [|done]. unfold lookup_spec in Hsp.
    change (negb (Z.land 0 O_CREAT =? 0)) with false in Hsp. cbn [fst snd negb andb] in *.
    destruct (Z.eqb_spec sync 0) as [->|Hs0]; cbn [negb] in *; [|destruct Hsp as [-> ->]; split; [done|by rewrite (proj2 (Z.eqb_neq _ _) Hs0)]].
    destruct (resolve mnt t ni) as [l|l name|e] eqn:Hres.
    + destruct Hsp as (-> & _ & ->). split; [done|]. pose proof (found_err_neg t (ni_tgt_type ni) 0 l). destruct (Z.ltb_spec (found_err t (ni_tgt_type ni) 0 l) 0); [|done]. by rewrite (proj2 (Z.eqb_neq _ 0)) by lia.
    + destruct Hsp as [-> ->]. done.
    + destruct Hsp as [-> ->]. split; [done|]. destruct (walk_wrong _ _ _ _ _ Hres) as [->|[->| ->]]; done.
Qed.

Fixpoint fs_run (cs : list fs_call) : dio (N * mems) (list Z) :=
  match cs with [] => mret [] | c :: cs => err ← fs_do c; errs ← fs_run cs; mret (err :: errs) end.
Inductive fs_specs : list fs_call -> tree -> list Z -> tree -> Prop :=
| fs_nil t : fs_specs [] t [] t
| fs_cons c cs t err t' errs t'' : fs_spec c t err t' -> fs_specs cs t' errs t'' -> fs_specs (c :: cs) t (err :: errs) t''.
Lemma fs_run_ok cs : forall s t dn, ns_ok mnt s t dn -> Forall call_wf cs -> runs (fs_run cs) s (fun errs s' => exists t' dn', fs_specs cs t errs t' /\ ns_ok mnt s' t' dn').
Proof.
  induction cs as [|c cs IH]; intros s t dn Hns Hcs; cbn [fs_run]; [apply runs_ret; exists t, dn; split; [constructor|done]|]. apply Forall_cons in Hcs as [Hc Hcs].
  dstep. eapply runs_mono; [by apply (fs_call_ok c s t dn)|]. intros err s1 (t1 & dn1 & Hsp & Hns1). dstep. eapply runs_mono; [by apply (IH s1 t1 dn1)|]. intros errs s2 (t2 & dn2 & Hsps & Hns2).
  apply runs_ret. exists t2, dn2. split; [by econstructor|done].
Qed.
End Calls.

(** ** Under the locks *)
Section Locks.
Context {N : Type} `{NCacheLaws N} (mnt : pfs_mount) (pbd : list Z).
Implicit Types (s : dstate (N * mems)) (t : tree).

(** The inodes of a stack are objects of the volume, and it keeps them in
    memory. *)
Definition held s (l : list Z) : Prop := (forall j, j ∈ l ++ [0] -> 0 <= j /\ is_Some (os_objs (ds_in s) !! j)) /\ on_mem s l.
(** The way to a node in [t0] is the way to the same node in [t], and it makes
    the same path. *)
Definition same_way t0 t (l : list Z) (type : Z) : Prop :=
  chain t (top l) l /\ (forall j, j ∈ l ++ [0] -> btime_of t j = btime_of t0 j) /\ full_path pbd t (top l) l = full_path pbd t0 (top l) l /\
  strlen (full_path pbd t (top l) l) < PFS_MAX_PATHLEN /\ type_fits type (type_of t (top l)).

Lemma held_wf s t0 l : held s l -> stk_wf s (stk_of pbd t0 l).
Proof.
  intros [Hv _]. split; [exists (btime_of t0 0); unfold stk_of, vec_of; cbn [s_vec]; by rewrite fmap_app, rev_app_distr|]. apply Forall_forall. intros e He. unfold stk_of, vec_of in He. cbn [s_vec] in He.
  rewrite list_elem_of_In, <- in_rev, <- list_elem_of_In in He. apply list_elem_of_fmap in He as (c & -> & Hc). by apply Hv.
Qed.
Lemma held_in s l d : held s l -> d ∈ 0 :: l -> is_Some (os_objs (ds_in s) !! d) /\ is_Some (s_ins s !! d).
Proof. intros [Hv Hm] Hd. split; [apply Hv; set_solver|by apply Hm]. Qed.
Lemma way_valid t0 t l l' type : stk_valid pbd t (stk_of pbd t0 l) type l' <-> l' = l /\ same_way t0 t l type.
Proof.
  unfold stk_valid, stk_of, same_way. cbn [s_vec s_path]. split.
  - intros (Hch & Hv & Hp & Hl & Hf). apply (f_equal (@rev _)) in Hv. rewrite !rev_involutive in Hv. unfold vec_of in Hv. assert (El : l = l').
    { apply (f_equal (fmap fst)) in Hv. rewrite <- !list_fmap_compose in Hv. unfold compose in Hv. cbn [fst] in Hv. rewrite !list_fmap_id in Hv. by apply app_inj_2 in Hv as [? _]. }
    subst l'. split_and!; [done|done| |done|done|done]. intros j Hj. apply list_elem_of_lookup in Hj as [n Hn]. apply (f_equal (.!! n)) in Hv. rewrite !list_lookup_fmap, Hn in Hv. cbn in Hv. congruence.
  - intros [-> (Hch & Hb & Hp & Hl & Hf)]. split_and!; [done| |done|done|done]. f_equal. unfold vec_of. apply list_fmap_ext. intros n j Hj. f_equal. symmetry. apply Hb. by eapply list_elem_of_lookup_2.
Qed.
Lemma top_in l : top l ∈ 0 :: l.
Proof. destruct l; cbn [top]; set_solver. Qed.
Lemma top_tail_in l : top (tail l) ∈ 0 :: l.
Proof. destruct l as [|c [|c' l]]; cbn [tail top]; set_solver. Qed.
End Locks.

(** ** The example volume: just made, its cache empty *)
Definition ex_fs : pfs_mount := MkMnt ex_geo 2 true false 0 1 0.
Definition ex_pbd : list Z := [118; 48].                                  (** "v0" *)
Definition ex_malloc (c : ncstate) : Z := fresh (dom (nc_heap c) : gset Z).
Lemma ex_malloc_ok c : nc_heap c !! ex_malloc c = None.
Proof. apply (not_elem_of_dom (D := gset Z)). unfold ex_malloc. apply is_fresh. Qed.
Definition ex_opts (enable : bool) : ncopts := MkOpts 16 enable 100000 200.
Definition ex_ops (enable : bool) : NCacheOps ncstate := nc_ops (ex_opts enable) 0 (fun _ => 0) ex_malloc.
Lemma ex_max enable : 0 <= get_nc_max (ex_opts enable).
Proof. by vm_compute. Qed.
Definition ex_laws (enable : bool) : NCacheLaws ncstate (H := ex_ops enable) := nc_laws (ex_opts enable) 0 (fun _ => 0) ex_malloc (ex_max enable) ex_malloc_ok.
#[local] Instance ex_ops_on : NCacheOps ncstate := ex_ops true.
#[local] Instance ex_laws_on : NCacheLaws ncstate := ex_laws true.

Definition new_ins (l : list Z) : gmap Z dinode := foldr (fun j m => <[j := new_dinode]> m) ∅ l.
Lemma new_ins_in l j : j ∈ l -> is_Some (new_ins l !! j).
Proof. induction l as [|x l IH]; intros Hj; [by apply elem_of_nil in Hj|]. cbn [new_ins foldr]. destruct (decide (x = j)) as [->|Hne]; [rewrite lookup_insert_eq; by eexists|rewrite lookup_insert_ne by done; apply IH; set_solver]. Qed.
Lemma new_ins_spec l j dj : new_ins l !! j = Some dj -> j ∈ l /\ dj = new_dinode.
Proof. induction l as [|x l IH]; [done|]. cbn [new_ins foldr]. intros [[<- <-]|[_ Hj]]%lookup_insert_Some; [split; [left|done]|]. destruct (IH Hj). split; [by right|done]. Qed.
Lemma ex_ns enable (l : list Z) : exists s : dstate (ncstate * mems), ns_ok (H := ex_ops enable) (H0 := ex_laws enable) ex_fs s (first_tree 5) (fun i => i) /\
  ((forall j, j ∈ l -> 0 <= j <= 2) -> held s l).
Proof.
  destruct (make_ok 5 1 (MkDisk (fun _ => SOther) [])) as (d' & _ & Hvol & Hf); [lia|by constructor|].
  destruct (load_volume_ok 1 _ 1 ltac:(lia) Hvol) as (lm & d2 & _ & Hg).
  set (ins := new_ins (0 :: l)).
  destruct (first_mount (ex_cache, MkMems ins []) 5 1 _ lm no_meta ltac:(lia) Hf Hg) as (de & ino & _ & _ & Hr).
  eexists (MkD de ino (ex_cache, MkMems ins [])). split.
  - split; [by eexists|apply first_tree_ok| |intros j dj Hj; rewrite (proj2 (new_ins_spec _ j dj Hj)); apply new_mem_ok|done]. split; [apply ex_cache_ok|]. by intros p n i k (e & He%elem_of_nil & _).
  - intros Hl. split.
    + intros j Hj. assert (Hj2 : 0 <= j <= 2) by (apply elem_of_app in Hj as [?|?%list_elem_of_singleton]; [by apply Hl|lia]). split; [lia|].
      assert (Ht : is_Some (first_tree 5 !! j)) by (assert (j = 0 \/ j = 1 \/ j = 2) as [->|[->| ->]] by lia; by eexists). destruct Ht as [nd Hnd]. destruct (r_node _ _ _ _ Hr j nd Hnd) as (mo & ? & _). by eexists.
    + intros j Hj. by apply new_ins_in.
Qed.
Lemma ex_features : is_Some (pfs_version_has_features ex_fs PFS_FEATURE_EXTNAME).
Proof. vm_compute. by eexists. Qed.

(** ** Properties *)

(** C5: a sequence of calls by path (mkdir, rmdir, creation and removal of
    files, rename, access), whatever the log answers to their commits and
    polls, never aborts, and its results and the namespace it
    leaves are those of the operations on the tree of names; every volume state
    it leaves represents a well-formed tree and its caches agree with it. *)
Theorem namespace_refines {N} `{NCacheLaws N} (mnt : pfs_mount) (pbd : list Z) (now : Z) (wd : list Z) (cs : list fs_call) (s : dstate (N * mems)) (t : tree) (dn : Z -> Z) :
  is_Some (pfs_version_has_features mnt PFS_FEATURE_EXTNAME) -> absolute wd -> cstring wd -> ns_ok mnt s t dn -> Forall call_wf cs ->
  runs (fs_run mnt pbd now wd cs) s (fun errs s' => exists t' dn', fs_specs mnt pbd now wd cs t errs t' /\ ns_ok mnt s' t' dn').
Proof. intros. by eapply fs_run_ok. Qed.
Lemma namespace_refines_witness : exists (s : dstate (ncstate * mems)),
  runs (fs_run ex_fs ex_pbd 9 [] [Mkdir (SLASH :: ex_pbd ++ [SLASH; 97]) (0, []); Rename (SLASH :: ex_pbd ++ [SLASH; 97]) (SLASH :: ex_pbd ++ [SLASH; 98]) (- EAGAIN, [0]); Access (SLASH :: ex_pbd ++ [SLASH; 98]) F_OK 0]) s
    (fun errs s' => exists t' dn', fs_specs ex_fs ex_pbd 9 [] [Mkdir (SLASH :: ex_pbd ++ [SLASH; 97]) (0, []); Rename (SLASH :: ex_pbd ++ [SLASH; 97]) (SLASH :: ex_pbd ++ [SLASH; 98]) (- EAGAIN, [0]); Access (SLASH :: ex_pbd ++ [SLASH; 98]) F_OK 0] (first_tree 5) errs t' /\ ns_ok ex_fs s' t' dn').
Proof.
  destruct (ex_ns true []) as (s & Hns & _). exists s. apply (namespace_refines ex_fs ex_pbd 9 [] _ s (first_tree 5) (fun i => i)); [exact ex_features|by left|constructor|exact Hns|].
  repeat constructor; cbn; done.
Defined.

(** C12: looking a path up returns what the path means in the tree of names:
    the node and its directory, that the last name is missing and where, or
    the error of the first component that has no meaning; it never aborts and
    changes neither the tree nor what the caches promise. *)
Theorem lookup_resolves {N} `{NCacheLaws N} (mnt : pfs_mount) (pbd : list Z) (s : dstate (N * mems)) (t : tree) (dn : Z -> Z) (ni : nameinfo) (oflags : Z) :
  is_Some (pfs_version_has_features mnt PFS_FEATURE_EXTNAME) -> ns_ok mnt s t dn -> fresh_ni pbd ni ->
  (Z.land oflags O_CREAT <> 0 -> ni_tgt_type ni = PFS_INODET_DIR \/ ni_tgt_type ni = PFS_INODET_FILE) ->
  runs (pfs_namei_lookup mnt pbd ni oflags) s (fun x s' => ns_ok mnt s' t dn /\ lookup_result mnt t ni oflags (fst x) (snd x)).
Proof. apply lookup_resolves_aux. Qed.
Definition ex_ni (path : list Z) (type : Z) : nameinfo := MkNi ex_pbd path [] 0 0 0 0 type true instk_init.
Lemma ex_ni_fresh path type : head path = Some SLASH -> Forall (fun b => b <> 0) path -> strlen path < 100 -> fresh_ni ex_pbd (ex_ni path type).
Proof. intros. split; try done. unfold ex_pbd, PFS_MAX_PATHLEN. cbn [ni_path ex_ni]. unfold strlen in *. cbn [length]. lia. Qed.
Lemma lookup_resolves_witness : exists (s : dstate (ncstate * mems)),
  runs (pfs_namei_lookup ex_fs ex_pbd (ex_ni (SLASH :: PFS_JOURNAL_FILE) PFS_INODET_FILE) 0) s
    (fun x s' => ns_ok ex_fs s' (first_tree 5) (fun i => i) /\ lookup_result ex_fs (first_tree 5) (ex_ni (SLASH :: PFS_JOURNAL_FILE) PFS_INODET_FILE) 0 (fst x) (snd x)) /\
  resolve ex_fs (first_tree 5) (ex_ni (SLASH :: PFS_JOURNAL_FILE) PFS_INODET_FILE) = Found [2].
Proof.
  destruct (ex_ns true []) as (s & Hns & _). exists s. split; [|by vm_compute].
  apply lookup_resolves; [exact ex_features|exact Hns|apply ex_ni_fresh; [done|repeat constructor; done|done]|done].
Defined.

(** C16: the name cache does not show: with any options and contents of the
    cache that agree with the namespace, a lookup returns what it returns with
    any others (with the cache off, say). *)
Theorem cache_transparent (opts1 opts2 : ncopts) (mntid1 mntid2 : Z) (clock1 clock2 malloc : ncstate -> Z) (Hmax1 : 0 <= get_nc_max opts1) (Hmax2 : 0 <= get_nc_max opts2)
    (Hmalloc : forall c, nc_heap c !! malloc c = None) (mnt : pfs_mount) (pbd : list Z) (s1 s2 : dstate (ncstate * mems)) (t : tree) (dn1 dn2 : Z -> Z) (ni : nameinfo) (oflags : Z) :
  is_Some (pfs_version_has_features mnt PFS_FEATURE_EXTNAME) ->
  ns_ok (H := nc_ops opts1 mntid1 clock1 malloc) (H0 := nc_laws opts1 mntid1 clock1 malloc Hmax1 Hmalloc) mnt s1 t dn1 ->
  ns_ok (H := nc_ops opts2 mntid2 clock2 malloc) (H0 := nc_laws opts2 mntid2 clock2 malloc Hmax2 Hmalloc) mnt s2 t dn2 -> fresh_ni pbd ni ->
  (Z.land oflags O_CREAT <> 0 -> ni_tgt_type ni = PFS_INODET_DIR \/ ni_tgt_type ni = PFS_INODET_FILE) ->
  runs (pfs_namei_lookup (H := nc_ops opts1 mntid1 clock1 malloc) mnt pbd ni oflags) s1 (fun x1 _ =>
  runs (pfs_namei_lookup (H := nc_ops opts2 mntid2 clock2 malloc) mnt pbd ni oflags) s2 (fun x2 _ =>
    fst x1 = fst x2 /\ ni_broken_path (lr_ni (snd x1)) = ni_broken_path (lr_ni (snd x2)) /\
    (fst x1 = 0 -> lr_dirin (snd x1) = lr_dirin (snd x2) /\ lr_tgtin (snd x1) = lr_tgtin (snd x2) /\ lr_type (snd x1) = lr_type (snd x2)))).
Proof.
  intros Hf Hns1 Hns2 Hfr Hcr. eapply runs_mono; [by eapply (lookup_resolves_aux (H := nc_ops opts1 mntid1 clock1 malloc) mnt pbd s1)|]. intros x1 _ [_ H1].
  eapply runs_mono; [by eapply (lookup_resolves_aux (H := nc_ops opts2 mntid2 clock2 malloc) mnt pbd s2)|]. intros x2 _ [_ H2]. unfold lookup_result in *. destruct (resolve mnt t ni) as [l|l name|e].
  - destruct H1 as (-> & _ & -> & H1), H2 as (E & _ & -> & H2). split_and!; [done|done|]. intros E0. destruct (H1 E0) as (-> & -> & ->), H2 as (-> & -> & ->); [congruence|]. done.
  - destruct H1 as (-> & -> & _), H2 as (-> & -> & _). by split_and!.
  - destruct H1 as (E1 & Hn & ->), H2 as (E2 & _ & ->). split_and!; [congruence|done|lia].
Qed.
Lemma cache_transparent_witness : exists (s1 s2 : dstate (ncstate * mems)),
  runs (pfs_namei_lookup (H := ex_ops true) ex_fs ex_pbd (ex_ni (SLASH :: PFS_PAXOS_FILE) PFS_INODET_FILE) 0) s1 (fun x1 _ =>
  runs (pfs_namei_lookup (H := ex_ops false) ex_fs ex_pbd (ex_ni (SLASH :: PFS_PAXOS_FILE) PFS_INODET_FILE) 0) s2 (fun x2 _ =>
    fst x1 = fst x2 /\ ni_broken_path (lr_ni (snd x1)) = ni_broken_path (lr_ni (snd x2)) /\
    (fst x1 = 0 -> lr_dirin (snd x1) = lr_dirin (snd x2) /\ lr_tgtin (snd x1) = lr_tgtin (snd x2) /\ lr_type (snd x1) = lr_type (snd x2)))).
Proof.
  destruct (ex_ns true []) as (s1 & Hns1 & _), (ex_ns false []) as (s2 & Hns2 & _). exists s1, s2.
  apply (cache_transparent (ex_opts true) (ex_opts false) 0 0 (fun _ => 0) (fun _ => 0) ex_malloc (ex_max true) (ex_max false) ex_malloc_ok ex_fs ex_pbd s1 s2 (first_tree 5) (fun i => i) (fun i => i));
    [exact ex_features|exact Hns1|exact Hns2|apply ex_ni_fresh; [done|repeat constructor; done|done]|done].
Defined.

(** C13: the check of a path under the lock of the meta data is exact: the
    stack of a lookup in some earlier namespace [t0] passes if and only if the
    same inodes, with the times they were born, lead to the node now and make
    up the same path, and the node has the type asked for; else the caller is
    told to try again. *)
Theorem check_exact {N} `{NCacheLaws N} (mnt : pfs_mount) (pbd : list Z) (s : dstate (N * mems)) (t0 t : tree) (dn : Z -> Z) (ni : nameinfo) (l : list Z) (type : Z) :
  ns_ok mnt s t dn -> ni_instk ni = stk_of pbd t0 l -> held s l ->
  runs (pfs_namei_check_stale pbd ni type) s (fun err s' => s' = s /\ ((err = 0 /\ same_way pbd t0 t l type) \/ (err = - EAGAIN /\ ~ same_way pbd t0 t l type))).
Proof.
  intros Hns E Hh. eapply check_stale_ok; [exact Hns|rewrite E; by apply held_wf|..]; rewrite E.
  - intros l' [_ Hw]%way_valid. split; [done|by left].
  - intros Hno. split; [done|right]. split; [done|]. intros Hw. apply (Hno l). by apply way_valid.
Qed.
Definition ex_stk (l : list Z) : nameinfo := set_ni_instk (stk_of ex_pbd (first_tree 4) l) (ex_ni [SLASH] PFS_INODET_FILE).
Lemma check_exact_witness : exists (s : dstate (ncstate * mems)),
  runs (pfs_namei_check_stale ex_pbd (ex_stk [1]) PFS_INODET_FILE) s (fun err s' => s' = s /\ ((err = 0 /\ same_way ex_pbd (first_tree 4) (first_tree 5) [1] PFS_INODET_FILE) \/ (err = - EAGAIN /\ ~ same_way ex_pbd (first_tree 4) (first_tree 5) [1] PFS_INODET_FILE))) /\
  ~ same_way ex_pbd (first_tree 4) (first_tree 5) [1] PFS_INODET_FILE.
Proof.
  destruct (ex_ns true [1]) as (s & Hns & Hh). exists s. split.
  - eapply check_exact; [exact Hns|done|]. apply Hh. intros j ->%list_elem_of_singleton. lia.
  - intros (_ & Hb & _). specialize (Hb 0 ltac:(set_solver)). by vm_compute in Hb.
Defined.

(** C10: whatever happened to the namespace between the lookup in [t0] and the
    lock, a removal fails and changes nothing, or removes exactly the node it
    looked up, from the directory it looked up, where its path leads now. *)
Theorem remove_under_lock {N} `{NCacheLaws N} (mnt : pfs_mount) (pbd : list Z) (s : dstate (N * mems)) (t0 t : tree) (dn : Z -> Z) (ni : nameinfo) (l : list Z) (committed : Z) (undone : list Z) :
  tree_ok mnt t0 -> at_node pbd t0 l ni -> ni_par_btime ni = btime_of t0 (top (tail l)) -> ns_ok mnt s t dn -> held s l -> committed <= 0 ->
  runs (tls_write committed undone (err ← xremove_locked mnt pbd ni (top (tail l)) (top l); mret (err, tt))) s (fun r s' => exists t' dn', ns_ok mnt s' t' dn' /\
    ((fst r < 0 /\ t' = t) \/
     (fst r = 0 /\ committed = 0 /\ same_way pbd t0 t l (ni_tgt_type ni) /\ child t (top (tail l)) (ni_srch_name ni) (top l) /\
      del_err t (top (tail l)) (top l) (ni_tgt_type ni =? PFS_INODET_DIR) = 0 /\ t' = t_remove (top (tail l)) (top l) t))).
Proof.
  intros Hok0 Hat Hpb Hns Hh Hcom. destruct (held_in s l _ Hh (top_tail_in l)) as [Hobj Hmem]. eapply dir_write_ok; [done|done|]. pose proof (at_stk _ _ _ _ Hat) as Est.
  eapply xremove_locked_ok; [done|apply keeps_refl|done|rewrite Est; by apply held_wf|done|done|by apply (node_request mnt pbd t0)|..].
  - intros err s2 He _ Hs2 _. exists t, dn. split; [done|left]. by split.
  - intros s2 dn' l' Hc0 Hv _ Hch Hde Hs2 _. rewrite Est in Hv. apply way_valid in Hv as [_ Hw]. eexists _, dn'. split; [exact Hs2|right]. by split_and!.
Qed.
Definition ex_held (l : list Z) (name : list Z) (ino : Z) : nameinfo := MkNi ex_pbd [SLASH] name 0 ino 5 0 PFS_INODET_FILE false (stk_of ex_pbd (first_tree 5) l).
Lemma ex_chain i nm : i = 1 /\ nm = PFS_PAXOS_FILE \/ i = 2 /\ nm = PFS_JOURNAL_FILE -> chain (first_tree 5) i [i].
Proof. intros [[-> ->]|[-> ->]]; (eapply chain_up; [done|done|constructor]). Qed.
Lemma remove_under_lock_witness : exists (s : dstate (ncstate * mems)),
  runs (tls_write 0 [] (err ← xremove_locked ex_fs ex_pbd (ex_held [1] PFS_PAXOS_FILE 1) 0 1; mret (err, tt))) s (fun r s' => exists t' dn', ns_ok ex_fs s' t' dn' /\
    ((fst r < 0 /\ t' = first_tree 5) \/
     (fst r = 0 /\ 0 = 0 /\ same_way ex_pbd (first_tree 5) (first_tree 5) [1] PFS_INODET_FILE /\ child (first_tree 5) 0 PFS_PAXOS_FILE 1 /\
      del_err (first_tree 5) 0 1 false = 0 /\ t' = t_remove 0 1 (first_tree 5)))).
Proof.
  destruct (ex_ns true [1]) as (s & Hns & Hh). exists s. apply (remove_under_lock ex_fs ex_pbd s (first_tree 5) (first_tree 5) (fun i => i) (ex_held [1] PFS_PAXOS_FILE 1) [1] 0 []); [apply first_tree_ok| |done|exact Hns| |lia].
  - split; try done. eapply ex_chain. by left.
  - apply Hh. intros j ->%list_elem_of_singleton. lia.
Defined.

(** C11: whatever happened since the lookup found no node of the name, a
    creation fails and changes nothing, or adds exactly one new node under that
    name, which is free, to the directory where the path leads now. *)
Theorem create_under_lock {N} `{NCacheLaws N} (mnt : pfs_mount) (pbd : list Z) (now : Z) (s : dstate (N * mems)) (t0 t : tree) (dn : Z -> Z) (ni : nameinfo) (l name : list Z) (committed : Z) (undone : list Z) :
  no_node pbd t0 l name ni -> name_ok mnt name -> ni_par_btime ni = btime_of t0 (top l) -> ns_ok mnt s t dn -> held s l -> committed <= 0 ->
  runs (tls_write committed undone (xlookup_add mnt pbd now ni (top l))) s (fun r s' => exists t' dn', ns_ok mnt s' t' dn' /\
    ((fst r < 0 /\ t' = t) \/
     (fst r = 0 /\ committed = 0 /\ same_way pbd t0 t l PFS_INODET_DIR /\ (forall c, ~ child t (top l) name c) /\ t !! ni_ino (snd r) = None /\
      t' = t_create now (top l) (ni_ino (snd r)) (ni_tgt_type ni =? PFS_INODET_DIR) name t))).
Proof.
  intros Hno Hnm Hpb Hns Hh Hcom. destruct (held_in s l _ Hh (top_in l)) as [Hobj Hmem]. eapply dir_write_ok; [done|done|]. pose proof (nn_stk _ _ _ _ _ Hno) as Est. pose proof (nn_srch _ _ _ _ _ Hno) as Esr.
  eapply runs_mono; [eapply (xlookup_add_ok mnt pbd now s t dn committed (s_ins s) ni (top l))|]; [done|apply keeps_refl|done|rewrite Est; by apply held_wf|done|done| | | |intros r s1 [_ Hp]; exact Hp].
  - split; [by rewrite Est, vec_top, Hpb|by rewrite Esr].
  - intros err ni' s2 He _ _ Hs2 _. exists t, dn. split; [done|left]. by split.
  - intros s2 dn' l' i Hc0 Hv _ Hfree Hi Hs2 _. rewrite Est in Hv. apply way_valid in Hv as [_ Hw]. rewrite Esr in *. eexists _, dn'. split; [exact Hs2|right]. by split_and!.
Qed.
Lemma ex_name_ok x : x = 97 \/ x = 98 -> name_ok ex_fs [x].
Proof. intros [->| ->]; (split_and!; [split; [by repeat constructor|done]|done|by intros ?%list_elem_of_singleton|done|by left]). Qed.
Lemma ex_no_node x : x = 97 \/ x = 98 -> no_node ex_pbd (first_tree 5) [] [x] (ex_held [] [x] INVALID_INO).
Proof.
  intros Hx. split; try done; [constructor| |].
  - intros c (nd & Hc & Hl). init_cases Hc; [done|..]; injection Hl as Hl; by destruct Hx as [->| ->].
  - by destruct Hx as [->| ->]; (split; [split_and!; [done|by intros ?%list_elem_of_singleton|by repeat constructor]|done]).
Qed.
Lemma create_under_lock_witness : exists (s : dstate (ncstate * mems)),
  runs (tls_write 0 [] (xlookup_add ex_fs ex_pbd 9 (ex_held [] [97] INVALID_INO) 0)) s (fun r s' => exists t' dn', ns_ok ex_fs s' t' dn' /\
    ((fst r < 0 /\ t' = first_tree 5) \/
     (fst r = 0 /\ 0 = 0 /\ same_way ex_pbd (first_tree 5) (first_tree 5) [] PFS_INODET_DIR /\ (forall c, ~ child (first_tree 5) 0 [97] c) /\ first_tree 5 !! ni_ino (snd r) = None /\
      t' = t_create 9 0 (ni_ino (snd r)) false [97] (first_tree 5)))).
Proof.
  destruct (ex_ns true []) as (s & Hns & Hh). exists s.
  apply (create_under_lock ex_fs ex_pbd 9 s (first_tree 5) (first_tree 5) (fun i => i) (ex_held [] [97] INVALID_INO) [] [97] 0 []); [apply ex_no_node; by left|apply ex_name_ok; by left|done|exact Hns| |lia].
  apply Hh. by intros j ?%elem_of_nil.
Defined.

(** What a lookup of the new path left: the node there, or its directory. *)
Inductive left_new (mnt : pfs_mount) (pbd : list Z) (t1 : tree) : Z -> list Z -> Z -> nameinfo -> Prop :=
| left_found nino ln ni : at_node pbd t1 (nino :: ln) ni -> 0 < nino -> ni_par_btime ni = btime_of t1 (top ln) -> left_new mnt pbd t1 nino (nino :: ln) (top ln) ni
| left_missing ln name ni : no_node pbd t1 ln name ni -> name_ok mnt name -> ni_par_btime ni = btime_of t1 (top ln) -> left_new mnt pbd t1 INVALID_INO ln (top ln) ni.
Lemma left_request mnt pbd t1 nino l n ni : tree_ok mnt t1 -> left_new mnt pbd t1 nino l n ni -> ni_instk ni = stk_of pbd t1 l /\ n ∈ 0 :: l /\ new_request mnt ni n nino.
Proof.
  intros Hok [nino' ln ni' Hat Hpos Hb|ln name ni' Hno Hnm Hb].
  - split_and!; [apply Hat|apply (top_tail_in (nino' :: ln))|]. right. split; [done|]. by apply (node_request mnt pbd t1 (nino' :: ln)).
  - split_and!; [apply Hno|apply top_in|]. left. split; [done|]. split; [by rewrite (nn_stk _ _ _ _ _ Hno), vec_top, Hb|by rewrite (nn_srch _ _ _ _ _ Hno)].
Qed.
(** C9: whatever happened since the lookups of both paths, which may have seen
    different namespaces, a rename fails and changes nothing, or moves exactly
    the node the old path leads to now to the new name in the directory the new
    path leads to now, in place of the node found there; a directory never
    comes to lie below itself. *)
Theorem rename_under_lock {N} `{NCacheLaws N} (mnt : pfs_mount) (pbd : list Z) (now : Z) (s : dstate (N * mems)) (t0 t1 t : tree) (dn : Z -> Z) (oldni newni : nameinfo) (isdir : bool)
    (i : Z) (lo : list Z) (nino : Z) (ln : list Z) (n committed : Z) (undone : list Z) :
  tree_ok mnt t0 -> tree_ok mnt t1 -> at_node pbd t0 (i :: lo) oldni -> ni_par_btime oldni = btime_of t0 (top lo) -> left_new mnt pbd t1 nino ln n newni ->
  ns_ok mnt s t dn -> held s (i :: lo) -> held s ln -> committed <= 0 ->
  let type := if isdir then PFS_INODET_DIR else PFS_INODET_FILE in
  runs (tls_write committed undone (err ← xrename_locked mnt pbd now oldni newni isdir (top lo) i n nino; mret (err, tt))) s (fun r s' => exists t' dn', ns_ok mnt s' t' dn' /\
    ((fst r < 0 /\ t' = t) \/
     (fst r = 0 /\ committed = 0 /\ same_way pbd t0 t (i :: lo) type /\ same_way pbd t1 t ln (new_type type nino) /\ child t (top lo) (ni_srch_name oldni) i /\
      ((nino = i /\ t' = t) \/ (nino <> i /\ rename_spec t (top lo) i n nino (ni_srch_name newni) 0 t'))))).
Proof.
  intros Hok0 Hok1 Hat Hpb Hleft Hns Hho Hhn Hcom type. destruct (left_request _ _ _ _ _ _ _ Hok1 Hleft) as (En & Hin & Hnr). pose proof (at_stk _ _ _ _ Hat) as Eo.
  destruct (held_in s _ _ Hho (top_tail_in (i :: lo))) as [? ?], (held_in s _ _ Hhn Hin) as [? ?]. destruct (chain_pos mnt t0 i i lo Hok0 (at_chain _ _ _ _ Hat)) as [_ Hi0]. eapply dir_write_ok; [done|done|].
  eapply xrename_locked_ok; try done; [by apply (node_request mnt pbd t0 (i :: lo))| | |apply keeps_refl|rewrite Eo; by apply held_wf|rewrite En; by apply held_wf].
  - intros err s2 He _ Hs2 _. exists t, dn. split; [done|left]. by split.
  - intros s2 t' dn' Hc0 Hc (l1 & Hv1) (l2 & Hv2) Hsp Hs2 _. rewrite Eo in Hv1. rewrite En in Hv2. apply way_valid in Hv1 as [_ Hw1]. apply way_valid in Hv2 as [_ Hw2]. exists t', dn'. split; [exact Hs2|right]. by split_and!.
Qed.
Lemma rename_under_lock_witness : exists (s : dstate (ncstate * mems)),
  runs (tls_write 0 [] (err ← xrename_locked ex_fs ex_pbd 9 (ex_held [1] PFS_PAXOS_FILE 1) (ex_held [] [98] INVALID_INO) false 0 1 0 INVALID_INO; mret (err, tt))) s (fun r s' => exists t' dn', ns_ok ex_fs s' t' dn' /\
    ((fst r < 0 /\ t' = first_tree 5) \/
     (fst r = 0 /\ 0 = 0 /\ same_way ex_pbd (first_tree 5) (first_tree 5) [1] PFS_INODET_FILE /\ same_way ex_pbd (first_tree 5) (first_tree 5) [] PFS_INODET_DIR /\ child (first_tree 5) 0 PFS_PAXOS_FILE 1 /\
      ((INVALID_INO = 1 /\ t' = first_tree 5) \/ (INVALID_INO <> 1 /\ rename_spec (first_tree 5) 0 1 0 INVALID_INO [98] 0 t'))))).
Proof.
  destruct (ex_ns true [1]) as (s & Hns & Hh). exists s. assert (Hh1 : held s [1]) by (apply Hh; intros j ->%list_elem_of_singleton; lia).
  apply (rename_under_lock ex_fs ex_pbd 9 s (first_tree 5) (first_tree 5) (first_tree 5) (fun i => i) (ex_held [1] PFS_PAXOS_FILE 1) (ex_held [] [98] INVALID_INO) false 1 [] INVALID_INO [] 0 0 []);
    [apply first_tree_ok|apply first_tree_ok| |done| |exact Hns|exact Hh1| |lia].
  - split; try done. eapply ex_chain. by left.
  - apply (left_missing ex_fs ex_pbd (first_tree 5) [] [98]); [apply ex_no_node; by right|apply ex_name_ok; by right|done].
  - destruct Hh1 as [Hv Hm]. split; [intros j Hj; apply Hv; set_solver|intros j Hj; apply Hm; set_solver].
Defined.

(** C29: a repeated [mkdir] comes to an end: as soon as one commit is not told
    to try again the call returns, with the result of that round on the
    namespace the call began with, the rounds before having changed nothing. *)
Theorem mkdir_returns {N} `{NCacheLaws N} (mnt : pfs_mount) (pbd : list Z) (now : Z) (s : dstate (N * mems)) (t : tree) (dn : Z -> Z) (wd path : list Z) (outcomes : list (Z * list Z)) :
  is_Some (pfs_version_has_features mnt PFS_FEATURE_EXTNAME) -> ns_ok mnt s t dn -> absolute wd -> cstring wd -> cstring path -> commits outcomes -> no_again outcomes ->
  runs (pfs_mkdir mnt pbd now wd path outcomes) s (fun err s' => err <> - EAGAIN /\ exists o t' dn', o ∈ outcomes /\ mkdir_spec mnt pbd now t wd path (fst o) err t' /\ ns_ok mnt s' t' dn').
Proof.
  intros Hf Hns Hwd Hb Hp Hc Hna. eapply runs_mono; [by eapply mkdir_loop_ok|]. intros err s' (t' & dn' & (o & ? & ? & ?) & ? & _). split; [done|]. by exists o, t', dn'.
Qed.
Definition ex_outcomes : list (Z * list Z) := [(- EAGAIN, []); (- EAGAIN, []); (0, [])].
Lemma mkdir_returns_witness : exists (s : dstate (ncstate * mems)),
  runs (pfs_mkdir ex_fs ex_pbd 9 [] (SLASH :: ex_pbd ++ [SLASH; 97]) ex_outcomes) s
    (fun err s' => err <> - EAGAIN /\ exists o t' dn', o ∈ ex_outcomes /\ mkdir_spec ex_fs ex_pbd 9 (first_tree 5) [] (SLASH :: ex_pbd ++ [SLASH; 97]) (fst o) err t' /\ ns_ok ex_fs s' t' dn').
Proof.
  destruct (ex_ns true []) as (s & Hns & _). exists s. apply (mkdir_returns ex_fs ex_pbd 9 s (first_tree 5) (fun i => i)); [exact ex_features|exact Hns|by left|constructor|by repeat constructor|repeat constructor; done|]. by do 2 right; left.
Defined.

(** C30: every path makes a well-formed request or an error of its own: the
    part of [pfs_namei_init] that may abort is never reached, a request names a
    device of one to 63 bytes without a slash and a path that begins with one,
    fits the buffers lookups fill, and asks for the type of the call, or for a
    directory when the path ends in a slash. *)
Theorem requests_well_formed (wd path : list Z) (type : Z) : absolute wd -> cstring wd -> cstring path ->
  exists r, pfs_namei_init wd path type = Some r /\
  match r with
  | inl err => err < 0 /\ err <> - EAGAIN
  | inr ni => fresh_ni (ni_pbd ni) ni /\ 0 < strlen (ni_pbd ni) < PFS_MAX_PBDLEN /\ (SLASH ∉ ni_pbd ni) /\ (ni_tgt_type ni = type \/ ni_tgt_type ni = PFS_INODET_DIR)
  end.
Proof. apply namei_init_ok. Qed.
Lemma requests_well_formed_witness : exists r, pfs_namei_init (SLASH :: ex_pbd) [97; SLASH] PFS_INODET_NONE = Some r /\
  match r with
  | inl err => err < 0 /\ err <> - EAGAIN
  | inr ni => fresh_ni (ni_pbd ni) ni /\ 0 < strlen (ni_pbd ni) < PFS_MAX_PBDLEN /\ (SLASH ∉ ni_pbd ni) /\ (ni_tgt_type ni = PFS_INODET_NONE \/ ni_tgt_type ni = PFS_INODET_DIR)
  end.
Proof. apply requests_well_formed; [by right|by repeat constructor|by repeat constructor]. Defined.

(** C31: the path [pfs_dir_path] makes of a node is a path of this volume that
    [pfs_namei_init] accepts and that resolves to the node. *)
Theorem path_roundtrip {N} `{NCacheLaws N} (mnt : pfs_mount) (pbd wd : list Z) (s : dstate (N * mems)) (t : tree) (dn : Z -> Z) (i : Z) (nd : node) (l : list Z) (type : Z) :
  ns_ok mnt s t dn -> pbd <> [] -> (SLASH ∉ pbd) -> strlen pbd < PFS_MAX_PBDLEN -> t !! i = Some nd -> chain t i l -> strlen (full_path pbd t i l) < PFS_MAX_PATHLEN -> (i = 0 -> type <> PFS_INODET_FILE) ->
  runs (pfs_dir_path pbd i PFS_MAX_PATHLEN (n_btime nd)) s (fun r s' => s' = s /\ fst r = 0 /\
    exists ni, pfs_namei_init wd (snd r) type = Some (inr ni) /\ ni_pbd ni = pbd /\ resolve mnt t ni = Found l /\ ni_tgt_type ni = if i =? 0 then PFS_INODET_DIR else type).
Proof.
  intros [[xs Hr] Hok _ _ _] Hne Hs Hl Hi Hch Hlen Hty. eapply dir_path_ok; [exact Hr|done|done|done|]. rewrite (proj2 (Z.ltb_lt _ _) Hlen). split_and!; [done|done|]. by apply full_path_ok.
Qed.
Lemma path_roundtrip_witness : exists (s : dstate (ncstate * mems)),
  runs (pfs_dir_path ex_pbd 2 PFS_MAX_PATHLEN INNER_FILE_BTIME) s (fun r s' => s' = s /\ fst r = 0 /\
    exists ni, pfs_namei_init [] (snd r) PFS_INODET_FILE = Some (inr ni) /\ ni_pbd ni = ex_pbd /\ resolve ex_fs (first_tree 5) ni = Found [2] /\ ni_tgt_type ni = PFS_INODET_FILE).
Proof.
  destruct (ex_ns true []) as (s & Hns & _). exists s.
  eapply (path_roundtrip ex_fs ex_pbd [] s (first_tree 5) (fun i => i) 2 (MkNd PFS_INODET_FILE (Some (0, PFS_JOURNAL_FILE)) [] 0 INNER_FILE_BTIME) [2] PFS_INODET_FILE); [exact Hns|done| |by vm_compute|by vm_compute|eapply ex_chain; by right|by vm_compute|done].
  unfold ex_pbd. by intros [?|[?|?%elem_of_nil]%elem_of_cons]%elem_of_cons.
Defined.

(** C32: opening a directory by path and reading it to the end yields its
    entries, every one once and in order, with their names; when the poll of
    the log fails with which the call begins, it returns that error and has
    no effect. *)
Theorem readdir_exact {N} `{NCacheLaws N} (mnt : pfs_mount) (pbd : list Z) (s : dstate (N * mems)) (t : tree) (dn : Z -> Z) (wd path : list Z) (ni : nameinfo) (l : list Z) (nd : node) (n : nat) (sync : Z) :
  is_Some (pfs_version_has_features mnt PFS_FEATURE_EXTNAME) -> ns_ok mnt s t dn -> absolute wd -> cstring wd -> cstring path ->
  (forall n0, t !! 0 = Some n0 -> (2 <= length (n_ents n0))%nat) -> (forall d nd, t !! d = Some nd -> METAOBJ_SIZE * Z.of_nat (length (n_ents nd)) < 2 ^ 64) ->
  request_of pbd wd path PFS_INODET_DIR = inr ni -> resolve mnt t ni = Found l -> t !! top l = Some nd -> n_type nd = PFS_INODET_DIR -> (length (n_ents nd) < n)%nat ->
  runs (_pfs_opendir mnt pbd wd path sync) s (fun r s' => if negb (sync =? 0) then r = (sync, None) /\ s' = s else
    fst r = 0 /\ exists dir, snd r = Some dir /\
    runs (read_all n dir) s' (fun es s2 => es = Some ((fun i => (i, name_of t i)) <$> n_ents nd) /\ ns_ok mnt s2 t dn)).
Proof.
  intros Hf Hns Hwd Hb Hp H2 Hsz Hrq Hres Hnd Hty Hn. unfold _pfs_opendir. dstep. eapply get_namei_ok; [done..|]. rewrite Hrq. intros Hfr Ht. dstep.
  destruct (Z.eqb_spec sync 0) as [->|Hs0]; cbn [negb].
  2: { unfold pfs_memdir_xopen. rewrite (proj2 (Z.eqb_neq _ _) Hs0). cbn [negb]. apply runs_ret. by apply runs_ret. }
  eapply xopen_ok; [done|done|done|by destruct Ht|done|done|]. rewrite Hres. intros ni' s' Hns'. assert (Hd : isdir t (top l) = true) by (unfold isdir; rewrite Hnd, Hty; done). rewrite Hd.
  intros nd' Hnd' _. assert (nd' = nd) as -> by congruence. apply runs_ret. split; [done|]. eexists. split; [done|]. destruct (no_rep _ _ _ _ Hns') as [xs Hr]. pose proof (no_tree _ _ _ _ Hns') as Hok. destruct (ino_range _ _ _ _ _ _ Hr Hnd) as [Hpos _].
  pose proof (owners_listing mnt s' t dn xs (top l) nd Hr Hok Hpos Hnd) as Hl. unfold listing in Hl. rewrite Hnd in Hl. rewrite <- (length_fmap dn (n_ents nd)). change 0 with (Z.of_nat 0).
  eapply read_all_ok; [exact Hr|done|done| |lia|cbn [drop]; rewrite drop_0, Hl, length_fmap; lia|rewrite drop_0, Hl; by split].
  intros k (c & -> & Hc)%list_elem_of_fmap. destruct (to_ents _ _ Hok _ nd c Hnd Hc) as (nc & nm & Hcc & Hlk). destruct (r_name _ _ _ _ Hr c nc _ nm Hcc Hlk) as (_ & _ & _ & mo & ? & Hm & _). by eexists.
Qed.
Lemma readdir_exact_witness : exists (s : dstate (ncstate * mems)),
  runs (_pfs_opendir ex_fs ex_pbd [] (SLASH :: ex_pbd ++ [SLASH]) 0) s (fun r s' => fst r = 0 /\ exists dir, snd r = Some dir /\
    runs (read_all 3 dir) s' (fun es s2 => es = Some [(1, PFS_PAXOS_FILE); (2, PFS_JOURNAL_FILE)] /\ ns_ok ex_fs s2 (first_tree 5) (fun i => i))).
Proof.
  destruct (ex_ns true []) as (s & Hns & _). exists s.
  eapply (readdir_exact ex_fs ex_pbd s (first_tree 5) (fun i => i) [] (SLASH :: ex_pbd ++ [SLASH]) _ [] (MkNd PFS_INODET_DIR None [1; 2] 0 5) 3 0); [exact ex_features|exact Hns|by left|constructor|by repeat constructor| | |by vm_compute|by vm_compute|done|done|simpl; lia].
  - intros n0 Hn0. assert (n0 = MkNd PFS_INODET_DIR None [1; 2] 0 5) as -> by (vm_compute in Hn0; by injection Hn0). done.
  - intros d nd Hd. init_cases Hd; by vm_compute.
Defined.
