(* ===== verification/TrimInv.v ===== *)
(** * The invariant of the trim groups

    A group covers the transactions (lo, hi] of the history: every sector
    they touch is in it, and a copy holds, object by object, a state not
    older than [hi].  Insertion, copying, exchange and deletion keep this, and
    no assertion of the code fails. *)

From S2P Require Import Prelude Crc Lease Object Tx LogIo Trim Log LogSem LogCirc LogInv.

Open Scope Z_scope.

(** ** Lists of sectors *)
Definition full (sb : pfs_sectbuf) : Prop := is_some (s_buf sb) = true.
Definition nempty (l : list pfs_sectbuf) : Z := Z.of_nat (length (filter (fun sb => is_some (s_buf sb) = false) l)).

Lemma nempty_app l1 l2 : nempty (l1 ++ l2) = nempty l1 + nempty l2.
Proof. unfold nempty. rewrite filter_app, length_app. lia. Qed.
Lemma nempty_cons sb l : nempty (sb :: l) = (if is_some (s_buf sb) then 0 else 1) + nempty l.
Proof. unfold nempty. rewrite filter_cons. by destruct (is_some (s_buf sb)); simpl; [|lia]. Qed.
Lemma nempty_nonneg l : 0 <= nempty l.
Proof. unfold nempty. lia. Qed.

Lemma nempty_full l : nempty l = 0 <-> Forall full l.
Proof.
  induction l as [|sb l IH]; [done|]. rewrite nempty_cons, Forall_cons, <- IH. unfold full.
  pose proof (nempty_nonneg l). destruct (is_some (s_buf sb)); split; try lia; intros []; (done || lia).
Qed.

Section Split.
Context (pre post : list pfs_sectbuf) (sb : pfs_sectbuf).
Hypothesis Hnd : NoDup (s_bda <$> (pre ++ sb :: post)).

Lemma split_notin : (s_bda sb ∉ s_bda <$> pre) /\ (s_bda sb ∉ s_bda <$> post).
Proof.
  rewrite fmap_app, fmap_cons in Hnd. apply NoDup_app in Hnd as (_ & H1 & [H2 _]%NoDup_cons).
  split; [|done]. intros Hin. apply (H1 _ Hin). by left.
Qed.

Lemma sect_find_split : sect_find (s_bda sb) (pre ++ sb :: post) = Some sb.
Proof.
  destruct split_notin as [Hp _]. clear Hnd. induction pre as [|x l IH]; simpl.
  - by rewrite Z.eqb_refl.
  - apply not_elem_of_cons in Hp as [? ?]. destruct (Z.eqb_spec (s_bda x) (s_bda sb)); [congruence|auto].
Qed.

Lemma sect_next_split : sect_next (s_bda sb) (pre ++ sb :: post) = s_bda <$> head post.
Proof.
  destruct split_notin as [Hp _]. clear Hnd. induction pre as [|x l IH]; simpl.
  - by rewrite Z.eqb_refl.
  - apply not_elem_of_cons in Hp as [? ?]. destruct (Z.eqb_spec (s_bda x) (s_bda sb)); [congruence|auto].
Qed.

Lemma sect_remove_notin l b : b ∉ s_bda <$> l -> sect_remove b l = l.
Proof.
  unfold sect_remove. induction l as [|x l IH]; [done|]. intros Hp. simpl in Hp.
  apply not_elem_of_cons in Hp as [? ?]. rewrite filter_cons_True by congruence. f_equal. by apply IH.
Qed.

Lemma sect_remove_split : sect_remove (s_bda sb) (pre ++ sb :: post) = pre ++ post.
Proof.
  destruct split_notin as [Hp Hq]. unfold sect_remove. rewrite filter_app, filter_cons_False by tauto.
  fold (sect_remove (s_bda sb) pre) (sect_remove (s_bda sb) post). by rewrite !sect_remove_notin.
Qed.
End Split.

Lemma in_split_bda (l : list pfs_sectbuf) b : b ∈ s_bda <$> l ->
  exists pre sb post, l = pre ++ sb :: post /\ s_bda sb = b.
Proof.
  intros (sb & -> & Hin)%list_elem_of_fmap. apply list_elem_of_split in Hin as (pre & post & ->). by exists pre, sb, post.
Qed.

Lemma bda_in (p q : list pfs_sectbuf) a : s_bda a ∈ (s_bda <$> (p ++ a :: q)).
Proof. apply list_elem_of_fmap_2, elem_of_app. right. by left. Qed.

(** Where an element lies in a list without duplicates. *)
Lemma split_unique p q a p' q' a' :
  p ++ a :: q = p' ++ a' :: q' -> NoDup (s_bda <$> (p ++ a :: q)) -> s_bda a = s_bda a' ->
  p = p' /\ a = a' /\ q = q'.
Proof.
  revert p'. induction p as [|x p IH]; intros [|x' p'] E Hnd Ea; simpl in *; simplify_eq; [done|..].
  - exfalso. apply NoDup_cons in Hnd as [Hn _]. apply Hn. rewrite Ea. apply bda_in.
  - exfalso. apply NoDup_cons in Hnd as [Hn _]. apply Hn. rewrite <- Ea. apply bda_in.
  - apply NoDup_cons in Hnd as [_ Hnd]. destruct (IH p') as (-> & -> & ->); done.
Qed.

(** Taking another element to the end keeps what lies before [a]. *)
Lemma split_move p q a p' q' b b2 :
  p ++ a :: q = p' ++ b :: q' -> NoDup (s_bda <$> (p ++ a :: q)) -> s_bda a <> s_bda b ->
  exists p1 q1, p' ++ q' ++ [b2] = p1 ++ a :: q1 /\ forall x, x ∈ p1 -> x ∈ p.
Proof.
  revert p'. induction p as [|x p IH]; intros [|x' p'] E Hnd Ea; simpl in *; simplify_eq.
  - exists [], (p' ++ q' ++ [b2]). split; [done|]. intros x Hx. by apply elem_of_nil in Hx.
  - exists p, (q ++ [b2]). rewrite <- app_assoc. split; [done|]. intros x Hx. by right.
  - apply NoDup_cons in Hnd as [_ Hnd]. destruct (IH p') as (p1 & q1 & E1 & Hp1); [done..|].
    exists (x' :: p1), q1. simpl. split; [by f_equal|]. intros y [->|Hy]%elem_of_cons; [by left|].
    right. by apply Hp1.
Qed.

Section Group.
Context (nslots : Z) (locate : Z -> Z -> option (Z * nat)) (S0 : meta) (T0 O0 : Z).
Hypothesis Hn : 0 < nslots.
Hypothesis HO0 : 0 <= O0.

Abbreviation state := (LogInv.state S0).

(** [hi] is the newest transaction in the group; [pend] are the entries of the
    next one still to be added. *)
Definition buf_ok (H : history) (hi : nat) (pend : list pfs_logentry_phy) (b : Z)
    (buf : list pfs_metaobj_phy) : Prop :=
  length buf = length (S0 b) /\
  forall i, touched pend b i \/ exists j, (hi <= j <= length H)%nat /\ buf !! i = state H j b !! i.

Record sb_ok (H : history) (lo hi : nat) (pend : list pfs_logentry_phy) (sb : pfs_sectbuf) : Prop := {
  sb_txid : T0 + Z.of_nat lo < s_txid sb <= T0 + Z.of_nat hi;
  sb_meta : s_metabuf sb = Some (s_bda sb);
  sb_buf : forall buf, s_buf sb = Some buf -> buf_ok H hi pend (s_bda sb) buf }.

(** The sectors of a group that covers the entries [cov]. *)
Record sects_ok (H : history) (lo hi : nat) (pend cov : list pfs_logentry_phy) (G : pfs_trimgroup) : Prop := {
  gk_sb : Forall (sb_ok H lo hi pend) (g_sects G);
  gk_nodup : NoDup (s_bda <$> g_sects G);
  gk_root : forall b, b ∈ g_rootp G <-> b ∈ s_bda <$> g_sects G;
  gk_nsects : g_nsects G = Z.of_nat (length (g_sects G));
  gk_nempty : g_nsects_empty G = nempty (g_sects G);
  gk_cover : forall le, le ∈ cov -> le_sector_bda le ∈ s_bda <$> g_sects G;
  gk_first : match g_sect_empty_first G with
             | None => nempty (g_sects G) = 0
             | Some f => 0 < nempty (g_sects G) /\ exists pre sb post,
                 g_sects G = pre ++ sb :: post /\ s_bda sb = f /\ Forall full pre
             end }.

Record grp_ok (H : history) (lo hi : nat) (G : pfs_trimgroup) : Prop := {
  gk_lo : g_ltxid G = T0 + Z.of_nat lo;
  gk_hi : g_rtxid G = T0 + Z.of_nat hi;
  gk_le : (lo <= hi <= length H)%nat;
  gk_off : g_roffset G = LE_SIZE * ((O0 + pos H hi) mod nslots);
  gk_sects : sects_ok H lo hi [] (concat (drop lo (take hi H))) G }.

Definition grp_empty (G : pfs_trimgroup) : Prop :=
  g_ltxid G = g_rtxid G /\ g_nsects G = 0 /\ g_nsects_empty G = 0 /\ g_sect_empty_first G = None /\
  g_sects G = [] /\ g_rootp G = ∅.

(** ** Insertion *)
Record op_of (top : pfs_txop) (le : pfs_logentry_phy) : Prop := {
  oo_bda : top_bda top = le_sector_bda le;
  oo_idx : top_idx top = le_obj_idx le;
  oo_local : top_local top = le_obj_val le;
  oo_buf : top_buf top = Some (le_sector_bda le) }.

Lemma sync_bda sb top : s_bda (pfs_sectbuf_sync sb top) = s_bda sb.
Proof. unfold pfs_sectbuf_sync. by destruct (s_buf sb). Qed.
Lemma sync_txid sb top : s_txid (pfs_sectbuf_sync sb top) = s_txid sb.
Proof. unfold pfs_sectbuf_sync. by destruct (s_buf sb). Qed.
Lemma sync_meta sb top : s_metabuf (pfs_sectbuf_sync sb top) = s_metabuf sb.
Proof. unfold pfs_sectbuf_sync. by destruct (s_buf sb). Qed.
Lemma sync_some sb top : is_some (s_buf (pfs_sectbuf_sync sb top)) = is_some (s_buf sb).
Proof. unfold pfs_sectbuf_sync. by destruct (s_buf sb) eqn:E; simpl; rewrite ?E. Qed.

(** The last write of a transaction to an object is its state after it. *)
Lemma state_last H hi es dn le rem :
  H !! hi = Some es -> es = dn ++ le :: rem ->
  (Z.to_nat (le_obj_idx le) < length (S0 (le_sector_bda le)))%nat ->
  ~ touched rem (le_sector_bda le) (Z.to_nat (le_obj_idx le)) ->
  state H (S hi) (le_sector_bda le) !! Z.to_nat (le_obj_idx le) = Some (le_obj_val le).
Proof.
  intros Hes -> Hlt Hnt. unfold LogInv.state. rewrite (take_S_r _ _ _ Hes), concat_snoc, foldl_app.
  change (dn ++ le :: rem) with (dn ++ [le] ++ rem). rewrite !foldl_app, apply_untouched by done. simpl.
  unfold le_apply at 1. rewrite fn_lookup_insert, list_lookup_insert_eq; [done|].
  by rewrite !length_apply.
Qed.

Lemma buf_ok_sync H hi es dn le rem buf :
  (S hi <= length H)%nat -> H !! hi = Some es -> es = dn ++ le :: rem -> 
  (Z.to_nat (le_obj_idx le) < length (S0 (le_sector_bda le)))%nat ->
  buf_ok H (S hi) (le :: rem) (le_sector_bda le) buf ->
  buf_ok H (S hi) rem (le_sector_bda le) (<[Z.to_nat (le_obj_idx le) := le_obj_val le]> buf).
Proof.
  intros Hhi Hes Ees Hlt [Hl Hb]. split; [by rewrite length_insert|]. intros i.
  destruct (decide (Z.to_nat (le_obj_idx le) = i)) as [<-|Hne].
  - destruct (touched_dec rem (le_sector_bda le) (Z.to_nat (le_obj_idx le))) as [?|Hnt]; [by left|].
    right. exists (S hi). split; [lia|]. rewrite list_lookup_insert_eq by lia. symmetry.
    by eapply state_last.
  - rewrite list_lookup_insert_ne by done. destruct (Hb i) as [Ht|?]; [|by right].
    left. apply touched_cons in Ht as [[_ ?]|?]; [done|done].
Qed.

Lemma sb_ok_other H lo hi le rem sb :
  s_bda sb <> le_sector_bda le -> sb_ok H lo hi (le :: rem) sb -> sb_ok H lo hi rem sb.
Proof.
  intros Hne [H1 H2 H3]. split; [done|done|]. intros buf E. destruct (H3 buf E) as [? Hb]. split; [done|].
  intros i. destruct (Hb i) as [Ht|?]; [|by right]. left. apply touched_cons in Ht as [[? _]|?]; [congruence|done].
Qed.

(** The sector is in the group already. *)
Lemma insert_op_old H lo hi es dn le rem cov G top :
  (S hi <= length H)%nat -> (lo <= hi)%nat -> H !! hi = Some es -> es = dn ++ le :: rem -> op_of top le ->
  (Z.to_nat (le_obj_idx le) < length (S0 (le_sector_bda le)))%nat ->
  le_sector_bda le ∈ (s_bda <$> g_sects G) ->
  sects_ok H lo (S hi) (le :: rem) cov G ->
  exists G', trimgroup_insert_op (T0 + Z.of_nat (S hi)) G top = Some G' /\
    sects_ok H lo (S hi) rem (cov ++ [le]) G' /\
    g_ltxid G' = g_ltxid G /\ g_rtxid G' = g_rtxid G /\ g_roffset G' = g_roffset G.
Proof.
  intros Hhi Hlo Hes Ees [O1 O2 O3 O4] Hlt Hin [Hsb Hnd Hroot Hns Hne Hcov Hfirst].
  unfold trimgroup_insert_op. cbn [pfs_sectbuf_bind s_bda s_txid]. rewrite O1.
  rewrite bool_decide_eq_true_2 by (by apply Hroot).
  destruct (in_split_bda _ _ Hin) as (pre & sb & post & El & Eb). rewrite El in *. rewrite <- Eb.
  rewrite (sect_find_split pre post sb Hnd).
  apply Forall_app in Hsb as [Hpre [Hsb Hpost]%Forall_cons].
  destruct (split_notin pre post sb Hnd) as [Hnp Hnq].
  destruct (Z.leb_spec (s_txid sb) (T0 + Z.of_nat (S hi))) as [_|Hbad]; [|pose proof (sb_txid _ _ _ _ _ Hsb); lia].
  set (sb2 := pfs_sectbuf_sync (set_s_txid (T0 + Z.of_nat (S hi)) sb) top).
  assert (Eb2 : s_bda sb2 = s_bda sb) by (unfold sb2; by rewrite sync_bda).
  assert (Es2 : is_some (s_buf sb2) = is_some (s_buf sb)) by (unfold sb2; by rewrite sync_some).
  assert (Hok2 : sb_ok H lo (S hi) rem sb2).
  { split.
    - unfold sb2. rewrite sync_txid. simpl. lia.
    - unfold sb2. rewrite sync_meta, sync_bda. apply Hsb.
    - rewrite Eb2. intros buf. unfold sb2, pfs_sectbuf_sync. simpl.
      destruct (s_buf sb) as [b|] eqn:Esb; simpl; [|by rewrite Esb]. intros [= <-]. rewrite O2, O3, Eb.
      eapply buf_ok_sync; try done. rewrite <- Eb. by apply Hsb. }
  assert (Hnem : nempty (pre ++ post ++ [sb2]) = nempty (pre ++ sb :: post)).
  { rewrite !nempty_app, !nempty_cons, Es2. change (nempty []) with 0. lia. }
  assert (Hpre' : Forall (sb_ok H lo (S hi) rem) pre).
  { apply Forall_forall. intros x Hx. rewrite Forall_forall in Hpre. apply (sb_ok_other _ _ _ le); [|by apply Hpre].
    intros E. apply Hnp. rewrite Eb, <- E. by apply list_elem_of_fmap_2. }
  assert (Hpost' : Forall (sb_ok H lo (S hi) rem) post).
  { apply Forall_forall. intros x Hx. rewrite Forall_forall in Hpost. apply (sb_ok_other _ _ _ le); [|by apply Hpost].
    intros E. apply Hnq. rewrite Eb, <- E. by apply list_elem_of_fmap_2. }
  rewrite Eb2, (sect_next_split pre post sb Hnd), (sect_remove_split pre post sb Hnd), Es2.
  assert (Hass : (is_some (g_sect_empty_first G) || is_some (s_buf sb))%bool = true).
  { destruct (g_sect_empty_first G); [done|]. simpl. apply nempty_full in Hfirst.
    by apply Forall_app in Hfirst as [_ [? _]%Forall_cons]. }
  rewrite Hass. eexists. split; [done|]. split; [|done]. rewrite <- app_assoc.
  assert (Hperm : s_bda <$> (pre ++ post ++ [sb2]) ≡ₚ s_bda <$> (pre ++ sb :: post)).
  { rewrite !fmap_app, fmap_cons. simpl. rewrite Eb2. apply Permutation_app_head.
    symmetry. apply Permutation_cons_append. }
  split; cbn [g_sects g_rootp g_nsects g_nsects_empty g_sect_empty_first].
  - apply Forall_app. split; [done|]. apply Forall_app. split; [done|]. by constructor.
  - by rewrite Hperm.
  - intros b. by rewrite Hperm.
  - rewrite Hns, !length_app. simpl. lia.
  - congruence.
  - intros x Hx. rewrite Hperm. apply elem_of_app in Hx as [Hx|Hx]; [by apply Hcov|].
    apply list_elem_of_singleton in Hx as ->. done.
  - destruct (g_sect_empty_first G) as [f|]; simpl; [|congruence].
    destruct Hfirst as [Hpos (pre' & sf & post' & El' & Ef & Hfull)]. rewrite Hnem.
    destruct (decide (f = s_bda sb)) as [->|Hf].
    + rewrite bool_decide_eq_true_2 by done.
      assert (pre' = pre /\ sf = sb /\ post' = post) as (-> & -> & ->).
      { apply (split_unique pre' post' sf pre post sb); [by rewrite <- El'|by rewrite <- El'|done]. }
      simpl. destruct post as [|p post]; simpl.
      * split; [done|]. by exists pre, sb2, [].
      * split; [done|]. by exists pre, p, (post ++ [sb2]).
    + rewrite bool_decide_eq_false_2 by congruence. simpl. split; [done|].
      destruct (split_move pre' post' sf pre post sb sb2) as (p & q & E & Hp); [by rewrite <- El'|by rewrite <- El'| |].
      { congruence. }
      exists p, sf, q. split_and!; [done|done|]. apply Forall_forall. intros x Hx. rewrite Forall_forall in Hfull.
      by apply Hfull, Hp.
Qed.

(** The sector is new. *)
Lemma insert_op_new H lo hi le rem cov G top :
  (lo <= hi)%nat -> op_of top le -> ~ (le_sector_bda le ∈ (s_bda <$> g_sects G)) ->
  sects_ok H lo (S hi) (le :: rem) cov G ->
  exists G', trimgroup_insert_op (T0 + Z.of_nat (S hi)) G top = Some G' /\
    sects_ok H lo (S hi) rem (cov ++ [le]) G' /\
    g_ltxid G' = g_ltxid G /\ g_rtxid G' = g_rtxid G /\ g_roffset G' = g_roffset G.
Proof.
  intros Hlo [O1 O2 O3 O4] Hnin [Hsb Hnd Hroot Hns Hne Hcov Hfirst].
  unfold trimgroup_insert_op, pfs_sectbuf_bind. cbn [s_bda s_txid]. rewrite O1, O4.
  rewrite bool_decide_eq_false_2 by (by rewrite Hroot).
  set (sb := MkSb (T0 + Z.of_nat (S hi)) (le_sector_bda le) (Some (le_sector_bda le)) None).
  assert (Hass : negb ((g_nsects_empty G =? 0) && is_some (g_sect_empty_first G)) = true).
  { rewrite Hne. destruct (g_sect_empty_first G); [|by rewrite andb_false_r].
    destruct Hfirst as [Hpos _]. destruct (Z.eqb_spec (nempty (g_sects G)) 0); [lia|done]. }
  rewrite Hass. eexists. split; [done|]. split; [|done].
  split; cbn [g_sects g_rootp g_nsects g_nsects_empty g_sect_empty_first].
  - apply Forall_app. split.
    + apply Forall_forall. intros x Hx. rewrite Forall_forall in Hsb. apply (sb_ok_other _ _ _ le); [|by apply Hsb].
      intros E. apply Hnin. rewrite <- E. by apply list_elem_of_fmap_2.
    + constructor; [|done]. split; simpl; [lia|done|done].
  - rewrite fmap_app. apply NoDup_app. split_and!; [done| |apply NoDup_singleton].
    intros x Hx ->%list_elem_of_singleton. done.
  - intros b. rewrite elem_of_union, elem_of_singleton, Hroot, fmap_app, elem_of_app. simpl.
    rewrite list_elem_of_singleton. tauto.
  - rewrite Hns, length_app. simpl. lia.
  - rewrite Hne, nempty_app. done.
  - intros x Hx. rewrite fmap_app. apply elem_of_app in Hx as [Hx|Hx]; apply elem_of_app.
    + left. by apply Hcov.
    + right. apply list_elem_of_singleton in Hx as ->. by apply list_elem_of_singleton.
  - rewrite Hne, nempty_app. change (nempty [sb]) with 1.
    destruct (Z.eqb_spec (nempty (g_sects G)) 0) as [E|E].
    + split; [lia|]. exists (g_sects G), sb, []. split_and!; [done|done|]. by apply nempty_full.
    + destruct (g_sect_empty_first G) as [f|]; [|done]. destruct Hfirst as [Hpos (pre & sf & post & El & Ef & Hf)].
      split; [lia|]. exists pre, sf, (post ++ [sb]). rewrite El, <- app_assoc. done.
Qed.

Lemma insert_ops_ok H lo hi es ops : forall dn rem cov G,
  (lo <= hi)%nat -> H !! hi = Some es -> es = dn ++ rem ->
  Forall (fun le => (Z.to_nat (le_obj_idx le) < length (S0 (le_sector_bda le)))%nat) rem ->
  Forall2 op_of ops rem -> sects_ok H lo (S hi) rem cov G ->
  exists G', trimgroup_insert_ops (T0 + Z.of_nat (S hi)) G ops = Some G' /\
    sects_ok H lo (S hi) [] (cov ++ rem) G' /\
    g_ltxid G' = g_ltxid G /\ g_rtxid G' = g_rtxid G /\ g_roffset G' = g_roffset G.
Proof.
  induction ops as [|top ops IH]; intros dn rem cov G Hlo Hes Ees Hpl Hops HG; inversion Hops; subst; simpl.
  - exists G. rewrite app_nil_r. done.
  - apply Forall_cons in Hpl as [Hlt Hpl]. rename y into le. rename l' into rem.
    assert (Hhi : (S hi <= length H)%nat) by (apply lookup_lt_Some in Hes; lia).
    assert (Hop : exists G', trimgroup_insert_op (T0 + Z.of_nat (S hi)) G top = Some G' /\
      sects_ok H lo (S hi) rem (cov ++ [le]) G' /\
      g_ltxid G' = g_ltxid G /\ g_rtxid G' = g_rtxid G /\ g_roffset G' = g_roffset G).
    { destruct (decide (le_sector_bda le ∈ (s_bda <$> g_sects G))).
      - by eapply insert_op_old.
      - by eapply insert_op_new. }
    destruct Hop as (G1 & -> & HG1 & E1 & E2 & E3).
    destruct (IH (dn ++ [le]) rem (cov ++ [le]) G1) as (G2 & -> & HG2 & E4 & E5 & E6); try done.
    { by rewrite <- app_assoc. }
    exists G2. rewrite <- app_assoc in HG2. split_and!; [done|done|congruence..].
Qed.

(** A group still covers when the history goes on. *)
Lemma sects_ok_next H lo hi es cov G :
  H !! hi = Some es -> sects_ok H lo hi [] cov G -> sects_ok H lo (S hi) es cov G.
Proof.
  intros Hes [Hsb Hnd Hroot Hns Hne Hcov Hfirst]. split; try done.
  apply Forall_forall. intros sb Hin. rewrite Forall_forall in Hsb. destruct (Hsb sb Hin) as [H1 H2 H3].
  split; [lia|done|]. intros buf E. destruct (H3 buf E) as [Hl Hb]. split; [done|]. intros i.
  destruct (touched_dec es (s_bda sb) i) as [?|Hnt]; [by left|]. right.
  destruct (Hb i) as [(? & ?%elem_of_nil & _)|(j & Hj & E')]; [done|].
  pose proof (lookup_lt_Some _ _ _ Hes). destruct (decide (j = hi)) as [->|]; [|exists j; split; [lia|done]].
  exists (S hi). split; [lia|]. rewrite E'. symmetry. apply state_untouched; [lia|].
  rewrite (take_S_r _ _ _ Hes), drop_app_ge by (rewrite length_take; lia).
  rewrite length_take. replace (hi - hi `min` length H)%nat with 0%nat by lia. simpl. by rewrite app_nil_r.
Qed.

Lemma trimgroup_insert_ok H lo hi es ops G :
  grp_ok H lo hi G -> H !! hi = Some es -> Forall2 op_of ops es ->
  Forall (fun le => (Z.to_nat (le_obj_idx le) < length (S0 (le_sector_bda le)))%nat) es ->
  Z.of_nat (length es) <= nslots ->
  exists G', pfs_trimgroup_insert G (T0 + Z.of_nat (S hi)) (LE_SIZE * Z.of_nat (length es)) ops (LE_SIZE * nslots)
    = Some G' /\ grp_ok H lo (S hi) G'.
Proof.
  intros [H1 H2 H3 H4 H5] Hes Hops Hpl Hlen. unfold pfs_trimgroup_insert. rewrite H2.
  destruct (Z.eqb_spec (T0 + Z.of_nat (S hi)) (T0 + Z.of_nat hi + 1)) as [_|]; [|lia].
  destruct (insert_ops_ok H lo hi es ops [] es _ G ltac:(lia) Hes eq_refl Hpl Hops
    (sects_ok_next _ _ _ _ _ _ Hes H5)) as (G' & -> & [Q1 Q2 Q3 Q4 Q5 Q6 Q7] & E1 & E2 & E3).
  eexists. split; [done|]. pose proof (lookup_lt_Some _ _ _ Hes).
  split; cbn [g_ltxid g_rtxid g_roffset].
  - congruence.
  - done.
  - lia.
  - rewrite E3, H4, off_add_slot; [|apply Z.mod_pos_bound; lia|lia].
    rewrite Z.add_mod_idemp_l by lia. do 2 f_equal. rewrite (pos_split H hi (S hi)) by lia.
    rewrite (take_S_r _ _ _ Hes), drop_app_ge by (rewrite length_take; lia).
    rewrite length_take. replace (hi - hi `min` length H)%nat with 0%nat by lia.
    simpl. rewrite app_nil_r. lia.
  - split; try done. cbn [g_sects]. intros le Hle. apply Q6.
    rewrite (take_S_r _ _ _ Hes), drop_app_le in Hle by (rewrite length_take; lia).
    by rewrite concat_snoc in Hle.
Qed.

Lemma grp_ok_app H es lo hi G : grp_ok H lo hi G -> grp_ok (H ++ [es]) lo hi G.
Proof.
  intros [H1 H2 H3 H4 [Q1 Q2 Q3 Q4 Q5 Q6 Q7]]. split; try done.
  - rewrite length_app. lia.
  - by rewrite pos_app by lia.
  - rewrite take_app_le by lia. split; try done.
    apply Forall_forall. intros sb Hin. rewrite Forall_forall in Q1. destruct (Q1 sb Hin) as [R1 R2 R3].
    split; [done|done|]. intros buf E. destruct (R3 buf E) as [Hl Hb]. split; [done|]. intros i.
    destruct (Hb i) as [?|(j & Hj & Ej)]; [by left|right]. exists j. rewrite length_app. split; [lia|].
    by rewrite state_app by lia.
Qed.

(** ** Copying sectors *)
Definition copied (mem : meta) (sb sb' : pfs_sectbuf) : Prop :=
  sb' = sb \/ (s_buf sb = None /\ sb' = set_s_buf (Some (mem (s_bda sb))) sb).

Lemma copied_refl mem l : Forall2 (copied mem) l l.
Proof. apply Forall_Forall2_diag, Forall_forall. by left. Qed.

Lemma copied_bda mem l l' : Forall2 (copied mem) l l' -> s_bda <$> l' = s_bda <$> l.
Proof.
  induction 1 as [|sb sb' l l' Hc _ IH]; [done|]. rewrite !fmap_cons, IH. f_equal.
  by destruct Hc as [->|[_ ->]].
Qed.

(** Where the copying stopped. *)
Definition stopped (l : list pfs_sectbuf) (p : option Z) : Prop :=
  nempty l = 0 \/ exists f pre sb post, p = Some f /\ l = pre ++ sb :: post /\ s_bda sb = f /\ Forall full pre.

Lemma stopped_cons sb l p : full sb -> stopped l p -> stopped (sb :: l) p.
Proof.
  intros Hf [E|(f & pre & x & post & -> & -> & Ex & Hp)].
  - left. rewrite nempty_cons, E. unfold full in Hf. by rewrite Hf.
  - right. exists f, (sb :: pre), x, post. split_and!; [done..|]. by constructor.
Qed.

(** All are copied when [nswapin] allows it. *)
Lemma swapin_ok mem l : forall nswapin,
  Forall (fun sb => s_metabuf sb = Some (s_bda sb)) l -> 0 < nempty l ->
  exists l' p, swapin mem l nswapin (nempty l) = Some (l', nempty l', p) /\
    Forall2 (copied mem) l l' /\ stopped l' p /\ (nempty l <= nswapin -> nempty l' = 0).
Proof.
  induction l as [|sb l IH]; intros nswapin Hm Hpos; [done|]. apply Forall_cons in Hm as [Hmb Hm].
  cbn [swapin]. rewrite nempty_cons in *. destruct (s_buf sb) as [b|] eqn:Eb; cbn [is_some] in *.
  - rewrite Z.add_0_l in *. destruct (IH nswapin Hm Hpos) as (l' & p & -> & Hc & Hs & Ha).
    exists (sb :: l'), p. rewrite nempty_cons, Eb. split; [done|]. split; [constructor; [by left|done]|].
    split; [|done]. apply stopped_cons; [|done]. unfold full. by rewrite Eb.
  - rewrite Hmb. set (sb' := set_s_buf (Some (mem (s_bda sb))) sb).
    assert (Hc' : copied mem sb sb') by (by right).
    replace (1 + nempty l - 1) with (nempty l) by lia. destruct (Z.eqb_spec (nempty l) 0) as [E0|E0].
    + exists (sb' :: l), (Some (s_bda sb')). split_and!.
      * by rewrite nempty_cons.
      * constructor; [done|apply copied_refl].
      * left. by rewrite nempty_cons.
      * intros _. by rewrite nempty_cons.
    + pose proof (nempty_nonneg l). destruct (Z.eqb_spec (nswapin - 1) 0) as [E1|E1].
      * exists (sb' :: l), (s_bda <$> head l). split_and!.
        -- by rewrite nempty_cons.
        -- constructor; [done|apply copied_refl].
        -- right. destruct l as [|x l]; [done|]. exists (s_bda x), [sb'], x, l.
           split_and!; [done..|]. by repeat constructor.
        -- lia.
      * destruct (IH (nswapin - 1) Hm ltac:(lia)) as (l' & p & -> & Hc & Hs & Ha).
        exists (sb' :: l'), p. rewrite nempty_cons. split_and!; [done|by constructor|by apply stopped_cons|].
        intros. apply Ha. lia.
Qed.

Lemma swapin_from_ok mem pre sb post nswapin :
  NoDup (s_bda <$> (pre ++ sb :: post)) -> Forall full pre ->
  Forall (fun sb => s_metabuf sb = Some (s_bda sb)) (pre ++ sb :: post) ->
  0 < nempty (pre ++ sb :: post) ->
  exists l' p, swapin_from mem (s_bda sb) (pre ++ sb :: post) nswapin (nempty (pre ++ sb :: post)) = Some (l', nempty l', p) /\
    Forall2 (copied mem) (pre ++ sb :: post) l' /\ stopped l' p /\
    (nempty (pre ++ sb :: post) <= nswapin -> nempty l' = 0).
Proof.
  intros Hnd Hf Hm Hpos. destruct (split_notin pre post sb Hnd) as [Hni _]. clear Hnd.
  assert (Ef : nempty (pre ++ sb :: post) = nempty (sb :: post)).
  { rewrite nempty_app, (proj2 (nempty_full pre) Hf). done. }
  rewrite Ef in *. clear Ef. induction pre as [|x pre IH]; cbn [app swapin_from].
  - rewrite Z.eqb_refl. by apply swapin_ok.
  - apply Forall_cons in Hf as [Hfx Hf]. cbn [app] in Hm. apply Forall_cons in Hm as [_ Hm].
    apply not_elem_of_cons in Hni as [Hne Hni].
    destruct (Z.eqb_spec (s_bda x) (s_bda sb)); [congruence|].
    destruct (IH Hf Hm Hni) as (l' & p & -> & Hc & Hs & Ha). exists (x :: l'), p.
    assert (En : nempty (x :: l') = nempty l') by (rewrite nempty_cons; unfold full in Hfx; by rewrite Hfx).
    rewrite En. split_and!; [done|constructor; [by left|done]|by apply stopped_cons|done].
Qed.

Lemma copied_sects_ok H lo hi cov G mem l' p :
  (hi <= length H)%nat -> (forall b, length (mem b) = length (S0 b)) ->
  (forall b i, mem b !! i = state H (length H) b !! i) ->
  sects_ok H lo hi [] cov G -> Forall2 (copied mem) (g_sects G) l' -> stopped l' p ->
  sects_ok H lo hi [] cov (set_g_swap l' (nempty l') (if nempty l' =? 0 then None else p) G).
Proof.
  intros Hhi Hml Hm [Q1 Q2 Q3 Q4 Q5 Q6 Q7] Hc Hs. pose proof (copied_bda _ _ _ Hc) as Eb.
  split; cbn [set_g_swap g_sects g_rootp g_nsects g_nsects_empty g_sect_empty_first]; rewrite ?Eb; try done.
  - clear -Hc Q1 Hhi Hm Hml. induction Hc as [|sb sb' l l' Hc _ IH]; [done|]. apply Forall_cons in Q1 as [Qa Q1].
    constructor; [|by apply IH]. destruct Hc as [->|[_ ->]]; [done|]. destruct Qa as [R1 R2 _].
    split; [done|done|]. intros buf [= <-]. split; [apply Hml|]. intros i. right. exists (length H).
    split; [lia|]. apply Hm.
  - by rewrite Q4, (Forall2_length _ _ _ Hc).
  - destruct (Z.eqb_spec (nempty l') 0) as [E|E]; [done|].
    destruct Hs as [?|(f & pre & sb & post & -> & -> & Ef & Hf)]; [done|].
    pose proof (nempty_nonneg (pre ++ sb :: post)). split; [lia|]. by exists pre, sb, post.
Qed.

(** ** The two groups

    The waiting group covers (t, w], the work group (w, r]. *)
Definition grps_ok (H : history) (t w r : nat) (work wait : pfs_trimgroup) : Prop :=
  grp_ok H w r work /\
  ((grp_empty wait /\ w = t) \/ (grp_ok H t w wait /\ (t < w)%nat /\ Forall full (g_sects wait))).

Lemma grps_ok_app H es t w r work wait :
  grps_ok H t w r work wait -> grps_ok (H ++ [es]) t w r work wait.
Proof.
  intros [H1 [H2|(H2 & H3 & H4)]]; (split; [by apply grp_ok_app|]); [by left|right].
  split_and!; [by apply grp_ok_app|done|done].
Qed.

Lemma grp_ok_nosect H lo G : grp_ok H lo lo G -> grp_empty G.
Proof.
  intros [H1 H2 _ _ [Q1 Q2 Q3 Q4 Q5 Q6 Q7]].
  assert (E : g_sects G = []).
  { destruct (g_sects G) as [|sb l]; [done|]. apply Forall_cons in Q1 as [[R1 _ _] _]. lia. }
  rewrite E in *. unfold grp_empty. split_and!.
  - congruence.
  - done.
  - done.
  - destruct (g_sect_empty_first G); [|done]. destruct Q7 as [Hlt _]. by change (nempty []) with 0 in Hlt.
  - done.
  - apply set_eq. intros b. rewrite Q3. simpl. rewrite elem_of_nil.
    split; [done|by intros ?%not_elem_of_empty].
Qed.

Section Swap.
Context (ss : Z) {hang halt : Prop} (trimgroup_nsect_threshold trimgroup_ntx_threshold trimgroup_nsects_swapinmax : Z).

(** The groups stay, or the empty waiting group was exchanged. *)
Definition swapped (t w r w' : nat) : Prop := w' = w \/ (t = w /\ w' = r).

Lemma tryswap_direct_ok H t w r log force :
  grps_ok H t w r (log_workgrp log) (log_waitgrp log) -> g_nsects_empty (log_workgrp log) = 0 ->
  exists work wait rv w', tryswap_direct trimgroup_nsect_threshold trimgroup_ntx_threshold log force
    = (set_log_grps work wait log, rv) /\ grps_ok H t w' r work wait /\ swapped t w r w' /\
    (force = true -> t = w -> w' = r).
Proof.
  intros [Hk Hw] He. assert (Hsame : (force = true -> t <> w) -> exists work wait rv w',
    (log, 0) = (set_log_grps work wait log, rv) /\
    grps_ok H t w' r work wait /\ swapped t w r w' /\ (force = true -> t = w -> w' = r)).
  { intros Hfr. exists (log_workgrp log), (log_waitgrp log), 0, w. split; [by destruct log|]. split; [by split|].
    split; [by left|]. intros Ef ->. by destruct Hfr. }
  unfold tryswap_direct. destruct (Z.gtb_spec (pfs_trimgroup_ntx (log_waitgrp log)) 0) as [Hntx|Hntx].
  { apply Hsame. intros _ ->. unfold pfs_trimgroup_ntx in Hntx. destruct Hw as [[(E1 & _) _]|(_ & ? & _)]; lia. }
  destruct (negb force && _ && _)%bool eqn:Eb.
  { apply Hsame. intros ->. simpl in Eb. done. }
  destruct Hw as [[(E1 & E2 & E3 & E4 & E5 & E6) ->]|(Hw & Hlt & _)].
  2: { unfold pfs_trimgroup_ntx in Hntx. rewrite (gk_lo _ _ _ _ Hw), (gk_hi _ _ _ _ Hw) in Hntx. lia. }
  eexists _, _, _, r. split; [done|]. rewrite E2, E3, E4, E5, E6.
  pose proof (gk_le _ _ _ _ Hk). split; [|split; [by right|done]]. split.
  - split; cbn [g_ltxid g_rtxid g_roffset]; try apply Hk; [lia|].
    split; cbn [g_sects g_rootp g_nsects g_nsects_empty g_sect_empty_first]; try done.
    + by constructor.
    + intros b. simpl. rewrite elem_of_nil. split; [by intros ?%not_elem_of_empty|done].
    + intros le. rewrite drop_ge by (rewrite length_take; lia). by intros ?%elem_of_nil.
  - destruct (decide (t = r)) as [->|].
    + left. split; [by eapply grp_ok_nosect|done].
    + right. split_and!; [done|lia|]. apply nempty_full. pose proof (gk_sects _ _ _ _ Hk) as Hs.
      by rewrite <- (gk_nempty _ _ _ _ _ _ Hs).
Qed.

(** What a swap can do; a forced one for a waiting write empties the work
    group if it can. *)
Definition swap_done (H : history) (t w r : nat) (log : pfs_log) (force : bool) (ty : Z) (log' : pfs_log)
    (work wait : pfs_trimgroup) (w' : nat) : Prop :=
  log' = set_log_grps work wait log /\ grps_ok H t w' r work wait /\ swapped t w r w' /\
  ((force && (ty =? LOG_WRITE) && mnt_writable (log_mount log) = true)%bool -> t = w -> w' = r).

Lemma tryswap_ok (I : disk -> Prop) H t w r log mem force ty d :
  I d -> grps_ok H t w r (log_workgrp log) (log_waitgrp log) ->
  (forall b, length (mem b) = length (S0 b)) ->
  (forall b i, mem b !! i = state H (length H) b !! i) ->
  safe (hang := hang) (halt := halt) nslots ss I (fun '(log', _) d' => d' = d /\ exists work wait w',
      swap_done H t w r log force ty log' work wait w')
    (pfs_log_tryswap_trimgroup trimgroup_nsect_threshold trimgroup_ntx_threshold trimgroup_nsects_swapinmax
       log mem force ty) d.
Proof.
  intros HI Hg Hml Hm. assert (Hsame : (force && (ty =? LOG_WRITE) && mnt_writable (log_mount log) = false)%bool ->
    exists work wait w', swap_done H t w r log force ty log work wait w').
  { intros Hf. exists (log_workgrp log), (log_waitgrp log), w. split; [by destruct log|]. split; [done|].
    split; [by left|]. rewrite Hf. done. }
  unfold pfs_log_tryswap_trimgroup. destruct (mnt_writable _) eqn:Ewr; cbn [negb].
  2: { split; [done|]. split; [done|]. apply Hsame. apply andb_false_r. }
  destruct (Z.eqb_spec (g_nsects_empty (log_workgrp log)) 0) as [E0|E0].
  { destruct (tryswap_direct_ok H t w r log force Hg E0) as (work & wait & rv & w' & -> & Hg' & Hsw & Hf).
    split; [done|]. split; [done|]. exists work, wait, w'. do 3 (split; [done|]). intros Hb. apply Hf. by destruct force. }
  destruct (negb force && _ && _)%bool eqn:Eb.
  { split; [done|]. split; [done|]. apply Hsame. by destruct force. }
  pose proof Hg as [Hk Hw]. pose proof (gk_sects _ _ _ _ Hk) as Hs.
  pose proof (gk_first _ _ _ _ _ _ Hs) as Hf. rewrite (gk_nempty _ _ _ _ _ _ Hs) in *.
  destruct (g_sect_empty_first (log_workgrp log)) as [f|]; [|done].
  destruct Hf as [Hpos (pre & sb & post & El & <- & Hfull)].
  assert (Hcopy : forall n, (force = true -> nempty (g_sects (log_workgrp log)) <= n) -> safe (hang := hang) (halt := halt) nslots ss I (fun '(log', _) d' => d' = d /\ exists work wait w',
      swap_done H t w r log force ty log' work wait w')
    (logio_bind (lift (swapin_from mem (s_bda sb) (g_sects (log_workgrp log)) n (nempty (g_sects (log_workgrp log)))))
      (fun '(sects, nempty, sb) => if negb (nempty =? 0)
         then if is_some sb then LRet (set_log_grps (set_g_swap sects nempty sb (log_workgrp log)) (log_waitgrp log) log, nempty) else LAbort
         else LRet (tryswap_direct trimgroup_nsect_threshold trimgroup_ntx_threshold
            (set_log_grps (set_g_swap sects nempty None (log_workgrp log)) (log_waitgrp log) log) force))) d).
  { intros n Hnn. assert (Hmeta : Forall (fun sb => s_metabuf sb = Some (s_bda sb)) (g_sects (log_workgrp log))).
    { eapply Forall_impl; [apply (gk_sb _ _ _ _ _ _ Hs)|]. by intros x []. }
    pose proof (gk_nodup _ _ _ _ _ _ Hs) as Hnd.
    assert (Hsw : exists l' p, swapin_from mem (s_bda sb) (g_sects (log_workgrp log)) n (nempty (g_sects (log_workgrp log)))
      = Some (l', nempty l', p) /\ Forall2 (copied mem) (g_sects (log_workgrp log)) l' /\ stopped l' p /\
      (nempty (g_sects (log_workgrp log)) <= n -> nempty l' = 0)).
    { rewrite El in *. by apply swapin_from_ok. }
    destruct Hsw as (l' & p & -> & Hc & Hst & Hall). cbn [lift logio_bind].
    pose proof (copied_sects_ok H w r _ (log_workgrp log) mem l' p (proj2 (gk_le _ _ _ _ Hk)) Hml Hm Hs Hc Hst) as Hs'.
    assert (Hk' : grp_ok H w r (set_g_swap l' (nempty l') (if nempty l' =? 0 then None else p) (log_workgrp log))).
    { split; try apply Hk. done. }
    destruct (Z.eqb_spec (nempty l') 0) as [En|En]; cbn [negb].
    - destruct (tryswap_direct_ok H t w r (set_log_grps (set_g_swap l' (nempty l') None (log_workgrp log)) (log_waitgrp log) log) force)
        as (work & wait & rv & w' & -> & Hg' & Hsw & Hf); [by split|done|]. split; [done|]. split; [done|].
      exists work, wait, w'. split; [by destruct log|]. do 2 (split; [done|]). intros Hb. apply Hf. by destruct force.
    - destruct Hst as [?|(f & pre' & sb' & post' & -> & _)]; [done|]. cbn [is_some].
      split; [done|]. split; [done|]. eexists _, _, w. split; [done|]. split; [by split|]. split; [by left|].
      intros Hb. destruct force; [|done]. by destruct En; apply Hall, Hnn. }
  assert (Hlim : force = true -> nempty (g_sects (log_workgrp log)) <=
    (if negb force && negb ((pfs_trimgroup_ntx (log_workgrp log) >=? trimgroup_ntx_threshold)
       || (pfs_trimgroup_nsectors (log_workgrp log) >=? trimgroup_nsect_threshold)) then trimgroup_nsects_swapinmax
     else nempty (g_sects (log_workgrp log)))) by (by intros ->).
  destruct (ty =? LOG_WRITE) eqn:Ety; cbn [negb]; [by apply Hcopy|].
  split; [done|]. intros [|]; [by apply Hcopy|]. split; [done|]. split; [done|]. apply Hsame. by rewrite andb_false_r.
Qed.
End Swap.

(** ** Dropping a written group *)
Lemma delete_all to l : forall G,
  Forall (fun sb => s_txid sb <= to /\ full sb) l -> g_sects G = l -> g_sect_empty_first G = None ->
  let G' := trimgroup_delete_sects to l G in
  g_sects G' = [] /\ g_nsects G' = g_nsects G - Z.of_nat (length l) /\ g_nsects_empty G' = g_nsects_empty G /\
  g_sect_empty_first G' = None /\ g_ltxid G' = g_ltxid G /\ g_rtxid G' = g_rtxid G /\
  forall b, b ∈ g_rootp G' <-> b ∈ g_rootp G /\ ~ (b ∈ (s_bda <$> l)).
Proof.
  induction l as [|sb l IH]; intros G Hl El Ef G'; subst G'; simpl.
  - split_and!; try done; [lia|]. intros b. rewrite elem_of_nil. tauto.
  - apply Forall_cons in Hl as [[Ht Hf] Hl]. destruct (Z.leb_spec (s_txid sb) to); [|lia].
    unfold full in Hf. rewrite Hf, Ef. rewrite bool_decide_eq_false_2 by done.
    match goal with |- context [trimgroup_delete_sects to l ?G1] =>
      destruct (IH G1) as (H1 & H2 & H3 & H4 & H5 & H6 & H7); [done|done|done|] end.
    split_and!; [exact H1| |exact H3|exact H4|exact H5|exact H6|].
    + rewrite H2. simpl. lia.
    + intros b. rewrite H7. simpl. rewrite elem_of_difference, elem_of_singleton, elem_of_cons. tauto.
Qed.

Lemma delete_wait H t w G :
  grp_ok H t w G -> (t < w)%nat -> Forall full (g_sects G) ->
  grp_empty (pfs_trimgroup_delete G (T0 + Z.of_nat w)).
Proof.
  intros [H1 H2 H3 H4 [Q1 Q2 Q3 Q4 Q5 Q6 Q7]] Hlt Hf. unfold pfs_trimgroup_delete. rewrite H1.
  destruct (Z.leb_spec (T0 + Z.of_nat w) (T0 + Z.of_nat t)); [lia|].
  assert (He : nempty (g_sects G) = 0) by (by apply nempty_full).
  assert (Ef : g_sect_empty_first G = None).
  { destruct (g_sect_empty_first G); [|done]. destruct Q7 as [? _]. lia. }
  destruct (delete_all (T0 + Z.of_nat w) (g_sects G) G) as (E1 & E2 & E3 & E4 & E5 & E6 & E7); [|done|done|].
  { rewrite Forall_forall in Q1, Hf |- *. intros sb Hsb. split; [|by apply Hf].
    pose proof (sb_txid _ _ _ _ _ (Q1 sb Hsb)). lia. }
  unfold grp_empty. cbn [g_ltxid g_rtxid g_nsects g_nsects_empty g_sect_empty_first g_sects g_rootp].
  split_and!; try done.
  - rewrite E6, H2. lia.
  - rewrite E2, Q4. lia.
  - by rewrite E3, Q5.
  - apply set_eq. intros b. rewrite E7, Q3. split; [tauto|by intros ?%not_elem_of_empty].
Qed.

Lemma delete_work H w r G : grp_ok H w r G -> pfs_trimgroup_delete G (T0 + Z.of_nat w) = G.
Proof.
  intros [H1 _ _ _ _]. unfold pfs_trimgroup_delete. rewrite H1. by rewrite Z.leb_refl.
Qed.

(** ** Writing a group back *)
Definition sect_fresh (H : history) (w : nat) (d : disk) (b : Z) : Prop :=
  forall i, exists j, (w <= j <= length H)%nat /\ d_sect d b !! i = state H j b !! i.

Lemma sect_write_torn d b buf :
  length buf = length (d_sect d b) -> sect_torn d (set_d_sect (<[b := buf]> (d_sect d)) d) b buf.
Proof.
  intros Hl. split_and!; [done|done| | |]; cbn [d_sect set_d_sect].
  - intros b' Hb. by rewrite fn_lookup_insert_ne.
  - by rewrite fn_lookup_insert.
  - intros i. right. by rewrite fn_lookup_insert.
Qed.

Section Flush.
Context (ss : Z) {hang halt : Prop} (mnt : mount) (L0 : Z).
Hypothesis HS0good : forall b i o, S0 b !! i = Some o -> obj_good o.
Abbreviation rec_ok := (rec_ok nslots mnt locate S0 T0 L0 O0).

Lemma flush_sects_ok H t w lr : forall l n d dn,
  (t <= w <= length H)%nat -> 0 <= n -> d_leader d = lr ->
  Forall (sb_ok H t w []) l -> Forall full l -> rec_ok d H t -> (forall b, b ∈ dn -> sect_fresh H w d b) ->
  safe (hang := hang) (halt := halt) nslots ss (fun d => rec_ok d H t)
    (fun rv d' => rec_ok d' H t /\ d_leader d' = lr /\ (0 <= rv -> rv = n + Z.of_nat (length l) /\
       forall b, b ∈ dn ++ (s_bda <$> l) -> sect_fresh H w d' b))
    (trimgroup_flush_sects (T0 + Z.of_nat t) (T0 + Z.of_nat w) l n) d.
Proof.
  induction l as [|sb l IH]; intros n d dn Hw Hnn Hlr Hok Hf Hr Hd; cbn [trimgroup_flush_sects].
  { split; [done|]. split; [done|]. split; [done|]. intros _. split; [simpl; lia|]. simpl. by rewrite app_nil_r. }
  apply Forall_cons in Hok as [[R1 R2 R3] Hok]. apply Forall_cons in Hf as [Hfs Hf].
  replace ((s_txid sb >? T0 + Z.of_nat t) && (s_txid sb <=? T0 + Z.of_nat w))%bool with true
    by (symmetry; apply andb_true_iff; split; [apply Z.gtb_lt|apply Z.leb_le]; lia).
  unfold full in Hfs. destruct (s_buf sb) as [buf|] eqn:Eb; [|done].
  destruct (R3 buf eq_refl) as [Hlb Hb].
  assert (Hb' : forall i, exists j, (w <= j <= length H)%nat /\ buf !! i = state H j (s_bda sb) !! i).
  { intros i. destruct (Hb i) as [(? & ?%elem_of_nil & _)|?]; done. }
  assert (Htorn : forall d', sect_torn d d' (s_bda sb) buf -> rec_ok d' H t).
  { intros d'. by eapply rec_ok_sect. }
  split; [done|]. split.
  - intros d' Hd'. split; [by apply Htorn|]. intros rv Hrv. destruct (Z.ltb_spec rv 0); [|lia].
    split; [by apply Htorn|]. split; [by apply Htorn|]. split; [|lia].
    destruct Hd' as (_ & -> & _). done.
  - intros rv Hrv. destruct (Z.ltb_spec rv 0); [lia|].
    assert (Ht : sect_torn d (set_d_sect (<[s_bda sb := buf]> (d_sect d)) d) (s_bda sb) buf).
    { apply sect_write_torn. by rewrite Hlb, (rk_slen _ _ _ _ _ _ _ _ _ _ Hr). }
    set (d1 := set_d_sect _ d) in *.
    eapply (safe_mono _ _ (fun d => rec_ok d H t)); [done| |apply (IH (n + 1) d1 (dn ++ [s_bda sb])); try done; [lia|by apply Htorn|]].
    + intros rv' d' _ (Hr' & Hl' & Hx). split; [done|]. split; [done|]. intros Hrv'. destruct (Hx Hrv') as [-> Hfr].
      split; [simpl; lia|]. intros b Hb0. apply Hfr. rewrite <- app_assoc. done.
    + intros b [Hbd|Hbd]%elem_of_app i.
      * destruct (decide (b = s_bda sb)) as [->|Hne].
        { unfold d1. cbn [d_sect set_d_sect]. rewrite fn_lookup_insert. apply Hb'. }
        unfold d1. cbn [d_sect set_d_sect]. rewrite fn_lookup_insert_ne by done. by apply Hd.
      * apply list_elem_of_singleton in Hbd as ->. unfold d1. cbn [d_sect set_d_sect].
        rewrite fn_lookup_insert. apply Hb'.
Qed.
End Flush.
End Group.
