(* ===== verification/LogSafe.v ===== *)
(** * Commit, trim and the handlers of the log thread

    Every handler keeps the invariant of the device and of the groups,
    whatever the device does, and never fails an assertion. *)

From S2P Require Import Prelude Crc Lease Object Tx TxSafe LogIo Trim Log LogSem LogCirc LogInv TrimInv.

Open Scope Z_scope.

(** ** Operations ready to be committed *)
Definition top_write (m : meta) (top : pfs_txop) : meta :=
  <[top_bda top := <[Z.to_nat (top_idx top) := top_local top]> (m (top_bda top))]> m.

Record op_ready (mem : meta) (top : pfs_txop) : Prop := {
  or_done : top_done top = true;
  or_crc : pfs_metaobj_check_crc (top_local top) = Some tt;
  or_used : used01 (top_local top);
  or_idx : 0 <= top_idx top;
  or_buf : top_buf top = Some (top_bda top);
  or_cell : exists obj, mem (top_bda top) !! Z.to_nat (top_idx top) = Some obj /\
    mo_key obj = mo_key (top_local top) /\ slack obj = slack (top_local top) /\
    typed obj /\ typed (top_local top) }.

Record tx_ready (mem : meta) (tx : pfs_tx) (ops : list pfs_txop) : Prop := {
  tr_ops : tx_oplist tx = Some ops;
  tr_n : t_nops tx = Z.of_nat (length ops);
  tr_ne : ops <> [];
  tr_op : Forall (op_ready mem) ops }.

Lemma typed_type mo : typed mo -> mo_type mo <> MT_NONE.
Proof. unfold typed. destruct (mo_data mo); try done; by intros ->. Qed.

Lemma op_ready_write mem top top' : op_ready mem top -> op_ready mem top' -> op_ready (top_write mem top) top'.
Proof.
  intros [R1 R2 Ru R3 R4 (o & R5 & R6 & R7 & R8 & R9)] [Q1 Q2 Qu Q3 Q4 (o' & Q5 & Q6 & Q7 & Q8 & Q9)].
  split; try done. unfold top_write.
  destruct (decide (top_bda top = top_bda top')) as [E|Hne]; [|rewrite fn_lookup_insert_ne by done; eauto 10].
  rewrite <- E, fn_lookup_insert. rewrite <- E in Q5.
  destruct (decide (Z.to_nat (top_idx top) = Z.to_nat (top_idx top'))) as [Ei|Hni].
  - rewrite <- Ei in Q5 |- *. assert (o' = o) as -> by congruence.
    exists (top_local top). rewrite list_lookup_insert_eq by (by eapply lookup_lt_Some).
    split_and!; try done; congruence.
  - rewrite list_lookup_insert_ne by done. eauto 10.
Qed.

Lemma apply_ready heap : forall ids mem ops,
  mapM (fun id => heap !! id) ids = Some ops -> Forall (op_ready mem) ops ->
  tx_apply_ops heap ids mem = Some (foldl top_write mem ops).
Proof.
  induction ids as [|id ids IH]; intros mem ops E Hr; simpl in E; [by injection E as <-|].
  apply bind_Some in E as (top & Et & E). apply bind_Some in E as (ops' & Eo & E). injection E as <-.
  apply Forall_cons in Hr as [Ht Hr]. simpl. rewrite Et.
  pose proof Ht as [R1 R2 Ru R3 R4 (o & R5 & R6 & R7 & R8 & R9)]. rewrite R4, R5.
  rewrite cp_is_copy by (done || by injection R6). apply IH; [done|].
  eapply Forall_impl; [done|]. intros top' Ht'. by apply op_ready_write.
Qed.

Lemma pfs_tx_apply_ready mem tx ops : tx_ready mem tx ops -> pfs_tx_apply tx mem = Some (foldl top_write mem ops).
Proof. intros [R1 _ _ R4]. by apply apply_ready. Qed.

(** The entries of a ready transaction. *)
Lemma tx_entries_ready mem t_id ops : forall lsn, Forall (op_ready mem) ops ->
  exists es, tx_entries t_id lsn ops = Some es /\ entries_ok t_id lsn es /\ Forall2 op_of ops es.
Proof.
  induction ops as [|top ops IH]; intros lsn Hr; [by exists []|].
  apply Forall_cons in Hr as [Ht Hr]. destruct (IH (lsn + 1) Hr) as (es & E & He & H2).
  pose proof Ht as [R1 R2 Ru R3 R4 (o & R5 & R6 & R7 & R8 & R9)]. pose proof (typed_type _ R9) as Hty.
  set (le0 := MkLe (top_local top) (lsn + 1) (top_bda top) t_id (top_idx top) 0
    (if bool_decide (ops <> []) then 1 else 0) (replicate 92 0)).
  assert (El : pfs_txop_log t_id top (bool_decide (ops <> [])) (lsn + 1) = Some (set_le_checksum (logentry_crc le0) le0)).
  { unfold pfs_txop_log. rewrite R1, R2. destruct (Z.eqb_spec (mo_type (top_local top)) MT_NONE); [done|]. done. }
  exists (set_le_checksum (logentry_crc le0) le0 :: es). cbn [tx_entries]. rewrite El, E. split; [done|]. split.
  - cbn [entries_ok]. split_and!; try done. simpl. inversion H2; subst; by case_bool_decide.
  - constructor; [|done]. by split.
Qed.

Lemma foldl_top_write ops es : Forall2 op_of ops es -> forall m, foldl top_write m ops = foldl le_apply m es.
Proof.
  induction 1 as [|top le ops es [O1 O2 O3 O4] _ IH]; intros m; [done|]. simpl. rewrite <- IH. f_equal.
  unfold top_write, le_apply. by rewrite O1, O2, O3.
Qed.

(** A transaction closed by [Tx] is ready. *)
Lemma tx_inv_ready mem tx ov :
  tx_inv mem tx ov [] -> ov <> ∅ -> (forall k o, ov !! k = Some o -> obj_good o) ->
  exists ops, tx_ready mem (set_t_done true tx) ops.
Proof.
  intros Hi Hov Hcrc.
  assert (Hops : forall r, r ∈ t_ops tx <-> r ∈ t_opsroot tx).
  { intros r. rewrite (i_ops _ _ _ _ Hi). simpl. rewrite elem_of_nil. tauto. }
  assert (Hm : forall ids, ids ⊆ t_ops tx -> exists ops, mapM (fun id => t_heap tx !! id) ids = Some ops /\
    length ops = length ids /\ Forall (op_ready mem) ops).
  { induction ids as [|r ids IH]; intros Hsub; [by exists []|].
    destruct IH as (ops & E & El & Hr); [intros x Hx; apply Hsub; by right|].
    assert (Hrr : r ∈ t_ops tx) by (apply Hsub; by left).
    destruct (i_root _ _ _ _ Hi r (proj1 (Hops r) Hrr)) as (t & Ht & Hok & Ho).
    exists (t :: ops). simpl. rewrite Ht, E. split; [done|]. split; [simpl; lia|]. constructor; [|done].
    destruct Hok as [K1 K2 K3 K4 K5 K6 (bda & obj & Q1 & Q2 & Q3 & Q4 & Q5 & Q6 & Q7)]. split.
    - rewrite K5. apply bool_decide_eq_true. apply not_elem_of_nil.
    - by eapply Hcrc.
    - by eapply Hcrc.
    - apply K6.
    - congruence.
    - rewrite Q2. eauto 10. }
  destruct (Hm (t_ops tx)) as (ops & E & El & Hr); [done|]. exists ops. split; [done| | |done].
  - simpl. rewrite (i_nops _ _ _ _ Hi). lia.
  - intros ->. destruct (t_ops tx) as [|r l] eqn:Eo; [|done].
    apply map_choose in Hov as (k & o & Hk). destruct (i_ov _ _ _ _ Hi k) as (r & t & Hin & _); [by eexists|].
    apply Hops in Hin. by apply elem_of_nil in Hin.
Qed.

Section Safe.
Context (nslots ss : Z) {hang halt : Prop} (mnt : mount) (locate : Z -> Z -> option (Z * nat)).
Context (S0 : meta) (T0 L0 O0 : Z).
Context (trimgroup_nsect_threshold trimgroup_ntx_threshold trimgroup_ntx_threshold_hard : Z).
Context (trimgroup_nsects_swapinmax log_trim_interval log_skip_journal_probe : Z) (fuel : nat).
Hypothesis Hn : 0 < nslots.
Hypothesis HO0 : 0 <= O0.
Hypothesis Hss : 0 <= ss.
Hypothesis Hmnt : mnt_sectsize mnt = ss.
(** The objects of the file system are where the number says. *)
Hypothesis HS0 : forall b i o, S0 b !! i = Some o -> locate (mo_type o) (mo_number o) = Some (b, i).
Hypothesis HS0good : forall b i o, S0 b !! i = Some o -> obj_good o.

Abbreviation rec_ok := (rec_ok nslots mnt locate S0 T0 L0 O0).
Abbreviation grps_ok := (grps_ok nslots S0 T0 O0).
Abbreviation state := (LogInv.state S0).
Abbreviation safe := (safe (hang := hang) (halt := halt) nslots ss).

(** ** Every state has its objects in place *)
Lemma apply_located es : forall m,
  Forall (le_placed locate S0) es -> (forall b, length (m b) = length (S0 b)) ->
  (forall b i o, m b !! i = Some o -> locate (mo_type o) (mo_number o) = Some (b, i)) ->
  forall b i o, foldl le_apply m es b !! i = Some o -> locate (mo_type o) (mo_number o) = Some (b, i).
Proof.
  induction es as [|le es IH]; intros m Hp Hl Hm; simpl; [done|]. apply Forall_cons in Hp as [(P1 & P2 & P3 & P4) Hp].
  apply IH; [done|intros b; by rewrite length_le_apply|]. intros b i o.
  destruct (decide (le_sector_bda le = b /\ Z.to_nat (le_obj_idx le) = i)) as [[<- <-]|Hne].
  - unfold le_apply. rewrite fn_lookup_insert, list_lookup_insert_eq by (by rewrite Hl). by intros [= <-].
  - rewrite le_apply_ne by done. apply Hm.
Qed.

Lemma state_located H n b i o : Forall (le_placed locate S0) (concat H) ->
  state H n b !! i = Some o -> locate (mo_type o) (mo_number o) = Some (b, i).
Proof.
  intros Hp. apply apply_located; [|done|done].
  rewrite <- (take_drop n H), concat_app in Hp. by apply Forall_app in Hp as [? _].
Qed.

(** ** The state of the host *)
Record host_ok (d : disk) (H : history) (t w r : nat) (log : pfs_log) (mem : meta) : Prop := {
  hk_rec : rec_ok d H t;
  hk_mnt : mnt_sectsize (log_mount log) = ss;
  hk_lr : lr_body (log_leader log) = lr_body (d_leader d);
  hk_grps : grps_ok H t w r (log_workgrp log) (log_waitgrp log);
  hk_mlen : forall b, length (mem b) = length (S0 b);
  hk_mem : forall b i, mem b !! i = state H (length H) b !! i }.

Lemma usedspace_ok a b : 0 <= b - a < nslots ->
  pfs_log_usedspace (LE_SIZE * nslots) (LE_SIZE * (a mod nslots)) (LE_SIZE * (b mod nslots)) = Some (LE_SIZE * (b - a)).
Proof.
  intros Hab. unfold pfs_log_usedspace. rewrite <- Z.mul_sub_distr_l.
  pose proof (Z.mod_pos_bound a nslots Hn). pose proof (Z.mod_pos_bound b nslots Hn).
  assert (Ed : b - a = b mod nslots - a mod nslots \/ b - a = b mod nslots - a mod nslots + nslots).
  { pose proof (Z.div_mod a nslots ltac:(lia)). pose proof (Z.div_mod b nslots ltac:(lia)).
    set (q := b / nslots - a / nslots). assert (b - a = nslots * q + (b mod nslots - a mod nslots)) by (unfold q; lia).
    clearbody q. assert (q = 0 \/ q = 1) as [->| ->] by nia; lia. }
  assert (Eu : (if LE_SIZE * (b mod nslots - a mod nslots) <? 0
    then LE_SIZE * (b mod nslots - a mod nslots) + LE_SIZE * nslots
    else LE_SIZE * (b mod nslots - a mod nslots)) = LE_SIZE * (b - a)).
  { rewrite LE_SIZE_eq. destruct (Z.ltb_spec (256 * (b mod nslots - a mod nslots)) 0); lia. }
  rewrite Eu, le_mod. done.
Qed.

Lemma log_space_ok d H t log :
  rec_ok d H t -> lr_body (log_leader log) = lr_body (d_leader d) ->
  pfs_log_space log = Some (LE_SIZE * (nslots - (pos H (length H) - pos H t))).
Proof.
  intros Hr E. unfold pfs_log_space. rewrite E.
  rewrite (rk_size _ _ _ _ _ _ _ _ _ _ Hr), (rk_toff _ _ _ _ _ _ _ _ _ _ Hr), (rk_hoff _ _ _ _ _ _ _ _ _ _ Hr).
  pose proof (pos_mono H t (length H) (rk_t _ _ _ _ _ _ _ _ _ _ Hr)).
  pose proof (rk_room _ _ _ _ _ _ _ _ _ _ Hr).
  rewrite usedspace_ok by lia. f_equal. rewrite LE_SIZE_eq. lia.
Qed.

(** ** Writing the leader record *)
Definition advance (old lr : pfs_leader_record) : Prop :=
  (exists txid off lsn, lr = set_head txid off lsn old /\ head_txid old < txid /\ head_lsn old < lsn) \/
  (exists txid off, lr = set_tail txid off old /\ tail_txid old < txid).

Lemma forward_ok (I : disk -> Prop) log d :
  mnt_sectsize (log_mount log) = ss -> advance (log_leader_latest log) (log_leader log) ->
  I d -> I (set_d_leader (leader_seal (log_leader log)) d) ->
  safe I (fun '(log', rv) d' => (exists latest, log' = set_log_latest latest log) /\
      ((rv = 0 /\ d' = set_d_leader (leader_seal (log_leader log)) d) \/
       (rv < 0 /\ (d' = d \/ d' = set_d_leader (leader_seal (log_leader log)) d))))
    (pfs_log_paxos_forward_leader log) d.
Proof.
  intros Em Hadv HI HI'. unfold pfs_log_paxos_forward_leader.
  set (lr := log_leader log) in *. set (old := log_leader_latest log) in *.
  assert (Ha : (tail_txid lr >=? tail_txid old) = true /\
    ((head_txid lr >=? head_txid old) && (head_lsn lr >=? head_lsn old))%bool = true /\
    ((tail_txid lr >? tail_txid old) || ((head_txid lr >? head_txid old) && (head_lsn lr >? head_lsn old)))%bool = true /\
    set_tail (tail_txid lr) (tail_offset lr) (set_head (head_txid lr) (head_offset lr) (head_lsn lr)
      (set_logsize (log_size lr) old)) = lr).
  { clearbody lr old. destruct old as [[] ?]. destruct Hadv as [(a & b & c & -> & H1 & H2)|(a & b & -> & H1)]; simpl in *.
    - rewrite !Z.geb_leb, !Z.gtb_ltb, !Z.leb_refl, Z.ltb_irrefl. split_and!; try done.
      + apply andb_true_iff; split; apply Z.leb_le; lia.
      + apply andb_true_iff; split; apply Z.ltb_lt; lia.
    - rewrite !Z.geb_leb, !Z.gtb_ltb, !Z.leb_refl. split_and!; try done.
      + apply Z.leb_le. lia.
      + apply orb_true_iff. left. apply Z.ltb_lt. lia. }
  destruct Ha as (-> & -> & -> & ->). rewrite bool_decide_eq_true_2 by done.
  unfold pfs_leader_write. cbn [logio_bind]. split; [done|]. split_and!.
  - done.
  - unfold paxos_write_rv. rewrite Em, Z.eqb_refl. destruct (Z.ltb_spec ss 0); [lia|]. cbn [negb].
    split; [done|]. split; [by eexists|by left].
  - intros rv Hrv. unfold paxos_write_rv. rewrite (proj2 (Z.ltb_lt rv 0)) by done.
    set (e := if rv =? - ETIMEDOUT then PFS_AIO_TIMEOUT else rv).
    assert (He : e < 0) by (unfold e, PFS_AIO_TIMEOUT; destruct (rv =? - ETIMEDOUT); lia).
    rewrite (proj2 (Z.ltb_lt e 0)) by done. cbv zeta. rewrite (proj2 (Z.ltb_lt e 0)) by done.
    assert (He' : (if e =? PFS_AIO_TIMEOUT then - ETIMEDOUT else e) < 0)
      by (destruct (e =? PFS_AIO_TIMEOUT); [unfold ETIMEDOUT; lia|done]).
    split; (split; [done|]); (split; [by eexists|]); right; (split; [done|]); [by left|by right].
Qed.

Definition same_header (lr lr' : pfs_leader_record) : Prop :=
  let b := lr_body lr in let b' := lr_body lr' in
  lr_magic b = lr_magic b' /\ lr_version b = lr_version b' /\ lr_sector_size b = lr_sector_size b' /\
  lr_num_hosts b = lr_num_hosts b'.

Lemma leader_ok_seal lr lr' : leader_ok mnt lr -> same_header lr lr' -> leader_ok mnt (leader_seal lr').
Proof.
  unfold leader_ok, verify_leader. intros Hok (E1 & E2 & E3 & E4). cbn [leader_seal lr_body lr_checksum].
  rewrite <- E1, <- E2, <- E3, <- E4, Z.eqb_refl. cbn [negb].
  repeat (case_match; try done).
Qed.

(** ** Commit *)
Lemma es_placed mem top le H :
  Forall (le_placed locate S0) (concat H) -> (forall b i, mem b !! i = state H (length H) b !! i) ->
  op_ready mem top -> op_of top le -> le_placed locate S0 le.
Proof.
  intros Hp Hm [R1 R2 Ru R3 R4 (o & R5 & R6 & R7 & R8 & R9)] [O1 O2 O3 O4].
  unfold le_placed. rewrite <- O1, <- O2, <- O3. split_and!; [done| | |done].
  - rewrite Hm in R5. injection R6 as <- <-. by eapply state_located.
  - rewrite Hm in R5. apply lookup_lt_Some in R5. by rewrite length_state in R5.
Qed.

Lemma Forall2_placed mem ops es H :
  Forall (le_placed locate S0) (concat H) -> (forall b i, mem b !! i = state H (length H) b !! i) ->
  Forall (op_ready mem) ops -> Forall2 op_of ops es -> Forall (le_placed locate S0) es.
Proof.
  intros Hp Hm Hr H2. induction H2; [done|]. apply Forall_cons in Hr as [? ?].
  constructor; [by eapply es_placed|auto].
Qed.

(** The record on the device is not the one of [d1]: a write of it failed and
    arrived all the same; [J] holds then. *)
Definition landed (J : disk -> Prop) (d1 d : disk) : Prop :=
  exists lr, d = set_d_leader lr d1 /\ lr_body lr <> lr_body (d_leader d1) /\ J d.

Definition committed (d : disk) (H : history) (es : list pfs_logentry_phy) (t : nat) : Prop :=
  rec_ok d H t \/ rec_ok d (H ++ [es]) t.

Lemma commit_ok d H t w r log mem tx ops es :
  host_ok d H t w r log mem -> tx_ready mem tx ops -> log_leader_latest log = log_leader log ->
  tx_entries (T0 + Z.of_nat (length H) + 1) (L0 + pos H (length H)) ops = Some es ->
  entries_ok (T0 + Z.of_nat (length H) + 1) (L0 + pos H (length H)) es -> Forall2 op_of ops es ->
  pos H (length H) - pos H t + Z.of_nat (length es) < nslots ->
  safe (fun d => committed d H es t)
    (fun '(log', tx', rv) d' => tx' = set_t_id (T0 + Z.of_nat (length H) + 1) tx /\
       exists latest lr d1, log' = set_log_latest latest (set_leader lr log) /\ lr_body lr = lr_body (d_leader d1) /\
       ((rv = 0 /\ d' = d1 /\ rec_ok d1 (H ++ [es]) t) \/
        (rv < 0 /\ rec_ok d1 H t /\ (d' = d1 \/ landed (fun d => rec_ok d (H ++ [es]) t) d1 d'))))
    (pfs_log_commit log tx (log_leader log)) d.
Proof.
  intros [K1 K2 K3 K4 K5 K6] [R1 R2 R3 R4] Elat Ees Hes H2 Hroom.
  pose proof (pos_mono H t (length H) (rk_t _ _ _ _ _ _ _ _ _ _ K1)).
  assert (Hel : length es = length ops) by (by eapply length_tx_entries).
  assert (Hne : es <> []) by (intros ->; by destruct ops).
  unfold pfs_log_commit. rewrite Z.sub_diag. simpl (0 <? 0).
  rewrite K3, (rk_head _ _ _ _ _ _ _ _ _ _ K1), (rk_lsn _ _ _ _ _ _ _ _ _ _ K1), (rk_hoff _ _ _ _ _ _ _ _ _ _ K1).
  assert (Hwin : forall d', log_only nslots d d' (O0 + pos H (length H)) (Z.of_nat (length es)) -> rec_ok d' H t).
  { intros d' Hd'. eapply rec_ok_window; [done|exact K1|exact Hd'|lia]. }
  assert (Hroom' : log_room nslots log (Z.of_nat (length es))).
  { split; [rewrite K3; apply K1|]. eexists. split; [by eapply log_space_ok|]. rewrite LE_SIZE_eq. lia. }
  eapply safe_bind.
  { apply (pfs_tx_log_ok nslots ss Hn (fun d => committed d H es t) log tx ops es); try done.
    - intros E. unfold tx_oplist in R1. rewrite E in R1. simpl in R1. by injection R1 as <-.
    - apply Z.mod_pos_bound. lia.
    - intros d' Hd'. left. apply Hwin. by apply log_only_mod. }
  intros [tx' rv] d1 (-> & Ho & Hat). apply (proj1 (log_only_mod _ Hn _ _ _ _)) in Ho.
  pose proof Ho as (_ & Elr & _). assert (Hr1 : rec_ok d1 H t) by (by apply Hwin).
  destruct (Z.ltb_spec rv 0) as [Hrv|Hrv].
  { split; [by left|]. split; [done|]. exists (log_leader_latest log), (log_leader log), d1.
    split; [by destruct log|]. rewrite Elr. split; [done|]. right. split_and!; [done|done|by left]. }
  destruct (Hat Hrv) as [-> Hat']. apply (proj1 (at_slots_mod _ Hn _ _ _)) in Hat'.
  rewrite le_div. rewrite (rk_size _ _ _ _ _ _ _ _ _ _ K1).
  rewrite off_add_slot by (try apply Z.mod_pos_bound; lia). rewrite Z.add_mod_idemp_l by lia.
  set (lr := set_head (T0 + Z.of_nat (length H) + 1) _ _ (log_leader log)).
  assert (Hr2 : rec_ok (set_d_leader (leader_seal lr) d1) (H ++ [es]) t).
  { eapply rec_ok_head; try done.
    - eapply Forall2_placed; try done. apply K1.
    - unfold lr. cbn [leader_seal set_head set_body lr_body]. rewrite K3, <- Elr. done.
    - eapply leader_ok_seal; [apply (rk_leader _ _ _ _ _ _ _ _ _ _ K1)|]. unfold same_header, lr.
      cbn [set_head set_body lr_body lr_magic lr_version lr_sector_size lr_num_hosts]. by rewrite K3. }
  eapply safe_bind; [apply forward_ok|].
  - exact K2.
  - cbn [log_leader_latest set_leader log_leader]. rewrite Elat. left. eexists _, _, _. split; [done|].
    rewrite K3, (rk_head _ _ _ _ _ _ _ _ _ _ K1), (rk_lsn _ _ _ _ _ _ _ _ _ _ K1).
    destruct es; [done|]. simpl length. lia.
  - by left.
  - right. exact Hr2.
  - intros [log' rv] d' [(latest & ->) Hd'].
    destruct Hd' as [[-> ->]|[Hneg Hd']].
    + simpl (0 <? 0). split; [by right|]. split; [done|]. eexists latest, lr, _. split; [done|].
      split; [|by left]. done.
    + rewrite (proj2 (Z.ltb_lt rv 0)) by done. split; [destruct Hd' as [->| ->]; [by left|by right]|].
      split; [done|]. exists latest, (log_leader log), d1. split; [done|]. rewrite Elr. split; [done|].
      right. split_and!; [done|done|]. destruct Hd' as [->| ->]; [by left|right].
      eexists. split; [done|]. split; [|done]. intros E. apply (f_equal lr_head_txid) in E.
      rewrite Elr, (rk_head _ _ _ _ _ _ _ _ _ _ K1) in E. cbn in E. lia.
Qed.

(** ** Trim *)

(** The control fields, which the operations on leader and groups keep. *)
Definition ctl_eq (log log' : pfs_log) : Prop :=
  log_mount log' = log_mount log /\ log_state log' = log_state log /\
  log_replay_wait log' = log_replay_wait log /\ log_space_needed log' = log_space_needed log /\
  log_trim_forced log' = log_trim_forced log /\ log_trimts log' = log_trimts log.

Definition recoverable (H : history) (d : disk) : Prop := exists t, rec_ok d H t.

(** Every transaction has an entry, so its sector is in the group. *)
Lemma txs_nonempty hs : forall txid lsn, txs_ok txid lsn hs -> Forall (fun es => es <> []) hs.
Proof. induction hs as [|es hs IH]; intros txid lsn Hok; [done|]. destruct Hok as (? & _ & ?). constructor; eauto. Qed.

Lemma grp_nonempty H t w G : grp_ok nslots S0 T0 O0 H t w G -> txs_ok T0 L0 H -> (t < w)%nat -> g_sects G <> [].
Proof.
  intros Hg Hok Hlt E. pose proof (gk_le _ _ _ _ _ _ _ _ Hg) as Hle.
  destruct (lookup_lt_is_Some_2 H t) as [es Hes]; [lia|].
  assert (Hne : es <> []) by (by eapply (proj1 (Forall_lookup _ _) (txs_nonempty _ _ _ Hok))).
  destruct es as [|le es]; [done|].
  assert (Hin : le_sector_bda le ∈ (s_bda <$> g_sects G)).
  { apply (gk_cover _ _ _ _ _ _ _ _ (gk_sects _ _ _ _ _ _ _ _ Hg)). apply list_elem_of_In, in_concat.
    exists (le :: es). split; [|by left]. apply list_elem_of_In. apply list_elem_of_lookup_2 with 0%nat.
    rewrite lookup_drop, lookup_take_lt by lia. by rewrite Nat.add_0_r. }
  rewrite E in Hin. by apply elem_of_nil in Hin.
Qed.

Lemma trim_ok d H t w r log mem :
  host_ok d H t w r log mem -> log_leader_latest log = log_leader log ->
  safe (recoverable H) (fun '(log', rv) d' => ctl_eq log log' /\ exists t' w' d1, host_ok d1 H t' w' r log' mem /\
      (d' = d1 \/ (rv < 0 /\ landed (recoverable H) d1 d')) /\ (0 <= rv -> t' = w /\ w' = w))
    (pfs_log_trim log) d.
Proof.
  intros Hh Elat. pose proof Hh as [K1 K2 K3 K4 K5 K6]. unfold pfs_log_trim.
  rewrite (log_space_ok _ _ _ _ K1 K3). cbn [lift logio_bind].
  assert (Hsame : forall d' rv, rec_ok d' H t -> d_leader d' = d_leader d -> (0 <= rv -> t = w) -> ctl_eq log log /\
    exists t' w' d1, host_ok d1 H t' w' r log mem /\ (d' = d1 \/ (rv < 0 /\ landed (recoverable H) d1 d')) /\
      (0 <= rv -> t' = w /\ w' = w)).
  { intros d' rv Hd' El Hrv. split; [done|]. exists t, w, d'. split; [split; try done; congruence|]. auto. }
  assert (HI : forall d', rec_ok d' H t -> recoverable H d') by (intros d' ?; by exists t).
  destruct K4 as [Hk [[(E1 & _) ->]|(Hw & Hlt & Hfull)]].
  { rewrite (proj2 (Z.eqb_eq _ _) E1). split; [by apply HI|]. by apply Hsame. }
  assert (Hse : g_sects (log_waitgrp log) <> []) by (eapply grp_nonempty; [exact Hw|apply K1|done]).
  rewrite (gk_lo _ _ _ _ _ _ _ _ Hw), (gk_hi _ _ _ _ _ _ _ _ Hw), (gk_lo _ _ _ _ _ _ _ _ Hk), K3,
    (rk_tail _ _ _ _ _ _ _ _ _ _ K1), !Z.eqb_refl.
  destruct (Z.eqb_spec (T0 + Z.of_nat t) (T0 + Z.of_nat w)); [lia|]. cbn [andb].
  pose proof (gk_le _ _ _ _ _ _ _ _ Hw) as Hle. pose proof (gk_sects _ _ _ _ _ _ _ _ Hw) as Hs.
  unfold pfs_trimgroup_flush. rewrite (gk_lo _ _ _ _ _ _ _ _ Hw), (gk_hi _ _ _ _ _ _ _ _ Hw), (gk_off _ _ _ _ _ _ _ _ Hw).
  eapply safe_bind.
  { eapply safe_bind.
    { eapply (safe_mono _ _ (fun d => rec_ok d H t)); [exact HI| |
        apply flush_sects_ok with (dn := []) (lr := d_leader d);
          try done; [apply (gk_sb _ _ _ _ _ _ _ _ Hs)|by intros ? ?%elem_of_nil]].
      intros a d' _ Ha. exact Ha. }
    intros k d' (Hr' & Hl' & Hk').
    instantiate (1 := fun '(k, ttx, to) d' => rec_ok d' H t /\ d_leader d' = d_leader d /\ (0 <= k -> 0 < k /\
      ttx = T0 + Z.of_nat w /\ to = LE_SIZE * ((O0 + pos H w) mod nslots) /\
      forall b, b ∈ (s_bda <$> g_sects (log_waitgrp log)) -> sect_fresh S0 H w d' b)).
    destruct (Z.gtb_spec k 0) as [Hpos|Hpos]; (split; [by apply HI|]); (split; [done|]); (split; [done|]).
    - intros _. destruct (Hk' ltac:(lia)) as [_ Hf]. split_and!; [done|done|done|]. intros b Hb. by apply Hf.
    - intros Hk0. destruct (Hk' Hk0) as [-> _]. destruct (g_sects (log_waitgrp log)); [done|]. simpl in Hpos. lia. }
  intros [[k ttx] to] d1 (Hr1 & Hl1 & Hk1). destruct (Z.leb_spec k 0) as [Hneg|Hpos].
  { split; [by apply HI|]. apply Hsame; [done|done|]. intros Hk0. destruct (Hk1 Hk0). lia. }
  destruct (Hk1 ltac:(lia)) as (_ & -> & -> & Hfresh).
  set (lr := set_tail (T0 + Z.of_nat w) (LE_SIZE * ((O0 + pos H w) mod nslots)) (log_leader log)).
  assert (Hr2 : rec_ok (set_d_leader (leader_seal lr) d1) H w).
  { apply (rec_ok_tail nslots mnt locate S0 T0 L0 O0 d1 H t w (leader_seal lr)); [done|lia| | |].
    - intros b i (le & Hin & <- & _). apply Hfresh, (gk_cover _ _ _ _ _ _ _ _ Hs), Hin.
    - unfold lr. cbn [leader_seal set_tail set_body lr_body]. by rewrite K3, Hl1.
    - eapply leader_ok_seal; [apply (rk_leader _ _ _ _ _ _ _ _ _ _ K1)|]. unfold same_header, lr.
      cbn [set_tail set_body lr_body lr_magic lr_version lr_sector_size lr_num_hosts]. by rewrite K3. }
  eapply safe_bind; [apply forward_ok|].
  - exact K2.
  - cbn [log_leader_latest set_leader log_leader]. rewrite Elat. right. eexists _, _. split; [done|].
    rewrite K3, (rk_tail _ _ _ _ _ _ _ _ _ _ K1). lia.
  - by apply HI.
  - exists w. exact Hr2.
  - intros [log' rv] d' [(latest & ->) Hd']. destruct Hd' as [[-> ->]|[Hneg Hd']].
    + simpl (0 <? 0). unfold pfs_log_del_trimentry.
      cbn [log_workgrp log_waitgrp set_log_latest set_leader set_log_grps].
      rewrite (delete_work _ _ _ _ _ _ _ _ Hk). assert (Hemp : grp_empty (pfs_trimgroup_delete (log_waitgrp log) (T0 + Z.of_nat w))) by (by eapply delete_wait).
      pose proof Hemp as (E1 & _). rewrite (proj2 (Z.eqb_eq _ _) E1).
      split; [by exists w|]. split; [done|]. eexists w, w, _. split; [|split; [by left|done]]. split; try done.
      split; [done|]. left. by split.
    + rewrite (proj2 (Z.ltb_lt rv 0)) by done. split; [destruct Hd' as [->| ->]; [by apply HI|by exists w]|].
      split; [done|]. exists t, w, d1. split_and!; [split; try done| |lia].
      * cbn [log_leader set_leader set_log_latest]. by rewrite Hl1.
      * split; [done|]. right. done.
      * destruct Hd' as [->| ->]; [by left|right]. split; [done|]. eexists. split; [done|].
        split; [|by exists w]. intros E. apply (f_equal lr_tail_txid) in E.
        rewrite Hl1, (rk_tail _ _ _ _ _ _ _ _ _ _ K1) in E. cbn in E. lia.
Qed.
End Safe.
