(* ===== verification/LogThread.v ===== *)
(** * The log thread of a serving read-write host

    The handlers of the requests, their dispatch and one turn of the thread:
    from a state that satisfies the invariant, with any behaviour of the
    device, no assertion fails and the invariant holds again; at most the
    transaction of the pending request is added to the committed history.  A
    write of the leader record that fails ends the turn; when it reached the
    device all the same, the invariant holds of the device without it. *)

From S2P Require Import Prelude Crc Lease Object Tx TxSafe LogIo Trim Log LogSem LogCirc LogInv TrimInv LogSafe.

Open Scope Z_scope.

Section Thread.
Context (nslots ss : Z) {hang halt : Prop} (mnt : mount) (locate : Z -> Z -> option (Z * nat)).
Context (S0 : meta) (T0 L0 O0 : Z).
Context (trimgroup_nsect_threshold trimgroup_ntx_threshold trimgroup_ntx_threshold_hard : Z).
Context (trimgroup_nsects_swapinmax log_trim_interval log_skip_journal_probe : Z) (fuel : nat).
Hypothesis Hn : 0 < nslots.
Hypothesis HO0 : 0 <= O0.
Hypothesis Hss : 0 <= ss.
Hypothesis Hmnt : mnt_sectsize mnt = ss.
Hypothesis HS0 : forall b i o, S0 b !! i = Some o -> locate (mo_type o) (mo_number o) = Some (b, i).
Hypothesis HS0good : forall b i o, S0 b !! i = Some o -> obj_good o.

Abbreviation rec_ok := (rec_ok nslots mnt locate S0 T0 L0 O0).
Abbreviation grps_ok := (grps_ok nslots S0 T0 O0).
Abbreviation host_ok := (host_ok nslots ss mnt locate S0 T0 L0 O0).
Abbreviation recoverable := (recoverable nslots mnt locate S0 T0 L0 O0).
Abbreviation state := (LogInv.state S0).
Abbreviation safe := (safe (hang := hang) (halt := halt) nslots ss).

(** ** Requests *)

(** The entries a pending transaction will have. *)
Definition tx_will (H : history) (tx : pfs_tx) (es : list pfs_logentry_phy) : Prop :=
  exists ops, tx_oplist tx = Some ops /\
    tx_entries (T0 + Z.of_nat (length H) + 1) (L0 + pos H (length H)) ops = Some es.

(** One write at most is pending, since its thread holds the meta lock; it
    was made of the present state and fits the journal. *)
Definition write_ok (mem : meta) (reqs : list log_req) : Prop :=
  reqs = [] \/ exists req tx ops, reqs = [req] /\ r_itx req = Some tx /\ tx_ready mem tx ops /\
    Z.of_nat (length ops) <= nslots.

Record th_inv (H : history) (d : disk) (th : log_thread) : Prop := {
  ti_host : exists t w, host_ok d H t w (length H) (th_log th) (th_mem th);
  ti_wait : log_replay_wait (th_log th) = false;
  ti_write : write_ok (th_mem th) (work_req th LOG_WRITE);
  ti_poll : Forall (fun r => r_otxq r = []) (work_req th LOG_POLL);
  ti_replay : work_req th LOG_REPLAYDONE = [] }.

(** Relative to the history [H0] and the thread [th0] at the start of a turn:
    nothing committed yet, or the pending transaction. *)
(** Replies only add to the output. *)
Definition replies_to (reqs : list log_req) (out : list (nat * Z * list pfs_tx)) : Prop :=
  forall id rv txq, (id, rv, txq) ∈ out -> exists req, req ∈ reqs /\ r_id req = id.

Lemma reply_all_eq rv reqs : forall th, exists out,
  reply_all reqs rv th = MkTh (th_log th) (th_mem th) (work_req th) (th_out th ++ out) /\ replies_to reqs out.
Proof.
  induction reqs as [|req reqs IH]; intros th; cbn [reply_all].
  - exists []. rewrite app_nil_r. split; [by destruct th|]. by intros ? ? ? ?%elem_of_nil.
  - destruct (IH (pfs_log_reply req rv th)) as (out & -> & Ho). eexists. cbn [th_log th_mem work_req th_out pfs_log_reply].
    rewrite <- app_assoc. split; [done|]. intros id rv' txq [Hin|Hin]%elem_of_app.
    + apply list_elem_of_singleton in Hin. simplify_eq. exists req. split; [by left|done].
    + destruct (Ho _ _ _ Hin) as (r & ? & ?). exists r. split; [by right|done].
Qed.

Lemma reply_queue_eq i rv th : exists out,
  pfs_log_reply_queue i rv th = MkTh (th_log th) (th_mem th) (<[i := []]> (work_req th)) (th_out th ++ out) /\
  replies_to (work_req th i) out.
Proof.
  unfold pfs_log_reply_queue. destruct (reply_all_eq rv (work_req th i) th) as (out & -> & Ho). by exists out.
Qed.

Ltac queues := cbn [work_req set_work_req set_th_log set_th_mem pfs_log_reply th_log th_mem th_out];
  repeat first [rewrite fn_lookup_insert | rewrite fn_lookup_insert_ne by done].

Section Turn.
Context (H0 : history) (th0 : log_thread).

Definition pending (es : list pfs_logentry_phy) : Prop :=
  exists req tx, req ∈ work_req th0 LOG_WRITE /\ r_itx req = Some tx /\ tx_will H0 tx es.

Definition crash_inv (d : disk) : Prop :=
  recoverable H0 d \/ exists es, pending es /\ recoverable (H0 ++ [es]) d.

(** No other request has the name of the write; no reply to the write yet
    but a refusal. *)
Definition ids_ok (th : log_thread) : Prop :=
  forall i req' req, i <> LOG_WRITE -> i <> LOG_TRIM -> req' ∈ work_req th i -> req ∈ work_req th0 LOG_WRITE ->
    r_id req' <> r_id req.
Definition no_ack (th : log_thread) : Prop :=
  forall req rv txq, req ∈ work_req th0 LOG_WRITE -> (r_id req, rv, txq) ∈ th_out th -> rv < 0.

Definition progress (H : history) (th : log_thread) : Prop := ids_ok th /\
  ((H = H0 /\ no_ack th /\ (work_req th LOG_WRITE = [] \/ work_req th LOG_WRITE = work_req th0 LOG_WRITE)) \/
   (exists es, pending es /\ H = H0 ++ [es] /\ work_req th LOG_WRITE = [] /\
      exists req rv txq, req ∈ work_req th0 LOG_WRITE /\ (r_id req, rv, txq) ∈ th_out th /\ rv = 0)).

Definition turn_inv (H : history) (d : disk) (th : log_thread) : Prop := th_inv H d th /\ progress H th.

Lemma progress_crash H d th : progress H th -> recoverable H d -> crash_inv d.
Proof. intros [_ [[-> _]|(es & Hp & -> & _)]] Hr; [by left|right]. eauto. Qed.

(** Replies to other requests. *)
Lemma progress_ext H th th' out i reqs :
  progress H th -> work_req th' LOG_WRITE = work_req th LOG_WRITE -> th_out th' = th_out th ++ out ->
  i <> LOG_WRITE -> i <> LOG_TRIM -> reqs ⊆ work_req th i -> replies_to reqs out -> ids_ok th' -> progress H th'.
Proof.
  intros [Hids Hp] Ew Eo Hi1 Hi2 Hsub Hrep Hids'. split; [done|].
  destruct Hp as [(-> & Hna & Hw)|(es & P1 & P2 & P3 & q & rv & txq & P4 & P5 & P6)].
  - left. rewrite Ew. split; [done|]. split; [|done]. intros req rv txq Hreq. rewrite Eo.
    intros [Hin|Hin]%elem_of_app; [by eapply Hna|]. destruct (Hrep _ _ _ Hin) as (r & Hr%Hsub & Er).
    by destruct (Hids i r req Hi1 Hi2 Hr Hreq).
  - right. exists es. rewrite Ew, Eo. split_and!; [done..|]. exists q, rv, txq. split_and!; [done| |done].
    apply elem_of_app. by left.
Qed.

Lemma progress_same H th th' :
  progress H th -> work_req th' LOG_WRITE = work_req th LOG_WRITE -> th_out th' = th_out th -> ids_ok th' -> progress H th'.
Proof.
  intros Hp Ew Eo Hids. eapply (progress_ext _ _ _ [] LOG_POLL []); try done; [by rewrite app_nil_r|by intros ? ?%elem_of_nil|].
  by intros ? ? ? ?%elem_of_nil.
Qed.

(** A queue that only shrinks. *)
Lemma ids_ok_sub th th' : ids_ok th ->
  (forall i, i <> LOG_WRITE -> i <> LOG_TRIM -> forall r, r ∈ work_req th' i -> exists r', r' ∈ work_req th i /\ r_id r' = r_id r) ->
  ids_ok th'.
Proof. intros Hids Hsub i r req H1 H2 Hr Hreq. destruct (Hsub i H1 H2 r Hr) as (r' & ? & <-). by eapply Hids. Qed.

Lemma turn_crash H d th : turn_inv H d th -> crash_inv d.
Proof.
  intros [[(t & w & Hh) _ _ _ _] Hp]. eapply progress_crash; [done|]. exists t. apply Hh.
Qed.

(** What the device may hold when the thread stands at [H]. *)
Definition stands (H : history) (d : disk) : Prop :=
  recoverable H d \/ (H = H0 /\ exists es, pending es /\ recoverable (H0 ++ [es]) d).

(** After a handler: the invariant, but for a leader record whose write
    failed and landed, which ends the turn. *)
Definition post_inv (H : history) (d : disk) (th : log_thread) (rv : Z) : Prop :=
  exists d1, turn_inv H d1 th /\ (d = d1 \/ (rv = LOG_IO_STOP /\ landed (stands H) d1 d)).

Lemma post_crash H d th rv : post_inv H d th rv -> crash_inv d.
Proof.
  intros (d1 & Hti & [->|(_ & lr & _ & _ & [Hr|[-> (es & Hp & Hr)]])]); [by eapply turn_crash| |right; eauto].
  destruct Hti as [_ Hp]. by eapply progress_crash.
Qed.

Lemma post_same H d th rv : turn_inv H d th -> post_inv H d th rv.
Proof. intros Hti. exists d. auto. Qed.

Lemma post_cont H d th rv : post_inv H d th rv -> rv <> LOG_IO_STOP -> turn_inv H d th.
Proof. by intros (d1 & Hti & [->|[-> _]]) Hrv. Qed.

(** The queues of the new thread are parts of those of the old one. *)
Ltac ids Hp := eapply ids_ok_sub; [apply Hp|]; intros i0 Hi0 Hi1 r0;
  cbn [work_req set_work_req set_th_log set_th_mem pfs_log_reply th_log th_mem th_out];
  repeat match goal with
  | |- context [<[?k := ?v]> ?f i0] => destruct (decide (i0 = k)) as [->|];
      [rewrite ?fn_lookup_insert | rewrite (fn_lookup_insert_ne f) by done]
  end; intros Hr0; try done; try (by apply elem_of_nil in Hr0); try (by exists r0).
Ltac same Hp := eapply progress_same; [exact Hp|by queues|by queues|ids Hp].

(** Lifts a specification with the plain crash invariant. *)
Lemma safe_turn {A} H th (Q : A -> disk -> Prop) p d :
  progress H th -> safe (recoverable H) Q p d -> safe crash_inv Q p d.
Proof. intros Hp. apply safe_mono; [|done]. intros d'. by apply progress_crash with th. Qed.

Lemma host_ok_log d H t w r log log' mem :
  host_ok d H t w r log mem -> log_mount log' = log_mount log -> log_leader log' = log_leader log ->
  log_workgrp log' = log_workgrp log -> log_waitgrp log' = log_waitgrp log -> host_ok d H t w r log' mem.
Proof. intros [K1 K2 K3 K4 K5 K6] E1 E2 E3 E4. split; rewrite ?E1, ?E2, ?E3, ?E4; done. Qed.

(** A swap does not touch the device, whatever it holds. *)
Lemma swap_any (I : disk -> Prop) d0 d H t w r log mem force ty :
  I d0 -> host_ok d H t w r log mem ->
  safe I (fun '(log', _) d' => d' = d0 /\ log_leader log' = log_leader log /\
      log_leader_latest log' = log_leader_latest log /\ ctl_eq log log' /\ exists w', host_ok d H t w' r log' mem /\
      swapped t w r w' /\ ((force && (ty =? LOG_WRITE) && mnt_writable (log_mount log) = true)%bool -> t = w -> w' = r))
    (pfs_log_tryswap_trimgroup trimgroup_nsect_threshold trimgroup_ntx_threshold trimgroup_nsects_swapinmax
       log mem force ty) d0.
Proof.
  intros HI Hh. pose proof Hh as [K1 K2 K3 K4 K5 K6].
  eapply safe_mono; [by intros ? ?| |eapply (tryswap_ok nslots S0 T0 O0 ss _ _ _ I); done].
  intros [log' rv] d' _ [-> (work & wait & w' & -> & Hg & Hsw)]. do 4 (split; [done|]). exists w'. by split; [split|].
Qed.

Lemma swap_ok d H t w r log mem force ty :
  host_ok d H t w r log mem ->
  safe (recoverable H) (fun '(log', _) d' => d' = d /\ log_leader log' = log_leader log /\
      log_leader_latest log' = log_leader_latest log /\ ctl_eq log log' /\ exists w', host_ok d H t w' r log' mem /\
      swapped t w r w' /\ ((force && (ty =? LOG_WRITE) && mnt_writable (log_mount log) = true)%bool -> t = w -> w' = r))
    (pfs_log_tryswap_trimgroup trimgroup_nsect_threshold trimgroup_ntx_threshold trimgroup_nsects_swapinmax
       log mem force ty) d.
Proof. intros Hh. apply swap_any; [|done]. exists t. apply Hh. Qed.

Lemma need_trim_ok d H t w log mem :
  host_ok d H t w (length H) log mem ->
  exists b, pfs_log_need_trim trimgroup_nsect_threshold trimgroup_ntx_threshold log = Some b.
Proof.
  intros [K1 K2 K3 [Hk Hw] K5 K6]. unfold pfs_log_need_trim.
  destruct (Z.eqb_spec (tail_txid (log_leader log)) (head_txid (log_leader log))) as [E|E]; [|by eexists].
  rewrite K3, (rk_tail _ _ _ _ _ _ _ _ _ _ K1), (rk_head _ _ _ _ _ _ _ _ _ _ K1) in E.
  pose proof (gk_le _ _ _ _ _ _ _ _ Hk).
  destruct Hw as [[(E1 & _) ->]|(Hw & Hlt & _)].
  - rewrite (gk_lo _ _ _ _ _ _ _ _ Hk), (gk_hi _ _ _ _ _ _ _ _ Hk), E1, Z.eqb_refl, (proj2 (Z.eqb_eq _ _) E).
    by eexists.
  - lia.
Qed.

(** ** Progress

    Passes of the journal still needed to make it empty: the waiting group
    has to be written, then the work group. *)
Definition rank (log : pfs_log) : nat :=
  if tail_txid (log_leader log) =? head_txid (log_leader log) then 0
  else if g_ltxid (log_waitgrp log) =? g_rtxid (log_waitgrp log) then 1 else 2.

(** A bound for the times the dispatch can step back. *)
Definition budget (th : log_thread) : nat :=
  length (work_req th LOG_FLUSH) + (if log_trim_forced (th_log th) then 1 else 0) +
  (if bool_decide (work_req th LOG_WRITE = []) then 0 else rank (th_log th)).

(** A trim that makes progress is pending. *)
Definition hot (th : log_thread) : Prop :=
  work_req th LOG_TRIM <> [] /\ mnt_writable (log_mount (th_log th)) = true /\
  (log_trim_forced (th_log th) = true \/
   (log_space_needed (th_log th) = true /\ work_req th LOG_WRITE <> [] /\ (0 < rank (th_log th))%nat)).

Definition same_writable (th th' : log_thread) : Prop :=
  mnt_writable (log_mount (th_log th')) = mnt_writable (log_mount (th_log th)).

Definition forth (th th' : log_thread) (rv : Z) : Prop :=
  same_writable th th' /\ rv <> LOG_IO_BACK /\ (rv <> LOG_IO_STOP -> (budget th' <= budget th)%nat).

Lemma rank_eq d H t w log mem : host_ok d H t w (length H) log mem ->
  rank log = if decide (t = length H) then 0%nat else if decide (t = w) then 1%nat else 2%nat.
Proof.
  intros [K1 K2 K3 [Hk Hw] K5 K6]. unfold rank.
  rewrite K3, (rk_tail _ _ _ _ _ _ _ _ _ _ K1), (rk_head _ _ _ _ _ _ _ _ _ _ K1).
  destruct (decide (t = length H)) as [->|]; [by rewrite Z.eqb_refl|]. rewrite (proj2 (Z.eqb_neq _ _)) by lia.
  destruct Hw as [[(E1 & _) ->]|(Hw & Hlt & _)].
  - rewrite E1, Z.eqb_refl. by rewrite decide_True.
  - rewrite (gk_lo _ _ _ _ _ _ _ _ Hw), (gk_hi _ _ _ _ _ _ _ _ Hw).
    destruct (Z.eqb_spec (T0 + Z.of_nat t) (T0 + Z.of_nat w)); [lia|]. by rewrite decide_False by lia.
Qed.

(** ** Trim *)

(** The rank after a swap and a trim that succeeded. *)
Lemma rank_trim (t w n w2 : nat) : (t <= w <= n)%nat -> swapped t w n w2 ->
  let rk := if decide (t = n) then 0%nat else if decide (t = w) then 1%nat else 2%nat in
  let rk' := if decide (w2 = n) then 0%nat else 1%nat in
  (rk' <= rk)%nat /\ ((t = w -> w2 = n) -> (0 < rk)%nat -> (rk' < rk)%nat).
Proof.
  intros Hle Hsw. cbv zeta. destruct Hsw as [->|[-> ->]].
  - destruct (decide (t = n)), (decide (t = w)), (decide (w = n)); split; try lia.
  - destruct (decide (w = n)), (decide (w = w)), (decide (n = n)); split; try lia.
Qed.

Definition trimmed (log log' : pfs_log) (rv : Z) : Prop :=
  log_state log' = LOGST_SERVING /\ log_replay_wait log' = false /\ log_mount log' = log_mount log /\
  log_trim_forced log' = false /\ (0 <= rv -> (rank log' <= rank log)%nat /\
    (mnt_writable (log_mount log) = true -> log_trim_forced log = false -> log_space_needed log = true ->
     (0 < rank log)%nat -> (rank log' < rank log)%nat)).

Lemma trim_part_ok H d t w log mem force ty f :
  host_ok d H t w (length H) log mem -> log_leader_latest log = log_leader log ->
  (forall log', log_leader (f log') = log_leader log' /\ log_leader_latest (f log') = log_leader_latest log' /\
     log_mount (f log') = log_mount log' /\ log_state (f log') = log_state log' /\
     log_replay_wait (f log') = log_replay_wait log' /\ log_workgrp (f log') = log_workgrp log' /\
     log_waitgrp (f log') = log_waitgrp log') ->
  safe (recoverable H) (fun '(log', rv) d' => log_state log' = log_state log /\
      log_replay_wait log' = log_replay_wait log /\ log_mount log' = log_mount log /\
      (exists log2, ctl_eq log log2 /\ log_trim_forced log' = log_trim_forced (f log2)) /\
      (exists t' w' d1, host_ok d1 H t' w' (length H) log' mem /\ (d' = d1 \/ (rv < 0 /\ landed (recoverable H) d1 d'))) /\
      (0 <= rv -> (rank log' <= rank log)%nat /\
        ((force && (ty =? LOG_WRITE) && mnt_writable (log_mount log) = true)%bool -> (0 < rank log)%nat ->
         (rank log' < rank log)%nat)))
    (logio_bind (pfs_log_tryswap_trimgroup trimgroup_nsect_threshold trimgroup_ntx_threshold trimgroup_nsects_swapinmax
       log mem force ty) (fun '(log, _) => pfs_log_trim (f log))) d.
Proof.
  intros Hh Elat Hf. eapply safe_bind; [eapply swap_ok, Hh|].
  intros [log2 rv] d2 (-> & El & El2 & Hctl & w2 & Hh2 & Hsw & Hst).
  pose proof (Hf log2) as (F1 & F2 & F3 & F4 & F5 & F6 & F7). pose proof Hctl as (C1 & C2 & C3 & _).
  eapply safe_mono; [by intros ? ?| |eapply trim_ok with (t := t) (w := w2) (mem := mem); try done].
  - intros [log' rv'] d' _ [(D1 & D2 & D3 & D4 & D5 & _) (t' & w' & d1 & Hh' & Hd1 & Htw)].
    split; [congruence|]. split; [congruence|]. split; [congruence|].
    split; [exists log2; split; [done|congruence]|]. split; [by exists t', w', d1|].
    intros Hrv. destruct (Htw Hrv) as [-> ->]. rewrite (rank_eq _ _ _ _ _ _ Hh), (rank_eq _ _ _ _ _ _ Hh').
    rewrite (decide_True (P := w2 = w2)) by done.
    destruct (rank_trim t w (length H) w2) as [R1 R2]; [|done|].
    { destruct Hh as [K1 _ _ [Hk Hw] _ _]. pose proof (gk_le _ _ _ _ _ _ _ _ Hk).
      destruct Hw as [[_ ->]|(_ & ? & _)]; lia. }
    split; [done|]. intros Hb. apply R2. by apply Hst.
  - by eapply host_ok_log.
  - rewrite F1, F2. congruence.
Qed.

Lemma handle_trim_ok H d th :
  turn_inv H d th -> log_state (th_log th) = LOGST_SERVING -> work_req th LOG_TRIM <> [] ->
  safe crash_inv (fun '(th', rv) d' => (post_inv H d' th' rv /\ log_state (th_log th') = LOGST_SERVING) /\
      forth th th' rv /\ (hot th -> rv <> LOG_IO_STOP -> (budget th' < budget th)%nat))
    (pfs_log_handle_trim trimgroup_nsect_threshold trimgroup_ntx_threshold trimgroup_nsects_swapinmax th) d.
Proof.
  intros Hti Hst Hq. pose proof (turn_crash _ _ _ Hti) as Hcr. pose proof Hti as [[(t & w & Hh) Hw Hwr Hpo Hre] Hp].
  unfold pfs_log_handle_trim. rewrite Hst, Z.eqb_refl. split; [done|]. intros now.
  cbn [set_log_trimts log_replay_wait]. rewrite Hw. destruct (work_req th LOG_TRIM) as [|q rest] eqn:Eq; [done|].
  set (log1 := pfs_log_paxos_try_acquire (set_log_trimts now (th_log th))).
  change (log_leader_latest log1) with (log_leader (th_log th)).
  change (log_leader log1) with (log_leader (th_log th)).
  rewrite Z.ltb_irrefl. change (log_leader log1) with (log_leader (th_log th)).
  pose proof (hk_lr _ _ _ _ _ _ _ _ _ _ _ _ _ _ _ Hh) as Elr. pose proof (hk_rec _ _ _ _ _ _ _ _ _ _ _ _ _ _ _ Hh) as Hr.
  assert (Hth : tail_txid (log_leader (th_log th)) <= head_txid (log_leader (th_log th))).
  { rewrite Elr, (rk_tail _ _ _ _ _ _ _ _ _ _ Hr), (rk_head _ _ _ _ _ _ _ _ _ _ Hr).
    pose proof (rk_t _ _ _ _ _ _ _ _ _ _ Hr). lia. }
  rewrite (proj2 (Z.leb_le _ _) Hth), Z.leb_refl, Z.ltb_irrefl.
  assert (Hlog1 : host_ok d H t w (length H) log1 (th_mem th)) by (by eapply host_ok_log).
  eapply safe_bind with (R := fun '(log', rv) d' => trimmed log1 log' rv /\
    exists t' w' d1, host_ok d1 H t' w' (length H) log' (th_mem th) /\ (d' = d1 \/ (rv < 0 /\ landed (recoverable H) d1 d'))).
  { destruct (log_trim_forced log1) eqn:Ef; [|destruct (log_space_needed log1) eqn:Es].
    - eapply safe_turn; [exact Hp|]. eapply safe_mono; [by intros ? ?| |apply (trim_part_ok H d t w); [done|done|by intros []]].
      intros [log' rv] d' _ (P1 & P2 & P3 & (log2 & _ & P4) & P5 & P6). split; [|done].
      split_and!; try done; [by rewrite P1|by rewrite P2|]. intros Hrv. split; [by apply P6|]. by rewrite Ef.
    - eapply safe_turn; [exact Hp|]. eapply safe_mono; [by intros ? ?| |apply (trim_part_ok H d t w); [done|done|by intros []]].
      intros [log' rv] d' _ (P1 & P2 & P3 & (log2 & (_ & _ & _ & _ & C & _) & P4) & P5 & P6). split; [|done].
      split_and!; try done; [by rewrite P1|by rewrite P2|rewrite P4; cbn; congruence|]. intros Hrv.
      destruct (P6 Hrv) as [R1 R2]. split; [done|]. intros Hwt _ _. apply R2. by rewrite Hwt.
    - destruct (need_trim_ok _ _ _ _ _ _ Hlog1) as [[|] ->]; cbn [lift logio_bind].
      + eapply safe_turn; [exact Hp|]. eapply safe_mono; [by intros ? ?| |eapply trim_ok; done].
        intros [log' rv] d' _ [(C1 & C2 & C3 & _ & C5 & _) (t' & w' & d1 & Hh' & Hd1 & Htw)]. split; [|by exists t', w', d1].
        split; [by rewrite C2|]. split; [by rewrite C3|]. split; [done|]. split; [by rewrite C5|].
        intros Hrv. destruct (Htw Hrv) as [-> ->]. split; [|by rewrite Es].
        rewrite (rank_eq _ _ _ _ _ _ Hlog1), (rank_eq _ _ _ _ _ _ Hh'), (decide_True (P := w = w)) by done.
        apply rank_trim; [|by left]. destruct Hh as [K1 _ _ [Hk Hww] _ _]. pose proof (gk_le _ _ _ _ _ _ _ _ Hk).
        destruct Hww as [[_ ->]|(_ & ? & _)]; lia.
      + split; [done|]. split; [|exists t, w, d; auto]. split_and!; try done. intros _. split; [done|]. by rewrite Es. }
  intros [log' rv] d' ((T1 & T2 & T3 & T4 & T5) & t' & w' & d1 & Hh' & Hd1).
  assert (Hti' : post_inv H d' (set_th_log log' (set_work_req LOG_TRIM rest th)) (if rv <? 0 then LOG_IO_STOP else LOG_IO_CONT)).
  { exists d1. split; [split; [split; try done; by exists t', w'|same Hp]|].
    destruct Hd1 as [?|(Hrv & lr & ? & ? & ?)]; [by left|right]. rewrite (proj2 (Z.ltb_lt rv 0)) by done.
    split; [done|]. exists lr. split_and!; [done|done|by left]. }
  split; [by eapply post_crash|]. split; [done|]. unfold forth, same_writable, budget, hot. queues. rewrite T3, T4.
  change (log_mount log1) with (log_mount (th_log th)) in *. change (rank log1) with (rank (th_log th)) in T5.
  destruct (Z.ltb_spec rv 0) as [Hrv|Hrv]; [done|]. destruct (T5 Hrv) as [R1 R2]. split; [split_and!; [done|done|]|].
  - intros _. destruct (bool_decide _), (log_trim_forced (th_log th)); lia.
  - intros (_ & Hwt & Hhot) _. destruct (log_trim_forced (th_log th)) eqn:Ef.
    + destruct (bool_decide _); lia.
    + destruct Hhot as [?|(Hs & Hne & Hpos)]; [done|]. rewrite bool_decide_eq_false_2 by done.
      specialize (R2 Hwt Ef Hs Hpos). lia.
Qed.

(** ** Write *)
Lemma safe_pend {A} es (Q : A -> disk -> Prop) p d :
  pending es -> safe (recoverable (H0 ++ [es])) Q p d -> safe crash_inv Q p d.
Proof. intros Hp. apply safe_mono; [|done]. intros d' Hd'. right. eauto. Qed.

(** The groups and the cache after the commit. *)
Lemma add_trimentry_ok d H t w log mem ops es :
  rec_ok d (H ++ [es]) t -> mnt_sectsize (log_mount log) = ss -> lr_body (log_leader log) = lr_body (d_leader d) ->
  grps_ok H t w (length H) (log_workgrp log) (log_waitgrp log) ->
  (forall b, length (mem b) = length (S0 b)) -> (forall b i, mem b !! i = state H (length H) b !! i) ->
  Forall2 op_of ops es -> Z.of_nat (length es) <= nslots ->
  exists log', pfs_log_add_trimentry log (T0 + Z.of_nat (length H) + 1) (Z.of_nat (length ops) * LE_SIZE) ops = Some log' /\
    log_leader log' = log_leader log /\ log_leader_latest log' = log_leader_latest log /\ ctl_eq log log' /\
    host_ok d (H ++ [es]) t w (length (H ++ [es])) log' (foldl top_write mem ops).
Proof.
  intros Hr Em Elr Hg Hml Hm H2 Hlen. unfold pfs_log_add_trimentry.
  rewrite Elr, (rk_size _ _ _ _ _ _ _ _ _ _ Hr). destruct (grps_ok_app _ _ _ _ _ es _ _ _ _ _ Hg) as [Hk Hw].
  assert (Hes : (H ++ [es]) !! length H = Some es) by (rewrite lookup_app_r, Nat.sub_diag by lia; done).
  assert (Hpl : Forall (fun le => (Z.to_nat (le_obj_idx le) < length (S0 (le_sector_bda le)))%nat) es).
  { pose proof (rk_placed _ _ _ _ _ _ _ _ _ _ Hr) as Hp. rewrite concat_snoc in Hp.
    apply Forall_app in Hp as [_ Hp]. eapply Forall_impl; [exact Hp|]. by intros le (_ & _ & ? & _). }
  assert (Hins : exists work, pfs_trimgroup_insert (log_workgrp log) (T0 + Z.of_nat (S (length H)))
    (LE_SIZE * Z.of_nat (length es)) ops (LE_SIZE * nslots) = Some work /\
    grp_ok nslots S0 T0 O0 (H ++ [es]) w (S (length H)) work) by (by eapply trimgroup_insert_ok).
  destruct Hins as (work & Ei & Hk').
  rewrite (Forall2_length _ _ _ H2). replace (T0 + Z.of_nat (length H) + 1) with (T0 + Z.of_nat (S (length H))) by lia.
  rewrite Z.mul_comm, Ei. eexists. split; [done|]. split_and!; try done.
  assert (El : length (H ++ [es]) = S (length H)) by (rewrite length_app; simpl; lia).
  split; try done.
  - split; [by rewrite El|done].
  - intros b. by rewrite (foldl_top_write _ _ H2), length_apply.
  - intros b i. rewrite (foldl_top_write _ _ H2), state_snoc. apply apply_agree; [by rewrite Hml, length_state|by left].
Qed.

Lemma handle_write_commit_ok d th req tx ops t w :
  turn_inv H0 d th -> log_state (th_log th) = LOGST_SERVING ->
  host_ok d H0 t w (length H0) (th_log th) (th_mem th) ->
  log_leader_latest (th_log th) = log_leader (th_log th) ->
  work_req th LOG_WRITE = [req] -> work_req th0 LOG_WRITE = [req] -> r_itx req = Some tx ->
  tx_ready (th_mem th) tx ops -> pos H0 (length H0) - pos H0 t + Z.of_nat (length ops) < nslots ->
  safe crash_inv (fun '(th', rv) d' => (exists H, post_inv H d' th' rv /\ log_state (th_log th') = LOGST_SERVING) /\ forth th th' rv)
    (handle_write_commit trimgroup_nsect_threshold trimgroup_ntx_threshold trimgroup_nsects_swapinmax
       th req [] tx (t_nops tx * LE_SIZE)) d.
Proof.
  intros Hti Hst Hh Elat Eq Eq0 Etx Hready Hroom. pose proof Hti as [[_ Hw Hwr Hpo Hre] Hp].
  pose proof Hready as [R1 R2 R3 R4].
  destruct (tx_entries_ready (th_mem th) (T0 + Z.of_nat (length H0) + 1) ops (L0 + pos H0 (length H0)) R4)
    as (es & Ees & Hes & H2). pose proof (Forall2_length _ _ _ H2) as Hl.
  assert (Hpend : pending es).
  { exists req, tx. rewrite Eq0. split_and!; [by left|done|]. by exists ops. }
  unfold handle_write_commit. eapply safe_bind.
  { eapply safe_mono; [|done|eapply commit_ok; try done; lia].
    intros d' [Hd'|Hd']; [left; by exists t|right; exists es; split; [done|by exists t]]. }
  intros [[log1 tx1] rv] d2 (-> & latest & lr & d1 & -> & Elr & Hrv). pose proof Hh as [K1 K2 K3 K4 K5 K6].
  destruct Hrv as [(-> & -> & Hr1)|(Hneg & Hr1 & Hd2)].
  - simpl (0 <? 0). set (tx1 := set_t_id _ tx).
    assert (Hready1 : tx_ready (th_mem th) tx1 ops) by (by split).
    rewrite (pfs_tx_apply_ready _ _ _ Hready1). cbn [lift logio_bind]. rewrite (tr_ops _ _ _ Hready1).
    cbn [lift logio_bind]. change (t_id tx1) with (T0 + Z.of_nat (length H0) + 1). rewrite R2.
    set (log1 := set_log_latest latest (set_leader lr (th_log th))).
    pose proof (pos_mono H0 t (length H0) (rk_t _ _ _ _ _ _ _ _ _ _ K1)).
    destruct (add_trimentry_ok d1 H0 t w log1 (th_mem th) ops es) as (log2 & -> & E1 & E2 & (C1 & C2 & C3 & _ & C5 & _) & Hh2);
      try done; [lia|].
    cbn [lift logio_bind]. eapply safe_bind; [eapply safe_pend; [exact Hpend|eapply swap_ok, Hh2]|].
    intros [log3 rv3] d3 (-> & E3 & E4 & (D1 & D2 & D3 & _ & D5 & _) & w3 & Hh3 & _).
    assert (Eoff : g_roffset (log_workgrp log3) = head_offset (log_leader log3)).
    { destruct (hk_grps _ _ _ _ _ _ _ _ _ _ _ _ _ _ _ Hh3) as [Hk3 _].
      rewrite (gk_off _ _ _ _ _ _ _ _ Hk3), E3, E1. change (log_leader log1) with lr. rewrite Elr.
      symmetry. apply (rk_hoff _ _ _ _ _ _ _ _ _ _ Hr1). }
    rewrite (proj2 (Z.eqb_eq _ _) Eoff). rewrite bool_decide_eq_true_2 by done.
    assert (Hfin : turn_inv (H0 ++ [es]) d1 (pfs_log_reply_queue LOG_POLL 0 (pfs_log_reply
      (MkReq (r_id req) (r_type req) (Some tx1) (r_otxq req) (r_hostid req) (r_next_hostid req)) 0
      (set_work_req LOG_WRITE [] (set_th_log log3 (set_th_mem (foldl top_write (th_mem th) ops) th)))))).
    { destruct (reply_queue_eq LOG_POLL 0 (pfs_log_reply
      (MkReq (r_id req) (r_type req) (Some tx1) (r_otxq req) (r_hostid req) (r_next_hostid req)) 0
      (set_work_req LOG_WRITE [] (set_th_log log3 (set_th_mem (foldl top_write (th_mem th) ops) th))))) as (out & -> & _).
      split; [split|]; queues.
      - by exists t, w3.
      - by rewrite D3, C3.
      - by left.
      - done.
      - done.
      - split; [ids Hp|]. right. exists es. split; [done|]. split; [done|]. split; [by queues|].
        exists req, 0, (r_otxq req). rewrite Eq0. split_and!; [by left| |done].
        apply elem_of_app. left. apply elem_of_app. right. by left. }
    split; [by eapply turn_crash|]. split.
    + exists (H0 ++ [es]). split; [by apply post_same|].
      match goal with |- context [pfs_log_reply_queue ?i ?rv ?th] => destruct (reply_queue_eq i rv th) as (out & -> & _) end.
      cbn [th_log]. queues. by rewrite D2, C2.
    + match goal with |- context [pfs_log_reply_queue ?i ?rv ?th] => destruct (reply_queue_eq i rv th) as (out & -> & _) end.
      unfold forth, same_writable, budget. queues. rewrite D1, C1, D5, C5. split_and!; [done|done|].
      intros _. rewrite bool_decide_eq_true_2 by done. cbn. lia.
  - rewrite (proj2 (Z.ltb_lt rv 0)) by done. rewrite bool_decide_eq_true_2 by done.
    match goal with |- safe _ _ (LRet (?th', _)) _ => assert (Hfin : post_inv H0 d2 th' LOG_IO_STOP) end.
    { exists d1. split; [|destruct Hd2 as [?|(lr2 & ? & ? & ?)]; [by left|right; split; [done|]]].
      2: { exists lr2. split_and!; try done. right. split; [done|]. exists es. split; [done|by exists t]. }
      split; [split|]; queues; try done.
      - exists t, w. by split.
      - by left.
      - split; [ids Hp|]. left. split; [done|]. split; [|left; by queues].
        intros q rv' txq Hq. queues. intros [Hin|Hin]%elem_of_app.
        + destruct Hp as [_ [(_ & Hna & _)|(es' & _ & E & _)]]; [by eapply Hna|].
          apply (f_equal length) in E. rewrite length_app in E. simpl in E. lia.
        + apply list_elem_of_singleton in Hin. simplify_eq. done. }
    split; [by eapply post_crash|]. split; [exists H0; by split|]. by split_and!.
Qed.

(** The transactions submitted are smaller than the journal. *)
Definition strict : Prop :=
  forall req tx, req ∈ work_req th0 LOG_WRITE -> r_itx req = Some tx -> t_nops tx < nslots.

(** The handler steps back, to a trim. *)
Definition back (th th' : log_thread) (rv : Z) : Prop :=
  rv = LOG_IO_BACK /\ same_writable th th' /\ (budget th' <= budget th)%nat /\
  (strict -> mnt_writable (log_mount (th_log th)) = true -> hot th').

Lemma handle_write_ok H d th :
  turn_inv H d th -> log_state (th_log th) = LOGST_SERVING -> work_req th LOG_WRITE <> [] ->
  safe crash_inv (fun '(th', rv) d' => (exists H', post_inv H' d' th' rv /\ log_state (th_log th') = LOGST_SERVING) /\
      (forth th th' rv \/ back th th' rv))
    (pfs_log_handle_write trimgroup_nsect_threshold trimgroup_ntx_threshold trimgroup_nsects_swapinmax
       log_skip_journal_probe fuel th) d.
Proof.
  intros Hti Hst Hq. pose proof (turn_crash _ _ _ Hti) as Hcr. pose proof Hti as [[(t & w & Hh) Hw Hwr Hpo Hre] Hp].
  assert (H = H0 /\ work_req th LOG_WRITE = work_req th0 LOG_WRITE) as [-> Eq0].
  { destruct Hp as [_ [(-> & _ & [?|?])|(? & ? & ? & ? & ?)]]; done. }
  pose proof Hwr as [?|(req & tx & ops & Eq & Etx & Hready & Hsz)]; [done|].
  pose proof Hh as [K1 K2 K3 K4 K5 K6].
  unfold pfs_log_handle_write. rewrite Hst, Z.eqb_refl, Hw.
  set (log1 := pfs_log_paxos_try_acquire (th_log th)).
  change (log_leader_latest log1) with (log_leader (th_log th)).
  change (log_leader log1) with (log_leader (th_log th)). rewrite Z.ltb_irrefl, Z.leb_refl, Z.ltb_irrefl.
  change (work_req (set_th_log log1 th) LOG_WRITE) with (work_req th LOG_WRITE). rewrite Eq, Etx.
  pose proof Hready as [R1 R2 R3 R4]. rewrite K3, (rk_size _ _ _ _ _ _ _ _ _ _ K1), R2.
  assert (Hpos : 0 < Z.of_nat (length ops)) by (destruct ops; [done|]; simpl; lia).
  replace ((Z.of_nat (length ops) >? 0) && (Z.of_nat (length ops) * LE_SIZE <=? LE_SIZE * nslots))%bool with true
    by (symmetry; apply andb_true_iff; split; [apply Z.gtb_lt|apply Z.leb_le]; rewrite ?LE_SIZE_eq; lia).
  assert (Hh1 : host_ok d H0 t w (length H0) log1 (th_mem th)) by (by eapply host_ok_log).
  assert (Esp : pfs_log_space log1 = Some (LE_SIZE * (nslots - (pos H0 (length H0) - pos H0 t))))
    by (by eapply log_space_ok).
  rewrite Esp. cbn [lift logio_bind].
  assert (Hti1 : turn_inv H0 d (set_th_log log1 th)).
  { split; [split|]; try done. by exists t, w. }
  destruct (Z.geb_spec (Z.of_nat (length ops) * LE_SIZE) (LE_SIZE * (nslots - (pos H0 (length H0) - pos H0 t)))).
  - split; [done|]. split.
    + exists H0. split; [|done]. apply post_same. split; [split|]; queues; try done.
      * exists t, w. by eapply host_ok_log.
      * same Hp.
    + right. split; [done|]. split; [done|]. split; [by unfold budget; queues|]. intros Hstr Hwt.
      unfold hot. queues. split; [by destruct (work_req th LOG_TRIM)|]. split; [done|]. right. split; [done|].
      split; [done|]. change (0 < rank (th_log th))%nat. rewrite (rank_eq _ _ _ _ _ _ Hh).
      destruct (decide (t = length H0)) as [->|]; [|destruct (decide (t = w)); lia].
      assert (t_nops tx < nslots) by (apply (Hstr req); [rewrite <- Eq0, Eq; by left|done]).
      rewrite LE_SIZE_eq in *. lia.
  - rewrite <- R2. eapply safe_mono; [by intros ? ?| |eapply (handle_write_commit_ok d (set_th_log log1 th) req tx ops t w); try done].
    + intros [th' rv] d' _ [? ?]. split; [done|by left].
    + by rewrite <- Eq0.
    + rewrite LE_SIZE_eq in *. lia.
Qed.

(** ** Poll: the host reads its own record and finds nothing new. *)
Lemma land_sector s : 0 <= s ->
  exists m, 1 <= m /\ PBD_SECTOR_SIZE - Z.land (LE_SIZE * s) (PBD_SECTOR_SIZE - 1) = LE_SIZE * m.
Proof.
  intros Hs. change (PBD_SECTOR_SIZE - 1) with (Z.ones 12). rewrite Z.land_ones by lia.
  exists (16 - s mod 16). pose proof (Z.mod_pos_bound s 16 ltac:(lia)). split; [lia|].
  change (2 ^ 12) with (LE_SIZE * 16). rewrite Z.mul_mod_distr_l by done. unfold PBD_SECTOR_SIZE.
  rewrite LE_SIZE_eq. lia.
Qed.

Lemma leader_read_fail m rv lr : rv < 0 -> leader_read_one m (rv, lr) = rv.
Proof.
  intros Hrv. unfold leader_read_one, read_leader_rv, paxos_read_rv. cbn [fst snd].
  by rewrite !(proj2 (Z.ltb_lt rv 0)).
Qed.

Lemma poll_own H t w d log mem :
  host_ok d H t w (length H) log mem ->
  safe (recoverable H) (fun '(log', rv, txq) d' => d' = d /\ txq = [] /\ rv <= 0 /\ ctl_eq log log' /\
      host_ok d H t w (length H) log' mem)
    (pfs_log_poll log_skip_journal_probe fuel log None) d.
Proof.
  intros Hh. pose proof Hh as [K1 K2 K3 K4 K5 K6]. assert (HI : recoverable H d) by (by exists t).
  unfold pfs_log_poll.
  assert (Hrd : safe (recoverable H) (fun '(log', rv, txq) d' => d' = d /\ txq = [] /\ rv <= 0 /\ ctl_eq log log' /\
      host_ok d H t w (length H) log' mem)
    (logio_bind (pfs_leader_read (log_mount log)) (fun '(rv, cur_lr) =>
       if rv <? 0 then LRet (log, rv, []) else log_poll_latest fuel log cur_lr)) d).
  { unfold pfs_leader_read. cbn [logio_bind]. split; [done|]. split.
    - destruct (Z.ltb_spec (leader_read_one (log_mount log) (ss, d_leader d)) 0); [split; [done|split_and!; done || lia]|].
      cbn [snd]. unfold log_poll_latest. rewrite K3.
      pose proof (rk_t _ _ _ _ _ _ _ _ _ _ K1).
      rewrite (proj2 (Z.geb_le _ _)) by (rewrite (rk_tail _ _ _ _ _ _ _ _ _ _ K1), (rk_head _ _ _ _ _ _ _ _ _ _ K1); lia).
      rewrite Z.ltb_irrefl, K3. unfold pfs_log_scan.
      rewrite K3, (rk_hoff _ _ _ _ _ _ _ _ _ _ K1), (rk_size _ _ _ _ _ _ _ _ _ _ K1).
      rewrite (proj2 (Z.ltb_lt _ _)) by (apply Z.mul_lt_mono_pos_l; [done|apply Z.mod_pos_bound; done]).
      rewrite Z.eqb_refl. cbn [logio_bind]. simpl (0 <? 0). split; [done|]. split_and!; try done.
      split; try done. cbn [log_leader set_leader set_head set_body lr_body].
      rewrite <- (rk_hoff _ _ _ _ _ _ _ _ _ _ K1), K3. by destruct (lr_body (d_leader d)).
    - intros rv lr Hrv. rewrite leader_read_fail, (proj2 (Z.ltb_lt rv 0)) by done.
      split; [done|]. split_and!; done || lia. }
  destruct (negb (log_skip_journal_probe =? 1)); [|exact Hrd].
  rewrite K3, (rk_hoff _ _ _ _ _ _ _ _ _ _ K1).
  pose proof (Z.mod_pos_bound (O0 + pos H (length H)) nslots Hn) as Hm.
  destruct (land_sector ((O0 + pos H (length H)) mod nslots)) as (m & Hm1 & ->); [lia|].
  apply pfs_log_read_ok; try done; [by rewrite K3; apply K1|lia|apply K1| |].
  { intros rv buf Hrv. right. rewrite (proj2 (Z.ltb_lt rv 0)) by done. split; [done|]. split_and!; done || lia. }
  intros r buf Hr _ Hl _.
  destruct (Z.ltb_spec (LE_SIZE * Z.of_nat r) 0); [rewrite LE_SIZE_eq in *; lia|].
  destruct buf as [|le buf]; [simpl in Hl; lia|]. destruct (_ <=? 0); [|exact Hrd].
  split; [done|]. split_and!; done || lia.
Qed.

Lemma handle_poll_ok H d th :
  turn_inv H d th -> log_state (th_log th) = LOGST_SERVING -> work_req th LOG_POLL <> [] ->
  safe crash_inv (fun '(th', rv) d' => (turn_inv H d' th' /\ log_state (th_log th') = LOGST_SERVING) /\ forth th th' rv)
    (pfs_log_handle_poll log_skip_journal_probe fuel th) d.
Proof.
  intros Hti Hst Hq. pose proof (turn_crash _ _ _ Hti) as Hcr. pose proof Hti as [[(t & w & Hh) Hw Hwr Hpo Hre] Hp].
  unfold pfs_log_handle_poll. rewrite Hst, Z.eqb_refl, Hw. destruct (work_req th LOG_POLL) as [|req rest] eqn:Eq; [done|].
  apply Forall_cons in Hpo as [Ereq Hpo].
  eapply safe_bind; [eapply safe_turn; [exact Hp|by eapply poll_own]|].
  intros [[log' rv] txq] d' (-> & -> & Hrv & (C1 & C2 & C3 & _ & C5 & _) & Hh').
  assert (Hfin : forall rv io, io <> LOG_IO_BACK -> (turn_inv H d (pfs_log_reply_queue LOG_POLL rv
    (set_work_req LOG_POLL (set_r_otxq (r_otxq req ++ []) req :: rest) (set_th_log log' th))) /\
    log_state (th_log (pfs_log_reply_queue LOG_POLL rv
    (set_work_req LOG_POLL (set_r_otxq (r_otxq req ++ []) req :: rest) (set_th_log log' th)))) = LOGST_SERVING) /\
    forth th (pfs_log_reply_queue LOG_POLL rv
    (set_work_req LOG_POLL (set_r_otxq (r_otxq req ++ []) req :: rest) (set_th_log log' th))) io).
  { intros rv' io Hio. match goal with |- context [pfs_log_reply_queue ?i ?rv ?th] => destruct (reply_queue_eq i rv th) as (out & -> & Hout) end.
    split.
    2: { unfold forth, same_writable, budget. queues. rewrite C1, C5, (rank_eq _ _ _ _ _ _ Hh), (rank_eq _ _ _ _ _ _ Hh'). done. }
    split; [|cbn [th_log]; queues; congruence]. split; [split|]; queues; try done.
    - by exists t, w.
    - congruence.
    - eapply (progress_ext _ _ _ out LOG_POLL (work_req th LOG_POLL)); [exact Hp|by queues|by queues|done|done|done| |ids Hp].
      rewrite Eq. cbn [set_work_req work_req] in Hout. rewrite fn_lookup_insert in Hout. intros id rv0 txq Hin.
      destruct (Hout _ _ _ Hin) as (r & [->|Hr]%elem_of_cons & Er); [exists req|exists r]; (split; [|done]); [by left|by right]. }
  destruct (Z.ltb_spec rv 0).
  - destruct (Hfin rv LOG_IO_STOP) as [[? ?] ?]; [done|]. split; [by eapply turn_crash|]. done.
  - assert (rv = 0) as -> by lia. simpl (0 =? 0). rewrite app_nil_r.
    cbn [r_otxq set_r_otxq]. rewrite Ereq. rewrite bool_decide_eq_true_2 by done.
    destruct (Hfin 0 LOG_IO_CONT) as [[? ?] ?]; [done|]. rewrite Ereq in *. split; [by eapply turn_crash|]. done.
Qed.

(** ** The other requests *)
(** The first request of a queue is answered. *)
Lemma progress_first H th th' i req rest v txq : progress H th -> i <> LOG_WRITE -> i <> LOG_TRIM ->
  work_req th i = req :: rest -> work_req th' LOG_WRITE = work_req th LOG_WRITE ->
  th_out th' = th_out th ++ [(r_id req, v, txq)] -> ids_ok th' -> progress H th'.
Proof.
  intros Hp H1 H2 Eq Ew Eo Hids. eapply (progress_ext H th th' _ i [req]); try done.
  - rewrite Eq. intros x ->%list_elem_of_singleton. by left.
  - intros id rv q Hin%list_elem_of_singleton. simplify_eq. exists req. split; [by left|done].
Qed.

Lemma handle_flush_ok H d th :
  turn_inv H d th -> log_state (th_log th) = LOGST_SERVING -> work_req th LOG_FLUSH <> [] ->
  safe crash_inv (fun '(th', rv) d' => (turn_inv H d' th' /\ log_state (th_log th') = LOGST_SERVING) /\
      (forth th th' rv \/ back th th' rv))
    (pfs_log_handle_flush th) d.
Proof.
  intros Hti Hst Hq. pose proof (turn_crash _ _ _ Hti) as Hcr. pose proof Hti as [[(t & w & Hh) Hw Hwr Hpo Hre] Hp].
  unfold pfs_log_handle_flush. rewrite Hst, Z.eqb_refl, Hw.
  destruct (work_req th LOG_FLUSH) as [|req rest] eqn:Eq; [done|].
  assert (Hids : forall th', (forall i, i <> LOG_WRITE -> i <> LOG_TRIM -> work_req th' i = if decide (i = LOG_FLUSH) then rest else work_req th i) ->
    ids_ok th').
  { intros th' He. eapply ids_ok_sub; [apply Hp|]. intros i H1 H2 r. rewrite He by done.
    destruct (decide (i = LOG_FLUSH)) as [->|]; intros Hr; exists r; [rewrite Eq; split; [by right|done]|done]. }
  assert (Eb : budget th = S (length rest + (if log_trim_forced (th_log th) then 1 else 0) +
    (if bool_decide (work_req th LOG_WRITE = []) then 0 else rank (th_log th)))%nat) by (unfold budget; by rewrite Eq).
  destruct (_ =? _) eqn:Eth; (split; [done|]); (split; [split; [|done]; split; [split|]; queues; try done|]).
  - by exists t, w.
  - eapply (progress_first _ _ _ LOG_FLUSH); [exact Hp|done|done|done|by queues|by queues|].
    apply Hids. intros i H1 H2. queues. by case_decide as Hd; [subst; rewrite fn_lookup_insert|rewrite fn_lookup_insert_ne].
  - left. split; [done|]. split; [done|]. intros _. rewrite Eb. unfold budget. queues. lia.
  - exists t, w. by eapply host_ok_log.
  - eapply (progress_first _ _ _ LOG_FLUSH); [exact Hp|done|done|done|by queues|by queues|].
    apply Hids. intros i H1 H2. queues. by case_decide as Hd; [subst; queues|queues].
  - right. split; [done|]. split; [done|]. split.
    + rewrite Eb. unfold budget. queues.
      change (rank (set_trim_forced true (th_log th))) with (rank (th_log th)). cbn [set_trim_forced log_trim_forced]. lia.
    + intros _ Hwt. unfold hot. queues. split; [done|]. split; [done|by left].
Qed.

Lemma handle_reset_ok H d th :
  turn_inv H d th -> log_state (th_log th) = LOGST_SERVING -> work_req th LOG_TRY_RESET_LOCK <> [] ->
  safe crash_inv (fun '(th', rv) d' => (turn_inv H d' th' /\ log_state (th_log th') = LOGST_SERVING) /\ forth th th' rv)
    (pfs_log_handle_try_reset_lock th) d.
Proof.
  intros Hti Hst Hq. pose proof (turn_crash _ _ _ Hti) as Hcr. pose proof Hti as [[(t & w & Hh) Hw Hwr Hpo Hre] Hp].
  unfold pfs_log_handle_try_reset_lock. rewrite Hst, Z.eqb_refl, Hw.
  destruct (work_req th LOG_TRY_RESET_LOCK) as [|req rest] eqn:Eq; [done|].
  assert (Hids : forall th', (forall i, work_req th' i = <[LOG_TRY_RESET_LOCK := rest]> (work_req th) i) -> ids_ok th').
  { intros th' He. eapply ids_ok_sub; [apply Hp|]. intros i H1 H2 r. rewrite He.
    destruct (decide (i = LOG_TRY_RESET_LOCK)) as [->|]; [rewrite fn_lookup_insert, Eq|by rewrite fn_lookup_insert_ne by done; exists r].
    intros Hr. exists r. split; [by right|done]. }
  split; [done|]. split.
  2: { split; [by destruct (_ =? _)|]. split; [done|]. intros _. unfold budget. queues. by destruct (_ =? _). }
  destruct (_ =? _); (split; [|done]); (split; [split|]); queues; try done.
  - exists t, w. by destruct Hh.
  - eapply (progress_first _ _ _ LOG_TRY_RESET_LOCK); [exact Hp|done|done|done|by queues|by queues|by apply Hids].
  - by exists t, w.
  - eapply (progress_first _ _ _ LOG_TRY_RESET_LOCK); [exact Hp|done|done|done|by queues|by queues|by apply Hids].
Qed.

(** Stop and suspend answer their queue and change the state only. *)
Lemma reply_state_ok H d th i v :
  turn_inv H d th -> i <> LOG_WRITE -> i <> LOG_TRIM ->
  turn_inv H d (pfs_log_reply_queue i 0 (set_th_log (set_log_state v (th_log th)) th)).
Proof.
  intros [[(t & w & Hh) Hw Hwr Hpo Hre] Hp] Hi Hi2.
  destruct (reply_queue_eq i 0 (set_th_log (set_log_state v (th_log th)) th)) as (out & -> & Hout).
  split; [split|]; cbn [th_log th_mem work_req set_th_log].
  - exists t, w. by eapply host_ok_log.
  - done.
  - by rewrite fn_lookup_insert_ne.
  - destruct (decide (i = LOG_POLL)) as [->|]; [by rewrite fn_lookup_insert|by rewrite fn_lookup_insert_ne].
  - destruct (decide (i = LOG_REPLAYDONE)) as [->|]; [by rewrite fn_lookup_insert|by rewrite fn_lookup_insert_ne].
  - eapply (progress_ext _ _ _ out i (work_req th i)); [exact Hp|cbn [work_req]; by rewrite fn_lookup_insert_ne|done|done|done|done|done|].
    ids Hp.
Qed.

Lemma reply_state_forth th i v : i <> LOG_FLUSH -> i <> LOG_WRITE ->
  forth th (pfs_log_reply_queue i 0 (set_th_log (set_log_state v (th_log th)) th)) LOG_IO_CONT.
Proof.
  intros H1 H2. destruct (reply_queue_eq i 0 (set_th_log (set_log_state v (th_log th)) th)) as (out & -> & _).
  split; [done|]. split; [done|]. intros _. unfold budget. cbn [work_req set_th_log th_log].
  by rewrite !fn_lookup_insert_ne.
Qed.

(** ** Dispatch *)
Abbreviation handle_loop := (log_handle_req_loop trimgroup_nsect_threshold trimgroup_ntx_threshold
  trimgroup_nsects_swapinmax log_skip_journal_probe fuel).

Definition handled (i : Z) (th th' : log_thread) (rv : Z) : Prop :=
  (forth th th' rv \/ (LOG_TRIM < i < LOG_SUSPEND /\ (i = LOG_WRITE \/ i = LOG_FLUSH) /\ back th th' rv)) /\
  (i = LOG_TRIM -> hot th -> rv <> LOG_IO_STOP -> (budget th' < budget th)%nat).

Lemma handler_ok i m H d th :
  1 <= i < LOG_NREQ -> Z.testbit m LOG_LOAD = false -> Z.testbit m LOG_RESUME = false -> Z.testbit m i = true ->
  turn_inv H d th -> (i <= LOG_SUSPEND -> log_state (th_log th) = LOGST_SERVING) -> work_req th i <> [] ->
  safe crash_inv (fun '(th', rv) d' => exists H', post_inv H' d' th' rv /\
      (i < LOG_SUSPEND -> log_state (th_log th') = LOGST_SERVING) /\ handled i th th' rv)
    (log_req_handler trimgroup_nsect_threshold trimgroup_ntx_threshold trimgroup_nsects_swapinmax
       log_skip_journal_probe fuel i th) d.
Proof.
  intros Hi Hm1 Hm9 Hmi Hti Hst Hq. pose proof (turn_crash _ _ _ Hti) as Hcr.
  assert (Hlift : forall p, i < LOG_SUSPEND -> i <> LOG_TRIM ->
    safe crash_inv (fun '(th', rv) d' => (turn_inv H d' th' /\ log_state (th_log th') = LOGST_SERVING) /\ forth th th' rv) p d ->
    safe crash_inv (fun '(th', rv) d' => exists H', post_inv H' d' th' rv /\
      (i < LOG_SUSPEND -> log_state (th_log th') = LOGST_SERVING) /\ handled i th th' rv) p d).
  { intros p Hlt Hnt. apply safe_mono; [done|]. intros [th' rv] d' _ [[? ?] ?]. exists H. split; [by apply post_same|].
    split; [done|]. split; [by left|done]. }
  assert (i = 1 \/ i = 2 \/ i = 3 \/ i = 4 \/ i = 5 \/ i = 6 \/ i = 7 \/ i = 8 \/ i = 9 \/ i = 10) as Hcase
    by (unfold LOG_NREQ in Hi; lia).
  destruct Hcase as [->|[->|[->|[->|[->|[->|[->|[->|[->| ->]]]]]]]]]; unfold log_req_handler; simpl (_ =? _); cbv match.
  - change LOG_LOAD with 1 in Hm1. congruence.
  - pose proof (ti_replay _ _ _ (proj1 Hti)). done.
  - eapply safe_mono; [by intros ? ?| |eapply handle_trim_ok; [done|by apply Hst|done]].
    intros [th' rv] d' _ ([? ?] & ? & ?). exists H. split; [done|]. split; [done|]. split; [by left|done].
  - apply Hlift; [done|done|]. apply handle_poll_ok; [done|by apply Hst|done].
  - apply Hlift; [done|done|]. apply handle_reset_ok; [done|by apply Hst|done].
  - eapply safe_mono; [by intros ? ?| |eapply handle_write_ok; [done|by apply Hst|done]].
    intros [th' rv] d' _ ((H' & ? & ?) & Hfb). exists H'. split; [done|]. split; [done|]. split; [|done].
    destruct Hfb; [by left|right]. split; [done|]. split; [by left|done].
  - eapply safe_mono; [by intros ? ?| |eapply handle_flush_ok; [done|by apply Hst|done]].
    intros [th' rv] d' _ ([? ?] & Hfb). exists H. split; [by apply post_same|]. split; [done|]. split; [|done].
    destruct Hfb; [by left|right]. split; [done|]. split; [by right|done].
  - unfold pfs_log_handle_suspend. rewrite Hst, Z.eqb_refl by done. split; [done|]. exists H.
    split; [by apply post_same, reply_state_ok|]. split; [done|]. split; [|done]. left. by apply reply_state_forth.
  - change LOG_RESUME with 9 in Hm9. congruence.
  - unfold pfs_log_handle_stop. split; [done|]. exists H.
    split; [by apply post_same, reply_state_ok|]. split; [done|]. split; [|done]. left. by apply reply_state_forth.
Qed.

(** Enough rounds: a pass over the queues for every step back; one pass less
    when a trim that makes progress comes next. *)
Definition rounds (m : Z) (n : nat) (i : Z) (th : log_thread) : Prop :=
  11 * Z.of_nat (budget th) + 11 - i <= Z.of_nat n \/
  (i = LOG_TRIM /\ Z.testbit m LOG_TRIM = true /\ hot th /\ 11 * Z.of_nat (budget th) - 3 <= Z.of_nat n).

Lemma hot_budget th : hot th -> (0 < budget th)%nat.
Proof.
  intros (_ & _ & [Ef|(_ & Hne & Hr)]); unfold budget; [rewrite Ef; lia|].
  rewrite bool_decide_eq_false_2 by done. lia.
Qed.

Lemma rounds_some m i th : i < LOG_NREQ -> ~ rounds m 0 i th.
Proof.
  unfold LOG_NREQ. intros Hi [Hr|(-> & _ & Hh & Hr)]; [|apply hot_budget in Hh]; lia.
Qed.

Lemma rounds_next m n i th th' rv : 1 <= i < LOG_NREQ -> rounds m (S n) i th ->
  handled i th th' rv -> rv <> LOG_IO_STOP -> rv <> LOG_IO_BACK -> rounds m n (i + 1) th'.
Proof.
  intros Hi Hr [[(_ & _ & Hb)|(_ & _ & Hb & _)] Ht] H1 H2; [|done]. specialize (Hb H1). left.
  destruct Hr as [Hr|(-> & _ & Hh & Hr)]; [lia|]. specialize (Ht eq_refl Hh H1). unfold LOG_TRIM in *. lia.
Qed.

Lemma rounds_skip m n i th : rounds m (S n) i th ->
  negb (Z.testbit m i) || bool_decide (length (work_req th i) = 0%nat) = true -> rounds m n (i + 1) th.
Proof.
  intros [Hr|(-> & Hb & Hh & Hr)] Hs; [left; lia|]. rewrite Hb in Hs. apply bool_decide_eq_true in Hs.
  destruct Hh as (Hq & _). by destruct (work_req th LOG_TRIM).
Qed.

Lemma rounds_back m n i th th' rv : strict -> mnt_writable (log_mount (th_log th)) = true ->
  (Z.testbit m LOG_WRITE = true \/ Z.testbit m LOG_FLUSH = true -> Z.testbit m LOG_TRIM = true) ->
  Z.testbit m i = true -> rounds m (S n) i th ->
  handled i th th' rv -> rv = LOG_IO_BACK -> rounds m n LOG_TRIM th'.
Proof.
  intros Hs Hw Hm Hb Hr [[(_ & Hnb & _)|(Hi & Hwf & _ & _ & Hle & Hh)] Ht] E; [done|]. right. split; [done|].
  split; [apply Hm; by destruct Hwf as [->| ->]; auto|]. split; [by apply Hh|].
  destruct Hr as [Hr|(-> & _)]; [|lia]. assert (i <= 7) by (destruct Hwf as [->| ->]; done). lia.
Qed.

Lemma handle_loop_ok m : Z.testbit m LOG_LOAD = false -> Z.testbit m LOG_RESUME = false ->
  (Z.testbit m LOG_WRITE = true \/ Z.testbit m LOG_FLUSH = true -> Z.testbit m LOG_TRIM = true) ->
  forall n i rv H d th, 1 <= i -> turn_inv H d th ->
  (i <= LOG_SUSPEND -> log_state (th_log th) = LOGST_SERVING) ->
  (Z.testbit m LOG_TRIM = true -> mnt_writable (log_mount (th_log th)) = true) ->
  hang \/ (strict /\ rounds m n i th) ->
  safe crash_inv (fun '(th', rv) d' => exists H', post_inv H' d' th' LOG_IO_STOP) (handle_loop n th m i rv) d.
Proof.
  intros Hm1 Hm9 Hm3. induction n as [|n IH]; intros i rv H d th Hi Hti Hst Hwt Hfuel;
    pose proof (turn_crash _ _ _ Hti) as Hcr; cbn [log_handle_req_loop];
    (destruct (Z.ltb_spec i LOG_NREQ) as [Hlt|]; [|split; [done|exists H; by apply post_same]]).
  { split; [done|]. destruct Hfuel as [?|[_ Hr]]; [done|]. by apply rounds_some in Hr. }
  destruct (negb (Z.testbit m i) || _)%bool eqn:Ec.
  { apply (IH (i + 1) rv H); [lia|done|intros ?; apply Hst; lia|done|].
    destruct Hfuel as [?|[Hs Hr]]; [by left|right]. split; [done|by apply rounds_skip]. }
  apply orb_false_iff in Ec as [Eb Eq]. apply negb_false_iff in Eb. apply bool_decide_eq_false in Eq.
  eapply safe_bind; [eapply (handler_ok i m H); try done|].
  { intros E. rewrite E in Eq. done. }
  intros [th' rv'] d' (H' & Hpi' & Hs' & Hd). pose proof (post_crash _ _ _ _ Hpi') as Hcr'.
  assert (Hwt' : Z.testbit m LOG_TRIM = true -> mnt_writable (log_mount (th_log th')) = true).
  { intros Ht. rewrite <- (Hwt Ht). by destruct Hd as [[[? _]|(_ & _ & _ & ? & _)] _]. }
  destruct (Z.eqb_spec rv' LOG_IO_STOP) as [->|Hns]; [split; [done|by exists H']|].
  pose proof (post_cont _ _ _ _ Hpi' Hns) as Hti'.
  destruct (Z.eqb_spec rv' LOG_IO_BACK) as [E|].
  - assert (Hi' : i < LOG_SUSPEND /\ Z.testbit m LOG_TRIM = true).
    { destruct Hd as [[(_ & ? & _)|(? & Hwf & _)] _]; [done|]. split; [lia|]. apply Hm3. by destruct Hwf as [->| ->]; auto. }
    apply (IH LOG_TRIM rv' H'); [done|done|intros _; apply Hs', Hi'|done|].
    destruct Hfuel as [?|[Hs Hr]]; [by left|right]. split; [done|]. eapply rounds_back; try done. apply Hwt, Hi'.
  - apply (IH (i + 1) rv' H'); [lia|done|intros Hle; apply Hs'; lia|done|].
    destruct Hfuel as [?|[Hs Hr]]; [by left|right]. split; [done|]. by eapply rounds_next.
Qed.
End Turn.

(** ** A turn *)
Hypothesis Hhard : trimgroup_ntx_threshold < trimgroup_ntx_threshold_hard.

Lemma distribute_same reqs : forall th, th_log (distribute reqs th) = th_log th /\
  th_mem (distribute reqs th) = th_mem th /\ th_out (distribute reqs th) = th_out th.
Proof.
  induction reqs as [|r reqs IH]; intros th; cbn [distribute]; [done|].
  by destruct (IH (set_work_req (r_type r) (work_req th (r_type r) ++ [r]) th)) as (-> & -> & ->).
Qed.

Lemma concat_same l : forall th, let th' := fold_left (fun th i => req_concat LOG_MERGED i th) l th in
  th_log th' = th_log th /\ th_mem th' = th_mem th /\ th_out th' = th_out th.
Proof.
  induction l as [|i l IH]; intros th; cbn [fold_left]; [done|]. cbv zeta.
  destruct (IH (req_concat LOG_MERGED i th)) as (-> & -> & ->). done.
Qed.

Lemma reqmask_ok log : log_state log = LOGST_SERVING ->
  exists m, log_reqmask log = Some m /\ Z.testbit m LOG_LOAD = false /\ Z.testbit m LOG_RESUME = false /\
    (Z.testbit m LOG_WRITE = true \/ Z.testbit m LOG_FLUSH = true -> Z.testbit m LOG_TRIM = true) /\
    (Z.testbit m LOG_TRIM = true -> mnt_writable (log_mount log) = true).
Proof.
  intros E. unfold log_reqmask. rewrite E. simpl (LOGST_SERVING =? _). cbv match.
  destruct (mnt_writable (log_mount log)); eexists; (split; [reflexivity|]); vm_compute; split_and!; try done; by intros [|].
Qed.

(** The queues a turn works on. *)
Definition turn_queues (th : log_thread) (reqs : list log_req) : log_thread :=
  distribute (work_req th LOG_MERGED ++ reqs) (set_work_req LOG_MERGED [] th).

(** The state after a turn: nothing was committed and the write is not
    acknowledged, or the pending transaction was, with its success reported. *)
Definition turn_done (H : history) (th1 : log_thread) (H' : history) (th' : log_thread) : Prop :=
  (H' = H /\ no_ack th1 th') \/ exists es, pending H th1 es /\ H' = H ++ [es] /\
    exists req rv txq, req ∈ work_req th1 LOG_WRITE /\ (r_id req, rv, txq) ∈ th_out th' /\ rv = 0.

Lemma turn_ok n H d th reqs :
  th_inv H d (turn_queues th reqs) -> log_state (th_log th) = LOGST_SERVING ->
  th_out th = [] -> ids_ok (turn_queues th reqs) (turn_queues th reqs) ->
  hang \/ (strict (turn_queues th reqs) /\ 11 * Z.of_nat (budget (turn_queues th reqs)) + 10 <= Z.of_nat n) ->
  safe (crash_inv H (turn_queues th reqs))
    (fun th' d' => exists H' t w d1, host_ok d1 H' t w (length H') (th_log th') (th_mem th') /\
       (d' = d1 \/ landed (stands H (turn_queues th reqs) H') d1 d') /\
       log_replay_wait (th_log th') = false /\ turn_done H (turn_queues th reqs) H' th')
    (log_thread_turn trimgroup_nsect_threshold trimgroup_ntx_threshold trimgroup_ntx_threshold_hard
       trimgroup_nsects_swapinmax log_trim_interval log_skip_journal_probe fuel n th reqs) d.
Proof.
  intros Hti Hst Hout Hids Hfuel. unfold log_thread_turn. fold (turn_queues th reqs).
  assert (Eout : th_out (turn_queues th reqs) = []).
  { unfold turn_queues. by destruct (distribute_same (work_req th LOG_MERGED ++ reqs) (set_work_req LOG_MERGED [] th))
      as (_ & _ & ->). }
  set (th1 := turn_queues th reqs) in *.
  assert (Elog : th_log th1 = th_log th).
  { unfold th1, turn_queues. by destruct (distribute_same (work_req th LOG_MERGED ++ reqs) (set_work_req LOG_MERGED [] th))
      as (-> & _). }
  assert (Hti1 : turn_inv H th1 H d th1).
  { split; [done|]. split; [done|]. left. split; [done|]. split; [|by right].
    intros req rv txq _. rewrite Eout. by intros ?%elem_of_nil. }
  pose proof (turn_crash _ _ _ _ _ Hti1) as Hcr.
  destruct (reqmask_ok (th_log th1)) as (m & -> & Hm1 & Hm9 & Hm3 & Hmw); [by rewrite Elog|]. cbn [lift logio_bind].
  eapply safe_bind with (R := fun th2 d' => d' = d /\ turn_inv H th1 H d th2 /\
    log_state (th_log th2) = LOGST_SERVING /\ budget th2 = budget th1 /\ th_log th2 = th_log th1).
  { assert (Hsame : safe (crash_inv H th1) (fun th2 d' => d' = d /\ turn_inv H th1 H d th2 /\
      log_state (th_log th2) = LOGST_SERVING /\ budget th2 = budget th1 /\ th_log th2 = th_log th1) (LRet th1) d) by (split; [done|]; by rewrite Elog).
    destruct (_ && _)%bool; [|done]. destruct (ti_host _ _ _ Hti) as (t & w & Hh).
    destruct (need_trim_ok _ _ _ _ _ _ Hh) as [[|] ->]; cbn [lift logio_bind]; [|done].
    split; [done|]. intros now.
    assert (Hadd : forall b : bool, safe (crash_inv H th1) (fun th2 d' => d' = d /\ turn_inv H th1 H d th2 /\
      log_state (th_log th2) = LOGST_SERVING /\ budget th2 = budget th1 /\ th_log th2 = th_log th1) (LRet (if b
       then set_work_req LOG_TRIM (work_req th1 LOG_TRIM ++ [log_trimreq]) th1 else th1)) d).
    { intros [|]; [|done]. split; [done|]. split; [done|].
      split; [|split; [by cbn; rewrite Elog|]; split; [by unfold budget; queues|done]].
      destruct Hti1 as [[? ? ? ? ?] Hp]. split; [by split; queues|].
      eapply progress_same; [exact Hp|by queues|done|]. eapply ids_ok_sub; [apply Hp|].
      intros i H1 H2 r. cbn [set_work_req work_req]. rewrite fn_lookup_insert_ne by done. by exists r. }
    destruct (_ >=? _); [apply (Hadd true)|]. unfold pfs_log_need_trim_hard.
    destruct (_ >=? _); cbn [lift logio_bind]; [|apply (Hadd false)].
    destruct (Z.gtb_spec trimgroup_ntx_threshold_hard trimgroup_ntx_threshold); [|lia]. apply (Hadd true). }
  intros th2 d2 (-> & Hti2 & Hst2 & Eb & El). unfold pfs_log_handle_req.
  eapply safe_bind; [eapply (handle_loop_ok H th1 m Hm1 Hm9 Hm3 n 1 0 H d th2); [lia|done|done|by rewrite El|]|].
  { destruct Hfuel as [?|[Hs Hf]]; [by left|right]. split; [done|]. left. rewrite Eb. lia. }
  intros [th3 rv] d3 (H' & Hpi3). pose proof (post_crash _ _ _ _ _ _ Hpi3) as Hcr3. split; [done|].
  destruct Hpi3 as (d1 & [[(t & w & Hh) Hw _ _ _] Hp] & Hd1).
  destruct (concat_same req_types th3) as (E1 & E2 & E3). rewrite E1, E2. exists H', t, w, d1.
  split; [done|]. split; [destruct Hd1 as [?|[_ ?]]; [by left|by right]|]. split; [done|]. destruct Hp as [_ [(-> & Hna & _)|(es & P1 & P2 & P3 & P4)]].
  - left. split; [done|]. intros req rv' txq. rewrite E3. apply Hna.
  - right. exists es. rewrite E3. done.
Qed.
End Thread.
