(* ===== verification/Mount.v ===== *)
(** * Mount: loading the meta data and the journal

    Model of the part of [pfs_mount] (pfs_mount.cc) that reads the device:
    preload of the leader record, load of the meta sectors, allocation trees,
    leader record, start of the log thread, load of the journal and replay.
    The lease part of [pfs_leader_load] is [Lease.pfs_leader_load]. *)

From S2P Require Import Prelude Crc Lease Alloc Object Tx LogIo Trim Log Meta.

Open Scope pfs_scope.
Open Scope logio_scope.

Section Options.
Context (trimgroup_nsect_threshold trimgroup_ntx_threshold trimgroup_ntx_threshold_hard : Z).
Context (trimgroup_nsects_swapinmax log_trim_interval log_skip_journal_probe : Z) (fuel turn_fuel : nat).

(** A request of the only client and the turn of the log thread that serves
    it: its result and the replay transactions.  A thread whose request is
    not answered waits. *)
Fixpoint find_reply (id : nat) (out : list (nat * Z * list pfs_tx)) : option (Z * list pfs_tx) :=
  match out with
  | [] => None
  | (i, rv, txq) :: out => if (i =? id)%nat then Some (rv, txq) else find_reply id out
  end.

Definition pfs_log_request (th : log_thread) (type : Z) (itx : option pfs_tx) (otxq : list pfs_tx)
  : logio (log_thread * Z * list pfs_tx) :=
  let req := MkReq 1 type itx otxq 0 0 in
  run th <- log_thread_turn trimgroup_nsect_threshold trimgroup_ntx_threshold trimgroup_ntx_threshold_hard
              trimgroup_nsects_swapinmax log_trim_interval log_skip_journal_probe fuel turn_fuel
              (MkTh (th_log th) (th_mem th) (work_req th) []) [req];
  match find_reply 1 (th_out th) with
  | Some (rv, txq) => LRet (MkTh (th_log th) (th_mem th) (work_req th) [], rv, txq)
  | None => LHang
  end.

(** [pfs_load_log]; the buffers of the meta data are those the log thread
    copies from. *)
Definition pfs_load_log (th : log_thread) (md : metadata) : logio (log_thread * metadata * Z) :=
  run (th, rv, rplhead) <- pfs_log_request th LOG_LOAD None [];
  if rv <? 0 then LRet (th, md, rv) else
  if rv >? 0 then
    ASSERT (negb (bool_decide (length rplhead = 0%nat)));
    run (md, rplhead) <- lift (pfs_txlist_replay md rplhead);
    run (th, err, rplhead) <- pfs_log_request (set_th_mem (mnt_objbuf md) th) LOG_REPLAYDONE None rplhead;
    ASSERT ((err =? 0) && bool_decide (length rplhead = 0%nat));
    LRet (th, md, 0)
  else
    ASSERT (bool_decide (length rplhead = 0%nat));
    LRet (th, md, 0).

(** Up to the allocation trees. *)
Definition mount_load_meta (mnt : mount) (chunkv : list pfs_chunk) : logio (Z + pfs_log * metadata) :=
  run r <- pfs_log_preload mnt;
  match r with
  | inl err => LRet (inl err)
  | inr log =>
      LoadMeta (fun '(err, mem) =>
      if negb (err =? 0) then LRet (inl err) else
      run bt <- lift (pfs_init_anode mem chunkv MT_BLKTAG);
      run de <- lift (pfs_init_anode mem chunkv MT_DIRENTRY);
      run ino <- lift (pfs_init_anode mem chunkv MT_INODE);
      LRet (inr (log, MkMeta chunkv
        (fun t => if t =? MT_BLKTAG then bt else if t =? MT_DIRENTRY then de else ino) mem)))
  end.

(** [pfs_log_start] with the clock [now]. *)
Definition pfs_log_start (log : pfs_log) (now : Z) : pfs_log :=
  set_log_latest zero_leader (set_log_trimts now (set_log_state LOGST_NOTLOADED log)).

(** [pfs_leader_load] replaces the leader record that was preloaded. *)
Definition mount_load_log (mnt : mount) (log : pfs_log) (md : metadata) : logio (Z + log_thread * metadata) :=
  run (rv, lr) <- pfs_leader_read mnt;
  if rv <? 0 then LRet (inl rv) else
  let log := set_leader lr log in
  ClockSec (fun now =>
  run (th, md, err) <- pfs_load_log (MkTh (pfs_log_start log now) (mnt_objbuf md) (fun _ => []) []) md;
  if err <? 0 then LRet (inl err) else LRet (inr (th, md))).

Definition pfs_mount_load (mnt : mount) (chunkv : list pfs_chunk) : logio (Z + log_thread * metadata) :=
  run r <- mount_load_meta mnt chunkv;
  match r with
  | inl err => LRet (inl err)
  | inr (log, md) => mount_load_log mnt log md
  end.
End Options.
