(* ===== verification/Replay.v ===== *)
(** * Replay and mount

    The replay of the live transactions brings the meta cache and the
    allocation trees to the committed state.  [pfs_mount_load] is the part of
    [pfs_mount] that reads the device: leader record, meta sectors, journal,
    replay, and the hand-over to the log thread. *)

From S2P Require Import Prelude Crc Lease Alloc Object Tx LogIo Trim Log LogSem LogCirc LogInv Meta MetaInv TrimInv LogSafe LogThread.

Open Scope Z_scope.

(** ** The replay transactions *)
Lemma heap_insert_ne (heap : gmap nat pfs_txop) ids ops id top : id ∉ ids ->
  Forall2 (fun o t => heap !! o = Some t) ids ops -> Forall2 (fun o t => <[id := top]> heap !! o = Some t) ids ops.
Proof.
  intros Hid HF. induction HF as [|o t ids ops Ho _ IH]; [done|]. apply not_elem_of_cons in Hid as [? ?].
  constructor; [by rewrite lookup_insert_ne|auto].
Qed.

Lemma foldl_add_op es : forall tx ops,
  tx_oplist tx = Some ops -> (forall o, o ∈ t_ops tx -> (o < t_fresh tx)%nat) -> NoDup (t_ops tx) ->
  t_nops tx = Z.of_nat (length ops) ->
  let tx' := foldl add_op tx es in
  tx_oplist tx' = Some (ops ++ (rtop <$> es)) /\ NoDup (t_ops tx') /\
  t_nops tx' = Z.of_nat (length ops + length es) /\ t_type tx' = t_type tx.
Proof.
  induction es as [|le es IH]; intros tx ops Hops Hfr Hnd Hn; simpl.
  { rewrite app_nil_r, Nat.add_0_r. done. }
  assert (Hnew : tx_oplist (add_op tx le) = Some (ops ++ [rtop le])).
  { unfold tx_oplist, add_op. cbn [pfs_txop_create t_ops t_heap set_t_ops]. apply mapM_Some.
    apply Forall2_app; [|constructor; [by rewrite lookup_insert_eq|done]].
    apply heap_insert_ne; [|by apply mapM_Some]. intros Ho%Hfr. lia. }
  destruct (IH (add_op tx le) (ops ++ [rtop le])) as (H1 & H2 & H3 & H4); try done.
  - intros o [Ho|Ho]%elem_of_app; simpl; [pose proof (Hfr o Ho); lia|]. apply list_elem_of_singleton in Ho as ->. lia.
  - simpl. apply NoDup_app. split_and!; [done| |apply NoDup_singleton].
    intros o Ho ->%list_elem_of_singleton. pose proof (Hfr _ Ho). lia.
  - simpl. rewrite Hn, length_app. simpl. lia.
  - rewrite H1, <- app_assoc. split_and!; [done|done| |done]. rewrite H3, length_app. simpl. lia.
Qed.

Lemma rtx_ok txid es : let tx := rtx txid es in
  t_id tx = txid /\ t_type tx = TXT_REPLAY /\ t_nops tx = Z.of_nat (length es) /\ NoDup (t_ops tx) /\
  tx_oplist tx = Some (rtop <$> es).
Proof.
  destruct (foldl_add_op es (set_t_id txid (pfs_tx_get TXT_REPLAY false)) []) as (H1 & H2 & H3 & H4); try done.
  - intros o Ho. by apply elem_of_nil in Ho.
  - constructor.
  - cbv zeta. split_and!; try done. unfold rtx. by rewrite t_id_add_op.
Qed.

Section Replay.
Context (chunkv : list pfs_chunk) (S0 : meta).
Hypothesis Hcv : chunkv_ok chunkv.
Abbreviation placed := (le_placed (locate chunkv) S0).

(** What redo makes of an operation. *)
Definition redone (le : pfs_logentry_phy) : pfs_txop := set_top_buf (Some (le_sector_bda le)) (rtop le).

Lemma replay_ops_ok ids : forall md heap es,
  md_ok chunkv md -> (forall b, length (mnt_objbuf md b) = length (S0 b)) ->
  mapM (fun id => heap !! id) ids = Some (rtop <$> es) -> NoDup ids -> Forall placed es ->
  exists md' heap', tx_replay_ops md heap ids = Some (md', heap') /\ md_ok chunkv md' /\
    mnt_objbuf md' = foldl le_apply (mnt_objbuf md) es /\
    mapM (fun id => heap' !! id) ids = Some (redone <$> es) /\
    (forall o, o ∉ ids -> heap' !! o = heap !! o).
Proof.
  induction ids as [|id ids IH]; intros md heap es Hmd Hlen Em Hnd Hpl; cbn [tx_replay_ops].
  { destruct es; [|done]. exists md, heap. done. }
  simpl in Em. apply bind_Some in Em as (top & Et & Em). apply bind_Some in Em as (ops & Eo & Em).
  destruct es as [|le es]; [done|]. rewrite fmap_cons in Em. injection Em as -> ->.
  apply NoDup_cons in Hnd as [Hid Hnd]. apply Forall_cons in Hpl as [(P1 & P2 & P3 & P4) Hpl]. rewrite Et.
  destruct (lookup_lt_is_Some_2 (mnt_objbuf md (le_sector_bda le)) (Z.to_nat (le_obj_idx le))) as [old Hold];
    [by rewrite Hlen|].
  destruct (txop_replay_ok chunkv Hcv md (rtop le) _ _ old Hmd eq_refl eq_refl P4 P2 Hold) as (md1 & -> & Hmd1 & Ebuf).
  fold (redone le).
  destruct (IH md1 (<[id:=redone le]> heap) es) as (md' & heap' & E & Hmd' & Eb & Em' & Hfr); try done.
  - intros b. by rewrite Ebuf, length_obj_write.
  - apply mapM_Some. apply heap_insert_ne; [done|]. by apply mapM_Some.
  - exists md', heap'. split; [done|]. split; [done|]. split; [by rewrite Eb, Ebuf|]. split.
    + simpl. rewrite (Hfr id Hid), lookup_insert_eq. simpl. by rewrite Em'.
    + intros o [? ?]%not_elem_of_cons. by rewrite Hfr, lookup_insert_ne.
Qed.

(** A transaction after its replay. *)
Definition replayed (txid : Z) (es : list pfs_logentry_phy) (tx : pfs_tx) : Prop :=
  t_id tx = txid /\ t_nops tx = Z.of_nat (length es) /\ tx_oplist tx = Some (redone <$> es).

Lemma tx_replay_ok md txid es :
  md_ok chunkv md -> (forall b, length (mnt_objbuf md b) = length (S0 b)) -> Forall placed es ->
  exists md' tx', pfs_tx_replay md (rtx txid es) = Some (md', tx') /\ md_ok chunkv md' /\
    mnt_objbuf md' = foldl le_apply (mnt_objbuf md) es /\ replayed txid es tx'.
Proof.
  intros Hmd Hlen Hpl. destruct (rtx_ok txid es) as (H1 & H2 & H3 & H4 & H5).
  destruct (replay_ops_ok (t_ops (rtx txid es)) md (t_heap (rtx txid es)) es) as (md' & heap' & E & Hmd' & Eb & Em & _);
    try done.
  unfold pfs_tx_replay. cbn [t_heap t_ops set_t_done]. rewrite E. eexists _, _. split; [done|].
  split; [done|]. split; [done|]. split_and!; done.
Qed.

Lemma replay_loop_ok hs : forall md txid start stop n,
  md_ok chunkv md -> (forall b, length (mnt_objbuf md b) = length (S0 b)) -> Forall placed (concat hs) ->
  0 <= txid -> hs <> [] -> (start < 0 /\ n = 0) \/ (0 <= start /\ start = txid + 1 - n) ->
  exists md' txq start', txlist_replay_loop md (rtxs txid hs) start stop n =
      Some (md', txq, start', txid + Z.of_nat (length hs), n + Z.of_nat (length hs)) /\
    md_ok chunkv md' /\ mnt_objbuf md' = foldl le_apply (mnt_objbuf md) (concat hs) /\
    start' = txid + 1 - n /\ length txq = length hs /\
    (forall i es tx, hs !! i = Some es -> txq !! i = Some tx -> replayed (txid + 1 + Z.of_nat i) es tx).
Proof.
  induction hs as [|es hs IH]; intros md txid start stop n Hmd Hlen Hpl Htx Hne Hst; [done|].
  simpl in Hpl. apply Forall_app in Hpl as [Hp1 Hp2]. cbn [rtxs txlist_replay_loop].
  destruct (rtx_ok (txid + 1) es) as (R1 & R2 & _). rewrite R1, R2. change (TXT_REPLAY =? TXT_REPLAY) with true. cbv iota.
  destruct (tx_replay_ok md (txid + 1) es Hmd Hlen Hp1) as (md1 & tx1 & -> & Hmd1 & Eb1 & Hr1).
  set (start1 := if start <? 0 then txid + 1 else start).
  assert (Hs1 : 0 <= start1 /\ start1 = txid + 1 - n).
  { unfold start1. destruct (Z.ltb_spec start 0); lia. }
  assert (Hlen1 : forall b, length (mnt_objbuf md1 b) = length (S0 b)).
  { intros b. by rewrite Eb1, length_apply. }
  destruct (decide (hs = [])) as [->|Hne'].
  - cbn [rtxs txlist_replay_loop]. exists md1, [tx1], start1. simpl length.
    split_and!; [f_equal; lia| |by simpl; rewrite app_nil_r|lia|done|].
    + done.
    + intros [|i] es' tx' E1 E2; [|done]. simplify_eq/=. by rewrite Z.add_0_r.
  - destruct (IH md1 (txid + 1) start1 (txid + 1) (n + 1)) as (md' & txq & start' & -> & Hmd' & Eb & Es & El & Hq);
      try done; [lia|right; lia|].
    exists md', (tx1 :: txq), start'. simpl length. split_and!; [f_equal; f_equal; [f_equal|]; lia|done| |lia|simpl; lia|].
    + rewrite Eb, Eb1. simpl. by rewrite foldl_app.
    + intros [|i] es' tx' E1 E2; simplify_eq/=; [by rewrite Z.add_0_r|].
      replace (txid + 1 + Z.of_nat (S i)) with (txid + 1 + 1 + Z.of_nat i) by lia. by apply Hq.
Qed.

Lemma txlist_replay_ok md txid hs :
  md_ok chunkv md -> (forall b, length (mnt_objbuf md b) = length (S0 b)) -> Forall placed (concat hs) ->
  0 <= txid -> hs <> [] ->
  exists md' txq, pfs_txlist_replay md (rtxs txid hs) = Some (md', txq) /\ md_ok chunkv md' /\
    mnt_objbuf md' = foldl le_apply (mnt_objbuf md) (concat hs) /\ length txq = length hs /\
    (forall i es tx, hs !! i = Some es -> txq !! i = Some tx -> replayed (txid + 1 + Z.of_nat i) es tx).
Proof.
  intros Hmd Hlen Hpl Htx Hne.
  destruct (replay_loop_ok hs md txid (-1) (-1) 0) as (md' & txq & start & E & Hmd' & Eb & -> & El & Hq); try done; [by left|].
  unfold pfs_txlist_replay. rewrite E. rewrite bool_decide_eq_false_2 by (destruct hs; done). cbn [negb].
  rewrite (proj2 (Z.eqb_eq _ _)) by lia. eauto 10.
Qed.
End Replay.
