(* ===== verification/MountSafe.v ===== *)
(** * Recovery

    Mounting a device that holds a committed history brings up a log thread
    whose meta cache is exactly the committed state, with allocation trees
    that agree with it; no assertion fails, whatever the device does. *)

From S2P Require Import Prelude Crc Lease Alloc Object Tx LogIo Trim Log LogSem LogCirc LogInv Meta MetaInv TrimInv LogSafe LogThread Mount Replay.

Open Scope Z_scope.

Lemma concat_elem_length {A} (l : list (list A)) x : x ∈ l -> (length x <= length (concat l))%nat.
Proof.
  intros (l1 & l2 & ->)%list_elem_of_split. rewrite concat_app. simpl. rewrite !length_app. lia.
Qed.

Lemma txs_ok_drop (hs : history) : forall t txid lsn, txs_ok txid lsn hs ->
  txs_ok (txid + Z.of_nat t) (lsn + pos hs t) (drop t hs).
Proof.
  induction hs as [|es hs IH]; intros [|t] txid lsn Hok; cbn [drop].
  - done.
  - done.
  - unfold pos. simpl. by rewrite !Z.add_0_r.
  - destruct Hok as (_ & _ & Hok). specialize (IH t _ _ Hok).
    replace (txid + Z.of_nat (S t)) with (txid + 1 + Z.of_nat t) by lia.
    replace (lsn + pos (es :: hs) (S t)) with (lsn + Z.of_nat (length es) + pos hs t); [done|].
    unfold pos. simpl. rewrite length_app. lia.
Qed.

Lemma live_pos (hs : history) t txid lsn : txs_ok txid lsn hs -> (t < length hs)%nat ->
  (0 < length (concat (drop t hs)))%nat.
Proof.
  intros Hok%(txs_ok_drop _ t) Hlt. destruct (drop t hs) as [|es l] eqn:E.
  - apply (f_equal length) in E. rewrite length_drop in E. simpl in E. lia.
  - destruct Hok as [Hne _]. simpl. rewrite length_app. destruct es; [done|simpl; lia].
Qed.

Section Recover.
Context (nslots ss : Z) {hang halt : Prop} (mnt : mount) (chunkv : list pfs_chunk).
Context (S0 : meta) (T0 L0 O0 : Z).
Context (trimgroup_nsect_threshold trimgroup_ntx_threshold trimgroup_ntx_threshold_hard : Z).
Context (trimgroup_nsects_swapinmax log_trim_interval log_skip_journal_probe : Z) (fuel turn_fuel : nat).
Hypothesis Hn : 0 < nslots.
Hypothesis HO0 : 0 <= O0.
Hypothesis HT0 : 0 <= T0.
Hypothesis Hss : 0 <= ss.
Hypothesis Hmnt : mnt_sectsize mnt = ss.
Hypothesis Hcv : chunkv_ok chunkv.
Hypothesis HS0 : forall b i o, S0 b !! i = Some o -> locate chunkv (mo_type o) (mo_number o) = Some (b, i).
Hypothesis HS0good : forall b i o, S0 b !! i = Some o -> obj_good o.
Hypothesis HS0load : loaded chunkv S0.
Hypothesis Hfuel : nslots <= Z.of_nat fuel.
Hypothesis Hturn : hang \/ 10 <= Z.of_nat turn_fuel.
Hypothesis Hhalt : halt.

Abbreviation locate := (MetaInv.locate chunkv).
Abbreviation rec_ok := (rec_ok nslots mnt locate S0 T0 L0 O0).
Abbreviation grps_ok := (grps_ok nslots S0 T0 O0).
Abbreviation host_ok := (host_ok nslots ss mnt locate S0 T0 L0 O0).
Abbreviation recoverable := (recoverable nslots mnt locate S0 T0 L0 O0).
Abbreviation state := (LogInv.state S0).
Abbreviation safe := (safe (hang := hang) (halt := halt) nslots ss).

(** ** The replayed transactions enter the groups *)
Lemma delete_empty G to : grp_empty G -> grp_empty (pfs_trimgroup_delete G to).
Proof.
  intros (E1 & E2 & E3 & E4 & E5 & E6). unfold pfs_trimgroup_delete. destruct (Z.leb_spec to (g_ltxid G)).
  - done.
  - rewrite E5. simpl. unfold grp_empty. simpl. rewrite E1 in *. split_and!; try done. lia.
Qed.

Lemma delete_grps H t w r work wait : grps_ok H t w r work wait ->
  grps_ok H t w r (pfs_trimgroup_delete work (T0 + Z.of_nat t)) (pfs_trimgroup_delete wait (T0 + Z.of_nat t)).
Proof.
  intros [Hk Hw].
  assert (Hwork : (t <= w)%nat -> pfs_trimgroup_delete work (T0 + Z.of_nat t) = work).
  { intros Hle. unfold pfs_trimgroup_delete. rewrite (gk_lo _ _ _ _ _ _ _ _ Hk).
    by rewrite (proj2 (Z.leb_le _ _)) by lia. }
  destruct Hw as [[He ->]|(Hw & Hlt & Hf)].
  - rewrite Hwork by lia. split; [done|]. left. split; [by apply delete_empty|done].
  - rewrite Hwork by lia. split; [done|]. right.
    assert (pfs_trimgroup_delete wait (T0 + Z.of_nat t) = wait) as ->; [|done]. by eapply delete_work.
Qed.

Lemma redone_op_of es : Forall2 op_of (redone <$> es) es.
Proof. induction es as [|le es IH]; [done|]. rewrite fmap_cons. constructor; [|done]. by split. Qed.

Lemma replaytx_put_ok d H t mem txq : forall (r w : nat) log,
  rec_ok d H t -> (forall b, length (mem b) = length (S0 b)) ->
  (forall b i, mem b !! i = state H (length H) b !! i) ->
  lr_body (log_leader log) = lr_body (d_leader d) ->
  grps_ok H t w r (log_workgrp log) (log_waitgrp log) -> (t <= r)%nat -> (r + length txq = length H)%nat ->
  (forall i es tx, drop r H !! i = Some es -> txq !! i = Some tx -> replayed (T0 + Z.of_nat r + 1 + Z.of_nat i) es tx) ->
  safe (recoverable H) (fun log' d' => d' = d /\ log_leader log' = log_leader log /\ ctl_eq log log' /\
      exists w', grps_ok H t w' (length H) (log_workgrp log') (log_waitgrp log'))
    (pfs_log_replaytx_put trimgroup_nsect_threshold trimgroup_ntx_threshold trimgroup_nsects_swapinmax log mem txq) d.
Proof.
  induction txq as [|tx txq IH]; intros r w log Hr Hml Hm Elr Hg Htr Hlen Hq; cbn [pfs_log_replaytx_put].
  { split; [by exists t|]. simpl in Hlen. rewrite Nat.add_0_r in Hlen. subst r. split_and!; try done. by exists w. }
  simpl in Hlen. destruct (lookup_lt_is_Some_2 H r) as [es Hes]; [lia|].
  assert (Hrep : replayed (T0 + Z.of_nat r + 1) es tx).
  { rewrite <- (Z.add_0_r (T0 + Z.of_nat r + 1)). apply (Hq 0%nat); [|done]. by rewrite lookup_drop, Nat.add_0_r. }
  destruct Hrep as (E1 & E2 & E3). rewrite E3. cbn [lift logio_bind]. unfold pfs_log_add_trimentry.
  rewrite E1, E2, Elr, (rk_size _ _ _ _ _ _ _ _ _ _ Hr). destruct Hg as [Hk Hw].
  assert (Hin : es ∈ drop t H).
  { apply list_elem_of_lookup. exists (r - t)%nat. rewrite lookup_drop. rewrite <- Hes. f_equal. lia. }
  assert (Hsz : Z.of_nat (length es) <= nslots).
  { pose proof (rk_room _ _ _ _ _ _ _ _ _ _ Hr) as Hroom.
    rewrite <- (pos_len_drop H t) in Hroom by apply Hr. pose proof (concat_elem_length _ _ Hin). lia. }
  assert (Hpl : Forall (fun le => (Z.to_nat (le_obj_idx le) < length (S0 (le_sector_bda le)))%nat) es).
  { pose proof (rk_placed _ _ _ _ _ _ _ _ _ _ Hr) as Hp. rewrite Forall_concat, Forall_forall in Hp.
    eapply Forall_impl; [apply (Hp es); by eapply list_elem_of_lookup_2|]. by intros le (_ & _ & ? & _). }
  assert (Hins : exists work, pfs_trimgroup_insert (log_workgrp log) (T0 + Z.of_nat (S r))
    (LE_SIZE * Z.of_nat (length es)) (redone <$> es) (LE_SIZE * nslots) = Some work /\
    grp_ok nslots S0 T0 O0 H w (S r) work) by (eapply trimgroup_insert_ok; first [done|apply redone_op_of|exact locate]).
  destruct Hins as (work & Ei & Hk').
  replace (T0 + Z.of_nat r + 1) with (T0 + Z.of_nat (S r)) by lia. rewrite Z.mul_comm, Ei. cbn [lift logio_bind].
  eapply safe_bind; [eapply (tryswap_ok nslots S0 T0 O0 ss _ _ _ (recoverable H)); [by exists t|by split|done|done]|].
  intros [log' rv] d' [-> (work' & wait' & w' & -> & Hg' & _)].
  eapply safe_mono; [by intros ? ?| |eapply (IH (S r) w')]; try done; try lia.
  intros i es' tx' Hi Htx. replace (T0 + Z.of_nat (S r) + 1 + Z.of_nat i) with (T0 + Z.of_nat r + 1 + Z.of_nat (S i)) by lia.
  apply Hq; [|done]. rewrite lookup_drop in Hi |- *. rewrite <- Hi. f_equal. lia.
Qed.

(** ** One request to a log thread that is not loaded *)
Abbreviation handle_loop := (log_handle_req_loop trimgroup_nsect_threshold trimgroup_ntx_threshold
  trimgroup_nsects_swapinmax log_skip_journal_probe fuel).
Abbreviation handler := (log_req_handler trimgroup_nsect_threshold trimgroup_ntx_threshold
  trimgroup_nsects_swapinmax log_skip_journal_probe fuel).
Abbreviation request := (pfs_log_request trimgroup_nsect_threshold trimgroup_ntx_threshold trimgroup_ntx_threshold_hard
  trimgroup_nsects_swapinmax log_trim_interval log_skip_journal_probe fuel turn_fuel).

Lemma loop_idle (I : disk -> Prop) (Q : log_thread -> disk -> Prop) th m d : I d -> Q th d ->
  (forall i, work_req th i = []) -> forall n i rv, hang \/ LOG_NREQ - i <= Z.of_nat n ->
  safe I (fun '(th', _) d' => Q th' d') (handle_loop n th m i rv) d.
Proof.
  intros HI HQ Hw. induction n as [|n IH]; intros i rv Hf; cbn [log_handle_req_loop];
    (destruct (Z.ltb_spec i LOG_NREQ); [|by split]); [split; [done|]; destruct Hf; [done|lia]|].
  rewrite Hw, bool_decide_eq_true_2, orb_true_r by done. apply IH. destruct Hf; [by left|right; lia].
Qed.

Lemma loop_one (I : disk -> Prop) (Q : log_thread -> disk -> Prop) th m d j : I d -> 1 <= j < LOG_NREQ ->
  Z.testbit m j = true -> work_req th j <> [] -> (forall i, i <> j -> work_req th i = []) ->
  safe I (fun '(th', rv) d' => I d' /\ rv <> LOG_IO_BACK /\ (forall i, work_req th' i = []) /\ Q th' d') (handler j th) d ->
  forall n i rv, 1 <= i <= j -> hang \/ LOG_NREQ - i <= Z.of_nat n ->
  safe I (fun '(th', _) d' => Q th' d') (handle_loop n th m i rv) d.
Proof.
  intros HI Hj Hm Hne Hw Hh. induction n as [|n IH]; intros i rv Hi Hf; cbn [log_handle_req_loop];
    (rewrite (proj2 (Z.ltb_lt i LOG_NREQ)) by lia); [split; [done|]; destruct Hf; [done|lia]|].
  assert (Hf' : hang \/ LOG_NREQ - (i + 1) <= Z.of_nat n) by (destruct Hf; [by left|right; lia]).
  destruct (decide (i = j)) as [->|Hij].
  - rewrite Hm, bool_decide_eq_false_2 by (by destruct (work_req th j)). cbn [negb orb].
    eapply safe_bind; [exact Hh|]. intros [th' rv'] d' (HI' & Hb & Hw' & HQ).
    destruct (rv' =? LOG_IO_STOP); [by split|].
    rewrite (proj2 (Z.eqb_neq rv' LOG_IO_BACK)) by done. by apply loop_idle.
  - rewrite Hw, bool_decide_eq_true_2, orb_true_r by done. apply IH; [lia|done].
Qed.

Lemma concat_empty l : forall th, (forall i, work_req th i = []) ->
  forall i, work_req (fold_left (fun th i => req_concat LOG_MERGED i th) l th) i = [].
Proof.
  induction l as [|j l IH]; intros th Hw; [done|]. cbn [fold_left]. apply IH. intros i.
  unfold req_concat. cbn [set_work_req work_req]. rewrite !Hw. simpl.
  destruct (decide (i = j)) as [->|]; [by rewrite fn_lookup_insert|]. rewrite fn_lookup_insert_ne by done.
  destruct (decide (i = LOG_MERGED)) as [->|]; [by rewrite fn_lookup_insert|by rewrite fn_lookup_insert_ne].
Qed.

Lemma request_ok (I : disk -> Prop) (Q : pfs_log -> meta -> Z -> list pfs_tx -> disk -> Prop) th j otxq d :
  I d -> log_state (th_log th) = LOGST_NOTLOADED -> (forall i, work_req th i = []) ->
  j = LOG_LOAD \/ j = LOG_REPLAYDONE ->
  (forall th1, th_log th1 = th_log th -> th_mem th1 = th_mem th -> th_out th1 = [] ->
     work_req th1 j = [MkReq 1 j None otxq 0 0] -> (forall i, i <> j -> work_req th1 i = []) ->
     safe I (fun '(th', rvh) d' => rvh <> LOG_IO_BACK /\ (forall i, work_req th' i = []) /\
         exists rv txq, th_out th' = [(1%nat, rv, txq)] /\ Q (th_log th') (th_mem th') rv txq d') (handler j th1) d) ->
  safe I (fun '(th', rv, txq) d' => (forall i, work_req th' i = []) /\ Q (th_log th') (th_mem th') rv txq d')
    (request th j None otxq) d.
Proof.
  intros HI Hst Hw Hj Hh. unfold pfs_log_request, log_thread_turn. cbn [work_req]. rewrite Hw.
  cbn [app distribute r_type]. set (th1 := set_work_req j _ _).
  assert (E1 : th_log th1 = th_log th /\ th_mem th1 = th_mem th /\ th_out th1 = []) by done.
  destruct E1 as (E1 & E2 & E3).
  assert (Hj1 : work_req th1 j = [MkReq 1 j None otxq 0 0]).
  { unfold th1. cbn [set_work_req work_req]. rewrite fn_lookup_insert. destruct Hj as [-> | ->];
      (rewrite fn_lookup_insert_ne by done); by rewrite Hw. }
  assert (Hi1 : forall i, i <> j -> work_req th1 i = []).
  { intros i Hi. unfold th1. cbn [set_work_req work_req]. rewrite fn_lookup_insert_ne by done.
    destruct (decide (i = LOG_MERGED)) as [->|]; [by rewrite fn_lookup_insert|]. by rewrite fn_lookup_insert_ne. }
  rewrite E1. unfold log_reqmask. rewrite Hst. cbn [Z.eqb lift logio_bind LOGST_NOTLOADED].
  set (m := log_bits _). change (Z.testbit m LOG_TRIM) with false. cbn [andb logio_bind]. unfold pfs_log_handle_req.
  eapply safe_bind; [eapply safe_bind; [eapply (loop_one I (fun th' d' => I d' /\ (forall i, work_req th' i = []) /\
    exists rv txq, th_out th' = [(1%nat, rv, txq)] /\ Q (th_log th') (th_mem th') rv txq d') th1 m d j)|]|].
  - done.
  - destruct Hj as [-> | ->]; done.
  - destruct Hj as [-> | ->]; done.
  - by rewrite Hj1.
  - done.
  - eapply safe_mono; [by intros ? ?| |by apply Hh]. intros [th' rvh] d' HI' (H1 & H2 & H3). done.
  - destruct Hj as [-> | ->]; done.
  - done.
  - intros [th2 rv2] d2 HQ. destruct HQ as (HI2 & Hw2 & rv & txq & Eo & HQ). split; [done|].
    instantiate (1 := fun th' d' => I d' /\ (forall i, work_req th' i = []) /\
      exists rv txq, th_out th' = [(1%nat, rv, txq)] /\ Q (th_log th') (th_mem th') rv txq d').
    destruct (concat_same req_types th2) as (C1 & C2 & C3). split; [done|]. split; [by apply concat_empty|].
    exists rv, txq. by rewrite C1, C2, C3.
  - intros th3 d3 (HI3 & Hw3 & rv & txq & -> & HQ). by split.
Qed.

(** ** Loading the journal *)

(** The log as the mount leaves it for the log thread. *)
Record fresh_log (d : disk) (H : history) (t : nat) (log : pfs_log) : Prop := {
  fl_mnt : log_mount log = mnt;
  fl_state : log_state log = LOGST_NOTLOADED;
  fl_wait : log_replay_wait log = false;
  fl_lr : log_leader log = d_leader d;
  fl_work : grp_ok nslots S0 T0 O0 H t t (log_workgrp log);
  fl_empty : grp_empty (log_waitgrp log) }.

Lemma fresh_grps d H t log : fresh_log d H t log -> grps_ok H t t t (log_workgrp log) (log_waitgrp log).
Proof. intros F. split; [apply F|]. left. split; [apply F|done]. Qed.

Definition load_done (d : disk) (H : history) (t : nat) (log log' : pfs_log) (rv : Z) (txq : list pfs_tx) : Prop :=
  (rv < 0 /\ txq = []) \/
  (log_mount log' = mnt /\ lr_body (log_leader log') = lr_body (d_leader d) /\
   log_workgrp log' = log_workgrp log /\ log_waitgrp log' = log_waitgrp log /\ txq = rtxs (T0 + Z.of_nat t) (drop t H) /\
   ((rv = 0 /\ t = length H /\ log_state log' = LOGST_SERVING /\ log_replay_wait log' = false) \/
    (0 < rv /\ (t < length H)%nat /\ log_state log' = LOGST_NOTLOADED /\ log_replay_wait log' = true))).

(** The scan of the live entries finds exactly the live transactions. *)
Lemma scan_live d H t log : rec_ok d H t -> lr_body (log_leader log) = lr_body (d_leader d) ->
  safe (recoverable H) (fun '(rv, txq) d' => d' = d /\ txq = rtxs (T0 + Z.of_nat t) (drop t H) /\
      rv = Z.of_nat (length (concat (drop t H))) * LE_SIZE)
    (pfs_log_scan fuel log (tail_offset (log_leader log)) (tail_txid (log_leader log)) (head_txid (d_leader d))) d.
Proof.
  intros Hr Elr. pose proof (rk_t _ _ _ _ _ _ _ _ _ _ Hr) as Ht. assert (HI : recoverable H d) by (by exists t).
  unfold pfs_log_scan. rewrite Elr, (rk_size _ _ _ _ _ _ _ _ _ _ Hr), (rk_toff _ _ _ _ _ _ _ _ _ _ Hr),
    (rk_tail _ _ _ _ _ _ _ _ _ _ Hr), (rk_head _ _ _ _ _ _ _ _ _ _ Hr).
  pose proof (Z.mod_pos_bound (O0 + pos H t) nslots Hn) as Hm.
  rewrite (proj2 (Z.ltb_lt _ _)) by (apply Z.mul_lt_mono_pos_l; [done|lia]).
  destruct (Z.eqb_spec (T0 + Z.of_nat t) (T0 + Z.of_nat (length H))) as [E|E].
  { assert (drop t H = []) as -> by (apply drop_ge; lia). by split. }
  pose proof (rk_room _ _ _ _ _ _ _ _ _ _ Hr) as Hroom. rewrite <- (pos_len_drop H t) in Hroom by done.
  pose proof (txs_ok_drop H t T0 L0 (rk_txs _ _ _ _ _ _ _ _ _ _ Hr)) as Hok.
  eapply safe_mono; [by intros ? ?| |
    apply (log_scan_loop_ok nslots ss Hn (recoverable H) log _ _ d
      ((0 + Z.of_nat (length (concat (drop t H)))) * LE_SIZE, [] ++ option_list None ++ rtxs (T0 + Z.of_nat t) (drop t H)))
      with (L := concat (drop t H)) (p := O0 + pos H t) (o := (O0 + pos H t) mod nslots) (r := 0)].
  - intros [rv txq] d' _ [-> [= -> ->]]. split_and!; [done|done|]. by rewrite Z.add_0_l.
  - done.
  - by rewrite Elr; apply Hr.
  - apply Hr.
  - done.
  - apply Hr.
  - by intros j le ?.
  - done.
  - lia.
  - simpl. rewrite !Z.add_0_r. by rewrite Z.mod_mod by lia.
  - eapply scan_txs; [exact Hok|intros E0; apply (f_equal length) in E0; rewrite length_drop in E0; simpl in E0; lia| |lia|left; lia|done].
    rewrite length_drop. lia.
  - lia.
Qed.

Lemma handle_load_ok d H t th : rec_ok d H t -> fresh_log d H t (th_log th) -> th_out th = [] ->
  work_req th LOG_LOAD = [MkReq 1 LOG_LOAD None [] 0 0] -> (forall i, i <> LOG_LOAD -> work_req th i = []) ->
  safe (recoverable H) (fun '(th', rvh) d' => rvh <> LOG_IO_BACK /\ (forall i, work_req th' i = []) /\
      exists rv txq, th_out th' = [(1%nat, rv, txq)] /\
        (d' = d /\ th_mem th' = th_mem th /\ load_done d H t (th_log th) (th_log th') rv txq))
    (handler LOG_LOAD th) d.
Proof.
  intros Hr [F1 F2 F3 F4 F5 F6] Ho Hq Hi. pose proof (rk_t _ _ _ _ _ _ _ _ _ _ Hr) as Ht.
  assert (HI : recoverable H d) by (by exists t).
  change (handler LOG_LOAD th) with (pfs_log_handle_load fuel th). unfold pfs_log_handle_load.
  rewrite F2, F3, Hq. cbn [negb Z.eqb LOGST_NOTLOADED].
  assert (Hempty : forall i, work_req (set_work_req LOG_LOAD [] th) i = []).
  { intros i. cbn [set_work_req work_req]. destruct (decide (i = LOG_LOAD)) as [->|]; [by rewrite fn_lookup_insert|].
    rewrite fn_lookup_insert_ne by done. by apply Hi. }
  eapply safe_bind with (R := fun '(log', rv, txq) d' => d' = d /\
    ((rv < 0 /\ txq = [] /\ log' = th_log th) \/
     (log_mount log' = mnt /\ lr_body (log_leader log') = lr_body (d_leader d) /\ log_state log' = LOGST_NOTLOADED /\
      log_replay_wait log' = false /\
      log_workgrp log' = log_workgrp (th_log th) /\ log_waitgrp log' = log_waitgrp (th_log th) /\
      txq = rtxs (T0 + Z.of_nat t) (drop t H) /\ rv = Z.of_nat (length (concat (drop t H))) * LE_SIZE))).
  - unfold pfs_log_load, pfs_leader_read. cbn [logio_bind]. split; [done|]. split.
    + cbn [snd]. destruct (Z.ltb_spec (leader_read_one (log_mount (th_log th)) (ss, d_leader d)) 0).
      { split; [done|]. split; [done|]. left. done. }
      rewrite F4, !Z.leb_refl, (rk_tail _ _ _ _ _ _ _ _ _ _ Hr), (rk_head _ _ _ _ _ _ _ _ _ _ Hr).
      rewrite (proj2 (Z.ltb_ge _ _)) by lia. rewrite <- (rk_head _ _ _ _ _ _ _ _ _ _ Hr), <- (rk_tail _ _ _ _ _ _ _ _ _ _ Hr), <- F4.
      eapply safe_bind; [rewrite F4 at 3; eapply scan_live; [done|by rewrite F4]|].
      intros [rv txq] d' (-> & -> & ->). rewrite (proj2 (Z.ltb_ge _ _)) by (rewrite LE_SIZE_eq; lia).
      split; [done|]. split; [done|]. right. split_and!; try done.
      * cbn [log_leader set_leader]. rewrite F4. by destruct (d_leader d) as [[]].
      * by rewrite F4, (rk_tail _ _ _ _ _ _ _ _ _ _ Hr).
    + intros rv lr Hrv. rewrite leader_read_fail, (proj2 (Z.ltb_lt rv 0)) by done.
      split; [done|]. split; [done|]. by left.
  - intros [[log' rv] txq] d' [-> Hres]. destruct Hres as [(Hneg & -> & ->)|(E1 & E2 & E3 & E4 & E5 & E6 & -> & ->)].
    + rewrite (proj2 (Z.ltb_lt rv 0)) by done. split; [done|]. split; [done|]. split; [done|].
      exists rv, []. split; [|split; [done|split; [done|by left]]]. cbn [pfs_log_reply th_out set_th_log set_work_req]. rewrite Ho.
      simpl. by destruct ((rv <? 0) && _)%bool.
    + pose proof (rk_room _ _ _ _ _ _ _ _ _ _ Hr) as Hroom. rewrite <- (pos_len_drop H t) in Hroom by done.
      rewrite (proj2 (Z.ltb_ge _ _)) by (rewrite LE_SIZE_eq; lia).
      assert (Hlen : (t < length H)%nat -> (0 < length (concat (drop t H)))%nat) by (intros ?; eapply live_pos; [apply Hr|done]).
      destruct (Z.eqb_spec (Z.of_nat (length (concat (drop t H))) * LE_SIZE) 0) as [E0|E0].
      * assert (t = length H) as Et.
        { destruct (decide (t = length H)); [done|]. rewrite LE_SIZE_eq in E0. specialize (Hlen ltac:(lia)). lia. }
        rewrite E2, (rk_tail _ _ _ _ _ _ _ _ _ _ Hr), (rk_head _ _ _ _ _ _ _ _ _ _ Hr), <- Et, Z.eqb_refl.
        split; [done|]. split; [done|]. split; [done|]. eexists _, _. split; [cbn; rewrite Ho; reflexivity|].
        split; [done|]. split; [done|]. right. split_and!; try done. left. done.
      * assert (t < length H)%nat as Et.
        { destruct (decide (t = length H)) as [->|]; [|lia]. rewrite drop_ge in E0 by done. done. }
        specialize (Hlen Et). split; [done|]. split; [done|]. split; [done|]. eexists _, _. split.
        { cbn [pfs_log_reply th_out set_th_log set_work_req r_id set_r_otxq r_otxq]. rewrite Ho, (proj2 (Z.ltb_ge _ _)) by (rewrite LE_SIZE_eq; lia).
          reflexivity. }
        split; [done|]. split; [done|]. right. split_and!; try done. right.
        split_and!; try done. rewrite LE_SIZE_eq. lia.
Qed.

(** ** End of the replay *)
Definition serving (d : disk) (H : history) (log : pfs_log) (mem : meta) : Prop :=
  (exists t w, host_ok d H t w (length H) log mem) /\ log_state log = LOGST_SERVING /\ log_replay_wait log = false.

Lemma handle_replaydone_ok d H t th txq : rec_ok d H t ->
  log_mount (th_log th) = mnt -> lr_body (log_leader (th_log th)) = lr_body (d_leader d) ->
  log_state (th_log th) = LOGST_NOTLOADED -> log_replay_wait (th_log th) = true ->
  grps_ok H t t t (log_workgrp (th_log th)) (log_waitgrp (th_log th)) ->
  (forall b, length (th_mem th b) = length (S0 b)) -> (forall b i, th_mem th b !! i = state H (length H) b !! i) ->
  length txq = length (drop t H) ->
  (forall i es tx, drop t H !! i = Some es -> txq !! i = Some tx -> replayed (T0 + Z.of_nat t + 1 + Z.of_nat i) es tx) ->
  th_out th = [] -> work_req th LOG_REPLAYDONE = [MkReq 1 LOG_REPLAYDONE None txq 0 0] ->
  (forall i, i <> LOG_REPLAYDONE -> work_req th i = []) ->
  safe (recoverable H) (fun '(th', rvh) d' => rvh <> LOG_IO_BACK /\ (forall i, work_req th' i = []) /\
      exists rv txq', th_out th' = [(1%nat, rv, txq')] /\
        (d' = d /\ th_mem th' = th_mem th /\ rv = 0 /\ txq' = [] /\ serving d H (th_log th') (th_mem th')))
    (handler LOG_REPLAYDONE th) d.
Proof.
  intros Hr F1 F2 F3 F4 Hg Hml Hm Hlen Hq Ho Hreq Hi. pose proof (rk_t _ _ _ _ _ _ _ _ _ _ Hr) as Ht.
  assert (HI : recoverable H d) by (by exists t).
  change (handler LOG_REPLAYDONE th) with (pfs_log_handle_replaydone trimgroup_nsect_threshold trimgroup_ntx_threshold
    trimgroup_nsects_swapinmax th). unfold pfs_log_handle_replaydone. rewrite F4, Hreq.
  rewrite length_drop in Hlen. cbn [r_otxq].
  eapply safe_bind; [eapply (replaytx_put_ok d H t (th_mem th) txq t t); try done; lia|].
  intros log' d' (-> & El & (C1 & C2 & C3 & _) & w & Hg'). rewrite C2, F3. cbn [Z.eqb LOGST_NOTLOADED].
  assert (Etail : tail_txid (log_leader log') = T0 + Z.of_nat t).
  { rewrite El, F2. apply (rk_tail _ _ _ _ _ _ _ _ _ _ Hr). }
  pose proof (delete_grps _ _ _ _ _ _ Hg') as Hg2. rewrite <- Etail in Hg2.
  set (log2 := set_log_state LOGST_SERVING (pfs_log_del_trimentry log' (tail_txid (log_leader log')))).
  assert (Hk : grp_ok nslots S0 T0 O0 H w (length H) (log_workgrp log2)) by apply Hg2.
  assert (Elr2 : lr_body (log_leader log2) = lr_body (d_leader d)) by (unfold log2; cbn; by rewrite El).
  rewrite (gk_hi _ _ _ _ _ _ _ _ Hk), (gk_off _ _ _ _ _ _ _ _ Hk), Elr2, (rk_head _ _ _ _ _ _ _ _ _ _ Hr),
    (rk_hoff _ _ _ _ _ _ _ _ _ _ Hr), !Z.eqb_refl. cbn [andb].
  set (th2 := set_th_log _ _). assert (Hw2 : forall i, work_req th2 i = []).
  { intros i. unfold th2. cbn [set_th_log set_work_req work_req].
    destruct (decide (i = LOG_REPLAYDONE)) as [->|]; [by rewrite fn_lookup_insert|].
    rewrite fn_lookup_insert_ne by done. by apply Hi. }
  unfold pfs_log_reply_queue. rewrite Hw2. cbn [reply_all]. split; [done|]. split; [done|]. split.
  - intros i. cbn [pfs_log_reply work_req set_work_req].
    destruct (decide (i = LOG_REPLAY_WAIT)) as [->|]; [by rewrite fn_lookup_insert|by rewrite fn_lookup_insert_ne].
  - exists 0, []. cbn [pfs_log_reply th_out set_work_req th2 set_th_log th_log th_mem]. rewrite Ho.
    split; [done|]. do 4 (split; [done|]). split; [|done]. exists t, w. split; try done.
    cbn. by rewrite C1, F1.
Qed.

(** ** [pfs_load_log] *)
Abbreviation load_log := (pfs_load_log trimgroup_nsect_threshold trimgroup_ntx_threshold trimgroup_ntx_threshold_hard
  trimgroup_nsects_swapinmax log_trim_interval log_skip_journal_probe fuel turn_fuel).

Definition mounted (d : disk) (H : history) (th : log_thread) (md : metadata) : Prop :=
  serving d H (th_log th) (th_mem th) /\ (forall i, work_req th i = []) /\
  md_ok chunkv md /\ mnt_objbuf md = th_mem th.

Lemma load_log_ok d H t th md : rec_ok d H t -> fresh_log d H t (th_log th) -> (forall i, work_req th i = []) ->
  th_mem th = d_sect d -> md_ok chunkv md -> mnt_objbuf md = d_sect d ->
  safe (recoverable H) (fun '(th', md', rv) d' => d' = d /\ (rv < 0 \/ (rv = 0 /\ mounted d H th' md'))) (load_log th md) d.
Proof.
  intros Hr F Hw Em Hmd Ebuf. pose proof (rk_t _ _ _ _ _ _ _ _ _ _ Hr) as Ht. assert (HI : recoverable H d) by (by exists t).
  pose proof (fresh_grps _ _ _ _ F) as Hg. unfold pfs_load_log.
  eapply safe_bind.
  { apply (request_ok (recoverable H) (fun log' mem' rv txq d' => d' = d /\ mem' = th_mem th /\ load_done d H t (th_log th) log' rv txq)).
    - done.
    - apply F.
    - done.
    - by left.
    - intros th1 E1 E2 E3 E4 E5. rewrite <- E1, <- E2. apply handle_load_ok; try done. by rewrite E1. }
  intros [[th1 rv] txq] d' (Hw1 & -> & Em1 & Hres).
  destruct Hres as [[Hneg ->]|(E1 & E2 & E3 & E4 & -> & Hrv)].
  { rewrite (proj2 (Z.ltb_lt rv 0)) by done. split; [done|]. split; [done|by left]. }
  destruct Hrv as [(-> & Et & E5 & E6)|(Hpos & Hlt & E5 & E6)].
  - simpl (0 <? 0). simpl (0 >? 0). rewrite (drop_ge H) by lia. cbn [rtxs length].
    split; [done|]. split; [done|]. right. split; [done|]. split; [|split_and!; [done|done|congruence]].
    split; [|done]. exists t, t. split; try done.
    + by rewrite E1.
    + rewrite <- Et. by rewrite E3, E4.
    + intros b. rewrite Em1, Em. apply Hr.
    + intros b i. rewrite Em1, Em. apply (rk_sect _ _ _ _ _ _ _ _ _ _ Hr). rewrite (drop_ge H) by lia.
      by intros (le & ?%elem_of_nil & _).
  - rewrite (proj2 (Z.ltb_ge rv 0)) by lia. destruct (Z.gtb_spec rv 0); [|lia].
    assert (Hne : drop t H <> []) by (intros E0; apply (f_equal length) in E0; rewrite length_drop in E0; simpl in E0; lia).
    assert (Hpl : Forall (le_placed locate S0) (concat (drop t H))).
    { pose proof (rk_placed _ _ _ _ _ _ _ _ _ _ Hr) as Hp. rewrite <- (take_drop t H), concat_app in Hp.
      by apply Forall_app in Hp as [_ ?]. }
    destruct (txlist_replay_ok chunkv S0 Hcv md (T0 + Z.of_nat t) (drop t H)) as (md' & txq' & -> & Hmd' & Ebuf' & Elen & Hq);
      try done; [intros b; rewrite Ebuf; apply Hr|lia|].
    rewrite bool_decide_eq_false_2 by (destruct (drop t H); done). cbn [negb lift logio_bind].
    eapply safe_bind.
    { apply (request_ok (recoverable H) (fun log' mem' rv txq d' => d' = d /\ mem' = mnt_objbuf md' /\ rv = 0 /\ txq = [] /\
        serving d H log' mem')).
      - done.
      - done.
      - done.
      - by right.
      - intros th2 G1 G2 G3 G4 G5. cbn [set_th_mem th_mem th_log] in G1, G2. rewrite <- G2.
        apply (handle_replaydone_ok d H t th2 txq'); try done; rewrite ?G1, ?G2; try done.
        + by rewrite E3, E4.
        + intros b. rewrite Ebuf', Ebuf, length_apply. apply Hr.
        + intros b i. rewrite Ebuf', Ebuf. by eapply rec_ok_replay. }
    intros [[th2 rv2] txq2] d2 (Hw2 & -> & Em2 & -> & -> & Hserv). split; [done|]. split; [done|].
    right. split; [done|]. split_and!; [done|done|done|congruence].
Qed.

(** ** [pfs_mount_load] *)
Abbreviation mount_load := (pfs_mount_load trimgroup_nsect_threshold trimgroup_ntx_threshold trimgroup_ntx_threshold_hard
  trimgroup_nsects_swapinmax log_trim_interval log_skip_journal_probe fuel turn_fuel).

Lemma check_crc_all buf : (forall i o, buf !! i = Some o -> obj_good o) -> pfs_metaobj_check_crc_buf buf = Some tt.
Proof.
  induction buf as [|o buf IH]; intros Hg; [done|]. simpl. destruct (Hg 0%nat o eq_refl) as [-> _].
  apply IH. intros i. apply (Hg (S i)).
Qed.

Lemma mount_meta_ok d H t : rec_ok d H t ->
  safe (recoverable H) (fun r d' => d' = d /\ forall log md, r = inr (log, md) ->
      md_ok chunkv md /\ mnt_objbuf md = d_sect d /\
      forall now, fresh_log d H t (pfs_log_start (set_leader (d_leader d) log) now))
    (mount_load_meta mnt chunkv) d.
Proof.
  intros Hr. pose proof (rk_t _ _ _ _ _ _ _ _ _ _ Hr) as Ht. assert (HI : recoverable H d) by (by exists t).
  unfold mount_load_meta, pfs_log_preload. cbn [logio_bind]. split; [done|]. split.
  2: { intros rv lr Hrv. rewrite (proj2 (Z.ltb_lt rv 0)) by done. split; [done|]. split; [done|]. by intros. }
  rewrite (proj2 (Z.ltb_ge ss 0)) by done. cbn [logio_bind]. split; [done|]. split_and!.
  - intros b. apply check_crc_all. intros i o. apply Hr.
  - cbn [negb Z.eqb]. assert (Hl : loaded chunkv (d_sect d)).
    { intros i ck ty Hck Hty si Hsi. rewrite (rk_slen _ _ _ _ _ _ _ _ _ _ Hr). by eapply HS0load. }
    destruct (init_tree_ok chunkv Hcv (d_sect d) MT_BLKTAG ltac:(done) Hl) as (bt & -> & Hbt).
    destruct (init_tree_ok chunkv Hcv (d_sect d) MT_DIRENTRY ltac:(done) Hl) as (de & -> & Hde).
    destruct (init_tree_ok chunkv Hcv (d_sect d) MT_INODE ltac:(done) Hl) as (ino & -> & Hino).
    cbn [lift logio_bind]. split; [done|]. split; [done|]. intros log md [= <- <-]. split; [|split; [done|]].
    + split; cbn [mnt_chunkv mnt_objbuf mnt_anode]; try done.
      * intros b i o Ho. by eapply (rk_good _ _ _ _ _ _ _ _ _ _ Hr).
      * intros ty [Hty1 Hty2]. assert (ty = MT_BLKTAG \/ ty = MT_DIRENTRY \/ ty = MT_INODE) as [->|[->| ->]]
          by (unfold MT_NONE, MT_BLKTAG, MT_DIRENTRY, MT_INODE, MT_NTYPE in *; lia); done.
    + intros now. split; try done. cbn [log_workgrp pfs_log_start set_log_latest set_log_trimts set_log_state set_leader].
      split; cbn [g_ltxid g_rtxid g_roffset]; [apply Hr|apply Hr|lia|apply Hr|].
      split; cbn [g_sects g_rootp g_nsects g_nsects_empty g_sect_empty_first pfs_trimgroup_init]; try done.
      * constructor.
      * intros b. simpl. rewrite elem_of_nil. split; [by intros ?%not_elem_of_empty|done].
      * intros le. rewrite drop_ge by (rewrite length_take; lia). by intros ?%elem_of_nil.
  - intros rv m Hrv. rewrite (proj2 (Z.eqb_neq rv 0)) by lia. cbn [negb]. split; [done|]. split; [done|]. by intros.
Qed.

Lemma mount_ok d H t : rec_ok d H t ->
  safe (recoverable H) (fun r d' => d' = d /\ forall th md, r = inr (th, md) -> mounted d H th md)
    (mount_load mnt chunkv) d.
Proof.
  intros Hr. assert (HI : recoverable H d) by (by exists t). unfold pfs_mount_load.
  eapply safe_bind; [by apply mount_meta_ok|]. intros [err|[log md]] d' [-> Hmd].
  { split; [done|]. split; [done|]. by intros. }
  destruct (Hmd _ _ eq_refl) as (M1 & M2 & M3). unfold mount_load_log, pfs_leader_read. cbn [logio_bind].
  split; [done|]. split.
  - cbn [snd]. destruct (_ <? 0). { split; [done|]. split; [done|]. by intros. }
    split; [done|]. intros now.
    eapply safe_bind; [eapply (load_log_ok d H t); try done; apply M3|].
    intros [[th' md'] rv] d' [-> Hres]. destruct Hres as [Hneg|[-> Hmt]].
    + rewrite (proj2 (Z.ltb_lt rv 0)) by done. split; [done|]. split; [done|]. by intros.
    + simpl (0 <? 0). split; [done|]. split; [done|]. by intros th md0 [= <- <-].
  - intros rv lr Hrv. rewrite leader_read_fail, (proj2 (Z.ltb_lt rv 0)) by done.
    split; [done|]. split; [done|]. by intros.
Qed.
End Recover.
