(* ===== verification/System.v ===== *)
(** * The metadata store as a whole

    A host that mounts the device, serves transactions, and can crash at any
    point, again and again.  It implements the simplest specification there
    is: a state of meta objects that changes by whole transactions.

    A write of the leader record can fail although the record reached its
    sector.  The host is then in doubt: it reported a failure, keeps the old
    record and the old cache, while the device holds the new state.  The
    specification allows both outcomes for the transaction, and the runs
    considered have no turn of a host in doubt: it is restarted first.
    [doubt_mixes] shows what happens otherwise. *)

From S2P Require Import Prelude Crc Lease Alloc Object Tx TxSafe LogIo Trim Log LogSem LogCirc LogInv Meta MetaInv TrimInv LogSafe LogThread Mount Replay MountSafe.

Open Scope Z_scope.

(** ** Specification *)

(** The objects after the transaction with the body [l]. *)
Definition ov_of (A : meta) (l : list act) : gmap key pfs_metaobj_phy := spec_acts A (0, 0) l ∅.
Definition commit (A : meta) (l : list act) : meta :=
  fun b => (fun obj => default obj (ov_of A l !! mo_key obj)) <$> A b.

(** [w] is the body of the transaction that a client has submitted; [ack]
    says that the client was told of its success, [doubt] that the turn left
    the leader sector with another record than the host has. *)
Inductive event :=
| EMount
| EMountFail
| ETurn (w : option (list act)) (ack doubt : bool)
| EIdle
| ECrash (w : option (list act)).

Inductive spec_step : meta -> event -> meta -> Prop :=
| sp_mount A : spec_step A EMount A
| sp_fail A : spec_step A EMountFail A
| sp_idle A : spec_step A EIdle A
| sp_refused A w doubt : spec_step A (ETurn w false doubt) A
| sp_done A l doubt : spec_step A (ETurn (Some l) true doubt) (commit A l)
| sp_doubt A l : spec_step A (ETurn (Some l) false true) (commit A l)
| sp_crash A w : spec_step A (ECrash w) A
| sp_crash_done A l : spec_step A (ECrash (Some l)) (commit A l).

Inductive spec_steps : meta -> list event -> meta -> Prop :=
| sps_nil A : spec_steps A [] A
| sps_cons A e A' es A'' : spec_step A e A' -> spec_steps A' es A'' -> spec_steps A (e :: es) A''.

(** ** Extensionality *)
Lemma spec_act_ext A B a : (forall b, A b = B b) -> forall k ov, spec_act A k a ov = spec_act B k a ov.
Proof.
  intros HAB. revert a. fix IH 1. intros [f|bda idx body cb] k ov; [done|]. simpl. rewrite HAB.
  destruct (B bda !! Z.to_nat idx) as [obj|]; [|done]. f_equal. generalize (ov_open obj ov).
  induction body as [|a l IHl]; intros ov'; [done|]. by rewrite IH, IHl.
Qed.

Lemma ov_of_ext A B l : (forall b, A b = B b) -> ov_of A l = ov_of B l.
Proof.
  intros HAB. unfold ov_of. generalize (∅ : gmap key pfs_metaobj_phy).
  induction l as [|a l IH]; intros ov; [done|]. simpl. by rewrite (spec_act_ext A B a HAB), IH.
Qed.

Lemma budget_le th : (budget th <= length (work_req th LOG_FLUSH) + 3)%nat.
Proof.
  unfold budget, rank. destruct (log_trim_forced _), (bool_decide _); try lia;
    destruct (_ =? _); try lia; destruct (_ =? _); lia.
Qed.

Section System.
Context (nslots ss : Z) (mnt : mount) (chunkv : list pfs_chunk).
Context (S0 : meta) (T0 L0 O0 : Z).
Context (trimgroup_nsect_threshold trimgroup_ntx_threshold trimgroup_ntx_threshold_hard : Z).
Context (trimgroup_nsects_swapinmax log_trim_interval log_skip_journal_probe : Z) (fuel turn_fuel : nat).

(** ** The system *)
Record sys := MkSys { sys_disk : disk; sys_up : option log_thread }.

Abbreviation mount_load := (pfs_mount_load trimgroup_nsect_threshold trimgroup_ntx_threshold trimgroup_ntx_threshold_hard
  trimgroup_nsects_swapinmax log_trim_interval log_skip_journal_probe fuel turn_fuel mnt chunkv).
Abbreviation turn := (log_thread_turn trimgroup_nsect_threshold trimgroup_ntx_threshold trimgroup_ntx_threshold_hard
  trimgroup_nsects_swapinmax log_trim_interval log_skip_journal_probe fuel turn_fuel).
Abbreviation swap := (log_thread_swap trimgroup_nsect_threshold trimgroup_ntx_threshold trimgroup_nsects_swapinmax).

(** A transaction of a client: its body ran on the meta cache [mem] and
    changed something; it fits the journal. *)
Record client_tx (mem : meta) (l : list act) (tx : pfs_tx) : Prop := {
  ct_ok : acts_ok mem true l;
  ct_run : exists tx0, run_acts mem None l (pfs_tx_get TXT_WRITE false) = Some tx0 /\ tx = set_t_done true tx0;
  ct_ne : ov_of mem l <> ∅;
  ct_used : forall k o, ov_of mem l !! k = Some o -> used01 o;
  ct_size : Z.of_nat (size (ov_of mem l)) <= nslots }.

(** The requests of the clients when a turn starts: at most one write, whose
    thread holds the meta lock, and requests of other threads. *)
Definition clients (th : log_thread) (w : option (list act)) : Prop :=
  match w with
  | None => work_req th LOG_WRITE = []
  | Some l => exists req tx, work_req th LOG_WRITE = [req] /\ r_itx req = Some tx /\ client_tx (th_mem th) l tx
  end /\
  Forall (fun r => r_otxq r = []) (work_req th LOG_POLL) /\ work_req th LOG_REPLAYDONE = [] /\ ids_ok th th.

Definition acked (th1 th' : log_thread) : Prop :=
  exists req txq, req ∈ work_req th1 LOG_WRITE /\ (r_id req, 0, txq) ∈ th_out th'.

(** The replies of the turn before have been taken. *)
Definition clear_out (th : log_thread) : log_thread := MkTh (th_log th) (th_mem th) (work_req th) [].

(** The host has the record that is in the leader sector. *)
Definition settled (d : disk) (th : log_thread) : Prop := lr_body (log_leader (th_log th)) = lr_body (d_leader d).

(** The programs a state can run. *)
Inductive running : sys -> forall A : Type, logio A -> Prop :=
| ru_mount d : running (MkSys d None) _ mount_load
| ru_turn d th reqs w : log_state (th_log th) = LOGST_SERVING -> settled d th -> clients (turn_queues (clear_out th) reqs) w ->
    running (MkSys d (Some th)) _ (turn (clear_out th) reqs)
| ru_swap d th mask ts swap_ts : running (MkSys d (Some th)) _ (swap th mask ts swap_ts).

Inductive step : sys -> event -> sys -> Prop :=
| s_mount d th md d' : rtc (lstep ss) (mount_load, d) (LRet (inr (th, md)), d') ->
    step (MkSys d None) EMount (MkSys d' (Some th))
| s_mount_fail d e d' : rtc (lstep ss) (mount_load, d) (LRet (inl e), d') ->
    step (MkSys d None) EMountFail (MkSys d' None)
| s_mount_crash d p d1 d' : rtc (lstep ss) (mount_load, d) (p, d1) -> lcrash (p, d1) d' ->
    step (MkSys d None) (ECrash None) (MkSys d' None)
| s_turn d th reqs w th' d' ack doubt : log_state (th_log th) = LOGST_SERVING -> settled d th ->
    clients (turn_queues (clear_out th) reqs) w ->
    rtc (lstep ss) (turn (clear_out th) reqs, d) (LRet th', d') ->
    (ack = true <-> acked (turn_queues (clear_out th) reqs) th') -> (doubt = false <-> settled d' th') ->
    step (MkSys d (Some th)) (ETurn w ack doubt) (MkSys d' (Some th'))
| s_turn_crash d th reqs w p d1 d' : log_state (th_log th) = LOGST_SERVING -> settled d th ->
    clients (turn_queues (clear_out th) reqs) w ->
    rtc (lstep ss) (turn (clear_out th) reqs, d) (p, d1) -> lcrash (p, d1) d' ->
    step (MkSys d (Some th)) (ECrash w) (MkSys d' None)
| s_swap d th mask ts swap_ts th' ts' d' : rtc (lstep ss) (swap th mask ts swap_ts, d) (LRet (th', ts'), d') ->
    step (MkSys d (Some th)) EIdle (MkSys d' (Some th'))
| s_swap_crash d th mask ts swap_ts p d1 d' : rtc (lstep ss) (swap th mask ts swap_ts, d) (p, d1) -> lcrash (p, d1) d' ->
    step (MkSys d (Some th)) (ECrash None) (MkSys d' None)
| s_crash d th : step (MkSys d (Some th)) (ECrash None) (MkSys d None).

Inductive steps : sys -> list event -> sys -> Prop :=
| ss_nil s : steps s [] s
| ss_cons s e s' es s'' : step s e s' -> steps s' es s'' -> steps s (e :: es) s''.

(** ** The invariant *)
Hypothesis Hn : 0 < nslots.
Hypothesis HO0 : 0 <= O0.
Hypothesis HT0 : 0 <= T0.
Hypothesis Hss : 0 <= ss.
Hypothesis Hmnt : mnt_sectsize mnt = ss.
Hypothesis Hcv : chunkv_ok chunkv.
Hypothesis HS0 : forall b i o, S0 b !! i = Some o -> locate chunkv (mo_type o) (mo_number o) = Some (b, i).
Hypothesis HS0good : forall b i o, S0 b !! i = Some o -> obj_good o.
Hypothesis HS0load : loaded chunkv S0.
Hypothesis Hfuel : nslots <= Z.of_nat fuel.
Hypothesis Hhard : trimgroup_ntx_threshold < trimgroup_ntx_threshold_hard.

Abbreviation locate := (MetaInv.locate chunkv).
Abbreviation host_ok := (host_ok nslots ss mnt locate S0 T0 L0 O0).
Abbreviation recoverable := (recoverable nslots mnt locate S0 T0 L0 O0).
Abbreviation state := (LogInv.state S0).
Abbreviation safe hang halt := (safe (hang := hang) (halt := halt) nslots ss).

Definition abs (A : meta) (H : history) : Prop := forall b, A b = state H (length H) b.

(** A thread after a turn; what the device holds is the state [A]. *)
Definition up_ok (d : disk) (H : history) (th : log_thread) : Prop :=
  (exists t w, host_ok d H t w (length H) (th_log th) (th_mem th)) /\ log_replay_wait (th_log th) = false.

(** A host in doubt: but for the record, the device is as its thread has it. *)
Definition doubt_ok (d : disk) (H : history) (th : log_thread) : Prop :=
  exists d1 H1, up_ok d1 H1 th /\ landed (recoverable H) d1 d.

Definition sys_inv (s : sys) (A : meta) : Prop := exists H, abs A H /\
  match sys_up s with
  | None => recoverable H (sys_disk s)
  | Some th => up_ok (sys_disk s) H th \/ doubt_ok (sys_disk s) H th
  end.

Lemma up_settled d H th : up_ok d H th -> settled d th.
Proof. intros [(t & w & Hh) _]. apply Hh. Qed.

Lemma doubt_unsettled d H th : doubt_ok d H th -> ~ settled d th.
Proof.
  intros (d1 & H1 & Hu%up_settled & lr & -> & Hne & _) E. unfold settled in *. cbn in E. congruence.
Qed.

Lemma up_crash d H th : up_ok d H th \/ doubt_ok d H th -> recoverable H d.
Proof. intros [[(t & w & Hh) _]|(d1 & H1 & _ & lr & _ & _ & ?)]; [exists t; apply Hh|done]. Qed.

Lemma mem_abs d H t w log mem A : host_ok d H t w (length H) log mem -> abs A H -> forall b, mem b = A b.
Proof.
  intros [_ _ _ _ Hl Hm] HA b. rewrite HA. apply list_eq. intros i. apply Hm.
Qed.

Lemma state_keys H : Forall (le_placed locate S0) (concat H) -> keys_unique (state H (length H)).
Proof.
  intros Hp b i o b' i' o' Ho Ho' Ek. eapply state_located in Ho; [|done..]. eapply state_located in Ho'; [|done..].
  unfold mo_key in Ek. injection Ek as E1 E2. rewrite E1, E2, Ho' in Ho. by injection Ho as -> ->.
Qed.

(** A client's transaction is ready to be committed. *)
Lemma client_ready mem l tx : client_tx mem l tx ->
  exists ops tx0, tx_ready mem tx ops /\ Z.of_nat (length ops) <= nslots /\ tx = set_t_done true tx0 /\
    tx_inv mem tx0 (ov_of mem l) [].
Proof.
  intros [C1 (tx0 & C2 & ->) C3 C4 C5]. destruct (run_ok mem l C1) as (tx1 & E & Hi).
  rewrite C2 in E. injection E as <-. destruct (tx_inv_ready mem tx0 (ov_of mem l)) as (ops & Hr); try done.
  { intros k o Ho. split; [|by eapply C4]. destruct (spec_acts_sealed mem l ∅ C1) with k o as [[]|?]; done. }
  exists ops, tx0. split; [done|]. split; [|done]. pose proof (tr_n _ _ _ Hr) as En. simpl in En.
  rewrite (ops_count _ _ _ Hi) in En. unfold ov_of in C5. lia.
Qed.

(** Its entries are the change of the specification. *)
Lemma client_commit d H t w log mem A l tx es : abs A H -> host_ok d H t w (length H) log mem ->
  client_tx mem l tx -> tx_will T0 L0 H tx es -> abs (commit A l) (H ++ [es]).
Proof.
  intros HA Hh Hc (ops' & E1 & E2). pose proof (mem_abs _ _ _ _ _ _ _ Hh HA) as Hm.
  destruct (client_ready _ _ _ Hc) as (ops & tx0 & Hr & _ & -> & Hi). rewrite (tr_ops _ _ _ Hr) in E1. injection E1 as <-.
  destruct (tx_entries_ready mem (T0 + Z.of_nat (length H) + 1) ops (L0 + pos H (length H)) (tr_op _ _ _ Hr))
    as (es' & E3 & _ & H2). rewrite E2 in E3. injection E3 as <-.
  assert (Hk : keys_unique mem).
  { intros b i o b' i' o'. rewrite !Hm, !HA. apply state_keys, (hk_rec _ _ _ _ _ _ _ _ _ _ _ _ _ _ _ Hh). }
  destruct (apply_ok mem Hk _ _ Hi) as (m' & E4 & _ & Hm').
  pose proof (pfs_tx_apply_ready _ _ _ Hr) as E5.
  change (pfs_tx_apply (set_t_done true tx0) mem) with (pfs_tx_apply tx0 mem) in E5. rewrite E5 in E4. injection E4 as <-.
  intros b. rewrite state_snoc. apply list_eq. intros i. unfold commit. rewrite (ov_of_ext A mem) by done.
  rewrite list_lookup_fmap.
  transitivity (foldl top_write mem ops b !! i).
  2: { rewrite (foldl_top_write _ _ H2). apply apply_agree; [|left]; by rewrite Hm, HA. }
  rewrite <- Hm. destruct (mem b !! i) as [o|] eqn:Eo; simpl; [by rewrite (Hm' _ _ _ Eo)|].
  symmetry. rewrite (foldl_top_write _ _ H2). apply lookup_ge_None_2. rewrite length_apply. by apply lookup_ge_None_1.
Qed.

(** ** The programs are safe *)
Lemma mount_safe {hang : Prop} d A H : abs A H -> recoverable H d -> hang \/ 10 <= Z.of_nat turn_fuel ->
  safe hang True (recoverable H) (fun r d' => d' = d /\ forall th md, r = inr (th, md) -> up_ok d H th /\ log_state (th_log th) = LOGST_SERVING)
    mount_load d.
Proof.
  intros HA [t Hr] Hf. eapply safe_mono; [by intros ? ?| |eapply mount_ok; done].
  intros r d' _ [-> Hm]. split; [done|]. intros th md ->. destruct (Hm _ _ eq_refl) as [(S1 & S2 & S3) _]. done.
Qed.

Lemma queues_clear th reqs : th_mem (turn_queues (clear_out th) reqs) = th_mem th /\
  th_log (turn_queues (clear_out th) reqs) = th_log th.
Proof.
  unfold turn_queues. destruct (distribute_same (work_req (clear_out th) LOG_MERGED ++ reqs)
    (set_work_req LOG_MERGED [] (clear_out th))) as (-> & -> & _). done.
Qed.

Lemma turn_safe {hang : Prop} d A H th reqs w : abs A H -> up_ok d H th -> log_state (th_log th) = LOGST_SERVING ->
  clients (turn_queues (clear_out th) reqs) w ->
  hang \/ (strict nslots (turn_queues (clear_out th) reqs) /\
    11 * Z.of_nat (budget (turn_queues (clear_out th) reqs)) + 10 <= Z.of_nat turn_fuel) ->
  safe hang False (fun d' => exists A' H', spec_step A (ECrash w) A' /\ abs A' H' /\ recoverable H' d')
    (fun th' d' => exists A' H' ack doubt, spec_step A (ETurn w ack doubt) A' /\ abs A' H' /\
       (if doubt : bool then doubt_ok d' H' th' else up_ok d' H' th') /\
       (ack = true <-> acked (turn_queues (clear_out th) reqs) th'))
    (turn (clear_out th) reqs) d.
Proof.
  intros HA [(t & wk & Hh) Hwait] Hst (Hw & Hpoll & Hrep & Hids) Hf.
  destruct (queues_clear th reqs) as [Emem Elog]. set (th1 := turn_queues (clear_out th) reqs) in *.
  assert (Hpend : forall es, pending T0 L0 H th1 es -> exists l, w = Some l /\ abs (commit A l) (H ++ [es])).
  { intros es (req & tx & Hin & Etx & Hwill). destruct w as [l|]; [|rewrite Hw in Hin; by apply elem_of_nil in Hin].
    destruct Hw as (req' & tx' & Eq & Etx' & Hc). rewrite Eq in Hin. apply list_elem_of_singleton in Hin as ->.
    rewrite Etx in Etx'. injection Etx' as <-. exists l. split; [done|]. eapply client_commit; try done. by rewrite <- Emem. }
  assert (Hti : th_inv nslots ss mnt locate S0 T0 L0 O0 H d th1).
  { split; rewrite ?Emem, ?Elog; try done; [by eexists _, _|]. destruct w as [l|]; [right|by left].
    destruct Hw as (req & tx & Eq & Etx & Hc). destruct (client_ready _ _ _ Hc) as (ops & tx0 & Hr & Hlen & _).
    rewrite Emem in Hr. by exists req, tx, ops. }
  eapply safe_mono; [| |eapply turn_ok; done].
  - intros d' [Hd'|(es & Hp & Hd')].
    + exists A, H. split; [constructor|done].
    + destruct (Hpend es Hp) as (l & -> & HA'). exists (commit A l), (H ++ [es]). split; [constructor|done].
  - intros th' d' _ (H' & t' & w' & d1 & Hh' & Hd1 & Hw' & Hdone). fold th1 in Hdone, Hd1.
    assert (Hup : up_ok d1 H' th') by (split; [by eexists _, _|done]).
    destruct Hdone as [[-> Hna]|(es & Hp & -> & req & rv & txq & P1 & P2 & P3)].
    + assert (Hack : false = true <-> acked th1 th').
      { split; [done|]. intros (req & txq & Hin & Hout). pose proof (Hna _ _ _ Hin Hout). lia. }
      destruct Hd1 as [->|(lr & E & Hne & [Hr|[_ (es & Hp & Hr)]])].
      * exists A, H, false, false. by split; [constructor|].
      * exists A, H, false, true. split; [constructor|]. split; [done|]. split; [|done]. exists d1, H. split; [done|by exists lr].
      * destruct (Hpend es Hp) as (l & -> & HA'). exists (commit A l), (H ++ [es]), false, true.
        split; [constructor|]. split; [done|]. split; [|done]. exists d1, H. split; [done|by exists lr].
    + destruct (Hpend es Hp) as (l & -> & HA').
      assert (Hack : true = true <-> acked th1 th').
      { split; [|done]. intros _. subst rv. by exists req, txq. }
      destruct Hd1 as [->|(lr & E & Hne & [Hr|[E' _]])].
      * exists (commit A l), (H ++ [es]), true, false. by split; [constructor|].
      * exists (commit A l), (H ++ [es]), true, true. split; [constructor|]. split; [done|]. split; [|done].
        exists d1, (H ++ [es]). split; [done|by exists lr].
      * apply (f_equal length) in E'. rewrite length_app in E'. simpl in E'. lia.
Qed.

Lemma swap_safe {hang : Prop} (I : disk -> Prop) d0 d H th mask ts swap_ts : I d0 -> up_ok d H th ->
  safe hang False I (fun '(th', _) d' => d' = d0 /\ up_ok d H th') (swap th mask ts swap_ts) d0.
Proof.
  intros HI Hu. pose proof Hu as [(t & w & Hh) Hwait].
  unfold log_thread_swap. destruct (_ && _)%bool; [|by split].
  eapply safe_bind; [by eapply swap_any|].
  intros [log' rv] d' (-> & _ & _ & (_ & _ & Ew & _) & w' & Hh' & _). split; [done|]. split; [done|].
  split; [by eexists _, _|]. cbn. congruence.
Qed.

(** The swap of a host that is in doubt or not. *)
Lemma swap_host {hang : Prop} d H th mask ts swap_ts : up_ok d H th \/ doubt_ok d H th ->
  safe hang False (recoverable H) (fun '(th', _) d' => d' = d /\ (up_ok d H th' \/ doubt_ok d H th')) (swap th mask ts swap_ts) d.
Proof.
  intros Hu. pose proof (up_crash _ _ _ Hu) as HI. destruct Hu as [Hu|(d1 & H1 & Hu & Hl)].
  - eapply safe_mono; [by intros ? ?| |by eapply swap_safe]. intros [th' ts'] d' _ [-> ?]. split; [done|by left].
  - eapply safe_mono; [by intros ? ?| |by eapply swap_safe]. intros [th' ts'] d' _ [-> ?]. split; [done|right]. by exists d1, H1.
Qed.

Lemma settled_up d H th : up_ok d H th \/ doubt_ok d H th -> settled d th -> up_ok d H th.
Proof. by intros [?|?%doubt_unsettled]. Qed.

Lemma clients_strict th reqs w : clients (turn_queues (clear_out th) reqs) w ->
  (forall l, w = Some l -> Z.of_nat (size (ov_of (th_mem th) l)) < nslots) ->
  strict nslots (turn_queues (clear_out th) reqs).
Proof.
  intros (Hw & _) Hs req tx Hin Etx. destruct w as [l|]; [|rewrite Hw in Hin; by apply elem_of_nil in Hin].
  destruct Hw as (req' & tx' & Eq & Etx' & Hc). rewrite Eq in Hin. apply list_elem_of_singleton in Hin as ->.
  rewrite Etx in Etx'. injection Etx' as <-. destruct (queues_clear th reqs) as [Em _]. rewrite Em in Hc.
  destruct (client_ready _ _ _ Hc) as (ops & tx0 & _ & _ & -> & Hi). simpl. rewrite (ops_count _ _ _ Hi). by apply Hs.
Qed.

(** ** Simulation *)
Lemma step_sim s e s' A : sys_inv s A -> step s e s' -> exists A', spec_step A e A' /\ sys_inv s' A'.
Proof.
  intros (H & HA & Hs) Hst.
  destruct Hst as [d th md d' Hx|d er d' Hx|d p d1 d' Hx Hc|d th reqs w th' d' ack doubt Hsv Hse Hcl Hx Hack Hdb
    |d th reqs w p d1 d' Hsv Hse Hcl Hx Hc|d th mask ts sts th' ts' d' Hx|d th mask ts sts p d1 d' Hx Hc|d th]; cbn [sys_up sys_disk] in Hs.
  - destruct (safe_sound _ _ _ _ _ _ _ _ (mount_safe _ _ _ HA Hs (or_introl I)) Hx) as (_ & HQ & _).
    destruct (HQ _ eq_refl) as [-> Hup]. exists A. split; [constructor|]. exists H. split; [done|]. left. by eapply Hup.
  - destruct (safe_sound _ _ _ _ _ _ _ _ (mount_safe _ _ _ HA Hs (or_introl I)) Hx) as (_ & HQ & _).
    destruct (HQ _ eq_refl) as [-> _]. exists A. split; [constructor|]. by exists H.
  - destruct (safe_sound _ _ _ _ _ _ _ _ (mount_safe _ _ _ HA Hs (or_introl I)) Hx) as (Hcr & _).
    exists A. split; [constructor|]. exists H. split; [done|]. by eapply Hcr.
  - apply settled_up in Hs; [|done].
    destruct (safe_sound _ _ _ _ _ _ _ _ (turn_safe _ _ _ _ _ _ HA Hs Hsv Hcl (or_introl I)) Hx) as (_ & HQ & _).
    destruct (HQ _ eq_refl) as (A' & H' & ack' & doubt' & Hsp & HA' & Hup & Hack').
    assert (Ed : doubt = doubt').
    { destruct doubt'; [apply doubt_unsettled in Hup|apply up_settled in Hup]; destruct doubt; tauto. }
    rewrite (eq_true_iff_eq ack ack'), Ed by tauto. exists A'. split; [done|]. exists H'. split; [done|].
    destruct doubt'; [by right|by left].
  - apply settled_up in Hs; [|done].
    destruct (safe_sound _ _ _ _ _ _ _ _ (turn_safe _ _ _ _ _ _ HA Hs Hsv Hcl (or_introl I)) Hx) as (Hcr & _).
    destruct (Hcr _ Hc) as (A' & H' & Hsp & HA' & Hr). exists A'. split; [done|]. by exists H'.
  - destruct (safe_sound _ _ _ _ _ _ _ _ (swap_host (hang := True) _ _ _ mask ts sts Hs) Hx) as (_ & HQ & _).
    destruct (HQ _ eq_refl) as [-> Hup]. exists A. split; [constructor|]. by exists H.
  - destruct (safe_sound _ _ _ _ _ _ _ _ (swap_host (hang := True) _ _ _ mask ts sts Hs) Hx) as (Hcr & _).
    exists A. split; [constructor|]. exists H. split; [done|]. by apply Hcr.
  - exists A. split; [constructor|]. exists H. split; [done|]. by apply up_crash in Hs.
Qed.

Lemma steps_sim s es s' A : sys_inv s A -> steps s es s' -> exists A', spec_steps A es A' /\ sys_inv s' A'.
Proof.
  intros Hi Hst. revert A Hi. induction Hst as [s|s e s1 es s2 Hst _ IH]; intros A Hi; [exists A; by split; [constructor|]|].
  destruct (step_sim _ _ _ _ Hi Hst) as (A1 & Hsp & Hi1). destruct (IH A1 Hi1) as (A2 & Hsps & Hi2).
  exists A2. split; [by econstructor|done].
Qed.

Lemma steps_app s es s' es' s'' : steps s es s' -> steps s' es' s'' -> steps s (es ++ es') s''.
Proof. induction 1 as [|? ? ? ? ? Hs _ IH]; intros H2; [done|]. eapply ss_cons; [exact Hs|by apply IH]. Qed.

Lemma running_safe s A T p : sys_inv s A -> running s T p -> exists I Q, safe True (sys_up s = None) I Q p (sys_disk s).
Proof.
  intros (H & HA & Hs) Hr. destruct Hr as [d|d th reqs w Hsv Hse Hcl|d th mask ts sts]; cbn [sys_up sys_disk] in *.
  - eexists _, _. eapply safe_halt; [|eapply mount_safe; try done; by left]. done.
  - eexists _, _. eapply safe_halt; [|eapply turn_safe; try done; [by eapply settled_up|by left]]. done.
  - eexists _, _. eapply safe_halt; [|by eapply swap_host]. done.
Qed.

(** The device as [mkfs] leaves it: nothing committed since the state [S0]. *)
Lemma made_inv d : rec_ok nslots mnt locate S0 T0 L0 O0 d [] 0 -> sys_inv (MkSys d None) S0.
Proof. intros Hr. exists []. split; [by intros b|]. by exists 0%nat. Qed.

Lemma up_cache s A th : sys_inv s A -> sys_up s = Some th -> settled (sys_disk s) th -> forall b, th_mem th b = A b.
Proof.
  intros (H & HA & Hs) E Hse. rewrite E in Hs. apply settled_up in Hs as [(t & w & Hh) _]; [|done]. by eapply mem_abs.
Qed.
End System.

(** ** Fault-free runs, executable *)
Fixpoint exec {A} (ss now : Z) (p : logio A) (d : disk) : option (A * disk) :=
  match p with
  | LRet a => Some (a, d)
  | LAbort | LHang => None
  | PreadLog len offset k => exec ss now (k (len, read_slots (slot offset) (Z.to_nat (len / LE_SIZE)) (d_log d))) d
  | PwriteLog buf offset k =>
      if (0 <? length buf)%nat then
        exec ss now (k (LE_SIZE * Z.of_nat (length buf))) (set_d_log (write_slots (slot offset) buf (d_log d)) d)
      else None
  | PwriteSect bda buf k => exec ss now (k 0) (set_d_sect (<[bda := buf]> (d_sect d)) d)
  | GetLeader k => exec ss now (k (ss, d_leader d)) d
  | PutLeader lr k => exec ss now (k ss) (set_d_leader lr d)
  | TryRdLock k => exec ss now (k true) d
  | ClockSec k => exec ss now (k now) d
  | LoadMeta k => exec ss now (k (0, d_sect d)) d
  end.

Lemma exec_sound {A} ss now (p : logio A) a d' : forall d, exec ss now p d = Some (a, d') ->
  rtc (lstep ss) (p, d) (LRet a, d').
Proof.
  induction p as [x| | |len off k IH|buf off k IH|bda buf k IH|k IH|lr k IH|k IH|k IH|k IH]; intros d E; simpl in E;
    try done; try (eapply rtc_l; [constructor|by apply IH]).
  - by injection E as -> ->.
  - destruct (Nat.ltb_spec 0 (length buf)); [|done]. eapply rtc_l; [apply (st_pwrite _ _ _ _ _ (length buf)); lia|].
    rewrite firstn_all. by apply IH.
  - done.
Qed.

(** Up to the first command that [at_] accepts. *)
Fixpoint until {A} (ss now : Z) (at_ : logio A -> bool) (p : logio A) (d : disk) : option (logio A * disk) :=
  if at_ p then Some (p, d) else
  match p with
  | LRet _ | LAbort | LHang => None
  | PreadLog len offset k => until ss now at_ (k (len, read_slots (slot offset) (Z.to_nat (len / LE_SIZE)) (d_log d))) d
  | PwriteLog buf offset k =>
      if (0 <? length buf)%nat then
        until ss now at_ (k (LE_SIZE * Z.of_nat (length buf))) (set_d_log (write_slots (slot offset) buf (d_log d)) d)
      else None
  | PwriteSect bda buf k => until ss now at_ (k 0) (set_d_sect (<[bda := buf]> (d_sect d)) d)
  | GetLeader k => until ss now at_ (k (ss, d_leader d)) d
  | PutLeader lr k => until ss now at_ (k ss) (set_d_leader lr d)
  | TryRdLock k => until ss now at_ (k true) d
  | ClockSec k => until ss now at_ (k now) d
  | LoadMeta k => until ss now at_ (k (0, d_sect d)) d
  end.

Lemma until_sound {A} ss now at_ (p p' : logio A) d' : forall d, until ss now at_ p d = Some (p', d') ->
  rtc (lstep ss) (p, d) (p', d').
Proof.
  induction p as [x| | |len off k IH|buf off k IH|bda buf k IH|k IH|lr k IH|k IH|k IH|k IH]; intros d E; simpl in E;
    (destruct (at_ _); [by injection E as <- <-|]); try done; try (eapply rtc_l; [constructor|by eapply IH]).
  - destruct (Nat.ltb_spec 0 (length buf)); [|done]. eapply rtc_l; [apply (st_pwrite _ _ _ _ _ (length buf)); lia|].
    rewrite firstn_all. by eapply IH.
  - done.
Qed.

Definition is_read {A} (p : logio A) : bool := match p with PreadLog _ _ _ => true | _ => false end.
Definition is_write {A} (p : logio A) : bool := match p with PwriteLog _ _ _ => true | _ => false end.
Definition is_put {A} (p : logio A) : bool := match p with PutLeader _ _ => true | _ => false end.

(** ** Properties *)

(** The fixed facts about a file system and the options of a host: sizes,
    the layout of the meta sectors and the objects that [mkfs] wrote there. *)
Record store_ok (nslots ss : Z) (mnt : mount) (chunkv : list pfs_chunk) (S0 : meta) (T0 : Z)
    (trimgroup_ntx_threshold trimgroup_ntx_threshold_hard : Z) (fuel : nat) : Prop := {
  so_nslots : 0 < nslots;
  so_txid : 0 <= T0;
  so_ss : 0 <= ss;
  so_mnt : mnt_sectsize mnt = ss;
  so_chunks : chunkv_ok chunkv;
  so_place : forall b i o, S0 b !! i = Some o -> MetaInv.locate chunkv (mo_type o) (mo_number o) = Some (b, i);
  so_good : forall b i o, S0 b !! i = Some o -> obj_good o;
  so_loaded : loaded chunkv S0;
  so_fuel : nslots <= Z.of_nat fuel;
  so_hard : trimgroup_ntx_threshold < trimgroup_ntx_threshold_hard }.

Section Properties.
Context (nslots ss : Z) (mnt : mount) (chunkv : list pfs_chunk) (S0 : meta) (T0 L0 O0 : Z).
Context (nsect_threshold ntx_threshold ntx_threshold_hard nsects_swapinmax trim_interval skip_probe : Z).
Context (fuel turn_fuel : nat).

Abbreviation made := (fun d => rec_ok nslots mnt (MetaInv.locate chunkv) S0 T0 L0 O0 d [] 0).
Abbreviation steps := (steps nslots ss mnt chunkv nsect_threshold ntx_threshold ntx_threshold_hard nsects_swapinmax
  trim_interval skip_probe fuel turn_fuel).
Abbreviation running := (running nslots mnt chunkv nsect_threshold ntx_threshold ntx_threshold_hard nsects_swapinmax
  trim_interval skip_probe fuel turn_fuel).

Lemma reach d es s : store_ok nslots ss mnt chunkv S0 T0 ntx_threshold ntx_threshold_hard fuel -> made d ->
  steps (MkSys d None) es s -> exists A, spec_steps S0 es A /\ sys_inv nslots ss mnt chunkv S0 T0 L0 O0 s A.
Proof. intros [] Hd Hst. eapply steps_sim in Hst; try done. by apply made_inv. Qed.

(** C1: the metadata store is atomic and durable.  Take a device as mkfs left
    it and any run of mounts, log thread turns, checkpoints and crashes at any
    I/O command, with reads and writes that fail, writes that are short or
    torn, and writes of the leader record that fail although the record
    reached its sector; after such a write the host is in doubt and must be
    restarted before its next turn ([settled]).  The run is one of the
    specification whose state changes by whole transactions only: a write that
    is acknowledged is applied in full, one that is refused or not answered is
    not applied unless the turn left the host in doubt, and a turn in doubt or
    a crash applies the write that was pending or nothing.  Whenever a host is
    up and not in doubt its meta cache is the state of the specification. *)
Theorem store_refines (d : disk) (es : list event) (s : sys)
    (Hok : store_ok nslots ss mnt chunkv S0 T0 ntx_threshold ntx_threshold_hard fuel)
    (Hd : made d) (Hst : steps (MkSys d None) es s) :
  exists A, spec_steps S0 es A /\
    forall th, sys_up s = Some th -> settled (sys_disk s) th -> forall b, th_mem th b = A b.
Proof.
  destruct (reach _ _ _ Hok Hd Hst) as (A & Hsp & Hi). exists A. split; [done|]. intros th Eth Hse. by eapply up_cache.
Qed.

(** C2: no assertion of the journal code ever fails, but for one: in every
    state that such a run reaches, the turns of the log thread of a host that
    is not in doubt and its checkpoints go through all their device commands,
    whatever the device answers, without reaching an abort; a mount aborts
    only on a journal read that failed, never on data that it read (the
    assertion of pfs_log_scan). *)
Theorem store_no_abort (d : disk) (es : list event) (s : sys) (T : Type) (p p' : logio T) (d' : disk)
    (Hok : store_ok nslots ss mnt chunkv S0 T0 ntx_threshold ntx_threshold_hard fuel)
    (Hd : made d) (Hst : steps (MkSys d None) es s) (Hr : running s T p)
    (Hx : rtc (lstep ss) (p, sys_disk s) (p', d')) :
  p <> LAbort /\ (p' = LAbort -> sys_up s = None) /\
  (forall d'', lstep ss (p', d') (LAbort, d'') -> reads p' d').
Proof.
  destruct (reach _ _ _ Hok Hd Hst) as (A & Hsp & Hi). destruct Hok.
  assert (Hs : exists I Q, safe (hang := True) (halt := sys_up s = None) nslots ss I Q p (sys_disk s))
    by (eapply running_safe; [..|exact Hi|exact Hr]; done).
  destruct Hs as (I & Q & Hs). split; [by eapply safe_no_abort|].
  split; [by destruct (safe_sound _ _ _ _ _ _ _ _ Hs Hx) as (_ & _ & ? & _)|].
  intros d'' Hab. by destruct (safe_abort _ _ _ _ _ _ _ _ _ Hs Hx Hab).
Qed.

(** C6: the log thread always comes back.  In every state that such a run
    reaches, a turn of a host that is not in doubt, with any requests of
    clients, whose write is smaller than the journal, performs finitely many
    device commands, whatever the device answers, and ends without an abort:
    the dispatch steps back at most once for every flush request and three
    times more, so its loop makes at most 11 rounds for each of these and 10
    more. *)
Theorem turn_terminates (d : disk) (es : list event) (s : sys) (th : log_thread) (reqs : list log_req) (w : option (list act))
    (Hok : store_ok nslots ss mnt chunkv S0 T0 ntx_threshold ntx_threshold_hard fuel)
    (Hd : made d) (Hst : steps (MkSys d None) es s) (Hup : sys_up s = Some th) (Hset : settled (sys_disk s) th)
    (Hsv : log_state (th_log th) = LOGST_SERVING) (Hcl : clients nslots (turn_queues (clear_out th) reqs) w)
    (Hsize : forall l, w = Some l -> Z.of_nat (size (ov_of (th_mem th) l)) < nslots)
    (Hfuel : 11 * (Z.of_nat (length (work_req (turn_queues (clear_out th) reqs) LOG_FLUSH)) + 3) + 10 <= Z.of_nat turn_fuel) :
  ends ss (log_thread_turn nsect_threshold ntx_threshold ntx_threshold_hard nsects_swapinmax trim_interval skip_probe
    fuel turn_fuel (clear_out th) reqs) (sys_disk s).
Proof.
  destruct (reach _ _ _ Hok Hd Hst) as (A & _ & H & HA & Hs). rewrite Hup in Hs. destruct Hok.
  eapply (safe_ends nslots ss (hang := False) (halt := False)); [|tauto|tauto].
  eapply turn_safe; try done; [by eapply settled_up|]. right. split; [by eapply clients_strict|].
  pose proof (budget_le (turn_queues (clear_out th) reqs)). lia.
Qed.

(** C3: recovery is exact.  In every state without a host that such a run
    reaches, a mount that succeeds writes nothing to the device, its meta cache
    is the state of the specification (the one that has a refused transaction
    only if the turn that refused it left the host in doubt), and its three
    allocation trees have exactly the unused objects of that state free, with
    the right counts at every node. *)
Theorem mount_recovers (d d' : disk) (es : list event) (s : sys) (th : log_thread) (md : metadata)
    (Hok : store_ok nslots ss mnt chunkv S0 T0 ntx_threshold ntx_threshold_hard fuel)
    (Hd : made d) (Hst : steps (MkSys d None) es s) (Hup : sys_up s = None)
    (Hx : rtc (lstep ss) (pfs_mount_load nsect_threshold ntx_threshold ntx_threshold_hard nsects_swapinmax
      trim_interval skip_probe fuel turn_fuel mnt chunkv, sys_disk s) (LRet (inr (th, md)), d')) :
  exists A, spec_steps S0 es A /\ d' = sys_disk s /\ (forall b, th_mem th b = A b) /\
    mnt_objbuf md = th_mem th /\ (forall t, is_mtype t -> tree_ok chunkv (th_mem th) t (mnt_anode md t)).
Proof.
  destruct (reach _ _ _ Hok Hd Hst) as (A & Hsp & H & HA & Hs). rewrite Hup in Hs. destruct Hok, Hs as [t Hr].
  exists A. split; [done|]. eapply safe_sound in Hx as (_ & HQ & _); [|eapply (mount_ok _ _ (hang := True) (halt := True)); [..|exact Hr]; by try left].
  destruct (HQ _ eq_refl) as [-> Hm]. destruct (Hm _ _ eq_refl) as ([(t' & w & Hh) _] & _ & Hmd & Eb).
  split; [done|]. split; [by eapply mem_abs|]. split; [done|]. rewrite <- Eb. apply Hmd.
Qed.
End Properties.

(** ** An example: a chunk with two objects of each type and a journal of
    eight entries; a block tag is taken into use *)
Module Example.
Definition ex_data (t : Z) : objdata :=
  if t =? MT_BLKTAG then
    DBlktag {| bt_ino := 0; bt_blkid := 0; bt_dstatus := 0; bt_ndiscard := 0; bt_holelen := 0; bt_holeoff := 0 |}
      (replicate 56 0)
  else if t =? MT_DIRENTRY then
    DDirentry {| de_name := replicate 64 0; de_ino := 0; de_dirino := 0; de_extdeno := 0 |}
  else
    DInode {| in_type := 0; in_flags := 0; in_padding := 0; in_pvtid := 0; in_deno := 0; in_nlink := 0; in_nblock := 0;
              in_size := 0; in_atime := 0; in_ctime := 0; in_mtime := 0; in_btime := 0 |} (replicate 16 0).
Definition ex_obj (t n : Z) : pfs_metaobj_phy := MkObj n 0 0 0 t 0 0 0 0 (ex_data t).
Definition ex_S0 : meta := fun b =>
  if b =? 4096 then [ex_obj 1 0; ex_obj 1 1] else if b =? 8192 then [ex_obj 2 0; ex_obj 2 1]
  else if b =? 12288 then [ex_obj 3 0; ex_obj 3 1] else [].
Definition ex_chunkv : list pfs_chunk := [MkCk 0 (fun t => MkMs t 1 (4096 * t) 1 128)].
Definition ex_mnt : mount :=
  MkMount true false false 4096 255 1 1 0 true 0 false (-1) (-1) true None.
Definition ex_leader : pfs_leader_record :=
  leader_seal {| lr_body := {| lr_magic := PFS_LEADER_MAGIC; lr_version := PFS_LEADER_VERSION_PRIMARY; lr_flags := 0;
    lr_sector_size := 4096; lr_num_hosts := 255; lr_max_hosts := 255; lr_unused := replicate 176 0;
    lr_tail_txid := 0; lr_head_txid := 0; lr_tail_offset := 0; lr_head_offset := 0;
    lr_log_size := 2048; lr_head_lsn := 0 |}; lr_checksum := 0 |}.
Definition ex_disk : disk := MkDisk (fun _ => MkLe zero_obj 0 0 0 0 0 0 (replicate 92 0)) ex_S0 ex_leader.
Definition ex_l : list act := [AOp 4096 0 [AModify (set_mo_used 1)] None].

Definition ex_mount (d : disk) : option (log_thread * disk) :=
  match exec 4096 0 (pfs_mount_load 10 100 200 10 10 0 8 50 ex_mnt ex_chunkv) d with
  | Some (inr (th, _), d) => Some (th, d)
  | _ => None
  end.
Definition ex_turn (th : log_thread) (d : disk) (reqs : list log_req) : option (log_thread * disk) :=
  exec 4096 0 (log_thread_turn 10 100 200 10 10 0 8 50 (clear_out th) reqs) d.
Definition ex_reqs (th : log_thread) : list log_req :=
  match run_acts (th_mem th) None ex_l (pfs_tx_get TXT_WRITE false) with
  | Some tx => [MkReq 1 LOG_WRITE (Some (set_t_done true tx)) [] 0 0]
  | None => []
  end.

Lemma ex_chunks : chunkv_ok ex_chunkv.
Proof.
  assert (Hck : forall i ck, ex_chunkv !! i = Some ck -> i = 0%nat /\ ck = MkCk 0 (fun t => MkMs t 1 (4096 * t) 1 128)).
  { intros [|i] ck E; [by injection E as <-|done]. }
  split; try done.
  - by intros i ck [-> ->]%Hck.
  - by intros i ck t [-> ->]%Hck Ht.
  - by intros i ck t [-> ->]%Hck Ht.
  - intros i ck t si i' ck' t' si' [-> ->]%Hck [-> ->]%Hck Ht Ht'. unfold sect_addr.
    cbn [ck_metaset ms_sectbda ms_objsize ms_opps ms_nsect]. change (Z.shiftl 128 1) with 256. intros. split_and!; lia.
Qed.

Lemma ex_cases (P : Z -> nat -> pfs_metaobj_phy -> Prop) :
  (forall t n, t ∈ [1; 2; 3] -> n ∈ [0; 1] -> P (4096 * t) (Z.to_nat n) (ex_obj t n)) ->
  forall b i o, ex_S0 b !! i = Some o -> P b i o.
Proof.
  intros HP b i o. unfold ex_S0.
  destruct (Z.eqb_spec b 4096) as [->|]; [|destruct (Z.eqb_spec b 8192) as [->|];
    [|destruct (Z.eqb_spec b 12288) as [->|]]]; destruct i as [|[|i]]; intros [= <-].
  all: first [refine (HP 1 0 _ _)|refine (HP 1 1 _ _)|refine (HP 2 0 _ _)|refine (HP 2 1 _ _)
    |refine (HP 3 0 _ _)|refine (HP 3 1 _ _)]; set_solver.
Qed.

Lemma ex_store : store_ok 8 4096 ex_mnt ex_chunkv ex_S0 0 100 200 8.
Proof.
  split; try done.
  - apply ex_chunks.
  - apply ex_cases. intros t n Ht Hn. repeat (apply elem_of_cons in Ht as [->|Ht]); [..|by apply elem_of_nil in Ht];
    (repeat (apply elem_of_cons in Hn as [->|Hn]); [..|by apply elem_of_nil in Hn]); vm_compute; reflexivity.
  - apply ex_cases. intros t n Ht Hn. split; [done|by left].
  - intros [|i] ck t E Ht si Hsi; [|done]. injection E as <-. simpl in Hsi. unfold is_mtype, MT_NONE, MT_NTYPE in Ht.
    assert (t = 1 \/ t = 2 \/ t = 3) as [->|[->| ->]] by lia; by replace si with 0 by lia.
Qed.

Lemma ex_made : rec_ok 8 ex_mnt (MetaInv.locate ex_chunkv) ex_S0 0 0 0 ex_disk [] 0.
Proof.
  assert (Hl : leader_ok ex_mnt ex_leader) by (vm_compute; reflexivity).
  assert (Hv : log_valid ex_disk) by (intros i; reflexivity).
  assert (Hg : forall b i o, ex_S0 b !! i = Some o -> obj_good o) by apply ex_store.
  split; cbn [d_leader d_sect d_log ex_disk]; first [exact Hl|exact Hv|exact Hg|done].
Qed.

(** The state after each step. *)
Definition ex_up1 : log_thread * disk := match ex_mount ex_disk with Some x => x | None => (MkTh (pfs_log_start (MkLog ex_mnt 0 false false false ex_leader ex_leader pfs_trimgroup_init pfs_trimgroup_init 0) 0) ex_S0 (fun _ => []) [], ex_disk) end.
Definition ex_up2 : log_thread * disk :=
  match ex_turn (fst ex_up1) (snd ex_up1) (ex_reqs (fst ex_up1)) with Some x => x | None => ex_up1 end.
Definition ex_up3 : log_thread * disk := match ex_mount (snd ex_up2) with Some x => x | None => ex_up2 end.

Lemma ex_mount1 : match ex_mount ex_disk with Some _ => true | None => false end = true.
Proof. vm_compute. reflexivity. Qed.
Lemma ex_turn2 : match ex_turn (fst ex_up1) (snd ex_up1) (ex_reqs (fst ex_up1)) with Some (th, _) => bool_decide (map fst (th_out th) = [(1%nat, 0)]) | None => false end = true.
Proof. vm_compute. reflexivity. Qed.
Lemma ex_mount3 : match ex_mount (snd ex_up2) with Some _ => true | None => false end = true.
Proof. vm_compute. reflexivity. Qed.
Definition ex_w3 : list event := [EMount; ETurn (Some ex_l) true false; ECrash None].
Definition ex_tx1 : pfs_metaobj_phy := seal (set_mo_used 1 (ex_obj 1 0)).

Abbreviation ex_step := (step 8 4096 ex_mnt ex_chunkv 10 100 200 10 10 0 8 50).
Lemma ex_mount_step d th d' : ex_mount d = Some (th, d') -> ex_step (MkSys d None) EMount (MkSys d' (Some th)).
Proof.
  unfold ex_mount. destruct (exec _ _ _ _) as [[[e|[th1 md]] d1]|] eqn:E; intros Eq; simplify_eq.
  eapply s_mount. by eapply exec_sound.
Qed.

Lemma ex_up1_eq : ex_mount ex_disk = Some ex_up1.
Proof. pose proof ex_mount1 as H. unfold ex_up1. destruct (ex_mount ex_disk); [reflexivity|discriminate H]. Qed.
Lemma ex_up3_eq : ex_mount (snd ex_up2) = Some ex_up3.
Proof. pose proof ex_mount3 as H. unfold ex_up3. destruct (ex_mount (snd ex_up2)); [reflexivity|discriminate H]. Qed.

Lemma ex_client mem tx : mem 4096 !! 0%nat = Some (ex_obj 1 0) -> ov_of mem ex_l = {[ (1, 0) := ex_tx1 ]} ->
  run_acts mem None ex_l (pfs_tx_get TXT_WRITE false) = Some tx -> client_tx 8 mem ex_l (set_t_done true tx).
Proof.
  intros Hm Ho Hr. split; rewrite ?Ho.
  - split; [|done]. apply act_ok_op. split; [done|]. split; [by exists (ex_obj 1 0)|]. split; [|done]. by split.
  - by exists tx.
  - apply map_non_empty_singleton.
  - intros k o [<- <-]%lookup_singleton_Some. by right.
  - by rewrite map_size_singleton.
Qed.

(** A turn with one write from idle queues. *)
Lemma ex_clients l th tx : (forall i, work_req th i = []) -> client_tx 8 (th_mem th) l tx ->
  clients 8 (turn_queues (clear_out th) [MkReq 1 LOG_WRITE (Some tx) [] 0 0]) (Some l).
Proof.
  intros Hw Hc. unfold turn_queues. cbn [clear_out work_req]. rewrite (Hw LOG_MERGED). cbn [app distribute r_type].
  unfold clients, ids_ok. cbn [set_work_req work_req clear_out th_mem].
  match goal with |- context [<[LOG_WRITE := ?f LOG_WRITE ++ _]> _] => assert (E : forall i, f i = []); [|generalize dependent f; intros g E] end.
  { intros i. destruct (decide (i = LOG_MERGED)) as [->|]; [by rewrite fn_lookup_insert|].
    by rewrite fn_lookup_insert_ne. }
  rewrite (E LOG_WRITE), fn_lookup_insert. split; [by eexists _, _|].
  rewrite !fn_lookup_insert_ne, !E by done. split; [done|]. split; [done|].
  intros i req' req Hi _ Hin. rewrite fn_lookup_insert_ne, E in Hin by done. by apply elem_of_nil in Hin.
Qed.

Lemma ex_mount_idle d th d' i : rec_ok 8 ex_mnt (MetaInv.locate ex_chunkv) ex_S0 0 0 0 d [] 0 ->
  ex_mount d = Some (th, d') -> work_req th i = [].
Proof.
  intros Hd Hm. unfold ex_mount in Hm.
  destruct (exec _ _ _ _) as [[[e|[th1 md]] d1]|] eqn:E; simplify_eq. apply exec_sound in E.
  eapply (safe_sound 8) in E as (_ & HQ & _); [|destruct ex_store; eapply (mount_ok _ _ (hang := True) (halt := True)); [..|exact Hd]; by try left].
  destruct (HQ _ eq_refl) as [-> Hmt]. by apply (Hmt _ _ eq_refl).
Qed.

Lemma ex_idle i : work_req (fst ex_up1) i = [].
Proof.
  pose proof ex_up1_eq as Hm. revert Hm. generalize ex_up1. intros [th d] Hm.
  exact (ex_mount_idle _ _ _ i ex_made Hm).
Qed.

Lemma ex_turn_step th1 d1 th d tx : ex_turn th1 d1 (ex_reqs th1) = Some (th, d) -> (forall i, work_req th1 i = []) ->
  log_state (th_log th1) = LOGST_SERVING -> th_mem th1 4096 !! 0%nat = Some (ex_obj 1 0) ->
  ov_of (th_mem th1) ex_l = {[ (1, 0) := ex_tx1 ]} ->
  run_acts (th_mem th1) None ex_l (pfs_tx_get TXT_WRITE false) = Some tx -> map fst (th_out th) = [(1%nat, 0)] ->
  settled d1 th1 -> settled d th ->
  ex_step (MkSys d1 (Some th1)) (ETurn (Some ex_l) true false) (MkSys d (Some th)).
Proof.
  intros E Hw Hst Hm Hov Er Ho Hse1 Hse2. unfold ex_reqs in E. rewrite Er in E.
  pose proof (ex_clients _ th1 _ Hw (ex_client _ _ Hm Hov Er)) as Hc.
  eapply s_turn; [done|done|exact Hc|exact (exec_sound _ _ _ _ _ _ E)| |done]. split; [|done]. intros _.
  destruct Hc as [(req & tx' & Eq & _) _]. exists req.
  assert (Ei : r_id req = 1%nat).
  { revert Eq. unfold turn_queues. cbn [clear_out work_req]. rewrite (Hw LOG_MERGED). cbn [app distribute r_type].
    cbn [set_work_req work_req clear_out]. rewrite fn_lookup_insert, fn_lookup_insert_ne, Hw by done. by intros [= <-]. }
  destruct (th_out th) as [|[[id rv] txq] [|]]; [done| |done]. injection Ho as -> ->. exists txq.
  rewrite Eq, Ei. split; by left.
Qed.

Lemma ex_turn_eq : ex_turn (fst ex_up1) (snd ex_up1) (ex_reqs (fst ex_up1)) = Some ex_up2 /\
  map fst (th_out (fst ex_up2)) = [(1%nat, 0)].
Proof.
  pose proof ex_turn2 as H. unfold ex_up2. destruct (ex_turn _ _ _) as [[th d]|]; [|discriminate H].
  split; [reflexivity|]. exact (bool_decide_eq_true_1 _ H).
Qed.
Lemma ex_serving : log_state (th_log (fst ex_up1)) = LOGST_SERVING.
Proof. vm_compute. reflexivity. Qed.
Lemma ex_settled1 : settled (snd ex_up1) (fst ex_up1).
Proof. vm_compute. reflexivity. Qed.
Lemma ex_settled2 : settled (snd ex_up2) (fst ex_up2).
Proof. vm_compute. reflexivity. Qed.
Lemma ex_settled3 : settled (snd ex_up3) (fst ex_up3).
Proof. vm_compute. reflexivity. Qed.
Lemma ex_cell : th_mem (fst ex_up1) 4096 !! 0%nat = Some (ex_obj 1 0).
Proof. vm_compute. reflexivity. Qed.
Lemma ex_overlay : ov_of (th_mem (fst ex_up1)) ex_l = {[ (1, 0) := ex_tx1 ]}.
Proof. vm_compute. reflexivity. Qed.

Lemma ex_run1 : steps 8 4096 ex_mnt ex_chunkv 10 100 200 10 10 0 8 50 (MkSys ex_disk None) [EMount]
  (MkSys (snd ex_up1) (Some (fst ex_up1))).
Proof.
  pose proof ex_up1_eq as H1. revert H1. generalize ex_up1. intros [th1 d1] H1.
  eapply ss_cons; [exact (ex_mount_step _ _ _ H1)|]. constructor.
Qed.

Lemma ex_client1 : exists tx, client_tx 8 (th_mem (fst ex_up1)) ex_l tx.
Proof.
  pose proof ex_cell as Hc. pose proof ex_overlay as Hv. revert Hc Hv. generalize (fst ex_up1). intros th1 Hc Hv.
  destruct (run_ok (th_mem th1) ex_l) as (tx & Er & _); [|exists (set_t_done true tx); by apply ex_client].
  split; [|done]. apply act_ok_op. split; [done|]. split; [by exists (ex_obj 1 0)|]. split; [|done]. by split.
Qed.

Lemma ex_size : Z.of_nat (size (ov_of (th_mem (fst ex_up1)) ex_l)) < 8.
Proof. by rewrite ex_overlay, map_size_singleton. Qed.

Lemma ex_flush tx : work_req (turn_queues (clear_out (fst ex_up1)) [MkReq 1 LOG_WRITE (Some tx) [] 0 0]) LOG_FLUSH = [].
Proof.
  pose proof ex_idle as Hi. revert Hi. generalize (fst ex_up1). intros th Hi. unfold turn_queues. cbn [clear_out work_req].
  rewrite (Hi LOG_MERGED). cbn [app distribute r_type set_work_req work_req clear_out].
  by rewrite !fn_lookup_insert_ne, Hi.
Qed.

Lemma ex_run3 : steps 8 4096 ex_mnt ex_chunkv 10 100 200 10 10 0 8 50 (MkSys ex_disk None) ex_w3
  (MkSys (snd ex_up2) None).
Proof.
  pose proof ex_up1_eq as H1.  destruct ex_turn_eq as [H2 Ho].
  pose proof ex_serving as Hs. pose proof ex_cell as Hc. pose proof ex_overlay as Hv. pose proof ex_idle as Hi.
  pose proof ex_settled1 as Hse1. pose proof ex_settled2 as Hse2.
  revert H1 H2 Ho Hs Hc Hv Hi Hse1 Hse2. generalize ex_up1, ex_up2.
  intros [th1 d1] [th2 d2] H1 H2 Ho Hs Hc Hv Hi Hse1 Hse2. cbn [fst snd] in *.
  eapply ss_cons; [exact (ex_mount_step _ _ _ H1)|]. clear H1.
  assert (Hr : exists tx, run_acts (th_mem th1) None ex_l (pfs_tx_get TXT_WRITE false) = Some tx).
  { destruct (run_ok (th_mem th1) ex_l) as (tx & ? & _); [|by exists tx].
    split; [|done]. apply act_ok_op. split; [done|]. split; [by exists (ex_obj 1 0)|]. split; [|done]. by split. }
  destruct Hr as [tx Hr]. eapply ss_cons; [exact (ex_turn_step _ _ _ _ _ H2 Hi Hs Hc Hv Hr Ho Hse1 Hse2)|].
  eapply ss_cons; [apply s_crash|]. constructor.
Qed.

Lemma ex_mount_up3 : exists md, rtc (lstep 4096) (pfs_mount_load 10 100 200 10 10 0 8 50 ex_mnt ex_chunkv, snd ex_up2)
  (LRet (inr (fst ex_up3, md)), snd ex_up3).
Proof.
  pose proof ex_up3_eq as H3. revert H3. generalize (snd ex_up2), ex_up3. intros d [th3 d3]. unfold ex_mount.
  destruct (exec _ _ _ _) as [[[e|[th md]] d1]|] eqn:E; intros H3; [discriminate H3| |discriminate H3].
  injection H3 as -> ->. exists md. exact (exec_sound _ _ _ _ _ _ E).
Qed.

Lemma ex_run4 : steps 8 4096 ex_mnt ex_chunkv 10 100 200 10 10 0 8 50 (MkSys ex_disk None) (ex_w3 ++ [EMount])
  (MkSys (snd ex_up3) (Some (fst ex_up3))).
Proof.
  eapply steps_app; [exact ex_run3|]. destruct ex_mount_up3 as [md Hx].
  eapply ss_cons; [exact (s_mount _ _ _ _ _ _ _ _ _ _ _ _ _ _ _ _ Hx)|]. constructor.
Qed.

Lemma ex_read3 : match until 4096 0 is_read (pfs_mount_load 10 100 200 10 10 0 8 50 ex_mnt ex_chunkv) (snd ex_up2) with
  | Some (PreadLog _ _ k, _) => match k (- 5, []) with LAbort => true | _ => false end
  | _ => false
  end = true.
Proof. vm_compute. reflexivity. Qed.

Lemma ex_read_aborts : exists p' d',
  rtc (lstep 4096) (pfs_mount_load 10 100 200 10 10 0 8 50 ex_mnt ex_chunkv, snd ex_up2) (p', d') /\
  lstep 4096 (p', d') (LAbort, d').
Proof.
  pose proof ex_read3 as H. revert H. generalize (snd ex_up2). intros d H.
  destruct (until _ _ _ _ _) as [[p' d']|] eqn:E; [|discriminate H]. destruct p' as [| | |len off k| | | | | | |]; try discriminate H.
  exists (PreadLog len off k), d'. split; [exact (until_sound _ _ _ _ _ _ _ E)|].
  destruct (k (- 5, [])) eqn:Ek; try discriminate H. rewrite <- Ek. by apply st_pread_fail.
Qed.

Lemma spec_one A e A' : spec_steps A [e] A' -> spec_step A e A'.
Proof. intros H. inversion H as [|? ? ? ? ? H1 H2]; subst. inversion H2; subst. done. Qed.

Lemma ex_spec4 A : spec_steps ex_S0 (ex_w3 ++ [EMount]) A -> A = commit ex_S0 ex_l.
Proof.
  unfold ex_w3. generalize ex_S0. intros S H. simpl in H.
  inversion H as [|? ? A1 ? ? H1 T1]; subst. inversion H1; subst.
  inversion T1 as [|? ? A2 ? ? H2 T2]; subst. inversion H2; subst.
  inversion T2 as [|? ? A3 ? ? H3 T3]; subst. inversion H3; subst.
  apply spec_one in T3. by inversion T3; subst.
Qed.

Lemma ex_spec A : spec_steps ex_S0 ex_w3 A -> A = commit ex_S0 ex_l.
Proof.
  unfold ex_w3. generalize ex_S0. intros S H.
  inversion H as [|? ? A1 ? ? H1 T1]; subst. inversion H1; subst.
  inversion T1 as [|? ? A2 ? ? H2 T2]; subst. inversion H2; subst.
  apply spec_one in T2. by inversion T2; subst.
Qed.
End Example.

Import Example.

(** The write survives the crash: the host that mounts again has it. *)
Lemma store_refines_witness : th_mem (fst ex_up3) 4096 = commit ex_S0 ex_l 4096 /\
  commit ex_S0 ex_l 4096 !! 0%nat = Some ex_tx1.
Proof.
  destruct (store_refines 8 4096 ex_mnt ex_chunkv ex_S0 0 0 0 10 100 200 10 10 0 8 50 ex_disk (ex_w3 ++ [EMount])
    (MkSys (snd ex_up3) (Some (fst ex_up3))) ex_store ex_made ex_run4) as (A & Hsp & Hm).
  split; [|vm_compute; reflexivity]. rewrite (Hm _ eq_refl ex_settled3), (ex_spec4 _ Hsp). reflexivity.
Defined.

(** The mount after the crash reads the journal; it aborts when that read
    fails and goes on when it does not. *)
Lemma store_no_abort_witness : exists (p' : logio (Z + log_thread * metadata)) d',
  lstep 4096 (p', d') (LAbort, d') /\ reads p' d'.
Proof.
  destruct ex_read_aborts as (p' & d' & Hx & Hab). exists p', d'. split; [exact Hab|].
  exact (proj2 (proj2 (store_no_abort 8 4096 ex_mnt ex_chunkv ex_S0 0 0 0 10 100 200 10 10 0 8 50 ex_disk ex_w3
    (MkSys (snd ex_up2) None) _ _ _ _ ex_store ex_made ex_run3 (ru_mount _ _ _ _ _ _ _ _ _ _ _ _) Hx)) d' Hab).
Defined.

(** A turn after the first mount, with the write. *)
Lemma turn_terminates_witness : exists tx, ends 4096 (log_thread_turn 10 100 200 10 10 0 8 50 (clear_out (fst ex_up1))
  [MkReq 1 LOG_WRITE (Some tx) [] 0 0]) (snd ex_up1).
Proof.
  destruct ex_client1 as [tx Hc]. exists tx.
  apply (turn_terminates 8 4096 ex_mnt ex_chunkv ex_S0 0 0 0 10 100 200 10 10 0 8 50 ex_disk [EMount]
    (MkSys (snd ex_up1) (Some (fst ex_up1))) (fst ex_up1) [MkReq 1 LOG_WRITE (Some tx) [] 0 0] (Some ex_l) ex_store ex_made ex_run1
    eq_refl ex_settled1 ex_serving (ex_clients _ _ _ ex_idle Hc)).
  - intros l E. injection E as <-. exact ex_size.
  - rewrite ex_flush. apply Z.leb_le. reflexivity.
Defined.

(** After the replay the block tag is not free any more. *)
Lemma mount_recovers_witness : exists md, mnt_objbuf md = th_mem (fst ex_up3) /\
  obj_free (mnt_anode md MT_BLKTAG) 0 = false /\ obj_free (mnt_anode md MT_BLKTAG) 1 = true.
Proof.
  destruct ex_mount_up3 as [md Hx]. exists md.
  destruct (mount_recovers 8 4096 ex_mnt ex_chunkv ex_S0 0 0 0 10 100 200 10 10 0 8 50 ex_disk _ ex_w3
    (MkSys (snd ex_up2) None) _ _ ex_store ex_made ex_run3 eq_refl Hx) as (A & Hsp & _ & Hm & Eb & Ht).
  split; [exact Eb|]. destruct (Ht MT_BLKTAG (conj eq_refl eq_refl)) as [_ _ _ Hf]. apply ex_spec in Hsp as ->.
  split.
  - rewrite (Hf 0 4096 0%nat ex_tx1); [reflexivity|reflexivity|]. rewrite Hm. vm_compute. reflexivity.
  - rewrite (Hf 1 4096 1%nat (ex_obj 1 1)); [reflexivity|reflexivity|]. rewrite Hm. vm_compute. reflexivity.
Defined.
