(* ===== verification/Doubt.v ===== *)
(** * A host in doubt that goes on

    A write of the leader record fails although the record reached its
    sector, and the host takes the next transaction.  The journal entries of
    the second one go where those of the first one are, while the device
    already counts them as committed: a crash in between makes the next mount
    recover a mixture of the two. *)

From S2P Require Import Prelude Crc Lease Alloc Object Tx TxSafe LogIo Trim Log LogSem LogCirc LogInv Meta MetaInv TrimInv LogSafe LogThread Mount Replay MountSafe System.

Open Scope Z_scope.

Import Example.


Abbreviation db_mount := (pfs_mount_load 10 100 200 10 10 0 8 50 ex_mnt ex_chunkv).
Abbreviation db_turn := (log_thread_turn 10 100 200 10 10 0 8 50).















